(* ===== verification/_CoqProject ===== *)
-Q . S2P
Prelude.v
GuestMem.v
AddrSpace.v
IoApic.v
PciHost.v
Ring.v
Uart16550.v
Pl011.v
LocalApic.v
Gicv3.v
VirtQueue.v
VirtioMmio.v
DiskImage.v
VirtioBlk.v
Qcow2.v
Qcow2Io.v
StdString.v
Ports.v
Stream.v
ProtocolV1.v
IpcStream.v
VmModel.v
RuntimeService.v
VirtioFs.v
VirtioChain.v
VirtioGpu.v
VdAgent.v
GuestAgent.v
VirtioSerial.v
VmSerial.v
NetPacket.v
HostIo.v
NetHost.v
NetNat.v
NetRelay.v
NetPf.v
NetFrames.v
VirtioNet.v
Clocks.v
ConsoleTx.v
Fdt.v
BootMem.v
AcpiTables.v
X86Boot.v
IoLoop.v
VirtioInput.v
VirtioSnd.v
ArmBoot.v
HvfDecode.v
HvfVcpu.v
HvfCtl.v
