(* ===== verification/Prelude.v ===== *)
(** * A verification library for the AgentSphere (TenBox) virtual machine monitor

    The repository (src/) is a cross-platform VMM with a desktop manager.
    This library models the part every guest depends on for correctness and
    isolation: the emulated hardware, the disk images and the shared folders
    of src/src/core; and the path of control and console messages between a
    VM's runtime process and its manager (src/src/ipc, src/src/runtime); and
    the user-mode network of src/src/core/net.
    The hypervisor back ends run the guest; each of its exits reaches
    [AddressSpace] (core/vmm), which routes it to a device; devices raise
    interrupts through an interrupt controller; virtio devices move data
    between guest RAM and a backend, for disks a raw or qcow2 image file.

    ** Files, in dependency order

    - [Prelude] (this file): notations, machine integers, byte codecs,
      sparse byte stores, loops, tactics and hint databases.
    - [GuestMem]: core/vmm/types.h, [Vm::AllocateMemory] (core/vmm/vm.cpp).
      [AllocateMemory_bijection]: address translation is the mapping the
      hypervisor was given, one to one.
    - [AddrSpace]: core/device/device.h, core/vmm/address_space.cpp.
      [HandleMmioWrite_routes]: a write reaches exactly the device that owns
      the address.
    - [IoApic], [PciHost]: core/device/irq/ioapic.cpp,
      core/device/pci/pci_host.h.  Register round trips, EOI, configuration
      reads by byte lane.
    - [Ring], [Uart16550], [Pl011]: core/device/serial/uart_16550.cpp,
      core/arch/aarch64/pl011.cpp.  The receive ring refines a bounded queue;
      the UART refines a queue specification over all access sequences;
      interrupt lines follow the registers.
    - [LocalApic]: core/device/irq/local_apic.cpp.  Timer invariant, current
      count, the stream of timer interrupts, IPI delivery.
    - [Gicv3]: core/device/irq/gicv3*.{h,cpp}.  Acknowledging
      returns the best signalled interrupt; EOI; enable registers; SPI
      delivery; the register reads that deadlock.
    - [VirtQueue], [VirtioMmio]: core/device/virtio/virtqueue.cpp,
      virtio_mmio.cpp.  Rings are drained in order without loss, used entries
      are published one by one, descriptor chains are walked faithfully;
      the transport's registers, invariant, queue programming, interrupts.
      A device is an instance of [VirtioDeviceOps] that satisfies
      [VirtioDeviceLaws].
    - [DiskImage]: core/disk/disk_image.{h,cpp}, raw_image.cpp.  The interface
      [DiskImage] with its laws (a disk is an array of bytes), proved for raw
      images.
    - [VirtioBlk]: core/device/virtio/virtio_blk.cpp, core/disk/disk_worker.cpp,
      over any [DiskImage] and as an instance of the transport's interface.
      A read returns what a completed write took; each request completes
      exactly once; configuration space; the sector wrap.
    - [Qcow2], [Qcow2Io]: core/disk/qcow2.{h,cpp}, qcow2_check.cpp.  Header
      validation, table growth, the write-back caches are transparent, the
      allocator is first fit and never hands out a cluster in use, guest
      reads are correct; stale data in reused clusters, unchecked discards.
    - [StdString]: the C++ library's string functions the next files use.
    - [Ports]: the records of common/ports.h.  [Stream]: incremental parsers
      over a byte stream in general; how the stream is cut into reads does
      not matter to them.
    - [ProtocolV1]: ipc/protocol_v1.{h,cpp}, the wire format of messages and
      its round trip.
    - [IpcStream]: the receivers of runtime/runtime_service.cpp,
      manager/manager_service.cpp and daemon/runtime_manager.cpp over
      ipc/unix_socket.cpp.  What was sent is received, in order, however the
      stream is cut; what line ends in values do to it.
    - [VmModel]: the port-forward rules of common/vm_model.h and their text
      form.
    - [RuntimeService]: runtime/runtime_service.{h,cpp}.  Every request is
      answered, end to end over the pipe; console output reaches the manager;
      which shares an update removes and adds.
    - [VirtioFs]: core/device/virtio/virtio_fs.{h,cpp}.  Paths handed to the
      host stay inside the mounted shares and read-only shares are not
      changed, for strings of paths; every request long enough is answered;
      the ways out.
    - [VirtioChain]: the request loop the virtio devices share.  [drain_all]:
      it handles each published request once, in order, and ends.
    - [VirtioGpu]: core/device/virtio/virtio_gpu.{h,cpp}.  [screen_update]: the
      host's display gets the guest's pixels; [gpu_command_answered].
    - [VdAgent]: core/vdagent/vdagent_handler.{h,cpp}.  [clipboard_roundtrip]:
      clipboard events arrive as they were sent, however they are cut.
    - [GuestAgent]: core/guest_agent/guest_agent_handler.{h,cpp}.
      [handshake_connects].
    - [VirtioSerial]: core/device/virtio/virtio_serial.{h,cpp}, over any client
      that is an instance of [SerialClient]; [VmSerial]: the VM's client, from
      core/vmm/vm.cpp.  [guest_clipboard_delivered]: from the transmit queue
      through device and agent to the host's clipboard.

    - [NetPacket]: core/net/net_packet.h, frame_builder.h.  Headers, the
      Internet checksum, its incremental update.
    - [HostIo]: handlers that call the host, with a trace of the calls.
      [NetHost]: the state of core/net/net_backend.h and its calls to
      sockets, libuv and lwIP, which an oracle answers.
    - [NetNat]: core/net/net_nat.cpp, the NAT table.  [nat_roundtrip]: replies
      come back from where the guest sent to, with valid checksums;
      [CreateNatEntry_ok]: proxy ports stay distinct; [cleanup_keeps_owned].
    - [NetRelay]: the TCP and UDP relay of net_nat.cpp.  [tcp_relay_fifo]:
      both directions are first in first out, whatever kernel and lwIP
      answer; [host_close_flushed]; what a guest's FIN loses.
    - [NetPf]: core/net/net_port_forward.cpp.  [NetFrames]: net_dhcp.cpp,
      net_icmp.cpp and the dispatch of net_backend.cpp.
      [dhcp_reply_parses]; what short frames make it read.
    - [VirtioNet]: core/device/virtio/virtio_net.{h,cpp} over any receiver,
      and the VM's.  [guest_frames_enqueued]: from the transmit queue to the
      network thread; [InjectRx_delivers]; the sum of lengths that wraps.

    - [IoLoop]: core/vmm/vm_io_loop.{h,cpp} over all interleavings of its
      callers, libuv and its thread.  [io_loop_safe]; [tasks_fifo];
      [stop_drains]; the loop that drops everything after a restart.
    - [VirtioInput]: core/device/virtio/virtio_input.{h,cpp} and the VM's key,
      pointer and wheel events.  [input_group_delivered];
      [input_capabilities]; the button release that is lost.
    - [VirtioSnd]: core/device/virtio/virtio_snd.{h,cpp}.  [tx_collects] and
      [ticks_play_in_order]: samples go to the audio port in order and at real
      rate; the odd byte behind a vector.

    - [Clocks]: core/device/timer, core/device/rtc, core/device/acpi.
      [pit_program_latch_read], [cmos_reads_time], [pl031_keeps_time];
      [pm_timer_exact], and the product that overflows.
    - [ConsoleTx]: core/vmm/console_tx_batcher.cpp, over all interleavings of
      its threads.  [console_conserved]; the chunks that change places.
    - [Fdt]: core/arch/aarch64/fdt_builder.cpp.  [fdt_roundtrip].
    - [BootMem]: guest RAM as a boot loader writes it.  [AcpiTables]:
      core/arch/x86_64/acpi.cpp, against a reader that interprets the AML:
      [acpi_tables_roundtrip].  [X86Boot]: core/arch/x86_64/boot.cpp.
      [linux_boot_view]: a kernel finds the configuration;
      [boot_stays_in_ram]; the RAM disk that is copied out of the guest.
    - [ArmBoot]: core/arch/aarch64/boot.cpp and [LoadKernel] of
      aarch64_machine.cpp.  [arm_boot_view]: the device tree, read back as a
      kernel does, describes the machine; the sums that wrap.

    - [HvfDecode], [HvfVcpu], [HvfCtl]: the vCPU of the macOS x86 back end,
      platform/macos/hypervisor/x86_64/hvf_vcpu.{h,cpp}, over
      Hypervisor.framework as a parameter.  [decode_encode]: the decoder
      against Intel's instruction format; [mmio_refines]: an emulated device
      access does what the processor would, fetched through the guest's page
      tables; [irqs_injected]: injection in order and once;
      [entry_state_kept], [vcpu_typed_kept]: what holds of every reachable
      vCPU; [kvmclock_accuracy]; [run_once_errors]; and the instructions,
      MSRs and clock rates it gets wrong.

    Each file opens with what its state and operations correspond to.

    ** Conventions

    A w-bit unsigned integer is a [Z] and every truncation is written out
    ([u8] to [u64]); bit operators are those of the sources, with a dot.
    A handler is one function from state to state, in the shape of the C++
    function, with its guards in order.  [None] (or an outcome of its own,
    in [Gicv3]) is undefined behaviour of the C++ program, or, in [Qcow2],
    a loop that does not end.  Callbacks out of a device are traced in its
    state or returned.  Threads appear as the order of steps: devices hold a
    mutex over each access, and the disk worker runs its tasks in order.

    ** Fuel

    [VirtQueue]'s and [VirtioBlk]'s drain loop takes 65536 iterations at most,
    because the available index is 16 bits wide ([pop_all_drains]); a
    descriptor walk visits at most the queue's size.  [zero_chunks] takes
    [len / 4096 + 2], proved enough in [zero_chunks_spec].  The qcow2 loops
    are [while64], which gives up after [2^64] iterations; [while64_total]
    proves that the reads and the table sizing end long before.  The loops of
    [ComputeKvmclockScale] run 31 times at most ([scale_down_run],
    [scale_up_run]).

    ** Outside the model

    Third-party code (the hypervisor interfaces, zlib and zstd, lwIP, libuv),
    host files beyond length, space and flush result, memory barriers and
    weak memory, logging.  Of the network backend: starting and stopping its
    thread, replacing the port forwards, and the Windows branches.  Not
    modelled: machine assembly (which device is registered where, vCPU
    threads), exit statistics, and the other back ends (KVM, WHP, macOS on
    ARM), which mostly call interfaces that are not in the repository; the
    rest of the daemon and manager and the user interfaces are out of
    scope. *)

(** ** Shared vocabulary

    Machine-width integers as [Z] with explicit truncation, the bit
    operators of C in a scope of their own ([c_scope]), little- and
    big-endian byte codecs, the read-modify-write idioms on the halves of a
    64-bit register, sparse byte stores, loops, and the tactics ([bitwise],
    [case_ifs]) and hint databases ([bits], [width]) the component files
    share. *)

From Stdlib Require Export ZArith Lia Bool Btauto.
From stdpp Require Export base tactics option list gmap.

Open Scope Z_scope.

(** ** Bit operators, written as in the C++ sources *)

Declare Scope c_scope.
Delimit Scope c_scope with c.

Notation "x .& y" := (Z.land x y) (at level 40, left associativity) : c_scope.
Notation "x .^ y" := (Z.lxor x y) (at level 45, left associativity) : c_scope.
Notation "x .| y" := (Z.lor x y) (at level 50, left associativity) : c_scope.
Notation "x .<< n" := (Z.shiftl x n) (at level 38, left associativity) : c_scope.
Notation "x .>> n" := (Z.shiftr x n) (at level 38, left associativity) : c_scope.

Open Scope c_scope.

(** ** Fixed-width unsigned integers

    [wrap w z] is the conversion of [z] to a [w]-bit unsigned integer. *)

Definition wrap (w z : Z) : Z := z mod 2 ^ w.

Abbreviation u8 := (wrap 8).
Abbreviation u16 := (wrap 16).
Abbreviation u32 := (wrap 32).
Abbreviation u64 := (wrap 64).

(** [bnot w z] is the C expression [~z] at width [w]. *)
Definition bnot (w z : Z) : Z := wrap w (Z.lnot z).

(** [has v m] is the C condition [(v & m) != 0]. *)
Definition has (v m : Z) : bool := negb (v .& m =? 0).

(** The value of a C [bool] used as an integer. *)
Definition b2z (b : bool) : Z := if b then 1 else 0.

Definition in_width (w z : Z) : Prop := 0 <= z < 2 ^ w.

Create HintDb width.

Lemma wrap_bound w z : 0 <= w -> 0 <= wrap w z < 2 ^ w.
Proof. intros Hw. apply Z.mod_pos_bound. lia. Qed.

Lemma wrap_in_width w z : 0 <= w -> in_width w (wrap w z).
Proof. apply wrap_bound. Qed.

Lemma wrap_small w z : in_width w z -> wrap w z = z.
Proof. intros H. apply Z.mod_small, H. Qed.

Lemma wrap_wrap w z : wrap w (wrap w z) = wrap w z.
Proof. unfold wrap. apply Zmod_mod. Qed.

Lemma wrap_add_l w a b : wrap w (wrap w a + b) = wrap w (a + b).
Proof. unfold wrap. apply Zplus_mod_idemp_l. Qed.

Lemma wrap_add_r w a b : wrap w (a + wrap w b) = wrap w (a + b).
Proof. unfold wrap. apply Zplus_mod_idemp_r. Qed.

Lemma wrap_sub_l w a b : wrap w (wrap w a - b) = wrap w (a - b).
Proof. unfold wrap. apply Zminus_mod_idemp_l. Qed.

Lemma wrap_sub_r w a b : wrap w (a - wrap w b) = wrap w (a - b).
Proof. unfold wrap. apply Zminus_mod_idemp_r. Qed.

Lemma wrap_land_ones w z : 0 <= w -> wrap w z = z .& Z.ones w.
Proof. intros Hw. symmetry. by apply Z.land_ones. Qed.

Lemma wrap_nonneg w z : 0 <= w -> 0 <= wrap w z.
Proof. intros. by apply wrap_bound. Qed.

#[export] Hint Resolve wrap_in_width wrap_nonneg : width.
#[export] Hint Extern 1 (0 <= _) => lia : width.

(** ** Reasoning bit by bit *)

Create Rewrite HintDb bits.

Lemma testbit_wrap w z i :
  0 <= w -> 0 <= i -> Z.testbit (wrap w z) i = (i <? w) && Z.testbit z i.
Proof.
  intros Hw Hi. unfold wrap. destruct (Z.ltb_spec i w).
  - by rewrite Z.mod_pow2_bits_low by lia.
  - by rewrite Z.mod_pow2_bits_high by lia.
Qed.

Lemma testbit_high w z i : in_width w z -> 0 <= w <= i -> Z.testbit z i = false.
Proof.
  intros Hz Hi. rewrite <- (wrap_small w z) by done.
  rewrite testbit_wrap by lia. by destruct (Z.ltb_spec i w); [lia|].
Qed.

Lemma testbit_ones w i : 0 <= w -> 0 <= i -> Z.testbit (Z.ones w) i = (i <? w).
Proof.
  intros Hw Hi. destruct (Z.ltb_spec i w).
  - apply Z.ones_spec_low. lia.
  - apply Z.ones_spec_high. lia.
Qed.

Lemma testbit_pow2 n i : 0 <= n -> 0 <= i -> Z.testbit (2 ^ n) i = (n =? i).
Proof. intros. rewrite Z.pow2_bits_eqb by lia. done. Qed.

Lemma testbit_bnot w z i :
  0 <= w -> 0 <= i -> Z.testbit (bnot w z) i = (i <? w) && negb (Z.testbit z i).
Proof. intros. unfold bnot. rewrite testbit_wrap, Z.lnot_spec by lia. done. Qed.

#[export] Hint Rewrite Z.land_spec Z.lor_spec Z.lxor_spec Z.ldiff_spec Z.testbit_0_l
  : bits.
#[export] Hint Rewrite Z.shiftl_spec Z.shiftr_spec Z.lnot_spec testbit_wrap
  testbit_ones testbit_pow2 testbit_bnot using lia : bits.
#[export] Hint Rewrite andb_true_r andb_false_r orb_true_r orb_false_r andb_diag orb_diag
  Z.sub_add Z.add_simpl_r
  : bits.

(** [bitwise] proves an equation of bit expressions by comparing every bit.
    Comparisons between the bit index and the constants of the goal are split. *)
Ltac bitwise_split :=
  repeat match goal with
  | |- context [?a <? ?b] => destruct (Z.ltb_spec a b); try lia
  | |- context [?a =? ?b] => destruct (Z.eqb_spec a b); try lia
  end.

Ltac bitwise_neg :=
  repeat match goal with
  | |- context [Z.testbit ?z ?k] =>
      first [ rewrite (Z.testbit_neg_r z k) by lia
            | erewrite (testbit_high _ z k) by (first [eassumption | lia]) ]
  end.

Ltac bitwise_step :=
  progress (autorewrite with bits; bitwise_split; cbn [andb orb negb xorb]).

Ltac bitwise :=
  apply Z.bits_inj'; intros ?i ?Hi;
  repeat bitwise_step; try done;
  bitwise_neg; repeat bitwise_step; try done;
  try (f_equal; lia); try btauto.

(** Case analysis on the conditions of the goal, closing the absurd cases. *)
Ltac case_ifs :=
  repeat match goal with
  | |- context [if ?b then _ else _] =>
      lazymatch b with context [if _ then _ else _] => fail | _ => idtac end;
      let E := fresh "E" in destruct b eqn:E
  end.

(** Turns the boolean comparisons of the hypotheses into propositions. *)
Ltac bool_hyps :=
  repeat match goal with
  | H : (_ && _) = true |- _ => apply andb_true_iff in H; destruct H
  | H : (_ || _) = false |- _ => apply orb_false_iff in H; destruct H
  | H : negb _ = true |- _ => apply negb_true_iff in H
  | H : negb _ = false |- _ => apply negb_false_iff in H
  | H : (_ <? _) = true |- _ => apply Z.ltb_lt in H
  | H : (_ <? _) = false |- _ => apply Z.ltb_ge in H
  | H : (_ <=? _) = true |- _ => apply Z.leb_le in H
  | H : (_ <=? _) = false |- _ => apply Z.leb_gt in H
  | H : (_ =? _) = true |- _ => apply Z.eqb_eq in H
  | H : (_ =? _) = false |- _ => apply Z.eqb_neq in H
  end.

(** Linear arithmetic with division and remainder by constants. *)
Ltac dlia := Z.div_mod_to_equations; lia.

(** ** The two halves of a 64-bit register

    The guest programs 64-bit registers through two 32-bit windows: the
    sources write [(r & 0xFFFFFFFF00000000) | v] for the low window and
    [(r & 0xFFFFFFFF) | (v << 32)] for the high one. *)

Definition set_lo32 (r v : Z) : Z := (r .& 0xFFFFFFFF00000000) .| v.
Definition set_hi32 (r v : Z) : Z := (r .& 0x00000000FFFFFFFF) .| (v .<< 32).
Definition lo32 (r : Z) : Z := u32 r.
Definition hi32 (r : Z) : Z := u32 (r .>> 32).

Lemma hi_mask_eq : 0xFFFFFFFF00000000 = Z.shiftl (Z.ones 32) 32.
Proof. reflexivity. Qed.
Lemma lo_mask_eq : 0xFFFFFFFF = Z.ones 32.
Proof. reflexivity. Qed.

Lemma lo32_set_lo32 r v : in_width 32 v -> lo32 (set_lo32 r v) = v.
Proof.
  intros Hv. unfold lo32, set_lo32. rewrite hi_mask_eq. bitwise.
Qed.

Lemma hi32_set_lo32 r v : in_width 32 v -> hi32 (set_lo32 r v) = hi32 r.
Proof.
  intros Hv. unfold hi32, set_lo32. rewrite hi_mask_eq. bitwise.
Qed.

Lemma lo32_set_hi32 r v : lo32 (set_hi32 r v) = lo32 r.
Proof. unfold lo32, set_hi32. rewrite lo_mask_eq. bitwise. Qed.

Lemma hi32_set_hi32 r v : in_width 32 v -> hi32 (set_hi32 r v) = v.
Proof.
  intros Hv. unfold hi32, set_hi32. rewrite lo_mask_eq. bitwise.
Qed.

Lemma set_hi_lo_eq r v : in_width 64 v -> set_hi32 (set_lo32 r (lo32 v)) (hi32 v) = v.
Proof.
  intros Hv. unfold set_hi32, set_lo32, lo32, hi32.
  rewrite hi_mask_eq, lo_mask_eq. bitwise.
Qed.

(** ** Closure of the widths under the bit operators *)

Lemma in_width_wrap w z : 0 <= w -> in_width w z <-> wrap w z = z.
Proof.
  intros Hw. split; [apply wrap_small|]. intros <-. by apply wrap_in_width.
Qed.

Lemma in_width_le v w z : 0 <= v <= w -> in_width v z -> in_width w z.
Proof.
  intros Hvw [? ?]. split; [done|]. pose proof (Z.pow_le_mono_r 2 v w). lia.
Qed.

Lemma in_width_land_l w a b : 0 <= w -> in_width w a -> in_width w (a .& b).
Proof.
  intros Hw Ha. apply in_width_wrap; [done|]. bitwise.
Qed.

Lemma in_width_land_r w a b : 0 <= w -> in_width w b -> in_width w (a .& b).
Proof. intros. rewrite Z.land_comm. by apply in_width_land_l. Qed.

Lemma in_width_lor w a b : 0 <= w -> in_width w a -> in_width w b -> in_width w (a .| b).
Proof. intros Hw Ha Hb. apply in_width_wrap; [done|]. bitwise. Qed.

Lemma in_width_shiftr w a n : 0 <= w -> 0 <= n -> in_width w a -> in_width w (a .>> n).
Proof. intros Hw Hn Ha. apply in_width_wrap; [done|]. bitwise. Qed.

Lemma in_width_shiftl v w a n : 0 <= v -> 0 <= n -> v + n <= w ->
  in_width v a -> in_width w (a .<< n).
Proof. intros Hv Hn Hw Ha. apply in_width_wrap; [lia|]. bitwise. Qed.

(** A mask of one bit tests it. *)
Lemma has_bit e n : 0 <= n -> has e (1 .<< n) = Z.testbit e n.
Proof.
  intros Hn. unfold has. destruct (Z.testbit e n) eqn:E.
  - destruct (Z.eqb_spec (e .& (1 .<< n)) 0) as [H0|]; [|done]. exfalso.
    assert (Hb : Z.testbit (e .& (1 .<< n)) n = true) by (rewrite Z.land_spec, E, Z.shiftl_spec, Z.sub_diag by lia; done).
    by rewrite H0, Z.testbit_0_l in Hb.
  - destruct (Z.eqb_spec (e .& (1 .<< n)) 0) as [|H0]; [done|]. exfalso. apply H0. apply Z.bits_inj'. intros i Hi.
    rewrite Z.land_spec, Z.testbit_0_l. destruct (Z.eqb_spec i n) as [->|]; [by rewrite E|].
    rewrite Z.shiftl_spec by lia. destruct (Z.ltb_spec i n); [rewrite (Z.testbit_neg_r 1) by lia; apply andb_false_r|].
    rewrite (testbit_high 1 1) by (unfold in_width; lia). apply andb_false_r.
Qed.

(** Joining two fields is addition. *)
Lemma lor_shiftl_add a b n : 0 <= n -> in_width n b -> (a .<< n) .| b = a * 2 ^ n + b.
Proof.
  intros Hn Hb. assert (E : (a .<< n) .& b = 0).
  { apply Z.bits_inj'. intros i Hi. rewrite Z.land_spec, Z.shiftl_spec, Z.testbit_0_l by done.
    destruct (Z.ltb_spec i n); [by rewrite (Z.testbit_neg_r a) by lia|].
    rewrite (testbit_high n b) by (done || lia). apply andb_false_r. }
  rewrite <- Z.lxor_lor, <- Z.add_nocarry_lxor by exact E. by rewrite Z.shiftl_mul_pow2.
Qed.

Lemma in_width_0 w : 0 <= w -> in_width w 0.
Proof. intros. split; [lia|]. apply Z.pow_pos_nonneg; lia. Qed.

#[export] Hint Resolve in_width_lor in_width_0 : width.

Lemma set_lo32_width r v : in_width 32 v -> in_width 64 (set_lo32 r v).
Proof.
  intros Hv. apply in_width_lor; [lia| |by eapply (in_width_le 32); [lia|]].
  apply in_width_land_r; [lia|]. by vm_compute.
Qed.

Lemma set_hi32_width r v : in_width 32 v -> in_width 64 (set_hi32 r v).
Proof.
  intros Hv. apply in_width_lor; [lia| |by eapply (in_width_shiftl 32)].
  apply in_width_land_r; [lia|]. by vm_compute.
Qed.

(** ** Little- and big-endian integers as byte lists *)

Fixpoint le_bytes (n : nat) (v : Z) : list Z :=
  match n with
  | O => []
  | S n => v mod 256 :: le_bytes n (v / 256)
  end.

Fixpoint le_val (l : list Z) : Z :=
  match l with
  | [] => 0
  | b :: t => b + 256 * le_val t
  end.

Definition be_bytes (n : nat) (v : Z) : list Z := rev (le_bytes n v).
Definition be_val (l : list Z) : Z := le_val (rev l).

Definition bytes_ok (l : list Z) : Prop := Forall (in_width 8) l.

Lemma length_le_bytes n v : length (le_bytes n v) = n.
Proof. revert v. induction n; intros; simpl; auto. Qed.

Lemma length_be_bytes n v : length (be_bytes n v) = n.
Proof. unfold be_bytes. by rewrite length_rev, length_le_bytes. Qed.

Lemma le_bytes_ok n v : bytes_ok (le_bytes n v).
Proof.
  revert v. induction n as [|n IH]; intros v; simpl; constructor; [|apply IH].
  apply (wrap_in_width 8). lia.
Qed.

Lemma be_bytes_ok n v : bytes_ok (be_bytes n v).
Proof. apply Forall_rev, le_bytes_ok. Qed.

Lemma le_val_le_bytes n v : le_val (le_bytes n v) = v mod 256 ^ Z.of_nat n.
Proof.
  revert v. induction n as [|n IH]; intros v; cbn [le_bytes le_val].
  - by rewrite Z.mod_1_r.
  - rewrite IH, Nat2Z.inj_succ, Z.pow_succ_r by lia.
    rewrite Z.rem_mul_r by lia. done.
Qed.

Lemma le_val_bound l : bytes_ok l -> 0 <= le_val l < 256 ^ Z.of_nat (length l).
Proof.
  induction 1 as [|b l [? ?] _ IH]; cbn [le_val length]; [done|].
  rewrite Nat2Z.inj_succ, Z.pow_succ_r by lia. lia.
Qed.

Lemma le_bytes_le_val l : bytes_ok l -> le_bytes (length l) (le_val l) = l.
Proof.
  induction 1 as [|b l [? ?] _ IH]; cbn [le_bytes le_val length]; [done|].
  rewrite (Z.mul_comm 256), Z_mod_plus_full, Z.mod_small by lia.
  rewrite Z.div_add, Z.div_small by lia. by rewrite Z.add_0_l, IH.
Qed.

Lemma le_val_app l1 l2 :
  le_val (l1 ++ l2) = le_val l1 + 256 ^ Z.of_nat (length l1) * le_val l2.
Proof.
  induction l1 as [|b l1 IH]; cbn [app le_val length]; [lia|].
  rewrite IH, Nat2Z.inj_succ, Z.pow_succ_r by lia. lia.
Qed.

Lemma be_val_be_bytes n v : be_val (be_bytes n v) = v mod 256 ^ Z.of_nat n.
Proof. unfold be_val, be_bytes. by rewrite rev_involutive, le_val_le_bytes. Qed.

Lemma be_bytes_be_val l : bytes_ok l -> be_bytes (length l) (be_val l) = l.
Proof.
  intros H. unfold be_bytes, be_val. rewrite <- (length_rev l) at 1.
  rewrite le_bytes_le_val by (by apply Forall_rev). apply rev_involutive.
Qed.

Lemma be_val_bound l : bytes_ok l -> 0 <= be_val l < 256 ^ Z.of_nat (length l).
Proof.
  intros H. unfold be_val. rewrite <- (length_rev l).
  apply le_val_bound, Forall_rev, H.
Qed.

(** The little-endian member of [n] bytes at [off] of a packed structure. *)
Definition field (n off : nat) (l : list Z) : Z := le_val (take n (drop off l)).

Lemma field_width n off l : bytes_ok l -> in_width (8 * Z.of_nat n) (field n off l).
Proof.
  intros Hb. unfold field. assert (Hl : bytes_ok (take n (drop off l))) by (by apply Forall_take, Forall_drop).
  pose proof (le_val_bound _ Hl) as Hv. split; [lia|]. rewrite Z.pow_mul_r by lia. change (2 ^ 8) with 256.
  eapply Z.lt_le_trans; [apply Hv|]. apply Z.pow_le_mono_r; [lia|]. rewrite length_take. lia.
Qed.

Lemma field_bound4 off l : bytes_ok l -> 0 <= field 4 off l < 2 ^ 32.
Proof. apply (field_width 4). Qed.
Lemma field_bound8 off l : bytes_ok l -> 0 <= field 8 off l < 2 ^ 64.
Proof. apply (field_width 8). Qed.

(** The member after a prefix of [off] bytes, as it was encoded. *)
Lemma field_encoded n off pre v suf :
  length pre = off -> in_width (8 * Z.of_nat n) v -> field n off (pre ++ le_bytes n v ++ suf) = v.
Proof.
  intros <- Hv. unfold field. rewrite drop_app_length.
  rewrite take_app_le by (rewrite length_le_bytes; lia). rewrite take_ge by (rewrite length_le_bytes; lia).
  rewrite le_val_le_bytes. apply Z.mod_small. unfold in_width in Hv. by rewrite Z.pow_mul_r in Hv by lia.
Qed.

(** [bswap n v] is the n-byte byte swap ([__builtin_bswap16/32/64]). *)
Definition bswap (n : nat) (v : Z) : Z := be_val (le_bytes n v).

Lemma bswap_involutive n v :
  in_width (8 * Z.of_nat n) v -> bswap n (bswap n v) = v.
Proof.
  intros Hv. unfold bswap.
  assert (E : le_bytes n (be_val (le_bytes n v)) = rev (le_bytes n v)).
  { unfold be_val. rewrite <- (length_le_bytes n v) at 1. rewrite <- length_rev.
    apply le_bytes_le_val, Forall_rev, le_bytes_ok. }
  rewrite E. unfold be_val. rewrite rev_involutive, le_val_le_bytes.
  apply Z.mod_small. unfold in_width in Hv. by rewrite Z.pow_mul_r in Hv by lia.
Qed.

(** ** Sparse byte stores

    Guest RAM and host files are both byte arrays: a finite map from offsets
    to bytes, in which an absent offset reads as 0. *)

Abbreviation store := (gmap Z Z).

Definition get8 (s : store) (a : Z) : Z := default 0 (s !! a).
Definition peek (s : store) (a n : Z) : list Z := get8 s <$> seqZ a n.
Definition poke (s : store) (a : Z) (l : list Z) : store := map_seqZ a l ∪ s.

Lemma length_peek s a n : length (peek s a n) = Z.to_nat n.
Proof. unfold peek. by rewrite length_fmap, length_seqZ. Qed.

Lemma lookup_peek s a n i :
  (i < Z.to_nat n)%nat -> peek s a n !! i = Some (get8 s (a + Z.of_nat i)).
Proof.
  intros Hi. unfold peek. rewrite list_lookup_fmap, lookup_seqZ_lt by lia. done.
Qed.

Lemma get8_poke_in s a l x b :
  a <= x -> l !! Z.to_nat (x - a) = Some b -> get8 (poke s a l) x = b.
Proof.
  intros Hx Hl. unfold get8, poke. rewrite (lookup_union_Some_l _ _ x b); [done|].
  apply lookup_map_seqZ_Some. done.
Qed.

Lemma get8_poke_out s a l x :
  x < a \/ a + Z.of_nat (length l) <= x -> get8 (poke s a l) x = get8 s x.
Proof.
  intros Hx. unfold get8, poke. rewrite lookup_union_r; [done|].
  apply lookup_map_seqZ_None. lia.
Qed.

Lemma peek_poke_same s a l : peek (poke s a l) a (Z.of_nat (length l)) = l.
Proof.
  apply list_eq. intros i. destruct (decide (i < length l)%nat) as [Hi|Hi].
  - rewrite lookup_peek by lia. destruct (lookup_lt_is_Some_2 l i Hi) as [b Hb].
    rewrite Hb. f_equal. apply get8_poke_in; [lia|].
    by replace (Z.to_nat (a + Z.of_nat i - a)) with i by lia.
  - rewrite !lookup_ge_None_2; [done|lia|]. rewrite length_peek. lia.
Qed.

Lemma peek_poke_disjoint s a l b n :
  b + n <= a \/ a + Z.of_nat (length l) <= b -> peek (poke s a l) b n = peek s b n.
Proof.
  intros Hd. unfold peek. apply list_fmap_ext. intros i x Hx.
  apply lookup_seqZ in Hx as [-> Hi]. apply get8_poke_out. lia.
Qed.

Lemma peek_app s a n m : 0 <= n -> 0 <= m -> peek s a (n + m) = peek s a n ++ peek s (a + n) m.
Proof. intros. unfold peek. rewrite seqZ_app by lia. by rewrite fmap_app. Qed.

(** Store bytes are 8-bit when every byte ever written is. *)
Definition store_ok (s : store) : Prop := map_Forall (fun _ b => in_width 8 b) s.

Lemma store_ok_poke s a l : store_ok s -> bytes_ok l -> store_ok (poke s a l).
Proof.
  intros Hs Hl. apply map_Forall_lookup_2. intros i x Hx.
  apply lookup_union_Some_raw in Hx as [Hx|[_ Hx]]; [|by eapply Hs].
  apply lookup_map_seqZ_Some in Hx as [_ Hx]. by eapply Forall_lookup_1.
Qed.

Lemma get8_ok s a : store_ok s -> in_width 8 (get8 s a).
Proof.
  intros Hs. unfold get8. destruct (s !! a) eqn:E; simpl; [by eapply Hs|done].
Qed.

Lemma peek_ok s a n : store_ok s -> bytes_ok (peek s a n).
Proof.
  intros Hs. apply Forall_lookup_2. intros i b Hb.
  apply list_lookup_fmap_Some in Hb as (x & -> & _). by apply get8_ok.
Qed.

(** ** Loops

    [while64 step s] runs a loop whose body is [step] ([inl]: another
    iteration, [inr]: exit).  [None] means more than [2^64] iterations, which
    the total rule [while64_total] excludes by a measure; the doubling of
    [iter2] keeps the definition executable. *)

Section While.
  Context {S R : Type} (step : S -> S + R).

Fixpoint iter_n (n : nat) (s : S) : S + R :=
  match n with
  | O => inl s
  | Datatypes.S n => match step s with inl s' => iter_n n s' | inr r => inr r end
  end.

Fixpoint iter2 (n : nat) (s : S) : S + R :=
  match n with
  | O => step s
  | Datatypes.S n => match iter2 n s with inl s' => iter2 n s' | inr r => inr r end
  end.

Definition while64 (s : S) : option R :=
  match iter2 64 s with inl _ => None | inr r => Some r end.

Lemma iter_n_add n m s :
  iter_n (n + m) s = match iter_n n s with inl s' => iter_n m s' | inr r => inr r end.
Proof.
  revert s. induction n as [|n IH]; intros s; cbn [iter_n Nat.add]; [done|].
  destruct (step s); [apply IH|done].
Qed.

Lemma iter2_iter_n n s : iter2 n s = iter_n (2 ^ n)%nat s.
Proof.
  revert s. induction n as [|n IH]; intros s; cbn [iter2].
  - cbn. by destruct (step s).
  - rewrite Nat.pow_succ_r'. replace (2 * 2 ^ n)%nat with (2 ^ n + 2 ^ n)%nat by lia.
    rewrite iter_n_add, IH. destruct (iter_n _ s); [apply IH|done].
Qed.

(** Total correctness: an invariant, a measure below [2^64] that decreases. *)
Lemma while64_total (Inv : S -> Prop) (m : S -> Z) (Post : R -> Prop) s :
  Inv s -> 0 <= m s < 2 ^ 64 ->
  (forall s, Inv s ->
     match step s with inl s' => Inv s' /\ 0 <= m s' < m s | inr r => Post r end) ->
  exists r, while64 s = Some r /\ Post r.
Proof.
  intros Hi Hm Hs.
  assert (G : forall n s, Inv s -> 0 <= m s < Z.of_nat n -> exists r, iter_n n s = inr r /\ Post r).
  { induction n as [|n IH]; intros s0 Hi0 Hm0; [lia|]. cbn [iter_n]. specialize (Hs s0 Hi0).
    destruct (step s0) as [s1|r]; [|by eauto]. destruct Hs as [Hi1 Hm1]. apply IH; [done|lia]. }
  destruct (G (2 ^ 64)%nat s Hi) as (r & E & Hr).
  { rewrite Nat2Z.inj_pow. exact Hm. }
  exists r. unfold while64. by rewrite iter2_iter_n, E.
Qed.

(** Partial correctness. *)
Lemma while64_partial (Inv : S -> Prop) (Post : R -> Prop) s r :
  Inv s ->
  (forall s, Inv s -> match step s with inl s' => Inv s' | inr r => Post r end) ->
  while64 s = Some r -> Post r.
Proof.
  intros Hi Hs. unfold while64. rewrite iter2_iter_n. revert s Hi.
  induction (2 ^ 64)%nat as [|n IH]; intros s Hi; cbn [iter_n]; [done|].
  specialize (Hs s Hi). destruct (step s); [by apply IH|]. by intros [= <-].
Qed.
End While.

(** Stepping through a bind without unfolding it. *)
Lemma bind_eq {A B : Type} (o : option A) (f : A -> option B) x : o = Some x -> (o ≫= f) = f x.
Proof. by intros ->. Qed.

(** Conversion unfolds a loop only as a last resort. *)
Strategy 1000 [while64 iter2].

(** Two loops in lockstep. *)
Lemma while64_sim {S T R : Type} (f : S -> S + R) (g : T -> T + R) (rel : S -> T -> Prop) s t :
  rel s t ->
  (forall s t, rel s t ->
     match f s, g t with
     | inl s', inl t' => rel s' t'
     | inr a, inr b => a = b
     | _, _ => False
     end) ->
  while64 f s = while64 g t.
Proof.
  intros Hst Hfg. unfold while64. rewrite !iter2_iter_n.
  assert (G : forall n s t, rel s t ->
    match iter_n f n s, iter_n g n t with inr a, inr b => a = b | inl _, inl _ => True | _, _ => False end).
  { induction n as [|n IH]; intros s0 t0 H0; cbn [iter_n]; [done|]. specialize (Hfg _ _ H0).
    destruct (f s0), (g t0); [by apply IH|done|done|done]. }
  specialize (G (2 ^ 64)%nat s t Hst).
  destruct (iter_n f _ s), (iter_n g _ t); [done|done|done|by subst].
Qed.

Create Rewrite HintDb len.
#[export] Hint Resolve le_bytes_ok be_bytes_ok store_ok_poke peek_ok get8_ok : width.
#[export] Hint Rewrite length_le_bytes length_be_bytes length_peek : len.
