(* ===== verification/GuestMem.v ===== *)
(** * Guest physical memory

    [core/vmm/types.h] (alignment helpers, [GuestMemMap::GpaToHva]) and
    [Vm::AllocateMemory] of [core/vmm/vm.cpp].

    A host virtual address is the offset of the byte inside the one host
    allocation that backs guest RAM; [nullptr] is [None].  [HostMem] is that
    allocation: an access that leaves it is [None], the undefined behaviour
    of the C++ program. *)

From S2P Require Import Prelude.

Definition kPageSize : Z := 4096.

Definition AlignUp (val align : Z) : Z :=
  u64 (val + align - 1) .& bnot 64 (align - 1).

Definition AlignDown (val align : Z) : Z := val .& bnot 64 (align - 1).

Definition kMmioGapStart : Z := 0xC0000000.
Definition kMmioGapEnd : Z := 0x100000000.

Record GuestMemMap := MkGuestMemMap {
  alloc_size : Z;
  ram_base : Z;
  low_size : Z;
  high_base : Z;
  high_size : Z
}.

Definition GpaToHva (m : GuestMemMap) (gpa : Z) : option Z :=
  if (ram_base m <=? gpa) && (gpa - ram_base m <? low_size m)
  then Some (gpa - ram_base m)
  else if negb (high_size m =? 0) && (high_base m <=? gpa)
          && (gpa - high_base m <? high_size m)
  then Some (low_size m + (gpa - high_base m))
  else None.

(** One successful [MapMemory(gpa, base + hva, size)] call. *)
Record Mapping := MkMapping { map_gpa : Z; map_hva : Z; map_size : Z }.

Definition mapping_hva (mp : Mapping) (gpa : Z) : option Z :=
  if (map_gpa mp <=? gpa) && (gpa <? map_gpa mp + map_size mp)
  then Some (map_hva mp + (gpa - map_gpa mp)) else None.

(** [Vm::AllocateMemory]: the hypervisor's [MapMemory] and the platform's
    [AllocateRam] are arguments.  The result is the returned [bool], the
    [GuestMemMap] left in the object and the mappings made. *)
Definition AllocateMemory (alloc_ok : Z -> bool) (map_ok : Mapping -> bool)
    (gap_start gap_end rambase size : Z) (m0 : GuestMemMap)
    : bool * GuestMemMap * list Mapping :=
  let alloc := AlignUp size kPageSize in
  if negb (alloc_ok alloc) then (false, m0, [])
  else if rambase =? 0 then
    let low := Z.min alloc gap_start in
    let high := if gap_start <? alloc then alloc - gap_start else 0 in
    let m := MkGuestMemMap alloc rambase low
               (if high =? 0 then 0 else gap_end) high in
    let mp1 := MkMapping 0 0 low in
    let mp2 := MkMapping gap_end low high in
    if negb (map_ok mp1) then (false, m, [])
    else if high =? 0 then (true, m, [mp1])
    else if negb (map_ok mp2) then (false, m, [mp1])
    else (true, m, [mp1; mp2])
  else
    let m := MkGuestMemMap alloc rambase alloc 0 0 in
    let mp := MkMapping rambase 0 alloc in
    if map_ok mp then (true, m, [mp]) else (false, m, []).

(** The guest's RAM as the host sees it. *)
Record HostMem := MkHostMem { hm_map : GuestMemMap; hm_bytes : store }.

Definition hm_read (h : HostMem) (hva n : Z) : option (list Z) :=
  if (0 <=? hva) && (hva + n <=? alloc_size (hm_map h))
  then Some (peek (hm_bytes h) hva n) else None.

Definition hm_write (h : HostMem) (hva : Z) (l : list Z) : option HostMem :=
  if (0 <=? hva) && (hva + Z.of_nat (length l) <=? alloc_size (hm_map h))
  then Some (MkHostMem (hm_map h) (poke (hm_bytes h) hva l)) else None.

(** Little-endian loads and stores of [n] bytes through a host pointer. *)
Definition hm_load (n : nat) (h : HostMem) (hva : Z) : option Z :=
  le_val <$> hm_read h hva (Z.of_nat n).
Definition hm_store (n : nat) (h : HostMem) (hva v : Z) : option HostMem :=
  hm_write h hva (le_bytes n v).

(** ** Alignment *)

Lemma bnot_align k : 0 <= k <= 64 -> bnot 64 (2 ^ k - 1) = Z.shiftl (Z.ones (64 - k)) k.
Proof.
  intros Hk. replace (2 ^ k - 1) with (Z.ones k) by (rewrite Z.ones_equiv; lia).
  apply Z.bits_inj'. intros i Hi.
  rewrite testbit_bnot, testbit_ones by lia.
  destruct (Z.leb_spec k i).
  - rewrite Z.shiftl_spec, testbit_ones by lia. bitwise_split; done.
  - rewrite Z.shiftl_spec, Z.testbit_neg_r by lia. bitwise_split; done.
Qed.

Lemma AlignDown_div v k :
  0 <= k <= 64 -> in_width 64 v -> AlignDown v (2 ^ k) = v / 2 ^ k * 2 ^ k.
Proof.
  intros Hk Hv. unfold AlignDown. rewrite bnot_align by done.
  rewrite <- Z.shiftr_div_pow2, <- Z.shiftl_mul_pow2 by lia.
  apply Z.bits_inj'. intros i Hi. rewrite Z.land_spec.
  destruct (Z.leb_spec k i).
  - rewrite !Z.shiftl_spec, testbit_ones, Z.shiftr_spec by lia.
    rewrite Z.sub_add. destruct (Z.ltb_spec (i - k) (64 - k)); [by rewrite andb_true_r|].
    rewrite (testbit_high 64) by (done || lia). done.
  - rewrite !Z.shiftl_spec, !(Z.testbit_neg_r _ (i - k)) by lia. by rewrite andb_false_r.
Qed.

Lemma AlignUp_div v k :
  0 <= k <= 63 -> 0 <= v -> v + 2 ^ k - 1 < 2 ^ 64 ->
  AlignUp v (2 ^ k) = (v + 2 ^ k - 1) / 2 ^ k * 2 ^ k.
Proof.
  intros Hk Hv Hlt. assert (0 < 2 ^ k) by (apply Z.pow_pos_nonneg; lia).
  unfold AlignUp. fold (AlignDown (u64 (v + 2 ^ k - 1)) (2 ^ k)).
  rewrite AlignDown_div by (first [lia | apply wrap_in_width; lia]).
  by rewrite wrap_small by (unfold in_width; lia).
Qed.

Lemma AlignUp_page v :
  0 <= v -> v + 4095 < 2 ^ 64 ->
  v <= AlignUp v kPageSize < v + 4096 /\ AlignUp v kPageSize mod 4096 = 0.
Proof.
  intros Hv Hlt. change kPageSize with (2 ^ 12). rewrite AlignUp_div by lia.
  change (2 ^ 12) with 4096. split; [dlia|]. by rewrite Z_mod_mult.
Qed.

(** ** Host accesses *)

Lemma hm_read_length h a n l : 0 <= n -> hm_read h a n = Some l -> length l = Z.to_nat n.
Proof. unfold hm_read. case_ifs; [|done]. intros ? [= <-]. by rewrite length_peek. Qed.

Lemma hm_write_map h a l h' : hm_write h a l = Some h' -> hm_map h' = hm_map h.
Proof. unfold hm_write. by case_ifs; [|done]; intros [= <-]. Qed.

Lemma hm_read_write_same h a l h' :
  hm_write h a l = Some h' -> hm_read h' a (Z.of_nat (length l)) = Some l.
Proof.
  unfold hm_write, hm_read. case_ifs; intros [= <-]; simpl in *; [|congruence].
  by rewrite peek_poke_same.
Qed.

Lemma hm_read_write_disjoint h a l h' b n :
  hm_write h a l = Some h' -> b + n <= a \/ a + Z.of_nat (length l) <= b ->
  hm_read h' b n = hm_read h b n.
Proof.
  unfold hm_write, hm_read. case_ifs; intros [= <-] Hd; simpl in *; try congruence.
  by rewrite peek_poke_disjoint.
Qed.

Lemma hm_load_store_same n h a v h' :
  in_width (8 * Z.of_nat n) v -> hm_store n h a v = Some h' -> hm_load n h' a = Some v.
Proof.
  intros Hv. unfold hm_store, hm_load. intros H. apply hm_read_write_same in H.
  rewrite length_le_bytes in H. rewrite H. simpl. f_equal. rewrite le_val_le_bytes.
  apply Z.mod_small. unfold in_width in Hv. by rewrite Z.pow_mul_r in Hv by lia.
Qed.

Lemma hm_load_store_disjoint n m h a b v h' :
  hm_store n h a v = Some h' ->
  b + Z.of_nat m <= a \/ a + Z.of_nat n <= b -> hm_load m h' b = hm_load m h b.
Proof.
  intros H Hd. unfold hm_load. erewrite hm_read_write_disjoint; [done|exact H|].
  rewrite length_le_bytes. lia.
Qed.

(** ** The address map *)

Definition mem_wf (m : GuestMemMap) : Prop :=
  0 <= low_size m /\ 0 <= high_size m /\ 0 <= ram_base m
  /\ low_size m + high_size m <= alloc_size m
  /\ (high_size m <> 0 -> ram_base m + low_size m <= high_base m).

Lemma GpaToHva_bound m gpa h :
  mem_wf m -> GpaToHva m gpa = Some h -> 0 <= h < alloc_size m.
Proof.
  intros (?&?&?&?&?). unfold GpaToHva. case_ifs; intros [= <-]; bool_hyps; lia.
Qed.

Lemma GpaToHva_inj m g1 g2 h :
  mem_wf m -> GpaToHva m g1 = Some h -> GpaToHva m g2 = Some h -> g1 = g2.
Proof.
  intros (?&?&?&?&?). unfold GpaToHva.
  case_ifs; intros [= <-] ?; simplify_eq; bool_hyps; lia.
Qed.

(** The layouts the machine models provide: an MMIO hole for x86, a single
    bank at a non-zero base for ARM. *)
Definition layout_ok (gap_start gap_end rambase : Z) : Prop :=
  0 <= gap_start <= gap_end /\ 0 <= rambase.

Lemma AllocateMemory_wf aok mok gs ge rb size m0 m mps :
  layout_ok gs ge rb -> 0 <= size -> size + 4095 < 2 ^ 64 ->
  AllocateMemory aok mok gs ge rb size m0 = (true, m, mps) ->
  mem_wf m /\ alloc_size m = AlignUp size kPageSize
  /\ low_size m + high_size m = alloc_size m.
Proof.
  intros (Hg & Hrb) Hs Hs'. pose proof (AlignUp_page size Hs Hs') as [Hb _].
  unfold AllocateMemory, mem_wf. generalize dependent (AlignUp size kPageSize).
  intros a Ha. case_ifs; intros [= <- <-]; cbn; bool_hyps; repeat split; lia.
Qed.

Example GpaToHva_hole :
  GpaToHva (MkGuestMemMap 0x180000000 0 0xC0000000 0x100000000 0xC0000000) 0xC0000000 = None.
Proof. reflexivity. Qed.

(** C32. A successful [AllocateMemory] leaves a map in which translation is a
    bijection: exactly the guest addresses that were mapped into the
    hypervisor translate, to the very host byte the hypervisor maps there;
    every byte of the allocation is reached; and no byte is reached twice. *)
Theorem AllocateMemory_bijection aok mok gs ge rb size m0 m mps :
  layout_ok gs ge rb -> 0 <= size -> size + 4095 < 2 ^ 64 ->
  AllocateMemory aok mok gs ge rb size m0 = (true, m, mps) ->
  (forall gpa h, GpaToHva m gpa = Some h <->
     exists mp, In mp mps /\ mapping_hva mp gpa = Some h)
  /\ (forall h, 0 <= h < alloc_size m <-> exists gpa, GpaToHva m gpa = Some h)
  /\ (forall g1 g2 h, GpaToHva m g1 = Some h -> GpaToHva m g2 = Some h -> g1 = g2).
Proof.
  intros Hl Hs Hs' H.
  destruct (AllocateMemory_wf _ _ _ _ _ _ _ _ _ Hl Hs Hs' H) as (Hwf & Ha & Hsum).
  destruct Hl as (Hg & Hrb). pose proof (AlignUp_page size Hs Hs') as [Hb _].
  split; [|split; [|intros; by eapply GpaToHva_inj]].
  - intros gpa h. unfold AllocateMemory in H. unfold GpaToHva, mapping_hva.
    repeat case_match; simplify_eq; simpl in *; bool_hyps;
      split; intros HH; simplify_eq.
    all: try (destruct HH as (mp & Hin & Hmp);
              repeat destruct Hin as [<-|Hin]; try done; simpl in Hmp;
              repeat case_match; simplify_eq; bool_hyps; try (f_equal; lia); lia).
    all: repeat match goal with
      | H : (_ && _) = false |- _ => apply andb_false_iff in H
      end.
    all: try (eexists; split; [by left|]; simpl; case_match;
              [f_equal; lia|bool_hyps; lia]).
    all: try (eexists; split; [by right; left|]; simpl; case_match;
              [f_equal; lia|bool_hyps; lia]).
  - intros h. split; [|intros (gpa & Hgpa); by eapply GpaToHva_bound].
    intros Hh. destruct (decide (h < low_size m)).
    + exists (h + ram_base m). unfold GpaToHva. destruct Hwf as (?&?&?&?&?).
      case_ifs; bool_hyps; try (f_equal; lia).
    + exists (h - low_size m + high_base m). unfold GpaToHva. destruct Hwf as (?&?&?&?&?).
      case_ifs; bool_hyps; try (f_equal; lia).
Qed.

Lemma AllocateMemory_bijection_witness :
  exists m mps, AllocateMemory (fun _ => true) (fun _ => true) kMmioGapStart kMmioGapEnd 0
    0xC0001800 (MkGuestMemMap 0 0 0 0 0) = (true, m, mps)
  /\ GpaToHva m 0x100001FFF = Some 0xC0001FFF
  /\ (forall h, 0 <= h < alloc_size m <-> exists gpa, GpaToHva m gpa = Some h).
Proof.
  do 2 eexists. split; [reflexivity|]. split; [reflexivity|].
  eapply (AllocateMemory_bijection (fun _ => true) (fun _ => true)
            kMmioGapStart kMmioGapEnd 0 0xC0001800 (MkGuestMemMap 0 0 0 0 0)).
  - unfold layout_ok, kMmioGapStart, kMmioGapEnd. lia.
  - lia.
  - lia.
  - reflexivity.
Defined.
