(* ===== verification/AddrSpace.v ===== *)
(** * Port and MMIO dispatch

    [core/device/device.h] and [core/vmm/address_space.{h,cpp}].

    [Device] is the interface of an emulated device: the four accessors of
    the C++ base class.  A [Device*] is an index into the list of device
    objects; [nullptr] is [None]. *)

From S2P Require Import Prelude.

(** The accessors of [class Device]; a read returns the new device state (it
    may have side effects) and the value stored through [value]. *)
Class Device (D : Type) := {
  PioRead : D -> Z -> Z -> D * Z;
  PioWrite : D -> Z -> Z -> Z -> D;
  MmioRead : D -> Z -> Z -> D * Z;
  MmioWrite : D -> Z -> Z -> Z -> D
}.

(** The bodies of the base class, inherited by a device that does not
    override an accessor. *)
Definition default_PioRead {D} (d : D) (offset size : Z) : D * Z := (d, 0xFFFFFFFF).
Definition default_PioWrite {D} (d : D) (offset size value : Z) : D := d.
Definition default_MmioRead {D} (d : D) (offset size : Z) : D * Z := (d, 0).
Definition default_MmioWrite {D} (d : D) (offset size value : Z) : D := d.

Record Entry := MkEntry { ent_base : Z; ent_size : Z; ent_device : option nat }.

Record AddressSpace := MkAddressSpace {
  pio_devices : list Entry;
  mmio_devices : list Entry
}.

Definition AddPioDevice (a : AddressSpace) (base size : Z) (dev : option nat) :=
  MkAddressSpace (pio_devices a ++ [MkEntry base size dev]) (mmio_devices a).
Definition AddMmioDevice (a : AddressSpace) (base size : Z) (dev : option nat) :=
  MkAddressSpace (pio_devices a) (mmio_devices a ++ [MkEntry base size dev]).

(** The linear scan; [add] is the addition [entry.base + entry.size], done in
    [int] for ports and modulo [2^64] for MMIO. *)
Fixpoint find_entry (add : Z -> Z -> Z) (l : list Entry) (a : Z) : option (nat * Z) :=
  match l with
  | [] => None
  | e :: l =>
      if (ent_base e <=? a) && (a <? add (ent_base e) (ent_size e))
      then match ent_device e with Some d => Some (d, a - ent_base e) | None => None end
      else find_entry add l a
  end.

Definition FindPioDevice (a : AddressSpace) (port : Z) : option (nat * Z) :=
  find_entry Z.add (pio_devices a) port.
Definition FindMmioDevice (a : AddressSpace) (addr : Z) : option (nat * Z) :=
  find_entry (fun x y => u64 (x + y)) (mmio_devices a) addr.

Definition IsMmioAddress (a : AddressSpace) (addr : Z) : bool :=
  match FindMmioDevice a addr with Some _ => true | None => false end.

Section Handlers.
  Context {D : Type} `{Device D}.

  (** Each handler runs under [io_mutex_].  A dangling device pointer is
      [None].  The results are the devices, the value and the [bool]. *)
Definition HandlePortIn (a : AddressSpace) (ds : list D) (port size : Z)
    : option (list D * Z * bool) :=
  match FindPioDevice a port with
  | Some (k, offset) =>
      match ds !! k with
      | Some d => let '(d', v) := PioRead d offset size in Some (<[k := d']> ds, v, true)
      | None => None
      end
  | None => Some (ds, 0xFFFFFFFF, false)
  end.

Definition HandlePortOut (a : AddressSpace) (ds : list D) (port size value : Z)
    : option (list D * bool) :=
  match FindPioDevice a port with
  | Some (k, offset) =>
      match ds !! k with
      | Some d => Some (<[k := PioWrite d offset size value]> ds, true)
      | None => None
      end
  | None => Some (ds, false)
  end.

Definition HandleMmioRead (a : AddressSpace) (ds : list D) (addr size : Z)
    : option (list D * Z * bool) :=
  match FindMmioDevice a addr with
  | Some (k, offset) =>
      match ds !! k with
      | Some d => let '(d', v) := MmioRead d offset size in Some (<[k := d']> ds, v, true)
      | None => None
      end
  | None => Some (ds, 0, false)
  end.

Definition HandleMmioWrite (a : AddressSpace) (ds : list D) (addr size value : Z)
    : option (list D * bool) :=
  match FindMmioDevice a addr with
  | Some (k, offset) =>
      match ds !! k with
      | Some d => Some (<[k := MmioWrite d offset size value]> ds, true)
      | None => None
      end
  | None => Some (ds, false)
  end.
End Handlers.

(** ** Address maps without overlap *)

Definition ent_in (e : Entry) (a : Z) : Prop := ent_base e <= a < ent_base e + ent_size e.

Definition disjoint_map (l : list Entry) : Prop :=
  forall i j e1 e2 a, l !! i = Some e1 -> l !! j = Some e2 ->
    ent_in e1 a -> ent_in e2 a -> i = j.

(** No window reaches past the end of the 64-bit address space. *)
Definition no_wrap (w : Z) (l : list Entry) : Prop :=
  Forall (fun e => 0 <= ent_base e /\ 0 <= ent_size e
                   /\ ent_base e + ent_size e < 2 ^ w /\ ent_device e <> None) l.

Lemma find_entry_some add l a k off :
  find_entry add l a = Some (k, off) ->
  exists i e, l !! i = Some e /\ ent_device e = Some k /\ off = a - ent_base e
    /\ ent_base e <= a < add (ent_base e) (ent_size e)
    /\ (forall j e', (j < i)%nat -> l !! j = Some e' ->
          ~ (ent_base e' <= a < add (ent_base e') (ent_size e'))).
Proof.
  induction l as [|e l IH]; simpl; [done|]. case_ifs.
  - destruct (ent_device e) eqn:Ed; [|done]. intros [= <- <-]. bool_hyps.
    exists 0%nat, e. repeat split; try done. intros j e' Hj. lia.
  - intros H. destruct (IH H) as (i & e0 & Hi & Hd & Ho & Hr & Hf).
    exists (S i), e0. repeat split; try done; try apply Hr.
    intros [|j] e' Hj He'.
    + simpl in He'. injection He' as <-. apply andb_false_iff in E.
      destruct E as [E|E]; bool_hyps; lia.
    + apply (Hf j); [lia|done].
Qed.

Lemma find_entry_hit w add l a i e k :
  (forall e, In e l -> add (ent_base e) (ent_size e) = ent_base e + ent_size e) ->
  no_wrap w l -> disjoint_map l -> l !! i = Some e -> ent_device e = Some k ->
  ent_in e a -> find_entry add l a = Some (k, a - ent_base e).
Proof.
  revert i. induction l as [|e0 l IH]; intros i Hadd Hw Hd Hi Hk Ha; [done|].
  simpl. rewrite Hadd by (by left). destruct i as [|i].
  - injection Hi as ->. destruct Ha. rewrite Hk.
    by rewrite (proj2 (Z.leb_le _ _)), (proj2 (Z.ltb_lt _ _)).
  - case_ifs.
    + bool_hyps. exfalso. enough (0%nat = S i) by done.
      eapply Hd; [done|done| |done]. by split.
    + eapply IH; try done; [intros; apply Hadd; by right|by inversion Hw|].
      intros i1 i2 e1 e2 x H1 H2 Hx1 Hx2.
      enough (S i1 = S i2) by lia. by eapply Hd.
Qed.

Lemma find_entry_miss add l a :
  (forall e, In e l -> ~ (ent_base e <= a < add (ent_base e) (ent_size e))) ->
  find_entry add l a = None.
Proof.
  induction l as [|e l IH]; intros H; simpl; [done|]. case_ifs.
  - bool_hyps. exfalso. eapply H; [by left|lia].
  - apply IH. intros e' He'. apply H. by right.
Qed.

Lemma find_entry_app_some add l l' a r :
  find_entry add l a = Some r -> find_entry add (l ++ l') a = Some r.
Proof. induction l as [|e l IH]; simpl; [done|]. case_ifs; [done|apply IH]. Qed.

Section Theorems.
  Context {D : Type} `{Device D}.

(** Routing of MMIO writes: over a map of disjoint, non-wrapping windows an access inside a
    window reaches exactly that window's device, with the offset from its
    base, below its size, and no other device changes; an access outside
    every window is reported unhandled and changes nothing. *)
Theorem HandleMmioWrite_routes a (ds : list D) addr size value :
  disjoint_map (mmio_devices a) -> no_wrap 64 (mmio_devices a) ->
  (forall i e k d, mmio_devices a !! i = Some e -> ent_device e = Some k ->
     ds !! k = Some d -> ent_in e addr ->
     exists ds', HandleMmioWrite a ds addr size value = Some (ds', true)
       /\ ds' !! k = Some (MmioWrite d (addr - ent_base e) size value)
       /\ 0 <= addr - ent_base e < ent_size e
       /\ (forall j, j <> k -> ds' !! j = ds !! j))
  /\ ((forall e, In e (mmio_devices a) -> ~ ent_in e addr) ->
      HandleMmioWrite a ds addr size value = Some (ds, false)).
Proof.
  intros Hd Hw.
  assert (Hadd : forall e, In e (mmio_devices a) ->
            u64 (ent_base e + ent_size e) = ent_base e + ent_size e).
  { intros e He. apply wrap_small. unfold no_wrap in Hw. rewrite List.Forall_forall in Hw.
    destruct (Hw e He) as (?&?&?&_). unfold in_width. lia. }
  unfold HandleMmioWrite, FindMmioDevice. split.
  - intros i e k d Hi Hk Hdk Ha. erewrite find_entry_hit by done. rewrite Hdk.
    eexists; split; [done|]. split; [|split].
    + by rewrite list_lookup_insert_eq by (by eapply lookup_lt_Some).
    + destruct Ha. lia.
    + intros j Hj. by rewrite list_lookup_insert_ne by congruence.
  - intros Hm. rewrite find_entry_miss; [done|].
    intros e He. rewrite Hadd by done. by apply Hm.
Qed.

End Theorems.
