(* ===== verification/IoApic.v ===== *)
(** * I/O APIC

    [core/device/irq/ioapic.{h,cpp}]: the index/data register window, the
    24-entry redirection table and the EOI register. *)

From S2P Require Import Prelude.
From S2P Require Import AddrSpace.

Definition kMaxRedirEntries : Z := 24.
Definition kRegId : Z := 0x00.
Definition kRegVer : Z := 0x01.
Definition kRegArb : Z := 0x02.
Definition kRegRedTbl : Z := 0x10.

Record IoApic := MkIoApic {
  index_ : Z;
  id_ : Z;
  redir_table_ : list Z
}.

(** The constructor: [ResetRedirTable] masks every entry. *)
Definition IoApic_new : IoApic := MkIoApic 0 0 (replicate 24 0x10000).

Definition GetRedirEntry (s : IoApic) (irq : Z) : option Z :=
  if kMaxRedirEntries <=? irq then None else redir_table_ s !! Z.to_nat irq.

Definition redir_index (idx : Z) : option (nat * bool) :=
  if (kRegRedTbl <=? idx) && (idx <? kRegRedTbl + kMaxRedirEntries * 2) then
    let entry_idx := (idx - kRegRedTbl) / 2 in
    let high := negb ((idx - kRegRedTbl) mod 2 =? 0) in
    if entry_idx <? kMaxRedirEntries then Some (Z.to_nat entry_idx, high) else None
  else None.

Definition ReadRegister (s : IoApic) : Z :=
  if index_ s =? kRegId then u32 (id_ s .<< 24)
  else if index_ s =? kRegVer then 0x00170020
  else if index_ s =? kRegArb then 0
  else match redir_index (index_ s) with
       | Some (i, high) =>
           let entry := nth i (redir_table_ s) 0 in
           if high then u32 (entry .>> 32) else u32 entry
       | None => 0
       end.

Definition WriteRegister (s : IoApic) (value : Z) : IoApic :=
  if index_ s =? kRegId
  then MkIoApic (index_ s) ((value .>> 24) .& 0x0F) (redir_table_ s)
  else match redir_index (index_ s) with
       | Some (i, high) =>
           let entry := nth i (redir_table_ s) 0 in
           MkIoApic (index_ s) (id_ s)
             (<[i := if high then set_hi32 entry value else set_lo32 entry value]>
                (redir_table_ s))
       | None => s
       end.

(** The write to offset 0x40: clear Remote IRR of the entries whose vector is
    the one written. *)
Definition eoi_entry (vector rte : Z) : Z :=
  if rte .& 0xFF =? vector then rte .& bnot 64 (1 .<< 14) else rte.

Definition IoApic_MmioRead (s : IoApic) (offset size : Z) : IoApic * Z :=
  (s, if offset =? 0x00 then index_ s
      else if offset =? 0x10 then ReadRegister s
      else 0).

Definition IoApic_MmioWrite (s : IoApic) (offset size value : Z) : IoApic :=
  if offset =? 0x00 then MkIoApic (u32 value .& 0xFF) (id_ s) (redir_table_ s)
  else if offset =? 0x10 then WriteRegister s (u32 value)
  else if offset =? 0x40
  then MkIoApic (index_ s) (id_ s) (eoi_entry (u32 value .& 0xFF) <$> redir_table_ s)
  else s.

#[export] Instance IoApic_Device : Device IoApic := {
  PioRead := default_PioRead;
  PioWrite := default_PioWrite;
  MmioRead := IoApic_MmioRead;
  MmioWrite := IoApic_MmioWrite
}.

(** ** Invariant *)

Definition ioapic_ok (s : IoApic) : Prop :=
  in_width 8 (index_ s) /\ in_width 4 (id_ s)
  /\ length (redir_table_ s) = 24%nat /\ Forall (in_width 64) (redir_table_ s).

Lemma redir_index_bound idx i h : redir_index idx = Some (i, h) -> (i < 24)%nat.
Proof.
  unfold redir_index, kMaxRedirEntries, kRegRedTbl. case_ifs; intros; simplify_eq.
  bool_hyps. dlia.
Qed.

Lemma redir_index_lo i : (i < 24)%nat -> redir_index (0x10 + 2 * Z.of_nat i) = Some (i, false).
Proof.
  intros Hi. unfold redir_index, kMaxRedirEntries, kRegRedTbl.
  replace (16 + 2 * Z.of_nat i - 16) with (Z.of_nat i * 2) by lia.
  rewrite Z.div_mul, Z.mod_mul, Nat2Z.id by lia.
  case_ifs; bool_hyps; try done; [lia|].
  apply andb_false_iff in E as [E|E]; bool_hyps; lia.
Qed.

Lemma redir_index_hi i : (i < 24)%nat -> redir_index (0x11 + 2 * Z.of_nat i) = Some (i, true).
Proof.
  intros Hi. unfold redir_index, kMaxRedirEntries, kRegRedTbl.
  replace (17 + 2 * Z.of_nat i - 16) with (1 + Z.of_nat i * 2) by lia.
  rewrite Z.div_add, Z.mod_add by lia. rewrite Z.add_0_l, Nat2Z.id.
  case_ifs; bool_hyps; try done; [lia|].
  apply andb_false_iff in E as [E|E]; bool_hyps; lia.
Qed.

Lemma nth_insert_eq (l : list Z) i x : (i < length l)%nat -> nth i (<[i := x]> l) 0 = x.
Proof.
  intros Hi. apply nth_lookup_Some. by rewrite list_lookup_insert_eq.
Qed.

Lemma nth_insert_ne (l : list Z) i j x : i <> j -> nth j (<[i := x]> l) 0 = nth j l 0.
Proof. intros Hi. by rewrite !nth_lookup, list_lookup_insert_ne. Qed.

Lemma nth_in_width l i : Forall (in_width 64) l -> in_width 64 (nth i l 0).
Proof.
  intros Hl. rewrite nth_lookup. destruct (l !! i) eqn:E; simpl; [|done].
  by eapply Forall_lookup_1.
Qed.

Lemma in_width_mask w v m : 0 <= w -> in_width w m -> in_width w (v .& m).
Proof. apply in_width_land_r. Qed.

Lemma IoApic_new_ok : ioapic_ok IoApic_new.
Proof. refine (conj _ (conj _ (conj _ _))); try done. by repeat constructor. Qed.

Lemma WriteRegister_ok s v :
  ioapic_ok s -> in_width 32 v -> ioapic_ok (WriteRegister s v).
Proof.
  intros (Hi & Hid & Hl & Ht) Hv. unfold WriteRegister.
  destruct (index_ s =? kRegId).
  - refine (conj Hi (conj _ (conj Hl Ht))). by apply in_width_mask; vm_compute.
  - destruct (redir_index (index_ s)) as [[i h]|]; [|done].
    refine (conj Hi (conj Hid (conj _ _))); simpl; [by rewrite length_insert|].
    apply Forall_insert; [done|]. destruct h; [by apply set_hi32_width|by apply set_lo32_width].
Qed.

(** Any guest access keeps the register file well formed: 24 entries of 64
    bits, an 8-bit index and a 4-bit identifier. *)
Theorem IoApic_MmioWrite_ok s offset size value :
  ioapic_ok s -> ioapic_ok (IoApic_MmioWrite s offset size value).
Proof.
  intros (Hi & Hid & Hl & Ht). unfold IoApic_MmioWrite.
  destruct (offset =? 0); [|destruct (offset =? 16); [|destruct (offset =? 64)]].
  - refine (conj _ (conj Hid (conj Hl Ht))). by apply in_width_mask; vm_compute.
  - apply WriteRegister_ok; [done|]. apply wrap_in_width. lia.
  - refine (conj Hi (conj Hid (conj _ _))); simpl; [by rewrite length_fmap|].
    apply Forall_fmap. eapply Forall_impl; [done|]. intros x Hx. simpl.
    unfold eoi_entry. case_ifs; [|done]. by apply in_width_land_l; [lia|].
  - done.
Qed.

(** Selecting register [r] and writing the data window. *)
Definition reg_write (s : IoApic) (r v : Z) : IoApic :=
  IoApic_MmioWrite (IoApic_MmioWrite s 0 4 r) 0x10 4 v.
Definition reg_read (s : IoApic) (r : Z) : Z :=
  snd (IoApic_MmioRead (IoApic_MmioWrite s 0 4 r) 0x10 4).

Lemma index_select r : 0 <= r < 256 -> u32 r .& 255 = r.
Proof.
  intros Hr. rewrite wrap_small by (unfold in_width; lia).
  change 255 with (Z.ones 8). rewrite Z.land_ones by lia. by apply Z.mod_small.
Qed.

Lemma reg_write_redir s r v i h :
  0 <= r < 256 -> redir_index r = Some (i, h) ->
  reg_write s r v = MkIoApic r (id_ s)
    (<[i := (if h then set_hi32 else set_lo32) (nth i (redir_table_ s) 0) (u32 v)]>
       (redir_table_ s)).
Proof.
  intros Hr Hi. unfold reg_write, IoApic_MmioWrite. simpl. unfold WriteRegister. simpl.
  rewrite index_select by done. rewrite Hi.
  destruct (Z.eqb_spec r kRegId) as [->|]; [done|]. by destruct h.
Qed.

Lemma reg_read_redir s r i h :
  0 <= r < 256 -> redir_index r = Some (i, h) ->
  reg_read s r = (if h then hi32 else lo32) (nth i (redir_table_ s) 0).
Proof.
  intros Hr Hi. unfold reg_read, IoApic_MmioRead, IoApic_MmioWrite. simpl.
  unfold ReadRegister. simpl. rewrite index_select by done. rewrite Hi.
  destruct (Z.eqb_spec r kRegId) as [->|]; [done|].
  destruct (Z.eqb_spec r kRegVer) as [->|]; [done|].
  destruct (Z.eqb_spec r kRegArb) as [->|]; [done|]. by destruct h.
Qed.

(** Programming a redirection entry through its two 32-bit registers: the
    entry [GetRedirEntry] then returns is the 64-bit value written, both
    windows read it back, and the other 23 entries and the identifier keep
    their values. *)
Theorem redir_entry_roundtrip s i v :
  ioapic_ok s -> (i < 24)%nat -> in_width 64 v ->
  let s' := reg_write (reg_write s (0x10 + 2 * Z.of_nat i) (lo32 v))
              (0x11 + 2 * Z.of_nat i) (hi32 v) in
  GetRedirEntry s' (Z.of_nat i) = Some v
  /\ reg_read s' (0x10 + 2 * Z.of_nat i) = lo32 v
  /\ reg_read s' (0x11 + 2 * Z.of_nat i) = hi32 v
  /\ id_ s' = id_ s
  /\ (forall j, j <> i -> (j < 24)%nat ->
        GetRedirEntry s' (Z.of_nat j) = GetRedirEntry s (Z.of_nat j)).
Proof.
  intros (_ & _ & Hl & Ht) Hi Hv s'.
  assert (Hs' : s' = MkIoApic (0x11 + 2 * Z.of_nat i) (id_ s) (<[i := v]> (redir_table_ s))).
  { unfold s'. rewrite (reg_write_redir _ _ _ i true) by (lia || by apply redir_index_hi).
    rewrite (reg_write_redir _ _ _ i false) by (lia || by apply redir_index_lo). simpl.
    rewrite nth_insert_eq by lia. rewrite list_insert_insert_eq.
    rewrite !wrap_small by (apply wrap_in_width; lia). by rewrite set_hi_lo_eq. }
  rewrite Hs'. unfold GetRedirEntry, kMaxRedirEntries. simpl.
  rewrite (reg_read_redir _ _ i false) by (lia || by apply redir_index_lo).
  rewrite (reg_read_redir _ _ i true) by (lia || by apply redir_index_hi). simpl.
  rewrite nth_insert_eq by lia. rewrite Nat2Z.id.
  split; [|repeat split].
  - destruct (Z.leb_spec 24 (Z.of_nat i)); [lia|]. by rewrite list_lookup_insert_eq by lia.
  - intros j Hj Hlt. rewrite Nat2Z.id, list_lookup_insert_ne by done. done.
Qed.

(** Remote IRR is bit 14 of an entry. *)
Definition remote_irr (rte : Z) : bool := Z.testbit rte 14.

Lemma eoi_entry_spec vec rte j :
  0 <= j < 64 -> Z.testbit (eoi_entry vec rte) j =
    Z.testbit rte j && negb ((rte .& 0xFF =? vec) && (j =? 14)).
Proof.
  intros Hj. unfold eoi_entry. destruct (Z.eqb_spec (rte .& 0xFF) vec); simpl.
  - rewrite Z.land_spec. change (1 .<< 14) with (2 ^ 14).
    rewrite testbit_bnot, testbit_pow2 by lia. rewrite (Z.eqb_sym 14).
    destruct (Z.ltb_spec j 64); [|lia]. done.
  - by rewrite andb_true_r.
Qed.

(** An EOI for a vector clears Remote IRR in every entry with that vector and
    changes no other bit of any entry, nor the selected register. *)
Theorem eoi_clears_remote_irr s value size i rte :
  redir_table_ s !! i = Some rte -> in_width 64 rte ->
  let s' := IoApic_MmioWrite s 0x40 size value in
  exists rte', redir_table_ s' !! i = Some rte' /\ index_ s' = index_ s /\ id_ s' = id_ s
    /\ (rte .& 0xFF = u32 value .& 0xFF -> remote_irr rte' = false)
    /\ (rte .& 0xFF <> u32 value .& 0xFF -> rte' = rte)
    /\ (forall j, 0 <= j < 64 -> j <> 14 -> Z.testbit rte' j = Z.testbit rte j).
Proof.
  intros Hi Hw s'. exists (eoi_entry (u32 value .& 0xFF) rte). unfold s'. simpl.
  rewrite list_lookup_fmap, Hi. repeat split; try done.
  - intros Hv. unfold remote_irr. rewrite eoi_entry_spec by lia.
    rewrite Hv, Z.eqb_refl. by rewrite andb_false_r.
  - intros Hv. unfold eoi_entry. by destruct (Z.eqb_spec (rte .& 255) (u32 value .& 255)).
  - intros j Hj Hn. rewrite eoi_entry_spec by done.
    destruct (Z.eqb_spec j 14); [done|]. by rewrite andb_false_r, andb_true_r.
Qed.

Lemma redir_entry_roundtrip_witness :
  GetRedirEntry (reg_write (reg_write IoApic_new 0x14 (lo32 0x0300000000000931)) 0x15
                   (hi32 0x0300000000000931)) 2 = Some 0x0300000000000931.
Proof.
  apply (redir_entry_roundtrip IoApic_new 2 0x0300000000000931).
  - apply IoApic_new_ok.
  - lia.
  - by vm_compute.
Defined.

Lemma eoi_clears_remote_irr_witness :
  let s := reg_write IoApic_new 0x10 0x4031 in
  exists rte', redir_table_ (IoApic_MmioWrite s 0x40 4 0x31) !! 0%nat = Some rte'
    /\ remote_irr rte' = false.
Proof.
  intros s. destruct (eoi_clears_remote_irr s 0x31 4 0 0x4031) as (r & H1 & _ & _ & H2 & _).
  - by vm_compute.
  - by vm_compute.
  - exists r. split; [exact H1|]. apply H2. by vm_compute.
Defined.

Lemma HandleMmioWrite_routes_witness :
  let a := AddMmioDevice (AddMmioDevice (MkAddressSpace [] []) 0xFEC00000 0x100000 (Some 0%nat))
             0xD0000000 0x200 (Some 1%nat) in
  exists ds', HandleMmioWrite a [IoApic_new; IoApic_new] 0xFEC00000 4 7 = Some (ds', true)
    /\ ds' !! 0%nat = Some (IoApic_MmioWrite IoApic_new 0 4 7).
Proof.
  intros a.
  destruct (HandleMmioWrite_routes a [IoApic_new; IoApic_new] 0xFEC00000 4 7) as [H _].
  - intros [|[|[]]] [|[|[]]] e1 e2 x H1 H2; simplify_eq; unfold ent_in; simpl in *;
      simplify_eq; simpl; intros; lia.
  - by repeat constructor.
  - destruct (H 0%nat (MkEntry 0xFEC00000 0x100000 (Some 0%nat)) 0%nat IoApic_new)
      as (ds' & E1 & E2 & _); [done..| |].
    + unfold ent_in. simpl. lia.
    + by exists ds'.
Defined.
