(* ===== verification/PciHost.v ===== *)
(** * PCI host bridge

    [core/device/pci/pci_host.h]: configuration mechanism 1 (ports
    0xCF8-0xCFF) with a single function, the bridge at 00:00.0. *)

From S2P Require Import Prelude.
From S2P Require Import AddrSpace.

Record PciHostBridge := MkPciHostBridge { config_addr_ : Z }.

Definition PciHostBridge_new : PciHostBridge := MkPciHostBridge 0.

Definition ReadHostBridgeConfig (reg : Z) : Z :=
  let cfg := [0x00081B36; 0x00000006; 0x06000001; 0x00000000] in
  let idx := reg / 4 in
  if idx <? Z.of_nat (length cfg) then nth (Z.to_nat idx) cfg 0 else 0.

Definition Pci_PioRead (s : PciHostBridge) (offset size : Z) : PciHostBridge * Z :=
  let ca := config_addr_ s in
  (s,
   if offset =? 0 then
     if size =? 4 then ca else if size =? 1 then (ca .>> 0) .& 0xFF else 0
   else if (4 <=? offset) && (offset <=? 7) && has ca 0x80000000 then
     let reg := ca .& 0xFC in
     let func := (ca .>> 8) .& 0x7 in
     let dev := (ca .>> 11) .& 0x1F in
     let bus := (ca .>> 16) .& 0xFF in
     let dword := if (bus =? 0) && (dev =? 0) && (func =? 0)
                  then ReadHostBridgeConfig reg else 0xFFFFFFFF in
     let byte_off := u8 (offset - 4 + (reg .& 3)) in
     if size =? 4 then dword
     else if size =? 2 then (dword .>> (8 * (byte_off .& 2))) .& 0xFFFF
     else (dword .>> (8 * (byte_off .& 3))) .& 0xFF
   else 0xFFFFFFFF).

Definition Pci_PioWrite (s : PciHostBridge) (offset size value : Z) : PciHostBridge :=
  if (offset =? 0) && (size =? 4) then MkPciHostBridge value else s.

#[export] Instance PciHostBridge_Device : Device PciHostBridge := {
  PioRead := Pci_PioRead;
  PioWrite := Pci_PioWrite;
  MmioRead := default_MmioRead;
  MmioWrite := default_MmioWrite
}.

(** The address Linux writes for a function and a dword-aligned register. *)
Definition bdf_addr (bus dev func reg : Z) : Z :=
  0x80000000 + bus * 0x10000 + dev * 0x800 + func * 0x100 + reg.

Definition cfg_read (bus dev func reg offset size : Z) : Z :=
  snd (Pci_PioRead (Pci_PioWrite PciHostBridge_new 0 4 (bdf_addr bus dev func reg)) offset size).

Lemma land_mask_mod v k : 0 <= k -> v .& (2 ^ k - 1) = v mod 2 ^ k.
Proof.
  intros Hk. replace (2 ^ k - 1) with (Z.ones k) by (rewrite Z.ones_equiv; lia).
  by apply Z.land_ones.
Qed.

Section Fields.
  Context (bus dev func k : Z).
  Context (Hb : 0 <= bus < 256) (Hd : 0 <= dev < 32) (Hf : 0 <= func < 8) (Hk : 0 <= k < 64).

Lemma bdf_reg : bdf_addr bus dev func (4 * k) .& 0xFC = 4 * k.
Proof.
  change 0xFC with (Z.shiftl (Z.ones 6) 2).
  replace (4 * k) with (Z.shiftl k 2) at 2 by (rewrite Z.shiftl_mul_pow2 by lia; lia).
  replace (bdf_addr bus dev func (4 * k))
    with (Z.shiftl (k + 64 * (func + 8 * (dev + 32 * (bus + 256 * 128)))) 2)
    by (rewrite Z.shiftl_mul_pow2 by lia; unfold bdf_addr; lia).
  rewrite <- Z.shiftl_land, Z.land_ones by lia. f_equal.
  change (2 ^ 6) with 64. rewrite (Z.mul_comm 64), Z_mod_plus_full. by apply Z.mod_small.
Qed.

Lemma bdf_func : (bdf_addr bus dev func (4 * k) .>> 8) .& 0x7 = func.
Proof.
  change 7 with (2 ^ 3 - 1). rewrite land_mask_mod, Z.shiftr_div_pow2 by lia.
  unfold bdf_addr. change (2 ^ 8) with 256. change (2 ^ 3) with 8. dlia.
Qed.

Lemma bdf_dev : (bdf_addr bus dev func (4 * k) .>> 11) .& 0x1F = dev.
Proof.
  change 31 with (2 ^ 5 - 1). rewrite land_mask_mod, Z.shiftr_div_pow2 by lia.
  unfold bdf_addr. change (2 ^ 11) with 2048. change (2 ^ 5) with 32. dlia.
Qed.

Lemma bdf_bus : (bdf_addr bus dev func (4 * k) .>> 16) .& 0xFF = bus.
Proof.
  change 255 with (2 ^ 8 - 1). rewrite land_mask_mod, Z.shiftr_div_pow2 by lia.
  unfold bdf_addr. change (2 ^ 16) with 65536. change (2 ^ 8) with 256. dlia.
Qed.

Lemma bdf_enable : has (bdf_addr bus dev func (4 * k)) 0x80000000 = true.
Proof.
  unfold has. apply negb_true_iff, Z.eqb_neq. intros H.
  assert (Ht : Z.testbit (bdf_addr bus dev func (4 * k)) 31 = true).
  { rewrite Z.testbit_true by lia. unfold bdf_addr. change (2 ^ 31) with 2147483648. dlia. }
  apply (f_equal (fun z => Z.testbit z 31)) in H. rewrite Z.land_spec, Ht in H. done.
Qed.

(** The dword a full-width configuration read returns. *)
Definition cfg_dword : Z :=
  if (bus =? 0) && (dev =? 0) && (func =? 0)
  then nth (Z.to_nat k) [0x00081B36; 0x00000006; 0x06000001] 0 else 0xFFFFFFFF.

Lemma cfg_dword_width : in_width 32 cfg_dword.
Proof.
  unfold cfg_dword. destruct (_ && _); [|by vm_compute].
  rewrite nth_lookup. destruct (_ !! _) as [x|] eqn:E; [|by vm_compute].
  apply list_elem_of_lookup_2 in E. simpl.
  repeat (apply elem_of_cons in E as [->|E]; [by vm_compute|]). by apply elem_of_nil in E.
Qed.

Lemma ReadHostBridgeConfig_eq :
  ReadHostBridgeConfig (4 * k) = nth (Z.to_nat k) [0x00081B36; 0x00000006; 0x06000001] 0.
Proof.
  unfold ReadHostBridgeConfig. rewrite (Z.mul_comm 4), Z.div_mul by lia. cbv zeta.
  change (Z.of_nat (length _)) with 4.
  destruct (decide (k < 4)) as [H|H].
  - destruct (Z.ltb_spec k 4); [|lia].
    assert (k = 0 \/ k = 1 \/ k = 2 \/ k = 3) as [->|[->|[->| ->]]] by lia; done.
  - destruct (Z.ltb_spec k 4); [lia|]. rewrite nth_overflow; [done|]. simpl. lia.
Qed.

Lemma cfg_read_eq offset size :
  4 <= offset <= 7 ->
  cfg_read bus dev func (4 * k) offset size =
    (if size =? 4 then cfg_dword
     else if size =? 2 then (cfg_dword .>> (8 * ((offset - 4) .& 2))) .& 0xFFFF
     else (cfg_dword .>> (8 * (offset - 4))) .& 0xFF).
Proof.
  intros Ho. unfold cfg_read.
  change (Pci_PioWrite _ 0 4 ?a) with (MkPciHostBridge a).
  unfold Pci_PioRead. cbv zeta. cbn [snd config_addr_].
  rewrite bdf_enable, bdf_reg, bdf_func, bdf_dev, bdf_bus, ReadHostBridgeConfig_eq.
  fold cfg_dword.
  replace (4 * k .& 3) with 0.
  2: { change 3 with (2 ^ 2 - 1). rewrite land_mask_mod by lia. change (2 ^ 2) with 4. dlia. }
  rewrite Z.add_0_r, (wrap_small 8) by (unfold in_width; lia).
  replace ((offset - 4) .& 3) with (offset - 4).
  2: { change 3 with (2 ^ 2 - 1). rewrite land_mask_mod by lia.
       rewrite Z.mod_small; [done|]. change (2 ^ 2) with 4. lia. }
  destruct (Z.eqb_spec offset 0); [lia|].
  destruct (Z.leb_spec 4 offset); [|lia]. destruct (Z.leb_spec offset 7); [|lia].
  reflexivity.
Qed.

(** Enumeration sees exactly one function: every aligned configuration
    dword of 00:00.0 is the bridge's header (Red Hat 1B36:0008, class 0600,
    zero beyond the first three dwords) and that of any other function is
    all ones; and narrow reads are consistent with it, the four byte lanes
    and the two word lanes reassemble to the dword. *)
Theorem cfg_read_lanes :
  let r o s := cfg_read bus dev func (4 * k) o s in
  r 4 4 = cfg_dword
  /\ r 4 4 = r 4 1 + 256 * r 5 1 + 65536 * r 6 1 + 16777216 * r 7 1
  /\ r 4 4 = r 4 2 + 65536 * r 6 2.
Proof.
  intros r. unfold r. rewrite !cfg_read_eq by lia.
  change (4 =? 4) with true. change (1 =? 4) with false. change (2 =? 4) with false.
  change (1 =? 2) with false. change (2 =? 2) with true.
  change (0 .& 2) with 0. change ((6 - 4) .& 2) with 2. change ((4 - 4) .& 2) with 0.
  pose proof cfg_dword_width as Hw. unfold in_width in Hw.
  change 255 with (2 ^ 8 - 1). change 65535 with (2 ^ 16 - 1).
  rewrite !land_mask_mod, !Z.shiftr_div_pow2 by lia.
  change (2 ^ 8) with 256. change (2 ^ 16) with 65536. change (2 ^ 24) with 16777216.
  change (8 * 2) with 16. change (8 * 0) with 0. change (8 * (4 - 4)) with 0.
  change (8 * (5 - 4)) with 8. change (8 * (6 - 4)) with 16. change (8 * (7 - 4)) with 24.
  change (2 ^ 0) with 1. change (2 ^ 8) with 256. change (2 ^ 16) with 65536.
  change (2 ^ 24) with 16777216.
  change (2 ^ 32) with 4294967296 in Hw.
  split; [done|]. split; dlia.
Qed.
End Fields.

Lemma cfg_read_lanes_witness :
  cfg_read 0 0 0 0 4 4 = 0x00081B36
  /\ cfg_read 0 0 0 0 4 4 = cfg_read 0 0 0 0 4 2 + 65536 * cfg_read 0 0 0 0 6 2.
Proof.
  destruct (cfg_read_lanes 0 0 0 0) as (H1 & _ & H3); try lia. by split.
Defined.
