(* ===== verification/Ring.v ===== *)
(** * The 256-byte receive ring

    [rx_buf_]/[rx_head_]/[rx_tail_]/[rx_count_] and the code that handles
    them, identical in [core/device/serial/uart_16550.cpp] and
    [core/arch/aarch64/pl011.cpp].  The abstract specification is a bounded
    queue, a list of at most [kFifoSize] bytes; [ring_list] is the abstraction
    function. *)

From S2P Require Import Prelude.

Definition kFifoSize : nat := 256.

Record Ring := MkRing {
  rx_buf_ : list Z;
  rx_head_ : nat;
  rx_tail_ : nat;
  rx_count_ : nat
}.

Definition ring_new : Ring := MkRing (replicate kFifoSize 0) 0 0 0.

(** [PushInput]: a byte that arrives while the ring is full is dropped. *)
Definition ring_push (r : Ring) (byte : Z) : Ring :=
  if (rx_count_ r <? kFifoSize)%nat
  then MkRing (<[rx_tail_ r := byte]> (rx_buf_ r)) (rx_head_ r)
         ((rx_tail_ r + 1) mod kFifoSize)%nat (rx_count_ r + 1)
  else r.

(** [PopRx]: 0 when the ring is empty. *)
Definition ring_pop (r : Ring) : Ring * Z :=
  if (rx_count_ r =? 0)%nat then (r, 0)
  else (MkRing (rx_buf_ r) ((rx_head_ r + 1) mod kFifoSize)%nat (rx_tail_ r)
          (rx_count_ r - 1),
        nth (rx_head_ r) (rx_buf_ r) 0).

(** Bit 1 of FCR: head, tail and count are reset, the buffer is not. *)
Definition ring_clear (r : Ring) : Ring := MkRing (rx_buf_ r) 0 0 0.

Ltac ring_cbn := cbn [fst snd rx_buf_ rx_head_ rx_tail_ rx_count_].

Lemma kFifoSize_pos : (0 < kFifoSize)%nat.
Proof. unfold kFifoSize. lia. Qed.

(** ** Abstraction to a bounded queue *)

Definition ring_slot (r : Ring) (i : nat) : nat := ((rx_head_ r + i) mod kFifoSize)%nat.
Definition ring_list (r : Ring) : list Z :=
  (fun i => nth (ring_slot r i) (rx_buf_ r) 0) <$> seq 0 (rx_count_ r).

Definition ring_ok (r : Ring) : Prop :=
  length (rx_buf_ r) = kFifoSize /\ (rx_count_ r <= kFifoSize)%nat
  /\ (rx_head_ r < kFifoSize)%nat
  /\ rx_tail_ r = ((rx_head_ r + rx_count_ r) mod kFifoSize)%nat.

Definition queue_push (q : list Z) (b : Z) : list Z :=
  if (length q <? kFifoSize)%nat then q ++ [b] else q.
Definition queue_pop (q : list Z) : list Z * Z :=
  match q with [] => ([], 0) | b :: t => (t, b) end.

Lemma length_ring_list r : length (ring_list r) = rx_count_ r.
Proof. unfold ring_list. by rewrite length_fmap, length_seq. Qed.

Lemma ring_new_ok : ring_ok ring_new.
Proof. unfold ring_ok, kFifoSize; simpl. repeat split; lia. Qed.

Lemma ring_new_list : ring_list ring_new = [].
Proof. reflexivity. Qed.

Lemma ring_clear_ok r : ring_ok r -> ring_ok (ring_clear r).
Proof. intros (Hl & _). unfold ring_ok; cbn -[kFifoSize]. change (0 mod kFifoSize)%nat with 0%nat. repeat split; try done; pose proof kFifoSize_pos; lia. Qed.

Lemma ring_clear_list r : ring_list (ring_clear r) = [].
Proof. reflexivity. Qed.

Lemma mod_slot_inj h i j :
  (i < kFifoSize)%nat -> (j < kFifoSize)%nat ->
  ((h + i) mod kFifoSize = (h + j) mod kFifoSize)%nat -> i = j.
Proof.
  unfold kFifoSize. intros Hi Hj H.
  pose proof (Nat.div_mod_eq (h + i) 256). pose proof (Nat.div_mod_eq (h + j) 256).
  nia.
Qed.

Lemma ring_push_ok r b : ring_ok r -> ring_ok (ring_push r b).
Proof.
  intros (Hl & Hc & Hh & Ht). unfold ring_push. case_ifs; [|done].
  apply Nat.ltb_lt in E. unfold ring_ok; ring_cbn.
  rewrite length_insert. repeat split; try done; [lia|].
  rewrite Ht, Nat.Div0.add_mod_idemp_l. f_equal. lia.
Qed.

Lemma ring_push_list r b : ring_ok r -> ring_list (ring_push r b) = queue_push (ring_list r) b.
Proof.
  intros (Hl & Hc & Hh & Ht). unfold queue_push. rewrite length_ring_list.
  unfold ring_push. case_ifs; [|done]. apply Nat.ltb_lt in E.
  unfold ring_list; ring_cbn. rewrite (Nat.add_comm (rx_count_ r)).
  change (1 + rx_count_ r)%nat with (S (rx_count_ r)). rewrite seq_S, fmap_app.
  f_equal; [|cbn [fmap list_fmap]; f_equal].
  - apply list_fmap_ext. intros i x Hx. apply lookup_seq in Hx as [-> Hi]. rewrite Nat.add_0_l.
    rewrite !nth_lookup, list_lookup_insert_ne; [done|]. rewrite Ht. unfold ring_slot; ring_cbn.
    intros Heq. apply mod_slot_inj in Heq; lia.
  - unfold ring_slot; ring_cbn. rewrite Nat.add_0_l, <- Ht. apply nth_lookup_Some.
    apply list_lookup_insert_eq. rewrite Hl, Ht. apply Nat.mod_upper_bound. done.
Qed.

Lemma ring_pop_ok r : ring_ok r -> ring_ok (fst (ring_pop r)).
Proof.
  intros (Hl & Hc & Hh & Ht). unfold ring_pop. case_ifs; [done|].
  apply Nat.eqb_neq in E. unfold ring_ok; ring_cbn.
  repeat split; try done; [lia|apply Nat.mod_upper_bound; pose proof kFifoSize_pos; lia|].
  rewrite Ht, Nat.Div0.add_mod_idemp_l. f_equal. lia.
Qed.

Lemma ring_pop_list r :
  ring_ok r ->
  queue_pop (ring_list r) = (ring_list (fst (ring_pop r)), snd (ring_pop r)).
Proof.
  intros (Hl & Hc & Hh & Ht). unfold ring_pop. case_ifs.
  - apply Nat.eqb_eq in E. unfold ring_list; ring_cbn. by rewrite E.
  - apply Nat.eqb_neq in E. unfold ring_list; ring_cbn.
    destruct (rx_count_ r) as [|c]; [done|]. cbn [seq fmap list_fmap queue_pop].
    replace (S c - 1)%nat with c by lia. f_equal.
    + change (list_fmap Z Z) with (@fmap list _ Z Z).
      rewrite <- seq_shift. rewrite <- (list_fmap_compose S). apply list_fmap_ext.
      intros i x Hx. cbn [compose]. f_equal. unfold ring_slot; ring_cbn.
      rewrite Nat.Div0.add_mod_idemp_l. f_equal. lia.
    + f_equal. unfold ring_slot. rewrite Nat.add_0_r. by apply Nat.mod_small.
Qed.

Create HintDb ring.
#[export] Hint Resolve ring_new_ok ring_clear_ok ring_push_ok ring_pop_ok : ring.
