(* ===== verification/Uart16550.v ===== *)
(** * 16550A UART

    [core/device/serial/uart_16550.{h,cpp}].  The callbacks are traced: the
    field [uart_out] lists, oldest first, the bytes handed to [tx_callback_]
    and the calls of [irq_callback_]. *)

From S2P Require Import Prelude.
From S2P Require Import AddrSpace.
From S2P Require Import Ring.

Inductive UartEvent :=
| TxByte (b : Z)
| RaiseIrq.

Record Uart := MkUart {
  ier_ : Z;
  lcr_ : Z;
  mcr_ : Z;
  scr_ : Z;
  dll_ : Z;
  dlh_ : Z;
  thre_pending_ : bool;
  fifo_enabled_ : bool;
  rx : Ring;
  irq_callback_ : bool;   (* whether the callback is set *)
  tx_callback_ : bool;
  uart_out : list UartEvent
}.

Definition Uart_new (irq tx : bool) : Uart :=
  MkUart 0 0 0 0 0 0 false false ring_new irq tx [].

Definition set_ier (s : Uart) (v : Z) (t : bool) : Uart :=
  MkUart v (lcr_ s) (mcr_ s) (scr_ s) (dll_ s) (dlh_ s) t (fifo_enabled_ s) (rx s)
    (irq_callback_ s) (tx_callback_ s) (uart_out s).
Definition set_regs (s : Uart) (lcr mcr scr dll dlh : Z) : Uart :=
  MkUart (ier_ s) lcr mcr scr dll dlh (thre_pending_ s) (fifo_enabled_ s) (rx s)
    (irq_callback_ s) (tx_callback_ s) (uart_out s).
Definition set_rx (s : Uart) (f : bool) (r : Ring) : Uart :=
  MkUart (ier_ s) (lcr_ s) (mcr_ s) (scr_ s) (dll_ s) (dlh_ s) (thre_pending_ s) f r
    (irq_callback_ s) (tx_callback_ s) (uart_out s).
Definition uart_emit (s : Uart) (e : UartEvent) : Uart :=
  MkUart (ier_ s) (lcr_ s) (mcr_ s) (scr_ s) (dll_ s) (dlh_ s) (thre_pending_ s)
    (fifo_enabled_ s) (rx s) (irq_callback_ s) (tx_callback_ s) (uart_out s ++ [e]).

Definition IsDlab (s : Uart) : bool := has (lcr_ s) 0x80.

Definition PushInput (s : Uart) (byte : Z) : Uart :=
  set_rx s (fifo_enabled_ s) (ring_push (rx s) byte).

Definition HasInput (s : Uart) : bool := (0 <? rx_count_ (rx s))%nat.

Definition PopRx (s : Uart) : Uart * Z :=
  let '(r, b) := ring_pop (rx s) in (set_rx s (fifo_enabled_ s) r, b).

(** The condition under which the interrupt is wanted. *)
Definition need_irq (s : Uart) : bool :=
  (has (ier_ s) 0x02 && thre_pending_ s) || (has (ier_ s) 0x01 && HasInput s).

Definition RaiseIrqIfNeeded (s : Uart) : Uart :=
  if need_irq s && irq_callback_ s then uart_emit s RaiseIrq else s.

Definition CheckAndRaiseIrq (s : Uart) : Uart := RaiseIrqIfNeeded s.

Definition Uart_PioRead (s : Uart) (offset size : Z) : Uart * Z :=
  if IsDlab s && (offset <=? 1) then (s, if offset =? 0 then dll_ s else dlh_ s)
  else if offset =? 0 then
    let '(s1, b) := PopRx s in (RaiseIrqIfNeeded s1, b)
  else if offset =? 1 then (s, ier_ s)
  else if offset =? 2 then
    let '(s1, v) :=
      if HasInput s && has (ier_ s) 0x01 then (s, 0x04)
      else if thre_pending_ s && has (ier_ s) 0x02 then (set_ier s (ier_ s) false, 0x02)
      else (s, 0x01) in
    (s1, if fifo_enabled_ s then v .| 0xC0 else v)
  else if offset =? 3 then (s, lcr_ s)
  else if offset =? 4 then (s, mcr_ s)
  else if offset =? 5 then (s, (0x20 .| 0x40) .| (if HasInput s then 0x01 else 0))
  else if offset =? 6 then (s, 0)
  else if offset =? 7 then (s, scr_ s)
  else (s, 0).

Definition Uart_PioWrite (s : Uart) (offset size value : Z) : Uart :=
  let val := u8 value in
  if IsDlab s && (offset <=? 1) then
    if offset =? 0 then set_regs s (lcr_ s) (mcr_ s) (scr_ s) val (dlh_ s)
    else set_regs s (lcr_ s) (mcr_ s) (scr_ s) (dll_ s) val
  else if offset =? 0 then
    let s1 := if tx_callback_ s then uart_emit s (TxByte val) else s in
    RaiseIrqIfNeeded (set_ier s1 (ier_ s1) true)
  else if offset =? 1 then
    let old_ier := ier_ s in
    RaiseIrqIfNeeded
      (set_ier s val (if has val 0x02 && negb (has old_ier 0x02) then true
                      else thre_pending_ s))
  else if offset =? 2 then
    set_rx s (has val 0x01) (if has val 0x02 then ring_clear (rx s) else rx s)
  else if offset =? 3 then set_regs s val (mcr_ s) (scr_ s) (dll_ s) (dlh_ s)
  else if offset =? 4 then set_regs s (lcr_ s) val (scr_ s) (dll_ s) (dlh_ s)
  else if offset =? 7 then set_regs s (lcr_ s) (mcr_ s) val (dll_ s) (dlh_ s)
  else s.

#[export] Instance Uart_Device : Device Uart := {
  PioRead := Uart_PioRead;
  PioWrite := Uart_PioWrite;
  MmioRead := default_MmioRead;
  MmioWrite := default_MmioWrite
}.

(** ** Runs: the console feeds bytes, the guest reads and writes ports *)

Inductive UartOp :=
| OpPush (b : Z)
| OpCheck
| OpRead (offset : Z)
| OpWrite (offset value : Z).

(** One operation and the byte the guest received from RBR, if any. *)
Definition uart_step (s : Uart) (op : UartOp) : Uart * list Z :=
  match op with
  | OpPush b => (PushInput s b, [])
  | OpCheck => (CheckAndRaiseIrq s, [])
  | OpRead o => let '(s', v) := Uart_PioRead s o 1 in
                (s', if negb (IsDlab s && (o <=? 1)) && (o =? 0) then [v] else [])
  | OpWrite o v => (Uart_PioWrite s o 1 v, [])
  end.

Fixpoint uart_run (s : Uart) (ops : list UartOp) : Uart * list Z :=
  match ops with
  | [] => (s, [])
  | op :: ops => let '(s1, o1) := uart_step s op in
                 let '(s2, o2) := uart_run s1 ops in (s2, o1 ++ o2)
  end.

(** The specification: a divisor-latch flag, a bounded queue, and the bytes
    transmitted. *)
Record UartSpec := MkUartSpec { sp_dlab : bool; sp_queue : list Z; sp_tx : list Z }.

Definition spec_step (q : UartSpec) (op : UartOp) : UartSpec * list Z :=
  match op with
  | OpPush b => (MkUartSpec (sp_dlab q) (queue_push (sp_queue q) b) (sp_tx q), [])
  | OpCheck => (q, [])
  | OpRead o =>
      if negb (sp_dlab q) && (o =? 0)
      then let '(l, b) := queue_pop (sp_queue q) in
           (MkUartSpec (sp_dlab q) l (sp_tx q), [b])
      else (q, [])
  | OpWrite o v =>
      if (o =? 0) && negb (sp_dlab q)
      then (MkUartSpec (sp_dlab q) (sp_queue q) (sp_tx q ++ [u8 v]), [])
      else if (o =? 2) && has (u8 v) 0x02 then (MkUartSpec (sp_dlab q) [] (sp_tx q), [])
      else if o =? 3 then (MkUartSpec (has (u8 v) 0x80) (sp_queue q) (sp_tx q), [])
      else (q, [])
  end.

Fixpoint spec_run (q : UartSpec) (ops : list UartOp) : UartSpec * list Z :=
  match ops with
  | [] => (q, [])
  | op :: ops => let '(q1, o1) := spec_step q op in
                 let '(q2, o2) := spec_run q1 ops in (q2, o1 ++ o2)
  end.

Definition tx_bytes (l : list UartEvent) : list Z :=
  omap (fun e => match e with TxByte b => Some b | RaiseIrq => None end) l.

Definition uart_abs (s : Uart) : UartSpec :=
  MkUartSpec (IsDlab s) (ring_list (rx s)) (tx_bytes (uart_out s)).

Definition uart_ok (s : Uart) : Prop := ring_ok (rx s) /\ tx_callback_ s = true.

Definition op_ok (op : UartOp) : Prop :=
  match op with OpRead o | OpWrite o _ => 0 <= o | _ => True end.

Lemma tx_bytes_app l1 l2 : tx_bytes (l1 ++ l2) = tx_bytes l1 ++ tx_bytes l2.
Proof. apply omap_app. Qed.

Lemma raise_abs s : uart_abs (RaiseIrqIfNeeded s) = uart_abs s.
Proof.
  unfold RaiseIrqIfNeeded. case_ifs; [|done]. unfold uart_abs; simpl.
  rewrite tx_bytes_app. simpl. by rewrite app_nil_r.
Qed.

Lemma raise_ok s : uart_ok s -> uart_ok (RaiseIrqIfNeeded s).
Proof. unfold RaiseIrqIfNeeded. by case_ifs. Qed.

Lemma uart_step_ok s op : uart_ok s -> uart_ok (fst (uart_step s op)).
Proof.
  intros [Hr Ht]. destruct op as [b| |o|o v]; simpl.
  - split; [by apply ring_push_ok|done].
  - by apply raise_ok.
  - unfold Uart_PioRead, PopRx. pose proof (ring_pop_ok _ Hr) as Hp.
    destruct (ring_pop (rx s)) as [r b]. case_ifs; simpl; try done; by apply raise_ok.
  - unfold Uart_PioWrite. rewrite Ht. case_ifs; simpl; try done; try by apply raise_ok.
    split; [by apply ring_clear_ok|done].
Qed.

Lemma uart_step_abs s op :
  uart_ok s -> op_ok op ->
  spec_step (uart_abs s) op = (uart_abs (fst (uart_step s op)), snd (uart_step s op)).
Proof.
  intros [Hr Ht] Ho. destruct op as [b| |o|o v]; cbn [uart_step spec_step fst snd].
  - unfold uart_abs at 1 2 3. cbn [sp_dlab sp_queue sp_tx]. by rewrite <- ring_push_list.
  - unfold CheckAndRaiseIrq. by rewrite raise_abs.
  - cbn in Ho. pose proof (ring_pop_list _ Hr) as Hp.
    unfold uart_abs at 1 2. cbn [sp_dlab sp_queue].
    unfold Uart_PioRead, PopRx. destruct (ring_pop (rx s)) as [r b]. simpl in Hp.
    destruct (IsDlab s) eqn:Ed; cbn [andb negb].
    + case_ifs; bool_hyps; try lia; try done; cbn [fst snd]; try (by rewrite andb_false_r).
    + destruct (Z.eqb_spec o 0) as [->|Hn]; cbn [andb negb].
      * rewrite Hp. cbn [fst snd]. rewrite raise_abs. unfold uart_abs; cbn. unfold IsDlab in *.
        cbn. by rewrite Ed.
      * case_ifs; done.
  - cbn in Ho. unfold Uart_PioWrite. rewrite Ht.
    unfold uart_abs at 1 2 3 4 5 6 7 8 9. cbn [sp_dlab sp_queue sp_tx].
    destruct (IsDlab s) eqn:Ed; cbn [andb negb]; rewrite ?andb_false_r, ?andb_true_r;
      case_ifs; bool_hyps; try lia; try done; cbn [fst snd]; rewrite ?raise_abs;
      unfold uart_abs, IsDlab in *; cbn; rewrite ?Ed, ?tx_bytes_app; try done.
Qed.

(** C6. The guest sees the console as a bounded byte queue: for every sequence of
    console input, interrupt polls and guest port accesses, the bytes read
    from RBR and the bytes transmitted are exactly those of the abstract
    queue specification, in order; bytes are lost only when 256 are already
    queued or when the guest resets the FIFO, and the divisor latch hides the
    data port. *)
Theorem uart_refines_queue ops s :
  uart_ok s -> Forall op_ok ops ->
  spec_run (uart_abs s) ops = (uart_abs (fst (uart_run s ops)), snd (uart_run s ops)).
Proof.
  revert s. induction ops as [|op ops IH]; intros s Hs Ho; [done|].
  inversion Ho as [|? ? Ho1 Ho2]; subst. cbn [spec_run uart_run].
  rewrite uart_step_abs by done. pose proof (uart_step_ok s op Hs) as Hs1.
  destruct (uart_step s op) as [s1 o1]. cbn [fst snd] in *.
  rewrite IH by done. destruct (uart_run s1 ops) as [s2 o2]. done.
Qed.

Lemma uart_refines_queue_witness :
  snd (uart_run (Uart_new true true)
         [OpWrite 2 0x07; OpPush 0x68; OpPush 0x69; OpRead 0; OpWrite 0 0x41; OpRead 0; OpRead 0])
    = [0x68; 0x69; 0].
Proof.
  pose proof (uart_refines_queue
    [OpWrite 2 0x07; OpPush 0x68; OpPush 0x69; OpRead 0; OpWrite 0 0x41; OpRead 0; OpRead 0]
    (Uart_new true true)) as H.
  assert (Hs : uart_ok (Uart_new true true)) by (split; [apply ring_new_ok|reflexivity]).
  specialize (H Hs). apply (f_equal snd) in H; [symmetry; exact H|].
  by repeat constructor.
Defined.

(** ** Interrupts *)

Lemma need_irq_raise s : need_irq (RaiseIrqIfNeeded s) = need_irq s.
Proof. unfold RaiseIrqIfNeeded. by case_ifs. Qed.

Lemma raise_last s :
  need_irq (RaiseIrqIfNeeded s) = true -> irq_callback_ s = true ->
  last (uart_out (RaiseIrqIfNeeded s)) = Some RaiseIrq.
Proof.
  rewrite need_irq_raise. intros Hn Hc. unfold RaiseIrqIfNeeded. rewrite Hn, Hc. simpl.
  by rewrite last_snoc.
Qed.

(** What IIR reports: the highest-priority pending source. *)
Definition iir_source (s : Uart) : Z := snd (Uart_PioRead s 2 1) .& 0x0F.

Lemma iir_source_eq s :
  iir_source s = if HasInput s && has (ier_ s) 0x01 then 4
                 else if thre_pending_ s && has (ier_ s) 0x02 then 2 else 1.
Proof.
  unfold iir_source, Uart_PioRead. change (2 <=? 1) with false. rewrite andb_false_r.
  cbn [Z.eqb Pos.eqb]. case_ifs; reflexivity.
Qed.

(** No interrupt is lost: IIR reports a source (bit 0 clear) exactly when an
    enabled condition is pending, and a guest access that makes a condition
    pending while none was ends with a call of the interrupt callback. *)
Theorem uart_interrupts s offset size value :
  irq_callback_ s = true -> 0 <= offset ->
  (iir_source s <> 1 <-> need_irq s = true)
  /\ (need_irq s = false ->
      (let s' := Uart_PioWrite s offset size value in
       need_irq s' = true -> last (uart_out s') = Some RaiseIrq)
      /\ (let s' := fst (Uart_PioRead s offset size) in
          need_irq s' = true -> last (uart_out s') = Some RaiseIrq)).
Proof.
  intros Hc Ho. split; [|intros Hn; split].
  - rewrite iir_source_eq. unfold need_irq.
    destruct (HasInput s), (thre_pending_ s), (has (ier_ s) 1), (has (ier_ s) 2); simpl; done.
  - intros s' Hn'. unfold s', Uart_PioWrite in *.
    assert (Hcl : forall f, need_irq (set_rx s f (ring_clear (rx s))) = true -> need_irq s = true).
    { intros f. unfold need_irq, HasInput; simpl. rewrite andb_false_r, orb_false_r.
      by intros ->. }
    repeat case_match; try congruence; try (apply raise_last; done).
    all: try (change (need_irq s = true) in Hn'; congruence).
    exfalso. specialize (Hcl _ Hn'). congruence.
  - intros s' Hn'. unfold s', Uart_PioRead, PopRx in *.
    repeat case_match; simplify_eq; cbn [fst] in *; try congruence.
    1: by apply raise_last.
    all: unfold need_irq, HasInput in *; simpl in *; rewrite andb_false_r in Hn';
      simpl in Hn'; rewrite Hn', orb_true_r in Hn; done.
Qed.

Lemma uart_interrupts_witness :
  last (uart_out (Uart_PioWrite (Uart_new true true) 1 1 2)) = Some RaiseIrq.
Proof.
  destruct (uart_interrupts (Uart_new true true) 1 1 2) as [_ H].
  - reflexivity.
  - lia.
  - destruct H as [H _]; [reflexivity|]. apply H. reflexivity.
Defined.
