(* ===== verification/Pl011.v ===== *)
(** * PL011 UART

    [core/arch/aarch64/pl011.{h,cpp}], the console of ARM guests.  The level
    callback is traced: [pl_line] is the last level driven; [pl_tx] the bytes
    handed to [tx_callback_]; [pl_pulses] the calls of the edge callback,
    used only when no level callback is set. *)

From S2P Require Import Prelude.
From S2P Require Import AddrSpace.
From S2P Require Import Ring.

Definition kFrTxfe : Z := 0x80.
Definition kFrRxff : Z := 0x40.
Definition kFrRxfe : Z := 0x10.
Definition kIrqRx : Z := 0x10.
Definition kIrqTx : Z := 0x20.

Record Pl011 := MkPl011 {
  cr_ : Z;
  lcr_h_ : Z;
  ibrd_ : Z;
  fbrd_ : Z;
  ifls_ : Z;
  imsc_ : Z;
  ris_ : Z;
  pl_rx : Ring;
  level_callback_ : bool;
  edge_callback_ : bool;
  pl_tx_callback_ : bool;
  pl_line : bool;
  pl_pulses : nat;
  pl_tx : list Z
}.

Definition Pl011_new (level edge tx : bool) : Pl011 :=
  MkPl011 0x0300 0 0 0 0 0 0 ring_new level edge tx false 0 [].

Definition set_ris (s : Pl011) (imsc ris : Z) (r : Ring) : Pl011 :=
  MkPl011 (cr_ s) (lcr_h_ s) (ibrd_ s) (fbrd_ s) (ifls_ s) imsc ris r
    (level_callback_ s) (edge_callback_ s) (pl_tx_callback_ s) (pl_line s) (pl_pulses s) (pl_tx s).
Definition set_config (s : Pl011) (cr lcrh ibrd fbrd ifls : Z) : Pl011 :=
  MkPl011 cr lcrh ibrd fbrd ifls (imsc_ s) (ris_ s) (pl_rx s)
    (level_callback_ s) (edge_callback_ s) (pl_tx_callback_ s) (pl_line s) (pl_pulses s) (pl_tx s).
Definition set_out (s : Pl011) (line : bool) (pulses : nat) (tx : list Z) : Pl011 :=
  MkPl011 (cr_ s) (lcr_h_ s) (ibrd_ s) (fbrd_ s) (ifls_ s) (imsc_ s) (ris_ s) (pl_rx s)
    (level_callback_ s) (edge_callback_ s) (pl_tx_callback_ s) line pulses tx.

Definition UpdateIrq (s : Pl011) : Pl011 :=
  let mis := ris_ s .& imsc_ s in
  if level_callback_ s then set_out s (negb (mis =? 0)) (pl_pulses s) (pl_tx s)
  else if negb (mis =? 0) && edge_callback_ s
  then set_out s (pl_line s) (S (pl_pulses s)) (pl_tx s)
  else s.

Definition Pl011_PushInput (s : Pl011) (byte : Z) : Pl011 :=
  if (kFifoSize <=? rx_count_ (pl_rx s))%nat then s
  else UpdateIrq (set_ris s (imsc_ s) (ris_ s .| kIrqRx) (ring_push (pl_rx s) byte)).

Definition Pl011_CheckAndRaiseIrq (s : Pl011) : Pl011 := UpdateIrq s.

Definition read_dr (s : Pl011) : Pl011 * Z :=
  if (0 <? rx_count_ (pl_rx s))%nat then
    let '(r, b) := ring_pop (pl_rx s) in
    let ris := if (rx_count_ r =? 0)%nat then ris_ s .& bnot 32 kIrqRx else ris_ s in
    (UpdateIrq (set_ris s (imsc_ s) ris r), b)
  else (UpdateIrq s, 0).

Definition Pl011_MmioRead (s : Pl011) (offset size : Z) : Pl011 * Z :=
  if offset =? 0x000 then read_dr s
  else (s,
    if offset =? 0x018 then
      (kFrTxfe .| (if (rx_count_ (pl_rx s) =? 0)%nat then kFrRxfe else 0))
      .| (if (kFifoSize <=? rx_count_ (pl_rx s))%nat then kFrRxff else 0)
    else if offset =? 0x030 then cr_ s
    else if offset =? 0x02C then lcr_h_ s
    else if offset =? 0x024 then ibrd_ s
    else if offset =? 0x028 then fbrd_ s
    else if offset =? 0x034 then ifls_ s
    else if offset =? 0x038 then imsc_ s
    else if offset =? 0x03C then ris_ s
    else if offset =? 0x040 then ris_ s .& imsc_ s
    else if offset =? 0xFE0 then 0x11
    else if offset =? 0xFE4 then 0x10
    else if offset =? 0xFE8 then 0x14
    else if offset =? 0xFEC then 0x00
    else if offset =? 0xFF0 then 0x0D
    else if offset =? 0xFF4 then 0xF0
    else if offset =? 0xFF8 then 0x05
    else if offset =? 0xFFC then 0xB1
    else 0).

Definition Pl011_MmioWrite (s : Pl011) (offset size value : Z) : Pl011 :=
  let v32 := u32 value in
  if offset =? 0x000 then
    let s1 := if pl_tx_callback_ s
              then set_out s (pl_line s) (pl_pulses s) (pl_tx s ++ [u8 (value .& 0xFF)])
              else s in
    UpdateIrq (set_ris s1 (imsc_ s1) (ris_ s1 .| kIrqTx) (pl_rx s1))
  else if offset =? 0x030 then set_config s v32 (lcr_h_ s) (ibrd_ s) (fbrd_ s) (ifls_ s)
  else if offset =? 0x02C then set_config s (cr_ s) v32 (ibrd_ s) (fbrd_ s) (ifls_ s)
  else if offset =? 0x024 then set_config s (cr_ s) (lcr_h_ s) v32 (fbrd_ s) (ifls_ s)
  else if offset =? 0x028 then set_config s (cr_ s) (lcr_h_ s) (ibrd_ s) v32 (ifls_ s)
  else if offset =? 0x034 then set_config s (cr_ s) (lcr_h_ s) (ibrd_ s) (fbrd_ s) v32
  else if offset =? 0x038 then UpdateIrq (set_ris s v32 (ris_ s) (pl_rx s))
  else if offset =? 0x044 then
    UpdateIrq (set_ris s (imsc_ s) (ris_ s .& bnot 32 v32) (pl_rx s))
  else s.

#[export] Instance Pl011_Device : Device Pl011 := {
  PioRead := default_PioRead;
  PioWrite := default_PioWrite;
  MmioRead := Pl011_MmioRead;
  MmioWrite := Pl011_MmioWrite
}.

(** ** Runs *)

Inductive Pl011Op :=
| PlPush (b : Z)
| PlCheck
| PlRead (offset : Z)
| PlWrite (offset value : Z).

Definition pl_step (s : Pl011) (op : Pl011Op) : Pl011 :=
  match op with
  | PlPush b => Pl011_PushInput s b
  | PlCheck => Pl011_CheckAndRaiseIrq s
  | PlRead o => fst (Pl011_MmioRead s o 4)
  | PlWrite o v => Pl011_MmioWrite s o 4 v
  end.

Definition pl_run (s : Pl011) (ops : list Pl011Op) : Pl011 := fold_left pl_step ops s.

Definition rx_irq (s : Pl011) : bool := has (ris_ s) kIrqRx.

Definition pl_inv (s : Pl011) : Prop :=
  ring_ok (pl_rx s)
  /\ (rx_irq s = true -> (0 < rx_count_ (pl_rx s))%nat)
  /\ pl_line s = has (ris_ s) (imsc_ s)
  /\ level_callback_ s = true.

Lemma update_inv s :
  ring_ok (pl_rx s) -> (rx_irq s = true -> (0 < rx_count_ (pl_rx s))%nat) ->
  level_callback_ s = true -> pl_inv (UpdateIrq s).
Proof. intros Hr Hi Hl. unfold UpdateIrq. rewrite Hl. exact (conj Hr (conj Hi (conj eq_refl Hl))). Qed.

Lemma has_land_bnot x m v : 0 <= x -> has (x .& bnot 32 v) m = true -> has x m = true.
Proof.
  unfold has. intros Hx H. apply negb_true_iff, Z.eqb_neq in H.
  apply negb_true_iff, Z.eqb_neq. intros E. apply H.
  rewrite <- Z.land_assoc, (Z.land_comm _ m), Z.land_assoc, E. apply Z.land_0_l.
Qed.

Lemma has_lor_disjoint x a m : a .& m = 0 -> has (x .| a) m = has x m.
Proof. intros H. unfold has. by rewrite Z.land_lor_distr_l, H, Z.lor_0_r. Qed.

Lemma has_clear x m : 0 <= x -> in_width 32 m -> has (x .& bnot 32 m) m = false.
Proof.
  intros Hx Hm. unfold has. apply negb_false_iff, Z.eqb_eq.
  rewrite <- Z.land_assoc. replace (bnot 32 m .& m) with 0; [apply Z.land_0_r|].
  symmetry. bitwise.
Qed.

Lemma pl_step_inv s op : 0 <= ris_ s -> pl_inv s -> pl_inv (pl_step s op) /\ 0 <= ris_ (pl_step s op).
Proof.
  intros Hp (Hr & Hi & Hline & Hl).
  assert (Hup : forall t, ris_ (UpdateIrq t) = ris_ t).
  { intros t. unfold UpdateIrq. by case_ifs. }
  destruct op as [b| |o|o v]; simpl.
  - unfold Pl011_PushInput. case_ifs; [split; [exact (conj Hr (conj Hi (conj Hline Hl)))|done]|]. apply Nat.leb_gt in E.
    rewrite Hup. simpl. split; [|apply Z.lor_nonneg; split; [done|by vm_compute]].
    apply update_inv; [by apply ring_push_ok| |done].
    intros _. simpl. unfold ring_push. apply Nat.ltb_lt in E. rewrite E. simpl. lia.
  - unfold Pl011_CheckAndRaiseIrq. rewrite Hup. by split; [apply update_inv|].
  - unfold Pl011_MmioRead. destruct (o =? 0); [|split; [exact (conj Hr (conj Hi (conj Hline Hl)))|done]]. unfold read_dr.
    pose proof (ring_pop_ok _ Hr) as Ho. destruct (ring_pop (pl_rx s)) as [r b]. simpl in Ho.
    assert (0 <= ris_ s .& bnot 32 kIrqRx) by (apply Z.land_nonneg; by left).
    case_ifs; simpl; rewrite Hup; simpl; (split; [|done]); apply update_inv; try done.
    + unfold rx_irq; simpl. by rewrite has_clear by (done || by vm_compute).
    + intros _. simpl. apply Nat.eqb_neq in E0. lia.
  - unfold Pl011_MmioWrite. cbv zeta.
    assert (0 <= ris_ s .& bnot 32 (u32 v)) by (apply Z.land_nonneg; by left).
    assert (0 <= ris_ s .| kIrqTx) by (apply Z.lor_nonneg; split; [done|by vm_compute]).
    case_ifs; try (split; [exact (conj Hr (conj Hi (conj Hline Hl)))|done]); rewrite Hup; simpl; (split; [|done]);
      apply update_inv; try done.
    all: unfold rx_irq in *; simpl.
    all: first [ rewrite has_lor_disjoint by done; exact Hi
               | intros H1; apply Hi; by apply has_land_bnot in H1 ].
Qed.

(** The interrupt line always tells the truth: after any sequence of console
    input and guest accesses the level driven to the interrupt controller is
    the masked interrupt status [RIS & IMSC], and a pending receive interrupt
    means there is a byte to read. *)
Theorem pl011_line_is_mis ops edge tx :
  let s := pl_run (Pl011_new true edge tx) ops in
  pl_line s = negb (snd (Pl011_MmioRead s 0x040 4) =? 0)
  /\ (rx_irq s = true -> ring_list (pl_rx s) <> [])
  /\ ring_ok (pl_rx s).
Proof.
  intros s.
  assert (H : pl_inv s /\ 0 <= ris_ s).
  { unfold s, pl_run.
    assert (H0 : pl_inv (Pl011_new true edge tx) /\ 0 <= ris_ (Pl011_new true edge tx)).
    { split; [|done]. refine (conj ring_new_ok (conj _ (conj _ _))); done. }
    revert H0. generalize (Pl011_new true edge tx).
    induction ops as [|op ops IH]; intros t [H1 H2]; [done|]. simpl.
    apply IH. by apply pl_step_inv. }
  destruct H as ((Hr & Hi & Hline & _) & _). split; [exact Hline|]. split; [|done].
  intros H%Hi Hn. apply (f_equal length) in Hn. rewrite length_ring_list in Hn.
  simpl in Hn. lia.
Qed.
