(* ===== verification/LocalApic.v ===== *)
(** * Local APIC

    [core/device/irq/local_apic.{h,cpp}]: per-vCPU registers, the timer, and
    the INIT / SIPI / fixed IPIs written through ICR.

    The index of the calling vCPU ([current_cpu_], a thread-local) and the
    readings of the steady clock are arguments.  The effects a write has
    outside the object (calls of the four callbacks, arming and stopping the
    host timer) are returned as a list of [ApicOut], in order.  [None] is the
    undefined behaviour of the C++ program: a write past the 64-entry target
    arrays, or a shift of a 32-bit 1 by 32 or more. *)

From S2P Require Import Prelude.

Definition kMaxCpus : nat := 64.
Definition kTimerOneShot : Z := 0.
Definition kTimerPeriodic : Z := 1.

Record CpuApicState := MkCpuApic {
  apic_id : Z;
  tpr : Z;
  spurious : Z;
  logical_dest : Z;
  dest_format : Z;
  error_status : Z;
  icr_low : Z;
  icr_high : Z;
  lvt_timer : Z;
  lvt_thermal : Z;
  lvt_perfmon : Z;
  lvt_lint0 : Z;
  lvt_lint1 : Z;
  lvt_error : Z;
  timer_init_count : Z;
  timer_div_conf : Z;
  timer_divider : Z;
  timer_load_time_ns : Z;
  timer_period_ns : Z;
  hires_timer : bool;
  timer_armed : bool
}.

Definition CpuApicState_new : CpuApicState :=
  MkCpuApic 0 0 0xFF 0 0xFFFFFFFF 0 0 0 0x10000 0x10000 0x10000 0x10000 0x10000 0x10000
    0 0 2 0 0 false false.

Definition set_apic_id (v : Z) (s : CpuApicState) : CpuApicState :=
  MkCpuApic v (tpr s) (spurious s) (logical_dest s) (dest_format s) (error_status s) (icr_low s)
    (icr_high s) (lvt_timer s) (lvt_thermal s) (lvt_perfmon s) (lvt_lint0 s) (lvt_lint1 s)
    (lvt_error s) (timer_init_count s) (timer_div_conf s) (timer_divider s)
    (timer_load_time_ns s) (timer_period_ns s) (hires_timer s) (timer_armed s).
Definition set_tpr (v : Z) (s : CpuApicState) : CpuApicState :=
  MkCpuApic (apic_id s) v (spurious s) (logical_dest s) (dest_format s) (error_status s)
    (icr_low s) (icr_high s) (lvt_timer s) (lvt_thermal s) (lvt_perfmon s) (lvt_lint0 s)
    (lvt_lint1 s) (lvt_error s) (timer_init_count s) (timer_div_conf s) (timer_divider s)
    (timer_load_time_ns s) (timer_period_ns s) (hires_timer s) (timer_armed s).
Definition set_spurious (v : Z) (s : CpuApicState) : CpuApicState :=
  MkCpuApic (apic_id s) (tpr s) v (logical_dest s) (dest_format s) (error_status s) (icr_low s)
    (icr_high s) (lvt_timer s) (lvt_thermal s) (lvt_perfmon s) (lvt_lint0 s) (lvt_lint1 s)
    (lvt_error s) (timer_init_count s) (timer_div_conf s) (timer_divider s)
    (timer_load_time_ns s) (timer_period_ns s) (hires_timer s) (timer_armed s).
Definition set_logical_dest (v : Z) (s : CpuApicState) : CpuApicState :=
  MkCpuApic (apic_id s) (tpr s) (spurious s) v (dest_format s) (error_status s) (icr_low s)
    (icr_high s) (lvt_timer s) (lvt_thermal s) (lvt_perfmon s) (lvt_lint0 s) (lvt_lint1 s)
    (lvt_error s) (timer_init_count s) (timer_div_conf s) (timer_divider s)
    (timer_load_time_ns s) (timer_period_ns s) (hires_timer s) (timer_armed s).
Definition set_dest_format (v : Z) (s : CpuApicState) : CpuApicState :=
  MkCpuApic (apic_id s) (tpr s) (spurious s) (logical_dest s) v (error_status s) (icr_low s)
    (icr_high s) (lvt_timer s) (lvt_thermal s) (lvt_perfmon s) (lvt_lint0 s) (lvt_lint1 s)
    (lvt_error s) (timer_init_count s) (timer_div_conf s) (timer_divider s)
    (timer_load_time_ns s) (timer_period_ns s) (hires_timer s) (timer_armed s).
Definition set_error_status (v : Z) (s : CpuApicState) : CpuApicState :=
  MkCpuApic (apic_id s) (tpr s) (spurious s) (logical_dest s) (dest_format s) v (icr_low s)
    (icr_high s) (lvt_timer s) (lvt_thermal s) (lvt_perfmon s) (lvt_lint0 s) (lvt_lint1 s)
    (lvt_error s) (timer_init_count s) (timer_div_conf s) (timer_divider s)
    (timer_load_time_ns s) (timer_period_ns s) (hires_timer s) (timer_armed s).
Definition set_icr_low (v : Z) (s : CpuApicState) : CpuApicState :=
  MkCpuApic (apic_id s) (tpr s) (spurious s) (logical_dest s) (dest_format s) (error_status s) v
    (icr_high s) (lvt_timer s) (lvt_thermal s) (lvt_perfmon s) (lvt_lint0 s) (lvt_lint1 s)
    (lvt_error s) (timer_init_count s) (timer_div_conf s) (timer_divider s)
    (timer_load_time_ns s) (timer_period_ns s) (hires_timer s) (timer_armed s).
Definition set_icr_high (v : Z) (s : CpuApicState) : CpuApicState :=
  MkCpuApic (apic_id s) (tpr s) (spurious s) (logical_dest s) (dest_format s) (error_status s)
    (icr_low s) v (lvt_timer s) (lvt_thermal s) (lvt_perfmon s) (lvt_lint0 s) (lvt_lint1 s)
    (lvt_error s) (timer_init_count s) (timer_div_conf s) (timer_divider s)
    (timer_load_time_ns s) (timer_period_ns s) (hires_timer s) (timer_armed s).
Definition set_lvt_timer (v : Z) (s : CpuApicState) : CpuApicState :=
  MkCpuApic (apic_id s) (tpr s) (spurious s) (logical_dest s) (dest_format s) (error_status s)
    (icr_low s) (icr_high s) v (lvt_thermal s) (lvt_perfmon s) (lvt_lint0 s) (lvt_lint1 s)
    (lvt_error s) (timer_init_count s) (timer_div_conf s) (timer_divider s)
    (timer_load_time_ns s) (timer_period_ns s) (hires_timer s) (timer_armed s).
Definition set_lvt_thermal (v : Z) (s : CpuApicState) : CpuApicState :=
  MkCpuApic (apic_id s) (tpr s) (spurious s) (logical_dest s) (dest_format s) (error_status s)
    (icr_low s) (icr_high s) (lvt_timer s) v (lvt_perfmon s) (lvt_lint0 s) (lvt_lint1 s)
    (lvt_error s) (timer_init_count s) (timer_div_conf s) (timer_divider s)
    (timer_load_time_ns s) (timer_period_ns s) (hires_timer s) (timer_armed s).
Definition set_lvt_perfmon (v : Z) (s : CpuApicState) : CpuApicState :=
  MkCpuApic (apic_id s) (tpr s) (spurious s) (logical_dest s) (dest_format s) (error_status s)
    (icr_low s) (icr_high s) (lvt_timer s) (lvt_thermal s) v (lvt_lint0 s) (lvt_lint1 s)
    (lvt_error s) (timer_init_count s) (timer_div_conf s) (timer_divider s)
    (timer_load_time_ns s) (timer_period_ns s) (hires_timer s) (timer_armed s).
Definition set_lvt_lint0 (v : Z) (s : CpuApicState) : CpuApicState :=
  MkCpuApic (apic_id s) (tpr s) (spurious s) (logical_dest s) (dest_format s) (error_status s)
    (icr_low s) (icr_high s) (lvt_timer s) (lvt_thermal s) (lvt_perfmon s) v (lvt_lint1 s)
    (lvt_error s) (timer_init_count s) (timer_div_conf s) (timer_divider s)
    (timer_load_time_ns s) (timer_period_ns s) (hires_timer s) (timer_armed s).
Definition set_lvt_lint1 (v : Z) (s : CpuApicState) : CpuApicState :=
  MkCpuApic (apic_id s) (tpr s) (spurious s) (logical_dest s) (dest_format s) (error_status s)
    (icr_low s) (icr_high s) (lvt_timer s) (lvt_thermal s) (lvt_perfmon s) (lvt_lint0 s) v
    (lvt_error s) (timer_init_count s) (timer_div_conf s) (timer_divider s)
    (timer_load_time_ns s) (timer_period_ns s) (hires_timer s) (timer_armed s).
Definition set_lvt_error (v : Z) (s : CpuApicState) : CpuApicState :=
  MkCpuApic (apic_id s) (tpr s) (spurious s) (logical_dest s) (dest_format s) (error_status s)
    (icr_low s) (icr_high s) (lvt_timer s) (lvt_thermal s) (lvt_perfmon s) (lvt_lint0 s)
    (lvt_lint1 s) v (timer_init_count s) (timer_div_conf s) (timer_divider s)
    (timer_load_time_ns s) (timer_period_ns s) (hires_timer s) (timer_armed s).
Definition set_timer_init_count (v : Z) (s : CpuApicState) : CpuApicState :=
  MkCpuApic (apic_id s) (tpr s) (spurious s) (logical_dest s) (dest_format s) (error_status s)
    (icr_low s) (icr_high s) (lvt_timer s) (lvt_thermal s) (lvt_perfmon s) (lvt_lint0 s)
    (lvt_lint1 s) (lvt_error s) v (timer_div_conf s) (timer_divider s) (timer_load_time_ns s)
    (timer_period_ns s) (hires_timer s) (timer_armed s).
Definition set_timer_load_time_ns (v : Z) (s : CpuApicState) : CpuApicState :=
  MkCpuApic (apic_id s) (tpr s) (spurious s) (logical_dest s) (dest_format s) (error_status s)
    (icr_low s) (icr_high s) (lvt_timer s) (lvt_thermal s) (lvt_perfmon s) (lvt_lint0 s)
    (lvt_lint1 s) (lvt_error s) (timer_init_count s) (timer_div_conf s) (timer_divider s) v
    (timer_period_ns s) (hires_timer s) (timer_armed s).
Definition set_hires_timer (v : bool) (s : CpuApicState) : CpuApicState :=
  MkCpuApic (apic_id s) (tpr s) (spurious s) (logical_dest s) (dest_format s) (error_status s)
    (icr_low s) (icr_high s) (lvt_timer s) (lvt_thermal s) (lvt_perfmon s) (lvt_lint0 s)
    (lvt_lint1 s) (lvt_error s) (timer_init_count s) (timer_div_conf s) (timer_divider s)
    (timer_load_time_ns s) (timer_period_ns s) v (timer_armed s).
Definition set_timer_armed (v : bool) (s : CpuApicState) : CpuApicState :=
  MkCpuApic (apic_id s) (tpr s) (spurious s) (logical_dest s) (dest_format s) (error_status s)
    (icr_low s) (icr_high s) (lvt_timer s) (lvt_thermal s) (lvt_perfmon s) (lvt_lint0 s)
    (lvt_lint1 s) (lvt_error s) (timer_init_count s) (timer_div_conf s) (timer_divider s)
    (timer_load_time_ns s) (timer_period_ns s) (hires_timer s) v.
Definition set_timer_div (conf div : Z) (s : CpuApicState) : CpuApicState :=
  MkCpuApic (apic_id s) (tpr s) (spurious s) (logical_dest s) (dest_format s) (error_status s)
    (icr_low s) (icr_high s) (lvt_timer s) (lvt_thermal s) (lvt_perfmon s) (lvt_lint0 s)
    (lvt_lint1 s) (lvt_error s) (timer_init_count s) conf div (timer_load_time_ns s)
    (timer_period_ns s) (hires_timer s) (timer_armed s).
Definition set_timer_arm (load period : Z) (s : CpuApicState) : CpuApicState :=
  MkCpuApic (apic_id s) (tpr s) (spurious s) (logical_dest s) (dest_format s) (error_status s)
    (icr_low s) (icr_high s) (lvt_timer s) (lvt_thermal s) (lvt_perfmon s) (lvt_lint0 s)
    (lvt_lint1 s) (lvt_error s) (timer_init_count s) (timer_div_conf s) (timer_divider s)
    load period (hires_timer s) true.

Record LocalApic := MkLocalApic {
  cpus_ : list CpuApicState;
  cpu_count_ : Z
}.

Definition LocalApic_new : LocalApic :=
  MkLocalApic (replicate kMaxCpus CpuApicState_new) 1.

Inductive ApicOut :=
| OutInject (vector cpu : Z)
| OutInit (target : Z)
| OutSipi (target vector : Z)
| OutIpi (vector dest shorthand : Z)
| OutTimerArm (cpu period : Z)
| OutTimerStop (cpu : Z).

Definition set_cpu (i : nat) (c : CpuApicState) (s : LocalApic) : LocalApic :=
  MkLocalApic (<[i := c]> (cpus_ s)) (cpu_count_ s).

Definition cpu_at (s : LocalApic) (i : nat) : CpuApicState := nth i (cpus_ s) CpuApicState_new.

(** [timer]: whether the platform's [MakeHiResTimer] returned an object. *)
Definition init_cpu (timer : bool) (count : Z) (i : nat) (c : CpuApicState) : CpuApicState :=
  if Z.of_nat i <? count then set_hires_timer timer (set_apic_id (Z.of_nat i) c) else c.

Definition Init (timer : bool) (s : LocalApic) (cpu_count : Z) : LocalApic :=
  MkLocalApic (imap (init_cpu timer cpu_count) (cpus_ s)) cpu_count.

Definition set_nth_id (ids : list Z) (i : nat) (c : CpuApicState) : CpuApicState :=
  match ids !! i with Some v => set_apic_id v c | None => c end.

Definition SetApicIds (s : LocalApic) (ids : list Z) : LocalApic :=
  MkLocalApic (imap (set_nth_id ids) (cpus_ s)) (cpu_count_ s).

(** [CurrentCpu]: the index of the state the calling vCPU uses. *)
Definition CurrentCpu (current_cpu : Z) : nat :=
  if Z.of_nat kMaxCpus <=? current_cpu then 0%nat else Z.to_nat current_cpu.

Definition GetDivider (c : CpuApicState) : Z :=
  let v := (timer_div_conf c .& 3) .| ((timer_div_conf c .>> 1) .& 4) in
  if v =? 7 then 1 else u32 (2 .<< v).

Definition timer_mode (c : CpuApicState) : Z := (lvt_timer c .>> 17) .& 0x3.

Definition StopTimer (s : LocalApic) (cpu_idx : Z) : LocalApic * list ApicOut :=
  if Z.of_nat kMaxCpus <=? cpu_idx then (s, [])
  else
    let i := Z.to_nat cpu_idx in
    let c := cpu_at s i in
    (set_cpu i (set_timer_armed false c) s,
     if hires_timer c then [OutTimerStop cpu_idx] else []).

Definition Stop_one (st : LocalApic * list ApicOut) (i : Z) : LocalApic * list ApicOut :=
  let '(s', o) := StopTimer (fst st) i in (s', snd st ++ o).

(** [Stop] and the destructor. *)
Definition Stop (s : LocalApic) : LocalApic * list ApicOut :=
  fold_left Stop_one (seqZ 0 (Z.min (cpu_count_ s) (Z.of_nat kMaxCpus))) (s, []).

Definition ArmTimer (now : Z) (s : LocalApic) (cpu_idx : Z) : LocalApic * list ApicOut :=
  if Z.of_nat kMaxCpus <=? cpu_idx then (s, [])
  else
    let i := Z.to_nat cpu_idx in
    let c := cpu_at s i in
    if negb (hires_timer c) || (timer_init_count c =? 0) then (s, [])
    else
      let c1 := set_timer_armed false c in
      let period := u64 (timer_init_count c * timer_divider c) in
      if period =? 0 then (set_cpu i c1 s, [OutTimerStop cpu_idx])
      else
        let period := if period <? 50000 then 50000 else period in
        (set_cpu i (set_timer_arm now period c1) s,
         [OutTimerStop cpu_idx; OutTimerArm cpu_idx period]).

(** [FireTimer]: the host timer's callback.  The result is the delay of the
    next firing, 0 for none. *)
Definition FireTimer (inject_set : bool) (s : LocalApic) (cpu_idx : Z)
    : LocalApic * list ApicOut * Z :=
  if Z.of_nat kMaxCpus <=? cpu_idx then (s, [], 0)
  else
    let i := Z.to_nat cpu_idx in
    let c := cpu_at s i in
    if negb (timer_armed c) || (timer_init_count c =? 0) || has (lvt_timer c) 0x10000
    then (set_cpu i (set_timer_armed false c) s, [], 0)
    else
      let vector := lvt_timer c .& 0xFF in
      let should_inject := (0 <? vector) && inject_set in
      let '(c', next_ns) :=
        if timer_mode c =? kTimerOneShot
        then (set_timer_armed false (set_timer_init_count 0 c), 0)
        else (set_timer_load_time_ns (u64 (timer_load_time_ns c + timer_period_ns c)) c,
              timer_period_ns c) in
      (set_cpu i c' s, if should_inject then [OutInject vector cpu_idx] else [], next_ns).

Definition TimerCurCount (now : Z) (c : CpuApicState) : Z :=
  if timer_init_count c =? 0 then 0
  else
    let elapsed_ns := if timer_load_time_ns c <? now then now - timer_load_time_ns c else 0 in
    let elapsed_ticks := elapsed_ns / timer_divider c in
    if timer_mode c =? kTimerPeriodic
    then u32 (timer_init_count c - u32 (elapsed_ticks mod timer_init_count c))
    else if timer_init_count c <=? elapsed_ticks then 0
    else u32 (timer_init_count c - u32 elapsed_ticks).

Definition LocalApic_MmioRead (cur now : Z) (s : LocalApic) (offset : Z) : Z :=
  let c := cpu_at s (CurrentCpu cur) in
  let o := u32 offset in
  if o =? 0x020 then u32 (apic_id c .<< 24)
  else if o =? 0x030 then 0x00050014
  else if o =? 0x080 then tpr c
  else if o =? 0x0D0 then logical_dest c
  else if o =? 0x0E0 then dest_format c
  else if o =? 0x0F0 then spurious c
  else if o =? 0x280 then error_status c
  else if o =? 0x300 then icr_low c
  else if o =? 0x310 then icr_high c
  else if o =? 0x320 then lvt_timer c
  else if o =? 0x330 then lvt_thermal c
  else if o =? 0x340 then lvt_perfmon c
  else if o =? 0x350 then lvt_lint0 c
  else if o =? 0x360 then lvt_lint1 c
  else if o =? 0x370 then lvt_error c
  else if o =? 0x380 then timer_init_count c
  else if o =? 0x390 then TimerCurCount now c
  else if o =? 0x3E0 then timer_div_conf c
  else 0.

Inductive TimerAction := kNone | kArm | kStop.

(** The vCPUs other than the sender; the targets are stored in an array of
    [kMaxCpus] entries. *)
Definition others (count ci : Z) : option (list Z) :=
  let l := filter (fun i => i <> ci) (seqZ 0 count) in
  if (length l <=? kMaxCpus)%nat then Some l else None.

(** The targets of an INIT or SIPI. *)
Definition ipi_targets (count ci dest shorthand : Z) : option (list Z) :=
  if shorthand =? 0 then Some [dest]
  else if shorthand =? 3 then others count ci
  else Some [].

(** Flat logical destination: bit N of the mask addresses vCPU N. *)
Definition logical_targets (count dest : Z) : option (list Z) :=
  if 32 <? count then None
  else Some (filter (fun i => dest .& (1 .<< i) <> 0) (seqZ 0 count)).

Definition icr_effects (s : LocalApic) (ci v dest : Z) : option (list ApicOut) :=
  let delivery_mode := (v .>> 8) .& 0x7 in
  let dest_shorthand := (v .>> 18) .& 0x3 in
  let vector := v .& 0xFF in
  if delivery_mode =? 5 then
    option_map (map OutInit) (ipi_targets (cpu_count_ s) ci dest dest_shorthand)
  else if delivery_mode =? 6 then
    option_map (map (fun i => OutSipi i vector))
      (ipi_targets (cpu_count_ s) ci dest dest_shorthand)
  else if delivery_mode =? 0 then
    if negb ((v .>> 11) .& 1 =? 0) && (dest_shorthand =? 0) then
      option_map (map (fun i => OutIpi vector i 0)) (logical_targets (cpu_count_ s) dest)
    else Some [OutIpi vector dest dest_shorthand]
  else Some [].

Definition timer_do (act : TimerAction) (now : Z) (s : LocalApic) (ci : Z) :
    LocalApic * list ApicOut :=
  match act with
  | kNone => (s, [])
  | kArm => ArmTimer now s ci
  | kStop => StopTimer s ci
  end.

(** [now1] is the clock while the lock is held, [now2] when the timer is
    armed.  All four callbacks are set, as the machine does. *)
Definition LocalApic_MmioWrite (cur now1 now2 : Z) (s : LocalApic) (offset value : Z)
    : option (LocalApic * list ApicOut) :=
  let i := CurrentCpu cur in
  let c := cpu_at s i in
  let v := u32 value in
  let o := u32 offset in
  let upd c' := Some (set_cpu i c' s, []) in
  let act c' a := Some (timer_do a now2 (set_cpu i c' s) cur) in
  if o =? 0x020 then upd (set_apic_id ((v .>> 24) .& 0xFF) c)
  else if o =? 0x080 then upd (set_tpr (v .& 0xFF) c)
  else if o =? 0x0B0 then Some (s, [])
  else if o =? 0x0D0 then upd (set_logical_dest v c)
  else if o =? 0x0E0 then upd (set_dest_format v c)
  else if o =? 0x0F0 then
    act (set_spurious v c)
      (if has (spurious c) 0x100 && negb (has v 0x100) then kStop
       else if negb (has (spurious c) 0x100) && has v 0x100
               && (timer_mode c =? kTimerPeriodic) && negb (timer_init_count c =? 0)
       then kArm else kNone)
  else if o =? 0x280 then upd (set_error_status 0 c)
  else if o =? 0x300 then
    outs ← icr_effects s cur v ((icr_high c .>> 24) .& 0xFF);
    Some (set_cpu i (set_icr_low v c) s, outs)
  else if o =? 0x310 then upd (set_icr_high v c)
  else if o =? 0x320 then
    act (set_lvt_timer v c)
      (if negb (timer_init_count c =? 0) && negb (has v 0x10000) then kArm else kStop)
  else if o =? 0x330 then upd (set_lvt_thermal v c)
  else if o =? 0x340 then upd (set_lvt_perfmon v c)
  else if o =? 0x350 then upd (set_lvt_lint0 v c)
  else if o =? 0x360 then upd (set_lvt_lint1 v c)
  else if o =? 0x370 then upd (set_lvt_error v c)
  else if o =? 0x380 then
    act (set_timer_load_time_ns now1 (set_timer_init_count v c))
      (if negb (v =? 0) && negb (has (lvt_timer c) 0x10000) then kArm else kStop)
  else if o =? 0x3E0 then
    let c' := set_timer_div (v .& 0xB) (timer_divider c) c in
    upd (set_timer_div (timer_div_conf c') (GetDivider c') c')
  else Some (s, []).

(** ** Invariant *)

Definition cpu_ok (c : CpuApicState) : Prop :=
  in_width 32 (timer_init_count c) /\ 1 <= timer_divider c <= 128
  /\ timer_divider c = GetDivider c
  /\ (timer_armed c = true -> 0 < timer_init_count c /\ 50000 <= timer_period_ns c)
  /\ hires_timer c = true.

(** Divide values: 2, 4, 8, 16, 32, 64, 128, 1 for the encodings 0..7. *)
Lemma GetDivider_cases c :
  exists v, 0 <= v <= 7 /\ GetDivider c = (if v =? 7 then 1 else 2 ^ (v + 1)).
Proof.
  unfold GetDivider.
  set (v := (timer_div_conf c .& 3) .| ((timer_div_conf c .>> 1) .& 4)).
  assert (Hv : in_width 3 v).
  { apply in_width_lor; [lia| |]; apply in_width_land_r; by vm_compute. }
  clearbody v. unfold in_width in Hv. change (2 ^ 3) with 8 in Hv.
  exists v. split; [lia|].
  assert (v = 0 \/ v = 1 \/ v = 2 \/ v = 3 \/ v = 4 \/ v = 5 \/ v = 6 \/ v = 7) as Hc by lia.
  by repeat destruct Hc as [->|Hc]; [..|subst].
Qed.

Lemma GetDivider_bound c : 1 <= GetDivider c <= 128.
Proof.
  destruct (GetDivider_cases c) as (v & Hv & ->). destruct (Z.eqb_spec v 7); [lia|].
  assert (Hc : 2 ^ (0 + 1) <= 2 ^ (v + 1) <= 2 ^ (6 + 1)) by (split; apply Z.pow_le_mono_r; lia).
  change (2 ^ (0 + 1)) with 2 in Hc. change (2 ^ (6 + 1)) with 128 in Hc. lia.
Qed.

Lemma CpuApicState_new_ok : cpu_ok (set_hires_timer true CpuApicState_new).
Proof. by repeat split. Qed.

(** Every vCPU the machine brought up keeps [cpu_ok]. *)
Definition apic_ok (s : LocalApic) : Prop :=
  length (cpus_ s) = kMaxCpus /\ 0 <= cpu_count_ s <= 64
  /\ forall i c, Z.of_nat i < cpu_count_ s -> cpus_ s !! i = Some c -> cpu_ok c.

Lemma cpu_at_lookup s i :
  apic_ok s -> (i < kMaxCpus)%nat -> cpus_ s !! i = Some (cpu_at s i).
Proof.
  intros (Hl & _) Hi. unfold cpu_at. rewrite nth_lookup.
  destruct (lookup_lt_is_Some_2 (cpus_ s) i) as [c Hc]; [lia|]. by rewrite Hc.
Qed.

Lemma cpu_at_set i c s : apic_ok s -> (i < kMaxCpus)%nat -> cpu_at (set_cpu i c s) i = c.
Proof.
  intros (Hl & _) Hi. unfold cpu_at, set_cpu. simpl. apply nth_lookup_Some.
  apply list_lookup_insert_eq. lia.
Qed.

Lemma set_cpu_set_cpu i c c' s : set_cpu i c (set_cpu i c' s) = set_cpu i c s.
Proof. unfold set_cpu. simpl. by rewrite list_insert_insert_eq. Qed.

(** Storing a well-formed state preserves the invariant. *)
Lemma set_cpu_ok i c s :
  apic_ok s -> cpu_ok c -> apic_ok (set_cpu i c s).
Proof.
  intros (Hl & Hc & Hcs) Hok. split; [|split; [done|]]; unfold set_cpu; simpl.
  - by rewrite length_insert.
  - intros j d Hj Hd. apply list_lookup_insert_Some in Hd as [(_ & <- & _)|(_ & Hd)]; [done|].
    by eapply Hcs.
Qed.

Lemma cpu_at_ok s i : apic_ok s -> Z.of_nat i < cpu_count_ s -> cpu_ok (cpu_at s i).
Proof.
  intros Hs Hi. pose proof Hs as (Hl & Hc & Hcs). eapply Hcs; [exact Hi|].
  apply cpu_at_lookup; [done|]. unfold kMaxCpus. lia.
Qed.

(** A state whose timer is not armed is well formed with any init count. *)
Definition cpu_quiet (c : CpuApicState) : Prop :=
  in_width 32 (timer_init_count c) /\ 1 <= timer_divider c <= 128
  /\ timer_divider c = GetDivider c /\ hires_timer c = true.

Lemma cpu_ok_quiet c : cpu_ok c -> cpu_quiet c.
Proof. intros (Hi & Hd & He & _ & Hh). exact (conj Hi (conj Hd (conj He Hh))). Qed.

Lemma quiet_stop c : cpu_quiet c -> cpu_ok (set_timer_armed false c).
Proof. intros (Hi & Hd & He & Hh). by refine (conj Hi (conj Hd (conj He (conj _ Hh)))). Qed.

Lemma quiet_arm now c :
  cpu_quiet c -> 0 < timer_init_count c ->
  let p := u64 (timer_init_count c * timer_divider c) in
  0 < p /\ cpu_ok (set_timer_arm now (if p <? 50000 then 50000 else p) (set_timer_armed false c)).
Proof.
  intros (Hi & Hd & He & Hh) Hp p.
  assert (E : p = timer_init_count c * timer_divider c).
  { apply wrap_small. unfold in_width in *. change (2 ^ 64) with (2 ^ 32 * 2 ^ 32).
    change (2 ^ 32) with 4294967296 in *. nia. }
  split; [nia|]. refine (conj Hi (conj Hd (conj He (conj _ Hh)))).
  intros _. simpl. split; [done|]. destruct (Z.ltb_spec p 50000); lia.
Qed.

Section Write.
  Context (s : LocalApic) (cur : Z).
  Context (Hs : apic_ok s) (Hcur : 0 <= cur < cpu_count_ s).

Lemma cur_index : CurrentCpu cur = Z.to_nat cur /\ (Z.to_nat cur < kMaxCpus)%nat.
Proof.
  destruct Hs as (_ & Hc & _). unfold CurrentCpu, kMaxCpus.
  destruct (Z.leb_spec (Z.of_nat 64) cur); lia.
Qed.

Lemma StopTimer_ok c :
  cpu_quiet c -> apic_ok (fst (StopTimer (set_cpu (CurrentCpu cur) c s) cur)).
Proof.
  intros Hq. destruct cur_index as [-> Hi]. unfold StopTimer.
  destruct (Z.leb_spec (Z.of_nat kMaxCpus) cur); [lia|]. cbn [fst].
  rewrite cpu_at_set, set_cpu_set_cpu by done.
  apply set_cpu_ok; [done|]. by apply quiet_stop.
Qed.

Lemma ArmTimer_ok now c :
  cpu_quiet c -> 0 < timer_init_count c ->
  apic_ok (fst (ArmTimer now (set_cpu (CurrentCpu cur) c s) cur)).
Proof.
  intros Hq Hp. destruct cur_index as [-> Hi]. unfold ArmTimer.
  destruct (Z.leb_spec (Z.of_nat kMaxCpus) cur); [lia|].
  rewrite !cpu_at_set by done. destruct Hq as (Hw & Hd & He & Hh). rewrite Hh. cbn [negb orb].
  destruct (Z.eqb_spec (timer_init_count c) 0); [lia|].
  assert (Hq : cpu_quiet c) by exact (conj Hw (conj Hd (conj He Hh))).
  destruct (quiet_arm now c Hq Hp) as [Hp' Hok].
  destruct (Z.eqb_spec (u64 (timer_init_count c * timer_divider c)) 0); [lia|]. cbn [fst].
  rewrite set_cpu_set_cpu. by apply set_cpu_ok.
Qed.

Lemma quiet_upd_ok c :
  cpu_ok c -> apic_ok (set_cpu (CurrentCpu cur) c s).
Proof. intros Hq. by apply set_cpu_ok. Qed.

Lemma cur_ok : cpu_ok (cpu_at s (CurrentCpu cur)).
Proof. apply cpu_at_ok; [done|]. destruct cur_index as [-> _]. lia. Qed.

(** A guest write of any register keeps every vCPU's timer state well formed:
    the divider is the power of two the divide configuration encodes, and an
    armed timer has a positive count and a period of at least 50 microseconds. *)
Theorem LocalApic_MmioWrite_ok now1 now2 offset value s' outs :
  LocalApic_MmioWrite cur now1 now2 s offset value = Some (s', outs) -> apic_ok s'.
Proof.
  pose proof cur_ok as Hc. pose proof (cpu_ok_quiet _ Hc) as (Hw & Hd & He & Hh).
  pose proof Hc as (_ & _ & _ & Ha & _).
  assert (Hupd : forall c', cpu_ok c' -> apic_ok (set_cpu (CurrentCpu cur) c' s))
    by (intros; by apply set_cpu_ok).
  assert (Hact : forall c' a s0 o, cpu_quiet c' ->
            (a = kArm -> 0 < timer_init_count c') -> (a = kNone -> cpu_ok c') ->
            Some (timer_do a now2 (set_cpu (CurrentCpu cur) c' s) cur) = Some (s0, o) ->
            apic_ok s0).
  { intros c' a s0 o Hq Harm Hnone [= E]. apply (f_equal fst) in E. simpl in E. subst s0.
    destruct a; simpl; [by apply Hupd, Hnone|by apply ArmTimer_ok, Harm|by apply StopTimer_ok]. }
  set (c := cpu_at s (CurrentCpu cur)) in *.
  assert (Hv : in_width 32 (u32 value)) by (apply wrap_in_width; lia).
  unfold LocalApic_MmioWrite. fold c. cbv zeta.
  repeat match goal with
  | |- (if ?b then _ else _) = _ -> _ => destruct b
  end.
  all: try (intros [= <- <-]; apply Hupd;
            exact (conj Hw (conj Hd (conj He (conj Ha Hh))))).
  - intros [= <- <-]. done.
  - apply Hact.
    + exact (conj Hw (conj Hd (conj He Hh))).
    + case_ifs; try done. bool_hyps. intros _. unfold in_width in Hw. simpl. lia.
    + intros _. exact (conj Hw (conj Hd (conj He (conj Ha Hh)))).
  - destruct (icr_effects _ _ _ _); simpl; [|done]. intros [= <- <-]. apply Hupd.
    exact (conj Hw (conj Hd (conj He (conj Ha Hh)))).
  - apply Hact.
    + exact (conj Hw (conj Hd (conj He Hh))).
    + case_ifs; try done. bool_hyps. intros _. unfold in_width in Hw. simpl. lia.
    + by case_ifs.
  - apply Hact.
    + exact (conj Hv (conj Hd (conj He Hh))).
    + case_ifs; try done. bool_hyps. intros _. unfold in_width in Hv. simpl. lia.
    + by case_ifs.
  - intros [= <- <-]. apply Hupd.
    refine (conj Hw (conj _ (conj eq_refl (conj Ha Hh)))). apply GetDivider_bound.
  - intros [= <- <-]. done.
Qed.
End Write.

(** ** Reading the timer *)

(** The current-count register: it starts at the initial count, stays within
    it, and in one-shot mode is exactly the count less the elapsed ticks of
    the divided bus clock, saturating at zero; in periodic mode it is
    congruent to that modulo the initial count and never reads zero. *)
Theorem TimerCurCount_law now c :
  cpu_ok c -> 0 < timer_init_count c -> timer_load_time_ns c <= now ->
  let ticks := (now - timer_load_time_ns c) / timer_divider c in
  let v := TimerCurCount now c in
  0 <= v <= timer_init_count c
  /\ (timer_mode c <> kTimerPeriodic -> v = Z.max 0 (timer_init_count c - ticks))
  /\ (timer_mode c = kTimerPeriodic ->
        0 < v /\ (v + ticks) mod timer_init_count c = 0).
Proof.
  intros (Hw & Hd & _) Hp Hn ticks v.
  assert (Ht : 0 <= ticks) by (apply Z.div_pos; lia).
  assert (Hel : (if timer_load_time_ns c <? now then now - timer_load_time_ns c else 0)
                = now - timer_load_time_ns c).
  { destruct (Z.ltb_spec (timer_load_time_ns c) now); lia. }
  unfold v, TimerCurCount. rewrite Hel. fold ticks. unfold in_width in Hw.
  destruct (Z.eqb_spec (timer_init_count c) 0); [lia|].
  destruct (Z.eqb_spec (timer_mode c) kTimerPeriodic).
  - pose proof (Z.mod_pos_bound ticks (timer_init_count c)).
    rewrite (wrap_small 32 (ticks mod _)) by (unfold in_width; lia).
    rewrite wrap_small by (unfold in_width; lia).
    split; [lia|]. split; [done|]. intros _. split; [lia|].
    rewrite Z.add_comm, Z.add_sub_assoc.
    replace (ticks + timer_init_count c - ticks mod timer_init_count c)
      with ((1 + ticks / timer_init_count c) * timer_init_count c)
      by (pose proof (Z.div_mod ticks (timer_init_count c)); lia).
    by rewrite Z_mod_mult.
  - destruct (Z.leb_spec (timer_init_count c) ticks).
    + split; [lia|]. split; [lia|done].
    + rewrite !wrap_small by (unfold in_width; (lia || rewrite wrap_small by (unfold in_width; lia); lia)).
      split; [lia|]. split; [lia|done].
Qed.

(** ** Firing *)

(** [n] consecutive callbacks of the host timer. *)
Fixpoint fire_n (n : nat) (s : LocalApic) (i : Z) : LocalApic * list ApicOut :=
  match n with
  | O => (s, [])
  | S n => let '(s1, o1, _) := FireTimer true s i in
           let '(s2, o2) := fire_n n s1 i in (s2, o1 ++ o2)
  end.

Definition tick_vector (c : CpuApicState) : Z := lvt_timer c .& 0xFF.

Lemma FireTimer_eq s i :
  apic_ok s -> 0 <= i < cpu_count_ s ->
  let c := cpu_at s (Z.to_nat i) in
  timer_armed c = true -> has (lvt_timer c) 0x10000 = false -> 0 < tick_vector c ->
  FireTimer true s i =
    if timer_mode c =? kTimerOneShot
    then (set_cpu (Z.to_nat i) (set_timer_armed false (set_timer_init_count 0 c)) s,
          [OutInject (tick_vector c) i], 0)
    else (set_cpu (Z.to_nat i)
            (set_timer_load_time_ns (u64 (timer_load_time_ns c + timer_period_ns c)) c) s,
          [OutInject (tick_vector c) i], timer_period_ns c).
Proof.
  intros Hs Hi c Ha Hm Hv. unfold FireTimer.
  pose proof Hs as (_ & Hc & _).
  destruct (Z.leb_spec (Z.of_nat kMaxCpus) i); [unfold kMaxCpus in *; lia|].
  fold c. assert (Hok : cpu_ok c) by (apply cpu_at_ok; [done|lia]).
  destruct Hok as (_ & _ & _ & Hpos & _). specialize (Hpos Ha).
  rewrite Ha, Hm. destruct (Z.eqb_spec (timer_init_count c) 0); [lia|]. cbn [negb orb].
  unfold tick_vector in *. destruct (Z.ltb_spec 0 (lvt_timer c .& 255)); [|lia].
  by case_ifs.
Qed.

Lemma FireTimer_disarmed s i :
  apic_ok s -> 0 <= i < cpu_count_ s -> timer_armed (cpu_at s (Z.to_nat i)) = false ->
  FireTimer true s i
    = (set_cpu (Z.to_nat i) (set_timer_armed false (cpu_at s (Z.to_nat i))) s, [], 0).
Proof.
  intros Hs Hi Ha. unfold FireTimer. pose proof Hs as (_ & Hc & _).
  destruct (Z.leb_spec (Z.of_nat kMaxCpus) i); [unfold kMaxCpus in *; lia|].
  by rewrite Ha.
Qed.

Lemma fire_n_disarmed n s i :
  apic_ok s -> 0 <= i < cpu_count_ s -> timer_armed (cpu_at s (Z.to_nat i)) = false ->
  snd (fire_n n s i) = [].
Proof.
  revert s. induction n as [|n IH]; intros s Hs Hi Ha; [done|]. cbn [fire_n].
  rewrite FireTimer_disarmed by done.
  pose proof Hs as (_ & Hc & _).
  assert (Hok : cpu_ok (set_timer_armed false (cpu_at s (Z.to_nat i)))).
  { apply quiet_stop, cpu_ok_quiet, cpu_at_ok; [done|lia]. }
  specialize (IH (set_cpu (Z.to_nat i) (set_timer_armed false (cpu_at s (Z.to_nat i))) s)).
  destruct (fire_n n _ i) as [s2 o2]. cbn [snd] in *.
  apply IH; [by apply set_cpu_ok|done|].
  rewrite cpu_at_set; [done|done|]. unfold kMaxCpus. lia.
Qed.

(** The tick stream of an armed, unmasked timer: in one-shot mode the vector
    is injected by the first callback and by none after it, however often the
    host timer calls back; in the other modes every callback injects it once
    and the load time advances by exactly one period each time. *)
Theorem fire_stream n s i :
  apic_ok s -> 0 <= i < cpu_count_ s ->
  let c := cpu_at s (Z.to_nat i) in
  timer_armed c = true -> has (lvt_timer c) 0x10000 = false -> 0 < tick_vector c ->
  in_width 64 (timer_load_time_ns c) ->
  (timer_mode c = kTimerOneShot ->
     snd (fire_n (S n) s i) = [OutInject (tick_vector c) i])
  /\ (timer_mode c <> kTimerOneShot ->
      snd (fire_n n s i) = replicate n (OutInject (tick_vector c) i)
      /\ timer_load_time_ns (cpu_at (fst (fire_n n s i)) (Z.to_nat i))
         = u64 (timer_load_time_ns c + Z.of_nat n * timer_period_ns c)).
Proof.
  intros Hs Hi c Ha Hm Hv Hw. pose proof Hs as (_ & Hc & _).
  assert (Hin : (Z.to_nat i < kMaxCpus)%nat) by (unfold kMaxCpus; lia).
  split; intros Hmode.
  - cbn [fire_n]. rewrite FireTimer_eq by done. fold c.
    rewrite (proj2 (Z.eqb_eq _ _)) by done.
    assert (Hok : cpu_ok (set_timer_armed false (set_timer_init_count 0 c))).
    { apply quiet_stop. destruct (cpu_at_ok s (Z.to_nat i) Hs) as (_ & Hd & He & _ & Hh); [lia|].
      by refine (conj _ (conj Hd (conj He Hh))). }
    pose proof (fire_n_disarmed n
      (set_cpu (Z.to_nat i) (set_timer_armed false (set_timer_init_count 0 c)) s) i) as Hd.
    destruct (fire_n n _ i) as [s2 o2]. cbn [snd] in *. rewrite Hd; [done| |done|].
    + by apply set_cpu_ok.
    + by rewrite cpu_at_set.
  - revert s Hs Hi Hc c Ha Hm Hv Hw Hmode. induction n as [|n IH]; intros.
    { simpl. split; [done|]. rewrite Z.add_0_r. symmetry. by apply wrap_small. }
    cbn [fire_n]. rewrite FireTimer_eq by done. fold c.
    rewrite (proj2 (Z.eqb_neq _ _)) by done.
    set (c' := set_timer_load_time_ns (u64 (timer_load_time_ns c + timer_period_ns c)) c).
    assert (Hok : cpu_ok c') by (apply (cpu_at_ok s); [done|lia]).
    specialize (IH (set_cpu (Z.to_nat i) c' s)). cbv zeta in IH.
    rewrite cpu_at_set in IH by done.
    destruct IH as [IH1 IH2]; try done; [by apply set_cpu_ok|apply wrap_in_width; lia|].
    destruct (fire_n n _ i) as [s2 o2]. cbn [fst snd] in *. split.
    + rewrite IH1. done.
    + rewrite IH2. unfold c'. cbn [timer_load_time_ns timer_period_ns set_timer_load_time_ns].
      rewrite wrap_add_l. f_equal. lia.
Qed.

(** ** Inter-processor interrupts *)

Lemma others_in count ci l t :
  others count ci = Some l -> t ∈ l <-> 0 <= t < count /\ t <> ci.
Proof.
  unfold others. case_ifs; intros [= <-]. rewrite list_elem_of_filter, elem_of_seqZ. lia.
Qed.

Lemma others_some count ci : count <= 64 -> exists l, others count ci = Some l.
Proof.
  intros Hc. unfold others. case_ifs; [by eexists|]. apply Nat.leb_gt in E.
  pose proof (length_filter (fun i => i <> ci) (seqZ 0 count)) as Hl.
  rewrite length_seqZ in Hl. unfold kMaxCpus in E. lia.
Qed.

Lemma ipi_targets_some count ci dest sh :
  count <= 64 -> exists l, ipi_targets count ci dest sh = Some l
    /\ (sh = 3 -> forall t, t ∈ l <-> 0 <= t < count /\ t <> ci).
Proof.
  intros Hc. destruct (others_some count ci Hc) as [l Hl]. unfold ipi_targets.
  destruct (Z.eqb_spec sh 0); [eexists; split; [done|lia]|].
  destruct (Z.eqb_spec sh 3); [|eexists; by split].
  exists l. split; [done|]. intros _ t. by apply others_in.
Qed.

Lemma elem_map_inj {A} (f : Z -> A) l t :
  (forall x y, f x = f y -> x = y) -> f t ∈ map f l <-> t ∈ l.
Proof.
  intros Hf. rewrite list_elem_of_fmap. split; [|intros H; by exists t].
  by intros (x & ->%Hf & Hx).
Qed.

Lemma land_bit x t : 0 <= t -> (x .& (1 .<< t) <> 0 <-> Z.testbit x t = true).
Proof.
  intros Ht. rewrite Z.shiftl_1_l. split.
  - intros H. destruct (Z.testbit x t) eqn:E; [done|]. exfalso. apply H.
    apply Z.bits_inj'. intros i Hi. rewrite Z.land_spec, testbit_pow2, Z.bits_0 by lia.
    destruct (Z.eqb_spec t i) as [<-|]; [by rewrite E|by rewrite andb_false_r].
  - intros H E. apply (f_equal (fun z => Z.testbit z t)) in E.
    rewrite Z.land_spec, H, testbit_pow2, Z.eqb_refl, Z.bits_0 in E by lia. done.
Qed.

Lemma MmioWrite_icr cur now1 now2 s v :
  LocalApic_MmioWrite cur now1 now2 s 0x300 v =
    outs ← icr_effects s cur (u32 v) ((icr_high (cpu_at s (CurrentCpu cur)) .>> 24) .& 0xFF);
    Some (set_cpu (CurrentCpu cur) (set_icr_low (u32 v) (cpu_at s (CurrentCpu cur))) s, outs).
Proof. reflexivity. Qed.

Definition icr_mode (v : Z) : Z := (v .>> 8) .& 0x7.
Definition icr_shorthand (v : Z) : Z := (v .>> 18) .& 0x3.
Definition icr_logical (v : Z) : bool := negb ((v .>> 11) .& 1 =? 0).
Definition icr_dest (c : CpuApicState) : Z := (icr_high c .>> 24) .& 0xFF.

(** Who receives an IPI: with at most 32 vCPUs a write of ICR_LOW always
    completes; an INIT or SIPI with the all-but-self shorthand reaches every
    vCPU except the sender; a fixed IPI in logical mode reaches exactly the
    vCPUs whose bit is set in the destination, the sender included; with a
    plain physical destination it is handed on unchanged. *)
Theorem icr_delivery s cur now1 now2 v :
  apic_ok s -> 0 <= cur < cpu_count_ s -> cpu_count_ s <= 32 -> in_width 32 v ->
  exists s' outs, LocalApic_MmioWrite cur now1 now2 s 0x300 v = Some (s', outs)
  /\ (icr_mode v = 5 -> icr_shorthand v = 3 ->
        forall t, OutInit t ∈ outs <-> 0 <= t < cpu_count_ s /\ t <> cur)
  /\ (icr_mode v = 6 -> icr_shorthand v = 3 ->
        forall t, OutSipi t (v .& 0xFF) ∈ outs <-> 0 <= t < cpu_count_ s /\ t <> cur)
  /\ (icr_mode v = 0 -> icr_logical v = true -> icr_shorthand v = 0 ->
        forall t, OutIpi (v .& 0xFF) t 0 ∈ outs <->
          0 <= t < cpu_count_ s
          /\ Z.testbit (icr_dest (cpu_at s (CurrentCpu cur))) t = true)
  /\ (icr_mode v = 0 -> icr_logical v = false ->
        outs = [OutIpi (v .& 0xFF) (icr_dest (cpu_at s (CurrentCpu cur))) (icr_shorthand v)]).
Proof.
  intros Hs Hcur Hc Hv. rewrite MmioWrite_icr, (wrap_small 32 v) by done.
  set (c := cpu_at s (CurrentCpu cur)). fold (icr_dest c). set (d := icr_dest c).
  unfold icr_effects. fold (icr_mode v) (icr_shorthand v) (icr_logical v).
  assert (Hlog : logical_targets (cpu_count_ s) d
           = Some (filter (fun i => d .& (1 .<< i) <> 0) (seqZ 0 (cpu_count_ s)))).
  { unfold logical_targets. destruct (Z.ltb_spec 32 (cpu_count_ s)); [lia|done]. }
  destruct (Z.eqb_spec (icr_mode v) 5) as [E5|N5];
    [|destruct (Z.eqb_spec (icr_mode v) 6) as [E6|N6];
      [|destruct (Z.eqb_spec (icr_mode v) 0) as [E0|N0]]].
  - destruct (ipi_targets_some (cpu_count_ s) cur d (icr_shorthand v)) as (l' & -> & Hin);
      [lia|]. do 2 eexists. split; [done|]. split; [|split; [lia|split; lia]].
    intros _ Hsh t. rewrite <- (Hin Hsh). apply elem_map_inj. by intros ? ? [= ->].
  - destruct (ipi_targets_some (cpu_count_ s) cur d (icr_shorthand v)) as (l' & -> & Hin);
      [lia|]. do 2 eexists. split; [done|]. split; [lia|split; [|split; lia]].
    intros _ Hsh t. rewrite <- (Hin Hsh). apply (elem_map_inj (fun i => OutSipi i (v .& 255))).
    by intros ? ? [= ->].
  - destruct (icr_logical v) eqn:El; cbn [andb].
    + destruct (Z.eqb_spec (icr_shorthand v) 0); [rewrite Hlog|]; cbn [option_map mbind option_bind];
        do 2 eexists; (split; [done|]); (split; [lia|]); (split; [lia|]); (split; [|done]);
        intros _ _ Hsh; [|lia].
      intros t. rewrite list_elem_of_fmap. split.
      * intros (x & [= ->] & Hx). apply list_elem_of_filter in Hx as [Hx Ht].
        apply elem_of_seqZ in Ht. rewrite land_bit in Hx by lia. split; [lia|done].
      * intros [Ht Hb]. exists t. split; [done|]. apply list_elem_of_filter.
        rewrite land_bit, elem_of_seqZ by lia. split; [done|lia].
    + do 2 eexists. split; [done|]. split; [lia|]. split; [lia|]. by split.
  - do 2 eexists. split; [done|]. repeat split; intros; lia.
Qed.

(** With more than 32 vCPUs a logical-mode fixed IPI shifts a 32-bit one by
    32 or more places: undefined behaviour whatever the destination mask. *)
Theorem logical_ipi_overflow s cur now1 now2 v :
  32 < cpu_count_ s -> in_width 32 v ->
  icr_mode v = 0 -> icr_logical v = true -> icr_shorthand v = 0 ->
  LocalApic_MmioWrite cur now1 now2 s 0x300 v = None.
Proof.
  intros Hc Hv Hm Hl Hsh. rewrite MmioWrite_icr, (wrap_small 32 v) by done.
  unfold icr_effects. fold (icr_mode v) (icr_shorthand v) (icr_logical v).
  rewrite Hm, Hl, Hsh. change (0 =? 5) with false. change (0 =? 6) with false.
  change (0 =? 0) with true. cbn [andb]. unfold logical_targets.
  destruct (Z.ltb_spec 32 (cpu_count_ s)); [done|lia].
Qed.

(** ** The APIC as the machine initialises it *)

Lemma Init_ok count : 0 <= count <= 64 -> apic_ok (Init true LocalApic_new count).
Proof.
  intros Hc. split; [|split; [done|]].
  - unfold Init, LocalApic_new. cbn [cpus_]. by rewrite length_imap, length_replicate.
  - intros i c Hi. unfold Init, LocalApic_new. cbn [cpus_].
    rewrite list_lookup_imap. intros Hl. apply fmap_Some in Hl as (x & Hx & ->).
    apply lookup_replicate in Hx as [-> _]. unfold init_cpu.
    cbn [cpu_count_ Init] in Hi. destruct (Z.ltb_spec (Z.of_nat i) count); [|lia].
    by repeat split.
Qed.

(** vCPU 1 of a two-vCPU machine, its timer armed by the guest at time 1000
    with vector 0x30 and count 100000, divided by 2. *)
Definition demo_arm (lvt : Z) : option (LocalApic * list ApicOut) :=
  '(s1, _) ← LocalApic_MmioWrite 1 0 0 (Init true LocalApic_new 2) 0x320 lvt;
  LocalApic_MmioWrite 1 1000 1000 s1 0x380 100000.

Definition demo_state (lvt : Z) : LocalApic :=
  match demo_arm lvt with Some (s, _) => s | None => LocalApic_new end.

Ltac demo_cpu_ok :=
  split; [reflexivity|]; split; [split; vm_compute; discriminate|];
  intros [|[|i]] c Hi; [| |exfalso; change (cpu_count_ _) with 2 in Hi; lia];
  intros Hc; vm_compute in Hc; injection Hc as <-;
  repeat split; try (vm_compute; discriminate); reflexivity.

Lemma demo_oneshot_ok : apic_ok (demo_state 0x30).
Proof. demo_cpu_ok. Qed.

Lemma demo_periodic_ok : apic_ok (demo_state 0x20030).
Proof. demo_cpu_ok. Qed.

Lemma LocalApic_MmioWrite_ok_witness :
  exists s' outs, LocalApic_MmioWrite 1 0 0 (demo_state 0x30) 0x3E0 0xB = Some (s', outs)
    /\ apic_ok s'.
Proof.
  do 2 eexists. split; [reflexivity|].
  apply (LocalApic_MmioWrite_ok (demo_state 0x30) 1 demo_oneshot_ok) with 0 0 0x3E0 0xB [].
  - split; vm_compute; [discriminate|reflexivity].
  - reflexivity.
Defined.

Lemma TimerCurCount_law_witness :
  TimerCurCount 151000 (cpu_at (demo_state 0x30) 1) = 25000.
Proof.
  destruct (TimerCurCount_law 151000 (cpu_at (demo_state 0x30) 1)) as (_ & H & _).
  - apply cpu_at_ok; [exact demo_oneshot_ok|reflexivity].
  - reflexivity.
  - vm_compute. discriminate.
  - rewrite H; [reflexivity|]. vm_compute. discriminate.
Defined.

Lemma fire_stream_witness :
  snd (fire_n 3 (demo_state 0x30) 1) = [OutInject 0x30 1]
  /\ snd (fire_n 3 (demo_state 0x20030) 1)
     = [OutInject 0x30 1; OutInject 0x30 1; OutInject 0x30 1].
Proof.
  split.
  - apply (fire_stream 2 (demo_state 0x30) 1); try reflexivity.
    + exact demo_oneshot_ok.
    + split; vm_compute; [discriminate|reflexivity].
    + split; vm_compute; [discriminate|reflexivity].
  - apply (fire_stream 3 (demo_state 0x20030) 1); try reflexivity.
    + exact demo_periodic_ok.
    + split; vm_compute; [discriminate|reflexivity].
    + split; vm_compute; [discriminate|reflexivity].
    + vm_compute. discriminate.
Defined.

Lemma icr_delivery_witness :
  exists s' outs, LocalApic_MmioWrite 1 0 0 (Init true LocalApic_new 4) 0x300 0xC0500
                    = Some (s', outs)
    /\ OutInit 3 ∈ outs.
Proof.
  destruct (icr_delivery (Init true LocalApic_new 4) 1 0 0 0xC0500)
    as (s' & outs & H & Hi & _).
  - apply Init_ok. lia.
  - split; vm_compute; [discriminate|reflexivity].
  - vm_compute. discriminate.
  - split; vm_compute; [discriminate|reflexivity].
  - exists s', outs. split; [exact H|]. apply (Hi eq_refl eq_refl).
    split; [split; vm_compute; [discriminate|reflexivity]|discriminate].
Defined.

Lemma logical_ipi_overflow_witness :
  LocalApic_MmioWrite 0 0 0 (Init true LocalApic_new 33) 0x300 0x831 = None.
Proof. by apply (logical_ipi_overflow (Init true LocalApic_new 33)). Defined.
