(* ===== verification/Gicv3.v ===== *)
(** * GICv3 interrupt controller

    [core/device/irq/gicv3_regs.h] and [core/device/irq/gicv3.{h,cpp}]: the
    distributor, the redistributors and the ICC system registers.

    The vCPU kick callbacks are traced: [kicks] lists the calls, oldest
    first, as pairs of a CPU and the argument.  Every public entry point takes
    [mutex_]; since [DistRead] and [RedistRead] call themselves with the
    (non-recursive) mutex held, whether it is held is an argument of those
    two and blocking on oneself is the outcome [Deadlock].  [UB] is a shift
    of a 32-bit value by 32 or more places. *)

From S2P Require Import Prelude.
From S2P Require Import AddrSpace.

Definition kMaxSpi : Z := 128.
Definition kSpiBase : Z := 32.
Definition kMaxCpus : Z := 8.
Definition kSgiPpiCount : Z := 32.
Definition kGicdSize : Z := 0x10000.
Definition kGicrSizePerCpu : Z := 0x20000.
Definition kGicrSgiOffset : Z := 0x10000.
Definition kIntidSpurious : Z := 1023.
Definition kPriorityDefault : Z := 0xA0.
Definition kPriorityIdle : Z := 0xFF.
Definition kApMaxDepth : nat := 4.


Record IrqState := MkIrqState {
  enabled : bool;
  pending : bool;
  active : bool;
  level : bool;
  edge_cfg : bool;
  priority : Z;
  route : Z;
  group : Z
}.
Definition set_enabled (v : bool) (s : IrqState) : IrqState :=
  MkIrqState v (pending s) (active s) (level s) (edge_cfg s) (priority s) (route s) (group s).
Definition set_pending (v : bool) (s : IrqState) : IrqState :=
  MkIrqState (enabled s) v (active s) (level s) (edge_cfg s) (priority s) (route s) (group s).
Definition set_active (v : bool) (s : IrqState) : IrqState :=
  MkIrqState (enabled s) (pending s) v (level s) (edge_cfg s) (priority s) (route s) (group s).
Definition set_level (v : bool) (s : IrqState) : IrqState :=
  MkIrqState (enabled s) (pending s) (active s) v (edge_cfg s) (priority s) (route s) (group s).
Definition set_edge_cfg (v : bool) (s : IrqState) : IrqState :=
  MkIrqState (enabled s) (pending s) (active s) (level s) v (priority s) (route s) (group s).
Definition set_priority (v : Z) (s : IrqState) : IrqState :=
  MkIrqState (enabled s) (pending s) (active s) (level s) (edge_cfg s) v (route s) (group s).
Definition set_route (v : Z) (s : IrqState) : IrqState :=
  MkIrqState (enabled s) (pending s) (active s) (level s) (edge_cfg s) (priority s) v (group s).
Definition set_group (v : Z) (s : IrqState) : IrqState :=
  MkIrqState (enabled s) (pending s) (active s) (level s) (edge_cfg s) (priority s) (route s) v.

Definition IrqState_new : IrqState :=
  MkIrqState false false false false false kPriorityDefault 0 1.

Record CpuInterface := MkCpuInterface {
  pmr : Z;
  bpr1 : Z;
  bpr0 : Z;
  ctlr : Z;
  grp1_en : bool;
  grp0_en : bool;
  running_priority : list Z;
  ap_depth : nat
}.
Definition set_pmr (v : Z) (s : CpuInterface) : CpuInterface :=
  MkCpuInterface v (bpr1 s) (bpr0 s) (ctlr s) (grp1_en s) (grp0_en s) (running_priority s)
    (ap_depth s).
Definition set_bpr1 (v : Z) (s : CpuInterface) : CpuInterface :=
  MkCpuInterface (pmr s) v (bpr0 s) (ctlr s) (grp1_en s) (grp0_en s) (running_priority s)
    (ap_depth s).
Definition set_bpr0 (v : Z) (s : CpuInterface) : CpuInterface :=
  MkCpuInterface (pmr s) (bpr1 s) v (ctlr s) (grp1_en s) (grp0_en s) (running_priority s)
    (ap_depth s).
Definition set_ctlr (v : Z) (s : CpuInterface) : CpuInterface :=
  MkCpuInterface (pmr s) (bpr1 s) (bpr0 s) v (grp1_en s) (grp0_en s) (running_priority s)
    (ap_depth s).
Definition set_grp1_en (v : bool) (s : CpuInterface) : CpuInterface :=
  MkCpuInterface (pmr s) (bpr1 s) (bpr0 s) (ctlr s) v (grp0_en s) (running_priority s)
    (ap_depth s).
Definition set_grp0_en (v : bool) (s : CpuInterface) : CpuInterface :=
  MkCpuInterface (pmr s) (bpr1 s) (bpr0 s) (ctlr s) (grp1_en s) v (running_priority s)
    (ap_depth s).

Definition CpuInterface_new : CpuInterface :=
  MkCpuInterface 0 0 0 0 false false (replicate kApMaxDepth 0) 0.

Definition RunningPriority (c : CpuInterface) : Z :=
  if (0 <? ap_depth c)%nat then nth (ap_depth c - 1) (running_priority c) 0 else kPriorityIdle.

Definition set_stack (l : list Z) (d : nat) (s : CpuInterface) : CpuInterface :=
  MkCpuInterface (pmr s) (bpr1 s) (bpr0 s) (ctlr s) (grp1_en s) (grp0_en s) l d.

Definition PushPriority (prio : Z) (c : CpuInterface) : CpuInterface :=
  if (ap_depth c <? kApMaxDepth)%nat
  then set_stack (<[ap_depth c := prio]> (running_priority c)) (S (ap_depth c)) c
  else c.

Definition PopPriority (c : CpuInterface) : CpuInterface :=
  set_stack (running_priority c) (pred (ap_depth c)) c.

Record PerCpu := MkPerCpu {
  irq : list IrqState;
  icc : CpuInterface;
  waker_sleep : bool
}.
Definition set_irq (v : list IrqState) (s : PerCpu) : PerCpu :=
  MkPerCpu v (icc s) (waker_sleep s).
Definition set_icc (v : CpuInterface) (s : PerCpu) : PerCpu :=
  MkPerCpu (irq s) v (waker_sleep s).
Definition set_waker_sleep (v : bool) (s : PerCpu) : PerCpu :=
  MkPerCpu (irq s) (icc s) v.

Record SoftGic := MkSoftGic {
  cpu_count_ : Z;
  spi_state_ : list IrqState;
  per_cpu_ : list PerCpu;
  dist_enabled_ : bool;
  redist_base_ : Z;
  kick_fns_ : list bool;
  kicks : list (Z * bool)
}.
Definition set_spi_state (v : list IrqState) (s : SoftGic) : SoftGic :=
  MkSoftGic (cpu_count_ s) v (per_cpu_ s) (dist_enabled_ s) (redist_base_ s) (kick_fns_ s)
    (kicks s).
Definition set_per_cpu (v : list PerCpu) (s : SoftGic) : SoftGic :=
  MkSoftGic (cpu_count_ s) (spi_state_ s) v (dist_enabled_ s) (redist_base_ s) (kick_fns_ s)
    (kicks s).
Definition set_dist_enabled (v : bool) (s : SoftGic) : SoftGic :=
  MkSoftGic (cpu_count_ s) (spi_state_ s) (per_cpu_ s) v (redist_base_ s) (kick_fns_ s)
    (kicks s).
Definition set_redist_base (v : Z) (s : SoftGic) : SoftGic :=
  MkSoftGic (cpu_count_ s) (spi_state_ s) (per_cpu_ s) (dist_enabled_ s) v (kick_fns_ s)
    (kicks s).
Definition set_kick_fns (v : list bool) (s : SoftGic) : SoftGic :=
  MkSoftGic (cpu_count_ s) (spi_state_ s) (per_cpu_ s) (dist_enabled_ s) (redist_base_ s) v
    (kicks s).
Definition set_kicks (v : list (Z * bool)) (s : SoftGic) : SoftGic :=
  MkSoftGic (cpu_count_ s) (spi_state_ s) (per_cpu_ s) (dist_enabled_ s) (redist_base_ s)
    (kick_fns_ s) v.

Definition PerCpu_new : PerCpu :=
  MkPerCpu (replicate (Z.to_nat kSgiPpiCount) IrqState_new) CpuInterface_new true.

Definition SoftGic_new (cpu_count : Z) : SoftGic :=
  let n := Z.min cpu_count kMaxCpus in
  MkSoftGic n (replicate (Z.to_nat kMaxSpi) IrqState_new)
    (replicate (Z.to_nat n) PerCpu_new) false 0 (replicate (Z.to_nat n) false) [].

Definition RegisterVCpuKick (s : SoftGic) (cpu : Z) (fn : bool) : SoftGic :=
  if cpu <? cpu_count_ s then set_kick_fns (<[Z.to_nat cpu := fn]> (kick_fns_ s)) s else s.

(** [dist] and [redist i] are the addresses of the device objects. *)
Definition RegisterDevices (s : SoftGic) (a : AddressSpace) (dist_base redist_base : Z)
    (dist : option nat) (redist : Z -> option nat) : SoftGic * AddressSpace :=
  let a1 := AddMmioDevice a dist_base kGicdSize dist in
  (set_redist_base redist_base s,
   fold_left (fun a i => AddMmioDevice a (u64 (redist_base + i * kGicrSizePerCpu))
                           kGicrSizePerCpu (redist i))
     (seqZ 0 (cpu_count_ s)) a1).

Definition pc_at (s : SoftGic) (cpu : Z) : PerCpu := nth (Z.to_nat cpu) (per_cpu_ s) PerCpu_new.
Definition spi_at (s : SoftGic) (i : Z) : IrqState :=
  nth (Z.to_nat i) (spi_state_ s) IrqState_new.
Definition ppi_at (p : PerCpu) (i : Z) : IrqState := nth (Z.to_nat i) (irq p) IrqState_new.

Definition upd_pc (cpu : Z) (f : PerCpu -> PerCpu) (s : SoftGic) : SoftGic :=
  set_per_cpu (<[Z.to_nat cpu := f (pc_at s cpu)]> (per_cpu_ s)) s.
Definition upd_icc (cpu : Z) (f : CpuInterface -> CpuInterface) (s : SoftGic) : SoftGic :=
  upd_pc cpu (fun p => set_icc (f (icc p)) p) s.

(** [GetIrqState] and an update through the pointer it returns. *)
Definition GetIrqState (s : SoftGic) (cpu intid : Z) : option IrqState :=
  if intid <? kSgiPpiCount then
    if cpu <? cpu_count_ s then Some (ppi_at (pc_at s cpu) intid) else None
  else if (kSpiBase <=? intid) && (intid <? kMaxSpi) then Some (spi_at s intid)
  else None.

Definition SetIrqState (s : SoftGic) (cpu intid : Z) (st : IrqState) : SoftGic :=
  if intid <? kSgiPpiCount
  then upd_pc cpu (fun p => set_irq (<[Z.to_nat intid := st]> (irq p)) p) s
  else set_spi_state (<[Z.to_nat intid := st]> (spi_state_ s)) s.

(** ** Priority arbitration *)

(** The filters of the two loops of [HighestPendingIntid]. *)
Definition candidate (c : CpuInterface) (st : IrqState) : bool :=
  if negb (enabled st) || negb (pending st) || active st then false
  else if (group st =? 1) && negb (grp1_en c) then false
  else if (group st =? 0) && negb (grp0_en c) then false
  else if (pmr c <=? priority st) || (RunningPriority c <=? priority st) then false
  else true.

Definition spi_candidate (c : CpuInterface) (cpu : Z) (st : IrqState) : bool :=
  candidate c st && (route st .& 0xFF =? cpu).

(** One iteration: keep the better of the best so far and interrupt [i]. *)
Definition better (ok : IrqState -> bool) (st : IrqState) (i : Z) (best : Z * Z) : Z * Z :=
  if ok st && (priority st <? snd best) then (i, priority st) else best.

Definition HighestPendingIntid (s : SoftGic) (cpu : Z) : Z :=
  if cpu_count_ s <=? cpu then kIntidSpurious
  else
    let p := pc_at s cpu in
    let b0 := fold_left (fun b i => better (candidate (icc p)) (ppi_at p i) i b)
                (seqZ 0 kSgiPpiCount) (kIntidSpurious, 0xFF) in
    let b1 := if dist_enabled_ s
              then fold_left (fun b i => better (spi_candidate (icc p) cpu) (spi_at s i) i b)
                     (seqZ kSpiBase (kMaxSpi - kSpiBase)) b0
              else b0 in
    fst b1.

Definition HasPendingInterrupt (s : SoftGic) (cpu : Z) : bool :=
  negb (HighestPendingIntid s cpu =? kIntidSpurious).

Definition UpdateCpu (s : SoftGic) (cpu : Z) : SoftGic :=
  if cpu_count_ s <=? cpu then s
  else
    let has_pending := negb (HighestPendingIntid s cpu =? kIntidSpurious) in
    if (cpu <? Z.of_nat (length (kick_fns_ s))) && nth (Z.to_nat cpu) (kick_fns_ s) false
    then set_kicks (kicks s ++ [(cpu, has_pending)]) s else s.

Definition UpdateAll (s : SoftGic) : SoftGic :=
  fold_left UpdateCpu (seqZ 0 (cpu_count_ s)) s.

(** The new state of an interrupt when its input line changes. *)
Definition line_change (lvl : bool) (st : IrqState) : IrqState :=
  let st1 := set_level lvl st in
  if edge_cfg st then (if negb (level st) && lvl then set_pending true st1 else st1)
  else set_pending lvl st1.

Definition SetSpiLevel (s : SoftGic) (intid : Z) (lvl : bool) : SoftGic :=
  if (intid <? kSpiBase) || (kMaxSpi <=? intid) then s
  else
    let st := line_change lvl (spi_at s intid) in
    let s1 := set_spi_state (<[Z.to_nat intid := st]> (spi_state_ s)) s in
    if lvl then
      let target := route st .& 0xFF in
      if target <? cpu_count_ s then UpdateCpu s1 target else s1
    else s1.

Definition SetPpiLevel (s : SoftGic) (cpu intid : Z) (lvl : bool) : SoftGic :=
  if (cpu_count_ s <=? cpu) || (kSgiPpiCount <=? intid) then s
  else
    let st := line_change lvl (ppi_at (pc_at s cpu) intid) in
    let s1 := upd_pc cpu (fun p => set_irq (<[Z.to_nat intid := st]> (irq p)) p) s in
    if lvl then UpdateCpu s1 cpu else s1.

Definition AcknowledgeInterrupt (s : SoftGic) (cpu : Z) : SoftGic * Z :=
  let intid := HighestPendingIntid s cpu in
  if intid =? kIntidSpurious then (s, kIntidSpurious)
  else match GetIrqState s cpu intid with
       | None => (s, kIntidSpurious)
       | Some st =>
           let st1 := set_active true st in
           let st2 := if edge_cfg st || (intid <? kSgiPpiCount)
                      then set_pending false st1 else st1 in
           (upd_icc cpu (PushPriority (priority st)) (SetIrqState s cpu intid st2), intid)
       end.

Definition EndOfInterrupt (s : SoftGic) (cpu intid : Z) : SoftGic :=
  if cpu_count_ s <=? cpu then s
  else
    let s1 := match GetIrqState s cpu intid with
              | Some st =>
                  let st1 := set_active false st in
                  SetIrqState s cpu intid
                    (if negb (edge_cfg st) && level st then set_pending true st1 else st1)
              | None => s
              end in
    UpdateCpu (upd_icc cpu PopPriority s1) cpu.

Definition DeactivateInterrupt (s : SoftGic) (cpu intid : Z) : SoftGic :=
  if cpu_count_ s <=? cpu then s
  else match GetIrqState s cpu intid with
       | Some st => SetIrqState s cpu intid (set_active false st)
       | None => s
       end.

(** ** ICC system registers *)

Definition IccSysRegEncode (op0 op1 crn crm op2 : Z) : Z :=
  u32 ((op0 .& 3) .<< 20) .| u32 ((op2 .& 7) .<< 17) .| u32 ((op1 .& 7) .<< 14)
  .| u32 ((crn .& 0xF) .<< 10) .| u32 ((crm .& 0xF) .<< 1).

Definition kIccSysRegMask : Z := 0x003FFC1E.
Definition kIccIar0El1 : Z := IccSysRegEncode 3 0 12 8 0.
Definition kIccIar1El1 : Z := IccSysRegEncode 3 0 12 12 0.
Definition kIccEoir0El1 : Z := IccSysRegEncode 3 0 12 8 1.
Definition kIccEoir1El1 : Z := IccSysRegEncode 3 0 12 12 1.
Definition kIccHppir0El1 : Z := IccSysRegEncode 3 0 12 8 2.
Definition kIccHppir1El1 : Z := IccSysRegEncode 3 0 12 12 2.
Definition kIccBpr0El1 : Z := IccSysRegEncode 3 0 12 8 3.
Definition kIccBpr1El1 : Z := IccSysRegEncode 3 0 12 12 3.
Definition kIccCtlrEl1 : Z := IccSysRegEncode 3 0 12 12 4.
Definition kIccSreEl1 : Z := IccSysRegEncode 3 0 12 12 5.
Definition kIccIgrpen0El1 : Z := IccSysRegEncode 3 0 12 12 6.
Definition kIccIgrpen1El1 : Z := IccSysRegEncode 3 0 12 12 7.
Definition kIccPmrEl1 : Z := IccSysRegEncode 3 0 4 6 0.
Definition kIccDirEl1 : Z := IccSysRegEncode 3 0 12 11 1.
Definition kIccRprEl1 : Z := IccSysRegEncode 3 0 12 11 3.
Definition kIccSgi1rEl1 : Z := IccSysRegEncode 3 0 12 11 5.

(** MRS: the new state and the value, [None] for a register not handled. *)
Definition IccRead (s : SoftGic) (cpu enc : Z) : option (SoftGic * Z) :=
  let c := icc (pc_at s cpu) in
  if enc =? kIccIar1El1 then
    let '(s1, v) := AcknowledgeInterrupt s cpu in Some (UpdateCpu s1 cpu, v)
  else if enc =? kIccIar0El1 then Some (s, kIntidSpurious)
  else if enc =? kIccHppir1El1 then Some (s, HighestPendingIntid s cpu)
  else if enc =? kIccHppir0El1 then Some (s, kIntidSpurious)
  else if enc =? kIccPmrEl1 then Some (s, pmr c)
  else if enc =? kIccBpr1El1 then Some (s, bpr1 c)
  else if enc =? kIccBpr0El1 then Some (s, bpr0 c)
  else if enc =? kIccCtlrEl1 then Some (s, ctlr c)
  else if enc =? kIccSreEl1 then Some (s, 0x7)
  else if enc =? kIccIgrpen0El1 then Some (s, b2z (grp0_en c))
  else if enc =? kIccIgrpen1El1 then Some (s, b2z (grp1_en c))
  else if enc =? kIccRprEl1 then Some (s, RunningPriority c)
  else None.

(** MSR. *)
Definition IccWrite (s : SoftGic) (cpu enc val : Z) : option SoftGic :=
  if enc =? kIccEoir1El1 then Some (UpdateCpu (EndOfInterrupt s cpu (val .& 0x3FF)) cpu)
  else if enc =? kIccEoir0El1 then Some (UpdateCpu (EndOfInterrupt s cpu (val .& 0x3FF)) cpu)
  else if enc =? kIccDirEl1 then Some (UpdateCpu (DeactivateInterrupt s cpu (val .& 0x3FF)) cpu)
  else if enc =? kIccPmrEl1 then Some (UpdateCpu (upd_icc cpu (set_pmr (val .& 0xFF)) s) cpu)
  else if enc =? kIccBpr1El1 then Some (upd_icc cpu (set_bpr1 (val .& 0x7)) s)
  else if enc =? kIccBpr0El1 then Some (upd_icc cpu (set_bpr0 (val .& 0x7)) s)
  else if enc =? kIccCtlrEl1 then Some (upd_icc cpu (set_ctlr (u32 val)) s)
  else if enc =? kIccSreEl1 then Some s
  else if enc =? kIccIgrpen0El1
  then Some (UpdateCpu (upd_icc cpu (set_grp0_en (has val 1)) s) cpu)
  else if enc =? kIccIgrpen1El1
  then Some (UpdateCpu (upd_icc cpu (set_grp1_en (has val 1)) s) cpu)
  else if enc =? kIccSgi1rEl1 then Some s
  else None.

(** The result is the [bool], the new state and [*reg_value]. *)
Definition HandleIccSysReg (s : SoftGic) (cpu syndrome reg_value : Z) : bool * SoftGic * Z :=
  if cpu_count_ s <=? cpu then (false, s, reg_value)
  else
    let is_write := (syndrome .>> 0) .& 1 =? 0 in
    let reg_enc := syndrome .& kIccSysRegMask in
    if is_write then
      match IccWrite s cpu reg_enc reg_value with
      | Some s1 => (true, s1, reg_value)
      | None => (false, s, reg_value)
      end
    else
      match IccRead s cpu reg_enc with
      | Some (s1, v) => (true, s1, v)
      | None => (false, s, reg_value)
      end.

(** ** Register files *)

Inductive Outcome (A : Type) :=
| Done (a : A)
| Deadlock    (* blocks on the mutex it already holds *)
| UB
| NoFuel.     (* of the model only: see [DistRead_fuel] *)
Arguments Done {A} a.
Arguments Deadlock {A}.
Arguments UB {A}.
Arguments NoFuel {A}.

(** [for (b = 0; b < n && base + b < limit; b++) if (p b) val |= 1u << b]. *)
Definition gather_step (p : Z -> bool) (val b : Z) : Z := if p b then val .| (1 .<< b) else val.
Definition gather (n : Z) (p : Z -> bool) : Z := fold_left (gather_step p) (seqZ 0 n) 0.

(** The same loop with a write: interrupt [base + b] becomes [f b] of itself
    for the [b] below [n], within [first, limit). *)
Definition scatter (first base n limit : Z) (f : Z -> IrqState -> IrqState)
    (l : list IrqState) : list IrqState :=
  imap (fun k st =>
    let i := Z.of_nat k in
    if (base <=? i) && (i <? base + n) && (first <=? i) && (i <? limit) then f (i - base) st
    else st) l.

(** [val |= prio << (b * 8)] over the bytes of the access. *)
Definition gather_prio (n : Z) (p : Z -> Z) : Z :=
  fold_left (fun val b => val .| (p b .<< (b * 8))) (seqZ 0 n) 0.

Definition set_bit (f : bool -> IrqState -> IrqState) (to : bool) (val b : Z) (st : IrqState)
    : IrqState :=
  if has val (1 .<< b) then f to st else st.
Definition put_priority (value b : Z) (st : IrqState) : IrqState :=
  set_priority ((value .>> (b * 8)) .& 0xFF) st.
Definition put_group (val b : Z) (st : IrqState) : IrqState :=
  set_group (b2z (has val (1 .<< b))) st.
Definition put_edge (val b : Z) (st : IrqState) : IrqState :=
  set_edge_cfg (negb ((val .>> (b * 2 + 1)) .& 1 =? 0)) st.

Definition in_range (offset base size : Z) : bool := (base <=? offset) && (offset <? base + size).

(** The SPI registers of the distributor; interrupts below 32 read as zero
    and ignore writes. *)
Definition dist_bits (f : IrqState -> bool) (s : SoftGic) (base : Z) : Z :=
  gather 32 (fun b => (base + b <? kMaxSpi) && (kSpiBase <=? base + b) && f (spi_at s (base + b))).

Fixpoint DistRead (fuel : nat) (held : bool) (s : SoftGic) (offset size : Z) : Outcome Z :=
  match fuel with
  | O => NoFuel
  | S fuel =>
  if held then Deadlock
  else if offset =? 0x0000 then Done ((if dist_enabled_ s then 2 else 0) .| 0x10)
  else if offset =? 0x0004 then
    Done (((kMaxSpi / 32 - 1) .& 0x1F) .| ((u32 (cpu_count_ s - 1) .& 7) .<< 5))
  else if offset =? 0x0008 then Done 0x0100143B
  else if offset =? 0x0010 then Done 0
  else if offset =? 0xFFE8 then Done 0x30
  else if in_range offset 0x0100 (kMaxSpi / 8) then
    Done (dist_bits enabled s ((offset - 0x0100) * 8))
  else if in_range offset 0x0180 (kMaxSpi / 8) then
    DistRead fuel true s (offset - 0x0180 + 0x0100) size
  else if in_range offset 0x0200 (kMaxSpi / 8) then
    Done (dist_bits pending s ((offset - 0x0200) * 8))
  else if in_range offset 0x0280 (kMaxSpi / 8) then
    DistRead fuel true s (offset - 0x0280 + 0x0200) size
  else if in_range offset 0x0300 (kMaxSpi / 8) then
    Done (dist_bits active s ((offset - 0x0300) * 8))
  else if in_range offset 0x0380 (kMaxSpi / 8) then
    DistRead fuel true s (offset - 0x0380 + 0x0300) size
  else if in_range offset 0x0400 kMaxSpi then
    let base := offset - 0x0400 in
    let n := Z.min size (kMaxSpi - base) in
    if 4 <? n then UB
    else Done (gather_prio n (fun b => if kSpiBase <=? base + b
                                       then priority (spi_at s (base + b)) else 0))
  else if in_range offset 0x0C00 (kMaxSpi / 4) then
    let base := (offset - 0x0C00) * 4 in
    Done (fold_left (fun val b =>
            if (base + b <? kMaxSpi) && (kSpiBase <=? base + b) && edge_cfg (spi_at s (base + b))
            then val .| (2 .<< (b * 2)) else val) (seqZ 0 16) 0)
  else if in_range offset 0x0080 (kMaxSpi / 8) then
    Done (dist_bits (fun st => group st =? 1) s ((offset - 0x0080) * 8))
  else if in_range offset 0x6000 ((kMaxSpi - kSpiBase) * 8) then
    let intid := kSpiBase + (offset - 0x6000) / 8 in
    Done (if intid <? kMaxSpi then route (spi_at s intid) else 0)
  else Done 0
  end.

Definition upd_spi (f : list IrqState -> list IrqState) (s : SoftGic) : SoftGic :=
  set_spi_state (f (spi_state_ s)) s.

Definition spi_bits (f : bool -> IrqState -> IrqState) (to : bool) (base val : Z) (s : SoftGic) :=
  upd_spi (scatter kSpiBase base 32 kMaxSpi (set_bit f to val)) s.

Definition DistWrite (s : SoftGic) (offset size value : Z) : SoftGic :=
  let val32 := u32 value in
  if offset =? 0x0000 then UpdateAll (set_dist_enabled (has val32 2) s)
  else if offset =? 0x0010 then s
  else if in_range offset 0x0100 (kMaxSpi / 8) then
    UpdateAll (spi_bits set_enabled true ((offset - 0x0100) * 8) val32 s)
  else if in_range offset 0x0180 (kMaxSpi / 8) then
    spi_bits set_enabled false ((offset - 0x0180) * 8) val32 s
  else if in_range offset 0x0200 (kMaxSpi / 8) then
    UpdateAll (spi_bits set_pending true ((offset - 0x0200) * 8) val32 s)
  else if in_range offset 0x0280 (kMaxSpi / 8) then
    spi_bits set_pending false ((offset - 0x0280) * 8) val32 s
  else if in_range offset 0x0300 (kMaxSpi / 8) then
    spi_bits set_active true ((offset - 0x0300) * 8) val32 s
  else if in_range offset 0x0380 (kMaxSpi / 8) then
    UpdateAll (spi_bits set_active false ((offset - 0x0380) * 8) val32 s)
  else if in_range offset 0x0400 kMaxSpi then
    upd_spi (scatter kSpiBase (offset - 0x0400) size kMaxSpi (put_priority value)) s
  else if in_range offset 0x0C00 (kMaxSpi / 4) then
    upd_spi (scatter kSpiBase ((offset - 0x0C00) * 4) 16 kMaxSpi (put_edge val32)) s
  else if in_range offset 0x0080 (kMaxSpi / 8) then
    upd_spi (scatter kSpiBase ((offset - 0x0080) * 8) 32 kMaxSpi (put_group val32)) s
  else if in_range offset 0x6000 ((kMaxSpi - kSpiBase) * 8) then
    let intid := kSpiBase + (offset - 0x6000) / 8 in
    if intid <? kMaxSpi
    then upd_spi (fun l => <[Z.to_nat intid := set_route (value .& 0xFF) (spi_at s intid)]> l) s
    else s
  else s.

(** The SGI/PPI registers of redistributor [cpu]. *)
Definition redist_bits (f : IrqState -> bool) (p : PerCpu) : Z :=
  gather 32 (fun b => f (ppi_at p b)).

Fixpoint RedistRead (fuel : nat) (held : bool) (s : SoftGic) (cpu offset size : Z) : Outcome Z :=
  match fuel with
  | O => NoFuel
  | S fuel =>
  if held then Deadlock
  else if cpu_count_ s <=? cpu then Done 0
  else
  let p := pc_at s cpu in
  if offset <? kGicrSgiOffset then
    if offset =? 0x0000 then Done 0
    else if offset =? 0x0004 then Done 0x0100143B
    else if offset =? 0x0008 then
      let typer := u64 (cpu .<< 32) .| (if cpu =? u32 (cpu_count_ s - 1) then 0x10 else 0) in
      Done (if 8 <=? size then typer else u32 typer)
    else if offset =? 0x000C then Done (u32 cpu)
    else if offset =? 0x0014 then Done (if waker_sleep p then 2 .| 4 else 0)
    else if offset =? 0x0010 then Done 0
    else if offset =? 0xFFE8 then Done 0x30
    else Done 0
  else if offset =? kGicrSgiOffset + 0x0100 then Done (redist_bits enabled p)
  else if offset =? kGicrSgiOffset + 0x0180 then
    RedistRead fuel true s cpu (kGicrSgiOffset + 0x0100) size
  else if offset =? kGicrSgiOffset + 0x0200 then Done (redist_bits pending p)
  else if offset =? kGicrSgiOffset + 0x0280 then
    RedistRead fuel true s cpu (kGicrSgiOffset + 0x0200) size
  else if offset =? kGicrSgiOffset + 0x0300 then Done (redist_bits active p)
  else if offset =? kGicrSgiOffset + 0x0380 then
    RedistRead fuel true s cpu (kGicrSgiOffset + 0x0300) size
  else if offset =? kGicrSgiOffset + 0x0080 then Done (redist_bits (fun st => group st =? 1) p)
  else if in_range offset (kGicrSgiOffset + 0x0400) kSgiPpiCount then
    let base := offset - (kGicrSgiOffset + 0x0400) in
    let n := Z.min size (kSgiPpiCount - base) in
    if 4 <? n then UB else Done (gather_prio n (fun b => priority (ppi_at p (base + b))))
  else if offset =? kGicrSgiOffset + 0x0C00 then Done 0xAAAAAAAA
  else if offset =? kGicrSgiOffset + 0x0C04 then
    Done (fold_left (fun val b => if edge_cfg (ppi_at p (16 + b))
                                  then val .| (2 .<< (b * 2)) else val) (seqZ 0 16) 0)
  else Done 0
  end.

Definition upd_irq (cpu : Z) (f : list IrqState -> list IrqState) (s : SoftGic) : SoftGic :=
  upd_pc cpu (fun p => set_irq (f (irq p)) p) s.

Definition ppi_bits (f : bool -> IrqState -> IrqState) (to : bool) (cpu val : Z) (s : SoftGic) :=
  upd_irq cpu (scatter 0 0 32 kSgiPpiCount (set_bit f to val)) s.

Definition RedistWrite (s : SoftGic) (cpu offset size value : Z) : SoftGic :=
  if cpu_count_ s <=? cpu then s
  else
  let val32 := u32 value in
  if offset <? kGicrSgiOffset then
    if offset =? 0x0014 then upd_pc cpu (set_waker_sleep (has val32 2)) s
    else s
  else if offset =? kGicrSgiOffset + 0x0100 then
    UpdateCpu (ppi_bits set_enabled true cpu val32 s) cpu
  else if offset =? kGicrSgiOffset + 0x0180 then ppi_bits set_enabled false cpu val32 s
  else if offset =? kGicrSgiOffset + 0x0200 then
    UpdateCpu (ppi_bits set_pending true cpu val32 s) cpu
  else if offset =? kGicrSgiOffset + 0x0280 then ppi_bits set_pending false cpu val32 s
  else if offset =? kGicrSgiOffset + 0x0300 then ppi_bits set_active true cpu val32 s
  else if offset =? kGicrSgiOffset + 0x0380 then
    UpdateCpu (ppi_bits set_active false cpu val32 s) cpu
  else if offset =? kGicrSgiOffset + 0x0080 then
    upd_irq cpu (scatter 0 0 32 kSgiPpiCount (put_group val32)) s
  else if in_range offset (kGicrSgiOffset + 0x0400) kSgiPpiCount then
    upd_irq cpu (scatter 0 (offset - (kGicrSgiOffset + 0x0400)) size kSgiPpiCount
                   (put_priority value)) s
  else if offset =? kGicrSgiOffset + 0x0C04 then
    upd_irq cpu (scatter 0 16 16 kSgiPpiCount (put_edge val32)) s
  else s.

(** ** Arbitration picks the right interrupt *)

Definition gic_ok (s : SoftGic) : Prop :=
  length (spi_state_ s) = 128%nat /\ 0 <= cpu_count_ s <= 8
  /\ length (per_cpu_ s) = Z.to_nat (cpu_count_ s)
  /\ length (kick_fns_ s) = Z.to_nat (cpu_count_ s)
  /\ Forall (fun p => length (irq p) = 32%nat /\ length (running_priority (icc p)) = kApMaxDepth
               /\ (ap_depth (icc p) <= kApMaxDepth)%nat /\ pmr (icc p) <= 255) (per_cpu_ s).

(** The interrupts that may be signalled to [cpu]. *)
Definition deliverable (s : SoftGic) (cpu i : Z) : Prop :=
  let c := icc (pc_at s cpu) in
  (0 <= i < 32 /\ candidate c (ppi_at (pc_at s cpu) i) = true)
  \/ (32 <= i < 128 /\ dist_enabled_ s = true /\ spi_candidate c cpu (spi_at s i) = true).

Definition state_of (s : SoftGic) (cpu i : Z) : IrqState :=
  if i <? 32 then ppi_at (pc_at s cpu) i else spi_at s i.

(** What one arbitration loop computes. *)
Lemma better_fold (ok : IrqState -> bool) (at_ : Z -> IrqState) lo n b :
  0 <= n ->
  (forall i, lo <= i < lo + n -> ok (at_ i) = true -> priority (at_ i) < 255) ->
  let r := fold_left (fun b i => better ok (at_ i) i b) (seqZ lo n) b in
  snd r <= snd b
  /\ (r = b \/ (lo <= fst r < lo + n /\ ok (at_ (fst r)) = true
                /\ snd r = priority (at_ (fst r)) /\ snd r < snd b
                /\ forall i, lo <= i < fst r -> ok (at_ i) = true -> snd r < priority (at_ i)))
  /\ (forall i, lo <= i < lo + n -> ok (at_ i) = true -> snd r <= priority (at_ i)).
Proof.
  intros Hn Hp. revert b. revert lo Hp. 
  pattern n. apply natlike_ind; [| |done].
  - intros lo Hp b. rewrite seqZ_nil by lia. simpl. split; [lia|]. split; [by left|lia].
  - clear n Hn. intros n Hn IH lo Hp b. rewrite seqZ_cons by lia.
    replace (Z.succ lo) with (lo + 1) by lia. replace (Z.pred (Z.succ n)) with n by lia.
    cbn [fold_left]. specialize (IH (lo + 1) ltac:(intros i Hi; apply Hp; lia)).
    specialize (IH (better ok (at_ lo) lo b)). cbv zeta in IH |- *.
    set (r := fold_left _ (seqZ (lo + 1) n) (better ok (at_ lo) lo b)) in *.
    destruct IH as (H1 & H2 & H3).
    assert (Hb : snd (better ok (at_ lo) lo b) <= snd b
                 /\ (ok (at_ lo) = true -> snd (better ok (at_ lo) lo b) <= priority (at_ lo))).
    { unfold better. destruct (ok (at_ lo)) eqn:Eo; simpl; [|lia].
      destruct (Z.ltb_spec (priority (at_ lo)) (snd b)); simpl; lia. }
    split; [lia|]. split.
    + destruct H2 as [H2|(Hr & Hok & Hpr & Hlt & Hmin)].
      * rewrite H2. unfold better. destruct (ok (at_ lo)) eqn:Eo; simpl; [|by left].
        destruct (Z.ltb_spec (priority (at_ lo)) (snd b)); simpl; [|by left].
        right. repeat split; try done; lia.
      * right. repeat split; try done; try lia. intros i Hi Hoki.
        destruct (decide (i = lo)) as [->|]; [|apply Hmin; [lia|done]].
        destruct Hb as [_ Hb]. specialize (Hb Hoki). lia.
    + intros i Hi Hoki. destruct (decide (i = lo)) as [->|]; [|apply H3; [lia|done]].
      destruct Hb as [_ Hb]. specialize (Hb Hoki). lia.
Qed.

(** [r] is the best interrupt of [D], or the initial value if there is none. *)
Definition best_of (D : Z -> Prop) (at_ : Z -> IrqState) (r : Z * Z) : Prop :=
  (r = (kIntidSpurious, 0xFF) /\ forall i, ~ D i)
  \/ (D (fst r) /\ snd r = priority (at_ (fst r)) /\ snd r < 255
      /\ forall i, D i -> snd r < priority (at_ i) \/ (snd r = priority (at_ i) /\ fst r <= i)).

Lemma best_step (D : Z -> Prop) at_ (ok : IrqState -> bool) lo n b :
  0 <= n -> best_of D at_ b -> (forall i, D i -> i < lo) ->
  (forall i, lo <= i < lo + n -> ok (at_ i) = true -> priority (at_ i) < 255) ->
  best_of (fun i => D i \/ (lo <= i < lo + n /\ ok (at_ i) = true)) at_
    (fold_left (fun b i => better ok (at_ i) i b) (seqZ lo n) b).
Proof.
  intros Hn Hb Hlo Hp. pose proof (better_fold ok at_ lo n b Hn Hp) as (H1 & H2 & H3).
  set (r := fold_left _ _ b) in *. clearbody r.
  destruct H2 as [->|(Hr & Hok & Hpr & Hlt & Hmin)].
  - destruct Hb as [[-> Hno]|(Hd & Hpr & Hlt & Hbest)].
    + left. split; [done|]. intros i [Hi|[Hi Hoki]]; [by eapply Hno|].
      specialize (H3 i Hi Hoki). specialize (Hp i Hi Hoki). simpl in H3. lia.
    + right. split; [by left|]. split; [done|]. split; [done|].
      intros i [Hi|[Hi Hoki]]; [by apply Hbest|].
      specialize (H3 i Hi Hoki). specialize (Hlo _ Hd). lia.
  - right. split; [by right|]. split; [done|]. split; [rewrite Hpr; by apply Hp|].
    intros i [Hi|[Hi Hoki]].
    + destruct Hb as [[-> Hno]|(Hd & Hpr' & Hlt' & Hbest)]; [by destruct (Hno i)|].
      specialize (Hbest i Hi). lia.
    + specialize (H3 i Hi Hoki). destruct (decide (fst r <= i)); [lia|].
      left. apply Hmin; [lia|done].
Qed.

Lemma best_of_ext (D D' : Z -> Prop) at_ at' r :
  (forall i, D i <-> D' i) -> (forall i, D i -> at_ i = at' i) ->
  best_of D at_ r -> best_of D' at' r.
Proof.
  intros Hd Ha [[-> Hno]|(Hr & Hp & Hlt & Hb)].
  - left. split; [done|]. intros i Hi. by apply (Hno i), Hd.
  - right. rewrite <- Ha by done. split; [by apply Hd|]. split; [done|]. split; [done|].
    intros i Hi%Hd. rewrite <- Ha by done. by apply Hb.
Qed.

Lemma candidate_bound c st : pmr c <= 255 -> candidate c st = true -> priority st < 255.
Proof.
  unfold candidate. intros Hp. case_ifs; try done. intros _.
  apply orb_false_iff in E2 as [E2 _]. apply Z.leb_gt in E2. lia.
Qed.

Lemma pc_at_ok s cpu :
  gic_ok s -> 0 <= cpu < cpu_count_ s ->
  per_cpu_ s !! Z.to_nat cpu = Some (pc_at s cpu) /\
  length (irq (pc_at s cpu)) = 32%nat
  /\ length (running_priority (icc (pc_at s cpu))) = kApMaxDepth
  /\ (ap_depth (icc (pc_at s cpu)) <= kApMaxDepth)%nat /\ pmr (icc (pc_at s cpu)) <= 255.
Proof.
  intros (_ & _ & Hl & _ & Hf) Hc. destruct (lookup_lt_is_Some_2 (per_cpu_ s) (Z.to_nat cpu)) as [p Hp].
  { lia. }
  assert (pc_at s cpu = p) as -> by (unfold pc_at; by apply nth_lookup_Some).
  split; [done|]. by eapply (Forall_lookup_1 _ _ _ _ Hf).
Qed.

Lemma state_of_spi s cpu i : 32 <= i -> state_of s cpu i = spi_at s i.
Proof. intros Hi. unfold state_of. destruct (Z.ltb_spec i 32); [lia|done]. Qed.

Lemma state_of_ppi s cpu i : i < 32 -> state_of s cpu i = ppi_at (pc_at s cpu) i.
Proof. intros Hi. unfold state_of. destruct (Z.ltb_spec i 32); [done|lia]. Qed.

Lemma fold_better_ext ok at1 at2 l b :
  (forall i, In i l -> at1 i = at2 i) ->
  fold_left (fun b i => better ok (at1 i) i b) l b
  = fold_left (fun b i => better ok (at2 i) i b) l b.
Proof.
  revert b. induction l as [|i l IH]; intros b H; [done|]. simpl.
  rewrite (H i) by (by left). apply IH. intros j Hj. apply H. by right.
Qed.

Lemma in_seqZ i lo n : In i (seqZ lo n) -> lo <= i < lo + n.
Proof. intros H. by apply elem_of_seqZ, list_elem_of_In. Qed.

Lemma HighestPendingIntid_best_of s cpu :
  gic_ok s -> 0 <= cpu < cpu_count_ s ->
  exists r, HighestPendingIntid s cpu = fst r
    /\ best_of (deliverable s cpu) (state_of s cpu) r.
Proof.
  intros Hs Hc. pose proof (pc_at_ok s cpu Hs Hc) as (_ & _ & _ & _ & Hpmr).
  set (c := icc (pc_at s cpu)) in *.
  assert (Hb0 : best_of (fun i => False \/ (0 <= i < 0 + kSgiPpiCount /\
              candidate c (state_of s cpu i) = true)) (state_of s cpu)
            (fold_left (fun b i => better (candidate c) (state_of s cpu i) i b)
               (seqZ 0 kSgiPpiCount) (kIntidSpurious, 0xFF))).
  { apply best_step; [done|left; split; [done|tauto]|done|].
    intros. by eapply candidate_bound. }
  assert (Hb1 := best_step _ (state_of s cpu) (spi_candidate c cpu) kSpiBase
            (kMaxSpi - kSpiBase) _ ltac:(done) Hb0).
  unfold HighestPendingIntid. destruct (Z.leb_spec (cpu_count_ s) cpu); [lia|].
  eexists. split; [reflexivity|]. fold c.
  erewrite (fold_better_ext (candidate c) (ppi_at (pc_at s cpu)) (state_of s cpu)).
  2: { intros i Hi%in_seqZ. symmetry. apply state_of_ppi. unfold kSgiPpiCount in Hi. lia. }
  erewrite (fold_better_ext (spi_candidate c cpu) (spi_at s) (state_of s cpu)).
  2: { intros i Hi%in_seqZ. symmetry. apply state_of_spi. unfold kSpiBase in Hi. lia. }
  unfold kSgiPpiCount, kSpiBase, kMaxSpi in *.
  destruct (dist_enabled_ s) eqn:Ede.
  - eapply best_of_ext; [| |apply Hb1].
    + intros i. cbv beta. unfold deliverable. fold c. split.
      * intros [[[]|[Hi Hok]]|[Hi Hok]]; [left|right].
        -- rewrite state_of_ppi in Hok by lia. by split; [lia|].
        -- rewrite state_of_spi in Hok by lia. by split; [lia|].
      * intros [[Hi Hok]|(Hi & _ & Hok)]; [left; right|right].
        -- rewrite state_of_ppi by lia. by split; [lia|].
        -- rewrite state_of_spi by lia. by split; [lia|].
    + done.
    + intros i [[]|[Hi _]]. lia.
    + intros i _ Hok. apply andb_true_iff in Hok as [Hok _]. by eapply candidate_bound.
  - eapply best_of_ext; [| |apply Hb0].
    + intros i. cbv beta. unfold deliverable. fold c. rewrite Ede. split.
      * intros [[]|[Hi Hok]]. rewrite state_of_ppi in Hok by lia. left. by split; [lia|].
      * intros [[Hi Hok]|(_ & ? & _)]; [|done]. right. rewrite state_of_ppi by lia.
        by split; [lia|].
    + done.
Qed.

(** What [HPPIR] and [IAR] report: the spurious id exactly when nothing is
    deliverable to the vCPU; otherwise a deliverable interrupt, of the best
    (numerically lowest) priority among the deliverable ones and, among
    those of that priority, the lowest numbered. *)
Theorem HighestPendingIntid_best s cpu :
  gic_ok s -> 0 <= cpu < cpu_count_ s ->
  let h := HighestPendingIntid s cpu in
  (h = kIntidSpurious <-> forall i, ~ deliverable s cpu i)
  /\ (h <> kIntidSpurious ->
       deliverable s cpu h
       /\ forall i, deliverable s cpu i ->
            priority (state_of s cpu h) < priority (state_of s cpu i)
            \/ (priority (state_of s cpu h) = priority (state_of s cpu i) /\ h <= i)).
Proof.
  intros Hs Hc h. destruct (HighestPendingIntid_best_of s cpu Hs Hc) as (r & Hr & Hb).
  fold h in Hr. rewrite Hr. destruct Hb as [[-> Hno]|(Hd & Hp & Hlt & Hb)].
  - split; [by split|]. by intros [].
  - assert (Hne : fst r <> kIntidSpurious).
    { unfold kIntidSpurious. destruct Hd as [[Hi _]|[Hi _]]; lia. }
    split; [split; [done|intros Hno; by destruct (Hno (fst r))]|].
    intros _. rewrite <- Hp. by split.
Qed.

(** ** Frame properties of the updates *)

Lemma pc_at_upd s cpu f :
  gic_ok s -> 0 <= cpu < cpu_count_ s -> pc_at (upd_pc cpu f s) cpu = f (pc_at s cpu).
Proof.
  intros (_ & _ & Hl & _) Hc. unfold pc_at at 1, upd_pc. cbn [per_cpu_ set_per_cpu].
  apply nth_lookup_Some, list_lookup_insert_eq. lia.
Qed.

Lemma UpdateCpu_state s cpu :
  spi_state_ (UpdateCpu s cpu) = spi_state_ s /\ per_cpu_ (UpdateCpu s cpu) = per_cpu_ s
  /\ dist_enabled_ (UpdateCpu s cpu) = dist_enabled_ s
  /\ cpu_count_ (UpdateCpu s cpu) = cpu_count_ s
  /\ kick_fns_ (UpdateCpu s cpu) = kick_fns_ s.
Proof. unfold UpdateCpu. cbv zeta. by case_ifs. Qed.

Lemma UpdateAll_state s :
  spi_state_ (UpdateAll s) = spi_state_ s /\ per_cpu_ (UpdateAll s) = per_cpu_ s
  /\ dist_enabled_ (UpdateAll s) = dist_enabled_ s
  /\ cpu_count_ (UpdateAll s) = cpu_count_ s.
Proof.
  unfold UpdateAll. generalize (seqZ 0 (cpu_count_ s)) as l. intros l. revert s.
  induction l as [|c l IH]; intros s; [done|]. simpl.
  destruct (IH (UpdateCpu s c)) as (-> & -> & -> & ->).
  by destruct (UpdateCpu_state s c) as (-> & -> & -> & -> & _).
Qed.

Lemma state_of_UpdateCpu s c cpu i : state_of (UpdateCpu s c) cpu i = state_of s cpu i.
Proof.
  destruct (UpdateCpu_state s c) as (E1 & E2 & _). unfold state_of, spi_at, pc_at.
  by rewrite E1, E2.
Qed.

Lemma icc_UpdateCpu s c cpu : icc (pc_at (UpdateCpu s c) cpu) = icc (pc_at s cpu).
Proof. destruct (UpdateCpu_state s c) as (E1 & E2 & _). unfold pc_at. by rewrite E2. Qed.

Lemma nth_insert_at {A} (l : list A) i x d : (i < length l)%nat -> nth i (<[i := x]> l) d = x.
Proof. intros Hi. by apply nth_lookup_Some, list_lookup_insert_eq. Qed.

Lemma nth_insert_other {A} (l : list A) i j x d : i <> j -> nth j (<[i := x]> l) d = nth j l d.
Proof. intros Hi. by rewrite !nth_lookup, list_lookup_insert_ne. Qed.

(** An INTID that [GetIrqState] resolves. *)
Definition valid_intid (i : Z) : Prop := 0 <= i < 128.

Lemma GetIrqState_valid s cpu i :
  0 <= cpu < cpu_count_ s -> valid_intid i -> GetIrqState s cpu i = Some (state_of s cpu i).
Proof.
  intros Hc Hi. unfold valid_intid in Hi. unfold GetIrqState, state_of, kSgiPpiCount, kSpiBase, kMaxSpi.
  destruct (Z.ltb_spec i 32).
  - destruct (Z.ltb_spec cpu (cpu_count_ s)); [done|lia].
  - destruct (Z.leb_spec 32 i); [|lia]. destruct (Z.ltb_spec i 128); [done|lia].
Qed.

Lemma state_of_Set s cpu i st j :
  gic_ok s -> 0 <= cpu < cpu_count_ s -> valid_intid i -> valid_intid j ->
  state_of (SetIrqState s cpu i st) cpu j = if decide (i = j) then st else state_of s cpu j.
Proof.
  intros Hs Hc Hi Hj. unfold valid_intid in *.
  pose proof Hs as (Hsl & _). pose proof (pc_at_ok s cpu Hs Hc) as (_ & Hil & _).
  unfold SetIrqState, kSgiPpiCount. destruct (Z.ltb_spec i 32).
  - unfold state_of. destruct (Z.ltb_spec j 32).
    + rewrite pc_at_upd by done. unfold ppi_at. cbn [irq set_irq].
      destruct (decide (i = j)) as [->|]; [apply nth_insert_at; lia|].
      apply nth_insert_other. lia.
    + destruct (decide (i = j)); [lia|]. done.
  - unfold state_of. destruct (Z.ltb_spec j 32).
    + destruct (decide (i = j)); [lia|]. done.
    + unfold spi_at. cbn [spi_state_ set_spi_state].
      destruct (decide (i = j)) as [->|]; [apply nth_insert_at; lia|].
      apply nth_insert_other. lia.
Qed.

Lemma icc_Set s cpu i st :
  gic_ok s -> 0 <= cpu < cpu_count_ s ->
  icc (pc_at (SetIrqState s cpu i st) cpu) = icc (pc_at s cpu).
Proof.
  intros Hs Hc. unfold SetIrqState. case_ifs; [|done]. by rewrite pc_at_upd.
Qed.

Lemma state_of_upd_icc s cpu f i :
  gic_ok s -> 0 <= cpu < cpu_count_ s -> state_of (upd_icc cpu f s) cpu i = state_of s cpu i.
Proof. intros Hs Hc. unfold state_of, upd_icc. by rewrite pc_at_upd. Qed.

Lemma icc_upd_icc s cpu f :
  gic_ok s -> 0 <= cpu < cpu_count_ s -> icc (pc_at (upd_icc cpu f s) cpu) = f (icc (pc_at s cpu)).
Proof. intros Hs Hc. unfold upd_icc. by rewrite pc_at_upd. Qed.

Lemma upd_pc_ok s cpu f :
  gic_ok s -> 0 <= cpu < cpu_count_ s ->
  (forall p, length (irq p) = 32%nat /\ length (running_priority (icc p)) = kApMaxDepth
               /\ (ap_depth (icc p) <= kApMaxDepth)%nat /\ pmr (icc p) <= 255 ->
     length (irq (f p)) = 32%nat /\ length (running_priority (icc (f p))) = kApMaxDepth
               /\ (ap_depth (icc (f p)) <= kApMaxDepth)%nat /\ pmr (icc (f p)) <= 255) ->
  gic_ok (upd_pc cpu f s).
Proof.
  intros Hs Hc Hf. pose proof (pc_at_ok s cpu Hs Hc) as (_ & Hp).
  destruct Hs as (H1 & H2 & H3 & H4 & H5). refine (conj H1 (conj H2 (conj _ (conj H4 _)))).
  - unfold upd_pc. cbn. by rewrite length_insert.
  - apply Forall_insert; [done|]. by apply Hf.
Qed.

Lemma SetIrqState_ok s cpu i st :
  gic_ok s -> 0 <= cpu < cpu_count_ s -> gic_ok (SetIrqState s cpu i st).
Proof.
  intros Hs Hc. unfold SetIrqState. case_ifs.
  - apply upd_pc_ok; [done|done|]. intros p Hp. cbn. by rewrite length_insert.
  - destruct Hs as (H1 & Hs). split; [|exact Hs]. cbn. by rewrite length_insert.
Qed.

Lemma UpdateCpu_ok s c : gic_ok s -> gic_ok (UpdateCpu s c).
Proof.
  unfold gic_ok. by destruct (UpdateCpu_state s c) as (-> & -> & _ & -> & ->).
Qed.

(** ** Acknowledge and end of interrupt *)

Lemma PushPriority_spec prio c :
  length (running_priority c) = kApMaxDepth -> (ap_depth c < kApMaxDepth)%nat ->
  RunningPriority (PushPriority prio c) = prio
  /\ ap_depth (PushPriority prio c) = S (ap_depth c)
  /\ pmr (PushPriority prio c) = pmr c
  /\ RunningPriority (PopPriority (PushPriority prio c)) = RunningPriority c
  /\ ap_depth (PopPriority (PushPriority prio c)) = ap_depth c.
Proof.
  intros Hl Hd. unfold PushPriority. rewrite (proj2 (Nat.ltb_lt _ _)) by done.
  unfold RunningPriority, PopPriority, set_stack.
  cbn [ap_depth running_priority pmr Nat.ltb Nat.leb pred].
  replace (S (ap_depth c) - 1)%nat with (ap_depth c) by lia.
  repeat split.
  - apply nth_insert_at. lia.
  - destruct (ap_depth c) as [|n]; [done|]. cbn [Nat.ltb Nat.leb].
    rewrite nth_insert_other by lia. done.
Qed.

Lemma candidate_active c st : candidate c st = true -> active st = false.
Proof. unfold candidate. case_ifs; try done. by apply orb_false_iff in E as [_ E]. Qed.

Lemma candidate_running c st : candidate c st = true -> priority st < RunningPriority c.
Proof.
  unfold candidate. case_ifs; try done. intros _. apply orb_false_iff in E2 as [_ E2].
  by apply Z.leb_gt in E2.
Qed.

Lemma deliverable_candidate s cpu i :
  deliverable s cpu i -> candidate (icc (pc_at s cpu)) (state_of s cpu i) = true
                         /\ valid_intid i.
Proof.
  unfold valid_intid. intros [[Hi Hok]|(Hi & _ & Hok)].
  - rewrite state_of_ppi by lia. by split; [|lia].
  - rewrite state_of_spi by lia. apply andb_true_iff in Hok as [Hok _]. by split; [|lia].
Qed.

Section Ack.
  Context (s : SoftGic) (cpu : Z).
  Context (Hs : gic_ok s) (Hc : 0 <= cpu < cpu_count_ s).
  Context (Hh : HighestPendingIntid s cpu <> kIntidSpurious).
Let h := HighestPendingIntid s cpu.

Lemma h_deliverable : deliverable s cpu h.
Proof. by apply (HighestPendingIntid_best s cpu Hs Hc). Qed.

Lemma h_valid : valid_intid h.
Proof. apply (deliverable_candidate s cpu), h_deliverable. Qed.

Definition acked (i : Z) (st : IrqState) : IrqState :=
  let st1 := set_active true st in
  if edge_cfg st || (i <? kSgiPpiCount) then set_pending false st1 else st1.

Lemma Acknowledge_eq :
  AcknowledgeInterrupt s cpu
  = (upd_icc cpu (PushPriority (priority (state_of s cpu h)))
       (SetIrqState s cpu h (acked h (state_of s cpu h))), h).
Proof.
  unfold AcknowledgeInterrupt. rewrite (proj2 (Z.eqb_neq _ _)) by exact Hh.
  fold h. by rewrite GetIrqState_valid by (done || apply h_valid).
Qed.

Lemma Acknowledge_state j :
  valid_intid j ->
  state_of (fst (AcknowledgeInterrupt s cpu)) cpu j
  = if decide (h = j) then acked h (state_of s cpu h) else state_of s cpu j.
Proof.
  intros Hj. rewrite Acknowledge_eq. cbn [fst].
  rewrite state_of_upd_icc; [|by apply SetIrqState_ok|].
  - apply state_of_Set; [done|done|apply h_valid|done].
  - unfold SetIrqState. by case_ifs.
Qed.

Lemma Acknowledge_icc :
  icc (pc_at (fst (AcknowledgeInterrupt s cpu)) cpu)
  = PushPriority (priority (state_of s cpu h)) (icc (pc_at s cpu)).
Proof.
  rewrite Acknowledge_eq. cbn [fst].
  rewrite icc_upd_icc; [|by apply SetIrqState_ok|].
  - by rewrite icc_Set.
  - unfold SetIrqState. by case_ifs.
Qed.

Lemma Acknowledge_ok : gic_ok (fst (AcknowledgeInterrupt s cpu)).
Proof.
  rewrite Acknowledge_eq. cbn [fst]. apply upd_pc_ok; [by apply SetIrqState_ok| |].
  - unfold SetIrqState. by case_ifs.
  - intros p (H1 & H2 & H3 & H4). cbn. unfold PushPriority. case_ifs; [|done].
    apply Nat.ltb_lt in E. cbn. rewrite length_insert. repeat split; try done; lia.
Qed.

Lemma Acknowledge_count : cpu_count_ (fst (AcknowledgeInterrupt s cpu)) = cpu_count_ s.
Proof. rewrite Acknowledge_eq. cbn [fst]. unfold SetIrqState. by case_ifs. Qed.

(** With room on the priority stack, acknowledging marks the interrupt
    active and raises the running priority to its priority. *)
Lemma Acknowledge_effect :
  (ap_depth (icc (pc_at s cpu)) < kApMaxDepth)%nat ->
  let s' := fst (AcknowledgeInterrupt s cpu) in
  snd (AcknowledgeInterrupt s cpu) = h
  /\ active (state_of s' cpu h) = true
  /\ (forall j, valid_intid j -> j <> h -> state_of s' cpu j = state_of s cpu j)
  /\ RunningPriority (icc (pc_at s' cpu)) = priority (state_of s cpu h)
  /\ RunningPriority (icc (pc_at s' cpu)) < RunningPriority (icc (pc_at s cpu))
  /\ (forall j, deliverable s' cpu j ->
        j <> h /\ priority (state_of s' cpu j) < priority (state_of s cpu h)).
Proof.
  intros Hd s'. pose proof (pc_at_ok s cpu Hs Hc) as (_ & _ & Hl & _ & _).
  pose proof (deliverable_candidate s cpu h h_deliverable) as [Hcand Hv].
  destruct (PushPriority_spec (priority (state_of s cpu h)) (icc (pc_at s cpu)) Hl Hd)
    as (Hrun & _).
  split; [by rewrite Acknowledge_eq|].
  assert (Hact : active (state_of s' cpu h) = true).
  { unfold s'. rewrite Acknowledge_state by done. rewrite decide_True by done.
    unfold acked. by case_ifs. }
  split; [done|]. split.
  { intros j Hj Hn. unfold s'. rewrite Acknowledge_state by done. by rewrite decide_False. }
  assert (Hrun' : RunningPriority (icc (pc_at s' cpu)) = priority (state_of s cpu h)).
  { unfold s'. by rewrite Acknowledge_icc. }
  split; [done|]. split; [rewrite Hrun'; by apply candidate_running|].
  intros j Hj. apply deliverable_candidate in Hj as [Hj Hvj]. split.
  - intros ->. apply candidate_active in Hj. congruence.
  - apply candidate_running in Hj. lia.
Qed.

(** Writing EOI for the acknowledged interrupt undoes the acknowledge: the
    running priority and the nesting depth are those before it, the interrupt
    is inactive, no other interrupt changed, and it is pending again exactly
    when its line is level-triggered and still high (a level SPI stays pending
    until the line falls). *)
Theorem Acknowledge_EOI :
  (ap_depth (icc (pc_at s cpu)) < kApMaxDepth)%nat ->
  let s2 := EndOfInterrupt (fst (AcknowledgeInterrupt s cpu)) cpu h in
  RunningPriority (icc (pc_at s2 cpu)) = RunningPriority (icc (pc_at s cpu))
  /\ ap_depth (icc (pc_at s2 cpu)) = ap_depth (icc (pc_at s cpu))
  /\ active (state_of s2 cpu h) = false
  /\ pending (state_of s2 cpu h)
     = (if edge_cfg (state_of s cpu h) then false
        else level (state_of s cpu h) || negb (h <? kSgiPpiCount))
  /\ (forall j, valid_intid j -> j <> h -> state_of s2 cpu j = state_of s cpu j).
Proof.
  intros Hd s2. pose proof (pc_at_ok s cpu Hs Hc) as (_ & _ & Hl & _ & _).
  pose proof (deliverable_candidate s cpu h h_deliverable) as [Hcand Hv].
  destruct (PushPriority_spec (priority (state_of s cpu h)) (icc (pc_at s cpu)) Hl Hd)
    as (_ & _ & _ & Hrun & Hdep).
  set (s1 := fst (AcknowledgeInterrupt s cpu)) in *.
  assert (Hs1 : gic_ok s1) by apply Acknowledge_ok.
  assert (Hc1 : 0 <= cpu < cpu_count_ s1) by (unfold s1; by rewrite Acknowledge_count).
  assert (Hst1 : state_of s1 cpu h = acked h (state_of s cpu h)).
  { unfold s1. rewrite Acknowledge_state by done. by rewrite decide_True. }
  unfold s2, EndOfInterrupt. destruct (Z.leb_spec (cpu_count_ s1) cpu); [lia|].
  rewrite GetIrqState_valid by done. rewrite Hst1.
  set (st := if negb _ && _ then _ else _).
  assert (Hs3 : gic_ok (SetIrqState s1 cpu h st)) by by apply SetIrqState_ok.
  assert (Hc3 : 0 <= cpu < cpu_count_ (SetIrqState s1 cpu h st)).
  { unfold SetIrqState. by case_ifs. }
  rewrite icc_UpdateCpu, icc_upd_icc, icc_Set by done. unfold s1 at 1 2.
  rewrite Acknowledge_icc. split; [done|]. split; [done|].
  assert (Hsj : forall j, valid_intid j ->
    state_of (UpdateCpu (upd_icc cpu PopPriority (SetIrqState s1 cpu h st)) cpu) cpu j
    = if decide (h = j) then st else state_of s1 cpu j).
  { intros j Hj. rewrite state_of_UpdateCpu, state_of_upd_icc, state_of_Set by done. done. }
  rewrite !Hsj by done. rewrite !decide_True by done.
  split; [|split].
  - unfold st, acked. by case_ifs.
  - apply candidate_active in Hcand as Ha. unfold candidate in Hcand.
    destruct (pending (state_of s cpu h)) eqn:Ep;
      [|by rewrite orb_true_r in Hcand].
    unfold st, acked. destruct (edge_cfg (state_of s cpu h)) eqn:Ee; cbn [orb].
    + cbn. by rewrite Ee.
    + destruct (h <? kSgiPpiCount); cbn; rewrite ?Ee; cbn;
        destruct (level (state_of s cpu h)); simpl; done.
  - intros j Hj Hn. rewrite Hsj, decide_False by done.
    unfold s1. rewrite Acknowledge_state by done. by rewrite decide_False.
Qed.

(** The priority stack has four entries: acknowledging at depth four loses
    the new running priority, and the EOI then drops the priority of the
    handler below it, although that handler is still running. *)
Theorem Acknowledge_overflow :
  ap_depth (icc (pc_at s cpu)) = kApMaxDepth ->
  let s1 := fst (AcknowledgeInterrupt s cpu) in
  let s2 := EndOfInterrupt s1 cpu h in
  RunningPriority (icc (pc_at s1 cpu)) = RunningPriority (icc (pc_at s cpu))
  /\ ap_depth (icc (pc_at s2 cpu)) = 3%nat.
Proof.
  intros Hd s1 s2.
  assert (Hp : forall x, PushPriority x (icc (pc_at s cpu)) = icc (pc_at s cpu)).
  { intros x. unfold PushPriority. by rewrite Hd. }
  assert (Hs1 : gic_ok s1) by apply Acknowledge_ok.
  assert (Hc1 : 0 <= cpu < cpu_count_ s1) by (unfold s1; by rewrite Acknowledge_count).
  split; [unfold s1; by rewrite Acknowledge_icc, Hp|].
  unfold s2, EndOfInterrupt. destruct (Z.leb_spec (cpu_count_ s1) cpu); [lia|].
  rewrite GetIrqState_valid by (done || apply h_valid).
  set (st := if negb _ && _ then _ else _).
  assert (Hs3 : gic_ok (SetIrqState s1 cpu h st)) by by apply SetIrqState_ok.
  assert (Hc3 : 0 <= cpu < cpu_count_ (SetIrqState s1 cpu h st)).
  { unfold SetIrqState. by case_ifs. }
  rewrite icc_UpdateCpu, icc_upd_icc, icc_Set by done.
  unfold s1. rewrite Acknowledge_icc, Hp. unfold PopPriority, set_stack. cbn. by rewrite Hd.
Qed.
End Ack.

(** What the architecture asks of an interrupt before a processor may get it. *)
Definition signalled (s : SoftGic) (cpu i : Z) : Prop :=
  let st := state_of s cpu i in
  let c := icc (pc_at s cpu) in
  valid_intid i /\ enabled st = true /\ pending st = true /\ active st = false
  /\ (group st = 0 -> grp0_en c = true) /\ (group st = 1 -> grp1_en c = true)
  /\ priority st < pmr c /\ priority st < RunningPriority c
  /\ (32 <= i -> dist_enabled_ s = true /\ route st .& 0xFF = cpu).

Lemma candidate_iff c st :
  candidate c st = true <->
  enabled st = true /\ pending st = true /\ active st = false
  /\ (group st = 0 -> grp0_en c = true) /\ (group st = 1 -> grp1_en c = true)
  /\ priority st < pmr c /\ priority st < RunningPriority c.
Proof.
  unfold candidate. split.
  - destruct (enabled st), (pending st), (active st); try done. cbn [negb orb].
    destruct (Z.eqb_spec (group st) 1), (Z.eqb_spec (group st) 0), (grp1_en c), (grp0_en c); try done; cbn [negb andb];
      (destruct ((pmr c <=? priority st) || (RunningPriority c <=? priority st)) eqn:E; [done|]); intros _; bool_hyps; split_and!; try done; lia.
  - intros (-> & -> & -> & H0 & H1 & Hp & Hr). cbn [negb orb].
    destruct (Z.eqb_spec (group st) 1) as [E|]; [rewrite (H1 E)|]; cbn [negb andb];
      (destruct (Z.eqb_spec (group st) 0) as [E0|]; [rewrite (H0 E0)|]); cbn [negb andb];
      by rewrite (proj2 (Z.leb_gt _ _) Hp), (proj2 (Z.leb_gt _ _) Hr).
Qed.

Lemma signalled_deliverable s cpu i : signalled s cpu i <-> deliverable s cpu i.
Proof.
  unfold signalled, deliverable, valid_intid, spi_candidate. destruct (Z.ltb_spec i 32).
  - rewrite state_of_ppi by lia. rewrite !candidate_iff. split; [intros [??]; left; split; [lia|tauto]|]. intros [?|[? ?]]; [|lia].
    split; [lia|]. split_and!; try tauto. lia.
  - rewrite state_of_spi by lia. rewrite !andb_true_iff, !candidate_iff, Z.eqb_eq. split.
    + intros (? & ? & ? & ? & ? & ? & ? & ? & Hr). right. destruct (Hr H) as [? ?]. split; [lia|]. tauto.
    + intros [[? ?]|(? & ? & ?)]; [lia|]. split; [lia|]. tauto.
Qed.

(** C7. If any interrupt may be signalled to a processor that has fewer than
    four interrupts nested, acknowledging returns the best of them: it may be
    signalled, none that may has a higher priority, and among those of its
    priority it has the lowest number.  It alone changes: it is active, and
    pending only if its line is level-triggered.  The running priority is its
    priority, so that only strictly more urgent interrupts may preempt its
    handler. *)
Theorem Acknowledge_spec s cpu :
  gic_ok s -> 0 <= cpu < cpu_count_ s -> (exists j, signalled s cpu j) ->
  (ap_depth (icc (pc_at s cpu)) < kApMaxDepth)%nat ->
  let s' := fst (AcknowledgeInterrupt s cpu) in
  let i := snd (AcknowledgeInterrupt s cpu) in
  signalled s cpu i
  /\ (forall j, signalled s cpu j ->
        priority (state_of s cpu i) < priority (state_of s cpu j)
        \/ (priority (state_of s cpu i) = priority (state_of s cpu j) /\ i <= j))
  /\ active (state_of s' cpu i) = true
  /\ pending (state_of s' cpu i) = negb (edge_cfg (state_of s cpu i) || (i <? kSgiPpiCount))
  /\ (forall j, valid_intid j -> j <> i -> state_of s' cpu j = state_of s cpu j)
  /\ RunningPriority (icc (pc_at s' cpu)) = priority (state_of s cpu i)
  /\ RunningPriority (icc (pc_at s' cpu)) < RunningPriority (icc (pc_at s cpu))
  /\ (forall j, signalled s' cpu j ->
        j <> i /\ priority (state_of s' cpu j) < priority (state_of s cpu i)).
Proof.
  intros Hs Hc [j0 Hj0] Hd s' i. destruct (HighestPendingIntid_best s cpu Hs Hc) as [Hsp Hbest].
  assert (Hh : HighestPendingIntid s cpu <> kIntidSpurious).
  { intros E. apply (proj1 Hsp E j0). by apply signalled_deliverable. }
  destruct (Hbest Hh) as [Hdel Hmin].
  destruct (Acknowledge_effect s cpu Hs Hc Hh Hd) as (Hi & Ha & Ho & Hr1 & Hr2 & Hp).
  subst i. rewrite Hi. split; [by apply signalled_deliverable|].
  split; [intros j Hj; apply Hmin; by apply signalled_deliverable|]. split; [exact Ha|]. split.
  { subst s'. rewrite Acknowledge_state by (done || by apply h_valid). rewrite decide_True by done.
    apply signalled_deliverable in Hdel as (_ & _ & Hpe & _). unfold acked. by case_ifs. }
  split; [exact Ho|]. split; [exact Hr1|]. split; [exact Hr2|].
  intros j Hj. apply Hp. by apply signalled_deliverable.
Qed.

(** ** Self-deadlock of the clear-register reads *)

Definition dist_alias (offset : Z) : bool :=
  in_range offset 0x0180 16 || in_range offset 0x0280 16 || in_range offset 0x0380 16.
Definition redist_alias (offset : Z) : bool :=
  (offset =? 0x10180) || (offset =? 0x10280) || (offset =? 0x10380).

(** A guest read of GICD_ICENABLER, ICPENDR or ICACTIVER (or of their GICR
    counterparts) never returns: the handler calls itself for the "set"
    register while it holds the mutex.  These are exactly the reads that
    block; every other read completes, or is a priority read of more than
    four bytes. *)
Theorem clear_register_read_deadlocks fuel s cpu offset size :
  0 <= cpu < cpu_count_ s -> 0 <= offset ->
  (DistRead (S (S fuel)) false s offset size = Deadlock <-> dist_alias offset = true)
  /\ (RedistRead (S (S fuel)) false s cpu offset size = Deadlock
      <-> redist_alias offset = true)
  /\ DistRead (S (S fuel)) false s offset size <> NoFuel
  /\ RedistRead (S (S fuel)) false s cpu offset size <> NoFuel.
Proof.
  intros Hc Ho. cbn [DistRead RedistRead].
  destruct (Z.leb_spec (cpu_count_ s) cpu); [lia|].
  unfold dist_alias, redist_alias, in_range, kGicrSgiOffset, kMaxSpi, kSpiBase, kSgiPpiCount.
  change (128 / 8) with 16. change (128 / 4) with 32. change (65536 + 256) with 65792.
  change (65536 + 384) with 65920. change (65536 + 512) with 66048.
  change (65536 + 640) with 66176. change (65536 + 768) with 66304.
  change (65536 + 896) with 66432.
  split; [|split; [|split]].
  - repeat match goal with
    | |- context [if ?b then _ else _] =>
        lazymatch b with context [if _ then _ else _] => fail | _ => idtac end;
        let E := fresh "E" in destruct b eqn:E
    end; split; intros HH; try done; bool_hyps; try lia.
    all: exfalso; repeat match goal with
         | H : (_ || _) = true |- _ => apply orb_true_iff in H as [H|H]
         end; bool_hyps;
         repeat match goal with
         | H : (_ && _) = false |- _ => apply andb_false_iff in H as [H|H]
         end; bool_hyps; lia.
  - repeat match goal with
    | |- context [if ?b then _ else _] =>
        lazymatch b with context [if _ then _ else _] => fail | _ => idtac end;
        let E := fresh "E" in destruct b eqn:E
    end; split; intros HH; try done; bool_hyps; try lia.
  - by case_ifs.
  - by case_ifs.
Qed.

(** ** The set and clear registers *)

Lemma testbit_one_shift b k : 0 <= b -> 0 <= k -> Z.testbit (1 .<< b) k = (b =? k).
Proof. intros Hb Hk. rewrite Z.shiftl_1_l. by apply testbit_pow2. Qed.

Lemma gather_testbit_aux p n val k :
  0 <= n -> 0 <= k ->
  Z.testbit (fold_left (gather_step p) (seqZ 0 n) val) k
  = Z.testbit val k || ((k <? n) && p k).
Proof.
  intros Hn Hk. revert val. pattern n. apply natlike_ind; [| |done].
  - intros val. rewrite seqZ_nil by lia. destruct (Z.ltb_spec k 0); [lia|].
    by rewrite orb_false_r.
  - clear n Hn. intros n Hn IH val.
    replace (Z.succ n) with (n + 1) by lia. rewrite seqZ_app by lia.
    rewrite fold_left_app. change (seqZ (0 + n) 1) with [0 + n]. cbn [fold_left].
    unfold gather_step at 1. rewrite Z.add_0_l.
    destruct (p n) eqn:Ep.
    + rewrite Z.lor_spec, IH, testbit_one_shift by lia.
      destruct (Z.eqb_spec n k) as [->|].
      * destruct (Z.ltb_spec k (k + 1)); [|lia]. rewrite Ep. by rewrite !orb_true_r.
      * rewrite orb_false_r. bitwise_split; done.
    + rewrite IH. destruct (Z.eqb_spec n k) as [->|].
      * rewrite Ep, !andb_false_r. done.
      * bitwise_split; done.
Qed.

Lemma gather_testbit p n k :
  0 <= n -> 0 <= k -> Z.testbit (gather n p) k = (k <? n) && p k.
Proof. intros Hn Hk. unfold gather. rewrite gather_testbit_aux by done. by rewrite Z.bits_0. Qed.

Lemma scatter_lookup first base n limit f l i :
  (i < length l)%nat ->
  nth i (scatter first base n limit f l) IrqState_new
  = let z := Z.of_nat i in
    if (base <=? z) && (z <? base + n) && (first <=? z) && (z <? limit)
    then f (z - base) (nth i l IrqState_new) else nth i l IrqState_new.
Proof.
  intros Hi. unfold scatter. rewrite nth_lookup, list_lookup_imap.
  destruct (lookup_lt_is_Some_2 l i Hi) as [st Hst].
  rewrite (nth_lookup_Some l i _ st Hst), Hst. cbn [fmap option_fmap option_map from_option default].
  by cbv zeta; case_ifs.
Qed.

Lemma spi_scatter s base n f i :
  gic_ok s -> 0 <= i < 128 ->
  spi_at (upd_spi (scatter kSpiBase base n kMaxSpi f) s) i
  = if (base <=? i) && (i <? base + n) && (32 <=? i)
    then f (i - base) (spi_at s i) else spi_at s i.
Proof.
  intros (Hl & _) Hi. unfold spi_at, upd_spi. cbn [spi_state_ set_spi_state].
  rewrite scatter_lookup by lia. cbv zeta. rewrite !Z2Nat.id by lia.
  unfold kSpiBase, kMaxSpi. destruct (Z.ltb_spec i 128); [|lia]. by rewrite andb_true_r.
Qed.

Lemma spi_at_UpdateAll s i : spi_at (UpdateAll s) i = spi_at s i.
Proof. unfold spi_at. by destruct (UpdateAll_state s) as (-> & _). Qed.

(** Reading GICD_ISENABLER / ISPENDR / ISACTIVER word [w]. *)
Definition read_word (s : SoftGic) (base w : Z) : Z :=
  match DistRead 2 false s (base + 4 * w) 4 with Done v => v | _ => 0 end.

Lemma read_word_testbit s base (f : IrqState -> bool) w k :
  (base = 0x100 /\ f = enabled) \/ (base = 0x200 /\ f = pending)
    \/ (base = 0x300 /\ f = active) ->
  0 <= w < 4 -> 0 <= k ->
  Z.testbit (read_word s base w) k
  = (k <? 32) && ((32 <=? 32 * w + k) && f (spi_at s (32 * w + k))).
Proof.
  intros Hb Hw Hk.
  assert (E : read_word s base w = dist_bits f s ((base + 4 * w - base) * 8)).
  { unfold read_word. cbn [DistRead]. unfold in_range, kMaxSpi. change (128 / 8) with 16.
    destruct Hb as [[-> ->]|[[-> ->]|[-> ->]]]; case_ifs; bool_hyps; try lia; try done.
    all: repeat match goal with
         | H : (_ && _) = false |- _ => apply andb_false_iff in H as [H|H]
         end; bool_hyps; lia. }
  rewrite E. unfold dist_bits. rewrite gather_testbit by lia.
  replace ((base + 4 * w - base) * 8 + k) with (32 * w + k) by lia.
  unfold kMaxSpi, kSpiBase. destruct (Z.ltb_spec k 32); [|done]. cbn [andb].
  destruct (Z.ltb_spec (32 * w + k) 128); [done|lia].
Qed.

Lemma DistWrite_set s w v :
  0 <= w < 4 ->
  DistWrite s (0x100 + 4 * w) 4 v = UpdateAll (spi_bits set_enabled true (32 * w) (u32 v) s)
  /\ DistWrite s (0x180 + 4 * w) 4 v = spi_bits set_enabled false (32 * w) (u32 v) s.
Proof.
  intros Hw. unfold DistWrite, in_range, kMaxSpi. change (128 / 8) with 16.
  split; case_ifs; bool_hyps; try lia; try done.
  all: try (repeat match goal with
       | H : (_ && _) = false |- _ => apply andb_false_iff in H as [H|H]
       end; bool_hyps; lia).
  - by replace ((256 + 4 * w - 256) * 8) with (32 * w) by lia.
  - by replace ((384 + 4 * w - 384) * 8) with (32 * w) by lia.
Qed.

Lemma spi_bits_at f to base val s i :
  gic_ok s -> 0 <= i < 128 ->
  spi_at (spi_bits f to base val s) i
  = if (base <=? i) && (i <? base + 32) && (32 <=? i) && Z.testbit val (i - base)
    then f to (spi_at s i) else spi_at s i.
Proof.
  intros Hs Hi. unfold spi_bits. rewrite spi_scatter by done.
  destruct ((base <=? i) && (i <? base + 32) && (32 <=? i)) eqn:E; [|done].
  bool_hyps. unfold set_bit. rewrite has_bit by lia. done.
Qed.

(** Enabling and disabling through the register pair: a write of [v] to
    ISENABLER ors [v] into the enables of the 32 SPIs of that word, a write
    to ICENABLER removes them; the word reads back so, the other words, and
    every other attribute of every SPI, are unchanged. *)
Theorem enable_disable_readback s w v :
  gic_ok s -> 1 <= w < 4 -> in_width 32 v ->
  let s1 := DistWrite s (0x100 + 4 * w) 4 v in
  let s2 := DistWrite s (0x180 + 4 * w) 4 v in
  read_word s1 0x100 w = read_word s 0x100 w .| v
  /\ read_word s2 0x100 w = Z.ldiff (read_word s 0x100 w) v
  /\ (forall w', 0 <= w' < 4 -> w' <> w ->
        read_word s1 0x100 w' = read_word s 0x100 w'
        /\ read_word s2 0x100 w' = read_word s 0x100 w')
  /\ (forall i, 0 <= i < 128 ->
        let same a b := pending a = pending b /\ active a = active b /\ level a = level b
          /\ edge_cfg a = edge_cfg b /\ priority a = priority b /\ route a = route b
          /\ group a = group b in
        same (spi_at s1 i) (spi_at s i) /\ same (spi_at s2 i) (spi_at s i)).
Proof.
  intros Hs Hw Hv s1 s2. destruct (DistWrite_set s w v) as [E1 E2]; [lia|].
  assert (Hat1 : forall i, 0 <= i < 128 -> spi_at s1 i =
    if (32 * w <=? i) && (i <? 32 * w + 32) && (32 <=? i) && Z.testbit v (i - 32 * w)
    then set_enabled true (spi_at s i) else spi_at s i).
  { intros i Hi. unfold s1. rewrite E1, spi_at_UpdateAll, spi_bits_at by done.
    by rewrite wrap_small. }
  assert (Hat2 : forall i, 0 <= i < 128 -> spi_at s2 i =
    if (32 * w <=? i) && (i <? 32 * w + 32) && (32 <=? i) && Z.testbit v (i - 32 * w)
    then set_enabled false (spi_at s i) else spi_at s i).
  { intros i Hi. unfold s2. rewrite E2, spi_bits_at by done. by rewrite wrap_small. }
  clearbody s1 s2. split; [|split; [|split]].
  - apply Z.bits_inj'. intros k Hk. rewrite Z.lor_spec, !(read_word_testbit _ _ enabled) by (tauto || lia).
    destruct (Z.ltb_spec k 32); [|cbn; by rewrite (testbit_high 32 v k)].
    rewrite Hat1 by lia. replace (32 * w + k - 32 * w) with k by lia.
    destruct (Z.leb_spec (32 * w) (32 * w + k)); [|lia].
    destruct (Z.ltb_spec (32 * w + k) (32 * w + 32)); [|lia].
    destruct (Z.leb_spec 32 (32 * w + k)); [|lia]. cbn [andb].
    destruct (Z.testbit v k); cbn; by rewrite ?orb_true_r, ?orb_false_r.
  - apply Z.bits_inj'. intros k Hk. rewrite Z.ldiff_spec, !(read_word_testbit _ _ enabled) by (tauto || lia).
    destruct (Z.ltb_spec k 32); [|done].
    rewrite Hat2 by lia. replace (32 * w + k - 32 * w) with k by lia.
    destruct (Z.leb_spec (32 * w) (32 * w + k)); [|lia].
    destruct (Z.ltb_spec (32 * w + k) (32 * w + 32)); [|lia].
    destruct (Z.leb_spec 32 (32 * w + k)); [|lia]. cbn [andb].
    destruct (Z.testbit v k); cbn; by rewrite ?andb_true_r, ?andb_false_r.
  - intros w' Hw' Hn. split; apply Z.bits_inj'; intros k Hk;
      rewrite !(read_word_testbit _ _ enabled) by (tauto || lia);
      (destruct (Z.ltb_spec k 32); [|done]); rewrite ?Hat1, ?Hat2 by lia;
      (destruct (Z.leb_spec (32 * w) (32 * w' + k)); cbn [andb]; [|done]);
      (destruct (Z.ltb_spec (32 * w' + k) (32 * w + 32)); [lia|done]).
  - intros i Hi same. unfold same. rewrite Hat1, Hat2 by done. case_ifs; repeat split.
Qed.

(** ** Raising an interrupt line *)

Definition armed_for (c : CpuInterface) (st : IrqState) : Prop :=
  enabled st = true /\ active st = false
  /\ (edge_cfg st = true -> level st = false)
  /\ (group st = 1 -> grp1_en c = true) /\ (group st = 0 -> grp0_en c = true)
  /\ priority st < pmr c /\ priority st < RunningPriority c.

Lemma line_change_candidate c st :
  armed_for c st -> candidate c (line_change true st) = true.
Proof.
  intros (He & Ha & Hedge & H1 & H0 & Hp & Hr). unfold candidate, line_change.
  assert (E : (if edge_cfg st
               then if negb (level st) && true then set_pending true (set_level true st)
                    else set_level true st
               else set_pending true (set_level true st))
              = set_pending true (set_level true st)).
  { destruct (edge_cfg st); [|done]. by rewrite (Hedge eq_refl). }
  rewrite E. cbn. rewrite He, Ha. cbn.
  destruct (Z.eqb_spec (group st) 1) as [E1|_]; [rewrite (H1 E1); cbn|cbn].
  - destruct (Z.eqb_spec (group st) 0) as [E0|_]; [lia|]. cbn.
    destruct (Z.leb_spec (pmr c) (priority st)); [lia|].
    by destruct (Z.leb_spec (RunningPriority c) (priority st)); [lia|].
  - destruct (Z.eqb_spec (group st) 0) as [E0|_]; [rewrite (H0 E0); cbn|cbn];
      (destruct (Z.leb_spec (pmr c) (priority st)); [lia|]);
      by destruct (Z.leb_spec (RunningPriority c) (priority st)); [lia|].
Qed.

(** No interrupt is lost: raising the line of an enabled, inactive SPI that
    is routed to a vCPU and urgent enough for it kicks that vCPU with
    "pending", and its next acknowledge returns this interrupt or one that is
    at least as urgent. *)
Theorem SetSpiLevel_delivers s i cpu :
  gic_ok s -> 0 <= cpu < cpu_count_ s -> 32 <= i < 128 ->
  dist_enabled_ s = true -> route (spi_at s i) .& 0xFF = cpu ->
  nth (Z.to_nat cpu) (kick_fns_ s) false = true ->
  armed_for (icc (pc_at s cpu)) (spi_at s i) ->
  let s' := SetSpiLevel s i true in
  kicks s' = kicks s ++ [(cpu, true)]
  /\ deliverable s' cpu i
  /\ snd (AcknowledgeInterrupt s' cpu) <> kIntidSpurious
  /\ (snd (AcknowledgeInterrupt s' cpu) = i
      \/ priority (state_of s' cpu (snd (AcknowledgeInterrupt s' cpu)))
         <= priority (state_of s' cpu i)).
Proof.
  intros Hs Hc Hi Hde Hroute Hkick Harm s'. pose proof Hs as (Hl & _ & _ & Hkl & _).
  assert (Hr' : route (line_change true (spi_at s i)) = route (spi_at s i)).
  { unfold line_change. by case_ifs. }
  set (s1 := set_spi_state (<[Z.to_nat i := line_change true (spi_at s i)]> (spi_state_ s)) s).
  assert (Es' : s' = UpdateCpu s1 cpu).
  { unfold s', SetSpiLevel, kSpiBase, kMaxSpi.
    destruct (Z.ltb_spec i 32); [lia|]. destruct (Z.leb_spec 128 i); [lia|]. cbn [orb].
    rewrite Hr', Hroute. destruct (Z.ltb_spec cpu (cpu_count_ s)); [done|lia]. }
  assert (Hs1 : gic_ok s1).
  { destruct Hs as (H1 & H2). split; [|exact H2]. cbn. by rewrite length_insert. }
  assert (Hs' : gic_ok s') by (rewrite Es'; by apply UpdateCpu_ok).
  assert (Hat : spi_at s1 i = line_change true (spi_at s i)) by (apply nth_insert_at; lia).
  assert (Hd1 : deliverable s1 cpu i).
  { right. split; [lia|]. split; [done|]. rewrite Hat. unfold spi_candidate.
    rewrite Hr', Hroute, Z.eqb_refl, andb_true_r. by apply line_change_candidate. }
  assert (Hh1 : HighestPendingIntid s1 cpu <> kIntidSpurious).
  { intros E. destruct (HighestPendingIntid_best s1 cpu Hs1 Hc) as [Hno _].
    by apply (proj1 Hno E i). }
  assert (Hd' : deliverable s' cpu i).
  { rewrite Es'. unfold deliverable, spi_at, pc_at in *.
    by destruct (UpdateCpu_state s1 cpu) as (-> & -> & -> & _). }
  assert (Hc' : 0 <= cpu < cpu_count_ s').
  { rewrite Es'. by destruct (UpdateCpu_state s1 cpu) as (_ & _ & _ & -> & _). }
  destruct (HighestPendingIntid_best s' cpu Hs' Hc') as [Hsp Hbest].
  assert (Hh' : HighestPendingIntid s' cpu <> kIntidSpurious).
  { intros E. rewrite Hsp in E. by apply (E i). }
  split; [|split; [done|]].
  - rewrite Es'. unfold UpdateCpu. change (cpu_count_ s1) with (cpu_count_ s).
    change (kick_fns_ s1) with (kick_fns_ s). change (kicks s1) with (kicks s).
    destruct (Z.leb_spec (cpu_count_ s) cpu); [lia|]. rewrite Hkick.
    destruct (Z.ltb_spec cpu (Z.of_nat (length (kick_fns_ s)))); [|lia]. cbn.
    by rewrite (proj2 (Z.eqb_neq _ _) Hh1).
  - rewrite Acknowledge_eq by done. cbn [snd]. split; [done|].
    destruct (Hbest Hh') as [_ Hb]. destruct (Hb i Hd') as [?|[? _]]; right; lia.
Qed.

(** ** A configured controller, for the examples *)

(** Two vCPUs, both kicks registered, group 1 enabled, mask 0xFF; SPI 40 and
    41 enabled and routed to vCPU 1; a line of PPIs 16..31 on vCPU 0 with
    decreasing priority values. *)
Definition gic_demo : SoftGic :=
  let s := RegisterVCpuKick (RegisterVCpuKick (SoftGic_new 2) 0 true) 1 true in
  let s := DistWrite s 0x0000 4 0x12 in
  let s := DistWrite s 0x0104 4 0x300 in
  let s := DistWrite s (0x6000 + 8 * 8) 8 1 in
  let s := DistWrite s (0x6000 + 8 * 9) 8 1 in
  let s := DistWrite s 0x0429 1 0x20 in
  let s := snd (fst (HandleIccSysReg s 1 kIccPmrEl1 0xFF)) in
  let s := snd (fst (HandleIccSysReg s 1 kIccIgrpen1El1 1)) in
  let s := snd (fst (HandleIccSysReg s 0 kIccPmrEl1 0xFF)) in
  let s := snd (fst (HandleIccSysReg s 0 kIccIgrpen1El1 1)) in
  let s := RedistWrite s 0 0x10100 4 0xFFFF0000 in
  RedistWrite s 0 0x10410 8 0x1020304050607080.

Definition gic_okb (s : SoftGic) : bool :=
  (length (spi_state_ s) =? 128)%nat && (0 <=? cpu_count_ s) && (cpu_count_ s <=? 8)
  && (length (per_cpu_ s) =? Z.to_nat (cpu_count_ s))%nat
  && (length (kick_fns_ s) =? Z.to_nat (cpu_count_ s))%nat
  && forallb (fun p => (length (irq p) =? 32)%nat
       && (length (running_priority (icc p)) =? kApMaxDepth)%nat
       && (ap_depth (icc p) <=? kApMaxDepth)%nat && (pmr (icc p) <=? 255)) (per_cpu_ s).

Lemma gic_okb_ok s : gic_okb s = true -> gic_ok s.
Proof.
  unfold gic_okb, gic_ok. rewrite !andb_true_iff, !Nat.eqb_eq, !Z.leb_le.
  intros (((((H1 & H2) & H3) & H4) & H5) & H6). repeat split; try done.
  apply List.Forall_forall. intros p Hp. rewrite forallb_forall in H6. specialize (H6 p Hp).
  rewrite !andb_true_iff, !Nat.eqb_eq, Nat.leb_le, Z.leb_le in H6.
  by destruct H6 as (((?&?)&?)&?).
Qed.

(** Raise PPI 16, acknowledge, raise PPI 17, acknowledge, ... *)
Definition nest (n : nat) (s : SoftGic) : SoftGic :=
  fold_left (fun s k => fst (AcknowledgeInterrupt (SetPpiLevel s 0 k true) 0))
    (seqZ 16 (Z.of_nat n)) s.

Lemma HighestPendingIntid_best_witness :
  let s := SetSpiLevel (SetSpiLevel gic_demo 40 true) 41 true in
  HighestPendingIntid s 1 = 41 /\ deliverable s 1 41.
Proof.
  intros s. split; [vm_compute; reflexivity|].
  assert (E : HighestPendingIntid s 1 = 41) by (vm_compute; reflexivity).
  rewrite <- E. apply (HighestPendingIntid_best s 1).
  - apply gic_okb_ok. vm_compute. reflexivity.
  - split; vm_compute; [discriminate|reflexivity].
  - vm_compute. discriminate.
Defined.

Lemma Acknowledge_spec_witness :
  let s := SetSpiLevel (SetSpiLevel gic_demo 40 true) 41 true in
  snd (AcknowledgeInterrupt s 1) = 41
  /\ RunningPriority (icc (pc_at (fst (AcknowledgeInterrupt s 1)) 1)) = 0x20.
Proof.
  intros s. assert (E : snd (AcknowledgeInterrupt s 1) = 41) by (vm_compute; reflexivity). split; [exact E|].
  destruct (Acknowledge_spec s 1) as (_ & _ & _ & _ & _ & H & _).
  - apply gic_okb_ok. vm_compute. reflexivity.
  - split; vm_compute; [discriminate|reflexivity].
  - exists 41. apply signalled_deliverable. right. split; [lia|]. by split; vm_compute.
  - vm_compute. lia.
  - rewrite H, E. vm_compute. reflexivity.
Defined.

Lemma Acknowledge_EOI_witness :
  let s := SetSpiLevel gic_demo 41 true in
  active (state_of (EndOfInterrupt (fst (AcknowledgeInterrupt s 1)) 1
                      (HighestPendingIntid s 1)) 1 (HighestPendingIntid s 1)) = false.
Proof.
  intros s. apply (Acknowledge_EOI s 1).
  - apply gic_okb_ok. vm_compute. reflexivity.
  - split; vm_compute; [discriminate|reflexivity].
  - vm_compute. discriminate.
  - vm_compute. lia.
Defined.

Lemma Acknowledge_overflow_witness :
  let s := SetPpiLevel (nest 4 gic_demo) 0 20 true in
  RunningPriority (icc (pc_at (nest 4 gic_demo) 0)) = 0x50
  /\ RunningPriority (icc (pc_at (EndOfInterrupt (fst (AcknowledgeInterrupt s 0)) 0
                                    (HighestPendingIntid s 0)) 0)) = 0x60
  /\ ap_depth (icc (pc_at (EndOfInterrupt (fst (AcknowledgeInterrupt s 0)) 0
                             (HighestPendingIntid s 0)) 0)) = 3%nat.
Proof.
  intros s. split; [vm_compute; reflexivity|]. split; [vm_compute; reflexivity|].
  apply (Acknowledge_overflow s 0).
  - apply gic_okb_ok. vm_compute. reflexivity.
  - split; vm_compute; [discriminate|reflexivity].
  - vm_compute. discriminate.
  - vm_compute. reflexivity.
Defined.

Lemma clear_register_read_deadlocks_witness :
  DistRead 2 false gic_demo 0x0184 4 = Deadlock
  /\ RedistRead 2 false gic_demo 0 0x10180 4 = Deadlock.
Proof.
  split.
  - apply (clear_register_read_deadlocks 0 gic_demo 0 0x0184 4);
      [split; vm_compute; [discriminate|reflexivity]|lia|reflexivity].
  - apply (clear_register_read_deadlocks 0 gic_demo 0 0x10180 4);
      [split; vm_compute; [discriminate|reflexivity]|lia|reflexivity].
Defined.

Lemma enable_disable_readback_witness :
  read_word (DistWrite gic_demo 0x104 4 0x5) 0x100 1 = 0x305.
Proof.
  destruct (enable_disable_readback gic_demo 1 0x5) as (H & _).
  - apply gic_okb_ok. vm_compute. reflexivity.
  - lia.
  - split; vm_compute; [discriminate|reflexivity].
  - change (0x104) with (0x100 + 4 * 1). rewrite H. vm_compute. reflexivity.
Defined.

Lemma SetSpiLevel_delivers_witness :
  snd (AcknowledgeInterrupt (SetSpiLevel gic_demo 40 true) 1) <> kIntidSpurious.
Proof.
  apply (SetSpiLevel_delivers gic_demo 40 1); try (vm_compute; reflexivity).
  - apply gic_okb_ok. vm_compute. reflexivity.
  - split; vm_compute; [discriminate|reflexivity].
  - lia.
  - vm_compute. repeat split; discriminate.
Defined.
