(* ===== verification/VirtQueue.v ===== *)
(** * Split virtqueues

    [core/device/virtio/virtqueue.{h,cpp}].  The descriptor table and the two
    rings live in guest RAM ([HostMem]); every access goes through a pointer
    obtained from [GpaToHva] for the first byte of the structure, exactly as
    the source does, and [None] is an access outside the RAM allocation or a
    division by a zero queue size: undefined behaviour. *)

From S2P Require Import Prelude.
From S2P Require Import GuestMem.

Definition VIRTQ_DESC_F_NEXT : Z := 1.
Definition VIRTQ_DESC_F_WRITE : Z := 2.
Definition VIRTQ_DESC_F_INDIRECT : Z := 4.

Record VirtqDesc := MkVirtqDesc { d_addr : Z; d_len : Z; d_flags : Z; d_next : Z }.

(** An element of a chain: host offset, length, device-writable. *)
Record VirtqChainElem := MkElem { e_addr : Z; e_len : Z; e_writable : bool }.

Record VirtQueue := MkVirtQueue {
  queue_size_ : Z;
  desc_gpa_ : Z;
  driver_gpa_ : Z;
  device_gpa_ : Z;
  last_avail_idx_ : Z;
  last_signalled_used_ : Z;
  ready_ : bool;
  event_idx_ : bool
}.

Definition VirtQueue_new : VirtQueue := MkVirtQueue 0 0 0 0 0 0 false false.

Definition set_desc_gpa (v : Z) (s : VirtQueue) : VirtQueue :=
  MkVirtQueue (queue_size_ s) v (driver_gpa_ s) (device_gpa_ s) (last_avail_idx_ s)
    (last_signalled_used_ s) (ready_ s) (event_idx_ s).
Definition set_driver_gpa (v : Z) (s : VirtQueue) : VirtQueue :=
  MkVirtQueue (queue_size_ s) (desc_gpa_ s) v (device_gpa_ s) (last_avail_idx_ s)
    (last_signalled_used_ s) (ready_ s) (event_idx_ s).
Definition set_device_gpa (v : Z) (s : VirtQueue) : VirtQueue :=
  MkVirtQueue (queue_size_ s) (desc_gpa_ s) (driver_gpa_ s) v (last_avail_idx_ s)
    (last_signalled_used_ s) (ready_ s) (event_idx_ s).
Definition set_last_avail_idx (v : Z) (s : VirtQueue) : VirtQueue :=
  MkVirtQueue (queue_size_ s) (desc_gpa_ s) (driver_gpa_ s) (device_gpa_ s) v
    (last_signalled_used_ s) (ready_ s) (event_idx_ s).
Definition set_last_signalled_used (v : Z) (s : VirtQueue) : VirtQueue :=
  MkVirtQueue (queue_size_ s) (desc_gpa_ s) (driver_gpa_ s) (device_gpa_ s) (last_avail_idx_ s)
    v (ready_ s) (event_idx_ s).
Definition set_ready (v : bool) (s : VirtQueue) : VirtQueue :=
  MkVirtQueue (queue_size_ s) (desc_gpa_ s) (driver_gpa_ s) (device_gpa_ s) (last_avail_idx_ s)
    (last_signalled_used_ s) v (event_idx_ s).
Definition set_event_idx (v : bool) (s : VirtQueue) : VirtQueue :=
  MkVirtQueue (queue_size_ s) (desc_gpa_ s) (driver_gpa_ s) (device_gpa_ s) (last_avail_idx_ s)
    (last_signalled_used_ s) (ready_ s) v.

(** [Setup] keeps [last_signalled_used_]. *)
Definition Setup (queue_size : Z) (s : VirtQueue) : VirtQueue :=
  MkVirtQueue queue_size (desc_gpa_ s) (driver_gpa_ s) (device_gpa_ s) 0
    (last_signalled_used_ s) (ready_ s) (event_idx_ s).

Definition Reset (s : VirtQueue) : VirtQueue := MkVirtQueue (queue_size_ s) 0 0 0 0 0 false false.


(** ** Pointers into the rings *)

Definition DescAt (q : VirtQueue) (h : HostMem) (idx : Z) : option Z :=
  if queue_size_ q <=? idx then None
  else (fun b => b + 16 * idx) <$> GpaToHva (hm_map h) (desc_gpa_ q).
Definition Avail (q : VirtQueue) (h : HostMem) : option Z := GpaToHva (hm_map h) (driver_gpa_ q).
Definition AvailRing (q : VirtQueue) (h : HostMem) : option Z := (fun a => a + 4) <$> Avail q h.
Definition Used (q : VirtQueue) (h : HostMem) : option Z := GpaToHva (hm_map h) (device_gpa_ q).
Definition UsedRing (q : VirtQueue) (h : HostMem) : option Z := (fun a => a + 4) <$> Used q h.

(** Loads the 16-byte descriptor at a host offset. *)
Definition load_desc (h : HostMem) (a : Z) : option VirtqDesc :=
  addr ← hm_load 8 h a;
  len ← hm_load 4 h (a + 8);
  flags ← hm_load 2 h (a + 12);
  next ← hm_load 2 h (a + 14);
  Some (MkVirtqDesc addr len flags next).

(** ** Operations *)

Definition HasAvailable (q : VirtQueue) (h : HostMem) : option bool :=
  if negb (ready_ q) then Some false
  else match Avail q h with
       | None => Some false
       | Some a => idx ← hm_load 2 h (a + 2); Some (negb (last_avail_idx_ q =? idx))
       end.

Definition WriteAvailEvent (q : VirtQueue) (h : HostMem) (val : Z) : option HostMem :=
  match UsedRing q h with
  | None => Some h
  | Some r => hm_store 2 h (r + 8 * queue_size_ q) val
  end.

(** The inner [option] is the returned [bool] with the head index. *)
Definition PopAvail (q : VirtQueue) (h : HostMem) : option (option Z * VirtQueue * HostMem) :=
  has ← HasAvailable q h;
  if negb has then Some (None, q, h)
  else match AvailRing q h with
       | None => Some (None, q, h)
       | Some ring =>
           if queue_size_ q =? 0 then None
           else
             head ← hm_load 2 h (ring + 2 * (last_avail_idx_ q mod queue_size_ q));
             let q1 := set_last_avail_idx (u16 (last_avail_idx_ q + 1)) q in
             if event_idx_ q then
               h1 ← WriteAvailEvent q1 h (last_avail_idx_ q1); Some (Some head, q1, h1)
             else Some (Some head, q1, h)
       end.

(** The loop of [WalkIndirect] from entry [i], with [n] entries left. *)
Fixpoint walk_table (n : nat) (h : HostMem) (table i : Z) (chain : list VirtqChainElem)
    : option (bool * list VirtqChainElem) :=
  match n with
  | O => Some (true, chain)
  | S n =>
      d ← load_desc h (table + 16 * i);
      if has (d_flags d) VIRTQ_DESC_F_INDIRECT then Some (false, chain)
      else match GpaToHva (hm_map h) (d_addr d) with
           | None => Some (false, chain)
           | Some hva =>
               let chain := chain ++ [MkElem hva (d_len d) (has (d_flags d) VIRTQ_DESC_F_WRITE)] in
               if has (d_flags d) VIRTQ_DESC_F_NEXT then walk_table n h table (i + 1) chain
               else Some (true, chain)
           end
  end.

Definition WalkIndirect (h : HostMem) (table_gpa table_len : Z) (chain : list VirtqChainElem)
    : option (bool * list VirtqChainElem) :=
  let num_descs := table_len / 16 in
  if (num_descs =? 0) || negb (table_len mod 16 =? 0) then Some (false, chain)
  else match GpaToHva (hm_map h) table_gpa with
       | None => Some (false, chain)
       | Some table => walk_table (Z.to_nat num_descs) h table 0 chain
       end.

(** The [while (count < queue_size_)] loop; [n] is [queue_size_ - count]. *)
Fixpoint walk_loop (n : nat) (q : VirtQueue) (h : HostMem) (idx : Z)
    (chain : list VirtqChainElem) : option (bool * list VirtqChainElem) :=
  match n with
  | O => Some (true, chain)
  | S n =>
      match DescAt q h idx with
      | None => Some (false, chain)
      | Some a =>
          d ← load_desc h a;
          r ← (if has (d_flags d) VIRTQ_DESC_F_INDIRECT
               then WalkIndirect h (d_addr d) (d_len d) chain
               else match GpaToHva (hm_map h) (d_addr d) with
                    | None => Some (false, chain)
                    | Some hva =>
                        Some (true, chain ++ [MkElem hva (d_len d)
                                                (has (d_flags d) VIRTQ_DESC_F_WRITE)])
                    end : option (bool * list VirtqChainElem));
          let '(ok, chain) := r in
          if negb ok then Some (false, chain)
          else if has (d_flags d) VIRTQ_DESC_F_NEXT then walk_loop n q h (d_next d) chain
          else Some (true, chain)
      end
  end.

(** The returned [bool] and the chain. *)
Definition WalkChain (q : VirtQueue) (h : HostMem) (head_idx : Z)
    : option (bool * list VirtqChainElem) :=
  r ← walk_loop (Z.to_nat (queue_size_ q)) q h head_idx [];
  let '(ok, chain) := r in
  if (ok : bool) then Some (negb (length chain =? 0)%nat, chain) else Some (false, chain).

Definition PushUsed (q : VirtQueue) (h : HostMem) (head_idx total_len : Z) : option HostMem :=
  match Used q h, UsedRing q h with
  | Some used, Some ring =>
      idx ← hm_load 2 h (used + 2);
      if queue_size_ q =? 0 then None
      else
        let used_idx := u16 (idx mod queue_size_ q) in
        h1 ← hm_store 4 h (ring + 8 * used_idx) head_idx;
        h2 ← hm_store 4 h1 (ring + 8 * used_idx + 4) total_len;
        hm_store 2 h2 (used + 2) (u16 (idx + 1))
  | _, _ => Some h
  end.

Definition ReadUsedEvent (q : VirtQueue) (h : HostMem) : option Z :=
  match AvailRing q h with
  | None => Some 0
  | Some ring => hm_load 2 h (ring + 2 * queue_size_ q)
  end.

(** The window test of [ShouldNotifyGuest]. *)
Definition event_crossed (new_idx used_event last : Z) : bool :=
  u16 (new_idx - used_event - 1) <? u16 (new_idx - last).

Definition ShouldNotifyGuest (q : VirtQueue) (h : HostMem) : option (bool * VirtQueue) :=
  if negb (event_idx_ q) then
    match Avail q h with
    | Some a => flags ← hm_load 2 h a; Some (negb (has flags 1), q)
    | None => Some (true, q)
    end
  else match Used q h with
       | None => Some (true, q)
       | Some u =>
           new_idx ← hm_load 2 h (u + 2);
           used_event ← ReadUsedEvent q h;
           let notify := event_crossed new_idx used_event (last_signalled_used_ q) in
           Some (notify, if notify then set_last_signalled_used new_idx q else q)
       end.

(** [while (vq.PopAvail(&head))] with the heads collected; [fuel] bounds the
    iterations. *)
Fixpoint pop_all (fuel : nat) (q : VirtQueue) (h : HostMem)
    : option (list Z * VirtQueue * HostMem) :=
  match fuel with
  | O => None
  | S fuel =>
      r ← PopAvail q h;
      let '(o, q1, h1) := r in
      match o with
      | None => Some ([], q1, h1)
      | Some head =>
          '(heads, q2, h2) ← pop_all fuel q1 h1; Some (head :: heads, q2, h2)
      end
  end.

(** ** Well-formed rings *)

(** Where the driver put the rings: translated bases and sizes inside RAM,
    the used ring (with its trailing event word) apart from the available
    ring (with its own). *)
Record ring_layout (q : VirtQueue) (h : HostMem) (avail used : Z) : Prop := {
  rl_size : 1 <= queue_size_ q <= 32768;
  rl_avail : Avail q h = Some avail;
  rl_used : Used q h = Some used;
  rl_avail_in : 0 <= avail /\ avail + 6 + 2 * queue_size_ q <= alloc_size (hm_map h);
  rl_used_in : 0 <= used /\ used + 6 + 8 * queue_size_ q <= alloc_size (hm_map h);
  rl_disjoint : avail + 6 + 2 * queue_size_ q <= used \/ used + 6 + 8 * queue_size_ q <= avail
}.

Definition queue_ok (q : VirtQueue) : Prop :=
  ready_ q = true /\ in_width 16 (last_avail_idx_ q).

Lemma hm_load_in n h a :
  0 <= a -> a + Z.of_nat n <= alloc_size (hm_map h) -> exists v, hm_load n h a = Some v.
Proof.
  intros H1 H2. unfold hm_load, hm_read.
  rewrite (proj2 (Z.leb_le 0 a) H1), (proj2 (Z.leb_le _ _) H2). simpl. by eexists.
Qed.

Lemma hm_store_in n h a v :
  0 <= a -> a + Z.of_nat n <= alloc_size (hm_map h) ->
  exists h', hm_store n h a v = Some h' /\ hm_map h' = hm_map h.
Proof.
  intros H1 H2. unfold hm_store, hm_write. rewrite length_le_bytes.
  rewrite (proj2 (Z.leb_le 0 a) H1), (proj2 (Z.leb_le _ _) H2). simpl. by eexists.
Qed.

Lemma hm_store_map n h a v h' : hm_store n h a v = Some h' -> hm_map h' = hm_map h.
Proof. apply hm_write_map. Qed.

(** The available index and the ring entry [k], as the guest wrote them. *)
Definition avail_idx (h : HostMem) (avail : Z) : Z := default 0 (hm_load 2 h (avail + 2)).
Definition avail_entry (h : HostMem) (q : VirtQueue) (avail k : Z) : Z :=
  default 0 (hm_load 2 h (avail + 4 + 2 * (u16 k mod queue_size_ q))).

Definition same_ring (q q' : VirtQueue) : Prop :=
  queue_size_ q' = queue_size_ q /\ desc_gpa_ q' = desc_gpa_ q /\ driver_gpa_ q' = driver_gpa_ q
  /\ device_gpa_ q' = device_gpa_ q /\ ready_ q' = ready_ q /\ event_idx_ q' = event_idx_ q
  /\ last_signalled_used_ q' = last_signalled_used_ q.

(** Memory outside the trailing event word of the used ring is untouched. *)
Definition same_but_event (q : VirtQueue) (used : Z) (h h' : HostMem) : Prop :=
  hm_map h' = hm_map h /\
  forall a n, 0 <= n -> a + n <= used + 4 + 8 * queue_size_ q \/ used + 6 + 8 * queue_size_ q <= a ->
    hm_read h' a n = hm_read h a n.

Lemma PopAvail_step q h avail used :
  ring_layout q h avail used -> queue_ok q ->
  let last := last_avail_idx_ q in
  if last =? avail_idx h avail then PopAvail q h = Some (None, q, h)
  else exists q' h',
    PopAvail q h = Some (Some (avail_entry h q avail last), q', h')
    /\ last_avail_idx_ q' = u16 (last + 1) /\ same_ring q q' /\ same_but_event q used h h'.
Proof.
  intros [Hsz Ha Hu Hain Huin Hdis] [Hr Hl] last.
  destruct (hm_load_in 2 h (avail + 2)) as [idx Hidx]; [lia|lia|].
  unfold avail_idx. rewrite Hidx. cbn [id from_option].
  unfold PopAvail, HasAvailable. rewrite Hr, Ha, Hidx. cbn [negb mbind option_bind].
  fold last. destruct (Z.eqb_spec last idx) as [E|E]; cbn [negb]; [done|].
  unfold AvailRing. rewrite Ha. cbn [fmap option_fmap option_map].
  destruct (Z.eqb_spec (queue_size_ q) 0); [lia|].
  assert (Hlast : u16 last = last) by by apply wrap_small.
  pose proof (Z.mod_pos_bound last (queue_size_ q)) as Hmod.
  destruct (hm_load_in 2 h (avail + 4 + 2 * (last mod queue_size_ q))) as [e He]; [lia|lia|].
  unfold avail_entry. rewrite Hlast. fold last. rewrite He. cbn [mbind option_bind id from_option].
  destruct (event_idx_ q) eqn:Ee.
  - unfold WriteAvailEvent, UsedRing, Used. cbn [device_gpa_ queue_size_ set_last_avail_idx].
    unfold Used in Hu. rewrite Hu. cbn [fmap option_fmap option_map].
    destruct (hm_store_in 2 h (used + 4 + 8 * queue_size_ q) (u16 (last + 1)))
      as (h' & Hh' & Hm); [lia|lia|].
    cbn [last_avail_idx_ set_last_avail_idx]. fold last. rewrite Hh'. cbn [mbind option_bind].
    do 2 eexists. split; [done|]. split; [done|]. split; [repeat split; simpl; congruence|].
    split; [done|]. intros a m Hn Hd. eapply hm_read_write_disjoint; [exact Hh'|].
    rewrite length_le_bytes. lia.
  - do 2 eexists. split; [done|]. split; [done|]. split; [repeat split; simpl; congruence|]. done.
Qed.

Lemma same_load q used h h' n a :
  same_but_event q used h h' ->
  a + Z.of_nat n <= used + 4 + 8 * queue_size_ q \/ used + 6 + 8 * queue_size_ q <= a ->
  hm_load n h' a = hm_load n h a.
Proof. intros [_ H] Ha. unfold hm_load. by rewrite H by lia. Qed.

Lemma same_ring_layout q q' h h' avail used :
  ring_layout q h avail used -> same_ring q q' -> hm_map h' = hm_map h ->
  ring_layout q' h' avail used.
Proof.
  intros [H1 H2 H3 H4 H5 H6] (E1 & E2 & E3 & E4 & E5 & E6 & E7) Em.
  constructor; rewrite ?E1, ?Em; try done; unfold Avail, Used; rewrite ?Em, ?E3, ?E4; done.
Qed.

Lemma same_but_event_trans q q' used h1 h2 h3 :
  queue_size_ q' = queue_size_ q ->
  same_but_event q used h1 h2 -> same_but_event q' used h2 h3 -> same_but_event q used h1 h3.
Proof.
  intros Hq [M1 H1] [M2 H2]. rewrite Hq in H2. split; [by rewrite M2|].
  intros a n Hn Hd. rewrite H2 by done. by apply H1.
Qed.

Lemma same_ring_trans q1 q2 q3 : same_ring q1 q2 -> same_ring q2 q3 -> same_ring q1 q3.
Proof. intros (?&?&?&?&?&?&?) (?&?&?&?&?&?&?). repeat split; congruence. Qed.

Lemma same_ring_refl q : same_ring q q.
Proof. by repeat split. Qed.

Lemma avail_idx_width h a : store_ok (hm_bytes h) -> in_width 16 (avail_idx h a).
Proof.
  intros Hs. unfold avail_idx, hm_load, hm_read. case_ifs; simpl; [|done].
  pose proof (le_val_bound (peek (hm_bytes h) (a + 2) 2) (peek_ok _ _ _ Hs)) as H.
  by rewrite length_peek in H.
Qed.

(** The number of entries the driver has published and the device not taken. *)
Definition avail_count (q : VirtQueue) (h : HostMem) (avail : Z) : Z :=
  u16 (avail_idx h avail - last_avail_idx_ q).

Lemma u16_sub_zero a b : in_width 16 a -> in_width 16 b -> u16 (a - b) = 0 -> a = b.
Proof. unfold in_width, wrap. change (2 ^ 16) with 65536. intros. dlia. Qed.

Lemma u16_pred a b : in_width 16 a -> in_width 16 b -> a <> b ->
  u16 (a - u16 (b + 1)) = u16 (a - b) - 1 /\ 0 < u16 (a - b).
Proof. unfold in_width, wrap. change (2 ^ 16) with 65536. intros. dlia. Qed.

Lemma avail_map_wrap h q avail last n :
  map (avail_entry h q avail) (seqZ (u16 (last + 1)) n)
  = map (avail_entry h q avail) (seqZ (Z.succ last) n).
Proof.
  apply list_eq. intros i. change (@map Z Z) with (fun f : Z -> Z => @fmap list _ _ _ f). cbv beta.
  rewrite !list_lookup_fmap. destruct (decide (Z.of_nat i < n)).
  - rewrite !lookup_seqZ_lt by lia. simpl. f_equal. unfold avail_entry.
    rewrite wrap_add_l. by replace (last + 1 + Z.of_nat i) with (Z.succ last + Z.of_nat i) by lia.
  - by rewrite !lookup_seqZ_ge by lia.
Qed.

Lemma pop_all_aux n q h avail used :
  ring_layout q h avail used -> queue_ok q -> in_width 16 (avail_idx h avail) ->
  avail_count q h avail = Z.of_nat n ->
  exists q' h',
    pop_all (S n) q h
      = Some (map (avail_entry h q avail) (seqZ (last_avail_idx_ q) (Z.of_nat n)), q', h')
    /\ last_avail_idx_ q' = avail_idx h avail /\ same_ring q q' /\ same_but_event q used h h'.
Proof.
  revert q h. induction n as [|n IH]; intros q h Hlay Hok Hw Hn;
    pose proof (PopAvail_step q h avail used Hlay Hok) as Hstep; cbv zeta in Hstep;
    pose proof Hok as [Hr Hl].
  - apply u16_sub_zero in Hn; [|done|done]. rewrite Hn, Z.eqb_refl in Hstep.
    cbn [pop_all]. rewrite Hstep. cbn. do 2 eexists. split; [done|].
    split; [done|]. split; [apply same_ring_refl|done].
  - assert (Hne : last_avail_idx_ q <> avail_idx h avail).
    { intros E. unfold avail_count in Hn. rewrite E, Z.sub_diag in Hn. done. }
    rewrite (proj2 (Z.eqb_neq _ _) Hne) in Hstep.
    destruct Hstep as (q1 & h1 & Hpop & Hlast & Hsame & Hmem).
    pose proof Hlay as [Hsz Ha Hu Hain Huin Hdis].
    assert (Hidx : avail_idx h1 avail = avail_idx h avail).
    { unfold avail_idx. erewrite same_load; [done|exact Hmem|]. lia. }
    assert (Hent : forall k, avail_entry h1 q1 avail k = avail_entry h q avail k).
    { intros k. unfold avail_entry. destruct Hsame as (-> & _).
      pose proof (Z.mod_pos_bound (u16 k) (queue_size_ q)).
      erewrite same_load; [done|exact Hmem|]. lia. }
    destruct (u16_pred (avail_idx h avail) (last_avail_idx_ q)) as [Hc _]; [done|done|done|].
    destruct (IH q1 h1) as (q' & h' & Hrest & Hl' & Hs' & Hm').
    + eapply same_ring_layout; [done|done|apply Hmem].
    + destruct Hsame as (_&_&_&_&E&_). split; [by rewrite E|].
      rewrite Hlast. apply wrap_in_width. lia.
    + by rewrite Hidx.
    + unfold avail_count in *. rewrite Hidx, Hlast. lia.
    + change (pop_all (S (S n)) q h) with
        (r ← PopAvail q h; let '(o, q1, h1) := r in
         match o with
         | None => Some ([], q1, h1)
         | Some head => '(heads, q2, h2) ← pop_all (S n) q1 h1; Some (head :: heads, q2, h2)
         end : option (list Z * VirtQueue * HostMem)).
      rewrite Hpop. cbn [mbind option_bind]. rewrite Hrest. cbn [mbind option_bind].
      do 2 eexists. split; [|split; [by rewrite Hl', Hidx|split]].
      * rewrite Nat2Z.inj_succ, (seqZ_cons _ (Z.succ (Z.of_nat n))) by lia. cbn [map]. do 4 f_equal.
        rewrite Z.pred_succ. rewrite Hlast. rewrite (map_ext _ _ Hent).
        apply avail_map_wrap.
      * by eapply same_ring_trans.
      * eapply same_but_event_trans; [|done|done]. apply Hsame.
Qed.

Lemma pop_all_mono n k q h r : pop_all n q h = Some r -> pop_all (n + k) q h = Some r.
Proof.
  revert q h r. induction n as [|n IH]; intros q h r H; [done|]. simpl in *.
  destruct (PopAvail q h) as [[[[head|] q1] h1]|]; simpl in *; [|done|done].
  destruct (pop_all n q1 h1) as [[[l q2] h2]|] eqn:E; simpl in *; [|done].
  by rewrite (IH _ _ _ E).
Qed.

(** C16. Draining the available ring: on a ring the driver laid out inside RAM,
    the loop [while (PopAvail(&head))] ends within 65536 iterations, yields
    exactly the entries the driver published since the last notification, in
    ring order, leaves the device's index equal to the driver's, and writes
    nothing but the event word behind the used ring. *)
Theorem pop_all_drains q h avail used :
  ring_layout q h avail used -> queue_ok q -> store_ok (hm_bytes h) ->
  exists q' h',
    pop_all (Z.to_nat 65536) q h
      = Some (map (avail_entry h q avail) (seqZ (last_avail_idx_ q) (avail_count q h avail)), q', h')
    /\ last_avail_idx_ q' = avail_idx h avail
    /\ same_ring q q' /\ same_but_event q used h h'.
Proof.
  intros Hlay Hok Hst. pose proof (avail_idx_width h avail Hst) as Hw.
  pose proof (wrap_bound 16 (avail_idx h avail - last_avail_idx_ q)) as Hc.
  fold (avail_count q h avail) in Hc. specialize (Hc ltac:(lia)).
  change (2 ^ 16) with 65536 in Hc.
  destruct (pop_all_aux (Z.to_nat (avail_count q h avail)) q h avail used) as (q' & h' & H & Hrest);
    try done; [lia|].
  exists q', h'. split; [|done]. rewrite Z2Nat.id in H by lia.
  apply (pop_all_mono _ (Z.to_nat (65535 - avail_count q h avail))) in H.
  rewrite <- H. f_equal. lia.
Qed.

(** ** The used ring *)

(** The used index and slot [k], as the guest reads them. *)
Definition used_idx (h : HostMem) (used : Z) : Z := default 0 (hm_load 2 h (used + 2)).
Definition used_slot (q : VirtQueue) (h : HostMem) (used k : Z) : Z * Z :=
  (default 0 (hm_load 4 h (used + 4 + 8 * k)), default 0 (hm_load 4 h (used + 4 + 8 * k + 4))).

(** A completion reaches the driver: [PushUsed] stores the head and length in
    the slot the used index selects, advances the index by one (modulo
    [2^16]), and changes no other slot and no memory outside the ring. *)
Theorem PushUsed_spec q h avail used head len :
  ring_layout q h avail used -> in_width 32 head -> in_width 32 len ->
  exists h', PushUsed q h head len = Some h'
  /\ used_slot q h' used (used_idx h used mod queue_size_ q) = (head, len)
  /\ used_idx h' used = u16 (used_idx h used + 1)
  /\ (forall k, 0 <= k < queue_size_ q -> k <> used_idx h used mod queue_size_ q ->
        used_slot q h' used k = used_slot q h used k)
  /\ hm_map h' = hm_map h
  /\ (forall a n, 0 <= n -> a + n <= used \/ used + 4 + 8 * queue_size_ q <= a ->
        hm_read h' a n = hm_read h a n).
Proof.
  intros [Hsz Ha Hu Hain Huin Hdis] Hhead Hlen.
  destruct (hm_load_in 2 h (used + 2)) as [idx Hidx]; [lia|lia|].
  assert (Hidx' : used_idx h used = idx) by (unfold used_idx; by rewrite Hidx).
  pose proof (Z.mod_pos_bound idx (queue_size_ q)) as Hmod.
  set (k := idx mod queue_size_ q) in *.
  assert (Hk16 : u16 k = k).
  { apply wrap_small. unfold in_width. change (2 ^ 16) with 65536. lia. }
  unfold PushUsed, UsedRing. rewrite Hu. cbn [fmap option_fmap option_map].
  rewrite Hidx. cbn [mbind option_bind]. destruct (Z.eqb_spec (queue_size_ q) 0); [lia|].
  cbv zeta. fold k. rewrite Hk16.
  destruct (hm_store_in 4 h (used + 4 + 8 * k) head) as (h1 & E1 & M1); [lia|lia|].
  destruct (hm_store_in 4 h1 (used + 4 + 8 * k + 4) len) as (h2 & E2 & M2);
    [lia|rewrite M1; lia|].
  destruct (hm_store_in 2 h2 (used + 2) (u16 (idx + 1))) as (h3 & E3 & M3);
    [lia|rewrite M2, M1; lia|].
  rewrite E1. cbn [mbind option_bind]. rewrite E2. cbn [mbind option_bind].
  exists h3. split; [done|]. rewrite Hidx'. fold k.
  split; [|split; [|split; [|split]]].
  - unfold used_slot. f_equal.
    + rewrite (hm_load_store_disjoint 2 4 _ _ _ _ _ E3) by lia.
      rewrite (hm_load_store_disjoint 4 4 _ _ _ _ _ E2) by lia.
      by rewrite (hm_load_store_same 4 _ _ _ _ Hhead E1).
    + rewrite (hm_load_store_disjoint 2 4 _ _ _ _ _ E3) by lia.
      by rewrite (hm_load_store_same 4 _ _ _ _ Hlen E2).
  - unfold used_idx. rewrite (hm_load_store_same 2 _ _ _ _ (wrap_in_width 16 _ ltac:(lia)) E3).
    done.
  - intros j Hj Hne. unfold used_slot.
    rewrite !(hm_load_store_disjoint 2 4 _ _ _ _ _ E3) by lia.
    rewrite !(hm_load_store_disjoint 4 4 _ _ _ _ _ E2) by lia.
    by rewrite !(hm_load_store_disjoint 4 4 _ _ _ _ _ E1) by lia.
  - by rewrite M3, M2, M1.
  - intros a n0 Hn Hd.
    rewrite (hm_read_write_disjoint _ _ _ _ a n0 E3) by (rewrite length_le_bytes; lia).
    rewrite (hm_read_write_disjoint _ _ _ _ a n0 E2) by (rewrite length_le_bytes; lia).
    by rewrite (hm_read_write_disjoint _ _ _ _ a n0 E1) by (rewrite length_le_bytes; lia).
Qed.

(** ** Notification suppression *)

(** With EVENT_IDX the guest is interrupted exactly when the used index
    passed the index it asked for: [used_event] is one of the indices
    [last, last + 1, ..., new - 1] (modulo [2^16]) completed since the last
    interrupt. *)
Theorem event_crossed_window new_idx used_event last :
  in_width 16 new_idx -> in_width 16 used_event -> in_width 16 last ->
  event_crossed new_idx used_event last = true
  <-> exists k, 0 <= k < u16 (new_idx - last) /\ used_event = u16 (last + k).
Proof.
  unfold event_crossed, in_width, wrap. change (2 ^ 16) with 65536. intros Hn He Hl.
  rewrite Z.ltb_lt. split.
  - intros H. exists ((used_event - last) mod 65536). split; dlia.
  - intros (k & Hk & ->). dlia.
Qed.

(** ** Descriptor chains *)

(** The driver's view of a chain of direct descriptors: the indices it uses
    and, for each, the buffer it describes. *)
Fixpoint laid_out (q : VirtQueue) (h : HostMem) (ids : list Z) (elems : list VirtqChainElem)
    : Prop :=
  match ids, elems with
  | i :: ids, e :: elems =>
      exists a d, DescAt q h i = Some a /\ load_desc h a = Some d
        /\ has (d_flags d) VIRTQ_DESC_F_INDIRECT = false
        /\ GpaToHva (hm_map h) (d_addr d) = Some (e_addr e) /\ d_len d = e_len e
        /\ has (d_flags d) VIRTQ_DESC_F_WRITE = e_writable e
        /\ match ids with
           | [] => has (d_flags d) VIRTQ_DESC_F_NEXT = false
           | j :: _ => has (d_flags d) VIRTQ_DESC_F_NEXT = true /\ d_next d = j
           end
        /\ (ids = [] <-> elems = []) /\ (ids <> [] -> laid_out q h ids elems)
  | _, _ => False
  end.

Lemma walk_loop_laid_out q h ids elems n chain i rest :
  ids = i :: rest -> laid_out q h ids elems -> (length ids <= n)%nat ->
  walk_loop n q h i chain = Some (true, chain ++ elems).
Proof.
  revert elems n chain i rest. induction ids as [|i0 ids IH]; intros elems n chain i rest E H Hn;
    [done|]. injection E as -> <-.
  destruct elems as [|e elems]; [done|]. simpl in H.
  destruct H as (a & d & Ha & Hd & Hind & Hg & Hlen & Hw & Hnext & Hnil & Hrest).
  destruct n as [|n]; [simpl in Hn; lia|]. cbn [walk_loop]. rewrite Ha. rewrite Hd.
  cbn [mbind option_bind]. rewrite Hind, Hg. cbn [mbind option_bind negb].
  rewrite Hlen, Hw. destruct ids as [|j ids].
  - rewrite Hnext. destruct Hnil as [Hnil _]. rewrite (Hnil eq_refl). by destruct e.
  - destruct Hnext as [-> ->]. rewrite (IH elems n _ j ids); [|done|by apply Hrest|simpl in *; lia].
    rewrite <- app_assoc. by destruct e.
Qed.

(** Walking a chain the driver laid out (at most [queue_size] descriptors)
    recovers exactly its buffers: translated address, length, direction and
    order. *)
Theorem WalkChain_laid_out q h i ids elems :
  laid_out q h (i :: ids) elems -> Z.of_nat (length (i :: ids)) <= queue_size_ q ->
  WalkChain q h i = Some (true, elems).
Proof.
  intros H Hn. unfold WalkChain.
  rewrite (walk_loop_laid_out q h (i :: ids) elems _ [] i ids); [|done|done|lia].
  cbn [mbind option_bind app]. destruct elems; [done|]. done.
Qed.

(** The walk always ends, whatever the guest wrote (cycles included): it
    inspects at most [queue_size] descriptors, so without indirect tables the
    chain has at most that many elements. *)
Lemma walk_loop_length n q h i chain ok r :
  (forall a d, load_desc h a = Some d -> has (d_flags d) VIRTQ_DESC_F_INDIRECT = false) ->
  walk_loop n q h i chain = Some (ok, r) -> (length r <= length chain + n)%nat.
Proof.
  intros Hno. revert i chain. induction n as [|n IH]; intros i chain H; simpl in H.
  { injection H as <- <-. lia. }
  destruct (DescAt q h i) as [a|]; [|injection H as <- <-; lia].
  destruct (load_desc h a) as [d|] eqn:Ed; simpl in H; [|done].
  rewrite (Hno _ _ Ed) in H. destruct (GpaToHva (hm_map h) (d_addr d)); simpl in H;
    [|injection H as <- <-; lia].
  destruct (has (d_flags d) VIRTQ_DESC_F_NEXT).
  - apply IH in H. rewrite length_app in H. simpl in H. lia.
  - injection H as <- <-. rewrite length_app. simpl. lia.
Qed.

(** Only the first byte of a buffer is checked: a descriptor whose address
    translates is accepted whatever its length, and an access to the whole
    buffer leaves the allocation as soon as the length exceeds what is left
    of it. *)
Theorem descriptor_tail_unchecked q h i a d hva :
  DescAt q h i = Some a -> load_desc h a = Some d -> 1 <= queue_size_ q ->
  has (d_flags d) VIRTQ_DESC_F_INDIRECT = false -> has (d_flags d) VIRTQ_DESC_F_NEXT = false ->
  GpaToHva (hm_map h) (d_addr d) = Some hva ->
  alloc_size (hm_map h) < hva + d_len d ->
  WalkChain q h i
    = Some (true, [MkElem hva (d_len d) (has (d_flags d) VIRTQ_DESC_F_WRITE)])
  /\ hm_read h hva (d_len d) = None
  /\ (forall l, Z.of_nat (length l) = d_len d -> hm_write h hva l = None).
Proof.
  intros Ha Hd Hq Hind Hnext Hg Hlen. split; [|split].
  - apply (WalkChain_laid_out q h i []); [|simpl; lia]. simpl.
    exists a, d. repeat split; try done.
  - unfold hm_read. rewrite (proj2 (Z.leb_gt _ _) Hlen). by rewrite andb_false_r.
  - intros l Hl. unfold hm_write. rewrite Hl, (proj2 (Z.leb_gt _ _) Hlen). by rewrite andb_false_r.
Qed.

(** ** A queue of four in 64 KiB of RAM, for the examples *)

(** Descriptors at 0x1000, available ring at 0x2000, used ring at 0x3000.
    Chain 2 -> 0: a 16-byte readable header at 0x4000 and a 512-byte writable
    buffer at 0x5000.  Descriptor 3 claims 4096 bytes at the last byte of
    RAM.  The driver has published heads 2 and 3. *)
Definition demo_map : GuestMemMap := MkGuestMemMap 0x10000 0 0x10000 0 0.

Definition demo_desc (addr len flags next : Z) : list Z :=
  le_bytes 8 addr ++ le_bytes 4 len ++ le_bytes 2 flags ++ le_bytes 2 next.

Definition demo_mem : HostMem :=
  MkHostMem demo_map
    (poke (poke (poke (poke ∅ 0x1000 (demo_desc 0x5000 512 2 0))
             0x1020 (demo_desc 0x4000 16 1 0))
        0x1030 (demo_desc 0xFFFF 4096 2 0))
     0x2000 (le_bytes 2 0 ++ le_bytes 2 2 ++ le_bytes 2 2 ++ le_bytes 2 3)).

Definition demo_queue : VirtQueue := MkVirtQueue 4 0x1000 0x2000 0x3000 0 0 true true.

Lemma demo_layout : ring_layout demo_queue demo_mem 0x2000 0x3000.
Proof. constructor; try reflexivity; vm_compute; try (split; discriminate). by left. Qed.

Lemma demo_store_ok : store_ok (hm_bytes demo_mem).
Proof.
  unfold demo_mem, demo_desc, hm_bytes.
  repeat apply store_ok_poke; try (by apply map_Forall_empty);
    repeat (apply Forall_app_2; [apply le_bytes_ok|]); apply le_bytes_ok.
Qed.

Lemma pop_all_drains_witness :
  exists q' h', pop_all (Z.to_nat 65536) demo_queue demo_mem = Some ([2; 3], q', h').
Proof.
  destruct (pop_all_drains demo_queue demo_mem 0x2000 0x3000) as (q' & h' & H & _).
  - exact demo_layout.
  - split; [reflexivity|]. split; vm_compute; [discriminate|reflexivity].
  - exact demo_store_ok.
  - exists q', h'. rewrite H. vm_compute. reflexivity.
Defined.

Lemma PushUsed_spec_witness :
  exists h', PushUsed demo_queue demo_mem 2 513 = Some h'
    /\ used_slot demo_queue h' 0x3000 0 = (2, 513) /\ used_idx h' 0x3000 = 1.
Proof.
  destruct (PushUsed_spec demo_queue demo_mem 0x2000 0x3000 2 513) as (h' & H1 & H2 & H3 & _).
  - exact demo_layout.
  - split; vm_compute; [discriminate|reflexivity].
  - split; vm_compute; [discriminate|reflexivity].
  - exists h'. split; [exact H1|]. split; [exact H2|exact H3].
Defined.

Lemma event_crossed_window_witness :
  event_crossed 2 0xFFFF 0xFFFE = true /\ event_crossed 2 2 0xFFFE = false.
Proof.
  split; [|reflexivity].
  apply (event_crossed_window 2 0xFFFF 0xFFFE); try (split; vm_compute; [discriminate|reflexivity]).
  exists 1. split; [split; vm_compute; [discriminate|reflexivity]|reflexivity].
Defined.

Lemma WalkChain_laid_out_witness :
  WalkChain demo_queue demo_mem 2
    = Some (true, [MkElem 0x4000 16 false; MkElem 0x5000 512 true]).
Proof.
  apply (WalkChain_laid_out demo_queue demo_mem 2 [0]).
  - do 2 eexists. split; [reflexivity|]. split; [vm_compute; reflexivity|].
    do 4 (split; [reflexivity|]). split; [split; reflexivity|]. split; [split; discriminate|].
    intros _. do 2 eexists. split; [reflexivity|]. split; [vm_compute; reflexivity|].
    do 5 (split; [reflexivity|]). split; [split; reflexivity|]. intros []; reflexivity.
  - vm_compute. discriminate.
Defined.

Lemma descriptor_tail_unchecked_witness :
  WalkChain demo_queue demo_mem 3 = Some (true, [MkElem 0xFFFF 4096 true])
  /\ hm_read demo_mem 0xFFFF 4096 = None.
Proof.
  destruct (descriptor_tail_unchecked demo_queue demo_mem 3 0x1030
              (MkVirtqDesc 0xFFFF 4096 2 0) 0xFFFF) as (H1 & H2 & _).
  all: try (vm_compute; reflexivity).
  - vm_compute. discriminate.
  - split; [exact H1|exact H2].
Defined.
