(* ===== verification/VirtioMmio.v ===== *)
(** * The virtio-mmio transport

    [core/device/virtio/virtio_mmio.{h,cpp}].  The device behind the transport
    is any instance of [VirtioDeviceOps], the C++ interface of the same name;
    it may change the transport (it completes requests on the transport's
    queues and raises interrupts) and guest memory.

    [irq_line] is the last level driven through [irq_level_callback_];
    [irq_signals] counts edge callbacks and eventfd writes.  [None] is
    undefined behaviour. *)

From S2P Require Import Prelude.
From S2P Require Import GuestMem.
From S2P Require Import VirtQueue.

Definition kMagic : Z := 0x74726976.
Definition kVersion : Z := 2.
Definition kVendorId : Z := 0x554D4551.
Definition VIRTIO_RING_F_INDIRECT_DESC : Z := 1 .<< 28.
Definition VIRTIO_F_EVENT_IDX : Z := 1 .<< 29.

Record QueueConfig := MkQueueConfig {
  num : Z;
  desc_addr : Z;
  driver_addr : Z;
  device_addr : Z
}.
Definition set_num (v : Z) (s : QueueConfig) : QueueConfig :=
  MkQueueConfig v (desc_addr s) (driver_addr s) (device_addr s).
Definition set_desc_addr (v : Z) (s : QueueConfig) : QueueConfig :=
  MkQueueConfig (num s) v (driver_addr s) (device_addr s).
Definition set_driver_addr (v : Z) (s : QueueConfig) : QueueConfig :=
  MkQueueConfig (num s) (desc_addr s) v (device_addr s).
Definition set_device_addr (v : Z) (s : QueueConfig) : QueueConfig :=
  MkQueueConfig (num s) (desc_addr s) (driver_addr s) v.

Definition QueueConfig_new : QueueConfig := MkQueueConfig 0 0 0 0.

Record Mmio := MkMmio {
  status_ : Z;
  device_features_sel_ : Z;
  driver_features_sel_ : Z;
  driver_features_ : Z;
  queue_sel_ : Z;
  interrupt_status_ : Z;
  config_generation_ : Z;
  queues_ : list VirtQueue;
  queue_configs_ : list QueueConfig;
  shm_sel_ : Z;
  irq_eventfd_ : bool;
  irq_level_callback_ : bool;
  irq_callback_ : bool;
  irq_line : bool;
  irq_signals : nat
}.
Definition set_status (v : Z) (s : Mmio) : Mmio :=
  MkMmio v (device_features_sel_ s) (driver_features_sel_ s) (driver_features_ s) (queue_sel_ s)
    (interrupt_status_ s) (config_generation_ s) (queues_ s) (queue_configs_ s) (shm_sel_ s)
    (irq_eventfd_ s) (irq_level_callback_ s) (irq_callback_ s) (irq_line s) (irq_signals s).
Definition set_device_features_sel (v : Z) (s : Mmio) : Mmio :=
  MkMmio (status_ s) v (driver_features_sel_ s) (driver_features_ s) (queue_sel_ s)
    (interrupt_status_ s) (config_generation_ s) (queues_ s) (queue_configs_ s) (shm_sel_ s)
    (irq_eventfd_ s) (irq_level_callback_ s) (irq_callback_ s) (irq_line s) (irq_signals s).
Definition set_driver_features_sel (v : Z) (s : Mmio) : Mmio :=
  MkMmio (status_ s) (device_features_sel_ s) v (driver_features_ s) (queue_sel_ s)
    (interrupt_status_ s) (config_generation_ s) (queues_ s) (queue_configs_ s) (shm_sel_ s)
    (irq_eventfd_ s) (irq_level_callback_ s) (irq_callback_ s) (irq_line s) (irq_signals s).
Definition set_driver_features (v : Z) (s : Mmio) : Mmio :=
  MkMmio (status_ s) (device_features_sel_ s) (driver_features_sel_ s) v (queue_sel_ s)
    (interrupt_status_ s) (config_generation_ s) (queues_ s) (queue_configs_ s) (shm_sel_ s)
    (irq_eventfd_ s) (irq_level_callback_ s) (irq_callback_ s) (irq_line s) (irq_signals s).
Definition set_queue_sel (v : Z) (s : Mmio) : Mmio :=
  MkMmio (status_ s) (device_features_sel_ s) (driver_features_sel_ s) (driver_features_ s) v
    (interrupt_status_ s) (config_generation_ s) (queues_ s) (queue_configs_ s) (shm_sel_ s)
    (irq_eventfd_ s) (irq_level_callback_ s) (irq_callback_ s) (irq_line s) (irq_signals s).
Definition set_interrupt_status (v : Z) (s : Mmio) : Mmio :=
  MkMmio (status_ s) (device_features_sel_ s) (driver_features_sel_ s) (driver_features_ s)
    (queue_sel_ s) v (config_generation_ s) (queues_ s) (queue_configs_ s) (shm_sel_ s)
    (irq_eventfd_ s) (irq_level_callback_ s) (irq_callback_ s) (irq_line s) (irq_signals s).
Definition set_config_generation (v : Z) (s : Mmio) : Mmio :=
  MkMmio (status_ s) (device_features_sel_ s) (driver_features_sel_ s) (driver_features_ s)
    (queue_sel_ s) (interrupt_status_ s) v (queues_ s) (queue_configs_ s) (shm_sel_ s)
    (irq_eventfd_ s) (irq_level_callback_ s) (irq_callback_ s) (irq_line s) (irq_signals s).
Definition set_queues (v : list VirtQueue) (s : Mmio) : Mmio :=
  MkMmio (status_ s) (device_features_sel_ s) (driver_features_sel_ s) (driver_features_ s)
    (queue_sel_ s) (interrupt_status_ s) (config_generation_ s) v (queue_configs_ s)
    (shm_sel_ s) (irq_eventfd_ s) (irq_level_callback_ s) (irq_callback_ s) (irq_line s)
    (irq_signals s).
Definition set_queue_configs (v : list QueueConfig) (s : Mmio) : Mmio :=
  MkMmio (status_ s) (device_features_sel_ s) (driver_features_sel_ s) (driver_features_ s)
    (queue_sel_ s) (interrupt_status_ s) (config_generation_ s) (queues_ s) v (shm_sel_ s)
    (irq_eventfd_ s) (irq_level_callback_ s) (irq_callback_ s) (irq_line s) (irq_signals s).
Definition set_shm_sel (v : Z) (s : Mmio) : Mmio :=
  MkMmio (status_ s) (device_features_sel_ s) (driver_features_sel_ s) (driver_features_ s)
    (queue_sel_ s) (interrupt_status_ s) (config_generation_ s) (queues_ s) (queue_configs_ s) v
    (irq_eventfd_ s) (irq_level_callback_ s) (irq_callback_ s) (irq_line s) (irq_signals s).
Definition set_irq_line (v : bool) (s : Mmio) : Mmio :=
  MkMmio (status_ s) (device_features_sel_ s) (driver_features_sel_ s) (driver_features_ s)
    (queue_sel_ s) (interrupt_status_ s) (config_generation_ s) (queues_ s) (queue_configs_ s)
    (shm_sel_ s) (irq_eventfd_ s) (irq_level_callback_ s) (irq_callback_ s) v (irq_signals s).
Definition set_irq_signals (v : nat) (s : Mmio) : Mmio :=
  MkMmio (status_ s) (device_features_sel_ s) (driver_features_sel_ s) (driver_features_ s)
    (queue_sel_ s) (interrupt_status_ s) (config_generation_ s) (queues_ s) (queue_configs_ s)
    (shm_sel_ s) (irq_eventfd_ s) (irq_level_callback_ s) (irq_callback_ s) (irq_line s) v.

Definition Mmio_new (eventfd level edge : bool) : Mmio :=
  MkMmio 0 0 0 0 0 0 0 [] [] 0 eventfd level edge false 0.

(** What the transport asks of a device.  The world of a call is the
    transport, the device and guest memory. *)
Class VirtioDeviceOps (D : Type) := {
  GetDeviceId : D -> Z;
  GetDeviceFeatures : D -> Z;
  GetNumQueues : D -> Z;
  GetQueueMaxSize : D -> Z -> Z;
  OnQueueNotify : Z -> Mmio * D * HostMem -> option (Mmio * D * HostMem);
  ReadConfig : D -> Z -> Z -> option (D * Z);
  WriteConfig : D -> Z -> Z -> Z -> D;
  OnStatusChange : Z -> Mmio * D * HostMem -> option (Mmio * D * HostMem)
}.

Definition queue_at (m : Mmio) (i : Z) : VirtQueue := nth (Z.to_nat i) (queues_ m) VirtQueue_new.
Definition config_at (m : Mmio) (i : Z) : QueueConfig :=
  nth (Z.to_nat i) (queue_configs_ m) QueueConfig_new.
Definition set_queue (i : Z) (q : VirtQueue) (m : Mmio) : Mmio :=
  set_queues (<[Z.to_nat i := q]> (queues_ m)) m.
Definition set_config (i : Z) (c : QueueConfig) (m : Mmio) : Mmio :=
  set_queue_configs (<[Z.to_nat i := c]> (queue_configs_ m)) m.
Definition num_queues (m : Mmio) : Z := Z.of_nat (length (queues_ m)).

(** [GetQueue]. *)
Definition GetQueue (m : Mmio) (i : Z) : option VirtQueue :=
  if i <? num_queues m then Some (queue_at m i) else None.

Definition DoReset (m : Mmio) : Mmio :=
  MkMmio 0 0 0 0 0 0 (config_generation_ m) (Reset <$> queues_ m)
    ((fun _ => QueueConfig_new) <$> queue_configs_ m) 0
    (irq_eventfd_ m) (irq_level_callback_ m) (irq_callback_ m) (irq_line m) (irq_signals m).

(** ** Interrupts *)

(** The tail of [NotifyUsedBuffer] and [NotifyConfigChange]. *)
Definition raise_irq (bit : Z) (m : Mmio) : Mmio :=
  let m1 := set_interrupt_status (interrupt_status_ m .| bit) m in
  if irq_eventfd_ m then set_irq_signals (S (irq_signals m)) m1
  else if irq_level_callback_ m then set_irq_line true m1
  else if irq_callback_ m then set_irq_signals (S (irq_signals m)) m1
  else m1.

(** [queue_idx] is [-1] by default. *)
Definition NotifyUsedBuffer (queue_idx : Z) (m : Mmio) (h : HostMem) : option Mmio :=
  if (0 <=? queue_idx) && (queue_idx <? num_queues m) then
    r ← ShouldNotifyGuest (queue_at m queue_idx) h;
    let m1 := set_queue queue_idx (snd r) m in
    if (fst r : bool) then Some (raise_irq 1 m1) else Some m1
  else Some (raise_irq 1 m).

Definition NotifyConfigChange (m : Mmio) : Mmio :=
  raise_irq 2 (set_config_generation (u32 (config_generation_ m + 1)) m).

(** The [InterruptACK] register. *)
Definition ack_irq (val : Z) (m : Mmio) : Mmio :=
  let rest := interrupt_status_ m .& bnot 32 val in
  let m1 := set_interrupt_status rest m in
  if negb (irq_eventfd_ m) && (rest =? 0) && irq_level_callback_ m
  then set_irq_line false m1 else m1.

(** ** Register access *)

Section Transport.
  Context {D : Type} `{VirtioDeviceOps D}.

Definition Init (m : Mmio) (d : D) : Mmio :=
  let n := Z.to_nat (GetNumQueues d) in
  let grow {A} (x : A) (l : list A) := take n l ++ replicate (n - length l) x in
  set_queues (imap (fun i q => Setup (GetQueueMaxSize d (Z.of_nat i)) q)
                (grow VirtQueue_new (queues_ m)))
    (set_queue_configs (grow QueueConfig_new (queue_configs_ m)) m).

(** Writing 1 to [QueueReady]. *)
Definition make_ready (m : Mmio) (d : D) : Mmio :=
  let i := queue_sel_ m in
  let cfg := config_at m i in
  let qs := if num cfg =? 0 then GetQueueMaxSize d i else num cfg in
  set_queue i
    (set_ready true (set_device_gpa (device_addr cfg) (set_driver_gpa (driver_addr cfg)
       (set_desc_gpa (desc_addr cfg) (Setup qs (queue_at m i)))))) m.

Definition sel_config (f : QueueConfig -> QueueConfig) (m : Mmio) : Mmio :=
  if queue_sel_ m <? Z.of_nat (length (queue_configs_ m))
  then set_config (queue_sel_ m) (f (config_at m (queue_sel_ m))) m else m.

(** The registers whose write concerns the transport alone. *)
Definition reg_write (m : Mmio) (d : D) (offset val : Z) : Mmio :=
  if offset =? 0x014 then set_device_features_sel val m
  else if offset =? 0x020 then
    if driver_features_sel_ m =? 0 then set_driver_features (set_lo32 (driver_features_ m) val) m
    else if driver_features_sel_ m =? 1
    then set_driver_features (set_hi32 (driver_features_ m) val) m
    else m
  else if offset =? 0x024 then set_driver_features_sel val m
  else if offset =? 0x030 then set_queue_sel val m
  else if offset =? 0x038 then sel_config (set_num val) m
  else if offset =? 0x044 then
    if queue_sel_ m <? num_queues m then
      if val =? 1 then make_ready m d
      else set_queue (queue_sel_ m) (set_ready false (queue_at m (queue_sel_ m))) m
    else m
  else if offset =? 0x064 then ack_irq val m
  else if offset =? 0x080 then sel_config (fun c => set_desc_addr (set_lo32 (desc_addr c) val) c) m
  else if offset =? 0x084 then sel_config (fun c => set_desc_addr (set_hi32 (desc_addr c) val) c) m
  else if offset =? 0x090 then
    sel_config (fun c => set_driver_addr (set_lo32 (driver_addr c) val) c) m
  else if offset =? 0x094 then
    sel_config (fun c => set_driver_addr (set_hi32 (driver_addr c) val) c) m
  else if offset =? 0x0A0 then
    sel_config (fun c => set_device_addr (set_lo32 (device_addr c) val) c) m
  else if offset =? 0x0A4 then
    sel_config (fun c => set_device_addr (set_hi32 (device_addr c) val) c) m
  else if offset =? 0x0AC then set_shm_sel val m
  else m.

(** Storing a non-zero device status: EVENT_IDX reaches the queues when
    FEATURES_OK is first set. *)
Definition set_status_nonzero (val : Z) (m : Mmio) : Mmio :=
  let m1 := set_status val m in
  if has val 0x8 && negb (has (status_ m) 0x8)
  then set_queues (set_event_idx (has (driver_features_ m) VIRTIO_F_EVENT_IDX) <$> queues_ m1) m1
  else m1.

Definition DispatchQueueNotify (queue_idx : Z) (w : Mmio * D * HostMem)
    : option (Mmio * D * HostMem) :=
  let '(m, d, h) := w in
  if num_queues m <=? queue_idx then Some w
  else if negb (ready_ (queue_at m queue_idx)) then Some w
  else OnQueueNotify queue_idx w.

Definition VirtioMmio_MmioWrite (w : Mmio * D * HostMem) (offset size value : Z)
    : option (Mmio * D * HostMem) :=
  let '(m, d, h) := w in
  let val := u32 value in
  if 0x100 <=? offset then Some (m, WriteConfig d (u32 (offset - 0x100)) size val, h)
  else if offset =? 0x050 then DispatchQueueNotify val w
  else if offset =? 0x070 then
    if val =? 0 then OnStatusChange 0 (DoReset m, d, h)
    else OnStatusChange val (set_status_nonzero val m, d, h)
  else Some (reg_write m d offset val, d, h).

Definition VirtioMmio_MmioRead (w : Mmio * D * HostMem) (offset size : Z)
    : option (Mmio * D * HostMem * Z) :=
  let '(m, d, h) := w in
  if 0x100 <=? offset then
    '(d', v) ← ReadConfig d (u32 (offset - 0x100)) size; Some (m, d', h, v)
  else
    let ret v := Some (m, d, h, v) in
    if offset =? 0x000 then ret kMagic
    else if offset =? 0x004 then ret kVersion
    else if offset =? 0x008 then ret (GetDeviceId d)
    else if offset =? 0x00C then ret kVendorId
    else if offset =? 0x010 then
      let features := GetDeviceFeatures d .| VIRTIO_RING_F_INDIRECT_DESC .| VIRTIO_F_EVENT_IDX in
      let sh := u32 (device_features_sel_ m * 32) in
      if 64 <=? sh then None else ret (u32 (features .>> sh))
    else if offset =? 0x034 then
      ret (if queue_sel_ m <? num_queues m then GetQueueMaxSize d (queue_sel_ m) else 0)
    else if offset =? 0x044 then
      ret (if queue_sel_ m <? num_queues m then b2z (ready_ (queue_at m (queue_sel_ m))) else 0)
    else if offset =? 0x060 then ret (interrupt_status_ m)
    else if offset =? 0x070 then ret (status_ m)
    else if offset =? 0x0FC then ret (config_generation_ m)
    else if (offset =? 0x0B0) || (offset =? 0x0B4) || (offset =? 0x0B8) || (offset =? 0x0BC)
    then ret 0xFFFFFFFF
    else ret 0.

(** ** Invariant *)

(** Every queue has a non-zero size, so that no ring index divides by zero. *)
Definition mmio_ok (m : Mmio) : Prop :=
  length (queue_configs_ m) = length (queues_ m)
  /\ Forall (fun q => queue_size_ q <> 0) (queues_ m).

Lemma mmio_ok_set_queue m i q :
  mmio_ok m -> queue_size_ q <> 0 -> mmio_ok (set_queue i q m).
Proof.
  intros [Hl Hq] Hs. split; cbn; [by rewrite length_insert|]. by apply Forall_insert.
Qed.

Lemma queue_at_size m i : mmio_ok m -> 0 <= i < num_queues m -> queue_size_ (queue_at m i) <> 0.
Proof.
  intros [_ Hq] Hi. unfold queue_at, num_queues in *.
  destruct (lookup_lt_is_Some_2 (queues_ m) (Z.to_nat i)) as [q Hq']; [lia|].
  rewrite (nth_lookup_Some _ _ _ _ Hq'). by eapply (Forall_lookup_1 _ _ _ _ Hq).
Qed.

Lemma sel_config_ok f m : mmio_ok m -> mmio_ok (sel_config f m).
Proof.
  intros [Hl Hq]. unfold sel_config. case_ifs; [|done]. split; cbn; [by rewrite length_insert|done].
Qed.

Lemma sel_config_queues f m : queues_ (sel_config f m) = queues_ m.
Proof. unfold sel_config. by case_ifs. Qed.

Lemma ack_irq_queues v m :
  queues_ (ack_irq v m) = queues_ m /\ queue_configs_ (ack_irq v m) = queue_configs_ m.
Proof. unfold ack_irq. by case_ifs. Qed.

Lemma raise_irq_queues b m :
  queues_ (raise_irq b m) = queues_ m /\ queue_configs_ (raise_irq b m) = queue_configs_ m.
Proof. unfold raise_irq. by case_ifs. Qed.

Lemma ShouldNotify_size q h n q' : ShouldNotifyGuest q h = Some (n, q') -> queue_size_ q' = queue_size_ q.
Proof.
  unfold ShouldNotifyGuest. intros Hn. repeat case_match; simplify_eq; try done.
  - apply bind_Some in Hn as (f & _ & [= <- <-]). done.
  - apply bind_Some in Hn as (i & _ & Hn). apply bind_Some in Hn as (e & _ & [= <- <-]).
    by case_ifs.
Qed.

Lemma NotifyUsedBuffer_ok i m h m' :
  mmio_ok m -> NotifyUsedBuffer i m h = Some m' -> mmio_ok m'.
Proof.
  intros Hm. unfold NotifyUsedBuffer, mmio_ok.
  destruct ((0 <=? i) && (i <? num_queues m)) eqn:E.
  - bool_hyps. intros Hb. apply bind_Some in Hb as ([n q] & Hs & Hb). cbn [fst snd] in Hb.
    apply ShouldNotify_size in Hs.
    assert (Hok : mmio_ok (set_queue i q m)).
    { apply mmio_ok_set_queue; [done|]. rewrite Hs. by apply queue_at_size. }
    destruct n; injection Hb as <-; [|done].
    by destruct (raise_irq_queues 1 (set_queue i q m)) as [-> ->].
  - intros [= <-]. by destruct (raise_irq_queues 1 m) as [-> ->].
Qed.
End Transport.

(** What the transport relies on: positive maximum sizes, and callbacks that
    keep the transport well formed. *)
Class VirtioDeviceLaws (D : Type) `{VirtioDeviceOps D} := {
  law_max_size : forall d i, GetQueueMaxSize d i <> 0;
  law_notify : forall i m d h m' d' h',
    mmio_ok m -> 0 <= i < num_queues m ->
    OnQueueNotify i (m, d, h) = Some (m', d', h') -> mmio_ok m';
  law_status : forall v m d h m' d' h',
    mmio_ok m -> OnStatusChange v (m, d, h) = Some (m', d', h') -> mmio_ok m'
}.

Section Theorems.
  Context {D : Type} `{VirtioDeviceLaws D}.

Lemma reg_write_ok m d o v : mmio_ok m -> 0 <= queue_sel_ m -> mmio_ok (reg_write m d o v).
Proof.
  intros Hm Hq. unfold reg_write.
  repeat match goal with
  | |- mmio_ok (if ?b then _ else _) => destruct b eqn:?
  end; try exact Hm; try (by apply sel_config_ok).
  - unfold make_ready. apply mmio_ok_set_queue; [done|]. cbn.
    case_ifs; [apply law_max_size|by bool_hyps].
  - apply mmio_ok_set_queue; [done|]. cbn. bool_hyps. by apply queue_at_size.
  - unfold mmio_ok. by destruct (ack_irq_queues v m) as [-> ->].
Qed.

(** No guest access can bring a queue to size zero, the divisor of every ring
    index: the transport invariant survives any register write, resets,
    negotiation and notifications included. *)
Theorem MmioWrite_ok m d h offset size value m' d' h' :
  mmio_ok m -> 0 <= queue_sel_ m ->
  VirtioMmio_MmioWrite (m, d, h) offset size value = Some (m', d', h') -> mmio_ok m'.
Proof.
  intros Hm Hq. unfold VirtioMmio_MmioWrite.
  destruct (0x100 <=? offset); [by intros [= <- <- <-]|].
  destruct (offset =? 0x050).
  { unfold DispatchQueueNotify. destruct (Z.leb_spec (num_queues m) (u32 value)); [by intros [= <- <- <-]|].
    case_ifs; [by intros [= <- <- <-]|]. apply law_notify; [done|].
    split; [apply wrap_nonneg; lia|done]. }
  destruct (offset =? 0x070).
  { case_ifs; apply law_status.
    - destruct Hm as [Hl Hs]. split; cbn; [by rewrite !length_fmap|].
      apply Forall_fmap. eapply Forall_impl; [exact Hs|done].
    - unfold set_status_nonzero. destruct Hm as [Hl Hs].
      case_ifs; [|by split]. split; cbn; [by rewrite length_fmap|].
      apply Forall_fmap. eapply Forall_impl; [exact Hs|done]. }
  intros [= <- <- <-]. by apply reg_write_ok.
Qed.

(** ** Programming a queue *)

(** A sequence of register writes that concern the transport alone. *)
Definition reg_writes (m : Mmio) (d : D) (l : list (Z * Z)) : Mmio :=
  fold_left (fun m ov => reg_write m d (fst ov) (snd ov)) l m.

(** The driver's sequence: select, size, three addresses, ready. *)
Definition program_queue (i n desc driver device : Z) : list (Z * Z) :=
  [(0x030, i); (0x038, n); (0x080, lo32 desc); (0x084, hi32 desc);
   (0x090, lo32 driver); (0x094, hi32 driver);
   (0x0A0, lo32 device); (0x0A4, hi32 device); (0x044, 1)].

Lemma sel_config_at f m :
  0 <= queue_sel_ m < Z.of_nat (length (queue_configs_ m)) ->
  sel_config f m = set_config (queue_sel_ m) (f (config_at m (queue_sel_ m))) m.
Proof. intros Hq. unfold sel_config. by destruct (Z.ltb_spec (queue_sel_ m) (Z.of_nat (length (queue_configs_ m)))); [|lia]. Qed.

Lemma config_at_set i c m :
  0 <= i < Z.of_nat (length (queue_configs_ m)) -> config_at (set_config i c m) i = c.
Proof.
  intros Hi. unfold config_at, set_config. cbn. apply nth_lookup_Some, list_lookup_insert_eq. lia.
Qed.

Lemma set_config_twice i c c' m : set_config i c (set_config i c' m) = set_config i c m.
Proof. unfold set_config, set_queue_configs. cbn. by rewrite list_insert_insert_eq. Qed.

Lemma set_config_sel i c m f :
  0 <= i < Z.of_nat (length (queue_configs_ m)) -> queue_sel_ m = i ->
  sel_config f (set_config i c m) = set_config i (f c) m.
Proof.
  intros Hi Hs. rewrite sel_config_at.
  - cbn [queue_sel_ set_config set_queue_configs]. rewrite Hs.
    by rewrite config_at_set, set_config_twice.
  - cbn. rewrite length_insert. by rewrite Hs.
Qed.

Lemma rw_sel m d v : reg_write m d 0x030 v = set_queue_sel v m.
Proof. reflexivity. Qed.
Lemma rw_num m d v : reg_write m d 0x038 v = sel_config (set_num v) m.
Proof. reflexivity. Qed.
Lemma rw_desc_lo m d v : reg_write m d 0x080 v
  = sel_config (fun c => set_desc_addr (set_lo32 (desc_addr c) v) c) m.
Proof. reflexivity. Qed.
Lemma rw_desc_hi m d v : reg_write m d 0x084 v
  = sel_config (fun c => set_desc_addr (set_hi32 (desc_addr c) v) c) m.
Proof. reflexivity. Qed.
Lemma rw_driver_lo m d v : reg_write m d 0x090 v
  = sel_config (fun c => set_driver_addr (set_lo32 (driver_addr c) v) c) m.
Proof. reflexivity. Qed.
Lemma rw_driver_hi m d v : reg_write m d 0x094 v
  = sel_config (fun c => set_driver_addr (set_hi32 (driver_addr c) v) c) m.
Proof. reflexivity. Qed.
Lemma rw_device_lo m d v : reg_write m d 0x0A0 v
  = sel_config (fun c => set_device_addr (set_lo32 (device_addr c) v) c) m.
Proof. reflexivity. Qed.
Lemma rw_device_hi m d v : reg_write m d 0x0A4 v
  = sel_config (fun c => set_device_addr (set_hi32 (device_addr c) v) c) m.
Proof. reflexivity. Qed.
Lemma rw_ready m d : reg_write m d 0x044 1
  = if queue_sel_ m <? num_queues m then make_ready m d else m.
Proof. reflexivity. Qed.

(** Programming a queue takes effect: after the driver's write sequence queue
    [i] is ready, its size is the one written (or the device's maximum if 0
    was), its three ring addresses are exactly the 64-bit values written in
    two halves, it starts at index 0, and no other queue changed. *)
Theorem program_queue_ready m d i n desc driver device :
  mmio_ok m -> 0 <= i < num_queues m -> in_width 32 n ->
  in_width 64 desc -> in_width 64 driver -> in_width 64 device ->
  let m' := reg_writes m d (program_queue i n desc driver device) in
  let q := queue_at m' i in
  ready_ q = true /\ queue_size_ q = (if n =? 0 then GetQueueMaxSize d i else n)
  /\ desc_gpa_ q = desc /\ driver_gpa_ q = driver /\ device_gpa_ q = device
  /\ last_avail_idx_ q = 0
  /\ (forall j, 0 <= j -> j <> i -> queue_at m' j = queue_at m j)
  /\ interrupt_status_ m' = interrupt_status_ m /\ irq_line m' = irq_line m.
Proof.
  intros [Hl Hqs] Hi Hn Hd Ha Hu m' q.
  assert (Hi' : 0 <= i < Z.of_nat (length (queue_configs_ (set_queue_sel i m))))
    by (cbn; unfold num_queues in Hi; lia).
  set (m1 := set_queue_sel i m) in *.
  set (c0 := config_at m1 i).
  set (cfg := MkQueueConfig n desc driver device).
  assert (Em : m' = make_ready (set_config i cfg m1) d).
  { unfold m', reg_writes, program_queue. cbn [fold_left fst snd].
    rewrite rw_sel, rw_num, rw_desc_lo, rw_desc_hi, rw_driver_lo, rw_driver_hi,
      rw_device_lo, rw_device_hi, rw_ready. fold m1.
    rewrite (sel_config_at (set_num n) m1) by done. change (queue_sel_ m1) with i.
    rewrite !set_config_sel by done.
    unfold num_queues. cbn [queue_sel_ queues_ set_config set_queue_configs].
    change (queue_sel_ m1) with i. change (queues_ m1) with (queues_ m).
    fold (num_queues m). destruct (Z.ltb_spec i (num_queues m)); [|lia].
    f_equal. f_equal. fold c0. unfold cfg. destruct c0 as [n0 a0 b0 e0].
    cbn [set_num set_desc_addr set_driver_addr set_device_addr num desc_addr driver_addr
         device_addr].
    rewrite (set_hi_lo_eq a0 desc), (set_hi_lo_eq b0 driver), (set_hi_lo_eq e0 device) by done.
    done. }
  assert (Eq : queue_at m' i = set_ready true (set_device_gpa device (set_driver_gpa driver
       (set_desc_gpa desc (Setup (if n =? 0 then GetQueueMaxSize d i else n) (queue_at m i)))))).
  { rewrite Em. unfold make_ready. cbn [queue_sel_ set_config set_queue_configs].
    change (queue_sel_ m1) with i. rewrite config_at_set by done.
    unfold queue_at at 1, set_queue. cbn [queues_ set_queues].
    apply nth_lookup_Some, list_lookup_insert_eq.
    cbn. unfold num_queues in Hi. lia. }
  unfold q. rewrite Eq. do 6 (split; [done|]). clearbody m'. subst m'. split; [|done].
  intros j Hj Hne. unfold make_ready, queue_at, set_queue. cbn.
  rewrite !nth_lookup, list_lookup_insert_ne; [done|lia].
Qed.

(** ** Feature bits *)

(** The guest reads the device's features through two 32-bit windows: they
    reassemble to the device's 64 feature bits with INDIRECT_DESC and
    EVENT_IDX added; any further window is undefined behaviour (a shift by 64
    or more) unless the selector is a multiple of [2^27] away. *)
Theorem feature_windows m d h :
  in_width 64 (GetDeviceFeatures d) ->
  exists lo hi,
    VirtioMmio_MmioRead (set_device_features_sel 0 m, d, h) 0x010 4
      = Some (set_device_features_sel 0 m, d, h, lo)
    /\ VirtioMmio_MmioRead (set_device_features_sel 1 m, d, h) 0x010 4
      = Some (set_device_features_sel 1 m, d, h, hi)
    /\ set_hi32 lo hi = GetDeviceFeatures d .| VIRTIO_RING_F_INDIRECT_DESC .| VIRTIO_F_EVENT_IDX
    /\ (forall s, 2 <= s < 2 ^ 27 ->
          VirtioMmio_MmioRead (set_device_features_sel s m, d, h) 0x010 4 = None).
Proof.
  intros Hf. set (f := GetDeviceFeatures d .| VIRTIO_RING_F_INDIRECT_DESC .| VIRTIO_F_EVENT_IDX).
  assert (Hw : in_width 64 f).
  { apply in_width_lor; [lia| |by vm_compute].
    apply in_width_lor; [lia|done|by vm_compute]. }
  exists (lo32 f), (hi32 f). split; [|split; [|split]].
  - cbn -[Z.shiftr Z.lor]. fold f. change (u32 0) with 0. cbn [Z.leb].
    by rewrite Z.shiftr_0_r.
  - cbn -[Z.shiftr Z.lor]. fold f. by change (u32 32) with 32.
  - rewrite <- (set_hi_lo_eq 0 f Hw) at 3. unfold set_hi32, set_lo32.
    by rewrite Z.land_0_l, Z.lor_0_l.
  - intros s Hs. cbn -[Z.shiftr Z.lor]. fold f.
    change (2 ^ 27) with 134217728 in Hs.
    rewrite wrap_small by (unfold in_width; change (2 ^ 32) with 4294967296; lia).
    destruct (Z.leb_spec 64 (s * 32)); [done|lia].
Qed.

(** ** The interrupt line *)

(** In level mode the line shows whether an interrupt is pending. *)
Definition level_ok (m : Mmio) : Prop :=
  irq_level_callback_ m = true -> irq_eventfd_ m = false ->
  irq_line m = negb (interrupt_status_ m =? 0).

Lemma lor_pos_nonzero a b : 0 <= a -> 0 < b -> (a .| b =? 0) = false.
Proof. intros Ha Hb. apply Z.eqb_neq. intros E. apply Z.lor_eq_0_iff in E. lia. Qed.

Lemma raise_irq_mode b m :
  irq_level_callback_ (raise_irq b m) = irq_level_callback_ m
  /\ irq_eventfd_ (raise_irq b m) = irq_eventfd_ m.
Proof. unfold raise_irq. case_ifs; cbn; split; congruence. Qed.

Lemma ack_irq_mode v m :
  irq_level_callback_ (ack_irq v m) = irq_level_callback_ m
  /\ irq_eventfd_ (ack_irq v m) = irq_eventfd_ m.
Proof. unfold ack_irq. by case_ifs. Qed.

Lemma raise_level_ok b m : 0 < b -> 0 <= interrupt_status_ m -> level_ok (raise_irq b m).
Proof.
  intros Hb Hs. unfold level_ok. destruct (raise_irq_mode b m) as [-> ->]. intros E1 E2.
  unfold raise_irq. rewrite E1, E2. cbn. by rewrite lor_pos_nonzero.
Qed.

Lemma ack_level_ok v m : level_ok m -> level_ok (ack_irq v m).
Proof.
  intros Hm. unfold level_ok. destruct (ack_irq_mode v m) as [-> ->]. intros E1 E2.
  unfold ack_irq. rewrite E1, E2. cbn [negb andb]. rewrite andb_true_r.
  destruct (interrupt_status_ m .& bnot 32 v =? 0) eqn:E; cbn; rewrite E; [done|].
  rewrite (Hm E1 E2). apply negb_true_iff. apply Z.eqb_neq. intros E0.
  by rewrite E0, Z.land_0_l in E.
Qed.

Lemma level_ok_same m m' :
  irq_line m' = irq_line m -> interrupt_status_ m' = interrupt_status_ m ->
  irq_level_callback_ m' = irq_level_callback_ m -> irq_eventfd_ m' = irq_eventfd_ m ->
  level_ok m -> level_ok m'.
Proof. unfold level_ok. by intros -> -> -> ->. Qed.

Lemma reg_write_level_ok m d o v : level_ok m -> level_ok (reg_write m d o v).
Proof.
  intros Hm. unfold reg_write, sel_config.
  repeat match goal with
  | |- level_ok (if ?b then _ else _) => destruct b
  end; try exact Hm; try (by apply ack_level_ok); by apply (level_ok_same m).
Qed.

(** Used-buffer and configuration notifications, acknowledgements and every
    register write except a status write keep the line equal to "some
    interrupt is pending"; but a device reset clears the pending bits without
    lowering the line, so a reset with an interrupt pending leaves the line
    asserted with nothing for the guest to acknowledge. *)
Theorem interrupt_line_tracks_status m d h :
  level_ok m -> 0 <= interrupt_status_ m ->
  (forall i m', NotifyUsedBuffer i m h = Some m' -> level_ok m')
  /\ level_ok (NotifyConfigChange m)
  /\ (forall o v, level_ok (reg_write m d o v))
  /\ (irq_level_callback_ m = true -> irq_eventfd_ m = false -> interrupt_status_ m <> 0 ->
        irq_line (DoReset m) = true /\ interrupt_status_ (DoReset m) = 0
        /\ ~ level_ok (DoReset m)).
Proof.
  intros Hm Hs. split; [|split; [|split]].
  - intros i m'. unfold NotifyUsedBuffer. case_ifs.
    + intros Hb. apply bind_Some in Hb as ([n q] & _ & Hb). cbn [fst snd] in Hb.
      destruct n; injection Hb as <-; [by apply raise_level_ok|by apply (level_ok_same m)].
    + intros [= <-]. by apply raise_level_ok.
  - by apply raise_level_ok.
  - intros o v. by apply reg_write_level_ok.
  - intros H1 H2 H3. assert (El : irq_line (DoReset m) = true).
    { cbn. rewrite (Hm H1 H2). by apply negb_true_iff, Z.eqb_neq. }
    split; [done|]. split; [done|]. intros Hok. specialize (Hok H1 H2). cbn in Hok.
    cbn in El. congruence.
Qed.
End Theorems.
