(* ===== verification/DiskImage.v ===== *)
(** * Host files and the disk-image interface

    [core/disk/disk_image.{h,cpp}] and [core/disk/raw_image.{h,cpp}].

    A [FILE*] opened "r+b" is a byte store with a length; [f_limit] is how far
    the file system lets it grow (a write past it is short) and [f_flush_ok]
    whether [fflush] succeeds.  Offsets of [2^63] and above are negative for
    [fseeko] and fail.  [DiskImage] is the virtual interface of the same name;
    [DiskImageLaws] states what its users rely on: a disk is a byte array. *)

From S2P Require Import Prelude.

Record HostFile := MkHostFile {
  f_data : store;
  f_len : Z;
  f_limit : Z;
  f_flush_ok : bool
}.

Definition fseek_ok (off : Z) : bool := (0 <=? off) && (off <? 2 ^ 63).

(** [fread] of [n] bytes at [off]: the bytes up to the end of the file. *)
Definition fread_at (f : HostFile) (off n : Z) : list Z :=
  peek (f_data f) off (Z.max 0 (Z.min n (f_len f - off))).

(** [fwrite] at [off]: how many bytes fit, and the file after. *)
Definition fwrite_at (f : HostFile) (off : Z) (l : list Z) : HostFile * Z :=
  let n := Z.max 0 (Z.min (Z.of_nat (length l)) (f_limit f - off)) in
  (MkHostFile (poke (f_data f) off (take (Z.to_nat n) l))
     (if 0 <? n then Z.max (f_len f) (off + n) else f_len f) (f_limit f) (f_flush_ok f), n).

(** The interface.  [Read] also returns the bytes it stored in the front of
    the caller's buffer, which a failed read may have written in part. *)
Class DiskImage (I : Type) := {
  GetSize : I -> Z;
  Read : I -> Z -> Z -> I * bool * list Z;
  Write : I -> Z -> list Z -> I * bool;
  Flush : I -> I * bool;
  Discard : I -> Z -> Z -> I * bool;
  WriteZeros : I -> Z -> Z -> I * bool
}.

(** The default of the base class. *)
Definition default_Discard {I} (d : I) (offset len : Z) : I * bool := (d, true).

(** Overlaying the bytes of a write. *)
Definition overlay (c : Z -> Z) (off : Z) (l : list Z) (x : Z) : Z :=
  if (off <=? x) && (x <? off + Z.of_nat (length l)) then nth (Z.to_nat (x - off)) l 0 else c x.

Definition contents (c : Z -> Z) (off n : Z) : list Z := c <$> seqZ off n.

Class DiskImageLaws (I : Type) `{DiskImage I} := {
  disk_ok : I -> Prop;
  content : I -> Z -> Z;
  law_size : forall d, disk_ok d -> 0 <= GetSize d < 2 ^ 63;
  law_read_bytes : forall d off n d' ok l,
    disk_ok d -> 0 <= off < 2 ^ 64 -> 0 <= n < 2 ^ 63 -> Read d off n = (d', ok, l) ->
    disk_ok d' /\ (forall x, content d' x = content d x) /\ GetSize d' = GetSize d
    /\ (ok = true -> l = contents (content d) off n)
    /\ (off + n <= GetSize d -> ok = true);
  law_write_bytes : forall d off l d',
    disk_ok d -> 0 <= off < 2 ^ 64 -> Z.of_nat (length l) < 2 ^ 63 ->
    Write d off l = (d', true) ->
    disk_ok d' /\ GetSize d' = GetSize d /\ off + Z.of_nat (length l) <= GetSize d
    /\ (forall x, content d' x = overlay (content d) off l x);
  law_zero_bytes : forall d off n d',
    disk_ok d -> 0 <= off < 2 ^ 64 -> 0 <= n < 2 ^ 63 -> WriteZeros d off n = (d', true) ->
    disk_ok d' /\ GetSize d' = GetSize d
    /\ (forall x, content d' x = if (off <=? x) && (x <? off + n) then 0 else content d x)
}.

(** Reading back what was written. *)
Lemma contents_overlay c off l : contents (overlay c off l) off (Z.of_nat (length l)) = l.
Proof.
  apply list_eq. intros i. unfold contents. rewrite list_lookup_fmap.
  destruct (decide (i < length l)%nat) as [Hi|Hi].
  - rewrite lookup_seqZ_lt by lia. cbn. destruct (lookup_lt_is_Some_2 l i Hi) as [x Hx].
    rewrite Hx. f_equal. unfold overlay.
    rewrite (proj2 (Z.leb_le _ _)), (proj2 (Z.ltb_lt _ _)) by lia. cbn [andb].
    replace (Z.to_nat (off + Z.of_nat i - off)) with i by lia. by apply nth_lookup_Some.
  - rewrite lookup_seqZ_ge by lia. cbn. symmetry. apply lookup_ge_None. lia.
Qed.

Lemma contents_overlay_disjoint c off l b n :
  b + n <= off \/ off + Z.of_nat (length l) <= b ->
  contents (overlay c off l) b n = contents c b n.
Proof.
  intros Hd. unfold contents. apply list_fmap_ext. intros i x Hx.
  apply lookup_seqZ in Hx as [-> Hi]. unfold overlay. case_ifs; [|done]. bool_hyps. lia.
Qed.

(** ** Raw images *)

Record RawDiskImage := MkRaw { raw_file : HostFile; disk_size_ : Z }.

(** [Open], after [fopen] and the lock succeeded. *)
Definition Raw_Open (f : HostFile) : option RawDiskImage :=
  if f_len f <? 512 then None else Some (MkRaw f (f_len f)).

Definition Raw_Read (d : RawDiskImage) (off len : Z) : RawDiskImage * bool * list Z :=
  if disk_size_ d <? u64 (off + len) then (d, false, [])
  else if negb (fseek_ok off) then (d, false, [])
  else let l := fread_at (raw_file d) off len in (d, Z.of_nat (length l) =? len, l).

Definition Raw_Write (d : RawDiskImage) (off : Z) (l : list Z) : RawDiskImage * bool :=
  let len := Z.of_nat (length l) in
  if disk_size_ d <? u64 (off + len) then (d, false)
  else if negb (fseek_ok off) then (d, false)
  else let '(f, n) := fwrite_at (raw_file d) off l in (MkRaw f (disk_size_ d), n =? len).

Definition Raw_Flush (d : RawDiskImage) : RawDiskImage * bool := (d, f_flush_ok (raw_file d)).

(** The loop of [WriteZeros]: chunks of 4096 zero bytes at the file position
    [pos]; [fuel] bounds the iterations. *)
Fixpoint zero_chunks (fuel : nat) (f : HostFile) (pos len : Z) : option (HostFile * bool) :=
  match fuel with
  | O => None
  | S fuel =>
      if 0 <? len then
        let chunk := if len <? 4096 then len else 4096 in
        let '(f', n) := fwrite_at f pos (replicate (Z.to_nat chunk) 0) in
        if n =? chunk then zero_chunks fuel f' (pos + chunk) (len - chunk) else Some (f', false)
      else Some (f, true)
  end.

Definition Raw_WriteZeros (d : RawDiskImage) (off len : Z) : RawDiskImage * bool :=
  if disk_size_ d <? u64 (off + len) then (d, false)
  else if negb (fseek_ok off) then (d, false)
  else match zero_chunks (S (Z.to_nat (len / 4096 + 1))) (raw_file d) off len with
       | Some (f, ok) => (MkRaw f (disk_size_ d), ok)
       | None => (d, false)
       end.

#[export] Instance Raw_DiskImage : DiskImage RawDiskImage := {
  GetSize := disk_size_;
  Read := Raw_Read;
  Write := Raw_Write;
  Flush := Raw_Flush;
  Discard := default_Discard;
  WriteZeros := Raw_WriteZeros
}.

(** [DiskImage::Create] looks at the first four bytes. *)
Inductive ImageFormat := FormatQcow2 | FormatRaw.

Definition DetectFormat (f : HostFile) : option ImageFormat :=
  let l := fread_at f 0 4 in
  if Z.of_nat (length l) =? 4 then
    let magic := le_val l in
    let magic_be := (magic .>> 24) .| ((magic .>> 8) .& 0xFF00)
                    .| ((magic .<< 8) .& 0xFF0000) .| u32 (magic .<< 24) in
    Some (if magic_be =? 0x514649FB then FormatQcow2 else FormatRaw)
  else None.

(** ** Raw images are byte arrays *)

Definition raw_ok (d : RawDiskImage) : Prop :=
  0 <= disk_size_ d < 2 ^ 63 /\ disk_size_ d <= f_len (raw_file d)
  /\ f_len (raw_file d) <= f_limit (raw_file d).

Definition raw_content (d : RawDiskImage) (x : Z) : Z := get8 (f_data (raw_file d)) x.

Lemma get8_poke s a l x : get8 (poke s a l) x = overlay (get8 s) a l x.
Proof.
  unfold overlay. case_ifs.
  - bool_hyps. destruct (lookup_lt_is_Some_2 l (Z.to_nat (x - a))) as [b Hb]; [lia|].
    rewrite (nth_lookup_Some _ _ _ _ Hb). by apply get8_poke_in.
  - apply get8_poke_out. apply andb_false_iff in E as [E|E]; bool_hyps; lia.
Qed.

Lemma peek_contents s off n : peek s off n = contents (get8 s) off n.
Proof. reflexivity. Qed.

Lemma fwrite_full f off l :
  0 <= off -> off + Z.of_nat (length l) <= f_limit f ->
  fwrite_at f off l
  = (MkHostFile (poke (f_data f) off l)
       (if 0 <? Z.of_nat (length l) then Z.max (f_len f) (off + Z.of_nat (length l)) else f_len f)
       (f_limit f) (f_flush_ok f), Z.of_nat (length l)).
Proof.
  intros H0 Hl. unfold fwrite_at.
  replace (Z.max 0 (Z.min (Z.of_nat (length l)) (f_limit f - off))) with (Z.of_nat (length l)) by lia.
  rewrite Nat2Z.id, firstn_all. done.
Qed.

Lemma zero_chunks_spec n : forall fuel f pos len,
  0 <= pos -> 0 <= len -> pos + len <= f_limit f ->
  len <= 4096 * Z.of_nat n -> (n < fuel)%nat ->
  exists f', zero_chunks fuel f pos len = Some (f', true)
    /\ f_limit f' = f_limit f /\ f_len f' = (if 0 <? len then Z.max (f_len f) (pos + len) else f_len f)
    /\ (forall x, get8 (f_data f') x
          = if (pos <=? x) && (x <? pos + len) then 0 else get8 (f_data f) x).
Proof.
  induction n as [|n IH]; intros [|fuel] f pos len Hp Hl Hlim Hn Hf; try lia.
  - cbn [zero_chunks]. destruct (Z.ltb_spec 0 len); [lia|]. exists f.
    repeat split; try done. intros x. case_ifs; [|done]. bool_hyps. lia.
  - cbn [zero_chunks]. destruct (Z.ltb_spec 0 len) as [Hpos|].
    2: { exists f. repeat split; try done. intros x. case_ifs; [|done]. bool_hyps. lia. }
    set (chunk := if len <? 4096 then len else 4096).
    assert (Hc : 0 < chunk <= len /\ (chunk = len \/ chunk = 4096))
      by (unfold chunk; destruct (Z.ltb_spec len 4096); lia).
    rewrite fwrite_full by (rewrite ?length_replicate; lia).
    rewrite length_replicate, Z2Nat.id, Z.eqb_refl by lia.
    set (f1 := MkHostFile _ _ _ _).
    destruct (IH fuel f1 (pos + chunk) (len - chunk)) as (f' & E & E1 & E2 & E3);
      [lia|lia|cbn; lia|lia|lia|].
    exists f'. rewrite E. split; [done|]. split; [done|]. split.
    + rewrite E2. unfold f1; cbn [f_len]. destruct (Z.ltb_spec 0 chunk); [|lia].
      destruct (Z.ltb_spec 0 (len - chunk)); lia.
    + intros x. rewrite E3. unfold f1; cbn [f_data]. rewrite get8_poke.
      unfold overlay. rewrite length_replicate, Z2Nat.id by lia.
      destruct ((pos <=? x) && (x <? pos + len)) eqn:Ex.
      * bool_hyps. case_ifs; try done.
        -- rewrite nth_lookup. destruct (_ !! _) eqn:Er; [|done]. apply lookup_replicate in Er as [-> _]. done.
        -- apply andb_false_iff in E0 as [E0|E0]; apply andb_false_iff in E4 as [E4|E4]; bool_hyps; lia.
      * case_ifs; try done; bool_hyps; apply andb_false_iff in Ex as [Ex|Ex]; bool_hyps; lia.
Qed.

Section RawLaws.
  Context (d : RawDiskImage) (Hd : raw_ok d).

Lemma raw_range off n :
  0 <= off -> 0 <= n -> off + n <= disk_size_ d ->
  (disk_size_ d <? u64 (off + n)) = false /\ fseek_ok off = true.
Proof.
  intros Ho Hn Hr. destruct Hd as (H1 & _). change (2 ^ 63) with 9223372036854775808 in *.
  rewrite wrap_small by (unfold in_width; change (2 ^ 64) with 18446744073709551616; lia).
  split; [by apply Z.ltb_ge|]. unfold fseek_ok. change (2 ^ 63) with 9223372036854775808.
  rewrite (proj2 (Z.leb_le _ _)), (proj2 (Z.ltb_lt _ _)) by lia. done.
Qed.

(** An access beyond the end, even one whose end wraps modulo [2^64], fails:
    the wrapped sum only passes for offsets that [fseeko] refuses. *)
Lemma raw_range_conv off n :
  0 <= off < 2 ^ 64 -> 0 <= n < 2 ^ 63 ->
  (disk_size_ d <? u64 (off + n)) = false -> fseek_ok off = true -> off + n <= disk_size_ d.
Proof.
  intros Ho Hn H1 H2. apply Z.ltb_ge in H1. unfold fseek_ok in H2.
  change (2 ^ 63) with 9223372036854775808 in *. bool_hyps.
  rewrite wrap_small in H1; [done|]. unfold in_width. change (2 ^ 64) with 18446744073709551616. lia.
Qed.
End RawLaws.

#[export] Instance Raw_DiskImageLaws : DiskImageLaws RawDiskImage.
Proof.
  refine {| disk_ok := raw_ok; content := raw_content |}.
  - intros d Hd. apply Hd.
  - intros d off n d' ok l Hd Ho Hn. cbn. unfold Raw_Read.
    destruct (disk_size_ d <? u64 (off + n)) eqn:E1.
    { intros [= <- <- <-].
      refine (conj Hd (conj (fun _ => eq_refl) (conj eq_refl (conj _ _)))); [done|]. intros Hr.
      apply (raw_range d Hd) in Hr as [Hr _]; [congruence|lia|lia]. }
    destruct (fseek_ok off) eqn:E2; cbn [negb].
    2: { intros [= <- <- <-].
         refine (conj Hd (conj (fun _ => eq_refl) (conj eq_refl (conj _ _)))); [done|]. intros Hr.
         apply (raw_range d Hd) in Hr as [_ Hr]; [congruence|lia|lia]. }
    pose proof (raw_range_conv d off n Ho Hn E1 E2) as Hr. pose proof Hd as (Hs & Hl & _).
    unfold fread_at. replace (Z.max 0 (Z.min n (f_len (raw_file d) - off))) with n by lia.
    rewrite length_peek, Z2Nat.id, Z.eqb_refl by lia. intros [= <- <- <-].
    exact (conj Hd (conj (fun _ => eq_refl) (conj eq_refl (conj (fun _ => eq_refl) (fun _ => eq_refl))))).
  - intros d off l d' Hd Ho Hn. cbn. unfold Raw_Write.
    destruct (disk_size_ d <? u64 _) eqn:E1; [done|].
    destruct (fseek_ok off) eqn:E2; cbn [negb]; [|done].
    pose proof (raw_range_conv d off _ Ho (conj (Nat2Z.is_nonneg _) Hn) E1 E2) as Hr.
    pose proof Hd as (Hs & Hl & Hlim).
    rewrite fwrite_full by lia. intros [= <-]. cbn.
    split; [|split; [done|split; [done|intros x; apply get8_poke]]].
    split; [done|]. cbn. case_ifs; bool_hyps; lia.
  - intros d off n d' Hd Ho Hn. cbn. unfold Raw_WriteZeros.
    destruct (disk_size_ d <? u64 _) eqn:E1; [done|].
    destruct (fseek_ok off) eqn:E2; cbn [negb]; [|done].
    pose proof (raw_range_conv d off n Ho Hn E1 E2) as Hr.
    pose proof Hd as (Hs & Hl & Hlim).
    destruct (zero_chunks_spec (Z.to_nat (n / 4096 + 1)) (S (Z.to_nat (n / 4096 + 1)))
      (raw_file d) off n) as (f' & -> & E3 & E4 & E5); try lia.
    { rewrite Z2Nat.id by dlia. dlia. }
    intros [= <-]. cbn. split; [|split; [done|exact E5]].
    split; [done|]. cbn. rewrite E3, E4. case_ifs; bool_hyps; lia.
Defined.

(** C38. A raw image is a byte array: within its size a write succeeds and then
    reads of any range see exactly the written bytes where they overlap it
    and the old ones elsewhere; zeroing a range (in 4096-byte chunks) does the
    same with zeros; an access that does not fit fails and changes nothing,
    also when offset plus length wraps around [2^64]. *)
Theorem raw_image_array d off l b n :
  raw_ok d -> 0 <= off < 2 ^ 64 -> Z.of_nat (length l) < 2 ^ 63 -> 0 <= b -> 0 <= n ->
  b + n <= disk_size_ d ->
  (off + Z.of_nat (length l) <= disk_size_ d ->
     exists d', Raw_Write d off l = (d', true)
       /\ Raw_Read d' b n = (d', true, contents (overlay (raw_content d) off l) b n))
  /\ (off + Z.of_nat (length l) <= disk_size_ d ->
     exists d', Raw_WriteZeros d off (Z.of_nat (length l)) = (d', true)
       /\ Raw_Read d' b n
          = (d', true, contents (overlay (raw_content d) off (replicate (length l) 0)) b n))
  /\ (disk_size_ d < off + Z.of_nat (length l) ->
     Raw_Write d off l = (d, false) /\ Raw_WriteZeros d off (Z.of_nat (length l)) = (d, false)
     /\ Raw_Read d off (Z.of_nat (length l)) = (d, false, [])).
Proof.
  intros Hd Ho Hll Hb Hn Hbn. pose proof Hd as (Hs & Hl & Hlim).
  assert (Hread : forall d' (c : Z -> Z), raw_ok d' -> disk_size_ d' = disk_size_ d ->
            (forall x, raw_content d' x = c x) ->
            Raw_Read d' b n = (d', true, contents c b n)).
  { intros d' c Hd' Hsz Hc. destruct (Raw_Read d' b n) as [[d2 ok] l2] eqn:E.
    assert (E0 := E). unfold Raw_Read in E0.
    assert (d2 = d') as -> by (revert E0; case_ifs; congruence).
    assert (Hb64 : 0 <= b < 2 ^ 64 /\ 0 <= n < 2 ^ 63).
    { change (2 ^ 63) with 9223372036854775808 in *.
      change (2 ^ 64) with 18446744073709551616. lia. }
    pose proof (law_read_bytes d' b n d' ok l2 Hd' (proj1 Hb64) (proj2 Hb64) E) as (_ & _ & _ & Hok & Ht).
    specialize (Ht ltac:(cbn; lia)). rewrite Ht, (Hok Ht). f_equal.
    unfold contents. apply list_fmap_ext. intros i x _. apply Hc. }
  split; [|split].
  - intros Hr. destruct (raw_range d Hd off _ (proj1 Ho) (Nat2Z.is_nonneg (length l)) Hr) as [E1 E2].
    unfold Raw_Write. rewrite E1, E2. cbn [negb]. rewrite fwrite_full by lia. rewrite Z.eqb_refl.
    eexists. split; [done|]. apply Hread; [|done|].
    + split; [done|]. cbn. case_ifs; bool_hyps; lia.
    + intros x. apply get8_poke.
  - intros Hr. destruct (raw_range d Hd off _ (proj1 Ho) (Nat2Z.is_nonneg (length l)) Hr) as [E1 E2].
    destruct (Raw_WriteZeros d off (Z.of_nat (length l))) as [d' ok] eqn:E.
    assert (Hok : ok = true).
    { revert E. unfold Raw_WriteZeros. rewrite E1, E2. cbn [negb].
      destruct (zero_chunks_spec (Z.to_nat (Z.of_nat (length l) / 4096 + 1))
        (S (Z.to_nat (Z.of_nat (length l) / 4096 + 1))) (raw_file d) off (Z.of_nat (length l)))
        as (f' & -> & _); [lia|lia|lia|rewrite Z2Nat.id by dlia; dlia|lia|].
      by intros [= _ <-]. }
    subst ok. exists d'. split; [done|].
    change (WriteZeros d off (Z.of_nat (length l)) = (d', true)) in E.
    pose proof (law_zero_bytes d off (Z.of_nat (length l)) d' Hd Ho (conj (Nat2Z.is_nonneg _) Hll) E)
      as (Hd' & Hsz & Hc).
    apply Hread; [done|done|]. intros x. change (raw_content d') with (content d').
    rewrite Hc. unfold overlay. rewrite length_replicate. case_ifs; [|done].
    rewrite nth_lookup. destruct (_ !! _) eqn:Er; [|done]. apply lookup_replicate in Er as [-> _]. done.
  - intros Hr.
    assert (Hor : (disk_size_ d <? u64 (off + Z.of_nat (length l))) = true \/ fseek_ok off = false).
    { destruct (disk_size_ d <? u64 (off + Z.of_nat (length l))) eqn:E1; [by left|]. right.
      destruct (fseek_ok off) eqn:E2; [|done]. exfalso.
      pose proof (raw_range_conv d off _ Ho (conj (Nat2Z.is_nonneg _) Hll) E1 E2). lia. }
    unfold Raw_Write, Raw_WriteZeros, Raw_Read.
    destruct Hor as [->| ->]; [done|]. case_ifs; done.
Qed.

Definition demo_raw : RawDiskImage := MkRaw (MkHostFile ∅ 8192 8192 true) 8192.

Lemma raw_image_array_witness :
  exists d', Raw_Write demo_raw 510 [1; 2; 3] = (d', true)
    /\ Raw_Read d' 509 5 = (d', true, [0; 1; 2; 3; 0]).
Proof.
  destruct (raw_image_array demo_raw 510 [1; 2; 3] 509 5) as (H & _).
  - repeat split; vm_compute; discriminate.
  - split; vm_compute; [discriminate|reflexivity].
  - vm_compute. reflexivity.
  - lia.
  - lia.
  - vm_compute. discriminate.
  - destruct H as (d' & H1 & H2); [vm_compute; discriminate|].
    exists d'. split; [exact H1|]. rewrite H2. vm_compute. reflexivity.
Defined.
