(* ===== verification/VirtioBlk.v ===== *)
(** * The virtio block device

    [core/device/virtio/virtio_blk.{h,cpp}] over any [DiskImage].  A request
    is parsed on the notifying thread and queued as a [BlkTask] for the disk
    worker ([core/disk/disk_worker]), which runs the tasks in order; [RunTask]
    is the body of the queued closure.  [None] is undefined behaviour (an
    access outside guest RAM, or past a host buffer). *)

From S2P Require Import Prelude.
From S2P Require Import GuestMem.
From S2P Require Import VirtQueue.
From S2P Require Import VirtioMmio.
From S2P Require Import DiskImage.

Definition VIRTIO_BLK_T_IN : Z := 0.
Definition VIRTIO_BLK_T_OUT : Z := 1.
Definition VIRTIO_BLK_T_FLUSH : Z := 4.
Definition VIRTIO_BLK_T_GET_ID : Z := 8.
Definition VIRTIO_BLK_T_DISCARD : Z := 11.
Definition VIRTIO_BLK_T_WRITE_ZEROES : Z := 13.
Definition VIRTIO_BLK_S_OK : Z := 0.
Definition VIRTIO_BLK_S_IOERR : Z := 1.
Definition VIRTIO_BLK_S_UNSUPP : Z := 2.

(** [VirtioBlkReqHeader] without its reserved word. *)
Record ReqHeader := MkHdr { r_type : Z; r_sector : Z }.

(** What the closure captures. *)
Record BlkTask := MkTask {
  t_head : Z;
  t_queue : Z;
  t_status : Z;
  t_hdr : ReqHeader;
  t_segs : list VirtqChainElem
}.

Record VirtioBlkDevice (I : Type) := MkBlk {
  disk_ : I;
  blk_config_ : list Z;       (* the bytes of [VirtioBlkConfig] *)
  num_queues_ : Z;
  is_qcow2_ : bool;
  mmio_set : bool;
  tasks : list BlkTask        (* the worker's queue *)
}.
Arguments MkBlk {I}.
Arguments disk_ {I}.
Arguments blk_config_ {I}.
Arguments num_queues_ {I}.
Arguments is_qcow2_ {I}.
Arguments mmio_set {I}.
Arguments tasks {I}.

Definition set_disk {I} (x : I) (d : VirtioBlkDevice I) : VirtioBlkDevice I :=
  MkBlk x (blk_config_ d) (num_queues_ d) (is_qcow2_ d) (mmio_set d) (tasks d).
Definition set_tasks {I} (t : list BlkTask) (d : VirtioBlkDevice I) : VirtioBlkDevice I :=
  MkBlk (disk_ d) (blk_config_ d) (num_queues_ d) (is_qcow2_ d) (mmio_set d) t.

(** The packed [VirtioBlkConfig] that [Open] fills in. *)
Definition blk_config (disk_size num_queues : Z) (qcow2 : bool) : list Z :=
  let total := disk_size / 512 in
  let max_sectors := if 0xFFFFFFFF <? total then 0xFFFFFFFF else total in
  le_bytes 8 total ++ le_bytes 4 (1 .<< 20) ++ le_bytes 4 254 ++ le_bytes 4 0
  ++ le_bytes 4 512 ++ le_bytes 8 0 ++ le_bytes 2 0 ++ le_bytes 2 num_queues
  ++ le_bytes 4 max_sectors ++ le_bytes 4 1 ++ le_bytes 4 1
  ++ le_bytes 4 max_sectors ++ le_bytes 4 1 ++ le_bytes 1 (b2z qcow2) ++ le_bytes 3 0.

Section Blk.
  Context {I : Type} `{DiskImage I}.

(** [Open] once the image is open; [qcow2] is the test on the path's suffix. *)
Definition Open (d : VirtioBlkDevice I) (image : I) (qcow2 : bool) : VirtioBlkDevice I :=
  MkBlk image (blk_config (GetSize image) (num_queues_ d) qcow2) (num_queues_ d) qcow2
    (mmio_set d) (tasks d).

Definition Blk_Features (d : VirtioBlkDevice I) : Z :=
  let features := (1 .<< 1) .| (1 .<< 2) .| (1 .<< 6) .| (1 .<< 9) .| (1 .<< 12)
                  .| (1 .<< 14) .| (1 .<< 32) in
  if is_qcow2_ d then features .| (1 .<< 13) else features.

(** The [memcpy] goes into a 4-byte variable. *)
Definition Blk_ReadConfig (d : VirtioBlkDevice I) (offset size : Z)
    : option (VirtioBlkDevice I * Z) :=
  let cfg_size := Z.of_nat (length (blk_config_ d)) in
  if cfg_size <=? offset then Some (d, 0)
  else
    let read_size := Z.min size (cfg_size - offset) in
    if 4 <? read_size then None
    else Some (d, le_val (take (Z.to_nat read_size) (drop (Z.to_nat offset) (blk_config_ d)))).

Definition SubmitRequest (d : VirtioBlkDevice I) (q : VirtQueue) (h : HostMem)
    (head_idx queue_idx : Z) : option (VirtioBlkDevice I) :=
  r ← WalkChain q h head_idx;
  let '(ok, chain) := (r : bool * list VirtqChainElem) in
  if negb ok then Some d
  else if (length chain <? 2)%nat then Some d
  else
    let hdr_elem := nth 0 chain (MkElem 0 0 false) in
    if e_len hdr_elem <? 16 then Some d
    else
      ty ← hm_load 4 h (e_addr hdr_elem);
      _ ← hm_load 4 h (e_addr hdr_elem + 4);
      sector ← hm_load 8 h (e_addr hdr_elem + 8);
      let status_elem := nth (length chain - 1) chain (MkElem 0 0 false) in
      if negb (e_writable status_elem) || (e_len status_elem <? 1) then Some d
      else
        let segments := take (length chain - 2) (drop 1 chain) in
        Some (set_tasks (tasks d ++ [MkTask head_idx queue_idx (e_addr status_elem)
                                       (MkHdr ty sector) segments]) d).

(** The [while (vq.PopAvail(&head))] loop; the queue is the transport's. *)
Fixpoint notify_loop (fuel : nat) (i : Z) (w : Mmio * VirtioBlkDevice I * HostMem)
    : option (Mmio * VirtioBlkDevice I * HostMem) :=
  match fuel with
  | O => None
  | S fuel =>
      let '(m, d, h) := w in
      r ← PopAvail (queue_at m i) h;
      let '(o, q1, h1) := (r : option Z * VirtQueue * HostMem) in
      let m1 := set_queue i q1 m in
      match o with
      | None => Some (m1, d, h1)
      | Some head =>
          d1 ← SubmitRequest d q1 h1 head i;
          notify_loop fuel i (m1, d1, h1)
      end
  end.

Definition kPopFuel : nat := Z.to_nat 65536.

Definition Blk_OnQueueNotify (i : Z) (w : Mmio * VirtioBlkDevice I * HostMem)
    : option (Mmio * VirtioBlkDevice I * HostMem) :=
  if num_queues_ (snd (fst w)) <=? i then Some w else notify_loop kPopFuel i w.

(** ** The worker's side *)

(** The state of the two data loops: image, RAM, status, byte offset and
    [total_data_len]. *)
Record Xfer := MkXfer { x_disk : I; x_mem : HostMem; x_status : Z; x_off : Z; x_total : Z }.

(** [VIRTIO_BLK_T_IN]: device-writable segments are filled in order. *)
Fixpoint do_in (segs : list VirtqChainElem) (x : Xfer) : option Xfer :=
  match segs with
  | [] => Some x
  | s :: segs =>
      if negb (e_writable s) then do_in segs x
      else
        let '(img, ok, l) := Read (x_disk x) (x_off x) (e_len s) in
        h ← hm_write (x_mem x) (e_addr s) l;
        if negb ok then Some (MkXfer img h VIRTIO_BLK_S_IOERR (x_off x) (x_total x))
        else do_in segs (MkXfer img h (x_status x) (u64 (x_off x + e_len s))
                           (u32 (x_total x + e_len s)))
  end.

(** [VIRTIO_BLK_T_OUT]: device-readable segments are written in order.  (A
    segment that leaves RAM counts as undefined behaviour even if the image
    would have refused the range first.) *)
Fixpoint do_out (segs : list VirtqChainElem) (x : Xfer) : option Xfer :=
  match segs with
  | [] => Some x
  | s :: segs =>
      if e_writable s then do_out segs x
      else
        l ← hm_read (x_mem x) (e_addr s) (e_len s);
        let '(img, ok) := Write (x_disk x) (x_off x) l in
        if negb ok then Some (MkXfer img (x_mem x) VIRTIO_BLK_S_IOERR (x_off x) (x_total x))
        else do_out segs (MkXfer img (x_mem x) (x_status x) (u64 (x_off x + e_len s))
                            (u32 (x_total x + e_len s)))
  end.

(** The characters of "tenbox-vblk". *)
Definition id_str : list Z :=
  [0x74; 0x65; 0x6e; 0x62; 0x6f; 0x78; 0x2d; 0x76; 0x62; 0x6c; 0x6b].

Fixpoint do_get_id (segs : list VirtqChainElem) (x : Xfer) : option Xfer :=
  match segs with
  | [] => Some x
  | s :: segs =>
      if negb (e_writable s) then do_get_id segs x
      else
        let copy_len := Z.min (e_len s) 20 in
        h1 ← hm_write (x_mem x) (e_addr s) (replicate (Z.to_nat (e_len s)) 0);
        h2 ← hm_write h1 (e_addr s) (take (Z.to_nat (Z.min copy_len 11)) id_str);
        do_get_id segs (MkXfer (x_disk x) h2 (x_status x) (x_off x) (u32 (x_total x + e_len s)))
  end.

(** DISCARD and WRITE_ZEROES: the range is in the first segment. *)
Definition do_range (op : I -> Z -> Z -> I * bool) (segs : list VirtqChainElem) (x : Xfer)
    : option Xfer :=
  match segs with
  | [] => Some x
  | s :: _ =>
      if 16 <=? e_len s then
        sector ← hm_load 8 (x_mem x) (e_addr s);
        n ← hm_load 4 (x_mem x) (e_addr s + 8);
        _ ← hm_load 4 (x_mem x) (e_addr s + 12);
        let '(img, ok) := op (x_disk x) (u64 (sector * 512)) (u64 (n * 512)) in
        Some (MkXfer img (x_mem x) (if ok then x_status x else VIRTIO_BLK_S_IOERR)
                (x_off x) (x_total x))
      else Some (MkXfer (x_disk x) (x_mem x) VIRTIO_BLK_S_IOERR (x_off x) (x_total x))
  end.

Definition do_request (t : BlkTask) (img : I) (h : HostMem) : option Xfer :=
  let x := MkXfer img h VIRTIO_BLK_S_OK (u64 (r_sector (t_hdr t) * 512)) 0 in
  let ty := r_type (t_hdr t) in
  if ty =? VIRTIO_BLK_T_IN then do_in (t_segs t) x
  else if ty =? VIRTIO_BLK_T_OUT then do_out (t_segs t) x
  else if ty =? VIRTIO_BLK_T_FLUSH then
    let '(img', ok) := Flush img in
    Some (MkXfer img' h (if ok then VIRTIO_BLK_S_OK else VIRTIO_BLK_S_IOERR) (x_off x) 0)
  else if ty =? VIRTIO_BLK_T_GET_ID then do_get_id (t_segs t) x
  else if ty =? VIRTIO_BLK_T_DISCARD then do_range Discard (t_segs t) x
  else if ty =? VIRTIO_BLK_T_WRITE_ZEROES then do_range WriteZeros (t_segs t) x
  else Some (MkXfer img h VIRTIO_BLK_S_UNSUPP (x_off x) 0).

(** The whole closure: the request, the status byte, the used ring entry and
    the interrupt. *)
Definition RunTask (t : BlkTask) (w : Mmio * VirtioBlkDevice I * HostMem)
    : option (Mmio * VirtioBlkDevice I * HostMem) :=
  let '(m, d, h) := w in
  x ← do_request t (disk_ d) h;
  h1 ← hm_write (x_mem x) (t_status t) [x_status x];
  h2 ← PushUsed (queue_at m (t_queue t)) h1 (t_head t) (u32 (x_total x + 1));
  m1 ← (if mmio_set d then NotifyUsedBuffer (t_queue t) m h2 else Some m);
  Some (m1, set_disk (x_disk x) d, h2).

(** The worker takes tasks in order of submission. *)
Fixpoint run_tasks (ts : list BlkTask) (w : Mmio * VirtioBlkDevice I * HostMem)
    : option (Mmio * VirtioBlkDevice I * HostMem) :=
  match ts with
  | [] => Some w
  | t :: ts => w1 ← RunTask t w; run_tasks ts w1
  end.

(** One batch of [DiskWorker::Run]. *)
Definition Worker (w : Mmio * VirtioBlkDevice I * HostMem)
    : option (Mmio * VirtioBlkDevice I * HostMem) :=
  let '(m, d, h) := w in run_tasks (tasks d) (m, set_tasks [] d, h).

#[export] Instance Blk_VirtioDeviceOps : VirtioDeviceOps (VirtioBlkDevice I) := {
  GetDeviceId := fun _ => 2;
  GetDeviceFeatures := Blk_Features;
  GetNumQueues := num_queues_;
  GetQueueMaxSize := fun _ _ => 256;
  OnQueueNotify := Blk_OnQueueNotify;
  ReadConfig := Blk_ReadConfig;
  WriteConfig := fun d _ _ _ => d;
  OnStatusChange := fun _ w => Some w
}.
End Blk.

(** ** The device keeps the transport's rules *)

Section Proofs.
  Context {I : Type} `{DiskImageLaws I}.

Lemma PopAvail_size q h o q' h' : PopAvail q h = Some (o, q', h') -> queue_size_ q' = queue_size_ q.
Proof.
  unfold PopAvail. intros Hp. apply bind_Some in Hp as (b & _ & Hp).
  destruct b; cbn [negb] in Hp; [|by simplify_eq].
  destruct (AvailRing q h) as [ring|]; [|by simplify_eq].
  destruct (queue_size_ q =? 0); [done|]. apply bind_Some in Hp as (head & _ & Hp).
  destruct (event_idx_ q); [|by simplify_eq].
  apply bind_Some in Hp as (h1 & _ & Hp). by simplify_eq.
Qed.

Lemma notify_loop_ok fuel i m (d : VirtioBlkDevice I) h m' d' h' :
  mmio_ok m -> 0 <= i < num_queues m ->
  notify_loop fuel i (m, d, h) = Some (m', d', h') -> mmio_ok m'.
Proof.
  revert m d h. induction fuel as [|fuel IH]; intros m d h Hm Hi; [done|]. cbn [notify_loop].
  intros Hn. apply bind_Some in Hn as ([[o q1] h1] & Hp & Hn).
  apply PopAvail_size in Hp.
  assert (Hm1 : mmio_ok (set_queue i q1 m)).
  { apply mmio_ok_set_queue; [done|]. rewrite Hp. by apply queue_at_size. }
  destruct o as [head|]; [|by simplify_eq].
  apply bind_Some in Hn as (d1 & _ & Hn). eapply IH; [exact Hm1| |exact Hn].
  unfold num_queues, set_queue. cbn. by rewrite length_insert.
Qed.

#[export] Instance Blk_VirtioDeviceLaws : VirtioDeviceLaws (VirtioBlkDevice I).
Proof.
  constructor.
  - done.
  - intros i m d h m' d' h' Hm Hi. cbn. unfold Blk_OnQueueNotify. cbn [fst snd].
    case_ifs; [by intros [= <- <- <-]|]. by apply notify_loop_ok.
  - by intros v m d h m' d' h' Hm [= <- <- <-].
Qed.

(** ** Data transfer *)

(** The device-readable (writable) segments' bytes, in order. *)
Fixpoint gathered (w : bool) (segs : list VirtqChainElem) (h : HostMem) : list Z :=
  match segs with
  | [] => []
  | s :: segs =>
      (if Bool.eqb (e_writable s) w then peek (hm_bytes h) (e_addr s) (e_len s) else [])
      ++ gathered w segs h
  end.

Definition segs_ok (segs : list VirtqChainElem) : Prop := Forall (fun s => in_width 32 (e_len s)) segs.

Fixpoint total_len (w : bool) (segs : list VirtqChainElem) : Z :=
  match segs with
  | [] => 0
  | s :: segs => (if Bool.eqb (e_writable s) w then e_len s else 0) + total_len w segs
  end.

Lemma total_len_nonneg w segs : segs_ok segs -> 0 <= total_len w segs.
Proof.
  induction 1 as [|s segs Hl _ IH]; cbn [total_len]; [lia|]. unfold in_width in Hl.
  destruct (Bool.eqb _ _); lia.
Qed.

Lemma length_gathered w segs h :
  segs_ok segs -> Z.of_nat (length (gathered w segs h)) = total_len w segs.
Proof.
  induction 1 as [|s segs Hl _ IH]; cbn [total_len gathered]; [done|]. unfold in_width in Hl.
  rewrite length_app, Nat2Z.inj_add, IH.
  destruct (Bool.eqb _ _); [|done]. rewrite length_peek. lia.
Qed.

Lemma overlay_app c off l1 l2 x :
  overlay (overlay c off l1) (off + Z.of_nat (length l1)) l2 x = overlay c off (l1 ++ l2) x.
Proof.
  unfold overlay. rewrite length_app, Nat2Z.inj_add.
  destruct (Z.leb_spec off x), (Z.ltb_spec x (off + Z.of_nat (length l1))),
    (Z.leb_spec (off + Z.of_nat (length l1)) x),
    (Z.ltb_spec x (off + Z.of_nat (length l1) + Z.of_nat (length l2))),
    (Z.ltb_spec x (off + (Z.of_nat (length l1) + Z.of_nat (length l2))));
    cbn [andb]; try lia; try done.
  all: first [ by rewrite app_nth1 by lia | rewrite app_nth2 by lia; f_equal; lia ].
Qed.

Lemma overlay_ext c c' off l z :
  (forall x, c x = c' x) -> overlay c off l z = overlay c' off l z.
Proof. intros Hc. unfold overlay. by rewrite Hc. Qed.

Lemma overlay_nil c off x : overlay c off [] x = c x.
Proof. unfold overlay. case_ifs; [|done]. bool_hyps. cbn [length] in *. lia. Qed.

Lemma do_out_ok segs (x x' : Xfer (I := I)) :
  segs_ok segs -> disk_ok (x_disk x) -> in_width 64 (x_off x) -> x_off x <= GetSize (x_disk x) ->
  do_out segs x = Some x' -> x_status x = 0 -> x_status x' = 0 ->
  disk_ok (x_disk x') /\ GetSize (x_disk x') = GetSize (x_disk x) /\ x_mem x' = x_mem x
  /\ x_off x + total_len false segs <= GetSize (x_disk x)
  /\ (forall z, content (x_disk x') z
        = overlay (content (x_disk x)) (x_off x) (gathered false segs (x_mem x)) z).
Proof.
  intros Hs. revert x. induction Hs as [|s segs Hlen Hs IH]; intros x Hd Ho Hle Hx Hz0 Hz1.
  { injection Hx as <-. simpl. split; [done|]. split; [done|]. split; [done|]. split; [lia|].
    intros z. by rewrite overlay_nil. }
  cbn [do_out gathered total_len] in *. destruct (e_writable s) eqn:Ew; cbn [Bool.eqb].
  { rewrite Z.add_0_l. by apply IH. }
  apply bind_Some in Hx as (l & Hl & Hx). destruct (Write (x_disk x) (x_off x) l) as [img ok] eqn:Ewr.
  destruct ok; cbn [negb] in Hx; [|injection Hx as <-; done].
  unfold hm_read in Hl. destruct (_ && _) eqn:Er; [|done]. injection Hl as El. bool_hyps.
  assert (Hll : Z.of_nat (length l) = e_len s).
  { rewrite <- El, length_peek. unfold in_width in Hlen. lia. }
  assert (Hl63 : Z.of_nat (length l) < 2 ^ 63).
  { rewrite Hll. unfold in_width in Hlen. change (2 ^ 32) with 4294967296 in Hlen.
    change (2 ^ 63) with 9223372036854775808. lia. }
  pose proof (law_write_bytes _ _ _ _ Hd Ho Hl63 Ewr) as (Hd' & Hsz & Hfit & Hc).
  pose proof (law_size _ Hd) as Hsize. rewrite Hll in Hfit.
  assert (Hoff : u64 (x_off x + e_len s) = x_off x + e_len s).
  { apply wrap_small. unfold in_width in *. change (2 ^ 64) with 18446744073709551616.
    change (2 ^ 63) with 9223372036854775808 in *. lia. }
  apply IH in Hx as (I1 & I2 & I3 & I4 & I5);
    [|done|cbn; apply wrap_in_width; lia|cbn; rewrite Hoff, Hsz; lia|done|done]. cbn [x_disk x_off x_mem] in *. rewrite Hoff in *.
  split; [done|]. split; [congruence|]. split; [done|]. split; [lia|].
  intros z. rewrite I5, El, <- overlay_app, Hll. by apply overlay_ext.
Qed.

(** The writable segments do not overlap. *)
Fixpoint segs_apart (segs : list VirtqChainElem) : Prop :=
  match segs with
  | [] => True
  | s :: segs =>
      (e_writable s = true ->
         Forall (fun s' => e_writable s' = true ->
           e_addr s + e_len s <= e_addr s' \/ e_addr s' + e_len s' <= e_addr s) segs)
      /\ segs_apart segs
  end.

Lemma do_in_frame segs x x' a n :
  segs_ok segs -> disk_ok (x_disk x) -> in_width 64 (x_off x) ->
  Forall (fun s' => e_writable s' = true -> a + n <= e_addr s' \/ e_addr s' + e_len s' <= a) segs ->
  x_off x + total_len true segs <= GetSize (x_disk x) ->
  do_in segs x = Some x' -> peek (hm_bytes (x_mem x')) a n = peek (hm_bytes (x_mem x)) a n.
Proof.
  intros Hs. revert x. induction Hs as [|s segs Hlen Hs IH]; intros x Hd Ho Hf Hfit Hx.
  { by injection Hx as <-. }
  apply Forall_cons in Hf as [Hf1 Hf]. cbn [do_in total_len] in *.
  destruct (e_writable s) eqn:Ew; cbn [Bool.eqb negb] in *; [|by apply IH].
  pose proof (total_len_nonneg true segs Hs) as Htl. pose proof (law_size _ Hd) as Hsize.
  unfold in_width in Hlen, Ho. change (2 ^ 32) with 4294967296 in Hlen.
  change (2 ^ 63) with 9223372036854775808 in Hsize.
  destruct (Read (x_disk x) (x_off x) (e_len s)) as [[img ok] l] eqn:Erd.
  pose proof (law_read_bytes _ _ (e_len s) _ _ _ Hd Ho
    ltac:(change (2 ^ 63) with 9223372036854775808; lia) Erd) as (Hd' & Hc & Hsz & Hok & Ht).
  assert (Eok : ok = true) by (apply Ht; lia). specialize (Hok Eok). rewrite Eok in Hx.
  apply bind_Some in Hx as (h & Hw & Hx). cbn [negb] in Hx.
  assert (Hoff : u64 (x_off x + e_len s) = x_off x + e_len s).
  { apply wrap_small. unfold in_width. change (2 ^ 64) with 18446744073709551616. lia. }
  apply IH in Hx;
    [|done|cbn; apply wrap_in_width; lia|done|cbn; rewrite Hoff, Hsz; lia].
  rewrite Hx. cbn [x_mem]. unfold hm_write in Hw. destruct (_ && _); [|done]. injection Hw as <-. cbn.
  apply peek_poke_disjoint. rewrite Hok. unfold contents.
  rewrite length_fmap, length_seqZ. specialize (Hf1 eq_refl). lia.
Qed.

Lemma do_in_ok segs (x x' : Xfer (I := I)) :
  segs_ok segs -> segs_apart segs -> disk_ok (x_disk x) -> in_width 64 (x_off x) ->
  x_off x + total_len true segs <= GetSize (x_disk x) ->
  do_in segs x = Some x' ->
  x_status x' = x_status x
  /\ gathered true segs (x_mem x') = contents (content (x_disk x)) (x_off x) (total_len true segs)
  /\ (forall z, content (x_disk x') z = content (x_disk x) z).
Proof.
  intros Hs. revert x. induction Hs as [|s segs Hlen Hs IH]; intros x Hap Hd Ho Hfit Hx.
  { by injection Hx as <-. }
  destruct Hap as [Hap1 Hap]. cbn [do_in gathered total_len] in *.
  destruct (e_writable s) eqn:Ew; cbn [Bool.eqb negb] in *; [|by apply IH].
  pose proof (total_len_nonneg true segs Hs) as Htl. pose proof (law_size _ Hd) as Hsize.
  pose proof Hlen as Hlen'. unfold in_width in Hlen', Ho.
  change (2 ^ 32) with 4294967296 in Hlen'. change (2 ^ 63) with 9223372036854775808 in Hsize.
  destruct (Read (x_disk x) (x_off x) (e_len s)) as [[img ok] l] eqn:Erd.
  pose proof (law_read_bytes _ _ (e_len s) _ _ _ Hd Ho
    ltac:(change (2 ^ 63) with 9223372036854775808; lia) Erd) as (Hd' & Hc & Hsz & Hok & Ht).
  assert (Eok : ok = true) by (apply Ht; lia). specialize (Hok Eok). rewrite Eok in Hx.
  apply bind_Some in Hx as (h & Hw & Hx). cbn [negb] in Hx.
  assert (Hoff : u64 (x_off x + e_len s) = x_off x + e_len s).
  { apply wrap_small. unfold in_width. change (2 ^ 64) with 18446744073709551616. lia. }
  pose proof Hx as Hx'.
  apply IH in Hx as (I1 & I2 & I3); [|done|done|cbn; apply wrap_in_width; lia|cbn; rewrite Hoff, Hsz; lia].
  cbn [x_disk x_off x_mem x_status] in *. split; [done|]. split.
  - rewrite I2, Hoff.
    eapply (do_in_frame _ _ _ (e_addr s) (e_len s)) in Hx';
      [|done|done|cbn; apply wrap_in_width; lia|by apply Hap1|cbn; rewrite Hoff, Hsz; lia].
    rewrite Hx'. cbn [x_mem]. unfold hm_write in Hw. destruct (_ && _); [|done].
    injection Hw as <-. cbn. replace (e_len s) with (Z.of_nat (length l)) at 1.
    2: { rewrite Hok. unfold contents. rewrite length_fmap, length_seqZ. lia. }
    rewrite peek_poke_same, Hok. unfold contents. rewrite seqZ_app by lia.
    rewrite fmap_app. f_equal. apply list_fmap_ext. intros i z _. apply Hc.
  - intros z. rewrite I3. apply Hc.
Qed.

(** C2. End-to-end write then read: if a write request completed with status OK,
    a later read request of the same sectors (through whatever buffers, in
    whatever segmentation) also succeeds and leaves in the guest's buffers
    exactly the bytes the write took from the guest's buffers. *)
Theorem blk_write_read t1 t2 img h1 h2 x1 x2 :
  r_type (t_hdr t1) = VIRTIO_BLK_T_OUT -> r_type (t_hdr t2) = VIRTIO_BLK_T_IN ->
  r_sector (t_hdr t2) = r_sector (t_hdr t1) ->
  segs_ok (t_segs t1) -> segs_ok (t_segs t2) -> segs_apart (t_segs t2) ->
  total_len true (t_segs t2) = total_len false (t_segs t1) ->
  disk_ok img -> u64 (r_sector (t_hdr t1) * 512) <= GetSize img ->
  do_request t1 img h1 = Some x1 -> x_status x1 = VIRTIO_BLK_S_OK ->
  do_request t2 (x_disk x1) h2 = Some x2 ->
  x_status x2 = VIRTIO_BLK_S_OK
  /\ gathered true (t_segs t2) (x_mem x2) = gathered false (t_segs t1) h1.
Proof.
  intros Ht1 Ht2 Hsec Hs1 Hs2 Hap Htot Hd Hin Hr1 Hst1 Hr2.
  unfold do_request in *. rewrite Ht1 in Hr1. rewrite Ht2 in Hr2. cbn in Hr1, Hr2.
  rewrite Hsec in Hr2. set (off := u64 (r_sector (t_hdr t1) * 512)) in *.
  assert (Ho : in_width 64 off) by (apply wrap_in_width; lia).
  apply do_out_ok in Hr1 as (O1 & O2 & O3 & O4 & O5); try done. cbn [x_disk x_off x_mem] in *.
  apply do_in_ok in Hr2 as (I1 & I2 & I3); try done.
  2: { cbn. rewrite O2, Htot. exact O4. }
  split; [done|]. rewrite I2. cbn [x_disk x_off].
  rewrite Htot. rewrite <- (length_gathered false _ h1) by done.
  rewrite <- (contents_overlay (content img) off (gathered false (t_segs t1) h1)) at 2.
  unfold contents. apply list_fmap_ext. intros i z _. apply O5.
Qed.

(** ** Completion *)

Lemma do_in_map segs (x x' : Xfer (I := I)) : do_in segs x = Some x' -> hm_map (x_mem x') = hm_map (x_mem x).
Proof.
  revert x. induction segs as [|s segs IH]; intros x Hx; cbn [do_in] in Hx; [by injection Hx as <-|].
  destruct (negb (e_writable s)); [by apply IH|].
  destruct (Read _ _ _) as [[img ok] l]. apply bind_Some in Hx as (h & Hw & Hx).
  apply hm_write_map in Hw. destruct (negb ok); [by injection Hx as <-|].
  apply IH in Hx. cbn in Hx. congruence.
Qed.

Lemma do_out_map segs (x x' : Xfer (I := I)) : do_out segs x = Some x' -> x_mem x' = x_mem x.
Proof.
  revert x. induction segs as [|s segs IH]; intros x Hx; cbn [do_out] in Hx; [by injection Hx as <-|].
  destruct (e_writable s); [by apply IH|]. apply bind_Some in Hx as (l & _ & Hx).
  destruct (Write _ _ _) as [img ok]. destruct (negb ok); [by injection Hx as <-|].
  by apply IH in Hx.
Qed.

Lemma do_get_id_map segs (x x' : Xfer (I := I)) :
  do_get_id segs x = Some x' ->
  hm_map (x_mem x') = hm_map (x_mem x) /\ x_status x' = x_status x /\ x_disk x' = x_disk x.
Proof.
  revert x. induction segs as [|s segs IH]; intros x Hx; cbn [do_get_id] in Hx;
    [by injection Hx as <-|].
  destruct (negb (e_writable s)); [by apply IH|].
  apply bind_Some in Hx as (h1 & Hw1 & Hx). apply bind_Some in Hx as (h2 & Hw2 & Hx).
  apply hm_write_map in Hw1. apply hm_write_map in Hw2. apply IH in Hx as (-> & -> & ->).
  cbn. split; [congruence|done].
Qed.

Definition valid_status (v : Z) : Prop :=
  v = VIRTIO_BLK_S_OK \/ v = VIRTIO_BLK_S_IOERR \/ v = VIRTIO_BLK_S_UNSUPP.

Lemma do_in_status segs (x x' : Xfer (I := I)) :
  valid_status (x_status x) -> do_in segs x = Some x' -> valid_status (x_status x').
Proof.
  revert x. induction segs as [|s segs IH]; intros x Hv Hx; cbn [do_in] in Hx;
    [by injection Hx as <-|].
  destruct (negb (e_writable s)); [by eapply IH|].
  destruct (Read _ _ _) as [[img ok] l]. apply bind_Some in Hx as (h & _ & Hx).
  destruct (negb ok); [injection Hx as <-; right; by left|by eapply IH in Hx].
Qed.

Lemma do_out_status segs (x x' : Xfer (I := I)) :
  valid_status (x_status x) -> do_out segs x = Some x' -> valid_status (x_status x').
Proof.
  revert x. induction segs as [|s segs IH]; intros x Hv Hx; cbn [do_out] in Hx;
    [by injection Hx as <-|].
  destruct (e_writable s); [by eapply IH|]. apply bind_Some in Hx as (l & _ & Hx).
  destruct (Write _ _ _) as [img ok].
  destruct (negb ok); [injection Hx as <-; right; by left|by eapply IH in Hx].
Qed.

Lemma do_range_props op segs (x x' : Xfer (I := I)) :
  valid_status (x_status x) -> do_range op segs x = Some x' ->
  valid_status (x_status x') /\ x_mem x' = x_mem x.
Proof.
  intros Hv Hx. destruct segs as [|s segs]; cbn [do_range] in Hx; [by injection Hx as <-|].
  destruct (16 <=? e_len s); [|injection Hx as <-; split; [right; by left|done]].
  apply bind_Some in Hx as (a & _ & Hx). apply bind_Some in Hx as (b & _ & Hx).
  apply bind_Some in Hx as (c & _ & Hx). destruct (op _ _ _) as [img ok].
  injection Hx as <-. cbn. split; [|done]. destruct ok; [done|right; by left].
Qed.

Lemma do_request_props t (img : I) h x :
  do_request t img h = Some x -> valid_status (x_status x) /\ hm_map (x_mem x) = hm_map h.
Proof.
  unfold do_request. assert (H00 : valid_status 0) by by left.
  repeat match goal with |- (if ?b then _ else _) = _ -> _ => destruct b end; intros Hx.
  - split; [by eapply do_in_status in Hx|by apply do_in_map in Hx].
  - split; [by eapply do_out_status in Hx|]. apply do_out_map in Hx. by rewrite Hx.
  - destruct (Flush img) as [img' ok]. injection Hx as <-. split; [|done].
    destruct ok; [by left|right; by left].
  - apply do_get_id_map in Hx as (-> & -> & _). by split; [left|].
  - apply do_range_props in Hx as [? ->]; [by split|done].
  - apply do_range_props in Hx as [? ->]; [by split|done].
  - injection Hx as <-. split; [right; by right|done].
Qed.

(** C35. Every task that runs completes its request exactly once: one used-ring
    entry, in the next slot, carrying the request's head and the number of
    bytes it reports, and the used index moves by one; the status byte in
    guest memory is one of OK, IOERR, UNSUPP (it is the value the request
    produced, unless the guest put it inside the used ring). *)
Theorem RunTask_completes t m (d : VirtioBlkDevice I) h m' d' h' avail used :
  ring_layout (queue_at m (t_queue t)) h avail used -> in_width 32 (t_head t) ->
  (t_status t + 1 <= used \/ used + 4 + 8 * queue_size_ (queue_at m (t_queue t)) <= t_status t) ->
  RunTask t (m, d, h) = Some (m', d', h') ->
  exists x, do_request t (disk_ d) h = Some x /\ disk_ d' = x_disk x
  /\ valid_status (x_status x)
  /\ hm_read h' (t_status t) 1 = Some [x_status x]
  /\ exists h1, hm_write (x_mem x) (t_status t) [x_status x] = Some h1
     /\ used_idx h' used = u16 (used_idx h1 used + 1)
     /\ used_slot (queue_at m (t_queue t)) h' used
          (used_idx h1 used mod queue_size_ (queue_at m (t_queue t)))
        = (t_head t, u32 (x_total x + 1)).
Proof.
  intros Hlay Hhead Hst Hrun. cbn [RunTask] in Hrun.
  apply bind_Some in Hrun as (x & Hx & Hrun). apply bind_Some in Hrun as (h1 & Hh1 & Hrun).
  apply bind_Some in Hrun as (h2 & Hh2 & Hrun). apply bind_Some in Hrun as (m1 & _ & [= <- <- <-]).
  destruct (do_request_props _ _ _ _ Hx) as [Hv Hmap].
  exists x. split; [done|]. split; [done|]. split; [done|].
  assert (Hlay1 : ring_layout (queue_at m (t_queue t)) h1 avail used).
  { eapply same_ring_layout; [exact Hlay|apply same_ring_refl|].
    apply hm_write_map in Hh1. congruence. }
  destruct (PushUsed_spec _ h1 avail used (t_head t) (u32 (x_total x + 1)) Hlay1 Hhead)
    as (h3 & Hp & Hslot & Hidx & _ & _ & Hframe); [apply wrap_in_width; lia|].
  assert (h3 = h2) as -> by congruence. split.
  - rewrite Hframe; [|lia|destruct Hst; [by left|right; lia]].
    by apply hm_read_write_same in Hh1.
  - exists h1. by split.
Qed.

(** ** Out-of-range sectors and configuration reads *)

(** The byte offset [sector * 512] is computed modulo [2^64] and the capacity
    is checked on the result: a request for sector [s + k * 2^55] is served,
    successfully or not, as a request for sector [s]. *)
Theorem blk_sector_wraps t (img : I) h k :
  do_request (MkTask (t_head t) (t_queue t) (t_status t)
                (MkHdr (r_type (t_hdr t)) (r_sector (t_hdr t) + k * 2 ^ 55)) (t_segs t)) img h
  = do_request t img h.
Proof.
  unfold do_request. cbn [t_hdr r_sector r_type t_segs].
  replace (u64 ((r_sector (t_hdr t) + k * 2 ^ 55) * 512)) with (u64 (r_sector (t_hdr t) * 512));
    [done|].
  unfold wrap. rewrite Z.mul_add_distr_r.
  replace (k * 2 ^ 55 * 512) with (k * 2 ^ 64); [by rewrite Z_mod_plus_full|].
  rewrite <- Z.mul_assoc. by change (2 ^ 55 * 512) with (2 ^ 64).
Qed.

(** Configuration space: a guest read of up to four bytes inside the 60-byte
    configuration returns its little-endian bytes (the capacity in sectors
    first); an 8-byte read copies eight bytes into the caller's 4-byte
    variable, except within the last four bytes. *)
Theorem blk_config_read (d : VirtioBlkDevice I) (img : I) qcow2 offset size :
  0 <= offset < 60 -> 0 <= size -> 0 <= GetSize img -> GetSize img / 512 < 2 ^ 64 ->
  let d1 := Open d img qcow2 in
  (size <= 4 -> Blk_ReadConfig d1 offset size
     = Some (d1, le_val (take (Z.to_nat size) (drop (Z.to_nat offset) (blk_config_ d1)))))
  /\ (4 < size -> offset < 56 -> Blk_ReadConfig d1 offset size = None)
  /\ (exists lo hi, Blk_ReadConfig d1 0 4 = Some (d1, lo) /\ Blk_ReadConfig d1 4 4 = Some (d1, hi)
      /\ lo + 2 ^ 32 * hi = GetSize img / 512).
Proof.
  intros Ho Hsz Hg Hcap d1.
  assert (Hlen : length (blk_config_ d1) = 60%nat).
  { unfold d1, Open, blk_config. cbn [blk_config_]. rewrite !length_app, !length_le_bytes. done. }
  assert (Hmin : take (Z.to_nat (Z.min size (60 - offset))) (drop (Z.to_nat offset) (blk_config_ d1))
                 = take (Z.to_nat size) (drop (Z.to_nat offset) (blk_config_ d1))).
  { destruct (decide (size <= 60 - offset)); [by rewrite Z.min_l by lia|].
    rewrite Z.min_r by lia. rewrite !take_ge; [done| |]; rewrite length_drop, Hlen; lia. }
  unfold Blk_ReadConfig. rewrite Hlen. change (Z.of_nat 60) with 60.
  split; [|split].
  - intros Hs4. destruct (Z.leb_spec 60 offset); [lia|].
    destruct (Z.ltb_spec 4 (Z.min size (60 - offset))); [lia|]. by rewrite Hmin.
  - intros Hs4 Hof. destruct (Z.leb_spec 60 offset); [lia|].
    destruct (Z.ltb_spec 4 (Z.min size (60 - offset))); [done|lia].
  - do 2 eexists. split; [reflexivity|]. split; [reflexivity|].
    set (c := GetSize img / 512) in *. unfold d1, Open, blk_config. fold c. cbn [blk_config_].
    assert (Hc : 0 <= c) by (apply Z.div_pos; lia).
    generalize (if 4294967295 <? c then 4294967295 else c) as mx. intros mx.
    generalize (le_bytes 4 (1 .<< 20) ++ le_bytes 4 254 ++ le_bytes 4 0
      ++ le_bytes 4 512 ++ le_bytes 8 0 ++ le_bytes 2 0 ++ le_bytes 2 (num_queues_ d)
      ++ le_bytes 4 mx ++ le_bytes 4 1 ++ le_bytes 4 1
      ++ le_bytes 4 mx ++ le_bytes 4 1 ++ le_bytes 1 (b2z qcow2) ++ le_bytes 3 0) as r.
    intros r. change (Z.to_nat 0) with 0%nat. change (Z.to_nat (Z.min 4 (60 - 0))) with 4%nat.
    change (Z.to_nat 4) with 4%nat. change (Z.to_nat (Z.min 4 (60 - 4))) with 4%nat.
    pose proof (le_val_le_bytes 8 c) as E. rewrite Z.mod_small in E by (change (256 ^ Z.of_nat 8) with (2 ^ 64); lia).
    etransitivity; [|exact E]. cbn [le_bytes app drop take le_val].
    change (2 ^ 32) with 4294967296. rewrite take_0. cbn [le_val]. ring.
Qed.
End Proofs.

(** ** A raw disk behind the demo queue *)

(** The transport with one ready queue (the ring layout of [demo_queue]), and
    RAM holding a write request (header 0x4000, 3 data bytes at 0x6000,
    status 0x7000) and a read request of the same sector (two segments at
    0x6100 and 0x6200). *)
Definition demo_mmio : Mmio :=
  set_queues [demo_queue; demo_queue; demo_queue; demo_queue]
    (set_queue_configs (replicate 4 QueueConfig_new) (Mmio_new false true false)).

Definition demo_blk : VirtioBlkDevice RawDiskImage :=
  Open (MkBlk demo_raw [] 4 false true []) demo_raw false.

Definition demo_ram : HostMem :=
  MkHostMem demo_map (poke (hm_bytes demo_mem) 0x6000 [0xAA; 0xBB; 0xCC]).

Definition demo_out : BlkTask :=
  MkTask 2 0 0x7000 (MkHdr VIRTIO_BLK_T_OUT 3) [MkElem 0x6000 3 false].
Definition demo_in : BlkTask :=
  MkTask 3 0 0x7000 (MkHdr VIRTIO_BLK_T_IN 3) [MkElem 0x6100 1 true; MkElem 0x6200 2 true].

Ltac width_compute := split; vm_compute; [discriminate|reflexivity].

Lemma blk_write_read_witness :
  exists x1 x2, do_request demo_out demo_raw demo_ram = Some x1
    /\ do_request demo_in (x_disk x1) (x_mem x1) = Some x2
    /\ gathered true (t_segs demo_in) (x_mem x2) = [0xAA; 0xBB; 0xCC].
Proof.
  destruct (do_request demo_out demo_raw demo_ram) as [x1|] eqn:E1; [|vm_compute in E1; done].
  destruct (do_request demo_in (x_disk x1) (x_mem x1)) as [x2|] eqn:E2.
  2: { vm_compute in E1. injection E1 as <-. vm_compute in E2. done. }
  exists x1, x2. split; [done|]. split; [done|].
  assert (Hs : x_status x1 = VIRTIO_BLK_S_OK) by (vm_compute in E1; by injection E1 as <-).
  transitivity (gathered false (t_segs demo_out) demo_ram); [|vm_compute; reflexivity].
  eapply (blk_write_read demo_out demo_in demo_raw demo_ram (x_mem x1) x1 x2);
    try reflexivity; try done.
  - repeat constructor; vm_compute; discriminate.
  - repeat constructor; vm_compute; discriminate.
  - split; [|split; [|done]]; intros _; [|constructor]. constructor; [|constructor].
    intros _. left. vm_compute. discriminate.
Defined.

Lemma RunTask_completes_witness :
  exists w x, RunTask demo_out (demo_mmio, demo_blk, demo_ram) = Some w
    /\ do_request demo_out demo_raw demo_ram = Some x
    /\ hm_read (snd w) 0x7000 1 = Some [x_status x].
Proof.
  assert (E : exists w, RunTask demo_out (demo_mmio, demo_blk, demo_ram) = Some w)
    by (eexists; vm_compute; reflexivity).
  destruct E as ([[m' d'] h'] & E).
  destruct (RunTask_completes demo_out demo_mmio demo_blk demo_ram m' d' h' 0x2000 0x3000)
    as (x & H1 & _ & _ & H2 & _).
  - constructor; try reflexivity; vm_compute; try (split; discriminate). by left.
  - width_compute.
  - right. vm_compute. discriminate.
  - exact E.
  - exists (m', d', h'), x. split; [exact E|]. split; [exact H1|exact H2].
Defined.

Lemma blk_config_read_witness :
  Blk_ReadConfig demo_blk 0 8 = None.
Proof.
  destruct (blk_config_read (MkBlk demo_raw [] 4 false true []) demo_raw false 0 8) as (_ & H & _).
  - lia.
  - lia.
  - vm_compute. discriminate.
  - vm_compute. reflexivity.
  - apply H; lia.
Defined.

Lemma MmioWrite_ok_witness :
  exists m d h, VirtioMmio_MmioWrite (demo_mmio, demo_blk, demo_mem) 0x030 4 1 = Some (m, d, h)
    /\ mmio_ok m.
Proof.
  do 3 eexists. split; [reflexivity|].
  apply (MmioWrite_ok demo_mmio demo_blk demo_mem 0x030 4 1 _ demo_blk demo_mem).
  - split; [reflexivity|]. repeat constructor; discriminate.
  - vm_compute. discriminate.
  - reflexivity.
Defined.

Lemma program_queue_ready_witness :
  let m := reg_writes demo_mmio demo_blk (program_queue 1 128 0x100001000 0x2000 0x3000) in
  ready_ (queue_at m 1) = true /\ desc_gpa_ (queue_at m 1) = 0x100001000.
Proof.
  intros m.
  destruct (program_queue_ready demo_mmio demo_blk 1 128 0x100001000 0x2000 0x3000)
    as (H1 & _ & H2 & _); try width_compute.
  - split; [reflexivity|]. repeat constructor; discriminate.
  - by split.
Defined.

Lemma feature_windows_witness :
  exists lo, VirtioMmio_MmioRead (set_device_features_sel 0 demo_mmio, demo_blk, demo_mem) 0x010 4
    = Some (set_device_features_sel 0 demo_mmio, demo_blk, demo_mem, lo).
Proof.
  destruct (feature_windows demo_mmio demo_blk demo_mem) as (lo & hi & H & _).
  - width_compute.
  - by exists lo.
Defined.

Lemma interrupt_line_tracks_status_witness :
  irq_line (DoReset (NotifyConfigChange demo_mmio)) = true.
Proof.
  destruct (interrupt_line_tracks_status (NotifyConfigChange demo_mmio) demo_blk demo_mem)
    as (_ & _ & _ & H).
  - intros _ _. reflexivity.
  - vm_compute. discriminate.
  - apply H; try reflexivity. vm_compute. discriminate.
Defined.
