(* ===== verification/Qcow2.v ===== *)
(** * The qcow2 image: header, tables, caches and cluster allocation

    [core/disk/qcow2.{h,cpp}], first part: the on-disk header, the L1 table,
    the refcount table, the two LRU caches (L2 tables and refcount blocks)
    and the cluster allocator.

    The [FILE*] is a host file with a position: a [fseeko] to an offset of
    [2^63] or more fails and leaves the position where it was, and the code
    ignores that.  A 64-bit word loaded on the host and passed through
    [Be64] is the big-endian value of its eight bytes ([Be_load]).

    Each LRU list is kept most recent first.  The unordered maps to list
    iterators are the [mapped] flag of an entry: the map sends an offset to
    the one entry of that offset that carries it.  The pointer
    [GetRefcountBlock] and [GetL2Table] return is the front of its list.
    Results in [option]: [None] means a loop that exceeds [2^64] iterations. *)

From S2P Require Import Prelude.
From S2P Require Import DiskImage.

(** ** The stdio stream *)

Record File := MkFile { fp_file : HostFile; fp_pos : Z }.

Definition fseek (off : Z) (f : File) : File :=
  if fseek_ok off then MkFile (fp_file f) off else f.

Definition fread (n : Z) (f : File) : list Z * File :=
  let l := fread_at (fp_file f) (fp_pos f) n in
  (l, MkFile (fp_file f) (fp_pos f + Z.of_nat (length l))).

Definition fwrite (l : list Z) (f : File) : Z * File :=
  let '(h, n) := fwrite_at (fp_file f) (fp_pos f) l in (n, MkFile h (fp_pos f + n)).

(** ** Arrays of big-endian words *)

(** [Be16], [Be32] and [Be64]. *)
Definition Be16 (v : Z) : Z := bswap 2 v.
Definition Be32 (v : Z) : Z := bswap 4 v.
Definition Be64 (v : Z) : Z := bswap 8 v.

Fixpoint decode_be (w n : nat) (l : list Z) : list Z :=
  match n with
  | O => []
  | S n => be_val (take w l) :: decode_be w n (drop w l)
  end.

Fixpoint encode_be (w : nat) (t : list Z) : list Z :=
  match t with
  | [] => []
  | v :: t => be_bytes w v ++ encode_be w t
  end.

Definition kQcow2Magic : Z := 0x514649FB.
Definition kCompressedBit : Z := 1 .<< 62.
Definition kCopiedBit : Z := 1 .<< 63.
Definition kOffsetMask : Z := 0x00FFFFFFFFFFFE00.
Definition kZeroFlag : Z := 1.
Definition kReftOffsetMask : Z := 0xFFFFFFFFFFFFFE00.
Definition kL2CacheMax : nat := 64.
Definition kRfbCacheMax : nat := 64.

(** ** State *)

(** What [ReadHeader] fixes for the life of the image. *)
Record Geometry := MkGeometry {
  virtual_size_ : Z;
  cluster_bits_ : Z;
  cluster_size_ : Z;
  l2_entries_ : Z;
  l1_size_ : Z;
  l1_table_offset_ : Z;
  version_ : Z;
  compression_type_ : Z;
  rfb_entries_ : Z
}.

Record RfbCacheEntry := MkRfb {
  rfb_offset : Z;
  rfb_data : list Z;
  rfb_dirty : bool;
  rfb_mapped : bool
}.

Record L2CacheEntry := MkL2 { l2_offset : Z; l2_data : list Z; l2_dirty : bool }.

Record Qcow2DiskImage := MkQcow2 {
  q_geo : Geometry;
  q_file : File;
  l1_table_ : list Z;
  file_end_ : Z;
  refcount_table_ : list Z;
  refcount_table_offset_ : Z;
  refcount_table_clusters_ : Z;
  free_cluster_index_ : Z;
  refcount_table_dirty_ : bool;
  rfb_lru_ : list RfbCacheEntry;
  l2_lru_ : list L2CacheEntry
}.

Definition set_q_file (v : File) (s : Qcow2DiskImage) : Qcow2DiskImage :=
  MkQcow2 (q_geo s) v (l1_table_ s) (file_end_ s) (refcount_table_ s) (refcount_table_offset_ s)
    (refcount_table_clusters_ s) (free_cluster_index_ s) (refcount_table_dirty_ s) (rfb_lru_ s)
    (l2_lru_ s).
Definition set_l1_table (v : list Z) (s : Qcow2DiskImage) : Qcow2DiskImage :=
  MkQcow2 (q_geo s) (q_file s) v (file_end_ s) (refcount_table_ s) (refcount_table_offset_ s)
    (refcount_table_clusters_ s) (free_cluster_index_ s) (refcount_table_dirty_ s) (rfb_lru_ s)
    (l2_lru_ s).
Definition set_file_end (v : Z) (s : Qcow2DiskImage) : Qcow2DiskImage :=
  MkQcow2 (q_geo s) (q_file s) (l1_table_ s) v (refcount_table_ s) (refcount_table_offset_ s)
    (refcount_table_clusters_ s) (free_cluster_index_ s) (refcount_table_dirty_ s) (rfb_lru_ s)
    (l2_lru_ s).
Definition set_refcount_table (v : list Z) (s : Qcow2DiskImage) : Qcow2DiskImage :=
  MkQcow2 (q_geo s) (q_file s) (l1_table_ s) (file_end_ s) v (refcount_table_offset_ s)
    (refcount_table_clusters_ s) (free_cluster_index_ s) (refcount_table_dirty_ s) (rfb_lru_ s)
    (l2_lru_ s).
Definition set_refcount_table_offset (v : Z) (s : Qcow2DiskImage) : Qcow2DiskImage :=
  MkQcow2 (q_geo s) (q_file s) (l1_table_ s) (file_end_ s) (refcount_table_ s) v
    (refcount_table_clusters_ s) (free_cluster_index_ s) (refcount_table_dirty_ s) (rfb_lru_ s)
    (l2_lru_ s).
Definition set_refcount_table_clusters (v : Z) (s : Qcow2DiskImage) : Qcow2DiskImage :=
  MkQcow2 (q_geo s) (q_file s) (l1_table_ s) (file_end_ s) (refcount_table_ s)
    (refcount_table_offset_ s) v (free_cluster_index_ s) (refcount_table_dirty_ s) (rfb_lru_ s)
    (l2_lru_ s).
Definition set_free_cluster_index (v : Z) (s : Qcow2DiskImage) : Qcow2DiskImage :=
  MkQcow2 (q_geo s) (q_file s) (l1_table_ s) (file_end_ s) (refcount_table_ s)
    (refcount_table_offset_ s) (refcount_table_clusters_ s) v (refcount_table_dirty_ s)
    (rfb_lru_ s) (l2_lru_ s).
Definition set_refcount_table_dirty (v : bool) (s : Qcow2DiskImage) : Qcow2DiskImage :=
  MkQcow2 (q_geo s) (q_file s) (l1_table_ s) (file_end_ s) (refcount_table_ s)
    (refcount_table_offset_ s) (refcount_table_clusters_ s) (free_cluster_index_ s) v
    (rfb_lru_ s) (l2_lru_ s).
Definition set_rfb_lru (v : list RfbCacheEntry) (s : Qcow2DiskImage) : Qcow2DiskImage :=
  MkQcow2 (q_geo s) (q_file s) (l1_table_ s) (file_end_ s) (refcount_table_ s)
    (refcount_table_offset_ s) (refcount_table_clusters_ s) (free_cluster_index_ s)
    (refcount_table_dirty_ s) v (l2_lru_ s).
Definition set_l2_lru (v : list L2CacheEntry) (s : Qcow2DiskImage) : Qcow2DiskImage :=
  MkQcow2 (q_geo s) (q_file s) (l1_table_ s) (file_end_ s) (refcount_table_ s)
    (refcount_table_offset_ s) (refcount_table_clusters_ s) (free_cluster_index_ s)
    (refcount_table_dirty_ s) (rfb_lru_ s) v.

Definition g_cs (q : Qcow2DiskImage) : Z := cluster_size_ (q_geo q).

(** [_fseeki64(file_, off); fread(n)] and [fwrite]. *)
Definition read_at (off n : Z) (q : Qcow2DiskImage) : list Z * Qcow2DiskImage :=
  let '(l, f) := fread n (fseek off (q_file q)) in (l, set_q_file f q).
Definition write_at (off : Z) (l : list Z) (q : Qcow2DiskImage) : bool * Qcow2DiskImage :=
  let '(n, f) := fwrite l (fseek off (q_file q)) in
  (n =? Z.of_nat (length l), set_q_file f q).

(** ** The header *)

Definition hdr_field (hdr : list Z) (off w : nat) : Z := be_val (take w (drop off hdr)).

(** The geometry, the place of the refcount table, and the stream. *)
Definition ReadHeader (f : File) : option (Geometry * (Z * Z) * File) :=
  let '(l, f1) := fread 104 (fseek 0 f) in
  if (length l <? 72)%nat then None
  else
    let hdr := l ++ replicate (104 - length l) 0 in
    if negb (hdr_field hdr 0 4 =? kQcow2Magic) then None
    else
      let version := hdr_field hdr 4 4 in
      if negb (version =? 2) && negb (version =? 3) then None
      else if negb (hdr_field hdr 8 8 =? 0) then None
      else if negb (hdr_field hdr 32 4 =? 0) then None
      else
        let cluster_bits := hdr_field hdr 20 4 in
        if (cluster_bits <? 9) || (21 <? cluster_bits) then None
        else
          let cluster_size := 1 .<< cluster_bits in
          let l1_size := hdr_field hdr 36 4 in
          r ← (if version =? 3 then
                 let incompat := hdr_field hdr 72 8 in
                 if has incompat (bnot 64 ((1 .<< 0) .| (1 .<< 3))) then None
                 else
                   let refcount_order := hdr_field hdr 96 4 in
                   if 6 <? refcount_order then None
                   else if 104 <? hdr_field hdr 100 4 then
                     let '(c, f2) := fread 1 (fseek 104 f1) in
                     match c with
                     | [comp_type] => if 1 <? comp_type then None
                                      else Some (refcount_order, comp_type, f2)
                     | _ => Some (refcount_order, 0, f2)
                     end
                   else Some (refcount_order, 0, f1)
               else Some (4, 0, f1));
          let '(refcount_order, compression_type, f3) := (r : Z * Z * File) in
          let refcount_bits := 1 .<< refcount_order in
          if negb (refcount_bits =? 16) then None
          else Some (MkGeometry (hdr_field hdr 24 8) cluster_bits cluster_size (cluster_size / 8)
                       l1_size (hdr_field hdr 40 8) version compression_type
                       (cluster_size * 8 / refcount_bits),
                     (hdr_field hdr 48 8, hdr_field hdr 56 4), f3).

(** [SetDirtyBit] and [ClearDirtyBit] rewrite bit 0 of the 64-bit word at 72. *)
Definition write_dirty_bit (b : bool) (q : Qcow2DiskImage) : Qcow2DiskImage :=
  if version_ (q_geo q) <? 3 then q
  else
    let '(l, q1) := read_at 72 8 q in
    if (length l <? 8)%nat then q1
    else
      let v := be_val l in
      snd (write_at 72 (be_bytes 8 (if b then v .| 1 else v .& bnot 64 1)) q1).
Definition SetDirtyBit : Qcow2DiskImage -> Qcow2DiskImage := write_dirty_bit true.
Definition ClearDirtyBit : Qcow2DiskImage -> Qcow2DiskImage := write_dirty_bit false.

Definition ReadL1Table (l1_size l1_table_offset : Z) (f : File) : option (list Z * File) :=
  let bytes := l1_size * 8 in
  let '(l, f1) := fread bytes (fseek l1_table_offset f) in
  if Z.of_nat (length l) =? bytes then Some (decode_be 8 (Z.to_nat l1_size) l, f1) else None.

(** The table with the reserved low bits cleared, and whether any was set. *)
Definition ReadRefcountTable (off clusters cs : Z) (f : File) : option (list Z * bool * File) :=
  let table_bytes := clusters * cs in
  let '(l, f1) := fread table_bytes (fseek off f) in
  if Z.of_nat (length l) =? table_bytes then
    let raw := decode_be 8 (Z.to_nat (table_bytes / 8)) l in
    let masked := (fun r => r .& kReftOffsetMask) <$> raw in
    Some (masked, existsb (fun r => negb (r .& kReftOffsetMask =? r)) raw, f1)
  else None.

(** ** L2 cache *)

Definition find_l2 (off : Z) (lru : list L2CacheEntry) : option L2CacheEntry :=
  List.find (fun e => l2_offset e =? off) lru.

(** [splice] of the entry found to the front. *)
Definition l2_to_front (off : Z) (lru : list L2CacheEntry) : list L2CacheEntry :=
  match find_l2 off lru with
  | Some e => e :: List.filter (fun e => negb (l2_offset e =? off)) lru
  | None => lru
  end.

Definition EvictL2Cache (q : Qcow2DiskImage) : Qcow2DiskImage :=
  match last (l2_lru_ q) with
  | None => q
  | Some victim =>
      let q1 := if l2_dirty victim
                then snd (write_at (l2_offset victim) (encode_be 8 (l2_data victim)) q) else q in
      set_l2_lru (removelast (l2_lru_ q1)) q1
  end.

(** The [while] loops shorten a finite list: its length is fuel enough. *)
Fixpoint evict_l2_loop (fuel : nat) (q : Qcow2DiskImage) : Qcow2DiskImage :=
  match fuel with
  | O => q
  | S fuel => if (kL2CacheMax <=? length (l2_lru_ q))%nat
              then evict_l2_loop fuel (EvictL2Cache q) else q
  end.

Definition GetL2Table (off : Z) (q : Qcow2DiskImage) : Qcow2DiskImage * bool :=
  match find_l2 off (l2_lru_ q) with
  | Some _ => (set_l2_lru (l2_to_front off (l2_lru_ q)) q, true)
  | None =>
      let q1 := evict_l2_loop (length (l2_lru_ q)) q in
      let bytes := l2_entries_ (q_geo q) * 8 in
      let '(l, q2) := read_at off bytes q1 in
      if Z.of_nat (length l) =? bytes then
        let e := MkL2 off (decode_be 8 (Z.to_nat (l2_entries_ (q_geo q))) l) false in
        (set_l2_lru (e :: l2_lru_ q2) q2, true)
      else (q2, false)
  end.

(** [l2[idx]] and [l2[idx] = v] through the returned pointer, and the
    [dirty = true] through the map. *)
Definition l2_get (idx : Z) (q : Qcow2DiskImage) : Z :=
  match l2_lru_ q with e :: _ => nth (Z.to_nat idx) (l2_data e) 0 | [] => 0 end.

Definition l2_set (idx v : Z) (q : Qcow2DiskImage) : Qcow2DiskImage :=
  match l2_lru_ q with
  | e :: lru => set_l2_lru (MkL2 (l2_offset e) (<[Z.to_nat idx := v]> (l2_data e)) (l2_dirty e) :: lru) q
  | [] => q
  end.

Definition l2_mark_dirty (off : Z) (q : Qcow2DiskImage) : Qcow2DiskImage :=
  set_l2_lru ((fun e => if l2_offset e =? off then MkL2 off (l2_data e) true else e) <$> l2_lru_ q) q.

(** ** Refcount block cache *)

Definition rfb_hit (off : Z) (e : RfbCacheEntry) : bool := rfb_mapped e && (rfb_offset e =? off).

Definition unmap_rfb (off : Z) (e : RfbCacheEntry) : RfbCacheEntry :=
  if rfb_offset e =? off then MkRfb off (rfb_data e) (rfb_dirty e) false else e.

Definition EvictRfbCache (q : Qcow2DiskImage) : Qcow2DiskImage :=
  match last (rfb_lru_ q) with
  | None => q
  | Some victim =>
      let q1 := if rfb_dirty victim
                then snd (write_at (rfb_offset victim) (encode_be 2 (rfb_data victim)) q) else q in
      set_rfb_lru (unmap_rfb (rfb_offset victim) <$> removelast (rfb_lru_ q1)) q1
  end.

Fixpoint evict_rfb_loop (fuel : nat) (q : Qcow2DiskImage) : Qcow2DiskImage :=
  match fuel with
  | O => q
  | S fuel => if (kRfbCacheMax <=? length (rfb_lru_ q))%nat
              then evict_rfb_loop fuel (EvictRfbCache q) else q
  end.

(** [push_front] and the assignment to the map. *)
Definition rfb_push (off : Z) (data : list Z) (dirty : bool) (q : Qcow2DiskImage) : Qcow2DiskImage :=
  set_rfb_lru (MkRfb off data dirty true :: (unmap_rfb off <$> rfb_lru_ q)) q.

Definition FlushRefcountTable (q : Qcow2DiskImage) : Qcow2DiskImage :=
  set_refcount_table_dirty false
    (snd (write_at (refcount_table_offset_ q) (encode_be 8 (refcount_table_ q)) q)).

(** [Flush]'s two loops over the dirty entries, in list order. *)
Fixpoint flush_l2 (todo : list L2CacheEntry) (q : Qcow2DiskImage) : Qcow2DiskImage :=
  match todo with
  | [] => q
  | e :: todo =>
      flush_l2 todo
        (if l2_dirty e then snd (write_at (l2_offset e) (encode_be 8 (l2_data e)) q) else q)
  end.
Fixpoint flush_rfb (todo : list RfbCacheEntry) (q : Qcow2DiskImage) : Qcow2DiskImage :=
  match todo with
  | [] => q
  | e :: todo =>
      flush_rfb todo
        (if rfb_dirty e then snd (write_at (rfb_offset e) (encode_be 2 (rfb_data e)) q) else q)
  end.

Definition Qcow2_Flush (q : Qcow2DiskImage) : Qcow2DiskImage * bool :=
  let q1 := flush_l2 (l2_lru_ q) q in
  let q2 := set_l2_lru ((fun e => MkL2 (l2_offset e) (l2_data e) false) <$> l2_lru_ q1) q1 in
  let q3 := flush_rfb (rfb_lru_ q2) q2 in
  let q4 := set_rfb_lru
    ((fun e => MkRfb (rfb_offset e) (rfb_data e) false (rfb_mapped e)) <$> rfb_lru_ q3) q3 in
  (if refcount_table_dirty_ q4 then FlushRefcountTable q4 else q4, true).

(** [GetRefcountBlock]; [grow] is [GrowRefcountTable], which only the calls
    with [allocate] reach. *)
Definition load_rfb (block_offset : Z) (q : Qcow2DiskImage) : Qcow2DiskImage * bool :=
  match List.find (rfb_hit block_offset) (rfb_lru_ q) with
  | Some e =>
      (set_rfb_lru (e :: List.filter (fun e => negb (rfb_hit block_offset e)) (rfb_lru_ q)) q, true)
  | None =>
      let q1 := evict_rfb_loop (length (rfb_lru_ q)) q in
      let bytes := rfb_entries_ (q_geo q) * 2 in
      let '(l, q2) := read_at block_offset bytes q1 in
      if Z.of_nat (length l) =? bytes
      then (rfb_push block_offset (decode_be 2 (Z.to_nat (rfb_entries_ (q_geo q))) l) false q2, true)
      else (q2, false)
  end.

Definition GetRefcountBlock_with (grow : Z -> Qcow2DiskImage -> option (Qcow2DiskImage * bool))
    (cluster_index : Z) (allocate : bool) (q : Qcow2DiskImage) : option (Qcow2DiskImage * bool) :=
  let rft_index := cluster_index / rfb_entries_ (q_geo q) in
  let rfb_index := cluster_index mod rfb_entries_ (q_geo q) in
  r ← (if Z.of_nat (length (refcount_table_ q)) <=? rft_index
       then (if allocate then grow cluster_index q else Some (q, false)) else Some (q, true));
  let '(q0, ok) := (r : Qcow2DiskImage * bool) in
  if negb ok then Some (q0, false)
  else
    let block_offset := nth (Z.to_nat rft_index) (refcount_table_ q0) 0 in
    if block_offset =? 0 then
      if negb allocate then Some (q0, false)
      else
        let block_offset := u64 (cluster_index .<< cluster_bits_ (q_geo q0)) in
        let new_end := u64 (block_offset + g_cs q0) in
        let q1 := if file_end_ q0 <? new_end then set_file_end new_end q0 else q0 in
        let '(ok, q2) := write_at block_offset (replicate (Z.to_nat (g_cs q0)) 0) q1 in
        if negb ok then Some (q2, false)
        else
          let q3 := evict_rfb_loop (length (rfb_lru_ q2)) q2 in
          let data := <[Z.to_nat rfb_index := 1]>
                        (replicate (Z.to_nat (rfb_entries_ (q_geo q0))) 0) in
          let q4 := rfb_push block_offset data true q3 in
          let q5 := set_refcount_table
            (<[Z.to_nat rft_index := block_offset]> (refcount_table_ q4)) q4 in
          Some (set_refcount_table_dirty true q5, true)
    else Some (load_rfb block_offset q0).

(** [rfb[i]] and [rfb[i] = v] through the returned pointer, and the
    [dirty = true] through the map. *)
Definition rfb_get (i : Z) (q : Qcow2DiskImage) : Z :=
  match rfb_lru_ q with e :: _ => nth (Z.to_nat i) (rfb_data e) 0 | [] => 0 end.

Definition rfb_set (i v : Z) (q : Qcow2DiskImage) : Qcow2DiskImage :=
  match rfb_lru_ q with
  | e :: lru => set_rfb_lru (MkRfb (rfb_offset e) (<[Z.to_nat i := v]> (rfb_data e))
                               (rfb_dirty e) (rfb_mapped e) :: lru) q
  | [] => q
  end.

Definition rfb_mark_dirty (cluster_index : Z) (q : Qcow2DiskImage) : Qcow2DiskImage :=
  let off := nth (Z.to_nat (cluster_index / rfb_entries_ (q_geo q))) (refcount_table_ q) 0 in
  set_rfb_lru ((fun e => if rfb_hit off e then MkRfb off (rfb_data e) true true else e)
                 <$> rfb_lru_ q) q.

Definition FreeCluster (host_offset : Z) (q : Qcow2DiskImage) : option Qcow2DiskImage :=
  let cluster_index := host_offset .>> cluster_bits_ (q_geo q) in
  let rfb_index := cluster_index mod rfb_entries_ (q_geo q) in
  r ← GetRefcountBlock_with (fun _ q => Some (q, false)) cluster_index false q;
  let '(q1, ok) := (r : Qcow2DiskImage * bool) in
  if negb ok then Some q1
  else
    let c := rfb_get rfb_index q1 in
    if c =? 0 then Some q1
    else
      let q2 := rfb_mark_dirty cluster_index (rfb_set rfb_index (c - 1) q1) in
      Some (if (c - 1 =? 0) && (cluster_index <? free_cluster_index_ q2)
            then set_free_cluster_index cluster_index q2 else q2).

(** ** Growing the refcount table *)

(** The sizing loop; its state is [min_entries]. *)
Definition grow_sizes (cs min_entries : Z) : Z * Z * Z :=
  let new_entries := u64 (min_entries * 3) / 2 in
  let new_clusters := u32 (u64 (new_entries * 8 + cs - 1) / cs) in
  let new_entries := u64 (new_clusters * cs) / 8 in
  (new_entries, u64 (new_entries * 8), new_clusters).

Definition grow_step (g : Geometry) (new_table_offset min_entries : Z) : Z + (Z * Z * Z) :=
  let '(new_entries, new_byte_size, new_clusters) := grow_sizes (cluster_size_ g) min_entries in
  let table_last_ci := u64 (new_table_offset + new_byte_size - 1) .>> cluster_bits_ g in
  let needed_rft := table_last_ci / rfb_entries_ g + 1 in
  if needed_rft <=? new_entries then inr (new_entries, new_byte_size, new_clusters)
  else inl needed_rft.

(** The lambdas [ensure_block] and [set_refcount_1]; the list is
    [new_block_offsets]. *)
Definition ensure_block (rft_i : Z) (w : Qcow2DiskImage * list Z) : Qcow2DiskImage * list Z * Z :=
  let '(q, blocks) := w in
  let block_off := nth (Z.to_nat rft_i) (refcount_table_ q) 0 in
  if negb (block_off =? 0) then (q, blocks, block_off)
  else
    let block_off := file_end_ q in
    let q1 := set_file_end (u64 (file_end_ q + g_cs q)) q in
    let q2 := snd (write_at block_off (replicate (Z.to_nat (g_cs q)) 0) q1) in
    let q3 := set_refcount_table (<[Z.to_nat rft_i := block_off]> (refcount_table_ q2)) q2 in
    (set_refcount_table_dirty true q3, blocks ++ [block_off], block_off).

Definition set_refcount_1 (ci : Z) (w : Qcow2DiskImage * list Z) : Qcow2DiskImage * list Z :=
  let rft_i := ci / rfb_entries_ (q_geo (fst w)) in
  let rfb_i := ci mod rfb_entries_ (q_geo (fst w)) in
  let '(q, blocks, block_off) := ensure_block rft_i w in
  (snd (write_at (u64 (block_off + rfb_i * 2)) (be_bytes 2 1) q), blocks).

(** Phase B: the list grows while it is walked; the state is [bi]. *)
Definition phase_b_step (s : nat * (Qcow2DiskImage * list Z))
    : nat * (Qcow2DiskImage * list Z) + Qcow2DiskImage :=
  let '(bi, (q, blocks)) := s in
  match blocks !! bi with
  | None => inr q
  | Some off => inl (S bi, set_refcount_1 (off .>> cluster_bits_ (q_geo q)) (q, blocks))
  end.

Fixpoint free_clusters (l : list Z) (q : Qcow2DiskImage) : option Qcow2DiskImage :=
  match l with
  | [] => Some q
  | off :: l => q1 ← FreeCluster off q; free_clusters l q1
  end.

Definition GrowRefcountTable (min_cluster_index : Z) (q : Qcow2DiskImage)
    : option (Qcow2DiskImage * bool) :=
  let q := fst (Qcow2_Flush q) in
  let cs := g_cs q in
  let needed_rft_index := min_cluster_index / rfb_entries_ (q_geo q) in
  let new_table_offset := file_end_ q in
  sizes ← while64 (grow_step (q_geo q) new_table_offset) (u64 (needed_rft_index + 1));
  let '(new_entries, new_byte_size, new_clusters) := (sizes : Z * Z * Z) in
  let q1 := set_file_end (u64 (new_table_offset + new_byte_size)) q in
  let old_table_offset := refcount_table_offset_ q1 in
  let old_table_clusters := refcount_table_clusters_ q1 in
  let new_table := take (Z.to_nat new_entries) (refcount_table_ q1)
    ++ replicate (Z.to_nat new_entries - length (refcount_table_ q1)) 0 in
  let '(ok, q2) := write_at new_table_offset (encode_be 8 new_table) q1 in
  if negb ok then Some (q2, false)
  else
    let '(ok, q3) := write_at 48 (be_bytes 8 new_table_offset) q2 in
    if negb ok then Some (q3, false)
    else
      let '(ok, q4) := write_at 56 (be_bytes 4 new_clusters) q3 in
      if negb ok then Some (q4, false)
      else
        let q5 := set_refcount_table_dirty false
          (set_refcount_table_clusters new_clusters
             (set_refcount_table_offset new_table_offset (set_refcount_table new_table q4))) in
        let q6 := set_rfb_lru [] (flush_rfb (rfb_lru_ q5) q5) in
        let base := new_table_offset .>> cluster_bits_ (q_geo q6) in
        let w := foldl (fun w i => set_refcount_1 (u64 (base + i)) w) (q6, []) (seqZ 0 new_clusters) in
        q7 ← while64 phase_b_step (O, w);
        let q8 := if refcount_table_dirty_ q7 then FlushRefcountTable q7 else q7 in
        q9 ← free_clusters ((fun i => u64 (old_table_offset + i * cs)) <$> seqZ 0 old_table_clusters) q8;
        Some (q9, true).

Definition GetRefcountBlock : Z -> bool -> Qcow2DiskImage -> option (Qcow2DiskImage * bool) :=
  GetRefcountBlock_with GrowRefcountTable.

(** ** The allocator *)

Definition next_index (q : Qcow2DiskImage) : Z * Qcow2DiskImage :=
  (free_cluster_index_ q, set_free_cluster_index (u64 (free_cluster_index_ q + 1)) q).

(** The search loop: the cluster under test, its index in the block the
    pointer shows, and whether the pointer is null.  The outer [option] is
    the nested hang of [GetRefcountBlock]. *)
Definition alloc_step (s : Z * Z * Qcow2DiskImage * bool)
    : (Z * Z * Qcow2DiskImage * bool) + option (Z * Z * Qcow2DiskImage * bool) :=
  let '(ci, ri, q, ok) := s in
  if negb ok then inr (Some s)
  else if rfb_get ri q =? 0 then inr (Some s)
  else
    let '(ci', q1) := next_index q in
    if negb (ci' =? u64 (ci + 1)) || (rfb_entries_ (q_geo q) <=? ri + 1) then
      match GetRefcountBlock ci' true q1 with
      | Some (q2, ok2) => inl (ci', ci' mod rfb_entries_ (q_geo q), q2, ok2)
      | None => inr None
      end
    else inl (ci', ri + 1, q1, true).

(** The rest of [AllocateCluster], once the search has stopped on a block. *)
Definition alloc_finish (ci ri : Z) (q : Qcow2DiskImage) : Qcow2DiskImage * Z :=
  let q4 := rfb_mark_dirty ci (rfb_set ri 1 q) in
  let offset := u64 (ci .<< cluster_bits_ (q_geo q4)) in
  let new_end := u64 (offset + g_cs q4) in
  if file_end_ q4 <? new_end then
    let '(ok, q5) := write_at offset (replicate (Z.to_nat (g_cs q4)) 0) q4 in
    if ok then (set_file_end new_end q5, offset) else (q5, 0)
  else (q4, offset).

Definition AllocateCluster (q : Qcow2DiskImage) : option (Qcow2DiskImage * Z) :=
  let '(ci, q1) := next_index q in
  r ← GetRefcountBlock ci true q1;
  let '(q2, ok) := (r : Qcow2DiskImage * bool) in
  s ← while64 alloc_step (ci, ci mod rfb_entries_ (q_geo q), q2, ok);
  s ← (s : option (Z * Z * Qcow2DiskImage * bool));
  let '(ci, ri, q3, ok) := (s : Z * Z * Qcow2DiskImage * bool) in
  if negb ok then Some (q3, 0) else Some (alloc_finish ci ri q3).

(** ** Compressed clusters and L2 tables *)

Definition csize_shift (g : Geometry) : Z := 62 - (cluster_bits_ g - 8).

(** Host offset and length of a compressed cluster. *)
Definition comp_extent (g : Geometry) (l2_entry : Z) : Z * Z :=
  let csize_mask := (1 .<< (cluster_bits_ g - 8)) - 1 in
  let offset_mask := (1 .<< csize_shift g) - 1 in
  let nb_csectors := u32 (((l2_entry .>> csize_shift g) .& csize_mask) + 1) in
  let host_off := l2_entry .& offset_mask in
  (host_off, nb_csectors * 512 - (host_off .& 511)).

(** [c_start], and how many clusters [c_start..c_end] are. *)
Definition comp_clusters (g : Geometry) (l2_entry : Z) : list Z :=
  let '(host_off, comp_len) := comp_extent g l2_entry in
  let c_start := host_off .>> cluster_bits_ g in
  let c_end := (host_off + comp_len - 1) .>> cluster_bits_ g in
  seqZ c_start (c_end - c_start + 1).

Definition FreeCompressedCluster (l2_entry : Z) (q : Qcow2DiskImage) : option Qcow2DiskImage :=
  free_clusters ((fun c => c .<< cluster_bits_ (q_geo q)) <$> comp_clusters (q_geo q) l2_entry) q.

Definition EnsureL2Table (l1_idx : Z) (q : Qcow2DiskImage) : option (Qcow2DiskImage * bool) :=
  if l1_size_ (q_geo q) <=? l1_idx then Some (q, false)
  else
    let l1_entry := nth (Z.to_nat l1_idx) (l1_table_ q) 0 in
    if negb (l1_entry =? 0) then Some (GetL2Table (l1_entry .& kOffsetMask) q)
    else
      r ← AllocateCluster q;
      let '(q1, new_l2_off) := (r : Qcow2DiskImage * Z) in
      if new_l2_off =? 0 then Some (q1, false)
      else
        let '(ok, q2) := write_at new_l2_off (replicate (Z.to_nat (g_cs q1)) 0) q1 in
        if negb ok then Some (q2, false)
        else
          let entry := new_l2_off .| kCopiedBit in
          let q3 := set_l1_table (<[Z.to_nat l1_idx := entry]> (l1_table_ q2)) q2 in
          let '(ok, q4) := write_at (u64 (l1_table_offset_ (q_geo q3) + l1_idx * 8))
                             (be_bytes 8 entry) q3 in
          if negb ok then Some (q4, false) else Some (GetL2Table new_l2_off q4).

(** ** Well-formed geometry *)

Record geo_ok (g : Geometry) : Prop := {
  geo_bits : 9 <= cluster_bits_ g <= 21;
  geo_cs : cluster_size_ g = 2 ^ cluster_bits_ g;
  geo_l2 : l2_entries_ g * 8 = cluster_size_ g;
  geo_rfb : rfb_entries_ g * 2 = cluster_size_ g;
  geo_version : version_ g = 2 \/ version_ g = 3;
  geo_compression : 0 <= compression_type_ g <= 1;
  geo_size : in_width 64 (virtual_size_ g);
  geo_l1 : in_width 32 (l1_size_ g);
  geo_l1_off : in_width 64 (l1_table_offset_ g)
}.

Lemma geo_cs_bounds g : geo_ok g -> 512 <= cluster_size_ g <= 2097152.
Proof.
  intros [Hb Hc _ _ _ _ _ _ _]. rewrite Hc. split.
  - change 512 with (2 ^ 9). apply Z.pow_le_mono_r; lia.
  - change 2097152 with (2 ^ 21). apply Z.pow_le_mono_r; lia.
Qed.

Lemma be_val_width w l : bytes_ok l -> length l = w -> in_width (8 * Z.of_nat w) (be_val l).
Proof.
  intros Hl Hw. pose proof (be_val_bound l Hl) as Hb. rewrite Hw in Hb.
  unfold in_width. by rewrite Z.pow_mul_r by lia.
Qed.

Lemma hdr_field_width hdr off w :
  bytes_ok hdr -> (off + w <= length hdr)%nat -> in_width (8 * Z.of_nat w) (hdr_field hdr off w).
Proof.
  intros Hh Hl. apply be_val_width; [by apply Forall_take, Forall_drop|].
  rewrite length_take, length_drop. lia.
Qed.

Lemma fread_ok n f l f' :
  store_ok (f_data (fp_file f)) -> fread n f = (l, f') ->
  bytes_ok l /\ Z.of_nat (length l) <= Z.max 0 n /\ fp_file f' = fp_file f.
Proof.
  intros Hs [= <- <-]. unfold fread_at. split; [by apply peek_ok|]. rewrite length_peek. split; [lia|done].
Qed.

(** What the v3 branch returns: the refcount order and the compression type. *)
Definition ext_ok (hdr : list Z) (version : Z) (r : Z * Z * File) : Prop :=
  0 <= snd (fst r) <= 1
  /\ (version = 3 -> fst (fst r) = hdr_field hdr 96 4 /\ has (hdr_field hdr 72 8) (bnot 64 9) = false).

Lemma fseek_file off f : fp_file (fseek off f) = fp_file f.
Proof. unfold fseek. by destruct (fseek_ok off). Qed.

Lemma ReadHeader_ext h hdr version f1 r :
  store_ok (f_data h) -> fp_file f1 = h ->
  (if version =? 3 then
     let incompat := hdr_field hdr 72 8 in
     if has incompat (bnot 64 ((1 .<< 0) .| (1 .<< 3))) then None
     else
       let refcount_order := hdr_field hdr 96 4 in
       if 6 <? refcount_order then None
       else if 104 <? hdr_field hdr 100 4 then
         let '(c, f2) := fread 1 (fseek 104 f1) in
         match c with
         | [comp_type] => if 1 <? comp_type then None
                          else Some (refcount_order, comp_type, f2)
         | _ => Some (refcount_order, 0, f2)
         end
       else Some (refcount_order, 0, f1)
   else Some (4, 0, f1)) = Some r ->
  ext_ok hdr version r.
Proof.
  intros Hs Hf. cbv zeta. destruct (Z.eqb_spec version 3) as [->|Hv].
  2: { intros [= <-]. split; [cbn; lia|]. done. }
  destruct (has _ _) eqn:Hinc; [done|]. destruct (6 <? _); [done|].
  destruct (104 <? _); [|intros [= <-]; split; [cbn; lia|done]].
  destruct (fread 1 (fseek 104 f1)) as [c f2] eqn:Ec.
  apply fread_ok in Ec as (Hc & _); [|by rewrite fseek_file, Hf].
  destruct c as [|x [|? ?]]; try (intros [= <-]; split; [cbn; lia|done]).
  destruct (Z.ltb_spec 1 x); [done|]. intros [= <-]. apply Forall_inv in Hc as [Hc _].
  split; [cbn; lia|done].
Qed.

Lemma shiftl_one_16 ro : 1 .<< ro = 16 -> ro = 4.
Proof.
  intros E. destruct (Z.le_gt_cases 0 ro) as [H|H].
  - rewrite Z.shiftl_1_l in E. change 16 with (2 ^ 4) in E. by apply Z.pow_inj_r in E; lia.
  - rewrite Z.shiftl_div_pow2 in E by lia. rewrite Z.div_small in E; [done|].
    split; [lia|]. apply Z.pow_gt_1; lia.
Qed.

Lemma geometry_ok hdr ct :
  bytes_ok hdr -> length hdr = 104%nat -> 0 <= ct <= 1 ->
  hdr_field hdr 4 4 = 2 \/ hdr_field hdr 4 4 = 3 -> 9 <= hdr_field hdr 20 4 ->
  hdr_field hdr 20 4 <= 21 ->
  geo_ok (MkGeometry (hdr_field hdr 24 8) (hdr_field hdr 20 4) (1 .<< hdr_field hdr 20 4)
            ((1 .<< hdr_field hdr 20 4) / 8) (hdr_field hdr 36 4) (hdr_field hdr 40 8)
            (hdr_field hdr 4 4) ct ((1 .<< hdr_field hdr 20 4) * 8 / 16)).
Proof.
  intros Hb Hl Hct Hv H9 H21. set (b := hdr_field hdr 20 4) in *.
  assert (Hcs : 1 .<< b = 2 ^ (b - 9) * 512).
  { rewrite Z.shiftl_1_l. change 512 with (2 ^ 9). rewrite <- Z.pow_add_r by lia. f_equal. lia. }
  constructor; cbn [virtual_size_ cluster_bits_ cluster_size_ l2_entries_ l1_size_
    l1_table_offset_ version_ compression_type_ rfb_entries_]; try done.
  - apply Z.shiftl_1_l.
  - rewrite Hcs. replace (2 ^ (b - 9) * 512) with (2 ^ (b - 9) * 64 * 8) by lia.
    by rewrite Z.div_mul.
  - rewrite Hcs. replace (2 ^ (b - 9) * 512 * 8) with (2 ^ (b - 9) * 256 * 16) by lia.
    rewrite Z.div_mul by lia. lia.
  - apply (hdr_field_width hdr 24 8); [done|lia].
  - apply (hdr_field_width hdr 36 4); [done|lia].
  - apply (hdr_field_width hdr 40 8); [done|lia].
Qed.

(** An accepted header fixes a consistent geometry read from the header's
    big-endian fields; images that need something the code does not have
    (another magic or version, a backing file, encryption, unknown
    incompatible features, refcounts of a width other than 16 bits) are
    refused. *)
Theorem ReadHeader_geometry h g rft_off rft_clusters f :
  store_ok (f_data h) -> ReadHeader (MkFile h 0) = Some (g, (rft_off, rft_clusters), f) ->
  let l := fread_at h 0 104 in
  let hdr := l ++ replicate (104 - length l) 0 in
  geo_ok g
  /\ hdr_field hdr 0 4 = kQcow2Magic /\ hdr_field hdr 4 4 = version_ g
  /\ hdr_field hdr 8 8 = 0 /\ hdr_field hdr 32 4 = 0
  /\ hdr_field hdr 20 4 = cluster_bits_ g /\ hdr_field hdr 24 8 = virtual_size_ g
  /\ hdr_field hdr 36 4 = l1_size_ g /\ hdr_field hdr 40 8 = l1_table_offset_ g
  /\ hdr_field hdr 48 8 = rft_off /\ hdr_field hdr 56 4 = rft_clusters
  /\ (version_ g = 3 -> hdr_field hdr 96 4 = 4
        /\ has (hdr_field hdr 72 8) (bnot 64 9) = false).
Proof.
  intros Hs. unfold ReadHeader.
  change (fread 104 (fseek 0 (MkFile h 0)))
    with (fread_at h 0 104, MkFile h (0 + Z.of_nat (length (fread_at h 0 104)))).
  cbv beta iota zeta. set (l := fread_at h 0 104) in *.
  set (hdr := l ++ replicate (104 - length l) 0) in *.
  assert (Hl : bytes_ok l /\ (length l <= 104)%nat).
  { unfold l, fread_at. split; [by apply peek_ok|rewrite length_peek; lia]. }
  destruct Hl as [Hlb Hl].
  assert (Hh : bytes_ok hdr /\ length hdr = 104%nat).
  { unfold hdr. split; [apply Forall_app; split; [done|apply Forall_replicate; done]|].
    rewrite length_app, length_replicate. lia. }
  destruct Hh as [Hhb Hhl].
  destruct (length l <? 72)%nat; [done|].
  destruct (Z.eqb_spec (hdr_field hdr 0 4) kQcow2Magic) as [Hmag|]; cbn [negb]; [|done].
  destruct (negb (hdr_field hdr 4 4 =? 2) && negb (hdr_field hdr 4 4 =? 3)) eqn:Hv; [done|].
  destruct (Z.eqb_spec (hdr_field hdr 8 8) 0) as [Hbk|]; cbn [negb]; [|done].
  destruct (Z.eqb_spec (hdr_field hdr 32 4) 0) as [Hcr|]; cbn [negb]; [|done].
  destruct ((hdr_field hdr 20 4 <? 9) || (21 <? hdr_field hdr 20 4)) eqn:Hcb; [done|].
  intros Hr. apply bind_Some in Hr as ([[ro ct] f3] & He & Hr).
  eapply (ReadHeader_ext h hdr) in He; [|exact Hs|reflexivity]. destruct He as [Hct He]. cbn [fst snd] in *.
  destruct (Z.eqb_spec (1 .<< ro) 16) as [Hro|]; cbn [negb] in Hr; [|done].
  injection Hr as <- <- <- <-. rewrite Hro. apply orb_false_iff in Hcb as [Hcb1 Hcb2].
  apply Z.ltb_ge in Hcb1, Hcb2. apply andb_false_iff in Hv.
  rewrite !negb_false_iff, !Z.eqb_eq in Hv.
  split; [by apply geometry_ok|]. cbn [cluster_bits_ virtual_size_ l1_size_ l1_table_offset_ version_].
  do 10 (split; [done|]). intros H3. apply He in H3 as [<- H3]. split; [|done].
  by apply shiftl_one_16.
Qed.

(** ** The size of a grown refcount table *)

Lemma grow_sizes_spec cs m :
  512 <= cs <= 2097152 -> cs mod 8 = 0 -> 1 <= m <= 2 ^ 36 ->
  let '(ne, nb, nc) := grow_sizes cs m in
  m <= ne /\ nb = ne * 8 /\ nb = nc * cs /\ nb <= 12 * m + cs /\ 1 <= nc.
Proof.
  intros Hc H8 Hm. change (2 ^ 36) with 68719476736 in Hm. unfold grow_sizes.
  rewrite (wrap_small 64 (m * 3)) by (unfold in_width; change (2 ^ 64) with 18446744073709551616; lia).
  set (n0 := m * 3 / 2). assert (Hn0 : m <= n0 /\ n0 * 2 <= m * 3) by (unfold n0; dlia).
  rewrite (wrap_small 64 (n0 * 8 + cs - 1)) by (unfold in_width; change (2 ^ 64) with 18446744073709551616; lia).
  set (c := (n0 * 8 + cs - 1) / cs).
  assert (Hcc : c * cs <= n0 * 8 + cs - 1 < c * cs + cs).
  { unfold c. pose proof (Z.div_mod (n0 * 8 + cs - 1) cs). pose proof (Z.mod_pos_bound (n0 * 8 + cs - 1) cs).
    lia. }
  assert (Hc1 : 1 <= c) by nia.
  rewrite (wrap_small 32 c).
  2: { unfold in_width. change (2 ^ 32) with 4294967296. nia. }
  assert (E : c * cs / 8 * 8 = c * cs).
  { rewrite Z.mul_comm. symmetry. apply Z_div_exact_full_2; [lia|].
    by rewrite Z.mul_mod, H8, Z.mul_0_r by lia. }
  rewrite (wrap_small 64 (c * cs)) by (unfold in_width; change (2 ^ 64) with 18446744073709551616; nia).
  rewrite E, wrap_small by (unfold in_width; change (2 ^ 64) with 18446744073709551616; nia).
  split; [|split; [done|split; [done|split; [lia|done]]]]. nia.
Qed.

Lemma grow_step_spec g off k :
  geo_ok g -> 0 <= off < 2 ^ 50 -> 1 <= k <= 2 ^ 36 ->
  match grow_step g off k with
  | inl k' => k < k' <= 2 ^ 36
  | inr (ne, nb, nc) =>
      k <= ne /\ nb = ne * 8 /\ nb = nc * cluster_size_ g
      /\ (forall x, off <= x < off + nb -> (x .>> cluster_bits_ g) / rfb_entries_ g < ne)
  end.
Proof.
  intros Hg Ho Hk. pose proof (geo_cs_bounds g Hg) as Hcs. destruct Hg as [Hb Hcsb Hl2 Hrfb _ _ _ _ _].
  unfold grow_step.
  pose proof (grow_sizes_spec (cluster_size_ g) k Hcs) as HS.
  destruct (grow_sizes (cluster_size_ g) k) as [[ne nb] nc].
  destruct HS as (H1 & H2 & H3 & H4 & H5); [rewrite <- Hl2; apply Z_mod_mult|done|].
  assert (Hdiv : forall x, x .>> cluster_bits_ g = x / cluster_size_ g).
  { intros x. rewrite Hcsb. apply Z.shiftr_div_pow2. lia. }
  change (2 ^ 36) with 68719476736 in *. change (2 ^ 50) with 1125899906842624 in Ho.
  rewrite (wrap_small 64 (off + nb - 1)) by (unfold in_width; change (2 ^ 64) with 18446744073709551616; nia).
  rewrite Hdiv. set (cs := cluster_size_ g) in *. set (rfb := rfb_entries_ g) in *.
  set (last := (off + nb - 1) / cs). set (n := last / rfb).
  assert (Hlast : last * cs <= off + nb - 1) by (unfold last; rewrite Z.mul_comm; apply Z.mul_div_le; lia).
  assert (Hn : n * rfb <= last) by (unfold n; rewrite Z.mul_comm; apply Z.mul_div_le; lia).
  assert (Hn0 : 0 <= n) by (unfold n, last; apply Z.div_pos; [apply Z.div_pos; nia|lia]).
  assert (Hbig : n * 131072 <= off + nb).
  { assert (131072 <= rfb * cs) by nia. assert (n * (rfb * cs) <= last * cs) by nia. nia. }
  destruct (Z.leb_spec (n + 1) ne) as [Hle|Hgt]; [|lia].
  split; [done|]. split; [done|]. split; [done|]. intros x Hx. rewrite Hdiv. fold cs.
  apply Z.le_lt_trans with n; [|lia].
  apply Z.div_le_mono; [lia|]. apply Z.div_le_mono; lia.
Qed.

(** The sizing loop of [GrowRefcountTable] ends, for images up to a petabyte,
    with a table of whole clusters that has an entry for the requested index
    and for every cluster the table itself occupies. *)
Theorem grow_loop_terminates g off m :
  geo_ok g -> 0 <= off < 2 ^ 50 -> 1 <= m <= 2 ^ 36 ->
  exists ne nb nc, while64 (grow_step g off) m = Some (ne, nb, nc)
  /\ m <= ne /\ nb = ne * 8 /\ nb = nc * cluster_size_ g
  /\ (forall x, off <= x < off + nb -> (x .>> cluster_bits_ g) / rfb_entries_ g < ne).
Proof.
  intros Hg Ho Hm.
  destruct (while64_total (grow_step g off) (fun k => m <= k <= 2 ^ 36) (fun k => 2 ^ 36 - k)
    (fun r => let '(ne, nb, nc) := r in m <= ne /\ nb = ne * 8 /\ nb = nc * cluster_size_ g
      /\ (forall x, off <= x < off + nb -> (x .>> cluster_bits_ g) / rfb_entries_ g < ne)) m)
    as ([[ne nb] nc] & E & HP).
  - lia.
  - change (2 ^ 36) with 68719476736 in *. change (2 ^ 64) with 18446744073709551616. lia.
  - intros k Hk. pose proof (grow_step_spec g off k Hg Ho) as HS.
    destruct (grow_step g off k) as [k'|[[ne nb] nc]].
    + lia.
    + destruct HS as (? & ? & ? & ?); [lia|]. split; [lia|done].
  - by exists ne, nb, nc.
Qed.

(** ** Words on disk *)

Definition words_ok (w : nat) (t : list Z) : Prop := Forall (in_width (8 * Z.of_nat w)) t.

Lemma be_val_inv w v : in_width (8 * Z.of_nat w) v -> be_val (be_bytes w v) = v.
Proof.
  intros Hv. rewrite be_val_be_bytes. apply Z.mod_small.
  unfold in_width in Hv. by rewrite Z.pow_mul_r in Hv by lia.
Qed.

Lemma length_encode_be w t : length (encode_be w t) = (w * length t)%nat.
Proof.
  induction t as [|v t IH]; cbn [encode_be length]; [lia|].
  rewrite length_app, length_be_bytes, IH. lia.
Qed.

Lemma encode_be_ok w t : bytes_ok (encode_be w t).
Proof. induction t; cbn [encode_be]; [constructor|]. apply Forall_app. split; [apply be_bytes_ok|done]. Qed.

Lemma length_decode_be w n l : length (decode_be w n l) = n.
Proof. revert l. induction n; intros; cbn [decode_be length]; [done|]. by rewrite IHn. Qed.

Lemma decode_encode_be w t : words_ok w t -> decode_be w (length t) (encode_be w t) = t.
Proof.
  induction 1 as [|v t Hv _ IH]; [done|]. cbn [length encode_be decode_be].
  rewrite take_app_length', drop_app_length' by (symmetry; apply length_be_bytes).
  by rewrite be_val_inv, IH.
Qed.

Lemma decode_be_words w n l :
  bytes_ok l -> length l = (w * n)%nat -> words_ok w (decode_be w n l).
Proof.
  revert l. induction n as [|n IH]; intros l Hb Hl; cbn [decode_be]; constructor.
  - apply be_val_width; [by apply Forall_take|]. rewrite length_take. lia.
  - apply IH; [by apply Forall_drop|]. rewrite length_drop. lia.
Qed.

(** ** The stream inside the file *)

Definition q_data (q : Qcow2DiskImage) : store := f_data (fp_file (q_file q)).
Definition q_len (q : Qcow2DiskImage) : Z := f_len (fp_file (q_file q)).

(** The file is smaller than [2^63] bytes, holds bytes, and rewriting it in
    place succeeds. *)
Definition file_ok (q : Qcow2DiskImage) : Prop :=
  store_ok (q_data q) /\ 0 <= q_len q < 2 ^ 63 /\ q_len q <= f_limit (fp_file (q_file q)).

Lemma fseek_ok_in off : 0 <= off < 2 ^ 63 -> fseek_ok off = true.
Proof. intros. unfold fseek_ok. apply andb_true_iff. rewrite Z.leb_le, Z.ltb_lt. done. Qed.

Lemma read_at_in off n q :
  0 <= off < 2 ^ 63 -> 0 <= n -> off + n <= q_len q ->
  read_at off n q = (peek (q_data q) off n, set_q_file (MkFile (fp_file (q_file q)) (off + n)) q).
Proof.
  intros Ho Hn Hl. unfold read_at, fseek. rewrite fseek_ok_in by done.
  unfold fread, fread_at. cbn [fp_file fp_pos]. unfold q_len in Hl.
  replace (Z.max 0 (Z.min n (f_len (fp_file (q_file q)) - off))) with n by lia.
  rewrite length_peek, Z2Nat.id by lia. done.
Qed.

Lemma write_at_in off l q :
  0 <= off < 2 ^ 63 -> off + Z.of_nat (length l) <= q_len q -> file_ok q ->
  exists f, write_at off l q = (true, set_q_file f q)
    /\ f_data (fp_file f) = poke (q_data q) off l /\ f_len (fp_file f) = q_len q
    /\ f_limit (fp_file f) = f_limit (fp_file (q_file q)).
Proof.
  intros Ho Hl (_ & _ & Hlim). unfold write_at, fseek. rewrite fseek_ok_in by done.
  unfold fwrite. cbn [fp_file fp_pos]. unfold q_len in *.
  rewrite fwrite_full by lia. eexists. rewrite Z.eqb_refl. split; [done|]. cbn.
  split; [done|]. split; [|done]. destruct (Z.ltb_spec 0 (Z.of_nat (length l))); lia.
Qed.

(** ** The L2 cache is transparent *)

Definition q_cs8 (q : Qcow2DiskImage) : nat := Z.to_nat (l2_entries_ (q_geo q)).

(** An L2 table inside the file, at a cluster boundary. *)
Definition table_at (q : Qcow2DiskImage) (off : Z) : Prop :=
  0 <= off /\ off + g_cs q <= q_len q /\ off mod g_cs q = 0.

Definition disk_l2 (q : Qcow2DiskImage) (off : Z) : list Z :=
  decode_be 8 (q_cs8 q) (peek (q_data q) off (g_cs q)).

(** The table as the rest of the code sees it: the cached copy, if any. *)
Definition l2_view (q : Qcow2DiskImage) (off : Z) : list Z :=
  match find_l2 off (l2_lru_ q) with Some e => l2_data e | None => disk_l2 q off end.

Definition l2_entry_ok (q : Qcow2DiskImage) (e : L2CacheEntry) : Prop :=
  table_at q (l2_offset e) /\ length (l2_data e) = q_cs8 q /\ words_ok 8 (l2_data e)
  /\ (l2_dirty e = false -> disk_l2 q (l2_offset e) = l2_data e).

Record l2_ok (q : Qcow2DiskImage) : Prop := {
  l2_geo : geo_ok (q_geo q);
  l2_file : file_ok q;
  l2_entries : Forall (l2_entry_ok q) (l2_lru_ q);
  l2_nodup : NoDup (l2_offset <$> l2_lru_ q);
  l2_size : (length (l2_lru_ q) <= kL2CacheMax)%nat
}.

Lemma aligned_apart c a b : 0 < c -> a mod c = 0 -> b mod c = 0 -> a <> b -> a + c <= b \/ b + c <= a.
Proof.
  intros Hc Ha Hb Hn. apply Z_div_exact_full_2 in Ha, Hb; [|lia|lia].
  destruct (Z.lt_trichotomy (a / c) (b / c)) as [?|[?|?]]; nia.
Qed.

Lemma find_l2_some off lru e : find_l2 off lru = Some e -> e ∈ lru /\ l2_offset e = off.
Proof.
  intros Hf. apply List.find_some in Hf as [Hi Ho]. apply Z.eqb_eq in Ho.
  by apply list_elem_of_In in Hi.
Qed.

Lemma find_l2_none off lru : find_l2 off lru = None <-> off ∉ (l2_offset <$> lru).
Proof.
  induction lru as [|e lru IH]; cbn.
  - split; [intros _; apply not_elem_of_nil|done].
  - fold (find_l2 off lru). rewrite not_elem_of_cons. destruct (Z.eqb_spec (l2_offset e) off) as [->|Hn].
    + split; [done|]. by intros [? _].
    + rewrite IH. split; [by intros ?; split|by intros [_ ?]].
Qed.

Lemma find_l2_snoc off lru v :
  find_l2 off (lru ++ [v]) =
  match find_l2 off lru with Some e => Some e | None => if l2_offset v =? off then Some v else None end.
Proof.
  induction lru as [|e lru IH]; cbn; [by destruct (l2_offset v =? off)|].
  destruct (l2_offset e =? off); [done|exact IH].
Qed.

(** Only the stream and the L2 list differ. *)
Definition only_l2 (q q' : Qcow2DiskImage) : Prop :=
  q' = set_l2_lru (l2_lru_ q') (set_q_file (q_file q') q) /\ q_len q' = q_len q
  /\ f_limit (fp_file (q_file q')) = f_limit (fp_file (q_file q)).

(** No cached L2 table covers the byte at [x]. *)
Definition not_l2 (q : Qcow2DiskImage) (x : Z) : Prop :=
  Forall (fun e => x < l2_offset e \/ l2_offset e + g_cs q <= x) (l2_lru_ q).

(** What an L2 cache operation may do. *)
Record l2_step (q q' : Qcow2DiskImage) : Prop := {
  st_only : only_l2 q q';
  st_ok : l2_ok q';
  st_view : forall off, table_at q off -> l2_view q' off = l2_view q off;
  st_frame : forall x, not_l2 q x -> get8 (q_data q') x = get8 (q_data q) x
}.

Lemma only_l2_geo q q' : only_l2 q q' -> q_geo q' = q_geo q.
Proof. intros (-> & _). done. Qed.

Lemma only_l2_table q q' off : only_l2 q q' -> table_at q' off <-> table_at q off.
Proof.
  intros Ho. unfold table_at, g_cs. pose proof Ho as (_ & Hl & _). by rewrite Hl, (only_l2_geo q q' Ho).
Qed.

Lemma only_l2_refl q : only_l2 q q.
Proof. by destruct q. Qed.

Lemma l2_step_refl q : l2_ok q -> l2_step q q.
Proof. intros Hq. constructor; [apply only_l2_refl|done|done|done]. Qed.

Lemma write_at_only off l q : exists f, snd (write_at off l q) = set_q_file f q.
Proof. unfold write_at. destruct (fwrite l (fseek off (q_file q))) as [n f]. by exists f. Qed.

Lemma EvictL2Cache_lru q : l2_lru_ (EvictL2Cache q) = removelast (l2_lru_ q).
Proof.
  unfold EvictL2Cache. destruct (last (l2_lru_ q)) as [v|] eqn:E.
  - cbn [l2_lru_ set_l2_lru]. f_equal. destruct (l2_dirty v); [|done].
    by destruct (write_at_only (l2_offset v) (encode_be 8 (l2_data v)) q) as [f ->].
  - apply last_None in E. by rewrite E.
Qed.

(** A block of [n] words of [w] bytes that fills a cluster. *)
Definition disk_words (w n : nat) (q : Qcow2DiskImage) (off : Z) : list Z :=
  decode_be w n (peek (q_data q) off (g_cs q)).

(** Writing a block back, at its own place. *)
Lemma write_words w n q off data :
  geo_ok (q_geo q) -> file_ok q -> table_at q off -> length data = n ->
  Z.of_nat (w * n) = g_cs q -> words_ok w data ->
  exists f, write_at off (encode_be w data) q = (true, set_q_file f q)
    /\ file_ok (set_q_file f q)
    /\ q_len (set_q_file f q) = q_len q /\ f_limit (fp_file f) = f_limit (fp_file (q_file q))
    /\ disk_words w n (set_q_file f q) off = data
    /\ (forall w' n' b, table_at q b -> b <> off ->
          disk_words w' n' (set_q_file f q) b = disk_words w' n' q b)
    /\ (forall x, x < off \/ off + g_cs q <= x ->
          get8 (q_data (set_q_file f q)) x = get8 (q_data q) x).
Proof.
  intros Hg Hf (Ho1 & Ho2 & Ho3) Hl Hn Hw.
  pose proof (geo_cs_bounds _ Hg) as Hcs. fold (g_cs q) in Hcs.
  assert (Hlen : Z.of_nat (length (encode_be w data)) = g_cs q)
    by (rewrite length_encode_be, Hl; exact Hn).
  pose proof Hf as (Hs & Hb & Hlim).
  destruct (write_at_in off (encode_be w data) q) as (f & E & E1 & E2 & E3); [lia|lia|done|].
  exists f. split; [done|].
  assert (D : q_data (set_q_file f q) = poke (q_data q) off (encode_be w data)) by exact E1.
  split; [|split; [exact E2|split; [exact E3|split; [|split]]]].
  - unfold file_ok. rewrite D. change (q_len (set_q_file f q)) with (f_len (fp_file f)). rewrite E2.
    cbn. rewrite E3. split; [|done]. apply store_ok_poke; [done|apply encode_be_ok].
  - unfold disk_words. rewrite D. change (g_cs (set_q_file f q)) with (g_cs q).
    rewrite <- Hlen at 1. rewrite peek_poke_same, <- Hl. by apply decode_encode_be.
  - intros w' n' b (Hb1 & Hb2 & Hb3) Hne. unfold disk_words. rewrite D.
    change (g_cs (set_q_file f q)) with (g_cs q). rewrite peek_poke_disjoint; [done|].
    rewrite Hlen. destruct (aligned_apart (g_cs q) b off); [lia|done|done|done|by left|by right].
  - intros x Hx. rewrite D. apply get8_poke_out. rewrite Hlen. lia.
Qed.

Lemma write_table q off data :
  geo_ok (q_geo q) -> file_ok q -> table_at q off -> length data = q_cs8 q ->
  words_ok 8 data ->
  exists f, write_at off (encode_be 8 data) q = (true, set_q_file f q)
    /\ file_ok (set_q_file f q) /\ only_l2 q (set_q_file f q)
    /\ disk_l2 (set_q_file f q) off = data
    /\ (forall b, table_at q b -> b <> off -> disk_l2 (set_q_file f q) b = disk_l2 q b)
    /\ (forall x, x < off \/ off + g_cs q <= x ->
          get8 (q_data (set_q_file f q)) x = get8 (q_data q) x).
Proof.
  intros Hg Hf Ho Hl Hw.
  destruct (write_words 8 (q_cs8 q) q off data) as (f & E & F1 & F2 & F3 & F4 & F5 & F6); try done.
  { unfold q_cs8, g_cs in *. pose proof (geo_l2 _ Hg). pose proof (geo_cs_bounds _ Hg). lia. }
  exists f. split; [done|]. split; [done|]. split; [by destruct q|]. split; [exact F4|].
  split; [|done]. intros b. apply F5.
Qed.

Lemma EvictL2Cache_step q :
  l2_ok q -> l2_step q (EvictL2Cache q).
Proof.
  intros Hq. pose proof Hq as [Hg Hf He Hn Hs]. unfold EvictL2Cache.
  destruct (last (l2_lru_ q)) as [v|] eqn:El; [|by apply l2_step_refl].
  apply last_Some in El as [lru El]. rewrite El in *.
  apply Forall_app in He as [He Hv]. apply Forall_inv in Hv as (Hv1 & Hv2 & Hv3 & Hv4).
  rewrite fmap_app in Hn. apply NoDup_app in Hn as (Hn1 & Hn2 & _).
  assert (Hnv : forall e, e ∈ lru -> l2_offset e <> l2_offset v).
  { intros e Hi Heq. apply (Hn2 (l2_offset e)); [by apply list_elem_of_fmap_2|].
    rewrite Heq. by apply list_elem_of_singleton. }
  (* the two cases give the same facts about the stream *)
  assert (exists q1, (if l2_dirty v then snd (write_at (l2_offset v) (encode_be 8 (l2_data v)) q) else q) = q1
    /\ file_ok q1 /\ only_l2 q q1 /\ l2_lru_ q1 = lru ++ [v]
    /\ disk_l2 q1 (l2_offset v) = l2_data v
    /\ (forall b, table_at q b -> b <> l2_offset v -> disk_l2 q1 b = disk_l2 q b)
    /\ (forall x, x < l2_offset v \/ l2_offset v + g_cs q <= x -> get8 (q_data q1) x = get8 (q_data q) x))
    as (q1 & -> & Hf1 & Ho1 & Hl1 & Hd1 & Hd2 & Hd3).
  { destruct (l2_dirty v) eqn:Ed.
    - destruct (write_table q (l2_offset v) (l2_data v)) as (f & -> & F1 & F2 & F3 & F4 & F5); try done.
      exists (set_q_file f q). done.
    - exists q. split; [done|]. split; [done|]. split; [apply only_l2_refl|]. split; [done|].
      split; [by apply Hv4|]. done. }
  rewrite Hl1, removelast_last.
  assert (Ho : only_l2 q (set_l2_lru lru q1)).
  { destruct Ho1 as (Ho1 & Ho2 & Ho3). split; [|done]. rewrite Ho1. by destruct q. }
  constructor.
  - exact Ho.
  - constructor.
    + by rewrite (only_l2_geo _ _ Ho).
    + exact Hf1.
    + apply Forall_forall. intros e Hi. pose proof (proj1 (Forall_forall _ _) He e Hi) as (H1 & H2 & H3 & H4).
      split; [by apply (only_l2_table _ _ _ Ho)|]. split; [|split; [done|]].
      * unfold q_cs8. by rewrite (only_l2_geo _ _ Ho).
      * intros Hc. change (disk_l2 (set_l2_lru lru q1)) with (disk_l2 q1).
        rewrite Hd2; [by apply H4|done|by apply Hnv].
    + exact Hn1.
    + cbn. rewrite length_app in Hs. cbn in Hs. lia.
  - intros off Hoff. unfold l2_view. cbn [l2_lru_ set_l2_lru]. rewrite El, find_l2_snoc.
    change (disk_l2 (set_l2_lru lru q1)) with (disk_l2 q1).
    destruct (find_l2 off lru) eqn:Ef; [done|].
    destruct (Z.eqb_spec (l2_offset v) off) as [<-|]; [done|]. apply Hd2; [done|congruence].
  - intros x Hx. unfold not_l2 in Hx. rewrite El in Hx. apply Forall_app in Hx as [_ Hx].
    apply Forall_inv in Hx. by apply Hd3.
Qed.

Lemma l2_step_trans q1 q2 q3 :
  l2_step q1 q2 -> (forall x, not_l2 q1 x -> not_l2 q2 x) -> l2_step q2 q3 -> l2_step q1 q3.
Proof.
  intros [(O1 & L1 & M1) _ V1 F1] Hn [(O2 & L2 & M2) K2 V2 F2]. constructor.
  - split; [rewrite O2, O1; by destruct q1|]. split; congruence.
  - done.
  - intros off Ho. rewrite V2; [by apply V1|]. by apply (only_l2_table q1 q2).
  - intros x Hx. rewrite F2 by auto. by apply F1.
Qed.

Lemma Evict_not_l2 q x : l2_ok q -> not_l2 q x -> not_l2 (EvictL2Cache q) x.
Proof.
  intros Hq. unfold not_l2. rewrite EvictL2Cache_lru.
  pose proof (st_only _ _ (EvictL2Cache_step q Hq)) as Ho.
  unfold g_cs. rewrite (only_l2_geo _ _ Ho).
  destruct (l2_lru_ q) as [|v lru _] using rev_ind; [done|]. rewrite removelast_last.
  intros H. by apply Forall_app in H as [H _].
Qed.

(** In range one eviction is enough. *)
Lemma evict_l2_loop_eq q :
  (length (l2_lru_ q) <= kL2CacheMax)%nat ->
  evict_l2_loop (length (l2_lru_ q)) q
  = if (kL2CacheMax <=? length (l2_lru_ q))%nat then EvictL2Cache q else q.
Proof.
  intros Hl. unfold kL2CacheMax in *. destruct (Nat.leb_spec 64 (length (l2_lru_ q))) as [H|H].
  - assert (Hn : length (l2_lru_ q) = 64%nat) by lia. rewrite Hn. cbn [evict_l2_loop].
    rewrite (EvictL2Cache_lru q). unfold kL2CacheMax. rewrite Hn. cbn [Nat.leb].
    destruct (l2_lru_ q) as [|v lru _] using rev_ind; [done|]. rewrite removelast_last.
    rewrite length_app in Hn. cbn in Hn. by replace (length lru) with 63%nat by lia.
  - destruct (length (l2_lru_ q)) eqn:E; [done|]. cbn [evict_l2_loop]. unfold kL2CacheMax. rewrite E.
    by destruct (Nat.leb_spec 64 (S n)); [lia|].
Qed.

Lemma evict_l2_loop_step q :
  l2_ok q -> let q' := evict_l2_loop (length (l2_lru_ q)) q in
  l2_step q q' /\ (forall x, not_l2 q x -> not_l2 q' x)
  /\ (l2_offset <$> l2_lru_ q') ⊆ (l2_offset <$> l2_lru_ q)
  /\ (length (l2_lru_ q') < kL2CacheMax)%nat.
Proof.
  intros Hq q'. unfold q'. rewrite evict_l2_loop_eq by apply Hq.
  destruct (Nat.leb_spec kL2CacheMax (length (l2_lru_ q))) as [H|H].
  - split; [by apply EvictL2Cache_step|]. split; [by intros; apply Evict_not_l2|].
    rewrite EvictL2Cache_lru. pose proof (l2_size _ Hq) as Hs. unfold kL2CacheMax in *.
    destruct (l2_lru_ q) as [|v lru _] using rev_ind; [cbn in H; lia|].
    rewrite removelast_last, fmap_app. rewrite length_app in *. cbn in *. split; [set_solver|lia].
  - by split; [apply l2_step_refl|].
Qed.

Lemma find_l2_filter off b lru :
  off <> b -> find_l2 off (List.filter (fun e => negb (l2_offset e =? b)) lru) = find_l2 off lru.
Proof.
  intros Hn. induction lru as [|e lru IH]; cbn; [done|].
  destruct (Z.eqb_spec (l2_offset e) b) as [->|]; cbn.
  - destruct (Z.eqb_spec b off); [congruence|exact IH].
  - destruct (l2_offset e =? off); [done|exact IH].
Qed.

Lemma filter_l2_subset b lru :
  (l2_offset <$> List.filter (fun e => negb (l2_offset e =? b)) lru) ⊆ (l2_offset <$> lru).
Proof.
  induction lru as [|e lru IH]; cbn; [done|].
  destruct (negb (l2_offset e =? b)); cbn; set_solver.
Qed.

Lemma filter_l2_nodup b lru :
  NoDup (l2_offset <$> lru) ->
  NoDup (l2_offset <$> List.filter (fun e => negb (l2_offset e =? b)) lru)
  /\ b ∉ (l2_offset <$> List.filter (fun e => negb (l2_offset e =? b)) lru).
Proof.
  induction lru as [|e lru IH]; cbn; [split; [constructor|apply not_elem_of_nil]|].
  intros Hn. apply NoDup_cons in Hn as [H1 H2]. destruct (IH H2) as [H3 H4].
  destruct (Z.eqb_spec (l2_offset e) b); cbn; [done|]. split; [|set_solver].
  apply NoDup_cons. split; [|done]. intros Hi. by apply filter_l2_subset in Hi.
Qed.

(** Moving the entry of [off] to the front. *)
Lemma l2_to_front_step q off e :
  l2_ok q -> find_l2 off (l2_lru_ q) = Some e ->
  l2_step q (set_l2_lru (l2_to_front off (l2_lru_ q)) q).
Proof.
  intros Hq Hf. pose proof (find_l2_some _ _ _ Hf) as [Hi Ho]. unfold l2_to_front. rewrite Hf.
  set (rest := List.filter _ _). pose proof Hq as [Hg Hfl He Hn Hs].
  pose proof (proj1 (Forall_forall _ _) He) as He'.
  destruct (filter_l2_nodup off _ Hn) as [Hr1 Hr2]. fold rest in Hr1, Hr2.
  assert (Hsub : forall x, x ∈ rest -> x ∈ l2_lru_ q).
  { intros x Hx. apply list_elem_of_In in Hx. apply List.filter_In in Hx as [Hx _].
    by apply list_elem_of_In. }
  constructor; [by destruct q| | |done].
  - constructor; [done|done| | |].
    + constructor; [by apply He'|]. apply Forall_forall. intros x Hx. by apply He', Hsub.
    + cbn. rewrite Ho. by apply NoDup_cons.
    + cbn. etransitivity; [|exact Hs].
      destruct (list_elem_of_split (l2_lru_ q) e Hi) as (l1 & l2 & E). unfold rest. rewrite E.
      rewrite List.filter_app, !length_app. cbn [List.filter length]. rewrite Ho, Z.eqb_refl. cbn [negb].
      pose proof (List.filter_length_le (fun e => negb (l2_offset e =? off)) l1).
      pose proof (List.filter_length_le (fun e => negb (l2_offset e =? off)) l2). lia.
  - intros b Hb. unfold l2_view. cbn [l2_lru_ set_l2_lru]. unfold find_l2 at 1. cbn [List.find].
    rewrite Ho. destruct (Z.eqb_spec off b) as [<-|Hn']; [by rewrite Hf|].
    fold (find_l2 b rest). unfold rest. rewrite find_l2_filter by done. done.
Qed.

(** Loading a table that is not cached. *)
Lemma l2_load_step q off :
  l2_ok q -> table_at q off -> (length (l2_lru_ q) < kL2CacheMax)%nat ->
  off ∉ (l2_offset <$> l2_lru_ q) ->
  exists f, read_at off (l2_entries_ (q_geo q) * 8) q
      = (peek (q_data q) off (g_cs q), set_q_file f q)
    /\ l2_step q (set_l2_lru (MkL2 off (disk_l2 q off) false :: l2_lru_ q) (set_q_file f q)).
Proof.
  intros Hq Hoff Hs Hni. pose proof Hq as [Hg Hfl He Hn _]. pose proof Hoff as (Ho1 & Ho2 & Ho3).
  pose proof (geo_cs_bounds _ Hg) as Hcs. pose proof (geo_l2 _ Hg) as H8. fold (g_cs q) in Hcs, H8.
  pose proof Hfl as (Hst & Hb & Hlim). rewrite H8. eexists.
  rewrite read_at_in by lia. split; [reflexivity|].
  set (f := MkFile _ _). set (q' := set_l2_lru _ _).
  assert (Ho : only_l2 q q') by (by destruct q).
  assert (Hd : forall b, disk_l2 q' b = disk_l2 q b) by done.
  constructor; [done| | |done].
  - constructor; [done|done| | |].
    + constructor.
      * split; [by apply (only_l2_table _ _ _ Ho)|]. cbn [l2_data l2_dirty l2_offset].
        split; [apply length_decode_be|]. split; [|done].
        apply decode_be_words; [by apply peek_ok|]. rewrite length_peek. unfold q_cs8, g_cs in *. lia.
      * eapply Forall_impl; [exact He|]. intros e (H1 & H2 & H3 & H4).
        split; [by apply (only_l2_table _ _ _ Ho)|done].
    + cbn. by apply NoDup_cons.
    + cbn. lia.
  - intros b Hbt. unfold l2_view. cbn [l2_lru_ set_l2_lru q']. unfold find_l2 at 1. cbn [List.find l2_offset].
    destruct (Z.eqb_spec off b) as [<-|Hnb].
    + apply find_l2_none in Hni. by rewrite Hni.
    + fold (find_l2 b (l2_lru_ q)). done.
Qed.

Lemma GetL2Table_step q off :
  l2_ok q -> table_at q off ->
  exists q' d rest, GetL2Table off q = (q', true) /\ l2_step q q'
  /\ l2_lru_ q' = MkL2 off (l2_view q off) d :: rest
  /\ (l2_offset <$> l2_lru_ q') ⊆ off :: (l2_offset <$> l2_lru_ q).
Proof.
  intros Hq Hoff. unfold GetL2Table. destruct (find_l2 off (l2_lru_ q)) as [e|] eqn:Ef.
  - pose proof (l2_to_front_step q off e Hq Ef) as H1.
    exists (set_l2_lru (l2_to_front off (l2_lru_ q)) q), (l2_dirty e).
    eexists. split; [done|]. split; [done|]. cbn [l2_lru_ set_l2_lru].
    unfold l2_to_front, l2_view. rewrite Ef. apply find_l2_some in Ef as [_ <-].
    split; [by destruct e|]. rewrite fmap_cons. pose proof (filter_l2_subset (l2_offset e) (l2_lru_ q)).
    set_solver.
  - destruct (evict_l2_loop_step q Hq) as (H1 & Hn1 & Hsub & Hlen).
    set (q1 := evict_l2_loop _ q) in *. pose proof (st_only _ _ H1) as Ho1.
    apply find_l2_none in Ef as Hni.
    destruct (l2_load_step q1 off) as (f & Er & H2); [apply H1| |done|set_solver|].
    { by apply (only_l2_table q q1). }
    rewrite <- (only_l2_geo _ _ Ho1), Er. rewrite length_peek.
    pose proof (geo_l2 _ (l2_geo _ (st_ok _ _ H1))) as H8. fold (g_cs q1) in H8.
    pose proof (geo_cs_bounds _ (l2_geo _ Hq)). rewrite H8, Z2Nat.id, Z.eqb_refl.
    2: { unfold g_cs. rewrite (only_l2_geo _ _ Ho1). lia. }
    do 3 eexists. split; [reflexivity|]. split; [exact (l2_step_trans _ _ _ H1 Hn1 H2)|].
    cbn [l2_lru_ set_l2_lru]. split; [|rewrite fmap_cons; set_solver].
    f_equal. f_equal. fold (q_cs8 q1). fold (disk_l2 q1 off).
    rewrite <- (st_view _ _ H1 off Hoff). unfold l2_view.
    assert (Hn2 : find_l2 off (l2_lru_ q1) = None) by (apply find_l2_none; set_solver).
    by rewrite Hn2.
Qed.

(** C33. The L2 cache is transparent: looking a table up returns, at the front of
    the cache, exactly its current contents, and changes the contents of no
    table, cached, evicted or on disk, and no byte of the file outside the
    cached tables; the cache never exceeds its 64 entries. *)
Theorem GetL2Table_transparent q off :
  l2_ok q -> table_at q off ->
  exists q' d rest, GetL2Table off q = (q', true) /\ l2_ok q' /\ only_l2 q q'
  /\ l2_lru_ q' = MkL2 off (l2_view q off) d :: rest
  /\ (forall b, table_at q b -> l2_view q' b = l2_view q b)
  /\ (forall x, not_l2 q x -> get8 (q_data q') x = get8 (q_data q) x).
Proof.
  intros Hq Hoff. destruct (GetL2Table_step q off Hq Hoff) as (q' & d & rest & E & [H1 H2 H3 H4] & Hl & _).
  by exists q', d, rest.
Qed.

(** ** The geometry never changes *)

Create HintDb geo.

Lemma read_at_geo off n q l q' : read_at off n q = (l, q') -> q_geo q' = q_geo q.
Proof. unfold read_at. destruct (fread n (fseek off (q_file q))). by intros [= <- <-]. Qed.

Lemma write_at_geo off l q : q_geo (snd (write_at off l q)) = q_geo q.
Proof. by destruct (write_at_only off l q) as [f ->]. Qed.

Lemma evict_l2_geo q : q_geo (EvictL2Cache q) = q_geo q.
Proof.
  unfold EvictL2Cache. destruct (last (l2_lru_ q)) as [v|]; [|done]. cbn [q_geo set_l2_lru].
  destruct (l2_dirty v); [apply write_at_geo|done].
Qed.

Lemma evict_rfb_geo q : q_geo (EvictRfbCache q) = q_geo q.
Proof.
  unfold EvictRfbCache. destruct (last (rfb_lru_ q)) as [v|]; [|done]. cbn [q_geo set_rfb_lru].
  destruct (rfb_dirty v); [apply write_at_geo|done].
Qed.

Lemma evict_l2_loop_geo fuel q : q_geo (evict_l2_loop fuel q) = q_geo q.
Proof.
  revert q. induction fuel as [|fuel IH]; intros q; cbn [evict_l2_loop]; [done|].
  destruct (_ <=? _)%nat; [|done]. by rewrite IH, evict_l2_geo.
Qed.

Lemma evict_rfb_loop_geo fuel q : q_geo (evict_rfb_loop fuel q) = q_geo q.
Proof.
  revert q. induction fuel as [|fuel IH]; intros q; cbn [evict_rfb_loop]; [done|].
  destruct (_ <=? _)%nat; [|done]. by rewrite IH, evict_rfb_geo.
Qed.

Lemma GetL2Table_geo off q : q_geo (fst (GetL2Table off q)) = q_geo q.
Proof.
  unfold GetL2Table. destruct (find_l2 off (l2_lru_ q)); [done|].
  destruct (read_at off _ _) as [l q2] eqn:E. apply read_at_geo in E.
  destruct (_ =? _); cbn; by rewrite E, evict_l2_loop_geo.
Qed.

Lemma load_rfb_geo off q : q_geo (fst (load_rfb off q)) = q_geo q.
Proof.
  unfold load_rfb. destruct (List.find _ (rfb_lru_ q)); [done|].
  destruct (read_at off _ _) as [l q2] eqn:E. apply read_at_geo in E.
  destruct (_ =? _); cbn; by rewrite E, evict_rfb_loop_geo.
Qed.

Lemma l2_set_geo i v q : q_geo (l2_set i v q) = q_geo q.
Proof. unfold l2_set. by destruct (l2_lru_ q). Qed.

Lemma rfb_set_geo i v q : q_geo (rfb_set i v q) = q_geo q.
Proof. unfold rfb_set. by destruct (rfb_lru_ q). Qed.

Lemma FreeCluster_geo off q q' : FreeCluster off q = Some q' -> q_geo q' = q_geo q.
Proof.
  unfold FreeCluster, GetRefcountBlock_with.
  destruct (_ <=? _); cbn [mbind option_bind negb].
  { by intros [= <-]. }
  destruct (_ =? 0); cbn [mbind option_bind negb].
  { by intros [= <-]. }
  pose proof (load_rfb_geo (nth (Z.to_nat ((off .>> cluster_bits_ (q_geo q)) / rfb_entries_ (q_geo q)))
    (refcount_table_ q) 0) q) as E.
  destruct (load_rfb _ q) as [q1 ok]. cbn [fst] in E. destruct ok; cbn [negb]; [|by intros [= <-]].
  destruct (rfb_get _ q1 =? 0); [by intros [= <-]|].
  destruct (_ && _); intros [= <-]; cbn; by rewrite rfb_set_geo.
Qed.

Lemma free_clusters_geo l q q' : free_clusters l q = Some q' -> q_geo q' = q_geo q.
Proof.
  revert q. induction l as [|o l IH]; intros q; cbn [free_clusters]; [by intros [= <-]|].
  intros H. apply bind_Some in H as (q1 & H1 & H2). apply FreeCluster_geo in H1. apply IH in H2. congruence.
Qed.

(** ** The refcount cache is transparent *)

Definition q_rfb (q : Qcow2DiskImage) : nat := Z.to_nat (rfb_entries_ (q_geo q)).
Definition disk_rfb (q : Qcow2DiskImage) (off : Z) : list Z := disk_words 2 (q_rfb q) q off.
Definition find_rfb (off : Z) (lru : list RfbCacheEntry) : option RfbCacheEntry :=
  List.find (rfb_hit off) lru.

(** A refcount block as the rest of the code sees it. *)
Definition rfb_view (q : Qcow2DiskImage) (off : Z) : list Z :=
  match find_rfb off (rfb_lru_ q) with Some e => rfb_data e | None => disk_rfb q off end.

Definition rfb_entry_ok (q : Qcow2DiskImage) (e : RfbCacheEntry) : Prop :=
  table_at q (rfb_offset e) /\ rfb_mapped e = true /\ length (rfb_data e) = q_rfb q
  /\ words_ok 2 (rfb_data e)
  /\ (rfb_dirty e = false -> disk_rfb q (rfb_offset e) = rfb_data e).

Record rfb_ok (q : Qcow2DiskImage) : Prop := {
  ro_geo : geo_ok (q_geo q);
  ro_file : file_ok q;
  ro_entries : Forall (rfb_entry_ok q) (rfb_lru_ q);
  ro_nodup : NoDup (rfb_offset <$> rfb_lru_ q);
  ro_size : (length (rfb_lru_ q) <= kRfbCacheMax)%nat
}.

(** Only the stream and the refcount list differ. *)
Definition only_rfb (q q' : Qcow2DiskImage) : Prop :=
  q' = set_rfb_lru (rfb_lru_ q') (set_q_file (q_file q') q) /\ q_len q' = q_len q
  /\ f_limit (fp_file (q_file q')) = f_limit (fp_file (q_file q)).

Record rfb_step (q q' : Qcow2DiskImage) : Prop := {
  rs_only : only_rfb q q';
  rs_ok : rfb_ok q';
  rs_view : forall off, table_at q off -> rfb_view q' off = rfb_view q off
}.

Lemma only_rfb_geo q q' : only_rfb q q' -> q_geo q' = q_geo q.
Proof. intros (-> & _). done. Qed.

Lemma only_rfb_table q q' off : only_rfb q q' -> table_at q' off <-> table_at q off.
Proof.
  intros Ho. unfold table_at, g_cs. pose proof Ho as (_ & Hl & _). by rewrite Hl, (only_rfb_geo q q' Ho).
Qed.

Lemma only_rfb_refl q : only_rfb q q.
Proof. by destruct q. Qed.

Lemma rfb_step_refl q : rfb_ok q -> rfb_step q q.
Proof. intros Hq. constructor; [apply only_rfb_refl|done|done]. Qed.

Lemma rfb_step_trans q1 q2 q3 : rfb_step q1 q2 -> rfb_step q2 q3 -> rfb_step q1 q3.
Proof.
  intros [(O1 & L1 & M1) _ V1] [(O2 & L2 & M2) K2 V2]. constructor; [|done|].
  - split; [rewrite O2, O1; by destruct q1|]. split; congruence.
  - intros off Ho. rewrite V2; [by apply V1|]. by apply (only_rfb_table q1 q2).
Qed.

Lemma q_rfb_cs q : geo_ok (q_geo q) -> Z.of_nat (2 * q_rfb q) = g_cs q.
Proof.
  intros Hg. unfold q_rfb, g_cs. pose proof (geo_rfb _ Hg). pose proof (geo_cs_bounds _ Hg). lia.
Qed.

Lemma find_rfb_some off lru e : find_rfb off lru = Some e -> e ∈ lru /\ rfb_offset e = off.
Proof.
  intros Hf. apply List.find_some in Hf as [Hi Ho]. apply andb_true_iff in Ho as [_ Ho].
  apply Z.eqb_eq in Ho. by apply list_elem_of_In in Hi.
Qed.

Lemma find_rfb_none off lru :
  Forall (fun e => rfb_mapped e = true) lru ->
  find_rfb off lru = None <-> off ∉ (rfb_offset <$> lru).
Proof.
  induction 1 as [|e lru Hm _ IH]; cbn.
  - split; [intros _; apply not_elem_of_nil|done].
  - fold (find_rfb off lru). rewrite not_elem_of_cons. unfold rfb_hit. rewrite Hm. cbn [andb].
    destruct (Z.eqb_spec (rfb_offset e) off) as [->|Hn].
    + split; [done|]. by intros [? _].
    + rewrite IH. split; [by intros ?; split|by intros [_ ?]].
Qed.

Lemma entries_mapped q : Forall (rfb_entry_ok q) (rfb_lru_ q) ->
  Forall (fun e => rfb_mapped e = true) (rfb_lru_ q).
Proof. intros H. eapply Forall_impl; [exact H|]. intros e He. apply He. Qed.

Lemma find_rfb_snoc off lru v :
  find_rfb off (lru ++ [v]) =
  match find_rfb off lru with Some e => Some e | None => if rfb_hit off v then Some v else None end.
Proof.
  induction lru as [|e lru IH]; cbn; [by destruct (rfb_hit off v)|].
  destruct (rfb_hit off e); [done|exact IH].
Qed.

Lemma unmap_id off (lru : list RfbCacheEntry) : off ∉ (rfb_offset <$> lru) -> unmap_rfb off <$> lru = lru.
Proof.
  induction lru as [|e lru IH]; cbn; [done|]. rewrite not_elem_of_cons. intros [H1 H2].
  rewrite IH by done. unfold unmap_rfb. by destruct (Z.eqb_spec (rfb_offset e) off); [congruence|].
Qed.

Lemma EvictRfbCache_step q :
  rfb_ok q -> rfb_step q (EvictRfbCache q) /\ rfb_lru_ (EvictRfbCache q) = removelast (rfb_lru_ q).
Proof.
  intros Hq. pose proof Hq as [Hg Hf He Hn Hs]. unfold EvictRfbCache.
  destruct (last (rfb_lru_ q)) as [v|] eqn:El.
  2: { split; [by apply rfb_step_refl|]. apply last_None in El. by rewrite El. }
  apply last_Some in El as [lru El]. rewrite El in *.
  apply Forall_app in He as [He Hv]. apply Forall_inv in Hv as (Hv1 & Hvm & Hv2 & Hv3 & Hv4).
  rewrite fmap_app in Hn. apply NoDup_app in Hn as (Hn1 & Hn2 & _).
  assert (Hnv : rfb_offset v ∉ (rfb_offset <$> lru)).
  { intros Hi. apply (Hn2 (rfb_offset v) Hi). by apply list_elem_of_singleton. }
  assert (exists q1, (if rfb_dirty v then snd (write_at (rfb_offset v) (encode_be 2 (rfb_data v)) q) else q) = q1
    /\ file_ok q1 /\ only_rfb q q1 /\ rfb_lru_ q1 = lru ++ [v]
    /\ disk_rfb q1 (rfb_offset v) = rfb_data v
    /\ (forall b, table_at q b -> b <> rfb_offset v -> disk_rfb q1 b = disk_rfb q b))
    as (q1 & -> & Hf1 & Ho1 & Hl1 & Hd1 & Hd2).
  { destruct (rfb_dirty v) eqn:Ed.
    - destruct (write_words 2 (q_rfb q) q (rfb_offset v) (rfb_data v))
        as (f & -> & F1 & F2 & F3 & F4 & F5 & _); try done; [by apply q_rfb_cs|].
      exists (set_q_file f q). split; [done|]. split; [done|]. split; [by destruct q|].
      split; [done|]. split; [exact F4|]. intros b. apply F5.
    - exists q. split; [done|]. split; [done|]. split; [apply only_rfb_refl|]. split; [done|].
      split; [by apply Hv4|done]. }
  rewrite Hl1, !removelast_last, unmap_id by done. split; [|done].
  assert (Ho : only_rfb q (set_rfb_lru lru q1)).
  { destruct Ho1 as (Ho1 & Ho2 & Ho3). split; [|done]. rewrite Ho1. by destruct q. }
  constructor; [exact Ho| |].
  - constructor; [by rewrite (only_rfb_geo _ _ Ho)|exact Hf1| |exact Hn1|].
    + apply Forall_forall. intros e Hi.
      pose proof (proj1 (Forall_forall _ _) He e Hi) as (H1 & H2 & H3 & H4 & H5).
      split; [by apply (only_rfb_table _ _ _ Ho)|]. split; [done|].
      split; [unfold q_rfb; by rewrite (only_rfb_geo _ _ Ho)|]. split; [done|].
      intros Hc. change (disk_rfb (set_rfb_lru lru q1)) with (disk_rfb q1).
      rewrite Hd2; [by apply H5|done|]. intros Heq. apply Hnv. rewrite <- Heq.
      by apply list_elem_of_fmap_2.
    + cbn. rewrite length_app in Hs. cbn in Hs. lia.
  - intros off Hoff. unfold rfb_view. cbn [rfb_lru_ set_rfb_lru]. rewrite El, find_rfb_snoc.
    change (disk_rfb (set_rfb_lru lru q1)) with (disk_rfb q1).
    destruct (find_rfb off lru) eqn:Ef; [done|]. unfold rfb_hit. rewrite Hvm. cbn [andb].
    destruct (Z.eqb_spec (rfb_offset v) off) as [<-|]; [done|]. apply Hd2; [done|congruence].
Qed.

Lemma evict_rfb_loop_step q :
  rfb_ok q -> let q' := evict_rfb_loop (length (rfb_lru_ q)) q in
  rfb_step q q' /\ (rfb_offset <$> rfb_lru_ q') ⊆ (rfb_offset <$> rfb_lru_ q)
  /\ (length (rfb_lru_ q') < kRfbCacheMax)%nat.
Proof.
  intros Hq q'. unfold q'. clear q'. pose proof (ro_size _ Hq) as Hs. unfold kRfbCacheMax in *.
  destruct (Nat.lt_ge_cases (length (rfb_lru_ q)) 64) as [H|H].
  - assert (E : evict_rfb_loop (length (rfb_lru_ q)) q = q).
    { destruct (length (rfb_lru_ q)) eqn:E; [done|]. cbn [evict_rfb_loop]. unfold kRfbCacheMax.
      rewrite E. by destruct (Nat.leb_spec 64 (S n)); [lia|]. }
    rewrite E. split; [by apply rfb_step_refl|]. by split.
  - destruct (EvictRfbCache_step q Hq) as [H1 H2].
    assert (Hn : length (rfb_lru_ q) = 64%nat) by lia.
    assert (Hr : length (rfb_lru_ (EvictRfbCache q)) = 63%nat
                 /\ (rfb_offset <$> rfb_lru_ (EvictRfbCache q)) ⊆ (rfb_offset <$> rfb_lru_ q)).
    { rewrite H2. destruct (rfb_lru_ q) as [|v lru _] using rev_ind; [done|].
      rewrite removelast_last, fmap_app. rewrite length_app in Hn. cbn in Hn. split; [lia|].
      intros x Hx. apply elem_of_app. by left. }
    destruct Hr as [Hr1 Hr2].
    assert (E : evict_rfb_loop (length (rfb_lru_ q)) q = EvictRfbCache q).
    { rewrite Hn. cbn [evict_rfb_loop]. unfold kRfbCacheMax. rewrite Hn, Hr1. done. }
    rewrite E, Hr1. split; [done|]. split; [done|lia].
Qed.

Lemma find_rfb_filter off b lru :
  off <> b -> find_rfb off (List.filter (fun e => negb (rfb_hit b e)) lru) = find_rfb off lru.
Proof.
  intros Hn. unfold find_rfb. induction lru as [|e lru IH]; cbn; [done|].
  destruct (rfb_hit b e) eqn:Hb; cbn [negb].
  - rewrite IH. destruct (rfb_hit off e) eqn:Ho; [|done].
    apply andb_true_iff in Hb as [_ Hb], Ho as [_ Ho]. apply Z.eqb_eq in Hb, Ho. congruence.
  - cbn. destruct (rfb_hit off e); [done|exact IH].
Qed.

Lemma filter_rfb b (lru : list RfbCacheEntry) :
  Forall (fun e => rfb_mapped e = true) lru -> NoDup (rfb_offset <$> lru) ->
  let l := List.filter (fun e => negb (rfb_hit b e)) lru in
  (forall e, e ∈ l -> e ∈ lru) /\ NoDup (rfb_offset <$> l) /\ b ∉ (rfb_offset <$> l)
  /\ (b ∈ (rfb_offset <$> lru) -> S (length l) = length lru).
Proof.
  induction 1 as [|e lru Hm _ IH]; intros Hn; cbv zeta.
  - split; [done|]. split; [constructor|]. split; [apply not_elem_of_nil|].
    intros Hi. by apply elem_of_nil in Hi.
  - rewrite fmap_cons in *. apply NoDup_cons in Hn as [H1 H2]. destruct (IH H2) as (I1 & I2 & I3 & I4).
    assert (E : List.filter (fun e => negb (rfb_hit b e)) (e :: lru)
              = if rfb_offset e =? b then List.filter (fun e => negb (rfb_hit b e)) lru
                else e :: List.filter (fun e => negb (rfb_hit b e)) lru).
    { cbn. unfold rfb_hit at 1. rewrite Hm. cbn [andb]. by destruct (_ =? _). }
    rewrite E. clear E.
    assert (Hsame : b ∉ (rfb_offset <$> lru) -> List.filter (fun e => negb (rfb_hit b e)) lru = lru).
    { intros Hb. clear -Hb. induction lru as [|x lru IH]; cbn; [done|].
      apply not_elem_of_cons in Hb as [Hx Hb].
      unfold rfb_hit at 1. destruct (Z.eqb_spec (rfb_offset x) b); [congruence|].
      rewrite andb_false_r. cbn. by rewrite IH. }
    destruct (Z.eqb_spec (rfb_offset e) b) as [<-|Hne]; cbn.
    + split; [intros x Hx; apply elem_of_cons; right; by apply I1|]. split; [done|].
      split; [done|]. intros _. by rewrite Hsame.
    + split; [|split; [|split]].
      * intros x Hx. apply elem_of_cons in Hx as [->|Hx]; apply elem_of_cons; [by left|right; by apply I1].
      * apply NoDup_cons. split; [|done]. intros Hi. apply H1.
        apply list_elem_of_fmap in Hi as (x & -> & Hx). apply list_elem_of_fmap_2. by apply I1.
      * rewrite not_elem_of_cons. split; [congruence|done].
      * intros Hi. apply elem_of_cons in Hi as [?|Hi]; [congruence|]. by rewrite I4.
Qed.

Lemma rfb_to_front_step q off e :
  rfb_ok q -> find_rfb off (rfb_lru_ q) = Some e ->
  rfb_step q (set_rfb_lru (e :: List.filter (fun e => negb (rfb_hit off e)) (rfb_lru_ q)) q).
Proof.
  intros Hq Hf. pose proof (find_rfb_some _ _ _ Hf) as [Hi Ho]. pose proof Hq as [Hg Hfl He Hn Hs].
  pose proof (entries_mapped q He) as Hm. pose proof (proj1 (Forall_forall _ _) He) as He'.
  destruct (filter_rfb off _ Hm Hn) as (F1 & F2 & F3 & F4).
  set (rest := List.filter _ _) in *. constructor; [by destruct q| |].
  - constructor; [done|done| | |].
    + constructor; [by apply He'|]. apply Forall_forall. intros x Hx. by apply He', F1.
    + cbn. rewrite Ho. by apply NoDup_cons.
    + cbn. rewrite F4; [done|]. rewrite <- Ho. by apply list_elem_of_fmap_2.
  - intros b Hb. unfold rfb_view. cbn [rfb_lru_ set_rfb_lru]. unfold find_rfb at 1. cbn [List.find].
    unfold rfb_hit at 1. pose proof (He' e Hi) as (_ & -> & _). cbn [andb]. rewrite Ho.
    destruct (Z.eqb_spec off b) as [<-|Hn']; [by rewrite Hf|].
    fold (find_rfb b rest). unfold rest. by rewrite find_rfb_filter.
Qed.

Lemma rfb_load_step q off :
  rfb_ok q -> table_at q off -> (length (rfb_lru_ q) < kRfbCacheMax)%nat ->
  off ∉ (rfb_offset <$> rfb_lru_ q) ->
  exists f, read_at off (rfb_entries_ (q_geo q) * 2) q
      = (peek (q_data q) off (g_cs q), set_q_file f q)
    /\ rfb_step q (rfb_push off (disk_rfb q off) false (set_q_file f q))
    /\ rfb_lru_ (rfb_push off (disk_rfb q off) false (set_q_file f q))
       = MkRfb off (disk_rfb q off) false true :: rfb_lru_ q.
Proof.
  intros Hq Hoff Hs Hni. pose proof Hq as [Hg Hfl He Hn _]. pose proof Hoff as (Ho1 & Ho2 & Ho3).
  pose proof (geo_cs_bounds _ Hg) as Hcs. pose proof (geo_rfb _ Hg) as H2. fold (g_cs q) in Hcs, H2.
  pose proof Hfl as (Hst & Hb & Hlim). rewrite H2. eexists.
  rewrite read_at_in by lia. split; [reflexivity|].
  set (f := MkFile _ _). unfold rfb_push. cbn [rfb_lru_ set_rfb_lru set_q_file].
  rewrite unmap_id by done. split; [|done]. set (q' := set_rfb_lru _ _).
  assert (Ho : only_rfb q q') by (by destruct q).
  assert (Hd : forall b, disk_rfb q' b = disk_rfb q b) by done.
  constructor; [done| |].
  - constructor; [done|done| | |].
    + constructor.
      * split; [by apply (only_rfb_table _ _ _ Ho)|]. split; [done|].
        cbn [rfb_data rfb_dirty rfb_offset]. split; [apply length_decode_be|]. split; [|done].
        apply decode_be_words; [by apply peek_ok|]. rewrite length_peek.
        pose proof (q_rfb_cs q Hg). lia.
      * eapply Forall_impl; [exact He|]. intros e (H1 & H3 & H4 & H5 & H6).
        split; [by apply (only_rfb_table _ _ _ Ho)|done].
    + cbn. by apply NoDup_cons.
    + cbn. lia.
  - intros b Hbt. unfold rfb_view. cbn [rfb_lru_ set_rfb_lru q']. unfold find_rfb at 1. cbn [List.find].
    unfold rfb_hit at 1. cbn [rfb_mapped rfb_offset andb].
    destruct (Z.eqb_spec off b) as [<-|Hnb].
    + apply (find_rfb_none off _ (entries_mapped q He)) in Hni. by rewrite Hni.
    + fold (find_rfb b (rfb_lru_ q)). done.
Qed.

Lemma load_rfb_step q off :
  rfb_ok q -> table_at q off ->
  exists q' d rest, load_rfb off q = (q', true) /\ rfb_step q q'
  /\ rfb_lru_ q' = MkRfb off (rfb_view q off) d true :: rest.
Proof.
  intros Hq Hoff. unfold load_rfb. fold (find_rfb off (rfb_lru_ q)).
  destruct (find_rfb off (rfb_lru_ q)) as [e|] eqn:Ef.
  - pose proof (rfb_to_front_step q off e Hq Ef) as H1.
    eexists _, (rfb_dirty e), _. split; [reflexivity|]. split; [exact H1|].
    cbn [rfb_lru_ set_rfb_lru]. unfold rfb_view. rewrite Ef. apply find_rfb_some in Ef as [Hi Ho].
    pose proof (proj1 (Forall_forall _ _) (ro_entries _ Hq) e Hi) as (_ & Hm & _).
    destruct e. cbn in *. subst. reflexivity.
  - destruct (evict_rfb_loop_step q Hq) as (H1 & Hsub & Hlen).
    set (q1 := evict_rfb_loop _ q) in *. pose proof (rs_only _ _ H1) as Ho1.
    apply (find_rfb_none off _ (entries_mapped q (ro_entries _ Hq))) in Ef as Hni.
    assert (Hni1 : off ∉ (rfb_offset <$> rfb_lru_ q1)) by (intros Hi; apply Hni, Hsub, Hi).
    destruct (rfb_load_step q1 off) as (f & Er & H2 & Hl2); [apply H1| |done|done|].
    { by apply (only_rfb_table q q1). }
    rewrite <- (only_rfb_geo _ _ Ho1), Er. rewrite length_peek.
    pose proof (geo_rfb _ (ro_geo _ (rs_ok _ _ H1))) as H8. fold (g_cs q1) in H8.
    pose proof (geo_cs_bounds _ (ro_geo _ (rs_ok _ _ H1))) as Hcs. fold (g_cs q1) in Hcs.
    rewrite H8, Z2Nat.id, Z.eqb_refl by lia.
    do 3 eexists. split; [reflexivity|]. split; [exact (rfb_step_trans _ _ _ H1 H2)|].
    etransitivity; [exact Hl2|]. f_equal. f_equal.
    rewrite <- (rs_view _ _ H1 off Hoff). unfold rfb_view.
    by rewrite (proj2 (find_rfb_none off _ (entries_mapped q1 (ro_entries _ (rs_ok _ _ H1)))) Hni1).
Qed.

(** ** Reference counts *)

(** The refcount block of a cluster, if the table has one. *)
Definition block_of (q : Qcow2DiskImage) (ci : Z) : Z :=
  nth (Z.to_nat (ci / rfb_entries_ (q_geo q))) (refcount_table_ q) 0.

Definition covered (q : Qcow2DiskImage) (ci : Z) : Prop :=
  0 <= ci /\ ci / rfb_entries_ (q_geo q) < Z.of_nat (length (refcount_table_ q))
  /\ block_of q ci <> 0 /\ table_at q (block_of q ci).

Definition refcount (q : Qcow2DiskImage) (ci : Z) : Z :=
  nth (Z.to_nat (ci mod rfb_entries_ (q_geo q))) (rfb_view q (block_of q ci)) 0.

(** Distinct table entries name distinct blocks. *)
Definition blocks_distinct (q : Qcow2DiskImage) : Prop :=
  forall i j, nth i (refcount_table_ q) 0 <> 0 ->
    nth i (refcount_table_ q) 0 = nth j (refcount_table_ q) 0 -> i = j.

(** Storing a count through the pointer at the front, and marking it dirty. *)
Lemma store_count q ci v d rest :
  rfb_ok q -> covered q ci -> blocks_distinct q -> in_width 16 v ->
  rfb_lru_ q = MkRfb (block_of q ci) (rfb_view q (block_of q ci)) d true :: rest ->
  let q' := rfb_mark_dirty ci (rfb_set (ci mod rfb_entries_ (q_geo q)) v q) in
  q' = set_rfb_lru (rfb_lru_ q') q /\ rfb_ok q' /\ refcount q' ci = v
  /\ forall k, covered q k -> k <> ci -> refcount q' k = refcount q k.
Proof.
  intros Hq (C1 & C2 & C3 & C4) Hdis Hv Hl q'.
  pose proof Hq as [Hg Hf He Hn Hs]. rewrite Hl in He, Hn, Hs.
  inversion He as [|? ? (E1 & _ & E2 & E3 & _) He']; subst. clear He. cbn in E1, E2, E3.
  apply NoDup_cons in Hn as [Hn1 Hn2]. cbn in Hn1.
  set (off := block_of q ci) in *. set (i := Z.to_nat (ci mod rfb_entries_ (q_geo q))) in *.
  assert (Hlru : rfb_lru_ q' = MkRfb off (<[i := v]> (rfb_view q off)) true true :: rest).
  { unfold q', rfb_set, rfb_mark_dirty. rewrite Hl. cbn. fold (block_of q ci). fold off.
    unfold rfb_hit at 1. cbn. rewrite Z.eqb_refl. f_equal.
    clear -Hn1. induction rest as [|e rest IH]; [done|]. cbn in Hn1 |- *.
    apply not_elem_of_cons in Hn1 as [H1 H2]. rewrite IH by done.
    f_equal. unfold rfb_hit. destruct (Z.eqb_spec (rfb_offset e) off); [congruence|]. by rewrite andb_false_r. }
  assert (Hq' : q' = set_rfb_lru (rfb_lru_ q') q).
  { unfold q', rfb_set, rfb_mark_dirty. rewrite Hl. by destruct q. }
  assert (Hview : forall b, rfb_view q' b = if b =? off then <[i := v]> (rfb_view q off) else rfb_view q b).
  { intros b. unfold rfb_view at 1. rewrite Hlru. unfold find_rfb. cbn [List.find].
    unfold rfb_hit at 1. cbn [rfb_mapped rfb_offset andb]. rewrite Z.eqb_sym.
    destruct (Z.eqb_spec b off) as [->|Hb]; [done|]. unfold rfb_view. rewrite Hl. unfold find_rfb. cbn [List.find].
    unfold rfb_hit at 2. cbn [rfb_mapped rfb_offset andb].
    destruct (Z.eqb_spec off b); [congruence|]. rewrite Hq'. done. }
  pose proof (geo_cs_bounds _ Hg) as Hcs. pose proof (geo_rfb _ Hg) as H2.
  assert (Hi : (i < q_rfb q)%nat).
  { unfold i, q_rfb. apply Z2Nat.inj_lt; [apply Z.mod_pos_bound; lia|lia|apply Z.mod_pos_bound; lia]. }
  split; [exact Hq'|]. split; [|split].
  - rewrite Hq', Hlru. constructor; [done|done| |by apply NoDup_cons|exact Hs].
    constructor; [|eapply Forall_impl; [exact He'|]; done].
    split; [exact E1|]. split; [done|]. cbn. split; [by rewrite length_insert|]. split; [|done].
    by apply Forall_insert.
  - unfold refcount. rewrite Hview.
    replace (block_of q' ci) with off by (rewrite Hq'; done). rewrite Z.eqb_refl.
    replace (q_geo q') with (q_geo q) by (rewrite Hq'; done). fold i.
    apply nth_lookup_Some, list_lookup_insert_eq. lia.
  - intros k (K1 & K2 & K3 & K4) Hk. unfold refcount. rewrite Hview.
    replace (block_of q' k) with (block_of q k) by (rewrite Hq'; done).
    replace (q_geo q') with (q_geo q) by (rewrite Hq'; done).
    destruct (Z.eqb_spec (block_of q k) off) as [Hb|]; [|done]. rewrite Hb.
    apply Hdis in Hb; [|done]. apply Z2Nat.inj in Hb; [|apply Z.div_pos; lia|apply Z.div_pos; lia].
    rewrite !nth_lookup. rewrite list_lookup_insert_ne; [done|]. unfold i. intros Heq.
    apply Z2Nat.inj in Heq; [|apply Z.mod_pos_bound; lia|apply Z.mod_pos_bound; lia].
    apply Hk. rewrite (Z.div_mod k (rfb_entries_ (q_geo q))), (Z.div_mod ci (rfb_entries_ (q_geo q))) by lia.
    congruence.
Qed.

Lemma get_block_covered grow ci allocate q :
  covered q ci -> GetRefcountBlock_with grow ci allocate q = Some (load_rfb (block_of q ci) q).
Proof.
  intros (C1 & C2 & C3 & C4). unfold GetRefcountBlock_with.
  destruct (Z.leb_spec (Z.of_nat (length (refcount_table_ q))) (ci / rfb_entries_ (q_geo q))); [lia|].
  cbn [mbind option_bind negb]. fold (block_of q ci). by destruct (Z.eqb_spec (block_of q ci) 0).
Qed.

Lemma only_rfb_meta q q' :
  only_rfb q q' -> refcount_table_ q' = refcount_table_ q /\ file_end_ q' = file_end_ q
  /\ free_cluster_index_ q' = free_cluster_index_ q /\ l1_table_ q' = l1_table_ q
  /\ l2_lru_ q' = l2_lru_ q /\ q_geo q' = q_geo q.
Proof. intros (-> & _). done. Qed.

Lemma rfb_step_counts q q' :
  rfb_step q q' ->
  (forall k, block_of q' k = block_of q k) /\ (forall k, covered q' k <-> covered q k)
  /\ (forall k, covered q k -> refcount q' k = refcount q k)
  /\ (blocks_distinct q -> blocks_distinct q').
Proof.
  intros [Ho Hok Hv]. destruct (only_rfb_meta _ _ Ho) as (T & _ & _ & _ & _ & G).
  assert (B : forall k, block_of q' k = block_of q k) by (intros k; unfold block_of; by rewrite T, G).
  split; [done|]. split; [|split].
  - intros k. unfold covered. rewrite B, T, G. by rewrite (only_rfb_table _ _ _ Ho).
  - intros k (_ & _ & _ & K). unfold refcount. by rewrite B, G, Hv.
  - unfold blocks_distinct. by rewrite T.
Qed.

(** [FreeCluster] lowers the count of its cluster by one, touches no other
    count, and lets the allocator see the cluster again when it became free. *)
Theorem FreeCluster_spec q off ci :
  rfb_ok q -> blocks_distinct q -> ci = off .>> cluster_bits_ (q_geo q) -> covered q ci ->
  0 < refcount q ci < 2 ^ 16 ->
  exists q', FreeCluster off q = Some q' /\ rfb_ok q' /\ blocks_distinct q'
  /\ refcount q' ci = refcount q ci - 1
  /\ (forall k, covered q k -> k <> ci -> refcount q' k = refcount q k)
  /\ free_cluster_index_ q' = (if refcount q ci =? 1 then Z.min ci (free_cluster_index_ q)
                               else free_cluster_index_ q)
  /\ refcount_table_ q' = refcount_table_ q /\ l1_table_ q' = l1_table_ q /\ l2_lru_ q' = l2_lru_ q.
Proof.
  intros Hq Hdis Hci Hcov Hc. unfold FreeCluster. rewrite <- Hci, get_block_covered by done.
  pose proof Hcov as (_ & _ & _ & Hta).
  destruct (load_rfb_step q (block_of q ci) Hq Hta) as (q1 & d & rest & E & Hs & Hl).
  rewrite E. cbn [mbind option_bind negb].
  destruct (rfb_step_counts _ _ Hs) as (B & C & R & D).
  destruct (only_rfb_meta _ _ (rs_only _ _ Hs)) as (M1 & M2 & M3 & M4 & M5 & M6).
  assert (Hget : rfb_get (ci mod rfb_entries_ (q_geo q)) q1 = refcount q ci)
    by (unfold rfb_get; rewrite Hl; done).
  rewrite Hget. destruct (Z.eqb_spec (refcount q ci) 0); [lia|].
  pose proof (store_count q1 ci (refcount q ci - 1) d rest) as HS.
  rewrite M6, B, (rs_view _ _ Hs _ Hta) in HS.
  destruct HS as (S1 & S2 & S3 & S4); [apply Hs|by apply C|by apply D|unfold in_width; lia|done|].
  set (q2 := rfb_mark_dirty _ _) in *.
  assert (Hq2 : free_cluster_index_ q2 = free_cluster_index_ q /\ refcount_table_ q2 = refcount_table_ q
    /\ l1_table_ q2 = l1_table_ q /\ l2_lru_ q2 = l2_lru_ q) by (rewrite S1; cbn; done).
  destruct Hq2 as (N1 & N2 & N3 & N4).
  eexists. split; [reflexivity|]. rewrite N1.
  assert (Hfi : (if (refcount q ci - 1 =? 0) && (ci <? free_cluster_index_ q) then ci
                 else free_cluster_index_ q)
    = (if refcount q ci =? 1 then Z.min ci (free_cluster_index_ q) else free_cluster_index_ q)).
  { destruct (Z.eqb_spec (refcount q ci - 1) 0), (Z.eqb_spec (refcount q ci) 1); cbn [andb]; try lia.
    destruct (Z.ltb_spec ci (free_cluster_index_ q)); lia. }
  rewrite <- Hfi. assert (Hdis2 : blocks_distinct q2) by (unfold blocks_distinct; by rewrite N2).
  assert (R2 : forall k, covered q k -> k <> ci -> refcount q2 k = refcount q k).
  { intros k Hk Hn. rewrite S4; [by apply R|by apply C|done]. }
  destruct ((refcount q ci - 1 =? 0) && (ci <? free_cluster_index_ q));
    refine (conj _ (conj Hdis2 (conj S3 (conj R2 (conj _ (conj N2 (conj N3 N4))))))); try done.
  destruct S2. by constructor.
Qed.

(** The allocator's search, over clusters whose blocks exist. *)
Definition searching (q0 : Qcow2DiskImage) (n : Z) (s : Z * Z * Qcow2DiskImage * bool) : Prop :=
  let '(ci, ri, q, ok) := s in
  ok = true /\ ri = ci mod rfb_entries_ (q_geo q0) /\ free_cluster_index_ q0 <= ci <= n
  /\ rfb_step (set_free_cluster_index (ci + 1) q0) q
  /\ exists d rest, rfb_lru_ q = MkRfb (block_of q0 ci) (rfb_view q0 (block_of q0 ci)) d true :: rest.

Definition search_done (q0 : Qcow2DiskImage) (n : Z) (r : option (Z * Z * Qcow2DiskImage * bool)) : Prop :=
  exists q, r = Some (n, n mod rfb_entries_ (q_geo q0), q, true)
    /\ searching q0 n (n, n mod rfb_entries_ (q_geo q0), q, true).

Lemma set_free_ok v q : rfb_ok q -> rfb_ok (set_free_cluster_index v q).
Proof. intros []. by constructor. Qed.

Lemma rfb_step_set_free v q q' :
  rfb_step q q' -> rfb_step (set_free_cluster_index v q) (set_free_cluster_index v q').
Proof.
  intros [(O & L & M) K V]. constructor.
  - split; [rewrite O; by destruct q|done].
  - by apply set_free_ok.
  - exact V.
Qed.

Lemma next_same_block ci rfb :
  0 < rfb -> 0 <= ci -> ci mod rfb + 1 < rfb ->
  (ci + 1) / rfb = ci / rfb /\ (ci + 1) mod rfb = ci mod rfb + 1.
Proof.
  intros Hr Hc Hm. pose proof (Z.div_mod ci rfb). pose proof (Z.mod_pos_bound ci rfb).
  assert (E : ci + 1 = rfb * (ci / rfb) + (ci mod rfb + 1)) by lia.
  split; symmetry; [by eapply Z.div_unique_pos; [|exact E]; lia|by eapply Z.mod_unique_pos; [|exact E]; lia].
Qed.

Lemma alloc_step_spec q0 n s :
  rfb_ok q0 -> (forall k, free_cluster_index_ q0 <= k <= n -> covered q0 k) ->
  (forall k, free_cluster_index_ q0 <= k < n -> refcount q0 k <> 0) -> refcount q0 n = 0 ->
  n + 2 < 2 ^ 64 -> searching q0 n s ->
  match alloc_step s with
  | inl s' => searching q0 n s' /\ 0 <= n - fst (fst (fst s')) < n - fst (fst (fst s))
  | inr r => search_done q0 n r
  end.
Proof.
  intros Hq Hcov Hused Hfree Hn Hs. destruct s as [[[ci ri] q] ok]. cbn [fst].
  pose proof Hs as (-> & Hri & Hci & Hst & d & rest & Hl). unfold alloc_step. cbn [negb].
  pose proof (ro_geo _ Hq) as Hg. pose proof (geo_rfb _ Hg). pose proof (geo_cs_bounds _ Hg).
  assert (Hget : rfb_get ri q = refcount q0 ci).
  { unfold rfb_get. rewrite Hl, Hri. done. }
  rewrite Hget. destruct (Z.eqb_spec (refcount q0 ci) 0) as [Hz|Hz].
  { assert (ci = n) as -> by (destruct (Z.eq_dec ci n); [done|exfalso; apply (Hused ci); [lia|done]]).
    subst ri. by exists q. }
  assert (Hlt : ci < n) by (destruct (Z.eq_dec ci n); [congruence|lia]).
  destruct (only_rfb_meta _ _ (rs_only _ _ Hst)) as (M1 & M2 & M3 & M4 & M5 & M6). cbn in M1, M3, M6.
  pose proof (Hcov ci) as (Hci0 & _); [lia|].
  unfold next_index. rewrite M3.
  rewrite (wrap_small 64 (ci + 1)) by (unfold in_width; lia). rewrite Z.eqb_refl. cbn [negb orb].
  rewrite (wrap_small 64 (ci + 1 + 1)) by (unfold in_width; lia). rewrite M6.
  set (q1 := set_free_cluster_index (ci + 1 + 1) q).
  assert (Hst1 : rfb_step (set_free_cluster_index (ci + 1 + 1) q0) q1).
  { apply (rfb_step_set_free (ci + 1 + 1)) in Hst. exact Hst. }
  destruct (Z.leb_spec (rfb_entries_ (q_geo q0)) (ri + 1)) as [Hnext|Hsame].
  - destruct (rfb_step_counts _ _ Hst1) as (B & C & _ & _).
    assert (Hc1 : covered q1 (ci + 1)) by (apply C; apply Hcov; lia).
    unfold GetRefcountBlock. rewrite get_block_covered by done.
    pose proof Hc1 as (_ & _ & _ & Hta).
    destruct (load_rfb_step q1 _ (rs_ok _ _ Hst1) Hta) as (q2 & d2 & rest2 & E & Hs2 & Hl2).
    rewrite E. cbn [fst]. split; [|lia].
    split; [done|]. split; [done|]. split; [lia|].
    split; [exact (rfb_step_trans _ _ _ Hst1 Hs2)|]. exists d2, rest2. rewrite Hl2.
    rewrite (rs_view _ _ Hst1) by (apply (only_rfb_table _ _ _ (rs_only _ _ Hst1)); exact Hta).
    by rewrite (B (ci + 1)).
  - cbn [fst]. destruct (next_same_block ci (rfb_entries_ (q_geo q0))) as [Hd Hm]; [lia|lia|lia|].
    split; [|lia]. split; [done|]. split; [by rewrite Hm, Hri|]. split; [lia|].
    split; [exact Hst1|]. exists d, rest. unfold block_of. rewrite Hd. exact Hl.
Qed.

(** Appending a cluster of zeros at or after the end of the file. *)
Lemma extend_file q off :
  rfb_ok q -> q_len q <= off -> 0 <= off -> off + g_cs q < 2 ^ 63 ->
  off + g_cs q <= f_limit (fp_file (q_file q)) ->
  exists f, write_at off (replicate (Z.to_nat (g_cs q)) 0) q = (true, set_q_file f q)
    /\ rfb_ok (set_q_file f q)
    /\ (forall b, table_at q b -> table_at (set_q_file f q) b
                  /\ rfb_view (set_q_file f q) b = rfb_view q b)
    /\ peek (q_data (set_q_file f q)) off (g_cs q) = replicate (Z.to_nat (g_cs q)) 0.
Proof.
  intros Hq Hlen Ho Hmax Hlim. pose proof Hq as [Hg Hf He Hn Hs].
  pose proof (geo_cs_bounds _ Hg) as Hcs. fold (g_cs q) in Hcs. pose proof Hf as (F1 & F2 & F3).
  unfold write_at, fseek. rewrite fseek_ok_in by lia. unfold fwrite. cbn [fp_file fp_pos].
  rewrite fwrite_full by (rewrite ?length_replicate; lia). rewrite length_replicate, Z2Nat.id by lia.
  rewrite Z.eqb_refl. eexists. split; [reflexivity|].
  set (z := replicate (Z.to_nat (g_cs q)) 0). set (f := MkFile _ _). set (q' := set_q_file f q).
  assert (Hz : Z.of_nat (length z) = g_cs q) by (unfold z; rewrite length_replicate; lia).
  assert (Hl' : q_len q' = off + g_cs q).
  { unfold q_len at 1, q', f. cbn. destruct (Z.ltb_spec 0 (g_cs q)); unfold q_len in *; lia. }
  assert (Ht : forall b, table_at q b -> table_at q' b).
  { intros b (B1 & B2 & B3). split; [done|]. rewrite Hl'. change (g_cs q') with (g_cs q). split; [lia|done]. }
  assert (Hd : forall b, table_at q b -> disk_rfb q' b = disk_rfb q b).
  { intros b (B1 & B2 & B3). unfold disk_rfb, disk_words. change (g_cs q') with (g_cs q).
    unfold q_data at 1, q', f. cbn [set_q_file q_file fp_file f_data]. fold (q_data q).
    rewrite peek_poke_disjoint by lia. done. }
  split; [|split].
  - constructor; [done| | |done|done].
    + split; [|rewrite Hl'; split; [lia|exact Hlim]].
      apply store_ok_poke; [exact F1|]. by apply Forall_replicate.
    + eapply Forall_impl; [exact He|]. intros e (E1 & E2 & E3 & E4 & E5).
      split; [by apply Ht|]. split; [done|]. split; [done|]. split; [done|]. intros Hc.
      rewrite Hd by done. by apply E5.
  - intros b Hb. split; [by apply Ht|]. unfold rfb_view. change (rfb_lru_ q') with (rfb_lru_ q).
    rewrite Hd by done. done.
  - unfold q_data, q', f. cbn [set_q_file q_file fp_file f_data]. rewrite <- Hz at 1. apply peek_poke_same.
Qed.

(** What a successful allocation leaves. *)
Record allocated (q q' : Qcow2DiskImage) (n : Z) : Prop := {
  al_ok : rfb_ok q';
  al_count : refcount q' n = 1;
  al_other : forall k, covered q k -> k <> n -> refcount q' k = refcount q k;
  al_free : free_cluster_index_ q' = n + 1;
  al_end : file_end_ q' = Z.max (file_end_ q) (n * g_cs q + g_cs q);
  al_tables : refcount_table_ q' = refcount_table_ q /\ l1_table_ q' = l1_table_ q
              /\ l2_lru_ q' = l2_lru_ q
}.

Lemma search_finds q n :
  rfb_ok q -> 0 <= free_cluster_index_ q <= n ->
  (forall k, free_cluster_index_ q <= k <= n -> covered q k) ->
  (forall k, free_cluster_index_ q <= k < n -> refcount q k <> 0) -> refcount q n = 0 ->
  n + 2 < 2 ^ 64 ->
  let '(ci, q1) := next_index q in
  exists q2, GetRefcountBlock ci true q1 = Some (q2, true)
    /\ exists r, while64 alloc_step (ci, ci mod rfb_entries_ (q_geo q), q2, true) = Some r
    /\ search_done q n r.
Proof.
  intros Hq Hn0 Hcov Hused Hfree Hn. unfold next_index.
  rewrite (wrap_small 64) by (unfold in_width; lia).
  set (n0 := free_cluster_index_ q) in *. set (q1 := set_free_cluster_index (n0 + 1) q).
  assert (Hc : covered q1 n0) by (apply (Hcov n0); lia). pose proof Hc as (_ & _ & _ & Hta).
  unfold GetRefcountBlock. rewrite get_block_covered by done.
  destruct (load_rfb_step q1 _ (set_free_ok _ _ Hq) Hta) as (q2 & d & rest & E & Hs & Hl).
  rewrite E. exists q2. split; [done|].
  apply (while64_total alloc_step (searching q n) (fun s => n - fst (fst (fst s))) (search_done q n)).
  - split; [done|]. split; [done|]. split; [lia|]. split; [exact Hs|]. exists d, rest. exact Hl.
  - cbn [fst]. lia.
  - intros s Hsearch. pose proof (alloc_step_spec q n s Hq Hcov Hused Hfree Hn Hsearch) as HS.
    destruct (alloc_step s); exact HS.
Qed.

Lemma alloc_offset q n :
  geo_ok (q_geo q) -> 0 <= n -> n * g_cs q + g_cs q < 2 ^ 63 ->
  u64 (n .<< cluster_bits_ (q_geo q)) = n * g_cs q
  /\ u64 (n * g_cs q + g_cs q) = n * g_cs q + g_cs q.
Proof.
  intros Hg Hn Hm. pose proof (geo_cs_bounds _ Hg) as Hcs. fold (g_cs q) in Hcs.
  pose proof (geo_bits _ Hg).
  rewrite Z.shiftl_mul_pow2 by lia. rewrite <- (geo_cs _ Hg). fold (g_cs q).
  change (2 ^ 63) with 9223372036854775808 in Hm.
  split; apply wrap_small; unfold in_width; change (2 ^ 64) with 18446744073709551616; nia.
Qed.

Lemma alloc_finish_spec q n q3 :
  rfb_ok q -> blocks_distinct q -> 0 < n -> covered q n ->
  n * g_cs q + g_cs q < 2 ^ 63 -> n * g_cs q + g_cs q <= f_limit (fp_file (q_file q)) ->
  (file_end_ q < n * g_cs q + g_cs q -> q_len q <= n * g_cs q) ->
  searching q n (n, n mod rfb_entries_ (q_geo q), q3, true) ->
  exists q', alloc_finish n (n mod rfb_entries_ (q_geo q)) q3 = (q', n * g_cs q) /\ allocated q q' n
  /\ (file_end_ q < n * g_cs q + g_cs q ->
      peek (q_data q') (n * g_cs q) (g_cs q) = replicate (Z.to_nat (g_cs q)) 0).
Proof.
  intros Hq Hdis Hnpos Hcov Hmax Hlim Hend (_ & _ & _ & Hst & d & rest & Hl).
  pose proof (geo_cs_bounds _ (ro_geo _ Hq)) as Hcs. fold (g_cs q) in Hcs.
  destruct (rfb_step_counts _ _ Hst) as (B & C & R & D).
  destruct (only_rfb_meta _ _ (rs_only _ _ Hst)) as (M1 & M2 & M3 & M4 & M5 & M6).
  cbn in M1, M2, M3, M4, M5, M6.
  assert (Hc3 : covered q3 n) by by apply C. pose proof Hcov as (_ & _ & _ & Hta).
  pose proof (store_count q3 n 1 d rest) as HS. rewrite M6, B in HS.
  change (block_of (set_free_cluster_index (n + 1) q) n) with (block_of q n) in HS.
  rewrite (rs_view _ _ Hst (block_of q n) Hta) in HS.
  destruct HS as (S1 & S2 & S3 & S4); [apply Hst|done|by apply D|by compute|exact Hl|].
  unfold alloc_finish. set (q4 := rfb_mark_dirty _ _) in *.
  assert (Hq4 : free_cluster_index_ q4 = n + 1 /\ refcount_table_ q4 = refcount_table_ q
    /\ l1_table_ q4 = l1_table_ q /\ l2_lru_ q4 = l2_lru_ q /\ file_end_ q4 = file_end_ q
    /\ q_geo q4 = q_geo q /\ q_file q4 = q_file q3) by (rewrite S1; done).
  clearbody q4. destruct Hq4 as (N1 & N2 & N3 & N4 & N5 & N6 & N7).
  assert (Hother : forall k, covered q k -> k <> n -> refcount q4 k = refcount q k).
  { intros k Hk Hne. rewrite S4; [by apply R|by apply C|done]. }
  assert (Hcs4 : g_cs q4 = g_cs q) by (unfold g_cs; by rewrite N6).
  destruct (alloc_offset q n) as [Ho1 Ho2]; [apply Hq|lia|done|]. rewrite N6, Hcs4, Ho1, Ho2, N5.
  destruct (Z.ltb_spec (file_end_ q) (n * g_cs q + g_cs q)) as [Happ|Hin].
  2: { exists q4. split; [done|]. split; [|lia]. constructor; try done. lia. }
  destruct (rs_only _ _ Hst) as (_ & L3 & M3').
  assert (HL : q_len q4 = q_len q) by (unfold q_len at 1; rewrite N7; exact L3).
  pose proof (extend_file q4 (n * g_cs q) S2) as HX. rewrite Hcs4, HL, N7, M3' in HX.
  destruct HX as (f & -> & X1 & X2 & X3); [by apply Hend|lia|done|exact Hlim|].
  eexists. split; [reflexivity|]. split; [|intros _; exact X3].
  assert (Hrc : forall k, covered q k -> refcount (set_file_end (n * g_cs q + g_cs q) (set_q_file f q4)) k
                          = refcount q4 k).
  { intros k (_ & _ & _ & Hk). unfold refcount. f_equal. apply X2. unfold block_of, table_at, g_cs in *.
    cbn [set_file_end set_q_file q_geo refcount_table_]. by rewrite N2, N6, HL. }
  constructor; [destruct X1; by constructor| | |exact N1|cbn; lia|done].
  - rewrite Hrc by done. exact S3.
  - intros k Hk Hne. rewrite Hrc by done. by apply Hother.
Qed.

(** C34. The allocator is first fit: from its free index on it returns the first
    cluster whose count is zero, never one that is in use; it sets that
    count to one and no other, whatever the block cache evicts, and a
    cluster past the end of the file is appended as zeros.  This is for an
    image whose refcount blocks are distinct and already cover the clusters
    from the free index to the one returned; blocks that have to be made
    first, and a table that has to grow, are not part of it. *)
Theorem AllocateCluster_first_fit q n :
  rfb_ok q -> blocks_distinct q -> 0 <= free_cluster_index_ q <= n -> 0 < n ->
  (forall k, free_cluster_index_ q <= k <= n -> covered q k) ->
  (forall k, free_cluster_index_ q <= k < n -> refcount q k <> 0) -> refcount q n = 0 ->
  n * g_cs q + g_cs q < 2 ^ 63 -> n * g_cs q + g_cs q <= f_limit (fp_file (q_file q)) ->
  (file_end_ q < n * g_cs q + g_cs q -> q_len q <= n * g_cs q) ->
  exists q', AllocateCluster q = Some (q', n * g_cs q) /\ allocated q q' n
  /\ (file_end_ q < n * g_cs q + g_cs q ->
      peek (q_data q') (n * g_cs q) (g_cs q) = replicate (Z.to_nat (g_cs q)) 0).
Proof.
  intros Hq Hdis Hn0 Hnpos Hcov Hused Hfree Hmax Hlim Hend.
  pose proof (geo_cs_bounds _ (ro_geo _ Hq)) as Hcs. fold (g_cs q) in Hcs.
  assert (Hn64 : n + 2 < 2 ^ 64).
  { change (2 ^ 63) with 9223372036854775808 in Hmax. change (2 ^ 64) with 18446744073709551616. nia. }
  pose proof (search_finds q n Hq Hn0 Hcov Hused Hfree Hn64) as HF.
  destruct (next_index q) as [ci q1] eqn:En. destruct HF as (q2 & E & r & Ew & q3 & -> & Hsearch).
  destruct (alloc_finish_spec q n q3) as (q' & Ef & H); try done; [apply Hcov; lia|].
  exists q'. split; [|exact H]. unfold AllocateCluster. rewrite En.
  rewrite (bind_eq _ _ _ E), (bind_eq _ _ _ Ew). cbn [bind_eq negb]. by rewrite <- Ef.
Qed.
