(* ===== verification/Qcow2Io.v ===== *)
(** * The qcow2 image: guest reads and writes, discard, integrity check

    [core/disk/qcow2.{h,cpp}], second part, and [core/disk/qcow2_check.cpp].
    [decompress ty l n] stands for zlib's raw inflate ([ty = 0]) and the
    zstd streaming loop ([ty = 1]): the bytes, at most [n], they produce from
    [l], or [None] when the library reports an error. *)

From S2P Require Import Prelude.
From S2P Require Import DiskImage.
From S2P Require Import Qcow2.

Section Io.
  Context (decompress : Z -> list Z -> Z -> option (list Z)).

(** ** Offset resolution *)

Definition l1_index (g : Geometry) (off : Z) : Z := u32 (off / (l2_entries_ g * cluster_size_ g)).
Definition l2_index (g : Geometry) (off : Z) : Z := u32 ((off / cluster_size_ g) mod l2_entries_ g).

Inductive Resolved := Unallocated | HostCluster (off : Z) | Compressed (off size : Z).

(** What an L2 entry says. *)
Definition resolve_entry (g : Geometry) (l2_entry : Z) : Resolved :=
  if l2_entry =? 0 then Unallocated
  else if has l2_entry kCompressedBit then
    let '(host_off, size) := comp_extent g l2_entry in Compressed host_off (u32 size)
  else if (3 <=? version_ g) && has l2_entry kZeroFlag then Unallocated
  else
    let off := l2_entry .& kOffsetMask in
    if off =? 0 then Unallocated else HostCluster off.

Definition ResolveOffset (virt_offset : Z) (q : Qcow2DiskImage) : Qcow2DiskImage * Resolved :=
  let g := q_geo q in
  let l1_idx := l1_index g virt_offset in
  if l1_size_ g <=? l1_idx then (q, Unallocated)
  else
    let l1_entry := nth (Z.to_nat l1_idx) (l1_table_ q) 0 in
    if l1_entry =? 0 then (q, Unallocated)
    else
      let '(q1, ok) := GetL2Table (l1_entry .& kOffsetMask) q in
      if negb ok then (q1, Unallocated)
      else (q1, resolve_entry g (l2_get (l2_index g virt_offset) q1)).

(** ** Cluster access *)

(** The bytes [fread] stored; the read succeeded when all [len] are there. *)
Definition ReadCluster (host_off in_cluster_off len : Z) (q : Qcow2DiskImage)
    : list Z * Qcow2DiskImage := read_at (u64 (host_off + in_cluster_off)) len q.

Definition ReadCompressedCluster (comp_host_off comp_size in_cluster_off len : Z)
    (q : Qcow2DiskImage) : Qcow2DiskImage * option (list Z) :=
  let '(comp_buf, q1) := read_at comp_host_off comp_size q in
  if negb (Z.of_nat (length comp_buf) =? comp_size) then (q1, None)
  else
    match decompress (compression_type_ (q_geo q1)) comp_buf (g_cs q1) with
    | None => (q1, None)
    | Some out =>
        let decompressed := take (Z.to_nat (g_cs q1)) (out ++ replicate (Z.to_nat (g_cs q1)) 0) in
        if g_cs q1 <? in_cluster_off + len then (q1, None)
        else (q1, Some (take (Z.to_nat len) (drop (Z.to_nat in_cluster_off) decompressed)))
    end.

Definition CheckMetadataOverlap (offset size : Z) (q : Qcow2DiskImage) : bool :=
  let g := q_geo q in
  let end_ := u64 (offset + size) in
  let l1_end := u64 (l1_table_offset_ g + l1_size_ g * 8) in
  let rft_end := u64 (refcount_table_offset_ q + refcount_table_clusters_ q * cluster_size_ g) in
  if offset <? cluster_size_ g then false
  else if (offset <? l1_end) && (l1_table_offset_ g <? end_) then false
  else if (offset <? rft_end) && (refcount_table_offset_ q <? end_) then false
  else
    let rft_i := (offset .>> cluster_bits_ g) / rfb_entries_ g in
    if rft_i <? Z.of_nat (length (refcount_table_ q)) then
      let blk := nth (Z.to_nat rft_i) (refcount_table_ q) 0 in
      negb (negb (blk =? 0) && (offset <? u64 (blk + cluster_size_ g)) && (blk <? end_))
    else true.

Definition WriteCluster (host_off in_cluster_off : Z) (l : list Z) (q : Qcow2DiskImage)
    : Qcow2DiskImage * bool :=
  if negb (CheckMetadataOverlap host_off (g_cs q) q) then (q, false)
  else let '(ok, q1) := write_at (u64 (host_off + in_cluster_off)) l q in (q1, ok).

(** ** Read *)

Definition read_chunk (off in_off chunk : Z) (q : Qcow2DiskImage)
    : Qcow2DiskImage * bool * list Z :=
  let '(q1, r) := ResolveOffset off q in
  match r with
  | Compressed h n =>
      match ReadCompressedCluster h n in_off chunk q1 with
      | (q2, Some l) => (q2, true, l)
      | (q2, None) => (q2, false, [])
      end
  | Unallocated => (q1, true, replicate (Z.to_nat chunk) 0)
  | HostCluster h =>
      let '(l, q2) := ReadCluster h in_off chunk q1 in
      (q2, Z.of_nat (length l) =? chunk, l)
  end.

Definition in_cluster (q : Qcow2DiskImage) (off : Z) : Z := off .& (g_cs q - 1).
Definition chunk_of (q : Qcow2DiskImage) (off len : Z) : Z := Z.min len (g_cs q - in_cluster q off).

(** One iteration; the last component is what has been stored in the
    caller's buffer. *)
Definition read_step (s : Qcow2DiskImage * Z * Z * list Z)
    : (Qcow2DiskImage * Z * Z * list Z) + (Qcow2DiskImage * bool * list Z) :=
  let '(q, off, len, acc) := s in
  if 0 <? len then
    let in_off := in_cluster q off in
    let chunk := chunk_of q off len in
    if virtual_size_ (q_geo q) <? u64 (off + chunk) then inr (q, false, acc)
    else
      let '(q1, ok, l) := read_chunk off in_off chunk q in
      if ok then inl (q1, u64 (off + chunk), len - chunk, acc ++ l)
      else inr (q1, false, acc ++ l)
  else inr (q, true, acc).

Definition Qcow2_Read (q : Qcow2DiskImage) (off len : Z) : option (Qcow2DiskImage * bool * list Z) :=
  while64 read_step (q, off, len, []).

(** ** Write *)

Definition release_entry (l2_entry : Z) (q : Qcow2DiskImage) : option Qcow2DiskImage :=
  if l2_entry =? 0 then Some q
  else if has l2_entry kCompressedBit then FreeCompressedCluster l2_entry q
  else
    let old_off := l2_entry .& kOffsetMask in
    if old_off =? 0 then Some q else FreeCluster old_off q.

(** The copy of the old cluster into the new one, before a partial write;
    its failures are ignored. *)
Definition cow_copy (off data_off : Z) (q : Qcow2DiskImage) : Qcow2DiskImage :=
  let cs := g_cs q in
  let zeros := replicate (Z.to_nat cs) 0 in
  let '(q1, r) := ResolveOffset (off .& bnot 64 (cs - 1)) q in
  let '(old_data, q2) :=
    match r with
    | Compressed h n =>
        match ReadCompressedCluster h n 0 cs q1 with
        | (q2, Some l) => (l, q2)
        | (q2, None) => (zeros, q2)
        end
    | Unallocated => (zeros, q1)
    | HostCluster h =>
        let '(l, q2) := ReadCluster h 0 cs q1 in (take (Z.to_nat cs) (l ++ zeros), q2)
    end in
  fst (WriteCluster data_off 0 old_data q2).

Definition need_cow (g : Geometry) (l2_entry : Z) : bool :=
  negb (has l2_entry kCopiedBit) || has l2_entry kCompressedBit
  || (3 <=? version_ g) && has l2_entry kZeroFlag.

(** The cluster a chunk goes to: the old one in place, or a new one. *)
Definition cow_cluster (off l1_idx l2_idx chunk : Z) (q : Qcow2DiskImage)
    : option (Qcow2DiskImage * Z) :=
  let l2_entry := l2_get l2_idx q in
  if need_cow (q_geo q) l2_entry then
    r ← AllocateCluster q;
    let '(q1, data_off) := (r : Qcow2DiskImage * Z) in
    if data_off =? 0 then Some (q1, 0)
    else
      let q2 := if (chunk <? g_cs q1) && negb (l2_entry =? 0) then cow_copy off data_off q1 else q1 in
      let q3 := l2_set l2_idx (data_off .| kCopiedBit) q2 in
      let q4 := l2_mark_dirty (nth (Z.to_nat l1_idx) (l1_table_ q3) 0 .& kOffsetMask) q3 in
      q5 ← release_entry l2_entry q4;
      Some (q5, data_off)
  else Some (q, l2_entry .& kOffsetMask).

Definition write_chunk (off : Z) (l : list Z) (q : Qcow2DiskImage) : option (Qcow2DiskImage * bool) :=
  let g := q_geo q in
  let chunk := Z.of_nat (length l) in
  if virtual_size_ g <? u64 (off + chunk) then Some (q, false)
  else
    let l1_idx := l1_index g off in
    let l2_idx := l2_index g off in
    r ← EnsureL2Table l1_idx q;
    let '(q1, ok) := (r : Qcow2DiskImage * bool) in
    if negb ok then Some (q1, false)
    else
      let cow := need_cow g (l2_get l2_idx q1) in
      r ← cow_cluster off l1_idx l2_idx chunk q1;
      let '(q2, data_off) := (r : Qcow2DiskImage * Z) in
      if cow && (data_off =? 0) then Some (q2, false)
      else Some (WriteCluster data_off (in_cluster q off) l q2).

Definition write_step (s : Qcow2DiskImage * Z * list Z)
    : (Qcow2DiskImage * Z * list Z) + option (Qcow2DiskImage * bool) :=
  let '(q, off, src) := s in
  let len := Z.of_nat (length src) in
  if 0 <? len then
    let chunk := chunk_of q off len in
    match write_chunk off (take (Z.to_nat chunk) src) q with
    | None => inr None
    | Some (q1, false) => inr (Some (q1, false))
    | Some (q1, true) => inl (q1, u64 (off + chunk), drop (Z.to_nat chunk) src)
    end
  else inr (Some (q, true)).

Definition Qcow2_Write (q : Qcow2DiskImage) (off : Z) (src : list Z) : option (Qcow2DiskImage * bool) :=
  r ← while64 write_step (q, off, src); r.

(** ** Discard and WriteZeros *)

Definition discard_cluster (off : Z) (q : Qcow2DiskImage) : option Qcow2DiskImage :=
  let g := q_geo q in
  let l1_idx := l1_index g off in
  let l2_idx := l2_index g off in
  if l1_size_ g <=? l1_idx then Some q
  else
    let l1_entry := nth (Z.to_nat l1_idx) (l1_table_ q) 0 in
    if l1_entry =? 0 then Some q
    else
      let l2_table_off := l1_entry .& kOffsetMask in
      let '(q1, ok) := GetL2Table l2_table_off q in
      let l2_entry := l2_get l2_idx q1 in
      if negb ok || (l2_entry =? 0) then Some q1
      else release_entry l2_entry (l2_mark_dirty l2_table_off (l2_set l2_idx 0 q1)).

Definition whole_cluster (q : Qcow2DiskImage) (off chunk : Z) : bool :=
  (in_cluster q off =? 0) && (g_cs q <=? chunk).

Definition discard_step (s : Qcow2DiskImage * Z * Z)
    : (Qcow2DiskImage * Z * Z) + option Qcow2DiskImage :=
  let '(q, off, len) := s in
  if 0 <? len then
    let chunk := chunk_of q off len in
    if whole_cluster q off chunk then
      match discard_cluster off q with
      | None => inr None
      | Some q1 => inl (q1, u64 (off + chunk), len - chunk)
      end
    else inl (q, u64 (off + chunk), len - chunk)
  else inr (Some q).

Definition Qcow2_Discard (q : Qcow2DiskImage) (off len : Z) : option (Qcow2DiskImage * bool) :=
  r ← while64 discard_step (q, off, len); q1 ← r; Some (q1, true).

Definition zeros_step (s : Qcow2DiskImage * Z * Z)
    : (Qcow2DiskImage * Z * Z) + option (Qcow2DiskImage * bool) :=
  let '(q, off, len) := s in
  if 0 <? len then
    let chunk := chunk_of q off len in
    match (if whole_cluster q off chunk then Qcow2_Discard q off (g_cs q)
           else Qcow2_Write q off (replicate (Z.to_nat chunk) 0)) with
    | None => inr None
    | Some (q1, false) => inr (Some (q1, false))
    | Some (q1, true) => inl (q1, u64 (off + chunk), len - chunk)
    end
  else inr (Some (q, true)).

Definition Qcow2_WriteZeros (q : Qcow2DiskImage) (off len : Z) : option (Qcow2DiskImage * bool) :=
  r ← while64 zeros_step (q, off, len); r.
End Io.

(** ** The integrity check *)

(** [add_ref], on the array of computed counts. *)
Definition add_ref (bits host_offset : Z) (computed : list Z) : list Z :=
  alter (fun c => if c <? 65535 then c + 1 else c) (Z.to_nat (host_offset .>> bits)) computed.

(** The entries of one L2 table. *)
Definition ref_l2_entry (g : Geometry) (computed : list Z) (l2_entry : Z) : list Z :=
  if l2_entry =? 0 then computed
  else if has l2_entry kCompressedBit then
    foldl (fun c i => add_ref 0 i c) computed (comp_clusters g l2_entry)
  else
    let host_off := l2_entry .& kOffsetMask in
    if host_off =? 0 then computed else add_ref (cluster_bits_ g) host_off computed.

Definition ref_l1_entry (w : Qcow2DiskImage * list Z) (l1_entry : Z) : Qcow2DiskImage * list Z :=
  let '(q, computed) := w in
  let g := q_geo q in
  if l1_entry =? 0 then w
  else
    let l2_offset := l1_entry .& kOffsetMask in
    if l2_offset =? 0 then w
    else
      let computed := add_ref (cluster_bits_ g) l2_offset computed in
      let '(l, q1) := read_at l2_offset (l2_entries_ g * 8) q in
      if Z.of_nat (length l) =? l2_entries_ g * 8
      then (q1, foldl (ref_l2_entry g) computed (decode_be 8 (Z.to_nat (l2_entries_ g)) l))
      else (q1, computed).

(** Phase 1. *)
Definition computed_refs (total : Z) (q : Qcow2DiskImage) : Qcow2DiskImage * list Z :=
  let g := q_geo q in
  let cs := cluster_size_ g in
  let bits := cluster_bits_ g in
  let c := add_ref bits 0 (replicate (Z.to_nat total) 0) in
  let c := foldl (fun c i => add_ref bits (u64 (l1_table_offset_ g + i * cs)) c) c
             (seqZ 0 ((l1_size_ g * 8 + cs - 1) / cs)) in
  let c := foldl (fun c i => add_ref bits (u64 (refcount_table_offset_ q + i * cs)) c) c
             (seqZ 0 (refcount_table_clusters_ q)) in
  let c := foldl (fun c o => if o =? 0 then c else add_ref bits o c) c (refcount_table_ q) in
  foldl ref_l1_entry (q, c) (l1_table_ q).

(** One refcount block as it is on disk. *)
Definition read_block (block_offset : Z) (q : Qcow2DiskImage) : option (list Z) * Qcow2DiskImage :=
  let n := rfb_entries_ (q_geo q) in
  let '(l, q1) := read_at block_offset (n * 2) q in
  (if Z.of_nat (length l) =? n * 2 then Some (decode_be 2 (Z.to_nat n) l) else None, q1).

(** Phase 2: the stored counts; block [rft_idx] holds the counts of clusters
    [rft_idx * rfb_entries_] and up. *)
Definition stored_block (w : Qcow2DiskImage * list Z) (e : nat * Z) : Qcow2DiskImage * list Z :=
  let '(q, stored) := w in
  let '(rft_idx, block_offset) := e in
  if block_offset =? 0 then w
  else
    match read_block block_offset q with
    | (None, q1) => (q1, stored)
    | (Some block, q1) =>
        (q1, list_inserts (rft_idx * Z.to_nat (rfb_entries_ (q_geo q))) block stored)
    end.

Definition indexed (l : list Z) : list (nat * Z) := imap (fun i o => (i, o)) l.

Definition stored_refs (total : Z) (q : Qcow2DiskImage) : Qcow2DiskImage * list Z :=
  foldl stored_block (q, replicate (Z.to_nat total) 0) (indexed (refcount_table_ q)).

Definition count_leaked (stored computed : list Z) : Z :=
  foldr Z.add 0 (zip_with (fun s c => b2z (c <? s)) stored computed).
Definition count_errors (stored computed : list Z) : Z :=
  foldr Z.add 0 (zip_with (fun s c => b2z (s <? c)) stored computed).

(** Phase 3: counts above the computed ones are lowered to them. *)
Definition fix_block (block computed : list Z) : list Z :=
  imap (fun i cur => match computed !! i with
                     | Some ref => if ref <? cur then ref else cur
                     | None => cur
                     end) block.

Definition fix_step (computed : list Z) (q : Qcow2DiskImage) (e : nat * Z) : Qcow2DiskImage :=
  let '(rft_idx, block_offset) := e in
  if block_offset =? 0 then q
  else
    match read_block block_offset q with
    | (None, q1) => q1
    | (Some block, q1) =>
        let refs := drop (rft_idx * Z.to_nat (rfb_entries_ (q_geo q))) computed in
        let block' := fix_block block refs in
        if decide (block' = block) then q1
        else snd (write_at block_offset (encode_be 2 block') q1)
    end.

Definition RepairLeaks (fix_ : bool) (q : Qcow2DiskImage) : Qcow2DiskImage * Z :=
  let q := fst (Qcow2_Flush q) in
  let total := file_end_ q .>> cluster_bits_ (q_geo q) in
  if total =? 0 then (q, 0)
  else
    let '(q1, computed) := computed_refs total q in
    let '(q2, stored) := stored_refs total q1 in
    let leaked := count_leaked stored computed in
    let errors := count_errors stored computed in
    if fix_ && (0 <? leaked) then
      (foldl (fix_step computed) (set_rfb_lru [] q2) (indexed (refcount_table_ q2)), leaked + errors)
    else (q2, leaked + errors).

(** ** Open and close *)

(** [Open], after [fopen] and the lock succeeded. *)
Definition Qcow2_Open (h : HostFile) : option Qcow2DiskImage :=
  r ← ReadHeader (MkFile h 0);
  let '(g, (rft_off, rft_clusters), f1) := (r : Geometry * (Z * Z) * File) in
  r ← ReadL1Table (l1_size_ g) (l1_table_offset_ g) f1;
  let '(l1, f2) := (r : list Z * File) in
  r ← ReadRefcountTable rft_off rft_clusters (cluster_size_ g) f2;
  let '(rft, dirty, f3) := (r : list Z * bool * File) in
  let file_end := u64 (f_len h + cluster_size_ g - 1) .& bnot 64 (cluster_size_ g - 1) in
  let q := MkQcow2 g (MkFile h (f_len h)) l1 file_end rft rft_off rft_clusters 0 dirty [] [] in
  Some (SetDirtyBit (fst (RepairLeaks true q))).

(** The destructor. *)
Definition Qcow2_Close (q : Qcow2DiskImage) : Qcow2DiskImage :=
  ClearDirtyBit (fst (Qcow2_Flush q)).

(** ** What a guest reads *)

Section ReadCorrect.
  Context (decompress : Z -> list Z -> Z -> option (list Z)).

(** The L2 tables in use, and the L2 entry of a guest offset (0: none). *)
Definition tables (q : Qcow2DiskImage) : list Z :=
  (fun e => e .& kOffsetMask) <$> List.filter (fun e => negb (e =? 0)) (l1_table_ q).

Definition entry_of (q : Qcow2DiskImage) (x : Z) : Z :=
  let e := nth (Z.to_nat (l1_index (q_geo q) x)) (l1_table_ q) 0 in
  if (l1_size_ (q_geo q) <=? l1_index (q_geo q) x) || (e =? 0) then 0
  else nth (Z.to_nat (l2_index (q_geo q) x)) (l2_view q (e .& kOffsetMask)) 0.

(** A cluster's bytes, given what its entry says. *)
Definition cluster_bytes (q : Qcow2DiskImage) (r : Resolved) : option (list Z) :=
  let cs := g_cs q in
  match r with
  | Unallocated => Some (replicate (Z.to_nat cs) 0)
  | HostCluster h => Some (peek (q_data q) h cs)
  | Compressed h n =>
      out ← decompress (compression_type_ (q_geo q)) (peek (q_data q) h n) cs;
      Some (take (Z.to_nat cs) (out ++ replicate (Z.to_nat cs) 0))
  end.

Definition guest_byte (q : Qcow2DiskImage) (x : Z) : Z :=
  match cluster_bytes q (resolve_entry (q_geo q) (entry_of q x)) with
  | Some l => nth (Z.to_nat (x mod g_cs q)) l 0
  | None => 0
  end.

(** Data lies in the file, apart from the L2 tables, and decompresses. *)
Definition extent_ok (q : Qcow2DiskImage) (off n : Z) : Prop :=
  0 <= off /\ 0 <= n /\ off + n <= q_len q
  /\ Forall (fun t => off + n <= t \/ t + g_cs q <= off) (tables q).

Definition resolved_ok (q : Qcow2DiskImage) (r : Resolved) : Prop :=
  match r with
  | Unallocated => True
  | HostCluster h => extent_ok q h (g_cs q)
  | Compressed h n => extent_ok q h n /\ is_Some (cluster_bytes q r)
  end.

Record image_ok (q : Qcow2DiskImage) : Prop := {
  im_l2 : l2_ok q;
  im_l1 : Z.of_nat (length (l1_table_ q)) = l1_size_ (q_geo q);
  im_tables : Forall (table_at q) (tables q);
  im_cached : (l2_offset <$> l2_lru_ q) ⊆ tables q;
  im_data : forall x, resolved_ok q (resolve_entry (q_geo q) (entry_of q x))
}.

(** The image as the guest sees it is the same. *)
Record same_guest (q q' : Qcow2DiskImage) : Prop := {
  sg_only : only_l2 q q';
  sg_entry : forall x, entry_of q' x = entry_of q x;
  sg_bytes : forall x, cluster_bytes q' (resolve_entry (q_geo q) (entry_of q x))
                       = cluster_bytes q (resolve_entry (q_geo q) (entry_of q x))
}.

Lemma same_guest_byte q q' x : same_guest q q' -> guest_byte q' x = guest_byte q x.
Proof.
  intros [Ho He Hb]. unfold guest_byte. unfold g_cs. by rewrite (only_l2_geo _ _ Ho), He, Hb.
Qed.

Lemma same_guest_refl q : same_guest q q.
Proof. constructor; [apply only_l2_refl|done|done]. Qed.

Lemma same_guest_trans q1 q2 q3 : same_guest q1 q2 -> same_guest q2 q3 -> same_guest q1 q3.
Proof.
  intros [(O1 & L1 & M1) E1 B1] [(O2 & L2 & M2) E2 B2].
  pose proof (only_l2_geo q1 q2 (conj O1 (conj L1 M1))) as G. rewrite G in B2. constructor.
  - split; [rewrite O2, O1; by destruct q1|]. split; congruence.
  - intros x. by rewrite E2, E1.
  - intros x. rewrite <- E1, B2, E1. apply B1.
Qed.

Lemma peek_frame s s' off n :
  (forall x, off <= x < off + n -> get8 s' x = get8 s x) -> peek s' off n = peek s off n.
Proof.
  intros Hx. apply list_fmap_ext. intros i x Hi. apply lookup_seqZ in Hi as [-> Hi]. apply Hx. lia.
Qed.

Lemma l1_entry_table q i e :
  nth i (l1_table_ q) 0 = e -> e <> 0 -> e .& kOffsetMask ∈ tables q.
Proof.
  intros <- Hn. apply (list_elem_of_fmap_2 (fun e => e .& kOffsetMask)).
  apply list_elem_of_In, List.filter_In. split.
  - destruct (nth_in_or_default i (l1_table_ q) 0) as [?|?]; [done|congruence].
  - by destruct (Z.eqb_spec (nth i (l1_table_ q) 0) 0).
Qed.

(** An L2 cache step that caches tables in use is invisible to the guest. *)
Lemma l2_step_guest q q' :
  image_ok q -> l2_step q q' -> (l2_offset <$> l2_lru_ q') ⊆ tables q ->
  same_guest q q' /\ image_ok q'.
Proof.
  intros [Hl2 Hl1 Ht Hc Hd] [Ho Hok Hv Hf] Hc'.
  pose proof (only_l2_geo _ _ Ho) as Hg.
  assert (Hl1t : l1_table_ q' = l1_table_ q) by (destruct Ho as (-> & _); done).
  assert (Htab : tables q' = tables q) by (unfold tables; by rewrite Hl1t).
  assert (Hcs : g_cs q' = g_cs q) by (unfold g_cs; by rewrite Hg).
  assert (He : forall x, entry_of q' x = entry_of q x).
  { intros x. unfold entry_of. rewrite Hg, Hl1t.
    set (e := nth _ (l1_table_ q) 0). destruct (_ <=? _); [done|].
    destruct (Z.eqb_spec e 0) as [|Hn]; cbn [orb]; [done|]. rewrite Hv; [done|].
    apply (proj1 (Forall_forall _ _) Ht). by eapply l1_entry_table. }
  assert (Hp : forall off n, extent_ok q off n -> peek (q_data q') off n = peek (q_data q) off n).
  { intros off n (H1 & H2 & H3 & H4). apply peek_frame. intros x Hx. apply Hf.
    apply Forall_forall. intros c Hci.
    pose proof (proj1 (Forall_forall _ _) H4 (l2_offset c)) as H5. destruct H5 as [H5|H5]; [|lia|lia].
    apply Hc. by apply list_elem_of_fmap_2. }
  assert (Hb : forall x, cluster_bytes q' (resolve_entry (q_geo q) (entry_of q x))
                         = cluster_bytes q (resolve_entry (q_geo q) (entry_of q x))).
  { intros x. specialize (Hd x). unfold cluster_bytes. rewrite Hcs, Hg.
    destruct (resolve_entry (q_geo q) (entry_of q x)); cbn in Hd; [done| |].
    - by rewrite Hp.
    - by rewrite (Hp off size) by apply Hd. }
  split; [by constructor|]. constructor.
  - done.
  - by rewrite Hl1t, Hg.
  - rewrite Htab. eapply Forall_impl; [exact Ht|]. intros t. by apply only_l2_table.
  - by rewrite Htab.
  - intros x. rewrite Hg, He. specialize (Hd x). specialize (Hb x).
    destruct Ho as (_ & Hlen & _). unfold resolved_ok, extent_ok in *. rewrite Hcs, Htab, Hlen.
    destruct (resolve_entry (q_geo q) (entry_of q x)); [done|done|]. by rewrite Hb.
Qed.

Lemma ResolveOffset_spec q x :
  image_ok q ->
  exists q', ResolveOffset x q = (q', resolve_entry (q_geo q) (entry_of q x))
    /\ same_guest q q' /\ image_ok q'.
Proof.
  intros Hq. unfold ResolveOffset, entry_of. set (i := l1_index _ x).
  destruct (Z.leb_spec (l1_size_ (q_geo q)) i) as [_|Hi]; cbn [orb].
  { exists q. split; [done|]. split; [apply same_guest_refl|done]. }
  set (e := nth _ (l1_table_ q) 0). destruct (Z.eqb_spec e 0) as [_|He].
  { exists q. split; [done|]. split; [apply same_guest_refl|done]. }
  assert (Hin : e .& kOffsetMask ∈ tables q) by exact (l1_entry_table q (Z.to_nat i) e eq_refl He).
  pose proof (proj1 (Forall_forall _ _) (im_tables _ Hq) _ Hin) as Ht.
  destruct (GetL2Table_step q _ (im_l2 _ Hq) Ht) as (q' & d & rest & E & Hs & Hl & Hc).
  rewrite E. cbn [negb]. exists q'. split; [unfold l2_get; rewrite Hl; reflexivity|].
  apply l2_step_guest; [done|done|]. intros t Ht'.
  apply Hc, elem_of_cons in Ht' as [->|?]; [done|by apply (im_cached _ Hq)].
Qed.

(** Offsets of one cluster share their L2 entry. *)
Lemma entry_same_cluster q x y :
  geo_ok (q_geo q) -> x / g_cs q = y / g_cs q -> entry_of q x = entry_of q y.
Proof.
  intros Hg Hxy. pose proof (geo_cs_bounds _ Hg) as Hcs. pose proof (geo_l2 _ Hg).
  unfold g_cs in Hxy. unfold entry_of, l1_index, l2_index.
  rewrite !(Z.mul_comm (l2_entries_ _)). rewrite <- !Z.div_div by lia. by rewrite Hxy.
Qed.

Lemma in_cluster_mod q off : geo_ok (q_geo q) -> in_cluster q off = off mod g_cs q.
Proof.
  intros Hg. unfold in_cluster, g_cs. rewrite (geo_cs _ Hg).
  pose proof (geo_bits _ Hg). rewrite Z.sub_1_r, <- Z.ones_equiv. by apply Z.land_ones; lia.
Qed.

Lemma guest_bytes_slice q x n l :
  geo_ok (q_geo q) -> 0 <= n -> x mod g_cs q + n <= g_cs q ->
  cluster_bytes q (resolve_entry (q_geo q) (entry_of q x)) = Some l ->
  length l = Z.to_nat (g_cs q) ->
  take (Z.to_nat n) (drop (Z.to_nat (x mod g_cs q)) l) = contents (guest_byte q) x n.
Proof.
  intros Hg Hn Hfit Hl Hlen. pose proof (geo_cs_bounds _ Hg) as Hcs. fold (g_cs q) in Hcs.
  pose proof (Z.mod_pos_bound x (g_cs q)). apply list_eq. intros i. unfold contents.
  rewrite list_lookup_fmap. destruct (decide (i < Z.to_nat n)%nat) as [Hi|Hi].
  - rewrite lookup_take_lt, lookup_drop by done. rewrite lookup_seqZ_lt by lia. cbn.
    assert (Hm : (x + Z.of_nat i) mod g_cs q = x mod g_cs q + Z.of_nat i
                 /\ (x + Z.of_nat i) / g_cs q = x / g_cs q).
    { pose proof (Z.div_mod x (g_cs q)).
      assert (E : x + Z.of_nat i = g_cs q * (x / g_cs q) + (x mod g_cs q + Z.of_nat i)) by lia.
      split; [symmetry; by eapply Z.mod_unique_pos; [|exact E]; lia
             |symmetry; by eapply Z.div_unique_pos; [|exact E]; lia]. }
    destruct Hm as [Hm Hd]. unfold guest_byte. rewrite (entry_same_cluster q _ x Hg Hd), Hl, Hm.
    rewrite Z2Nat.inj_add, Nat2Z.id by lia.
    destruct (lookup_lt_is_Some_2 l (Z.to_nat (x mod g_cs q) + i)) as [b Hb]; [lia|].
    rewrite Hb. f_equal. symmetry. by apply nth_lookup_Some.
  - rewrite lookup_take_ge by lia. rewrite lookup_seqZ_ge by lia. done.
Qed.

Lemma length_cluster_bytes q r l :
  cluster_bytes q r = Some l -> length l = Z.to_nat (g_cs q).
Proof.
  destruct r; cbn; intros Hl.
  - injection Hl as <-. apply length_replicate.
  - injection Hl as <-. by rewrite length_peek.
  - apply bind_Some in Hl as (out & _ & Hl). injection Hl as <-.
    rewrite length_take, length_app, length_replicate. lia.
Qed.

Lemma slice_peek s h a n c :
  0 <= a -> 0 <= n -> a + n <= c ->
  peek s (h + a) n = take (Z.to_nat n) (drop (Z.to_nat a) (peek s h c)).
Proof.
  intros Ha Hn Hc. replace c with (a + (n + (c - a - n))) by lia.
  rewrite (peek_app s h a), (peek_app s (h + a) n) by lia.
  rewrite drop_app_length' by (rewrite length_peek; lia).
  by rewrite take_app_length' by (rewrite length_peek; lia).
Qed.

Lemma set_file_guest q f :
  image_ok q -> fp_file f = fp_file (q_file q) ->
  same_guest q (set_q_file f q) /\ image_ok (set_q_file f q).
Proof.
  intros Hq Hf.
  assert (Hst : l2_step q (set_q_file f q)).
  { pose proof (im_l2 _ Hq) as [H1 H2 H3 H4 H5].
    assert (Ho : only_l2 q (set_q_file f q)).
    { split; [by destruct q|]. unfold q_len. cbn. by rewrite Hf. }
    assert (Hd : q_data (set_q_file f q) = q_data q) by (unfold q_data; cbn; by rewrite Hf).
    constructor; [done| | |].
    - constructor; try done.
      + unfold file_ok in *. rewrite Hd. unfold q_len. cbn. by rewrite Hf.
      + eapply Forall_impl; [exact H3|]. intros e (K1 & K2 & K3 & K4).
        split; [by apply (only_l2_table _ _ _ Ho)|]. split; [done|]. split; [done|].
        unfold disk_l2. by rewrite Hd.
    - intros off _. unfold l2_view, disk_l2. by rewrite Hd.
    - intros x _. by rewrite Hd. }
  apply l2_step_guest; [done|done|apply Hq].
Qed.

Lemma u64_in a b c : 0 <= a -> 0 <= b -> a + b <= c -> c < 2 ^ 63 -> u64 (a + b) = a + b.
Proof. intros. apply wrap_small. unfold in_width. lia. Qed.

(** One chunk, inside one cluster. *)
Lemma read_chunk_spec q off n :
  image_ok q -> 0 <= n -> off mod g_cs q + n <= g_cs q ->
  exists q', read_chunk decompress off (off mod g_cs q) n q = (q', true, contents (guest_byte q) off n)
    /\ same_guest q q' /\ image_ok q'.
Proof.
  intros Hq Hn Hfit. pose proof (l2_geo _ (im_l2 _ Hq)) as Hg.
  pose proof (geo_cs_bounds _ Hg) as Hcs. fold (g_cs q) in Hcs.
  pose proof (Z.mod_pos_bound off (g_cs q)) as Hm. set (m := off mod g_cs q) in *.
  pose proof (guest_bytes_slice q off n) as Hsl. pose proof (im_data _ Hq off) as Hd.
  destruct (ResolveOffset_spec q off Hq) as (q1 & E1 & Hs1 & Hq1).
  unfold read_chunk. rewrite E1. destruct (sg_only _ _ Hs1) as (Ho1 & Hlen1 & _).
  pose proof (sg_bytes _ _ Hs1 off) as Hb1.
  assert (Hcs1 : g_cs q1 = g_cs q) by (unfold g_cs; by rewrite (only_l2_geo _ _ (sg_only _ _ Hs1))).
  pose proof (im_l2 _ Hq1) as [_ (_ & Hfl & _) _ _ _]. rewrite Hlen1 in Hfl.
  destruct (resolve_entry (q_geo q) (entry_of q off)) as [|h|h sz] eqn:Er.
  - exists q1. split; [|done]. f_equal.
    rewrite <- (Hsl (replicate (Z.to_nat (g_cs q)) 0)); [|done|done|done|done|apply length_replicate].
    rewrite drop_replicate, take_replicate. f_equal. lia.
  - destruct Hd as (D1 & _ & D3 & _). unfold ReadCluster. rewrite (u64_in h m (q_len q)) by lia.
    rewrite read_at_in by lia. rewrite length_peek, Z2Nat.id, Z.eqb_refl by lia.
    destruct (set_file_guest q1 (MkFile (fp_file (q_file q1)) (h + m + n)) Hq1 eq_refl) as [Hs2 Hq2].
    eexists. split; [|split; [exact (same_guest_trans _ _ _ Hs1 Hs2)|done]]. f_equal.
    rewrite <- (Hsl (peek (q_data q1) h (g_cs q))); [|done|done|done| |by rewrite length_peek].
    + apply slice_peek; lia.
    + rewrite <- Hb1. cbn. by rewrite Hcs1.
  - destruct Hd as ((D1 & D2 & D3 & _) & [l Hl]). unfold ReadCompressedCluster.
    rewrite read_at_in by lia. rewrite length_peek, Z2Nat.id, Z.eqb_refl by lia. cbn [negb].
    destruct (set_file_guest q1 (MkFile (fp_file (q_file q1)) (h + sz)) Hq1 eq_refl) as [Hs2 Hq2].
    set (q2 := set_q_file _ q1) in *. rewrite Hl in Hb1. cbn in Hb1.
    change (q_geo q2) with (q_geo q1). change (g_cs q2) with (g_cs q1).
    apply bind_Some in Hb1 as (out & -> & Hb1). rewrite Hcs1 in *.
    destruct (Z.ltb_spec (g_cs q) (m + n)); [lia|].
    exists q2. split; [|split; [exact (same_guest_trans _ _ _ Hs1 Hs2)|done]]. f_equal.
    injection Hb1 as ->. apply Hsl; try done. by eapply length_cluster_bytes.
Qed.

Lemma contents_app c off n m :
  0 <= n -> 0 <= m -> contents c off (n + m) = contents c off n ++ contents c (off + n) m.
Proof. intros. unfold contents. rewrite seqZ_app by lia. by rewrite fmap_app. Qed.

Lemma read_step_spec q off len q1 o l :
  off + len <= virtual_size_ (q_geo q) -> virtual_size_ (q_geo q) < 2 ^ 63 ->
  image_ok q1 -> same_guest q q1 -> 0 <= off <= o -> 0 <= l -> o + l = off + len ->
  match read_step decompress (q1, o, l, contents (guest_byte q) off (o - off)) with
  | inl (q2, o2, l2, acc) =>
      (image_ok q2 /\ same_guest q q2 /\ off <= o2 /\ 0 <= l2 /\ o2 + l2 = off + len
       /\ acc = contents (guest_byte q) off (o2 - off)) /\ 0 <= l2 < l
  | inr (q2, ok, acc) =>
      image_ok q2 /\ same_guest q q2 /\ ok = true /\ acc = contents (guest_byte q) off len
  end.
Proof.
  intros Hv Hv63 Hq1 Hs1 Ho Hl Hsum. unfold read_step.
  pose proof (only_l2_geo _ _ (sg_only _ _ Hs1)) as Hg1. rewrite Hg1.
  destruct (Z.ltb_spec 0 l) as [Hpos|]; [|split; [done|split; [done|split; [done|f_equal; lia]]]].
  pose proof (l2_geo _ (im_l2 _ Hq1)) as Hg. pose proof (geo_cs_bounds _ Hg) as Hcs. fold (g_cs q1) in Hcs.
  rewrite in_cluster_mod by done. unfold chunk_of. rewrite in_cluster_mod by done.
  pose proof (Z.mod_pos_bound o (g_cs q1)) as Hm. set (m := o mod g_cs q1) in *.
  set (n := Z.min l (g_cs q1 - m)). assert (Hn : 0 < n <= l /\ m + n <= g_cs q1) by lia.
  rewrite (u64_in o n (virtual_size_ (q_geo q))) by lia.
  destruct (Z.ltb_spec (virtual_size_ (q_geo q)) (o + n)); [lia|].
  destruct (read_chunk_spec q1 o n Hq1) as (q2 & E & Hs2 & Hq2); [lia|unfold m in Hn; lia|].
  fold m in E. rewrite E. split; [|lia]. split; [done|]. split; [exact (same_guest_trans _ _ _ Hs1 Hs2)|].
  do 3 (split; [lia|]).
  replace (o + n - off) with ((o - off) + n) by lia. rewrite contents_app by lia. f_equal.
  replace (off + (o - off)) with o by lia. apply list_fmap_ext. intros i x _. by apply same_guest_byte.
Qed.

(** C1. A guest read inside the disk succeeds and returns the guest's bytes:
    zeros where nothing is allocated, the host cluster's bytes, or the
    decompressed ones, whatever the L2 cache holds and evicts on the way;
    the guest-visible contents of the whole disk stay the same. *)
Theorem Qcow2_Read_correct q off len :
  image_ok q -> 0 <= off -> 0 <= len < 2 ^ 32 -> off + len <= virtual_size_ (q_geo q) ->
  virtual_size_ (q_geo q) < 2 ^ 63 ->
  exists q', Qcow2_Read decompress q off len = Some (q', true, contents (guest_byte q) off len)
    /\ image_ok q' /\ forall x, guest_byte q' x = guest_byte q x.
Proof.
  intros Hq Ho Hl Hv Hv63.
  destruct (while64_total (read_step decompress)
    (fun s => let '(q1, o, l, acc) := s in
       image_ok q1 /\ same_guest q q1 /\ off <= o /\ 0 <= l /\ o + l = off + len
       /\ acc = contents (guest_byte q) off (o - off))
    (fun s => let '(_, _, l, _) := s in l)
    (fun r => let '(q1, ok, acc) := r in
       image_ok q1 /\ same_guest q q1 /\ ok = true /\ acc = contents (guest_byte q) off len)
    (q, off, len, [])) as ([[q' ok] acc] & E & H1 & H2 & -> & ->).
  - split; [done|]. split; [apply same_guest_refl|]. rewrite Z.sub_diag. do 3 (split; [lia|]). done.
  - lia.
  - intros [[[q1 o] l] acc] (H1 & H2 & H3 & H4 & H5 & ->). 
    pose proof (read_step_spec q off len q1 o l) as HS.
    destruct (read_step _ _) as [[[[q2 o2] l2] acc]|[[q2 ok] acc]]; apply HS; done || lia.
  - exists q'. unfold Qcow2_Read. rewrite E. split; [done|]. split; [done|].
    intros x. by apply same_guest_byte.
Qed.
End ReadCorrect.

(** ** Discard does not look at the disk's size *)

Lemma release_entry_geo e q q' : release_entry e q = Some q' -> q_geo q' = q_geo q.
Proof.
  unfold release_entry. destruct (e =? 0); [by intros [= <-]|].
  destruct (has e kCompressedBit); [apply free_clusters_geo|].
  destruct (_ =? 0); [by intros [= <-]|apply FreeCluster_geo].
Qed.

Lemma discard_cluster_geo off q q' : discard_cluster off q = Some q' -> q_geo q' = q_geo q.
Proof.
  unfold discard_cluster. destruct (_ <=? _); [by intros [= <-]|].
  destruct (_ =? 0); [by intros [= <-]|].
  pose proof (GetL2Table_geo (nth (Z.to_nat (l1_index (q_geo q) off)) (l1_table_ q) 0 .& kOffsetMask) q) as E.
  destruct (GetL2Table _ q) as [q1 ok]. cbn [fst] in E.
  destruct (negb ok || _); [by intros [= <-]|]. intros H. apply release_entry_geo in H.
  cbn in H. by rewrite H, l2_set_geo.
Qed.

(** The bytes one L1 entry covers. *)
Definition l1_span (g : Geometry) : Z := l2_entries_ g * cluster_size_ g.

Section Wrap.
  Context (g : Geometry) (Hg : geo_ok g) (Hbits : cluster_bits_ g <= 17).

(** A multiple of [2^32] spans is invisible to the index computations, also
    after wrapping to 64 bits. *)
Definition far (k : Z) : Z := k * (2 ^ 32 * l1_span g).

Lemma span_pos : 0 < l1_span g /\ 512 <= cluster_size_ g /\ 0 < l2_entries_ g.
Proof.
  pose proof (geo_cs_bounds g Hg) as Hc. pose proof (geo_l2 g Hg). unfold l1_span. nia.
Qed.

Lemma far_wrap o k : exists j, u64 (o + far k) = o + far j /\ 0 <= o + far j.
Proof.
  destruct span_pos as (Hs & _). unfold wrap.
  assert (exists m, 2 ^ 64 = m * (2 ^ 32 * l1_span g)) as [m Hm].
  { exists (2 ^ (35 - 2 * cluster_bits_ g)). unfold l1_span.
    assert (E : l2_entries_ g = 2 ^ (cluster_bits_ g - 3)).
    { pose proof (geo_l2 g Hg) as H8. rewrite (geo_cs g Hg) in H8. pose proof (geo_bits g Hg).
      replace (cluster_bits_ g) with ((cluster_bits_ g - 3) + 3) in H8 by lia.
      rewrite Z.pow_add_r in H8 by lia. lia. }
    pose proof (geo_bits g Hg). rewrite E, (geo_cs g Hg), <- !Z.pow_add_r by lia. f_equal. lia. }
  pose proof (Z.mod_pos_bound (o + far k) (2 ^ 64)) as Hb.
  pose proof (Z.div_mod (o + far k) (2 ^ 64)) as Hd.
  exists (k - m * ((o + far k) / 2 ^ 64)).
  assert (E : (o + far k) mod 2 ^ 64 = o + far (k - m * ((o + far k) / 2 ^ 64))).
  { unfold far in *. rewrite Hm in Hd at 2. nia. }
  rewrite <- E. split; [done|]. apply Hb. by compute.
Qed.

Lemma far_index o k :
  l1_index g (u64 (o + far k)) = l1_index g o /\ l2_index g (u64 (o + far k)) = l2_index g o
  /\ (u64 (o + far k)) mod cluster_size_ g = o mod cluster_size_ g.
Proof.
  destruct (far_wrap o k) as (j & -> & _). destruct span_pos as (Hs & Hc & Hl). unfold far.
  split; [|split].
  - unfold l1_index. fold (l1_span g). replace (j * (2 ^ 32 * l1_span g)) with (j * 2 ^ 32 * l1_span g) by lia.
    rewrite Z.div_add by lia. unfold wrap. by rewrite Z_mod_plus_full.
  - unfold l2_index, l1_span.
    replace (j * (2 ^ 32 * (l2_entries_ g * cluster_size_ g)))
      with (j * 2 ^ 32 * l2_entries_ g * cluster_size_ g) by lia.
    rewrite Z.div_add by lia. by rewrite Z_mod_plus_full.
  - unfold l1_span. replace (j * (2 ^ 32 * (l2_entries_ g * cluster_size_ g)))
      with (j * 2 ^ 32 * l2_entries_ g * cluster_size_ g) by lia.
    by rewrite Z_mod_plus_full.
Qed.

Lemma discard_cluster_far q o k :
  q_geo q = g -> discard_cluster (u64 (o + far k)) q = discard_cluster o q.
Proof.
  intros Hq. unfold discard_cluster. rewrite Hq. by destruct (far_index o k) as (-> & -> & _).
Qed.

(** [Discard] never compares its range with the disk's size, and truncates
    the L1 index to 32 bits: discarding at [off] plus any multiple of 2^32
    L1 spans (2^47 bytes for 512-byte clusters, 2^61 for the usual 64 KiB)
    discards, and reports success for, the clusters at [off]. *)
Theorem Qcow2_Discard_wraps q off len k :
  q_geo q = g -> Qcow2_Discard q (u64 (off + far k)) len = Qcow2_Discard q off len.
Proof.
  intros Hq. unfold Qcow2_Discard.
  enough (E : while64 discard_step (q, u64 (off + far k), len) = while64 discard_step (q, off, len))
    by (rewrite E; reflexivity).
  apply (while64_sim discard_step discard_step (fun s t =>
    let '(q1, o1, l1) := s in let '(q2, o2, l2) := t in
    q_geo q2 = g /\ q1 = q2 /\ l1 = l2 /\ o1 = u64 (o2 + far k))); [done|].
  intros [[q1 o1] l1] [[q2 o2] l2] (Hq2 & -> & -> & ->). unfold discard_step.
  destruct (0 <? l2); [|done].
  assert (Hin : in_cluster q2 (u64 (o2 + far k)) = in_cluster q2 o2).
  { rewrite !in_cluster_mod by (by rewrite Hq2). unfold g_cs. rewrite Hq2. apply far_index. }
  unfold whole_cluster, chunk_of. rewrite Hin, discard_cluster_far by done.
  set (n := Z.min l2 _).
  assert (Hn : u64 (u64 (o2 + far k) + n) = u64 (u64 (o2 + n) + far k)).
  { rewrite !wrap_add_l. f_equal. lia. }
  destruct (_ && _); [|by rewrite Hn].
  destruct (discard_cluster o2 q2) as [q3|] eqn:E; [|done].
  apply discard_cluster_geo in E. rewrite Hn, E. done.
Qed.
End Wrap.

(** ** A small image *)

Definition demo_header : list Z :=
  be_bytes 4 kQcow2Magic ++ be_bytes 4 3 ++ be_bytes 8 0 ++ be_bytes 4 0 ++ be_bytes 4 9
  ++ be_bytes 8 16384 ++ be_bytes 4 0 ++ be_bytes 4 1 ++ be_bytes 8 512 ++ be_bytes 8 1024
  ++ be_bytes 4 1 ++ be_bytes 4 0 ++ be_bytes 8 0 ++ be_bytes 8 0 ++ be_bytes 8 0 ++ be_bytes 8 0
  ++ be_bytes 4 4 ++ be_bytes 4 104.

(** Clusters 0 to 3: header, L1 table, refcount table, refcount block. *)
Definition demo_qfile : HostFile :=
  MkHostFile (poke (poke (poke ∅ 0 demo_header) 1024 (be_bytes 8 1536)) 1536 (encode_be 2 [1; 1; 1; 1]))
    2048 1000000 true.

Definition demo_geo : Geometry := MkGeometry 16384 9 512 64 1 512 3 0 256.

Definition no_codec (ty : Z) (l : list Z) (n : Z) : option (list Z) := None.

Definition demo_open : Qcow2DiskImage :=
  default (MkQcow2 demo_geo (MkFile demo_qfile 0) [] 0 [] 0 0 0 false [] []) (Qcow2_Open demo_qfile).

Definition run_write (q : Qcow2DiskImage) (off : Z) (l : list Z) : Qcow2DiskImage :=
  match Qcow2_Write no_codec q off l with Some (q', _) => q' | None => q end.
Definition run_discard (q : Qcow2DiskImage) (off len : Z) : Qcow2DiskImage :=
  match Qcow2_Discard q off len with Some (q', _) => q' | None => q end.

(** After a write of two bytes across a cluster boundary: the L2 table is
    cached and dirty. *)
Definition demo_written : Qcow2DiskImage := run_write demo_open 511 [7; 9].

Definition demo_discarded : Qcow2DiskImage := run_discard (run_write demo_open 0 (replicate 512 65)) 0 512.

(** A cluster is filled with 65s and discarded; then one byte is written to
    another cluster, of which nothing else was ever written. *)
Definition demo_reused : Qcow2DiskImage :=
  run_write demo_discarded 1024 [66].

(** The bytes of a successful read. *)
Definition read_back (q : Qcow2DiskImage) (off n : Z) : option (list Z) :=
  match Qcow2_Read no_codec q off n with Some (_, true, l) => Some l | _ => None end.

(** The allocator hands out a freed cluster without clearing it, and a write
    that covers only part of an unallocated cluster clears nothing either:
    the rest of the guest's new cluster shows what the freed one held.
    Before that write both clusters read as zeros.  ([Write]'s only clearing
    is the copy of an old cluster, which is skipped when there was none,
    [l2_entry != 0].) *)
Theorem reused_cluster_exposes_old_data :
  snd <$> Qcow2_Write no_codec demo_open 0 (replicate 512 65) = Some true
  /\ snd <$> Qcow2_Discard (run_write demo_open 0 (replicate 512 65)) 0 512 = Some true
  /\ read_back demo_discarded 0 512 = Some (replicate 512 0)
  /\ read_back demo_discarded 1024 512 = Some (replicate 512 0)
  /\ snd <$> Qcow2_Write no_codec demo_discarded 1024 [66] = Some true
  /\ read_back demo_reused 1024 512 = Some (66 :: replicate 511 65).
Proof. repeat split; vm_compute; reflexivity. Qed.

(** A checker for [image_ok] on images without compressed clusters. *)
Definition plain_okb (q : Qcow2DiskImage) (e : Z) : bool :=
  match resolve_entry (q_geo q) e with
  | Unallocated => true
  | HostCluster h =>
      (0 <=? h) && (h + g_cs q <=? q_len q)
      && forallb (fun t => (h + g_cs q <=? t) || (t + g_cs q <=? h)) (tables q)
  | Compressed _ _ => false
  end.

Lemma plain_okb_ok dec q e : geo_ok (q_geo q) -> plain_okb q e = true ->
  resolved_ok dec q (resolve_entry (q_geo q) e).
Proof.
  intros Hg. unfold plain_okb. destruct (resolve_entry (q_geo q) e) as [|h|]; cbn; [done| |done].
  intros Hb. bool_hyps. pose proof (geo_cs_bounds _ Hg). unfold extent_ok. unfold g_cs in *.
  split; [done|]. split; [lia|]. split; [done|]. apply Forall_forall. intros t Ht.
  apply list_elem_of_In in Ht.
  match goal with H : forallb _ _ = true |- _ =>
    rewrite forallb_forall in H; specialize (H t Ht); apply orb_true_iff in H as [B|B] end;
  bool_hyps; lia.
Qed.

Lemma image_ok_data dec q :
  geo_ok (q_geo q) ->
  forallb (fun t => forallb (plain_okb q) (l2_view q t)) (tables q) = true ->
  forall x, resolved_ok dec q (resolve_entry (q_geo q) (entry_of q x)).
Proof.
  intros Hg Hb x. unfold entry_of. set (e := nth _ (l1_table_ q) 0).
  destruct (l1_size_ (q_geo q) <=? _); [done|]. destruct (Z.eqb_spec e 0) as [|He]; [done|]. cbn [orb].
  pose proof (l1_entry_table q _ e eq_refl He) as Ht.
  rewrite forallb_forall in Hb. apply list_elem_of_In in Ht. specialize (Hb _ Ht).
  rewrite forallb_forall in Hb.
  destruct (nth_in_or_default (Z.to_nat (l2_index (q_geo q) x)) (l2_view q (e .& kOffsetMask)) 0)
    as [Hi|Hi]; [by apply plain_okb_ok, Hb|by rewrite Hi].
Qed.

Lemma demo_geo_ok : geo_ok demo_geo.
Proof.
  constructor; cbn; try reflexivity; try (split; [lia|done]); try (split; lia).
  - by right.
Qed.

Lemma demo_l2_ok : l2_ok demo_written.
Proof.
  constructor.
  - replace (q_geo demo_written) with demo_geo by (vm_compute; reflexivity). apply demo_geo_ok.
  - split; [|split].
    + apply (bool_decide_unpack _). vm_compute. exact I.
    + split; vm_compute; [discriminate|reflexivity].
    + vm_compute. discriminate.
  - apply (bool_decide_unpack _). vm_compute. exact I.
  - apply (bool_decide_unpack _). vm_compute. exact I.
  - vm_compute. lia.
Qed.

Lemma demo_image_ok : image_ok no_codec demo_written.
Proof.
  constructor.
  - exact demo_l2_ok.
  - vm_compute. reflexivity.
  - apply (bool_decide_unpack _). vm_compute. exact I.
  - replace (l2_offset <$> l2_lru_ demo_written) with (tables demo_written)
      by (vm_compute; reflexivity). done.
  - apply image_ok_data; [apply demo_l2_ok|vm_compute; reflexivity].
Qed.

Lemma ReadHeader_geometry_witness :
  exists g r f, ReadHeader (MkFile demo_qfile 0) = Some (g, r, f) /\ geo_ok g.
Proof.
  exists demo_geo, (1024, 1), (MkFile demo_qfile 104).
  assert (E : ReadHeader (MkFile demo_qfile 0) = Some (demo_geo, (1024, 1), MkFile demo_qfile 104))
    by (vm_compute; reflexivity).
  split; [exact E|]. refine (proj1 (ReadHeader_geometry demo_qfile demo_geo 1024 1 _ _ E)).
  apply (bool_decide_unpack _). vm_compute. exact I.
Defined.

Lemma grow_loop_terminates_witness :
  exists r, while64 (grow_step demo_geo 2048) 1 = Some r.
Proof.
  destruct (grow_loop_terminates demo_geo 2048 1) as (ne & nb & nc & E & _).
  - exact demo_geo_ok.
  - split; [lia|reflexivity].
  - lia.
  - by exists (ne, nb, nc).
Defined.

Lemma GetL2Table_transparent_witness :
  exists q', GetL2Table 2048 demo_written = (q', true) /\ l2_view q' 2048 = l2_view demo_written 2048.
Proof.
  assert (Ht : table_at demo_written 2048).
  { split; [done|]. split; vm_compute; [discriminate|reflexivity]. }
  destruct (GetL2Table_transparent demo_written 2048 demo_l2_ok Ht)
    as (q' & d & rest & E & _ & _ & _ & Hv & _).
  exists q'. split; [exact E|]. by apply Hv.
Defined.

Lemma Qcow2_Read_correct_witness :
  exists q', Qcow2_Read no_codec demo_written 510 4 = Some (q', true, [0; 7; 9; 0]).
Proof.
  destruct (Qcow2_Read_correct no_codec demo_written 510 4 demo_image_ok) as (q' & E & _).
  - lia.
  - lia.
  - vm_compute. discriminate.
  - vm_compute. reflexivity.
  - exists q'. rewrite E. vm_compute. reflexivity.
Defined.

Lemma Qcow2_Discard_wraps_witness :
  Qcow2_Discard demo_written (2 ^ 47) 512 = Qcow2_Discard demo_written 0 512.
Proof.
  exact (Qcow2_Discard_wraps demo_geo demo_geo_ok ltac:(cbn; lia) demo_written 0 512 1 eq_refl).
Defined.

Lemma demo_rfb_ok : rfb_ok demo_open.
Proof.
  constructor.
  - replace (q_geo demo_open) with demo_geo by (vm_compute; reflexivity). apply demo_geo_ok.
  - split; [|split].
    + apply (bool_decide_unpack _). vm_compute. exact I.
    + split; vm_compute; [discriminate|reflexivity].
    + vm_compute. discriminate.
  - replace (rfb_lru_ demo_open) with (@nil RfbCacheEntry) by (vm_compute; reflexivity). constructor.
  - replace (rfb_lru_ demo_open) with (@nil RfbCacheEntry) by (vm_compute; reflexivity). constructor.
  - vm_compute. lia.
Qed.

Lemma demo_table : refcount_table_ demo_open = 1536 :: replicate 63 0.
Proof. vm_compute. reflexivity. Qed.

Lemma demo_distinct : blocks_distinct demo_open.
Proof.
  assert (Z0 : forall i, nth i (replicate 63 0) 0 = 0).
  { intros i. rewrite nth_lookup. destruct (replicate 63 0 !! i) eqn:E; [|done].
    by apply lookup_replicate in E as [-> _]. }
  unfold blocks_distinct. rewrite demo_table.
  intros [|i] [|j]; unfold nth; fold (@nth Z); rewrite ?Z0; congruence.
Qed.

Lemma demo_covered k : 0 <= k <= 4 -> covered demo_open k.
Proof.
  intros Hk. assert (k = 0 \/ k = 1 \/ k = 2 \/ k = 3 \/ k = 4) as C by lia.
  destruct C as [->|[->|[->|[->| ->]]]]; unfold covered, table_at;
    repeat split; vm_compute; (discriminate || reflexivity).
Qed.

Lemma FreeCluster_spec_witness :
  exists q', FreeCluster 1024 demo_open = Some q' /\ refcount q' 2 = 0 /\ refcount q' 3 = 1.
Proof.
  destruct (FreeCluster_spec demo_open 1024 2 demo_rfb_ok demo_distinct)
    as (q' & E & _ & _ & H1 & H2 & _).
  - vm_compute. reflexivity.
  - apply demo_covered. lia.
  - split; vm_compute; reflexivity.
  - exists q'. split; [exact E|]. split; [rewrite H1; vm_compute; reflexivity|].
    rewrite H2; [vm_compute; reflexivity|apply demo_covered; lia|lia].
Defined.

Lemma AllocateCluster_first_fit_witness :
  exists q', AllocateCluster demo_open = Some (q', 2048) /\ refcount q' 4 = 1.
Proof.
  destruct (AllocateCluster_first_fit demo_open 4 demo_rfb_ok demo_distinct) as (q' & E & H & _).
  - split; vm_compute; discriminate.
  - lia.
  - intros k Hk. apply demo_covered. exact Hk.
  - intros k Hk. change (0 <= k < 4) in Hk.
    assert (k = 0 \/ k = 1 \/ k = 2 \/ k = 3) as C by lia.
    destruct C as [->|[->|[->| ->]]]; vm_compute; discriminate.
  - vm_compute. reflexivity.
  - vm_compute. reflexivity.
  - vm_compute. discriminate.
  - intros _. vm_compute. discriminate.
  - exists q'. split; [exact E|]. apply (al_count _ _ _ H).
Defined.
