(* ===== verification/StdString.v ===== *)
(** * Byte strings and the C library's number syntax

    [std::string] and [std::vector<uint8_t>] hold bytes: both are lists of
    [Z].  This file holds what the text protocols use of the standard
    library: literals, [find], [strtoull], [strtoul], [atoi],
    [std::from_chars] for [int], and the decimal output of [operator<<] and
    [std::to_string], with the lemma that reading a printed number back
    gives the number ([strtoull_to_dec]). *)

From S2P Require Import Prelude.
From Stdlib Require String Ascii.
Export String.StringSyntax.

Abbreviation bytes := (list Z).

(** A string literal. *)
Definition str (s : String.string) : bytes :=
  List.map (fun c => Z.of_nat (Ascii.nat_of_ascii c)) (String.list_ascii_of_string s).
Arguments str s%_string_scope.

(** ** Searching *)

(** [s.find(c)], the first position of [c]. *)
Fixpoint find_byte (c : Z) (s : bytes) : option nat :=
  match s with
  | [] => None
  | ch :: s => if ch =? c then Some O else S <$> find_byte c s
  end.

Lemma find_byte_app_l c s t : c ∉ s -> find_byte c (s ++ c :: t) = Some (length s).
Proof.
  induction s as [|ch s IH]; cbn [app find_byte length]; intros Hc.
  - by rewrite Z.eqb_refl.
  - apply not_elem_of_cons in Hc as [Hne Hc].
    rewrite (proj2 (Z.eqb_neq ch c)) by done. by rewrite IH.
Qed.

Lemma find_byte_None c s : find_byte c s = None <-> c ∉ s.
Proof.
  induction s as [|ch s IH]; cbn [find_byte]; [split; [intros _; apply not_elem_of_nil|done]|].
  rewrite not_elem_of_cons. destruct (Z.eqb_spec ch c) as [->|Hne].
  - split; [done|]. intros []. done.
  - rewrite fmap_None, IH. intuition congruence.
Qed.

Lemma find_byte_Some c s n :
  find_byte c s = Some n ->
  s = take n s ++ c :: drop (S n) s /\ c ∉ take n s /\ (n < length s)%nat.
Proof.
  revert n. induction s as [|ch s IH]; cbn [find_byte]; [done|]. intros n.
  destruct (Z.eqb_spec ch c) as [->|Hne].
  - intros [= <-]. cbn. split_and!; [done|apply not_elem_of_nil|lia].
  - intros (m & Hm & ->)%fmap_Some. destruct (IH m Hm) as (Heq & Hni & Hlt).
    cbn [take drop app length]. split_and!.
    + f_equal. exact Heq.
    + apply not_elem_of_cons. split; [congruence|done].
    + lia.
Qed.

(** More bytes behind a string do not move its first match. *)
Lemma find_byte_app_Some c s t n : find_byte c s = Some n -> find_byte c (s ++ t) = Some n.
Proof.
  revert n. induction s as [|ch s IH]; cbn [find_byte app]; [done|]. intros n.
  case_ifs; [done|]. intros (m & Hm & ->)%fmap_Some. by rewrite (IH m Hm).
Qed.

(** ** Reading numbers *)

Definition isdigit (c : Z) : bool := (48 <=? c) && (c <=? 57).
(** [isspace] in the C locale: space, \t, \n, \v, \f, \r. *)
Definition isspace (c : Z) : bool := (c =? 32) || ((9 <=? c) && (c <=? 13)).

(** What [c_str()] shows to a C function: the bytes before the first NUL. *)
Fixpoint c_str (s : bytes) : bytes :=
  match s with
  | [] => []
  | c :: s => if c =? 0 then [] else c :: c_str s
  end.

Lemma c_str_app s t : 0 ∉ s -> c_str (s ++ 0 :: t) = s.
Proof.
  induction s as [|c s IH]; [done|]. rewrite not_elem_of_cons. intros [Hc Hs]. cbn.
  rewrite (proj2 (Z.eqb_neq c 0)) by done. by rewrite IH.
Qed.

Lemma c_str_nul s : 0 ∉ c_str s.
Proof.
  induction s as [|c s IH]; cbn; [apply not_elem_of_nil|]. destruct (Z.eqb_spec c 0); [apply not_elem_of_nil|].
  by apply not_elem_of_cons.
Qed.

Fixpoint skip_space (s : bytes) : bytes :=
  match s with
  | c :: s' => if isspace c then skip_space s' else s
  | [] => []
  end.

(** The digits at the front of [s] read onto [acc], whether there was one,
    and the rest. *)
Fixpoint read_digits (acc : Z) (any : bool) (s : bytes) : Z * bool * bytes :=
  match s with
  | c :: s' => if isdigit c then read_digits (acc * 10 + (c - 48)) true s' else (acc, any, s)
  | [] => (acc, any, [])
  end.

Definition read_sign (s : bytes) : bool * bytes :=
  match s with
  | c :: s' => if c =? 45 then (true, s') else if c =? 43 then (false, s') else (false, s)
  | [] => (false, [])
  end.

(** [strtoull(s, &end, 10)] on the C string [s]: the value and what [end]
    points at.  [strtoul] is the same function at the width of [unsigned
    long]. *)
Definition strtoull_w (w : Z) (s : bytes) : Z * bytes :=
  let '(neg, s1) := read_sign (skip_space s) in
  let '(n, any, rest) := read_digits 0 false s1 in
  if any then
    (if n <=? 2 ^ w - 1 then (if neg : bool then wrap w (- n) else n) else 2 ^ w - 1, rest)
  else (0, s).

Definition strtoull : bytes -> Z * bytes := strtoull_w 64.

(** [static_cast<uint32_t>(std::strtoul(s.c_str(), nullptr, 10))], [ulong_bits]
    wide [unsigned long] (64 on the Unix hosts, 32 on Windows). *)
Definition strtoul_u32 (ulong_bits : Z) (s : bytes) : Z :=
  u32 (fst (strtoull_w ulong_bits (c_str s))).

(** [std::atoi(s.c_str())]: undefined ([None]) when the value does not fit
    an [int]. *)
Definition atoi (s : bytes) : option Z :=
  let '(neg, s1) := read_sign (skip_space (c_str s)) in
  let '(n, _, _) := read_digits 0 false s1 in
  let v := if neg : bool then - n else n in
  if (- 2 ^ 31 <=? v) && (v <? 2 ^ 31) then Some v else None.

(** [std::from_chars(first, last, int)]: no space and no plus sign; trailing
    characters are left.  [None] is an error code. *)
Definition from_chars_int (s : bytes) : option Z :=
  let '(neg, s1) := match s with
                    | c :: s' => if c =? 45 then (true, s') else (false, s)
                    | [] => (false, [])
                    end in
  let '(n, any, _) := read_digits 0 false s1 in
  let v := if neg : bool then - n else n in
  if any && ((- 2 ^ 31 <=? v) && (v <? 2 ^ 31)) then Some v else None.

(** ** Printing numbers *)

(** Decimal output of an unsigned integer; 20 digits hold any 64-bit one. *)
Fixpoint dec_digits (fuel : nat) (n : Z) : bytes :=
  match fuel with
  | O => []
  | S f => if n <? 10 then [48 + n] else dec_digits f (n / 10) ++ [48 + n mod 10]
  end.

Definition to_dec (n : Z) : bytes := dec_digits 20 n.

(** Decimal output of an [int]. *)
Definition to_dec_signed (n : Z) : bytes :=
  if n <? 0 then 45 :: to_dec (- n) else to_dec n.

Definition non_digit_head (s : bytes) : Prop :=
  match s with [] => True | c :: _ => isdigit c = false end.

Lemma read_digits_stop acc any s : non_digit_head s -> read_digits acc any s = (acc, any, s).
Proof. destruct s as [|c s]; [done|]. cbn. by intros ->. Qed.

Lemma isdigit_digit d : 0 <= d < 10 -> isdigit (48 + d) = true.
Proof. intros. unfold isdigit. apply andb_true_iff. rewrite !Z.leb_le. lia. Qed.

Lemma read_digits_snoc acc any f n rest :
  0 <= n < 10 ^ Z.of_nat (S f) -> 
  read_digits acc any (dec_digits (S f) n ++ rest)
  = read_digits (acc * 10 ^ Z.of_nat (length (dec_digits (S f) n)) + n) true rest.
Proof.
  revert acc any n rest. induction f as [|f IH]; intros acc any n rest Hn.
  - cbn [dec_digits]. case_ifs; bool_hyps; [|lia]. cbn [app length read_digits].
    rewrite isdigit_digit by lia. do 2 f_equal. lia.
  - cbn [dec_digits]. destruct (Z.ltb_spec n 10) as [Hlt|Hge].
    + cbn [app length read_digits]. rewrite isdigit_digit by lia. do 2 f_equal. lia.
    + change (if n / 10 <? 10 then [48 + n / 10]
              else dec_digits f (n / 10 / 10) ++ [48 + n / 10 mod 10])
        with (dec_digits (S f) (n / 10)).
      rewrite <- app_assoc. rewrite IH.
      2:{ rewrite Nat2Z.inj_succ, Z.pow_succ_r in Hn by lia.
          split; [dlia|]. apply Z.div_lt_upper_bound; lia. }
      rewrite length_app. cbn [app length read_digits].
      rewrite isdigit_digit by (apply Z.mod_pos_bound; lia). f_equal.
      rewrite Nat2Z.inj_add, Z.pow_add_r by lia. change (10 ^ Z.of_nat 1) with 10.
      pose proof (Z.div_mod n 10). lia.
Qed.

Lemma dec_digits_head f n rest :
  0 <= n < 10 ^ Z.of_nat (S f) ->
  exists c t, dec_digits (S f) n ++ rest = c :: t /\ isdigit c = true.
Proof.
  revert n rest. induction f as [|f IH]; intros n rest Hn; cbn [dec_digits].
  - case_ifs; bool_hyps; [|lia]. eexists _, _. split; [done|]. apply isdigit_digit; lia.
  - destruct (Z.ltb_spec n 10).
    + eexists _, _. split; [done|]. apply isdigit_digit; lia.
    + change (if n / 10 <? 10 then [48 + n / 10]
              else dec_digits f (n / 10 / 10) ++ [48 + n / 10 mod 10])
        with (dec_digits (S f) (n / 10)).
      rewrite <- app_assoc. apply IH.
      rewrite Nat2Z.inj_succ, Z.pow_succ_r in Hn by lia.
      split; [dlia|]. apply Z.div_lt_upper_bound; lia.
Qed.

Lemma dec_digits_all f n :
  0 <= n < 10 ^ Z.of_nat (S f) -> Forall (fun c => isdigit c = true) (dec_digits (S f) n).
Proof.
  revert n. induction f as [|f IH]; intros n Hn; cbn [dec_digits].
  - case_ifs; bool_hyps; [|lia]. constructor; [|done]. apply isdigit_digit; lia.
  - destruct (Z.ltb_spec n 10).
    + constructor; [|done]. apply isdigit_digit; lia.
    + change (if n / 10 <? 10 then [48 + n / 10]
              else dec_digits f (n / 10 / 10) ++ [48 + n / 10 mod 10])
        with (dec_digits (S f) (n / 10)).
      apply Forall_app. split.
      * apply IH. rewrite Nat2Z.inj_succ, Z.pow_succ_r in Hn by lia.
        split; [dlia|]. apply Z.div_lt_upper_bound; lia.
      * constructor; [|done]. apply isdigit_digit, Z.mod_pos_bound. lia.
Qed.

Lemma to_dec_all n : in_width 64 n -> Forall (fun c => isdigit c = true) (to_dec n).
Proof. intros [? ?]. apply dec_digits_all. change (10 ^ Z.of_nat 20) with 100000000000000000000. lia. Qed.

Lemma to_dec_not_nil n : to_dec n <> [].
Proof.
  unfold to_dec. cbn [dec_digits]. destruct (n <? 10); [done|]. intros [_ Hx]%app_nil. done.
Qed.

Lemma to_dec_not_in n c : in_width 64 n -> isdigit c = false -> c ∉ to_dec n.
Proof.
  intros Hn Hc Hin. pose proof (proj1 (List.Forall_forall _ _) (to_dec_all n Hn)) as Hall.
  rewrite (Hall c) in Hc; [done|]. by apply list_elem_of_In.
Qed.

Lemma digit_not_space_sign c s : isdigit c = true ->
  skip_space (c :: s) = c :: s /\ read_sign (c :: s) = (false, c :: s).
Proof.
  unfold isdigit. intros Hc. bool_hyps. cbn [skip_space read_sign]. unfold isspace.
  rewrite (proj2 (Z.eqb_neq c 32)), (proj2 (Z.eqb_neq c 45)), (proj2 (Z.eqb_neq c 43)) by lia.
  rewrite (proj2 (Z.leb_gt c 13)) by lia. by rewrite andb_false_r.
Qed.

Lemma read_to_dec n rest :
  in_width 64 n -> non_digit_head rest ->
  read_sign (skip_space (to_dec n ++ rest)) = (false, to_dec n ++ rest)
  /\ read_digits 0 false (to_dec n ++ rest) = (n, true, rest).
Proof.
  intros Hn Hr.
  assert (Hb : 0 <= n < 10 ^ Z.of_nat 20)
    by (destruct Hn; change (10 ^ Z.of_nat 20) with 100000000000000000000; lia).
  destruct (dec_digits_head 19 n rest Hb) as (c & t & Heq & Hc).
  destruct (digit_not_space_sign c t Hc) as [Hs1 Hs2]. unfold to_dec. split.
  - by rewrite Heq, Hs1, Hs2.
  - by rewrite read_digits_snoc, read_digits_stop, Z.mul_0_l, Z.add_0_l by done.
Qed.

(** A printed number reads back, whatever non-digit follows it. *)
Lemma strtoull_to_dec n rest :
  in_width 64 n -> non_digit_head rest -> strtoull (to_dec n ++ rest) = (n, rest).
Proof.
  intros Hn Hr. unfold strtoull, strtoull_w.
  destruct (read_to_dec n rest Hn Hr) as [-> ->]. destruct Hn.
  by rewrite (proj2 (Z.leb_le n (2 ^ 64 - 1))) by lia.
Qed.

Lemma c_str_no_nul s : 0 ∉ s -> c_str s = s.
Proof.
  induction s as [|c s IH]; [done|]. rewrite not_elem_of_cons. intros [Hc Hs]. cbn.
  rewrite (proj2 (Z.eqb_neq c 0)) by done. by rewrite IH.
Qed.

Lemma c_str_to_dec n : in_width 64 n -> c_str (to_dec n) = to_dec n.
Proof. intros. by apply c_str_no_nul, to_dec_not_in. Qed.

Example to_dec_ex : to_dec 18446744073709551615 = str "18446744073709551615".
Proof. vm_compute. reflexivity. Qed.
Example strtoull_ex : strtoull (str " -1x") = (2 ^ 64 - 1, str "x").
Proof. vm_compute. reflexivity. Qed.
