(* ===== verification/Ports.v ===== *)
(** * The ports between a VM and its host

    The data of common/ports.h: what the devices hand to the host side and
    take from it. *)

From S2P Require Import Prelude.
From S2P Require Import StdString.

Record KeyboardEvent := mkKey { key_code : Z; pressed : bool }.

(** The wheel has events of its own and is left out. *)
Record PointerEvent := mkPointer { px : Z; py : Z; buttons : Z }.

(** [frame_pixels] is what [data()] returns, the zero-copy reference or the
    owned buffer, at the time of the call. *)
Record DisplayFrame := mkFrame {
  f_width : Z; f_height : Z; f_stride : Z; f_format : Z;
  f_resource_width : Z; f_resource_height : Z;
  f_dirty_x : Z; f_dirty_y : Z;
  frame_pixels : bytes }.

Record CursorInfo := mkCursor {
  cx : Z; cy : Z; hot_x : Z; hot_y : Z; cwidth : Z; cheight : Z;
  visible : bool; image_updated : bool; cpixels : bytes }.

Inductive ClipboardEvent :=
  | clip_grab (selection : Z) (available_types : list Z)
  | clip_data (selection data_type : Z) (data : bytes)
  | clip_request (selection data_type : Z)
  | clip_release (selection : Z).
