(* ===== verification/Stream.v ===== *)
(** * Incremental parsers

    The receivers of the program share one shape: a buffer of bytes not yet
    consumed, a step that takes something off its front or finds too little,
    and a loop of steps after each read.  For a step that consumes input and
    is not changed by bytes that come later, how a byte stream is cut into
    reads does not matter: [stream_reads]. *)

From S2P Require Import Prelude.
From S2P Require Import StdString.

Section Stream.
  Context {S E : Type} (step : S -> option (S * list E)) (buf : S -> bytes) (append : S -> bytes -> S).

Fixpoint stream_loop (fuel : nat) (s : S) : S * list E :=
  match fuel with
  | O => (s, [])
  | Datatypes.S fuel =>
      match step s with
      | None => (s, [])
      | Some (s, out) => let '(s, rest) := stream_loop fuel s in (s, out ++ rest)
      end
  end.

(** Every step consumes a byte, so the buffer's length bounds the steps. *)
Definition stream_run (s : S) : S * list E := stream_loop (length (buf s)) s.

(** A read appends to the buffer and runs the loop. *)
Fixpoint stream_reads (s : S) (reads : list bytes) : S * list E :=
  match reads with
  | [] => (s, [])
  | data :: reads =>
      let '(s, out) := stream_run (append s data) in
      let '(s, rest) := stream_reads s reads in (s, out ++ rest)
  end.

Record stream_laws : Prop := {
  step_shrinks : forall s s' out, step s = Some (s', out) -> (length (buf s') < length (buf s))%nat;
  step_append : forall s s' out data, step s = Some (s', out) -> step (append s data) = Some (append s' data, out);
  append_nil : forall s, append s [] = s;
  append_app : forall s a b, append s (a ++ b) = append (append s a) b }.

Hypothesis laws : stream_laws.

Lemma stream_loop_fuel f s : (length (buf s) <= f)%nat -> stream_loop f s = stream_run s.
Proof using laws.
  unfold stream_run. remember (length (buf s)) as n eqn:Hn.
  revert f s Hn. induction (lt_wf n) as [n _ IH]. intros f s -> Hf.
  destruct (step s) as [[s' out]|] eqn:Es.
  - pose proof (step_shrinks laws _ _ _ Es) as Hlt.
    destruct (length (buf s)) as [|k] eqn:El; [lia|]. destruct f as [|f]; [lia|].
    cbn [stream_loop]. rewrite Es.
    rewrite (IH (length (buf s'))) by (lia || done).
    by rewrite <- (IH (length (buf s')) ltac:(lia) k) by (lia || done).
  - destruct f; destruct (length (buf s)); cbn [stream_loop]; by rewrite ?Es.
Qed.

(** The loop without fuel. *)
Lemma stream_run_unfold s :
  stream_run s =
  match step s with
  | None => (s, [])
  | Some (s', out) => let '(s'', rest) := stream_run s' in (s'', out ++ rest)
  end.
Proof using laws.
  rewrite <- (stream_loop_fuel (Datatypes.S (length (buf s)))) by lia. cbn [stream_loop].
  destruct (step s) as [[s' out]|] eqn:Es; [|done].
  pose proof (step_shrinks laws _ _ _ Es). by rewrite stream_loop_fuel by lia.
Qed.

(** Bytes that come later do not change what is handled before them. *)
Lemma stream_run_append s data :
  stream_run (append s data)
  = let '(s1, out) := stream_run s in
    let '(s2, rest) := stream_run (append s1 data) in
    (s2, out ++ rest).
Proof using laws.
  remember (length (buf s)) as n eqn:Hn.
  revert s Hn. induction (lt_wf n) as [n _ IH]. intros s ->.
  rewrite (stream_run_unfold s). destruct (step s) as [[s' out]|] eqn:Es.
  - rewrite stream_run_unfold, (step_append laws _ _ _ _ Es).
    rewrite (IH _ (step_shrinks laws _ _ _ Es) s' eq_refl).
    destruct (stream_run s') as [s1 out1]. destruct (stream_run (append s1 data)) as [s2 out2].
    by rewrite app_assoc.
  - by destruct (stream_run (append s data)).
Qed.

Lemma stream_run_quiescent s s' out : stream_run s = (s', out) -> step s' = None.
Proof using laws.
  remember (length (buf s)) as n eqn:Hn.
  revert s s' out Hn. induction (lt_wf n) as [n _ IH]. intros s s' out ->.
  rewrite stream_run_unfold. destruct (step s) as [[s1 out1]|] eqn:Es.
  - destruct (stream_run s1) as [s2 out2] eqn:Er. intros [= <- <-].
    by eapply IH, Er; [eapply (step_shrinks laws)|].
  - by intros [= <- <-].
Qed.

(** From a state with nothing to do, reads are one read of the whole. *)
Lemma stream_reads_run s reads :
  step s = None -> stream_reads s reads = stream_run (append s (concat reads)).
Proof using laws.
  revert s. induction reads as [|data reads IH]; intros s Hq; cbn [stream_reads concat].
  - by rewrite (append_nil laws), stream_run_unfold, Hq.
  - rewrite (append_app laws), (stream_run_append (append s data)).
    destruct (stream_run (append s data)) as [s1 out1] eqn:Er.
    by rewrite (IH s1) by (by eapply stream_run_quiescent).
Qed.
End Stream.
