(* ===== verification/ProtocolV1.v ===== *)
(** * The control protocol between manager and runtime, version 1

    Models ipc/protocol_v1.{h,cpp}.  A message is a header line of
    tab-separated [key=value] tokens, with backslash escapes, followed by
    [payload_size] raw bytes.  [std::unordered_map] iterates in an
    unspecified order: [EncodeHeader] takes it as a parameter [iterate], a
    permutation of the map's entries.

    [Decode_EncodeHeader] is the round trip of the header, under the
    conditions [wire_ok] collects; the examples at the end and those of
    [IpcStream] show what the conditions exclude. *)

From S2P Require Import Prelude.
From S2P Require Import StdString.

Definition kProtocolVersion : Z := 1.

Inductive Channel :=
  | kControl | kConsole | kInput | kDisplay | kAudio | kClipboard.

Inductive Kind := kRequest | kResponse | kEvent.

#[global] Instance Channel_eq_dec : EqDecision Channel.
Proof. solve_decision. Defined.
#[global] Instance Kind_eq_dec : EqDecision Kind.
Proof. solve_decision. Defined.

Record Message := mkMessage {
  version : Z;
  channel : Channel;
  kind : Kind;
  type : bytes;
  vm_id : bytes;
  request_id : Z;
  fields : gmap bytes bytes;
  payload : bytes }.

(** A default-constructed message. *)
Definition Message_default : Message :=
  mkMessage kProtocolVersion kControl kRequest [] [] 0 ∅ [].

Definition set_version v m := mkMessage v (channel m) (kind m) (type m) (vm_id m) (request_id m) (fields m) (payload m).
Definition set_channel v m := mkMessage (version m) v (kind m) (type m) (vm_id m) (request_id m) (fields m) (payload m).
Definition set_kind v m := mkMessage (version m) (channel m) v (type m) (vm_id m) (request_id m) (fields m) (payload m).
Definition set_type v m := mkMessage (version m) (channel m) (kind m) v (vm_id m) (request_id m) (fields m) (payload m).
Definition set_vm_id v m := mkMessage (version m) (channel m) (kind m) (type m) v (request_id m) (fields m) (payload m).
Definition set_request_id v m := mkMessage (version m) (channel m) (kind m) (type m) (vm_id m) v (fields m) (payload m).
Definition set_fields v m := mkMessage (version m) (channel m) (kind m) (type m) (vm_id m) (request_id m) v (payload m).
Definition set_payload v m := mkMessage (version m) (channel m) (kind m) (type m) (vm_id m) (request_id m) (fields m) v.

(** ** The text layer *)

Definition ch_tab : Z := 9.
Definition ch_nl : Z := 10.
Definition ch_cr : Z := 13.
Definition ch_eq : Z := 61.
Definition ch_bs : Z := 92.

Fixpoint Escape (value : bytes) : bytes :=
  match value with
  | [] => []
  | ch :: value =>
      if (ch =? ch_bs) || (ch =? ch_tab) || (ch =? ch_nl) || (ch =? ch_eq)
      then ch_bs :: ch :: Escape value
      else ch :: Escape value
  end.

Fixpoint Unescape_loop (escaped : bool) (value : bytes) : bytes :=
  match value with
  | [] => []
  | ch :: value =>
      if escaped then ch :: Unescape_loop false value
      else if ch =? ch_bs then Unescape_loop true value
      else ch :: Unescape_loop false value
  end.

Definition Unescape (value : bytes) : bytes := Unescape_loop false value.

Fixpoint SplitTabs_loop (token : bytes) (escaped : bool) (value : bytes) : list bytes :=
  match value with
  | [] => [if escaped then token ++ [ch_bs] else token]
  | ch :: value =>
      if escaped then SplitTabs_loop (token ++ [ch_bs; ch]) false value
      else if ch =? ch_bs then SplitTabs_loop token true value
      else if ch =? ch_tab then token :: SplitTabs_loop [] false value
      else SplitTabs_loop (token ++ [ch]) false value
  end.

Definition SplitTabs (value : bytes) : list bytes := SplitTabs_loop [] false value.

Definition ParseU64 (value : bytes) : option Z :=
  match value with
  | [] => None
  | _ => let '(number, end_) := strtoull (c_str value) in
         match end_ with [] => Some number | _ => None end
  end.

Definition ChannelToString (channel : Channel) : bytes :=
  match channel with
  | kControl => str "control"
  | kConsole => str "console"
  | kInput => str "input"
  | kDisplay => str "display"
  | kAudio => str "audio"
  | kClipboard => str "clipboard"
  end.

Definition ChannelFromString (value : bytes) : option Channel :=
  if decide (value = str "control") then Some kControl
  else if decide (value = str "console") then Some kConsole
  else if decide (value = str "input") then Some kInput
  else if decide (value = str "display") then Some kDisplay
  else if decide (value = str "audio") then Some kAudio
  else if decide (value = str "clipboard") then Some kClipboard
  else None.

Definition KindToString (kind : Kind) : bytes :=
  match kind with
  | kRequest => str "request"
  | kResponse => str "response"
  | kEvent => str "event"
  end.

Definition KindFromString (value : bytes) : option Kind :=
  if decide (value = str "request") then Some kRequest
  else if decide (value = str "response") then Some kResponse
  else if decide (value = str "event") then Some kEvent
  else None.

(** [oss << '\t' << key << '=' << value]. *)
Definition field_text (kv : bytes * bytes) : bytes :=
  ch_tab :: Escape (fst kv) ++ [ch_eq] ++ Escape (snd kv).

Definition EncodeHeader (iterate : gmap bytes bytes -> list (bytes * bytes))
    (message : Message) : bytes :=
  str "version=" ++ to_dec (version message)
  ++ [ch_tab] ++ str "channel=" ++ Escape (ChannelToString (channel message))
  ++ [ch_tab] ++ str "kind=" ++ Escape (KindToString (kind message))
  ++ [ch_tab] ++ str "type=" ++ Escape (type message)
  ++ [ch_tab] ++ str "vm_id=" ++ Escape (vm_id message)
  ++ [ch_tab] ++ str "request_id=" ++ to_dec (request_id message)
  ++ flat_map field_text (iterate (fields message))
  ++ match payload message with
     | [] => []
     | _ => [ch_tab] ++ str "payload_size=" ++ to_dec (Z.of_nat (length (payload message)))
     end
  ++ [ch_nl].

Definition Encode (iterate : gmap bytes bytes -> list (bytes * bytes))
    (message : Message) : bytes :=
  let out := EncodeHeader iterate message in
  match payload message with
  | [] => out
  | p => out ++ p
  end.

(** ** Decoding *)

(** [while (back is '\n' or '\r') pop_back()]. *)
Fixpoint pop_eol_rev (rline : bytes) : bytes :=
  match rline with
  | ch :: rline' => if (ch =? ch_nl) || (ch =? ch_cr) then pop_eol_rev rline' else rline
  | [] => []
  end.
Definition pop_eol (line : bytes) : bytes := rev (pop_eol_rev (rev line)).

(** [message.fields.emplace(key, value)]: the first binding of a key stays. *)
Definition emplace (key value : bytes) (fs : gmap bytes bytes) : gmap bytes bytes :=
  match fs !! key with
  | Some _ => fs
  | None => <[key := value]> fs
  end.

Definition Decode_field (message : Message) (key value : bytes) : option Message :=
  if decide (key = str "version") then
    parsed ← ParseU64 value; Some (set_version (u32 parsed) message)
  else if decide (key = str "channel") then
    parsed ← ChannelFromString value; Some (set_channel parsed message)
  else if decide (key = str "kind") then
    parsed ← KindFromString value; Some (set_kind parsed message)
  else if decide (key = str "type") then Some (set_type value message)
  else if decide (key = str "vm_id") then Some (set_vm_id value message)
  else if decide (key = str "request_id") then
    parsed ← ParseU64 value; Some (set_request_id parsed message)
  else Some (set_fields (emplace key value (fields message)) message).

Definition Decode_token (message : Message) (token : bytes) : option Message :=
  match find_byte ch_eq token with
  | None => Some message
  | Some sep =>
      let key := Unescape (take sep token) in
      let value := Unescape (drop (S sep) token) in
      Decode_field message key value
  end.

Fixpoint Decode_loop (message : Message) (tokens : list bytes) : option Message :=
  match tokens with
  | [] => Some message
  | token :: tokens =>
      message ← Decode_token message token;
      Decode_loop message tokens
  end.

Definition Decode (raw : bytes) : option Message :=
  let line := pop_eol raw in
  let tokens := SplitTabs line in
  if (length tokens <? 6)%nat then None
  else
    message ← Decode_loop Message_default tokens;
    if negb (version message =? kProtocolVersion) then None
    else match type message with
         | [] => None
         | _ => Some message
         end.

(** ** Escaping *)

Lemma Unescape_Escape_app value rest :
  Unescape_loop false (Escape value ++ rest) = value ++ Unescape_loop false rest.
Proof.
  induction value as [|ch value IH]; [done|]. cbn [Escape app].
  destruct ((ch =? ch_bs) || (ch =? ch_tab) || (ch =? ch_nl) || (ch =? ch_eq)) eqn:E.
  - cbn [app Unescape_loop]. rewrite Z.eqb_refl. by rewrite IH.
  - bool_hyps. cbn [app Unescape_loop]. rewrite (proj2 (Z.eqb_neq ch ch_bs)) by done.
    by rewrite IH.
Qed.

Lemma Unescape_Escape value : Unescape (Escape value) = value.
Proof.
  unfold Unescape. pose proof (Unescape_Escape_app value []) as H.
  cbn [Unescape_loop] in H. by rewrite !app_nil_r in H.
Qed.

(** Text in which every tab is escaped and no escape is left open. *)
Inductive esc_text : bytes -> Prop :=
  | esc_nil : esc_text []
  | esc_plain c t : c <> ch_bs -> c <> ch_tab -> esc_text t -> esc_text (c :: t)
  | esc_pair c t : esc_text t -> esc_text (ch_bs :: c :: t).
#[local] Hint Constructors esc_text : core.

Lemma Escape_text value : esc_text (Escape value).
Proof.
  induction value as [|ch value IH]; cbn [Escape]; [done|].
  destruct ((ch =? ch_bs) || (ch =? ch_tab) || (ch =? ch_nl) || (ch =? ch_eq)) eqn:E; [auto|].
  bool_hyps. auto.
Qed.

Lemma esc_text_app s t : esc_text s -> esc_text t -> esc_text (s ++ t).
Proof. induction 1; cbn [app]; auto. Qed.

Lemma SplitTabs_text token t rest :
  esc_text t ->
  SplitTabs_loop token false (t ++ ch_tab :: rest) = (token ++ t) :: SplitTabs_loop [] false rest
  /\ SplitTabs_loop token false t = [token ++ t].
Proof.
  intros Ht. revert token. induction Ht as [|c t Hbs Htab Ht IH|c t Ht IH]; intros token.
  - rewrite app_nil_r. done.
  - cbn [app SplitTabs_loop].
    rewrite (proj2 (Z.eqb_neq c ch_bs)), (proj2 (Z.eqb_neq c ch_tab)) by done.
    destruct (IH (token ++ [c])) as [-> ->]. by rewrite <- app_assoc.
  - cbn [app SplitTabs_loop]. rewrite Z.eqb_refl.
    destruct (IH (token ++ [ch_bs; c])) as [-> ->]. by rewrite <- app_assoc.
Qed.

Lemma Escape_not_in c value :
  c <> ch_bs -> c ∉ value -> c ∉ Escape value.
Proof.
  intros Hbs. induction value as [|ch value IH]; cbn [Escape]; [done|].
  rewrite not_elem_of_cons. intros [Hc Hv].
  case_ifs; rewrite ?not_elem_of_cons; auto.
Qed.

Lemma Escape_digits value : Forall (fun c => isdigit c = true) value -> Escape value = value.
Proof.
  induction 1 as [|c value Hc _ IH]; [done|]. cbn [Escape]. rewrite IH.
  unfold isdigit in Hc. unfold ch_bs, ch_tab, ch_nl, ch_eq. bool_hyps.
  rewrite !(proj2 (Z.eqb_neq c _)) by lia. done.
Qed.

Lemma Escape_last value : last (Escape value) = last value.
Proof.
  induction value as [|ch value IH]; [done|]. cbn [Escape].
  assert (Hc : forall (c : Z) s, last (c :: s) = match last s with Some x => Some x | None => Some c end)
    by (intros c [|? ?]; [done|]; rewrite last_cons; done).
  case_ifs; rewrite !Hc, IH; by destruct (last value).
Qed.

(** ** The tokens of a header *)

Definition kv_text (kv : bytes * bytes) : bytes := Escape (fst kv) ++ ch_eq :: Escape (snd kv).

Lemma field_text_kv kv : field_text kv = ch_tab :: kv_text kv.
Proof. done. Qed.

Lemma kv_text_esc kv : esc_text (kv_text kv).
Proof.
  apply esc_text_app; [apply Escape_text|].
  apply esc_plain; [discriminate..|apply Escape_text].
Qed.

Lemma SplitTabs_tokens kv kvs :
  SplitTabs (kv_text kv ++ flat_map field_text kvs) = kv_text kv :: map kv_text kvs.
Proof.
  unfold SplitTabs. revert kv. induction kvs as [|kv' kvs IH]; intros kv; cbn [flat_map map].
  - rewrite app_nil_r. apply (SplitTabs_text [] _ []), kv_text_esc.
  - rewrite field_text_kv. cbn [app].
    rewrite (proj1 (SplitTabs_text [] _ _ (kv_text_esc kv))). by rewrite IH.
Qed.

Lemma Decode_token_kv m k v :
  ch_eq ∉ k -> Decode_token m (kv_text (k, v)) = Decode_field m k v.
Proof.
  intros Hk. unfold Decode_token, kv_text. cbn [fst snd].
  rewrite find_byte_app_l by (apply Escape_not_in; [discriminate|done]).
  rewrite take_app_length, drop_app_ge by lia.
  replace (S (length (Escape k)) - length (Escape k))%nat with 1%nat by lia.
  cbn [drop]. by rewrite drop_0, !Unescape_Escape.
Qed.

(** The token pairs of a message. *)
Definition head_pairs (m : Message) : list (bytes * bytes) :=
  [(str "channel", ChannelToString (channel m));
   (str "kind", KindToString (kind m));
   (str "type", type m);
   (str "vm_id", vm_id m);
   (str "request_id", to_dec (request_id m))].

Definition size_pair (m : Message) : list (bytes * bytes) :=
  match payload m with
  | [] => []
  | _ => [(str "payload_size", to_dec (Z.of_nat (length (payload m))))]
  end.

Lemma field_text_literal k v : Escape k = k -> field_text (k, v) = ch_tab :: k ++ ch_eq :: Escape v.
Proof. intros Hk. unfold field_text. cbn [fst snd]. by rewrite Hk. Qed.

Lemma EncodeHeader_tokens iterate m :
  in_width 64 (version m) -> in_width 64 (request_id m) ->
  in_width 64 (Z.of_nat (length (payload m))) ->
  EncodeHeader iterate m
  = kv_text (str "version", to_dec (version m))
    ++ flat_map field_text (head_pairs m ++ iterate (fields m) ++ size_pair m)
    ++ [ch_nl].
Proof.
  intros Hv Hr Hp. unfold EncodeHeader, head_pairs.
  rewrite !flat_map_app. cbn [flat_map]. rewrite !field_text_literal by reflexivity.
  unfold kv_text. cbn [fst snd].
  rewrite !(Escape_digits (to_dec _)) by (by apply to_dec_all).
  assert (Hsize : flat_map field_text (size_pair m)
    = match payload m with
      | [] => []
      | _ => [ch_tab] ++ str "payload_size=" ++ to_dec (Z.of_nat (length (payload m)))
      end).
  { unfold size_pair. destruct (payload m) eqn:E; [done|]. cbn [flat_map].
    rewrite field_text_literal by reflexivity.
    rewrite Escape_digits by (by apply to_dec_all). by rewrite app_nil_r. }
  rewrite Hsize.
  repeat (rewrite <- ?app_assoc; cbn [app]). reflexivity.
Qed.

(** ** The round trip *)

Lemma ParseU64_to_dec n : in_width 64 n -> ParseU64 (to_dec n) = Some n.
Proof.
  intros Hn. unfold ParseU64. rewrite c_str_to_dec by done.
  pose proof (strtoull_to_dec n [] Hn I) as H. rewrite app_nil_r in H. rewrite H.
  destruct (to_dec n) eqn:E; [|done]. by apply to_dec_not_nil in E.
Qed.

Lemma ChannelFromString_ToString c : ChannelFromString (ChannelToString c) = Some c.
Proof. by destruct c. Qed.
Lemma KindFromString_ToString k : KindFromString (KindToString k) = Some k.
Proof. by destruct k. Qed.

Definition reserved_keys : list bytes :=
  [str "version"; str "channel"; str "kind"; str "type"; str "vm_id"; str "request_id"].

Lemma Decode_field_other m k v :
  k ∉ reserved_keys ->
  Decode_field m k v = Some (set_fields (emplace k v (fields m)) m).
Proof.
  unfold reserved_keys. rewrite !not_elem_of_cons. intros (? & ? & ? & ? & ? & ? & _).
  unfold Decode_field. by rewrite !decide_False by done.
Qed.

Lemma emplace_union k v fs : emplace k v fs = fs ∪ {[k := v]}.
Proof.
  unfold emplace. apply map_eq. intros i. rewrite lookup_union.
  destruct (fs !! k) eqn:E.
  - destruct (decide (i = k)) as [->|].
    + rewrite E, lookup_singleton_eq. done.
    + rewrite lookup_singleton_ne by done. by destruct (fs !! i).
  - destruct (decide (i = k)) as [->|].
    + by rewrite E, lookup_insert_eq, lookup_singleton_eq.
    + rewrite lookup_insert_ne, lookup_singleton_ne by done. by destruct (fs !! i).
Qed.

(** Plain fields are added in order; the first binding of a key stays. *)
Lemma Decode_loop_fields m kvs :
  Forall (fun kv => ch_eq ∉ kv.1 /\ kv.1 ∉ reserved_keys) kvs ->
  Decode_loop m (map kv_text kvs) = Some (set_fields (fields m ∪ list_to_map kvs) m).
Proof.
  intros H. revert m. induction H as [|[k v] kvs [Hk Hr] _ IH]; intros m; cbn [map Decode_loop].
  - cbn. rewrite (right_id_L ∅ (∪)). by destruct m.
  - cbn [fst] in Hk, Hr. rewrite Decode_token_kv, Decode_field_other by done. cbn [mbind option_bind].
    rewrite IH. cbn [fields set_fields]. f_equal. unfold set_fields. cbn. f_equal.
    rewrite emplace_union, <- (assoc_L (∪)). f_equal. symmetry. apply insert_union_singleton_l.
Qed.

(** What survives the wire. *)
Definition ends_ok (value : bytes) : Prop :=
  last value <> Some ch_nl /\ last value <> Some ch_cr.

Definition wire_ok (m : Message) : Prop :=
  version m = kProtocolVersion /\ type m <> [] /\ in_width 64 (request_id m) /\
  in_width 64 (Z.of_nat (length (payload m))) /\
  map_Forall (fun k v => ch_eq ∉ k /\ k ∉ reserved_keys) (fields m) /\
  (payload m <> [] \/ map_Forall (fun k v => ends_ok v) (fields m)).

(** The header's message: no payload, its size a field. *)
Definition decoded (m : Message) : Message :=
  set_payload []
    (set_fields (fields m ∪ list_to_map (size_pair m)) m).

Lemma last_snoc_eol x c : last x = Some c -> c <> ch_nl -> c <> ch_cr -> pop_eol (x ++ [ch_nl]) = x.
Proof.
  intros (l & ->)%last_Some Hn Hr. unfold pop_eol.
  rewrite !rev_app_distr. cbn [rev app pop_eol_rev].
  rewrite Z.eqb_refl. cbn [orb]. rewrite (proj2 (Z.eqb_neq c ch_nl)), (proj2 (Z.eqb_neq c ch_cr)) by done.
  cbn [orb rev]. by rewrite rev_involutive.
Qed.

Lemma kv_text_last kv : ends_ok kv.2 ->
  exists c, last (kv_text kv) = Some c /\ c <> ch_nl /\ c <> ch_cr.
Proof.
  intros [Hn Hr]. unfold kv_text. rewrite last_app.
  destruct (last (Escape (snd kv))) eqn:E.
  - assert (Hl : last (ch_eq :: Escape kv.2) = Some z).
    { destruct (Escape kv.2); [done|]. by rewrite last_cons, E. }
    rewrite Hl. rewrite Escape_last in E. eexists. split; [done|]. split; congruence.
  - destruct (Escape kv.2) as [|z l]; [by exists ch_eq|].
    destruct (proj2 (last_is_Some (z :: l))) as [? Hx]; [done|]. congruence.
Qed.

Lemma to_dec_ends n : in_width 64 n -> ends_ok (to_dec n).
Proof.
  intros Hn. split; intros Hl%last_Some_elem_of;
    by apply to_dec_not_in in Hl.
Qed.

Lemma last_tokens x kvs :
  (exists c, last x = Some c /\ c <> ch_nl /\ c <> ch_cr) ->
  (forall kv, last kvs = Some kv -> ends_ok kv.2) ->
  exists c, last (x ++ flat_map field_text kvs) = Some c /\ c <> ch_nl /\ c <> ch_cr.
Proof.
  intros Hx Hk. destruct (last kvs) as [kv|] eqn:E.
  - destruct (kv_text_last kv (Hk _ eq_refl)) as (c & Hc & Hne).
    apply last_Some in E as (l & ->). exists c. split; [|done].
    rewrite flat_map_app, app_assoc. cbn [flat_map]. rewrite app_nil_r, field_text_kv.
    by rewrite last_app, last_cons, Hc.
  - apply last_None in E as ->. cbn. by rewrite app_nil_r.
Qed.

(** The six fixed tokens of a header set the fixed members. *)
Lemma Decode_head_pairs m rest :
  version m = kProtocolVersion -> in_width 64 (request_id m) ->
  Decode_loop Message_default
    (kv_text (str "version", to_dec (version m)) :: map kv_text (head_pairs m) ++ rest)
  = Decode_loop (set_fields ∅ (set_payload [] m)) rest.
Proof.
  intros Hv Hr. unfold head_pairs. cbn [map app Decode_loop].
  rewrite Hv.
  do 6 (rewrite Decode_token_kv by (by apply find_byte_None); unfold Decode_field at 1;
    repeat ((rewrite decide_False by discriminate) || (rewrite decide_True by done));
    rewrite ?ChannelFromString_ToString, ?KindFromString_ToString;
    rewrite ?ParseU64_to_dec by (done || by vm_compute);
    cbn [mbind option_bind]).
  f_equal. destruct m. cbn in *. by subst.
Qed.

Section iterate.
  (** The order in which the implementation walks the map. *)
  Context (iterate : gmap bytes bytes -> list (bytes * bytes)).
  Hypothesis iterate_perm : forall fs, iterate fs ≡ₚ map_to_list fs.

Lemma iterate_in fs k v : (k, v) ∈ iterate fs <-> fs !! k = Some v.
Proof. rewrite iterate_perm. apply elem_of_map_to_list. Qed.

Lemma list_to_map_iterate fs : list_to_map (iterate fs) = fs.
Proof.
  rewrite <- (list_to_map_to_list fs) at 2. apply list_to_map_proper; [|apply iterate_perm].
  rewrite iterate_perm. apply NoDup_fst_map_to_list.
Qed.

Lemma wire_pairs_keys m :
  wire_ok m ->
  Forall (fun kv => ch_eq ∉ kv.1 /\ kv.1 ∉ reserved_keys) (iterate (fields m) ++ size_pair m).
Proof.
  intros (_ & _ & _ & _ & Hk & _). apply Forall_app. split.
  - apply Forall_forall. intros [k v] Hkv%iterate_in. exact (Hk _ _ Hkv).
  - unfold size_pair. destruct (payload m); [done|]. repeat constructor;
      cbn [fst]; by apply (bool_decide_unpack _).
Qed.

Lemma size_pair_last m kv :
  wire_ok m -> last (head_pairs m ++ iterate (fields m) ++ size_pair m) = Some kv ->
  ends_ok kv.2.
Proof.
  intros (_ & _ & Hr & Hp & _ & Hend). rewrite last_app, last_app.
  unfold size_pair. destruct (payload m) as [|b p].
  - destruct Hend as [Hne|Hend]; [done|]. cbn [last].
    destruct (last (iterate (fields m))) as [[k v]|] eqn:E.
    + intros [= <-]. apply last_Some_elem_of, iterate_in in E. exact (Hend _ _ E).
    + intros [= <-]. by apply to_dec_ends.
  - intros [= <-]. by apply to_dec_ends.
Qed.

(** C26. A message's header, encoded, decodes to the message: every field and
    the request id come back, whatever bytes the type, the identifiers and
    the values hold and in whatever order the fields were written; the
    payload's size is in the field [payload_size]. *)
Theorem Decode_EncodeHeader m :
  wire_ok m -> Decode (EncodeHeader iterate m) = Some (decoded m).
Proof.
  intros Hok. pose proof Hok as (Hv & Ht & Hr & Hp & _).
  rewrite EncodeHeader_tokens by (done || rewrite Hv; by vm_compute).
  unfold Decode. rewrite app_assoc.
  destruct (last_tokens (kv_text (str "version", to_dec (version m)))
              (head_pairs m ++ iterate (fields m) ++ size_pair m)) as (c & Hc & Hn & Hcr).
  { apply kv_text_last, to_dec_ends. rewrite Hv. by vm_compute. }
  { intros kv. by apply size_pair_last. }
  rewrite (last_snoc_eol _ c) by done.
  rewrite SplitTabs_tokens, map_app, Decode_head_pairs by done.
  rewrite Decode_loop_fields by (by apply wire_pairs_keys).
  destruct (Nat.ltb_spec (length (kv_text (str "version", to_dec (version m))
     :: map kv_text (head_pairs m) ++ map kv_text (iterate (fields m) ++ size_pair m))) 6) as [Hl|_].
  { rewrite length_cons, length_app in Hl. cbn [head_pairs map length] in Hl. lia. }
  cbn [mbind option_bind version type set_fields set_payload fields].
  rewrite Hv. cbn [Z.eqb kProtocolVersion negb Pos.eqb].
  destruct (type m) eqn:Et; [done|]. f_equal. unfold decoded, set_payload, set_fields. cbn.
  rewrite Et, Hv. f_equal. rewrite (left_id_L ∅ (∪)), list_to_map_app, list_to_map_iterate. done.
Qed.

End iterate.

(** ** A concrete message, and what the conditions exclude *)

Definition sample : Message :=
  mkMessage 1 kInput kRequest (str "input.key_event") (str "vm=1") 7
    (<[str "key_code" := str "30"]> (<[str "path" := [92; 61; 9; 97]]> ∅)) [].

Lemma Decode_EncodeHeader_witness :
  Decode (EncodeHeader map_to_list sample) = Some (decoded sample).
Proof.
  apply (Decode_EncodeHeader map_to_list); [done|].
  unfold wire_ok. split_and!; [done|discriminate|by vm_compute|by vm_compute| |right];
    apply map_Forall_to_list;
    [apply (bool_decide_unpack _); vm_compute; exact I|].
  unfold ends_ok. apply (bool_decide_unpack _). vm_compute. exact I.
Defined.

(** A [=] in a key cuts the key at its escape: [find('=')] does not skip
    escaped characters, although [Escape] escapes them for it. *)
Example Decode_equals_in_key :
  let m := set_fields {[str "a=b" := str "c"]} sample in
  fields <$> Decode (EncodeHeader map_to_list m) = Some {[str "a" := str "b=c"]}.
Proof. vm_compute. reflexivity. Qed.

(** A value that ends in a carriage return, written last, loses it. *)
Example Decode_trailing_cr :
  let m := set_fields {[str "note" := str "done" ++ [ch_cr]]} sample in
  fields <$> Decode (EncodeHeader map_to_list m) = Some {[str "note" := str "done"]}.
Proof. vm_compute. reflexivity. Qed.

(** Versions are compared after truncation to 32 bits. *)
Example Decode_version_truncated :
  version <$> Decode (EncodeHeader map_to_list (set_version (2 ^ 32 + 1) sample)) = Some 1.
Proof. vm_compute. reflexivity. Qed.
