(* ===== verification/IpcStream.v ===== *)
(** * Reading protocol messages off a byte stream

    Three receivers read the protocol of [ProtocolV1]: the runtime's libuv
    callback [OnPipeRead] (runtime/runtime_service.cpp), the manager's
    [DispatchPipeData] (manager/manager_service.cpp), and the daemon's
    blocking loop [ReadRuntime] (daemon/runtime_manager.cpp) over
    [UnixSocketConnection::ReadLine] and [ReadExact] (ipc/unix_socket.cpp).
    A receiver's handler is traced: each function returns the messages it
    hands over, in order.

    [OnPipeRead_segmentation]: how the kernel cuts the stream into reads is
    irrelevant.  [OnPipeRead_delivers]: the receiver hands over exactly the
    messages sent.  [ReadRuntime_delivers] is the same for the daemon. *)

From S2P Require Import Prelude.
From S2P Require Import StdString.
From S2P Require Import Stream.
From S2P Require Import ProtocolV1.

(** ** The buffered receivers *)

Record Recv := mkRecv {
  recv_pending : bytes;
  recv_payload_needed : Z;
  recv_pending_msg : Message }.

Definition Recv_init : Recv := mkRecv [] 0 Message_default.

Definition payload_size_key : bytes := str "payload_size".

(** One iteration of the [while (!recv_pending_.empty())] loop: [None] is
    the loop's exit, otherwise the new state and the message handled. *)
Definition recv_step (self : Recv) : option (Recv * list Message) :=
  match recv_pending self with
  | [] => None
  | pending =>
      if 0 <? recv_payload_needed self then
        if Z.of_nat (length pending) <? recv_payload_needed self then None
        else
          let n := Z.to_nat (recv_payload_needed self) in
          let msg := set_payload (take n pending) (recv_pending_msg self) in
          Some (mkRecv (drop n pending) 0 msg, [msg])
      else
        nl ← find_byte ch_nl pending;
        let line := take (nl + 1) pending in
        let pending := drop (nl + 1) pending in
        match Decode line with
        | None => Some (mkRecv pending (recv_payload_needed self) (recv_pending_msg self), [])
        | Some decoded =>
            match fields decoded !! payload_size_key with
            | Some size =>
                let needed := fst (strtoull (c_str size)) in
                let decoded := set_fields (delete payload_size_key (fields decoded)) decoded in
                if 0 <? needed then Some (mkRecv pending needed decoded, [])
                else Some (mkRecv pending needed (recv_pending_msg self), [decoded])
            | None =>
                Some (mkRecv pending (recv_payload_needed self) (recv_pending_msg self), [decoded])
            end
        end
  end.

Fixpoint recv_loop (fuel : nat) (self : Recv) : Recv * list Message :=
  match fuel with
  | O => (self, [])
  | S fuel =>
      match recv_step self with
      | None => (self, [])
      | Some (self, out) => let '(self, rest) := recv_loop fuel self in (self, out ++ rest)
      end
  end.

(** Every iteration consumes a byte of the buffer ([recv_step_shrinks]), so
    its length bounds the iterations. *)
Definition recv_run (self : Recv) : Recv * list Message :=
  recv_loop (length (recv_pending self)) self.

Definition recv_append (self : Recv) (data : bytes) : Recv :=
  mkRecv (recv_pending self ++ data) (recv_payload_needed self) (recv_pending_msg self).

(** [OnPipeRead] for a read of [nread >= 0] bytes. *)
Definition OnPipeRead (self : Recv) (data : bytes) : Recv * list Message :=
  match data with
  | [] => (self, [])
  | _ => recv_run (recv_append self data)
  end.

(** The callback for a sequence of reads. *)
Fixpoint OnPipeReads (self : Recv) (reads : list bytes) : Recv * list Message :=
  match reads with
  | [] => (self, [])
  | data :: reads =>
      let '(self, out) := OnPipeRead self data in
      let '(self, rest) := OnPipeReads self reads in
      (self, out ++ rest)
  end.

(** ** Each iteration consumes input, whatever follows it *)

Lemma recv_step_shrinks self self' out :
  recv_step self = Some (self', out) ->
  (length (recv_pending self') < length (recv_pending self))%nat.
Proof.
  unfold recv_step. destruct (recv_pending self) as [|c p] eqn:Ep; [done|].
  destruct (Z.ltb_spec 0 (recv_payload_needed self)) as [Hn|Hn].
  - case_ifs; [done|]. bool_hyps. intros [= <- <-]. cbn [recv_pending].
    rewrite length_drop. cbn [length] in *. lia.
  - destruct (find_byte ch_nl (c :: p)) as [nl|] eqn:En; [|done]. cbn [mbind option_bind].
    assert (Hl : (length (drop (nl + 1) (c :: p)) < length (c :: p))%nat)
      by (rewrite length_drop; cbn [length]; lia).
    repeat case_match; intros [= <- <-]; exact Hl.
Qed.

Lemma recv_step_append self self' out data :
  recv_step self = Some (self', out) ->
  recv_step (recv_append self data) = Some (recv_append self' data, out).
Proof.
  unfold recv_step, recv_append. cbn [recv_pending recv_payload_needed recv_pending_msg].
  destruct (recv_pending self) as [|c p] eqn:Ep; [done|]. cbn [app].
  change (c :: p ++ data) with ((c :: p) ++ data).
  destruct (Z.ltb_spec 0 (recv_payload_needed self)) as [Hn|Hn].
  - rewrite length_app.
    destruct (Z.ltb_spec (Z.of_nat (length (c :: p))) (recv_payload_needed self)); [done|].
    destruct (Z.ltb_spec (Z.of_nat (length (c :: p) + length data)) (recv_payload_needed self)); [lia|].
    intros [= <- <-]. cbn [recv_pending recv_payload_needed recv_pending_msg].
    rewrite take_app_le, drop_app_le by lia. done.
  - destruct (find_byte ch_nl (c :: p)) as [nl|] eqn:En; [|done].
    rewrite (find_byte_app_Some _ _ data _ En). cbn [mbind option_bind].
    apply find_byte_Some in En as (_ & _ & Hlt).
    rewrite take_app_le, drop_app_le by lia.
    repeat case_match; intros [= <- <-]; done.
Qed.

Lemma recv_laws : stream_laws recv_step recv_pending recv_append.
Proof.
  split; [exact recv_step_shrinks|exact recv_step_append| |].
  - intros []. unfold recv_append. cbn. by rewrite app_nil_r.
  - intros []. unfold recv_append. cbn. intros. by rewrite app_assoc.
Qed.

(** The loop is that of [Stream]. *)
Lemma recv_run_stream self : recv_run self = stream_run recv_step recv_pending self.
Proof. reflexivity. Qed.

(** The loop's unfolding, without fuel. *)
Lemma recv_run_unfold self :
  recv_run self =
  match recv_step self with
  | None => (self, [])
  | Some (self', out) => let '(self'', rest) := recv_run self' in (self'', out ++ rest)
  end.
Proof. exact (stream_run_unfold _ _ _ recv_laws self). Qed.

(** Bytes that come later do not change what is handled before them. *)
Lemma recv_run_append self data :
  recv_run (recv_append self data)
  = let '(self1, out) := recv_run self in
    let '(self2, rest) := recv_run (recv_append self1 data) in
    (self2, out ++ rest).
Proof. exact (stream_run_append _ _ _ recv_laws self data). Qed.

Lemma recv_run_quiescent self self' out : recv_run self = (self', out) -> recv_step self' = None.
Proof. exact (stream_run_quiescent _ _ _ recv_laws self self' out). Qed.

Lemma OnPipeRead_run self data :
  recv_step self = None -> OnPipeRead self data = recv_run (recv_append self data).
Proof.
  intros Hq. destruct data; [|done]. rewrite (append_nil _ _ _ recv_laws), recv_run_unfold, Hq. done.
Qed.

Lemma OnPipeReads_run self reads :
  recv_step self = None ->
  OnPipeReads self reads = recv_run (recv_append self (concat reads)).
Proof.
  revert self. induction reads as [|data reads IH]; intros self Hq; cbn [OnPipeReads concat].
  - by rewrite (append_nil _ _ _ recv_laws), recv_run_unfold, Hq.
  - rewrite OnPipeRead_run by done. rewrite (append_app _ _ _ recv_laws), (recv_run_append (recv_append self data)).
    destruct (recv_run (recv_append self data)) as [self1 out1] eqn:Er.
    by rewrite (IH self1) by (by eapply recv_run_quiescent).
Qed.

(** The segmentation of the stream does not matter: reads with the same
    bytes hand over the same messages and leave the same state, whether
    the bytes are well formed or not. *)
Theorem OnPipeRead_segmentation reads reads' :
  concat reads = concat reads' ->
  OnPipeReads Recv_init reads = OnPipeReads Recv_init reads'.
Proof. intros Heq. by rewrite !OnPipeReads_run, Heq. Qed.

Lemma OnPipeRead_segmentation_witness :
  let whole := EncodeHeader map_to_list sample in
  OnPipeReads Recv_init (map (fun b => [b]) whole) = OnPipeReads Recv_init [whole].
Proof. apply OnPipeRead_segmentation. vm_compute. reflexivity. Defined.

(** ** What was sent is what is handled *)

(** Messages that travel in a stream: no newline but the header's own, and
    the size field is the sender's. *)
Definition stream_ok (m : Message) : Prop :=
  wire_ok m /\ ch_nl ∉ type m /\ ch_nl ∉ vm_id m /\
  map_Forall (fun k v => ch_nl ∉ k /\ ch_nl ∉ v) (fields m) /\
  fields m !! payload_size_key = None.

Section stream.
  Context (iterate : gmap bytes bytes -> list (bytes * bytes)).
  Hypothesis iterate_perm : forall fs, iterate fs ≡ₚ map_to_list fs.

Lemma kv_text_no_nl kv : ch_nl ∉ kv.1 -> ch_nl ∉ kv.2 -> ch_nl ∉ kv_text kv.
Proof.
  intros Hk Hv. unfold kv_text. rewrite not_elem_of_app, not_elem_of_cons.
  split_and!; [|discriminate|]; by apply Escape_not_in.
Qed.

Lemma flat_map_no_nl kvs :
  Forall (fun kv => ch_nl ∉ kv.1 /\ ch_nl ∉ kv.2) kvs -> ch_nl ∉ flat_map field_text kvs.
Proof.
  induction 1 as [|kv kvs [Hk Hv] _ IH]; cbn [flat_map]; [apply not_elem_of_nil|].
  rewrite field_text_kv, not_elem_of_app, not_elem_of_cons.
  split_and!; [discriminate|by apply kv_text_no_nl|done].
Qed.

(** The header is one line. *)
Lemma EncodeHeader_line m :
  stream_ok m -> exists text, EncodeHeader iterate m = text ++ [ch_nl] /\ ch_nl ∉ text.
Proof.
  intros ((Hv & _ & Hr & Hp & _) & Ht & Hvm & Hf & _).
  rewrite EncodeHeader_tokens by (done || rewrite Hv; by vm_compute).
  rewrite app_assoc. eexists. split; [done|].
  assert (Hdec : forall n, in_width 64 n -> ch_nl ∉ to_dec n)
    by (intros; by apply to_dec_not_in).
  rewrite not_elem_of_app. split.
  - apply kv_text_no_nl; cbn [fst snd]; [by apply find_byte_None|].
    apply Hdec. rewrite Hv. by vm_compute.
  - apply flat_map_no_nl. unfold head_pairs. rewrite !Forall_app. split; [|split].
    + repeat constructor; cbn [fst snd]; try (by apply find_byte_None); auto.
      * destruct (channel m); by apply find_byte_None.
      * destruct (kind m); by apply find_byte_None.
    + apply Forall_forall. intros [k v] Hkv%(iterate_in _ iterate_perm). exact (Hf _ _ Hkv).
    + unfold size_pair. destruct (payload m); repeat constructor; cbn [fst snd];
        [by apply find_byte_None|auto].
Qed.

Lemma size_field m : in_width 64 (Z.of_nat (length (payload m))) ->
  fst (strtoull (c_str (to_dec (Z.of_nat (length (payload m)))))) = Z.of_nat (length (payload m)).
Proof.
  intros Hp. rewrite c_str_to_dec by done.
  pose proof (strtoull_to_dec _ [] Hp I) as Hn. rewrite app_nil_r in Hn. by rewrite Hn.
Qed.

(** The receiver takes one message off the front of the buffer. *)
Lemma recv_run_message m rest msg :
  stream_ok m ->
  exists msg',
    recv_run (mkRecv (Encode iterate m ++ rest) 0 msg)
    = let '(self, out) := recv_run (mkRecv rest 0 msg') in (self, m :: out).
Proof.
  intros Hok. pose proof Hok as (Hw & _ & _ & _ & Hps).
  destruct (EncodeHeader_line m Hok) as (text & Hline & Hnl).
  pose proof (Decode_EncodeHeader iterate iterate_perm m Hw) as Hdec.
  pose proof Hw as (_ & _ & _ & Hp & _).
  assert (Hhead : forall tail, recv_step (mkRecv (EncodeHeader iterate m ++ tail) 0 msg)
    = match payload m with
      | [] => Some (mkRecv tail 0 msg, [m])
      | p => Some (mkRecv tail (Z.of_nat (length p)) (set_payload [] m), [])
      end).
  { intros tail. unfold recv_step. cbn [recv_pending recv_payload_needed recv_pending_msg].
    rewrite Hline, <- app_assoc. cbn [app].
    destruct (text ++ ch_nl :: tail) as [|c p] eqn:Et; [by destruct text|]. rewrite <- Et. clear c p Et.
    cbn [Z.ltb Z.compare]. rewrite find_byte_app_l by done. cbn [mbind option_bind].
    replace (text ++ ch_nl :: tail) with ((text ++ [ch_nl]) ++ tail) by (by rewrite <- app_assoc).
    replace (length text + 1)%nat with (length (text ++ [ch_nl])) by (by rewrite length_app).
    rewrite take_app_length, drop_app_length, <- Hline, Hdec.
    unfold decoded, size_pair, payload_size_key in *.
    destruct (payload m) as [|b p] eqn:Epay; cbn [fields set_payload set_fields].
    - rewrite list_to_map_nil, (right_id_L ∅ (∪)), Hps. destruct m. cbn in *. by subst.
    - rewrite list_to_map_cons, list_to_map_nil, lookup_union_r, lookup_insert_eq by done.
      rewrite <- Epay, size_field by (by rewrite Epay). rewrite Epay.
      rewrite (proj2 (Z.ltb_lt 0 _)) by (cbn [length]; lia). do 3 f_equal.
      rewrite delete_union, delete_insert_eq, delete_empty, (right_id_L ∅ (∪)).
      rewrite delete_id by done. by destruct m. }
  unfold Encode. destruct (payload m) as [|b p] eqn:Epay.
  - exists msg. rewrite recv_run_unfold, Hhead. done.
  - rewrite <- app_assoc. exists m. rewrite recv_run_unfold, Hhead, recv_run_unfold.
    unfold recv_step at 1. cbn [recv_pending recv_payload_needed recv_pending_msg app].
    rewrite (proj2 (Z.ltb_lt 0 _)) by (cbn [length]; lia).
    change (b :: p ++ rest) with ((b :: p) ++ rest).
    rewrite (proj2 (Z.ltb_ge _ _)) by (rewrite length_app; lia).
    rewrite Nat2Z.id, take_app_length, drop_app_length, <- Epay.
    replace (set_payload (payload m) (set_payload [] m)) with m by (by destruct m).
    by destruct (recv_run (mkRecv rest 0 m)).
Qed.

Lemma recv_run_messages ms msg :
  Forall stream_ok ms ->
  exists msg', recv_run (mkRecv (concat (map (Encode iterate) ms)) 0 msg) = (mkRecv [] 0 msg', ms).
Proof.
  intros H. revert msg. induction H as [|m ms Hm _ IH]; intros msg; cbn [map concat].
  - by exists msg.
  - destruct (recv_run_message m (concat (map (Encode iterate) ms)) msg Hm) as (msg1 & ->).
    destruct (IH msg1) as (msg2 & ->). by exists msg2.
Qed.

(** C21. The receiver hands over exactly the messages sent, in order, payloads
    included, however the stream is cut into reads, and ends with an empty
    buffer, as long as the messages are ones the text format can carry: of
    the protocol's version, with a type, 64-bit id and size, no newline in
    type, VM id, keys and values, no [=] in a key, no key of the protocol's
    own, and, where there is no payload, no value that ends in a carriage
    return ([stream_ok]). *)
Theorem OnPipeRead_delivers ms reads :
  Forall stream_ok ms ->
  concat reads = concat (map (Encode iterate) ms) ->
  exists msg', OnPipeReads Recv_init reads = (mkRecv [] 0 msg', ms).
Proof.
  intros Hms Hr. rewrite OnPipeReads_run, Hr by done. by apply recv_run_messages.
Qed.

End stream.

(** A second sample: a payload with newlines in it. *)
Definition sample_payload : Message :=
  mkMessage 1 kClipboard kEvent (str "clipboard.data") (str "vm-1") 8
    {[str "data_type" := str "1"]} [10; 10; 0; 255].

(** Decides the conditions on a concrete message. *)
Ltac map_forall_dec :=
  apply map_Forall_to_list; unfold ends_ok; apply (bool_decide_unpack _); vm_compute; exact I.
Ltac stream_dec :=
  unfold stream_ok, wire_ok; split_and!;
  first [ reflexivity | discriminate | by apply find_byte_None | map_forall_dec
        | left; discriminate | right; map_forall_dec | by vm_compute ].

Lemma sample_stream_ok : Forall stream_ok [sample; sample_payload].
Proof. constructor; [stream_dec|]. constructor; [stream_dec|]. constructor. Qed.

Lemma OnPipeRead_delivers_witness :
  let wire := concat (map (Encode map_to_list) [sample; sample_payload]) in
  exists msg', OnPipeReads Recv_init (map (fun b => [b]) wire)
  = (mkRecv [] 0 msg', [sample; sample_payload]).
Proof.
  apply (OnPipeRead_delivers map_to_list); [done|exact sample_stream_ok|].
  vm_compute. reflexivity.
Defined.

(** A newline inside a value is escaped with a backslash but still written
    as a newline: the receiver cuts the line there and truncates the value. *)
Example newline_in_value_lost :
  let m := set_fields {[str "error" := str "a" ++ [ch_nl] ++ str "b"]} sample in
  snd (OnPipeReads Recv_init [Encode map_to_list m]) = [set_fields {[str "error" := str "a"]} sample].
Proof. vm_compute. reflexivity. Qed.

(** In an early token it loses the whole message. *)
Example newline_in_type_lost :
  let m := set_type (str "a" ++ [ch_nl] ++ str "b") sample in
  snd (OnPipeReads Recv_init [Encode map_to_list m]) = [].
Proof. vm_compute. reflexivity. Qed.

(** ** The manager's receiver

    [DispatchPipeData] keeps the same state in the VM's runtime handle; it
    is called after each read, and stops at a [return] where [OnPipeRead]
    breaks out of its loop. *)

Definition DispatchPipeData_step (rt : Recv) : option (Recv * list Message) :=
  match recv_pending rt with
  | [] => None
  | pending =>
      if 0 <? recv_payload_needed rt then
        if Z.of_nat (length pending) <? recv_payload_needed rt then None
        else
          let n := Z.to_nat (recv_payload_needed rt) in
          let msg := set_payload (take n pending) (recv_pending_msg rt) in
          Some (mkRecv (drop n pending) 0 msg, [msg])
      else
        match find_byte ch_nl pending with
        | None => None
        | Some nl =>
            let line := take (nl + 1) pending in
            let rt := mkRecv (drop (nl + 1) pending) (recv_payload_needed rt) (recv_pending_msg rt) in
            match Decode line with
            | None => Some (rt, [])
            | Some decoded =>
                match fields decoded !! payload_size_key with
                | None => Some (rt, [decoded])
                | Some size =>
                    let needed := fst (strtoull (c_str size)) in
                    let decoded := set_fields (delete payload_size_key (fields decoded)) decoded in
                    let rt := mkRecv (recv_pending rt) needed (recv_pending_msg rt) in
                    if 0 <? needed then Some (mkRecv (recv_pending rt) needed decoded, [])
                    else Some (rt, [decoded])
                end
            end
        end
  end.

Fixpoint DispatchPipeData_loop (fuel : nat) (rt : Recv) : Recv * list Message :=
  match fuel with
  | O => (rt, [])
  | S fuel =>
      match DispatchPipeData_step rt with
      | None => (rt, [])
      | Some (rt, out) => let '(rt, rest) := DispatchPipeData_loop fuel rt in (rt, out ++ rest)
      end
  end.

Definition DispatchPipeData (rt : Recv) : Recv * list Message :=
  DispatchPipeData_loop (length (recv_pending rt)) rt.

(** Both ends of the pipe read the protocol alike. *)
Lemma DispatchPipeData_run rt : DispatchPipeData rt = recv_run rt.
Proof.
  unfold DispatchPipeData, recv_run. generalize (length (recv_pending rt)). intros f.
  revert rt. induction f as [|f IH]; intros rt; cbn [DispatchPipeData_loop recv_loop]; [done|].
  assert (Hs : DispatchPipeData_step rt = recv_step rt).
  { unfold DispatchPipeData_step, recv_step. destruct (recv_pending rt); [done|].
    case_match; [done|]. destruct (find_byte _ _); [|done]. cbn [mbind option_bind].
    destruct (Decode _) as [d|]; [|done]. by destruct (fields d !! _). }
  rewrite Hs. destruct (recv_step rt) as [[rt' out]|]; [|done]. by rewrite IH.
Qed.

(** ** The daemon's blocking receiver

    A connection is its line buffer and what the socket will still give:
    the chunks the kernel has, in order, each non-empty; after them a read
    returns 0 (the peer closed).  Interrupted reads are retried by the
    sources and do not appear. *)

Record Connection := mkConnection { line_buffer : bytes; incoming : list bytes }.

(** [::read(fd, buf, max)]; no bytes is end of file. *)
Definition sys_read (max : nat) (incoming : list bytes) : bytes * list bytes :=
  match incoming with
  | [] => ([], [])
  | c :: cs => if (length c <=? max)%nat then (c, cs) else (take max c, drop max c :: cs)
  end.

(** [sizeof(buf)] in [ReadLine]. *)
Definition read_max : nat := Z.to_nat 65536.

(** Bytes still to come bound the reads. *)
Definition to_come (c : Connection) : nat := length (line_buffer c) + length (concat (incoming c)).

Fixpoint ReadLine_loop (fuel : nat) (self : Connection) : bytes * Connection :=
  match find_byte ch_nl (line_buffer self) with
  | Some pos =>
      (take pos (line_buffer self), mkConnection (drop (pos + 1) (line_buffer self)) (incoming self))
  | None =>
      match fuel with
      | O => ([], self)
      | S fuel =>
          match sys_read read_max (incoming self) with
          | ([], rest) => (line_buffer self, mkConnection [] rest)
          | (buf, rest) => ReadLine_loop fuel (mkConnection (line_buffer self ++ buf) rest)
          end
      end
  end.

Definition ReadLine (self : Connection) : bytes * Connection :=
  ReadLine_loop (S (length (concat (incoming self)))) self.

(** [ReadExact]: the bytes, or [None] when the peer closes first. *)
Fixpoint ReadExact_loop (fuel : nat) (p : bytes) (remaining : nat) (incoming : list bytes)
    : option bytes * list bytes :=
  match remaining, fuel with
  | O, _ => (Some p, incoming)
  | S _, O => (None, incoming)
  | S _, S fuel =>
      match sys_read remaining incoming with
      | ([], rest) => (None, rest)
      | (buf, rest) => ReadExact_loop fuel (p ++ buf) (remaining - length buf) rest
      end
  end.

Definition ReadExact (len : nat) (self : Connection) : option bytes * Connection :=
  let avail := Nat.min len (length (line_buffer self)) in
  let '(r, rest) := ReadExact_loop len (take avail (line_buffer self)) (len - avail) (incoming self) in
  (r, mkConnection (drop avail (line_buffer self)) rest).

(** [std::stoull]: [None] is the exception it throws when there is no
    number, or one too large. *)
Definition stoull (s : bytes) : option Z :=
  let '(neg, s1) := read_sign (skip_space (c_str s)) in
  let '(n, any, _) := read_digits 0 false s1 in
  if any && (n <=? 2 ^ 64 - 1) then Some (if neg : bool then u64 (- n) else n) else None.

Inductive reader_end :=
  | reader_closed      (* the loop ended: the peer closed, or an empty line *)
  | reader_terminated. (* an exception left the thread: the process ends *)

(** [ReadRuntime], with the session running throughout: the messages given
    to [HandleRuntimeMessage], and how the thread ended.  [resize] throws
    beyond the largest vector. *)
Fixpoint ReadRuntime_loop (fuel : nat) (conn : Connection) : list Message * reader_end :=
  match fuel with
  | O => ([], reader_closed)
  | S fuel =>
      let '(header, conn) := ReadLine conn in
      match header with
      | [] => ([], reader_closed)
      | _ =>
          match Decode header with
          | None => ReadRuntime_loop fuel conn
          | Some message =>
              match fields message !! payload_size_key with
              | None =>
                  let '(out, e) := ReadRuntime_loop fuel conn in (message :: out, e)
              | Some value =>
                  match stoull value with
                  | None => ([], reader_terminated)
                  | Some size =>
                      if 2 ^ 63 - 1 <? size then ([], reader_terminated)
                      else
                        match ReadExact (Z.to_nat size) conn with
                        | (None, _) => ([], reader_closed)
                        | (Some data, conn) =>
                            let '(out, e) := ReadRuntime_loop fuel conn in
                            (set_payload data message :: out, e)
                        end
                  end
              end
          end
      end
  end.

(** Each iteration consumes a byte or ends the loop. *)
Definition ReadRuntime (conn : Connection) : list Message * reader_end :=
  ReadRuntime_loop (S (to_come conn)) conn.

(** *** The connection as a byte stream *)

Definition flat (c : Connection) : bytes := line_buffer c ++ concat (incoming c).
Definition conn_ok (c : Connection) : Prop := Forall (fun b => b <> []) (incoming c).

Lemma sys_read_spec max cs :
  (0 < max)%nat -> Forall (fun b => b <> []) cs ->
  let '(buf, rest) := sys_read max cs in
  concat cs = buf ++ concat rest /\ Forall (fun b => b <> []) rest /\
  (length buf <= max)%nat /\ (buf = [] -> concat cs = [] /\ rest = []).
Proof.
  intros Hm Hne. destruct Hne as [|c cs Hc Hcs]; cbn [sys_read concat].
  - split_and!; [done|done|cbn; lia|done].
  - destruct (Nat.leb_spec (length c) max).
    + split_and!; [done|done|done|]. intros ->. by destruct Hc.
    + cbn [concat]. rewrite app_assoc, take_drop. split_and!; [done| |rewrite length_take; lia|].
      * constructor; [|done]. intros Hd%(f_equal length). rewrite length_drop in Hd. cbn in Hd. lia.
      * intros Ht%(f_equal length). rewrite length_take in Ht. cbn in Ht. lia.
Qed.

Lemma ReadLine_loop_spec f c :
  conn_ok c -> (length (concat (incoming c)) < f)%nat ->
  match find_byte ch_nl (flat c) with
  | Some pos => exists c', ReadLine_loop f c = (take pos (flat c), c') /\
      conn_ok c' /\ flat c' = drop (pos + 1) (flat c)
  | None => ReadLine_loop f c = (flat c, mkConnection [] [])
  end.
Proof.
  revert c. induction f as [|f IH]; intros c Hok Hf; [lia|]. unfold flat. cbn [ReadLine_loop].
  destruct (find_byte ch_nl (line_buffer c)) as [pos|] eqn:En.
  - rewrite (find_byte_app_Some _ _ _ _ En). apply find_byte_Some in En as (_ & _ & Hlt).
    rewrite take_app_le, drop_app_le by lia. eexists. done.
  - pose proof (sys_read_spec read_max (incoming c) ltac:(unfold read_max; lia) Hok) as Hs.
    destruct (sys_read read_max (incoming c)) as [buf rest]. destruct Hs as (Hcat & Hne & _ & Hend).
    destruct buf as [|b buf].
    + destruct (Hend eq_refl) as [-> ->]. by rewrite app_nil_r, En.
    + specialize (IH (mkConnection (line_buffer c ++ b :: buf) rest) Hne).
      unfold flat in IH. cbn [line_buffer incoming] in IH. rewrite <- app_assoc, <- Hcat in IH.
      apply IH. rewrite Hcat, length_app in Hf. cbn [length] in Hf. lia.
Qed.

Lemma ReadExact_loop_spec f p remaining cs :
  Forall (fun b => b <> []) cs -> (remaining <= f)%nat -> (remaining <= length (concat cs))%nat ->
  exists rest, ReadExact_loop f p remaining cs = (Some (p ++ take remaining (concat cs)), rest) /\
    Forall (fun b => b <> []) rest /\ concat rest = drop remaining (concat cs).
Proof.
  revert p remaining cs. induction f as [|f IH]; intros p [|r] cs Hne Hf Hlen; cbn [ReadExact_loop]; try lia.
  - exists cs. by rewrite take_0, app_nil_r, drop_0.
  - exists cs. by rewrite take_0, app_nil_r, drop_0.
  - pose proof (sys_read_spec (S r) cs ltac:(lia) Hne) as Hs.
    destruct (sys_read (S r) cs) as [buf rest]. destruct Hs as (Hcat & Hne' & Hmax & Hend).
    rewrite Hcat in *. destruct buf as [|b buf].
    + destruct (Hend eq_refl) as [He _]. cbn [app] in He, Hlen. rewrite He in Hlen. cbn in Hlen. lia.
    + rewrite length_app in Hlen. cbn [length] in Hlen, Hmax.
      destruct (IH (p ++ b :: buf) (S r - length (b :: buf))%nat rest Hne') as (rest' & -> & Hok & Hd);
        [cbn [length]; lia..|].
      exists rest'. rewrite take_app, drop_app, (firstn_all2 (b :: buf)) by (cbn [length]; lia).
      rewrite (skipn_all2 (b :: buf)) by (cbn [length]; lia). by rewrite <- app_assoc.
Qed.

Lemma ReadExact_spec n c :
  conn_ok c -> (n <= length (flat c))%nat ->
  exists c', ReadExact n c = (Some (take n (flat c)), c') /\ conn_ok c' /\ flat c' = drop n (flat c).
Proof.
  intros Hok Hn. unfold flat in *. rewrite length_app in Hn. unfold ReadExact.
  destruct (ReadExact_loop_spec n (take (Nat.min n (length (line_buffer c))) (line_buffer c))
              (n - Nat.min n (length (line_buffer c))) (incoming c) Hok) as (rest & -> & Hr & Hd);
    [lia..|].
  exists (mkConnection (drop (Nat.min n (length (line_buffer c))) (line_buffer c)) rest).
  split; [|split; [exact Hr|]]; cbn [line_buffer incoming].
  - rewrite take_app. do 3 f_equal; [|f_equal; lia].
    destruct (Nat.le_ge_cases n (length (line_buffer c))); [by rewrite Nat.min_l|].
    rewrite Nat.min_r, !firstn_all2 by lia. done.
  - rewrite drop_app, Hd. f_equal; [|f_equal; lia].
    destruct (Nat.le_ge_cases n (length (line_buffer c))); [by rewrite Nat.min_l|].
    rewrite Nat.min_r, !skipn_all2 by lia. done.
Qed.

(** *** The daemon handles what was sent *)

Lemma Decode_snoc_nl line : Decode (line ++ [ch_nl]) = Decode line.
Proof. unfold Decode, pop_eol. rewrite rev_app_distr. reflexivity. Qed.

Lemma stoull_to_dec n : in_width 64 n -> stoull (to_dec n) = Some n.
Proof.
  intros Hn. unfold stoull. rewrite c_str_to_dec by done.
  destruct (read_to_dec n [] Hn I) as [H1 H2]. rewrite app_nil_r in H1, H2. rewrite H1, H2.
  destruct Hn. by rewrite (proj2 (Z.leb_le n (2 ^ 64 - 1))) by lia.
Qed.

(** The daemon leaves the size among the fields. *)
Definition received (m : Message) : Message := set_payload (payload m) (decoded m).

Lemma decoded_size m : stream_ok m ->
  fields (decoded m) !! payload_size_key
  = match payload m with [] => None | p => Some (to_dec (Z.of_nat (length p))) end.
Proof.
  intros (_ & _ & _ & _ & Hps). unfold decoded, size_pair. cbn [fields set_payload set_fields].
  destruct (payload m).
  - by rewrite list_to_map_nil, lookup_union_r, lookup_empty.
  - rewrite list_to_map_cons, list_to_map_nil, lookup_union_r by done. apply lookup_insert_eq.
Qed.

Section daemon.
  Context (iterate : gmap bytes bytes -> list (bytes * bytes)).
  Hypothesis iterate_perm : forall fs, iterate fs ≡ₚ map_to_list fs.

Lemma ReadLine_message m rest c :
  stream_ok m -> conn_ok c -> flat c = Encode iterate m ++ rest ->
  exists header c', ReadLine c = (header, c') /\ header <> [] /\ Decode header = Some (decoded m) /\
    conn_ok c' /\ flat c' = payload m ++ rest.
Proof.
  intros Hok Hc Hflat. pose proof Hok as (Hw & _).
  destruct (EncodeHeader_line iterate iterate_perm m Hok) as (text & Hline & Hnl).
  pose proof (Decode_EncodeHeader iterate iterate_perm m Hw) as Hdec.
  rewrite Hline, Decode_snoc_nl in Hdec.
  assert (Hf : flat c = text ++ ch_nl :: payload m ++ rest).
  { rewrite Hflat. unfold Encode. rewrite Hline.
    destruct (payload m); rewrite <- ?app_assoc; done. }
  pose proof (ReadLine_loop_spec (S (length (concat (incoming c)))) c Hc ltac:(lia)) as Hrl.
  rewrite Hf, find_byte_app_l in Hrl by done. destruct Hrl as (c' & Hrl & Hc' & Hfl').
  exists text, c'. rewrite take_app_length in Hrl. split_and!; [exact Hrl| |exact Hdec|exact Hc'|].
  - intros ->. done.
  - rewrite Hfl', drop_app_ge by lia.
    by replace (length text + 1 - length text)%nat with 1%nat by lia.
Qed.

Lemma ReadRuntime_loop_delivers ms f c :
  Forall (fun m => stream_ok m /\ Z.of_nat (length (payload m)) < 2 ^ 63) ms ->
  conn_ok c -> flat c = concat (map (Encode iterate) ms) -> (length ms < f)%nat ->
  ReadRuntime_loop f c = (map received ms, reader_closed).
Proof.
  intros H. revert f c. induction H as [|m ms [Hm Hlen] _ IH]; intros [|f] c Hc Hflat Hf;
    try (cbn in Hf; lia); cbn [map concat] in *; cbn [ReadRuntime_loop].
  - pose proof (ReadLine_loop_spec (S (length (concat (incoming c)))) c Hc ltac:(lia)) as Hrl.
    rewrite Hflat in Hrl. cbn [find_byte] in Hrl. unfold ReadLine. by rewrite Hrl.
  - destruct (ReadLine_message m _ c Hm Hc Hflat) as (header & c' & -> & Hne & -> & Hc' & Hflat').
    destruct header as [|h0 header]; [done|]. rewrite decoded_size by done.
    unfold received at 1. cbn [length] in Hf. destruct (payload m) as [|b p] eqn:Ep.
    + rewrite (IH f c') by (done || lia).
      by replace (set_payload [] (decoded m)) with (decoded m) by (by unfold decoded).
    + rewrite stoull_to_dec by (split; lia).
      rewrite (proj2 (Z.ltb_ge _ _)) by lia. rewrite Nat2Z.id.
      destruct (ReadExact_spec (length (b :: p)) c' Hc') as (c2 & -> & Hc2 & Hflat2);
        [rewrite Hflat', length_app; lia|].
      rewrite Hflat', take_app_length. rewrite Hflat', drop_app_length in Hflat2.
      by rewrite (IH f c2) by (done || lia).
Qed.

Lemma Encode_not_nil m : Encode iterate m <> [].
Proof.
  unfold Encode, EncodeHeader. destruct (payload m); discriminate.
Qed.

(** The daemon's reader gives [HandleRuntimeMessage] exactly the messages
    the runtime sent, in order, with their payloads, however the socket
    cuts the stream, and ends when the peer closes. *)
Theorem ReadRuntime_delivers ms reads :
  Forall (fun m => stream_ok m /\ Z.of_nat (length (payload m)) < 2 ^ 63) ms ->
  Forall (fun b => b <> []) reads ->
  concat reads = concat (map (Encode iterate) ms) ->
  ReadRuntime (mkConnection [] reads) = (map received ms, reader_closed).
Proof.
  intros Hms Hne Hcat. apply ReadRuntime_loop_delivers; [done|done|done|].
  unfold to_come. cbn [line_buffer incoming length]. rewrite Hcat. clear.
  induction ms as [|m ms IH]; cbn [map concat length]; [lia|].
  rewrite length_app. pose proof (Encode_not_nil m) as He.
  destruct (Encode iterate m); [done|]. cbn [length]. lia.
Qed.

End daemon.

Lemma ReadRuntime_delivers_witness :
  let wire := concat (map (Encode map_to_list) [sample; sample_payload]) in
  ReadRuntime (mkConnection [] (map (fun b => [b]) wire))
  = (map received [sample; sample_payload], reader_closed).
Proof.
  apply (ReadRuntime_delivers map_to_list); [done| | |].
  - pose proof sample_stream_ok as H. rewrite !Forall_cons in H |- *.
    destruct H as (Hm1 & Hm2 & _). split_and!; (assumption || done).
  - apply Forall_map, Forall_true. discriminate.
  - vm_compute. reflexivity.
Defined.

(** A size that is not a number ends the daemon's process: nothing catches
    the exception in the detached thread. *)
Example payload_size_not_a_number :
  let m := set_fields {[payload_size_key := str "none"]} sample in
  ReadRuntime (mkConnection [] [Encode map_to_list m]) = ([], reader_terminated).
Proof. vm_compute. reflexivity. Qed.
