(* ===== verification/VmModel.v ===== *)
(** * Port forwarding rules as text

    Models common/vm_model.h: [HostForward] and [GuestForward], their text
    form ([ToHostfwd], [ToGuestfwd]) and its parsers ([FromHostfwd],
    [FromGuestfwd]).  A C string is the bytes before its NUL; a pair of
    pointers into it is the substring between them.

    [FromHostfwd_ToHostfwd] and [FromGuestfwd_ToGuestfwd] are the round
    trips; [ParseUint_port] shows that 32-bit wrap-around never turns a
    number that is too large into a port; [ParseIp4_wraps] that it does turn
    one into an address octet. *)

From S2P Require Import Prelude.
From S2P Require Import StdString.

Definition ch_colon : Z := 58.
Definition ch_dash : Z := 45.
Definition ch_dot : Z := 46.

(** [name] is the user's label; the text form does not carry it. *)
Record HostForward := mkHostForward {
  hf_name : bytes;
  hf_host_port : Z;
  hf_guest_port : Z;
  hf_host_ip : bytes;
  hf_guest_ip : bytes }.

Definition loopback : bytes := str "127.0.0.1".

Definition EffectiveHostIp (f : HostForward) : bytes :=
  match hf_host_ip f with [] => loopback | ip => ip end.
Definition EffectiveGuestIp (f : HostForward) : bytes :=
  match hf_guest_ip f with [] => [] | ip => ip end.

Definition ToHostfwd (f : HostForward) : bytes :=
  str "tcp:" ++ EffectiveHostIp f ++ [ch_colon]
  ++ to_dec (hf_host_port f) ++ [ch_dash] ++ EffectiveGuestIp f ++ [ch_colon]
  ++ to_dec (hf_guest_port f).

(** ** The parsers' helpers *)

(** [FindChar(s, c)] splits [s] at the first [c]. *)
Definition FindChar (s : bytes) (c : Z) : option (bytes * bytes) :=
  n ← find_byte c s; Some (take n s, drop (S n) s).

(** The last [c] of [s]. *)
Fixpoint FindLastChar (s : bytes) (c : Z) : option (bytes * bytes) :=
  match s with
  | [] => None
  | ch :: s =>
      match FindLastChar s c with
      | Some (before, after) => Some (ch :: before, after)
      | None => if ch =? c then Some ([], s) else None
      end
  end.

(** [ParseUint(begin, end)]: 0 for anything but digits, for none at all, and
    for an overflow the comparison [next < v] notices. *)
Fixpoint ParseUint_loop (v : Z) (s : bytes) : Z :=
  match s with
  | [] => v
  | c :: s =>
      if negb (isdigit c) then 0
      else
        let next := u32 (u32 (v * 10) + (c - 48)) in
        if next <? v then 0 else ParseUint_loop next s
  end.
Definition ParseUint (s : bytes) : Z :=
  match s with [] => 0 | _ => ParseUint_loop 0 s end.

(** The digits from [p] to the first non-digit. *)
Fixpoint digits_prefix (s : bytes) : bytes :=
  match s with
  | c :: s => if isdigit c then c :: digits_prefix s else []
  | [] => []
  end.

(** [port == 0 || port > 65535]. *)
Definition bad_port (p : Z) : bool := (p =? 0) || (65535 <? p).

Definition FromHostfwd_full (p : bytes) : option HostForward :=
  '(bind_addr, p) ← FindChar p ch_colon;
  '(hps, p) ← FindChar p ch_dash;
  let hp := ParseUint hps in
  if bad_port hp then None
  else
    '(guest_addr, p) ← FindLastChar p ch_colon;
    let gp := ParseUint (digits_prefix p) in
    if bad_port gp then None
    else Some (mkHostForward [] (u16 hp) (u16 gp) bind_addr guest_addr).

Definition FromHostfwd_legacy (p : bytes) : option HostForward :=
  '(hps, p) ← FindChar p ch_colon;
  let hp := ParseUint hps in
  if bad_port hp then None
  else
    let c2 := FindChar p ch_colon in
    let gp := ParseUint (match c2 with Some (before, _) => before | None => p end) in
    if bad_port gp then None
    else
      let lan_flag := match c2 with Some (_, after) => ParseUint after | None => 0 end in
      Some (mkHostForward [] (u16 hp) (u16 gp)
              (if negb (lan_flag =? 0) then str "0.0.0.0" else []) []).

(** [FromHostfwd(s, out)]: the forward, when it returns true. *)
Definition FromHostfwd (s : bytes) : option HostForward :=
  match c_str s with
  | [] => None
  | s =>
      if decide (take 4 s = str "tcp:") then FromHostfwd_full (drop 4 s)
      else FromHostfwd_legacy s
  end.

(** ** Guest forwards *)

Record GuestForward := mkGuestForward {
  gf_name : bytes;
  gf_guest_ip : Z;
  gf_guest_port : Z;
  gf_host_addr : bytes;
  gf_host_port : Z }.

Definition EffectiveHostAddr (f : GuestForward) : bytes :=
  match gf_host_addr f with [] => loopback | a => a end.

Definition Ip4ToString (ip : Z) : bytes :=
  to_dec ((ip .>> 24) .& 0xFF) ++ [ch_dot]
  ++ to_dec ((ip .>> 16) .& 0xFF) ++ [ch_dot]
  ++ to_dec ((ip .>> 8) .& 0xFF) ++ [ch_dot]
  ++ to_dec (ip .& 0xFF).

Definition ToGuestfwd (f : GuestForward) : bytes :=
  str "guestfwd:" ++ Ip4ToString (gf_guest_ip f) ++ [ch_colon]
  ++ to_dec (gf_guest_port f) ++ [ch_dash] ++ EffectiveHostAddr f ++ [ch_colon]
  ++ to_dec (gf_host_port f).

(** One octet: [None] is a character that is no digit.  The value wraps at
    32 bits. *)
Fixpoint octet_loop (v : Z) (s : bytes) : option Z :=
  match s with
  | [] => Some v
  | c :: s => if isdigit c then octet_loop (u32 (u32 (v * 10) + (c - 48))) s else None
  end.

(** The loop of [ParseIp4] over the segments: [seg] is the segment read so
    far, [octets] those before it, newest first. *)
Fixpoint ParseIp4_loop (octets : list Z) (seg : bytes) (s : bytes) : option (list Z) :=
  let close :=
    if (4 <=? length octets)%nat then None
    else match seg with
         | [] => None
         | _ => v ← octet_loop 0 seg; if 255 <? v then None else Some (v :: octets)
         end in
  match s with
  | [] => close
  | c :: s =>
      if c =? ch_dot then
        octets ← close; ParseIp4_loop octets [] s
      else ParseIp4_loop octets (seg ++ [c]) s
  end.

Definition ParseIp4 (s : bytes) : option Z :=
  octets ← ParseIp4_loop [] [] s;
  match octets with
  | [o3; o2; o1; o0] => Some (u32 (o0 .<< 24) .| (o1 .<< 16) .| (o2 .<< 8) .| o3)
  | _ => None
  end.

Definition FromGuestfwd (s : bytes) : option GuestForward :=
  match c_str s with
  | [] => None
  | s =>
      if decide (take 9 s = str "guestfwd:") then
        let p := drop 9 s in
        '(ips, p) ← FindChar p ch_colon;
        gip ← ParseIp4 ips;
        '(gps, p) ← FindChar p ch_dash;
        let gport := ParseUint gps in
        if bad_port gport then None
        else
          '(haddr, p) ← FindLastChar p ch_colon;
          let haddr := match haddr with [] => loopback | a => a end in
          let hport := ParseUint (digits_prefix p) in
          if bad_port hport then None
          else Some (mkGuestForward [] gip (u16 gport) haddr (u16 hport))
      else None
  end.

(** ** Splitting *)

Lemma FindChar_app s c t : c ∉ s -> FindChar (s ++ c :: t) c = Some (s, t).
Proof.
  intros Hc. unfold FindChar. rewrite find_byte_app_l by done. cbn [mbind option_bind].
  rewrite take_app_length, drop_app_ge by lia.
  by replace (S (length s) - length s)%nat with 1%nat by lia.
Qed.

Lemma FindLastChar_app s c t : c ∉ t -> FindLastChar (s ++ c :: t) c = Some (s, t).
Proof.
  intros Hc. assert (Hn : FindLastChar t c = None).
  { induction t as [|ch t IH]; [done|]. apply not_elem_of_cons in Hc as [Hne Hc].
    cbn [FindLastChar]. rewrite IH by done. by rewrite (proj2 (Z.eqb_neq ch c)). }
  induction s as [|ch s IH]; cbn [app FindLastChar].
  - by rewrite Hn, Z.eqb_refl.
  - by rewrite IH.
Qed.

(** ** Numbers *)

(** The value of a digit string, without bounds. *)
Fixpoint dec_value (v : Z) (s : bytes) : Z :=
  match s with [] => v | c :: s => dec_value (v * 10 + (c - 48)) s end.

Definition is_dec (s : bytes) : Prop := s <> [] /\ Forall (fun c => isdigit c = true) s.

Lemma isdigit_bounds c : isdigit c = true -> 0 <= c - 48 < 10.
Proof. unfold isdigit. intros. bool_hyps. lia. Qed.

Lemma dec_value_ge v s : 0 <= v -> Forall (fun c => isdigit c = true) s -> v <= dec_value v s.
Proof.
  intros Hv Hs. revert v Hv. induction Hs as [|c s Hc _ IH]; intros v Hv; cbn [dec_value]; [lia|].
  apply isdigit_bounds in Hc. specialize (IH (v * 10 + (c - 48))). lia.
Qed.

Lemma ParseUint_step v c :
  0 <= v < 2 ^ 32 -> 0 <= c - 48 < 10 ->
  u32 (u32 (v * 10) + (c - 48)) = (v * 10 + (c - 48)) mod 2 ^ 32.
Proof. intros. unfold wrap. by rewrite Zplus_mod_idemp_l. Qed.

(** Once the accumulator is past every port, the result is 0 or past every
    port too: a wrapped value that is smaller is noticed, one that is not
    smaller is still too large. *)
Lemma ParseUint_loop_large v s :
  65536 <= v < 2 ^ 32 -> ParseUint_loop v s = 0 \/ 65536 <= ParseUint_loop v s.
Proof.
  revert v. induction s as [|c s IH]; intros v Hv; cbn [ParseUint_loop]; [lia|].
  destruct (isdigit c) eqn:Hc; cbn [negb]; [|lia]. apply isdigit_bounds in Hc.
  rewrite ParseUint_step by lia.
  destruct (Z.ltb_spec ((v * 10 + (c - 48)) mod 2 ^ 32) v); [lia|].
  apply IH. pose proof (Z.mod_pos_bound (v * 10 + (c - 48)) (2 ^ 32)). lia.
Qed.

Lemma ParseUint_loop_small v s :
  0 <= v < 65536 -> 0 < ParseUint_loop v s <= 65535 ->
  Forall (fun c => isdigit c = true) s /\ ParseUint_loop v s = dec_value v s.
Proof.
  revert v. induction s as [|c s IH]; intros v Hv; cbn [ParseUint_loop dec_value]; [done|].
  destruct (isdigit c) eqn:Hc; cbn [negb]; [|lia]. pose proof (isdigit_bounds _ Hc).
  rewrite ParseUint_step, Z.mod_small by lia.
  destruct (Z.ltb_spec (v * 10 + (c - 48)) v); [lia|]. intros Hr.
  destruct (Z.le_gt_cases 65536 (v * 10 + (c - 48))).
  - pose proof (ParseUint_loop_large (v * 10 + (c - 48)) s). lia.
  - destruct (IH (v * 10 + (c - 48)) ltac:(lia) Hr). split; [by constructor|done].
Qed.

Lemma ParseUint_loop_value v s :
  0 <= v -> Forall (fun c => isdigit c = true) s -> dec_value v s <= 65535 ->
  ParseUint_loop v s = dec_value v s.
Proof.
  intros Hv Hs. revert v Hv. induction Hs as [|c s Hc Hs IH]; intros v Hv Hd; cbn [ParseUint_loop dec_value] in *; [done|].
  rewrite Hc. cbn [negb]. apply isdigit_bounds in Hc.
  pose proof (dec_value_ge (v * 10 + (c - 48)) s ltac:(lia) Hs).
  rewrite ParseUint_step, Z.mod_small by lia.
  rewrite (proj2 (Z.ltb_ge _ _)) by lia. apply IH; lia.
Qed.

(** [ParseUint] gives a port exactly when the text is a decimal number that
    is one: numbers of any length that overflow 32 bits are refused, even
    where the wrapped value would be a port. *)
Theorem ParseUint_port s p :
  0 < p <= 65535 ->
  ParseUint s = p <-> is_dec s /\ dec_value 0 s = p.
Proof.
  intros Hp. unfold ParseUint, is_dec. destruct s as [|c s].
  - split; [lia|]. by intros [[? _] _].
  - split.
    + intros <-. destruct (ParseUint_loop_small 0 (c :: s) ltac:(lia) Hp) as [Hd ->]. done.
    + intros [[_ Hd] <-]. apply ParseUint_loop_value; [lia|done|lia].
Qed.

Lemma dec_value_app v s t : dec_value v (s ++ t) = dec_value (dec_value v s) t.
Proof. revert v. induction s as [|c s IH]; intros v; cbn [app dec_value]; auto. Qed.

Lemma dec_value_digits f n : 0 <= n < 10 ^ Z.of_nat (S f) -> dec_value 0 (dec_digits (S f) n) = n.
Proof.
  revert n. induction f as [|f IH]; intros n Hn; cbn [dec_digits].
  - case_ifs; bool_hyps; [|lia]. cbn [dec_value]. lia.
  - destruct (Z.ltb_spec n 10); [cbn [dec_value]; lia|].
    change (if n / 10 <? 10 then [48 + n / 10]
            else dec_digits f (n / 10 / 10) ++ [48 + n / 10 mod 10])
      with (dec_digits (S f) (n / 10)).
    rewrite Nat2Z.inj_succ, Z.pow_succ_r in Hn by lia.
    rewrite dec_value_app, IH by (split; [dlia|]; apply Z.div_lt_upper_bound; lia).
    cbn [dec_value]. pose proof (Z.div_mod n 10). lia.
Qed.

Lemma dec_value_to_dec n : in_width 64 n -> dec_value 0 (to_dec n) = n.
Proof. intros [? ?]. apply dec_value_digits. change (10 ^ Z.of_nat 20) with 100000000000000000000. lia. Qed.

Definition port_ok (p : Z) : Prop := 0 < p <= 65535.

Lemma ParseUint_to_dec p : port_ok p -> ParseUint (to_dec p) = p.
Proof.
  intros Hp. assert (in_width 64 p) by (unfold in_width, port_ok in *; lia).
  apply ParseUint_port; [exact Hp|]. split.
  - split; [apply to_dec_not_nil|by apply to_dec_all].
  - by apply dec_value_to_dec.
Qed.

Lemma bad_port_ok p : port_ok p -> bad_port p = false /\ u16 p = p.
Proof.
  unfold port_ok, bad_port. intros Hp. split.
  - apply orb_false_iff. rewrite Z.eqb_neq, Z.ltb_ge. lia.
  - apply wrap_small. unfold in_width. lia.
Qed.

Lemma digits_prefix_all s : Forall (fun c => isdigit c = true) s -> digits_prefix s = s.
Proof. induction 1 as [|c s Hc _ IH]; cbn [digits_prefix]; [done|]. by rewrite Hc, IH. Qed.

Lemma digits_prefix_to_dec p : port_ok p -> digits_prefix (to_dec p) = to_dec p.
Proof. intros Hp. apply digits_prefix_all, to_dec_all. unfold in_width, port_ok in *. lia. Qed.

Lemma to_dec_port_not_in p c : port_ok p -> isdigit c = false -> c ∉ to_dec p.
Proof. intros Hp. apply to_dec_not_in. unfold in_width, port_ok in *. lia. Qed.

(** ** Round trips *)

(** A forward's text gives it back, but for its label, and with the default
    host address written out; the host address is one without a colon. *)
Theorem FromHostfwd_ToHostfwd f :
  port_ok (hf_host_port f) -> port_ok (hf_guest_port f) ->
  ch_colon ∉ hf_host_ip f -> 0 ∉ hf_host_ip f -> 0 ∉ hf_guest_ip f ->
  FromHostfwd (ToHostfwd f)
  = Some (mkHostForward [] (hf_host_port f) (hf_guest_port f) (EffectiveHostIp f) (hf_guest_ip f)).
Proof.
  intros Hhp Hgp Hcol Hn1 Hn2. unfold FromHostfwd, ToHostfwd.
  assert (He : EffectiveGuestIp f = hf_guest_ip f) by (unfold EffectiveGuestIp; by destruct (hf_guest_ip f)).
  rewrite He.
  assert (Hh : ch_colon ∉ EffectiveHostIp f /\ 0 ∉ EffectiveHostIp f).
  { unfold EffectiveHostIp. destruct (hf_host_ip f); [|done]. split; by apply find_byte_None. }
  destruct Hh as [Hh1 Hh0].
  rewrite c_str_no_nul.
  2:{ rewrite !not_elem_of_app. split_and!; try done;
      first [by apply find_byte_None | by apply to_dec_port_not_in]. }
  cbn [app str String.list_ascii_of_string List.map]. 
  unfold FromHostfwd_full. cbn [take drop].
  rewrite decide_True by reflexivity. rewrite drop_0.
  rewrite FindChar_app by done. cbn [mbind option_bind].
  rewrite FindChar_app by (by apply to_dec_port_not_in). cbn [mbind option_bind].
  rewrite ParseUint_to_dec by done. destruct (bad_port_ok _ Hhp) as [-> ->].
  rewrite FindLastChar_app by (by apply to_dec_port_not_in). cbn [mbind option_bind].
  rewrite digits_prefix_to_dec, ParseUint_to_dec by done.
  by destruct (bad_port_ok _ Hgp) as [-> ->].
Qed.

Definition sample_hf : HostForward :=
  mkHostForward (str "web") 8080 80 (str "0.0.0.0") (str "fec0::15").

Lemma FromHostfwd_ToHostfwd_witness :
  FromHostfwd (ToHostfwd sample_hf)
  = Some (mkHostForward [] 8080 80 (str "0.0.0.0") (str "fec0::15")).
Proof.
  apply (FromHostfwd_ToHostfwd sample_hf);
    first [by vm_compute | by apply find_byte_None].
Defined.

(** An IPv6 host address is cut at its first colon. *)
Example FromHostfwd_ipv6_host :
  FromHostfwd (ToHostfwd (mkHostForward [] 8080 80 (str "::1") [])) = None.
Proof. vm_compute. reflexivity. Qed.

Example FromHostfwd_legacy_lan :
  FromHostfwd (str "8080:80:1") = Some (mkHostForward [] 8080 80 (str "0.0.0.0") []).
Proof. vm_compute. reflexivity. Qed.

(** *** Addresses *)

Lemma octet_loop_value v s :
  0 <= v -> Forall (fun c => isdigit c = true) s -> dec_value v s < 2 ^ 32 ->
  octet_loop v s = Some (dec_value v s).
Proof.
  intros Hv Hs. revert v Hv. induction Hs as [|c s Hc Hs IH]; intros v Hv Hd; cbn [octet_loop dec_value] in *; [done|].
  rewrite Hc. apply isdigit_bounds in Hc.
  pose proof (dec_value_ge (v * 10 + (c - 48)) s ltac:(lia) Hs).
  rewrite ParseUint_step, Z.mod_small by lia. apply IH; lia.
Qed.

Lemma ParseIp4_loop_segment octets seg s rest :
  ch_dot ∉ s -> ParseIp4_loop octets seg (s ++ rest) = ParseIp4_loop octets (seg ++ s) rest.
Proof.
  revert seg. induction s as [|c s IH]; intros seg Hs; [by rewrite app_nil_r|].
  apply not_elem_of_cons in Hs as [Hne Hs]. cbn [app ParseIp4_loop].
  rewrite (proj2 (Z.eqb_neq c ch_dot)) by done. by rewrite IH, <- app_assoc.
Qed.

(** What closing a segment does to the octets read so far. *)
Lemma ParseIp4_loop_octet octets o rest :
  (length octets < 4)%nat -> 0 <= o <= 255 ->
  ParseIp4_loop octets [] (to_dec o ++ rest)
  = match rest with
    | [] => Some (o :: octets)
    | c :: s => if c =? ch_dot then ParseIp4_loop (o :: octets) [] s
                else ParseIp4_loop octets (to_dec o ++ [c]) s
    end.
Proof.
  intros Hl Ho. assert (Hw : in_width 64 o) by (unfold in_width; lia).
  rewrite ParseIp4_loop_segment by (by apply to_dec_not_in). cbn [app].
  assert (Hv : octet_loop 0 (to_dec o) = Some o).
  { pose proof (dec_value_to_dec o Hw) as Hd.
    rewrite octet_loop_value; rewrite ?Hd; [done|lia|by apply to_dec_all|lia]. }
  destruct rest as [|c s]; cbn [ParseIp4_loop];
    rewrite (proj2 (Nat.leb_gt 4 (length octets))) by lia;
    destruct (to_dec o) as [|d ds] eqn:Ed; try (by apply to_dec_not_nil in Ed);
    rewrite Hv; cbn [mbind option_bind]; rewrite (proj2 (Z.ltb_ge 255 o)) by lia; done.
Qed.

Lemma land_255 x : 0 <= x .& 0xFF <= 255.
Proof. pose proof (Z.land_ones x 8 ltac:(lia)) as H. change (Z.ones 8) with 0xFF in H. rewrite H. pose proof (Z.mod_pos_bound x (2 ^ 8) eq_refl). lia. Qed.

Lemma ip4_octets ip :
  in_width 32 ip ->
  u32 (((ip .>> 24) .& 0xFF) .<< 24) .| (((ip .>> 16) .& 0xFF) .<< 16)
    .| (((ip .>> 8) .& 0xFF) .<< 8) .| (ip .& 0xFF) = ip.
Proof.
  intros Hip. change 0xFF with (Z.ones 8). bitwise.
  destruct (Z.lt_ge_cases i 16), (Z.lt_ge_cases i 24); try lia;
    bitwise_neg; repeat bitwise_step; done.
Qed.

Lemma ParseIp4_ToString ip : in_width 32 ip -> ParseIp4 (Ip4ToString ip) = Some ip.
Proof.
  intros Hip. unfold ParseIp4, Ip4ToString. cbn [app].
  rewrite 3!ParseIp4_loop_octet, Z.eqb_refl by (cbn [length]; lia || apply land_255).
  pose proof (ParseIp4_loop_octet [(ip .>> 8) .& 0xFF; (ip .>> 16) .& 0xFF; (ip .>> 24) .& 0xFF]
                (ip .& 0xFF) [] ltac:(cbn; lia) (land_255 _)) as H.
  rewrite app_nil_r in H. rewrite H. cbn [mbind option_bind].
  by rewrite ip4_octets.
Qed.

Lemma Ip4ToString_not_in ip c : isdigit c = false -> c <> ch_dot -> c ∉ Ip4ToString ip.
Proof.
  intros Hc Hd. unfold Ip4ToString.
  assert (Ho : forall x, c ∉ to_dec (x .& 0xFF)).
  { intros x. apply to_dec_not_in; [|done]. pose proof (land_255 x). unfold in_width. lia. }
  rewrite !not_elem_of_app, !not_elem_of_cons. split_and!; try done; apply not_elem_of_nil.
Qed.

(** A guest forward's text gives it back, with the default host address
    written out. *)
Theorem FromGuestfwd_ToGuestfwd f :
  in_width 32 (gf_guest_ip f) -> port_ok (gf_guest_port f) -> port_ok (gf_host_port f) ->
  0 ∉ gf_host_addr f ->
  FromGuestfwd (ToGuestfwd f)
  = Some (mkGuestForward [] (gf_guest_ip f) (gf_guest_port f) (EffectiveHostAddr f) (gf_host_port f)).
Proof.
  intros Hip Hgp Hhp Hn. unfold FromGuestfwd, ToGuestfwd.
  assert (Hh : 0 ∉ EffectiveHostAddr f /\ EffectiveHostAddr f <> []).
  { unfold EffectiveHostAddr. destruct (gf_host_addr f); [|done].
    split; [by apply find_byte_None|discriminate]. }
  destruct Hh as [Hh0 Hhn].
  rewrite c_str_no_nul.
  2:{ rewrite !not_elem_of_app. split_and!; try done;
      first [by apply find_byte_None | by apply Ip4ToString_not_in | by apply to_dec_port_not_in]. }
  cbn [app str String.list_ascii_of_string List.map take drop].
  rewrite decide_True by reflexivity. rewrite drop_0.
  rewrite FindChar_app by (by apply Ip4ToString_not_in). cbn [mbind option_bind].
  rewrite ParseIp4_ToString by done. cbn [mbind option_bind].
  rewrite FindChar_app by (by apply to_dec_port_not_in). cbn [mbind option_bind].
  rewrite ParseUint_to_dec by done. destruct (bad_port_ok _ Hgp) as [-> ->].
  rewrite FindLastChar_app by (by apply to_dec_port_not_in). cbn [mbind option_bind].
  rewrite digits_prefix_to_dec, ParseUint_to_dec by done.
  destruct (bad_port_ok _ Hhp) as [-> ->]. by destruct (EffectiveHostAddr f).
Qed.

(** An octet wraps at 32 bits before it is compared with 255. *)
Example ParseIp4_wraps : ParseIp4 (str "4294967306.0.2.2") = ParseIp4 (str "10.0.2.2").
Proof. vm_compute. reflexivity. Qed.
