(* ===== verification/RuntimeService.v ===== *)
(** * The runtime's control service

    Models runtime/runtime_service.{h,cpp}: the ports between a running VM
    and the manager, the dispatch of the manager's requests
    ([HandleMessage]), the events the VM's devices raise, and the three send
    queues with their drain ([DrainSendQueues]).  The receiving side is
    [IpcStream].

    Calls into the VM, wake-ups of the event loop and bytes handed to the
    pipe are an output trace, [effects], in order.  What [HandleMessage] asks
    the VM (guest agent connected, current shared folders) is its argument
    [env].  The loop-state members ([start_cv_], the libuv handles) are not
    modelled; a wake-up is the effect [wake].

    [control_request_replied]: every control request is answered exactly
    once, under its own request id.  [DrainSendQueues_delivers] composes the
    queues, the wire format and the manager's receiver. *)

From S2P Require Import Prelude.
From S2P Require Import StdString.
From S2P Require Import Ports.
From S2P Require Import ProtocolV1.
From S2P Require Import IpcStream.
From S2P Require Import VmModel.

(** ** Hexadecimal text *)

Definition hex_digit (d : Z) : Z := if d <? 10 then 48 + d else 87 + d.

Definition EncodeHex (data : bytes) : bytes :=
  flat_map (fun b => [hex_digit ((b .>> 4) .& 0x0F); hex_digit (b .& 0x0F)]) data.

Definition hex_value (ch : Z) : Z :=
  if (48 <=? ch) && (ch <=? 57) then ch - 48
  else if (97 <=? ch) && (ch <=? 102) then 10 + (ch - 97)
  else if (65 <=? ch) && (ch <=? 70) then 10 + (ch - 65)
  else -1.

(** The loop of [DecodeHex]; the text has even length. *)
Fixpoint DecodeHex_loop (value : bytes) : option bytes :=
  match value with
  | c1 :: c2 :: value =>
      let hi := hex_value c1 in
      let lo := hex_value c2 in
      if (hi <? 0) || (lo <? 0) then None
      else out ← DecodeHex_loop value; Some (u8 ((hi .<< 4) .| lo) :: out)
  | _ => Some []
  end.

Definition DecodeHex (value : bytes) : bytes :=
  if negb (Nat.even (length value)) then []
  else match DecodeHex_loop value with Some out => out | None => [] end.

(** ** State *)

Record FolderSpec := mkFolder { tag : bytes; host_path : bytes; readonly : bool }.

(** The VM's operations the service calls. *)
Inductive VmCall :=
  | RequestStop
  | TriggerPowerButton
  | GuestAgentShutdown (mode : bytes)
  | GuestAgentSyncTime
  | InjectConsoleBytes (data : bytes)
  | InjectKeyEvent (ev : KeyboardEvent)
  | InjectPointerEvent (ev : PointerEvent)
  | InjectWheelEvent (delta : Z)
  | SetDisplaySize (w h : Z)
  | SetNetLinkUp (up : bool)
  | UpdateGuestForwards (forwards : list GuestForward)
  | UpdateHostForwards (forwards : list HostForward) (req_id : Z) (* the callback's capture *)
  | RemoveSharedFolder (t : bytes)
  | AddSharedFolder (f : FolderSpec)
  | SendClipboardGrab (types : list Z)
  | SendClipboardData (data_type : Z) (data : bytes)
  | SendClipboardRequest (data_type : Z)
  | SendClipboardRelease.

Inductive Effect :=
  | vm_call (c : VmCall)
  | wake
  | start_coalesce_timer
  | write_pipe (data : bytes).

(** [port_callbacks]: [AttachVm] has set the ports' input callbacks.
    [pending_write_] and [port_queue_] are the console port's output and
    input; the pipe and loop members are omitted. *)
Record Service := mkService {
  vm_id_ : bytes;
  vm_attached : bool;
  port_callbacks : bool;
  running_ : bool;
  pipe_connected_ : bool;
  next_event_id_ : Z;
  console_queue_ : list bytes;
  frame_queue_ : list bytes;
  audio_queue_ : list bytes;
  pending_write_ : bytes;
  port_queue_ : bytes;
  key_queue_ : list KeyboardEvent;
  pointer_queue_ : list PointerEvent;
  coalesce_running_ : bool;
  effects : list Effect
}.

Definition s_set_vm_id (v : bytes) (s : Service) : Service :=
  mkService v (vm_attached s) (port_callbacks s) (running_ s) (pipe_connected_ s)
    (next_event_id_ s) (console_queue_ s) (frame_queue_ s) (audio_queue_ s) (pending_write_ s)
    (port_queue_ s) (key_queue_ s) (pointer_queue_ s) (coalesce_running_ s) (effects s).
Definition s_set_vm_attached (v : bool) (s : Service) : Service :=
  mkService (vm_id_ s) v (port_callbacks s) (running_ s) (pipe_connected_ s) (next_event_id_ s)
    (console_queue_ s) (frame_queue_ s) (audio_queue_ s) (pending_write_ s) (port_queue_ s)
    (key_queue_ s) (pointer_queue_ s) (coalesce_running_ s) (effects s).
Definition s_set_port_callbacks (v : bool) (s : Service) : Service :=
  mkService (vm_id_ s) (vm_attached s) v (running_ s) (pipe_connected_ s) (next_event_id_ s)
    (console_queue_ s) (frame_queue_ s) (audio_queue_ s) (pending_write_ s) (port_queue_ s)
    (key_queue_ s) (pointer_queue_ s) (coalesce_running_ s) (effects s).
Definition s_set_running (v : bool) (s : Service) : Service :=
  mkService (vm_id_ s) (vm_attached s) (port_callbacks s) v (pipe_connected_ s)
    (next_event_id_ s) (console_queue_ s) (frame_queue_ s) (audio_queue_ s) (pending_write_ s)
    (port_queue_ s) (key_queue_ s) (pointer_queue_ s) (coalesce_running_ s) (effects s).
Definition s_set_pipe_connected (v : bool) (s : Service) : Service :=
  mkService (vm_id_ s) (vm_attached s) (port_callbacks s) (running_ s) v (next_event_id_ s)
    (console_queue_ s) (frame_queue_ s) (audio_queue_ s) (pending_write_ s) (port_queue_ s)
    (key_queue_ s) (pointer_queue_ s) (coalesce_running_ s) (effects s).
Definition s_set_next_event_id (v : Z) (s : Service) : Service :=
  mkService (vm_id_ s) (vm_attached s) (port_callbacks s) (running_ s) (pipe_connected_ s) v
    (console_queue_ s) (frame_queue_ s) (audio_queue_ s) (pending_write_ s) (port_queue_ s)
    (key_queue_ s) (pointer_queue_ s) (coalesce_running_ s) (effects s).
Definition s_set_console_queue (v : list bytes) (s : Service) : Service :=
  mkService (vm_id_ s) (vm_attached s) (port_callbacks s) (running_ s) (pipe_connected_ s)
    (next_event_id_ s) v (frame_queue_ s) (audio_queue_ s) (pending_write_ s) (port_queue_ s)
    (key_queue_ s) (pointer_queue_ s) (coalesce_running_ s) (effects s).
Definition s_set_frame_queue (v : list bytes) (s : Service) : Service :=
  mkService (vm_id_ s) (vm_attached s) (port_callbacks s) (running_ s) (pipe_connected_ s)
    (next_event_id_ s) (console_queue_ s) v (audio_queue_ s) (pending_write_ s) (port_queue_ s)
    (key_queue_ s) (pointer_queue_ s) (coalesce_running_ s) (effects s).
Definition s_set_audio_queue (v : list bytes) (s : Service) : Service :=
  mkService (vm_id_ s) (vm_attached s) (port_callbacks s) (running_ s) (pipe_connected_ s)
    (next_event_id_ s) (console_queue_ s) (frame_queue_ s) v (pending_write_ s) (port_queue_ s)
    (key_queue_ s) (pointer_queue_ s) (coalesce_running_ s) (effects s).
Definition s_set_pending_write (v : bytes) (s : Service) : Service :=
  mkService (vm_id_ s) (vm_attached s) (port_callbacks s) (running_ s) (pipe_connected_ s)
    (next_event_id_ s) (console_queue_ s) (frame_queue_ s) (audio_queue_ s) v (port_queue_ s)
    (key_queue_ s) (pointer_queue_ s) (coalesce_running_ s) (effects s).
Definition s_set_port_queue (v : bytes) (s : Service) : Service :=
  mkService (vm_id_ s) (vm_attached s) (port_callbacks s) (running_ s) (pipe_connected_ s)
    (next_event_id_ s) (console_queue_ s) (frame_queue_ s) (audio_queue_ s) (pending_write_ s) v
    (key_queue_ s) (pointer_queue_ s) (coalesce_running_ s) (effects s).
Definition s_set_key_queue (v : list KeyboardEvent) (s : Service) : Service :=
  mkService (vm_id_ s) (vm_attached s) (port_callbacks s) (running_ s) (pipe_connected_ s)
    (next_event_id_ s) (console_queue_ s) (frame_queue_ s) (audio_queue_ s) (pending_write_ s)
    (port_queue_ s) v (pointer_queue_ s) (coalesce_running_ s) (effects s).
Definition s_set_pointer_queue (v : list PointerEvent) (s : Service) : Service :=
  mkService (vm_id_ s) (vm_attached s) (port_callbacks s) (running_ s) (pipe_connected_ s)
    (next_event_id_ s) (console_queue_ s) (frame_queue_ s) (audio_queue_ s) (pending_write_ s)
    (port_queue_ s) (key_queue_ s) v (coalesce_running_ s) (effects s).
Definition s_set_coalesce_running (v : bool) (s : Service) : Service :=
  mkService (vm_id_ s) (vm_attached s) (port_callbacks s) (running_ s) (pipe_connected_ s)
    (next_event_id_ s) (console_queue_ s) (frame_queue_ s) (audio_queue_ s) (pending_write_ s)
    (port_queue_ s) (key_queue_ s) (pointer_queue_ s) v (effects s).
Definition s_set_effects (v : list Effect) (s : Service) : Service :=
  mkService (vm_id_ s) (vm_attached s) (port_callbacks s) (running_ s) (pipe_connected_ s)
    (next_event_id_ s) (console_queue_ s) (frame_queue_ s) (audio_queue_ s) (pending_write_ s)
    (port_queue_ s) (key_queue_ s) (pointer_queue_ s) (coalesce_running_ s) v.

Definition Service_new (vm_id : bytes) : Service :=
  mkService vm_id false false false false 1 [] [] [] [] [] [] [] false [].

Definition emit (e : Effect) (s : Service) : Service := s_set_effects (effects s ++ [e]) s.
Definition call (c : VmCall) (s : Service) : Service := emit (vm_call c) s.

(** [if (running_) uv_async_send(&send_wakeup_)]. *)
Definition wakeup (s : Service) : Service := if running_ s then emit wake s else s.

Section service.
  (** The iteration order of the message's fields (see [ProtocolV1]). *)
  Context (iterate : gmap bytes bytes -> list (bytes * bytes)).

Definition Send (message : Message) (s : Service) : Service :=
  wakeup (s_set_console_queue (console_queue_ s ++ [Encode iterate message]) s).

Definition SendWithPayload (message : Message) (s : Service) : Service :=
  wakeup (s_set_console_queue (console_queue_ s ++ [Encode iterate message]) s).

(** ** Ports *)

Definition AttachVm (vm : bool) (s : Service) : Service :=
  let s := s_set_vm_attached vm s in
  if vm then s_set_port_callbacks true s else s.

Definition ConsolePort_Write (data : bytes) (s : Service) : Service :=
  match data with
  | [] => s
  | _ =>
      let was_empty := match pending_write_ s with [] => true | _ => false end in
      let s := s_set_pending_write (pending_write_ s ++ data) s in
      if was_empty then wakeup s else s
  end.

Definition FlushPending (s : Service) : bytes * Service := (pending_write_ s, s_set_pending_write [] s).

(** [Read] with input available; without any it waits for some. *)
Definition ConsolePort_Read (size : nat) (s : Service) : bytes * Service :=
  (take size (port_queue_ s), s_set_port_queue (drop size (port_queue_ s)) s).

Definition PushInput (data : bytes) (s : Service) : Service :=
  match data with
  | [] => s
  | _ =>
      if port_callbacks s then call (InjectConsoleBytes data) s
      else s_set_port_queue (port_queue_ s ++ data) s
  end.

Definition PollKeyboard (s : Service) : option KeyboardEvent * Service :=
  match key_queue_ s with
  | [] => (None, s)
  | ev :: rest => (Some ev, s_set_key_queue rest s)
  end.

Definition PollPointer (s : Service) : option PointerEvent * Service :=
  match pointer_queue_ s with
  | [] => (None, s)
  | ev :: rest => (Some ev, s_set_pointer_queue rest s)
  end.

Definition PushKeyEvent (ev : KeyboardEvent) (s : Service) : Service :=
  if port_callbacks s then call (InjectKeyEvent ev) s
  else s_set_key_queue (key_queue_ s ++ [ev]) s.

Definition PushPointerEvent (ev : PointerEvent) (s : Service) : Service :=
  if port_callbacks s then call (InjectPointerEvent ev) s
  else s_set_pointer_queue (pointer_queue_ s ++ [ev]) s.

(** ** Requests from the manager *)

(** What the VM answers while a request is handled. *)
Record Env := mkEnv {
  agent_connected : bool;
  shared_folders : list FolderSpec;
  ulong_bits : Z }.

(** A response to [message], without its fields. *)
Definition response (message : Message) (ty : bytes) (s : Service) : Message :=
  mkMessage kProtocolVersion kControl kResponse ty (vm_id_ s) (request_id message) ∅ [].

(** [resp.fields[key] = value]. *)
Definition set_field (key value : bytes) (m : Message) : Message :=
  set_fields (<[key := value]> (fields m)) m.

Definition poweroff_line : bytes := [ch_nl] ++ str "poweroff" ++ [ch_nl].

Definition handle_command (env : Env) (message : Message) (s : Service) : Service :=
  let resp := set_field (str "ok") (str "true")
                (response message (str "runtime.command.result") s) in
  match fields message !! str "command" with
  | None =>
      Send (set_field (str "error") (str "missing command") (set_field (str "ok") (str "false") resp)) s
  | Some cmd =>
      let '(resp, s) :=
        if decide (cmd = str "stop") then
          (resp, if vm_attached s then call RequestStop s else s)
        else if decide (cmd = str "shutdown") then
          (resp,
           if vm_attached s && agent_connected env then call (GuestAgentShutdown (str "powerdown")) s
           else if vm_attached s then
             call (InjectConsoleBytes poweroff_line) (call TriggerPowerButton s)
           else s)
        else if decide (cmd = str "reboot") then
          if vm_attached s && agent_connected env then (resp, call (GuestAgentShutdown (str "reboot")) s)
          else if vm_attached s then
            (set_field (str "note") (str "guest agent unavailable, performed stop") resp,
             call RequestStop s)
          else (resp, s)
        else if decide (cmd = str "start") then
          (set_field (str "note") (str "runtime already started by process launch") resp, s)
        else if decide (cmd = str "sync-time") then
          if vm_attached s && agent_connected env then (resp, call GuestAgentSyncTime s)
          else if vm_attached s then
            (set_field (str "note") (str "guest agent not connected") resp, s)
          else (resp, s)
        else
          (set_field (str "error") (str "unknown command") (set_field (str "ok") (str "false") resp), s)
      in Send resp s
  end.

(** [std::from_chars] into a count, used when it is valid. *)
Definition count_of (v : bytes) : option Z :=
  count ← from_chars_int v; if 0 <=? count then Some count else None.

(** The entries [prefix_0], [prefix_1], ... that exist and parse. *)
Definition numbered {A} (parse : bytes -> option A) (prefix : bytes) (fs : gmap bytes bytes)
    (count : Z) : list A :=
  omap (fun i => v ← fs !! (prefix ++ to_dec (Z.of_nat i)); parse v) (seq 0 (Z.to_nat count)).

Definition counted {A} (parse : bytes -> option A) (count_key prefix : bytes) (fs : gmap bytes bytes)
    : list A :=
  match fs !! count_key with
  | Some v => match count_of v with Some count => numbered parse prefix fs count | None => [] end
  | None => []
  end.

Definition handle_update_network (message : Message) (s : Service) : Service :=
  if negb (vm_attached s) then
    Send (set_field (str "error") (str "vm not attached")
            (set_field (str "ok") (str "false")
               (response message (str "runtime.update_network.result") s))) s
  else
    let s := match fields message !! str "link_up" with
             | Some v => call (SetNetLinkUp (bool_decide (v = str "true"))) s
             | None => s
             end in
    let forwards := counted FromHostfwd (str "forward_count") (str "forward_") (fields message) in
    let guest_forwards := counted FromGuestfwd (str "guestfwd_count") (str "guestfwd_") (fields message) in
    let s := match guest_forwards with [] => s | _ => call (UpdateGuestForwards guest_forwards) s end in
    call (UpdateHostForwards forwards (request_id message)) s.

(** The callback of [UpdateHostForwards]. *)
Definition update_network_reply (req_id : Z) (failed_ports : list Z) (s : Service) : Service :=
  let resp := mkMessage kProtocolVersion kControl kResponse
                (str "runtime.update_network.result") (vm_id_ s) req_id ∅ [] in
  let resp :=
    match failed_ports with
    | [] => set_field (str "ok") (str "true") resp
    | _ =>
        foldl (fun r '(i, p) => set_field (str "failed_" ++ to_dec (Z.of_nat i)) (to_dec p) r)
          (set_field (str "failed_count") (to_dec (Z.of_nat (length failed_ports)))
             (set_field (str "ok") (str "false") resp))
          (zip (seq 0 (length failed_ports)) failed_ports)
    end in
  Send resp s.

Definition ch_bar : Z := 124.

(** [tag|host_path|readonly]. *)
Definition parse_folder (val : bytes) : option FolderSpec :=
  pos1 ← find_byte ch_bar val;
  let tl := drop (S pos1) val in
  pos2 ← find_byte ch_bar tl;
  Some (mkFolder (take pos1 val) (take pos2 tl) (bool_decide (drop (S pos2) tl = str "1"))).

(** The folder to drop: absent from the new list, or with another path or
    mode in its first entry there. *)
Definition folder_stale (new_folders : list FolderSpec) (cf : FolderSpec) : bool :=
  match List.find (fun n => bool_decide (tag n = tag cf)) new_folders with
  | None => true
  | Some n => negb (bool_decide (host_path n = host_path cf)) || negb (Bool.eqb (readonly n) (readonly cf))
  end.

(** The calls that turn the current folders into the new ones. *)
Definition folder_calls (current new_folders : list FolderSpec) : list VmCall :=
  let stale := List.filter (folder_stale new_folders) current in
  let current_map := List.filter (fun cf => negb (bool_decide (tag cf ∈ map tag stale))) current in
  let fresh := List.filter
    (fun f => negb (bool_decide (tag f ∈ map tag current_map))) new_folders in
  map (fun cf => RemoveSharedFolder (tag cf)) stale ++ map AddSharedFolder fresh.

Definition handle_update_shared_folders (env : Env) (message : Message) (s : Service) : Service :=
  let resp := response message (str "runtime.update_shared_folders.result") s in
  let fail err := Send (set_field (str "error") err (set_field (str "ok") (str "false") resp)) s in
  if negb (vm_attached s) then fail (str "vm not attached")
  else
    match fields message !! str "folder_count" with
    | None => fail (str "missing folder_count")
    | Some v =>
        match count_of v with
        | None => fail (str "invalid folder_count")
        | Some count =>
            let new_folders := numbered parse_folder (str "folder_") (fields message) count in
            let s := foldl (fun s c => call c s) s (folder_calls (shared_folders env) new_folders) in
            Send (set_field (str "ok") (str "true") resp) s
        end
    end.

(** The comma-separated numbers of a clipboard grab; the loop visits every
    character once. *)
Fixpoint grab_types (bits : Z) (num_str : bytes) (rest : bytes) : list Z :=
  let close := match num_str with [] => [] | _ => [strtoul_u32 bits num_str] end in
  match rest with
  | [] => close
  | c :: rest => if c =? 44 then close ++ grab_types bits [] rest
                 else grab_types bits (num_str ++ [c]) rest
  end.

Definition handle_clipboard (env : Env) (message : Message) (s : Service) : Service :=
  let num v := strtoul_u32 (ulong_bits env) v in
  if decide (type message = str "clipboard.grab") then
    match fields message !! str "types" with
    | Some types => call (SendClipboardGrab (grab_types (ulong_bits env) [] types)) s
    | None => s
    end
  else if decide (type message = str "clipboard.data") then
    match fields message !! str "data_type" with
    | Some ty => call (SendClipboardData (num ty) (payload message)) s
    | None => s
    end
  else if decide (type message = str "clipboard.request") then
    match fields message !! str "data_type" with
    | Some ty => call (SendClipboardRequest (num ty)) s
    | None => s
    end
  else if decide (type message = str "clipboard.release") then call SendClipboardRelease s
  else s.

Definition opt_atoi (v : option bytes) : option Z :=
  match v with Some v => atoi v | None => Some 0 end.

Definition handle_pointer_event (env : Env) (message : Message) (s : Service) : option Service :=
  x ← opt_atoi (fields message !! str "x");
  y ← opt_atoi (fields message !! str "y");
  let b := match fields message !! str "buttons" with
           | Some v => strtoul_u32 (ulong_bits env) v
           | None => 0
           end in
  Some (PushPointerEvent (mkPointer x y b) s).

Definition handle_key_event (env : Env) (message : Message) (s : Service) : Service :=
  match fields message !! str "key_code", fields message !! str "pressed" with
  | Some code, Some p =>
      PushKeyEvent (mkKey (strtoul_u32 (ulong_bits env) code)
                      (bool_decide (p = str "1") || bool_decide (p = str "true"))) s
  | _, _ => s
  end.

(** [None] is undefined behaviour: [atoi] of a number that fits no [int]. *)
Definition HandleMessage (env : Env) (message : Message) (s : Service) : option Service :=
  let matches c k ty := bool_decide (channel message = c) && bool_decide (kind message = k)
                   && bool_decide (type message = ty) in
  if matches kControl kRequest (str "runtime.command") then Some (handle_command env message s)
  else if matches kControl kRequest (str "runtime.update_network") then
    Some (handle_update_network message s)
  else if matches kControl kRequest (str "runtime.update_shared_folders") then
    Some (handle_update_shared_folders env message s)
  else if matches kConsole kRequest (str "console.input") then
    match fields message !! str "data_hex" with
    | Some v => Some (PushInput (DecodeHex v) s)
    | None => Some s
    end
  else if matches kInput kRequest (str "input.key_event") then Some (handle_key_event env message s)
  else if matches kInput kRequest (str "input.pointer_event") then handle_pointer_event env message s
  else if matches kInput kRequest (str "input.wheel_event") then
    match fields message !! str "delta" with
    | Some v =>
        if vm_attached s then delta ← atoi v; Some (call (InjectWheelEvent delta) s) else Some s
    | None => Some s
    end
  else if matches kDisplay kRequest (str "display.set_size") then
    match fields message !! str "width", fields message !! str "height" with
    | Some w, Some h =>
        if vm_attached s then
          Some (call (SetDisplaySize (strtoul_u32 (ulong_bits env) w) (strtoul_u32 (ulong_bits env) h)) s)
        else Some s
    | _, _ => Some s
    end
  else if matches kControl kRequest (str "runtime.ping") then
    Some (Send (response message (str "runtime.pong") s) s)
  else if bool_decide (channel message = kClipboard) && bool_decide (kind message = kRequest) then
    Some (if vm_attached s then handle_clipboard env message s else s)
  else Some s.

(** ** Events to the manager *)

Definition event (ch : Channel) (ty : bytes) (s : Service) : Message * Service :=
  (mkMessage kProtocolVersion ch kEvent ty (vm_id_ s) (next_event_id_ s) ∅ [],
   s_set_next_event_id (u64 (next_event_id_ s + 1)) s).

Definition PublishState (state : bytes) (exit_code : Z) (s : Service) : Service :=
  let '(ev, s) := event kControl (str "runtime.state") s in
  Send (set_field (str "exit_code") (to_dec_signed exit_code) (set_field (str "state") state ev)) s.

(** The guest agent's connected callback, set by [AttachVm]. *)
Definition on_agent_connected (connected : bool) (s : Service) : Service :=
  let s := if connected && vm_attached s then call GuestAgentSyncTime s else s in
  let '(ev, s) := event kControl (str "guest_agent.state") s in
  Send (set_field (str "connected") (if connected then str "1" else str "0") ev) s.

(** The queueing at the end of the display-state, cursor and clipboard
    handlers: the message goes to the console queue. *)
Definition bool_text (b : bool) : bytes := if b then str "1" else str "0".

Definition on_display_state (active : bool) (width height : Z) (s : Service) : Service :=
  let '(ev, s) := event kDisplay (str "display.state") s in
  Send (set_field (str "height") (to_dec height)
          (set_field (str "width") (to_dec width)
             (set_field (str "active") (bool_text active) ev))) s.

Definition on_cursor (c : CursorInfo) (s : Service) : Service :=
  let '(ev, s) := event kDisplay (str "display.cursor") s in
  let ev := set_field (str "image_updated") (bool_text (image_updated c))
           (set_field (str "visible") (bool_text (visible c))
           (set_field (str "height") (to_dec (cheight c))
           (set_field (str "width") (to_dec (cwidth c))
           (set_field (str "hot_y") (to_dec (hot_y c))
           (set_field (str "hot_x") (to_dec (hot_x c))
           (set_field (str "y") (to_dec_signed (cy c))
           (set_field (str "x") (to_dec_signed (cx c)) ev))))))) in
  let ev :=
    if image_updated c && negb (bool_decide (cpixels c = [])) then
      let expected := u64 (u64 (cwidth c * cheight c) * 4) in
      if expected <=? Z.of_nat (length (cpixels c))
      then set_payload (take (Z.to_nat expected) (cpixels c)) ev
      else set_payload (cpixels c) ev
    else ev in
  Send ev s.

(** The numbers joined with commas. *)
Fixpoint join_types (types : list Z) : bytes :=
  match types with
  | [] => []
  | [t] => to_dec t
  | t :: types => to_dec t ++ [44] ++ join_types types
  end.

Definition on_clipboard_event (clip : ClipboardEvent) (s : Service) : Service :=
  let sel n := set_field (str "selection") (to_dec n) in
  let dty n := set_field (str "data_type") (to_dec n) in
  let ty := match clip with
            | clip_grab _ _ => str "clipboard.grab"
            | clip_data _ _ _ => str "clipboard.data"
            | clip_request _ _ => str "clipboard.request"
            | clip_release _ => str "clipboard.release"
            end in
  let '(ev, s) := event kClipboard ty s in
  let ev := match clip with
            | clip_grab n types => set_field (str "types") (join_types types) (sel n ev)
            | clip_data n t data => set_payload data (dty t (sel n ev))
            | clip_request n t => dty t (sel n ev)
            | clip_release n => sel n ev
            end in
  Send ev s.

Definition kMaxPendingAudio : nat := 32.

(** [pcm] holds 16-bit samples, as the bytes [memcpy] takes. *)
Definition on_pcm (sample_rate channels : Z) (pcm : bytes) (s : Service) : Service :=
  let '(ev, s) := event kAudio (str "audio.pcm") s in
  let ev := set_payload pcm
              (set_field (str "channels") (to_dec channels)
                 (set_field (str "sample_rate") (to_dec sample_rate) ev)) in
  let q := audio_queue_ s ++ [Encode iterate ev] in
  wakeup (s_set_audio_queue (if (kMaxPendingAudio <? length q)%nat then tail q else q) s).

(** A frame notification replaces the one waiting. *)
Definition push_frame (notify : Message) (s : Service) : Service :=
  wakeup (s_set_frame_queue [Encode iterate notify] s).

(** ** Sending *)

Definition WriteRaw (data : bytes) (s : Service) : Service :=
  if negb (pipe_connected_ s) || bool_decide (data = []) then s
  else emit (write_pipe data) s.

Definition FlushConsoleData (s : Service) : Service :=
  let '(console_data, s) := FlushPending s in
  match console_data with
  | [] => s
  | _ =>
      let '(ev, s) := event kConsole (str "console.data") s in
      WriteRaw (Encode iterate (set_field (str "data_hex") (EncodeHex console_data) ev)) s
  end.

(** Each queue is emptied in turn: console, audio, frames. *)
Definition DrainSendQueues (s : Service) : Service :=
  let batch := concat (console_queue_ s) ++ concat (audio_queue_ s) ++ concat (frame_queue_ s) in
  let s := s_set_frame_queue [] (s_set_audio_queue [] (s_set_console_queue [] s)) in
  WriteRaw batch s.

(** ** The event loop's callbacks *)

Definition HasPending (s : Service) : bool :=
  match pending_write_ s with [] => false | _ => true end.

Definition start_timer (s : Service) : Service :=
  s_set_coalesce_running true (emit start_coalesce_timer s).

Definition OnSendWakeup (s : Service) : Service :=
  let s := if HasPending s && negb (coalesce_running_ s) then start_timer s else s in
  DrainSendQueues s.

Definition OnConsoleCoalesce (s : Service) : Service :=
  let s := FlushConsoleData (s_set_coalesce_running false s) in
  if HasPending s && running_ s then start_timer s else s.

End service.

(** ** Hexadecimal text round trip *)

Lemma hex_value_digit d : 0 <= d < 16 -> hex_value (hex_digit d) = d.
Proof.
  intros Hd. unfold hex_digit. destruct (Z.ltb_spec d 10); unfold hex_value.
  - rewrite (proj2 (Z.leb_le 48 _)), (proj2 (Z.leb_le _ 57)) by lia. cbn [andb]. lia.
  - rewrite (proj2 (Z.leb_gt _ 57)), andb_false_r by lia.
    rewrite (proj2 (Z.leb_le 97 _)), (proj2 (Z.leb_le _ 102)) by lia. cbn [andb]. lia.
Qed.

Lemma nibble_range x : 0 <= x .& 0x0F < 16.
Proof.
  pose proof (Z.land_ones x 4 ltac:(lia)) as H. change (Z.ones 4) with 0x0F in H. rewrite H.
  apply (Z.mod_pos_bound x (2 ^ 4) eq_refl).
Qed.

Lemma nibbles b : in_width 8 b -> u8 ((((b .>> 4) .& 0x0F) .<< 4) .| (b .& 0x0F)) = b.
Proof. intros Hb. change 0x0F with (Z.ones 4). bitwise. Qed.

Lemma DecodeHex_EncodeHex data : bytes_ok data -> DecodeHex (EncodeHex data) = data.
Proof.
  intros Hd. unfold DecodeHex.
  assert (He : Nat.even (length (EncodeHex data)) = true /\ DecodeHex_loop (EncodeHex data) = Some data).
  { induction Hd as [|b data Hb _ [IH1 IH2]]; [done|]. cbn [EncodeHex flat_map app length] in *.
    split; [exact IH1|]. cbn [DecodeHex_loop]. rewrite !hex_value_digit by apply nibble_range.
    rewrite !(proj2 (Z.ltb_ge _ 0)) by apply nibble_range. cbn [orb].
    unfold EncodeHex in IH2. rewrite IH2. cbn [mbind option_bind]. by rewrite nibbles. }
  destruct He as [-> ->]. done.
Qed.

(** ** Replies *)

(** Fields that cross the wire. *)
Definition safe_kv (k v : bytes) : Prop :=
  ch_eq ∉ k /\ k ∉ reserved_keys /\ k <> payload_size_key /\ ch_nl ∉ k /\ ch_nl ∉ v /\ ends_ok v.

Definition is_reply (ty : bytes) (m : Message) (s : Service) (resp : Message) : Prop :=
  version resp = kProtocolVersion /\ channel resp = kControl /\ kind resp = kResponse /\
  type resp = ty /\ vm_id resp = vm_id_ s /\ request_id resp = request_id m /\
  payload resp = [] /\ map_Forall safe_kv (fields resp).

(** The reply each control request asks for. *)
Definition reply_type (ty : bytes) : option bytes :=
  if decide (ty = str "runtime.command") then Some (str "runtime.command.result")
  else if decide (ty = str "runtime.update_network") then Some (str "runtime.update_network.result")
  else if decide (ty = str "runtime.update_shared_folders") then
    Some (str "runtime.update_shared_folders.result")
  else if decide (ty = str "runtime.ping") then Some (str "runtime.pong")
  else None.

Lemma reply_type_text ty rt :
  reply_type ty = Some rt -> ch_nl ∉ rt /\ rt <> [].
Proof.
  unfold reply_type. case_ifs; intros Hrt; simplify_eq; (split; [by apply find_byte_None|discriminate]).
Qed.

Lemma is_reply_stream_ok ty m s resp :
  is_reply ty m s resp -> ch_nl ∉ ty -> ty <> [] -> ch_nl ∉ vm_id_ s -> in_width 64 (request_id m) ->
  stream_ok resp.
Proof.
  intros (Hv & Hc & Hk & Ht & Hvm & Hr & Hp & Hf) Hty Hne Hnl Hw.
  unfold stream_ok, wire_ok. rewrite Ht, Hvm, Hr, Hp. split_and!; try done.
  - intros k v Hkv. by destruct (Hf k v Hkv) as (? & ? & _).
  - right. intros k v Hkv. by destruct (Hf k v Hkv) as (_ & _ & _ & _ & _ & ?).
  - intros k v Hkv. by destruct (Hf k v Hkv) as (_ & _ & _ & ? & ? & _).
  - destruct (fields resp !! payload_size_key) eqn:E; [|done].
    by destruct (Hf _ _ E) as (_ & _ & ? & _).
Qed.

Lemma is_reply_response m ty s : is_reply ty m s (response m ty s).
Proof. unfold is_reply. by split_and!. Qed.

Lemma is_reply_set_field ty m s resp k v :
  is_reply ty m s resp -> safe_kv k v -> is_reply ty m s (set_field k v resp).
Proof.
  intros (? & ? & ? & ? & ? & ? & ? & ?) Hkv. unfold is_reply. split_and!; try done.
  by apply map_Forall_insert_2.
Qed.

(** A concrete field. *)
Ltac safe_dec := unfold safe_kv, ends_ok; split_and!;
  first [ by apply find_byte_None | apply (bool_decide_unpack _); vm_compute; exact I ].

Ltac reply_dec :=
  repeat first [ apply is_reply_response | apply is_reply_set_field; [|safe_dec] ].

Lemma is_reply_shift ty m s s' resp :
  vm_id_ s' = vm_id_ s -> is_reply ty m s resp -> is_reply ty m s' resp.
Proof. intros Hvm (? & ? & ? & ? & Hv & ? & ? & ?). unfold is_reply. rewrite Hvm. done. Qed.

Section replies.
  Context (iterate : gmap bytes bytes -> list (bytes * bytes)).

Lemma wakeup_frame s :
  console_queue_ (wakeup s) = console_queue_ s /\ vm_id_ (wakeup s) = vm_id_ s /\
  pipe_connected_ (wakeup s) = pipe_connected_ s /\ audio_queue_ (wakeup s) = audio_queue_ s /\
  frame_queue_ (wakeup s) = frame_queue_ s.
Proof. unfold wakeup. by destruct (running_ s). Qed.

Lemma Send_queue m s :
  console_queue_ (Send iterate m s) = console_queue_ s ++ [Encode iterate m].
Proof. unfold Send. by destruct (wakeup_frame (s_set_console_queue (console_queue_ s ++ [Encode iterate m]) s)) as [-> _]. Qed.

(** Only the console queue and the effects change. *)
Definition same_io (s s' : Service) : Prop :=
  vm_id_ s' = vm_id_ s /\ running_ s' = running_ s /\ pipe_connected_ s' = pipe_connected_ s /\
  audio_queue_ s' = audio_queue_ s /\ frame_queue_ s' = frame_queue_ s /\
  pending_write_ s' = pending_write_ s.

Lemma same_io_refl s : same_io s s.
Proof. done. Qed.
Lemma same_io_call c s s' : same_io s s' -> same_io s (call c s').
Proof. done. Qed.
Lemma same_io_Send m s s' : same_io s s' -> same_io s (Send iterate m s').
Proof. intros H. unfold Send, wakeup. by case_match. Qed.

Lemma same_io_command env m s : same_io s (handle_command iterate env m s).
Proof.
  unfold handle_command. destruct (fields m !! str "command") as [cmd|]; [|by apply same_io_Send].
  repeat case_decide; repeat case_match; simplify_eq; by apply same_io_Send.
Qed.

Lemma same_io_calls calls s s0 :
  same_io s s0 -> same_io s (foldl (fun s c => call c s) s0 calls).
Proof. revert s0. induction calls as [|c calls IH]; intros s0 H0; [done|]. by apply IH. Qed.

Lemma same_io_folders env m s : same_io s (handle_update_shared_folders iterate env m s).
Proof.
  unfold handle_update_shared_folders. destruct (vm_attached s); cbn [negb]; [|by apply same_io_Send].
  destruct (fields m !! _); [|by apply same_io_Send].
  destruct (count_of _); [|by apply same_io_Send].
  by apply same_io_Send, same_io_calls.
Qed.

(** [s'] answers [m] for a service in state [s]: one reply is queued. *)
Definition replied (ty : bytes) (m : Message) (s s' : Service) : Prop :=
  exists resp, is_reply ty m s resp /\ console_queue_ s' = console_queue_ s ++ [Encode iterate resp].

Lemma replied_Send ty m s s1 resp :
  is_reply ty m s resp -> console_queue_ s1 = console_queue_ s -> replied ty m s (Send iterate resp s1).
Proof. intros Hr Hq. exists resp. split; [done|]. by rewrite Send_queue, Hq. Qed.

Lemma handle_command_replies env m s :
  replied (str "runtime.command.result") m s (handle_command iterate env m s).
Proof.
  unfold handle_command. destruct (fields m !! str "command") as [cmd|].
  - repeat case_decide; repeat case_match; simplify_eq; apply replied_Send; solve [reply_dec | done].
  - apply replied_Send; [reply_dec|done].
Qed.

Lemma foldl_call_frame l s :
  console_queue_ (foldl (fun s c => call c s) s l) = console_queue_ s /\
  vm_id_ (foldl (fun s c => call c s) s l) = vm_id_ s.
Proof. revert s. induction l as [|c l IH]; intros s; [done|]. cbn [foldl]. by destruct (IH (call c s)) as [-> ->]. Qed.

Lemma handle_update_shared_folders_replies env m s :
  replied (str "runtime.update_shared_folders.result") m s (handle_update_shared_folders iterate env m s).
Proof.
  unfold handle_update_shared_folders. destruct (vm_attached s); cbn [negb].
  2:{ apply replied_Send; [reply_dec|done]. }
  destruct (fields m !! _); [|apply replied_Send; [reply_dec|done]].
  destruct (count_of _); [|apply replied_Send; [reply_dec|done]].
  apply replied_Send; [reply_dec|apply foldl_call_frame].
Qed.

Lemma failed_field_safe i p : 0 <= p < 2 ^ 16 -> Z.of_nat i < 2 ^ 64 ->
  safe_kv (str "failed_" ++ to_dec (Z.of_nat i)) (to_dec p).
Proof.
  intros Hp Hi. assert (Hw : in_width 64 p) by (unfold in_width; lia).
  assert (Hwi : in_width 64 (Z.of_nat i)) by (unfold in_width; lia).
  unfold safe_kv. rewrite !not_elem_of_app. split_and!; try (by apply find_byte_None);
    try (by apply to_dec_not_in); [| |by apply to_dec_ends].
  - unfold reserved_keys. rewrite !not_elem_of_cons. split_and!; try discriminate. apply not_elem_of_nil.
  - discriminate.
Qed.

Lemma update_network_reply_replies m s s' ports :
  vm_id_ s' = vm_id_ s ->
  Forall (fun p => 0 <= p < 2 ^ 16) ports -> Z.of_nat (length ports) < 2 ^ 64 ->
  exists resp, is_reply (str "runtime.update_network.result") m s resp /\
    console_queue_ (update_network_reply iterate (request_id m) ports s')
    = console_queue_ s' ++ [Encode iterate resp].
Proof.
  intros Hvm Hp Hl. unfold update_network_reply. rewrite Hvm.
  change (mkMessage kProtocolVersion kControl kResponse (str "runtime.update_network.result")
            (vm_id_ s) (request_id m) ∅ []) with (response m (str "runtime.update_network.result") s).
  eexists. split; [|apply Send_queue]. destruct ports as [|p0 ports]; [reply_dec|].
  set (l := p0 :: ports) in *.
  assert (H0 : is_reply (str "runtime.update_network.result") m s
    (set_field (str "failed_count") (to_dec (Z.of_nat (length l)))
       (set_field (str "ok") (str "false") (response m (str "runtime.update_network.result") s)))).
  { apply is_reply_set_field; [reply_dec|].
    assert (in_width 64 (Z.of_nat (length l))) by (unfold in_width; lia).
    unfold safe_kv. split_and!; first [by apply find_byte_None | by apply to_dec_not_in
      | by apply to_dec_ends | apply (bool_decide_unpack _); vm_compute; exact I]. }
  revert H0. generalize (set_field (str "failed_count") (to_dec (Z.of_nat (length l)))
       (set_field (str "ok") (str "false") (response m (str "runtime.update_network.result") s))).
  assert (Hz : Forall (fun '(i, p) => 0 <= p < 2 ^ 16 /\ Z.of_nat i < 2 ^ 64) (zip (seq 0 (length l)) l)).
  { apply Forall_forall. intros [i p] Hin. split.
    - pose proof (elem_of_zip_r _ _ _ _ Hin) as Hi. by apply (proj1 (Forall_forall _ _) Hp).
    - apply elem_of_zip_l, elem_of_seq in Hin. lia. }
  induction Hz as [|[i p] z [Hp1 Hi1] _ IH]; intros r Hr; cbn [foldl]; [done|].
  apply IH, is_reply_set_field; [done|by apply failed_field_safe].
Qed.

(** Evaluates the comparisons of closed terms. *)
Ltac decide_closed :=
  repeat match goal with
  | |- context [bool_decide (?a = ?b)] =>
      let v := eval vm_compute in (bool_decide (a = b)) in
      lazymatch v with
      | true => change (bool_decide (a = b)) with true
      | false => change (bool_decide (a = b)) with false
      end
  end.

Lemma HandleMessage_control env m s ty :
  channel m = kControl -> kind m = kRequest -> reply_type (type m) = Some ty ->
  exists s', HandleMessage iterate env m s = Some s' /\
  (type m = str "runtime.command" /\ ty = str "runtime.command.result" /\
     s' = handle_command iterate env m s \/
   type m = str "runtime.update_network" /\ ty = str "runtime.update_network.result" /\
     s' = handle_update_network iterate m s \/
   type m = str "runtime.update_shared_folders" /\ ty = str "runtime.update_shared_folders.result" /\
     s' = handle_update_shared_folders iterate env m s \/
   type m = str "runtime.ping" /\ ty = str "runtime.pong" /\
     s' = Send iterate (response m (str "runtime.pong") s) s).
Proof.
  intros Hc Hk Hrt. unfold reply_type in Hrt.
  destruct (decide (type m = str "runtime.command")) as [Ht|_];
    [|destruct (decide (type m = str "runtime.update_network")) as [Ht|_];
    [|destruct (decide (type m = str "runtime.update_shared_folders")) as [Ht|_];
    [|destruct (decide (type m = str "runtime.ping")) as [Ht|_]; [|discriminate Hrt]]]];
    injection Hrt as <-; unfold HandleMessage; rewrite Hc, Hk, Ht;
    decide_closed; cbn [andb]; (eexists; split; [reflexivity|]); auto 10.
Qed.

(** Every control request is answered exactly once under its own request
    id: at once, or by the callback of the forward update it started, as
    the last thing it did. *)
Theorem control_request_replied env m s ty :
  channel m = kControl -> kind m = kRequest -> reply_type (type m) = Some ty ->
  exists s', HandleMessage iterate env m s = Some s' /\
  (replied ty m s s' \/
   type m = str "runtime.update_network" /\ console_queue_ s' = console_queue_ s /\
   (exists fwd, last (effects s') = Some (vm_call (UpdateHostForwards fwd (request_id m)))) /\
   forall ports, Forall (fun p => 0 <= p < 2 ^ 16) ports -> Z.of_nat (length ports) < 2 ^ 64 ->
     exists resp, is_reply ty m s resp /\
       console_queue_ (update_network_reply iterate (request_id m) ports s')
       = console_queue_ s' ++ [Encode iterate resp]).
Proof.
  intros Hc Hk Hrt. destruct (HandleMessage_control env m s ty Hc Hk Hrt)
    as (s' & Hs' & [(Ht & -> & ->)|[(Ht & -> & ->)|[(Ht & -> & ->)|(Ht & -> & ->)]]]);
    (eexists; split; [exact Hs'|]).
  - left. apply handle_command_replies.
  - unfold handle_update_network. destruct (vm_attached s) eqn:Ea; cbn [negb].
    2:{ left. apply replied_Send; [reply_dec|done]. }
    right. split_and!; [done|by repeat case_match| |].
    + eexists. unfold call at 1, emit. cbn [effects s_set_effects]. by rewrite last_snoc.
    + intros ports Hp Hl. apply update_network_reply_replies; [by repeat case_match|done..].
  - left. apply handle_update_shared_folders_replies.
  - left. apply replied_Send; [reply_dec|done].
Qed.

(** ** Sending *)

(** What the queues hold, decoded. *)
Definition queued (s : Service) (console audio frames : list Message) : Prop :=
  console_queue_ s = map (Encode iterate) console /\
  audio_queue_ s = map (Encode iterate) audio /\
  frame_queue_ s = map (Encode iterate) frames.

Hypothesis iterate_perm : forall fs, iterate fs ≡ₚ map_to_list fs.

(** A drain empties the queues into one write, and whatever pieces the pipe
    delivers that write in, the manager handles exactly the messages queued:
    the console queue's first, then audio, then frames, each in order. *)
Theorem DrainSendQueues_delivers s console audio frames :
  pipe_connected_ s = true -> queued s console audio frames ->
  Forall stream_ok (console ++ audio ++ frames) ->
  console ++ audio ++ frames <> [] ->
  exists batch msg',
    DrainSendQueues s = emit (write_pipe batch) (s_set_frame_queue [] (s_set_audio_queue [] (s_set_console_queue [] s)))
    /\ forall reads, concat reads = batch ->
         OnPipeReads Recv_init reads = (mkRecv [] 0 msg', console ++ audio ++ frames).
Proof.
  intros Hp (Hc & Ha & Hf) Hok Hne. unfold DrainSendQueues. rewrite Hc, Ha, Hf.
  assert (Hbatch : concat (map (Encode iterate) console) ++ concat (map (Encode iterate) audio)
      ++ concat (map (Encode iterate) frames) = concat (map (Encode iterate) (console ++ audio ++ frames)))
    by (by rewrite !map_app, !concat_app).
  rewrite Hbatch.
  destruct (recv_run_messages iterate iterate_perm _ Message_default Hok) as (msg' & Hrun).
  eexists _, msg'. split.
  - unfold WriteRaw. cbn [pipe_connected_ s_set_frame_queue s_set_audio_queue s_set_console_queue].
    rewrite Hp. cbn [negb orb]. rewrite bool_decide_eq_false_2; [reflexivity|].
    intros He. destruct (console ++ audio ++ frames) as [|m ms]; [done|]. cbn [map concat] in He.
    apply app_nil in He as [He _]. by apply Encode_not_nil in He.
  - intros reads Hr. rewrite OnPipeReads_run, Hr by done. exact Hrun.
Qed.

Lemma control_same_io env m s s' ty :
  channel m = kControl -> kind m = kRequest -> reply_type (type m) = Some ty ->
  type m <> str "runtime.update_network" ->
  HandleMessage iterate env m s = Some s' -> same_io s s'.
Proof.
  intros Hc Hk Hrt Hnet Hs. destruct (HandleMessage_control env m s ty Hc Hk Hrt)
    as (s1 & Hs1 & [(Ht & _ & ->)|[(Ht & _ & _)|[(Ht & _ & ->)|(Ht & _ & ->)]]]);
    [| by destruct (Hnet Ht) | |]; rewrite Hs in Hs1; injection Hs1 as ->.
  - apply same_io_command.
  - apply same_io_folders.
  - by apply same_io_Send.
Qed.

(** C23. A control request is answered.  However the bytes of a request, other
    than an update of the network, are cut into reads, the idle, connected
    service receives exactly that request; handling it is followed, at the
    wake-up it causes, by a write that the manager decodes, however it
    arrives, to exactly one message: the reply under the request's id.  The
    request is one that can be sent in a stream ([stream_ok]), and the id of
    the VM has no newline. *)
Theorem request_roundtrip env m s ty sender_order request_reads :
  channel m = kControl -> kind m = kRequest -> reply_type (type m) = Some ty ->
  type m <> str "runtime.update_network" ->
  stream_ok m -> (forall fs, sender_order fs ≡ₚ map_to_list fs) -> concat request_reads = Encode sender_order m ->
  ch_nl ∉ vm_id_ s -> pipe_connected_ s = true -> queued s [] [] [] -> pending_write_ s = [] ->
  exists msg s' resp batch msg',
    OnPipeReads Recv_init request_reads = (mkRecv [] 0 msg, [m]) /\
    HandleMessage iterate env m s = Some s' /\ is_reply ty m s resp /\
    last (effects (OnSendWakeup s')) = Some (write_pipe batch) /\
    forall reads, concat reads = batch -> OnPipeReads Recv_init reads = (mkRecv [] 0 msg', [resp]).
Proof.
  intros Hc Hk Hrt Hnet Hm Hperm Hreads Hvm Hpipe (Hq & Ha & Hf) Hpend.
  assert (Hid : in_width 64 (request_id m)) by apply Hm.
  assert (Hin : exists msg, OnPipeReads Recv_init request_reads = (mkRecv [] 0 msg, [m])).
  { destruct (recv_run_messages sender_order Hperm [m] (recv_pending_msg Recv_init)) as (msg & Hrun); [by apply Forall_singleton|].
    exists msg. rewrite OnPipeReads_run by done. rewrite <- Hrun, Hreads. cbn [map concat]. by rewrite app_nil_r. }
  destruct Hin as (msg & Hin).
  destruct (control_request_replied env m s ty Hc Hk Hrt) as (s' & Hs' & [Hrep|(? & _)]); [|done].
  destruct Hrep as (resp & Hr & Hcq).
  assert (Hio : same_io s s') by (by eapply control_same_io).
  destruct Hio as (Hvm' & _ & Hpipe' & Ha' & Hf' & Hpend').
  destruct (reply_type_text _ _ Hrt) as [Hnl Hne].
  assert (Hok : Forall stream_ok ([resp] ++ [] ++ [])).
  { constructor; [|done]. by eapply is_reply_stream_ok. }
  assert (Hqd : queued s' [resp] [] []).
  { unfold queued. rewrite Hcq, Ha', Hf', Hq. done. }
  assert (Hw : OnSendWakeup s' = DrainSendQueues s').
  { unfold OnSendWakeup, HasPending. by rewrite Hpend', Hpend. }
  destruct (DrainSendQueues_delivers s' [resp] [] [] ltac:(congruence) Hqd Hok) as (batch & msg' & Hd & Hall);
    [done|].
  exists msg, s', resp, batch, msg'. split_and!; [done|done|done| |exact Hall].
  rewrite Hw, Hd. unfold emit. cbn [effects s_set_effects]. by rewrite last_snoc.
Qed.

(** *** Console output *)

Lemma hex_digit_text d c : 0 <= d < 16 -> c <= 47 -> c <> hex_digit d.
Proof. intros Hd Hc. unfold hex_digit. destruct (Z.ltb_spec d 10); lia. Qed.

Lemma EncodeHex_text data c : c <= 47 -> c ∉ EncodeHex data.
Proof.
  intros Hc. induction data as [|b data IH]; cbn [EncodeHex flat_map app]; [apply not_elem_of_nil|].
  rewrite !not_elem_of_cons.
  split_and!; [apply hex_digit_text; [apply nibble_range|exact Hc]..|exact IH].
Qed.

Lemma EncodeHex_ends data : ends_ok (EncodeHex data).
Proof.
  split; intros Hl%last_Some_elem_of; revert Hl; apply EncodeHex_text; unfold ch_nl, ch_cr; lia.
Qed.

Lemma writes_pending ds s :
  pending_write_ (foldl (fun s d => ConsolePort_Write d s) s ds) = pending_write_ s ++ concat ds /\
  pipe_connected_ (foldl (fun s d => ConsolePort_Write d s) s ds) = pipe_connected_ s /\
  vm_id_ (foldl (fun s d => ConsolePort_Write d s) s ds) = vm_id_ s /\
  next_event_id_ (foldl (fun s d => ConsolePort_Write d s) s ds) = next_event_id_ s.
Proof.
  revert s. induction ds as [|d ds IH]; intros s; cbn [foldl concat]; [by rewrite app_nil_r|].
  destruct (IH (ConsolePort_Write d s)) as (-> & -> & -> & ->). rewrite app_assoc.
  unfold ConsolePort_Write, wakeup. destruct d as [|b d]; [by rewrite app_nil_r|].
  by repeat case_match.
Qed.

Lemma FlushConsoleData_pending s :
  pending_write_ s <> [] ->
  FlushConsoleData iterate s
  = WriteRaw (Encode iterate (set_field (str "data_hex") (EncodeHex (pending_write_ s))
      (mkMessage kProtocolVersion kConsole kEvent (str "console.data") (vm_id_ s) (next_event_id_ s) ∅ [])))
      (s_set_next_event_id (u64 (next_event_id_ s + 1)) (s_set_pending_write [] s)).
Proof.
  intros Hp. unfold FlushConsoleData, FlushPending, event. by destruct (pending_write_ s).
Qed.

(** What the guest writes to its console, in however many pieces, reaches
    the manager byte for byte: one flush sends one message whose
    hexadecimal text decodes to all of it, in order. *)
Theorem console_output_delivered ds s :
  concat ds <> [] -> bytes_ok (concat ds) -> pending_write_ s = [] ->
  pipe_connected_ s = true -> ch_nl ∉ vm_id_ s -> in_width 64 (next_event_id_ s) ->
  let s' := FlushConsoleData iterate (foldl (fun s d => ConsolePort_Write d s) s ds) in
  pending_write_ s' = [] /\
  exists batch ev msg',
    last (effects s') = Some (write_pipe batch) /\
    channel ev = kConsole /\ type ev = str "console.data" /\
    (fun v => DecodeHex v) <$> fields ev !! str "data_hex" = Some (concat ds) /\
    forall reads, concat reads = batch -> OnPipeReads Recv_init reads = (mkRecv [] 0 msg', [ev]).
Proof.
  intros Hne Hb Hpend Hpipe Hvm Hid s'.
  destruct (writes_pending ds s) as (Hp & Hpi & Hv & Hn). rewrite Hpend in Hp. cbn [app] in Hp.
  set (ev := set_field (str "data_hex") (EncodeHex (concat ds))
    (mkMessage kProtocolVersion kConsole kEvent (str "console.data") (vm_id_ s) (next_event_id_ s) ∅ [])).
  assert (Hok : stream_ok ev).
  { unfold stream_ok, wire_ok. cbn. split_and!; try done.
    - apply map_Forall_insert_2; [|apply map_Forall_empty]. split; [by apply find_byte_None|].
      apply (bool_decide_unpack _). vm_compute. exact I.
    - right. apply map_Forall_insert_2; [apply EncodeHex_ends|apply map_Forall_empty].
    - by apply find_byte_None.
    - apply map_Forall_insert_2; [|apply map_Forall_empty].
      split; [by apply find_byte_None|]. apply EncodeHex_text. unfold ch_nl. lia. }
  destruct (recv_run_messages iterate iterate_perm [ev] Message_default) as (msg' & Hrun);
    [by constructor|].
  assert (Hs' : s' = emit (write_pipe (Encode iterate ev))
    (s_set_next_event_id (u64 (next_event_id_ s + 1))
      (s_set_pending_write [] (foldl (fun s d => ConsolePort_Write d s) s ds)))).
  { subst s' ev. rewrite FlushConsoleData_pending by (by rewrite Hp). rewrite Hp, Hv, Hn.
    unfold WriteRaw. cbn [pipe_connected_ s_set_pending_write s_set_next_event_id].
    rewrite Hpi, Hpipe. cbn [negb orb]. by rewrite bool_decide_eq_false_2 by apply Encode_not_nil. }
  rewrite Hs'. split; [done|]. exists (Encode iterate ev), ev, msg'. split_and!; try done.
  - unfold emit. cbn [effects s_set_effects]. by rewrite last_snoc.
  - subst ev. cbn [fields set_field set_fields]. rewrite lookup_insert_eq. cbn.
    by rewrite DecodeHex_EncodeHex.
  - intros reads Hr. rewrite OnPipeReads_run, Hr by done. rewrite <- Hrun. cbn [map concat].
    by rewrite app_nil_r.
Qed.

(** Console input travels the other way: the hexadecimal text the manager
    sends is injected as the bytes it stands for. *)
Theorem console_input_injected env m s data :
  channel m = kConsole -> kind m = kRequest -> type m = str "console.input" ->
  fields m !! str "data_hex" = Some (EncodeHex data) -> bytes_ok data -> data <> [] ->
  HandleMessage iterate env m s =
    Some (if port_callbacks s then call (InjectConsoleBytes data) s
          else s_set_port_queue (port_queue_ s ++ data) s).
Proof.
  intros Hc Hk Ht Hf Hb Hne. unfold HandleMessage. rewrite Hc, Hk, Ht. decide_closed. cbn [andb].
  rewrite Hf, DecodeHex_EncodeHex by done. unfold PushInput. destruct data; [done|]. reflexivity.
Qed.
End replies.

(** ** Shared folders *)

Lemma find_NoDup l f :
  NoDup (map tag l) -> In f l -> List.find (fun n => bool_decide (tag n = tag f)) l = Some f.
Proof.
  induction l as [|g l IH]; [done|]. cbn [map List.find]. rewrite NoDup_cons. intros [Hg Hl].
  intros [->|Hin]; [by rewrite bool_decide_eq_true_2|].
  rewrite bool_decide_eq_false_2; [by apply IH|]. intros Heq. apply Hg. rewrite Heq.
  apply list_elem_of_In, in_map, Hin.
Qed.

(** The calls an update makes: a mounted share is removed exactly if the new
    list does not have it as it is, and a share of the new list is added
    exactly if no share of its tag stays. *)
Lemma folder_calls_spec current new_folders :
  NoDup (map tag current) ->
  (forall t, RemoveSharedFolder t ∈ folder_calls current new_folders
     <-> exists f, In f current /\ tag f = t /\ folder_stale new_folders f = true)
  /\ (forall f, AddSharedFolder f ∈ folder_calls current new_folders
     <-> In f new_folders /\ forall g, In g current -> tag g = tag f -> folder_stale new_folders g = true).
Proof.
  intros Hnd. unfold folder_calls. set (stale := List.filter (folder_stale new_folders) current).
  set (kept := List.filter (fun cf => negb (bool_decide (tag cf ∈ map tag stale))) current).
  assert (Hstale : forall f, In f current -> tag f ∈ map tag stale <-> folder_stale new_folders f = true).
  { intros f Hf. rewrite list_elem_of_In, in_map_iff. split; [|intros Hs; exists f; split; [done|by apply List.filter_In]].
    intros (g & Ht & [Hg Hs]%List.filter_In).
    pose proof (find_NoDup _ _ Hnd Hf) as H1. pose proof (find_NoDup _ _ Hnd Hg) as H2. rewrite Ht in H2. congruence. }
  split; intros x; rewrite elem_of_app, !list_elem_of_In, !in_map_iff.
  - split; [intros [(f & [= <-] & [Hf Hs]%List.filter_In)|(? & ? & _)]; [by exists f|done]|].
    intros (f & Hf & <- & Hs). left. exists f. split; [done|by apply List.filter_In].
  - assert (Hkept : tag x ∉ map tag kept <-> forall g, In g current -> tag g = tag x -> folder_stale new_folders g = true).
    { rewrite list_elem_of_In, in_map_iff. split.
      - intros Hn g Hg Ht. destruct (folder_stale new_folders g) eqn:Hs; [done|]. destruct Hn. exists g. split; [done|].
        apply List.filter_In. split; [done|]. apply negb_true_iff, bool_decide_eq_false. rewrite Hstale by done. congruence.
      - intros Hall (g & Ht & [Hg Hn]%List.filter_In). apply negb_true_iff, bool_decide_eq_false in Hn. by apply Hn, Hstale, Hall. }
    rewrite <- Hkept. split.
    + intros [(? & ? & _)|(f & [= ->] & [Hf Hn]%List.filter_In)]; [done|]. by apply negb_true_iff, bool_decide_eq_false in Hn.
    + intros [Hf Hn]. right. exists x. split; [done|]. apply List.filter_In. split; [done|]. by apply negb_true_iff, bool_decide_eq_false.
Qed.

(** ** At concrete inputs *)

Definition sample_service : Service :=
  s_set_running true (s_set_pipe_connected true (AttachVm true (Service_new (str "vm-1")))).

Definition sample_request (ty : bytes) (fs : gmap bytes bytes) : Message :=
  mkMessage 1 kControl kRequest ty (str "vm-1") 42 fs [].

Definition sample_env : Env := mkEnv false [] 64.

Lemma request_roundtrip_witness :
  let m := sample_request (str "runtime.command") {[str "command" := str "reboot"]} in
  exists msg s' resp batch msg',
    OnPipeReads Recv_init (map (fun b => [b]) (Encode map_to_list m)) = (mkRecv [] 0 msg, [m]) /\
    HandleMessage map_to_list sample_env m sample_service = Some s' /\
    is_reply (str "runtime.command.result") m sample_service resp /\
    last (effects (OnSendWakeup s')) = Some (write_pipe batch) /\
    forall reads, concat reads = batch -> OnPipeReads Recv_init reads = (mkRecv [] 0 msg', [resp]).
Proof.
  apply (request_roundtrip map_to_list ltac:(done) sample_env _ _ _ map_to_list); try done.
  - stream_dec.
  - by apply find_byte_None.
Defined.

Lemma control_request_replied_witness :
  let m := sample_request (str "runtime.update_network")
             {[str "forward_count" := str "1"; str "forward_0" := str "8080:80"]} in
  exists s', HandleMessage map_to_list sample_env m sample_service = Some s' /\
  (replied map_to_list (str "runtime.update_network.result") m sample_service s' \/
   type m = str "runtime.update_network" /\ console_queue_ s' = console_queue_ sample_service /\
   (exists fwd, last (effects s') = Some (vm_call (UpdateHostForwards fwd (request_id m)))) /\
   forall ports, Forall (fun p => 0 <= p < 2 ^ 16) ports -> Z.of_nat (length ports) < 2 ^ 64 ->
     exists resp, is_reply (str "runtime.update_network.result") m sample_service resp /\
       console_queue_ (update_network_reply map_to_list (request_id m) ports s')
       = console_queue_ s' ++ [Encode map_to_list resp]).
Proof. by apply (control_request_replied map_to_list). Defined.

Lemma console_output_delivered_witness :
  let ds := [str "log"; str "in: "; [10]] in
  let s' := FlushConsoleData map_to_list (foldl (fun s d => ConsolePort_Write d s) sample_service ds) in
  pending_write_ s' = [] /\
  exists batch ev msg',
    last (effects s') = Some (write_pipe batch) /\
    channel ev = kConsole /\ type ev = str "console.data" /\
    (fun v => DecodeHex v) <$> fields ev !! str "data_hex" = Some (concat ds) /\
    forall reads, concat reads = batch -> OnPipeReads Recv_init reads = (mkRecv [] 0 msg', [ev]).
Proof.
  apply (console_output_delivered map_to_list ltac:(done)); try done.
  - repeat constructor; by vm_compute.
  - by apply find_byte_None.
Defined.

Example reboot_without_agent :
  effects <$> HandleMessage map_to_list sample_env
    (sample_request (str "runtime.command") {[str "command" := str "reboot"]}) sample_service
  = Some [vm_call RequestStop; wake].
Proof. vm_compute. reflexivity. Qed.

Example shared_folders_ok :
  effects <$> HandleMessage map_to_list sample_env
    (sample_request (str "runtime.update_shared_folders")
       {[str "folder_count" := str "1"; str "folder_0" := str "w|/home/u|1"]}) sample_service
  = Some [vm_call (AddSharedFolder (mkFolder (str "w") (str "/home/u") true)); wake].
Proof. vm_compute. reflexivity. Qed.
