(* ===== verification/VirtioFs.v ===== *)
(** * The shared-folder device

    Models core/device/virtio/virtio_fs.{h,cpp} as built for Unix hosts: a
    FUSE server that gives the guest the host directories mounted as shares,
    under a virtual root directory whose entries are the share tags.

    The host's file system is not modelled: a system call is an element of
    [HostCall], its answer is that of an arbitrary [os], and the calls a
    request makes are recorded in the trace of its state.  [pread], [pwrite]
    and [fsync] act on a descriptor; their element also names the path the
    descriptor was opened with, which the code keeps in its [FileHandle].
    Handlers run in a state monad; [None] is undefined behaviour of the C++
    program, in this file reads past the end of the request.  Requests are
    taken one by one, not interleaved with the share management of other
    threads, and the 64-bit node counter is taken not to overflow.

    [requests_confined]: whatever the guest sends, every path handed to the
    host is, as a string, inside the directory of a mounted share, and every
    call that changes something is inside a writable one.  The examples at
    the end show what that does not exclude: components [..] and the entry
    of that name in listings, renames across shares, and writes that send
    memory behind the request to the host file. *)

From S2P Require Import Prelude.
From S2P Require Import StdString.
From S2P Require Import GuestMem.
From S2P Require Import VirtQueue.
From S2P Require Import VirtioMmio.

(** ** Constants *)

Definition kPathSep : Z := 47.
Definition VIRTUAL_ROOT_INODE : Z := 1.

Definition FUSE_LOOKUP := 1.
Definition FUSE_FORGET := 2.
Definition FUSE_GETATTR := 3.
Definition FUSE_SETATTR := 4.
Definition FUSE_MKDIR := 9.
Definition FUSE_UNLINK := 10.
Definition FUSE_RMDIR := 11.
Definition FUSE_RENAME := 12.
Definition FUSE_OPEN := 14.
Definition FUSE_READ := 15.
Definition FUSE_WRITE := 16.
Definition FUSE_STATFS := 17.
Definition FUSE_RELEASE := 18.
Definition FUSE_FSYNC := 20.
Definition FUSE_FLUSH := 25.
Definition FUSE_INIT := 26.
Definition FUSE_OPENDIR := 27.
Definition FUSE_READDIR := 28.
Definition FUSE_RELEASEDIR := 29.
Definition FUSE_FSYNCDIR := 30.
Definition FUSE_ACCESS := 34.
Definition FUSE_CREATE := 35.
Definition FUSE_DESTROY := 38.
Definition FUSE_READDIRPLUS := 44.
Definition FUSE_RENAME2 := 45.

Definition FUSE_OK := 0.
Definition FUSE_ENOENT := -2.
Definition FUSE_EACCES := -13.
Definition FUSE_ENOTDIR := -20.
Definition FUSE_EROFS := -30.
Definition FUSE_ENOSYS := -38.

Definition FUSE_S_IFDIR := 0x4000.
Definition FUSE_S_IFREG := 0x8000.
Definition FUSE_S_IFLNK := 0xA000.

Definition FATTR_SIZE := 8.
Definition FATTR_ATIME := 16.
Definition FATTR_MTIME := 32.

(** ** The host's system calls *)

Inductive HostCall :=
  | call_stat (p : bytes)
  | call_open (p : bytes) (oflags : Z)
  | call_create (p : bytes) (mode : Z)           (* O_CREAT | O_EXCL | O_RDWR *)
  | call_truncate (p : bytes) (size : Z)
  | call_utimes (p : bytes) (times : Z * Z * Z * Z)
  | call_pread (p : bytes) (fd size off : Z)
  | call_pwrite (p : bytes) (fd : Z) (data : bytes) (off : Z)
  | call_fsync (p : bytes) (fd : Z)
  | call_close (fd : Z)
  | call_readdir (p : bytes)                     (* opendir, readdir to the end *)
  | call_mkdir (p : bytes) (mode : Z)
  | call_unlink (p : bytes)
  | call_rmdir (p : bytes)
  | call_rename (p q : bytes)
  | call_statvfs (p : bytes)
  | call_time.

Record Stat := MkStat {
  st_size : Z; st_blocks : Z; st_nlink : Z; st_mode : Z;
  st_atime : Z * Z; st_mtime : Z * Z; st_ctime : Z * Z (* seconds, nanoseconds *) }.

Inductive DType := DT_UNKNOWN | DT_DIR | DT_OTHER.

Record StatVfs := MkStatVfs { f_bsize : Z; f_frsize : Z; f_blocks : Z; f_bfree : Z; f_bavail : Z }.

(** What each call answers; [inl] is an errno. *)
Definition Reply (c : HostCall) : Type :=
  match c with
  | call_stat _ => Z + Stat
  | call_open _ _ | call_create _ _ => Z + Z
  | call_truncate _ _ | call_utimes _ _ | call_fsync _ _ | call_close _ => unit
  | call_pread _ _ _ _ => Z + bytes
  | call_pwrite _ _ _ _ => Z + Z
  | call_readdir _ => Z + list (bytes * DType)
  | call_mkdir _ _ | call_unlink _ | call_rmdir _ | call_rename _ _ => Z + unit
  | call_statvfs _ => Z + StatVfs
  | call_time => Z
  end.

Definition S_ISDIR (st : Stat) : bool := st_mode st .& 0xF000 =? 0x4000.
Definition S_ISLNK (st : Stat) : bool := st_mode st .& 0xF000 =? 0xA000.
Definition S_IWUSR := 128.

(** ** The device's tables *)

Record ShareInfo := MkShare { si_host_path : bytes; si_readonly : bool; si_root_inode : Z }.

Record InodeInfo := MkInode {
  ii_host_path : bytes; ii_nlookup : Z; ii_is_dir : bool; ii_share_tag : bytes }.

(** [InodeInfo()], what [inodes_[i]] creates. *)
Definition InodeInfo_default : InodeInfo := MkInode [] 0 false [].

(** [fh_handle] is [None] for [FS_INVALID_HANDLE]. *)
Record FileHandle := MkHandle {
  fh_handle : option Z; fh_is_dir : bool; fh_path : bytes; fh_share_tag : bytes }.

Record Fs := MkFs {
  shares_ : gmap bytes ShareInfo;
  inodes_ : gmap Z InodeInfo;
  path_to_inode_ : gmap bytes Z;
  file_handles_ : gmap Z FileHandle;
  next_inode_ : Z;
  next_fh_ : Z;
  shares_version_ : Z;
  virtual_root_mtime_ : Z;
  initialized_ : bool
}.

Definition f_set_shares (v : gmap bytes ShareInfo) (s : Fs) : Fs :=
  MkFs v (inodes_ s) (path_to_inode_ s) (file_handles_ s) (next_inode_ s) (next_fh_ s)
    (shares_version_ s) (virtual_root_mtime_ s) (initialized_ s).
Definition f_set_inodes (v : gmap Z InodeInfo) (s : Fs) : Fs :=
  MkFs (shares_ s) v (path_to_inode_ s) (file_handles_ s) (next_inode_ s) (next_fh_ s)
    (shares_version_ s) (virtual_root_mtime_ s) (initialized_ s).
Definition f_set_path_to_inode (v : gmap bytes Z) (s : Fs) : Fs :=
  MkFs (shares_ s) (inodes_ s) v (file_handles_ s) (next_inode_ s) (next_fh_ s)
    (shares_version_ s) (virtual_root_mtime_ s) (initialized_ s).
Definition f_set_file_handles (v : gmap Z FileHandle) (s : Fs) : Fs :=
  MkFs (shares_ s) (inodes_ s) (path_to_inode_ s) v (next_inode_ s) (next_fh_ s)
    (shares_version_ s) (virtual_root_mtime_ s) (initialized_ s).
Definition f_set_next_inode (v : Z) (s : Fs) : Fs :=
  MkFs (shares_ s) (inodes_ s) (path_to_inode_ s) (file_handles_ s) v (next_fh_ s)
    (shares_version_ s) (virtual_root_mtime_ s) (initialized_ s).
Definition f_set_next_fh (v : Z) (s : Fs) : Fs :=
  MkFs (shares_ s) (inodes_ s) (path_to_inode_ s) (file_handles_ s) (next_inode_ s) v
    (shares_version_ s) (virtual_root_mtime_ s) (initialized_ s).
Definition f_set_shares_version (v : Z) (s : Fs) : Fs :=
  MkFs (shares_ s) (inodes_ s) (path_to_inode_ s) (file_handles_ s) (next_inode_ s) (next_fh_ s)
    v (virtual_root_mtime_ s) (initialized_ s).
Definition f_set_virtual_root_mtime (v : Z) (s : Fs) : Fs :=
  MkFs (shares_ s) (inodes_ s) (path_to_inode_ s) (file_handles_ s) (next_inode_ s) (next_fh_ s)
    (shares_version_ s) v (initialized_ s).
Definition f_set_initialized (v : bool) (s : Fs) : Fs :=
  MkFs (shares_ s) (inodes_ s) (path_to_inode_ s) (file_handles_ s) (next_inode_ s) (next_fh_ s)
    (shares_version_ s) (virtual_root_mtime_ s) v.

(** The constructor. *)
Definition Fs_new (now : Z) : Fs :=
  MkFs ∅ {[VIRTUAL_ROOT_INODE := MkInode [] 1 true []]} ∅ ∅ 2 1 0 now false.

(** ** Wire structures *)

Record FuseAttr := MkAttr {
  a_ino : Z;
  a_size : Z;
  a_blocks : Z;
  a_atime : Z;
  a_mtime : Z;
  a_ctime : Z;
  a_atimensec : Z;
  a_mtimensec : Z;
  a_ctimensec : Z;
  a_mode : Z;
  a_nlink : Z;
  a_uid : Z;
  a_gid : Z;
  a_rdev : Z;
  a_blksize : Z;
  a_padding : Z
}.

Definition Attr_zero : FuseAttr := MkAttr 0 0 0 0 0 0 0 0 0 0 0 0 0 0 0 0.

Definition attr_bytes (a : FuseAttr) : bytes :=
  le_bytes 8 (a_ino a) ++ le_bytes 8 (a_size a) ++ le_bytes 8 (a_blocks a)
  ++ le_bytes 8 (a_atime a) ++ le_bytes 8 (a_mtime a) ++ le_bytes 8 (a_ctime a)
  ++ le_bytes 4 (a_atimensec a) ++ le_bytes 4 (a_mtimensec a) ++ le_bytes 4 (a_ctimensec a)
  ++ le_bytes 4 (a_mode a) ++ le_bytes 4 (a_nlink a) ++ le_bytes 4 (a_uid a) ++ le_bytes 4 (a_gid a)
  ++ le_bytes 4 (a_rdev a) ++ le_bytes 4 (a_blksize a) ++ le_bytes 4 (a_padding a).

(** [FuseEntryOut]; the nanosecond members are zero. *)
Definition entry_bytes (nodeid valid : Z) (a : FuseAttr) : bytes :=
  le_bytes 8 nodeid ++ le_bytes 8 1 ++ le_bytes 8 valid ++ le_bytes 8 valid
  ++ le_bytes 4 0 ++ le_bytes 4 0 ++ attr_bytes a.

(** [FuseOpenOut]. *)
Definition open_bytes (fh : Z) : bytes := le_bytes 8 fh ++ le_bytes 4 0 ++ le_bytes 4 0.

(** [FuseOutHeader]: [len], [error] and [unique]. *)
Definition out_header (len error unique : Z) : bytes :=
  le_bytes 4 len ++ le_bytes 4 error ++ le_bytes 8 unique.

Definition sizeof_FuseInHeader : nat := 40.
Definition sizeof_FuseOutHeader : Z := 16.
Definition sizeof_FuseWriteIn : nat := 40.
Definition sizeof_FuseCreateIn : nat := 16.
Definition sizeof_FuseMkdirIn : nat := 8.
Definition sizeof_FuseRenameIn : nat := 8.
Definition sizeof_FuseDirent : Z := 24.
Definition sizeof_FuseDirentplus : Z := 152.

(** A response of a header and a body. *)
Definition reply_with (unique : Z) (body : bytes) : bytes :=
  out_header (u32 (sizeof_FuseOutHeader + Z.of_nat (length body))) 0 unique ++ body.

Definition WriteErrorResponse (unique error : Z) : bytes := out_header sizeof_FuseOutHeader error unique.

Record FuseInHeader := MkInHeader { opcode : Z; unique : Z; nodeid : Z }.

(** ** The monad *)

Section fs.
  Context {W : Type} (os : forall c : HostCall, W -> Reply c * W).
  (** The orders in which the hash maps are walked. *)
  Context (share_order : gmap bytes ShareInfo -> list (bytes * ShareInfo)).
  Context (path_order : gmap bytes Z -> list (bytes * Z)).

Record St := MkSt { st_fs : Fs; st_world : W; st_trace : list HostCall }.

Definition M (A : Type) : Type := St -> option (A * St).

#[local] Instance M_ret : MRet M := fun A a st => Some (a, st).
#[local] Instance M_bind : MBind M := fun A B f m st =>
  match m st with
  | None => None
  | Some (a, st) => f a st
  end.

Definition host (c : HostCall) : M (Reply c) := fun st =>
  let '(r, w) := os c (st_world st) in
  Some (r, MkSt (st_fs st) w (st_trace st ++ [c])).

Definition get_fs : M Fs := fun st => Some (st_fs st, st).
Definition modify (f : Fs -> Fs) : M unit := fun st =>
  Some (tt, MkSt (f (st_fs st)) (st_world st) (st_trace st)).

(** Undefined behaviour. *)
Definition UB {A} : M A := fun _ => None.

(** A little-endian member of [n] bytes at [off] in the request. *)
Definition rd (n off : nat) (in_data : bytes) : M Z :=
  if (off + n <=? length in_data)%nat then mret (le_val (take n (drop off in_data))) else UB.

(** ** Tables *)

Definition PlatformErrorToFuse (errno : Z) : Z := - errno.

Definition GetFileHandle (fh : Z) : M (option FileHandle) := f ← get_fs; mret (file_handles_ f !! fh).

Definition NodeIdToPath (nodeid : Z) : M bytes :=
  f ← get_fs; mret (match inodes_ f !! nodeid with Some i => ii_host_path i | None => [] end).

Definition NodeIdToShareTag (nodeid : Z) : M bytes :=
  f ← get_fs; mret (match inodes_ f !! nodeid with Some i => ii_share_tag i | None => [] end).

Definition IsShareReadonly (share_tag : bytes) : M bool :=
  match share_tag with
  | [] => mret false
  | _ =>
      f ← get_fs;
      mret (match shares_ f !! share_tag with Some s => si_readonly s | None => false end)
  end.

(** [inodes_[inode].nlookup++]. *)
Definition bump_nlookup (inode : Z) (f : Fs) : Fs :=
  let i := default InodeInfo_default (inodes_ f !! inode) in
  f_set_inodes (<[inode := MkInode (ii_host_path i) (u64 (ii_nlookup i + 1)) (ii_is_dir i) (ii_share_tag i)]>
                  (inodes_ f)) f.

(** A new inode for [path]. *)
Definition new_inode (path : bytes) (nlookup : Z) (is_dir : bool) (share_tag : bytes) : M Z :=
  f ← get_fs;
  let inode := next_inode_ f in
  _ ← modify (fun f =>
    f_set_path_to_inode (<[path := inode]> (path_to_inode_ f))
      (f_set_inodes (<[inode := MkInode path nlookup is_dir share_tag]> (inodes_ f))
         (f_set_next_inode (inode + 1) f)));
  mret inode.

Definition GetOrCreateInode (path : bytes) (is_dir : bool) (share_tag : bytes) : M Z :=
  f ← get_fs;
  match path_to_inode_ f !! path with
  | Some inode => _ ← modify (bump_nlookup inode); mret inode
  | None => new_inode path 1 is_dir share_tag
  end.

Definition RemoveInodeByPath (path : bytes) : M unit :=
  f ← get_fs;
  match path_to_inode_ f !! path with
  | None => mret tt
  | Some inode =>
      modify (fun f => f_set_inodes (delete inode (inodes_ f))
                         (f_set_path_to_inode (delete path (path_to_inode_ f)) f))
  end.

Definition AllocFileHandle (h : option Z) (is_dir : bool) (path share_tag : bytes) : M Z :=
  f ← get_fs;
  let fh := next_fh_ f in
  _ ← modify (fun f => f_set_file_handles (<[fh := MkHandle h is_dir path share_tag]> (file_handles_ f))
                         (f_set_next_fh (u64 (fh + 1)) f));
  mret fh.

Definition close_handle (h : FileHandle) : M unit :=
  match fh_handle h with Some fd => host (call_close fd) | None => mret tt end.

Definition CloseFileHandle (fh : Z) : M unit :=
  h ← GetFileHandle fh;
  match h with
  | None => mret tt
  | Some h =>
      _ ← close_handle h;
      modify (fun f => f_set_file_handles (delete fh (file_handles_ f)) f)
  end.

Fixpoint close_all (hs : list FileHandle) : M unit :=
  match hs with
  | [] => mret tt
  | h :: hs => _ ← close_handle h; close_all hs
  end.

(** ** Attributes *)

(** [FillAttr]: the error, or the attributes. *)
Definition FillAttr (path : bytes) (inode : Z) (share_readonly : bool) : M (Z + FuseAttr) :=
  r ← host (call_stat path);
  match r with
  | inl errno => mret (inl (PlatformErrorToFuse errno))
  | inr st =>
      let mode := if S_ISDIR st then FUSE_S_IFDIR .| 0x1FF
                  else if S_ISLNK st then FUSE_S_IFLNK .| 0x1FF
                  else FUSE_S_IFREG .| 0x1B6 in
      let mode := if share_readonly || (st_mode st .& S_IWUSR =? 0)
                  then mode .& bnot 32 0x92 else mode in
      mret (inr (MkAttr inode (st_size st) (st_blocks st)
        (fst (st_atime st)) (fst (st_mtime st)) (fst (st_ctime st))
        (snd (st_atime st)) (snd (st_mtime st)) (snd (st_ctime st))
        mode (u32 (st_nlink st)) 0 0 0 4096 0))
  end.

Definition FillVirtualRootAttr : M FuseAttr :=
  f ← get_fs;
  mret (MkAttr VIRTUAL_ROOT_INODE 0 0
    (virtual_root_mtime_ f) (virtual_root_mtime_ f) (virtual_root_mtime_ f) 0 0 0
    (FUSE_S_IFDIR .| 0x1ED) (u32 (2 + Z.of_nat (size (shares_ f)))) 0 0 0 4096 0).

Definition FillShareRootAttr (share : ShareInfo) : M (Z + FuseAttr) :=
  FillAttr (si_host_path share) (si_root_inode share) (si_readonly share).

(** The attributes as they are after a failed [FillAttr], which the callers
    that ignore the error send: all zero. *)
Definition attr_or_zero (r : Z + FuseAttr) : FuseAttr :=
  match r with inl _ => Attr_zero | inr a => a end.

(** Whether the share of [tag] is mounted read-only. *)
Definition tag_readonly (f : Fs) (tag : bytes) : bool :=
  match shares_ f !! tag with Some s => si_readonly s | None => false end.

(** The share whose root directory is [nodeid]. *)
Definition share_of_root (f : Fs) (nodeid : Z) : option ShareInfo :=
  snd <$> List.find (fun ts => si_root_inode (snd ts) =? nodeid) (share_order (shares_ f)).

(** ** Share management *)

(** [while (path.size() > 1 && path.back() == '/') path.pop_back()]. *)
Fixpoint strip_slashes_rev (rpath : bytes) : bytes :=
  match rpath with
  | c :: (_ :: _) as rest => if c =? kPathSep then strip_slashes_rev rest else rpath
  | _ => rpath
  end.
Definition strip_slashes (path : bytes) : bytes := rev (strip_slashes_rev (rev path)).

Definition AddShare (tag host_path : bytes) (readonly : bool) : M bool :=
  f ← get_fs;
  match shares_ f !! tag with
  | Some _ => mret false
  | None =>
      r ← host (call_stat host_path);
      if match r with inl _ => true | inr st => negb (S_ISDIR st) end then mret false
      else
        let path := strip_slashes host_path in
        let share_root_inode := next_inode_ f in
        now ← host call_time;
        _ ← modify (fun f =>
          f_set_virtual_root_mtime (u64 now)
            (f_set_shares_version (u64 (shares_version_ f + 1))
               (f_set_path_to_inode (<[path := share_root_inode]> (path_to_inode_ f))
                  (f_set_inodes (<[share_root_inode := MkInode path 1 true tag]> (inodes_ f))
                     (f_set_shares (<[tag := MkShare path readonly share_root_inode]> (shares_ f))
                        (f_set_next_inode (share_root_inode + 1) f))))));
        mret true
  end.

(** The inodes of [tag] go, and with each the map entry of its path. *)
Definition remove_tag_inodes (tag : bytes) (f : Fs) : Fs :=
  let gone := filter (fun i => ii_share_tag i.2 = tag) (inodes_ f) in
  let paths := (fun i => ii_host_path i.2) <$> map_to_list gone in
  f_set_path_to_inode (filter (fun p => p.1 ∉ paths) (path_to_inode_ f))
    (f_set_inodes (filter (fun i => ii_share_tag i.2 <> tag) (inodes_ f)) f).

Definition RemoveShare (tag : bytes) : M bool :=
  f ← get_fs;
  match shares_ f !! tag with
  | None => mret false
  | Some _ =>
      _ ← close_all (snd <$> map_to_list (filter (fun h => fh_share_tag h.2 = tag) (file_handles_ f)));
      _ ← modify (fun f => f_set_file_handles (filter (fun h => fh_share_tag h.2 <> tag) (file_handles_ f)) f);
      _ ← modify (remove_tag_inodes tag);
      now ← host call_time;
      _ ← modify (fun f =>
        f_set_virtual_root_mtime (u64 now)
          (f_set_shares_version (u64 (shares_version_ f + 1))
             (f_set_shares (delete tag (shares_ f)) f)));
      mret true
  end.

Definition GetShareTags (f : Fs) : list bytes := fst <$> share_order (shares_ f).
Definition GetShares (f : Fs) : list (bytes * ShareInfo) := share_order (shares_ f).
Definition HasShare (tag : bytes) (f : Fs) : bool := bool_decide (is_Some (shares_ f !! tag)).

(** [OnStatusChange]. *)
Definition Fs_OnStatusChange (new_status : Z) : M unit :=
  if new_status =? 0 then
    f ← get_fs;
    _ ← close_all (snd <$> map_to_list (file_handles_ f));
    modify (fun f => f_set_initialized false (f_set_file_handles ∅ f))
  else mret tt.

(** ** Requests *)

(** [child = parent + '/' + name]. *)
Definition child_path (parent name : bytes) : bytes := parent ++ kPathSep :: name.

Definition HandleInit (hdr : FuseInHeader) (in_data : bytes) : M bytes :=
  _ ← rd 4 0 in_data;
  _ ← rd 4 4 in_data;
  max_readahead ← rd 4 8 in_data;
  _ ← modify (f_set_initialized true);
  mret (reply_with (unique hdr)
    (le_bytes 4 7 ++ le_bytes 4 31 ++ le_bytes 4 max_readahead
     ++ le_bytes 4 ((1 .<< 5) .| (1 .<< 18)) ++ le_bytes 2 16 ++ le_bytes 2 12
     ++ le_bytes 4 (1024 * 1024) ++ le_bytes 4 1 ++ le_bytes 2 256 ++ le_bytes 2 0
     ++ replicate 32 0)).

(** The inode of a looked-up path: the known one, referenced once more, or a
    new one. *)
Definition lookup_inode (path : bytes) (is_dir : bool) (share_tag : bytes) : M Z :=
  f ← get_fs;
  match path_to_inode_ f !! path with
  | Some inode => _ ← modify (bump_nlookup inode); mret inode
  | None => new_inode path 1 is_dir share_tag
  end.

Definition HandleLookup (hdr : FuseInHeader) (in_data : bytes) : M bytes :=
  let name := c_str in_data in
  f ← get_fs;
  if nodeid hdr =? VIRTUAL_ROOT_INODE then
    match shares_ f !! name with
    | None => mret (WriteErrorResponse (unique hdr) FUSE_ENOENT)
    | Some share =>
        r ← FillShareRootAttr share;
        match r with
        | inl err => mret (WriteErrorResponse (unique hdr) err)
        | inr a => mret (reply_with (unique hdr) (entry_bytes (si_root_inode share) 0 a))
        end
    end
  else
    match inodes_ f !! nodeid hdr with
    | None => mret (WriteErrorResponse (unique hdr) FUSE_ENOENT)
    | Some parent =>
        let path := child_path (ii_host_path parent) name in
        r ← host (call_stat path);
        match r with
        | inl errno => mret (WriteErrorResponse (unique hdr) (PlatformErrorToFuse errno))
        | inr st =>
            inode ← lookup_inode path (S_ISDIR st) (ii_share_tag parent);
            r ← FillAttr path inode (tag_readonly f (ii_share_tag parent));
            match r with
            | inl err => mret (WriteErrorResponse (unique hdr) err)
            | inr a => mret (reply_with (unique hdr) (entry_bytes inode 1 a))
            end
        end
    end.

Definition HandleForget (hdr : FuseInHeader) (in_data : bytes) : M unit :=
  f ← get_fs;
  if nodeid hdr =? VIRTUAL_ROOT_INODE then mret tt
  else match share_of_root f (nodeid hdr) with
  | Some _ => mret tt
  | None =>
      match inodes_ f !! nodeid hdr with
      | None => mret tt
      | Some i =>
          nlookup ← rd 8 0 in_data;
          if nlookup <? ii_nlookup i then
            modify (fun f => f_set_inodes
              (<[nodeid hdr := MkInode (ii_host_path i) (ii_nlookup i - nlookup) (ii_is_dir i)
                                 (ii_share_tag i)]> (inodes_ f)) f)
          else
            modify (fun f => f_set_inodes (delete (nodeid hdr) (inodes_ f))
                               (f_set_path_to_inode (delete (ii_host_path i) (path_to_inode_ f)) f))
      end
  end.

(** [FuseAttrOut]. *)
Definition attr_reply (hdr : FuseInHeader) (valid : Z) (a : FuseAttr) : bytes :=
  reply_with (unique hdr) (le_bytes 8 valid ++ le_bytes 4 0 ++ le_bytes 4 0 ++ attr_bytes a).

Definition HandleGetAttr (hdr : FuseInHeader) : M bytes :=
  f ← get_fs;
  if nodeid hdr =? VIRTUAL_ROOT_INODE then
    a ← FillVirtualRootAttr; mret (attr_reply hdr 0 a)
  else match share_of_root f (nodeid hdr) with
  | Some share =>
      r ← FillShareRootAttr share;
      match r with
      | inl err => mret (WriteErrorResponse (unique hdr) err)
      | inr a => mret (attr_reply hdr 0 a)
      end
  | None =>
      match inodes_ f !! nodeid hdr with
      | None => mret (WriteErrorResponse (unique hdr) FUSE_ENOENT)
      | Some i =>
          r ← FillAttr (ii_host_path i) (nodeid hdr) (tag_readonly f (ii_share_tag i));
          match r with
          | inl err => mret (WriteErrorResponse (unique hdr) err)
          | inr a => mret (attr_reply hdr 1 a)
          end
      end
  end.

(** The times to set, those not given kept (zero when [stat] fails). *)
Definition set_times (path : bytes) (valid : Z) (in_data : bytes) : M unit :=
  let a := has valid FATTR_ATIME in
  let m := has valid FATTR_MTIME in
  at_s ← (if a then rd 8 32 in_data else mret 0);
  at_ns ← (if a then rd 4 56 in_data else mret 0);
  mt_s ← (if m then rd 8 40 in_data else mret 0);
  mt_ns ← (if m then rd 4 60 in_data else mret 0);
  times ←
    (if negb (a && m) then
       r ← host (call_stat path);
       match r with
       | inl _ => mret (at_s, at_ns / 1000, mt_s, mt_ns / 1000)
       | inr st =>
           mret (if a then at_s else fst (st_atime st),
                 if a then at_ns / 1000 else snd (st_atime st) / 1000,
                 if m then mt_s else fst (st_mtime st),
                 if m then mt_ns / 1000 else snd (st_mtime st) / 1000)
       end
     else mret (at_s, at_ns / 1000, mt_s, mt_ns / 1000));
  host (call_utimes path times).

Definition HandleSetAttr (hdr : FuseInHeader) (in_data : bytes) : M bytes :=
  if nodeid hdr =? VIRTUAL_ROOT_INODE then mret (WriteErrorResponse (unique hdr) FUSE_EACCES)
  else
    share_tag ← NodeIdToShareTag (nodeid hdr);
    ro ← IsShareReadonly share_tag;
    if ro : bool then mret (WriteErrorResponse (unique hdr) FUSE_EROFS)
    else
      path ← NodeIdToPath (nodeid hdr);
      match path with
      | [] => mret (WriteErrorResponse (unique hdr) FUSE_ENOENT)
      | _ =>
          valid ← rd 4 0 in_data;
          _ ← (if has valid FATTR_SIZE then
                 size ← rd 8 16 in_data; host (call_truncate path size)
               else mret tt);
          _ ← (if has valid FATTR_ATIME || has valid FATTR_MTIME
               then set_times path valid in_data else mret tt);
          HandleGetAttr hdr
      end.

(** The access mode of the flags: 3 opens for reading and writing. *)
Definition open_flags (flags : Z) : Z :=
  if flags .& 3 =? 0 then 0 else if flags .& 3 =? 1 then 1 else 2.

Definition HandleOpen (hdr : FuseInHeader) (in_data : bytes) : M bytes :=
  path ← NodeIdToPath (nodeid hdr);
  match path with
  | [] => mret (WriteErrorResponse (unique hdr) FUSE_ENOENT)
  | _ =>
      share_tag ← NodeIdToShareTag (nodeid hdr);
      flags ← rd 4 0 in_data;
      ro ← IsShareReadonly share_tag;
      if ro && negb (flags .& 3 =? 0) then mret (WriteErrorResponse (unique hdr) FUSE_EROFS)
      else
        r ← host (call_open path (open_flags flags));
        match r with
        | inl errno => mret (WriteErrorResponse (unique hdr) (PlatformErrorToFuse errno))
        | inr h =>
            fh ← AllocFileHandle (Some h) false path share_tag;
            mret (reply_with (unique hdr) (open_bytes fh))
        end
  end.

Definition HandleRead (hdr : FuseInHeader) (in_data : bytes) : M bytes :=
  fhn ← rd 8 0 in_data;
  fh ← GetFileHandle fhn;
  match fh with
  | Some (MkHandle (Some fd) _ path _) =>
      size ← rd 4 16 in_data;
      offset ← rd 8 8 in_data;
      r ← host (call_pread path fd size offset);
      match r with
      | inl errno => mret (WriteErrorResponse (unique hdr) (PlatformErrorToFuse errno))
      | inr data => mret (reply_with (unique hdr) data)
      end
  | _ => mret (WriteErrorResponse (unique hdr) FUSE_ENOENT)
  end.

(** The [size] bytes after the header go to the host, whether the request
    holds that many or not: undefined behaviour when it does not. *)
Definition HandleWrite (hdr : FuseInHeader) (in_data : bytes) : M bytes :=
  fhn ← rd 8 0 in_data;
  fh ← GetFileHandle fhn;
  match fh with
  | Some (MkHandle (Some fd) _ path share_tag) =>
      ro ← IsShareReadonly share_tag;
      if ro : bool then mret (WriteErrorResponse (unique hdr) FUSE_EROFS)
      else
        size ← rd 4 16 in_data;
        offset ← rd 8 8 in_data;
        if Z.of_nat (length in_data) - Z.of_nat sizeof_FuseWriteIn <? size then UB
        else
          r ← host (call_pwrite path fd (take (Z.to_nat size) (drop sizeof_FuseWriteIn in_data)) offset);
          match r with
          | inl errno => mret (WriteErrorResponse (unique hdr) (PlatformErrorToFuse errno))
          | inr n => mret (reply_with (unique hdr) (le_bytes 4 n ++ le_bytes 4 0))
          end
  | _ => mret (WriteErrorResponse (unique hdr) FUSE_ENOENT)
  end.

Definition HandleRelease (in_data : bytes) : M unit := fh ← rd 8 0 in_data; CloseFileHandle fh.
Definition HandleReleaseDir (in_data : bytes) : M unit := fh ← rd 8 0 in_data; CloseFileHandle fh.

Definition HandleFlush (in_data : bytes) : M unit :=
  fhn ← rd 8 0 in_data;
  fh ← GetFileHandle fhn;
  match fh with
  | Some (MkHandle (Some fd) _ path _) => host (call_fsync path fd)
  | _ => mret tt
  end.
Definition HandleFsync (in_data : bytes) : M unit :=
  fhn ← rd 8 0 in_data;
  fh ← GetFileHandle fhn;
  match fh with
  | Some (MkHandle (Some fd) _ path _) => host (call_fsync path fd)
  | _ => mret tt
  end.

Definition HandleOpenDir (hdr : FuseInHeader) : M bytes :=
  let finish path share_tag :=
    fh ← AllocFileHandle None true path share_tag;
    mret (reply_with (unique hdr) (open_bytes fh)) in
  f ← get_fs;
  if nodeid hdr =? VIRTUAL_ROOT_INODE then finish [] []
  else
    match inodes_ f !! nodeid hdr with
    | None => mret (WriteErrorResponse (unique hdr) FUSE_ENOENT)
    | Some i =>
        r ← host (call_stat (ii_host_path i));
        match r with
        | inl errno => mret (WriteErrorResponse (unique hdr) (PlatformErrorToFuse errno))
        | inr st =>
            if S_ISDIR st then finish (ii_host_path i) (ii_share_tag i)
            else mret (WriteErrorResponse (unique hdr) FUSE_ENOTDIR)
        end
    end.

(** *** Listings *)

(** [(size + 7) & ~7]. *)
Definition entry_size (hdr_size : Z) (name : bytes) : Z :=
  (hdr_size + Z.of_nat (length name) + 7) .& bnot 32 7.

(** [FuseDirent]. *)
Definition dirent_bytes (ino off type : Z) (name : bytes) : bytes :=
  le_bytes 8 ino ++ le_bytes 8 off ++ le_bytes 4 (Z.of_nat (length name)) ++ le_bytes 4 type.

(** [buf] grown by [size] bytes, the entry and its name at the front. *)
Definition put_entry (size : Z) (entry name : bytes) (buf : bytes) : bytes :=
  buf ++ entry ++ name ++ replicate (Z.to_nat size - length entry - length name) 0.

Definition dir_type (is_dir : bool) : Z := if is_dir then FUSE_S_IFDIR .>> 12 else FUSE_S_IFREG .>> 12.

(** Whether the entry is a directory; an unknown type asks [stat]. *)
Definition entry_is_dir (full_path : bytes) (t : DType) : M bool :=
  match t with
  | DT_DIR => mret true
  | DT_OTHER => mret false
  | DT_UNKNOWN =>
      r ← host (call_stat full_path);
      mret (match r with inl _ => false | inr st => S_ISDIR st end)
  end.

(** The inode a listing gives an entry: unreferenced when new. *)
Definition listed_inode (path : bytes) (is_dir : bool) (share_tag : bytes) : M Z :=
  f ← get_fs;
  match path_to_inode_ f !! path with
  | Some inode => mret inode
  | None => new_inode path 0 is_dir share_tag
  end.

(** The loop over the entries: those before [offset] are counted only, and
    the first that does not fit ends it. *)
Fixpoint readdir_loop (fh : FileHandle) (offset size : Z) (names : list (bytes * DType))
    (entry_offset : Z) (dir_buf : bytes) : M bytes :=
  match names with
  | [] => mret dir_buf
  | (name, t) :: names =>
      if entry_offset <? offset then readdir_loop fh offset size names (entry_offset + 1) dir_buf
      else
        let esize := entry_size sizeof_FuseDirent name in
        if size <? Z.of_nat (length dir_buf) + esize then mret dir_buf
        else
          let full_path := child_path (fh_path fh) name in
          is_dir ← entry_is_dir full_path t;
          inode ← listed_inode full_path is_dir (fh_share_tag fh);
          readdir_loop fh offset size names (entry_offset + 1)
            (put_entry esize (dirent_bytes inode (entry_offset + 1) (dir_type is_dir) name) name dir_buf)
  end.

(** The same over the shares, for the virtual root. *)
Fixpoint readdir_root (offset size : Z) (shares : list (bytes * ShareInfo))
    (entry_offset : Z) (dir_buf : bytes) : bytes :=
  match shares with
  | [] => dir_buf
  | (tag, share) :: shares =>
      if entry_offset <? offset then readdir_root offset size shares (entry_offset + 1) dir_buf
      else
        let esize := entry_size sizeof_FuseDirent tag in
        if size <? Z.of_nat (length dir_buf) + esize then dir_buf
        else readdir_root offset size shares (entry_offset + 1)
          (put_entry esize (dirent_bytes (si_root_inode share) (entry_offset + 1) (dir_type true) tag) tag dir_buf)
  end.

Definition is_root_handle (fh : FileHandle) : bool :=
  match fh_path fh, fh_share_tag fh with [], [] => true | _, _ => false end.

Definition HandleReadDir (hdr : FuseInHeader) (in_data : bytes) : M bytes :=
  fhn ← rd 8 0 in_data;
  fh ← GetFileHandle fhn;
  match fh with
  | None => mret (WriteErrorResponse (unique hdr) FUSE_ENOENT)
  | Some fh =>
      offset ← rd 8 8 in_data;
      size ← rd 4 16 in_data;
      if is_root_handle fh then
        f ← get_fs;
        mret (reply_with (unique hdr) (readdir_root offset size (share_order (shares_ f)) 0 []))
      else
        r ← host (call_readdir (fh_path fh));
        match r with
        | inl errno => mret (WriteErrorResponse (unique hdr) (PlatformErrorToFuse errno))
        | inr names =>
            dir_buf ← readdir_loop fh offset size names 0 [];
            mret (reply_with (unique hdr) dir_buf)
        end
  end.

Fixpoint readdirplus_loop (fh : FileHandle) (share_readonly : bool) (offset size : Z)
    (names : list (bytes * DType)) (entry_offset : Z) (dir_buf : bytes) : M bytes :=
  match names with
  | [] => mret dir_buf
  | (name, t) :: names =>
      if entry_offset <? offset
      then readdirplus_loop fh share_readonly offset size names (entry_offset + 1) dir_buf
      else
        let esize := entry_size sizeof_FuseDirentplus name in
        if size <? Z.of_nat (length dir_buf) + esize then mret dir_buf
        else
          let full_path := child_path (fh_path fh) name in
          is_dir ← entry_is_dir full_path t;
          inode ← listed_inode full_path is_dir (fh_share_tag fh);
          r ← FillAttr full_path inode share_readonly;
          readdirplus_loop fh share_readonly offset size names (entry_offset + 1)
            (put_entry esize
               (entry_bytes inode 1 (attr_or_zero r)
                ++ dirent_bytes inode (entry_offset + 1) (dir_type is_dir) name) name dir_buf)
  end.

Fixpoint readdirplus_root (offset size : Z) (shares : list (bytes * ShareInfo))
    (entry_offset : Z) (dir_buf : bytes) : M bytes :=
  match shares with
  | [] => mret dir_buf
  | (tag, share) :: shares =>
      if entry_offset <? offset then readdirplus_root offset size shares (entry_offset + 1) dir_buf
      else
        let esize := entry_size sizeof_FuseDirentplus tag in
        if size <? Z.of_nat (length dir_buf) + esize then mret dir_buf
        else
          r ← FillShareRootAttr share;
          readdirplus_root offset size shares (entry_offset + 1)
            (put_entry esize
               (entry_bytes (si_root_inode share) 0 (attr_or_zero r)
                ++ dirent_bytes (si_root_inode share) (entry_offset + 1) (dir_type true) tag) tag dir_buf)
  end.

Definition HandleReadDirPlus (hdr : FuseInHeader) (in_data : bytes) : M bytes :=
  fhn ← rd 8 0 in_data;
  fh ← GetFileHandle fhn;
  match fh with
  | None => mret (WriteErrorResponse (unique hdr) FUSE_ENOENT)
  | Some fh =>
      offset ← rd 8 8 in_data;
      size ← rd 4 16 in_data;
      f ← get_fs;
      if is_root_handle fh then
        dir_buf ← readdirplus_root offset size (share_order (shares_ f)) 0 [];
        mret (reply_with (unique hdr) dir_buf)
      else
        r ← host (call_readdir (fh_path fh));
        match r with
        | inl errno => mret (WriteErrorResponse (unique hdr) (PlatformErrorToFuse errno))
        | inr names =>
            dir_buf ← readdirplus_loop fh (tag_readonly f (fh_share_tag fh)) offset size names 0 [];
            mret (reply_with (unique hdr) dir_buf)
        end
  end.

(** The first share whose [statvfs] succeeds. *)
Fixpoint first_statvfs (shares : list (bytes * ShareInfo)) : M (option StatVfs) :=
  match shares with
  | [] => mret None
  | (_, share) :: shares =>
      r ← host (call_statvfs (si_host_path share));
      match r with inl _ => first_statvfs shares | inr s => mret (Some s) end
  end.

Definition HandleStatFs (hdr : FuseInHeader) : M bytes :=
  f ← get_fs;
  r ← first_statvfs (share_order (shares_ f));
  let '(bs, blocks, bfree, bavail) :=
    match r with
    | Some s => (if f_frsize s =? 0 then f_bsize s else f_frsize s, f_blocks s, f_bfree s, f_bavail s)
    | None => (4096, 1000000, 1000000, 1000000)
    end in
  mret (reply_with (unique hdr)
    (le_bytes 8 blocks ++ le_bytes 8 bfree ++ le_bytes 8 bavail
     ++ le_bytes 8 1000000 ++ le_bytes 8 1000000
     ++ le_bytes 4 bs ++ le_bytes 4 255 ++ le_bytes 4 bs ++ le_bytes 4 0 ++ replicate 24 0)).

(** *** Changes *)

(** The name behind a fixed part of [n] bytes: the subtraction wraps when
    the request is shorter, and the search runs off its end. *)
Definition name_after (n : nat) (in_data : bytes) : M bytes :=
  if (length in_data <? n)%nat then UB else mret (c_str (drop n in_data)).

Definition HandleCreate (hdr : FuseInHeader) (in_data : bytes) : M bytes :=
  if nodeid hdr =? VIRTUAL_ROOT_INODE then mret (WriteErrorResponse (unique hdr) FUSE_EACCES)
  else
    share_tag ← NodeIdToShareTag (nodeid hdr);
    ro ← IsShareReadonly share_tag;
    if ro : bool then mret (WriteErrorResponse (unique hdr) FUSE_EROFS)
    else
      name ← name_after sizeof_FuseCreateIn in_data;
      parent_path ← NodeIdToPath (nodeid hdr);
      match parent_path with
      | [] => mret (WriteErrorResponse (unique hdr) FUSE_ENOENT)
      | _ =>
          let file_path := child_path parent_path name in
          m ← rd 4 4 in_data;
          r ← host (call_create file_path (if m =? 0 then 0x1B6 else m .& 0x1FF));
          match r with
          | inl errno => mret (WriteErrorResponse (unique hdr) (PlatformErrorToFuse errno))
          | inr h =>
              inode ← GetOrCreateInode file_path false share_tag;
              fh ← AllocFileHandle (Some h) false file_path share_tag;
              a ← FillAttr file_path inode false;
              mret (reply_with (unique hdr) (entry_bytes inode 1 (attr_or_zero a) ++ open_bytes fh))
          end
      end.

Definition HandleMkdir (hdr : FuseInHeader) (in_data : bytes) : M bytes :=
  if nodeid hdr =? VIRTUAL_ROOT_INODE then mret (WriteErrorResponse (unique hdr) FUSE_EACCES)
  else
    share_tag ← NodeIdToShareTag (nodeid hdr);
    ro ← IsShareReadonly share_tag;
    if ro : bool then mret (WriteErrorResponse (unique hdr) FUSE_EROFS)
    else
      name ← name_after sizeof_FuseMkdirIn in_data;
      parent_path ← NodeIdToPath (nodeid hdr);
      match parent_path with
      | [] => mret (WriteErrorResponse (unique hdr) FUSE_ENOENT)
      | _ =>
          let dir_path := child_path parent_path name in
          m ← rd 4 0 in_data;
          r ← host (call_mkdir dir_path (if m =? 0 then 0x1FF else m .& 0x1FF));
          match r with
          | inl errno => mret (WriteErrorResponse (unique hdr) (PlatformErrorToFuse errno))
          | inr _ =>
              inode ← GetOrCreateInode dir_path true share_tag;
              a ← FillAttr dir_path inode false;
              mret (reply_with (unique hdr) (entry_bytes inode 1 (attr_or_zero a)))
          end
      end.

Definition HandleUnlink (hdr : FuseInHeader) (in_data : bytes) : M bytes :=
  if nodeid hdr =? VIRTUAL_ROOT_INODE then mret (WriteErrorResponse (unique hdr) FUSE_EACCES)
  else
    share_tag ← NodeIdToShareTag (nodeid hdr);
    ro ← IsShareReadonly share_tag;
    if ro : bool then mret (WriteErrorResponse (unique hdr) FUSE_EROFS)
    else
      parent_path ← NodeIdToPath (nodeid hdr);
      match parent_path with
      | [] => mret (WriteErrorResponse (unique hdr) FUSE_ENOENT)
      | _ =>
          let file_path := child_path parent_path (c_str in_data) in
          r ← host (call_unlink file_path);
          match r with
          | inl errno => mret (WriteErrorResponse (unique hdr) (PlatformErrorToFuse errno))
          | inr _ => _ ← RemoveInodeByPath file_path; mret (WriteErrorResponse (unique hdr) FUSE_OK)
          end
      end.

Definition HandleRmdir (hdr : FuseInHeader) (in_data : bytes) : M bytes :=
  if nodeid hdr =? VIRTUAL_ROOT_INODE then mret (WriteErrorResponse (unique hdr) FUSE_EACCES)
  else
    share_tag ← NodeIdToShareTag (nodeid hdr);
    ro ← IsShareReadonly share_tag;
    if ro : bool then mret (WriteErrorResponse (unique hdr) FUSE_EROFS)
    else
      parent_path ← NodeIdToPath (nodeid hdr);
      match parent_path with
      | [] => mret (WriteErrorResponse (unique hdr) FUSE_ENOENT)
      | _ =>
          let dir_path := child_path parent_path (c_str in_data) in
          r ← host (call_rmdir dir_path);
          match r with
          | inl errno => mret (WriteErrorResponse (unique hdr) (PlatformErrorToFuse errno))
          | inr _ => _ ← RemoveInodeByPath dir_path; mret (WriteErrorResponse (unique hdr) FUSE_OK)
          end
      end.

(** [prefix] itself or something below it. *)
Definition HasPrefix (path prefix : bytes) : bool :=
  if (length path <? length prefix)%nat then false
  else if negb (bool_decide (take (length prefix) path = prefix)) then false
  else (length path =? length prefix)%nat
       || bool_decide (path !! length prefix = Some kPathSep).

(** A cached path is dropped with its inode. *)
Definition drop_cached (f : Fs) (path : bytes) : Fs :=
  match path_to_inode_ f !! path with
  | None => f
  | Some inode => f_set_inodes (delete inode (inodes_ f))
                    (f_set_path_to_inode (delete path (path_to_inode_ f)) f)
  end.

(** Those at or below the new path are. *)
Definition drop_stale (new_path : bytes) (f : Fs) : Fs :=
  foldl drop_cached f
    (List.filter (fun p => HasPrefix p new_path) (fst <$> path_order (path_to_inode_ f))).

(** One cached path below the old one moves. *)
Definition move_cached (old_path new_path : bytes) (f : Fs) (path : bytes) : Fs :=
  match path_to_inode_ f !! path with
  | None => f
  | Some inode =>
      let new_cached := new_path ++ drop (length old_path) path in
      let f := f_set_path_to_inode (<[new_cached := inode]> (delete path (path_to_inode_ f))) f in
      match inodes_ f !! inode with
      | None => f
      | Some i => f_set_inodes (<[inode := MkInode new_cached (ii_nlookup i) (ii_is_dir i) (ii_share_tag i)]>
                                  (inodes_ f)) f
      end
  end.

Definition move_all (old_path new_path : bytes) (f : Fs) : Fs :=
  foldl (move_cached old_path new_path) f
    (List.filter (fun p => HasPrefix p old_path) (fst <$> path_order (path_to_inode_ f))).

(** The two names behind the fixed part.  Without a NUL after the first,
    the search for the second's end leaves the request. *)
Definition rename_names (in_data : bytes) : M (bytes * bytes) :=
  if (length in_data <? sizeof_FuseRenameIn)%nat then UB
  else
    let names := drop sizeof_FuseRenameIn in_data in
    let old_name := c_str names in
    if (length names <? length old_name + 1)%nat then UB
    else mret (old_name, c_str (drop (length old_name + 1) names)).

Definition HandleRename (hdr : FuseInHeader) (in_data : bytes) : M bytes :=
  if nodeid hdr =? VIRTUAL_ROOT_INODE then mret (WriteErrorResponse (unique hdr) FUSE_EACCES)
  else
    share_tag ← NodeIdToShareTag (nodeid hdr);
    ro ← IsShareReadonly share_tag;
    if ro : bool then mret (WriteErrorResponse (unique hdr) FUSE_EROFS)
    else
      names ← rename_names in_data;
      let '(old_name, new_name) := (names : bytes * bytes) in
      newdir ← rd 8 0 in_data;
      old_parent_path ← NodeIdToPath (nodeid hdr);
      new_parent_path ← NodeIdToPath newdir;
      if bool_decide (old_parent_path = []) || bool_decide (new_parent_path = [])
      then mret (WriteErrorResponse (unique hdr) FUSE_ENOENT)
      else
        new_share_tag ← NodeIdToShareTag newdir;
        ro ← IsShareReadonly new_share_tag;
        if ro : bool then mret (WriteErrorResponse (unique hdr) FUSE_EROFS)
        else
          let old_path := child_path old_parent_path old_name in
          let new_path := child_path new_parent_path new_name in
          r ← host (call_rename old_path new_path);
          match r with
          | inl errno => mret (WriteErrorResponse (unique hdr) (PlatformErrorToFuse errno))
          | inr _ =>
              _ ← modify (fun f => move_all old_path new_path (drop_stale new_path f));
              mret (WriteErrorResponse (unique hdr) FUSE_OK)
          end.

(** ** Dispatch *)

Definition Dispatch (hdr : FuseInHeader) (in_data : bytes) : M bytes :=
  let op := opcode hdr in
  let ok := WriteErrorResponse (unique hdr) FUSE_OK in
  if op =? FUSE_INIT then HandleInit hdr in_data
  else if op =? FUSE_LOOKUP then HandleLookup hdr in_data
  else if op =? FUSE_FORGET then _ ← HandleForget hdr in_data; mret []
  else if op =? FUSE_GETATTR then HandleGetAttr hdr
  else if op =? FUSE_SETATTR then HandleSetAttr hdr in_data
  else if op =? FUSE_OPEN then HandleOpen hdr in_data
  else if op =? FUSE_READ then HandleRead hdr in_data
  else if op =? FUSE_WRITE then HandleWrite hdr in_data
  else if op =? FUSE_RELEASE then _ ← HandleRelease in_data; mret ok
  else if op =? FUSE_OPENDIR then HandleOpenDir hdr
  else if op =? FUSE_READDIR then HandleReadDir hdr in_data
  else if op =? FUSE_READDIRPLUS then HandleReadDirPlus hdr in_data
  else if op =? FUSE_RELEASEDIR then _ ← HandleReleaseDir in_data; mret ok
  else if op =? FUSE_STATFS then HandleStatFs hdr
  else if op =? FUSE_CREATE then HandleCreate hdr in_data
  else if op =? FUSE_MKDIR then HandleMkdir hdr in_data
  else if op =? FUSE_UNLINK then HandleUnlink hdr in_data
  else if op =? FUSE_RMDIR then HandleRmdir hdr in_data
  else if (op =? FUSE_RENAME) || (op =? FUSE_RENAME2) then HandleRename hdr in_data
  else if op =? FUSE_FLUSH then _ ← HandleFlush in_data; mret ok
  else if (op =? FUSE_FSYNC) || (op =? FUSE_FSYNCDIR) then _ ← HandleFsync in_data; mret ok
  else if op =? FUSE_ACCESS then mret ok
  else if op =? FUSE_DESTROY then mret ok
  else mret (WriteErrorResponse (unique hdr) FUSE_ENOSYS).

(** The request's bytes: the readable elements, gathered. *)
Fixpoint gather_request (chain : list VirtqChainElem) (h : HostMem) : option bytes :=
  match chain with
  | [] => Some []
  | e :: chain =>
      if e_writable e then gather_request chain h
      else l ← hm_read h (e_addr e) (e_len e); rest ← gather_request chain h; Some (l ++ rest)
  end.

(** The response, scattered over the writable elements. *)
Fixpoint scatter_response (chain : list VirtqChainElem) (out : bytes) (h : HostMem) : option HostMem :=
  match chain with
  | [] => Some h
  | e :: chain =>
      if e_writable e && negb (bool_decide (out = [])) then
        let n := Nat.min (Z.to_nat (e_len e)) (length out) in
        h ← hm_write h (e_addr e) (take n out); scatter_response chain (drop n out) h
      else scatter_response chain out h
  end.

Definition in_header (in_buf : bytes) : FuseInHeader :=
  MkInHeader (le_val (take 4 (drop 4 in_buf))) (le_val (take 8 (drop 8 in_buf)))
    (le_val (take 8 (drop 16 in_buf))).

(** [ProcessRequest] on queue [q]; the early returns complete nothing. *)
Definition ProcessRequest (q : VirtQueue) (head_idx : Z) (h : HostMem) (st : St)
    : option (HostMem * St) :=
  r ← WalkChain q h head_idx;
  let '(ok, chain) := (r : bool * list VirtqChainElem) in
  if negb ok || bool_decide (chain = []) then Some (h, st)
  else
    in_buf ← gather_request chain h;
    if (length in_buf <? sizeof_FuseInHeader)%nat then Some (h, st)
    else
      r ← Dispatch (in_header in_buf) (drop sizeof_FuseInHeader in_buf) st;
      let '(out_buf, st) := (r : bytes * St) in
      h ← scatter_response chain out_buf h;
      h ← PushUsed q h head_idx (u32 (Z.of_nat (length out_buf)));
      Some (h, st).

(** The queue drained, and one interrupt. *)
Fixpoint fs_notify_loop (fuel : nat) (i : Z) (m : Mmio) (h : HostMem) (st : St)
    : option (Mmio * HostMem * St) :=
  match fuel with
  | O => None
  | S fuel =>
      r ← PopAvail (queue_at m i) h;
      let '(o, q, h) := (r : option Z * VirtQueue * HostMem) in
      let m := set_queue i q m in
      match o with
      | None => Some (m, h, st)
      | Some head =>
          r ← ProcessRequest q head h st;
          let '(h, st) := (r : HostMem * St) in
          fs_notify_loop fuel i m h st
      end
  end.

Definition Fs_OnQueueNotify (queue_idx : Z) (m : Mmio) (h : HostMem) (st : St)
    : option (Mmio * HostMem * St) :=
  if 1 <? queue_idx then Some (m, h, st)
  else
    r ← fs_notify_loop (Z.to_nat 65536) queue_idx m h st;
    let '(m, h, st) := (r : Mmio * HostMem * St) in
    m ← NotifyUsedBuffer queue_idx m h;
    Some (m, h, st).

(** [ReadConfig]: the tag, NUL-padded to 36 bytes, and one request queue. *)
Definition Fs_config (mount_tag : bytes) : bytes :=
  let tag_len := Nat.min (length mount_tag) 35 in
  take tag_len mount_tag ++ replicate (36 - tag_len) 0 ++ le_bytes 4 1.

Definition Fs_ReadConfig (mount_tag : bytes) (offset size : Z) : Z :=
  if 40 <=? offset then 0
  else le_val (take (Z.to_nat (Z.min size (40 - offset))) (drop (Z.to_nat offset) (Fs_config mount_tag))).

(** ** Confinement *)

(** [p] is [root] or a string below it. *)
Definition under (root p : bytes) : Prop :=
  exists s, p = root ++ s /\ (s = [] \/ exists s', s = kPathSep :: s').

Definition located (sh : gmap bytes ShareInfo) (tag p : bytes) : Prop :=
  exists s, sh !! tag = Some s /\ under (si_host_path s) p.

Definition writable (sh : gmap bytes ShareInfo) (p : bytes) : Prop :=
  exists tag s, sh !! tag = Some s /\ si_readonly s = false /\ under (si_host_path s) p.

(** What a request may ask of the host. *)
Definition call_ok (sh : gmap bytes ShareInfo) (c : HostCall) : Prop :=
  match c with
  | call_stat p | call_readdir p | call_statvfs p => exists tag, located sh tag p
  | call_open p oflags => exists tag, located sh tag p /\ (oflags <> 0 -> writable sh p)
  | call_pread p _ _ _ | call_fsync p _ => exists tag, located sh tag p
  | call_create p _ | call_truncate p _ | call_utimes p _ | call_pwrite p _ _ _
  | call_mkdir p _ | call_unlink p | call_rmdir p => writable sh p
  | call_rename p q => writable sh p /\ writable sh q
  | call_close _ | call_time => True
  end.

(** No share's directory is another's or inside it. *)
Definition no_overlap (sh : gmap bytes ShareInfo) : Prop :=
  forall t1 t2 s1 s2, sh !! t1 = Some s1 -> sh !! t2 = Some s2 -> t1 <> t2 ->
    ~ under (si_host_path s1) (si_host_path s2).

Definition inode_ok (sh : gmap bytes ShareInfo) (i : Z) (info : InodeInfo) : Prop :=
  if decide (i = VIRTUAL_ROOT_INODE) then ii_host_path info = [] /\ ii_share_tag info = []
  else located sh (ii_share_tag info) (ii_host_path info).

Definition handle_ok (sh : gmap bytes ShareInfo) (h : FileHandle) : Prop :=
  fh_path h = [] /\ fh_share_tag h = [] /\ fh_handle h = None \/ located sh (fh_share_tag h) (fh_path h).

(** The invariant of the tables. *)
Record fs_ok (f : Fs) : Prop := {
  ok_tags : shares_ f !! [] = None;
  ok_overlap : no_overlap (shares_ f);
  ok_next : VIRTUAL_ROOT_INODE < next_inode_ f;
  ok_fresh : forall i info, inodes_ f !! i = Some info -> i < next_inode_ f;
  ok_inodes : map_Forall (inode_ok (shares_ f)) (inodes_ f);
  ok_paths : forall p i, path_to_inode_ f !! p = Some i ->
    i <> VIRTUAL_ROOT_INODE /\ exists info, inodes_ f !! i = Some info /\ ii_host_path info = p;
  ok_handles : map_Forall (fun _ => handle_ok (shares_ f)) (file_handles_ f) }.

(** ** Weakest preconditions (of runs without undefined behaviour) *)

Definition wp {A} (m : M A) (Q : A -> St -> Prop) (st : St) : Prop :=
  match m st with None => True | Some (a, st) => Q a st end.

Lemma wp_bind {A B} (m : M A) (k : A -> M B) Q st :
  wp m (fun a => wp (k a) Q) st -> wp (m ≫= k) Q st.
Proof. unfold wp, mbind, M_bind. by destruct (m st) as [[a st']|]. Qed.

Lemma wp_ret {A} (a : A) (Q : A -> St -> Prop) st : Q a st -> wp (mret a) Q st.
Proof. done. Qed.

Lemma wp_UB {A} (Q : A -> St -> Prop) st : wp UB Q st.
Proof. done. Qed.

Lemma wp_mono {A} (m : M A) (Q Q' : A -> St -> Prop) st :
  (forall a st', Q a st' -> Q' a st') -> wp m Q st -> wp m Q' st.
Proof. unfold wp. intros H. destruct (m st) as [[a st']|]; auto. Qed.

Lemma wp_rd n off d Q st : (forall v, Q v st) -> wp (rd n off d) Q st.
Proof. intros H. unfold rd. case_match; [apply wp_ret, H|done]. Qed.

Lemma wp_rd_val n off d (Q : Z -> St -> Prop) st : Q (le_val (take n (drop off d))) st -> wp (rd n off d) Q st.
Proof. intros H. unfold rd. case_match; [by apply wp_ret|done]. Qed.

Lemma wp_if_rd (b : bool) n off d v0 Q st : (forall v, Q v st) -> wp (if b then rd n off d else mret v0) Q st.
Proof. intros H. destruct b; [by apply wp_rd|by apply wp_ret]. Qed.

Lemma wp_name_after n d Q st : (forall v, Q v st) -> wp (name_after n d) Q st.
Proof. intros H. unfold name_after. case_match; [done|apply wp_ret, H]. Qed.

Lemma wp_rename_names d Q st : (forall v, Q v st) -> wp (rename_names d) Q st.
Proof. intros H. unfold rename_names. repeat case_match; done || apply wp_ret, H. Qed.

(** Reading the tables. *)
Definition path_of (f : Fs) (n : Z) : bytes :=
  match inodes_ f !! n with Some i => ii_host_path i | None => [] end.
Definition tag_of (f : Fs) (n : Z) : bytes :=
  match inodes_ f !! n with Some i => ii_share_tag i | None => [] end.

Lemma wp_NodeIdToPath n (Q : bytes -> St -> Prop) st : Q (path_of (st_fs st) n) st -> wp (NodeIdToPath n) Q st.
Proof. done. Qed.
Lemma wp_NodeIdToShareTag n (Q : bytes -> St -> Prop) st : Q (tag_of (st_fs st) n) st -> wp (NodeIdToShareTag n) Q st.
Proof. done. Qed.
Lemma wp_GetFileHandle n (Q : option FileHandle -> St -> Prop) st : Q (file_handles_ (st_fs st) !! n) st -> wp (GetFileHandle n) Q st.
Proof. done. Qed.
Lemma wp_get_fs (Q : Fs -> St -> Prop) st : Q (st_fs st) st -> wp get_fs Q st.
Proof. done. Qed.

Lemma wp_IsShareReadonly tag (Q : bool -> St -> Prop) st :
  (forall b, (forall s, tag <> [] -> shares_ (st_fs st) !! tag = Some s -> b = si_readonly s) -> Q b st) ->
  wp (IsShareReadonly tag) Q st.
Proof.
  intros H. unfold IsShareReadonly. destruct tag as [|c tag]; [by apply wp_ret, H|].
  apply wp_bind, wp_get_fs, wp_ret, H. intros s _ ->. done.
Qed.

(** ** Paths *)

Lemma under_refl r : under r r.
Proof. exists []. rewrite app_nil_r. auto. Qed.

Lemma under_child r p n : under r p -> under r (child_path p n).
Proof.
  intros (s & -> & Hs). exists (s ++ kPathSep :: n). unfold child_path. rewrite app_assoc. split; [done|].
  right. destruct Hs as [->|[s' ->]]; eauto.
Qed.

Lemma under_trans r p q : under r p -> under p q -> under r q.
Proof.
  intros (s & -> & Hs) (t & -> & Ht). exists (s ++ t). rewrite app_assoc. split; [done|].
  destruct Hs as [->|[s' ->]]; [done|]. right. eauto.
Qed.

Lemma HasPrefix_under p r : HasPrefix p r = true -> under r p /\ p = r ++ drop (length r) p.
Proof.
  unfold HasPrefix. destruct (Nat.ltb_spec (length p) (length r)) as [|Hl]; [done|].
  case_bool_decide as Ht; cbn [negb]; [|done]. intros Hc.
  assert (Hp : p = r ++ drop (length r) p) by (rewrite <- Ht at 1; by rewrite take_drop).
  split; [|exact Hp]. exists (drop (length r) p). split; [exact Hp|].
  apply orb_true_iff in Hc as [Hc%Nat.eqb_eq|Hc%bool_decide_eq_true].
  - left. apply length_zero_iff_nil. rewrite length_drop. lia.
  - right. exists (drop (S (length r)) p). by apply drop_S.
Qed.

(** Two roots of one path: one is below the other. *)
Lemma under_comparable r1 r2 p : under r1 p -> under r2 p -> under r1 r2 \/ under r2 r1.
Proof.
  intros (s & -> & Hs) (t & Heq & Ht).
  assert (Hcase : (exists l, r1 ++ l = r2 /\ s = l ++ t) \/ (exists l, r2 ++ l = r1 /\ t = l ++ s)).
  { apply app_eq_inv in Heq as [(l & -> & ->)|(l & -> & ->)]; eauto. }
  destruct Hcase as [(l & <- & ->)|(l & <- & ->)].
  - left. exists l. split; [done|]. destruct l as [|c l]; [auto|]. right.
    destruct Hs as [|[s' Hs]]; [done|]. injection Hs as -> _. eauto.
  - right. exists l. split; [done|]. destruct l as [|c l]; [auto|]. right.
    destruct Ht as [|[t' Ht]]; [done|]. injection Ht as -> _. eauto.
Qed.

Lemma located_same sh t1 t2 p : no_overlap sh -> located sh t1 p -> located sh t2 p -> t1 = t2.
Proof.
  intros Hno (s1 & H1 & Hu1) (s2 & H2 & Hu2). destruct (decide (t1 = t2)) as [|Hne]; [done|].
  destruct (under_comparable _ _ _ Hu1 Hu2) as [Hu|Hu];
    [by destruct (Hno _ _ _ _ H1 H2 Hne)|by destruct (Hno _ _ _ _ H2 H1 (not_eq_sym Hne))].
Qed.

Lemma located_child sh t p n : located sh t p -> located sh t (child_path p n).
Proof. intros (s & Hs & Hu). exists s. split; [done|]. by apply under_child. Qed.

(** ** The invariant under the table operations *)

Lemma fs_ok_new_inode f path n d tag :
  fs_ok f -> located (shares_ f) tag path ->
  fs_ok (f_set_path_to_inode (<[path := next_inode_ f]> (path_to_inode_ f))
    (f_set_inodes (<[next_inode_ f := MkInode path n d tag]> (inodes_ f))
       (f_set_next_inode (next_inode_ f + 1) f))).
Proof.
  intros [Htag Hov Hnext Hfresh Hin Hpaths Hh] Hloc. split; cbn; try done; try lia.
  - intros i info. rewrite lookup_insert_Some. intros [[<- _]|[_ Hi]]; [lia|].
    specialize (Hfresh _ _ Hi). lia.
  - apply map_Forall_insert_2; [|done]. unfold inode_ok.
    rewrite decide_False by (unfold VIRTUAL_ROOT_INODE in *; lia). exact Hloc.
  - intros p i. rewrite lookup_insert_Some. intros [[<- <-]|[Hne Hp]].
    + split; [unfold VIRTUAL_ROOT_INODE in *; lia|]. eexists. by rewrite lookup_insert_eq.
    + destruct (Hpaths p i Hp) as (H1 & info & Hi & Hpi). split; [done|]. exists info.
      rewrite lookup_insert_ne; [done|]. intros <-. specialize (Hfresh _ _ Hi). lia.
Qed.

(** Replacing an inode's data, not its path or tag. *)
Lemma fs_ok_update_inode f i info info' :
  fs_ok f -> inodes_ f !! i = Some info ->
  ii_host_path info' = ii_host_path info -> ii_share_tag info' = ii_share_tag info ->
  fs_ok (f_set_inodes (<[i := info']> (inodes_ f)) f).
Proof.
  intros [Htag Hov Hnext Hfresh Hin Hpaths Hh] Hi Hp Ht. split; cbn; try done.
  - intros j info0. rewrite lookup_insert_Some. intros [[<- _]|[_ Hj]]; eauto.
  - apply map_Forall_insert_2; [|done]. specialize (Hin i info Hi).
    unfold inode_ok in *. by rewrite Hp, Ht.
  - intros p j Hpj. destruct (Hpaths p j Hpj) as (H1 & info0 & Hj & Hpi). split; [done|].
    destruct (decide (i = j)) as [->|Hne].
    + exists info'. rewrite lookup_insert_eq. split; [done|]. congruence.
    + exists info0. by rewrite lookup_insert_ne.
Qed.

(** Dropping an inode and, with it, the map entry of its path. *)
Lemma fs_ok_delete f i p :
  fs_ok f -> (forall info, inodes_ f !! i = Some info -> ii_host_path info = p) ->
  fs_ok (f_set_inodes (delete i (inodes_ f)) (f_set_path_to_inode (delete p (path_to_inode_ f)) f)).
Proof.
  intros [Htag Hov Hnext Hfresh Hin Hpaths Hh] Hip. split; cbn; try done.
  - intros j info. rewrite lookup_delete_Some. intros [_ Hj]. eauto.
  - by apply map_Forall_delete.
  - intros q j. rewrite lookup_delete_Some. intros [Hne Hq].
    destruct (Hpaths q j Hq) as (H1 & info & Hj & Hpj). split; [done|]. exists info.
    rewrite lookup_delete_ne; [done|]. intros <-. apply Hne. by rewrite <- (Hip _ Hj).
Qed.

Lemma fs_ok_handle f fh n h :
  fs_ok f -> handle_ok (shares_ f) h ->
  fs_ok (f_set_file_handles (<[fh := h]> (file_handles_ f)) (f_set_next_fh n f)).
Proof. intros [] Hh. split; cbn; try done. by apply map_Forall_insert_2. Qed.

Lemma fs_ok_handle_delete f fh :
  fs_ok f -> fs_ok (f_set_file_handles (delete fh (file_handles_ f)) f).
Proof. intros []. split; cbn; try done. by apply map_Forall_delete. Qed.

Lemma drop_cached_ok path f :
  fs_ok f -> fs_ok (drop_cached f path) /\ shares_ (drop_cached f path) = shares_ f.
Proof.
  intros Hok. unfold drop_cached. destruct (path_to_inode_ f !! path) as [i|] eqn:Ep; [|done].
  destruct (ok_paths f Hok path i Ep) as (_ & info & Hi & Hp). split; [|done].
  apply fs_ok_delete; [done|]. intros info' Hi'. congruence.
Qed.

Lemma drop_stale_ok new_path f :
  fs_ok f -> fs_ok (drop_stale new_path f) /\ shares_ (drop_stale new_path f) = shares_ f.
Proof.
  unfold drop_stale. generalize (List.filter (fun p => HasPrefix p new_path)
    (fst <$> path_order (path_to_inode_ f))). intros l. revert f.
  induction l as [|p l IH]; intros f Hok; cbn [foldl]; [done|].
  destruct (drop_cached_ok p f Hok) as [Hok' Hsh]. destruct (IH _ Hok') as [? ?].
  split; [done|congruence].
Qed.

(** Moving a cached path keeps the invariant when the target is located
    under the same tag as the inode. *)
Lemma move_cached_ok old_path new_path tag path f :
  fs_ok f -> HasPrefix path old_path = true ->
  located (shares_ f) tag old_path -> located (shares_ f) tag new_path ->
  fs_ok (move_cached old_path new_path f path) /\
  shares_ (move_cached old_path new_path f path) = shares_ f.
Proof.
  intros Hok Hpre Hold Hnew. unfold move_cached.
  destruct (path_to_inode_ f !! path) as [i|] eqn:Ep; [|done].
  destruct (ok_paths f Hok path i Ep) as (Hroot & info & Hi & Hp).
  cbn [inodes_ f_set_path_to_inode]. rewrite Hi. cbn. split; [|done].
  destruct (HasPrefix_under _ _ Hpre) as [Hu Hcut].
  assert (Hloc : located (shares_ f) (ii_share_tag info) path).
  { pose proof (ok_inodes f Hok i info Hi) as H. unfold inode_ok in H.
    rewrite decide_False in H by done. by rewrite Hp in H. }
  assert (Hlp : located (shares_ f) tag path).
  { destruct Hold as (s & Hs & Hus). exists s. split; [done|]. by eapply under_trans. }
  assert (Htag : ii_share_tag info = tag) by (by eapply located_same; [apply (ok_overlap f Hok)| |]).
  destruct Hok as [H1 H2 H3 H4 H5 H6 H7]. split; cbn; try done.
  - intros j info0. rewrite lookup_insert_Some. intros [[<- _]|[_ Hj]]; eauto.
  - apply map_Forall_insert_2; [|done]. unfold inode_ok. rewrite decide_False by done. cbn.
    rewrite Htag. destruct Hnew as (s & Hs & Hus). exists s. split; [done|].
    eapply under_trans; [exact Hus|]. destruct Hu as (t & Ht & Hcase).
    exists (drop (length old_path) path). split; [done|].
    rewrite Ht, drop_app_length. exact Hcase.
  - intros q j. rewrite lookup_insert_Some, lookup_delete_Some.
    intros [[<- <-]|[Hne [Hne2 Hq]]].
    + split; [done|]. eexists. by rewrite lookup_insert_eq.
    + destruct (H6 q j Hq) as (Hr & info0 & Hj & Hpj). split; [done|]. exists info0.
      rewrite lookup_insert_ne; [done|]. intros <-. congruence.
Qed.

Lemma move_all_ok old_path new_path tag f :
  fs_ok f -> located (shares_ f) tag old_path -> located (shares_ f) tag new_path ->
  fs_ok (move_all old_path new_path f) /\ shares_ (move_all old_path new_path f) = shares_ f.
Proof.
  unfold move_all. assert (Hl : Forall (fun p => HasPrefix p old_path = true)
    (List.filter (fun p => HasPrefix p old_path) (fst <$> path_order (path_to_inode_ f)))).
  { apply List.Forall_forall. intros p Hp. by apply List.filter_In in Hp as [_ ?]. }
  revert Hl. generalize (List.filter (fun p => HasPrefix p old_path) (fst <$> path_order (path_to_inode_ f))).
  intros l Hl Hok Hold Hnew. revert f Hok Hold Hnew.
  induction Hl as [|p l Hp _ IH]; intros f Hok Hold Hnew; cbn [foldl]; [done|].
  destruct (move_cached_ok old_path new_path tag p f Hok Hp Hold Hnew) as [Hok' Hsh].
  destruct (IH _ Hok') as [? ?]; [by rewrite Hsh..|]. split; [done|congruence].
Qed.

(** ** Every handler is confined *)

(** The calls since [t0] are allowed under the shares [sh]. *)
Definition calls_ok (sh : gmap bytes ShareInfo) (t0 : list HostCall) (st : St) : Prop :=
  exists cs, st_trace st = t0 ++ cs /\ Forall (call_ok sh) cs.

Definition conf (sh : gmap bytes ShareInfo) (t0 : list HostCall) (st : St) : Prop :=
  fs_ok (st_fs st) /\ shares_ (st_fs st) = sh /\ calls_ok sh t0 st.

Section confined.
  Context (sh : gmap bytes ShareInfo) (t0 : list HostCall).

Lemma wp_host c (Q : Reply c -> St -> Prop) st :
  conf sh t0 st -> call_ok sh c ->
  (forall r st', conf sh t0 st' -> st_fs st' = st_fs st -> Q r st') -> wp (host c) Q st.
Proof.
  intros (Hok & Hsh & cs & Htr & Hcs) Hc HQ. unfold wp, host.
  destruct (os c (st_world st)) as [r w]. apply HQ; [|done]. split; [done|]. split; [done|].
  exists (cs ++ [c]). cbn [st_trace]. rewrite Htr, <- app_assoc. split; [done|].
  apply Forall_app. auto.
Qed.

Ltac host_step := lazymatch goal with |- wp (host ?c) _ _ => apply (wp_host c) end.

Lemma wp_modify f (Q : unit -> St -> Prop) st :
  conf sh t0 st -> fs_ok (f (st_fs st)) -> shares_ (f (st_fs st)) = shares_ (st_fs st) ->
  (forall st', conf sh t0 st' -> Q tt st') -> wp (modify f) Q st.
Proof.
  intros (Hok & Hsh & Hcs) Hf Hshf HQ. apply HQ. split; [done|]. cbn. split; [congruence|].
  exact Hcs.
Qed.

Lemma node_located st n :
  conf sh t0 st -> path_of (st_fs st) n <> [] ->
  n <> VIRTUAL_ROOT_INODE /\ located sh (tag_of (st_fs st) n) (path_of (st_fs st) n).
Proof.
  intros (Hok & Hsh & _). unfold path_of, tag_of.
  destruct (inodes_ (st_fs st) !! n) as [info|] eqn:Ei; [|done]. intros Hne.
  pose proof (ok_inodes _ Hok n info Ei) as H. unfold inode_ok in H. rewrite Hsh in H.
  case_decide; [by destruct H|done].
Qed.

Lemma located_tag st t p : conf sh t0 st -> located sh t p -> t <> [].
Proof.
  intros (Hok & Hsh & _) (s & Hs & _) ->. pose proof (ok_tags _ Hok) as Ht. congruence.
Qed.

(** A node whose share did not answer read-only is in a writable share. *)
Lemma node_writable st n :
  conf sh t0 st -> path_of (st_fs st) n <> [] ->
  (forall s, tag_of (st_fs st) n <> [] -> shares_ (st_fs st) !! tag_of (st_fs st) n = Some s ->
     false = si_readonly s) ->
  writable sh (path_of (st_fs st) n) /\
  forall name, writable sh (child_path (path_of (st_fs st) n) name).
Proof.
  intros Hc Hne Hro. destruct (node_located st n Hc Hne) as [_ Hl].
  pose proof (located_tag _ _ _ Hc Hl) as Ht. destruct Hl as (s & Hs & Hu).
  pose proof Hc as (_ & Hsh & _). rewrite Hsh in Hro. specialize (Hro s Ht Hs).
  split; [|intros name]; exists (tag_of (st_fs st) n), s; repeat split; auto using under_child.
Qed.

Lemma writable_located p : writable sh p -> exists t, located sh t p.
Proof. intros (t & s & Hs & _ & Hu). exists t, s. done. Qed.

Lemma FillAttr_conf p i ro (Q : Z + FuseAttr -> St -> Prop) st :
  conf sh t0 st -> (exists t, located sh t p) ->
  (forall r st', conf sh t0 st' -> st_fs st' = st_fs st -> Q r st') -> wp (FillAttr p i ro) Q st.
Proof.
  intros Hc Hl HQ. apply wp_bind. host_step; [done|done|]. intros r st' Hc' Hf.
  destruct r; apply wp_ret; auto.
Qed.

Lemma share_located st tag share :
  conf sh t0 st -> shares_ (st_fs st) !! tag = Some share ->
  exists t, located sh t (si_host_path share).
Proof. intros (_ & <- & _) Hs. exists tag, share. split; [done|apply under_refl]. Qed.

Lemma new_inode_conf p n d tag (Q : Z -> St -> Prop) st :
  conf sh t0 st -> located sh tag p -> (forall i st', conf sh t0 st' -> Q i st') ->
  wp (new_inode p n d tag) Q st.
Proof.
  intros Hc Hl HQ. apply wp_bind, wp_get_fs, wp_bind.
  pose proof Hc as (Hok & Hsh & _). rewrite <- Hsh in Hl.
  apply wp_modify; [done|by apply fs_ok_new_inode|done|]. intros st' Hc'. by apply wp_ret, HQ.
Qed.

Lemma bump_ok f p i : fs_ok f -> path_to_inode_ f !! p = Some i -> fs_ok (bump_nlookup i f).
Proof.
  intros Hok Hp. destruct (ok_paths f Hok p i Hp) as (_ & info & Hi & _).
  unfold bump_nlookup. rewrite Hi. by eapply fs_ok_update_inode.
Qed.

Lemma GetOrCreateInode_conf p d tag (Q : Z -> St -> Prop) st :
  conf sh t0 st -> located sh tag p -> (forall i st', conf sh t0 st' -> Q i st') ->
  wp (GetOrCreateInode p d tag) Q st.
Proof.
  intros Hc Hl HQ. apply wp_bind, wp_get_fs.
  destruct (path_to_inode_ (st_fs st) !! p) as [i|] eqn:Ep; [|by apply new_inode_conf].
  apply wp_bind, wp_modify; [done|eapply bump_ok; [apply Hc|exact Ep]|done|].
  intros st' Hc'. by apply wp_ret, HQ.
Qed.

Lemma listed_inode_conf p d tag (Q : Z -> St -> Prop) st :
  conf sh t0 st -> located sh tag p -> (forall i st', conf sh t0 st' -> Q i st') ->
  wp (listed_inode p d tag) Q st.
Proof.
  intros Hc Hl HQ. apply wp_bind, wp_get_fs.
  destruct (path_to_inode_ (st_fs st) !! p) as [i|]; [by apply wp_ret, HQ|by apply new_inode_conf].
Qed.

Lemma AllocFileHandle_conf h d p tag (Q : Z -> St -> Prop) st :
  conf sh t0 st -> handle_ok sh (MkHandle h d p tag) -> (forall i st', conf sh t0 st' -> Q i st') ->
  wp (AllocFileHandle h d p tag) Q st.
Proof.
  intros Hc Hh HQ. apply wp_bind, wp_get_fs, wp_bind.
  pose proof Hc as (Hok & Hsh & _). rewrite <- Hsh in Hh.
  apply wp_modify; [done|by apply fs_ok_handle|done|]. intros st' Hc'. by apply wp_ret, HQ.
Qed.

Lemma RemoveInodeByPath_conf p (Q : unit -> St -> Prop) st :
  conf sh t0 st -> (forall st', conf sh t0 st' -> Q tt st') -> wp (RemoveInodeByPath p) Q st.
Proof.
  intros Hc HQ. apply wp_bind, wp_get_fs. pose proof Hc as (Hok & _).
  destruct (path_to_inode_ (st_fs st) !! p) as [i|] eqn:Ep; [|by apply wp_ret, HQ].
  destruct (ok_paths _ Hok p i Ep) as (_ & info & Hi & Hp).
  apply wp_modify; [done| |done|done]. apply fs_ok_delete; [done|]. intros info' Hi'. congruence.
Qed.

Lemma close_handle_conf h (Q : unit -> St -> Prop) st :
  conf sh t0 st -> (forall st', conf sh t0 st' -> st_fs st' = st_fs st -> Q tt st') ->
  wp (close_handle h) Q st.
Proof.
  intros Hc HQ. unfold close_handle. destruct (fh_handle h); [|by apply wp_ret, HQ].
  host_step; [done|done|]. intros [] st' ? ?. auto.
Qed.

Lemma CloseFileHandle_conf fh (Q : unit -> St -> Prop) st :
  conf sh t0 st -> (forall st', conf sh t0 st' -> Q tt st') -> wp (CloseFileHandle fh) Q st.
Proof.
  intros Hc HQ. apply wp_bind, wp_GetFileHandle.
  destruct (file_handles_ (st_fs st) !! fh) as [h|]; [|by apply wp_ret, HQ].
  apply wp_bind, close_handle_conf; [done|]. intros st1 Hc1 _.
  apply wp_modify; [done|apply fs_ok_handle_delete, Hc1|done|done].
Qed.

(** The path of a handle that names a file, or a listed directory. *)
Lemma handle_located st fh h :
  conf sh t0 st -> file_handles_ (st_fs st) !! fh = Some h ->
  fh_handle h <> None \/ is_root_handle h = false -> located sh (fh_share_tag h) (fh_path h).
Proof.
  intros (Hok & Hsh & _) Hh Hcase. pose proof (ok_handles _ Hok fh h Hh) as [(Hp & Ht & Hn)|Hl].
  - destruct Hcase as [?|Hr]; [done|]. unfold is_root_handle in Hr. by rewrite Hp, Ht in Hr.
  - by rewrite Hsh in Hl.
Qed.

Lemma handle_writable st fh h :
  conf sh t0 st -> file_handles_ (st_fs st) !! fh = Some h -> fh_handle h <> None ->
  (forall s, fh_share_tag h <> [] -> shares_ (st_fs st) !! fh_share_tag h = Some s -> false = si_readonly s) ->
  writable sh (fh_path h).
Proof.
  intros Hc Hh Hn Hro. pose proof (handle_located st fh h Hc Hh (or_introl Hn)) as Hl.
  pose proof (located_tag _ _ _ Hc Hl) as Ht. destruct Hl as (s & Hs & Hu).
  pose proof Hc as (_ & Hsh & _). rewrite Hsh in Hro. specialize (Hro s Ht Hs).
  by exists (fh_share_tag h), s.
Qed.

(** Steps through the parts of a handler that touch no table; the calls and
    the updates are left. *)
Ltac go :=
  repeat first
    [ assumption
    | lazymatch goal with
      | |- wp (mret _) _ _ => apply wp_ret
      | |- wp UB _ _ => apply wp_UB
      | |- wp (_ ≫= _) _ _ => apply wp_bind
      | |- wp (rd _ _ _) _ _ => apply wp_rd; intros ?
      | |- wp (if _ then rd _ _ _ else mret _) _ _ => apply wp_if_rd; intros ?
      | |- wp (name_after _ _) _ _ => apply wp_name_after; intros ?
      | |- wp (rename_names _) _ _ => apply wp_rename_names; intros [? ?]
      | |- wp (NodeIdToPath _) _ _ => apply wp_NodeIdToPath
      | |- wp (NodeIdToShareTag _) _ _ => apply wp_NodeIdToShareTag
      | |- wp (GetFileHandle _) _ _ => apply wp_GetFileHandle
      | |- wp get_fs _ _ => apply wp_get_fs
      end ].

Lemma share_of_root_located st n share :
  (forall m, share_order m ≡ₚ map_to_list m) ->
  conf sh t0 st -> share_of_root (st_fs st) n = Some share -> exists t, located sh t (si_host_path share).
Proof.
  intros Hord Hc. unfold share_of_root. intros ([t s] & Hf & ->)%fmap_Some.
  apply List.find_some in Hf as [Hin _]. apply list_elem_of_In in Hin. rewrite Hord in Hin.
  apply elem_of_map_to_list in Hin. by eapply share_located.
Qed.

Hypothesis share_order_perm : forall m, share_order m ≡ₚ map_to_list m.

Lemma HandleInit_conf hdr d st : conf sh t0 st -> wp (HandleInit hdr d) (fun _ => conf sh t0) st.
Proof.
  intros Hc. unfold HandleInit. go. apply wp_modify; [done| |done|]; [|intros; by go].
  destruct Hc as [[] _]. by split.
Qed.

Lemma HandleLookup_conf hdr d st : conf sh t0 st -> wp (HandleLookup hdr d) (fun _ => conf sh t0) st.
Proof.
  intros Hc. unfold HandleLookup. go. destruct (nodeid hdr =? VIRTUAL_ROOT_INODE) eqn:En.
  - destruct (shares_ (st_fs st) !! c_str d) as [share|] eqn:Es; go.
    apply FillAttr_conf; [done|by eapply share_located|]. intros [e|a] st' Hc' _; go.
  - destruct (inodes_ (st_fs st) !! nodeid hdr) as [parent|] eqn:Ep; go.
    assert (Hl : located sh (ii_share_tag parent) (child_path (ii_host_path parent) (c_str d))).
    { apply located_child. pose proof Hc as (Hok & Hsh & _).
      pose proof (ok_inodes _ Hok _ _ Ep) as H. unfold inode_ok in H. rewrite Hsh in H.
      rewrite decide_False in H; [done|]. by apply Z.eqb_neq. }
    host_step; [done|by eexists|]. intros [e|s] st1 Hc1 _; go.
    apply GetOrCreateInode_conf with (tag := ii_share_tag parent); [done..|]. intros i st2 Hc2.
    go. apply FillAttr_conf; [done|by eexists|]. intros [e|a] st3 Hc3 _; go.
Qed.

Lemma HandleForget_conf hdr d st : conf sh t0 st -> wp (HandleForget hdr d) (fun _ => conf sh t0) st.
Proof.
  intros Hc. unfold HandleForget. go. destruct (_ =? _); go.
  destruct (share_of_root _ _); go. destruct (inodes_ (st_fs st) !! nodeid hdr) as [i|] eqn:Ei; go.
  destruct (_ <? _).
  - apply wp_modify; [done| |done|done]. eapply fs_ok_update_inode; [apply Hc|exact Ei|done..].
  - apply wp_modify; [done| |done|done]. apply fs_ok_delete; [apply Hc|]. intros info Hi. congruence.
Qed.

Lemma inode_located st n i :
  conf sh t0 st -> inodes_ (st_fs st) !! n = Some i -> n <> VIRTUAL_ROOT_INODE ->
  located sh (ii_share_tag i) (ii_host_path i).
Proof.
  intros (Hok & Hsh & _) Hi Hn. pose proof (ok_inodes _ Hok _ _ Hi) as H.
  unfold inode_ok in H. rewrite Hsh in H. by rewrite decide_False in H.
Qed.

Lemma HandleGetAttr_conf hdr st : conf sh t0 st -> wp (HandleGetAttr hdr) (fun _ => conf sh t0) st.
Proof.
  intros Hc. unfold HandleGetAttr. go. destruct (_ =? _) eqn:En; [unfold FillVirtualRootAttr; go|].
  apply Z.eqb_neq in En. destruct (share_of_root _ _) as [share|] eqn:Es.
  - go. apply FillAttr_conf; [done|by eapply share_of_root_located|].
    intros [e|a] st' Hc' _; go.
  - destruct (inodes_ (st_fs st) !! nodeid hdr) as [i|] eqn:Ei; go.
    apply FillAttr_conf; [done|eexists; by eapply inode_located|intros [e|a] st' Hc' _; go].
Qed.

Lemma set_times_conf p v d (Q : unit -> St -> Prop) st :
  conf sh t0 st -> writable sh p -> (forall st', conf sh t0 st' -> st_fs st' = st_fs st -> Q tt st') ->
  wp (set_times p v d) Q st.
Proof.
  intros Hc Hw HQ. unfold set_times.
  assert (Hfin : forall times st1, conf sh t0 st1 -> st_fs st1 = st_fs st ->
    wp (host (call_utimes p times)) Q st1).
  { intros times st1 Hc1 Hf1. host_step; [done|exact Hw|]. intros [] st2 ? ?. apply HQ; congruence. }
  go. match goal with |- wp (if ?b then _ else _) _ _ => destruct b end; go; [|by apply Hfin].
  host_step; [done|by apply writable_located|]. intros [e|s] st1 Hc1 Hf1; go; by apply Hfin.
Qed.

Lemma HandleSetAttr_conf hdr d st : conf sh t0 st -> wp (HandleSetAttr hdr d) (fun _ => conf sh t0) st.
Proof.
  intros Hc. unfold HandleSetAttr. destruct (_ =? _); go.
  apply wp_IsShareReadonly. intros [] Hro; go.
  destruct (path_of (st_fs st) (nodeid hdr)) as [|c p] eqn:Ep; go.
  assert (Hw : writable sh (path_of (st_fs st) (nodeid hdr)))
    by (apply node_writable; [done|congruence|exact Hro]).
  rewrite Ep in Hw.
  assert (Hrest : forall valid st1, conf sh t0 st1 ->
    wp (if has valid FATTR_ATIME || has valid FATTR_MTIME then set_times (c :: p) valid d else mret tt)
      (fun _ => wp (HandleGetAttr hdr) (fun _ => conf sh t0)) st1).
  { intros valid st1 Hc1. destruct (_ || _); go.
    - apply set_times_conf; [done|done|]. intros st2 Hc2 _. by apply HandleGetAttr_conf.
    - by apply HandleGetAttr_conf. }
  destruct (has v FATTR_SIZE); go; [|by apply Hrest].
  host_step; [done|exact Hw|]. intros [] st1 Hc1 _. go. by apply Hrest.
Qed.

Lemma HandleOpen_conf hdr d st : conf sh t0 st -> wp (HandleOpen hdr d) (fun _ => conf sh t0) st.
Proof.
  intros Hc. unfold HandleOpen. go.
  destruct (path_of (st_fs st) (nodeid hdr)) as [|c p] eqn:Ep; go.
  apply wp_IsShareReadonly. intros ro Hro.
  assert (Hne : path_of (st_fs st) (nodeid hdr) <> []) by congruence.
  destruct (node_located st _ Hc Hne) as [_ Hl]. rewrite Ep in Hl.
  destruct (ro && negb (v .& 3 =? 0)) eqn:Eacc; go.
  host_step; [done| |].
  - exists (tag_of (st_fs st) (nodeid hdr)). split; [done|]. unfold open_flags.
    destruct (v .& 3 =? 0) eqn:E3; [done|]. intros _. rewrite andb_true_r in Eacc. subst ro.
    rewrite <- Ep. apply node_writable; [done|done|exact Hro].
  - intros [e|h] st1 Hc1 _; go. apply AllocFileHandle_conf; [done|by right|]. intros fh st2 Hc2. go.
Qed.

Lemma HandleRead_conf hdr d st : conf sh t0 st -> wp (HandleRead hdr d) (fun _ => conf sh t0) st.
Proof.
  intros Hc. unfold HandleRead. go.
  destruct (file_handles_ (st_fs st) !! v) as [[[fd|] isd p tag]|] eqn:Eh; go.
  host_step; [done| |intros [e|data] st1 Hc1 _; go].
  exists tag. apply (handle_located st v (MkHandle (Some fd) isd p tag)); [done|exact Eh|by left].
Qed.

Lemma HandleWrite_conf hdr d st : conf sh t0 st -> wp (HandleWrite hdr d) (fun _ => conf sh t0) st.
Proof.
  intros Hc. unfold HandleWrite. go.
  destruct (file_handles_ (st_fs st) !! v) as [[[fd|] isd p tag]|] eqn:Eh; go.
  apply wp_IsShareReadonly. intros [] Hro; go. destruct (_ <? _); go.
  host_step; [done| |intros [e|n] st1 Hc1 _; go].
  apply (handle_writable st v (MkHandle (Some fd) isd p tag)); [done|exact Eh|done|exact Hro].
Qed.

Lemma HandleRelease_conf d st : conf sh t0 st -> wp (HandleRelease d) (fun _ => conf sh t0) st.
Proof. intros Hc. unfold HandleRelease. go. by apply CloseFileHandle_conf. Qed.

Lemma HandleReleaseDir_conf d st : conf sh t0 st -> wp (HandleReleaseDir d) (fun _ => conf sh t0) st.
Proof. intros Hc. unfold HandleReleaseDir. go. by apply CloseFileHandle_conf. Qed.

Lemma HandleFlush_conf d st : conf sh t0 st -> wp (HandleFlush d) (fun _ => conf sh t0) st.
Proof.
  intros Hc. unfold HandleFlush. go.
  destruct (file_handles_ (st_fs st) !! v) as [[[fd|] isd p tag]|] eqn:Eh; go.
  host_step; [done| |by intros [] st1 Hc1 _].
  exists tag. apply (handle_located st v (MkHandle (Some fd) isd p tag)); [done|exact Eh|by left].
Qed.

Lemma HandleFsync_conf d st : conf sh t0 st -> wp (HandleFsync d) (fun _ => conf sh t0) st.
Proof. exact (HandleFlush_conf d st). Qed.

Lemma HandleOpenDir_conf hdr st : conf sh t0 st -> wp (HandleOpenDir hdr) (fun _ => conf sh t0) st.
Proof.
  intros Hc. unfold HandleOpenDir. go. destruct (_ =? _) eqn:En; go.
  - apply AllocFileHandle_conf; [done|by left|]. intros fh st1 Hc1. go.
  - apply Z.eqb_neq in En. destruct (inodes_ (st_fs st) !! nodeid hdr) as [i|] eqn:Ei; go.
    pose proof (inode_located _ _ _ Hc Ei En) as Hl.
    host_step; [done|by eexists|]. intros [e|s] st1 Hc1 _; go.
    destruct (S_ISDIR s); go. apply AllocFileHandle_conf; [done|by right|]. intros fh st2 Hc2. go.
Qed.

Lemma entry_is_dir_conf p t (Q : bool -> St -> Prop) st :
  conf sh t0 st -> (exists tag, located sh tag p) ->
  (forall b st', conf sh t0 st' -> Q b st') -> wp (entry_is_dir p t) Q st.
Proof.
  intros Hc Hl HQ. unfold entry_is_dir. destruct t; go; [|by apply HQ..].
  host_step; [done|done|]. intros r st' Hc' _. go. by apply HQ.
Qed.

Lemma readdir_loop_conf fh off size names eo buf st :
  conf sh t0 st -> located sh (fh_share_tag fh) (fh_path fh) ->
  wp (readdir_loop fh off size names eo buf) (fun _ => conf sh t0) st.
Proof.
  intros Hc Hl. revert eo buf st Hc. induction names as [|[name t] names IH]; intros eo buf st Hc;
    cbn [readdir_loop]; go.
  destruct (eo <? off); [by apply IH|]. destruct (size <? _); go.
  pose proof (located_child _ _ _ name Hl) as Hlc.
  apply entry_is_dir_conf; [done|by eexists|]. intros b st1 Hc1. go.
  apply listed_inode_conf; [done|done|]. intros i st2 Hc2. by apply IH.
Qed.

Lemma HandleReadDir_conf hdr d st : conf sh t0 st -> wp (HandleReadDir hdr d) (fun _ => conf sh t0) st.
Proof.
  intros Hc. unfold HandleReadDir. go.
  destruct (file_handles_ (st_fs st) !! v) as [fh|] eqn:Eh; go.
  destruct (is_root_handle fh) eqn:Er; go.
  pose proof (handle_located st v fh Hc Eh (or_intror Er)) as Hl.
  host_step; [done|by eexists|]. intros [e|names] st1 Hc1 _; go.
  eapply wp_mono; [|by apply readdir_loop_conf]. intros buf st2 Hc2. go.
Qed.

Lemma readdirplus_loop_conf fh ro off size names eo buf st :
  conf sh t0 st -> located sh (fh_share_tag fh) (fh_path fh) ->
  wp (readdirplus_loop fh ro off size names eo buf) (fun _ => conf sh t0) st.
Proof.
  intros Hc Hl. revert eo buf st Hc. induction names as [|[name t] names IH]; intros eo buf st Hc;
    cbn [readdirplus_loop]; go.
  destruct (eo <? off); [by apply IH|]. destruct (size <? _); go.
  pose proof (located_child _ _ _ name Hl) as Hlc.
  apply entry_is_dir_conf; [done|by eexists|]. intros b st1 Hc1. go.
  apply listed_inode_conf; [done|done|]. intros i st2 Hc2. go.
  apply FillAttr_conf; [done|by eexists|]. intros r st3 Hc3 _. by apply IH.
Qed.

Lemma readdirplus_root_conf off size shares eo buf st :
  conf sh t0 st -> Forall (fun ts => sh !! ts.1 = Some ts.2) shares ->
  wp (readdirplus_root off size shares eo buf) (fun _ => conf sh t0) st.
Proof.
  intros Hc Hs. revert eo buf st Hc. induction Hs as [|[t s] shares Ht _ IH]; intros eo buf st Hc;
    cbn [readdirplus_root]; go.
  destruct (eo <? off); [by apply IH|]. destruct (size <? _); go.
  apply FillAttr_conf; [done|exists t, s; split; [exact Ht|apply under_refl]|].
  intros r st1 Hc1 _. by apply IH.
Qed.

Lemma share_order_all st :
  conf sh t0 st -> Forall (fun ts => sh !! ts.1 = Some ts.2) (share_order (shares_ (st_fs st))).
Proof.
  intros (_ & -> & _). apply Forall_forall. intros [t s]. rewrite share_order_perm.
  apply elem_of_map_to_list.
Qed.

Lemma HandleReadDirPlus_conf hdr d st :
  conf sh t0 st -> wp (HandleReadDirPlus hdr d) (fun _ => conf sh t0) st.
Proof.
  intros Hc. unfold HandleReadDirPlus. go.
  destruct (file_handles_ (st_fs st) !! v) as [fh|] eqn:Eh; go.
  destruct (is_root_handle fh) eqn:Er; go.
  - eapply wp_mono; [|apply readdirplus_root_conf; [done|by apply share_order_all]].
    intros buf st2 Hc2. go.
  - pose proof (handle_located st v fh Hc Eh (or_intror Er)) as Hl.
    host_step; [done|by eexists|]. intros [e|names] st1 Hc1 _; go.
    eapply wp_mono; [|by apply readdirplus_loop_conf]. intros buf st2 Hc2. go.
Qed.

Lemma first_statvfs_conf shares st :
  conf sh t0 st -> Forall (fun ts => sh !! ts.1 = Some ts.2) shares ->
  wp (first_statvfs shares) (fun _ => conf sh t0) st.
Proof.
  intros Hc Hs. revert st Hc. induction Hs as [|[t s] shares Ht _ IH]; intros st Hc;
    cbn [first_statvfs]; go.
  host_step; [done|exists t, s; split; [exact Ht|apply under_refl]|].
  intros [e|v] st1 Hc1 _; [by apply IH|go].
Qed.

Lemma HandleStatFs_conf hdr st : conf sh t0 st -> wp (HandleStatFs hdr) (fun _ => conf sh t0) st.
Proof.
  intros Hc. unfold HandleStatFs. go.
  eapply wp_mono; [|apply first_statvfs_conf; [done|by apply share_order_all]].
  intros r st1 Hc1. destruct r; go.
Qed.

(** The common head of the handlers that change a directory: the node's
    path and tag when its share is writable. *)
Lemma writable_parent st n c p :
  conf sh t0 st -> path_of (st_fs st) n = c :: p ->
  (forall s, tag_of (st_fs st) n <> [] -> shares_ (st_fs st) !! tag_of (st_fs st) n = Some s ->
     false = si_readonly s) ->
  forall name, writable sh (child_path (c :: p) name) /\ located sh (tag_of (st_fs st) n) (child_path (c :: p) name).
Proof.
  intros Hc Ep Hro name. assert (Hne : path_of (st_fs st) n <> []) by congruence.
  rewrite <- Ep. split; [by apply node_writable|]. apply located_child. by apply node_located.
Qed.

Lemma HandleCreate_conf hdr d st : conf sh t0 st -> wp (HandleCreate hdr d) (fun _ => conf sh t0) st.
Proof.
  intros Hc. unfold HandleCreate. destruct (_ =? _); go.
  apply wp_IsShareReadonly. intros [] Hro; go.
  destruct (path_of (st_fs st) (nodeid hdr)) as [|c p] eqn:Ep; go.
  destruct (writable_parent st _ c p Hc Ep Hro v) as [Hw Hl].
  host_step; [done|exact Hw|]. intros [e|h] st1 Hc1 _; go.
  apply GetOrCreateInode_conf with (tag := tag_of (st_fs st) (nodeid hdr)); [done..|]. intros i st2 Hc2. go.
  apply AllocFileHandle_conf; [done|by right|]. intros fh st3 Hc3. go.
  apply FillAttr_conf; [done|by eexists|]. intros a st4 Hc4 _. go.
Qed.

Lemma HandleMkdir_conf hdr d st : conf sh t0 st -> wp (HandleMkdir hdr d) (fun _ => conf sh t0) st.
Proof.
  intros Hc. unfold HandleMkdir. destruct (_ =? _); go.
  apply wp_IsShareReadonly. intros [] Hro; go.
  destruct (path_of (st_fs st) (nodeid hdr)) as [|c p] eqn:Ep; go.
  destruct (writable_parent st _ c p Hc Ep Hro v) as [Hw Hl].
  host_step; [done|exact Hw|]. intros [e|h] st1 Hc1 _; go.
  apply GetOrCreateInode_conf with (tag := tag_of (st_fs st) (nodeid hdr)); [done..|]. intros i st2 Hc2. go.
  apply FillAttr_conf; [done|by eexists|]. intros a st4 Hc4 _. go.
Qed.

Lemma HandleUnlink_conf hdr d st : conf sh t0 st -> wp (HandleUnlink hdr d) (fun _ => conf sh t0) st.
Proof.
  intros Hc. unfold HandleUnlink. destruct (_ =? _); go.
  apply wp_IsShareReadonly. intros [] Hro; go.
  destruct (path_of (st_fs st) (nodeid hdr)) as [|c p] eqn:Ep; go.
  destruct (writable_parent st _ c p Hc Ep Hro (c_str d)) as [Hw Hl].
  host_step; [done|exact Hw|]. intros [e|h] st1 Hc1 _; go.
  apply RemoveInodeByPath_conf; [done|]. intros st2 Hc2. go.
Qed.

Lemma HandleRmdir_conf hdr d st : conf sh t0 st -> wp (HandleRmdir hdr d) (fun _ => conf sh t0) st.
Proof.
  intros Hc. unfold HandleRmdir. destruct (_ =? _); go.
  apply wp_IsShareReadonly. intros [] Hro; go.
  destruct (path_of (st_fs st) (nodeid hdr)) as [|c p] eqn:Ep; go.
  destruct (writable_parent st _ c p Hc Ep Hro (c_str d)) as [Hw Hl].
  host_step; [done|exact Hw|]. intros [e|h] st1 Hc1 _; go.
  apply RemoveInodeByPath_conf; [done|]. intros st2 Hc2. go.
Qed.

(** The directories of a rename are in the same share. *)
Definition same_share (hdr : FuseInHeader) (d : bytes) (f : Fs) : Prop :=
  tag_of f (nodeid hdr) = tag_of f (le_val (take 8 d)).

Definition is_rename (hdr : FuseInHeader) : bool :=
  (opcode hdr =? FUSE_RENAME) || (opcode hdr =? FUSE_RENAME2).

(** What holds after a request. *)
Definition confined_after (hdr : FuseInHeader) (d : bytes) (st st' : St) : Prop :=
  calls_ok sh t0 st' /\ shares_ (st_fs st') = sh /\
  (is_rename hdr = false \/ same_share hdr d (st_fs st) -> fs_ok (st_fs st')).

Lemma conf_after hdr d st st' : conf sh t0 st' -> confined_after hdr d st st'.
Proof. intros (Hok & Hsh & Hcs). split_and!; auto. Qed.

Lemma wp_modify_plain f (Q : unit -> St -> Prop) st :
  Q tt (MkSt (f (st_fs st)) (st_world st) (st_trace st)) -> wp (modify f) Q st.
Proof. done. Qed.

Lemma move_all_shares o n f : shares_ (move_all o n f) = shares_ f.
Proof.
  unfold move_all. generalize (List.filter (fun p => HasPrefix p o) (fst <$> path_order (path_to_inode_ f))).
  intros l. revert f. induction l as [|p l IH]; intros f; cbn [foldl]; [done|]. rewrite IH.
  unfold move_cached. by repeat case_match.
Qed.

Lemma HandleRename_conf hdr d st :
  conf sh t0 st -> is_rename hdr = true ->
  wp (HandleRename hdr d) (fun _ => confined_after hdr d st) st.
Proof.
  intros Hc Hren.
  assert (Hst : confined_after hdr d st st) by (by apply conf_after).
  unfold HandleRename. destruct (_ =? _); go.
  apply wp_IsShareReadonly. intros [] Hro; [by apply wp_ret|].
  apply wp_bind, wp_rename_names. intros [l l0]. apply wp_bind, wp_rd_val. go.
  case_bool_decide as Eo; [cbn [orb]; go|]. case_bool_decide as En; cbn [orb]; go.
  apply wp_IsShareReadonly. intros [] Hro2; go.
  set (newdir := le_val (take 8 (drop 0 d))) in *.
  destruct (path_of (st_fs st) (nodeid hdr)) as [|c p] eqn:Ep; [done|].
  destruct (path_of (st_fs st) newdir) as [|c2 p2] eqn:Ep2; [done|].
  destruct (writable_parent st _ c p Hc Ep Hro l) as [Hw Hl].
  destruct (writable_parent st _ c2 p2 Hc Ep2 Hro2 l0) as [Hw2 Hl2].
  host_step; [done|by split|]. intros [e|u] st1 Hc1 Hf1; go; [by apply conf_after|].
  apply wp_modify_plain. go. pose proof Hc1 as (Hok1 & Hsh1 & Hcs1).
  destruct (drop_stale_ok (child_path (c2 :: p2) l0) (st_fs st1) Hok1) as [Hok2 Hsh2].
  split_and!; cbn [st_fs]; [exact Hcs1|by rewrite move_all_shares, Hsh2|].
  intros [Hx|Hsame]; [congruence|]. unfold same_share in Hsame.
  change (take 8 d) with (take 8 (drop 0 d)) in Hsame. fold newdir in Hsame.
  apply (move_all_ok _ _ (tag_of (st_fs st) (nodeid hdr))); [done| |];
    rewrite Hsh2, Hsh1; [exact Hl|by rewrite Hsame].
Qed.

Lemma Dispatch_conf hdr d st :
  conf sh t0 st -> wp (Dispatch hdr d) (fun _ => confined_after hdr d st) st.
Proof.
  intros Hc. assert (Hmono : forall m : M bytes, wp m (fun _ => conf sh t0) st ->
    wp m (fun _ => confined_after hdr d st) st).
  { intros m. apply wp_mono. intros _ st'. apply conf_after. }
  assert (Hunit : forall (m : M unit) out, wp m (fun _ => conf sh t0) st ->
    wp (_ ← m; (mret out : M bytes)) (fun _ => conf sh t0) st).
  { intros m out Hm. apply wp_bind. eapply wp_mono; [|exact Hm]. intros. go. }
  unfold Dispatch.
  repeat match goal with
  | |- wp (if ((opcode hdr =? FUSE_RENAME) || _) then _ else _) _ _ =>
      destruct ((opcode hdr =? FUSE_RENAME) || (opcode hdr =? FUSE_RENAME2)) eqn:Er
  | |- wp (if ?b then _ else _) _ _ => destruct b
  end;
  try (by apply HandleRename_conf); apply Hmono; try (apply Hunit); try (by apply wp_ret).
  - by apply HandleInit_conf.
  - by apply HandleLookup_conf.
  - by apply HandleForget_conf.
  - by apply HandleGetAttr_conf.
  - by apply HandleSetAttr_conf.
  - by apply HandleOpen_conf.
  - by apply HandleRead_conf.
  - by apply HandleWrite_conf.
  - by apply HandleRelease_conf.
  - by apply HandleOpenDir_conf.
  - by apply HandleReadDir_conf.
  - by apply HandleReadDirPlus_conf.
  - by apply HandleReleaseDir_conf.
  - by apply HandleStatFs_conf.
  - by apply HandleCreate_conf.
  - by apply HandleMkdir_conf.
  - by apply HandleUnlink_conf.
  - by apply HandleRmdir_conf.
  - by apply HandleFlush_conf.
  - by apply HandleFsync_conf.
Qed.

End confined.

(** ** The device over time *)

Lemma wp_host_any c (Q : Reply c -> St -> Prop) st :
  (forall r st', st_fs st' = st_fs st -> Q r st') -> wp (host c) Q st.
Proof. intros HQ. unfold wp, host. destruct (os c (st_world st)). by apply HQ. Qed.

Ltac host_any := lazymatch goal with |- wp (host ?c) _ _ => apply (wp_host_any c) end.

Lemma close_all_any hs (Q : unit -> St -> Prop) st :
  (forall st', st_fs st' = st_fs st -> Q tt st') -> wp (close_all hs) Q st.
Proof.
  revert st. induction hs as [|h hs IH]; intros st HQ; cbn [close_all]; [by apply wp_ret, HQ|].
  apply wp_bind. unfold close_handle. destruct (fh_handle h).
  - host_any. intros [] st1 H1. apply IH. intros st2 H2. apply HQ. congruence.
  - apply wp_ret, IH. done.
Qed.

(** A new share's directory is apart from those mounted. *)
Definition apart_from (sh : gmap bytes ShareInfo) (path : bytes) : Prop :=
  forall t s, sh !! t = Some s -> ~ under path (si_host_path s) /\ ~ under (si_host_path s) path.

Lemma located_insert sh tag s t p :
  sh !! tag = None -> located sh t p -> located (<[tag := s]> sh) t p.
Proof.
  intros Hn (s0 & Hs & Hu). exists s0. split; [|done]. rewrite lookup_insert_ne; [done|congruence].
Qed.

Lemma AddShare_ok tag path ro st :
  fs_ok (st_fs st) -> tag <> [] -> apart_from (shares_ (st_fs st)) (strip_slashes path) ->
  wp (AddShare tag path ro) (fun _ st' => fs_ok (st_fs st')) st.
Proof.
  intros Hok Htag Hap. unfold AddShare. apply wp_bind, wp_get_fs.
  destruct (shares_ (st_fs st) !! tag) eqn:Et; [by apply wp_ret|].
  apply wp_bind. host_any. intros r st1 Hf1.
  match goal with |- wp (if ?b then _ else _) _ _ => destruct b end; [apply wp_ret; by rewrite Hf1|].
  apply wp_bind. host_any. intros now st2 Hf2. apply wp_bind, wp_modify_plain, wp_ret. cbn [st_fs].
  rewrite Hf2, Hf1. clear st1 st2 Hf1 Hf2 r. set (f := st_fs st) in *.
  pose proof Hok as [H1 H2 H3 H4 H5 H6 H7].
  pose proof (fs_ok_new_inode f (strip_slashes path) 1 true tag) as Hnew.
  split; cbn.
  - by rewrite lookup_insert_ne.
  - intros t1 t2 s1 s2. rewrite !lookup_insert_Some.
    intros [[<- <-]|[Hn1 Hs1]] [[<- <-]|[Hn2 Hs2]] Hne; cbn; [done| | |by eapply H2].
    + by apply (Hap t2 s2).
    + by apply (Hap t1 s1).
  - unfold VIRTUAL_ROOT_INODE in *. lia.
  - intros i info. rewrite lookup_insert_Some. intros [[<- _]|[_ Hi]]; [lia|].
    specialize (H4 _ _ Hi). lia.
  - apply map_Forall_insert_2.
    + unfold inode_ok. rewrite decide_False by (unfold VIRTUAL_ROOT_INODE in *; lia). cbn.
      eexists. rewrite lookup_insert_eq. split; [done|apply under_refl].
    + intros i info Hi. specialize (H5 i info Hi). unfold inode_ok in *. case_decide; [done|].
      by apply located_insert.
  - intros p i. rewrite lookup_insert_Some. intros [[<- <-]|[Hne Hp]].
    + split; [unfold VIRTUAL_ROOT_INODE in *; lia|]. eexists. by rewrite lookup_insert_eq.
    + destruct (H6 p i Hp) as (Hr & info & Hi & Hpi). split; [done|]. exists info.
      rewrite lookup_insert_ne; [done|]. intros <-. specialize (H4 _ _ Hi). lia.
  - intros fh h Hh. destruct (H7 fh h Hh) as [?|Hl]; [by left|right]. by apply located_insert.
Qed.

Lemma located_delete sh tag t p : t <> tag -> located sh t p -> located (delete tag sh) t p.
Proof. intros Hne (s & Hs & Hu). exists s. by rewrite lookup_delete_ne. Qed.

Lemma RemoveShare_ok tag st :
  fs_ok (st_fs st) -> wp (RemoveShare tag) (fun _ st' => fs_ok (st_fs st')) st.
Proof.
  intros Hok. unfold RemoveShare. apply wp_bind, wp_get_fs.
  destruct (shares_ (st_fs st) !! tag) eqn:Et; [|by apply wp_ret].
  apply wp_bind, close_all_any. intros st1 Hf1.
  apply wp_bind, wp_modify_plain, wp_bind, wp_modify_plain, wp_bind. host_any. intros now st2 Hf2.
  apply wp_bind, wp_modify_plain, wp_ret. cbn [st_fs] in *. rewrite Hf2, Hf1.
  clear st1 st2 Hf1 Hf2. set (f := st_fs st) in *. destruct Hok as [H1 H2 H3 H4 H5 H6 H7].
  assert (Htag : tag <> []) by (intros ->; congruence).
  split; cbn.
  - rewrite lookup_delete_ne; done.
  - intros t1 t2 s1 s2. rewrite !lookup_delete_Some. intros [_ ?] [_ ?]. by eapply H2.
  - done.
  - intros i info. rewrite map_lookup_filter_Some. intros [Hi _]. eauto.
  - intros i info. rewrite map_lookup_filter_Some. intros [Hi Hne]. cbn in Hne.
    specialize (H5 i info Hi). unfold inode_ok in *. case_decide; [done|]. by apply located_delete.
  - intros p i. rewrite map_lookup_filter_Some. intros [Hp Hni]. cbn in Hni.
    destruct (H6 p i Hp) as (Hr & info & Hi & Hpi). split; [done|]. exists info. split; [|done].
    apply map_lookup_filter_Some. split; [done|]. cbn. intros Ht. apply Hni.
    rewrite <- Hpi. apply (list_elem_of_fmap_2 (fun i => ii_host_path i.2) _ (i, info)).
    apply elem_of_map_to_list, map_lookup_filter_Some. done.
  - intros fh h. rewrite map_lookup_filter_Some. intros [Hh Hne]. cbn in Hne.
    destruct (H7 fh h Hh) as [?|Hl]; [by left|right]. by apply located_delete.
Qed.

Lemma OnStatusChange_ok new_status st :
  fs_ok (st_fs st) -> wp (Fs_OnStatusChange new_status) (fun _ st' => fs_ok (st_fs st')) st.
Proof.
  intros Hok. unfold Fs_OnStatusChange. destruct (_ =? _); [|by apply wp_ret].
  apply wp_bind, wp_get_fs, wp_bind, close_all_any. intros st1 Hf1.
  apply wp_modify_plain. cbn. rewrite Hf1. destruct Hok. by split.
Qed.

(** What happens to the device: guest requests, share management with
    separate directories, and resets; renames stay in a share. *)
Inductive fs_step : St -> St -> Prop :=
  | step_request hdr d out st st' :
      is_rename hdr = false \/ same_share hdr d (st_fs st) ->
      Dispatch hdr d st = Some (out, st') -> fs_step st st'
  | step_add tag path ro b st st' :
      tag <> [] -> apart_from (shares_ (st_fs st)) (strip_slashes path) ->
      AddShare tag path ro st = Some (b, st') -> fs_step st st'
  | step_remove tag b st st' : RemoveShare tag st = Some (b, st') -> fs_step st st'
  | step_status s u st st' : Fs_OnStatusChange s st = Some (u, st') -> fs_step st st'.

Hypothesis share_order_perm : forall m, share_order m ≡ₚ map_to_list m.

Lemma Dispatch_after hdr d out st st' :
  fs_ok (st_fs st) -> Dispatch hdr d st = Some (out, st') ->
  confined_after (shares_ (st_fs st)) (st_trace st) hdr d st st'.
Proof.
  intros Hok Hd.
  assert (Hc : conf (shares_ (st_fs st)) (st_trace st) st).
  { split; [done|]. split; [done|]. exists []. by rewrite app_nil_r. }
  pose proof (Dispatch_conf _ _ share_order_perm hdr d st Hc) as H. unfold wp in H. by rewrite Hd in H.
Qed.

Lemma wp_result {A} (m : M A) Q st a st' : wp m Q st -> m st = Some (a, st') -> Q a st'.
Proof. unfold wp. intros H Hm. by rewrite Hm in H. Qed.

Lemma fs_step_ok st st' : fs_step st st' -> fs_ok (st_fs st) -> fs_ok (st_fs st').
Proof.
  intros [hdr d out s s' Hren Hd|tag path ro b s s' Ht Ha Hd|tag b s s' Hd|v u s s' Hd] Hok.
  - by apply (Dispatch_after hdr d out s s' Hok Hd).
  - by eapply wp_result in Hd; [|by apply AddShare_ok].
  - by eapply wp_result in Hd; [|by apply RemoveShare_ok].
  - by eapply wp_result in Hd; [|by apply OnStatusChange_ok].
Qed.

Lemma fs_reachable_ok st0 st : rtc fs_step st0 st -> fs_ok (st_fs st0) -> fs_ok (st_fs st).
Proof. induction 1; [done|]. intros Hok. eauto using fs_step_ok. Qed.

Lemma Fs_new_ok now : fs_ok (Fs_new now).
Proof.
  split; try done.
  - intros i info Hi. cbn in Hi. apply lookup_singleton_Some in Hi as [<- _]. unfold VIRTUAL_ROOT_INODE; cbn; lia.
  - cbn [inodes_ Fs_new]. apply map_Forall_singleton. unfold inode_ok. by rewrite decide_True.
Qed.

(** C4. Confinement.  From a new device, after any requests, unmounts and resets
    and any mounts under non-empty tags of directories that are not inside
    one another (renames staying in a share), whatever the guest sends next:
    every path it makes the device give to the host is, as a string, inside a
    mounted share's directory, every call that changes the host is inside a
    writable share's, files of a read-only share are opened for reading only,
    and the shares stay mounted as they were.  [AddShare] checks neither
    condition on a mount: see [empty_tag_writable]. *)
Theorem requests_confined now w st hdr d out st' :
  rtc fs_step (MkSt (Fs_new now) w []) st ->
  Dispatch hdr d st = Some (out, st') ->
  (exists calls, st_trace st' = st_trace st ++ calls /\ Forall (call_ok (shares_ (st_fs st))) calls)
  /\ shares_ (st_fs st') = shares_ (st_fs st).
Proof.
  intros Hr Hd. pose proof (fs_reachable_ok _ _ Hr (Fs_new_ok now)) as Hok.
  destruct (Dispatch_after hdr d out st st' Hok Hd) as (Hcs & Hsh & _). done.
Qed.

(** ** Every request is answered *)

(** The bytes of the request behind its header that a handler reads. *)
Definition request_size (op : Z) : nat :=
  if op =? FUSE_INIT then 12
  else if op =? FUSE_SETATTR then 64
  else if op =? FUSE_OPEN then 4
  else if (op =? FUSE_READ) || (op =? FUSE_READDIR) || (op =? FUSE_READDIRPLUS) then 20
  else if op =? FUSE_WRITE then 40
  else if op =? FUSE_CREATE then 16
  else if (op =? FUSE_FORGET) || (op =? FUSE_RELEASE) || (op =? FUSE_RELEASEDIR) || (op =? FUSE_MKDIR)
       || (op =? FUSE_RENAME) || (op =? FUSE_RENAME2) || (op =? FUSE_FLUSH) || (op =? FUSE_FSYNC)
       || (op =? FUSE_FSYNCDIR) then 8
  else 0.

(** A request a driver sends: its fixed part is there, a write's data is,
    and a rename's first name ends. *)
Definition well_formed (hdr : FuseInHeader) (d : bytes) : bool :=
  (request_size (opcode hdr) <=? length d)%nat
  && (if opcode hdr =? FUSE_WRITE
      then le_val (take 4 (drop 16 d)) <=? Z.of_nat (length d) - 40 else true)
  && (if (opcode hdr =? FUSE_RENAME) || (opcode hdr =? FUSE_RENAME2)
      then (length (c_str (drop 8 d)) + 1 <=? length d - 8)%nat else true).

(** A run without undefined behaviour whose result satisfies [Q]. *)
Definition yields {A} (Q : A -> Prop) (m : M A) : Prop :=
  forall st, exists a st', m st = Some (a, st') /\ Q a.
Notation total m := (yields (fun _ => True) m).

(** A response: the header's length is that of the whole, [unique] the
    request's. *)
Definition is_reply (u : Z) (out : bytes) : Prop :=
  exists err body, out = out_header (u32 (sizeof_FuseOutHeader + Z.of_nat (length body))) err u ++ body.

Lemma is_reply_with u body : is_reply u (reply_with u body).
Proof. by exists 0, body. Qed.
Lemma is_reply_error u e : is_reply u (WriteErrorResponse u e).
Proof. exists e, []. by rewrite app_nil_r. Qed.

Lemma yields_ret {A} (Q : A -> Prop) (a : A) : Q a -> yields Q (mret a).
Proof. intros H st. by exists a, st. Qed.
Lemma yields_bind {A B} (Q : B -> Prop) (m : M A) (k : A -> M B) :
  total m -> (forall a, yields Q (k a)) -> yields Q (m ≫= k).
Proof.
  intros Hm Hk st. destruct (Hm st) as (a & st1 & Ha & _). destruct (Hk a st1) as (b & st2 & Hb & HQ).
  exists b, st2. unfold mbind, M_bind. by rewrite Ha.
Qed.
Lemma yields_ret_bind {A B} (Q : B -> Prop) (a : A) (k : A -> M B) : yields Q (k a) -> yields Q (mret a ≫= k).
Proof. done. Qed.
Lemma total_host c : total (host c).
Proof. intros st. unfold host. destruct (os c (st_world st)). eauto. Qed.
Lemma total_get_fs : total get_fs.
Proof. intros st. by eexists _, _. Qed.
Lemma total_modify f : total (modify f).
Proof. intros st. by eexists _, _. Qed.
Lemma rd_fits n off d : (off + n <= length d)%nat -> rd n off d = mret (le_val (take n (drop off d))).
Proof. intros H. unfold rd. by rewrite (proj2 (Nat.leb_le _ _) H). Qed.
Lemma total_rd n off d : (off + n <= length d)%nat -> total (rd n off d).
Proof. intros H. rewrite rd_fits by done. by apply yields_ret. Qed.
Lemma total_name_after n d : (n <= length d)%nat -> total (name_after n d).
Proof. intros H. unfold name_after. destruct (Nat.ltb_spec (length d) n); [lia|]. by apply yields_ret. Qed.
Lemma total_rename_names d :
  (8 <= length d)%nat -> (length (c_str (drop 8 d)) + 1 <= length d - 8)%nat -> total (rename_names d).
Proof.
  intros H8 Hn. unfold rename_names, sizeof_FuseRenameIn. rewrite length_drop.
  destruct (Nat.ltb_spec (length d) 8); [lia|].
  destruct (Nat.ltb_spec (length d - 8) (length (c_str (drop 8 d)) + 1)); [lia|]. by apply yields_ret.
Qed.

(** Steps through a handler: the primitives are total where the request is
    long enough, every branch ends in a response. *)
Ltac yields_step :=
  lazymatch goal with
  | |- @yields _ _ ?m =>
      lazymatch m with
      | mret _ => apply yields_ret; cbv beta
      | mret ?a ≫= ?k => apply (yields_ret_bind _ a k)
      | _ ≫= _ => apply yields_bind; [|intros ?]
      | host ?c => exact (total_host c)
      | get_fs => apply total_get_fs
      | modify _ => apply total_modify
      | rd _ _ _ => apply total_rd; lia
      | name_after _ _ => apply total_name_after; unfold sizeof_FuseCreateIn, sizeof_FuseMkdirIn; lia
      | match ?x with _ => _ end => destruct x eqn:?
      end
  | |- is_reply _ (reply_with _ _) => apply is_reply_with
  | |- is_reply _ (attr_reply _ _ _) => apply is_reply_with
  | |- is_reply _ (WriteErrorResponse _ _) => apply is_reply_error
  | |- True => exact I
  end.
Ltac yields_unfold :=
  lazymatch goal with
  | |- @yields _ _ ?m =>
      lazymatch m with
      | NodeIdToPath _ => unfold NodeIdToPath
      | NodeIdToShareTag _ => unfold NodeIdToShareTag
      | GetFileHandle _ => unfold GetFileHandle
      | IsShareReadonly _ => unfold IsShareReadonly
      | new_inode _ _ _ _ => unfold new_inode
      | lookup_inode _ _ _ => unfold lookup_inode
      | listed_inode _ _ _ => unfold listed_inode
      | GetOrCreateInode _ _ _ => unfold GetOrCreateInode
      | RemoveInodeByPath _ => unfold RemoveInodeByPath
      | AllocFileHandle _ _ _ _ => unfold AllocFileHandle
      | close_handle _ => unfold close_handle
      | CloseFileHandle _ => unfold CloseFileHandle
      | FillAttr _ _ _ => unfold FillAttr
      | FillShareRootAttr _ => unfold FillShareRootAttr
      | FillVirtualRootAttr => unfold FillVirtualRootAttr
      | entry_is_dir _ _ => unfold entry_is_dir
      | set_times _ _ _ => unfold set_times
      end
  end.
Ltac yields_auto := repeat (yields_step || yields_unfold).

Lemma readdir_loop_total fh offset size names : forall eo buf, total (readdir_loop fh offset size names eo buf).
Proof. induction names as [|[name t] names IH]; intros eo buf; cbn [readdir_loop]; yields_auto; apply IH. Qed.
Lemma readdirplus_loop_total fh ro offset size names :
  forall eo buf, total (readdirplus_loop fh ro offset size names eo buf).
Proof. induction names as [|[name t] names IH]; intros eo buf; cbn [readdirplus_loop]; yields_auto; apply IH. Qed.
Lemma readdirplus_root_total offset size shares :
  forall eo buf, total (readdirplus_root offset size shares eo buf).
Proof. induction shares as [|[tag s] shares IH]; intros eo buf; cbn [readdirplus_root]; yields_auto; apply IH. Qed.
Lemma first_statvfs_total shares : total (first_statvfs shares).
Proof. induction shares as [|[tag s] shares IH]; cbn [first_statvfs]; yields_auto; apply IH. Qed.

Ltac replies := yields_auto;
  first [apply readdir_loop_total|apply readdirplus_loop_total|apply readdirplus_root_total
        |apply first_statvfs_total].

Lemma HandleInit_replies hdr d : (12 <= length d)%nat -> yields (is_reply (unique hdr)) (HandleInit hdr d).
Proof. intros H. unfold HandleInit. yields_auto. Qed.
Lemma HandleLookup_replies hdr d : yields (is_reply (unique hdr)) (HandleLookup hdr d).
Proof. unfold HandleLookup. yields_auto. Qed.
Lemma HandleForget_total hdr d : (8 <= length d)%nat -> total (HandleForget hdr d).
Proof. intros H. unfold HandleForget. yields_auto. Qed.
Lemma HandleGetAttr_replies hdr : yields (is_reply (unique hdr)) (HandleGetAttr hdr).
Proof. unfold HandleGetAttr. yields_auto. Qed.
Lemma HandleSetAttr_replies hdr d : (64 <= length d)%nat -> yields (is_reply (unique hdr)) (HandleSetAttr hdr d).
Proof. intros H. unfold HandleSetAttr. yields_auto; apply HandleGetAttr_replies. Qed.
Lemma HandleOpen_replies hdr d : (4 <= length d)%nat -> yields (is_reply (unique hdr)) (HandleOpen hdr d).
Proof. intros H. unfold HandleOpen. yields_auto. Qed.
Lemma HandleRead_replies hdr d : (20 <= length d)%nat -> yields (is_reply (unique hdr)) (HandleRead hdr d).
Proof. intros H. unfold HandleRead. yields_auto. Qed.
Lemma HandleWrite_replies hdr d :
  (40 <= length d)%nat -> le_val (take 4 (drop 16 d)) <= Z.of_nat (length d) - 40 ->
  yields (is_reply (unique hdr)) (HandleWrite hdr d).
Proof.
  intros H Hs. unfold HandleWrite. rewrite (rd_fits 4 16) by lia. yields_auto.
  exfalso. rewrite Z.ltb_lt in *. unfold sizeof_FuseWriteIn in *. lia.
Qed.
Lemma HandleOpenDir_replies hdr : yields (is_reply (unique hdr)) (HandleOpenDir hdr).
Proof. unfold HandleOpenDir. yields_auto. Qed.
Lemma HandleReadDir_replies hdr d : (20 <= length d)%nat -> yields (is_reply (unique hdr)) (HandleReadDir hdr d).
Proof. intros H. unfold HandleReadDir. replies. Qed.
Lemma HandleReadDirPlus_replies hdr d : (20 <= length d)%nat -> yields (is_reply (unique hdr)) (HandleReadDirPlus hdr d).
Proof. intros H. unfold HandleReadDirPlus. replies. Qed.
Lemma HandleStatFs_replies hdr : yields (is_reply (unique hdr)) (HandleStatFs hdr).
Proof. unfold HandleStatFs. replies. Qed.
Lemma HandleCreate_replies hdr d : (16 <= length d)%nat -> yields (is_reply (unique hdr)) (HandleCreate hdr d).
Proof. intros H. unfold HandleCreate. yields_auto. Qed.
Lemma HandleMkdir_replies hdr d : (8 <= length d)%nat -> yields (is_reply (unique hdr)) (HandleMkdir hdr d).
Proof. intros H. unfold HandleMkdir. yields_auto. Qed.
Lemma HandleUnlink_replies hdr d : yields (is_reply (unique hdr)) (HandleUnlink hdr d).
Proof. unfold HandleUnlink. yields_auto. Qed.
Lemma HandleRmdir_replies hdr d : yields (is_reply (unique hdr)) (HandleRmdir hdr d).
Proof. unfold HandleRmdir. yields_auto. Qed.
Lemma HandleRename_replies hdr d :
  (8 <= length d)%nat -> (length (c_str (drop 8 d)) + 1 <= length d - 8)%nat ->
  yields (is_reply (unique hdr)) (HandleRename hdr d).
Proof. intros H Hn. unfold HandleRename. yields_auto; by apply total_rename_names. Qed.
Lemma HandleRelease_total d : (8 <= length d)%nat -> total (HandleRelease d).
Proof. intros H. unfold HandleRelease. yields_auto. Qed.
Lemma HandleReleaseDir_total d : (8 <= length d)%nat -> total (HandleReleaseDir d).
Proof. intros H. unfold HandleReleaseDir. yields_auto. Qed.
Lemma HandleFlush_total d : (8 <= length d)%nat -> total (HandleFlush d).
Proof. intros H. unfold HandleFlush. yields_auto. Qed.
Lemma HandleFsync_total d : (8 <= length d)%nat -> total (HandleFsync d).
Proof. intros H. unfold HandleFsync. yields_auto. Qed.

#[local] Hint Resolve HandleInit_replies HandleLookup_replies HandleGetAttr_replies HandleSetAttr_replies
  HandleOpen_replies HandleRead_replies HandleWrite_replies HandleOpenDir_replies HandleReadDir_replies
  HandleReadDirPlus_replies HandleStatFs_replies HandleCreate_replies HandleMkdir_replies
  HandleUnlink_replies HandleRmdir_replies HandleRename_replies HandleRelease_total
  HandleReleaseDir_total HandleFlush_total HandleFsync_total HandleForget_total : fs_replies.

(** One opcode. *)
Ltac answered E Hlen Hw Hn :=
  rewrite E in *; cbn in Hlen, Hw, Hn; try apply Z.leb_le in Hw; try apply Nat.leb_le in Hn;
  lazymatch goal with
  | |- yields (fun _ => if ?c then _ else _) _ => let v := eval vm_compute in c in change c with v; cbv iota
  | _ => idtac
  end;
  try (apply yields_bind; [|intros ?; apply yields_ret; cbv beta]);
  try apply yields_ret; cbv beta;
  eauto using is_reply_error with fs_replies.

(** C24. Progress.  A request that holds what its opcode needs is answered
    without undefined behaviour, whatever the tables are and whatever the
    host answers; the response starts with a header that carries its own
    length and the request's [unique]; only FORGET has none. *)
Theorem requests_answered hdr d st :
  well_formed hdr d = true ->
  exists out st', Dispatch hdr d st = Some (out, st')
    /\ (if opcode hdr =? FUSE_FORGET then out = [] else is_reply (unique hdr) out).
Proof.
  intros Hwf. apply andb_true_iff in Hwf as [[Hlen Hw]%andb_true_iff Hn].
  apply Nat.leb_le in Hlen. revert st.
  change (yields (fun out => if opcode hdr =? FUSE_FORGET then out = [] else is_reply (unique hdr) out)
            (Dispatch hdr d)).
  unfold request_size in Hlen. unfold Dispatch.
  repeat lazymatch goal with
  | |- yields _ (if (?o =? ?c) || (?o =? ?c') then _ else _) =>
      let E := fresh in destruct ((o =? c) || (o =? c')) eqn:E;
      [apply orb_true_iff in E as [E|E]; apply Z.eqb_eq in E; answered E Hlen Hw Hn|clear E]
  | |- yields _ (if ?o =? ?c then _ else _) =>
      let E := fresh in destruct (o =? c) eqn:E; [apply Z.eqb_eq in E; answered E Hlen Hw Hn|]
  end.
  apply yields_ret, is_reply_error.
Qed.
End fs.

(** ** Concrete runs *)

(** A host where every path is a writable directory with the entries [.]
    and [..], and every call succeeds. *)
Definition demo_stat : Stat := MkStat 0 0 2 0x41FF (0, 0) (0, 0) (0, 0).
Definition demo_os (c : HostCall) (w : unit) : Reply c * unit :=
  (match c return Reply c with
   | call_stat _ => inr demo_stat
   | call_open _ _ | call_create _ _ => inr 5
   | call_truncate _ _ | call_utimes _ _ | call_fsync _ _ | call_close _ => tt
   | call_pread _ _ _ _ => inr []
   | call_pwrite _ _ d _ => inr (Z.of_nat (length d))
   | call_readdir _ => inr [(str ".", DT_DIR); (str "..", DT_DIR)]
   | call_mkdir _ _ | call_unlink _ | call_rmdir _ | call_rename _ _ => inr tt
   | call_statvfs _ => inl 2
   | call_time => 0
   end, w).

Definition demo_new : St := MkSt (Fs_new 0) tt [].
Definition demo_dispatch := Dispatch demo_os map_to_list map_to_list.
Definition demo_add (tag path : bytes) (ro : bool) (st : St) : St :=
  match AddShare demo_os tag path ro st with Some (_, st) => st | None => st end.
Definition demo_request (op nodeid : Z) (d : bytes) (st : St) : option (St (W := unit)) :=
  snd <$> demo_dispatch (MkInHeader op 9 nodeid) d st.
(** The host calls from the [n]-th. *)
Definition calls_from (n : nat) (st : option (St (W := unit))) : option (list HostCall) := drop n ∘ st_trace <$> st.

Definition demo_st : St := demo_add (str "t") (str "/s/") false demo_new.

Lemma requests_confined_witness :
  exists out st', Dispatch demo_os map_to_list map_to_list (MkInHeader FUSE_LOOKUP 9 2) (str "f") demo_st = Some (out, st')
  /\ (exists calls, st_trace st' = st_trace demo_st ++ calls /\ Forall (call_ok (shares_ (st_fs demo_st))) calls)
  /\ shares_ (st_fs st') = shares_ (st_fs demo_st).
Proof.
  destruct (Dispatch demo_os map_to_list map_to_list (MkInHeader FUSE_LOOKUP 9 2) (str "f") demo_st)
    as [[out st']|] eqn:Hd; [|vm_compute in Hd; discriminate].
  exists out, st'. split; [done|].
  apply (requests_confined demo_os map_to_list map_to_list (fun m => reflexivity _) 0 tt demo_st
    (MkInHeader FUSE_LOOKUP 9 2) (str "f") out); [|done].
  apply rtc_once. apply (step_add _ _ _ (str "t") (str "/s/") false true); [done| |by vm_compute].
  intros t s Hs. done.
Defined.

Lemma requests_answered_witness :
  well_formed (MkInHeader FUSE_LOOKUP 9 2) (str "f") = true
  /\ exists out st', Dispatch demo_os map_to_list map_to_list (MkInHeader FUSE_LOOKUP 9 2) (str "f") demo_st = Some (out, st')
     /\ is_reply 9 out.
Proof.
  split; [done|].
  apply (requests_answered demo_os map_to_list map_to_list (MkInHeader FUSE_LOOKUP 9 2) (str "f") demo_st).
  reflexivity.
Defined.

(** LOOKUP of [..] in a share's root makes a node of the directory above
    the share: as a string the path is inside, for the host it is not. *)
Example lookup_dotdot :
  calls_from 2 (demo_request FUSE_LOOKUP 2 (str "..") demo_st)
  = Some [call_stat (str "/s/.."); call_stat (str "/s/..")].
Proof. vm_compute. reflexivity. Qed.

(** So does LOOKUP of a name with separators. *)
Example lookup_slashes :
  calls_from 2 (demo_request FUSE_LOOKUP 2 (str "../etc/passwd") demo_st)
  = Some [call_stat (str "/s/../etc/passwd"); call_stat (str "/s/../etc/passwd")].
Proof. vm_compute. reflexivity. Qed.

(** A rename from one share into another leaves the node in the first:
    when the second is mounted again, read-only, the file is still opened
    for writing through it. *)
Definition le64 (v : Z) : bytes := le_bytes 8 v.
Definition after (o : option (St (W := unit))) : St := default demo_new o.
Definition demo_moved : St :=
  let st := demo_add (str "u") (str "/x") false demo_st in
  let st := after (demo_request FUSE_LOOKUP 2 (str "f") st) in
  let st := after (demo_request FUSE_RENAME 2 (le64 3 ++ str "f" ++ [0] ++ str "g" ++ [0]) st) in
  let st := match RemoveShare demo_os (str "u") st with Some (_, st) => st | None => st end in
  demo_add (str "u") (str "/x") true st.

Example moved_file_writable :
  (tag_of (st_fs demo_moved) 4, path_of (st_fs demo_moved) 4, tag_readonly (st_fs demo_moved) (str "u"))
  = (str "t", str "/x/g", true)
  /\ calls_from (length (st_trace demo_moved)) (demo_request FUSE_OPEN 4 (le_bytes 4 2) demo_moved)
     = Some [call_open (str "/x/g") 2].
Proof. vm_compute. split; reflexivity. Qed.

(** A write that announces more than it carries reads behind the request. *)
Example write_overread :
  let st := after (demo_request FUSE_OPEN 2 (le_bytes 4 2) demo_st) in
  demo_request FUSE_WRITE 2 (le64 1 ++ le64 0 ++ le_bytes 4 65536 ++ replicate 20 0 ++ str "data") st = None.
Proof. vm_compute. reflexivity. Qed.

(** RENAME2 has 16 bytes before the names; 8 are skipped, so the flags are
    taken for the old name. *)
Example rename2_misparsed :
  calls_from 2 (demo_request FUSE_RENAME2 2 (le64 2 ++ le_bytes 4 0 ++ le_bytes 4 0
    ++ str "a" ++ [0] ++ str "b" ++ [0]) demo_st)
  = Some [call_rename (str "/s/") (str "/s/")].
Proof. vm_compute. reflexivity. Qed.

(** A short CREATE. *)
Example create_short : demo_request FUSE_CREATE 2 (str "abc") demo_st = None.
Proof. vm_compute. reflexivity. Qed.

(** A share with an empty tag is writable whatever it was mounted as. *)
Example empty_tag_writable :
  let st := demo_add [] (str "/s") true demo_new in
  tag_readonly (st_fs st) [] = true
  /\ calls_from 2 (demo_request FUSE_OPEN 2 (le_bytes 4 2) st) = Some [call_open (str "/s") 2].
Proof. vm_compute. split; reflexivity. Qed.
