(* ===== verification/VirtioChain.v ===== *)
(** * Requests on a virtqueue

    What the virtio device models share: collecting the device-readable
    bytes of a chain, filling the device-writable ones, and the loop
    [while (vq.PopAvail(&head))] with a handler as its body (the control
    queue loops of virtio_gpu.cpp, virtio_snd.cpp and others have this
    shape).  [drain_all]: on a ring the driver laid out inside RAM, with a
    handler that returns and leaves the available ring alone, the loop ends
    and has handled exactly the requests published, in order. *)

From S2P Require Import Prelude.
From S2P Require Import StdString.
From S2P Require Import GuestMem.
From S2P Require Import VirtQueue.
From S2P Require Import VirtioMmio.

(** The device-readable bytes, concatenated. *)
Fixpoint gather_readable (chain : list VirtqChainElem) (h : HostMem) : option bytes :=
  match chain with
  | [] => Some []
  | e :: chain =>
      if e_writable e then gather_readable chain h
      else
        l ← hm_read h (e_addr e) (e_len e);
        rest ← gather_readable chain h;
        Some (l ++ rest)
  end.

(** The response copied into the device-writable elements as far as they
    reach, with the number of bytes written. *)
Fixpoint scatter_writable (chain : list VirtqChainElem) (resp : bytes) (h : HostMem)
    : option (HostMem * Z) :=
  match chain with
  | [] => Some (h, 0)
  | e :: chain =>
      if negb (e_writable e) then scatter_writable chain resp h
      else if bool_decide (resp = []) then Some (h, 0)
      else
        let n := Nat.min (Z.to_nat (e_len e)) (length resp) in
        h ← hm_write h (e_addr e) (take n resp);
        r ← scatter_writable chain (drop n resp) h;
        Some (fst r, Z.of_nat n + snd r)
  end.

Lemma scatter_written chain resp h h' n :
  scatter_writable chain resp h = Some (h', n) -> 0 <= n <= Z.of_nat (length resp).
Proof.
  revert resp h h' n. induction chain as [|e chain IH]; intros resp h h' n; cbn [scatter_writable].
  - intros [= <- <-]. lia.
  - destruct (negb (e_writable e)); [apply IH|]. case_bool_decide; [intros [= <- <-]; lia|].
    intros Hs. apply bind_Some in Hs as (h1 & _ & Hs). apply bind_Some in Hs as ([h2 k] & Hs & E).
    injection E as <- <-. apply IH in Hs. rewrite length_drop in Hs. cbn [fst snd]. lia.
Qed.

Lemma scatter_map chain resp h h' n :
  scatter_writable chain resp h = Some (h', n) -> hm_map h' = hm_map h.
Proof.
  revert resp h h' n. induction chain as [|e chain IH]; intros resp h h' n; cbn [scatter_writable].
  - by intros [= <- <-].
  - destruct (negb (e_writable e)); [apply IH|]. case_bool_decide; [by intros [= <- <-]|].
    intros Hs. apply bind_Some in Hs as (h1 & Hw & Hs). apply bind_Some in Hs as ([h2 k] & Hs & E).
    injection E as <- <-. apply IH in Hs. apply hm_write_map in Hw. by rewrite Hs.
Qed.

(** ** The drain loop *)

Section Drain.
  Context {D : Type} (handle : Z -> Mmio * D * HostMem -> option (Mmio * D * HostMem)).

(** Queue [i] of the transport drained; the handler may use the transport,
    to complete the request and to reach other queues.  [fuel] bounds the
    iterations, [None] is undefined behaviour (or a handler's). *)
Fixpoint drain (fuel : nat) (i : Z) (w : Mmio * D * HostMem) : option (Mmio * D * HostMem) :=
  match fuel with
  | O => None
  | S fuel =>
      let '(m, d, h) := w in
      r ← PopAvail (queue_at m i) h;
      let '(o, q, h) := (r : option Z * VirtQueue * HostMem) in
      let m := set_queue i q m in
      match o with
      | None => Some (m, d, h)
      | Some head => w ← handle head (m, d, h); drain fuel i w
      end
  end.

(** The requests the driver published and the device has not taken. *)
Definition published (q : VirtQueue) (h : HostMem) (avail : Z) : list Z :=
  map (avail_entry h q avail) (seqZ (last_avail_idx_ q) (avail_count q h avail)).

(** What the loop needs of its handler, for the requests [heads] of queue
    [i]: from an invariant of the world before request [k] is popped, it
    returns with the one before request [k + 1], and keeps the memory map,
    the queue and its available ring.  The pop itself moves the queue's index
    and may change the event word behind the used ring. *)
Definition handler_ok (q : VirtQueue) (i avail used : Z) (heads : list Z)
    (Inv : nat -> Mmio -> D -> HostMem -> Prop) : Prop :=
  forall k head m d h q1 h1,
    heads !! k = Some head -> 0 <= i < num_queues m -> same_ring q (queue_at m i) -> Inv k m d h ->
    same_ring (queue_at m i) q1 -> same_but_event q used h h1 ->
    exists m' d' h', handle head (set_queue i q1 m, d, h1) = Some (m', d', h') /\ Inv (S k) m' d' h'
      /\ num_queues m' = num_queues m /\ queue_at m' i = q1 /\ hm_map h' = hm_map h1
      /\ hm_read h' avail (6 + 2 * queue_size_ q) = hm_read h1 avail (6 + 2 * queue_size_ q).

Lemma hm_read_sub h a n k m l :
  0 <= k -> 0 <= m -> k + m <= n -> hm_read h a n = Some l ->
  hm_read h (a + k) m = Some (take (Z.to_nat m) (drop (Z.to_nat k) l)).
Proof.
  intros Hk Hm Hn. unfold hm_read. destruct ((0 <=? a) && (a + n <=? alloc_size (hm_map h))) eqn:E; [|done].
  bool_hyps. intros [= <-].
  rewrite (proj2 (Z.leb_le 0 (a + k))), (proj2 (Z.leb_le (a + k + m) _)) by lia. cbn [andb]. f_equal.
  apply list_eq. intros i. destruct (decide (i < Z.to_nat m)%nat).
  - rewrite lookup_peek, lookup_take_lt, lookup_drop, lookup_peek by lia. do 2 f_equal. lia.
  - rewrite !lookup_ge_None_2; [done| |]; rewrite ?length_take, ?length_drop, ?length_peek; lia.
Qed.

(** Loads from a region whose bytes are kept. *)
Lemma kept_load n h h' a len k :
  0 <= a -> a + len <= alloc_size (hm_map h) -> hm_read h' a len = hm_read h a len ->
  0 <= k -> k + Z.of_nat n <= len -> hm_load n h' (a + k) = hm_load n h (a + k).
Proof.
  intros Ha Hin Heq Hk Hn. unfold hm_load.
  destruct (hm_read h a len) as [l|] eqn:E.
  - rewrite (hm_read_sub h' a len k (Z.of_nat n) l), (hm_read_sub h a len k (Z.of_nat n) l); done || lia.
  - exfalso. unfold hm_read in E.
    rewrite (proj2 (Z.leb_le 0 a)), (proj2 (Z.leb_le (a + len) _)) in E by lia. done.
Qed.

Lemma same_ring_sym q q' : same_ring q q' -> same_ring q' q.
Proof. intros (?&?&?&?&?&?&?). repeat split; congruence. Qed.

Lemma same_but_event_size q q' used h h' :
  queue_size_ q' = queue_size_ q -> same_but_event q used h h' -> same_but_event q' used h h'.
Proof. unfold same_but_event. by intros ->. Qed.

(** The ring as the loop sees it after one request. *)
Lemma kept_ring q h h' avail used :
  ring_layout q h avail used ->
  hm_map h' = hm_map h ->
  hm_read h' avail (6 + 2 * queue_size_ q) = hm_read h avail (6 + 2 * queue_size_ q) ->
  avail_idx h' avail = avail_idx h avail
  /\ (forall k, avail_entry h' q avail k = avail_entry h q avail k).
Proof.
  intros [Hsz Ha Hu Hain Huin Hdis] Hm Hk. split.
  - unfold avail_idx. erewrite kept_load; [done| | |exact Hk| |]; lia.
  - intros k. unfold avail_entry. pose proof (Z.mod_pos_bound (u16 k) (queue_size_ q)).
    replace (avail + 4 + 2 * (u16 k mod queue_size_ q)) with (avail + (4 + 2 * (u16 k mod queue_size_ q))) by lia.
    erewrite kept_load; [done| | |exact Hk| |]; lia.
Qed.

Lemma event_ring q h h' avail used :
  ring_layout q h avail used -> same_but_event q used h h' ->
  avail_idx h' avail = avail_idx h avail
  /\ (forall k, avail_entry h' q avail k = avail_entry h q avail k).
Proof.
  intros Hl Hs. eapply kept_ring; [exact Hl|apply Hs|]. destruct Hl, Hs as [_ Hs]. apply Hs; lia.
Qed.

Lemma queue_at_set i q m : 0 <= i < num_queues m -> queue_at (set_queue i q m) i = q.
Proof.
  intros Hi. unfold queue_at, set_queue, num_queues in *. cbn.
  apply nth_lookup_Some. apply list_lookup_insert_eq. lia.
Qed.

Lemma num_queues_set i q m : num_queues (set_queue i q m) = num_queues m.
Proof. unfold num_queues, set_queue. cbn. by rewrite length_insert. Qed.

Lemma set_queue_self i m : set_queue i (queue_at m i) m = m.
Proof.
  unfold set_queue, queue_at. destruct m as [? ? ? ? ? ? ? qs]. cbn. unfold set_queues. cbn. f_equal.
  destruct (decide (Z.to_nat i < length qs)%nat).
  - apply list_insert_id. destruct (lookup_lt_is_Some_2 qs (Z.to_nat i)) as [q Hq]; [done|].
    by rewrite Hq, (nth_lookup_Some _ _ _ _ Hq).
  - apply list_insert_ge. lia.
Qed.

Lemma drain_aux q0 Inv i avail used heads : handler_ok q0 i avail used heads Inv ->
  forall n k m d h,
  let q := queue_at m i in
  0 <= i < num_queues m -> same_ring q0 q -> ring_layout q h avail used -> queue_ok q ->
  in_width 16 (avail_idx h avail) -> avail_count q h avail = Z.of_nat n ->
  drop k heads = published q h avail -> (k + n = length heads)%nat -> Inv k m d h ->
  exists m' d' h',
    drain (S n) i (m, d, h) = Some (m', d', h')
    /\ same_ring q (queue_at m' i) /\ last_avail_idx_ (queue_at m' i) = avail_idx h avail
    /\ num_queues m' = num_queues m /\ Inv (length heads) m' d' h'.
Proof.
  intros Hh. induction n as [|n IH]; intros k m d h q Hi H0 Hlay Hok Hw Hn Hk Hlen HI;
    pose proof (PopAvail_step q h avail used Hlay Hok) as Hstep; cbv zeta in Hstep;
    pose proof Hok as [Hr Hl].
  - apply u16_sub_zero in Hn; [|done|done]. rewrite Hn, Z.eqb_refl in Hstep.
    cbn [drain]. fold q. rewrite Hstep. cbn. do 3 eexists. split; [done|].
    subst q. rewrite set_queue_self. replace (length heads) with k by lia.
    split; [apply same_ring_refl|]. done.
  - assert (Hne : last_avail_idx_ q <> avail_idx h avail).
    { intros E. unfold avail_count in Hn. rewrite E, Z.sub_diag in Hn. done. }
    rewrite (proj2 (Z.eqb_neq _ _) Hne) in Hstep.
    destruct Hstep as (q1 & h1 & Hpop & Hlast & Hsame & Hmem).
    destruct (event_ring q h h1 avail used Hlay Hmem) as [Hidx Hent].
    assert (Hlay1 : ring_layout q1 h1 avail used) by (eapply same_ring_layout; [done|done|apply Hmem]).
    pose proof Hsame as (Hsz & _ & _ & _ & Hrdy & _). pose proof H0 as (Hsz0 & _).
    unfold published in Hk. rewrite Hn, Nat2Z.inj_succ, (seqZ_cons _ (Z.succ (Z.of_nat n))) in Hk by lia.
    cbn [map] in Hk. rewrite Z.pred_succ in Hk.
    destruct (Hh k (avail_entry h q avail (last_avail_idx_ q)) m d h q1 h1) as
      (m2 & d2 & h2 & Hhd & HI2 & Hnum & Hq2 & Hm2 & Hk2); try done.
    { by rewrite <- (Nat.add_0_r k), <- lookup_drop, Hk. }
    { by eapply same_but_event_size; [symmetry; exact Hsz0|]. }
    destruct (kept_ring q1 h1 h2 avail used Hlay1) as [Hidx2 Hent2]; [done|by rewrite Hsz, Hsz0|].
    destruct (u16_pred (avail_idx h avail) (last_avail_idx_ q)) as [Hc _]; [done|done|done|].
    specialize (IH (S k) m2 d2 h2). rewrite Hq2, Hnum in IH.
    assert (Hcn : avail_count q1 h2 avail = Z.of_nat n).
    { unfold avail_count in *. rewrite Hidx2, Hidx, Hlast. lia. }
    destruct IH as (m' & d' & h' & Hrun & Hs' & Hl' & Hn' & HI'); try done.
    + by eapply same_ring_trans.
    + eapply same_ring_layout; [exact Hlay1|apply same_ring_refl|done].
    + split; [by rewrite Hrdy|]. rewrite Hlast. apply wrap_in_width. lia.
    + by rewrite Hidx2, Hidx.
    + rewrite <- Nat.add_1_r, <- drop_drop, Hk. cbn [drop]. unfold published. rewrite Hcn, Hlast.
      rewrite (map_ext (avail_entry h2 q1 avail) (avail_entry h q avail)).
      2: { intros x. rewrite Hent2. unfold avail_entry. rewrite Hsz. apply Hent. }
      by rewrite avail_map_wrap.
    + lia.
    + exists m', d', h'. split; [|split; [by eapply same_ring_trans|split; [|done]]].
      * change (drain (S (S n)) i (m, d, h)) with
          (r ← PopAvail (queue_at m i) h;
           let '(o, q, h) := (r : option Z * VirtQueue * HostMem) in
           let m := set_queue i q m in
           match o with
           | None => Some (m, d, h)
           | Some head => w ← handle head (m, d, h); drain (S n) i w
           end).
        fold q. rewrite Hpop. cbn [mbind option_bind]. by rewrite Hhd.
      * by rewrite Hl', Hidx2, Hidx.
Qed.

Lemma drain_mono n k i w r : drain n i w = Some r -> drain (n + k) i w = Some r.
Proof.
  revert w r. induction n as [|n IH]; intros [[m d] h] r H; [done|]. simpl in *.
  destruct (PopAvail (queue_at m i) h) as [[[[head|] q1] h1]|]; simpl in *; [|done|done].
  destruct (handle head _) as [w|]; simpl in *; [|done]. by apply IH.
Qed.

Lemma drain_published Inv i m d h avail used :
  let q := queue_at m i in
  0 <= i < num_queues m -> ring_layout q h avail used -> queue_ok q -> store_ok (hm_bytes h) ->
  handler_ok q i avail used (published q h avail) Inv -> Inv 0%nat m d h ->
  exists m' d' h',
    drain (Z.to_nat 65536) i (m, d, h) = Some (m', d', h')
    /\ same_ring q (queue_at m' i) /\ last_avail_idx_ (queue_at m' i) = avail_idx h avail
    /\ num_queues m' = num_queues m /\ Inv (length (published q h avail)) m' d' h'.
Proof.
  cbv zeta. intros Hi Hlay Hok Hst Hh HI. pose proof (avail_idx_width h avail Hst) as Hw.
  pose proof (wrap_bound 16 (avail_idx h avail - last_avail_idx_ (queue_at m i))) as Hc.
  fold (avail_count (queue_at m i) h avail) in Hc. specialize (Hc ltac:(lia)). change (2 ^ 16) with 65536 in Hc.
  destruct (drain_aux (queue_at m i) Inv i avail used _ Hh (Z.to_nat (avail_count (queue_at m i) h avail)) 0 m d h)
    as (m' & d' & h' & H & Hk); try done; try lia.
  { unfold published. rewrite length_map, length_seqZ. lia. }
  exists m', d', h'. split; [|exact Hk].
  apply (drain_mono _ (Z.to_nat (65535 - avail_count (queue_at m i) h avail))) in H.
  rewrite <- H. f_equal. lia.
Qed.

(** Draining a queue, as a rule for loop invariants: on a ring the driver
    laid out inside RAM, with a handler that takes an invariant before
    request [k] to the one before request [k + 1] and keeps the queue and
    its available ring, whatever else it does to the transport and to memory,
    the loop ends within 65536 iterations, has handled exactly the requests
    published since the last notification, once each and in ring order, and
    leaves the device's index at the driver's. *)
Theorem drain_all Inv i m d h avail used :
  let q := queue_at m i in
  0 <= i < num_queues m -> ring_layout q h avail used -> queue_ok q -> store_ok (hm_bytes h) ->
  handler_ok q i avail used (published q h avail) Inv -> Inv 0%nat m d h ->
  exists m' d' h',
    drain (Z.to_nat 65536) i (m, d, h) = Some (m', d', h')
    /\ last_avail_idx_ (queue_at m' i) = avail_idx h avail
    /\ Inv (length (published q h avail)) m' d' h'.
Proof.
  intros q Hi Hlay Hok Hst Hh HI.
  destruct (drain_published Inv i m d h avail used Hi Hlay Hok Hst Hh HI)
    as (m' & d' & h' & Hd & _ & Hl & _ & HI').
  exists m', d', h'. split; [exact Hd|]. by split.
Qed.

(** The transport's invariant. *)
Lemma PopAvail_queue_size q h o q' h' :
  PopAvail q h = Some (o, q', h') -> queue_size_ q' = queue_size_ q.
Proof.
  unfold PopAvail. intros Hp. apply bind_Some in Hp as (b & _ & Hp).
  destruct b; cbn [negb] in Hp; [|by simplify_eq].
  destruct (AvailRing q h) as [ring|]; [|by simplify_eq].
  destruct (queue_size_ q =? 0); [done|]. apply bind_Some in Hp as (head & _ & Hp).
  destruct (event_idx_ q); [|by simplify_eq].
  apply bind_Some in Hp as (h1 & _ & Hp). by simplify_eq.
Qed.

Definition keeps_mmio : Prop := forall head m d h m' d' h',
  mmio_ok m -> handle head (m, d, h) = Some (m', d', h') -> mmio_ok m' /\ num_queues m' = num_queues m.

Lemma drain_mmio_ok fuel i : forall m d h m' d' h',
  keeps_mmio -> mmio_ok m -> 0 <= i < num_queues m ->
  drain fuel i (m, d, h) = Some (m', d', h') -> mmio_ok m' /\ num_queues m' = num_queues m.
Proof.
  induction fuel as [|fuel IH]; intros m d h m' d' h' Hk Hm Hi; [done|]. cbn [drain].
  intros Hn. apply bind_Some in Hn as ([[o q1] h1] & Hp & Hn). apply PopAvail_queue_size in Hp.
  assert (Hm1 : mmio_ok (set_queue i q1 m)).
  { apply mmio_ok_set_queue; [done|]. rewrite Hp. by apply queue_at_size. }
  destruct o as [head|].
  - apply bind_Some in Hn as ([[m2 d2] h2] & Hh & Hn). apply Hk in Hh as [H1 H2]; [|done].
    rewrite num_queues_set in H2. apply IH in Hn as [? ->]; [by rewrite H2|done|done|by rewrite H2].
  - injection Hn as <- <- <-. by rewrite num_queues_set.
Qed.

End Drain.

(** ** Requests that stay readable *)

(** Memory that agrees on the ranges a predicate names. *)
Definition agree (safe : Z -> Z -> Prop) (h h' : HostMem) : Prop :=
  hm_map h' = hm_map h /\ forall a n, safe a n -> hm_read h' a n = hm_read h a n.

Lemma agree_refl safe h : agree safe h h.
Proof. done. Qed.
Lemma agree_trans safe h1 h2 h3 : agree safe h1 h2 -> agree safe h2 h3 -> agree safe h1 h3.
Proof. intros [M1 H1] [M2 H2]. split; [by rewrite M2|]. intros a n Hs. by rewrite H2, H1. Qed.

(** The chain at [head] as the driver laid it out, its descriptors and its
    device-readable buffers in safe memory. *)
Definition request_at (safe : Z -> Z -> Prop) (q : VirtQueue) (h : HostMem) (head : Z)
    (elems : list VirtqChainElem) : Prop :=
  exists ids, laid_out q h (head :: ids) elems
    /\ Z.of_nat (length (head :: ids)) <= queue_size_ q
    /\ Forall (fun i => forall a, DescAt q h i = Some a -> safe a 16) (head :: ids)
    /\ Forall (fun e => e_writable e = false -> safe (e_addr e) (e_len e)) elems.

Lemma hm_load_range n h a v : hm_load n h a = Some v -> 0 <= a /\ a + Z.of_nat n <= alloc_size (hm_map h).
Proof.
  unfold hm_load, hm_read. destruct ((0 <=? a) && (a + Z.of_nat n <=? alloc_size (hm_map h))) eqn:E; [|done].
  bool_hyps. lia.
Qed.

Lemma load_desc_agree safe h h' a d :
  agree safe h h' -> safe a 16 -> load_desc h a = Some d -> load_desc h' a = Some d.
Proof.
  intros [Hm Hr] Hs Hd. rewrite <- Hd. specialize (Hr a 16 Hs). unfold load_desc in *.
  apply bind_Some in Hd as (v1 & H1 & Hd). apply bind_Some in Hd as (v2 & H2 & Hd).
  apply bind_Some in Hd as (v3 & H3 & Hd). apply bind_Some in Hd as (v4 & H4 & _).
  pose proof (hm_load_range _ _ _ _ H1). pose proof (hm_load_range _ _ _ _ H4).
  pose proof (kept_load 8 h h' a 16 0) as E. rewrite Z.add_0_r in E.
  rewrite E by (done || lia). by rewrite !(kept_load _ h h' a 16) by (done || lia).
Qed.

Lemma DescAt_same q q' h h' i :
  same_ring q q' -> hm_map h' = hm_map h -> DescAt q' h' i = DescAt q h i.
Proof. intros (Hs & Hd & _) Hm. unfold DescAt. by rewrite Hs, Hd, Hm. Qed.

Lemma laid_out_agree safe q q' h h' ids elems :
  same_ring q q' -> agree safe h h' -> Forall (fun i => forall a, DescAt q h i = Some a -> safe a 16) ids ->
  laid_out q h ids elems -> laid_out q' h' ids elems.
Proof.
  intros Hq Ha. revert elems. induction ids as [|i ids IH]; intros elems Hs; [done|].
  inversion_clear Hs as [|? ? Hi Hids]. destruct elems as [|e elems]; [done|]. cbn [laid_out].
  intros (a & d & H1 & H2 & H3 & H4 & H5 & H6 & H7 & H8 & H9).
  exists a, d. rewrite (DescAt_same q q' h) by (done || apply Ha). split; [done|].
  split; [exact (load_desc_agree safe h h' a d Ha (Hi a H1) H2)|].
  destruct Ha as [Hm Hr]. rewrite Hm. split_and!; try done. intros Hne. apply IH; auto.
Qed.

Lemma gather_agree safe h h' elems :
  agree safe h h' -> Forall (fun e => e_writable e = false -> safe (e_addr e) (e_len e)) elems ->
  gather_readable elems h' = gather_readable elems h.
Proof.
  intros [Hm Hr]. induction 1 as [|e elems He _ IH]; [done|]. cbn [gather_readable].
  destruct (e_writable e); [done|]. rewrite Hr by auto.
  destruct (hm_read h (e_addr e) (e_len e)); [|done]. cbn [mbind option_bind]. by rewrite IH.
Qed.

(** A request in one readable descriptor. *)
Lemma request_single (safe : Z -> Z -> Prop) q h head a d hva :
  DescAt q h head = Some a -> load_desc h a = Some d -> d_flags d = 0 ->
  GpaToHva (hm_map h) (d_addr d) = Some hva -> 1 <= queue_size_ q -> safe a 16 -> safe hva (d_len d) ->
  request_at safe q h head [MkElem hva (d_len d) false].
Proof.
  intros Ha Hd Hf Hg Hq Hs1 Hs2. exists []. split.
  { exists a, d. rewrite Hf. cbn. split_and!; try done; intros; by split. }
  split; [cbn; lia|]. split; constructor; try constructor; [|done]. intros a'. rewrite Ha. by intros [= <-].
Qed.

(** [request_single] on concrete memory. *)
Ltac single_request i a d hva :=
  refine (request_single _ _ _ i a d hva _ _ _ _ _ _ _);
    [vm_compute; reflexivity|vm_compute; reflexivity|reflexivity|vm_compute; reflexivity|discriminate| |];
    (split; [discriminate|first [left; discriminate|right; discriminate]]).

Lemma request_stable safe q q' h h' head elems :
  request_at safe q h head elems -> same_ring q q' -> agree safe h h' ->
  WalkChain q' h' head = Some (true, elems) /\ gather_readable elems h' = gather_readable elems h.
Proof.
  intros (ids & Hl & Hn & Hd & He) Hq Ha. split; [|by eapply gather_agree].
  apply (WalkChain_laid_out q' h' head ids); [by eapply laid_out_agree|]. by destruct Hq as [-> _].
Qed.

(** ** The used ring as the only thing that changes *)

Definition outside (q : VirtQueue) (used a n : Z) : Prop :=
  0 <= n /\ (a + n <= used \/ used + 6 + 8 * queue_size_ q <= a).

Lemma same_but_event_agree q used h h' :
  0 <= queue_size_ q -> same_but_event q used h h' -> agree (outside q used) h h'.
Proof. intros Hq [Hm Hr]. split; [done|]. intros a n [Hn Ho]. apply Hr; lia. Qed.

Lemma agree_weaken (safe safe' : Z -> Z -> Prop) h h' :
  (forall a n, safe' a n -> safe a n) -> agree safe h h' -> agree safe' h h'.
Proof. intros Hs [Hm Hr]. split; auto. Qed.

Lemma PushUsed_agree q h avail used head len :
  ring_layout q h avail used -> in_width 32 head -> in_width 32 len ->
  exists h', PushUsed q h head len = Some h' /\ agree (outside q used) h h'.
Proof.
  intros Hl Hh Hw. destruct (PushUsed_spec q h avail used head len Hl Hh Hw) as (h' & Hp & _ & _ & _ & Hm & Hr).
  exists h'. split; [done|]. split; [done|]. intros a n [Hn Ho]. apply Hr; lia.
Qed.

Lemma load16_width h a v : store_ok (hm_bytes h) -> hm_load 2 h a = Some v -> in_width 16 v.
Proof.
  intros Hs. unfold hm_load, hm_read. case_ifs; [|done]. cbn [mbind option_bind]. intros [= <-].
  pose proof (le_val_bound (peek (hm_bytes h) a 2) (peek_ok _ _ _ Hs)) as H.
  rewrite length_peek in H. exact H.
Qed.

Lemma published_width q h avail head : store_ok (hm_bytes h) -> head ∈ published q h avail -> in_width 32 head.
Proof.
  intros Hs Hin. apply list_elem_of_fmap in Hin as (k & -> & _). unfold avail_entry.
  destruct (hm_load 2 h _) as [v|] eqn:E; [|done]. apply load16_width in E; [|done].
  unfold in_width in *. cbn. lia.
Qed.

Lemma ring_keeps_avail q h h' avail used :
  ring_layout q h avail used -> agree (outside q used) h h' ->
  hm_read h' avail (6 + 2 * queue_size_ q) = hm_read h avail (6 + 2 * queue_size_ q).
Proof. intros [] [_ Hr]. apply Hr. unfold outside. lia. Qed.

Lemma outside_size q q' used a n : queue_size_ q' = queue_size_ q -> outside q used a n -> outside q' used a n.
Proof. unfold outside. by intros ->. Qed.

Lemma queue_at_set_ne i j q m : 0 <= i -> 0 <= j -> i <> j -> queue_at (set_queue i q m) j = queue_at m j.
Proof.
  intros Hi Hj Hne. unfold queue_at, set_queue. cbn. rewrite !nth_lookup. f_equal.
  apply list_lookup_insert_ne. lia.
Qed.

(** ** A concrete drain *)

(** A handler that logs the heads. *)
(** ** Several completions *)

(** The 16-bit index selects slots without a jump when the size divides
    [2^16]. *)
Lemma slot_mod size x : 0 < size -> 65536 mod size = 0 -> u16 x mod size = x mod size.
Proof.
  intros Hq Hs. apply Z.mod_divide in Hs as [c Hc]; [|lia]. unfold wrap. change (2 ^ 16) with 65536. rewrite Hc, Z.mul_comm, Z.rem_mul_r by nia.
  rewrite Z.mul_comm, Z_mod_plus_full. apply Z.mod_mod. lia.
Qed.

Lemma slots_apart size u j k : 0 <= j < k -> k < size -> (u + j) mod size <> (u + k) mod size.
Proof.
  intros Hj Hk E. assert (H : (k - j) mod size = 0).
  { replace (k - j) with ((u + k) - (u + j)) by lia. rewrite Zminus_mod, E, Z.sub_diag. apply Z.mod_0_l. lia. }
  rewrite Z.mod_small in H by lia. lia.
Qed.

(** The used ring holds [l], head and length each, from index [u0] on. *)
Definition used_holds (q : VirtQueue) (used u0 : Z) (l : list (Z * Z)) (h : HostMem) : Prop :=
  used_idx h used = u16 (u0 + Z.of_nat (length l))
  /\ forall j hl, l !! j = Some hl -> used_slot q h used ((u0 + Z.of_nat j) mod queue_size_ q) = hl.

Lemma used_holds_nil q used h : store_ok (hm_bytes h) -> used_holds q used (used_idx h used) [] h.
Proof.
  intros Hs. split; [|done]. rewrite Z.add_0_r. symmetry. apply wrap_small. unfold used_idx.
  destruct (hm_load 2 h _) as [v|] eqn:E; [by apply load16_width in E|done].
Qed.

(** It does not look at the event word, and at the queue only for its size. *)
Lemma used_holds_event q q' used u0 l h h' :
  0 < queue_size_ q -> queue_size_ q' = queue_size_ q -> same_but_event q used h h' ->
  used_holds q used u0 l h -> used_holds q' used u0 l h'.
Proof.
  intros Hq Hs [_ He] [Hi Hl]. assert (Hr : forall n k, 0 <= k -> k + Z.of_nat n <= 4 + 8 * queue_size_ q -> hm_load n h' (used + k) = hm_load n h (used + k)).
  { intros n k Hk Hn. unfold hm_load. rewrite He by lia. done. }
  split; [unfold used_idx; by rewrite Hr by lia|]. intros j hl Hj. rewrite <- (Hl j hl Hj), Hs. unfold used_slot.
  pose proof (Z.mod_pos_bound (u0 + Z.of_nat j) (queue_size_ q) Hq). rewrite <- !Z.add_assoc, !Hr by lia. done.
Qed.

Lemma used_holds_size q q' used u0 l h : queue_size_ q' = queue_size_ q -> used_holds q used u0 l h -> used_holds q' used u0 l h.
Proof. unfold used_holds, used_slot. by intros ->. Qed.

Lemma PushUsed_holds q h avail used u0 l head len :
  ring_layout q h avail used -> 65536 mod queue_size_ q = 0 -> Z.of_nat (length l) < queue_size_ q ->
  used_holds q used u0 l h -> in_width 32 head -> in_width 32 len ->
  exists h', PushUsed q h head len = Some h' /\ used_holds q used u0 (l ++ [(head, len)]) h' /\ agree (outside q used) h h'.
Proof.
  intros Hlay Hpow Hroom [Hi Hl] Hh Hn. destruct (PushUsed_spec q h avail used head len Hlay Hh Hn) as (h' & Hp & Hslot & Hidx & Hother & Hm & Hkeep).
  pose proof (rl_size _ _ _ _ Hlay) as Hsz. rewrite Hi, slot_mod in Hslot, Hother by lia. exists h'. split; [done|]. split; [split|].
  - rewrite Hidx, Hi, wrap_add_l, length_app. f_equal. cbn. lia.
  - intros j hl Hj. destruct (decide (j = length l)) as [->|Hne].
    + rewrite lookup_app_r, Nat.sub_diag in Hj by lia. by injection Hj as <-.
    + assert (Hlt : (j < length l)%nat) by (apply lookup_lt_Some in Hj; rewrite length_app in Hj; cbn in Hj; lia).
      rewrite lookup_app_l in Hj by done. rewrite <- (Hl j hl Hj). apply Hother; [apply Z.mod_pos_bound; lia|]. apply slots_apart; lia.
  - split; [done|]. intros a n [H0 Ho]. apply Hkeep; lia.
Qed.

Definition log_head (head : Z) (w : Mmio * list Z * HostMem) : option (Mmio * list Z * HostMem) :=
  let '(m, l, h) := w in Some (m, l ++ [head], h).
Definition demo_transport : Mmio := set_queues [demo_queue] (Mmio_new false false false).

Lemma drain_all_witness :
  exists m' l h', drain log_head (Z.to_nat 65536) 0 (demo_transport, [], demo_mem) = Some (m', l, h')
    /\ last_avail_idx_ (queue_at m' 0) = 2 /\ l = [2; 3].
Proof.
  apply (drain_all log_head (fun k _ l _ => l = take k [2; 3]) 0 demo_transport [] demo_mem 0x2000 0x3000).
  - vm_compute. split; [discriminate|reflexivity].
  - exact demo_layout.
  - split; [reflexivity|]. split; vm_compute; [discriminate|reflexivity].
  - exact demo_store_ok.
  - intros k head m l h q1 h1 Hk Hi _ -> _ _. exists (set_queue 0 q1 m), (take k [2; 3] ++ [head]), h1.
    split; [done|]. split; [|split; [by rewrite num_queues_set|split; [by rewrite queue_at_set|done]]].
    symmetry. apply take_S_r. rewrite <- Hk. vm_compute. reflexivity.
  - reflexivity.
Defined.
