(* ===== verification/VirtioGpu.v ===== *)
(** * The virtio GPU

    Models core/device/virtio/virtio_gpu.{h,cpp}: 2D resources in host
    memory, their backing pages in guest RAM, transfers, the scanout, flushes
    to the display and the hardware cursor.

    What the device gives the host ([frame_callback_], [cursor_callback_],
    [scanout_state_callback_], when they are set) is the trace [g_events].
    [None] is undefined behaviour or the end of the process by an uncaught
    exception: [alloc_limit] is the size beyond which the host's allocator
    refuses a vector.  [mmio_] is taken to be set, as the VM does before the
    guest runs.

    [screen_update]: a transfer of a rectangle and its flush show the guest's
    pixels, read from the backing pages row by row, and nothing else.
    [gpu_command_answered]: every command is answered and keeps the invariant
    of the resource table. *)

From S2P Require Import Prelude.
From S2P Require Import StdString.
From S2P Require Import Ports.
From S2P Require Import GuestMem.
From S2P Require Import VirtQueue.
From S2P Require Import VirtioMmio.
From S2P Require Import VirtioChain.

(** ** Constants *)

Definition VIRTIO_GPU_CMD_GET_DISPLAY_INFO := 0x0100.
Definition VIRTIO_GPU_CMD_RESOURCE_CREATE_2D := 0x0101.
Definition VIRTIO_GPU_CMD_RESOURCE_UNREF := 0x0102.
Definition VIRTIO_GPU_CMD_SET_SCANOUT := 0x0103.
Definition VIRTIO_GPU_CMD_RESOURCE_FLUSH := 0x0104.
Definition VIRTIO_GPU_CMD_TRANSFER_TO_HOST_2D := 0x0105.
Definition VIRTIO_GPU_CMD_RESOURCE_ATTACH_BACKING := 0x0106.
Definition VIRTIO_GPU_CMD_RESOURCE_DETACH_BACKING := 0x0107.
Definition VIRTIO_GPU_CMD_UPDATE_CURSOR := 0x0300.
Definition VIRTIO_GPU_CMD_MOVE_CURSOR := 0x0301.
Definition VIRTIO_GPU_RESP_OK_NODATA := 0x1100.
Definition VIRTIO_GPU_RESP_OK_DISPLAY_INFO := 0x1101.
Definition VIRTIO_GPU_RESP_ERR_UNSPEC := 0x1200.
Definition VIRTIO_GPU_RESP_ERR_INVALID_RESOURCE_ID := 0x1202.
Definition VIRTIO_GPU_RESP_ERR_INVALID_PARAMETER := 0x1203.
Definition VIRTIO_GPU_EVENT_DISPLAY := 1.
Definition VIRTIO_GPU_FLAG_FENCE := 1.

Definition sizeof_CtrlHdr : nat := 24.
Definition sizeof_ResourceCreate2d : nat := 40.
Definition sizeof_ResourceUnref : nat := 32.
Definition sizeof_SetScanout : nat := 48.
Definition sizeof_ResourceFlush : nat := 48.
Definition sizeof_TransferToHost2d : nat := 56.
Definition sizeof_AttachBacking : nat := 32.
Definition sizeof_DetachBacking : nat := 32.
Definition sizeof_MemEntry : Z := 16.
Definition sizeof_UpdateCursor : nat := 56.

(** Every case of the switch answers 4, the default too. *)
Definition FormatBpp (format : Z) : Z := 4.

(** ** State *)

Record BackingPage := MkPage { bp_gpa : Z; bp_length : Z }.

Record GpuResource := MkResource {
  r_id : Z; r_width : Z; r_height : Z; r_format : Z;
  host_pixels : bytes;
  backing : list BackingPage }.

Definition res_set_pixels (v : bytes) (r : GpuResource) : GpuResource :=
  MkResource (r_id r) (r_width r) (r_height r) (r_format r) v (backing r).
Definition res_set_backing (v : list BackingPage) (r : GpuResource) : GpuResource :=
  MkResource (r_id r) (r_width r) (r_height r) (r_format r) (host_pixels r) v.

Record VirtioGpuConfig := MkGpuConfig {
  events_read : Z; events_clear : Z; num_scanouts : Z; num_capsets : Z }.

Record LastEmittedCursor := MkLast {
  lc_valid : bool; lc_x : Z; lc_y : Z; lc_hot_x : Z; lc_hot_y : Z;
  lc_resource_id : Z; lc_visible : bool }.

Definition MatchesMove (l : LastEmittedCursor) (x y hx hy id : Z) (vis : bool) : bool :=
  lc_valid l && (lc_x l =? x) && (lc_y l =? y) && (lc_hot_x l =? hx) && (lc_hot_y l =? hy)
  && (lc_resource_id l =? id) && Bool.eqb (lc_visible l) vis.

(** What the callbacks are given. *)
Inductive GpuEvent :=
  | ev_frame (f : DisplayFrame)
  | ev_cursor (c : CursorInfo)
  | ev_scanout (active : bool) (width height : Z).

Record Gpu := MkGpu {
  display_width_ : Z;
  display_height_ : Z;
  gpu_config_ : VirtioGpuConfig;
  resources_ : gmap Z GpuResource;
  scanout_resource_id_ : Z;
  scanout_width_ : Z;
  scanout_height_ : Z;
  cursor_resource_id_ : Z;
  cursor_x_ : Z;
  cursor_y_ : Z;
  cursor_hot_x_ : Z;
  cursor_hot_y_ : Z;
  last_emitted_cursor_ : LastEmittedCursor;
  frame_callback_ : bool;
  cursor_callback_ : bool;
  scanout_state_callback_ : bool;
  g_events : list GpuEvent
}.

Definition g_set_display_width (v : Z) (s : Gpu) : Gpu :=
  MkGpu v (display_height_ s) (gpu_config_ s) (resources_ s) (scanout_resource_id_ s)
    (scanout_width_ s) (scanout_height_ s) (cursor_resource_id_ s) (cursor_x_ s) (cursor_y_ s)
    (cursor_hot_x_ s) (cursor_hot_y_ s) (last_emitted_cursor_ s) (frame_callback_ s)
    (cursor_callback_ s) (scanout_state_callback_ s) (g_events s).
Definition g_set_display_height (v : Z) (s : Gpu) : Gpu :=
  MkGpu (display_width_ s) v (gpu_config_ s) (resources_ s) (scanout_resource_id_ s)
    (scanout_width_ s) (scanout_height_ s) (cursor_resource_id_ s) (cursor_x_ s) (cursor_y_ s)
    (cursor_hot_x_ s) (cursor_hot_y_ s) (last_emitted_cursor_ s) (frame_callback_ s)
    (cursor_callback_ s) (scanout_state_callback_ s) (g_events s).
Definition g_set_gpu_config (v : VirtioGpuConfig) (s : Gpu) : Gpu :=
  MkGpu (display_width_ s) (display_height_ s) v (resources_ s) (scanout_resource_id_ s)
    (scanout_width_ s) (scanout_height_ s) (cursor_resource_id_ s) (cursor_x_ s) (cursor_y_ s)
    (cursor_hot_x_ s) (cursor_hot_y_ s) (last_emitted_cursor_ s) (frame_callback_ s)
    (cursor_callback_ s) (scanout_state_callback_ s) (g_events s).
Definition g_set_resources (v : gmap Z GpuResource) (s : Gpu) : Gpu :=
  MkGpu (display_width_ s) (display_height_ s) (gpu_config_ s) v (scanout_resource_id_ s)
    (scanout_width_ s) (scanout_height_ s) (cursor_resource_id_ s) (cursor_x_ s) (cursor_y_ s)
    (cursor_hot_x_ s) (cursor_hot_y_ s) (last_emitted_cursor_ s) (frame_callback_ s)
    (cursor_callback_ s) (scanout_state_callback_ s) (g_events s).
Definition g_set_scanout_resource_id (v : Z) (s : Gpu) : Gpu :=
  MkGpu (display_width_ s) (display_height_ s) (gpu_config_ s) (resources_ s) v
    (scanout_width_ s) (scanout_height_ s) (cursor_resource_id_ s) (cursor_x_ s) (cursor_y_ s)
    (cursor_hot_x_ s) (cursor_hot_y_ s) (last_emitted_cursor_ s) (frame_callback_ s)
    (cursor_callback_ s) (scanout_state_callback_ s) (g_events s).
Definition g_set_scanout_width (v : Z) (s : Gpu) : Gpu :=
  MkGpu (display_width_ s) (display_height_ s) (gpu_config_ s) (resources_ s)
    (scanout_resource_id_ s) v (scanout_height_ s) (cursor_resource_id_ s) (cursor_x_ s)
    (cursor_y_ s) (cursor_hot_x_ s) (cursor_hot_y_ s) (last_emitted_cursor_ s)
    (frame_callback_ s) (cursor_callback_ s) (scanout_state_callback_ s) (g_events s).
Definition g_set_scanout_height (v : Z) (s : Gpu) : Gpu :=
  MkGpu (display_width_ s) (display_height_ s) (gpu_config_ s) (resources_ s)
    (scanout_resource_id_ s) (scanout_width_ s) v (cursor_resource_id_ s) (cursor_x_ s)
    (cursor_y_ s) (cursor_hot_x_ s) (cursor_hot_y_ s) (last_emitted_cursor_ s)
    (frame_callback_ s) (cursor_callback_ s) (scanout_state_callback_ s) (g_events s).
Definition g_set_cursor_resource_id (v : Z) (s : Gpu) : Gpu :=
  MkGpu (display_width_ s) (display_height_ s) (gpu_config_ s) (resources_ s)
    (scanout_resource_id_ s) (scanout_width_ s) (scanout_height_ s) v (cursor_x_ s)
    (cursor_y_ s) (cursor_hot_x_ s) (cursor_hot_y_ s) (last_emitted_cursor_ s)
    (frame_callback_ s) (cursor_callback_ s) (scanout_state_callback_ s) (g_events s).
Definition g_set_cursor_x (v : Z) (s : Gpu) : Gpu :=
  MkGpu (display_width_ s) (display_height_ s) (gpu_config_ s) (resources_ s)
    (scanout_resource_id_ s) (scanout_width_ s) (scanout_height_ s) (cursor_resource_id_ s) v
    (cursor_y_ s) (cursor_hot_x_ s) (cursor_hot_y_ s) (last_emitted_cursor_ s)
    (frame_callback_ s) (cursor_callback_ s) (scanout_state_callback_ s) (g_events s).
Definition g_set_cursor_y (v : Z) (s : Gpu) : Gpu :=
  MkGpu (display_width_ s) (display_height_ s) (gpu_config_ s) (resources_ s)
    (scanout_resource_id_ s) (scanout_width_ s) (scanout_height_ s) (cursor_resource_id_ s)
    (cursor_x_ s) v (cursor_hot_x_ s) (cursor_hot_y_ s) (last_emitted_cursor_ s)
    (frame_callback_ s) (cursor_callback_ s) (scanout_state_callback_ s) (g_events s).
Definition g_set_cursor_hot_x (v : Z) (s : Gpu) : Gpu :=
  MkGpu (display_width_ s) (display_height_ s) (gpu_config_ s) (resources_ s)
    (scanout_resource_id_ s) (scanout_width_ s) (scanout_height_ s) (cursor_resource_id_ s)
    (cursor_x_ s) (cursor_y_ s) v (cursor_hot_y_ s) (last_emitted_cursor_ s) (frame_callback_ s)
    (cursor_callback_ s) (scanout_state_callback_ s) (g_events s).
Definition g_set_cursor_hot_y (v : Z) (s : Gpu) : Gpu :=
  MkGpu (display_width_ s) (display_height_ s) (gpu_config_ s) (resources_ s)
    (scanout_resource_id_ s) (scanout_width_ s) (scanout_height_ s) (cursor_resource_id_ s)
    (cursor_x_ s) (cursor_y_ s) (cursor_hot_x_ s) v (last_emitted_cursor_ s) (frame_callback_ s)
    (cursor_callback_ s) (scanout_state_callback_ s) (g_events s).
Definition g_set_last_emitted_cursor (v : LastEmittedCursor) (s : Gpu) : Gpu :=
  MkGpu (display_width_ s) (display_height_ s) (gpu_config_ s) (resources_ s)
    (scanout_resource_id_ s) (scanout_width_ s) (scanout_height_ s) (cursor_resource_id_ s)
    (cursor_x_ s) (cursor_y_ s) (cursor_hot_x_ s) (cursor_hot_y_ s) v (frame_callback_ s)
    (cursor_callback_ s) (scanout_state_callback_ s) (g_events s).
Definition g_set_g_events (v : list GpuEvent) (s : Gpu) : Gpu :=
  MkGpu (display_width_ s) (display_height_ s) (gpu_config_ s) (resources_ s)
    (scanout_resource_id_ s) (scanout_width_ s) (scanout_height_ s) (cursor_resource_id_ s)
    (cursor_x_ s) (cursor_y_ s) (cursor_hot_x_ s) (cursor_hot_y_ s) (last_emitted_cursor_ s)
    (frame_callback_ s) (cursor_callback_ s) (scanout_state_callback_ s) v.

Definition g_emit (e : GpuEvent) (g : Gpu) : Gpu := g_set_g_events (g_events g ++ [e]) g.

(** The constructor, with the callbacks the VM sets. *)
Definition Gpu_new (width height : Z) (frame_cb cursor_cb scanout_cb : bool) : Gpu :=
  MkGpu width height (MkGpuConfig 0 0 1 0) ∅ 0 0 0 0 0 0 0 0
    (MkLast false 0 0 0 0 0 false) frame_cb cursor_cb scanout_cb [].

(** ** Registers *)

Definition gpu_config_bytes (c : VirtioGpuConfig) : bytes :=
  le_bytes 4 (events_read c) ++ le_bytes 4 (events_clear c)
  ++ le_bytes 4 (num_scanouts c) ++ le_bytes 4 (num_capsets c).

(** The [memcpy] goes into a 4-byte variable. *)
Definition Gpu_ReadConfig (g : Gpu) (offset size : Z) : option (Gpu * Z) :=
  if 16 <? u32 (offset + size) then Some (g, 0)
  else if 4 <? size then None
  else Some (g, le_val (take (Z.to_nat size) (drop (Z.to_nat offset) (gpu_config_bytes (gpu_config_ g))))).

Definition set_events_read (v : Z) (c : VirtioGpuConfig) : VirtioGpuConfig :=
  MkGpuConfig v (events_clear c) (num_scanouts c) (num_capsets c).

Definition Gpu_WriteConfig (g : Gpu) (offset size value : Z) : Gpu :=
  if (offset =? 4) && (size =? 4)
  then g_set_gpu_config (set_events_read (events_read (gpu_config_ g) .& bnot 32 value) (gpu_config_ g)) g
  else g.

Definition Gpu_reset (g : Gpu) : Gpu :=
  g_set_scanout_height 0 (g_set_scanout_width 0 (g_set_scanout_resource_id 0 (g_set_resources ∅ g))).

Definition Gpu_OnStatusChange (new_status : Z) (w : Mmio * Gpu * HostMem) : option (Mmio * Gpu * HostMem) :=
  let '(m, g, h) := w in
  if new_status =? 0 then Some (m, Gpu_reset g, h) else Some w.

(** The host asks for another size; the width is rounded up to 8. *)
Definition Gpu_SetDisplaySize (width height : Z) (m : Mmio) (g : Gpu) : Mmio * Gpu :=
  if (width =? 0) || (height =? 0) || (16384 <? width) || (16384 <? height) then (m, g)
  else
    let width := u32 (width + 7) .& bnot 32 7 in
    if (width =? display_width_ g) && (height =? display_height_ g) then (m, g)
    else
      let g := g_set_display_height height (g_set_display_width width g) in
      let cfg := gpu_config_ g in
      (NotifyConfigChange m,
       g_set_gpu_config (set_events_read (events_read cfg .| VIRTIO_GPU_EVENT_DISPLAY) cfg) g).

(** ** Commands *)

(** [len] bytes from [off] on replaced. *)
Definition splice (off : Z) (data l : bytes) : bytes :=
  take (Z.to_nat off) l ++ data ++ drop (Z.to_nat off + length data) l.

(** [WriteResponse]: a header, zero but for its type. *)
Definition GpuResponse (type : Z) : bytes := le_bytes 4 type ++ replicate 20 0.

Definition CmdGetDisplayInfo (g : Gpu) : bytes :=
  GpuResponse VIRTIO_GPU_RESP_OK_DISPLAY_INFO
  ++ le_bytes 4 0 ++ le_bytes 4 0 ++ le_bytes 4 (display_width_ g) ++ le_bytes 4 (display_height_ g)
  ++ le_bytes 4 1 ++ le_bytes 4 0 ++ replicate (15 * 24) 0.

Section Gpu.
  Context (alloc_limit : Z).

(** [resize] to [n] zero bytes. *)
Definition alloc_zero (n : Z) : option bytes :=
  if alloc_limit <? n then None else Some (replicate (Z.to_nat n) 0).

(** A command: the new state and the response. *)
Definition CmdResourceCreate2d (req : bytes) (g : Gpu) : option (Gpu * bytes) :=
  let inval := Some (g, GpuResponse VIRTIO_GPU_RESP_ERR_INVALID_PARAMETER) in
  if (length req <? sizeof_ResourceCreate2d)%nat then inval
  else
    let resource_id := field 4 24 req in
    let format := field 4 28 req in
    let width := field 4 32 req in
    let height := field 4 36 req in
    if (resource_id =? 0) || (width =? 0) || (height =? 0) || (16384 <? width) || (16384 <? height)
    then inval
    else
      pixels ← alloc_zero (width * height * FormatBpp format);
      let res := MkResource resource_id width height format pixels [] in
      Some (g_set_resources (<[resource_id := res]> (resources_ g)) g, GpuResponse VIRTIO_GPU_RESP_OK_NODATA).

Definition CmdResourceUnref (req : bytes) (g : Gpu) : Gpu * bytes :=
  if (length req <? sizeof_ResourceUnref)%nat
  then (g, GpuResponse VIRTIO_GPU_RESP_ERR_INVALID_PARAMETER)
  else
    let resource_id := field 4 24 req in
    match resources_ g !! resource_id with
    | None => (g, GpuResponse VIRTIO_GPU_RESP_ERR_INVALID_RESOURCE_ID)
    | Some _ =>
        let g := if scanout_resource_id_ g =? resource_id then g_set_scanout_resource_id 0 g else g in
        (g_set_resources (delete resource_id (resources_ g)) g, GpuResponse VIRTIO_GPU_RESP_OK_NODATA)
    end.

Definition CmdSetScanout (req : bytes) (g : Gpu) : Gpu * bytes :=
  if (length req <? sizeof_SetScanout)%nat
  then (g, GpuResponse VIRTIO_GPU_RESP_ERR_INVALID_PARAMETER)
  else if negb (field 4 40 req =? 0)
  then (g, GpuResponse VIRTIO_GPU_RESP_ERR_INVALID_PARAMETER)
  else
    let resource_id := field 4 44 req in
    let old_resource_id := scanout_resource_id_ g in
    let old_width := scanout_width_ g in
    let old_height := scanout_height_ g in
    if resource_id =? 0 then
      let g := g_set_scanout_height 0 (g_set_scanout_width 0 (g_set_scanout_resource_id 0 g)) in
      (if negb (old_resource_id =? 0) && scanout_state_callback_ g then g_emit (ev_scanout false 0 0) g else g,
       GpuResponse VIRTIO_GPU_RESP_OK_NODATA)
    else
      match resources_ g !! resource_id with
      | None => (g, GpuResponse VIRTIO_GPU_RESP_ERR_INVALID_RESOURCE_ID)
      | Some res =>
          let g := g_set_scanout_height (r_height res)
                     (g_set_scanout_width (r_width res) (g_set_scanout_resource_id resource_id g)) in
          let was_active := negb (old_resource_id =? 0) in
          let size_changed := negb (r_width res =? old_width) || negb (r_height res =? old_height) in
          (if scanout_state_callback_ g && (negb was_active || size_changed)
           then g_emit (ev_scanout true (r_width res) (r_height res)) g else g,
           GpuResponse VIRTIO_GPU_RESP_OK_NODATA)
      end.

(** *** Transfers *)

(** [CopyFromBacking]: the bytes written from [dst] on.  Only the first byte
    of a page's part is translated; a copy that runs off the RAM allocation
    is undefined behaviour. *)
Fixpoint CopyFromBacking (h : HostMem) (pages : list BackingPage) (page_start offset len : Z)
    : option bytes :=
  match pages with
  | [] => Some []
  | page :: pages =>
      if len =? 0 then Some []
      else
        let page_end := u64 (page_start + bp_length page) in
        if offset <? page_end then
          let skip := u64 (offset - page_start) in
          let avail := u32 (bp_length page - skip) in
          let n := Z.min avail len in
          out ← (match GpaToHva (hm_map h) (u64 (bp_gpa page + skip)) with
                 | Some hva => hm_read h hva n
                 | None => Some (replicate (Z.to_nat n) 0)
                 end);
          rest ← CopyFromBacking h pages page_end (u64 (offset + n)) (len - n);
          Some (out ++ rest)
        else CopyFromBacking h pages page_end offset len
  end.

(** One row: exits as the loop's condition and its two [break]s do. *)
Definition transfer_step (h : HostMem) (res : GpuResource) (offset rx ry rw rh total_backing : Z)
    (s : Z * bytes) : (Z * bytes) + option bytes :=
  let '(row, pixels) := s in
  if negb (row <? rh) then inr (Some pixels)
  else
    let bpp := FormatBpp (r_format res) in
    let stride := u32 (r_width res * bpp) in
    let src_row_off := u64 (offset + u64 (row * stride)) in
    let dst_off := u64 (u64 (u32 (ry + row) * stride) + u64 (rx * bpp)) in
    let row_bytes := u32 (rw * bpp) in
    if total_backing <? u64 (src_row_off + row_bytes) then inr (Some pixels)
    else if Z.of_nat (length pixels) <? u64 (dst_off + row_bytes) then inr (Some pixels)
    else
      match CopyFromBacking h (backing res) 0 src_row_off row_bytes with
      | None => inr None
      | Some data => inl (u32 (row + 1), splice dst_off data pixels)
      end.

Definition total_backing (pages : list BackingPage) : Z :=
  foldl (fun t p => u64 (t + bp_length p)) 0 pages.

(** The rectangle cut to the resource, with the 32-bit sums of the code. *)
Definition clip (x w limit : Z) : Z := if limit <? u32 (x + w) then limit - x else w.

Definition transfer (h : HostMem) (res : GpuResource) (rx ry rw rh offset : Z) : option bytes :=
  if (r_width res <=? rx) || (r_height res <=? ry) then Some (host_pixels res)
  else
    r ← while64 (transfer_step h res offset rx ry (clip rx rw (r_width res)) (clip ry rh (r_height res))
                   (total_backing (backing res))) (0, host_pixels res);
    r.

Definition CmdTransferToHost2d (req : bytes) (h : HostMem) (g : Gpu) : option (Gpu * bytes) :=
  if (length req <? sizeof_TransferToHost2d)%nat
  then Some (g, GpuResponse VIRTIO_GPU_RESP_ERR_INVALID_PARAMETER)
  else
    let resource_id := field 4 48 req in
    match resources_ g !! resource_id with
    | None => Some (g, GpuResponse VIRTIO_GPU_RESP_ERR_INVALID_RESOURCE_ID)
    | Some res =>
        pixels ← transfer h res (field 4 24 req) (field 4 28 req) (field 4 32 req) (field 4 36 req)
                   (field 8 40 req);
        Some (g_set_resources (<[resource_id := res_set_pixels pixels res]> (resources_ g)) g,
              GpuResponse VIRTIO_GPU_RESP_OK_NODATA)
    end.

(** *** Flushes *)

(** One row of a partial frame; a copy past the frame's buffer is undefined
    behaviour. *)
Definition flush_step (res : GpuResource) (dx dy dw dh : Z) (s : Z * bytes) : (Z * bytes) + option bytes :=
  let '(row, out) := s in
  if negb (row <? dh) then inr (Some out)
  else
    let bpp := FormatBpp (r_format res) in
    let full_stride := u32 (r_width res * bpp) in
    let src := u64 (u64 (u32 (dy + row) * full_stride) + u64 (dx * bpp)) in
    let dst := u64 (u64 (row * dw) * bpp) in
    let n := u32 (dw * bpp) in
    if Z.of_nat (length (host_pixels res)) <? u64 (src + n) then inr (Some out)
    else if Z.of_nat (length out) <? dst + n then inr None
    else inl (u32 (row + 1), splice dst (take (Z.to_nat n) (drop (Z.to_nat src) (host_pixels res))) out).

(** The bytes of the frame. *)
Definition flush_pixels (res : GpuResource) (dx dy dw dh : Z) : option bytes :=
  if (dx =? 0) && (dy =? 0) && (dw =? r_width res) && (dh =? r_height res) then Some (host_pixels res)
  else
    out ← alloc_zero (u64 (u64 (dw * dh) * FormatBpp (r_format res)));
    r ← while64 (flush_step res dx dy dw dh) (0, out);
    r.

Definition CmdResourceFlush (req : bytes) (g : Gpu) : option (Gpu * bytes) :=
  if (length req <? sizeof_ResourceFlush)%nat
  then Some (g, GpuResponse VIRTIO_GPU_RESP_ERR_INVALID_PARAMETER)
  else
    let resource_id := field 4 40 req in
    match resources_ g !! resource_id with
    | None => Some (g, GpuResponse VIRTIO_GPU_RESP_ERR_INVALID_RESOURCE_ID)
    | Some res =>
        let ok g := Some (g, GpuResponse VIRTIO_GPU_RESP_OK_NODATA) in
        if (resource_id =? scanout_resource_id_ g) && frame_callback_ g then
          let dx := field 4 24 req in
          let dy := field 4 28 req in
          if (r_width res <=? dx) || (r_height res <=? dy) then ok g
          else
            let dw := clip dx (field 4 32 req) (r_width res) in
            let dh := clip dy (field 4 36 req) (r_height res) in
            pixels ← flush_pixels res dx dy dw dh;
            ok (g_emit (ev_frame (mkFrame dw dh (u32 (dw * FormatBpp (r_format res))) (r_format res)
                                    (r_width res) (r_height res) dx dy pixels)) g)
        else ok g
    end.

(** *** Backing pages *)

(** The entries of an attach, up to the first with a bad length. *)
Fixpoint mem_entries (nr : nat) (extra : bytes) : option (list BackingPage) :=
  match nr with
  | O => Some []
  | S nr =>
      let len := field 4 8 extra in
      if (len =? 0) || (64 * 1024 * 1024 <? len) then None
      else rest ← mem_entries nr (drop 16 extra); Some (MkPage (field 8 0 extra) len :: rest)
  end.

Definition CmdAttachBacking (req : bytes) (g : Gpu) : Gpu * bytes :=
  if (length req <? sizeof_AttachBacking)%nat
  then (g, GpuResponse VIRTIO_GPU_RESP_ERR_INVALID_PARAMETER)
  else
    let resource_id := field 4 24 req in
    match resources_ g !! resource_id with
    | None => (g, GpuResponse VIRTIO_GPU_RESP_ERR_INVALID_RESOURCE_ID)
    | Some res =>
        let with_pages p := g_set_resources (<[resource_id := res_set_backing p res]> (resources_ g)) g in
        let nr := field 4 28 req in
        let extra := drop sizeof_AttachBacking req in
        if 16384 <? nr then (with_pages [], GpuResponse VIRTIO_GPU_RESP_ERR_INVALID_PARAMETER)
        else if negb (bool_decide (extra = [])) && (nr * sizeof_MemEntry <=? Z.of_nat (length extra)) then
          match mem_entries (Z.to_nat nr) extra with
          | None => (with_pages [], GpuResponse VIRTIO_GPU_RESP_ERR_INVALID_PARAMETER)
          | Some pages => (with_pages pages, GpuResponse VIRTIO_GPU_RESP_OK_NODATA)
          end
        else (with_pages [], GpuResponse VIRTIO_GPU_RESP_OK_NODATA)
    end.

Definition CmdDetachBacking (req : bytes) (g : Gpu) : Gpu * bytes :=
  if (length req <? sizeof_DetachBacking)%nat
  then (g, GpuResponse VIRTIO_GPU_RESP_ERR_INVALID_PARAMETER)
  else
    let resource_id := field 4 24 req in
    match resources_ g !! resource_id with
    | None => (g, GpuResponse VIRTIO_GPU_RESP_ERR_INVALID_RESOURCE_ID)
    | Some res => (g_set_resources (<[resource_id := res_set_backing [] res]> (resources_ g)) g,
                   GpuResponse VIRTIO_GPU_RESP_OK_NODATA)
    end.

(** ** The control queue *)

Definition gpu_command (req : bytes) (h : HostMem) (g : Gpu) : option (Gpu * bytes) :=
  let type := field 4 0 req in
  if type =? VIRTIO_GPU_CMD_GET_DISPLAY_INFO then Some (g, CmdGetDisplayInfo g)
  else if type =? VIRTIO_GPU_CMD_RESOURCE_CREATE_2D then CmdResourceCreate2d req g
  else if type =? VIRTIO_GPU_CMD_RESOURCE_UNREF then Some (CmdResourceUnref req g)
  else if type =? VIRTIO_GPU_CMD_SET_SCANOUT then Some (CmdSetScanout req g)
  else if type =? VIRTIO_GPU_CMD_RESOURCE_FLUSH then CmdResourceFlush req g
  else if type =? VIRTIO_GPU_CMD_TRANSFER_TO_HOST_2D then CmdTransferToHost2d req h g
  else if type =? VIRTIO_GPU_CMD_RESOURCE_ATTACH_BACKING then Some (CmdAttachBacking req g)
  else if type =? VIRTIO_GPU_CMD_RESOURCE_DETACH_BACKING then Some (CmdDetachBacking req g)
  else Some (g, GpuResponse VIRTIO_GPU_RESP_ERR_UNSPEC).

(** The fence of the request, copied into the response. *)
Definition copy_fence (req resp : bytes) : bytes :=
  if (sizeof_CtrlHdr <=? length resp)%nat && has (field 4 4 req) VIRTIO_GPU_FLAG_FENCE
  then take 4 resp ++ le_bytes 4 (field 4 4 resp .| VIRTIO_GPU_FLAG_FENCE)
       ++ le_bytes 8 (field 8 8 req) ++ le_bytes 4 (field 4 16 req) ++ drop 20 resp
  else resp.

(** One iteration of [ProcessControlQueue]. *)
Definition control_request (head : Z) (w : Mmio * Gpu * HostMem) : option (Mmio * Gpu * HostMem) :=
  let '(m, g, h) := w in
  let q := queue_at m 0 in
  r ← WalkChain q h head;
  let '(ok, chain) := (r : bool * list VirtqChainElem) in
  if negb ok then h ← PushUsed q h head 0; Some (m, g, h)
  else
    req ← gather_readable chain h;
    if (length req <? sizeof_CtrlHdr)%nat then h ← PushUsed q h head 0; Some (m, g, h)
    else
      r ← gpu_command req h g;
      let '(g, resp) := (r : Gpu * bytes) in
      r ← scatter_writable chain (copy_fence req resp) h;
      let '(h, written) := (r : HostMem * Z) in
      h ← PushUsed q h head written;
      Some (m, g, h).

Definition ProcessControlQueue (w : Mmio * Gpu * HostMem) : option (Mmio * Gpu * HostMem) :=
  r ← drain control_request (Z.to_nat 65536) 0 w;
  let '(m, g, h) := (r : Mmio * Gpu * HostMem) in
  m ← NotifyUsedBuffer 0 m h;
  Some (m, g, h).

(** ** The cursor queue *)

(** [static_cast<int32_t>]. *)
Definition i32 (v : Z) : Z := if v <? 2 ^ 31 then v else v - 2 ^ 32.

Definition cursor_command (req : bytes) (g : Gpu) : Gpu :=
  let type := field 4 0 req in
  let is_update := type =? VIRTIO_GPU_CMD_UPDATE_CURSOR in
  let is_move := type =? VIRTIO_GPU_CMD_MOVE_CURSOR in
  if is_update || is_move then
    let g := g_set_cursor_y (i32 (field 4 32 req)) (g_set_cursor_x (i32 (field 4 28 req)) g) in
    let g := if is_update
             then g_set_cursor_hot_y (field 4 48 req) (g_set_cursor_hot_x (field 4 44 req)
                    (g_set_cursor_resource_id (field 4 40 req) g))
             else g in
    let vis := negb (cursor_resource_id_ g =? 0) in
    let dedup_skip := negb is_update
      && MatchesMove (last_emitted_cursor_ g) (cursor_x_ g) (cursor_y_ g) (cursor_hot_x_ g)
           (cursor_hot_y_ g) (cursor_resource_id_ g) vis in
    if negb dedup_skip && cursor_callback_ g then
      let image := if is_update && negb (cursor_resource_id_ g =? 0)
                   then resources_ g !! cursor_resource_id_ g else None in
      let '(w, h, pixels) := match image with
                             | Some res => (r_width res, r_height res, host_pixels res)
                             | None => (0, 0, [])
                             end in
      g_set_last_emitted_cursor
        (MkLast true (cursor_x_ g) (cursor_y_ g) (cursor_hot_x_ g) (cursor_hot_y_ g)
           (cursor_resource_id_ g) vis)
        (g_emit (ev_cursor (mkCursor (cursor_x_ g) (cursor_y_ g) (cursor_hot_x_ g) (cursor_hot_y_ g)
                              w h vis is_update pixels)) g)
    else g
  else g.

(** One iteration of [ProcessCursorQueue]. *)
Definition cursor_request (head : Z) (w : Mmio * Gpu * HostMem) : option (Mmio * Gpu * HostMem) :=
  let '(m, g, h) := w in
  let q := queue_at m 1 in
  r ← WalkChain q h head;
  let '(ok, chain) := (r : bool * list VirtqChainElem) in
  if negb ok then h ← PushUsed q h head 0; Some (m, g, h)
  else
    req ← gather_readable chain h;
    let g := if (sizeof_UpdateCursor <=? length req)%nat then cursor_command req g else g in
    h ← PushUsed q h head 0;
    Some (m, g, h).

Definition ProcessCursorQueue (w : Mmio * Gpu * HostMem) : option (Mmio * Gpu * HostMem) :=
  r ← drain cursor_request (Z.to_nat 65536) 1 w;
  let '(m, g, h) := (r : Mmio * Gpu * HostMem) in
  m ← NotifyUsedBuffer 1 m h;
  Some (m, g, h).

Definition Gpu_OnQueueNotify (i : Z) (w : Mmio * Gpu * HostMem) : option (Mmio * Gpu * HostMem) :=
  if i =? 0 then ProcessControlQueue w
  else if i =? 1 then ProcessCursorQueue w
  else Some w.

#[export] Instance Gpu_VirtioDeviceOps : VirtioDeviceOps Gpu := {
  GetDeviceId := fun _ => 16;
  GetDeviceFeatures := fun _ => 1 .<< 32;
  GetNumQueues := fun _ => 2;
  GetQueueMaxSize := fun _ _ => 256;
  OnQueueNotify := Gpu_OnQueueNotify;
  ReadConfig := Gpu_ReadConfig;
  WriteConfig := Gpu_WriteConfig;
  OnStatusChange := Gpu_OnStatusChange
}.

(** A request leaves the transport as it is. *)
Ltac split_request H :=
  repeat first [ case_match; simplify_eq | apply bind_Some in H as (? & _ & H) ]; by simplify_eq.

#[export] Instance Gpu_VirtioDeviceLaws : VirtioDeviceLaws Gpu.
Proof.
  constructor.
  - done.
  - intros i m g h m' g' h' Hm Hi. cbn [OnQueueNotify Gpu_VirtioDeviceOps]. unfold Gpu_OnQueueNotify.
    assert (Hc : keeps_mmio control_request).
    { intros head m0 g0 h0 m1 g1 h1 Hm0. unfold control_request. intros Hr. split_request Hr. }
    assert (Hcur : keeps_mmio cursor_request).
    { intros head m0 g0 h0 m1 g1 h1 Hm0. unfold cursor_request. intros Hr. split_request Hr. }
    unfold ProcessControlQueue, ProcessCursorQueue. case_ifs; [| |by intros [= <- <- <-]];
      intros Hr; apply bind_Some in Hr as ([[m1 g1] h1] & Hd & Hn); apply bind_Some in Hn as (m2 & Hn & Hend);
      injection Hend as <- <- <-; bool_hyps; apply drain_mmio_ok in Hd as [Hd _]; try done; try lia;
      by eapply NotifyUsedBuffer_ok.
  - intros v m g h m' g' h' Hm. cbn. case_ifs; by intros [= <- <- <-].
Qed.

(** ** Splicing *)

Lemma splice_length off data l :
  0 <= off -> off + Z.of_nat (length data) <= Z.of_nat (length l) ->
  length (splice off data l) = length l.
Proof. intros. unfold splice. rewrite !length_app, length_take, length_drop. lia. Qed.

Lemma splice_in off data l i :
  0 <= off -> off + Z.of_nat (length data) <= Z.of_nat (length l) ->
  off <= i < off + Z.of_nat (length data) ->
  splice off data l !! Z.to_nat i = data !! Z.to_nat (i - off).
Proof.
  intros. unfold splice. rewrite lookup_app_r; rewrite length_take; [|lia].
  rewrite lookup_app_l by lia. f_equal. lia.
Qed.

Lemma splice_out off data l i :
  0 <= off -> off + Z.of_nat (length data) <= Z.of_nat (length l) ->
  0 <= i -> i < off \/ off + Z.of_nat (length data) <= i ->
  splice off data l !! Z.to_nat i = l !! Z.to_nat i.
Proof.
  intros ? ? ? [?|?]; unfold splice.
  - rewrite lookup_app_l by (rewrite length_take; lia). by rewrite lookup_take_lt by lia.
  - rewrite lookup_app_r; rewrite length_take; [|lia].
    rewrite lookup_app_r by lia. rewrite lookup_drop. f_equal. lia.
Qed.

Lemma lookup_slice (l : bytes) n o i :
  0 <= o -> 0 <= i < n -> take (Z.to_nat n) (drop (Z.to_nat o) l) !! Z.to_nat i = l !! Z.to_nat (o + i).
Proof. intros. rewrite lookup_take_lt, lookup_drop by lia. f_equal. lia. Qed.

(** A byte index of row [y] and column [x] lies in row [r]'s part [a..b). *)
Lemma row_part y x r a b stride :
  0 <= x < stride -> 0 <= a -> b <= stride ->
  r * stride + a <= y * stride + x < r * stride + b -> y = r /\ a <= x < b.
Proof. intros. assert (y = r) by nia. subst. lia. Qed.

(** ** Backing pages in RAM *)

(** A page lies in one bank of RAM and holds [l]. *)
Definition page_at (h : HostMem) (p : BackingPage) (l : bytes) : Prop :=
  0 <= bp_gpa p /\ bp_gpa p + bp_length p <= 2 ^ 64 /\ 0 < bp_length p < 2 ^ 32
  /\ exists hva, (forall k, 0 <= k < bp_length p -> GpaToHva (hm_map h) (bp_gpa p + k) = Some (hva + k))
                 /\ hm_read h hva (bp_length p) = Some l.

Lemma page_at_length h p l : page_at h p l -> Z.of_nat (length l) = bp_length p.
Proof. intros (? & ? & ? & hva & _ & Hr). apply hm_read_length in Hr; lia. Qed.

Lemma CopyFromBacking_0 h pages ps off : CopyFromBacking h pages ps off 0 = Some [].
Proof. by destruct pages. Qed.

(** The pages read through are the one buffer they make up: the result of
    the linearization the code avoids. *)
Lemma CopyFromBacking_linear h pages ls : Forall2 (page_at h) pages ls -> forall ps off len,
  0 <= ps -> ps + Z.of_nat (length (concat ls)) < 2 ^ 64 ->
  ps <= off -> 0 <= len < 2 ^ 32 ->
  CopyFromBacking h pages ps off len = Some (take (Z.to_nat len) (drop (Z.to_nat (off - ps)) (concat ls))).
Proof.
  induction 1 as [|p l pages ls Hp _ IH]; intros ps off len Hps Htot Hoff Hlen.
  - cbn in *. by rewrite drop_nil, take_nil.
  - pose proof (page_at_length h p l Hp) as Hl. destruct Hp as (Hg0 & Hg1 & Hb & hva & Hgpa & Hread).
    cbn [concat CopyFromBacking] in *. rewrite length_app in Htot.
    destruct (Z.eqb_spec len 0) as [->|Hnz]; [done|].
    rewrite (wrap_small 64 (ps + bp_length p)) by (unfold in_width; lia).
    destruct (Z.ltb_spec off (ps + bp_length p)) as [Hlt|Hge].
    + rewrite (wrap_small 64 (off - ps)) by (unfold in_width; lia).
      rewrite (wrap_small 32 (bp_length p - (off - ps))) by (unfold in_width; lia).
      set (n := Z.min (bp_length p - (off - ps)) len).
      rewrite (wrap_small 64 (bp_gpa p + (off - ps))) by (unfold in_width; lia).
      rewrite Hgpa by lia. rewrite (hm_read_sub h hva (bp_length p) (off - ps) n l) by (done || lia).
      cbn [mbind option_bind]. rewrite (wrap_small 64 (off + n)) by (unfold in_width; lia).
      destruct (Z.le_gt_cases len (bp_length p - (off - ps))) as [Hle|Hgt].
      * replace (len - n) with 0 by lia. rewrite CopyFromBacking_0. cbn [mbind option_bind].
        rewrite app_nil_r. replace n with len by lia. f_equal.
        rewrite drop_app_le by lia. by rewrite take_app_le by (rewrite length_drop; lia).
      * rewrite (IH (ps + bp_length p) (off + n) (len - n)) by lia. cbn [mbind option_bind]. f_equal.
        replace (off + n - (ps + bp_length p)) with 0 by lia. cbn [Z.to_nat drop].
        rewrite drop_app_le by lia. rewrite (take_ge (drop _ l)) by (rewrite length_drop; lia).
        rewrite take_app. rewrite (take_ge (drop _ l)) by (rewrite length_drop; lia).
        f_equal. f_equal. rewrite length_drop. lia.
    + rewrite (IH (ps + bp_length p) off len) by lia. f_equal. f_equal.
      rewrite drop_app_ge by lia. f_equal. lia.
Qed.

(** ** Resources *)

Record res_ok (res : GpuResource) : Prop := {
  res_w : 0 < r_width res <= 16384;
  res_h : 0 < r_height res <= 16384;
  res_px : Z.of_nat (length (host_pixels res)) = r_width res * r_height res * 4;
  res_nb : (length (backing res) <= Z.to_nat 16384)%nat;
  res_len : Forall (fun p => 0 < bp_length p <= 67108864) (backing res) }.

Lemma total_backing_sum pages t :
  Forall (fun p => 0 < bp_length p <= 67108864) pages -> 0 <= t ->
  t + Z.of_nat (length pages) * 67108864 < 2 ^ 64 ->
  foldl (fun t p => u64 (t + bp_length p)) t pages = t + foldr Z.add 0 (bp_length <$> pages)
  /\ 0 <= foldr Z.add 0 (bp_length <$> pages) <= Z.of_nat (length pages) * 67108864.
Proof.
  intros Hp. revert t. induction Hp as [|p pages Hlen _ IH]; intros t Ht Hb; cbn [foldl foldr fmap list_fmap length] in *; [lia|].
  rewrite (wrap_small 64) by (unfold in_width; lia).
  destruct (IH (t + bp_length p)) as [E ?]; [lia|lia|]. unfold fmap in *. rewrite E. lia.
Qed.

Lemma linear_length h pages ls :
  Forall2 (page_at h) pages ls -> Z.of_nat (length (concat ls)) = foldr Z.add 0 (bp_length <$> pages).
Proof.
  induction 1 as [|p l pages ls Hp _ IH]; [done|]. cbn [concat fmap list_fmap foldr].
  apply page_at_length in Hp. rewrite length_app. unfold fmap in *. lia.
Qed.

Lemma total_backing_linear h res ls :
  res_ok res -> Forall2 (page_at h) (backing res) ls ->
  total_backing (backing res) = Z.of_nat (length (concat ls)) /\ Z.of_nat (length (concat ls)) <= 2 ^ 40.
Proof.
  intros Hr Hp. destruct (total_backing_sum (backing res) 0 (res_len _ Hr)) as [E ?]; [lia| |].
  - pose proof (res_nb _ Hr). lia.
  - rewrite (linear_length h _ _ Hp). unfold total_backing. rewrite E. pose proof (res_nb _ Hr). lia.
Qed.

Lemma clip_in x w limit : 0 <= x -> 0 <= w -> x + w <= limit -> limit < 2 ^ 32 -> clip x w limit = w.
Proof.
  intros. unfold clip. rewrite (wrap_small 32) by (unfold in_width; lia).
  by rewrite (proj2 (Z.ltb_ge _ _)) by lia.
Qed.

(** The pixels after [k] rows of a transfer: those of the rectangle come
    from the backing [L], the others are the old ones. *)
Definition transferred (res : GpuResource) (L : bytes) (off rx ry rw k : Z) (px : bytes) : Prop :=
  length px = length (host_pixels res) /\
  forall y x, 0 <= y < r_height res -> 0 <= x < r_width res * 4 ->
    px !! Z.to_nat (y * (r_width res * 4) + x)
    = if decide (ry <= y < ry + k /\ rx * 4 <= x < (rx + rw) * 4)
      then L !! Z.to_nat (off + (y - ry) * (r_width res * 4) + (x - rx * 4))
      else host_pixels res !! Z.to_nat (y * (r_width res * 4) + x).

(** The arithmetic of one row. *)
Lemma row_bounds res r x n :
  res_ok res -> 0 <= r < r_height res -> 0 <= x -> 0 <= n -> x + n <= r_width res * 4 ->
  0 <= r * (r_width res * 4) + x
  /\ r * (r_width res * 4) + x + n <= r_width res * r_height res * 4.
Proof.
  intros [[] [] _ _ _] Hr Hx Hn Hin. split; [nia|].
  assert (r * (r_width res * 4) <= (r_height res - 1) * (r_width res * 4)) by (apply Z.mul_le_mono_nonneg_r; lia).
  lia.
Qed.

Lemma px_bound res : res_ok res -> 0 < r_width res * r_height res * 4 <= 2 ^ 30.
Proof. intros [[] [] _ _ _]. nia. Qed.

Lemma transferred_row res L off rx ry rw k px :
  res_ok res -> 0 <= rx -> 0 <= ry -> 0 < rw -> 0 <= k -> rx + rw <= r_width res -> ry + k < r_height res ->
  0 <= off -> off + k * (r_width res * 4) + rw * 4 <= Z.of_nat (length L) ->
  transferred res L off rx ry rw k px ->
  transferred res L off rx ry rw (k + 1)
    (splice ((ry + k) * (r_width res * 4) + rx * 4)
       (take (Z.to_nat (rw * 4)) (drop (Z.to_nat (off + k * (r_width res * 4))) L)) px).
Proof.
  intros Hr Hrx Hry Hrw Hk Hw Hh Hoff HL [Hlen Hpx].
  pose proof (res_w _ Hr). pose proof (res_px _ Hr) as Hp.
  set (stride := r_width res * 4) in *.
  assert (Hks : 0 <= k * stride) by (apply Z.mul_nonneg_nonneg; lia).
  set (data := take (Z.to_nat (rw * 4)) (drop (Z.to_nat (off + k * stride)) L)).
  assert (Hdl : Z.of_nat (length data) = rw * 4).
  { unfold data. rewrite length_take, length_drop. lia. }
  destruct (row_bounds res (ry + k) (rx * 4) (rw * 4) Hr) as [Hb0 Hb1]; [lia|lia|lia|lia|]. fold stride in Hb0, Hb1.
  split; [rewrite splice_length; lia|]. intros y x Hy Hx. fold stride in Hx |- *.
  destruct (row_bounds res y x 0 Hr) as [Hy0 _]; [lia|lia|lia|lia|]. fold stride in Hy0.
  destruct (decide ((ry + k) * stride + rx * 4 <= y * stride + x < (ry + k) * stride + rx * 4 + rw * 4)) as [Hi|Hi].
  - destruct (row_part y x (ry + k) (rx * 4) ((rx + rw) * 4) stride) as [-> Hxx]; [lia|lia|lia|lia|].
    rewrite splice_in by lia. rewrite decide_True by lia. unfold data. rewrite lookup_slice by lia.
    f_equal. f_equal. replace (ry + k - ry) with k by lia. lia.
  - rewrite splice_out by lia. rewrite Hpx by lia.
    destruct (decide (ry <= y < ry + k /\ rx * 4 <= x < (rx + rw) * 4)).
    + by rewrite decide_True by lia.
    + rewrite decide_False; [done|]. intros [Hyk Hxx]. assert (y = ry + k) by lia. subst y. lia.
Qed.

Lemma transfer_pixels h res ls rx ry rw rh off :
  res_ok res -> Forall2 (page_at h) (backing res) ls ->
  0 <= rx -> 0 <= ry -> 0 < rw -> 0 < rh -> rx + rw <= r_width res -> ry + rh <= r_height res ->
  0 <= off -> off + (rh - 1) * (r_width res * 4) + rw * 4 <= Z.of_nat (length (concat ls)) ->
  exists px, transfer h res rx ry rw rh off = Some px /\ transferred res (concat ls) off rx ry rw rh px.
Proof.
  intros Hr Hp Hrx Hry Hrw Hrh Hw Hh Hoff HL.
  destruct (total_backing_linear h res ls Hr Hp) as [Htb HLb].
  pose proof (res_w _ Hr). pose proof (res_h _ Hr). pose proof (px_bound _ Hr).
  unfold transfer. rewrite (proj2 (Z.leb_gt _ _)), (proj2 (Z.leb_gt _ _)) by lia. cbn [orb].
  rewrite !clip_in by lia. rewrite Htb.
  set (step := transfer_step _ _ _ _ _ _ _ _).
  destruct (while64_total step
    (fun s => 0 <= fst s <= rh /\ transferred res (concat ls) off rx ry rw (fst s) (snd s))
    (fun s => rh - fst s)
    (fun r => exists px, r = Some px /\ transferred res (concat ls) off rx ry rw rh px)
    (0, host_pixels res)) as (r & -> & px & -> & Hpx).
  - split; [cbn; lia|]. split; [done|]. intros y x Hy Hx. cbn [fst snd].
    by rewrite decide_False by lia.
  - cbn [fst]. lia.
  - intros [row px] [Hrow Hpx]. cbn [fst snd] in *. unfold step, transfer_step.
    destruct (Z.ltb_spec row rh) as [Hlt|Hge]; cbn [negb].
    2: { exists px. split; [done|]. by replace rh with row by lia. }
    unfold FormatBpp. set (stride := r_width res * 4) in *.
    assert (Hst : 0 < stride <= 65536) by lia.
    assert (Hrs : row * stride <= (rh - 1) * stride) by (apply Z.mul_le_mono_nonneg_r; lia).
    assert (Hrs0 : 0 <= row * stride) by (apply Z.mul_nonneg_nonneg; lia).
    destruct (row_bounds res (ry + row) (rx * 4) (rw * 4) Hr) as [Hb0 Hb1]; [lia|lia|lia|lia|]. fold stride in Hb0, Hb1.
    assert (Hys : 0 <= (ry + row) * stride) by (apply Z.mul_nonneg_nonneg; lia).
    rewrite (wrap_small 32 stride) by (unfold in_width; lia).
    rewrite (wrap_small 64 (row * stride)) by (unfold in_width; lia).
    rewrite (wrap_small 64 (off + row * stride)) by (unfold in_width; lia).
    rewrite (wrap_small 32 (ry + row)) by (unfold in_width; lia).
    rewrite (wrap_small 64 ((ry + row) * stride)) by (unfold in_width; lia).
    rewrite (wrap_small 64 (rx * 4)) by (unfold in_width; lia).
    rewrite (wrap_small 32 (rw * 4)) by (unfold in_width; lia).
    rewrite (wrap_small 64 ((ry + row) * stride + rx * 4)) by (unfold in_width; lia).
    rewrite (wrap_small 64 (off + row * stride + rw * 4)) by (unfold in_width; lia).
    rewrite (wrap_small 64 ((ry + row) * stride + rx * 4 + rw * 4)) by (unfold in_width; lia).
    rewrite (proj2 (Z.ltb_ge _ _)) by lia.
    pose proof Hpx as [Hlen _]. rewrite Hlen, (res_px _ Hr).
    rewrite (proj2 (Z.ltb_ge _ _)) by lia.
    rewrite (CopyFromBacking_linear h _ _ Hp) by lia. rewrite Z.sub_0_r.
    rewrite (wrap_small 32 (row + 1)) by (unfold in_width; lia). cbn [fst snd].
    split; [|lia]. split; [lia|]. apply transferred_row; try done; lia.
  - exists px. split; [done|exact Hpx].
Qed.

(** *** Flushed pixels *)

(** The first [k] rows of a frame. *)
Definition flushed (res : GpuResource) (dx dy dw dh k : Z) (out : bytes) : Prop :=
  Z.of_nat (length out) = dw * dh * 4 /\
  forall y x, 0 <= y < k -> 0 <= x < dw * 4 ->
    out !! Z.to_nat (y * (dw * 4) + x)
    = host_pixels res !! Z.to_nat ((dy + y) * (r_width res * 4) + (dx * 4 + x)).

Lemma flushed_row res dx dy dw dh k out :
  res_ok res -> 0 <= dx -> 0 <= dy -> 0 <= dw -> 0 <= k < dh -> dx + dw <= r_width res -> dy + dh <= r_height res ->
  flushed res dx dy dw dh k out ->
  flushed res dx dy dw dh (k + 1)
    (splice (k * dw * 4)
       (take (Z.to_nat (dw * 4)) (drop (Z.to_nat ((dy + k) * (r_width res * 4) + dx * 4)) (host_pixels res))) out).
Proof.
  intros Hr Hdx Hdy Hdw Hk Hw Hh [Hlen Hout]. pose proof (res_px _ Hr) as Hp.
  destruct (row_bounds res (dy + k) (dx * 4) (dw * 4) Hr) as [Hb0 Hb1]; [lia|lia|lia|lia|].
  set (data := take _ (drop _ _)).
  assert (Hdl : Z.of_nat (length data) = dw * 4).
  { unfold data. rewrite length_take, length_drop. lia. }
  replace (k * dw * 4) with (k * (dw * 4)) by lia.
  assert (Hk0 : 0 <= k * (dw * 4)) by (apply Z.mul_nonneg_nonneg; lia).
  assert (Hk1 : k * (dw * 4) <= (dh - 1) * (dw * 4)) by (apply Z.mul_le_mono_nonneg_r; lia).
  split; [rewrite splice_length; lia|]. intros y x Hy Hx.
  assert (Hy0 : 0 <= y * (dw * 4)) by (apply Z.mul_nonneg_nonneg; lia).
  destruct (decide (y = k)) as [->|Hne].
  - rewrite splice_in by lia. unfold data. rewrite lookup_slice by lia. f_equal. f_equal. lia.
  - rewrite splice_out; [apply Hout; lia|lia|lia|lia|].
    left. assert (y * (dw * 4) <= (k - 1) * (dw * 4)) by (apply Z.mul_le_mono_nonneg_r; lia). lia.
Qed.

Lemma flush_pixels_spec res dx dy dw dh :
  res_ok res -> 2 ^ 30 <= alloc_limit ->
  0 <= dx -> 0 <= dy -> 0 <= dw -> 0 <= dh -> dx + dw <= r_width res -> dy + dh <= r_height res ->
  exists out, flush_pixels res dx dy dw dh = Some out /\ flushed res dx dy dw dh dh out.
Proof.
  intros Hr Hal Hdx Hdy Hdw Hdh Hw Hh. unfold flush_pixels, FormatBpp.
  pose proof (res_w _ Hr). pose proof (res_h _ Hr). pose proof (px_bound _ Hr). pose proof (res_px _ Hr) as Hp.
  destruct ((dx =? 0) && (dy =? 0) && (dw =? r_width res) && (dh =? r_height res)) eqn:Efull.
  { bool_hyps. exists (host_pixels res). split; [done|]. split; [lia|]. intros y x Hy Hx. f_equal. f_equal.
    subst. lia. }
  assert (Hprod : 0 <= dw * dh <= 2 ^ 28) by nia.
  rewrite (wrap_small 64 (dw * dh)) by (unfold in_width; lia).
  rewrite (wrap_small 64 (dw * dh * 4)) by (unfold in_width; lia).
  rewrite (bind_eq _ _ (replicate (Z.to_nat (dw * dh * 4)) 0))
    by (unfold alloc_zero; by rewrite (proj2 (Z.ltb_ge _ _)) by lia).
  set (step := flush_step _ _ _ _ _).
  destruct (while64_total step
    (fun s => 0 <= fst s <= dh /\ flushed res dx dy dw dh (fst s) (snd s))
    (fun s => dh - fst s)
    (fun r => exists out, r = Some out /\ flushed res dx dy dw dh dh out)
    (0, replicate (Z.to_nat (dw * dh * 4)) 0)) as (r & -> & out & -> & Hout).
  - split; [cbn; lia|]. split; [cbn [snd]; rewrite length_replicate; lia|]. cbn [fst]. lia.
  - cbn [fst]. lia.
  - intros [row out] [Hrow Hout]. cbn [fst snd] in *. unfold step, flush_step, FormatBpp.
    destruct (Z.ltb_spec row dh) as [Hlt|Hge]; cbn [negb].
    2: { exists out. split; [done|]. by replace dh with row at 2 by lia. }
    destruct (row_bounds res (dy + row) (dx * 4) (dw * 4) Hr) as [Hb0 Hb1]; [lia|lia|lia|lia|].
    assert (Hys : 0 <= (dy + row) * (r_width res * 4)) by (apply Z.mul_nonneg_nonneg; lia).
    assert (Hk0 : 0 <= row * dw) by (apply Z.mul_nonneg_nonneg; lia).
    assert (Hk1 : row * dw <= (dh - 1) * dw) by (apply Z.mul_le_mono_nonneg_r; lia).
    rewrite (wrap_small 32 (r_width res * 4)) by (unfold in_width; lia).
    rewrite (wrap_small 32 (dy + row)) by (unfold in_width; lia).
    rewrite (wrap_small 64 ((dy + row) * _)) by (unfold in_width; lia).
    rewrite (wrap_small 64 (dx * 4)) by (unfold in_width; lia).
    rewrite (wrap_small 32 (dw * 4)) by (unfold in_width; lia).
    rewrite (wrap_small 64 (_ + dx * 4)) by (unfold in_width; lia).
    rewrite (wrap_small 64 (_ + dx * 4 + dw * 4)) by (unfold in_width; lia).
    rewrite (wrap_small 64 (row * dw)) by (unfold in_width; lia).
    rewrite (wrap_small 64 (row * dw * 4)) by (unfold in_width; lia).
    rewrite Hp, (proj2 (Z.ltb_ge _ _)) by lia.
    pose proof Hout as [Hlen _]. rewrite Hlen, (proj2 (Z.ltb_ge _ _)) by lia.
    rewrite (wrap_small 32 (row + 1)) by (unfold in_width; lia). cbn [fst snd].
    split; [|lia]. split; [lia|]. apply flushed_row; done || lia.
  - exists out. split; [done|exact Hout].
Qed.

(** ** Every command *)

(** A resource's backing lies in RAM. *)
Definition backed (h : HostMem) (res : GpuResource) : Prop := exists ls, Forall2 (page_at h) (backing res) ls.

(** A transfer of any rectangle from any offset ends, and keeps the size of
    the resource's pixels. *)
Lemma transfer_total h res rx ry rw rh off :
  res_ok res -> backed h res ->
  0 <= rx -> 0 <= ry < 2 ^ 32 -> 0 <= rw < 2 ^ 32 -> 0 <= rh < 2 ^ 32 -> 0 <= off ->
  exists px, transfer h res rx ry rw rh off = Some px /\ length px = length (host_pixels res).
Proof.
  intros Hr [ls Hp] Hrx Hry Hrw Hrh Hoff.
  destruct (total_backing_linear h res ls Hr Hp) as [_ HLb].
  pose proof (res_w _ Hr). pose proof (res_h _ Hr). pose proof (px_bound _ Hr). pose proof (res_px _ Hr) as Hpx.
  unfold transfer. destruct ((r_width res <=? rx) || (r_height res <=? ry)) eqn:E; [by eexists|]. bool_hyps.
  assert (Hcw : 0 <= clip rx rw (r_width res) < 2 ^ 32) by (unfold clip; case_ifs; lia).
  assert (Hch : 0 <= clip ry rh (r_height res) < 2 ^ 32) by (unfold clip; case_ifs; lia).
  set (step := transfer_step _ _ _ _ _ _ _ _).
  destruct (while64_total step
    (fun s => 0 <= fst s <= clip ry rh (r_height res) /\ length (snd s) = length (host_pixels res))
    (fun s => clip ry rh (r_height res) - fst s)
    (fun r => exists px, r = Some px /\ length px = length (host_pixels res))
    (0, host_pixels res)) as (r & -> & px & -> & Hl).
  - cbn. split; [lia|done].
  - cbn. lia.
  - intros [row px] [Hrow Hl]. cbn [fst snd] in *. unfold step, transfer_step.
    destruct (Z.ltb_spec row (clip ry rh (r_height res))); cbn [negb]; [|by eexists]. unfold FormatBpp.
    rewrite (wrap_small 32 (r_width res * 4)) by (unfold in_width; lia).
    pose proof (wrap_bound 32 (ry + row)) as Hy. pose proof (wrap_bound 32 (clip rx rw (r_width res) * 4)) as Hn.
    set (y := u32 (ry + row)) in *. set (n := u32 (clip rx rw (r_width res) * 4)) in *.
    assert (Hys : 0 <= y * (r_width res * 4) <= 2 ^ 32 * 65536).
    { split; [apply Z.mul_nonneg_nonneg; lia|]. apply Z.mul_le_mono_nonneg; lia. }
    rewrite (wrap_small 64 (y * _)) by (unfold in_width; lia).
    rewrite (wrap_small 64 (rx * 4)) by (unfold in_width; lia).
    rewrite (wrap_small 64 (y * _ + rx * 4)) by (unfold in_width; lia).
    rewrite (wrap_small 64 (y * _ + rx * 4 + n)) by (unfold in_width; lia).
    destruct (total_backing _ <? _); [by eauto|].
    destruct (Z.ltb_spec (Z.of_nat (length px)) (y * (r_width res * 4) + rx * 4 + n)); [by eauto|].
    rewrite (CopyFromBacking_linear h _ _ Hp) by (first [lia | apply wrap_nonneg; lia]).
    rewrite (wrap_small 32 (row + 1)) by (unfold in_width; lia). cbn [fst snd].
    split; [|lia]. split; [lia|]. rewrite splice_length; [done|lia|]. rewrite length_take. lia.
  - by exists px.
Qed.

Record gpu_ok (g : Gpu) : Prop := {
  gok_res : map_Forall (fun id res => id <> 0 /\ r_id res = id /\ res_ok res) (resources_ g);
  gok_scanout : scanout_resource_id_ g = 0 \/ is_Some (resources_ g !! scanout_resource_id_ g) }.

Lemma mem_entries_ok nr extra pages :
  bytes_ok extra -> mem_entries nr extra = Some pages ->
  length pages = nr /\ Forall (fun p => 0 < bp_length p <= 67108864) pages.
Proof.
  revert extra pages. induction nr as [|nr IH]; intros extra pages Hb; cbn [mem_entries]; [by intros [= <-]|].
  case_match eqn:E; [done|]. bool_hyps. intros Hm. apply bind_Some in Hm as (rest & Hm & [= <-]).
  destruct (IH (drop 16 extra) rest) as [Hl Hf]; [by apply Forall_drop|done|].
  pose proof (field_bound4 8 extra Hb). split; [cbn; lia|]. constructor; [cbn; lia|done].
Qed.

Lemma gpu_ok_insert g id res :
  gpu_ok g -> id <> 0 -> r_id res = id -> res_ok res ->
  gpu_ok (g_set_resources (<[id := res]> (resources_ g)) g).
Proof.
  intros [Hg Hs] Hid Hr Hok. split; cbn.
  - by apply map_Forall_insert_2.
  - destruct Hs as [->|Hs]; [by left|right]. destruct (decide (id = scanout_resource_id_ g)) as [->|];
      [rewrite lookup_insert_eq; by eexists|by rewrite lookup_insert_ne].
Qed.

Lemma gpu_ok_emit e g : gpu_ok g -> gpu_ok (g_emit e g).
Proof. intros [? ?]. by split. Qed.

Lemma gpu_ok_lookup g id res : gpu_ok g -> resources_ g !! id = Some res -> id <> 0 /\ r_id res = id /\ res_ok res.
Proof. intros [Hg _]. apply Hg. Qed.

Definition rect_fits (req : bytes) : Prop :=
  field 4 24 req + field 4 32 req < 2 ^ 32 /\ field 4 28 req + field 4 36 req < 2 ^ 32.

Lemma clip_fits x w limit :
  0 <= x < limit -> 0 <= w -> x + w < 2 ^ 32 -> 0 <= clip x w limit /\ x + clip x w limit <= limit.
Proof.
  intros. unfold clip. rewrite (wrap_small 32) by (unfold in_width; lia).
  destruct (Z.ltb_spec limit (x + w)); lia.
Qed.

(** A command's outcome. *)
Definition answered (g' : option (Gpu * bytes)) : Prop :=
  exists g resp, g' = Some (g, resp) /\ gpu_ok g /\ (24 <= length resp <= 408)%nat.

Lemma answered_intro g resp : gpu_ok g -> (24 <= length resp <= 408)%nat -> answered (Some (g, resp)).
Proof. intros. by exists g, resp. Qed.

Lemma GpuResponse_length ty : (24 <= length (GpuResponse ty) <= 408)%nat.
Proof. unfold GpuResponse. rewrite length_app, length_le_bytes. cbn. lia. Qed.

#[local] Hint Resolve answered_intro GpuResponse_length gpu_ok_emit : gpu.

Section Commands.
  Context (req : bytes) (h : HostMem) (g : Gpu).
  Hypothesis req_bytes : bytes_ok req.
  Hypothesis gok : gpu_ok g.
  Hypothesis alloc_enough : 2 ^ 30 <= alloc_limit.
  Hypothesis in_ram : map_Forall (fun _ res => backed h res) (resources_ g).

Lemma Create2d_answered : answered (CmdResourceCreate2d req g).
Proof using req_bytes gok alloc_enough.
  unfold CmdResourceCreate2d. case_ifs; eauto with gpu. bool_hyps.
  pose proof (field_bound4 24 req req_bytes). pose proof (field_bound4 32 req req_bytes).
  pose proof (field_bound4 36 req req_bytes).
  set (w := field 4 32 req) in *. set (hh := field 4 36 req) in *.
  assert (Hpx : 0 < w * hh * 4 <= 2 ^ 30) by nia.
  unfold alloc_zero, FormatBpp. rewrite (proj2 (Z.ltb_ge _ _)) by lia. cbn [mbind option_bind].
  apply answered_intro; [|apply GpuResponse_length]. apply gpu_ok_insert; try done.
  split; cbn -[Z.mul]; try lia; [|by constructor]. rewrite length_replicate. lia.
Qed.

Lemma Unref_answered : answered (Some (CmdResourceUnref req g)).
Proof using gok.
  unfold CmdResourceUnref. destruct (_ <? _)%nat; [eauto with gpu|].
  destruct (resources_ g !! field 4 24 req) eqn:Elk; [|eauto with gpu].
  apply answered_intro; [|apply GpuResponse_length]. pose proof gok as [Hr Hs].
  split; cbn [resources_ g_set_resources].
  - apply map_Forall_delete. by case_ifs.
  - destruct (Z.eqb_spec (scanout_resource_id_ g) (field 4 24 req)) as [Heq|Hne]; [by left|]. cbn.
    destruct Hs as [Hs|Hs]; [by left|right]. by rewrite lookup_delete_ne.
Qed.

Lemma SetScanout_answered : answered (Some (CmdSetScanout req g)).
Proof using gok.
  unfold CmdSetScanout. pose proof gok as [Hr Hs].
  case_ifs; eauto with gpu.
  - apply answered_intro; [|apply GpuResponse_length]. apply gpu_ok_emit. split; cbn; auto.
  - apply answered_intro; [|apply GpuResponse_length]. split; cbn; auto.
  - destruct (resources_ g !! field 4 44 req) eqn:Elk; [|eauto with gpu].
    apply answered_intro; [|apply GpuResponse_length]. case_ifs; [apply gpu_ok_emit|]; split; cbn; try done; right; by eexists.
Qed.

Lemma Transfer_answered : answered (CmdTransferToHost2d req h g).
Proof using req_bytes gok in_ram.
  unfold CmdTransferToHost2d. destruct (_ <? _)%nat; [eauto with gpu|].
  destruct (resources_ g !! field 4 48 req) as [res|] eqn:Er; [|eauto with gpu].
  destruct (gpu_ok_lookup _ _ _ gok Er) as (Hid & Hrid & Hres).
  pose proof (field_bound4 24 req req_bytes). pose proof (field_bound4 28 req req_bytes).
  pose proof (field_bound4 32 req req_bytes). pose proof (field_bound4 36 req req_bytes).
  pose proof (field_bound8 40 req req_bytes).
  destruct (transfer_total h res (field 4 24 req) (field 4 28 req) (field 4 32 req) (field 4 36 req) (field 8 40 req))
    as (px & -> & Hl); try (done || lia); [by eapply in_ram|]. cbn [mbind option_bind].
  apply answered_intro; [|apply GpuResponse_length]. apply gpu_ok_insert; try done.
  destruct Hres. split; cbn -[Z.mul]; try done. by rewrite Hl.
Qed.

Lemma Flush_answered : rect_fits req -> answered (CmdResourceFlush req g).
Proof using req_bytes gok alloc_enough.
  intros [Hfx Hfy]. unfold CmdResourceFlush. destruct (_ <? _)%nat; [eauto with gpu|].
  destruct (resources_ g !! field 4 40 req) as [res|] eqn:Er; [|eauto with gpu].
  destruct (gpu_ok_lookup _ _ _ gok Er) as (Hid & Hrid & Hres).
  pose proof (field_bound4 24 req req_bytes). pose proof (field_bound4 28 req req_bytes).
  pose proof (field_bound4 32 req req_bytes). pose proof (field_bound4 36 req req_bytes).
  pose proof (res_w _ Hres). pose proof (res_h _ Hres).
  case_ifs; eauto with gpu. bool_hyps.
  destruct (clip_fits (field 4 24 req) (field 4 32 req) (r_width res)); [lia|lia|lia|].
  destruct (clip_fits (field 4 28 req) (field 4 36 req) (r_height res)); [lia|lia|lia|].
  destruct (flush_pixels_spec res (field 4 24 req) (field 4 28 req) (clip (field 4 24 req) (field 4 32 req) (r_width res))
    (clip (field 4 28 req) (field 4 36 req) (r_height res))) as (out & -> & _); try (done || lia).
  cbn [mbind option_bind]. eauto with gpu.
Qed.

Lemma Attach_answered : answered (Some (CmdAttachBacking req g)).
Proof using req_bytes gok.
  unfold CmdAttachBacking. destruct (_ <? _)%nat; [eauto with gpu|].
  destruct (resources_ g !! field 4 24 req) as [res|] eqn:Er; [|eauto with gpu].
  destruct (gpu_ok_lookup _ _ _ gok Er) as (Hid & Hrid & Hres).
  assert (Hset : forall pages, (length pages <= Z.to_nat 16384)%nat -> Forall (fun p => 0 < bp_length p <= 67108864) pages ->
    gpu_ok (g_set_resources (<[field 4 24 req := res_set_backing pages res]> (resources_ g)) g)).
  { intros pages Hl Hf. apply gpu_ok_insert; try done. destruct Hres. by split. }
  assert (Hnil : gpu_ok (g_set_resources (<[field 4 24 req := res_set_backing [] res]> (resources_ g)) g)).
  { apply Hset; [cbn; lia|constructor]. }
  case_ifs; eauto with gpu. bool_hyps.
  destruct (mem_entries _ _) as [pages|] eqn:Em; [|eauto with gpu].
  apply mem_entries_ok in Em as [Hl Hf]; [|by apply Forall_drop].
  apply answered_intro; [|apply GpuResponse_length]. apply Hset; [lia|done].
Qed.

Lemma Detach_answered : answered (Some (CmdDetachBacking req g)).
Proof using gok.
  unfold CmdDetachBacking. destruct (_ <? _)%nat; [eauto with gpu|].
  destruct (resources_ g !! field 4 24 req) as [res|] eqn:Er; [|eauto with gpu].
  destruct (gpu_ok_lookup _ _ _ gok Er) as (Hid & Hrid & Hres).
  apply answered_intro; [|apply GpuResponse_length]. apply gpu_ok_insert; try done.
  destruct Hres. split; cbn; first [done|lia|constructor].
Qed.

(** C36. Every command is answered and keeps the resource table consistent:
    whatever the request holds, if the pages the guest attached lie in RAM
    and a flush's rectangle does not wrap around, the device returns, with a
    response of at least a header, and every resource still has exactly its
    pixels and the scanout still names a resource. *)
Theorem gpu_command_answered :
  (field 4 0 req = VIRTIO_GPU_CMD_RESOURCE_FLUSH -> rect_fits req) ->
  exists g' resp, gpu_command req h g = Some (g', resp) /\ gpu_ok g' /\ (24 <= length resp <= 408)%nat.
Proof using req_bytes gok alloc_enough in_ram.
  intros Hf. change (answered (gpu_command req h g)). unfold gpu_command.
  repeat match goal with |- answered (if ?b then _ else _) => destruct b eqn:? end;
    eauto using Create2d_answered, Unref_answered, SetScanout_answered, Transfer_answered,
      Attach_answered, Detach_answered with gpu.
  - apply answered_intro; [done|]. unfold CmdGetDisplayInfo.
    rewrite !length_app, !length_le_bytes, length_replicate. unfold GpuResponse. cbn. lia.
  - apply Flush_answered, Hf. by apply Z.eqb_eq.
Qed.
End Commands.

(** ** From the guest's memory to the screen *)

Definition rect_of (req : bytes) : Z * Z * Z * Z :=
  (field 4 24 req, field 4 28 req, field 4 32 req, field 4 36 req).

Lemma res_ok_pixels px res : res_ok res -> length px = length (host_pixels res) -> res_ok (res_set_pixels px res).
Proof. intros [] Hl. split; cbn -[Z.mul]; try done. by rewrite Hl. Qed.

Lemma command_transfer req h g id res :
  resources_ g !! id = Some res -> (56 <= length req)%nat ->
  field 4 0 req = VIRTIO_GPU_CMD_TRANSFER_TO_HOST_2D -> field 4 48 req = id ->
  gpu_command req h g
  = (pixels ← transfer h res (field 4 24 req) (field 4 28 req) (field 4 32 req) (field 4 36 req) (field 8 40 req);
     Some (g_set_resources (<[id := res_set_pixels pixels res]> (resources_ g)) g,
           GpuResponse VIRTIO_GPU_RESP_OK_NODATA)).
Proof.
  intros Hr Hl Ht Hid. unfold gpu_command. rewrite Ht. cbn. unfold CmdTransferToHost2d.
  rewrite (proj2 (Nat.ltb_ge _ _)) by (unfold sizeof_TransferToHost2d; lia). by rewrite Hid, Hr.
Qed.

Lemma command_flush req h g id res rx ry rw rh :
  resources_ g !! id = Some res -> scanout_resource_id_ g = id -> frame_callback_ g = true ->
  (48 <= length req)%nat -> field 4 0 req = VIRTIO_GPU_CMD_RESOURCE_FLUSH -> field 4 40 req = id ->
  rect_of req = (rx, ry, rw, rh) -> res_ok res ->
  0 <= rx -> 0 <= ry -> 0 < rw -> 0 < rh -> rx + rw <= r_width res -> ry + rh <= r_height res ->
  gpu_command req h g
  = (pixels ← flush_pixels res rx ry rw rh;
     Some (g_emit (ev_frame (mkFrame rw rh (rw * 4) (r_format res) (r_width res) (r_height res) rx ry pixels)) g,
           GpuResponse VIRTIO_GPU_RESP_OK_NODATA)).
Proof.
  intros Hr Hs Hf Hl Ht Hid [= Hrx Hry Hrw Hrh] Hok ? ? ? ? ? ?.
  pose proof (res_w _ Hok). pose proof (res_h _ Hok).
  unfold gpu_command. rewrite Ht. cbn. unfold CmdResourceFlush.
  rewrite (proj2 (Nat.ltb_ge _ _)) by (unfold sizeof_ResourceFlush; lia).
  rewrite Hid, Hr, Hs, Hf, Hrx, Hry, Hrw, Hrh, Z.eqb_refl. cbn [andb].
  rewrite (proj2 (Z.leb_gt _ _)), (proj2 (Z.leb_gt _ _)) by lia. cbn [orb].
  rewrite !clip_in by lia. unfold FormatBpp. by rewrite (wrap_small 32) by (unfold in_width; lia).
Qed.

(** C8. A screen update reaches the display.  When the guest transfers a
    rectangle of the scanout's resource from its backing pages and flushes
    it, the host is given one frame for exactly that rectangle, whose row
    [y] is, byte for byte, the backing's part at the transfer's offset plus
    [y] times the resource's stride, with the pages taken as one buffer. *)
Theorem screen_update treq freq h h' g id res ls rx ry rw rh off :
  gpu_ok g -> 2 ^ 30 <= alloc_limit ->
  resources_ g !! id = Some res -> scanout_resource_id_ g = id -> frame_callback_ g = true ->
  Forall2 (page_at h) (backing res) ls ->
  (56 <= length treq)%nat -> field 4 0 treq = VIRTIO_GPU_CMD_TRANSFER_TO_HOST_2D ->
  field 4 48 treq = id -> rect_of treq = (rx, ry, rw, rh) -> field 8 40 treq = off ->
  (48 <= length freq)%nat -> field 4 0 freq = VIRTIO_GPU_CMD_RESOURCE_FLUSH ->
  field 4 40 freq = id -> rect_of freq = (rx, ry, rw, rh) ->
  0 <= rx -> 0 <= ry -> 0 < rw -> 0 < rh -> rx + rw <= r_width res -> ry + rh <= r_height res ->
  0 <= off -> off + (rh - 1) * (r_width res * 4) + rw * 4 <= Z.of_nat (length (concat ls)) ->
  exists g1 g2 px,
    gpu_command treq h g = Some (g1, GpuResponse VIRTIO_GPU_RESP_OK_NODATA)
    /\ gpu_command freq h' g1 = Some (g2, GpuResponse VIRTIO_GPU_RESP_OK_NODATA)
    /\ g_events g2 = g_events g ++
         [ev_frame (mkFrame rw rh (rw * 4) (r_format res) (r_width res) (r_height res) rx ry px)]
    /\ Z.of_nat (length px) = rw * rh * 4
    /\ forall y x, 0 <= y < rh -> 0 <= x < rw * 4 ->
         px !! Z.to_nat (y * (rw * 4) + x) = concat ls !! Z.to_nat (off + y * (r_width res * 4) + x).
Proof.
  intros Hg Hal Hr Hs Hf Hp Htl Htt Htid Htr Hoff Hfl Hft Hfid Hfr Hrx Hry Hrw Hrh Hw Hh Hoff0 HL.
  destruct (gpu_ok_lookup _ _ _ Hg Hr) as (_ & _ & Hres).
  rewrite (command_transfer treq h g id res) by done. injection Htr as -> -> -> ->. rewrite Hoff.
  destruct (transfer_pixels h res ls rx ry rw rh off) as (px1 & -> & Hlen & Hpx); try done.
  cbn [mbind option_bind]. set (res1 := res_set_pixels px1 res).
  assert (Hres1 : res_ok res1) by by apply res_ok_pixels.
  destruct (flush_pixels_spec res1 rx ry rw rh) as (out & Hout & Hol & Hoe); try (done || lia).
  eexists _, _, out. split; [done|]. split.
  { rewrite (command_flush freq h' _ id res1 rx ry rw rh) by (first [done | by cbn; rewrite lookup_insert_eq]).
    by rewrite Hout. }
  split; [done|]. split; [done|]. intros y x Hy Hx. rewrite Hoe by lia.
  pose proof (res_w _ Hres). cbn [r_width res1 res_set_pixels host_pixels].
  rewrite Hpx by (cbn in *; lia). rewrite decide_True by lia. f_equal. f_equal.
  replace (ry + y - ry) with y by lia. lia.
Qed.

(** ** Rectangles that wrap around *)

(** The 32-bit sum of a flush's [x] and [width] wraps, the clipping is
    skipped, and a frame of four bytes short of 16 GiB is asked for: with a
    smaller limit the allocation throws and the process ends. *)
Lemma flush_wraps req h g id res :
  alloc_limit < (2 ^ 32 - 1) * 4 ->
  resources_ g !! id = Some res -> scanout_resource_id_ g = id -> frame_callback_ g = true ->
  1 < r_width res <= 16384 -> 0 < r_height res <= 16384 ->
  (48 <= length req)%nat -> field 4 0 req = VIRTIO_GPU_CMD_RESOURCE_FLUSH ->
  field 4 40 req = id -> rect_of req = (1, 0, 2 ^ 32 - 1, 1) ->
  gpu_command req h g = None.
Proof.
  intros Hal Hr Hs Hf Hw Hh Hl Ht Hid [= Hrx Hry Hrw Hrh].
  unfold gpu_command. rewrite Ht. cbn -[Z.pow]. unfold CmdResourceFlush.
  rewrite (proj2 (Nat.ltb_ge _ _)) by (unfold sizeof_ResourceFlush; lia).
  rewrite Hid, Hr, Hs, Hf, Hrx, Hry, Hrw, Hrh, Z.eqb_refl. cbn [andb].
  rewrite (proj2 (Z.leb_gt _ _)), (proj2 (Z.leb_gt _ _)) by lia. cbn [orb].
  assert (Hcx : clip 1 (2 ^ 32 - 1) (r_width res) = 2 ^ 32 - 1).
  { unfold clip. change (u32 (1 + (2 ^ 32 - 1))) with 0. by rewrite (proj2 (Z.ltb_ge _ _)) by lia. }
  assert (Hcy : clip 0 1 (r_height res) = 1).
  { unfold clip. change (u32 (0 + 1)) with 1. by rewrite (proj2 (Z.ltb_ge _ _)) by lia. }
  rewrite Hcx, Hcy. unfold flush_pixels. cbn [andb Z.eqb].
  unfold FormatBpp, alloc_zero. change (u64 (u64 ((2 ^ 32 - 1) * 1) * 4)) with ((2 ^ 32 - 1) * 4).
  by rewrite (proj2 (Z.ltb_lt _ _)) by lia.
Qed.
End Gpu.

(** ** A concrete run *)

(** 4 KiB of RAM at address 0 with a 2x2 picture at 100. *)
Definition demo_ram : HostMem :=
  MkHostMem (MkGuestMemMap 4096 0 4096 0 0) (poke ∅ 100 (seqZ 1 16)).
Definition hdr_bytes (type : Z) : bytes := le_bytes 4 type ++ replicate 20 0.
Definition demo_limit : Z := 2 ^ 30.
Definition demo_step (req : bytes) (g : Gpu) : Gpu :=
  match gpu_command demo_limit req demo_ram g with Some (g, _) => g | None => g end.

Definition create_req : bytes :=
  hdr_bytes 0x0101 ++ le_bytes 4 1 ++ le_bytes 4 1 ++ le_bytes 4 2 ++ le_bytes 4 2.
Definition attach_req : bytes :=
  hdr_bytes 0x0106 ++ le_bytes 4 1 ++ le_bytes 4 1 ++ le_bytes 8 100 ++ le_bytes 4 16 ++ le_bytes 4 0.
Definition scanout_req : bytes :=
  hdr_bytes 0x0103 ++ replicate 16 0 ++ le_bytes 4 0 ++ le_bytes 4 1.
(** The right column, from the second pixel on. *)
Definition transfer_req : bytes :=
  hdr_bytes 0x0105 ++ le_bytes 4 1 ++ le_bytes 4 0 ++ le_bytes 4 1 ++ le_bytes 4 2
  ++ le_bytes 8 4 ++ le_bytes 4 1 ++ le_bytes 4 0.
Definition flush_req : bytes :=
  hdr_bytes 0x0104 ++ le_bytes 4 1 ++ le_bytes 4 0 ++ le_bytes 4 1 ++ le_bytes 4 2 ++ le_bytes 4 1 ++ le_bytes 4 0.

Definition demo_gpu : Gpu :=
  demo_step scanout_req (demo_step attach_req (demo_step create_req (Gpu_new 640 480 true true true))).

Example demo_screen :
  g_events (demo_step flush_req (demo_step transfer_req demo_gpu))
  = [ev_scanout true 2 2; ev_frame (mkFrame 1 2 4 1 2 2 1 0 [5; 6; 7; 8; 13; 14; 15; 16])].
Proof. vm_compute. reflexivity. Qed.

Definition demo_res : GpuResource := MkResource 1 2 2 1 (replicate 16 0) [MkPage 100 16].

Lemma demo_page : page_at demo_ram (MkPage 100 16) (seqZ 1 16).
Proof.
  split; [cbn; lia|]. split; [cbn; lia|]. split; [cbn; lia|]. exists 100. split; [|by vm_compute].
  intros k Hk. cbn in *. unfold GpaToHva. cbn.
  rewrite (proj2 (Z.leb_le _ _)), (proj2 (Z.ltb_lt _ _)) by lia. cbn. f_equal. lia.
Qed.

Lemma demo_gpu_ok : gpu_ok demo_gpu.
Proof.
  assert (Hr : resources_ demo_gpu = {[1 := demo_res]}) by by vm_compute.
  split; rewrite Hr.
  - apply map_Forall_singleton. split; [done|]. split; [done|]. split; cbn; try lia.
    repeat constructor; cbn; lia.
  - right. by eexists.
Qed.

Lemma screen_update_witness :
  exists g1 g2 px,
    gpu_command demo_limit transfer_req demo_ram demo_gpu = Some (g1, GpuResponse VIRTIO_GPU_RESP_OK_NODATA)
    /\ gpu_command demo_limit flush_req demo_ram g1 = Some (g2, GpuResponse VIRTIO_GPU_RESP_OK_NODATA)
    /\ g_events g2 = g_events demo_gpu ++ [ev_frame (mkFrame 1 2 (1 * 4) 1 2 2 1 0 px)]
    /\ Z.of_nat (length px) = 1 * 2 * 4
    /\ forall y x, 0 <= y < 2 -> 0 <= x < 1 * 4 ->
         px !! Z.to_nat (y * (1 * 4) + x) = concat [seqZ 1 16] !! Z.to_nat (4 + y * (2 * 4) + x).
Proof.
  apply (screen_update demo_limit transfer_req flush_req demo_ram demo_ram demo_gpu 1 demo_res [seqZ 1 16]
    1 0 1 2 4); [exact demo_gpu_ok|done|by vm_compute|by vm_compute|by vm_compute|
    constructor; [exact demo_page|constructor]|..].
  all: first [vm_compute; reflexivity | vm_compute; lia | vm_compute; discriminate].
Defined.

Lemma gpu_command_answered_witness :
  exists g' resp, gpu_command demo_limit transfer_req demo_ram demo_gpu = Some (g', resp)
    /\ gpu_ok g' /\ (24 <= length resp <= 408)%nat.
Proof.
  apply (gpu_command_answered demo_limit transfer_req demo_ram demo_gpu).
  - apply Forall_forall. intros b Hb. revert b Hb. apply Forall_forall. vm_compute. repeat constructor; done.
  - exact demo_gpu_ok.
  - done.
  - assert (Hr : resources_ demo_gpu = {[1 := demo_res]}) by by vm_compute. rewrite Hr.
    apply map_Forall_singleton. exists [seqZ 1 16]. constructor; [exact demo_page|constructor].
  - intros Hf. vm_compute in Hf. discriminate.
Defined.

(** The process ends on a flush whose rectangle wraps around. *)
Example demo_flush_wraps :
  gpu_command demo_limit
    (hdr_bytes 0x0104 ++ le_bytes 4 1 ++ le_bytes 4 0 ++ le_bytes 4 0xFFFFFFFF ++ le_bytes 4 1 ++ le_bytes 4 1 ++ le_bytes 4 0)
    demo_ram demo_gpu = None.
Proof. vm_compute. reflexivity. Qed.

(** A backing page that starts in RAM and leaves it is copied from all the
    same. *)
Example demo_backing_tail :
  let attach := hdr_bytes 0x0106 ++ le_bytes 4 1 ++ le_bytes 4 1 ++ le_bytes 8 4092 ++ le_bytes 4 16 ++ le_bytes 4 0 in
  let transfer := hdr_bytes 0x0105 ++ replicate 8 0 ++ le_bytes 4 2 ++ le_bytes 4 2 ++ le_bytes 8 0 ++ le_bytes 4 1 ++ le_bytes 4 0 in
  gpu_command demo_limit transfer demo_ram (demo_step attach demo_gpu) = None.
Proof. vm_compute. reflexivity. Qed.
