(* ===== verification/VdAgent.v ===== *)
(** * The SPICE agent's host side

    Models core/vdagent/vdagent_handler.{h,cpp} and vdagent_protocol.h: the
    clipboard protocol spoken with the agent in the guest.  Messages travel
    in chunks over a virtio-serial port; the receiver reassembles them from
    a byte stream.

    Calls of the clipboard callback are the trace [clip_events], buffers
    given to [SendData] the trace [sent]; [serial_device_] is taken to be
    set.  The mutex makes every operation one step; the callback runs under
    it, so a callback that calls back into the handler would block, which
    the VM's does not.

    [OnDataReceived_segmentation]: how the guest's writes cut the stream
    does not matter.  [clipboard_roundtrip]: what one handler sends, another
    one with the same capabilities reports as the same event. *)

From S2P Require Import Prelude.
From S2P Require Import StdString.
From S2P Require Import Ports.
From S2P Require Import Stream.

(** ** Protocol *)

Definition VD_AGENT_CLIPBOARD := 4.
Definition VD_AGENT_ANNOUNCE_CAPABILITIES := 6.
Definition VD_AGENT_CLIPBOARD_GRAB := 7.
Definition VD_AGENT_CLIPBOARD_REQUEST := 8.
Definition VD_AGENT_CLIPBOARD_RELEASE := 9.

Definition VD_AGENT_CLIPBOARD_SELECTION_CLIPBOARD := 0.

Definition VD_AGENT_CAP_CLIPBOARD := 3.
Definition VD_AGENT_CAP_CLIPBOARD_BY_DEMAND := 5.
Definition VD_AGENT_CAP_CLIPBOARD_SELECTION := 6.
Definition VD_AGENT_CAP_GUEST_LINEEND_CRLF := 9.

Definition VD_AGENT_PROTOCOL := 1.
Definition VD_AGENT_MAX_CHUNK_SIZE := 2048.

(** The packed sizes of the chunk header and the message header. *)
Definition sizeof_VDAgentChunkHeader : nat := 8.
Definition sizeof_VDAgentMessage : nat := 20.

Record VDAgentMessage := mkVDMessage { vm_protocol : Z; vm_type : Z; vm_opaque : Z; vm_size : Z }.

Definition read_VDAgentMessage (l : bytes) : VDAgentMessage :=
  mkVDMessage (field 4 0 l) (field 4 4 l) (field 8 8 l) (field 4 16 l).
Definition write_VDAgentMessage (m : VDAgentMessage) : bytes :=
  le_bytes 4 (vm_protocol m) ++ le_bytes 4 (vm_type m) ++ le_bytes 8 (vm_opaque m) ++ le_bytes 4 (vm_size m).

(** [n] 32-bit words. *)
Fixpoint words (n : nat) (l : bytes) : list Z :=
  match n with
  | O => []
  | S n => field 4 0 l :: words n (drop 4 l)
  end.
Definition words_bytes (ws : list Z) : bytes := flat_map (le_bytes 4) ws.

(** ** State *)

Record VDAgentHandler := mkAgent {
  recv_buffer_ : bytes;
  pending_msg_ : VDAgentMessage;
  pending_data_ : bytes;
  has_pending_msg_ : bool;
  guest_caps_ : list Z;
  guest_caps_received_ : bool;
  host_caps_ : list Z;
  clipboard_callback_ : bool;
  clip_events : list ClipboardEvent;
  sent : list bytes
}.

Definition a_set_recv_buffer (v : bytes) (s : VDAgentHandler) : VDAgentHandler :=
  mkAgent v (pending_msg_ s) (pending_data_ s) (has_pending_msg_ s) (guest_caps_ s)
    (guest_caps_received_ s) (host_caps_ s) (clipboard_callback_ s) (clip_events s) (sent s).
Definition a_set_pending_msg (v : VDAgentMessage) (s : VDAgentHandler) : VDAgentHandler :=
  mkAgent (recv_buffer_ s) v (pending_data_ s) (has_pending_msg_ s) (guest_caps_ s)
    (guest_caps_received_ s) (host_caps_ s) (clipboard_callback_ s) (clip_events s) (sent s).
Definition a_set_pending_data (v : bytes) (s : VDAgentHandler) : VDAgentHandler :=
  mkAgent (recv_buffer_ s) (pending_msg_ s) v (has_pending_msg_ s) (guest_caps_ s)
    (guest_caps_received_ s) (host_caps_ s) (clipboard_callback_ s) (clip_events s) (sent s).
Definition a_set_has_pending_msg (v : bool) (s : VDAgentHandler) : VDAgentHandler :=
  mkAgent (recv_buffer_ s) (pending_msg_ s) (pending_data_ s) v (guest_caps_ s)
    (guest_caps_received_ s) (host_caps_ s) (clipboard_callback_ s) (clip_events s) (sent s).
Definition a_set_guest_caps (v : list Z) (s : VDAgentHandler) : VDAgentHandler :=
  mkAgent (recv_buffer_ s) (pending_msg_ s) (pending_data_ s) (has_pending_msg_ s) v
    (guest_caps_received_ s) (host_caps_ s) (clipboard_callback_ s) (clip_events s) (sent s).
Definition a_set_guest_caps_received (v : bool) (s : VDAgentHandler) : VDAgentHandler :=
  mkAgent (recv_buffer_ s) (pending_msg_ s) (pending_data_ s) (has_pending_msg_ s)
    (guest_caps_ s) v (host_caps_ s) (clipboard_callback_ s) (clip_events s) (sent s).
Definition a_set_clip_events (v : list ClipboardEvent) (s : VDAgentHandler) : VDAgentHandler :=
  mkAgent (recv_buffer_ s) (pending_msg_ s) (pending_data_ s) (has_pending_msg_ s)
    (guest_caps_ s) (guest_caps_received_ s) (host_caps_ s) (clipboard_callback_ s) v (sent s).
Definition a_set_sent (v : list bytes) (s : VDAgentHandler) : VDAgentHandler :=
  mkAgent (recv_buffer_ s) (pending_msg_ s) (pending_data_ s) (has_pending_msg_ s)
    (guest_caps_ s) (guest_caps_received_ s) (host_caps_ s) (clipboard_callback_ s)
    (clip_events s) v.

Definition SetCapability (cap : Z) (caps : list Z) : list Z :=
  let word := Z.to_nat (cap / 32) in
  <[word := nth word caps 0 .| (1 .<< (cap mod 32))]> caps.

(** The constructor. *)
Definition VDAgentHandler_new (callback : bool) : VDAgentHandler :=
  mkAgent [] (mkVDMessage 0 0 0 0) [] false [] false
    (SetCapability VD_AGENT_CAP_GUEST_LINEEND_CRLF (SetCapability VD_AGENT_CAP_CLIPBOARD_SELECTION
       (SetCapability VD_AGENT_CAP_CLIPBOARD_BY_DEMAND (SetCapability VD_AGENT_CAP_CLIPBOARD [0]))))
    callback [] [].

Definition HasCapability (cap : Z) (a : VDAgentHandler) : bool :=
  let word := cap / 32 in
  if Z.of_nat (length (guest_caps_ a)) <=? word then false
  else has (nth (Z.to_nat word) (guest_caps_ a) 0) (1 .<< (cap mod 32)).

Definition selection_cap (a : VDAgentHandler) : bool := HasCapability VD_AGENT_CAP_CLIPBOARD_SELECTION a.

Definition clip_emit (e : ClipboardEvent) (a : VDAgentHandler) : VDAgentHandler :=
  if clipboard_callback_ a then a_set_clip_events (clip_events a ++ [e]) a else a.

(** ** Messages from the guest

    The handlers get a pointer to at least [size] bytes; [data] is those. *)

Definition HandleAnnounceCapabilitiesLocked (data : bytes) (a : VDAgentHandler) : VDAgentHandler :=
  if (length data <? 4)%nat then a
  else
    let num_caps := ((length data - 4) / 4)%nat in
    a_set_guest_caps_received true (a_set_guest_caps (words num_caps (drop 4 data)) a).

Definition HandleClipboardGrab (data : bytes) (a : VDAgentHandler) : VDAgentHandler :=
  if selection_cap a && (4 <=? length data)%nat
  then clip_emit (clip_grab (field 1 0 data) (words ((length data - 4) / 4) (drop 4 data))) a
  else clip_emit (clip_grab VD_AGENT_CLIPBOARD_SELECTION_CLIPBOARD (words (length data / 4) data)) a.

Definition HandleClipboardData (data : bytes) (a : VDAgentHandler) : VDAgentHandler :=
  if selection_cap a && (8 <=? length data)%nat
  then clip_emit (clip_data (field 1 0 data) (field 4 4 data) (drop 8 data)) a
  else if (4 <=? length data)%nat
  then clip_emit (clip_data VD_AGENT_CLIPBOARD_SELECTION_CLIPBOARD (field 4 0 data) (drop 4 data)) a
  else a.

Definition HandleClipboardRequest (data : bytes) (a : VDAgentHandler) : VDAgentHandler :=
  if selection_cap a && (8 <=? length data)%nat
  then clip_emit (clip_request (field 1 0 data) (field 4 4 data)) a
  else if (4 <=? length data)%nat
  then clip_emit (clip_request VD_AGENT_CLIPBOARD_SELECTION_CLIPBOARD (field 4 0 data)) a
  else a.

Definition HandleClipboardRelease (data : bytes) (a : VDAgentHandler) : VDAgentHandler :=
  clip_emit (clip_release
    (if selection_cap a && (1 <=? length data)%nat then field 1 0 data
     else VD_AGENT_CLIPBOARD_SELECTION_CLIPBOARD)) a.

(** The switch of [ProcessMessage]; announcements do not get here. *)
Definition ProcessMessage (type : Z) (data : bytes) (a : VDAgentHandler) : VDAgentHandler :=
  if type =? VD_AGENT_CLIPBOARD_GRAB then HandleClipboardGrab data a
  else if type =? VD_AGENT_CLIPBOARD then HandleClipboardData data a
  else if type =? VD_AGENT_CLIPBOARD_REQUEST then HandleClipboardRequest data a
  else if type =? VD_AGENT_CLIPBOARD_RELEASE then HandleClipboardRelease data a
  else a.

(** A complete message: the new state, and whether the peer asked for our
    capabilities. *)
Definition message_complete (a : VDAgentHandler) : VDAgentHandler * bool :=
  let size := Z.to_nat (vm_size (pending_msg_ a)) in
  let data := take size (pending_data_ a) in
  if vm_type (pending_msg_ a) =? VD_AGENT_ANNOUNCE_CAPABILITIES
  then (HandleAnnounceCapabilitiesLocked data a,
        (4 <=? size)%nat && negb (field 4 0 (pending_data_ a) =? 0))
  else (ProcessMessage (vm_type (pending_msg_ a)) data a, false).

(** The chunk at the front of the buffer taken in: its payload joins the
    pending message. *)
Definition take_chunk (payload : bytes) (a : VDAgentHandler) : VDAgentHandler :=
  if negb (has_pending_msg_ a)
  then a_set_has_pending_msg true
         (a_set_pending_data (drop sizeof_VDAgentMessage payload)
            (a_set_pending_msg (read_VDAgentMessage payload) a))
  else a_set_pending_data (pending_data_ a ++ payload) a.

(** One iteration of the loop of [OnDataReceived]; [None] is its [break],
    the output says that a request for our capabilities came.  ([u32] holds
    of every member read from bytes.) *)
Definition chunk_step (a : VDAgentHandler) : option (VDAgentHandler * list unit) :=
  let buf := recv_buffer_ a in
  if (length buf <? sizeof_VDAgentChunkHeader)%nat then None
  else
    let size := u32 (field 4 4 buf) in
    let total_size := Z.of_nat sizeof_VDAgentChunkHeader + size in
    if Z.of_nat (length buf) <? total_size then None
    else
      let payload := take (Z.to_nat size) (drop sizeof_VDAgentChunkHeader buf) in
      let rest := drop (Z.to_nat total_size) buf in
      if negb (has_pending_msg_ a) && (size <? Z.of_nat sizeof_VDAgentMessage)
      then Some (a_set_recv_buffer rest a, [])
      else
        let a := a_set_recv_buffer rest (take_chunk payload a) in
        if Z.of_nat (length (pending_data_ a)) <? vm_size (pending_msg_ a) then Some (a, [])
        else
          let '(a, request) := message_complete (a_set_has_pending_msg false a) in
          Some (a_set_pending_data [] a, if request : bool then [tt] else []).

Definition a_append (a : VDAgentHandler) (data : bytes) : VDAgentHandler :=
  a_set_recv_buffer (recv_buffer_ a ++ data) a.

(** ** Messages to the guest *)

Definition SendData (buffer : bytes) (a : VDAgentHandler) : VDAgentHandler := a_set_sent (sent a ++ [buffer]) a.

(** A chunk with its header. *)
Definition chunk_bytes (payload : bytes) : bytes :=
  le_bytes 4 1 ++ le_bytes 4 (Z.of_nat (length payload)) ++ payload.

(** The [while] loop over the rest: at most 2048 bytes each, so the length
    bounds the iterations. *)
Fixpoint send_rest (fuel : nat) (data : bytes) (a : VDAgentHandler) : VDAgentHandler :=
  match fuel, data with
  | S fuel, _ :: _ =>
      let n := Z.to_nat VD_AGENT_MAX_CHUNK_SIZE in
      send_rest fuel (drop n data) (SendData (chunk_bytes (take n data)) a)
  | _, _ => a
  end.

Definition SendMessage (type : Z) (data : bytes) (a : VDAgentHandler) : VDAgentHandler :=
  let msg := mkVDMessage VD_AGENT_PROTOCOL type 0 (u32 (Z.of_nat (length data))) in
  let first_data_len := Z.to_nat (Z.min (u32 (Z.of_nat (length data)))
                                    (VD_AGENT_MAX_CHUNK_SIZE - Z.of_nat sizeof_VDAgentMessage)) in
  let a := SendData (chunk_bytes (write_VDAgentMessage msg ++ take first_data_len data)) a in
  send_rest (length data) (drop first_data_len data) a.

Definition SendAnnounceCapabilities (a : VDAgentHandler) : VDAgentHandler :=
  SendMessage VD_AGENT_ANNOUNCE_CAPABILITIES (le_bytes 4 0 ++ words_bytes (host_caps_ a)) a.

(** [selection] and three zero bytes, when the guest knows selections. *)
Definition selection_bytes (selection : Z) (a : VDAgentHandler) : bytes :=
  if selection_cap a then le_bytes 1 selection ++ [0; 0; 0] else [].

Definition SendClipboardGrab (selection : Z) (types : list Z) (a : VDAgentHandler) : VDAgentHandler :=
  if negb (guest_caps_received_ a) then a
  else SendMessage VD_AGENT_CLIPBOARD_GRAB (selection_bytes selection a ++ words_bytes types) a.

Definition SendClipboardData (selection type : Z) (data : bytes) (a : VDAgentHandler) : VDAgentHandler :=
  if negb (guest_caps_received_ a) then a
  else SendMessage VD_AGENT_CLIPBOARD (selection_bytes selection a ++ le_bytes 4 type ++ data) a.

Definition SendClipboardRequest (selection type : Z) (a : VDAgentHandler) : VDAgentHandler :=
  if negb (guest_caps_received_ a) then a
  else SendMessage VD_AGENT_CLIPBOARD_REQUEST (selection_bytes selection a ++ le_bytes 4 type) a.

Definition SendClipboardRelease (selection : Z) (a : VDAgentHandler) : VDAgentHandler :=
  if negb (guest_caps_received_ a) then a
  else SendMessage VD_AGENT_CLIPBOARD_RELEASE (selection_bytes selection a) a.

(** ** Receiving *)

Definition OnDataReceived (data : bytes) (a : VDAgentHandler) : VDAgentHandler :=
  let '(a, requests) := stream_run chunk_step recv_buffer_ (a_append a data) in
  match requests with
  | [] => a
  | _ => SendAnnounceCapabilities a
  end.

(** The guest's writes in turn. *)
Definition OnDataReceiveds (writes : list bytes) (a : VDAgentHandler) : VDAgentHandler :=
  foldl (fun a data => OnDataReceived data a) a writes.

(** ** The stream's segmentation *)

Lemma field_app n off l data : (off + n <= length l)%nat -> field n off (l ++ data) = field n off l.
Proof.
  intros H. unfold field. rewrite drop_app_le by lia. by rewrite take_app_le by (rewrite length_drop; lia).
Qed.

(** What the handlers leave alone. *)
Lemma message_complete_frame a : 
  recv_buffer_ (fst (message_complete a)) = recv_buffer_ a /\ sent (fst (message_complete a)) = sent a
  /\ has_pending_msg_ (fst (message_complete a)) = has_pending_msg_ a
  /\ clipboard_callback_ (fst (message_complete a)) = clipboard_callback_ a.
Proof.
  unfold message_complete, ProcessMessage, HandleAnnounceCapabilitiesLocked, HandleClipboardGrab,
    HandleClipboardData, HandleClipboardRequest, HandleClipboardRelease, clip_emit.
  by case_ifs.
Qed.

(** The fields the handlers read and write commute with those they do not. *)
Lemma message_complete_buffer v a :
  message_complete (a_set_recv_buffer v a)
  = (a_set_recv_buffer v (fst (message_complete a)), snd (message_complete a)).
Proof.
  unfold message_complete, ProcessMessage, HandleAnnounceCapabilitiesLocked, HandleClipboardGrab,
    HandleClipboardData, HandleClipboardRequest, HandleClipboardRelease, clip_emit, selection_cap, HasCapability.
  cbn [pending_msg_ pending_data_ a_set_recv_buffer guest_caps_ clipboard_callback_ clip_events].
  by case_ifs.
Qed.

Lemma message_complete_sent v a :
  message_complete (a_set_sent v a)
  = (a_set_sent v (fst (message_complete a)), snd (message_complete a)).
Proof.
  unfold message_complete, ProcessMessage, HandleAnnounceCapabilitiesLocked, HandleClipboardGrab,
    HandleClipboardData, HandleClipboardRequest, HandleClipboardRelease, clip_emit, selection_cap, HasCapability.
  cbn [pending_msg_ pending_data_ a_set_sent guest_caps_ clipboard_callback_ clip_events].
  by case_ifs.
Qed.

Lemma pending_buffer p v a :
  a_set_has_pending_msg p (a_set_recv_buffer v a) = a_set_recv_buffer v (a_set_has_pending_msg p a).
Proof. done. Qed.

(** The chunk's effect, apart from the buffer. *)
Definition after_chunk (a : VDAgentHandler) : VDAgentHandler * list unit :=
  if Z.of_nat (length (pending_data_ a)) <? vm_size (pending_msg_ a) then (a, [])
  else
    let '(a, request) := message_complete (a_set_has_pending_msg false a) in
    (a_set_pending_data [] a, if request : bool then [tt] else []).

Lemma after_chunk_buffer v a :
  after_chunk (a_set_recv_buffer v a) = (a_set_recv_buffer v (fst (after_chunk a)), snd (after_chunk a)).
Proof.
  unfold after_chunk. cbn [pending_data_ pending_msg_ a_set_recv_buffer]. case_ifs; [done|].
  rewrite pending_buffer, message_complete_buffer. by destruct (message_complete _).
Qed.

Lemma chunk_step_eq a :
  chunk_step a =
  let buf := recv_buffer_ a in
  let size := u32 (field 4 4 buf) in
  if (length buf <? 8)%nat then None
  else if Z.of_nat (length buf) <? 8 + size then None
  else
    let payload := take (Z.to_nat size) (drop 8 buf) in
    let '(a', out) := if negb (has_pending_msg_ a) && (size <? 20) then (a, []) else after_chunk (take_chunk payload a) in
    Some (a_set_recv_buffer (drop (Z.to_nat (8 + size)) buf) a', out).
Proof.
  unfold chunk_step, sizeof_VDAgentChunkHeader, sizeof_VDAgentMessage.
  change (Z.of_nat 8) with 8. change (Z.of_nat 20) with 20. cbv zeta.
  destruct (length (recv_buffer_ a) <? 8)%nat; [done|].
  destruct (Z.of_nat (length (recv_buffer_ a)) <? _); [done|].
  destruct (negb (has_pending_msg_ a) && _); [done|].
  set (b := take_chunk _ a). set (rest := drop _ _).
  transitivity (let '(a', out) := after_chunk (a_set_recv_buffer rest b) in Some (a', out)).
  - unfold after_chunk. destruct (_ <? _); [done|]. by destruct (message_complete _).
  - rewrite after_chunk_buffer. by destruct (after_chunk b).
Qed.

Lemma take_chunk_buffer v payload a :
  take_chunk payload (a_set_recv_buffer v a) = a_set_recv_buffer v (take_chunk payload a).
Proof. unfold take_chunk. cbn [has_pending_msg_ a_set_recv_buffer]. by case_ifs. Qed.

Lemma chunk_laws : stream_laws chunk_step recv_buffer_ a_append.
Proof.
  split.
  - intros a a' out. rewrite chunk_step_eq. cbv zeta.
    destruct (Nat.ltb_spec (length (recv_buffer_ a)) 8); [done|].
    pose proof (wrap_nonneg 32 (field 4 4 (recv_buffer_ a)) ltac:(lia)).
    destruct (Z.ltb_spec (Z.of_nat (length (recv_buffer_ a))) (8 + u32 (field 4 4 (recv_buffer_ a)))); [done|].
    destruct (if negb (has_pending_msg_ a) && _ then _ else _). intros [= <- <-].
    cbn [recv_buffer_ a_set_recv_buffer]. rewrite length_drop. lia.
  - intros a a' out data. rewrite !chunk_step_eq. cbv zeta. unfold a_append.
    cbn [recv_buffer_ a_set_recv_buffer has_pending_msg_].
    destruct (Nat.ltb_spec (length (recv_buffer_ a)) 8); [done|].
    pose proof (wrap_nonneg 32 (field 4 4 (recv_buffer_ a)) ltac:(lia)).
    destruct (Z.ltb_spec (Z.of_nat (length (recv_buffer_ a))) (8 + u32 (field 4 4 (recv_buffer_ a)))); [done|].
    rewrite field_app, length_app by lia.
    rewrite (proj2 (Nat.ltb_ge (length (recv_buffer_ a) + length data) 8)) by lia.
    rewrite (proj2 (Z.ltb_ge (Z.of_nat (length (recv_buffer_ a) + length data)) (8 + u32 (field 4 4 (recv_buffer_ a))))) by lia.
    rewrite !drop_app_le, take_app_le by (rewrite ?length_drop; lia).
    destruct (negb (has_pending_msg_ a) && _); [intros [= <- <-]; done|].
    rewrite take_chunk_buffer, after_chunk_buffer.
    destruct (after_chunk (take_chunk _ a)) as [a1 out1]. intros [= <- <-]. done.
  - intros []. unfold a_append. cbn. by rewrite app_nil_r.
  - intros [] ? ?. unfold a_append. cbn. by rewrite app_assoc.
Qed.

(** The state without the trace of what was sent to the guest. *)
Definition without_sent (a : VDAgentHandler) : VDAgentHandler := a_set_sent [] a.

Lemma chunk_step_sent v a :
  chunk_step (a_set_sent v a)
  = match chunk_step a with Some (a', out) => Some (a_set_sent v a', out) | None => None end.
Proof.
  rewrite !chunk_step_eq. cbv zeta. cbn [recv_buffer_ a_set_sent has_pending_msg_].
  destruct (length (recv_buffer_ a) <? 8)%nat; [done|].
  destruct (Z.of_nat (length (recv_buffer_ a)) <? _); [done|].
  destruct (negb (has_pending_msg_ a) && _); [done|].
  assert (Ht : forall p, take_chunk p (a_set_sent v a) = a_set_sent v (take_chunk p a)).
  { intros p. unfold take_chunk. cbn [has_pending_msg_ a_set_sent]. by case_ifs. }
  rewrite Ht. set (b := take_chunk _ a).
  unfold after_chunk. cbn [pending_data_ pending_msg_ a_set_sent]. destruct (_ <? _); [done|].
  assert (Hp : a_set_has_pending_msg false (a_set_sent v b) = a_set_sent v (a_set_has_pending_msg false b)) by done.
  rewrite Hp, message_complete_sent. by destruct (message_complete _).
Qed.

Lemma run_sent v a : 
  stream_run chunk_step recv_buffer_ (a_set_sent v a)
  = let '(a', out) := stream_run chunk_step recv_buffer_ a in (a_set_sent v a', out).
Proof.
  unfold stream_run. cbn [recv_buffer_ a_set_sent]. generalize (length (recv_buffer_ a)). intros n.
  revert a. induction n as [|n IH]; intros a; cbn [stream_loop]; [done|].
  rewrite chunk_step_sent. destruct (chunk_step a) as [[a' out]|]; [|done].
  rewrite IH. by destruct (stream_loop chunk_step n a').
Qed.

(** The buffers a message is sent in. *)
Fixpoint rest_chunks (fuel : nat) (data : bytes) : list bytes :=
  match fuel, data with
  | S fuel, _ :: _ =>
      chunk_bytes (take (Z.to_nat VD_AGENT_MAX_CHUNK_SIZE) data)
      :: rest_chunks fuel (drop (Z.to_nat VD_AGENT_MAX_CHUNK_SIZE) data)
  | _, _ => []
  end.

Definition first_len (data : bytes) : nat :=
  Z.to_nat (Z.min (u32 (Z.of_nat (length data))) (VD_AGENT_MAX_CHUNK_SIZE - Z.of_nat sizeof_VDAgentMessage)).

Definition message_chunks (type : Z) (data : bytes) : list bytes :=
  chunk_bytes (write_VDAgentMessage (mkVDMessage VD_AGENT_PROTOCOL type 0 (u32 (Z.of_nat (length data))))
               ++ take (first_len data) data)
  :: rest_chunks (length data) (drop (first_len data) data).

Lemma send_rest_eq fuel data a : send_rest fuel data a = a_set_sent (sent a ++ rest_chunks fuel data) a.
Proof.
  revert data a. induction fuel as [|fuel IH]; intros [|c data] a; cbn [send_rest rest_chunks];
    try (rewrite app_nil_r; by destruct a).
  rewrite IH. unfold SendData. cbn [sent a_set_sent]. by rewrite <- app_assoc.
Qed.

Lemma SendMessage_eq type data a : SendMessage type data a = a_set_sent (sent a ++ message_chunks type data) a.
Proof.
  unfold SendMessage, message_chunks, first_len. rewrite send_rest_eq. unfold SendData.
  cbn [sent a_set_sent]. by rewrite <- app_assoc.
Qed.

Lemma OnDataReceived_run data a :
  exists v, OnDataReceived data a = a_set_sent v (fst (stream_run chunk_step recv_buffer_ (a_append a data))).
Proof.
  unfold OnDataReceived. destruct (stream_run _ _ _) as [a' [|r reqs]]; cbn [fst].
  - exists (sent a'). by destruct a'.
  - unfold SendAnnounceCapabilities. rewrite SendMessage_eq. by eexists.
Qed.

Lemma OnDataReceiveds_run writes a :
  chunk_step a = None ->
  exists v, OnDataReceiveds writes a
    = a_set_sent v (fst (stream_run chunk_step recv_buffer_ (a_append a (concat writes)))).
Proof.
  intros Hq. rewrite <- (stream_reads_run _ _ _ chunk_laws) by done.
  enough (H : forall w b, exists v, OnDataReceiveds writes (a_set_sent w b)
     = a_set_sent v (fst (stream_reads chunk_step recv_buffer_ a_append b writes))).
  { destruct (H (sent a) a) as [v Hv]. exists v. rewrite <- Hv. by destruct a. }
  clear a Hq. unfold OnDataReceiveds. induction writes as [|data writes IH]; intros w b; cbn [foldl stream_reads].
  - exists w. done.
  - destruct (OnDataReceived_run data (a_set_sent w b)) as [v ->].
    change (a_append (a_set_sent w b) data) with (a_set_sent w (a_append b data)).
    rewrite run_sent. destruct (stream_run chunk_step recv_buffer_ (a_append b data)) as [b1 out1]. cbn [fst].
    change (a_set_sent v (a_set_sent w b1)) with (a_set_sent v b1).
    destruct (IH v b1) as [v' ->]. exists v'. by destruct (stream_reads _ _ _ b1 writes).
Qed.

(** How the guest's writes cut the byte stream does not matter, whatever it
    sends: the same bytes leave the same reassembly state and capabilities
    and report the same clipboard events in the same order.  (Only the
    number of announcements sent back may differ: one per write that holds a
    request.) *)
Theorem OnDataReceived_segmentation writes writes' a :
  chunk_step a = None -> concat writes = concat writes' ->
  without_sent (OnDataReceiveds writes a) = without_sent (OnDataReceiveds writes' a).
Proof.
  intros Hq Heq. destruct (OnDataReceiveds_run writes a Hq) as [v ->].
  destruct (OnDataReceiveds_run writes' a Hq) as [v' ->]. by rewrite Heq.
Qed.

(** ** What is sent is what is received *)

Lemma length_chunk p : length (chunk_bytes p) = (8 + length p)%nat.
Proof. unfold chunk_bytes. rewrite !length_app, !length_le_bytes. lia. Qed.

(** A whole chunk at the front of the buffer. *)
Lemma step_chunk p rest a :
  Z.of_nat (length p) < 2 ^ 32 -> has_pending_msg_ a = true \/ (20 <= length p)%nat ->
  chunk_step (a_set_recv_buffer (chunk_bytes p ++ rest) a)
  = let '(a', out) := after_chunk (take_chunk p a) in Some (a_set_recv_buffer rest a', out).
Proof.
  intros Hp Hpend. rewrite chunk_step_eq. cbv zeta. cbn [recv_buffer_ a_set_recv_buffer has_pending_msg_].
  assert (Hf : u32 (field 4 4 (chunk_bytes p ++ rest)) = Z.of_nat (length p)).
  { unfold chunk_bytes. rewrite <- !app_assoc. rewrite field_encoded by (first [done | split; lia]).
    apply wrap_small. split; lia. }
  rewrite Hf, length_app, length_chunk.
  rewrite (proj2 (Nat.ltb_ge _ 8)) by lia. rewrite (proj2 (Z.ltb_ge (Z.of_nat (8 + length p + length rest)) _)) by lia.
  assert (Hd : drop 8 (chunk_bytes p ++ rest) = p ++ rest).
  { unfold chunk_bytes. rewrite <- !app_assoc.
    change 8%nat with (length (le_bytes 4 1) + length (le_bytes 4 (Z.of_nat (length p))))%nat.
    by rewrite <- drop_drop, !drop_app_length. }
  assert (Hc : negb (has_pending_msg_ a) && (Z.of_nat (length p) <? 20) = false).
  { destruct Hpend as [->|Hl]; [done|]. rewrite (proj2 (Z.ltb_ge _ _)) by lia. by rewrite andb_false_r. }
  rewrite Hd, Hc, Nat2Z.id, take_app_length. rewrite take_chunk_buffer, after_chunk_buffer.
  destruct (after_chunk (take_chunk p a)) as [a' out]. cbn [fst snd].
  replace (Z.to_nat (8 + Z.of_nat (length p))) with (length (chunk_bytes p)) by (rewrite length_chunk; lia).
  by rewrite drop_app_length.
Qed.

Lemma chunk_step_empty a : recv_buffer_ a = [] -> chunk_step a = None.
Proof. unfold chunk_step. by intros ->. Qed.

Lemma run_step a a' out :
  chunk_step a = Some (a', out) ->
  stream_run chunk_step recv_buffer_ a
  = let '(a'', rest) := stream_run chunk_step recv_buffer_ a' in (a'', out ++ rest).
Proof. intros H. by rewrite (stream_run_unfold _ _ _ chunk_laws), H. Qed.

Lemma run_empty a : recv_buffer_ a = [] -> stream_run chunk_step recv_buffer_ a = (a, []).
Proof. intros H. by rewrite (stream_run_unfold _ _ _ chunk_laws), chunk_step_empty. Qed.

(** A chunk that is the whole buffer. *)
Lemma run_last_chunk p a :
  Z.of_nat (length p) < 2 ^ 32 -> has_pending_msg_ a = true \/ (20 <= length p)%nat ->
  stream_run chunk_step recv_buffer_ (a_set_recv_buffer (chunk_bytes p ++ []) a)
  = let '(a', out) := after_chunk (take_chunk p a) in (a_set_recv_buffer [] a', out).
Proof.
  intros Hp Hpend. pose proof (step_chunk p [] a Hp Hpend) as Hs.
  destruct (after_chunk (take_chunk p a)) as [a' out]. rewrite (run_step _ _ _ Hs).
  rewrite run_empty by done. by rewrite app_nil_r.
Qed.

(** A chunk that does not complete the message. *)
Lemma after_chunk_more a :
  Z.of_nat (length (pending_data_ a)) < vm_size (pending_msg_ a) -> after_chunk a = (a, []).
Proof. intros H. unfold after_chunk. by rewrite (proj2 (Z.ltb_lt _ _)). Qed.

Lemma take_chunk_pending p a :
  has_pending_msg_ a = true -> take_chunk p a = a_set_pending_data (pending_data_ a ++ p) a.
Proof. intros H. unfold take_chunk. by rewrite H. Qed.

Lemma run_rest fuel : forall d a,
  has_pending_msg_ a = true -> (length d <= fuel)%nat -> d <> [] ->
  vm_size (pending_msg_ a) = Z.of_nat (length (pending_data_ a)) + Z.of_nat (length d) ->
  stream_run chunk_step recv_buffer_ (a_set_recv_buffer (concat (rest_chunks fuel d)) a)
  = let '(a', out) := after_chunk (a_set_pending_data (pending_data_ a ++ d) a) in
    (a_set_recv_buffer [] a', out).
Proof.
  induction fuel as [|fuel IH]; intros [|c d] a Hp Hl Hne Hsz; try done; [cbn in Hl; lia|].
  cbn [rest_chunks]. set (n := Z.to_nat VD_AGENT_MAX_CHUNK_SIZE).
  assert (Hn : Z.of_nat n = 2048) by done. clearbody n.
  assert (Hpl : Z.of_nat (length (take n (c :: d))) < 2 ^ 32) by (rewrite length_take; lia).
  cbn [concat]. destruct (drop n (c :: d)) as [|c' d'] eqn:Ed.
  - assert (Ht : take n (c :: d) = c :: d).
    { apply take_ge. apply (f_equal length) in Ed. rewrite length_drop in Ed. cbn in *. lia. }
    assert (Hr : rest_chunks fuel [] = []) by by destruct fuel.
    rewrite Ht, Hr in *. cbn [concat]. rewrite run_last_chunk by auto. by rewrite take_chunk_pending.
  - assert (Hlen : length (take n (c :: d)) = n).
    { rewrite length_take. apply (f_equal length) in Ed. rewrite length_drop in Ed. cbn [length] in *. lia. }
    assert (Hdl : (length (c' :: d') + n = length (c :: d))%nat) by (rewrite <- Ed, length_drop; cbn [length] in *; apply (f_equal length) in Ed; rewrite length_drop in Ed; cbn [length] in Ed; lia).
    pose proof (step_chunk (take n (c :: d)) (concat (rest_chunks fuel (c' :: d'))) a Hpl (or_introl Hp)) as Hs.
    rewrite take_chunk_pending in Hs by done. set (b := a_set_pending_data _ a) in Hs.
    assert (Hpd : length (pending_data_ b) = (length (pending_data_ a) + n)%nat).
    { subst b. cbn [pending_data_ a_set_pending_data]. by rewrite length_app, Hlen. }
    assert (Hvs : vm_size (pending_msg_ b) = vm_size (pending_msg_ a)) by done.
    assert (Hpos : (0 < length (c' :: d'))%nat) by (cbn [length]; lia).
    rewrite after_chunk_more in Hs by (rewrite Hpd, Hvs, Hsz; lia).
    rewrite (run_step _ _ _ Hs). rewrite IH; [|done|lia|done|rewrite Hpd, Hvs, Hsz; lia].
    subst b. cbn [pending_data_ a_set_pending_data]. rewrite <- app_assoc, <- Ed, take_drop.
    match goal with |- context [after_chunk ?x] =>
      change x with (a_set_pending_data (pending_data_ a ++ c :: d) a) end.
    by destruct (after_chunk _).
Qed.

Definition received (type : Z) (data : bytes) (a : VDAgentHandler) : VDAgentHandler :=
  a_set_has_pending_msg true (a_set_pending_data data
    (a_set_pending_msg (mkVDMessage VD_AGENT_PROTOCOL type 0 (Z.of_nat (length data))) a)).

Lemma read_write_message m rest :
  in_width 32 (vm_protocol m) -> in_width 32 (vm_type m) -> in_width 64 (vm_opaque m) -> in_width 32 (vm_size m) ->
  read_VDAgentMessage (write_VDAgentMessage m ++ rest) = m.
Proof.
  intros H1 H2 H3 H4. unfold read_VDAgentMessage, write_VDAgentMessage. rewrite <- !app_assoc.
  set (p := le_bytes 4 (vm_protocol m)). set (t := le_bytes 4 (vm_type m)). set (o := le_bytes 8 (vm_opaque m)).
  pose proof (field_encoded 4 0 [] _ (t ++ o ++ le_bytes 4 (vm_size m) ++ rest) eq_refl H1) as E1.
  pose proof (field_encoded 4 4 p _ (o ++ le_bytes 4 (vm_size m) ++ rest) eq_refl H2) as E2.
  pose proof (field_encoded 8 8 (p ++ t) _ (le_bytes 4 (vm_size m) ++ rest) eq_refl H3) as E3.
  pose proof (field_encoded 4 16 (p ++ t ++ o) _ rest eq_refl H4) as E4.
  rewrite <- !app_assoc in *. cbn [app] in E1. fold p in E1. fold t in E2. fold o in E3.
  rewrite E1, E2, E3, E4. by destruct m.
Qed.

Lemma length_header m : length (write_VDAgentMessage m) = 20%nat.
Proof. unfold write_VDAgentMessage. by rewrite !length_app, !length_le_bytes. Qed.

Lemma take_chunk_first m d a :
  in_width 32 (vm_protocol m) -> in_width 32 (vm_type m) -> in_width 64 (vm_opaque m) -> in_width 32 (vm_size m) ->
  has_pending_msg_ a = false ->
  take_chunk (write_VDAgentMessage m ++ d) a
  = a_set_has_pending_msg true (a_set_pending_data d (a_set_pending_msg m a)).
Proof.
  intros H1 H2 H3 H4 Hp. unfold take_chunk. rewrite Hp. cbn [negb]. rewrite read_write_message by done.
  unfold sizeof_VDAgentMessage. rewrite <- (length_header m) at 1. by rewrite drop_app_length.
Qed.

(** All chunks of a message, received by a handler between messages. *)
Lemma run_message type data a :
  has_pending_msg_ a = false -> in_width 32 type -> Z.of_nat (length data) < 2 ^ 32 ->
  stream_run chunk_step recv_buffer_ (a_set_recv_buffer (concat (message_chunks type data)) a)
  = let '(a', out) := after_chunk (received type data a) in (a_set_recv_buffer [] a', out).
Proof.
  intros Hp Ht Hl. unfold message_chunks. rewrite (wrap_small 32 (Z.of_nat (length data))) by (split; lia).
  set (m := mkVDMessage VD_AGENT_PROTOCOL type 0 (Z.of_nat (length data))).
  assert (Hfl : Z.of_nat (first_len data) = Z.min (Z.of_nat (length data)) 2028).
  { unfold first_len, VD_AGENT_MAX_CHUNK_SIZE, sizeof_VDAgentMessage. rewrite (wrap_small 32) by (split; lia). lia. }
  assert (Hpl : (20 <= length (write_VDAgentMessage m ++ take (first_len data) data))%nat
    /\ Z.of_nat (length (write_VDAgentMessage m ++ take (first_len data) data)) < 2 ^ 32).
  { rewrite length_app, length_header, length_take. lia. }
  destruct Hpl as [Hpl Hpl2].
  assert (Htc : take_chunk (write_VDAgentMessage m ++ take (first_len data) data) a
    = a_set_has_pending_msg true (a_set_pending_data (take (first_len data) data) (a_set_pending_msg m a))).
  { apply take_chunk_first; cbn; try done; split; cbn; lia. }
  cbn [concat]. destruct (drop (first_len data) data) as [|c d] eqn:Ed.
  - assert (Hta : take (first_len data) data = data).
    { apply take_ge. apply (f_equal length) in Ed. rewrite length_drop in Ed. cbn in Ed. lia. }
    assert (Hr : rest_chunks (length data) [] = []) by by destruct (length data).
    rewrite Hr. cbn [concat]. rewrite run_last_chunk by auto. rewrite Htc, Hta. done.
  - assert (Hdl : (length (c :: d) + length (take (first_len data) data) = length data)%nat).
    { rewrite <- Ed, length_drop, length_take. lia. }
    pose proof (step_chunk (write_VDAgentMessage m ++ take (first_len data) data)
      (concat (rest_chunks (length data) (c :: d))) a Hpl2 (or_intror Hpl)) as Hs.
    rewrite Htc, after_chunk_more in Hs by (cbn -[length take] in *; cbn [length] in *; lia).
    rewrite (run_step _ _ _ Hs). rewrite run_rest; [|done|lia|done|cbn -[length take]; lia].
    cbn [pending_data_ a_set_pending_data a_set_has_pending_msg]. rewrite <- Ed, take_drop.
    match goal with |- context [after_chunk ?x] => change x with (received type data a) end.
    by destruct (after_chunk _).
Qed.

(** What a handler is asked to tell its peer. *)
Definition send_event (e : ClipboardEvent) (b : VDAgentHandler) : VDAgentHandler :=
  match e with
  | clip_grab selection types => SendClipboardGrab selection types b
  | clip_data selection type data => SendClipboardData selection type data b
  | clip_request selection type => SendClipboardRequest selection type b
  | clip_release selection => SendClipboardRelease selection b
  end.
Definition send_events (es : list ClipboardEvent) (b : VDAgentHandler) : VDAgentHandler :=
  foldl (fun b e => send_event e b) b es.

(** Without the selection capability there is one selection only. *)
Definition with_selection (cap : bool) (e : ClipboardEvent) : ClipboardEvent :=
  let on s := if cap then s else VD_AGENT_CLIPBOARD_SELECTION_CLIPBOARD in
  match e with
  | clip_grab s types => clip_grab (on s) types
  | clip_data s type data => clip_data (on s) type data
  | clip_request s type => clip_request (on s) type
  | clip_release s => clip_release (on s)
  end.

(** The widths of the arguments in C++, and a size that fits its field. *)
Definition event_ok (e : ClipboardEvent) : Prop :=
  match e with
  | clip_grab s types => in_width 8 s /\ Forall (in_width 32) types /\ Z.of_nat (length types) < 2 ^ 29
  | clip_data s type data => in_width 8 s /\ in_width 32 type /\ Z.of_nat (length data) < 2 ^ 31
  | clip_request s type => in_width 8 s /\ in_width 32 type
  | clip_release s => in_width 8 s
  end.

Definition event_type (e : ClipboardEvent) : Z :=
  match e with
  | clip_grab _ _ => VD_AGENT_CLIPBOARD_GRAB
  | clip_data _ _ _ => VD_AGENT_CLIPBOARD
  | clip_request _ _ => VD_AGENT_CLIPBOARD_REQUEST
  | clip_release _ => VD_AGENT_CLIPBOARD_RELEASE
  end.
Definition event_payload (cap : bool) (e : ClipboardEvent) : bytes :=
  let sel s := if cap then le_bytes 1 s ++ [0; 0; 0] else [] in
  match e with
  | clip_grab s types => sel s ++ words_bytes types
  | clip_data s type data => sel s ++ le_bytes 4 type ++ data
  | clip_request s type => sel s ++ le_bytes 4 type
  | clip_release s => sel s
  end.

Lemma send_event_eq e b :
  guest_caps_received_ b = true ->
  send_event e b = SendMessage (event_type e) (event_payload (selection_cap b) e) b.
Proof.
  intros Hc. destruct e; unfold send_event, SendClipboardGrab, SendClipboardData, SendClipboardRequest,
    SendClipboardRelease; by rewrite Hc.
Qed.

Lemma field_first n v suf : in_width (8 * Z.of_nat n) v -> field n 0 (le_bytes n v ++ suf) = v.
Proof. by apply (field_encoded n 0 []). Qed.

Lemma field_last n off pre v : length pre = off -> in_width (8 * Z.of_nat n) v -> field n off (pre ++ le_bytes n v) = v.
Proof. intros Hp Hv. rewrite <- (app_nil_r (le_bytes n v)). by apply field_encoded. Qed.

Lemma length_words_bytes ws : length (words_bytes ws) = (4 * length ws)%nat.
Proof.
  induction ws as [|w ws IH]; [done|]. unfold words_bytes in *. cbn [flat_map].
  rewrite length_app, length_le_bytes, IH. cbn. lia.
Qed.

Lemma words_words_bytes ws : Forall (in_width 32) ws -> words (length ws) (words_bytes ws) = ws.
Proof.
  induction 1 as [|w ws Hw _ IH]; [done|]. unfold words_bytes in *. cbn [length words flat_map]. f_equal.
  - by apply (field_encoded 4 0 []).
  - by rewrite (drop_app_length' (le_bytes 4 w)) by done.
Qed.

Lemma words_of_payload ws :
  Forall (in_width 32) ws -> words (length (words_bytes ws) / 4) (words_bytes ws) = ws.
Proof.
  intros H. rewrite length_words_bytes, Nat.mul_comm, Nat.div_mul by done. by apply words_words_bytes.
Qed.

Lemma event_payload_small cap e : event_ok e -> Z.of_nat (length (event_payload cap e)) < 2 ^ 32.
Proof.
  destruct e; cbn -[length Z.pow]; intros He; destruct cap;
    rewrite ?length_app, ?length_words_bytes, ?length_le_bytes; cbn [length]; rewrite ?length_app, ?length_words_bytes, ?length_le_bytes; lia.
Qed.

(** A handler between messages, with its callback set. *)
Definition ready (cap : bool) (a : VDAgentHandler) : Prop :=
  recv_buffer_ a = [] /\ has_pending_msg_ a = false /\ clipboard_callback_ a = true /\ selection_cap a = cap.

(** The handler of each message reads back the event it was made of. *)
Lemma ProcessMessage_event cap e a :
  event_ok e -> selection_cap a = cap ->
  ProcessMessage (event_type e) (event_payload cap e) a = clip_emit (with_selection cap e) a.
Proof.
  intros He Hs. unfold ProcessMessage. destruct e as [s ts|s t d|s t|s]; cbn -[length le_bytes Z.pow] in *.
  - unfold HandleClipboardGrab. rewrite Hs. destruct He as (H1 & H2 & H3), cap.
    + cbn [andb]. rewrite !length_app, length_le_bytes. cbn [length Nat.leb Nat.add].
      rewrite <- app_assoc, field_first by done. do 2 f_equal.
      rewrite app_assoc, (drop_app_length' (le_bytes 1 s ++ [0; 0; 0])) by done.
      rewrite <- (words_of_payload ts) at 3 by done. do 2 f_equal. lia.
    + cbn [andb app]. by rewrite words_of_payload.
  - unfold HandleClipboardData. rewrite Hs. destruct He as (H1 & H2 & H3), cap.
    + cbn [andb]. rewrite !length_app, !length_le_bytes. cbn [length Nat.leb Nat.add].
      rewrite <- app_assoc, field_first by done.
      rewrite app_assoc, (field_encoded 4 4 (le_bytes 1 s ++ [0; 0; 0])) by done.
      rewrite app_assoc, (drop_app_length' ((le_bytes 1 s ++ [0; 0; 0]) ++ le_bytes 4 t)) by done. done.
    + cbn [andb app]. rewrite !length_app, !length_le_bytes. cbn [Nat.leb Nat.add].
      rewrite field_first by done. by rewrite (drop_app_length' (le_bytes 4 t)) by done.
  - unfold HandleClipboardRequest. rewrite Hs. destruct He as (H1 & H2), cap.
    + cbn [andb]. rewrite !length_app, !length_le_bytes. cbn [length Nat.leb Nat.add].
      rewrite <- app_assoc, field_first by done.
      by rewrite app_assoc, field_last.
    + cbn [andb app]. rewrite !length_le_bytes. cbn [Nat.leb].
      by rewrite <- (app_nil_r (le_bytes 4 t)), field_first.
  - unfold HandleClipboardRelease. rewrite Hs. destruct cap; [|done].
    cbn [andb]. rewrite !length_app, !length_le_bytes. cbn [length Nat.leb Nat.add].
    by rewrite field_first.
Qed.

Lemma after_chunk_event cap e a :
  ready cap a -> event_ok e ->
  exists a', after_chunk (received (event_type e) (event_payload cap e) a) = (a', [])
    /\ has_pending_msg_ a' = false /\ clipboard_callback_ a' = true /\ selection_cap a' = cap
    /\ clip_events a' = clip_events a ++ [with_selection cap e].
Proof.
  intros (Hb & Hp & Hc & Hs) He. unfold after_chunk, message_complete.
  set (d := event_payload cap e). cbn [pending_msg_ pending_data_ vm_size vm_type received
    a_set_has_pending_msg a_set_pending_data a_set_pending_msg].
  rewrite Z.ltb_irrefl, Nat2Z.id, firstn_all.
  assert (Ht : (event_type e =? VD_AGENT_ANNOUNCE_CAPABILITIES) = false) by by destruct e.
  rewrite Ht. subst d. rewrite ProcessMessage_event by done.
  unfold clip_emit. cbn [clipboard_callback_ received a_set_has_pending_msg a_set_pending_data a_set_pending_msg].
  rewrite Hc. eexists. split; [done|]. by rewrite <- Hs, <- Hc.
Qed.

Definition event_chunks (cap : bool) (e : ClipboardEvent) : list bytes :=
  message_chunks (event_type e) (event_payload cap e).

Lemma run_event cap e a :
  ready cap a -> event_ok e ->
  exists a', stream_run chunk_step recv_buffer_
      (a_append a (concat (event_chunks cap e))) = (a', [])
    /\ ready cap a' /\ clip_events a' = clip_events a ++ [with_selection cap e].
Proof.
  intros Hr He. destruct (after_chunk_event cap e a Hr He) as (a' & Ha & H1 & H2 & H3 & H4).
  destruct Hr as (Hb & Hp & _ & _). unfold a_append, event_chunks. rewrite Hb. cbn [app].
  rewrite run_message by (done || (by destruct e; split) || by apply event_payload_small).
  rewrite Ha. by eexists.
Qed.

Lemma run_events cap es a :
  ready cap a -> Forall event_ok es ->
  exists a', stream_run chunk_step recv_buffer_ (a_append a (concat (flat_map (event_chunks cap) es))) = (a', [])
    /\ ready cap a' /\ clip_events a' = clip_events a ++ map (with_selection cap) es.
Proof.
  intros Hr He. revert a Hr. induction He as [|e es He _ IH]; intros a Hr; cbn [flat_map map].
  - exists a. rewrite app_nil_r. split; [|done]. cbn [concat]. rewrite (append_nil _ _ _ chunk_laws).
    apply run_empty, Hr.
  - rewrite concat_app, (append_app _ _ _ chunk_laws), (stream_run_append _ _ _ chunk_laws).
    destruct (run_event cap e a Hr He) as (a1 & -> & Hr1 & Hc1). destruct (IH a1 Hr1) as (a2 & -> & Hr2 & Hc2).
    exists a2. split; [done|]. split; [done|]. by rewrite Hc2, Hc1, <- app_assoc.
Qed.

Lemma send_events_eq es b :
  guest_caps_received_ b = true ->
  send_events es b = a_set_sent (sent b ++ flat_map (event_chunks (selection_cap b)) es) b.
Proof.
  unfold send_events. revert b. induction es as [|e es IH]; intros b Hc; cbn [foldl flat_map].
  - rewrite app_nil_r. by destruct b.
  - rewrite send_event_eq, SendMessage_eq, IH by done. cbn [sent a_set_sent]. by rewrite <- app_assoc.
Qed.

(** C22. Everything one handler tells the other arrives: the buffers it sends for
    any clipboard events, in chunks of at most 2048 bytes and cut into
    writes at will, are reported by a handler with the same capabilities as
    the same events in the same order, and leave it between messages. *)
Theorem clipboard_roundtrip cap es writes a b :
  ready cap a -> guest_caps_received_ b = true -> selection_cap b = cap -> Forall event_ok es ->
  concat writes = concat (drop (length (sent b)) (sent (send_events es b))) ->
  let a' := OnDataReceiveds writes a in
  clip_events a' = clip_events a ++ map (with_selection cap) es /\ ready cap a'.
Proof.
  intros Hr Hg <- He. rewrite send_events_eq by done. cbn [sent a_set_sent]. rewrite drop_app_length. intros Hw.
  destruct (OnDataReceiveds_run writes a) as [v ->]; [by apply chunk_step_empty, Hr|].
  destruct (run_events _ es a Hr He) as (a' & Ha & Hr' & Hc). rewrite Hw, Ha. done.
Qed.

(** ** Concrete runs *)

(** An agent that announced the selection capability: 1 << 6 and others. *)
Definition announced : VDAgentHandler :=
  OnDataReceived (concat (message_chunks VD_AGENT_ANNOUNCE_CAPABILITIES (le_bytes 4 1 ++ words_bytes [120]))) (VDAgentHandler_new true).

Example announced_ready : ready true announced /\ guest_caps_received_ announced = true.
Proof. done. Qed.

Definition demo_events : list ClipboardEvent :=
  [clip_grab 0 [1; 2]; clip_data 1 1 (repeat 65 3000); clip_request 0 2; clip_release 0].

Definition demo_sent : bytes := concat (drop (length (sent announced)) (sent (send_events demo_events announced))).

Lemma clipboard_roundtrip_witness :
  clip_events (OnDataReceiveds [take 10 demo_sent; drop 10 demo_sent] announced)
  = clip_events announced ++ map (with_selection true) demo_events.
Proof.
  apply (clipboard_roundtrip true demo_events [take 10 demo_sent; drop 10 demo_sent] announced announced); try done.
  unfold demo_events. repeat first [constructor | done].
Defined.

Lemma OnDataReceived_segmentation_witness :
  without_sent (OnDataReceiveds [take 10 demo_sent; drop 10 demo_sent] announced)
  = without_sent (OnDataReceiveds [demo_sent] announced).
Proof.
  apply OnDataReceived_segmentation; [done|]. cbn [concat]. by rewrite !app_nil_r, take_drop.
Defined.

(** The whole handshake: the guest's request is answered by our capabilities. *)
Example handshake :
  clip_events (OnDataReceived (concat (sent announced)) (VDAgentHandler_new true)) = []
  /\ guest_caps_ (OnDataReceived (concat (sent announced)) (VDAgentHandler_new true)) = host_caps_ announced.
Proof. done. Qed.

(** A guest that reboots in the middle of a message: nothing tells the
    handler, and the first message of the new agent is taken for the rest of
    the old one. *)
Example restart_desync :
  let half := take 2056 (concat (message_chunks VD_AGENT_CLIPBOARD (repeat 65 3000))) in
  let grab := concat (event_chunks true (clip_grab 0 [1])) in
  clip_events (OnDataReceiveds [half; grab] announced) = []
  /\ clip_events (OnDataReceiveds [grab] announced) = [clip_grab 0 [1]].
Proof. done. Qed.
