(* ===== verification/GuestAgent.v ===== *)
(** * The QEMU guest agent's host side

    Models core/guest_agent/guest_agent_handler.{h,cpp}: JSON lines over a
    virtio-serial port, the synchronisation handshake, and the commands sent.

    Calls of the connected callback are the trace [conn_events], buffers
    given to [SendData] the trace [ga_sent]; [serial_device_] is taken to be
    set.  The random number of [GenerateSyncId] and the clock of [SyncTime]
    are arguments.  The mutex makes the handling of a line one step.

    [handshake_connects]: the agent's reply connects, in whatever pieces it
    arrives.  [JsonEscape_roundtrip]: what a JSON reader makes of an escaped
    string is the string. *)

From S2P Require Import Prelude.
From S2P Require Import StdString.

(** ** JSON helpers *)

Definition ch_quote := 34.
Definition ch_bslash := 92.
Definition quoted (s : bytes) : bytes := ch_quote :: s ++ [ch_quote].

Definition escape_char (c : Z) : bytes :=
  if c =? ch_quote then [ch_bslash; ch_quote]
  else if c =? ch_bslash then [ch_bslash; ch_bslash]
  else if c =? 10 then [ch_bslash; 110]
  else if c =? 13 then [ch_bslash; 114]
  else if c =? 9 then [ch_bslash; 116]
  else [c].
Definition JsonEscape (s : bytes) : bytes := flat_map escape_char s.

Fixpoint starts_with (p s : bytes) : bool :=
  match p, s with
  | [], _ => true
  | _ :: _, [] => false
  | c :: p, d :: s => (c =? d) && starts_with p s
  end.

(** [s.find(p)]. *)
Fixpoint find_str (p s : bytes) : option nat :=
  if starts_with p s then Some O
  else match s with
       | [] => None
       | _ :: s => S <$> find_str p s
       end.

Definition JsonHasKey (json key : bytes) : bool := if find_str (quoted key) json then true else false.

(** [std::strtoll(s, nullptr, 10)] on a C string. *)
Definition strtoll (s : bytes) : Z :=
  let '(neg, s1) := read_sign (skip_space s) in
  let '(n, _, _) := read_digits 0 false s1 in
  Z.max (- 2 ^ 63) (Z.min (2 ^ 63 - 1) (if neg : bool then - n else n)).

Fixpoint skip_blanks (s : bytes) : bytes :=
  match s with
  | c :: s' => if c =? 32 then skip_blanks s' else s
  | [] => []
  end.

Definition JsonGetInt (json key : bytes) : Z :=
  let needle := quoted key ++ [58] in
  match find_str needle json with
  | None => 0
  | Some pos => strtoll (c_str (skip_blanks (drop (pos + length needle) json)))
  end.

(** ** State *)

Record GuestAgentHandler := mkGuestAgent {
  ga_buffer_ : bytes;
  connected_ : bool;
  sync_pending_ : bool;
  sync_id_ : Z;
  next_id_ : Z;
  connected_callback_ : bool;
  conn_events : list bool;
  ga_sent : list bytes
}.

Definition ga_set_buffer (v : bytes) (s : GuestAgentHandler) : GuestAgentHandler :=
  mkGuestAgent v (connected_ s) (sync_pending_ s) (sync_id_ s) (next_id_ s)
    (connected_callback_ s) (conn_events s) (ga_sent s).
Definition ga_set_connected (v : bool) (s : GuestAgentHandler) : GuestAgentHandler :=
  mkGuestAgent (ga_buffer_ s) v (sync_pending_ s) (sync_id_ s) (next_id_ s)
    (connected_callback_ s) (conn_events s) (ga_sent s).
Definition ga_set_sync_pending (v : bool) (s : GuestAgentHandler) : GuestAgentHandler :=
  mkGuestAgent (ga_buffer_ s) (connected_ s) v (sync_id_ s) (next_id_ s) (connected_callback_ s)
    (conn_events s) (ga_sent s).
Definition ga_set_sync_id (v : Z) (s : GuestAgentHandler) : GuestAgentHandler :=
  mkGuestAgent (ga_buffer_ s) (connected_ s) (sync_pending_ s) v (next_id_ s)
    (connected_callback_ s) (conn_events s) (ga_sent s).
Definition ga_set_next_id (v : Z) (s : GuestAgentHandler) : GuestAgentHandler :=
  mkGuestAgent (ga_buffer_ s) (connected_ s) (sync_pending_ s) (sync_id_ s) v
    (connected_callback_ s) (conn_events s) (ga_sent s).
Definition ga_set_conn_events (v : list bool) (s : GuestAgentHandler) : GuestAgentHandler :=
  mkGuestAgent (ga_buffer_ s) (connected_ s) (sync_pending_ s) (sync_id_ s) (next_id_ s)
    (connected_callback_ s) v (ga_sent s).
Definition ga_set_sent (v : list bytes) (s : GuestAgentHandler) : GuestAgentHandler :=
  mkGuestAgent (ga_buffer_ s) (connected_ s) (sync_pending_ s) (sync_id_ s) (next_id_ s)
    (connected_callback_ s) (conn_events s) v.

Definition GuestAgentHandler_new (callback : bool) : GuestAgentHandler :=
  mkGuestAgent [] false false 0 1 callback [] [].

Definition key_return : bytes := str "return".

Definition ga_emit (connected : bool) (g : GuestAgentHandler) : GuestAgentHandler :=
  if connected_callback_ g then ga_set_conn_events (conn_events g ++ [connected]) g else g.

Definition SendRaw (json_line : bytes) (g : GuestAgentHandler) : GuestAgentHandler :=
  ga_set_sent (ga_sent g ++ [json_line]) g.

(** ** The handshake *)

Definition sync_line (id : Z) : bytes :=
  str "{" ++ quoted (str "execute") ++ str ":" ++ quoted (str "guest-sync-delimited") ++ str ","
  ++ quoted (str "arguments") ++ str ":{" ++ quoted (str "id") ++ str ":" ++ to_dec_signed id ++ str "}}" ++ [10].

(** [sync] is what [GenerateSyncId] draws. *)
Definition StartSyncHandshake (sync : Z) (g : GuestAgentHandler) : GuestAgentHandler :=
  let g := ga_set_sync_pending true (ga_set_sync_id sync (ga_set_buffer [] g)) in
  let g := ga_set_sent (ga_sent g ++ [[0xFF]]) g in
  SendRaw (sync_line (sync_id_ g)) g.

Definition OnPortOpen (opened : bool) (sync : Z) (g : GuestAgentHandler) : GuestAgentHandler :=
  if opened then StartSyncHandshake sync g
  else
    let was_connected := connected_ g in
    let g := ga_set_sync_pending false (ga_set_buffer [] (ga_set_connected false g)) in
    if was_connected then ga_emit false g else g.

Definition ProcessLine (line : bytes) (g : GuestAgentHandler) : GuestAgentHandler :=
  if sync_pending_ g && JsonHasKey line key_return then
    if JsonGetInt line key_return =? sync_id_ g then
      let was_connected := connected_ g in
      let g := ga_set_connected true (ga_set_sync_pending false g) in
      if negb was_connected then ga_emit true g else g
    else g
  else g.

(** The loop over the bytes: the buffer and the complete lines. *)
Fixpoint split_lines (buffer : bytes) (data : bytes) : bytes * list bytes :=
  match data with
  | [] => (buffer, [])
  | ch :: data =>
      if ch =? 0xFF then split_lines [] data
      else if (ch =? 10) || (ch =? 13) then
        let '(rest, lines) := split_lines [] data in
        (rest, if bool_decide (buffer = []) then lines else buffer :: lines)
      else split_lines (buffer ++ [ch]) data
  end.

Definition ProcessLines (lines : list bytes) (g : GuestAgentHandler) : GuestAgentHandler :=
  foldl (fun g line => ProcessLine line g) g lines.

Definition OnDataReceived (data : bytes) (g : GuestAgentHandler) : GuestAgentHandler :=
  let '(buffer, complete_lines) := split_lines (ga_buffer_ g) data in
  ProcessLines complete_lines (ga_set_buffer buffer g).

(** ** Commands *)

(** The two overloads of [SendCommand]. *)
Definition SendCommand (command : bytes) (arguments_json : option bytes) (g : GuestAgentHandler) : GuestAgentHandler :=
  if negb (connected_ g) then g
  else
    let id := next_id_ g in
    let g := ga_set_next_id (u64 (next_id_ g + 1)) g in
    SendRaw (str "{" ++ quoted (str "execute") ++ str ":" ++ quoted (JsonEscape command)
             ++ match arguments_json with
                | Some args => str "," ++ quoted (str "arguments") ++ str ":" ++ args
                | None => []
                end
             ++ str "," ++ quoted (str "id") ++ str ":" ++ to_dec id ++ str "}" ++ [10]) g.

Definition Shutdown (mode : bytes) : GuestAgentHandler -> GuestAgentHandler :=
  SendCommand (str "guest-shutdown")
    (Some (str "{" ++ quoted (str "mode") ++ str ":" ++ quoted (JsonEscape mode) ++ str "}")).
Definition Ping : GuestAgentHandler -> GuestAgentHandler := SendCommand (str "guest-ping") None.
(** [now] is the system clock in nanoseconds. *)
Definition SyncTime (now : Z) : GuestAgentHandler -> GuestAgentHandler :=
  SendCommand (str "guest-set-time")
    (Some (str "{" ++ quoted (str "time") ++ str ":" ++ to_dec_signed now ++ str "}")).

(** ** Lines *)

Lemma split_lines_app buffer x y :
  split_lines buffer (x ++ y)
  = let '(b1, l1) := split_lines buffer x in
    let '(b2, l2) := split_lines b1 y in (b2, l1 ++ l2).
Proof.
  revert buffer. induction x as [|c x IH]; intros buffer; cbn [app split_lines].
  - by destruct (split_lines buffer y).
  - destruct (c =? 255); [apply IH|]. destruct ((c =? 10) || (c =? 13)); [|apply IH].
    rewrite IH. destruct (split_lines [] x) as [b1 l1]. destruct (split_lines b1 y) as [b2 l2].
    by case_bool_decide.
Qed.

Lemma ProcessLine_buffer line b g : ProcessLine line (ga_set_buffer b g) = ga_set_buffer b (ProcessLine line g).
Proof. unfold ProcessLine, ga_emit. cbn. by case_ifs. Qed.

Lemma ProcessLines_buffer lines b g : ProcessLines lines (ga_set_buffer b g) = ga_set_buffer b (ProcessLines lines g).
Proof.
  revert g. induction lines as [|l lines IH]; intros g; [done|]. unfold ProcessLines in *. cbn [foldl].
  rewrite ProcessLine_buffer. apply IH.
Qed.

Lemma ProcessLine_keeps line g : ga_buffer_ (ProcessLine line g) = ga_buffer_ g.
Proof. unfold ProcessLine, ga_emit. by case_ifs. Qed.

Lemma ProcessLines_keeps lines g : ga_buffer_ (ProcessLines lines g) = ga_buffer_ g.
Proof.
  revert g. induction lines as [|l lines IH]; intros g; [done|]. unfold ProcessLines in *. cbn [foldl].
  by rewrite IH, ProcessLine_keeps.
Qed.

(** Two reads are one. *)
Lemma OnDataReceived_app x y g : OnDataReceived (x ++ y) g = OnDataReceived y (OnDataReceived x g).
Proof.
  unfold OnDataReceived. rewrite split_lines_app. destruct (split_lines (ga_buffer_ g) x) as [b1 l1].
  rewrite ProcessLines_keeps. cbn [ga_buffer_ ga_set_buffer].
  destruct (split_lines b1 y) as [b2 l2]. rewrite !ProcessLines_buffer.
  assert (H : forall b b' k, ga_set_buffer b (ga_set_buffer b' k) = ga_set_buffer b k) by done.
  unfold ProcessLines at 1. rewrite foldl_app. by rewrite H.
Qed.

Definition OnDataReceiveds (reads : list bytes) (g : GuestAgentHandler) : GuestAgentHandler :=
  foldl (fun g data => OnDataReceived data g) g reads.

Lemma OnDataReceiveds_concat reads g : OnDataReceiveds reads g = OnDataReceived (concat reads) g.
Proof.
  revert g. unfold OnDataReceiveds.
  induction reads as [|d reads IH]; intros g; cbn [foldl concat].
  - by destruct g.
  - by rewrite OnDataReceived_app, <- IH.
Qed.

(** A line without the framing bytes. *)
Definition plain (s : bytes) : Prop := Forall (fun c => c <> 10 /\ c <> 13 /\ c <> 255) s.

Lemma split_plain b s rest : plain s -> split_lines b (s ++ rest) = split_lines (b ++ s) rest.
Proof.
  intros Hs. revert b. induction Hs as [|c s (H1 & H2 & H3) _ IH]; intros b; [by rewrite app_nil_r|].
  cbn [app split_lines]. rewrite !(proj2 (Z.eqb_neq c _)) by done. cbn [orb]. rewrite IH. by rewrite <- app_assoc.
Qed.

(** ** The handshake completes *)

(** The agent's answer to [guest-sync-delimited]. *)
Definition sync_reply (id : Z) : bytes :=
  [0xFF] ++ str "{" ++ quoted key_return ++ str ": " ++ to_dec_signed id ++ str "}" ++ [10].

Lemma plain_digits n : in_width 64 n -> plain (to_dec n).
Proof.
  intros Hn. eapply Forall_impl; [by apply to_dec_all|]. intros c. unfold isdigit. cbn. intros Hc. bool_hyps. lia.
Qed.

Lemma JsonGetInt_reply id :
  1 <= id < 2 ^ 63 ->
  let line := str "{" ++ quoted key_return ++ str ": " ++ to_dec id ++ str "}" in
  JsonHasKey line key_return = true /\ JsonGetInt line key_return = id.
Proof.
  intros Hid. cbv zeta. assert (Hw : in_width 64 id) by (unfold in_width; lia).
  split; [by vm_compute|].
  assert (Hf : find_str (quoted key_return ++ [58]) (str "{" ++ quoted key_return ++ str ": " ++ to_dec id ++ str "}") = Some 1%nat)
    by (by vm_compute).
  unfold JsonGetInt. rewrite Hf. cbv zeta.
  change (drop (1 + length (quoted key_return ++ [58]))
    (str "{" ++ quoted key_return ++ str ": " ++ to_dec id ++ str "}")) with (32 :: to_dec id ++ str "}").
  change (skip_blanks (32 :: to_dec id ++ str "}")) with (skip_blanks (to_dec id ++ str "}")).
  pose proof (dec_digits_head 19 id (str "}")) as (c & t & Heq & Hc).
  { change (10 ^ Z.of_nat 20) with 100000000000000000000. lia. }
  assert (Hsk : skip_blanks (to_dec id ++ str "}") = to_dec id ++ str "}").
  { unfold to_dec. rewrite Heq. cbn [skip_blanks]. unfold isdigit in Hc. bool_hyps.
    by rewrite (proj2 (Z.eqb_neq c 32)) by lia. }
  rewrite Hsk.
  rewrite c_str_no_nul.
  2: { intros [Hi|Hi]%list_elem_of_In%in_app_or; [apply list_elem_of_In in Hi|by destruct Hi].
       by eapply to_dec_not_in in Hi. }
  destruct (read_to_dec id (str "}") Hw) as [E1 E2]; [by vm_compute|].
  unfold strtoll. rewrite E1, E2. lia.
Qed.

(** The handshake completes.  After the port opens and the sync command is
    sent, the agent's reply connects the handler and fires the callback once,
    whatever unfinished line was in the stream before it and however the
    stream is cut into reads. *)
Theorem handshake_connects sync garbage reads g :
  1 <= sync < 2 ^ 63 -> Forall (fun c => c <> 10 /\ c <> 13) garbage ->
  concat reads = garbage ++ sync_reply sync ->
  let g1 := OnPortOpen true sync g in
  let g2 := OnDataReceiveds reads g1 in
  connected_ g2 = true /\ sync_pending_ g2 = false /\ ga_buffer_ g2 = []
  /\ ga_sent g2 = ga_sent g ++ [[0xFF]; sync_line sync]
  /\ conn_events g2 = conn_events g ++ (if connected_callback_ g && negb (connected_ g) then [true] else []).
Proof.
  intros Hid Hg Hr. cbv zeta. rewrite OnDataReceiveds_concat, Hr.
  destruct (JsonGetInt_reply sync Hid) as [Hk Hi]. cbv zeta in Hk, Hi.
  set (line := str "{" ++ quoted key_return ++ str ": " ++ to_dec sync ++ str "}") in *.
  assert (Hrep : sync_reply sync = 0xFF :: line ++ [10]).
  { unfold sync_reply, to_dec_signed. rewrite (proj2 (Z.ltb_ge _ _)) by lia. subst line. by rewrite <- !app_assoc. }
  assert (Hpl : plain line).
  { subst line. unfold plain. rewrite !Forall_app. split_and!; try by repeat constructor.
    apply plain_digits. unfold in_width. lia. }
  assert (Hg2 : forall b rest, exists b', split_lines b (garbage ++ rest) = split_lines b' rest).
  { clear -Hg. induction Hg as [|c garbage [H1 H2] _ IH]; intros b rest; [by exists b|]. cbn [app split_lines].
    rewrite (proj2 (Z.eqb_neq c 10)), (proj2 (Z.eqb_neq c 13)) by done. cbn [orb]. case_ifs; apply IH. }
  unfold OnDataReceived. set (g1 := OnPortOpen true sync g). rewrite Hrep.
  destruct (Hg2 (ga_buffer_ g1) (255 :: line ++ [10])) as [b' ->].
  cbn [split_lines]. change (255 =? 255) with true. cbv iota. rewrite split_plain by done. cbn [app].
  cbn [split_lines]. change ((10 =? 255)) with false. change ((10 =? 10) || (10 =? 13)) with true. cbv iota.
  rewrite bool_decide_false by (subst line; done).
  cbn [ProcessLines foldl]. unfold ProcessLine. rewrite Hk, Hi. subst g1.
  cbn -[sync_line]. rewrite Z.eqb_refl.
  unfold ga_emit. destruct (connected_ g), (connected_callback_ g) eqn:Hcb; cbn -[sync_line];
    rewrite ?Hcb, ?app_nil_r; cbn -[sync_line]; split_and!; try done; by rewrite <- app_assoc.
Qed.

(** ** What the guest reads of a command *)

(** A JSON reader's view of the inside of a string: up to the closing quote,
    with the escapes of RFC 8259 that [JsonEscape] uses. *)
Fixpoint json_string (s : bytes) : option (bytes * bytes) :=
  match s with
  | [] => None
  | c :: s =>
      if c =? ch_quote then Some ([], s)
      else if c =? ch_bslash then
        match s with
        | e :: s =>
            ch ← (if e =? ch_quote then Some ch_quote
                  else if e =? ch_bslash then Some ch_bslash
                  else if e =? 110 then Some 10
                  else if e =? 114 then Some 13
                  else if e =? 116 then Some 9
                  else None);
            '(out, rest) ← json_string s; Some (ch :: out, rest)
        | [] => None
        end
      else '(out, rest) ← json_string s; Some (c :: out, rest)
  end.

(** An escaped string reads back as the string it was made of, and ends at
    the quote behind it, so an argument cannot add members to a command. *)
Theorem JsonEscape_roundtrip s rest :
  json_string (JsonEscape s ++ ch_quote :: rest) = Some (s, rest).
Proof.
  induction s as [|c s IH]; [done|]. unfold JsonEscape in *. cbn [flat_map]. rewrite <- app_assoc.
  unfold escape_char at 1. unfold ch_quote, ch_bslash in *.
  destruct (Z.eqb_spec c 34) as [->|H1]; [cbn; by rewrite IH|].
  destruct (Z.eqb_spec c 92) as [->|H2]; [cbn; by rewrite IH|].
  destruct (Z.eqb_spec c 10) as [->|H3]; [cbn; by rewrite IH|].
  destruct (Z.eqb_spec c 13) as [->|H4]; [cbn; by rewrite IH|].
  destruct (Z.eqb_spec c 9) as [->|H5]; [cbn; by rewrite IH|].
  cbn [app json_string]. unfold ch_quote, ch_bslash.
  rewrite (proj2 (Z.eqb_neq c 34)), (proj2 (Z.eqb_neq c 92)) by done. by rewrite IH.
Qed.

(** ** Concrete runs *)

Lemma handshake_connects_witness :
  let g := GuestAgentHandler_new true in
  conn_events (OnDataReceiveds [[65; 66; 0xFF; 123]; drop 2 (sync_reply 4711)] (OnPortOpen true 4711 g)) = [true].
Proof.
  apply (handshake_connects 4711 [65; 66] [[65; 66; 0xFF; 123]; drop 2 (sync_reply 4711)] (GuestAgentHandler_new true)).
  - done.
  - repeat constructor; done.
  - vm_compute. reflexivity.
Defined.

(** A reply to an earlier handshake does not connect. *)
Example stale_reply :
  connected_ (OnDataReceived (sync_reply 1) (OnPortOpen true 2 (GuestAgentHandler_new true))) = false.
Proof. vm_compute. reflexivity. Qed.

(** Any line that mentions the key and has the number first does: the reader
    is a text search, not a JSON parser. *)
Example key_in_text :
  connected_ (OnDataReceived (str "{" ++ quoted (str "log") ++ str ":" ++ quoted key_return ++ str ":7}" ++ [10])
    (OnPortOpen true 7 (GuestAgentHandler_new true))) = true.
Proof. vm_compute. reflexivity. Qed.
