(* ===== verification/VirtioSerial.v ===== *)
(** * The virtio serial device

    Models core/device/virtio/virtio_serial.{h,cpp}: the multiport console
    that carries the agents' byte streams, its control queue, and the two
    directions of data.

    What the VM does with data and port events is the client, an instance of
    [SerialClient]; its callbacks run inside the device's queue handling and
    may send data back (the mutex is recursive), so they transform the whole
    world.  [client] is the client's state.  [mmio_] and the callbacks are
    taken to be set, as the VM does before the guest runs; [host_connected]
    is never read and left out.

    [port_tx_delivers]: the client is given what the guest published, request
    by request in ring order, as a rule for the client's own invariant. *)

From S2P Require Import Prelude.
From S2P Require Import StdString.
From S2P Require Import GuestMem.
From S2P Require Import VirtQueue.
From S2P Require Import VirtioMmio.
From S2P Require Import VirtioChain.

Definition VIRTIO_CONSOLE_F_MULTIPORT : Z := 1 .<< 1.
Definition VIRTIO_SERIAL_F_VERSION_1 : Z := 1 .<< 32.

Definition VIRTIO_CONSOLE_DEVICE_READY := 0.
Definition VIRTIO_CONSOLE_DEVICE_ADD := 1.
Definition VIRTIO_CONSOLE_PORT_READY := 3.
Definition VIRTIO_CONSOLE_PORT_OPEN := 6.
Definition VIRTIO_CONSOLE_PORT_NAME := 7.

Record PortState := mkPort { port_name : bytes; guest_connected : bool }.

Record Serial (C : Type) := mkSerial {
  max_ports_ : Z;
  ports_ : list PortState;
  driver_ready_ : bool;
  client : C
}.
Arguments mkSerial {C}.
Arguments max_ports_ {C}.
Arguments ports_ {C}.
Arguments driver_ready_ {C}.
Arguments client {C}.

(** Transport, device and guest memory. *)
Notation world C := (Mmio * Serial C * HostMem)%type.

Section Device.
  Context {C : Type}.

Definition ser_set_ports (v : list PortState) (s : Serial C) : Serial C :=
  mkSerial (max_ports_ s) v (driver_ready_ s) (client s).
Definition ser_set_driver_ready (v : bool) (s : Serial C) : Serial C :=
  mkSerial (max_ports_ s) (ports_ s) v (client s).
Definition set_client (v : C) (s : Serial C) : Serial C :=
  mkSerial (max_ports_ s) (ports_ s) (driver_ready_ s) v.

Definition Serial_new (max_ports : Z) (c : C) : Serial C :=
  mkSerial max_ports (replicate (Z.to_nat max_ports) (mkPort [] false)) false c.

Definition port_at (s : Serial C) (port_id : Z) : PortState := nth (Z.to_nat port_id) (ports_ s) (mkPort [] false).
Definition has_port (s : Serial C) (port_id : Z) : bool := port_id <? Z.of_nat (length (ports_ s)).

Definition Serial_features : Z := VIRTIO_CONSOLE_F_MULTIPORT .| VIRTIO_SERIAL_F_VERSION_1.

Definition Serial_num_queues (s : Serial C) : Z :=
  u32 (4 + (if 1 <? max_ports_ s then (max_ports_ s - 1) * 2 else 0)).

Definition IsPortConnected (port_id : Z) (s : Serial C) : bool :=
  if negb (has_port s port_id) then false else guest_connected (port_at s port_id).

Definition SetPortName (port_id : Z) (name : bytes) (s : Serial C) : Serial C :=
  if has_port s port_id
  then ser_set_ports (<[Z.to_nat port_id := mkPort name (guest_connected (port_at s port_id))]> (ports_ s)) s
  else s.

Definition set_connected (port_id : Z) (v : bool) (s : Serial C) : Serial C :=
  ser_set_ports (<[Z.to_nat port_id := mkPort (port_name (port_at s port_id)) v]> (ports_ s)) s.

(** [config_]: cols, rows, max_nr_ports, emerg_wr. *)
Definition serial_config_bytes (s : Serial C) : bytes :=
  le_bytes 2 0 ++ le_bytes 2 0 ++ le_bytes 4 (max_ports_ s) ++ le_bytes 4 0.

(** The [memcpy] goes into a 4-byte variable. *)
Definition Serial_ReadConfig (s : Serial C) (offset size : Z) : option (Serial C * Z) :=
  if 12 <? u32 (offset + size) then Some (s, 0)
  else if 4 <? size then None
  else Some (s, le_val (take (Z.to_nat size) (drop (Z.to_nat offset) (serial_config_bytes s)))).

Definition Serial_OnStatusChange (new_status : Z) (w : world C) : option (world C) :=
  let '(m, s, h) := w in
  if has new_status 0x4 && negb (driver_ready_ s) then Some (m, ser_set_driver_ready true s, h) else Some w.

(** ** Towards the guest *)

Definition VirtioConsoleControl_bytes (id event value : Z) : bytes :=
  le_bytes 4 id ++ le_bytes 2 event ++ le_bytes 2 value.

(** The body shared by [SendControlMessage] and [SendPortName]: one buffer of
    the control receive queue filled with [msg]. *)
Definition send_control (msg : bytes) (w : world C) : option (world C) :=
  let '(m, s, h) := w in
  match GetQueue m 2 with
  | None => Some w
  | Some vq =>
      if negb (ready_ vq) then Some w
      else
        r ← PopAvail vq h;
        let '(o, vq, h) := (r : option Z * VirtQueue * HostMem) in
        let m := set_queue 2 vq m in
        match o with
        | None => Some (m, s, h)
        | Some head =>
            r ← WalkChain vq h head;
            let '(ok, chain) := (r : bool * list VirtqChainElem) in
            r ← (if ok : bool then scatter_writable chain msg h else Some (h, 0));
            let '(h, written) := (r : HostMem * Z) in
            h ← PushUsed vq h head written;
            m ← NotifyUsedBuffer 2 m h;
            Some (m, s, h)
        end
  end.

Definition SendControlMessage (port_id event value : Z) (w : world C) : option (world C) :=
  send_control (VirtioConsoleControl_bytes port_id event value) w.

Definition SendPortName (port_id : Z) (w : world C) : option (world C) :=
  let '(m, s, h) := w in
  if negb (has_port s port_id) then Some w
  else
    let name := port_name (port_at s port_id) in
    if bool_decide (name = []) then Some w
    else send_control (VirtioConsoleControl_bytes port_id VIRTIO_CONSOLE_PORT_NAME 1 ++ name) w.

(** The loop of [SendData]: what is left of the data comes last.  Buffers
    are shorter than 4 GiB, so the casts to 32 bits keep their lengths. *)
Fixpoint send_loop (fuel : nat) (i : Z) (data : bytes) (m : Mmio) (h : HostMem)
    : option (Mmio * HostMem * bytes) :=
  if bool_decide (data = []) then Some (m, h, data)
  else
    match fuel with
    | O => None
    | S fuel =>
        r ← PopAvail (queue_at m i) h;
        let '(o, vq, h) := (r : option Z * VirtQueue * HostMem) in
        let m := set_queue i vq m in
        match o with
        | None => Some (m, h, data)
        | Some head =>
            r ← WalkChain vq h head;
            let '(ok, chain) := (r : bool * list VirtqChainElem) in
            if negb ok then h ← PushUsed vq h head 0; send_loop fuel i data m h
            else
              r ← scatter_writable chain data h;
              let '(h, written) := (r : HostMem * Z) in
              h ← PushUsed vq h head written;
              send_loop fuel i (drop (Z.to_nat written) data) m h
        end
    end.

Definition rx_queue (port_id : Z) : Z := if port_id =? 0 then 0 else u32 (4 + (port_id - 1) * 2).

Definition Serial_SendData (port_id : Z) (data : bytes) (w : world C) : option (world C * bool) :=
  let '(m, s, h) := w in
  if negb (has_port s port_id) || bool_decide (data = []) then Some (w, false)
  else if negb (guest_connected (port_at s port_id)) then Some (w, false)
  else
    match GetQueue m (rx_queue port_id) with
    | None => Some (w, false)
    | Some vq =>
        if negb (ready_ vq) then Some (w, false)
        else
          r ← send_loop (Z.to_nat 65536) (rx_queue port_id) data m h;
          let '(m, h, rest) := (r : Mmio * HostMem * bytes) in
          m ← NotifyUsedBuffer (rx_queue port_id) m h;
          Some ((m, s, h), bool_decide (rest = []))
    end.

End Device.

(** ** From the guest *)

(** The client's callbacks: data on a port, and a port opened or closed. *)
Class SerialClient (C : Type) := {
  data_callback : Z -> bytes -> world C -> option (world C);
  port_open_callback : Z -> bool -> world C -> option (world C)
}.

(** The device-readable bytes up to [n] of them. *)
Fixpoint gather_upto (n : Z) (chain : list VirtqChainElem) (h : HostMem) : option bytes :=
  match chain with
  | [] => Some []
  | e :: chain =>
      if e_writable e then gather_upto n chain h
      else
        let to_copy := Z.min (e_len e) n in
        l ← hm_read h (e_addr e) to_copy;
        if n - to_copy <=? 0 then Some l
        else rest ← gather_upto (n - to_copy) chain h; Some (l ++ rest)
  end.

Section Client.
  Context {C : Type} `{SerialClient C}.

(** DEVICE_READY: every port is announced. *)
Fixpoint add_ports (n : nat) (i : Z) (w : world C) : option (world C) :=
  match n with
  | O => Some w
  | S n => w ← SendControlMessage i VIRTIO_CONSOLE_DEVICE_ADD 1 w; add_ports n (i + 1) w
  end.

(** The switch on a control message. *)
Definition control_event (id event value : Z) (w : world C) : option (world C) :=
  let '(m, s, h) := w in
  if event =? VIRTIO_CONSOLE_DEVICE_READY then
    if value =? 1 then add_ports (Z.to_nat (max_ports_ s)) 0 w else Some w
  else if event =? VIRTIO_CONSOLE_PORT_READY then
    if has_port s id && (value =? 1) then
      w ← (if negb (bool_decide (port_name (port_at s id) = [])) then SendPortName id w else Some w);
      SendControlMessage id VIRTIO_CONSOLE_PORT_OPEN 1 w
    else Some w
  else if event =? VIRTIO_CONSOLE_PORT_OPEN then
    if has_port s id then port_open_callback id (value =? 1) (m, set_connected id (value =? 1) s, h)
    else Some w
  else Some w.

(** One iteration of [HandleControlMessage]. *)
Definition control_message (head : Z) (w : world C) : option (world C) :=
  let '(m, s, h) := w in
  let vq := queue_at m 3 in
  r ← WalkChain vq h head;
  let '(ok, chain) := (r : bool * list VirtqChainElem) in
  if negb ok then h ← PushUsed vq h head 0; Some (m, s, h)
  else
    ctrl ← gather_upto 8 chain h;
    h ← PushUsed vq h head 0;
    if (length ctrl <? 8)%nat then Some (m, s, h)
    else control_event (field 4 0 ctrl) (field 2 4 ctrl) (field 2 6 ctrl) (m, s, h).

Definition HandleControlMessage (w : world C) : option (world C) :=
  r ← drain control_message (Z.to_nat 65536) 3 w;
  let '(m, s, h) := (r : world C) in
  m ← NotifyUsedBuffer 3 m h;
  Some (m, s, h).

(** One iteration of [HandlePortTx] on transmit queue [i]. *)
Definition port_tx (i port_id head : Z) (w : world C) : option (world C) :=
  let '(m, s, h) := w in
  let vq := queue_at m i in
  r ← WalkChain vq h head;
  let '(ok, chain) := (r : bool * list VirtqChainElem) in
  if negb ok then h ← PushUsed vq h head 0; Some (m, s, h)
  else
    data ← gather_readable chain h;
    h ← PushUsed vq h head 0;
    if bool_decide (data = []) then Some (m, s, h) else data_callback port_id data (m, s, h).

(** The notification names no queue, so it is unconditional. *)
Definition HandlePortTx (i port_id : Z) (w : world C) : option (world C) :=
  r ← drain (port_tx i port_id) (Z.to_nat 65536) i w;
  let '(m, s, h) := (r : world C) in
  m ← NotifyUsedBuffer (-1) m h;
  Some (m, s, h).

Definition Serial_OnQueueNotify (i : Z) (w : world C) : option (world C) :=
  let '(m, s, h) := w in
  if i =? 2 then Some w
  else if i =? 3 then HandleControlMessage w
  else if i =? 1 then HandlePortTx 1 0 w
  else if (5 <=? i) && ((i - 5) mod 2 =? 0) then
    let port_id := 1 + (i - 5) / 2 in
    if port_id <? max_ports_ s then HandlePortTx i port_id w else Some w
  else Some w.

#[export] Instance Serial_VirtioDeviceOps : VirtioDeviceOps (Serial C) := {
  GetDeviceId := fun _ => 3;
  GetDeviceFeatures := fun _ => Serial_features;
  GetNumQueues := Serial_num_queues;
  GetQueueMaxSize := fun _ _ => 256;
  OnQueueNotify := Serial_OnQueueNotify;
  ReadConfig := Serial_ReadConfig;
  WriteConfig := fun s _ _ _ => s;
  OnStatusChange := Serial_OnStatusChange
}.
End Client.

(** ** The transport under the device *)

Definition keeps (m m' : Mmio) : Prop := mmio_ok m -> mmio_ok m' /\ num_queues m' = num_queues m.

Lemma keeps_refl m : keeps m m.
Proof. by intros H. Qed.
Lemma keeps_trans m1 m2 m3 : keeps m1 m2 -> keeps m2 m3 -> keeps m1 m3.
Proof. intros H1 H2 H. destruct (H1 H) as [H3 <-]. auto. Qed.

Lemma num_queues_raise b m : num_queues (raise_irq b m) = num_queues m.
Proof. unfold num_queues. by destruct (raise_irq_queues b m) as [-> _]. Qed.

Lemma raised_bit m : has (interrupt_status_ (raise_irq 1 m)) 1 = true.
Proof.
  assert (H : forall x, has (x .| 1) 1 = true).
  { intros x. unfold has. apply negb_true_iff, Z.eqb_neq. rewrite Z.land_lor_distr_l. intros E.
    by apply Z.lor_eq_0_iff in E as [_ E]. }
  unfold raise_irq. by case_ifs; apply H.
Qed.

Lemma keeps_notify i m h m' : NotifyUsedBuffer i m h = Some m' -> keeps m m'.
Proof.
  intros Hn Hm. split; [by eapply NotifyUsedBuffer_ok|]. unfold NotifyUsedBuffer in Hn.
  destruct ((0 <=? i) && (i <? num_queues m)).
  - apply bind_Some in Hn as ([b q] & _ & Hn). cbn [fst snd] in Hn.
    destruct b; injection Hn as <-; by rewrite ?num_queues_raise, num_queues_set.
  - injection Hn as <-. apply num_queues_raise.
Qed.

Lemma keeps_pop i m h o q h' :
  0 <= i < num_queues m -> PopAvail (queue_at m i) h = Some (o, q, h') -> keeps m (set_queue i q m).
Proof.
  intros Hi Hp Hm. rewrite num_queues_set. split; [|done]. apply mmio_ok_set_queue; [done|].
  apply PopAvail_queue_size in Hp. rewrite Hp. by apply queue_at_size.
Qed.

Lemma GetQueue_at m i q : GetQueue m i = Some q -> i < num_queues m /\ q = queue_at m i.
Proof. unfold GetQueue. destruct (Z.ltb_spec i (num_queues m)); [|done]. by intros [= <-]. Qed.

#[local] Hint Resolve keeps_refl keeps_notify : core.

Section Keeps.
  Context {C : Type}.

Lemma send_control_keeps msg m (s : Serial C) h m' s' h' :
  send_control msg (m, s, h) = Some (m', s', h') -> keeps m m'.
Proof.
  unfold send_control. destruct (GetQueue m 2) as [vq|] eqn:Eq; [|by intros [= <- <- <-]].
  apply GetQueue_at in Eq as [Hlt ->]. destruct (negb (ready_ _)); [by intros [= <- <- <-]|].
  intros Hs. apply bind_Some in Hs as ([[o q] h1] & Hp & Hs). apply keeps_pop in Hp; [|lia].
  destruct o as [head|]; [|by injection Hs as <- <- <-].
  apply bind_Some in Hs as ([ok chain] & _ & Hs). apply bind_Some in Hs as ([h2 n] & _ & Hs).
  apply bind_Some in Hs as (h3 & _ & Hs). apply bind_Some in Hs as (m1 & Hn & Hs).
  injection Hs as <- <- <-. eapply keeps_trans; [exact Hp|by eapply keeps_notify].
Qed.

Lemma send_loop_keeps fuel i : forall data m h m' h' rest,
  0 <= i < num_queues m -> send_loop fuel i data m h = Some (m', h', rest) -> keeps m m'.
Proof.
  induction fuel as [|fuel IH]; intros data m h m' h' rest Hi; cbn [send_loop];
    (case_bool_decide; [by intros [= <- <- <-]|]); [done|].
  intros Hs. apply bind_Some in Hs as ([[o q] h1] & Hp & Hs). apply keeps_pop in Hp; [|done].
  destruct o as [head|]; [|by injection Hs as <- <- <-].
  apply bind_Some in Hs as ([ok chain] & _ & Hs). destruct (negb ok).
  - apply bind_Some in Hs as (h2 & _ & Hs). apply IH in Hs; [|by rewrite num_queues_set].
    by eapply keeps_trans.
  - apply bind_Some in Hs as ([h2 n] & _ & Hs). apply bind_Some in Hs as (h3 & _ & Hs).
    apply IH in Hs; [|by rewrite num_queues_set]. by eapply keeps_trans.
Qed.

Lemma SendData_keeps port data m (s : Serial C) h m' s' h' b :
  0 <= rx_queue port -> Serial_SendData port data (m, s, h) = Some ((m', s', h'), b) -> keeps m m' /\ s' = s.
Proof.
  intros Hr. unfold Serial_SendData. destruct (_ || _); [by intros [= <- <- <- <-]|].
  destruct (negb (guest_connected _)); [by intros [= <- <- <- <-]|].
  destruct (GetQueue m (rx_queue port)) as [vq|] eqn:Eq; [|by intros [= <- <- <- <-]].
  apply GetQueue_at in Eq as [Hlt ->]. destruct (negb (ready_ _)); [by intros [= <- <- <- <-]|].
  intros Hs. apply bind_Some in Hs as ([[m1 h1] rest] & Hl & Hs).
  apply bind_Some in Hs as (m2 & Hn & Hs). injection Hs as <- <- <- _. split; [|done].
  apply send_loop_keeps in Hl; [|done]. eapply keeps_trans; [exact Hl|by eapply keeps_notify].
Qed.
End Keeps.

(** What the transport needs of a client. *)
Class SerialClientLaws (C : Type) `{SerialClient C} := {
  data_keeps : forall p d m s h m' s' h', data_callback p d (m, s, h) = Some (m', s', h') -> keeps m m';
  open_keeps : forall p b m s h m' s' h', port_open_callback p b (m, s, h) = Some (m', s', h') -> keeps m m'
}.

Section Laws.
  Context {C : Type} `{SerialClientLaws C}.

Lemma add_ports_keeps n : forall i m (s : Serial C) h m' s' h',
  add_ports n i (m, s, h) = Some (m', s', h') -> keeps m m'.
Proof.
  induction n as [|n IH]; intros i m s h m' s' h'; cbn [add_ports]; [by intros [= <- <- <-]|].
  intros Hs. apply bind_Some in Hs as ([[m1 s1] h1] & H1 & Hs).
  apply send_control_keeps in H1. apply IH in Hs. by eapply keeps_trans.
Qed.

Lemma control_event_keeps id ev v m (s : Serial C) h m' s' h' :
  control_event id ev v (m, s, h) = Some (m', s', h') -> keeps m m'.
Proof.
  unfold control_event. case_ifs; try (by intros [= <- <- <-]).
  - apply add_ports_keeps.
  - unfold SendPortName. intros Hs. apply bind_Some in Hs as ([[m1 s1] h1] & H1 & Hs).
    apply send_control_keeps in Hs. eapply keeps_trans; [|exact Hs].
    revert H1. case_ifs; first [by intros [= <- <- <-] | apply send_control_keeps].
  - intros Hs. apply bind_Some in Hs as ([[m1 s1] h1] & H1 & Hs). injection H1 as <- <- <-.
    by eapply send_control_keeps.
  - apply open_keeps.
Qed.

Lemma port_tx_keeps i p : keeps_mmio (port_tx i p).
Proof.
  intros head m s h m' s' h' Hm. unfold port_tx. intros Hs.
  apply bind_Some in Hs as ([ok chain] & _ & Hs). destruct (negb ok).
  - apply bind_Some in Hs as (h1 & _ & Hs). by injection Hs as <- <- <-.
  - apply bind_Some in Hs as (data & _ & Hs). apply bind_Some in Hs as (h1 & _ & Hs).
    case_bool_decide; [by injection Hs as <- <- <-|]. by apply data_keeps in Hs; auto.
Qed.

Lemma control_message_keeps : keeps_mmio control_message.
Proof.
  intros head m s h m' s' h' Hm. unfold control_message. intros Hs.
  apply bind_Some in Hs as ([ok chain] & _ & Hs). destruct (negb ok).
  - apply bind_Some in Hs as (h1 & _ & Hs). by injection Hs as <- <- <-.
  - apply bind_Some in Hs as (data & _ & Hs). apply bind_Some in Hs as (h1 & _ & Hs).
    destruct (_ <? _)%nat; [by injection Hs as <- <- <-|]. by apply control_event_keeps in Hs; auto.
Qed.

Lemma drain_notify_keeps handle fuel i j m (s : Serial C) h m' s' h' :
  keeps_mmio handle -> 0 <= i < num_queues m ->
  (r ← drain handle fuel i (m, s, h);
   let '(m, s, h) := (r : world C) in
   m ← NotifyUsedBuffer j m h; Some (m, s, h)) = Some (m', s', h') -> mmio_ok m -> mmio_ok m'.
Proof.
  intros Hk Hi Hs Hm. apply bind_Some in Hs as ([[m1 s1] h1] & Hd & Hs).
  apply bind_Some in Hs as (m2 & Hn & Hs). injection Hs as <- <- <-.
  destruct (drain_mmio_ok _ _ _ _ _ _ _ _ _ Hk Hm Hi Hd) as [Hd' _]. exact (NotifyUsedBuffer_ok _ _ _ _ Hd' Hn).
Qed.

#[export] Instance Serial_VirtioDeviceLaws : VirtioDeviceLaws (Serial C).
Proof.
  constructor.
  - done.
  - intros i m s h m' s' h' Hm Hi. cbn [OnQueueNotify Serial_VirtioDeviceOps]. unfold Serial_OnQueueNotify,
      HandleControlMessage, HandlePortTx.
    generalize (Z.to_nat 65536). intros fuel.
    case_ifs; try (by intros [= <- <- <-]); bool_hyps; try subst i; intros Hs;
      refine (drain_notify_keeps _ _ _ _ _ _ _ _ _ _ _ Hi Hs Hm);
      first [apply control_message_keeps | apply port_tx_keeps].
  - intros v m s h m' s' h' Hm. cbn. unfold Serial_OnStatusChange. case_ifs; by intros [= <- <- <-].
Qed.
End Laws.

(** ** The guest's data reaches the client *)

(** The bytes given to the client for a list of requests: empty requests are
    completed without a call. *)
Definition given (datas : list bytes) : list bytes := filter (fun d => d <> []) datas.

Section Deliver.
  Context {C : Type} `{SerialClient C}.
  (** Transmit queue [i] of port [port], with its rings, at the notification;
      [safe] memory holds the requests and the available ring and is not
      touched by the used ring. *)
  Context (i port : Z) (q : VirtQueue) (h0 : HostMem) (avail used : Z) (safe : Z -> Z -> Prop).
  Context (lay : ring_layout q h0 avail used) (st : store_ok (hm_bytes h0)).
  Context (safe_avail : safe avail (6 + 2 * queue_size_ q)).
  Context (safe_outside : forall a n, safe a n -> outside q used a n).
  (** The bytes of the requests, and the client's invariant over those it was
      given so far. *)
  Context (datas : list bytes).
  Context (J : list bytes -> Mmio -> Serial C -> HostMem -> Prop).
  Context (J_stable : forall ds m m' s h h', J ds m s h -> num_queues m' = num_queues m ->
    (forall j, 0 <= j -> j <> i -> queue_at m' j = queue_at m j) -> agree (outside q used) h h' -> J ds m' s h').
  Context (client_step : forall ds data m s h, ds ++ [data] `prefix_of` given datas ->
    J ds m s h -> agree safe h0 h ->
    exists m' s' h', data_callback port data (m, s, h) = Some (m', s', h') /\ J (ds ++ [data]) m' s' h'
      /\ num_queues m' = num_queues m /\ queue_at m' i = queue_at m i /\ agree safe h h').

Definition tx_inv (k : nat) (m : Mmio) (s : Serial C) (h : HostMem) : Prop :=
  agree safe h0 h /\ J (given (take k datas)) m s h.

Lemma agree_outside_safe h h' : agree (outside q used) h h' -> agree safe h h'.
Proof. intros [Hm Hr]. split; auto. Qed.

Lemma given_prefix k : given (take k datas) `prefix_of` given datas.
Proof. exists (given (drop k datas)). unfold given. by rewrite <- filter_app, take_drop. Qed.

Lemma given_snoc k d :
  datas !! k = Some d -> given (take (S k) datas) = given (take k datas) ++ (if bool_decide (d = []) then [] else [d]).
Proof.
  intros Hd. unfold given. rewrite (take_S_r _ _ _ Hd), filter_app. f_equal.
  rewrite filter_cons, filter_nil. by case_decide; case_bool_decide.
Qed.

Lemma port_tx_step heads elems :
  Forall (in_width 32) heads -> 0 <= i ->
  Forall2 (fun head es => request_at safe q h0 head es) heads elems ->
  Forall2 (fun es d => gather_readable es h0 = Some d) elems datas ->
  handler_ok (port_tx i port) q i avail used heads tx_inv.
Proof.
  intros Hw Hi0 Hreq Hdat k head m s h q1 h1 Hk Hi Hq [Ha HJ] Hq1 He.
  destruct (Forall2_lookup_l _ _ _ _ _ Hreq Hk) as (es & Hes & Hr).
  destruct (Forall2_lookup_l _ _ _ _ _ Hdat Hes) as (d & Hd & Hg).
  pose proof (same_ring_trans _ _ _ Hq Hq1) as Hqq.
  apply same_but_event_agree in He; [|destruct lay; lia].
  pose proof (agree_trans _ _ _ _ Ha (agree_outside_safe _ _ He)) as Ha1.
  destruct (request_stable safe q q1 h0 h1 head es Hr Hqq Ha1) as [Hwalk Hgat].
  assert (Hlay1 : ring_layout q1 h1 avail used) by (eapply same_ring_layout; [exact lay|done|apply Ha1]).
  destruct (PushUsed_agree q1 h1 avail used head 0 Hlay1) as (h2 & Hp & He2); [by eapply Forall_lookup_1|by split|].
  pose proof Hqq as (Hsz & _).
  assert (He2' : agree (outside q used) h1 h2) by (eapply agree_weaken; [|exact He2]; intros ? ?; by apply outside_size).
  assert (HJ2 : J (given (take k datas)) (set_queue i q1 m) s h2).
  { eapply J_stable; [exact HJ|by rewrite num_queues_set| |by eapply agree_trans].
    intros j Hj Hne. by apply queue_at_set_ne. }
  unfold port_tx. rewrite queue_at_set by done. rewrite Hwalk. cbn [mbind option_bind negb].
  rewrite Hgat, Hg. cbn [mbind option_bind]. rewrite Hp. cbn [mbind option_bind].
  assert (Hkeep : agree safe h1 h2) by (by apply agree_outside_safe).
  pose proof (given_snoc k d Hd) as Hgs. case_bool_decide as Hne.
  - exists (set_queue i q1 m), s, h2. rewrite app_nil_r in Hgs. unfold tx_inv. rewrite Hgs, num_queues_set, queue_at_set by done.
    split_and!; try done; [by eapply agree_trans|apply Hkeep|by apply Hkeep].
  - assert (Hpre : given (take k datas) ++ [d] `prefix_of` given datas) by (rewrite <- Hgs; apply given_prefix).
    destruct (client_step _ d _ _ _ Hpre HJ2) as (m' & s' & h' & Hc & HJ' & Hn' & Hqi & Ha'); [by eapply agree_trans|].
    exists m', s', h'. unfold tx_inv. rewrite Hgs, Hn', Hqi, num_queues_set, queue_at_set by done.
    pose proof (agree_trans _ _ _ _ Hkeep Ha') as Hk'.
    split_and!; try done; [by eapply agree_trans|apply Hk'|by apply Hk'].
Qed.

(** What the guest publishes on a port's transmit queue is what the client
    gets: for requests laid out in memory that neither the used ring nor the
    client's own sending touches, one notification calls the client's data
    callback with exactly the bytes of each non-empty request, once each and
    in ring order, whatever the client does to the rest of the world in
    between (stated for any invariant of the client), completes every
    request, and raises the interrupt. *)
Theorem port_tx_delivers m s elems :
  queue_at m i = q -> 0 <= i < num_queues m -> queue_ok q ->
  Forall2 (fun head es => request_at safe q h0 head es) (published q h0 avail) elems ->
  Forall2 (fun es d => gather_readable es h0 = Some d) elems datas ->
  J [] m s h0 ->
  exists m' s' h', HandlePortTx i port (m, s, h0) = Some (m', s', h')
    /\ J (given datas) m' s' h' /\ last_avail_idx_ (queue_at m' i) = avail_idx h0 avail
    /\ has (interrupt_status_ m') 1 = true.
Proof.
  intros Hqm Hi Hok Hreq Hdat HJ0.
  pose proof (drain_published (port_tx i port) tx_inv i m s h0 avail used Hi) as HD.
  cbv zeta in HD. rewrite Hqm in HD.
  destruct (HD lay Hok st) as (m1 & s1 & h1 & Hd & _ & Hl & Hn & [_ HJ1]); clear HD.
  - apply (port_tx_step _ elems); [|lia|done|done]. apply Forall_forall. intros hd. by apply published_width.
  - by split.
  - rewrite (Forall2_length _ _ _ Hreq), (Forall2_length _ _ _ Hdat), firstn_all in HJ1.
    exists (raise_irq 1 m1), s1, h1. unfold HandlePortTx. rewrite Hd. cbn [mbind option_bind].
    split; [done|]. destruct (raise_irq_queues 1 m1) as [Hqs _]. split; [|split].
    + eapply J_stable; [exact HJ1|apply num_queues_raise| |done]. intros j _ _. unfold queue_at. by rewrite Hqs.
    + unfold queue_at in *. by rewrite Hqs.
    + apply raised_bit.
Qed.
End Deliver.
