(* ===== verification/VmSerial.v ===== *)
(** * The VM's agents on the serial device

    Models the part of core/vmm/vm.cpp that puts the SPICE agent and the
    guest agent on the ports of the virtio serial device
    ([Vm::SetupVirtioSerial]) and the requests the VM passes on to them.
    The handlers' traces of sent buffers are forwarded to the device as the
    C++ calls [SendData] while they run; sending does not look at the
    handlers.

    [guest_clipboard_delivered] composes the virtqueue, the device and the
    agent: the clipboard events a guest publishes on its serial port are the
    ones the host gets. *)

From S2P Require Import Prelude.
From S2P Require Import StdString.
From S2P Require Import Ports.
From S2P Require Import Stream.
From S2P Require Import GuestMem.
From S2P Require Import VirtQueue.
From S2P Require Import VirtioMmio.
From S2P Require Import VirtioChain.
From S2P Require Import VirtioSerial.
From S2P Require Import VdAgent.
From S2P Require Import GuestAgent.

(** The device's client: both handlers, and the numbers [GenerateSyncId]
    will draw. *)
Record Agents := mkAgents { vdagent : VDAgentHandler; guest_agent : GuestAgentHandler; sync_ids : list Z }.

Fixpoint forward (port_id : Z) (buffers : list bytes) (w : world Agents) : option (world Agents) :=
  match buffers with
  | [] => Some w
  | b :: buffers => r ← Serial_SendData port_id b w; forward port_id buffers (fst r)
  end.

(** A call of the SPICE agent's handler, on port 0. *)
Definition with_vdagent (f : VDAgentHandler -> VDAgentHandler) (w : world Agents) : option (world Agents) :=
  let '(m, s, h) := w in
  let c := client s in
  let a := f (a_set_sent [] (vdagent c)) in
  forward 0 (sent a) (m, set_client (mkAgents (a_set_sent [] a) (guest_agent c) (sync_ids c)) s, h).

(** A call of the guest agent's handler, on port 1. *)
Definition with_guest_agent (f : GuestAgentHandler -> GuestAgentHandler) (w : world Agents) : option (world Agents) :=
  let '(m, s, h) := w in
  let c := client s in
  let g := f (ga_set_sent [] (guest_agent c)) in
  forward 1 (ga_sent g) (m, set_client (mkAgents (vdagent c) (ga_set_sent [] g) (sync_ids c)) s, h).

Definition Vm_data_callback (port_id : Z) (data : bytes) (w : world Agents) : option (world Agents) :=
  if port_id =? 0 then with_vdagent (VdAgent.OnDataReceived data) w
  else if port_id =? 1 then with_guest_agent (GuestAgent.OnDataReceived data) w
  else Some w.

(** Opening draws a number; 1 stands for a generator at its end. *)
Definition Vm_port_open_callback (port_id : Z) (opened : bool) (w : world Agents) : option (world Agents) :=
  if port_id =? 1 then
    let '(m, s, h) := w in
    let c := client s in
    let sync := hd 1 (sync_ids c) in
    let s := if opened then set_client (mkAgents (vdagent c) (guest_agent c) (tl (sync_ids c))) s else s in
    with_guest_agent (OnPortOpen opened sync) (m, s, h)
  else Some w.

#[export] Instance Agents_SerialClient : SerialClient Agents := {
  data_callback := Vm_data_callback;
  port_open_callback := Vm_port_open_callback
}.

(** [SetupVirtioSerial]: [clipboard] says whether there is a clipboard port. *)
Definition SetupVirtioSerial (clipboard connected_cb : bool) (ids : list Z) : Serial Agents :=
  SetPortName 1 (str "org.qemu.guest_agent.0") (SetPortName 0 (str "com.redhat.spice.0")
    (Serial_new 2 (mkAgents (VDAgentHandler_new clipboard) (GuestAgentHandler_new connected_cb) ids))).

(** [Vm::SendClipboardGrab], [..Data], [..Request], [..Release]: always on the
    clipboard selection. *)
Definition Vm_SendClipboard (e : ClipboardEvent) : world Agents -> option (world Agents) :=
  with_vdagent (send_event (with_selection false e)).
Definition IsGuestAgentConnected (s : Serial Agents) : bool := connected_ (guest_agent (client s)).
Definition GuestAgentShutdown (mode : bytes) : world Agents -> option (world Agents) :=
  with_guest_agent (Shutdown mode).
Definition GuestAgentSyncTime (now : Z) : world Agents -> option (world Agents) :=
  with_guest_agent (SyncTime now).

(** ** The transport *)

Lemma forward_keeps port bufs : forall m s h m' s' h',
  0 <= rx_queue port -> forward port bufs (m, s, h) = Some (m', s', h') -> keeps m m' /\ s' = s.
Proof.
  induction bufs as [|b bufs IH]; intros m s h m' s' h' Hr; cbn [forward].
  - intros [= <- <- <-]. split; [apply keeps_refl|done].
  - intros Hf. apply bind_Some in Hf as ([[[m1 s1] h1] ok] & Hs & Hf). cbn [fst] in Hf.
    apply SendData_keeps in Hs as [Hk ->]; [|done]. apply IH in Hf as [Hk' ->]; [|done].
    split; [by eapply keeps_trans|done].
Qed.

Lemma with_vdagent_keeps f m s h m' s' h' : with_vdagent f (m, s, h) = Some (m', s', h') -> keeps m m'.
Proof. unfold with_vdagent. intros Hf. by apply forward_keeps in Hf as [Hk _]. Qed.

Lemma with_guest_agent_keeps f m s h m' s' h' : with_guest_agent f (m, s, h) = Some (m', s', h') -> keeps m m'.
Proof. unfold with_guest_agent. intros Hf. by apply forward_keeps in Hf as [Hk _]. Qed.

#[export] Instance Agents_SerialClientLaws : SerialClientLaws Agents.
Proof.
  split; cbn [data_callback port_open_callback Agents_SerialClient].
  - intros p d m s h m' s' h'. unfold Vm_data_callback.
    destruct (p =? 0); [apply with_vdagent_keeps|]. destruct (p =? 1); [apply with_guest_agent_keeps|].
    intros [= <- <- <-]. apply keeps_refl.
  - intros p b m s h m' s' h'. unfold Vm_port_open_callback.
    destruct (p =? 1); [apply with_guest_agent_keeps|]. intros [= <- <- <-]. apply keeps_refl.
Qed.

(** ** Clipboard events from the guest *)

(** Bytes of event messages ask for no reply: a handler that is given a part
    of them only reassembles. *)
Lemma OnDataReceived_quiet a data :
  snd (stream_run chunk_step recv_buffer_ (a_append a data)) = [] ->
  VdAgent.OnDataReceived data a = fst (stream_run chunk_step recv_buffer_ (a_append a data)).
Proof. unfold VdAgent.OnDataReceived. destruct (stream_run _ _ _) as [a' reqs]. cbn. by intros ->. Qed.

(** The handler's state after some bytes of a stream. *)
Definition after_bytes (a : VDAgentHandler) (b : bytes) : VDAgentHandler :=
  fst (stream_run chunk_step recv_buffer_ (a_append a b)).

Lemma quiet_prefix a x y :
  snd (stream_run chunk_step recv_buffer_ (a_append a (x ++ y))) = [] ->
  snd (stream_run chunk_step recv_buffer_ (a_append a x)) = []
  /\ snd (stream_run chunk_step recv_buffer_ (a_append (after_bytes a x) y)) = []
  /\ after_bytes a (x ++ y) = after_bytes (after_bytes a x) y.
Proof.
  unfold after_bytes. rewrite (append_app _ _ _ chunk_laws), (stream_run_append _ _ _ chunk_laws).
  destruct (stream_run chunk_step recv_buffer_ (a_append a x)) as [a1 o1]. cbn [fst snd].
  destruct (stream_run chunk_step recv_buffer_ (a_append a1 y)) as [a2 o2]. cbn [fst snd].
  by intros [-> ->]%app_nil.
Qed.

Lemma loop_sent fuel : forall a a' out, stream_loop chunk_step fuel a = (a', out) -> sent a' = sent a.
Proof.
  induction fuel as [|fuel IH]; intros a a' out; cbn [stream_loop]; [by intros [= <- _]|].
  pose proof (chunk_step_sent (sent a) a) as Hs.
  replace (a_set_sent (sent a) a) with a in Hs by (by destruct a).
  destruct (chunk_step a) as [[a1 o1]|]; [|by intros [= <- _]]. injection Hs as Hs.
  destruct (stream_loop chunk_step fuel a1) as [a2 o2] eqn:E. intros [= <- _]. apply IH in E.
  rewrite E, Hs. done.
Qed.

Lemma after_bytes_sent a b : sent (after_bytes a b) = sent a.
Proof.
  unfold after_bytes, stream_run. destruct (stream_loop _ _ _) as [a' o] eqn:E. by apply loop_sent in E.
Qed.

(** The client while the pieces of a quiet stream arrive on port 0. *)
Definition agent_inv (a : VDAgentHandler) (g : GuestAgentHandler) (ids : list Z)
    (ds : list bytes) (_ : Mmio) (s : Serial Agents) (_ : HostMem) : Prop :=
  client s = mkAgents (after_bytes a (concat ds)) g ids.

(** A part of a quiet stream sends nothing and touches nothing but the
    handler. *)
Lemma agent_inv_step a g ids total ds data m s h :
  sent a = [] -> snd (stream_run chunk_step recv_buffer_ (a_append a (concat total))) = [] ->
  ds ++ [data] `prefix_of` total -> agent_inv a g ids ds m s h ->
  exists s', Vm_data_callback 0 data (m, s, h) = Some (m, s', h) /\ agent_inv a g ids (ds ++ [data]) m s' h.
Proof.
  intros Hs Hq [rest ->] Hc. unfold agent_inv in *.
  rewrite concat_app in Hq. apply quiet_prefix in Hq as (Hq & _ & _).
  rewrite concat_app in Hq. cbn [concat] in Hq. rewrite app_nil_r in Hq.
  apply quiet_prefix in Hq as (_ & Hq & Hab).
  unfold Vm_data_callback, with_vdagent. cbn [Z.eqb]. rewrite Hc. cbn [vdagent guest_agent sync_ids].
  assert (Hns : a_set_sent [] (after_bytes a (concat ds)) = after_bytes a (concat ds)).
  { rewrite <- Hs, <- (after_bytes_sent a (concat ds)). by destruct (after_bytes a (concat ds)). }
  rewrite Hns, OnDataReceived_quiet by done. fold (after_bytes (after_bytes a (concat ds)) data).
  rewrite <- Hab. rewrite !after_bytes_sent, Hs. cbn [forward].
  eexists. split; [done|]. cbn [client set_client]. rewrite concat_app. cbn [concat]. rewrite app_nil_r.
  f_equal. rewrite <- Hs, <- (after_bytes_sent a (concat ds ++ data)). by destruct (after_bytes a (concat ds ++ data)).
Qed.

(** C9. Clipboard events from the guest reach the host, through the queue, the
    device and the agent.  When the guest's agent writes the messages of any
    events to its port, cut into requests at will, and the driver publishes
    the requests on the transmit queue, one notification makes the VM report
    exactly these events, in order, and leaves its handler between messages,
    the guest agent's handler untouched, and the interrupt raised. *)
Theorem guest_clipboard_delivered m s h avail used elems datas cap es a g ids :
  let q := queue_at m 1 in
  1 < num_queues m -> ring_layout q h avail used -> queue_ok q -> store_ok (hm_bytes h) ->
  Forall2 (fun head es => request_at (outside q used) q h head es) (published q h avail) elems ->
  Forall2 (fun es d => gather_readable es h = Some d) elems datas ->
  client s = mkAgents a g ids -> ready cap a -> sent a = [] -> Forall event_ok es ->
  concat datas = concat (flat_map (event_chunks cap) es) ->
  exists m' s' h' a', Serial_OnQueueNotify 1 (m, s, h) = Some (m', s', h')
    /\ client s' = mkAgents a' g ids
    /\ clip_events a' = clip_events a ++ map (with_selection cap) es /\ ready cap a'
    /\ last_avail_idx_ (queue_at m' 1) = avail_idx h avail /\ has (interrupt_status_ m') 1 = true.
Proof.
  intros q Hn Hlay Hok Hst Hreq Hdat Hc Hr Hs He Hd.
  assert (Hg : concat (given datas) = concat datas).
  { clear. unfold given. induction datas as [|d datas IH]; [done|]. rewrite filter_cons. cbn [concat].
    case_decide as Hx; cbn [concat]; rewrite IH; [done|]. by destruct d. }
  destruct (run_events cap es a Hr He) as (a' & Hrun & Hr' & Hev). rewrite <- Hd, <- Hg in Hrun.
  assert (Ha' : after_bytes a (concat (given datas)) = a') by (unfold after_bytes; by rewrite Hrun).
  destruct (port_tx_delivers 1 0 q h avail used (outside q used) Hlay Hst) with
    (datas := datas) (J := agent_inv a g ids) (m := m) (s := s) (elems := elems)
    as (m' & s' & h' & Ht & HJ & Hl & Hi); try done.
  - destruct Hlay. unfold outside. lia.
  - intros ds data m0 s0 h0 Hp HJ _.
    destruct (agent_inv_step a g ids (given datas) ds data m0 s0 h0) as (s1 & Hcb & HJ1); try done.
    { by rewrite Hrun. }
    exists m0, s1, h0. by split_and!.
  - unfold agent_inv. rewrite Hc. cbn [concat]. unfold after_bytes. rewrite (append_nil _ _ _ chunk_laws).
    by rewrite run_empty by apply Hr.
  - exists m', s', h', a'. split; [exact Ht|]. unfold agent_inv in HJ. rewrite Ha' in HJ. done.
Qed.

(** ** A concrete run *)

Definition demo_es : list ClipboardEvent := [clip_grab 0 [1]; clip_request 0 2].
Definition demo_stream : bytes := concat (flat_map (event_chunks true) demo_es).

(** Two requests: the first 10 bytes of the stream and the rest. *)
Definition serial_mem : HostMem :=
  MkHostMem demo_map
    (poke (poke (poke (poke (poke ∅ 0x1000 (demo_desc 0x4000 10 0 0))
                 0x1010 (demo_desc 0x5000 (Z.of_nat (length demo_stream) - 10) 0 0))
             0x2000 (le_bytes 2 0 ++ le_bytes 2 2 ++ le_bytes 2 0 ++ le_bytes 2 1))
         0x4000 (take 10 demo_stream))
     0x5000 (drop 10 demo_stream)).
Definition serial_transport : Mmio := set_queues [VirtQueue_new; demo_queue] (Mmio_new false true false).
Definition serial_device : Serial Agents :=
  set_client (mkAgents (a_set_sent [] announced) (GuestAgentHandler_new true) []) (SetupVirtioSerial true true []).

Lemma demo_stream_ok : bytes_ok demo_stream.
Proof. unfold bytes_ok. vm_compute. repeat (constructor; [split; [discriminate|reflexivity]|]). constructor. Qed.

Lemma serial_mem_ok : store_ok (hm_bytes serial_mem).
Proof.
  unfold serial_mem, demo_desc, hm_bytes. pose proof demo_stream_ok.
  repeat apply store_ok_poke; try (by apply map_Forall_empty); try (by apply Forall_take); try (by apply Forall_drop);
    repeat (apply Forall_app_2; [apply le_bytes_ok|]); apply le_bytes_ok.
Qed.

Lemma guest_clipboard_delivered_witness :
  exists m' s' h' a', Serial_OnQueueNotify 1 (serial_transport, serial_device, serial_mem) = Some (m', s', h')
    /\ client s' = mkAgents a' (GuestAgentHandler_new true) []
    /\ clip_events a' = demo_es /\ ready true a'
    /\ last_avail_idx_ (queue_at m' 1) = 2 /\ has (interrupt_status_ m') 1 = true.
Proof.
  apply (guest_clipboard_delivered serial_transport serial_device serial_mem 0x2000 0x3000
    [[MkElem 0x4000 10 false]; [MkElem 0x5000 (Z.of_nat (length demo_stream) - 10) false]]
    [take 10 demo_stream; drop 10 demo_stream] true demo_es (a_set_sent [] announced)).
  - reflexivity.
  - constructor; try reflexivity; vm_compute; try (split; discriminate). by left.
  - split; [reflexivity|]. split; vm_compute; [discriminate|reflexivity].
  - exact serial_mem_ok.
  - assert (Hp : published (queue_at serial_transport 1) serial_mem 0x2000 = [0; 1]) by (by vm_compute).
    assert (Hm : hm_map serial_mem = demo_map) by done. rewrite Hp.
    constructor; [|constructor; [|constructor]].
    + single_request 0 0x1000 (MkVirtqDesc 0x4000 10 0 0) 0x4000.
    + single_request 1 0x1010 (MkVirtqDesc 0x5000 (Z.of_nat (length demo_stream) - 10) 0 0) 0x5000.
  - constructor; [|constructor; [|constructor]]; vm_compute; reflexivity.
  - reflexivity.
  - vm_compute. intuition discriminate.
  - reflexivity.
  - repeat constructor; vm_compute; intuition discriminate.
  - vm_compute. reflexivity.
Defined.
