(* ===== verification/NetPacket.v ===== *)
(** * Packets

    Models core/net/net_packet.h and core/net/frame_builder.h: header fields,
    the Internet checksum, its incremental update, and the frames built for
    the guest.  A frame is a list of bytes; multi-byte fields are in network
    order, [get] is a field in host order ([ntohs], [ntohl]) and [put] stores
    one ([htons], [htonl]).

    The checksum theory: folding keeps a sum modulo 65535
    ([ones_fold_mod]), so a recomputed header verifies
    ([RecalcIpChecksum_ok]) and an incremental update keeps a segment valid
    without reading it ([IncrementalCksumUpdate_mod], RFC 1624);
    [rewrite_endpoint_ok] is the address rewriting of a whole frame. *)

From S2P Require Import Prelude.
From S2P Require Import StdString.

(** ** Fields *)

Definition get (n off : nat) (f : bytes) : Z := be_val (take n (drop off f)).
Definition put (n off : nat) (v : Z) (f : bytes) : bytes := take off f ++ be_bytes n v ++ drop (off + n) f.

Definition sizeof_EthHdr : nat := 14.
Definition sizeof_IpHdr : nat := 20.
Definition sizeof_TcpHdr : nat := 20.
Definition sizeof_UdpHdr : nat := 8.
Definition sizeof_DhcpMsg : nat := 240.

(** Offsets in a frame: the Ethernet type, and the members of [IpHdr]. *)
Definition o_eth_type : nat := 12.
Definition o_ver_ihl : nat := 14.
Definition o_total_len : nat := 16.
Definition o_id : nat := 18.
Definition o_ttl : nat := 22.
Definition o_proto : nat := 23.
Definition o_checksum : nat := 24.
Definition o_src_ip : nat := 26.
Definition o_dst_ip : nat := 30.

Definition IPPROTO_ICMP := 1.
Definition IPPROTO_TCP := 6.
Definition IPPROTO_UDP := 17.

(** [(ip->ver_ihl & 0xF) * 4]. *)
Definition ip_hdr_len (f : bytes) : nat := Z.to_nat ((get 1 o_ver_ihl f .& 0xF) * 4).

(** Where the transport header starts. *)
Definition l4_off (f : bytes) : nat := sizeof_EthHdr + ip_hdr_len f.

(** ** Checksums *)

(** The [while] loop; two iterations bring any 32-bit sum below 2^16
    ([fold_loop_eq]). *)
Fixpoint fold_loop (fuel : nat) (sum : Z) : Z :=
  match fuel with
  | O => sum
  | S fuel => if negb (sum .>> 16 =? 0) then fold_loop fuel ((sum .& 0xFFFF) + (sum .>> 16)) else sum
  end.
Definition ChecksumFold (sum : Z) : Z := bnot 16 (fold_loop 2 sum).

Fixpoint partial_loop (sum : Z) (p : bytes) : Z :=
  match p with
  | a :: b :: p => partial_loop (u32 (sum + ((a .<< 8) .| b))) p
  | [a] => u32 (sum + (a .<< 8))
  | [] => sum
  end.
Definition ChecksumPartial (p : bytes) : Z := partial_loop 0 p.

(** [None] when the header length claims bytes behind the frame. *)
Definition RecalcIpChecksum (f : bytes) : option bytes :=
  let f := put 2 o_checksum 0 f in
  let hdr_len := ip_hdr_len f in
  if (length f <? sizeof_EthHdr + hdr_len)%nat then None
  else Some (put 2 o_checksum (ChecksumFold (ChecksumPartial (take hdr_len (drop sizeof_EthHdr f)))) f).

(** The new checksum; all arguments in host order. *)
Definition IncrementalCksumUpdate (cksum old_ip new_ip old_port new_port : Z) : Z :=
  let sum := bnot 16 cksum in
  let sum := u32 (sum + bnot 16 (old_ip .>> 16)) in
  let sum := u32 (sum + ((new_ip .>> 16) .& 0xFFFF)) in
  let sum := u32 (sum + bnot 16 (old_ip .& 0xFFFF)) in
  let sum := u32 (sum + (new_ip .& 0xFFFF)) in
  let sum := u32 (sum + bnot 16 old_port) in
  let sum := u32 (sum + new_port) in
  ChecksumFold sum.

(** ** Frames for the guest *)

(** The Ethernet and IP headers of [BuildIpFrame] and [BuildUdpFrame]; [id]
    is what [rand()] returned. *)
Definition ip_frame_headers (dst_mac src_mac : bytes) (src_ip dst_ip proto l4_len id : Z) : bytes :=
  dst_mac ++ src_mac ++ be_bytes 2 0x0800
  ++ [0x45; 0] ++ be_bytes 2 (u16 (20 + l4_len)) ++ be_bytes 2 (u16 id) ++ [0; 0; 64; proto]
  ++ be_bytes 2 0 ++ be_bytes 4 src_ip ++ be_bytes 4 dst_ip.

Definition BuildIpFrame (dst_mac src_mac : bytes) (src_ip dst_ip proto : Z) (payload : bytes) (id : Z) : option bytes :=
  RecalcIpChecksum (ip_frame_headers dst_mac src_mac src_ip dst_ip proto (Z.of_nat (length payload)) id ++ payload).

Definition BuildUdpFrame (dst_mac src_mac : bytes) (src_ip dst_ip src_port dst_port : Z) (payload : bytes) (id : Z)
    : option bytes :=
  let l4_len := 8 + Z.of_nat (length payload) in
  RecalcIpChecksum (ip_frame_headers dst_mac src_mac src_ip dst_ip IPPROTO_UDP l4_len id
    ++ be_bytes 2 src_port ++ be_bytes 2 dst_port ++ be_bytes 2 (u16 l4_len) ++ be_bytes 2 0 ++ payload).

(** ** Lemmas on fields *)

Lemma length_put n off v f : (off + n <= length f)%nat -> length (put n off v f) = length f.
Proof. intros H. unfold put. rewrite !length_app, length_be_bytes, length_take, length_drop. lia. Qed.

Lemma get_put n off v f :
  (off + n <= length f)%nat -> in_width (8 * Z.of_nat n) v -> get n off (put n off v f) = v.
Proof.
  intros Hl Hv. unfold get, put. rewrite (drop_app_length' (take off f)) by (rewrite length_take; lia).
  rewrite (take_app_length' (be_bytes n v)) by (by rewrite length_be_bytes).
  rewrite be_val_be_bytes. apply Z.mod_small. unfold in_width in Hv. by rewrite Z.pow_mul_r in Hv by lia.
Qed.

(** A byte of the frame after a store. *)
Lemma lookup_put_ne n off v f i :
  (off + n <= length f)%nat -> (i < off \/ off + n <= i)%nat -> put n off v f !! i = f !! i.
Proof.
  intros Hl Hi. unfold put. destruct Hi as [Hi|Hi].
  - rewrite lookup_app_l by (rewrite length_take; lia). by rewrite lookup_take_lt.
  - rewrite lookup_app_r by (rewrite length_take; lia). rewrite lookup_app_r by (rewrite length_be_bytes, length_take; lia).
    rewrite lookup_drop. f_equal. rewrite length_be_bytes, length_take. lia.
Qed.

(** Two frames with the same bytes in a range have the same field there. *)
Lemma get_ext n off f g :
  (forall i, (off <= i < off + n)%nat -> f !! i = g !! i) -> get n off f = get n off g.
Proof.
  intros H. unfold get. f_equal. apply list_eq. intros i. destruct (decide (i < n)%nat).
  - rewrite !lookup_take_lt, !lookup_drop by done. apply H. lia.
  - by rewrite !lookup_take_ge by lia.
Qed.

Lemma get_put_ne n m off off' v f :
  (off + n <= length f)%nat -> (off' + m <= off \/ off + n <= off')%nat -> get m off' (put n off v f) = get m off' f.
Proof. intros Hl Hd. apply get_ext. intros i Hi. apply lookup_put_ne; lia. Qed.

Lemma put_ok n off v f : bytes_ok f -> bytes_ok (put n off v f).
Proof.
  intros H. unfold put. apply Forall_app_2; [by apply Forall_take|].
  apply Forall_app_2; [apply be_bytes_ok|by apply Forall_drop].
Qed.

Lemma get_width n off f : bytes_ok f -> in_width (8 * Z.of_nat n) (get n off f).
Proof.
  intros Hf. unfold get. assert (Ht : bytes_ok (take n (drop off f))) by (by apply Forall_take, Forall_drop).
  pose proof (be_val_bound _ Ht) as [Hb1 Hb2]. split; [done|]. eapply Z.lt_le_trans; [exact Hb2|].
  rewrite Z.pow_mul_r by lia. change (2 ^ 8) with 256. apply Z.pow_le_mono_r; [lia|]. rewrite length_take. lia.
Qed.

(** Deciding [bytes_ok]. *)
Definition bytes_okb (l : bytes) : bool := forallb (fun z => (0 <=? z) && (z <? 256)) l.

Lemma bytes_okb_ok l : bytes_okb l = true -> bytes_ok l.
Proof.
  intros H. apply Forall_forall. intros z Hz. apply list_elem_of_In in Hz.
  pose proof (proj1 (forallb_forall _ _) H z Hz) as E. cbn beta in E. bool_hyps. split; [done|]. change (2 ^ 8) with 256. lia.
Qed.

(** Storing what is there changes nothing. *)
Lemma put_get n off f : bytes_ok f -> (off + n <= length f)%nat -> put n off (get n off f) f = f.
Proof.
  intros Hf Hl. unfold put, get.
  assert (Ht : bytes_ok (take n (drop off f))) by (by apply Forall_take, Forall_drop).
  pose proof (be_bytes_be_val _ Ht) as E. rewrite length_take, length_drop in E.
  rewrite Nat.min_l in E by lia. rewrite E, <- drop_drop. by rewrite !take_drop.
Qed.

(** A part of the frame after a store inside it, and after one before it. *)
Lemma seg_put_in n m base off v f :
  (off + n <= m)%nat -> (base + m <= length f)%nat ->
  take m (drop base (put n (base + off) v f)) = put n off v (take m (drop base f)).
Proof.
  intros Hm Hl.
  assert (Hlen : length (take m (drop base f)) = m) by (rewrite length_take, length_drop; lia).
  apply list_eq. intros i. destruct (decide (i < m)%nat) as [Hi|Hi].
  - rewrite lookup_take_lt, lookup_drop by done. destruct (decide (off <= i < off + n)%nat) as [Hin|Hout].
    + unfold put. rewrite lookup_app_r by (rewrite length_take; lia).
      rewrite lookup_app_l by (rewrite length_be_bytes, length_take; lia).
      rewrite (lookup_app_r (take off _)) by (rewrite length_take; lia).
      rewrite lookup_app_l by (rewrite length_be_bytes, length_take; lia).
      f_equal. rewrite !length_take, length_drop. lia.
    + rewrite !lookup_put_ne by lia. rewrite lookup_take_lt, lookup_drop by done. reflexivity.
  - rewrite lookup_take_ge by lia. symmetry. apply lookup_ge_None_2. rewrite length_put; lia.
Qed.

Lemma seg_put_before n m base off v f :
  (off + n <= base)%nat -> (base + m <= length f)%nat ->
  take m (drop base (put n off v f)) = take m (drop base f).
Proof.
  intros Hm Hl. apply list_eq. intros i. destruct (decide (i < m)%nat) as [Hi|Hi].
  - rewrite !lookup_take_lt, !lookup_drop by done. apply lookup_put_ne; lia.
  - by rewrite !lookup_take_ge by lia.
Qed.

Lemma seg_get n m base off f : (off + n <= m)%nat -> get n off (take m (drop base f)) = get n (base + off) f.
Proof.
  intros H. unfold get. f_equal. apply list_eq. intros i. destruct (decide (i < n)%nat).
  - rewrite !lookup_take_lt, !lookup_drop by done. rewrite lookup_take_lt, lookup_drop by lia. f_equal. lia.
  - by rewrite !lookup_take_ge by lia.
Qed.

(** ** One's complement sums *)

(** The sum of the 16-bit words, unbounded; the last byte of an odd length
    is the high half of a word. *)
Fixpoint wsum (p : bytes) : Z :=
  match p with
  | a :: b :: p => a * 256 + b + wsum p
  | [a] => a * 256
  | [] => 0
  end.

(** The end of the folding loop in closed form. *)
Definition ones_fold (s : Z) : Z := if s =? 0 then 0 else (s - 1) mod 65535 + 1.

Lemma fold_step s : 0 <= s -> ones_fold ((s .& 0xFFFF) + (s .>> 16)) = ones_fold s.
Proof.
  intros Hs. change 0xFFFF with (Z.ones 16). rewrite Z.land_ones, Z.shiftr_div_pow2 by lia.
  change (2 ^ 16) with 65536. unfold ones_fold.
  pose proof (Z.div_mod s 65536 ltac:(lia)) as E. pose proof (Z.mod_pos_bound s 65536 ltac:(lia)) as Hm.
  assert (Hd : 0 <= s / 65536) by (apply Z.div_pos; lia).
  destruct (Z.eqb_spec s 0) as [->|Hn]; [done|].
  destruct (Z.eqb_spec (s mod 65536 + s / 65536) 0) as [Hz|Hz]; [lia|].
  f_equal. rewrite E at 3. rewrite <- (Z_mod_plus_full (s mod 65536 + s / 65536 - 1) (s / 65536) 65535). f_equal. lia.
Qed.

Lemma fold_small s : 0 <= s < 65536 -> s = ones_fold s.
Proof. intros H. unfold ones_fold. destruct (Z.eqb_spec s 0); [done|]. rewrite Z.mod_small by lia. lia. Qed.

(** Two iterations end the loop on every 32-bit sum. *)
Lemma fold_loop_eq s : in_width 32 s -> fold_loop 2 s = ones_fold s.
Proof.
  intros [Hs0 Hs]. change (2 ^ 32) with 4294967296 in Hs.
  assert (Hb : forall x, 0 <= x -> (x .& 0xFFFF) + (x .>> 16) = x mod 65536 + x / 65536).
  { intros x Hx. change 0xFFFF with (Z.ones 16). by rewrite Z.land_ones, Z.shiftr_div_pow2 by lia. }
  assert (Hc : forall x, 0 <= x -> (x .>> 16 =? 0) = true -> x < 65536).
  { intros x Hx H. apply Z.eqb_eq in H. rewrite Z.shiftr_div_pow2 in H by lia. apply Z.div_small_iff in H; lia. }
  cbn [fold_loop]. destruct (s .>> 16 =? 0) eqn:E1; cbn [negb].
  - apply fold_small. split; [done|]. by apply Hc.
  - rewrite <- (fold_step s) by done. set (t := _ + _). assert (Ht : 0 <= t < 131071).
    { unfold t. rewrite Hb by done. dlia. }
    destruct (t .>> 16 =? 0) eqn:E2; cbn [negb].
    + apply fold_small. split; [lia|]. apply Hc; [lia|done].
    + rewrite <- (fold_step t) by lia. apply fold_small. rewrite Hb by lia. dlia.
Qed.

Lemma ones_fold_bound s : 0 <= ones_fold s <= 65535.
Proof. unfold ones_fold. case_ifs; [lia|]. pose proof (Z.mod_pos_bound (s - 1) 65535). lia. Qed.

(** Folding keeps the sum modulo 65535. *)
Lemma ones_fold_mod s : ones_fold s mod 65535 = s mod 65535.
Proof.
  unfold ones_fold. destruct (Z.eqb_spec s 0) as [->|_]; [done|]. rewrite Zplus_mod_idemp_l. f_equal. lia.
Qed.

Lemma bnot_16 x : in_width 16 x -> bnot 16 x = 65535 - x.
Proof.
  intros [Hx1 Hx2]. change (2 ^ 16) with 65536 in Hx2. unfold bnot, wrap, Z.lnot. change (2 ^ 16) with 65536.
  rewrite <- (Z_mod_plus_full _ 1 65536), Z.mod_small; lia.
Qed.

Lemma ChecksumFold_eq s : in_width 32 s -> ChecksumFold s = 65535 - ones_fold s.
Proof.
  intros Hs. unfold ChecksumFold. rewrite fold_loop_eq by done. pose proof (ones_fold_bound s).
  apply bnot_16. split; [lia|]. change (2 ^ 16) with 65536. lia.
Qed.

(** What a receiver checks: the words with the checksum among them add up to
    zero in one's complement, in the form that is all ones. *)
Definition sum_ok (s : Z) : Prop := 0 < s /\ s mod 65535 = 0.

Lemma sum_ok_fold s : in_width 32 s -> sum_ok s <-> ChecksumFold s = 0.
Proof.
  intros Hs. rewrite ChecksumFold_eq by done. destruct Hs as [Hs0 _]. unfold sum_ok, ones_fold.
  destruct (Z.eqb_spec s 0) as [->|Hn]; [lia|]. split.
  - intros [_ H]. apply Z.mod_divide in H as [k Hk]; [|done]. subst s.
    replace (k * 65535 - 1) with (65534 + (k - 1) * 65535) by lia. rewrite Z_mod_plus_full. by rewrite Z.mod_small by lia.
  - intros H. split; [lia|]. assert (E : (s - 1) mod 65535 = 65534) by lia.
    replace s with ((s - 1) + 1) by lia. by rewrite <- Zplus_mod_idemp_l, E.
Qed.

(** A checksum computed over words that hold zero in its place makes the
    sum right. *)
Lemma checksum_completes s : in_width 32 s -> sum_ok (s + ChecksumFold s).
Proof.
  intros Hs. rewrite ChecksumFold_eq by done. pose proof (ones_fold_mod s) as Hm. pose proof (ones_fold_bound s) as Hb.
  destruct Hs as [Hs0 _]. split.
  - destruct (Z.eq_dec s 0) as [->|]; [done|]. lia.
  - replace (s + (65535 - ones_fold s)) with (s - ones_fold s + 1 * 65535) by lia. rewrite Z_mod_plus_full.
    by rewrite Zminus_mod, Hm, Z.sub_diag.
Qed.

Lemma wsum_app p q : Nat.Even (length p) -> wsum (p ++ q) = wsum p + wsum q.
Proof.
  intros [k Hk]. revert p Hk. induction k as [|k IH]; intros p Hk.
  - destruct p; [done|simpl in Hk; lia].
  - destruct p as [|a [|b p]]; [simpl in Hk; lia..|]. simpl in Hk. change ((a :: b :: p) ++ q) with (a :: b :: (p ++ q)).
    cbn [wsum]. rewrite IH by lia. lia.
Qed.

Lemma wsum_be v : wsum (be_bytes 2 v) = v mod 65536.
Proof. cbn [be_bytes le_bytes rev app wsum]. dlia. Qed.

Lemma wsum_nonneg p : bytes_ok p -> 0 <= wsum p <= 65535 * Z.of_nat (length p).
Proof.
  enough (H : forall n p, (length p < n)%nat -> bytes_ok p -> 0 <= wsum p <= 65535 * Z.of_nat (length p)) by eauto.
  clear p. induction n as [|n IH]; intros p Hl Hp; [lia|].
  destruct p as [|a [|b p]]; [simpl; lia| |].
  - inversion Hp as [|? ? [Ha1 Ha2] _]; subst. change (2 ^ 8) with 256 in *. simpl. lia.
  - inversion Hp as [|? ? [Ha1 Ha2] Hp']; subst. inversion Hp' as [|? ? [Hb1 Hb2] Hp'']; subst.
    change (2 ^ 8) with 256 in *. cbn [wsum length]. simpl in Hl. specialize (IH p ltac:(lia) Hp''). lia.
Qed.

(** Storing a word at an even offset. *)
Lemma wsum_put off v p :
  bytes_ok p -> Nat.Even off -> (off + 2 <= length p)%nat -> in_width 16 v ->
  wsum (put 2 off v p) = wsum p - get 2 off p + v.
Proof.
  intros Hp He Hl Hv. pose proof (put_get 2 off p Hp Hl) as E.
  assert (Hg : in_width 16 (get 2 off p)) by exact (get_width 2 off p Hp).
  assert (Hs : forall x, in_width 16 x -> wsum (put 2 off x p) = wsum (take off p) + x + wsum (drop (off + 2) p)).
  { intros x [Hx1 Hx2]. unfold put. rewrite wsum_app.
    2:{ rewrite length_take, Nat.min_l by lia. exact He. }
    rewrite wsum_app by (rewrite length_be_bytes; by exists 1%nat). rewrite wsum_be.
    change (2 ^ 16) with 65536 in Hx2. rewrite Z.mod_small by lia. lia. }
  rewrite <- E at 2. rewrite !Hs by done. lia.
Qed.

Lemma partial_loop_eq p : bytes_ok p -> forall s, partial_loop (u32 s) p = u32 (s + wsum p).
Proof.
  enough (H : forall n p, (length p < n)%nat -> bytes_ok p -> forall s, partial_loop (u32 s) p = u32 (s + wsum p)) by eauto.
  clear p. induction n as [|n IH]; intros p Hl Hp s; [lia|].
  destruct p as [|a [|b p]].
  - cbn [partial_loop wsum]. by rewrite Z.add_0_r.
  - cbn [partial_loop wsum]. rewrite wrap_add_l. by rewrite Z.shiftl_mul_pow2 by lia.
  - inversion Hp as [|? ? Ha Hp']; subst. inversion Hp' as [|? ? Hb Hp'']; subst. cbn [partial_loop].
    simpl in Hl. rewrite wrap_add_l, IH by (try lia; done). f_equal. cbn [wsum].
    rewrite lor_shiftl_add by (lia || done). change (2 ^ 8) with 256. lia.
Qed.

Lemma ChecksumPartial_eq p : bytes_ok p -> ChecksumPartial p = u32 (wsum p).
Proof. intros Hp. unfold ChecksumPartial. change 0 with (u32 0) at 1. by rewrite partial_loop_eq. Qed.

(** ** Valid packets *)

Definition ip_header (f : bytes) : bytes := take (ip_hdr_len f) (drop sizeof_EthHdr f).

(** The length of the transport segment, without Ethernet padding. *)
Definition l4_len (f : bytes) : nat := (Z.to_nat (get 2 o_total_len f) - ip_hdr_len f)%nat.
Definition l4_seg (f : bytes) : bytes := take (l4_len f) (drop (l4_off f) f).

(** The words of the pseudo header. *)
Definition pseudo_sum (f : bytes) : Z :=
  get 2 o_src_ip f + get 2 (o_src_ip + 2) f + (get 2 o_dst_ip f + get 2 (o_dst_ip + 2) f)
  + get 1 o_proto f + Z.of_nat (l4_len f).

(** The IP header's and the transport's checksum, as a receiver checks them. *)
Definition ip_ok (f : bytes) : Prop := sum_ok (wsum (ip_header f)).
Definition l4_ok (f : bytes) : Prop := sum_ok (pseudo_sum f + wsum (l4_seg f)).

(** A frame that holds an IP header with its segment. *)
Record ip_frame (f : bytes) : Prop := {
  ipf_bytes : bytes_ok f;
  ipf_ihl : (20 <= ip_hdr_len f)%nat;
  ipf_len : (l4_off f + l4_len f <= length f)%nat
}.

Lemma ip_hdr_len_put n off v f :
  (off + n <= length f)%nat -> (off + n <= o_ver_ihl \/ o_ver_ihl + 1 <= off)%nat ->
  ip_hdr_len (put n off v f) = ip_hdr_len f.
Proof. intros Hl Ho. unfold ip_hdr_len. rewrite get_put_ne by lia. reflexivity. Qed.

Lemma ip_hdr_len_even f : Nat.Even (ip_hdr_len f).
Proof.
  exists (Z.to_nat ((get 1 o_ver_ihl f .& 0xF) * 2)). unfold ip_hdr_len.
  assert (0 <= get 1 o_ver_ihl f .& 0xF) by (apply Z.land_nonneg; right; done). lia.
Qed.

Lemma ip_hdr_len_le f : (ip_hdr_len f <= 60)%nat.
Proof.
  unfold ip_hdr_len. change 0xF with (Z.ones 4). rewrite Z.land_ones by lia.
  pose proof (Z.mod_pos_bound (get 1 o_ver_ihl f) (2 ^ 4) ltac:(lia)). change (2 ^ 4) with 16 in *. lia.
Qed.

(** The checksum of a header is stored and the header then verifies. *)
Lemma RecalcIpChecksum_ok f :
  bytes_ok f -> (12 <= ip_hdr_len f)%nat -> (l4_off f <= length f)%nat ->
  exists c, in_width 16 c /\ RecalcIpChecksum f = Some (put 2 o_checksum c f) /\ ip_ok (put 2 o_checksum c f).
Proof.
  intros Hf Hi Hl. unfold l4_off, sizeof_EthHdr in Hl. pose proof (ip_hdr_len_le f) as Hle.
  set (f0 := put 2 o_checksum 0 f).
  assert (Hb : (o_checksum + 2 <= length f)%nat) by (unfold o_checksum; lia).
  assert (H0 : bytes_ok f0) by by apply put_ok.
  assert (Hihl : forall c, ip_hdr_len (put 2 o_checksum c f) = ip_hdr_len f).
  { intros c. apply ip_hdr_len_put; [done|]. unfold o_ver_ihl, o_checksum. lia. }
  set (s := wsum (take (ip_hdr_len f) (drop 14 f0))).
  assert (Hs : in_width 32 s).
  { assert (Ht : bytes_ok (take (ip_hdr_len f) (drop 14 f0))) by (by apply Forall_take, Forall_drop).
    pose proof (wsum_nonneg _ Ht) as Hw. rewrite length_take in Hw. split; [apply Hw|].
    change (2 ^ 32) with 4294967296. unfold s. lia. }
  exists (ChecksumFold s). split; [apply wrap_in_width; lia|].
  assert (Hpp : forall c, put 2 o_checksum c f0 = put 2 o_checksum c f).
  { intros c. unfold f0, put at 1. unfold put at 3. f_equal; [|f_equal].
    - unfold put. apply take_app_length'. rewrite length_take. lia.
    - unfold put. rewrite app_assoc. apply drop_app_length'. rewrite length_app, length_take, length_be_bytes. lia. }
  split.
  - unfold RecalcIpChecksum. fold f0. unfold f0 at 1 2. rewrite Hihl, length_put by done. unfold sizeof_EthHdr.
    destruct (Nat.ltb_spec (length f) (14 + ip_hdr_len f)); [lia|].
    rewrite ChecksumPartial_eq by (by apply Forall_take, Forall_drop). rewrite <- Hpp. unfold f0 at 1. rewrite Hihl.
    fold s. by rewrite wrap_small.
  - unfold ip_ok, ip_header. rewrite Hihl. rewrite <- Hpp. unfold sizeof_EthHdr.
    change o_checksum with (14 + 10)%nat at 1.
    assert (Hl0 : length f0 = length f) by by apply length_put.
    rewrite seg_put_in by (rewrite ?Hl0; lia).
    rewrite wsum_put; [|by apply Forall_take, Forall_drop|by exists 5%nat| |apply wrap_in_width; lia].
    2:{ rewrite length_take, length_drop, Hl0. lia. }
    fold s. rewrite seg_get by lia. change (14 + 10)%nat with o_checksum. unfold f0.
    rewrite get_put by (done || by vm_compute). rewrite Z.sub_0_r. by apply checksum_completes.
Qed.

(** A 32-bit field is its two words. *)
Lemma get_4_2 off f : (off + 4 <= length f)%nat -> get 4 off f = get 2 off f * 65536 + get 2 (off + 2) f.
Proof.
  intros Hl. unfold get. rewrite <- (drop_drop f 2 off). set (g := drop off f).
  assert (Hg : (4 <= length g)%nat) by (unfold g; rewrite length_drop; lia).
  destruct g as [|a [|b [|c [|d g]]]]; simpl in Hg; [lia..|]. unfold be_val. simpl. lia.
Qed.

Lemma get_put_4_2 off v f :
  (off + 4 <= length f)%nat -> bytes_ok f -> in_width 32 v ->
  get 2 off (put 4 off v f) = v / 65536 /\ get 2 (off + 2) (put 4 off v f) = v mod 65536.
Proof.
  intros Hl Hf Hv. pose proof (put_ok 4 off v f Hf) as Hp.
  pose proof (get_4_2 off (put 4 off v f) ltac:(rewrite length_put; lia)) as E. rewrite get_put in E by done.
  pose proof (get_width 2 off _ Hp) as [A1 A2]. pose proof (get_width 2 (off + 2) _ Hp) as [B1 B2].
  change (2 ^ (8 * Z.of_nat 2)) with 65536 in *. dlia.
Qed.

(** The updated checksum differs from the old one by what the fields
    changed. *)
Lemma IncrementalCksumUpdate_mod cksum old_ip new_ip old_port new_port :
  in_width 16 cksum -> in_width 32 old_ip -> in_width 32 new_ip -> in_width 16 old_port -> in_width 16 new_port ->
  (IncrementalCksumUpdate cksum old_ip new_ip old_port new_port
   + (new_ip / 65536 + new_ip mod 65536 + new_port)) mod 65535
  = (cksum + (old_ip / 65536 + old_ip mod 65536 + old_port)) mod 65535.
Proof.
  intros Hc Hoi Hni Hop Hnp.
  assert (Hsh : forall x, in_width 32 x -> x .>> 16 = x / 65536 /\ in_width 16 (x / 65536)).
  { intros x [Hx1 Hx2]. rewrite Z.shiftr_div_pow2 by lia. split; [done|].
    change (2 ^ 32) with 4294967296 in Hx2. split; [dlia|change (2 ^ 16) with 65536; dlia]. }
  assert (Hlo : forall x, x .& 0xFFFF = x mod 65536 /\ in_width 16 (x mod 65536)).
  { intros x. change 0xFFFF with (Z.ones 16). rewrite Z.land_ones by lia. split; [done|]. apply Z.mod_pos_bound. lia. }
  destruct (Hsh old_ip Hoi) as [Eoh Woh]. destruct (Hsh new_ip Hni) as [Enh Wnh].
  destruct (Hlo old_ip) as [Eol Wol]. destruct (Hlo new_ip) as [Enl Wnl].
  unfold IncrementalCksumUpdate. rewrite Eoh, Enh, Eol, Enl. rewrite !bnot_16 by done.
  assert (Enn : (new_ip / 65536) .& 0xFFFF = new_ip / 65536).
  { destruct (Hlo (new_ip / 65536)) as [-> _]. apply Z.mod_small, Wnh. }
  rewrite Enn.
  unfold in_width in *. change (2 ^ 16) with 65536 in *.
  set (a := old_ip / 65536) in *. set (b := old_ip mod 65536) in *. set (c := new_ip / 65536) in *.
  set (d := new_ip mod 65536) in *. clearbody a b c d.
  repeat match goal with |- context [wrap 32 ?x] =>
    lazymatch x with context [wrap _ _] => fail | _ => rewrite (wrap_small 32 x) by (split; [lia|change (2 ^ 32) with 4294967296; lia]) end
  end.
  rewrite ChecksumFold_eq by (unfold in_width; change (2 ^ 32) with 4294967296; lia).
  set (s := 65535 - cksum + _ + _ + _ + _ + _ + _).
  pose proof (ones_fold_mod s) as Hm.
  replace (65535 - ones_fold s + (c + d + new_port)) with ((c + d + new_port - ones_fold s) + 1 * 65535) by lia.
  rewrite Z_mod_plus_full, Zminus_mod, Hm, <- Zminus_mod.
  replace (c + d + new_port - s) with ((cksum + (a + b + old_port)) + (-4) * 65535) by (unfold s; lia).
  apply Z_mod_plus_full.
Qed.

(** ** Rewriting an endpoint

    What [RewriteAndFeed] and [ReverseRewrite] do to a frame: the transport's
    checksum is updated, the port stored, the address stored and the IP
    checksum recomputed.  [ipo], [po] and [co] are the offsets of the address
    in the frame and of the port and the checksum in the transport header. *)
Definition update_port (ipo po co : nat) (new_ip new_port : Z) (f : bytes) : bytes :=
  let o := l4_off f in
  put 2 (o + po) new_port
    (put 2 (o + co) (IncrementalCksumUpdate (get 2 (o + co) f) (get 4 ipo f) new_ip (get 2 (o + po) f) new_port) f).

(** The offsets the rewriting uses are those of fields of a segment. *)
Record endpoint_offsets (f : bytes) (ipo po co : nat) : Prop := {
  eo_ip : ipo = o_src_ip \/ ipo = o_dst_ip;
  eo_po : po = 0%nat \/ po = 2%nat;
  eo_co : (4 <= co)%nat /\ Nat.Even co;
  eo_len : (co + 2 <= l4_len f)%nat
}.

Lemma sum_ok_shift s s' : sum_ok s -> 0 < s' -> s' mod 65535 = s mod 65535 -> sum_ok s'.
Proof. intros [_ H] Hp E. split; [done|]. by rewrite E. Qed.

Section Rewrite.
Context (f : bytes) (ipo po co : nat) (new_ip new_port : Z).
Context (Hf : ip_frame f) (Ho : endpoint_offsets f ipo po co).
Context (Hip : in_width 32 new_ip) (Hport : in_width 16 new_port).

Let o := l4_off f.
Let ck' := IncrementalCksumUpdate (get 2 (o + co) f) (get 4 ipo f) new_ip (get 2 (o + po) f) new_port.
Let h1 := put 2 (o + co) ck' f.
Let h2 := put 2 (o + po) new_port h1.
Let h3 := put 4 ipo new_ip h2.

Lemma rw_bounds : (34 <= o)%nat /\ (o + l4_len f <= length f)%nat /\ (co + 2 <= l4_len f)%nat /\ (po + 2 <= 4)%nat
  /\ (4 <= co)%nat /\ (26 <= ipo)%nat /\ (ipo + 4 <= 34)%nat.
Proof.
  destruct Hf as [_ Hi Hl]. destruct Ho as [Hip' Hpo [Hco _] Hlen]. unfold o, l4_off, sizeof_EthHdr in *.
  unfold o_src_ip, o_dst_ip in *. repeat split; try lia.
Qed.

Lemma rw_h1_len : length h1 = length f.
Proof. pose proof rw_bounds. apply length_put. lia. Qed.
Lemma rw_h2_len : length h2 = length f.
Proof. pose proof rw_bounds. unfold h2. rewrite length_put; rewrite rw_h1_len; lia. Qed.
Lemma rw_h3_len : length h3 = length f.
Proof. pose proof rw_bounds. unfold h3. rewrite length_put; rewrite rw_h2_len; lia. Qed.

Lemma rw_h3_ok : bytes_ok h3.
Proof. apply put_ok, put_ok, put_ok, Hf. Qed.

(** Bytes outside the three fields. *)
Lemma rw_h3_lookup i :
  ~ (o + co <= i < o + co + 2)%nat -> ~ (o + po <= i < o + po + 2)%nat -> ~ (ipo <= i < ipo + 4)%nat ->
  h3 !! i = f !! i.
Proof.
  intros H1 H2 H3. pose proof rw_bounds as Hb.
  unfold h3. rewrite lookup_put_ne by (rewrite ?rw_h2_len; lia).
  unfold h2. rewrite lookup_put_ne by (rewrite ?rw_h1_len; lia).
  unfold h1. by rewrite lookup_put_ne by lia.
Qed.

Lemma rw_h3_get n off :
  (off + n <= ipo \/ ipo + 4 <= off)%nat -> (off + n <= 34)%nat -> get n off h3 = get n off f.
Proof. intros H1 H2. pose proof rw_bounds. apply get_ext. intros i Hi. apply rw_h3_lookup; lia. Qed.

Lemma rw_ihl : ip_hdr_len h3 = ip_hdr_len f.
Proof. pose proof rw_bounds. unfold ip_hdr_len. by rewrite rw_h3_get by (unfold o_ver_ihl; lia). Qed.

Lemma rw_l4_len : l4_len h3 = l4_len f.
Proof.
  pose proof rw_bounds. unfold l4_len. by rewrite rw_ihl, rw_h3_get by (unfold o_total_len; lia).
Qed.

Lemma rw_seg : l4_seg h3 = put 2 po new_port (put 2 co ck' (l4_seg f)).
Proof.
  pose proof rw_bounds as Hb. unfold l4_seg. rewrite rw_l4_len. unfold l4_off at 1. rewrite rw_ihl. fold (l4_off f). fold o.
  unfold h3. rewrite seg_put_before by (rewrite ?rw_h2_len; lia).
  unfold h2. rewrite seg_put_in by (rewrite ?rw_h1_len; lia).
  unfold h1. rewrite seg_put_in by lia. reflexivity.
Qed.

Lemma rw_wsum : wsum (l4_seg h3) = wsum (l4_seg f) - get 2 (o + co) f + ck' - get 2 (o + po) f + new_port.
Proof.
  pose proof rw_bounds as Hb. pose proof (eo_po _ _ _ _ Ho) as Hpo. destruct (eo_co _ _ _ _ Ho) as [_ Hev].
  assert (Hseg : bytes_ok (l4_seg f)) by (apply Forall_take, Forall_drop, Hf).
  assert (Hsl : length (l4_seg f) = l4_len f).
  { unfold l4_seg. rewrite length_take, length_drop. fold o. lia. }
  rewrite rw_seg. rewrite wsum_put; [|by apply put_ok| |rewrite length_put; lia|done].
  2:{ destruct Hpo as [E|E]; rewrite E; [by exists 0%nat|by exists 1%nat]. }
  rewrite wsum_put; [|done|done|lia|apply wrap_in_width; lia].
  rewrite get_put_ne by lia. unfold l4_seg. rewrite !seg_get by lia. fold o. lia.
Qed.

(** The pseudo header's address words. *)
Lemma rw_pseudo : pseudo_sum h3 = pseudo_sum f - get 2 ipo f - get 2 (ipo + 2) f + new_ip / 65536 + new_ip mod 65536.
Proof.
  pose proof rw_bounds as Hb. pose proof rw_h2_len as Hl2.
  destruct (get_put_4_2 ipo new_ip h2) as [E1 E2]; [lia|apply put_ok, put_ok, Hf|done|].
  fold h3 in E1, E2. unfold pseudo_sum. rewrite rw_l4_len.
  rewrite (rw_h3_get 1 o_proto) by (unfold o_proto; lia).
  destruct (eo_ip _ _ _ _ Ho) as [E|E].
  - rewrite (rw_h3_get 2 o_dst_ip), (rw_h3_get 2 (o_dst_ip + 2)) by (unfold o_dst_ip, o_src_ip in *; lia).
    rewrite <- E, E1, E2. lia.
  - rewrite (rw_h3_get 2 o_src_ip), (rw_h3_get 2 (o_src_ip + 2)) by (unfold o_dst_ip, o_src_ip in *; lia).
    rewrite <- E, E1, E2. lia.
Qed.

Lemma rw_l4_ok : 0 < get 1 o_proto f -> l4_ok f -> l4_ok h3.
Proof.
  intros Hproto Hok. pose proof rw_bounds as Hb. pose proof rw_h3_ok as H3.
  apply (sum_ok_shift _ _ Hok).
  - assert (Hw : 0 <= wsum (l4_seg h3)) by (apply wsum_nonneg; unfold l4_seg; by apply Forall_take, Forall_drop).
    assert (Hg : forall off, 0 <= get 2 off h3) by (intros; by apply get_width).
    unfold pseudo_sum. rewrite (rw_h3_get 1 o_proto) by (unfold o_proto; lia).
    pose proof (Hg o_src_ip). pose proof (Hg (o_src_ip + 2)%nat). pose proof (Hg o_dst_ip). pose proof (Hg (o_dst_ip + 2)%nat).
    lia.
  - rewrite rw_pseudo, rw_wsum.
    pose proof (IncrementalCksumUpdate_mod (get 2 (o + co) f) (get 4 ipo f) new_ip (get 2 (o + po) f) new_port
      (get_width 2 _ _ (ipf_bytes _ Hf)) (get_width 4 _ _ (ipf_bytes _ Hf)) Hip (get_width 2 _ _ (ipf_bytes _ Hf)) Hport) as E.
    fold ck' in E.
    assert (Eip : get 4 ipo f / 65536 = get 2 ipo f /\ get 4 ipo f mod 65536 = get 2 (ipo + 2) f).
    { rewrite get_4_2 by lia. pose proof (get_width 2 ipo f (ipf_bytes _ Hf)) as [A1 A2].
      pose proof (get_width 2 (ipo + 2) f (ipf_bytes _ Hf)) as [B1 B2].
      change (2 ^ (8 * Z.of_nat 2)) with 65536 in *. split; dlia. }
    destruct Eip as [Eh El]. rewrite Eh, El in E.
    set (rest := pseudo_sum f + wsum (l4_seg f) - (get 2 (o + co) f + (get 2 ipo f + get 2 (ipo + 2) f + get 2 (o + po) f))).
    replace (_ - _ - _ + _ + _ + _) with (rest + (ck' + (new_ip / 65536 + new_ip mod 65536 + new_port))) by (unfold rest; lia).
    replace (pseudo_sum f + wsum (l4_seg f))
      with (rest + (get 2 (o + co) f + (get 2 ipo f + get 2 (ipo + 2) f + get 2 (o + po) f))) by (unfold rest; lia).
    by rewrite Zplus_mod, E, <- Zplus_mod.
Qed.

(** Everything about the rewritten frame. *)
Lemma rewrite_endpoint_ok :
  0 < get 1 o_proto f -> l4_ok f ->
  exists g, RecalcIpChecksum (put 4 ipo new_ip (update_port ipo po co new_ip new_port f)) = Some g
    /\ ip_frame g /\ ip_ok g /\ l4_ok g
    /\ l4_off g = l4_off f /\ length g = length f
    /\ get 4 ipo g = new_ip /\ get 2 (l4_off f + po) g = new_port
    /\ (forall i, ~ (o_checksum <= i < o_checksum + 2)%nat -> ~ (l4_off f + co <= i < l4_off f + co + 2)%nat ->
         ~ (l4_off f + po <= i < l4_off f + po + 2)%nat -> ~ (ipo <= i < ipo + 4)%nat -> g !! i = f !! i).
Proof.
  intros Hproto Hok. pose proof rw_bounds as Hb. pose proof rw_h3_ok as H3. pose proof rw_h3_len as Hl3.
  destruct (RecalcIpChecksum_ok h3) as (c & Hc & Hr & Hipok).
  { done. } { rewrite rw_ihl. destruct Hf. lia. } { unfold l4_off. rewrite rw_ihl, Hl3. fold (l4_off f). fold o. lia. }
  exists (put 2 o_checksum c h3). unfold update_port. fold o. fold ck'. fold h1. fold h2. fold h3.
  assert (Hck : (o_checksum + 2 <= length h3)%nat) by (unfold o_checksum; lia).
  assert (Ei : ip_hdr_len (put 2 o_checksum c h3) = ip_hdr_len f).
  { rewrite ip_hdr_len_put; [apply rw_ihl|done|unfold o_checksum, o_ver_ihl; lia]. }
  assert (Eg : forall n off, (off + n <= o_checksum \/ o_checksum + 2 <= off)%nat ->
    get n off (put 2 o_checksum c h3) = get n off h3) by (intros; apply get_put_ne; lia).
  assert (El : l4_len (put 2 o_checksum c h3) = l4_len f).
  { rewrite <- rw_l4_len. unfold l4_len. by rewrite Ei, rw_ihl, Eg by (unfold o_total_len, o_checksum; lia). }
  assert (Eo : l4_off (put 2 o_checksum c h3) = l4_off f) by (unfold l4_off; by rewrite Ei).
  split; [exact Hr|]. split.
  { split; [by apply put_ok|rewrite Ei; apply Hf|]. rewrite Eo, El, length_put, Hl3 by done. apply Hf. }
  split; [exact Hipok|]. split.
  { pose proof (rw_l4_ok Hproto Hok) as Hl4. unfold l4_ok in *. unfold pseudo_sum in *.
    rewrite El, !Eg by (unfold o_src_ip, o_dst_ip, o_proto, o_checksum; lia). rewrite rw_l4_len in Hl4.
    replace (l4_seg (put 2 o_checksum c h3)) with (l4_seg h3); [exact Hl4|].
    unfold l4_seg. rewrite Eo, El, rw_l4_len. unfold l4_off at 1. rewrite rw_ihl. fold (l4_off f). fold o.
    rewrite (seg_put_before 2 _ o); [done|unfold o_checksum; lia|lia]. }
  split; [done|]. split; [rewrite length_put by done; done|]. split.
  { rewrite Eg by (unfold o_checksum; lia). unfold h3. apply get_put; [rewrite rw_h2_len; lia|done]. }
  split.
  { rewrite Eg by (fold o; unfold o_checksum; lia). unfold h3. rewrite get_put_ne by (rewrite ?rw_h2_len; fold o; lia).
    unfold h2. fold o. apply get_put; [rewrite rw_h1_len; lia|done]. }
  intros i A1 A2 A3 A4. rewrite lookup_put_ne by lia. by apply rw_h3_lookup.
Qed.
End Rewrite.
