(* ===== verification/HostIo.v ===== *)
(** * Handlers that call the host

    The shape of an event handler that works on its own state and calls
    libraries and the kernel: a state monad with a trace.  [Call] is the type
    of the calls out, [Reply c] what call [c] returns, and the oracle
    [os : forall c, W -> Reply c * W] stands for everything outside, which
    keeps a state of its own.  [None] is undefined behaviour.

    [wp m Q] holds of the states from which a run of [m], if it is defined,
    ends in [Q]; [total m] is that every run is defined.  The rules of this
    file are those the network backend's proofs use. *)

From S2P Require Import Prelude.

Section host_io.
Context {S W Call : Type} {Reply : Call -> Type} (os : forall c : Call, W -> Reply c * W).

(** A call with what it returned. *)
Definition Done : Type := {c : Call & Reply c}.

Record IoState := MkIo { io_state : S; io_world : W; io_trace : list Done }.

Definition IO (A : Type) : Type := IoState -> option (A * IoState).

#[export] Instance IO_ret : MRet IO := fun A a st => Some (a, st).
#[export] Instance IO_bind : MBind IO := fun A B f m st =>
  match m st with
  | None => None
  | Some (a, st) => f a st
  end.

#[export] Instance IO_fmap : FMap IO := fun A B f m => m ≫= fun a => mret (f a).

Definition host (c : Call) : IO (Reply c) := fun st =>
  let '(r, w) := os c (io_world st) in
  Some (r, MkIo (io_state st) w (io_trace st ++ [existT c r])).

Definition get_state : IO S := fun st => Some (io_state st, st).
Definition modify (f : S -> S) : IO unit := fun st =>
  Some (tt, MkIo (f (io_state st)) (io_world st) (io_trace st)).
Definition UB {A} : IO A := fun _ => None.

(** Definedness of a lookup. *)
Definition the {A} (o : option A) : IO A := match o with Some a => mret a | None => UB end.
Definition when (b : bool) (m : IO unit) : IO unit := if b then m else mret tt.

Fixpoint for_each {A} (f : A -> IO unit) (l : list A) : IO unit :=
  match l with
  | [] => mret tt
  | a :: l => f a ≫= fun _ => for_each f l
  end.

(** ** Partial correctness *)

Definition wp {A} (m : IO A) (Q : A -> IoState -> Prop) (st : IoState) : Prop :=
  match m st with
  | Some (a, st') => Q a st'
  | None => True
  end.

Lemma wp_run {A} (m : IO A) Q st a st' : wp m Q st -> m st = Some (a, st') -> Q a st'.
Proof. unfold wp. intros H E. by rewrite E in H. Qed.
Lemma wp_intro {A} (m : IO A) (Q : A -> IoState -> Prop) st :
  (forall a st', m st = Some (a, st') -> Q a st') -> wp m Q st.
Proof. unfold wp. destruct (m st) as [[a st']|]; eauto. Qed.
Lemma io_wp_mono {A} (m : IO A) (Q Q' : A -> IoState -> Prop) st :
  wp m Q st -> (forall a st', Q a st' -> Q' a st') -> wp m Q' st.
Proof. unfold wp. destruct (m st) as [[a st']|]; eauto. Qed.
Lemma io_wp_ret {A} (a : A) (Q : A -> IoState -> Prop) st : Q a st -> wp (mret a) Q st.
Proof. done. Qed.
Lemma io_wp_bind {A B} (m : IO A) (k : A -> IO B) Q st : wp m (fun a => wp (k a) Q) st -> wp (m ≫= k) Q st.
Proof. unfold wp, mbind, IO_bind. destruct (m st) as [[a st']|]; done. Qed.
Lemma io_wp_host c (Q : Reply c -> IoState -> Prop) st :
  (forall r w, Q r (MkIo (io_state st) w (io_trace st ++ [existT c r]))) -> wp (host c) Q st.
Proof. intros H. unfold wp, host. destruct (os c (io_world st)) as [r w]. apply H. Qed.
Lemma wp_get (Q : S -> IoState -> Prop) st : Q (io_state st) st -> wp get_state Q st.
Proof. done. Qed.
Lemma io_wp_modify f (Q : unit -> IoState -> Prop) st :
  Q tt (MkIo (f (io_state st)) (io_world st) (io_trace st)) -> wp (modify f) Q st.
Proof. done. Qed.
Lemma io_wp_UB {A} (Q : A -> IoState -> Prop) st : wp UB Q st.
Proof. done. Qed.
Lemma wp_the {A} (o : option A) (Q : A -> IoState -> Prop) st :
  (forall a, o = Some a -> Q a st) -> wp (the o) Q st.
Proof. intros H. destruct o as [a|]; [by apply (H a)|done]. Qed.
Lemma wp_when b m (Q : unit -> IoState -> Prop) st :
  (b = true -> wp m Q st) -> (b = false -> Q tt st) -> wp (when b m) Q st.
Proof. intros H1 H2. destruct b; [by apply H1|by apply H2]. Qed.
Lemma wp_for_each {A} (f : A -> IO unit) l (I : IoState -> Prop) st :
  I st -> (forall a st, a ∈ l -> I st -> wp (f a) (fun _ => I) st) -> wp (for_each f l) (fun _ => I) st.
Proof.
  revert st. induction l as [|a l IH]; intros st Hi Hf; [done|]. cbn [for_each]. apply io_wp_bind.
  eapply io_wp_mono; [apply Hf; [left|done]|]. intros [] st1 H1. apply IH; [done|]. intros b st2 Hb. apply Hf. by right.
Qed.

(** A reflexive and transitive relation on states that every step of a run
    respects is respected by the run. *)
Definition respects {A} (R : IoState -> IoState -> Prop) (m : IO A) : Prop := forall st, wp m (fun _ => R st) st.

Lemma respects_wp {A} R (m : IO A) st : respects R m -> wp m (fun _ => R st) st.
Proof. intros H. apply H. Qed.
Lemma respects_ret {A} R (a : A) : Reflexive R -> respects R (mret a).
Proof. intros H st. apply io_wp_ret. reflexivity. Qed.
Lemma respects_bind {A B} R (m : IO A) (k : A -> IO B) :
  Transitive R -> respects R m -> (forall a, respects R (k a)) -> respects R (m ≫= k).
Proof.
  intros HT Hm Hk st. apply io_wp_bind. eapply io_wp_mono; [apply Hm|]. intros a st1 H1.
  eapply io_wp_mono; [apply Hk|]. intros b st2 H2. by transitivity st1.
Qed.
Lemma respects_UB {A} R : respects R (@UB A).
Proof. done. Qed.
Lemma respects_the {A} R (o : option A) : Reflexive R -> respects R (the o).
Proof. intros H st. apply wp_the. intros. reflexivity. Qed.
Lemma respects_when R b m : Reflexive R -> respects R m -> respects R (when b m).
Proof. intros HR H st. apply wp_when; [intros; apply H|intros; reflexivity]. Qed.
Lemma respects_get R : Reflexive R -> respects R get_state.
Proof. intros H st. apply wp_get. reflexivity. Qed.
Lemma respects_for_each {A} R (f : A -> IO unit) l :
  Reflexive R -> Transitive R -> (forall a, respects R (f a)) -> respects R (for_each f l).
Proof.
  intros HR HT Hf. induction l as [|a l IH]; [by apply respects_ret|].
  apply respects_bind; [done|apply Hf|done].
Qed.

(** ** Definedness *)

Definition total {A} (m : IO A) : Prop := forall st, is_Some (m st).

Lemma total_ret {A} (a : A) : total (mret a).
Proof. intros st. by eexists. Qed.
Lemma total_bind {A B} (m : IO A) (k : A -> IO B) : total m -> (forall a, total (k a)) -> total (m ≫= k).
Proof.
  intros Hm Hk st. destruct (Hm st) as [[a st1] E]. unfold mbind, IO_bind. rewrite E. apply Hk.
Qed.
Lemma io_total_host c : total (host c).
Proof. intros st. unfold host. destruct (os c (io_world st)). by eexists. Qed.
Lemma total_get : total get_state.
Proof. intros st. by eexists. Qed.
Lemma io_total_modify f : total (modify f).
Proof. intros st. by eexists. Qed.
Lemma total_when b m : total m -> total (when b m).
Proof. intros H. destruct b; [done|apply total_ret]. Qed.
Lemma total_for_each {A} (f : A -> IO unit) l : (forall a, total (f a)) -> total (for_each f l).
Proof. intros Hf. induction l; [apply total_ret|apply total_bind; [apply Hf|done]]. Qed.
End host_io.

Arguments IoState _ _ {_} _.
Arguments MkIo {_ _ _ _} _ _ _.
Arguments io_state {_ _ _ _} _.
Arguments io_world {_ _ _ _} _.
Arguments io_trace {_ _ _ _} _.
Arguments IO _ _ {_} _ _.

(** Walks through a handler; [leaf] proves that its primitives respect the
    relation. *)
Ltac respects_step leaf :=
  lazymatch goal with
  | |- respects _ (mret _) => apply respects_ret, _
  | |- respects _ (the _) => apply respects_the, _
  | |- respects _ UB => apply respects_UB
  | |- respects _ (when _ _) => apply respects_when; [apply _|]
  | |- respects _ (for_each _ _) => apply respects_for_each; [apply _|apply _|intros ?]
  | |- respects _ (match ?x with _ => _ end) => destruct x
  | |- respects _ (_ ≫= _) => apply respects_bind; [apply _| |intros ?]
  | |- respects _ (_ <$> _) => apply respects_bind; [apply _| |intros ?]
  | |- respects _ _ => cbv zeta; leaf
  end.
Ltac respects_auto leaf := repeat respects_step leaf.
