(* ===== verification/NetHost.v ===== *)
(** * The network backend's state and its calls out

    Models the data of core/net/net_backend.h and core/net/poll_handle.h, and
    the calls the backend makes to the kernel's sockets, lwIP and libuv.

    The backend runs on one thread, driven by libuv.  Objects whose address
    the code hands to a library ([NatEntry], [PfEntry], [Conn]) carry it as
    [..._ptr]; a callback finds its object by that address, and one that is
    gone is undefined behaviour.  A socket or PCB is an option; [None] is
    [SOCK_INVALID] or a null pointer.

    lwIP is outside.  Each call may send frames to the guest before it
    returns, through [LwipLinkOutput]; the oracle names them in its reply to
    [LinkOutputs].  The calls that process input ([Input],
    [SysCheckTimeouts]) also make the other callbacks, which they list in
    order in their reply. *)

From S2P Require Import Prelude.
From S2P Require Import HostIo.
From S2P Require Import StdString.
From S2P Require Import VmModel.
From S2P Require Import NetPacket.

Definition Sock := Z.
Definition Pcb := Z.

(** [uv_poll_t] flags. *)
Definition UV_READABLE := 1.
Definition UV_WRITABLE := 2.

(** ** The wrapper of [uv_poll_t] *)

Record PollHandle := MkPoll {
  ph_inited : bool;
  ph_active : bool;
  ph_closing : bool;
  ph_closed : bool
}.
Definition set_ph_inited (v : bool) (s : PollHandle) : PollHandle :=
  MkPoll v (ph_active s) (ph_closing s) (ph_closed s).
Definition set_ph_active (v : bool) (s : PollHandle) : PollHandle :=
  MkPoll (ph_inited s) v (ph_closing s) (ph_closed s).
Definition set_ph_closing (v : bool) (s : PollHandle) : PollHandle :=
  MkPoll (ph_inited s) (ph_active s) v (ph_closed s).
Definition set_ph_closed (v : bool) (s : PollHandle) : PollHandle :=
  MkPoll (ph_inited s) (ph_active s) (ph_closing s) v.

Definition PollHandle_new : PollHandle := MkPoll false false false false.

(** ** NAT entries *)

Inductive NatState := Listening | Connecting | Established | HalfClosed | Closed.

#[export] Instance NatState_eq_dec : EqDecision NatState.
Proof. solve_decision. Defined.

Definition is_state (a b : NatState) : bool := bool_decide (a = b).

(** [backend] is the one backend.  Addresses and ports are in host order. *)
Record NatEntry := MkNat {
  ne_ptr : nat;
  ne_proto : Z;
  ne_guest_ip : Z;
  ne_guest_port : Z;
  ne_real_dst_ip : Z;
  ne_real_dst_port : Z;
  ne_proxy_port : Z;
  ne_gateway_local : bool;
  ne_guestfwd_ip : Z;
  ne_guestfwd_port : Z;
  ne_state : NatState;
  ne_listen_pcb : option Pcb;
  ne_conn_pcb : option Pcb;
  ne_host_socket : option Sock;
  ne_pending_data : bytes;
  ne_pending_to_guest : bytes;
  ne_pending_to_host : bytes;
  ne_last_active_ms : Z;
  ne_poll : PollHandle
}.
Definition set_ne_gateway_local (v : bool) (s : NatEntry) : NatEntry :=
  MkNat (ne_ptr s) (ne_proto s) (ne_guest_ip s) (ne_guest_port s) (ne_real_dst_ip s)
    (ne_real_dst_port s) (ne_proxy_port s) v (ne_guestfwd_ip s) (ne_guestfwd_port s)
    (ne_state s) (ne_listen_pcb s) (ne_conn_pcb s) (ne_host_socket s) (ne_pending_data s)
    (ne_pending_to_guest s) (ne_pending_to_host s) (ne_last_active_ms s) (ne_poll s).
Definition set_ne_guestfwd_ip (v : Z) (s : NatEntry) : NatEntry :=
  MkNat (ne_ptr s) (ne_proto s) (ne_guest_ip s) (ne_guest_port s) (ne_real_dst_ip s)
    (ne_real_dst_port s) (ne_proxy_port s) (ne_gateway_local s) v (ne_guestfwd_port s)
    (ne_state s) (ne_listen_pcb s) (ne_conn_pcb s) (ne_host_socket s) (ne_pending_data s)
    (ne_pending_to_guest s) (ne_pending_to_host s) (ne_last_active_ms s) (ne_poll s).
Definition set_ne_guestfwd_port (v : Z) (s : NatEntry) : NatEntry :=
  MkNat (ne_ptr s) (ne_proto s) (ne_guest_ip s) (ne_guest_port s) (ne_real_dst_ip s)
    (ne_real_dst_port s) (ne_proxy_port s) (ne_gateway_local s) (ne_guestfwd_ip s) v
    (ne_state s) (ne_listen_pcb s) (ne_conn_pcb s) (ne_host_socket s) (ne_pending_data s)
    (ne_pending_to_guest s) (ne_pending_to_host s) (ne_last_active_ms s) (ne_poll s).
Definition set_ne_state (v : NatState) (s : NatEntry) : NatEntry :=
  MkNat (ne_ptr s) (ne_proto s) (ne_guest_ip s) (ne_guest_port s) (ne_real_dst_ip s)
    (ne_real_dst_port s) (ne_proxy_port s) (ne_gateway_local s) (ne_guestfwd_ip s)
    (ne_guestfwd_port s) v (ne_listen_pcb s) (ne_conn_pcb s) (ne_host_socket s)
    (ne_pending_data s) (ne_pending_to_guest s) (ne_pending_to_host s) (ne_last_active_ms s)
    (ne_poll s).
Definition set_ne_listen_pcb (v : option Pcb) (s : NatEntry) : NatEntry :=
  MkNat (ne_ptr s) (ne_proto s) (ne_guest_ip s) (ne_guest_port s) (ne_real_dst_ip s)
    (ne_real_dst_port s) (ne_proxy_port s) (ne_gateway_local s) (ne_guestfwd_ip s)
    (ne_guestfwd_port s) (ne_state s) v (ne_conn_pcb s) (ne_host_socket s) (ne_pending_data s)
    (ne_pending_to_guest s) (ne_pending_to_host s) (ne_last_active_ms s) (ne_poll s).
Definition set_ne_conn_pcb (v : option Pcb) (s : NatEntry) : NatEntry :=
  MkNat (ne_ptr s) (ne_proto s) (ne_guest_ip s) (ne_guest_port s) (ne_real_dst_ip s)
    (ne_real_dst_port s) (ne_proxy_port s) (ne_gateway_local s) (ne_guestfwd_ip s)
    (ne_guestfwd_port s) (ne_state s) (ne_listen_pcb s) v (ne_host_socket s) (ne_pending_data s)
    (ne_pending_to_guest s) (ne_pending_to_host s) (ne_last_active_ms s) (ne_poll s).
Definition set_ne_host_socket (v : option Sock) (s : NatEntry) : NatEntry :=
  MkNat (ne_ptr s) (ne_proto s) (ne_guest_ip s) (ne_guest_port s) (ne_real_dst_ip s)
    (ne_real_dst_port s) (ne_proxy_port s) (ne_gateway_local s) (ne_guestfwd_ip s)
    (ne_guestfwd_port s) (ne_state s) (ne_listen_pcb s) (ne_conn_pcb s) v (ne_pending_data s)
    (ne_pending_to_guest s) (ne_pending_to_host s) (ne_last_active_ms s) (ne_poll s).
Definition set_ne_pending_data (v : bytes) (s : NatEntry) : NatEntry :=
  MkNat (ne_ptr s) (ne_proto s) (ne_guest_ip s) (ne_guest_port s) (ne_real_dst_ip s)
    (ne_real_dst_port s) (ne_proxy_port s) (ne_gateway_local s) (ne_guestfwd_ip s)
    (ne_guestfwd_port s) (ne_state s) (ne_listen_pcb s) (ne_conn_pcb s) (ne_host_socket s) v
    (ne_pending_to_guest s) (ne_pending_to_host s) (ne_last_active_ms s) (ne_poll s).
Definition set_ne_pending_to_guest (v : bytes) (s : NatEntry) : NatEntry :=
  MkNat (ne_ptr s) (ne_proto s) (ne_guest_ip s) (ne_guest_port s) (ne_real_dst_ip s)
    (ne_real_dst_port s) (ne_proxy_port s) (ne_gateway_local s) (ne_guestfwd_ip s)
    (ne_guestfwd_port s) (ne_state s) (ne_listen_pcb s) (ne_conn_pcb s) (ne_host_socket s)
    (ne_pending_data s) v (ne_pending_to_host s) (ne_last_active_ms s) (ne_poll s).
Definition set_ne_pending_to_host (v : bytes) (s : NatEntry) : NatEntry :=
  MkNat (ne_ptr s) (ne_proto s) (ne_guest_ip s) (ne_guest_port s) (ne_real_dst_ip s)
    (ne_real_dst_port s) (ne_proxy_port s) (ne_gateway_local s) (ne_guestfwd_ip s)
    (ne_guestfwd_port s) (ne_state s) (ne_listen_pcb s) (ne_conn_pcb s) (ne_host_socket s)
    (ne_pending_data s) (ne_pending_to_guest s) v (ne_last_active_ms s) (ne_poll s).
Definition set_ne_last_active_ms (v : Z) (s : NatEntry) : NatEntry :=
  MkNat (ne_ptr s) (ne_proto s) (ne_guest_ip s) (ne_guest_port s) (ne_real_dst_ip s)
    (ne_real_dst_port s) (ne_proxy_port s) (ne_gateway_local s) (ne_guestfwd_ip s)
    (ne_guestfwd_port s) (ne_state s) (ne_listen_pcb s) (ne_conn_pcb s) (ne_host_socket s)
    (ne_pending_data s) (ne_pending_to_guest s) (ne_pending_to_host s) v (ne_poll s).
Definition set_ne_poll (v : PollHandle) (s : NatEntry) : NatEntry :=
  MkNat (ne_ptr s) (ne_proto s) (ne_guest_ip s) (ne_guest_port s) (ne_real_dst_ip s)
    (ne_real_dst_port s) (ne_proxy_port s) (ne_gateway_local s) (ne_guestfwd_ip s)
    (ne_guestfwd_port s) (ne_state s) (ne_listen_pcb s) (ne_conn_pcb s) (ne_host_socket s)
    (ne_pending_data s) (ne_pending_to_guest s) (ne_pending_to_host s) (ne_last_active_ms s) v.

(** ** Port forwards *)

Record PfConn := MkConn {
  pc_ptr : nat;
  pc_host_sock : option Sock;
  pc_guest_pcb : option Pcb;
  pc_guest_connected : bool;
  pc_pending_to_guest : bytes;
  pc_pending_to_host : bytes;
  pc_poll : PollHandle
}.
Definition set_pc_host_sock (v : option Sock) (s : PfConn) : PfConn :=
  MkConn (pc_ptr s) v (pc_guest_pcb s) (pc_guest_connected s) (pc_pending_to_guest s)
    (pc_pending_to_host s) (pc_poll s).
Definition set_pc_guest_pcb (v : option Pcb) (s : PfConn) : PfConn :=
  MkConn (pc_ptr s) (pc_host_sock s) v (pc_guest_connected s) (pc_pending_to_guest s)
    (pc_pending_to_host s) (pc_poll s).
Definition set_pc_guest_connected (v : bool) (s : PfConn) : PfConn :=
  MkConn (pc_ptr s) (pc_host_sock s) (pc_guest_pcb s) v (pc_pending_to_guest s)
    (pc_pending_to_host s) (pc_poll s).
Definition set_pc_pending_to_guest (v : bytes) (s : PfConn) : PfConn :=
  MkConn (pc_ptr s) (pc_host_sock s) (pc_guest_pcb s) (pc_guest_connected s) v
    (pc_pending_to_host s) (pc_poll s).
Definition set_pc_pending_to_host (v : bytes) (s : PfConn) : PfConn :=
  MkConn (pc_ptr s) (pc_host_sock s) (pc_guest_pcb s) (pc_guest_connected s)
    (pc_pending_to_guest s) v (pc_poll s).
Definition set_pc_poll (v : PollHandle) (s : PfConn) : PfConn :=
  MkConn (pc_ptr s) (pc_host_sock s) (pc_guest_pcb s) (pc_guest_connected s)
    (pc_pending_to_guest s) (pc_pending_to_host s) v.

Record PfEntry := MkPf {
  pf_ptr : nat;
  pf_host_port : Z;
  pf_guest_port : Z;
  pf_host_ip : bytes;
  pf_listener : option Sock;
  pf_listener_poll : PollHandle;
  pf_conns : list PfConn
}.
Definition set_pf_listener (v : option Sock) (s : PfEntry) : PfEntry :=
  MkPf (pf_ptr s) (pf_host_port s) (pf_guest_port s) (pf_host_ip s) v (pf_listener_poll s)
    (pf_conns s).
Definition set_pf_listener_poll (v : PollHandle) (s : PfEntry) : PfEntry :=
  MkPf (pf_ptr s) (pf_host_port s) (pf_guest_port s) (pf_host_ip s) (pf_listener s) v
    (pf_conns s).
Definition set_pf_conns (v : list PfConn) (s : PfEntry) : PfEntry :=
  MkPf (pf_ptr s) (pf_host_port s) (pf_guest_port s) (pf_host_ip s) (pf_listener s)
    (pf_listener_poll s) v.

Record GfEntry := MkGf { ge_guest_ip : Z; ge_guest_port : Z; ge_host_ip : Z; ge_host_port : Z }.

(** ** The backend

    [next_ptr] is the address of the next object that is allocated. *)

Record NetBackend := MkNet {
  nat_entries_ : list NatEntry;
  next_proxy_port_ : Z;
  host_forwards_ : list PfEntry;
  guest_forwards_ : list GfEntry;
  link_up_ : bool;
  tx_queue_ : list bytes;
  deferred_listen_close_ : list Pcb;
  deferred_conn_abort_ : list Pcb;
  deferred_socket_close_ : list Sock;
  icmp_socket_ : option Sock;
  icmp_poll_active_ : bool;
  pending_gf_update_ : option (list GuestForward);
  next_ptr : nat
}.
Definition nb_set_nat_entries (v : list NatEntry) (s : NetBackend) : NetBackend :=
  MkNet v (next_proxy_port_ s) (host_forwards_ s) (guest_forwards_ s) (link_up_ s) (tx_queue_ s)
    (deferred_listen_close_ s) (deferred_conn_abort_ s) (deferred_socket_close_ s)
    (icmp_socket_ s) (icmp_poll_active_ s) (pending_gf_update_ s) (next_ptr s).
Definition nb_set_next_proxy_port (v : Z) (s : NetBackend) : NetBackend :=
  MkNet (nat_entries_ s) v (host_forwards_ s) (guest_forwards_ s) (link_up_ s) (tx_queue_ s)
    (deferred_listen_close_ s) (deferred_conn_abort_ s) (deferred_socket_close_ s)
    (icmp_socket_ s) (icmp_poll_active_ s) (pending_gf_update_ s) (next_ptr s).
Definition nb_set_host_forwards (v : list PfEntry) (s : NetBackend) : NetBackend :=
  MkNet (nat_entries_ s) (next_proxy_port_ s) v (guest_forwards_ s) (link_up_ s) (tx_queue_ s)
    (deferred_listen_close_ s) (deferred_conn_abort_ s) (deferred_socket_close_ s)
    (icmp_socket_ s) (icmp_poll_active_ s) (pending_gf_update_ s) (next_ptr s).
Definition nb_set_guest_forwards (v : list GfEntry) (s : NetBackend) : NetBackend :=
  MkNet (nat_entries_ s) (next_proxy_port_ s) (host_forwards_ s) v (link_up_ s) (tx_queue_ s)
    (deferred_listen_close_ s) (deferred_conn_abort_ s) (deferred_socket_close_ s)
    (icmp_socket_ s) (icmp_poll_active_ s) (pending_gf_update_ s) (next_ptr s).
Definition nb_set_link_up (v : bool) (s : NetBackend) : NetBackend :=
  MkNet (nat_entries_ s) (next_proxy_port_ s) (host_forwards_ s) (guest_forwards_ s) v
    (tx_queue_ s) (deferred_listen_close_ s) (deferred_conn_abort_ s) (deferred_socket_close_ s)
    (icmp_socket_ s) (icmp_poll_active_ s) (pending_gf_update_ s) (next_ptr s).
Definition nb_set_tx_queue (v : list bytes) (s : NetBackend) : NetBackend :=
  MkNet (nat_entries_ s) (next_proxy_port_ s) (host_forwards_ s) (guest_forwards_ s)
    (link_up_ s) v (deferred_listen_close_ s) (deferred_conn_abort_ s)
    (deferred_socket_close_ s) (icmp_socket_ s) (icmp_poll_active_ s) (pending_gf_update_ s)
    (next_ptr s).
Definition nb_set_deferred_listen_close (v : list Pcb) (s : NetBackend) : NetBackend :=
  MkNet (nat_entries_ s) (next_proxy_port_ s) (host_forwards_ s) (guest_forwards_ s)
    (link_up_ s) (tx_queue_ s) v (deferred_conn_abort_ s) (deferred_socket_close_ s)
    (icmp_socket_ s) (icmp_poll_active_ s) (pending_gf_update_ s) (next_ptr s).
Definition nb_set_deferred_conn_abort (v : list Pcb) (s : NetBackend) : NetBackend :=
  MkNet (nat_entries_ s) (next_proxy_port_ s) (host_forwards_ s) (guest_forwards_ s)
    (link_up_ s) (tx_queue_ s) (deferred_listen_close_ s) v (deferred_socket_close_ s)
    (icmp_socket_ s) (icmp_poll_active_ s) (pending_gf_update_ s) (next_ptr s).
Definition nb_set_deferred_socket_close (v : list Sock) (s : NetBackend) : NetBackend :=
  MkNet (nat_entries_ s) (next_proxy_port_ s) (host_forwards_ s) (guest_forwards_ s)
    (link_up_ s) (tx_queue_ s) (deferred_listen_close_ s) (deferred_conn_abort_ s) v
    (icmp_socket_ s) (icmp_poll_active_ s) (pending_gf_update_ s) (next_ptr s).
Definition nb_set_icmp_socket (v : option Sock) (s : NetBackend) : NetBackend :=
  MkNet (nat_entries_ s) (next_proxy_port_ s) (host_forwards_ s) (guest_forwards_ s)
    (link_up_ s) (tx_queue_ s) (deferred_listen_close_ s) (deferred_conn_abort_ s)
    (deferred_socket_close_ s) v (icmp_poll_active_ s) (pending_gf_update_ s) (next_ptr s).
Definition nb_set_icmp_poll_active (v : bool) (s : NetBackend) : NetBackend :=
  MkNet (nat_entries_ s) (next_proxy_port_ s) (host_forwards_ s) (guest_forwards_ s)
    (link_up_ s) (tx_queue_ s) (deferred_listen_close_ s) (deferred_conn_abort_ s)
    (deferred_socket_close_ s) (icmp_socket_ s) v (pending_gf_update_ s) (next_ptr s).
Definition nb_set_pending_gf_update (v : option (list GuestForward)) (s : NetBackend) : NetBackend :=
  MkNet (nat_entries_ s) (next_proxy_port_ s) (host_forwards_ s) (guest_forwards_ s)
    (link_up_ s) (tx_queue_ s) (deferred_listen_close_ s) (deferred_conn_abort_ s)
    (deferred_socket_close_ s) (icmp_socket_ s) (icmp_poll_active_ s) v (next_ptr s).
Definition nb_set_next_ptr (v : nat) (s : NetBackend) : NetBackend :=
  MkNet (nat_entries_ s) (next_proxy_port_ s) (host_forwards_ s) (guest_forwards_ s)
    (link_up_ s) (tx_queue_ s) (deferred_listen_close_ s) (deferred_conn_abort_ s)
    (deferred_socket_close_ s) (icmp_socket_ s) (icmp_poll_active_ s) (pending_gf_update_ s) v.

Definition kGatewayIp : Z := 0x0A000202.
Definition kGuestIp : Z := 0x0A00020F.
Definition kNetmask : Z := 0xFFFFFF00.
Definition kGatewayMac : bytes := [0x52; 0x54; 0x00; 0x12; 0x34; 0x57].
Definition kGuestMac : bytes := [0x52; 0x54; 0x00; 0x12; 0x34; 0x56].

Definition NetBackend_new : NetBackend := MkNet [] 10000 [] [] true [] [] [] [] None false None 0.

(** ** Calls out *)

Inductive SockKind := SK_Stream | SK_Dgram | SK_Icmp.

(** Which poll handle, and what lwIP holds as a PCB's argument. *)
Inductive HandleId := HNat (p : nat) | HPfListener (p : nat) | HPfConn (p : nat) | HIcmp.
Inductive Arg := ANat (p : nat) | AConn (p : nat).

(** The callbacks lwIP makes.  [EvRecv] without data is the peer's FIN.  The
    code clears the argument together with the receive and error callbacks,
    so only the others may come without one. *)
Inductive LwipEvent :=
| EvLinkOutput (frame : bytes)
| EvAccept (arg : Arg) (new_pcb : option Pcb) (ok : bool)
| EvRecv (arg : Arg) (pcb : Pcb) (p : option bytes)
| EvErr (arg : Arg)
| EvSent (arg : option Arg)
| EvConnected (arg : option Arg) (pcb : Pcb).

Inductive ConnectRes := ConnOk | ConnInProgress | ConnFailed.

(** [send]: what it returned, or an error that is [EWOULDBLOCK] or not. *)
Inductive SendRes := Sent (n : Z) | SendErr (would_block : bool).

Inductive Call :=
| GetMonotonicMs
| Rand
(* sockets, which are made non-blocking *)
| Socket (k : SockKind)
| BindListen (s : Sock) (ip port : Z)
| Accept (s : option Sock)
| Connect (s : Sock) (ip port : Z)
| SockError (s : Sock)
| Send (s : Sock) (data : bytes)
| Recv (s : option Sock) (len : Z)
| SendTo (s : Sock) (data : bytes) (ip port : Z)
| RecvFrom (s : option Sock) (len : Z)
| ReadableBytes (s : Sock)
| SockClose (s : Sock)
| ResolvConf
| InetPton (s : bytes)
(* lwIP *)
| PbufAlloc (len : Z)
| Input (frame : bytes)
| PbufFree
| LinkOutputs
| SysCheckTimeouts
| SysTimeoutsSleeptime
| TcpNew
| TcpBind (pcb : option Pcb) (port : Z)
| TcpListen (pcb : option Pcb)
| TcpAcceptCb (pcb : Pcb) (set : bool)
| TcpArg (pcb : Pcb) (arg : option Arg)
| TcpRecvCb (pcb : Pcb) (set : bool)
| TcpErrCb (pcb : Pcb) (set : bool)
| TcpSentCb (pcb : Pcb) (set : bool)
| TcpClose (pcb : option Pcb)
| TcpAbort (pcb : Pcb)
| TcpSndbuf (pcb : Pcb)
| TcpWrite (pcb : Pcb) (data : bytes)
| TcpOutput (pcb : Pcb)
| TcpRecved (pcb : Pcb) (len : Z)
| TcpConnect (pcb : option Pcb) (port : Z)
| UdpRemove (pcb : Pcb)
(* libuv *)
| UvPollInit (h : HandleId) (s : Sock)
| UvPollStart (h : HandleId) (events : Z)
| UvPollStop (h : HandleId)
| UvClose (h : HandleId)
| UvTimerStart (ms : Z)
(* the virtio device *)
| InjectRx (frame : bytes).

Definition Reply (c : Call) : Type :=
  match c with
  | GetMonotonicMs | Rand | ReadableBytes _ | SysTimeoutsSleeptime | TcpSndbuf _ | SockError _ => Z
  | Socket _ | Accept _ => option Sock
  | TcpNew | TcpListen _ => option Pcb
  | BindListen _ _ _ | PbufAlloc _ | TcpWrite _ _ => bool
  | Connect _ _ _ => ConnectRes
  | Send _ _ => SendRes
  | Recv _ _ => option bytes
  | RecvFrom _ _ => option (bytes * Z)
  | ResolvConf => option (list bytes)
  | InetPton _ => option Z
  | Input _ => bool * list LwipEvent
  | SysCheckTimeouts => list LwipEvent
  | LinkOutputs => list bytes
  | _ => unit
  end.

Section net_host.
Context {W : Type} (os : forall c : Call, W -> Reply c * W).

#[local] Abbreviation M := (IO NetBackend W Reply).

Definition host (c : Call) : M (Reply c) := HostIo.host os c.
Definition call (c : Call) : M unit := host c;; mret tt.
Definition field {A} (f : NetBackend -> A) : M A := nb ← get_state; mret (f nb).

(** ** Objects by address *)

Definition find_entry (p : nat) (nb : NetBackend) : option NatEntry :=
  list_find (fun e => ne_ptr e = p) (nat_entries_ nb) ≫= fun '(_, e) => Some e.
Definition entry (p : nat) : M NatEntry := o ← field (find_entry p); the o.
Definition map_entry (p : nat) (f : NatEntry -> NatEntry) (nb : NetBackend) : NetBackend :=
  nb_set_nat_entries (map (fun e => if bool_decide (ne_ptr e = p) then f e else e) (nat_entries_ nb)) nb.
Definition upd (p : nat) (f : NatEntry -> NatEntry) : M unit := modify (map_entry p f).

Definition find_conn (p : nat) (nb : NetBackend) : option PfConn :=
  list_find (fun c => pc_ptr c = p) (host_forwards_ nb ≫= pf_conns) ≫= fun '(_, c) => Some c.
Definition conn (p : nat) : M PfConn := o ← field (find_conn p); the o.
Definition map_conn (p : nat) (f : PfConn -> PfConn) (nb : NetBackend) : NetBackend :=
  nb_set_host_forwards
    (map (fun pf => set_pf_conns (map (fun c => if bool_decide (pc_ptr c = p) then f c else c) (pf_conns pf)) pf)
       (host_forwards_ nb)) nb.
Definition upd_conn (p : nat) (f : PfConn -> PfConn) : M unit := modify (map_conn p f).

Definition find_pf (p : nat) (nb : NetBackend) : option PfEntry :=
  list_find (fun pf => pf_ptr pf = p) (host_forwards_ nb) ≫= fun '(_, pf) => Some pf.
Definition pf_entry (p : nat) : M PfEntry := o ← field (find_pf p); the o.
Definition map_pf (p : nat) (f : PfEntry -> PfEntry) (nb : NetBackend) : NetBackend :=
  nb_set_host_forwards (map (fun pf => if bool_decide (pf_ptr pf = p) then f pf else pf) (host_forwards_ nb)) nb.
Definition upd_pf (p : nat) (f : PfEntry -> PfEntry) : M unit := modify (map_pf p f).

(** ** Poll handles *)

Definition poll_of (h : HandleId) : M PollHandle :=
  match h with
  | HNat p => ne_poll <$> entry p
  | HPfListener p => pf_listener_poll <$> pf_entry p
  | HPfConn p => pc_poll <$> conn p
  | HIcmp => UB
  end.
Definition upd_poll (h : HandleId) (f : PollHandle -> PollHandle) : M unit :=
  match h with
  | HNat p => upd p (fun e => set_ne_poll (f (ne_poll e)) e)
  | HPfListener p => upd_pf p (fun pf => set_pf_listener_poll (f (pf_listener_poll pf)) pf)
  | HPfConn p => upd_conn p (fun c => set_pc_poll (f (pc_poll c)) c)
  | HIcmp => UB
  end.

Definition Poll_Init (h : HandleId) (s : Sock) : M unit :=
  ph ← poll_of h;
  if ph_inited ph then mret tt
  else
    call (UvPollInit h s) ;;
    upd_poll h (set_ph_inited true).

Definition Poll_Start (h : HandleId) (events : Z) : M unit :=
  ph ← poll_of h;
  if ph_closing ph then mret tt
  else
    upd_poll h (set_ph_active true) ;;
    call (UvPollStart h events).

Definition Poll_Stop (h : HandleId) : M unit :=
  ph ← poll_of h;
  when (ph_active ph) (
    call (UvPollStop h) ;;
    upd_poll h (set_ph_active false)).

Definition Poll_Close (h : HandleId) : M unit :=
  ph ← poll_of h;
  if ph_closing ph || negb (ph_inited ph) then mret tt
  else
    Poll_Stop h ;;
    upd_poll h (set_ph_closing true) ;;
    call (UvClose h).

(** The close callback libuv makes in a later iteration. *)
Definition Poll_OnClosed (h : HandleId) : M unit := upd_poll h (set_ph_closed true).
End net_host.

(** [EnqueueTx]: the frame waits for the network thread. *)
Definition enqueue_tx (f : bytes) (nb : NetBackend) : NetBackend :=
  if link_up_ nb then nb_set_tx_queue (tx_queue_ nb ++ [f]) nb else nb.

(** A host for examples: it connects late, takes four bytes at a time and
    answers once. *)
Definition demo_os (c : Call) (w : nat) : Reply c * nat :=
  match c return Reply c * nat with
  | Socket _ => (Some 7, w)
  | Connect _ _ _ => (ConnInProgress, w)
  | Send _ data => (Sent (Z.min 4 (Z.of_nat (length data))), w)
  | Recv _ _ => (match w with O => Some (str "hello") | _ => None end, S w)
  | TcpSndbuf _ => (3, w)
  | TcpWrite _ _ => (true, w)
  | GetMonotonicMs | Rand | SockError _ | ReadableBytes _ | SysTimeoutsSleeptime => (0, w)
  | Accept _ => (None, w)
  | TcpNew | TcpListen _ => (Some 1, w)
  | BindListen _ _ _ | PbufAlloc _ => (true, w)
  | RecvFrom _ _ => (Some (str "pong", 0), w)
  | ResolvConf => (None, w)
  | InetPton _ => (None, w)
  | Input _ => (true, [], w)
  | SysCheckTimeouts | LinkOutputs => ([], w)
  | _ => (tt, w)
  end.
