(* ===== verification/NetNat.v ===== *)
(** * The NAT table

    Models the table of core/net/net_nat.cpp: lookup, proxy ports, creation,
    removal and cleanup of entries, the rewriting of addresses in both
    directions; and from core/net/net_backend.cpp the teardown helpers, the
    deferred closing of sockets, poll management and the way frames leave for
    the guest.  [now] is what the clock returned to the caller. *)

From S2P Require Import Prelude.
From S2P Require Import HostIo.
From S2P Require Import StdString.
From S2P Require Import NetPacket.
From S2P Require Import NetHost.

Definition kMinPort : Z := 10000.
Definition kMaxPort : Z := 60000.

(** ** Lookup *)

Definition ne_live (e : NatEntry) : bool := negb (is_state (ne_state e) Closed).

(** [!e->x], for an option. *)
Definition none {A} (o : option A) : bool := bool_decide (o = None).
#[export] Instance none_dec {A} (o : option A) : Decision (o = None).
Proof. destruct o; [by right|by left]. Defined.

(** Host socket, connection and listener are all released. *)
Definition ne_released (e : NatEntry) : bool :=
  match ne_host_socket e, ne_conn_pcb e, ne_listen_pcb e with
  | None, None, None => true
  | _, _, _ => false
  end.

Definition nat_match (now guest_port dst_ip dst_port proto : Z) (e : NatEntry) : bool :=
  if negb (ne_live e) then false
  else if (ne_proto e =? IPPROTO_TCP) && is_state (ne_state e) HalfClosed && ne_released e
            && (15000 <? u64 (now - ne_last_active_ms e)) then false
  else (ne_proto e =? proto) && (ne_guest_port e =? guest_port) && (ne_real_dst_ip e =? dst_ip)
       && (ne_real_dst_port e =? dst_port).

Definition first_such {A} (P : A -> bool) (l : list A) : option A :=
  list_find (fun a => P a = true) l ≫= fun '(_, a) => Some a.

Definition FindNatEntry (now guest_port dst_ip dst_port proto : Z) (nb : NetBackend) : option nat :=
  ne_ptr <$> first_such (nat_match now guest_port dst_ip dst_port proto) (nat_entries_ nb).

Definition IsProxyPortInUse (port : Z) (nb : NetBackend) : bool :=
  existsb (fun e => (ne_proxy_port e =? port) && ne_live e) (nat_entries_ nb).

(** The port and the next [next_proxy_port_]. *)
Fixpoint alloc_loop (fuel : nat) (nb : NetBackend) (next : Z) : Z * Z :=
  match fuel with
  | O => (next, u16 (next + 1))
  | S fuel =>
      let n := u16 (next + 1) in
      let n := if kMaxPort <? n then kMinPort else n in
      if negb (IsProxyPortInUse next nb) then (next, n) else alloc_loop fuel nb n
  end.
Definition AllocProxyPort (nb : NetBackend) : Z * Z :=
  alloc_loop (Z.to_nat (kMaxPort - kMinPort)) nb (next_proxy_port_ nb).

(** ** Rewriting *)

(** The transport part of a rewriting: the checksum, unless it is a UDP
    datagram without one, and the port at [po]. *)
Definition rewrite_l4 (proto : Z) (ipo po : nat) (new_ip new_port : Z) (f : bytes) : bytes :=
  if proto =? IPPROTO_TCP then update_port ipo po 16 new_ip new_port f
  else if proto =? IPPROTO_UDP then
    if negb (get 2 (l4_off f + 6) f =? 0) then update_port ipo po 6 new_ip new_port f
    else put 2 (l4_off f + po) new_port f
  else f.

(** The frame [RewriteAndFeed] hands to lwIP. *)
Definition rewrite_to_gateway (e : NatEntry) (f : bytes) : option bytes :=
  RecalcIpChecksum (put 4 o_dst_ip kGatewayIp (rewrite_l4 (ne_proto e) o_dst_ip 2 kGatewayIp (ne_proxy_port e) f)).

(** The size of the transport header [ReverseRewrite] asks for. *)
Definition l4_hdr_size (proto : Z) : option nat :=
  if proto =? IPPROTO_TCP then Some sizeof_TcpHdr
  else if proto =? IPPROTO_UDP then Some sizeof_UdpHdr else None.

Definition entry_of_port (port proto : Z) (nb : NetBackend) : option NatEntry :=
  first_such (fun e => ne_live e && (ne_proxy_port e =? port) && (ne_proto e =? proto)) (nat_entries_ nb).

Definition reverse_with (e : NatEntry) (f : bytes) : option bytes :=
  let proto := get 1 o_proto f in
  let new_src_ip :=
    if negb (ne_guestfwd_ip e =? 0) then ne_guestfwd_ip e
    else if ne_gateway_local e then get 4 o_src_ip f
    else ne_real_dst_ip e in
  let new_src_port := if negb (ne_guestfwd_port e =? 0) then ne_guestfwd_port e else ne_real_dst_port e in
  let f := rewrite_l4 proto o_src_ip 0 new_src_ip new_src_port f in
  RecalcIpChecksum
    (if negb (ne_gateway_local e) || negb (ne_guestfwd_ip e =? 0) then put 4 o_src_ip new_src_ip f else f).

Definition ReverseRewrite (nb : NetBackend) (f : bytes) : option bytes :=
  if (length f <? sizeof_EthHdr + sizeof_IpHdr)%nat then Some f
  else if negb (get 2 o_eth_type f =? 0x0800) then Some f
  else if negb (get 4 o_src_ip f =? kGatewayIp) then Some f
  else
    let proto := get 1 o_proto f in
    match l4_hdr_size proto with
    | None => Some f
    | Some n =>
        if (length f <? l4_off f + n)%nat then Some f
        else
          match entry_of_port (get 2 (l4_off f) f) proto nb with
          | None => Some f
          | Some e => reverse_with e f
          end
    end.

Section net_nat.
Context {W : Type} (os : forall c : Call, W -> Reply c * W).

#[local] Abbreviation M := (IO NetBackend W Reply).
#[local] Abbreviation host := (NetHost.host os).
#[local] Abbreviation call := (NetHost.call os).

(** ** Frames for the guest *)

Definition InjectFrame (f : bytes) : M unit :=
  up ← field link_up_;
  if negb up then mret tt else call (InjectRx f).

Definition LwipLinkOutput (f : bytes) : M unit :=
  o ← field (fun nb => ReverseRewrite nb f);
  g ← the o;
  InjectFrame g.

(** A call to lwIP that may send frames before it returns. *)
Definition lwip (c : Call) : M (Reply c) :=
  r ← host c;
  fs ← host LinkOutputs;
  for_each LwipLinkOutput fs;;
  mret r.
Definition lwip_ (c : Call) : M unit := lwip c;; mret tt.

(** ** Teardown *)

Definition DeferSocketClose (s : option Sock) : M unit :=
  match s with
  | None => mret tt
  | Some s => modify (fun nb => nb_set_deferred_socket_close (deferred_socket_close_ nb ++ [s]) nb)
  end.

Definition FlushDeferredSocketCloses : M unit :=
  fds ← field deferred_socket_close_;
  match fds with
  | [] => mret tt
  | _ =>
      modify (nb_set_deferred_socket_close []);;
      for_each (fun s => call (SockClose s)) fds
  end.

Definition CloseHostSocket (p : nat) : M unit :=
  e ← entry p;
  match ne_host_socket e with
  | None => mret tt
  | Some s =>
      Poll_Stop os (HNat p);;
      DeferSocketClose (Some s);;
      upd p (set_ne_host_socket None)
  end.

(** [tcp_arg], [tcp_recv] and [tcp_err] with null. *)
Definition detach (pcb : Pcb) : M unit :=
  call (TcpArg pcb None);; call (TcpRecvCb pcb false);; call (TcpErrCb pcb false).

Definition DetachAndCloseLwipPcb (p : nat) : M unit :=
  e ← entry p;
  match ne_conn_pcb e with
  | None => mret tt
  | Some pcb =>
      detach pcb;;
      lwip_ (TcpClose (Some pcb));;
      upd p (set_ne_conn_pcb None)
  end.

Definition TeardownNatEntry (p : nat) : M unit :=
  Poll_Close os (HNat p);;
  CloseHostSocket p;;
  DetachAndCloseLwipPcb p;;
  upd p (set_ne_pending_to_host []);;
  upd p (set_ne_state Closed).

(** ** Poll management *)

Definition nat_events (e : NatEntry) : Z :=
  let events := match ne_pending_to_guest e with [] => UV_READABLE | _ => 0 end in
  if is_state (ne_state e) Connecting || negb (bool_decide (ne_pending_to_host e = []))
  then events .| UV_WRITABLE else events.

Definition UpdateNatPoll (p : nat) : M unit :=
  e ← entry p;
  if ph_closing (ne_poll e) then mret tt
  else
    match ne_host_socket e with
    | None => Poll_Stop os (HNat p)
    | Some s =>
        let events := nat_events e in
        if events =? 0 then Poll_Stop os (HNat p)
        else
          when (negb (ph_active (ne_poll e))) (Poll_Init os (HNat p) s);;
          Poll_Start os (HNat p) events
    end.

(** ** Creation and removal *)

Definition push_entry (e : NatEntry) : M unit :=
  modify (fun nb => nb_set_nat_entries (nat_entries_ nb ++ [e]) nb).

(** The address of a new object. *)
Definition alloc_ptr : M nat :=
  p ← field next_ptr;
  modify (nb_set_next_ptr (S p));;
  mret p.

(** The entry's address, or [None] for a null pointer. *)
Definition CreateNatEntry (guest_ip guest_port dst_ip dst_port proto : Z) : M (option nat) :=
  p ← alloc_ptr;
  '(port, next) ← field AllocProxyPort;
  modify (nb_set_next_proxy_port next);;
  now ← host GetMonotonicMs;
  let mk st listen sock :=
    MkNat p proto guest_ip guest_port dst_ip dst_port port false 0 0 st listen None sock [] [] [] now
      PollHandle_new in
  if proto =? IPPROTO_TCP then
    pcb ← host TcpNew;
    call (TcpBind pcb port);;
    l ← host (TcpListen pcb);
    match l with
    | None => lwip_ (TcpClose pcb);; mret None
    | Some l =>
        call (TcpArg l (Some (ANat p)));;
        call (TcpAcceptCb l true);;
        push_entry (mk Listening (Some l) None);;
        UpdateNatPoll p;;
        mret (Some p)
    end
  else
    s ← host (Socket SK_Dgram);
    match s with
    | None => mret None
    | Some s =>
        push_entry (mk Established None (Some s));;
        UpdateNatPoll p;;
        mret (Some p)
    end.

(** [erase] of the entry at index [i]. *)
Definition erase_entry (i : nat) : M unit :=
  modify (fun nb => nb_set_nat_entries (take i (nat_entries_ nb) ++ drop (S i) (nat_entries_ nb)) nb).

(** Closes what the entry holds in the kernel and in lwIP. *)
Definition release_entry (p : nat) : M unit :=
  CloseHostSocket p;;
  e ← entry p;
  match ne_listen_pcb e with
  | None => mret tt
  | Some l => lwip_ (TcpClose (Some l));; upd p (set_ne_listen_pcb None)
  end;;
  e ← entry p;
  match ne_conn_pcb e with
  | None => mret tt
  | Some pcb =>
      when (ne_proto e =? IPPROTO_TCP) (detach pcb;; lwip_ (TcpAbort pcb));;
      upd p (set_ne_conn_pcb None)
  end.

Definition RemoveNatEntry (p : nat) : M unit :=
  CloseHostSocket p;;
  e ← entry p;
  match ne_listen_pcb e with
  | None => mret tt
  | Some l => lwip_ (TcpClose (Some l));; upd p (set_ne_listen_pcb None)
  end;;
  e ← entry p;
  match ne_conn_pcb e with
  | None => mret tt
  | Some pcb =>
      (if ne_proto e =? IPPROTO_TCP then detach pcb;; lwip_ (TcpAbort pcb) else call (UdpRemove pcb));;
      upd p (set_ne_conn_pcb None)
  end;;
  upd p (set_ne_state Closed);;
  e ← entry p;
  let ph := ne_poll e in
  if ph_inited ph && negb (ph_closing ph) then Poll_Close os (HNat p)
  else if negb (ph_inited ph) || ph_closed ph then
    modify (fun nb => nb_set_nat_entries (filter (fun e => ne_ptr e <> p) (nat_entries_ nb)) nb)
  else mret tt.

Definition kClosedEntryTimeoutMs : Z := 5000.
Definition kUdpIdleTimeoutMs : Z := 120000.
Definition kTcpDeadTimeoutMs : Z := 30000.
Definition kTcpIdleTimeoutMs : Z := 300000.

Definition is_stale (now : Z) (e : NatEntry) : bool :=
  let age := u64 (now - ne_last_active_ms e) in
  if negb (ne_live e) then kClosedEntryTimeoutMs <? age
  else if ne_proto e =? IPPROTO_UDP then kUdpIdleTimeoutMs <? age
  else if ne_proto e =? IPPROTO_TCP then
    if ne_released e then kTcpDeadTimeoutMs <? age else kTcpIdleTimeoutMs <? age
  else false.

(** One iteration at index [i]; the next index. *)
Definition cleanup_at (now : Z) (i : nat) : M nat :=
  es ← field nat_entries_;
  e ← the (es !! i);
  if is_stale now e then
    release_entry (ne_ptr e);;
    ph ← poll_of (HNat (ne_ptr e));
    if ph_inited ph && negb (ph_closing ph) then
      Poll_Close os (HNat (ne_ptr e));;
      upd (ne_ptr e) (set_ne_state Closed);;
      mret (S i)
    else if ph_closing ph && negb (ph_closed ph) then
      upd (ne_ptr e) (set_ne_state Closed);;
      mret (S i)
    else
      erase_entry i;;
      mret i
  else mret (S i).

(** Each iteration moves on or erases; the table's size bounds them. *)
Fixpoint cleanup_loop (fuel : nat) (now : Z) (i : nat) : M unit :=
  match fuel with
  | O => mret tt
  | S fuel =>
      es ← field nat_entries_;
      if (i <? length es)%nat then
        i ← cleanup_at now i;
        cleanup_loop fuel now i
      else mret tt
  end.

Definition CleanupStaleEntries : M unit :=
  now ← host GetMonotonicMs;
  es ← field nat_entries_;
  cleanup_loop (length es) now 0.
End net_nat.

Lemma first_such_Some {A} (P : A -> bool) l a : first_such P l = Some a -> a ∈ l /\ P a = true.
Proof.
  unfold first_such. intros H. apply bind_Some in H as ([i x] & H & [= ->]). apply list_find_Some in H as (Hx & HP & _).
  split; [by eapply list_elem_of_lookup_2|done].
Qed.

Lemma first_such_None {A} (P : A -> bool) l : first_such P l = None -> forall a, a ∈ l -> P a = false.
Proof.
  unfold first_such. intros H a Ha. destruct (list_find _ l) as [[i x]|] eqn:E; [done|].
  apply list_find_None in E. rewrite Forall_forall in E. specialize (E a Ha). by destruct (P a).
Qed.

(** ** Proxy ports *)

Definition live_entries (nb : NetBackend) : list NatEntry := filter (fun e => ne_live e = true) (nat_entries_ nb).

(** No two live entries share a proxy port. *)
Definition ports_distinct (nb : NetBackend) : Prop := NoDup (map ne_proxy_port (live_entries nb)).

Definition port_in_range (port : Z) : Prop := kMinPort <= port <= kMaxPort.

(** The port tried in iteration [i] of the search that starts at [next]. *)
Definition port_at (next i : Z) : Z := kMinPort + (next - kMinPort + i) mod (kMaxPort - kMinPort + 1).

Lemma port_at_0 next : port_in_range next -> port_at next 0 = next.
Proof. unfold port_in_range, port_at, kMinPort, kMaxPort. intros H. rewrite Z.mod_small; lia. Qed.

Lemma port_at_succ next i :
  port_in_range next -> 0 <= i ->
  port_at next (i + 1) =
  (if kMaxPort <? u16 (port_at next i + 1) then kMinPort else u16 (port_at next i + 1)).
Proof.
  unfold port_in_range, port_at, kMinPort, kMaxPort, wrap. intros Hn Hi. change (60000 - 10000 + 1) with 50001.
  change (2 ^ 16) with 65536. set (x := next - 10000 + i). replace (next - 10000 + (i + 1)) with (x + 1) by lia.
  pose proof (Z.mod_pos_bound x 50001 ltac:(lia)) as Hb.
  rewrite (Z.mod_small (10000 + x mod 50001 + 1)) by lia.
  rewrite <- Zplus_mod_idemp_l. destruct (Z.ltb_spec 60000 (10000 + x mod 50001 + 1)) as [H|H].
  - replace (x mod 50001 + 1) with 50001 by lia. reflexivity.
  - rewrite Z.mod_small by lia. lia.
Qed.

Lemma port_at_range next i : port_in_range (port_at next i).
Proof.
  unfold port_in_range, port_at, kMinPort, kMaxPort. change (60000 - 10000 + 1) with 50001.
  pose proof (Z.mod_pos_bound (next - 10000 + i) 50001 ltac:(lia)). lia.
Qed.

Lemma port_at_inj next i j : 0 <= i < 50001 -> 0 <= j < 50001 -> port_at next i = port_at next j -> i = j.
Proof.
  unfold port_at, kMinPort, kMaxPort. change (60000 - 10000 + 1) with 50001. intros Hi Hj H.
  assert (E : (next - 10000 + i) mod 50001 = (next - 10000 + j) mod 50001) by lia.
  pose proof (Z.div_mod (next - 10000 + i) 50001 ltac:(lia)). pose proof (Z.div_mod (next - 10000 + j) 50001 ltac:(lia)).
  assert (50001 * ((next - 10000 + i) / 50001 - (next - 10000 + j) / 50001) = i - j) by lia. lia.
Qed.

Lemma in_use_elem port nb : IsProxyPortInUse port nb = true -> port ∈ map ne_proxy_port (live_entries nb).
Proof.
  unfold IsProxyPortInUse. intros H. apply existsb_exists in H as (e & He & H). apply andb_true_iff in H as [Hp Hl].
  apply Z.eqb_eq in Hp. subst port. apply list_elem_of_fmap. exists e. split; [done|].
  apply list_elem_of_filter. split; [done|]. by apply list_elem_of_In.
Qed.

(** The search finds a free port or every port it tried is taken. *)
Lemma alloc_loop_spec fuel nb next0 : forall i,
  port_in_range next0 -> 0 <= i ->
  let '(port, next) := alloc_loop fuel nb (port_at next0 i) in
  (IsProxyPortInUse port nb = false /\ port_in_range port /\ port_in_range next)
  \/ (forall j, i <= j < i + Z.of_nat fuel -> IsProxyPortInUse (port_at next0 j) nb = true).
Proof.
  induction fuel as [|fuel IH]; intros i Hn Hi; cbn [alloc_loop].
  - right. intros j Hj. lia.
  - rewrite <- port_at_succ by done. destruct (IsProxyPortInUse (port_at next0 i) nb) eqn:E; cbn [negb].
    + specialize (IH (i + 1) Hn ltac:(lia)). destruct (alloc_loop fuel nb (port_at next0 (i + 1))) as [port next].
      destruct IH as [H|H]; [by left|]. right. intros j Hj. destruct (Z.eq_dec j i) as [->|]; [done|]. apply H. lia.
    + left. split; [done|]. split; apply port_at_range.
Qed.

Lemma taken_ports nb next n :
  Z.of_nat n <= 50001 -> (forall j, 0 <= j < Z.of_nat n -> IsProxyPortInUse (port_at next j) nb = true) ->
  (n <= length (live_entries nb))%nat.
Proof.
  intros Hn H. rewrite <- (length_map ne_proxy_port (live_entries nb)).
  set (ports := map (fun k => port_at next (Z.of_nat k)) (seq 0 n)).
  replace n with (length ports) by (unfold ports; by rewrite length_map, length_seq).
  apply submseteq_length, NoDup_submseteq.
  - apply NoDup_fmap_2_strong; [|apply NoDup_seq]. intros x y Hx Hy E. apply elem_of_seq in Hx, Hy.
    apply port_at_inj in E; lia.
  - intros port Hp. apply list_elem_of_fmap in Hp as (k & -> & Hk). apply elem_of_seq in Hk.
    apply in_use_elem, H. lia.
Qed.

(** With fewer live entries than ports to try, the port is free. *)
Lemma AllocProxyPort_free nb :
  port_in_range (next_proxy_port_ nb) -> Z.of_nat (length (live_entries nb)) < kMaxPort - kMinPort ->
  let '(port, next) := AllocProxyPort nb in
  IsProxyPortInUse port nb = false /\ port_in_range port /\ port_in_range next.
Proof.
  intros Hn Hl. unfold AllocProxyPort. change (kMaxPort - kMinPort) with 50000 in *.
  assert (Hfuel : Z.of_nat (Z.to_nat 50000) = 50000) by (apply Z2Nat.id; lia).
  revert Hfuel. generalize (Z.to_nat 50000). intros fuel Hfuel.
  pose proof (alloc_loop_spec fuel nb _ 0 Hn ltac:(lia)) as H. rewrite port_at_0 in H by done.
  destruct (alloc_loop fuel nb (next_proxy_port_ nb)) as [port next]. destruct H as [H|H]; [exact H|].
  pose proof (taken_ports nb (next_proxy_port_ nb) fuel ltac:(lia)) as Ht.
  assert (fuel <= length (live_entries nb))%nat by (apply Ht; intros j Hj; apply H; lia). lia.
Qed.

Lemma free_not_elem port nb : IsProxyPortInUse port nb = false -> port ∉ map ne_proxy_port (live_entries nb).
Proof.
  intros H Hin. apply list_elem_of_fmap in Hin as (e & -> & He). apply list_elem_of_filter in He as [Hl He].
  assert (E : IsProxyPortInUse (ne_proxy_port e) nb = true); [|congruence].
  apply existsb_exists. exists e. split; [by apply list_elem_of_In|]. by rewrite Hl, Z.eqb_refl.
Qed.

(** The live entry with a port is the one that is found. *)
Lemma entry_of_port_found nb e :
  ports_distinct nb -> e ∈ nat_entries_ nb -> ne_live e = true ->
  entry_of_port (ne_proxy_port e) (ne_proto e) nb = Some e.
Proof.
  intros Hd He Hl. unfold entry_of_port. destruct (first_such _ _) as [x|] eqn:Ef.
  - apply first_such_Some in Ef as [Hx HP]. apply andb_true_iff in HP as [HP Hpr].
    apply andb_true_iff in HP as [Hlx Hpx]. apply Z.eqb_eq in Hpx. f_equal.
    assert (Hex : x ∈ live_entries nb) by (by apply list_elem_of_filter).
    assert (Hee : e ∈ live_entries nb) by (by apply list_elem_of_filter).
    apply list_elem_of_lookup in Hex as [a Ha]. apply list_elem_of_lookup in Hee as [b Hb].
    assert (a = b) as ->; [|congruence]. eapply (NoDup_lookup _ a b (ne_proxy_port x) Hd).
    + apply list_lookup_fmap_Some. by exists x.
    + apply list_lookup_fmap_Some. by exists e.
  - exfalso. pose proof (first_such_None _ _ Ef e He) as H. cbn beta in H. by rewrite Hl, !Z.eqb_refl in H.
Qed.

(** ** There and back

    A TCP segment, or a UDP datagram with a checksum, whose checksums are
    right. *)
Definition l4_checksum_at (proto : Z) : nat := if proto =? IPPROTO_TCP then 16 else 6.

Record segment (f : bytes) (proto : Z) : Prop := {
  sg_frame : ip_frame f;
  sg_type : get 2 o_eth_type f = 0x0800;
  sg_proto : get 1 o_proto f = proto;
  sg_size : (match l4_hdr_size proto with Some n => n | None => 0 end <= l4_len f)%nat;
  sg_udp : proto = IPPROTO_UDP -> get 2 (l4_off f + 6) f <> 0;
  sg_ok : l4_ok f
}.

(** The endpoint the guest addresses when it talks to the entry. *)
Definition shown_ip (e : NatEntry) : Z := if negb (ne_guestfwd_ip e =? 0) then ne_guestfwd_ip e else ne_real_dst_ip e.
Definition shown_port (e : NatEntry) : Z :=
  if negb (ne_guestfwd_port e =? 0) then ne_guestfwd_port e else ne_real_dst_port e.

(** Entries as they are made: those of a guest forward carry its address. *)
Record entry_ok (e : NatEntry) : Prop := {
  eok_proto : ne_proto e = IPPROTO_TCP \/ ne_proto e = IPPROTO_UDP;
  eok_local : ne_gateway_local e = true -> ne_guestfwd_ip e <> 0;
  eok_ip : in_width 32 (ne_guestfwd_ip e) /\ in_width 32 (ne_real_dst_ip e);
  eok_port : in_width 16 (ne_guestfwd_port e) /\ in_width 16 (ne_real_dst_port e) /\ in_width 16 (ne_proxy_port e)
}.

(** The same frame but for the address, the port and the checksums. *)
Definition same_but (ipo po : nat) (proto : Z) (f g : bytes) : Prop :=
  length g = length f /\ l4_off g = l4_off f
  /\ forall i, ~ (o_checksum <= i < o_checksum + 2)%nat ->
       ~ (l4_off f + l4_checksum_at proto <= i < l4_off f + l4_checksum_at proto + 2)%nat ->
       ~ (l4_off f + po <= i < l4_off f + po + 2)%nat -> ~ (ipo <= i < ipo + 4)%nat -> g !! i = f !! i.

Lemma rewrite_l4_segment f proto ipo po new_ip new_port :
  segment f proto -> proto = IPPROTO_TCP \/ proto = IPPROTO_UDP ->
  rewrite_l4 proto ipo po new_ip new_port f = update_port ipo po (l4_checksum_at proto) new_ip new_port f.
Proof.
  intros [] [-> | ->]; unfold rewrite_l4, l4_checksum_at; cbn [Z.eqb IPPROTO_TCP IPPROTO_UDP]; [done|].
  change (IPPROTO_UDP =? IPPROTO_TCP) with false. change (IPPROTO_UDP =? IPPROTO_UDP) with true. cbv match.
  destruct (Z.eqb_spec (get 2 (l4_off f + 6) f) 0) as [E|_]; [by specialize (sg_udp0 eq_refl)|done].
Qed.

(** Rewriting a segment's endpoint gives a segment. *)
Lemma rewrite_segment f proto ipo po new_ip new_port :
  segment f proto -> proto = IPPROTO_TCP \/ proto = IPPROTO_UDP ->
  ipo = o_src_ip \/ ipo = o_dst_ip -> po = 0%nat \/ po = 2%nat -> in_width 32 new_ip -> in_width 16 new_port ->
  exists g, RecalcIpChecksum (put 4 ipo new_ip (rewrite_l4 proto ipo po new_ip new_port f)) = Some g
    /\ ip_frame g /\ ip_ok g /\ l4_ok g /\ get 4 ipo g = new_ip /\ get 2 (l4_off f + po) g = new_port
    /\ same_but ipo po proto f g.
Proof.
  intros Hs Hp Hi Hpo Hip Hport. rewrite rewrite_l4_segment by done. destruct Hs.
  assert (Hlen : (l4_checksum_at proto + 2 <= l4_len f)%nat).
  { destruct Hp as [-> | ->]; cbn in sg_size0 |- *; unfold sizeof_TcpHdr, sizeof_UdpHdr in *; lia. }
  destruct (rewrite_endpoint_ok f ipo po (l4_checksum_at proto) new_ip new_port) as (g & H1 & H2 & H3 & H4 & H5 & H6 & H7 & H8 & H9).
  - done.
  - split; [done|done| |done]. destruct Hp as [-> | ->]; cbn; [split; [lia|by exists 8%nat]|split; [lia|by exists 3%nat]].
  - done.
  - done.
  - rewrite sg_proto0. by destruct Hp as [-> | ->].
  - done.
  - exists g. repeat (split; [done|]). done.
Qed.

Lemma shown_width e : entry_ok e -> in_width 32 (shown_ip e) /\ in_width 16 (shown_port e).
Proof. intros []. unfold shown_ip, shown_port. split; [case_match; tauto|case_match; tauto]. Qed.

(** A frame lwIP sends from an entry's proxy port reaches the guest as one
    from the endpoint the guest addressed. *)
Lemma ReverseRewrite_shows nb e r :
  ports_distinct nb -> e ∈ nat_entries_ nb -> ne_live e = true -> entry_ok e ->
  segment r (ne_proto e) -> get 4 o_src_ip r = kGatewayIp -> get 2 (l4_off r) r = ne_proxy_port e ->
  exists r', ReverseRewrite nb r = Some r' /\ ip_ok r' /\ l4_ok r'
    /\ get 4 o_src_ip r' = shown_ip e /\ get 2 (l4_off r') r' = shown_port e
    /\ same_but o_src_ip 0 (ne_proto e) r r'.
Proof.
  intros Hd He Hl Hok Hs Hsrc Hport. destruct (shown_width e Hok) as [Hwi Hwp].
  destruct (rewrite_segment r (ne_proto e) o_src_ip 0 (shown_ip e) (shown_port e) Hs (eok_proto _ Hok)) as
    (r' & H1 & H2 & H3 & H4 & H5 & H6 & H7); [by left|by left|done|done|].
  exists r'. split; [|destruct H7 as (Hlen & Hoff & Hrest); rewrite Hoff, <- (Nat.add_0_r (l4_off r)) at 1; done].
  destruct Hs as [[Hb Hihl Hlen] Hty Hpr Hsz _ _]. unfold ReverseRewrite. unfold l4_off in Hlen at 1.
  assert (Hbig : (length r <? sizeof_EthHdr + sizeof_IpHdr)%nat = false).
  { apply Nat.ltb_ge. unfold sizeof_EthHdr, sizeof_IpHdr in *. lia. }
  rewrite Hbig, Hty, Hsrc, Hpr. change (negb (0x0800 =? 0x0800)) with false. rewrite (Z.eqb_refl kGatewayIp). cbn [negb].
  assert (Hhdr : exists n, l4_hdr_size (ne_proto e) = Some n /\ (n <= l4_len r)%nat).
  { destruct (eok_proto _ Hok) as [E|E]; rewrite E in *; eexists; split; [reflexivity|exact Hsz|reflexivity|exact Hsz]. }
  destruct Hhdr as (n & Hn & Hnl). rewrite Hn.
  assert (Hfits : (length r <? l4_off r + n)%nat = false) by (apply Nat.ltb_ge; unfold l4_off; lia).
  rewrite Hfits, Hport, entry_of_port_found by done. unfold reverse_with. rewrite Hpr.
  rewrite <- H1. unfold shown_ip, shown_port. destruct Hok as [_ Hloc _ _].
  destruct (Z.eqb_spec (ne_guestfwd_ip e) 0) as [E|E]; cbn [negb].
  - destruct (ne_gateway_local e); [by specialize (Hloc eq_refl)|]. reflexivity.
  - by rewrite orb_true_r.
Qed.

(** C5. Address translation is undone by its reverse.  A flow's segment is
    rewritten to the gateway's proxy port with both checksums valid and no
    other byte changed; and every segment that comes back from this port is
    rewritten to come from the address and port the guest had dialled, again
    with valid checksums and no other byte changed. *)
Theorem nat_roundtrip nb e f :
  ports_distinct nb -> e ∈ nat_entries_ nb -> ne_live e = true -> entry_ok e ->
  segment f (ne_proto e) -> get 4 o_dst_ip f = shown_ip e -> get 2 (l4_off f + 2) f = shown_port e ->
  exists g, rewrite_to_gateway e f = Some g /\ ip_ok g /\ l4_ok g
    /\ get 4 o_dst_ip g = kGatewayIp /\ get 2 (l4_off f + 2) g = ne_proxy_port e
    /\ same_but o_dst_ip 2 (ne_proto e) f g
    /\ forall r, segment r (ne_proto e) ->
         get 4 o_src_ip r = kGatewayIp -> get 2 (l4_off r) r = ne_proxy_port e ->
         exists r', ReverseRewrite nb r = Some r' /\ ip_ok r' /\ l4_ok r'
           /\ get 4 o_src_ip r' = get 4 o_dst_ip f /\ get 2 (l4_off r') r' = get 2 (l4_off f + 2) f
           /\ same_but o_src_ip 0 (ne_proto e) r r'.
Proof.
  intros Hd He Hl Hok Hs Hip Hport.
  destruct (rewrite_segment f (ne_proto e) o_dst_ip 2 kGatewayIp (ne_proxy_port e) Hs (eok_proto _ Hok)) as
    (g & H1 & H2 & H3 & H4 & H5 & H6 & H7); [by right|by right|by vm_compute|apply Hok|].
  exists g. do 6 (split; [done|]). intros r Hr Hsrc Hp. rewrite Hip, Hport. by apply ReverseRewrite_shows.
Qed.

(** A connection to 1.2.3.4 port 80: the guest's SYN and lwIP's answer. *)
Definition demo_tcp (src dst sport dport flags : Z) : bytes :=
  let tcp ck := be_bytes 2 sport ++ be_bytes 2 dport ++ be_bytes 4 0 ++ be_bytes 4 0 ++ [0x50; flags] ++ be_bytes 2 8192
    ++ be_bytes 2 ck ++ be_bytes 2 0 in
  let frame ck := default [] (BuildIpFrame kGatewayMac kGuestMac src dst IPPROTO_TCP (tcp ck) 1) in
  frame (ChecksumFold (pseudo_sum (frame 0) + wsum (l4_seg (frame 0)))).
Definition demo_syn : bytes := Eval vm_compute in demo_tcp kGuestIp 0x01020304 4000 80 2.
Definition demo_syn_ack : bytes := Eval vm_compute in demo_tcp kGatewayIp kGuestIp 10000 4000 18.
Definition demo_nat_entry : NatEntry :=
  MkNat 0 IPPROTO_TCP kGuestIp 4000 0x01020304 80 10000 false 0 0 Listening (Some 1) None None [] [] [] 0 PollHandle_new.
Definition demo_nat : NetBackend := nb_set_nat_entries [demo_nat_entry] NetBackend_new.

Lemma demo_segment f : f = demo_syn \/ f = demo_syn_ack -> segment f IPPROTO_TCP.
Proof.
  intros Hf. assert (Hb : bytes_ok f).
  { apply bytes_okb_ok. by destruct Hf as [-> | ->]. }
  destruct Hf as [-> | ->]; (split; [split; [exact Hb|by apply Nat.leb_le|by apply Nat.leb_le]|done|done|by apply Nat.leb_le|done|by vm_compute]).
Qed.

Lemma demo_entry_ok : entry_ok demo_nat_entry.
Proof. by constructor; [left|..]. Qed.

Lemma nat_roundtrip_witness : exists g r', rewrite_to_gateway demo_nat_entry demo_syn = Some g
  /\ ReverseRewrite demo_nat demo_syn_ack = Some r' /\ get 4 o_src_ip r' = 0x01020304 /\ get 2 (l4_off r') r' = 80.
Proof.
  destruct (nat_roundtrip demo_nat demo_nat_entry demo_syn) as (g & Hg & _ & _ & _ & _ & _ & Hr).
  - apply NoDup_singleton.
  - left.
  - reflexivity.
  - apply demo_entry_ok.
  - apply demo_segment. by left.
  - reflexivity.
  - reflexivity.
  - destruct (Hr demo_syn_ack) as (r' & H1 & _ & _ & H2 & H3 & _);
      [apply demo_segment; by right|reflexivity|reflexivity|].
    exists g, r'. split; [exact Hg|]. split; [exact H1|]. split; [exact H2|exact H3].
Defined.

(** ** Making an entry *)

Lemma find_entry_ptr p nb e : find_entry p nb = Some e -> ne_ptr e = p.
Proof.
  unfold find_entry. intros H. apply bind_Some in H as ([i x] & H & [= ->]). by apply list_find_Some in H as (_ & ? & _).
Qed.

Lemma list_find_map_ptr p f l :
  (forall e, ne_ptr (f e) = ne_ptr e) ->
  forall q, list_find (fun e => ne_ptr e = q) (map (fun e => if bool_decide (ne_ptr e = p) then f e else e) l) ≫= (fun '(_, e) => Some e)
  = (if bool_decide (q = p) then f else id) <$> (list_find (fun e => ne_ptr e = q) l ≫= (fun '(_, e) => Some e)).
Proof.
  intros Hf q. induction l as [|e l IH]; [done|]. cbn [map list_find].
  set (g := if bool_decide (ne_ptr e = p) then f e else e).
  assert (Hg : ne_ptr g = ne_ptr e) by (unfold g; destruct (bool_decide (ne_ptr e = p)); [apply Hf|done]). rewrite Hg.
  destruct (decide (ne_ptr e = q)) as [E|E].
  - cbn. unfold g. subst q. by destruct (bool_decide (ne_ptr e = p)).
  - destruct (list_find (fun e => ne_ptr e = q) l) as [[i x]|], (list_find (fun e => ne_ptr e = q) (map _ l)) as [[j y]|];
      cbn in *; done.
Qed.

Lemma find_map_entry p f q nb :
  (forall e, ne_ptr (f e) = ne_ptr e) ->
  find_entry q (map_entry p f nb) = (if bool_decide (q = p) then f else id) <$> find_entry q nb.
Proof. intros Hf. unfold find_entry, map_entry. cbn. by apply list_find_map_ptr. Qed.


(** An entry but for its poll handle. *)
Definition unpolled (e : NatEntry) : NatEntry := set_ne_poll PollHandle_new e.
Definition table (nb : NetBackend) : list NatEntry := map unpolled (nat_entries_ nb).

(** What the table's operations rely on. *)
Record nat_inv (nb : NetBackend) : Prop := {
  ni_ports : ports_distinct nb;
  ni_range : Forall (fun e => port_in_range (ne_proxy_port e)) (nat_entries_ nb);
  ni_next : port_in_range (next_proxy_port_ nb);
  ni_ptrs : Forall (fun e => (ne_ptr e < next_ptr nb)%nat) (nat_entries_ nb);
  ni_room : Z.of_nat (length (live_entries nb)) < kMaxPort - kMinPort;
  ni_entries : Forall entry_ok (nat_entries_ nb)
}.

Lemma ports_of_table nb :
  map ne_proxy_port (live_entries nb) = map ne_proxy_port (filter (fun e => ne_live e = true) (table nb)).
Proof.
  unfold live_entries, table. induction (nat_entries_ nb) as [|e l IH]; [done|]. cbn [map].
  rewrite !filter_cons. change (ne_live (unpolled e)) with (ne_live e). destruct (decide (ne_live e = true)); [|done].
  cbn [map]. by rewrite IH.
Qed.

(** The search depends on the table and the next port. *)
Lemma AllocProxyPort_ext nb nb' :
  nat_entries_ nb = nat_entries_ nb' -> next_proxy_port_ nb = next_proxy_port_ nb' ->
  AllocProxyPort nb = AllocProxyPort nb'.
Proof.
  intros He Hn. unfold AllocProxyPort. rewrite Hn. generalize (Z.to_nat (kMaxPort - kMinPort)) (next_proxy_port_ nb').
  induction n as [|n IH]; intros next; [done|]. cbn [alloc_loop]. unfold IsProxyPortInUse. rewrite He, IH. done.
Qed.

Section create.
Context {W : Type} (os : forall c : Call, W -> Reply c * W).
#[local] Abbreviation IoSt := (IoState NetBackend W Reply).

Lemma wp_field {A} (f : NetBackend -> A) (Q : A -> IoSt -> Prop) st : Q (f (io_state st)) st -> wp (field f) Q st.
Proof. done. Qed.
Lemma wp_alloc_ptr (Q : nat -> IoSt -> Prop) st :
  Q (next_ptr (io_state st)) (MkIo (nb_set_next_ptr (S (next_ptr (io_state st))) (io_state st)) (io_world st) (io_trace st)) ->
  wp alloc_ptr Q st.
Proof. done. Qed.

(** The table, the ports and the addresses are as they were. *)
Definition same_table (st st' : IoSt) : Prop :=
  table (io_state st') = table (io_state st) /\ next_proxy_port_ (io_state st') = next_proxy_port_ (io_state st)
  /\ next_ptr (io_state st') = next_ptr (io_state st).

#[local] Instance same_table_refl : Reflexive same_table.
Proof. done. Qed.
#[local] Instance same_table_trans : Transitive same_table.
Proof. intros a b c (H1 & H2 & H3) (H4 & H5 & H6). unfold same_table. repeat split; congruence. Qed.

Notation keeps := (respects same_table).

Lemma table_host c : keeps (NetHost.host os c).
Proof. intros st. by apply io_wp_host. Qed.
Lemma table_field {A} (f : NetBackend -> A) : keeps (field f).
Proof. intros st. by apply io_wp_bind. Qed.
Lemma table_entry r : keeps (entry r).
Proof. apply respects_bind; [apply _|apply table_field|]. intros o. apply respects_the, _. Qed.
Lemma table_upd_poll p f : keeps (upd_poll (HNat p) f).
Proof.
  intros st. apply io_wp_modify. unfold same_table, table, map_entry. cbn. split; [|done]. rewrite map_map.
  apply map_ext. intros e. by case_bool_decide.
Qed.

Create HintDb table.
Hint Resolve table_field table_entry table_upd_poll : table.

Ltac table_auto := respects_auto ltac:(first [ match goal with |- respects _ (NetHost.host _ ?c) => apply (table_host c) end | solve [eauto with table nocore] ]).

Lemma table_call c : keeps (NetHost.call os c).
Proof. unfold NetHost.call. table_auto. Qed.
Hint Resolve table_call : table.
Lemma table_inject f : keeps (InjectFrame os f).
Proof. unfold InjectFrame. table_auto. Qed.
Hint Resolve table_inject : table.
Lemma table_link_output f : keeps (LwipLinkOutput os f).
Proof. unfold LwipLinkOutput. table_auto. Qed.
Hint Resolve table_link_output : table.
Lemma table_lwip_ c : keeps (lwip_ os c).
Proof. unfold lwip_, lwip. table_auto. Qed.
Lemma table_poll_of p : keeps (poll_of (HNat p)).
Proof. cbn [poll_of]. table_auto. Qed.
Hint Resolve table_poll_of : table.
Lemma table_UpdateNatPoll p : keeps (UpdateNatPoll os p).
Proof. unfold UpdateNatPoll, Poll_Stop, Poll_Init, Poll_Start. table_auto. Qed.

(** A new entry, but for the time it is made. *)
Definition made (p : nat) (guest_ip guest_port dst_ip dst_port proto port : Z) (e : NatEntry) : Prop :=
  exists st listen sock now, st <> Closed /\
    e = MkNat p proto guest_ip guest_port dst_ip dst_port port false 0 0 st listen None sock [] [] [] now PollHandle_new.

(** The result of [CreateNatEntry]. *)
Definition created (nb : NetBackend) (gi gp di dp proto : Z) (o : option nat) (nb' : NetBackend) : Prop :=
  next_ptr nb' = S (next_ptr nb) /\ next_proxy_port_ nb' = snd (AllocProxyPort nb) /\
  match o with
  | None => table nb' = table nb
  | Some p => p = next_ptr nb /\ exists e, made p gi gp di dp proto (fst (AllocProxyPort nb)) e /\ table nb' = table nb ++ [e]
  end.

Lemma CreateNatEntry_created gi gp di dp proto st :
  wp (CreateNatEntry os gi gp di dp proto) (fun o st' => created (io_state st) gi gp di dp proto o (io_state st')) st.
Proof.
  apply io_wp_bind, wp_alloc_ptr. apply io_wp_bind, wp_field. rewrite (AllocProxyPort_ext _ (io_state st)) by done.
  destruct (AllocProxyPort (io_state st)) as [port next] eqn:Ea.
  apply io_wp_bind, io_wp_modify. set (stA := MkIo _ _ _).
  assert (HA : table (io_state stA) = table (io_state st) /\ next_proxy_port_ (io_state stA) = next
               /\ next_ptr (io_state stA) = S (next_ptr (io_state st))) by done. clearbody stA. destruct HA as (HA1 & HA2 & HA3).
  assert (Hnone : forall st', same_table stA st' -> created (io_state st) gi gp di dp proto None (io_state st')).
  { intros st' (H1 & H2 & H3). unfold created. rewrite Ea. cbn. rewrite H1, H2, H3. done. }
  assert (Hpush : forall e st', same_table stA st' -> made (next_ptr (io_state st)) gi gp di dp proto port e ->
    wp (push_entry e;; UpdateNatPoll os (next_ptr (io_state st));; mret (Some (next_ptr (io_state st))))
      (fun o st' => created (io_state st) gi gp di dp proto o (io_state st')) st').
  { intros e st' (H1 & H2 & H3) He. apply io_wp_bind, io_wp_modify. apply io_wp_bind.
    eapply io_wp_mono; [apply table_UpdateNatPoll|]. intros [] st2 (H4 & H5 & H6). apply io_wp_ret. unfold created. rewrite Ea.
    cbn [io_state fst snd] in *. split; [rewrite H6; cbn; congruence|]. split; [rewrite H5; cbn; congruence|]. split; [done|].
    exists e. split; [done|]. rewrite H4. unfold table in *. cbn [nat_entries_ nb_set_nat_entries]. rewrite map_app.
    rewrite H1, HA1. f_equal. destruct He as (? & ? & ? & ? & _ & ->). done. }
  apply io_wp_bind. eapply io_wp_mono; [apply (table_host GetMonotonicMs)|]. intros now st0 H0. cbv zeta.
  destruct (proto =? IPPROTO_TCP).
  - apply io_wp_bind. eapply io_wp_mono; [apply (table_host TcpNew)|]. intros pcb st1 H1.
    apply io_wp_bind. eapply io_wp_mono; [apply (table_call (TcpBind pcb port))|]. intros [] st2 H2.
    apply io_wp_bind. eapply io_wp_mono; [apply (table_host (TcpListen pcb))|]. intros l st3 H3.
    assert (H13 : same_table stA st3) by (etransitivity; [exact H0|etransitivity; [exact H1|etransitivity; [exact H2|exact H3]]]).
    destruct l as [l|].
    + apply io_wp_bind. eapply io_wp_mono; [apply (table_call (TcpArg l _))|]. intros [] st4 H4.
      apply io_wp_bind. eapply io_wp_mono; [apply (table_call (TcpAcceptCb l true))|]. intros [] st5 H5.
      apply Hpush; [etransitivity; [exact H13|etransitivity; [exact H4|exact H5]]|]. eexists _, _, _, _; split; [|reflexivity]; done.
    + apply io_wp_bind. eapply io_wp_mono; [apply (table_lwip_ (TcpClose pcb))|]. intros [] st4 H4. apply io_wp_ret.
      apply Hnone. etransitivity; [exact H13|exact H4].
  - apply io_wp_bind. eapply io_wp_mono; [apply (table_host (Socket SK_Dgram))|]. intros s st1 H1.
    assert (H01 : same_table stA st1) by (etransitivity; [exact H0|exact H1]). destruct s as [s|].
    + apply Hpush; [exact H01|]. eexists _, _, _, _; split; [|reflexivity]; done.
    + apply io_wp_ret. by apply Hnone.
Qed.

(** C17. The entry made for a flow, where one is made: with fewer live entries
    than there are proxy ports, its port was free and lies between 10000 and
    60000, the ports of the live entries stay distinct and those of all
    entries in that range ([nat_inv]), and the entry is one whose replies the
    guest sees coming from the endpoint it addressed. *)
Theorem CreateNatEntry_ok gi gp di dp proto st p st' :
  nat_inv (io_state st) -> Z.of_nat (length (live_entries (io_state st))) + 1 < kMaxPort - kMinPort ->
  proto = IPPROTO_TCP \/ proto = IPPROTO_UDP -> in_width 32 di -> in_width 16 dp ->
  CreateNatEntry os gi gp di dp proto st = Some (Some p, st') ->
  nat_inv (io_state st')
  /\ exists e, e ∈ nat_entries_ (io_state st') /\ ne_ptr e = p /\ ne_proto e = proto /\ ne_live e = true
       /\ port_in_range (ne_proxy_port e) /\ IsProxyPortInUse (ne_proxy_port e) (io_state st) = false
       /\ entry_ok e /\ shown_ip e = di /\ shown_port e = dp.
Proof.
  intros [Hd Hin0 Hn Hp Hr He] Hroom Hproto Hdi Hdp Hrun.
  pose proof (wp_run _ _ _ _ _ (CreateNatEntry_created gi gp di dp proto st) Hrun) as (Hptr & Hnext & -> & e & Hmade & Htab).
  pose proof (AllocProxyPort_free (io_state st) Hn Hr) as Hfree.
  destruct (AllocProxyPort (io_state st)) as [port next]. cbn [fst snd] in *. destruct Hfree as (Hf & Hport & Hnx).
  destruct Hmade as (x & l & s & now & Hx & ->).
  assert (Hw : in_width 16 port).
  { unfold port_in_range, kMinPort, kMaxPort in Hport. split; [lia|]. change (2 ^ 16) with 65536. lia. }
  set (e := MkNat _ _ _ _ _ _ _ _ _ _ _ _ _ _ _ _ _ _ _) in *.
  assert (Hlive : ne_live e = true) by (unfold ne_live, is_state; by rewrite bool_decide_false).
  assert (Hok : entry_ok e) by (by constructor).
  assert (Hports : map ne_proxy_port (live_entries (io_state st')) = map ne_proxy_port (live_entries (io_state st)) ++ [port]).
  { rewrite !ports_of_table, Htab, filter_app, map_app. f_equal. rewrite filter_cons_True by exact Hlive. done. }
  assert (Hall : forall P : NatEntry -> Prop, (forall a, P (unpolled a) <-> P a) ->
    (forall a, a ∈ nat_entries_ (io_state st) -> P a) -> P e -> Forall P (nat_entries_ (io_state st'))).
  { intros P HP Hold Hnew. apply Forall_forall. intros a Ha. apply HP.
    assert (Hin : unpolled a ∈ table (io_state st')) by (apply list_elem_of_fmap; by exists a).
    rewrite Htab in Hin. apply elem_of_app in Hin as [Hin|Hin].
    - apply list_elem_of_fmap in Hin as (b & Eb & Hb). rewrite Eb. by apply HP, Hold.
    - apply list_elem_of_singleton in Hin. by rewrite Hin. }
  split.
  - constructor.
    + unfold ports_distinct in *. rewrite Hports. apply NoDup_app. split; [done|]. split; [|apply NoDup_singleton].
      intros q Hq Hq'. apply list_elem_of_singleton in Hq'. subst q. by eapply free_not_elem.
    + apply Hall; [done|by apply Forall_forall|exact Hport].
    + by rewrite Hnext.
    + rewrite Hptr. apply Hall; [done| |cbn; lia]. rewrite Forall_forall in Hp. intros a Ha. specialize (Hp a Ha). lia.
    + apply (f_equal length) in Hports. rewrite length_app, !length_map in Hports. rewrite Hports. cbn. lia.
    + apply Hall; [|by apply Forall_forall|done]. intros a. split; intros []; by constructor.
  - assert (Hin : e ∈ table (io_state st')) by (rewrite Htab; apply elem_of_app; right; by apply list_elem_of_singleton).
    apply list_elem_of_fmap in Hin as (a & Ea & Ha). exists a. split; [done|].
    assert (Hacc : ne_ptr a = ne_ptr e /\ ne_proto a = ne_proto e /\ ne_live a = ne_live e /\ shown_ip a = shown_ip e
                   /\ shown_port a = shown_port e /\ ne_proxy_port a = ne_proxy_port e) by (by rewrite Ea).
    destruct Hacc as (-> & -> & -> & -> & -> & ->). change (ne_proxy_port e) with port. repeat (split; [done|]). split; [|done].
    rewrite Ea in Hok. destruct Hok. by constructor.
Qed.
End create.

(** ** Cleanup frees no handle libuv still owns

    libuv owns a poll handle from its initialisation until its close callback
    has run; the entry's memory holds it. *)
Definition owned (ph : PollHandle) : bool := ph_inited ph && negb (ph_closed ph).

Section cleanup.
Context {W : Type} (os : forall c : Call, W -> Reply c * W).
#[local] Abbreviation IoSt := (IoState NetBackend W Reply).

Definition handle (e : NatEntry) : nat * bool := (ne_ptr e, owned (ne_poll e)).
Definition handles (st : IoSt) : list (nat * bool) := map handle (nat_entries_ (io_state st)).
Definition same_handles (st st' : IoSt) : Prop := handles st' = handles st.

#[local] Instance same_handles_refl : Reflexive same_handles.
Proof. done. Qed.
#[local] Instance same_handles_trans : Transitive same_handles.
Proof. intros a b c H1 H2. unfold same_handles in *. congruence. Qed.

Lemma handles_host c : respects same_handles (NetHost.host os c).
Proof. intros st. by apply io_wp_host. Qed.
Lemma handles_field {A} (f : NetBackend -> A) : respects same_handles (field f).
Proof. intros st. by apply io_wp_bind. Qed.
Lemma handles_upd p f : (forall e, handle (f e) = handle e) -> respects same_handles (upd p f).
Proof.
  intros Hf st. apply io_wp_modify. unfold same_handles, handles, map_entry. cbn. rewrite map_map. apply map_ext.
  intros e. case_bool_decide; [apply Hf|done].
Qed.
Lemma handles_modify f : (forall nb, nat_entries_ (f nb) = nat_entries_ nb) -> respects same_handles (modify f).
Proof. intros Hf st. apply io_wp_modify. unfold same_handles, handles. cbn. by rewrite Hf. Qed.

Create HintDb handles.
Hint Resolve handles_field : handles.
Ltac handles_auto := respects_auto ltac:(first
  [ match goal with |- respects _ (NetHost.host _ ?c) => apply (handles_host c) end
  | by apply handles_upd | by apply handles_modify | solve [eauto with handles nocore] ]).

Lemma handles_entry p : respects same_handles (entry p).
Proof. unfold entry. handles_auto. Qed.
Lemma handles_call c : respects same_handles (NetHost.call os c).
Proof. unfold NetHost.call. handles_auto. Qed.
Hint Resolve handles_entry handles_call : handles.
Lemma handles_lwip_ c : respects same_handles (lwip_ os c).
Proof. unfold lwip_, lwip, LwipLinkOutput, InjectFrame. handles_auto. Qed.
Lemma handles_poll_of p : respects same_handles (poll_of (HNat p)).
Proof. cbn [poll_of]. handles_auto. Qed.
Hint Resolve handles_lwip_ handles_poll_of : handles.
Lemma handles_Poll_Stop p : respects same_handles (Poll_Stop os (HNat p)).
Proof. unfold Poll_Stop, upd_poll. handles_auto. Qed.
Hint Resolve handles_Poll_Stop : handles.
Lemma handles_Poll_Close p : respects same_handles (Poll_Close os (HNat p)).
Proof. unfold Poll_Close, upd_poll. handles_auto. Qed.
Hint Resolve handles_Poll_Close : handles.
Lemma handles_release p : respects same_handles (release_entry os p).
Proof. unfold release_entry, CloseHostSocket, DeferSocketClose, detach. handles_auto. Qed.

(** The handle of the entry with an address. *)
Lemma find_entry_handle st p e :
  NoDup (map fst (handles st)) -> find_entry p (io_state st) = Some e -> forall b, (p, b) ∈ handles st -> b = owned (ne_poll e).
Proof.
  intros Hd Hf b Hb. pose proof (find_entry_ptr _ _ _ Hf) as Hp. unfold find_entry in Hf.
  apply bind_Some in Hf as ([i x] & Hx & [= ->]). apply list_find_Some in Hx as (Hx & _ & _).
  apply list_elem_of_lookup in Hb as [j Hj].
  assert (Hi : handles st !! i = Some (handle e)) by (unfold handles; by rewrite list_lookup_fmap, Hx).
  assert (i = j) as ->.
  { eapply (NoDup_lookup _ i j p Hd); apply list_lookup_fmap_Some; eexists; (split; [|done]); by rewrite <- Hp || done. }
  rewrite Hj in Hi. by injection Hi.
Qed.

(** An iteration erases only an entry whose handle is free. *)
Lemma cleanup_at_keeps now i p st :
  NoDup (map fst (handles st)) -> (p, true) ∈ handles st ->
  wp (cleanup_at os now i) (fun _ st' => NoDup (map fst (handles st')) /\ (p, true) ∈ handles st') st.
Proof.
  intros Hd Hp. apply io_wp_bind, wp_field. apply io_wp_bind, wp_the. intros e He.
  destruct (is_stale now e); [|by apply io_wp_ret].
  apply io_wp_bind. eapply io_wp_mono; [apply handles_release|]. intros [] st1 H1. unfold same_handles in H1.
  apply io_wp_bind. apply io_wp_bind. apply io_wp_bind, wp_field. apply wp_the. intros e1 He1. apply io_wp_ret.
  assert (Hsame : forall (m : IO NetBackend W Reply unit) st2, handles st2 = handles st -> respects same_handles m ->
    wp (m ≫= fun _ => upd (ne_ptr e) (set_ne_state Closed);; mret (S i))
      (fun _ st' => NoDup (map fst (handles st')) /\ (p, true) ∈ handles st') st2).
  { intros m st2 H2 Hm. apply io_wp_bind. eapply io_wp_mono; [apply Hm|]. intros [] st3 H3. apply io_wp_bind.
    eapply io_wp_mono; [by apply handles_upd|]. intros [] st4 H4. apply io_wp_ret. unfold same_handles in *.
    rewrite H4, H3, H2. done. }
  destruct (ph_inited (ne_poll e1) && negb (ph_closing (ne_poll e1))) eqn:E1; [apply Hsame; [done|apply handles_Poll_Close]|].
  destruct (ph_closing (ne_poll e1) && negb (ph_closed (ne_poll e1))) eqn:E2.
  { apply io_wp_bind. eapply io_wp_mono; [by apply handles_upd|]. intros [] st2 H2. apply io_wp_ret. unfold same_handles in H2.
    rewrite H2, H1. done. }
  (* the handle of the entry at [i] is free, so it is not [p] *)
  assert (Hfree : owned (ne_poll e1) = false).
  { unfold owned. destruct (ph_inited _), (ph_closing _), (ph_closed _); done. }
  assert (Hi : handles st !! i = Some (handle e)) by (unfold handles; by rewrite list_lookup_fmap, He).
  assert (Hown : owned (ne_poll e) = owned (ne_poll e1)).
  { apply (find_entry_handle st1 (ne_ptr e) e1); [by rewrite H1|done|]. rewrite H1. by eapply list_elem_of_lookup_2. }
  apply io_wp_bind, io_wp_modify, io_wp_ret.
  assert (Hh : handles (MkIo (nb_set_nat_entries (take i (nat_entries_ (io_state st1)) ++ drop (S i) (nat_entries_ (io_state st1)))
      (io_state st1)) (io_world st1) (io_trace st1)) = take i (handles st) ++ drop (S i) (handles st)).
  { rewrite <- H1. unfold handles. cbn. by rewrite map_app, firstn_map, skipn_map. }
  rewrite Hh. pose proof (take_drop_middle _ _ _ Hi) as Hm. rewrite <- Hm in Hd, Hp.
  rewrite map_app in Hd. cbn [map] in Hd. rewrite map_app. split.
  - apply NoDup_app in Hd as (Hd1 & Hd2 & Hd3). apply NoDup_cons in Hd3 as [_ Hd3]. apply NoDup_app.
    split; [done|]. split; [|done]. intros x Hx Hx'. apply (Hd2 x Hx). by right.
  - apply elem_of_app. apply elem_of_app in Hp as [Hp|Hp]; [by left|]. apply elem_of_cons in Hp as [Hp|Hp]; [|by right].
    unfold handle in Hp. injection Hp as _ Hp. congruence.
Qed.

Lemma cleanup_loop_keeps fuel : forall now i p st,
  NoDup (map fst (handles st)) -> (p, true) ∈ handles st ->
  wp (cleanup_loop os fuel now i) (fun _ st' => (p, true) ∈ handles st') st.
Proof.
  induction fuel as [|fuel IH]; intros now i p st Hd Hp; cbn [cleanup_loop]; [by apply io_wp_ret|].
  apply io_wp_bind, wp_field. destruct (i <? _)%nat; [|by apply io_wp_ret].
  apply io_wp_bind. eapply io_wp_mono; [by apply cleanup_at_keeps|]. intros j st1 [H1 H2]. by apply IH.
Qed.

(** [CleanupStaleEntries] frees no entry whose poll handle libuv still owns:
    an entry whose handle is initialised and whose close callback has not run
    is in the table afterwards, at the same address and still owned, however
    stale it is and whatever the calls it makes answer. *)
Theorem cleanup_keeps_owned st st' e :
  NoDup (map ne_ptr (nat_entries_ (io_state st))) -> e ∈ nat_entries_ (io_state st) -> owned (ne_poll e) = true ->
  CleanupStaleEntries os st = Some (tt, st') ->
  exists e', e' ∈ nat_entries_ (io_state st') /\ ne_ptr e' = ne_ptr e /\ owned (ne_poll e') = true.
Proof.
  intros Hd He Ho Hrun.
  assert (Hp : (ne_ptr e, true) ∈ handles st) by (apply list_elem_of_fmap; exists e; split; [by unfold handle; rewrite Ho|done]).
  assert (Hd' : NoDup (map fst (handles st))) by (unfold handles; by rewrite map_map).
  assert (Hw : wp (CleanupStaleEntries os) (fun _ st' => (ne_ptr e, true) ∈ handles st') st).
  { apply io_wp_bind. eapply io_wp_mono; [apply (handles_host GetMonotonicMs)|]. intros now st1 H1. unfold same_handles in H1.
    apply io_wp_bind, wp_field. apply cleanup_loop_keeps; by rewrite H1. }
  pose proof (wp_run _ _ _ _ _ Hw Hrun) as Hin. apply list_elem_of_fmap in Hin as (e' & [= Ep Eo] & He').
  exists e'. done.
Qed.
End cleanup.

(** A first connection. *)
Definition demo_boot : IoState NetBackend nat Reply := MkIo NetBackend_new 0%nat [].
Definition demo_made : IoState NetBackend nat Reply := Eval vm_compute in
  match CreateNatEntry demo_os kGuestIp 4000 0x01020304 80 IPPROTO_TCP demo_boot with
  | Some (_, st) => st
  | None => demo_boot
  end.

Lemma nat_inv_new : nat_inv NetBackend_new.
Proof. constructor; [apply NoDup_nil_2|by apply Forall_nil|done|by apply Forall_nil|done|by apply Forall_nil]. Qed.

Lemma CreateNatEntry_ok_witness : exists e, e ∈ nat_entries_ (io_state demo_made) /\ shown_ip e = 0x01020304 /\ shown_port e = 80.
Proof.
  destruct (CreateNatEntry_ok demo_os kGuestIp 4000 0x01020304 80 IPPROTO_TCP demo_boot 0 demo_made) as (_ & e & He & _ & _ & _ & _ & _ & _ & Hi & Hp).
  - apply nat_inv_new.
  - reflexivity.
  - left. reflexivity.
  - split; [discriminate|reflexivity].
  - split; [discriminate|reflexivity].
  - vm_compute. reflexivity.
  - exists e. split; [exact He|]. split; [exact Hi|exact Hp].
Defined.

(** A stale entry with an open handle is closed, and stays until libuv is
    done. *)
Definition demo_stale_entry : NatEntry :=
  MkNat 4 IPPROTO_UDP kGuestIp 5353 0x01020304 53 10001 false 0 0 Established None None (Some 9) [] [] [] 1
    (MkPoll true true false false).
Definition demo_stale : IoState NetBackend nat Reply := MkIo (nb_set_nat_entries [demo_stale_entry] NetBackend_new) 0%nat [].
Definition demo_cleaned : IoState NetBackend nat Reply := Eval vm_compute in
  match CleanupStaleEntries demo_os demo_stale with Some (_, st) => st | None => demo_stale end.

Lemma cleanup_keeps_owned_witness : exists e', e' ∈ nat_entries_ (io_state demo_cleaned) /\ ne_ptr e' = 4%nat /\ owned (ne_poll e') = true.
Proof.
  apply (cleanup_keeps_owned demo_os demo_stale demo_cleaned demo_stale_entry).
  - apply NoDup_singleton.
  - left.
  - reflexivity.
  - vm_compute. reflexivity.
Defined.

