(* ===== verification/NetRelay.v ===== *)
(** * The TCP relay of the NAT

    Models, from core/net/net_nat.cpp, lwIP's callbacks of a NAT entry
    ([OnTcpAccepted], [OnTcpRecv], [OnTcpErr], [OnTcpSent]), the event
    handler of its host socket ([OnNatPollEvent]) and the two drains between
    them, and the UDP receive path; from core/net/net_backend.cpp the lwIP
    timer's rescheduling and [FlushStalledGuestWrites]'s part on NAT entries. *)

From S2P Require Import Prelude.
From S2P Require Import HostIo.
From S2P Require Import StdString.
From S2P Require Import NetPacket.
From S2P Require Import NetHost.
From S2P Require Import NetNat.

Section net_relay.
Context {W : Type} (os : forall c : Call, W -> Reply c * W).

#[local] Abbreviation M := (IO NetBackend W Reply).
#[local] Abbreviation host := (NetHost.host os).
#[local] Abbreviation call := (NetHost.call os).
#[local] Abbreviation lwip := (NetNat.lwip os).
#[local] Abbreviation lwip_ := (NetNat.lwip_ os).

Definition is_nil (b : bytes) : bool := bool_decide (b = []).

Definition touch (p : nat) : M unit :=
  now ← host GetMonotonicMs;
  upd p (set_ne_last_active_ms now).

(** ** Drains *)

Definition DrainTcpToGuest (p : nat) : M unit :=
  e ← entry p;
  match ne_pending_to_guest e, ne_conn_pcb e with
  | [], _ | _, None => mret tt
  | data, Some pcb =>
      avail ← host (TcpSndbuf pcb);
      let to_write := Z.min avail (Z.of_nat (length data)) in
      when (0 <? to_write) (
        ok ← host (TcpWrite pcb (take (Z.to_nat to_write) data));
        when ok (
          lwip_ (TcpOutput pcb);;
          upd p (set_ne_pending_to_guest (drop (Z.to_nat to_write) data))))
  end.

(** [send]'s count is at most what it was given; more would erase behind
    the buffer. *)
Definition DrainTcpToHost (p : nat) : M unit :=
  e ← entry p;
  match ne_pending_to_host e with
  | [] => mret tt
  | data =>
      match ne_host_socket e with
      | None => upd p (set_ne_pending_to_host [])
      | Some s =>
          r ← host (Send s data);
          match r with
          | Sent n =>
              when (0 <? n) (
                if (length data <? Z.to_nat n)%nat then UB
                else upd p (set_ne_pending_to_host (drop (Z.to_nat n) data)))
          | SendErr would_block => when (negb would_block) (TeardownNatEntry os p)
          end
      end
  end.

(** ** lwIP's callbacks *)

(** The listener of the entry is closed after the accept callback. *)
Definition retire_listener (p : nat) : M unit :=
  e ← entry p;
  match ne_listen_pcb e with
  | None => mret tt
  | Some l =>
      call (TcpAcceptCb l false);;
      modify (fun nb => nb_set_deferred_listen_close (deferred_listen_close_ nb ++ [l]) nb);;
      upd p (set_ne_listen_pcb None)
  end.

Definition OnTcpAccepted (p : nat) (new_pcb : Pcb) : M unit :=
  e ← entry p;
  if negb (none (ne_conn_pcb e)) || negb (none (ne_host_socket e)) then
    call (TcpArg new_pcb None);;
    modify (fun nb => nb_set_deferred_conn_abort (deferred_conn_abort_ nb ++ [new_pcb]) nb)
  else
    upd p (set_ne_conn_pcb (Some new_pcb));;
    retire_listener p;;
    call (TcpArg new_pcb (Some (ANat p)));;
    call (TcpRecvCb new_pcb true);;
    call (TcpErrCb new_pcb true);;
    call (TcpSentCb new_pcb true);;
    s ← host (Socket SK_Stream);
    match s with
    | None =>
        DetachAndCloseLwipPcb os p;;
        upd p (set_ne_state Closed)
    | Some s =>
        r ← host (Connect s (ne_real_dst_ip e) (ne_real_dst_port e));
        match r with
        | ConnFailed =>
            call (SockClose s);;
            DetachAndCloseLwipPcb os p;;
            upd p (set_ne_state Closed)
        | _ =>
            upd p (set_ne_host_socket (Some s));;
            upd p (set_ne_state (match r with ConnOk => Established | _ => Connecting end));;
            UpdateNatPoll os p
        end
    end.

Definition OnTcpRecv (p : nat) (pcb : Pcb) (pbuf : option bytes) : M unit :=
  match pbuf with
  | None =>
      Poll_Stop os (HNat p);;
      CloseHostSocket os p;;
      detach os pcb;;
      lwip_ (TcpClose (Some pcb));;
      upd p (set_ne_conn_pcb None);;
      upd p (set_ne_state HalfClosed);;
      touch p
  | Some data =>
      lwip_ (TcpRecved pcb (Z.of_nat (length data)));;
      touch p;;
      e ← entry p;
      if is_state (ne_state e) Connecting then upd p (set_ne_pending_data (ne_pending_data e ++ data))
      else
        upd p (set_ne_pending_to_host (ne_pending_to_host e ++ data));;
        DrainTcpToHost p;;
        UpdateNatPoll os p
  end.

Definition OnTcpErr (p : nat) : M unit :=
  upd p (set_ne_conn_pcb None);;
  Poll_Stop os (HNat p);;
  CloseHostSocket os p;;
  upd p (set_ne_state Closed).

Definition OnTcpSent (p : nat) : M unit :=
  DrainTcpToGuest p;;
  e ← entry p;
  when (is_nil (ne_pending_to_guest e) && negb (none (ne_host_socket e))) (UpdateNatPoll os p).

(** A datagram lwIP delivered; no PCB's callback is set to it. *)
Definition OnUdpRecv (p : nat) (pbuf : option bytes) : M unit :=
  match pbuf with
  | None => mret tt
  | Some data =>
      e ← entry p;
      match ne_host_socket e with
      | None => mret tt
      | Some s => call (SendTo s data (ne_real_dst_ip e) (ne_real_dst_port e))
      end
  end.

(** ** The host socket *)

Definition HandleTcpReadable (p : nat) : M unit :=
  e ← entry p;
  r ← host (Recv (ne_host_socket e) 32768);
  match r with
  | None | Some [] =>
      DrainTcpToGuest p;;
      DetachAndCloseLwipPcb os p;;
      Poll_Stop os (HNat p);;
      e ← entry p;
      DeferSocketClose (ne_host_socket e);;
      upd p (set_ne_host_socket None);;
      upd p (set_ne_state HalfClosed);;
      touch p
  | Some data =>
      touch p;;
      upd p (fun e => set_ne_pending_to_guest (ne_pending_to_guest e ++ data) e);;
      DrainTcpToGuest p
  end.

Definition HandleUdpReadable (p : nat) : M unit :=
  e ← entry p;
  r ← host (RecvFrom (ne_host_socket e) 2048);
  match r with
  | None | Some ([], _) => mret tt
  | Some (data, _) =>
      touch p;;
      let reply_src_ip := if ne_gateway_local e then kGatewayIp else ne_real_dst_ip e in
      id ← host Rand;
      f ← the (BuildUdpFrame kGuestMac kGatewayMac reply_src_ip (ne_guest_ip e) (ne_real_dst_port e)
                 (ne_guest_port e) data id);
      InjectFrame os f
  end.

(** [sleep_ms] of the next lwIP timer. *)
Definition SYS_TIMEOUTS_SLEEPTIME_INFINITE : Z := 0xFFFFFFFF.
Definition RescheduleLwipTimer : M unit :=
  ms ← host SysTimeoutsSleeptime;
  let ms := if ms =? SYS_TIMEOUTS_SLEEPTIME_INFINITE then 1000 else ms in
  let ms := if ms =? 0 then 1 else ms in
  call (UvTimerStart ms).

(** The connect of the host socket is done. *)
Definition nat_connected (p : nat) (s : Sock) : M unit :=
  err ← host (SockError s);
  if negb (err =? 0) then
    Poll_Stop os (HNat p);;
    DeferSocketClose (Some s);;
    upd p (set_ne_host_socket None);;
    upd p (set_ne_state Closed)
  else
    upd p (set_ne_state Established);;
    touch p;;
    e ← entry p;
    match ne_pending_data e with
    | [] => mret tt
    | data =>
        upd p (set_ne_pending_to_host (ne_pending_to_host e ++ data));;
        upd p (set_ne_pending_data []);;
        DrainTcpToHost p
    end;;
    UpdateNatPoll os p.

Definition OnNatPollEvent (p : nat) (status events : Z) : M unit :=
  if status <? 0 then TeardownNatEntry os p
  else
    e ← entry p;
    match ne_host_socket e with
    | None => mret tt
    | Some s =>
        if is_state (ne_state e) Connecting && has events UV_WRITABLE then nat_connected p s
        else
          when (negb (is_state (ne_state e) Connecting) && (ne_proto e =? IPPROTO_TCP)
                && negb (is_nil (ne_pending_to_host e)) && has events UV_WRITABLE)
            (DrainTcpToHost p);;
          e ← entry p;
          when (negb (is_state (ne_state e) Connecting) && has events UV_READABLE) (
            if ne_proto e =? IPPROTO_TCP then
              DrainTcpToGuest p;;
              e ← entry p;
              when (is_nil (ne_pending_to_guest e)) (HandleTcpReadable p)
            else HandleUdpReadable p);;
          e ← entry p;
          (if none (ne_host_socket e) then Poll_Stop os (HNat p) else UpdateNatPoll os p);;
          RescheduleLwipTimer
    end.

(** The pass of [FlushStalledGuestWrites] over one NAT entry. *)
Definition flush_nat_entry (now : Z) (p : nat) : M unit :=
  e ← entry p;
  match ne_host_socket e with
  | None => mret tt
  | Some s =>
      if negb (ne_proto e =? IPPROTO_TCP) then mret tt
      else if ph_closing (ne_poll e) then mret tt
      else if negb (ne_live e) || is_state (ne_state e) Listening then mret tt
      else if negb (is_nil (ne_pending_to_guest e)) && negb (none (ne_conn_pcb e)) then
        DrainTcpToGuest p;;
        e ← entry p;
        when (is_nil (ne_pending_to_guest e)) (UpdateNatPoll os p)
      else if negb (is_nil (ne_pending_to_guest e)) then mret tt
      else if 1000 <? u64 (now - ne_last_active_ms e) then
        n ← host (ReadableBytes s);
        when (0 <? n) (Poll_Stop os (HNat p);; UpdateNatPoll os p)
      else mret tt
  end.
End net_relay.

(** ** What a run relayed

    The bytes the kernel accepted for the host, the bytes it delivered from
    the host and those lwIP took for the guest, in the calls of a trace. *)

Definition sent1 (d : Done (Reply := Reply)) : bytes :=
  match d with
  | existT c r =>
      match c return Reply c -> bytes with
      | Send _ data => fun r => match r with Sent n => take (Z.to_nat n) data | SendErr _ => [] end
      | _ => fun _ => []
      end r
  end.
Definition received1 (d : Done (Reply := Reply)) : bytes :=
  match d with
  | existT c r =>
      match c return Reply c -> bytes with
      | Recv _ _ => fun r => match r with Some data => data | None => [] end
      | _ => fun _ => []
      end r
  end.
Definition written1 (d : Done (Reply := Reply)) : bytes :=
  match d with
  | existT c r =>
      match c return Reply c -> bytes with
      | TcpWrite _ data => fun r => if r then data else []
      | _ => fun _ => []
      end r
  end.

Definition sent (t : list (Done (Reply := Reply))) : bytes := t ≫= sent1.
Definition received (t : list (Done (Reply := Reply))) : bytes := t ≫= received1.
Definition written (t : list (Done (Reply := Reply))) : bytes := t ≫= written1.

(** A call that moves no relayed byte. *)
Definition quiet (c : Call) : bool :=
  match c with Send _ _ | Recv _ _ | TcpWrite _ _ => false | _ => true end.

Lemma quiet_moves c r : quiet c = true ->
  sent1 (existT c r) = [] /\ received1 (existT c r) = [] /\ written1 (existT c r) = [].
Proof. by destruct c. Qed.

(** The part of an entry the relay is about. *)
Record View := MkView {
  v_state : NatState;
  v_sock : option Sock;
  v_conn : option Pcb;
  v_listen : option Pcb;
  v_data : bytes;
  v_guest : bytes;
  v_host : bytes
}.

Definition view_of (e : NatEntry) : View :=
  MkView (ne_state e) (ne_host_socket e) (ne_conn_pcb e) (ne_listen_pcb e) (ne_pending_data e)
    (ne_pending_to_guest e) (ne_pending_to_host e).

Section relay_rules.
Context {W : Type} (os : forall c : Call, W -> Reply c * W).
#[local] Abbreviation IoSt := (IoState NetBackend W Reply).

Context (p : nat) (T0 : list (Done (Reply := Reply))) (s0 h0 w0 : bytes).

(** Entry [p] is a TCP entry with view [v]; with what was moved until the
    trace was [T0], [s] was sent to the host, [h] received from it and [w]
    written. *)
Definition at_p (v : View) (s h w : bytes) (st : IoSt) : Prop :=
  (exists e, find_entry p (io_state st) = Some e /\ view_of e = v /\ ne_proto e = IPPROTO_TCP)
  /\ exists t, io_trace st = T0 ++ t /\ s0 ++ sent t = s /\ h0 ++ received t = h /\ w0 ++ written t = w.

Lemma wp_entry v s h w (Q : NatEntry -> IoSt -> Prop) st :
  at_p v s h w st -> (forall e, view_of e = v -> ne_proto e = IPPROTO_TCP -> Q e st) -> wp (entry p) Q st.
Proof.
  intros [(e & He & Hv & Hp) _] H. unfold entry, field. apply io_wp_bind, io_wp_bind, wp_get, io_wp_ret. rewrite He.
  apply wp_the. intros e' [= <-]. by apply H.
Qed.

Lemma wp_upd f v s h w (Q : unit -> IoSt -> Prop) st :
  at_p v s h w st ->
  (forall e, ne_ptr (f e) = ne_ptr e) -> (forall e, ne_proto (f e) = ne_proto e) ->
  (forall st' e, view_of e = v -> at_p (view_of (f e)) s h w st' -> Q tt st') -> wp (upd p f) Q st.
Proof.
  intros [(e & He & Hv & Hp) Ht] Hf Hfp H. apply io_wp_modify. apply (H _ e); [done|]. split; [|exact Ht].
  exists (f e). rewrite Hfp. split; [|done]. change (find_entry p (map_entry p f (io_state st)) = Some (f e)).
  rewrite find_map_entry by done. by rewrite bool_decide_true, He by done.
Qed.

(** A call, with the bytes it moves. *)
Lemma wp_moves c v s h w (Q : Reply c -> IoSt -> Prop) st :
  at_p v s h w st ->
  (forall r st', at_p v (s ++ sent1 (existT c r)) (h ++ received1 (existT c r)) (w ++ written1 (existT c r)) st' -> Q r st') ->
  wp (NetHost.host os c) Q st.
Proof.
  intros [He (t & Ht & <- & <- & <-)] H. apply io_wp_host. intros r w'. apply H. split; [exact He|].
  exists (t ++ [existT c r]). unfold sent, received, written. rewrite !bind_app. cbn. rewrite Ht, !app_nil_r.
  by rewrite <- !app_assoc.
Qed.

Lemma wp_quiet c v s h w (Q : Reply c -> IoSt -> Prop) st :
  quiet c = true -> at_p v s h w st -> (forall r st', at_p v s h w st' -> Q r st') -> wp (NetHost.host os c) Q st.
Proof.
  intros Hq Ha H. eapply wp_moves; [exact Ha|]. intros r st' Ha'. destruct (quiet_moves c r Hq) as (E1 & E2 & E3).
  rewrite E1, E2, E3, !app_nil_r in Ha'. by apply H.
Qed.

Lemma wp_call c v s h w (Q : unit -> IoSt -> Prop) st :
  quiet c = true -> at_p v s h w st -> (forall st', at_p v s h w st' -> Q tt st') -> wp (NetHost.call os c) Q st.
Proof.
  intros Hq Ha H. apply io_wp_bind. eapply wp_quiet; [done|exact Ha|]. intros r st' Ha'. apply io_wp_ret. by apply H.
Qed.

(** Steps that move no byte and leave the view alone. *)
Definition still {A} (m : IO NetBackend W Reply A) : Prop :=
  forall v s h w st, at_p v s h w st -> wp m (fun _ => at_p v s h w) st.

Lemma still_wp {A} (m : IO NetBackend W Reply A) v s h w (Q : A -> IoSt -> Prop) st :
  still m -> at_p v s h w st -> (forall a st', at_p v s h w st' -> Q a st') -> wp m Q st.
Proof. intros Hm Ha H. eapply io_wp_mono; [by apply Hm|]. intros a st' Ha'. by apply H. Qed.

Lemma still_ret {A} (a : A) : still (mret a).
Proof. intros v s h w st Ha. by apply io_wp_ret. Qed.
Lemma still_bind {A B} (m : IO NetBackend W Reply A) (k : A -> IO NetBackend W Reply B) :
  still m -> (forall a, still (k a)) -> still (m ≫= k).
Proof. intros Hm Hk v s h w st Ha. apply io_wp_bind. eapply still_wp; [exact Hm|exact Ha|]. intros a st'. apply Hk. Qed.
Lemma still_UB {A} : still (@UB _ _ _ _ A).
Proof. done. Qed.
Lemma still_the {A} (o : option A) : still (the o).
Proof. intros v s h w st Ha. by apply wp_the. Qed.
Lemma still_host c : quiet c = true -> still (NetHost.host os c).
Proof. intros Hq v s h w st Ha. by eapply wp_quiet. Qed.
Lemma still_call c : quiet c = true -> still (NetHost.call os c).
Proof. intros Hq v s h w st Ha. by eapply wp_call. Qed.
Lemma still_get : still get_state.
Proof. intros v s h w st Ha. by apply wp_get. Qed.
Lemma still_field {A} (f : NetBackend -> A) : still (field f).
Proof. apply still_bind; [apply still_get|intros; apply still_ret]. Qed.
Lemma still_when b m : still m -> still (when b m).
Proof. intros H. destruct b; [exact H|apply still_ret]. Qed.
Lemma still_for_each {A} (f : A -> IO NetBackend W Reply unit) l : (forall a, still (f a)) -> still (for_each f l).
Proof. intros Hf. induction l; [apply still_ret|]. apply still_bind; [apply Hf|done]. Qed.
Lemma still_entry : still (entry p).
Proof. apply still_bind; [apply still_field|intros; apply still_the]. Qed.
(** A change outside the table. *)
Lemma still_modify f : (forall nb, nat_entries_ (f nb) = nat_entries_ nb) -> still (modify f).
Proof.
  intros Hf v s h w st [He Ht]. apply io_wp_modify. split; [|exact Ht]. unfold find_entry in *. cbn. by rewrite Hf.
Qed.
(** A change of the entry's other members. *)
Lemma still_upd f :
  (forall e, ne_ptr (f e) = ne_ptr e) -> (forall e, ne_proto (f e) = ne_proto e) ->
  (forall e, view_of (f e) = view_of e) -> still (upd p f).
Proof.
  intros H1 H2 H3 v s h w st Ha. eapply wp_upd; [exact Ha|done..|]. intros st' e Hv Ha'. by rewrite H3, Hv in Ha'.
Qed.

(** The library calls and the poll handle. *)
Lemma still_inject f : still (InjectFrame os f).
Proof. apply still_bind; [apply still_field|]. intros [|]; [by apply still_call|apply still_ret]. Qed.
Lemma still_link_output f : still (LwipLinkOutput os f).
Proof.
  apply still_bind; [apply still_field|]. intros o. apply still_bind; [apply still_the|]. intros g. apply still_inject.
Qed.
Lemma wp_lwip c v s h w (Q : Reply c -> IoSt -> Prop) st :
  quiet c = true -> at_p v s h w st -> (forall r st', at_p v s h w st' -> Q r st') -> wp (lwip os c) Q st.
Proof.
  intros Hq Ha H. apply io_wp_bind. eapply wp_quiet; [done|exact Ha|]. intros r st1 H1.
  apply io_wp_bind. eapply (wp_quiet LinkOutputs); [done|exact H1|]. intros fs st2 H2.
  apply io_wp_bind. eapply still_wp; [apply still_for_each, still_link_output|exact H2|]. intros [] st3 H3.
  apply io_wp_ret. by apply H.
Qed.
Lemma still_lwip_ c : quiet c = true -> still (lwip_ os c).
Proof. intros Hq v s h w st Ha. apply io_wp_bind. eapply wp_lwip; [done|exact Ha|]. intros r st' H. by apply io_wp_ret. Qed.
Lemma still_detach pcb : still (detach os pcb).
Proof. repeat (apply still_bind; [by apply still_call|intros _]). by apply still_call. Qed.
Lemma still_poll_of : still (poll_of (HNat p)).
Proof. apply still_bind; [apply still_entry|intros; apply still_ret]. Qed.
Lemma still_upd_poll f : still (upd_poll (HNat p) f).
Proof. by apply still_upd. Qed.
Lemma still_Poll_Stop : still (Poll_Stop os (HNat p)).
Proof.
  apply still_bind; [apply still_poll_of|]. intros ph. apply still_when.
  apply still_bind; [by apply still_call|intros; apply still_upd_poll].
Qed.
Lemma still_Poll_Close : still (Poll_Close os (HNat p)).
Proof.
  apply still_bind; [apply still_poll_of|]. intros ph. destruct (_ || _); [apply still_ret|].
  apply still_bind; [apply still_Poll_Stop|intros _]. apply still_bind; [apply still_upd_poll|intros _].
  by apply still_call.
Qed.
Lemma still_Poll_Init sk : still (Poll_Init os (HNat p) sk).
Proof.
  apply still_bind; [apply still_poll_of|]. intros ph. destruct (ph_inited ph); [apply still_ret|].
  apply still_bind; [by apply still_call|intros; apply still_upd_poll].
Qed.
Lemma still_Poll_Start ev : still (Poll_Start os (HNat p) ev).
Proof.
  apply still_bind; [apply still_poll_of|]. intros ph. destruct (ph_closing ph); [apply still_ret|].
  apply still_bind; [apply still_upd_poll|intros _]. by apply still_call.
Qed.
Lemma still_UpdateNatPoll : still (UpdateNatPoll os p).
Proof.
  apply still_bind; [apply still_entry|]. intros e. destruct (ph_closing _); [apply still_ret|].
  destruct (ne_host_socket e); [|apply still_Poll_Stop]. cbv zeta. destruct (_ =? 0); [apply still_Poll_Stop|].
  apply still_bind; [apply still_when, still_Poll_Init|intros; apply still_Poll_Start].
Qed.
Lemma still_DeferSocketClose sk : still (DeferSocketClose sk).
Proof. destruct sk; [|apply still_ret]. by apply still_modify. Qed.
Lemma still_touch : still (touch os p).
Proof. apply still_bind; [by apply (still_host GetMonotonicMs)|intros; by apply still_upd]. Qed.
Lemma still_Reschedule : still (RescheduleLwipTimer os).
Proof. apply still_bind; [by apply (still_host SysTimeoutsSleeptime)|intros; by apply still_call]. Qed.

(** ** Steps that change the view *)

Definition no_sock (v : View) : View := MkView (v_state v) None (v_conn v) (v_listen v) (v_data v) (v_guest v) (v_host v).
Definition no_conn (v : View) : View := MkView (v_state v) (v_sock v) None (v_listen v) (v_data v) (v_guest v) (v_host v).
Definition in_state (x : NatState) (v : View) : View :=
  MkView x (v_sock v) (v_conn v) (v_listen v) (v_data v) (v_guest v) (v_host v).
Definition with_host (b : bytes) (v : View) : View :=
  MkView (v_state v) (v_sock v) (v_conn v) (v_listen v) (v_data v) (v_guest v) b.
Definition with_guest (b : bytes) (v : View) : View :=
  MkView (v_state v) (v_sock v) (v_conn v) (v_listen v) (v_data v) b (v_host v).
Definition with_data (b : bytes) (v : View) : View :=
  MkView (v_state v) (v_sock v) (v_conn v) (v_listen v) b (v_guest v) (v_host v).
Definition torn_down (v : View) : View := in_state Closed (with_host [] (no_conn (no_sock v))).

(** An update that acts on the view as [g]. *)
Lemma wp_upd_view f g v s h w (Q : unit -> IoSt -> Prop) st :
  at_p v s h w st ->
  (forall e, ne_ptr (f e) = ne_ptr e) -> (forall e, ne_proto (f e) = ne_proto e) ->
  (forall e, view_of (f e) = g (view_of e)) ->
  (forall st', at_p (g v) s h w st' -> Q tt st') -> wp (upd p f) Q st.
Proof.
  intros Ha H1 H2 H3 H. eapply wp_upd; [exact Ha|done..|]. intros st' e Hv Ha'. rewrite H3, Hv in Ha'. by apply H.
Qed.

Lemma wp_CloseHostSocket v s h w (Q : unit -> IoSt -> Prop) st :
  at_p v s h w st -> (forall st', at_p (no_sock v) s h w st' -> Q tt st') -> wp (CloseHostSocket os p) Q st.
Proof.
  intros Ha H. apply io_wp_bind. eapply wp_entry; [exact Ha|]. intros e He Hp.
  destruct (ne_host_socket e) as [sk|] eqn:E.
  - apply io_wp_bind. eapply still_wp; [apply still_Poll_Stop|exact Ha|]. intros [] st1 H1.
    apply io_wp_bind. eapply still_wp; [apply still_DeferSocketClose|exact H1|]. intros [] st2 H2.
    eapply (wp_upd_view _ no_sock); [exact H2|done..|exact H].
  - apply io_wp_ret, H. replace (no_sock v) with v; [done|]. subst v. unfold no_sock, view_of. cbn. by rewrite E.
Qed.

Lemma wp_DetachAndClose v s h w (Q : unit -> IoSt -> Prop) st :
  at_p v s h w st -> (forall st', at_p (no_conn v) s h w st' -> Q tt st') -> wp (DetachAndCloseLwipPcb os p) Q st.
Proof.
  intros Ha H. apply io_wp_bind. eapply wp_entry; [exact Ha|]. intros e He Hp.
  destruct (ne_conn_pcb e) as [pcb|] eqn:E.
  - apply io_wp_bind. eapply still_wp; [apply still_detach|exact Ha|]. intros [] st1 H1.
    apply io_wp_bind. eapply still_wp; [by apply still_lwip_|exact H1|]. intros [] st2 H2.
    eapply (wp_upd_view _ no_conn); [exact H2|done..|exact H].
  - apply io_wp_ret, H. replace (no_conn v) with v; [done|]. subst v. unfold no_conn, view_of. cbn. by rewrite E.
Qed.

Lemma wp_Teardown v s h w (Q : unit -> IoSt -> Prop) st :
  at_p v s h w st -> (forall st', at_p (torn_down v) s h w st' -> Q tt st') -> wp (TeardownNatEntry os p) Q st.
Proof.
  intros Ha H. apply io_wp_bind. eapply still_wp; [apply still_Poll_Close|exact Ha|]. intros [] st1 H1.
  apply io_wp_bind. eapply wp_CloseHostSocket; [exact H1|]. intros st2 H2.
  apply io_wp_bind. eapply wp_DetachAndClose; [exact H2|]. intros st3 H3.
  apply io_wp_bind. eapply (wp_upd_view _ (with_host [])); [exact H3|done..|]. intros st4 H4.
  eapply (wp_upd_view _ (in_state Closed)); [exact H4|done..|exact H].
Qed.

(** [DrainTcpToGuest] writes some bytes from the front of the buffer, none
    when there is no connection. *)
Lemma wp_DrainTcpToGuest v s h w (Q : unit -> IoSt -> Prop) st :
  at_p v s h w st ->
  (forall k st', (v_conn v = None -> k = 0%nat) ->
    at_p (with_guest (drop k (v_guest v)) v) s h (w ++ take k (v_guest v)) st' -> Q tt st') ->
  wp (DrainTcpToGuest os p) Q st.
Proof.
  intros Ha H. assert (Hid : forall st', at_p v s h w st' -> Q tt st').
  { intros st' H'. apply (H 0%nat); [done|]. rewrite take_0, app_nil_r. by destruct v. }
  apply io_wp_bind. eapply wp_entry; [exact Ha|]. intros e He Hp.
  destruct (ne_pending_to_guest e) as [|b d] eqn:Ed; [by apply io_wp_ret, Hid|].
  destruct (ne_conn_pcb e) as [pcb|] eqn:Ec; [|by apply io_wp_ret, Hid].
  apply io_wp_bind. eapply (wp_quiet (TcpSndbuf pcb)); [done|exact Ha|]. intros avail st1 H1. cbv zeta.
  set (k := Z.to_nat (Z.min avail (Z.of_nat (length (b :: d))))).
  apply wp_when; [intros Hk|intros _; by apply Hid].
  apply io_wp_bind. eapply (wp_moves (TcpWrite pcb _)); [exact H1|]. intros ok st2 H2. cbn in H2. rewrite !app_nil_r in H2.
  destruct ok; cbn [when]; [|apply io_wp_ret, Hid; by rewrite app_nil_r in H2].
  apply io_wp_bind. eapply still_wp; [by apply still_lwip_|exact H2|]. intros [] st3 H3.
  assert (Eg : v_guest v = b :: d) by (subst v; exact Ed).
  eapply (wp_upd_view _ (with_guest (drop k (b :: d)))); [exact H3|done..|]. intros st4 H4.
  apply (H k); [subst v; cbn; by rewrite Ec|]. by rewrite Eg.
Qed.

(** [DrainTcpToHost] sends some bytes from the front of the buffer; an
    error tears the entry down, and without a socket the bytes go. *)
Lemma wp_DrainTcpToHost v s h w (Q : unit -> IoSt -> Prop) st :
  at_p v s h w st ->
  (forall k st', (v_sock v = None -> k = 0%nat) ->
    at_p (with_host (drop k (v_host v)) v) (s ++ take k (v_host v)) h w st' -> Q tt st') ->
  (forall st', v_sock v = None -> at_p (with_host [] v) s h w st' -> Q tt st') ->
  (forall st', at_p (torn_down v) s h w st' -> Q tt st') ->
  wp (DrainTcpToHost os p) Q st.
Proof.
  intros Ha Hsome Hnone Hdown. assert (Hid : forall st', at_p v s h w st' -> Q tt st').
  { intros st' H'. apply (Hsome 0%nat); [done|]. rewrite take_0, app_nil_r. by destruct v. }
  apply io_wp_bind. eapply wp_entry; [exact Ha|]. intros e He Hp.
  destruct (ne_pending_to_host e) as [|b d] eqn:Ed; [by apply io_wp_ret, Hid|].
  assert (Eh : v_host v = b :: d) by (subst v; exact Ed).
  destruct (ne_host_socket e) as [sk|] eqn:Ec.
  2:{ eapply (wp_upd_view _ (with_host [])); [exact Ha|done..|]. intros st1 H1. apply Hnone; [by subst v|exact H1]. }
  apply io_wp_bind. eapply (wp_moves (Send sk _)); [exact Ha|]. intros r st1 H1. cbn in H1. rewrite !app_nil_r in H1.
  destruct r as [n|wb].
  - apply wp_when; intros Hn.
    + destruct (Nat.ltb_spec (length (b :: d)) (Z.to_nat n)); [apply io_wp_UB|].
      eapply (wp_upd_view _ (with_host (drop (Z.to_nat n) (b :: d)))); [exact H1|done..|]. intros st2 H2.
      apply (Hsome (Z.to_nat n)); [subst v; cbn; by rewrite Ec|]. by rewrite Eh.
    + apply Hid. replace (Z.to_nat n) with 0%nat in H1 by (apply Z.ltb_ge in Hn; lia).
      by rewrite take_0, app_nil_r in H1.
  - rewrite app_nil_r in H1. apply wp_when; intros _; [|by apply Hid].
    eapply wp_Teardown; [exact H1|exact Hdown].
Qed.
End relay_rules.

(** ** The relay is first in, first out *)

(** What happens to one entry. *)
Inductive NatEvent :=
| NEv_Accepted (new_pcb : Pcb)
| NEv_Recv (pcb : Pcb) (pbuf : option bytes)
| NEv_Err
| NEv_Sent
| NEv_Poll (status events : Z)
| NEv_Flush (now : Z).

(** What the guest sent in an event. *)
Definition guest_bytes (ev : NatEvent) : bytes :=
  match ev with NEv_Recv _ (Some data) => data | _ => [] end.

(** lwIP calls a callback only while it is set: accept while the entry has
    its listener, data while it has its connection. *)
Definition may_happen (v : View) (ev : NatEvent) : Prop :=
  match ev with
  | NEv_Accepted _ => v_listen v <> None
  | NEv_Recv _ _ => v_conn v <> None
  | _ => True
  end.

(** With what the guest sent ([G]), what reached the host ([s]), what came
    from the host ([h]) and what was written to the guest ([w]): bytes leave
    in the order they came, and while the socket, or the connection, is open
    the buffers hold exactly the rest. *)
Record relay_inv (G : bytes) (v : View) (s h w : bytes) : Prop := {
  ri_sent : s `prefix_of` G;
  ri_written : w `prefix_of` h;
  ri_host : v_sock v <> None -> s ++ v_host v ++ v_data v = G;
  ri_connecting : v_sock v <> None -> v_state v = Connecting -> v_host v = [];
  ri_connected : v_sock v <> None -> v_state v <> Connecting -> v_data v = [];
  ri_guest : v_conn v <> None -> w ++ v_guest v = h;
  ri_fresh : v_listen v <> None ->
    v_sock v = None /\ v_conn v = None /\ v_data v = [] /\ v_guest v = [] /\ v_host v = [] /\ G = [] /\ s = [] /\ h = [] /\ w = []
}.

Section relay.
Context {W : Type} (os : forall c : Call, W -> Reply c * W).
#[local] Abbreviation IoSt := (IoState NetBackend W Reply).

Definition nat_event (p : nat) (ev : NatEvent) : IO NetBackend W Reply unit :=
  match ev with
  | NEv_Accepted pcb => OnTcpAccepted os p pcb
  | NEv_Recv pcb pbuf => OnTcpRecv os p pcb pbuf
  | NEv_Err => OnTcpErr os p
  | NEv_Sent => OnTcpSent os p
  | NEv_Poll status events => OnNatPollEvent os p status events
  | NEv_Flush now => flush_nat_entry os now p
  end.

Section one_event.
Context (p : nat) (T0 : list (Done (Reply := Reply))) (s0 h0 w0 : bytes).
Notation at_ := (at_p p T0 s0 h0 w0).

(** The invariant after a handler. *)
Definition holds (G : bytes) (st : IoSt) : Prop :=
  exists v s h w, at_ v s h w st /\ relay_inv G v s h w.

Lemma holds_intro G v s h w st : at_ v s h w st -> relay_inv G v s h w -> holds G st.
Proof. intros. by exists v, s, h, w. Qed.

(** The invariant through the changes of view. *)
Lemma inv_no_sock G v s h w : relay_inv G v s h w -> relay_inv G (no_sock v) s h w.
Proof. intros []. constructor; cbn; try done. intros Hl. destruct (ri_fresh0 Hl) as (_ & H). done. Qed.
Lemma inv_no_conn G v s h w : relay_inv G v s h w -> relay_inv G (no_conn v) s h w.
Proof. intros []. constructor; cbn; try done. intros Hl. destruct (ri_fresh0 Hl) as (? & _ & H). done. Qed.
Lemma inv_in_state G x v s h w :
  v_sock v = None -> relay_inv G v s h w -> relay_inv G (in_state x v) s h w.
Proof. intros Hs []. constructor; cbn; done. Qed.
Lemma inv_torn_down G v s h w : relay_inv G v s h w -> relay_inv G (torn_down v) s h w.
Proof.
  intros []. constructor; cbn; try done. intros Hl. destruct (ri_fresh0 Hl) as (_ & _ & ? & ? & _ & H). done.
Qed.

Lemma inv_drain_guest G v s h w k :
  (v_conn v = None -> k = 0%nat) -> relay_inv G v s h w ->
  relay_inv G (with_guest (drop k (v_guest v)) v) s h (w ++ take k (v_guest v)).
Proof.
  intros Hk []. constructor; cbn; try done.
  - destruct (decide (v_conn v = None)) as [E|E].
    + by rewrite (Hk E), take_0, app_nil_r.
    + rewrite <- (ri_guest0 E). exists (drop k (v_guest v)). by rewrite <- app_assoc, take_drop.
  - intros E. by rewrite <- app_assoc, take_drop, ri_guest0.
  - intros Hl. destruct (ri_fresh0 Hl) as (? & ? & ? & E & ? & ? & ? & ? & ?). rewrite E, drop_nil, take_nil, app_nil_r. done.
Qed.

Lemma inv_drain_host G v s h w k :
  (v_sock v = None -> k = 0%nat) -> relay_inv G v s h w ->
  relay_inv G (with_host (drop k (v_host v)) v) (s ++ take k (v_host v)) h w.
Proof.
  intros Hk Hi. destruct (decide (v_sock v = None)) as [Hs|Hs].
  { rewrite (Hk Hs), take_0, app_nil_r. by destruct v. }
  destruct Hi. assert (Hg : (s ++ take k (v_host v)) ++ drop k (v_host v) ++ v_data v = G).
  { rewrite <- app_assoc, (app_assoc (take k _)), take_drop. auto. }
  constructor; cbn; try done.
  - eexists. symmetry. exact Hg.
  - intros _ Hc. rewrite (ri_connecting0 Hs Hc). apply drop_nil.
  - intros Hl. by destruct (ri_fresh0 Hl).
Qed.

Lemma wp_drain_guest G v s h w st :
  at_ v s h w st -> relay_inv G v s h w -> wp (DrainTcpToGuest os p) (fun _ => holds G) st.
Proof.
  intros Ha Hi. eapply wp_DrainTcpToGuest; [exact Ha|]. intros k st' Hk H'.
  eapply holds_intro; [exact H'|]. by apply inv_drain_guest.
Qed.

(** Without a socket the buffer may be anything. *)
Lemma inv_lost_host G v s h w b :
  v_sock v = None -> (v_listen v <> None -> b = []) -> relay_inv G v s h w -> relay_inv G (with_host b v) s h w.
Proof.
  intros Hs Hb []. constructor; cbn; try done. intros Hl. destruct (ri_fresh0 Hl) as (? & ? & ? & ? & ? & H).
  specialize (Hb Hl). done.
Qed.

Lemma wp_drain_host G v s h w st :
  at_ v s h w st -> relay_inv G v s h w -> wp (DrainTcpToHost os p) (fun _ => holds G) st.
Proof.
  intros Ha Hi. eapply wp_DrainTcpToHost; [exact Ha|..].
  - intros k st' Hk H'. eapply holds_intro; [exact H'|]. by apply inv_drain_host.
  - intros st' Hs H'. eapply holds_intro; [exact H'|]. by apply inv_lost_host.
  - intros st' H'. eapply holds_intro; [exact H'|]. by apply inv_torn_down.
Qed.

(** A step that keeps the view, last in a handler. *)
Lemma wp_still_holds {A} G (m : IO NetBackend W Reply A) st :
  still p T0 s0 h0 w0 m -> holds G st -> wp m (fun _ => holds G) st.
Proof. intros Hm (v & s & h & w & Ha & Hi). eapply still_wp; [exact Hm|exact Ha|]. intros. by eapply holds_intro. Qed.

Lemma wp_then {A B} G G' (m : IO NetBackend W Reply A) (k : A -> IO NetBackend W Reply B) st :
  wp m (fun _ => holds G) st -> (forall a st', holds G st' -> wp (k a) (fun _ => holds G') st') ->
  wp (m ≫= k) (fun _ => holds G') st.
Proof. intros Hm Hk. apply io_wp_bind. eapply io_wp_mono; [exact Hm|]. intros a st'. apply Hk. Qed.

Lemma Accepted_holds G v s h w st pcb :
  at_ v s h w st -> relay_inv G v s h w -> v_listen v <> None ->
  wp (OnTcpAccepted os p pcb) (fun _ => holds G) st.
Proof.
  intros Ha Hi Hl. destruct (ri_fresh _ _ _ _ _ Hi Hl) as (E1 & E2 & E3 & E4 & E5 & -> & -> & -> & ->).
  apply io_wp_bind. eapply wp_entry; [exact Ha|]. intros e He Hp.
  assert (En : negb (none (ne_conn_pcb e)) || negb (none (ne_host_socket e)) = false).
  { subst v. cbn in E1, E2. by rewrite E1, E2. }
  rewrite En. apply io_wp_bind. eapply (wp_upd_view _ _ _ _ _ _
    (fun v => MkView (v_state v) (v_sock v) (Some pcb) (v_listen v) (v_data v) (v_guest v) (v_host v))); [exact Ha|done..|].
  intros st1 H1. apply io_wp_bind. apply io_wp_bind. eapply wp_entry; [exact H1|]. intros e1 He1 _.
  destruct (ne_listen_pcb e1) as [l|] eqn:El; [|subst v; cbn in *; injection He1 as; congruence].
  apply io_wp_bind. eapply wp_call; [done|exact H1|]. intros st2 H2.
  apply io_wp_bind. eapply still_wp; [by apply still_modify|exact H2|]. intros [] st3 H3.
  eapply (wp_upd_view _ _ _ _ _ _
    (fun v => MkView (v_state v) (v_sock v) (v_conn v) None (v_data v) (v_guest v) (v_host v))); [exact H3|done..|].
  intros st4 H4. cbn in H4. rewrite E1, E3, E4, E5 in H4.
  do 4 (apply io_wp_bind; eapply wp_call; [done|exact H4|]; clear dependent st4; intros st4 H4).
  apply io_wp_bind. eapply (wp_quiet _ _ _ _ _ _ (Socket SK_Stream)); [done|exact H4|]. intros o st5 H5.
  assert (Hclosed : forall x st, at_ (MkView x None (Some pcb) None [] [] []) [] [] [] st ->
    wp (DetachAndCloseLwipPcb os p;; upd p (set_ne_state Closed)) (fun _ => holds []) st).
  { intros x st' H'. apply io_wp_bind. eapply wp_DetachAndClose; [exact H'|]. intros st6 H6.
    eapply (wp_upd_view _ _ _ _ _ _ (in_state Closed)); [exact H6|done..|]. intros st7 H7.
    eapply holds_intro; [exact H7|]. by constructor. }
  destruct o as [sk|]; [|by eapply Hclosed].
  apply io_wp_bind. eapply (wp_quiet _ _ _ _ _ _ (Connect _ _ _)); [done|exact H5|]. intros r st6 H6.
  assert (Hopen : forall x, wp (upd p (set_ne_host_socket (Some sk));; upd p (set_ne_state x);; UpdateNatPoll os p)
                              (fun _ => holds []) st6).
  { intros x. apply io_wp_bind. eapply (wp_upd_view _ _ _ _ _ _
      (fun v => MkView (v_state v) (Some sk) (v_conn v) (v_listen v) (v_data v) (v_guest v) (v_host v))); [exact H6|done..|].
    intros st7 H7. apply io_wp_bind. eapply (wp_upd_view _ _ _ _ _ _ (in_state x)); [exact H7|done..|]. intros st8 H8.
    apply wp_still_holds; [apply still_UpdateNatPoll|]. eapply holds_intro; [exact H8|]. by constructor. }
  destruct r; [apply (Hopen Established)|apply (Hopen Connecting)|].
  apply io_wp_bind. eapply wp_call; [done|exact H6|]. intros st7 H7. by eapply Hclosed.
Qed.

Lemma Recv_fin_holds G v s h w st pcb :
  at_ v s h w st -> relay_inv G v s h w -> wp (OnTcpRecv os p pcb None) (fun _ => holds G) st.
Proof.
  intros Ha Hi. apply io_wp_bind. eapply still_wp; [apply still_Poll_Stop|exact Ha|]. intros [] st1 H1.
  apply io_wp_bind. eapply wp_CloseHostSocket; [exact H1|]. intros st2 H2.
  apply io_wp_bind. eapply still_wp; [apply still_detach|exact H2|]. intros [] st3 H3.
  apply io_wp_bind. eapply still_wp; [by apply still_lwip_|exact H3|]. intros [] st4 H4.
  apply io_wp_bind. eapply (wp_upd_view _ _ _ _ _ _ no_conn); [exact H4|done..|]. intros st5 H5.
  apply io_wp_bind. eapply (wp_upd_view _ _ _ _ _ _ (in_state HalfClosed)); [exact H5|done..|]. intros st6 H6.
  apply wp_still_holds; [apply still_touch|]. eapply holds_intro; [exact H6|].
  apply inv_in_state; [done|]. by apply inv_no_conn, inv_no_sock.
Qed.

(** Bytes of the guest join the buffer of their state. *)
Lemma inv_guest_sends G v s h w data :
  v_conn v <> None -> relay_inv G v s h w ->
  relay_inv (G ++ data) (if decide (v_state v = Connecting) then with_data (v_data v ++ data) v
                         else with_host (v_host v ++ data) v) s h w.
Proof.
  intros Hc []. assert (Hl : v_listen v = None).
  { destruct (v_listen v) eqn:E; [|done]. destruct ri_fresh0 as (_ & E' & _); [done|]. congruence. }
  assert (Hp : s `prefix_of` G ++ data) by (by apply prefix_app_r).
  destruct (decide (v_state v = Connecting)) as [Est|Est]; constructor; cbn; try done.
  - intros Hs. rewrite <- (ri_host0 Hs). by rewrite !app_assoc.
  - intros Hs. rewrite <- (ri_host0 Hs), (ri_connected0 Hs Est), !app_nil_r. by rewrite <- app_assoc.
Qed.

Lemma Recv_data_holds G v s h w st pcb data :
  at_ v s h w st -> relay_inv G v s h w -> v_conn v <> None ->
  wp (OnTcpRecv os p pcb (Some data)) (fun _ => holds (G ++ data)) st.
Proof.
  intros Ha Hi Hc. pose proof (inv_guest_sends _ _ _ _ _ data Hc Hi) as Hi'.
  apply io_wp_bind. eapply still_wp; [by apply still_lwip_|exact Ha|]. intros [] st1 H1.
  apply io_wp_bind. eapply still_wp; [apply still_touch|exact H1|]. intros [] st2 H2.
  apply io_wp_bind. eapply wp_entry; [exact H2|]. intros e He Hp. unfold is_state.
  assert (Est : ne_state e = v_state v) by (by subst v). rewrite Est.
  case_bool_decide as Ec; [rewrite decide_True in Hi' by done|rewrite decide_False in Hi' by done].
  - eapply (wp_upd_view _ _ _ _ _ _ (with_data (v_data v ++ data))); [exact H2|done..|intros e'; by subst v|].
    intros st3 H3. by eapply holds_intro.
  - apply io_wp_bind. eapply (wp_upd_view _ _ _ _ _ _ (with_host (v_host v ++ data))); [exact H2|done..|intros e'; by subst v|].
    intros st3 H3. eapply wp_then; [by eapply wp_drain_host|]. intros [] st4 H4.
    apply wp_still_holds; [apply still_UpdateNatPoll|done].
Qed.

Lemma Err_holds G v s h w st :
  at_ v s h w st -> relay_inv G v s h w -> wp (OnTcpErr os p) (fun _ => holds G) st.
Proof.
  intros Ha Hi. apply io_wp_bind. eapply (wp_upd_view _ _ _ _ _ _ no_conn); [exact Ha|done..|]. intros st1 H1.
  apply io_wp_bind. eapply still_wp; [apply still_Poll_Stop|exact H1|]. intros [] st2 H2.
  apply io_wp_bind. eapply wp_CloseHostSocket; [exact H2|]. intros st3 H3.
  eapply (wp_upd_view _ _ _ _ _ _ (in_state Closed)); [exact H3|done..|]. intros st4 H4.
  eapply holds_intro; [exact H4|]. apply inv_in_state; [done|]. by apply inv_no_sock, inv_no_conn.
Qed.

Lemma Sent_holds G v s h w st :
  at_ v s h w st -> relay_inv G v s h w -> wp (OnTcpSent os p) (fun _ => holds G) st.
Proof.
  intros Ha Hi. eapply wp_then; [by eapply wp_drain_guest|]. intros [] st1 H1.
  apply wp_still_holds; [|exact H1]. apply still_bind; [apply still_entry|]. intros e. apply still_when, still_UpdateNatPoll.
Qed.

(** ** The host socket's events

    [c]: the connection was open when the event began; [x]: the state it
    began in.  Only the end of the host's stream leads to [HalfClosed],
    and then the guest has been given everything. *)

Lemma inv_received G v s h w data :
  v_listen v = None -> relay_inv G v s h w ->
  relay_inv G (with_guest (v_guest v ++ data) v) s (h ++ data) w.
Proof.
  intros Hl []. constructor; cbn; try done.
  - by apply prefix_app_r.
  - intros Hc. by rewrite app_assoc, ri_guest0.
Qed.

(** An entry with a socket has retired its listener. *)
Lemma inv_sock_listen G v s h w : relay_inv G v s h w -> v_sock v <> None -> v_listen v = None.
Proof. intros [] Hs. destruct (v_listen v) eqn:E; [|done]. by destruct ri_fresh0 as (? & _). Qed.

Definition mid (c : Prop) (x : NatState) (G : bytes) (st : IoSt) : Prop :=
  exists v s h w, at_ v s h w st /\ relay_inv G v s h w /\ v_listen v = None
    /\ (c -> w ++ v_guest v = h) /\ (v_state v = HalfClosed -> x = HalfClosed).
Definition fin (c : Prop) (x : NatState) (G : bytes) (st : IoSt) : Prop :=
  exists v s h w, at_ v s h w st /\ relay_inv G v s h w
    /\ (v_state v = HalfClosed -> x = HalfClosed \/ (c -> w = h)).

Lemma mid_fin c x G st : mid c x G st -> fin c x G st.
Proof. intros (v & s & h & w & Ha & Hi & _ & _ & Hx). exists v, s, h, w. auto. Qed.
Lemma fin_holds c x G st : fin c x G st -> holds G st.
Proof. intros (v & s & h & w & Ha & Hi & _). by eapply holds_intro. Qed.

Lemma mid_still {A} c x G (m : IO NetBackend W Reply A) st :
  still p T0 s0 h0 w0 m -> mid c x G st -> wp m (fun _ => mid c x G) st.
Proof.
  intros Hm (v & s & h & w & Ha & H). eapply still_wp; [exact Hm|exact Ha|]. intros a st' Ha'. by exists v, s, h, w.
Qed.
Lemma fin_still {A} c x G (m : IO NetBackend W Reply A) st :
  still p T0 s0 h0 w0 m -> fin c x G st -> wp m (fun _ => fin c x G) st.
Proof.
  intros Hm (v & s & h & w & Ha & H). eapply still_wp; [exact Hm|exact Ha|]. intros a st' Ha'. by exists v, s, h, w.
Qed.

Lemma mid_drain_guest c x G st : mid c x G st -> wp (DrainTcpToGuest os p) (fun _ => mid c x G) st.
Proof.
  intros (v & s & h & w & Ha & Hi & Hl & Hc & Hx). eapply wp_DrainTcpToGuest; [exact Ha|]. intros k st' Hk H'.
  eexists _, _, _, _. split; [exact H'|]. split; [by apply inv_drain_guest|]. split; [done|]. split; [|done].
  intros C. cbn. rewrite <- app_assoc, take_drop. by apply Hc.
Qed.

Lemma mid_drain_host c x G st : mid c x G st -> wp (DrainTcpToHost os p) (fun _ => mid c x G) st.
Proof.
  intros (v & s & h & w & Ha & Hi & Hl & Hc & Hx). eapply wp_DrainTcpToHost; [exact Ha|..].
  - intros k st' Hk H'. eexists _, _, _, _. split; [exact H'|]. split; [by apply inv_drain_host|done].
  - intros st' Hs H'. eexists _, _, _, _. split; [exact H'|]. split; [by apply inv_lost_host|done].
  - intros st' H'. eexists _, _, _, _. split; [exact H'|]. split; [by apply inv_torn_down|done].
Qed.

(** Reading: data, or the end of the stream when nothing is left to
    write. *)
Lemma fin_readable c x G v s h w st :
  at_ v s h w st -> relay_inv G v s h w -> v_listen v = None -> (c -> w ++ v_guest v = h) ->
  (v_state v = HalfClosed -> x = HalfClosed) -> v_guest v = [] ->
  wp (HandleTcpReadable os p) (fun _ => fin c x G) st.
Proof.
  intros Ha Hi Hl Hc Hx Hg. apply io_wp_bind. eapply wp_entry; [exact Ha|]. intros e He _.
  apply io_wp_bind. eapply (wp_moves _ _ _ _ _ _ (Recv _ _)); [exact Ha|]. intros r st1 H1. cbn in H1. rewrite !app_nil_r in H1.
  assert (Hend : r = None \/ r = Some [] -> wp (DrainTcpToGuest os p;; DetachAndCloseLwipPcb os p;; Poll_Stop os (HNat p);;
    e ← entry p; DeferSocketClose (ne_host_socket e);; upd p (set_ne_host_socket None);; upd p (set_ne_state HalfClosed);;
    touch os p) (fun _ => fin c x G) st1).
  { intros Er. assert (H1' : at_ v s h w st1) by (by destruct Er as [-> | ->]; rewrite app_nil_r in H1). clear H1.
    apply io_wp_bind. eapply wp_DrainTcpToGuest; [exact H1'|]. intros k st2 Hk H2. rewrite Hg, drop_nil, take_nil, app_nil_r in H2.
    assert (Ev : with_guest [] v = v) by (rewrite <- Hg; by destruct v). rewrite Ev in H2.
    apply io_wp_bind. eapply wp_DetachAndClose; [exact H2|]. intros st3 H3.
    apply io_wp_bind. eapply still_wp; [apply still_Poll_Stop|exact H3|]. intros [] st4 H4.
    apply io_wp_bind. eapply wp_entry; [exact H4|]. intros e' _ _.
    apply io_wp_bind. eapply still_wp; [apply still_DeferSocketClose|exact H4|]. intros [] st5 H5.
    apply io_wp_bind. eapply (wp_upd_view _ _ _ _ _ _ no_sock); [exact H5|done..|]. intros st6 H6.
    apply io_wp_bind. eapply (wp_upd_view _ _ _ _ _ _ (in_state HalfClosed)); [exact H6|done..|]. intros st7 H7.
    apply fin_still; [apply still_touch|]. eexists _, _, _, _. split; [exact H7|]. split.
    - apply inv_in_state; [done|]. by apply inv_no_sock, inv_no_conn.
    - intros _. right. intros C. specialize (Hc C). by rewrite Hg, app_nil_r in Hc. }
  destruct r as [[|b data]|]; [apply Hend; by right| |apply Hend; by left]. clear Hend.
  apply io_wp_bind. eapply still_wp; [apply still_touch|exact H1|]. intros [] st2 H2.
  apply io_wp_bind. eapply (wp_upd_view _ _ _ _ _ _ (fun v => with_guest (v_guest v ++ b :: data) v)); [exact H2|done..|].
  intros st3 H3. eapply io_wp_mono; [apply (mid_drain_guest c x G)|intros []; apply mid_fin].
  eexists _, _, _, _. split; [exact H3|]. split; [by apply inv_received|]. split; [done|]. split; [|done].
  intros C. cbn. by rewrite app_assoc, Hc.
Qed.

Lemma fin_connected c x G v s h w st sk :
  at_ v s h w st -> relay_inv G v s h w -> v_sock v <> None -> v_state v = Connecting -> (c -> w ++ v_guest v = h) ->
  wp (nat_connected os p sk) (fun _ => fin c x G) st.
Proof.
  intros Ha Hi Hs Hst Hc. pose proof (inv_sock_listen _ _ _ _ _ Hi Hs) as Hl.
  apply io_wp_bind. eapply (wp_quiet _ _ _ _ _ _ (SockError sk)); [done|exact Ha|]. intros err st1 H1. destruct (negb _).
  - apply io_wp_bind. eapply still_wp; [apply still_Poll_Stop|exact H1|]. intros [] st2 H2.
    apply io_wp_bind. eapply still_wp; [apply still_DeferSocketClose|exact H2|]. intros [] st3 H3.
    apply io_wp_bind. eapply (wp_upd_view _ _ _ _ _ _ no_sock); [exact H3|done..|]. intros st4 H4.
    eapply (wp_upd_view _ _ _ _ _ _ (in_state Closed)); [exact H4|done..|]. intros st5 H5.
    eexists _, _, _, _. split; [exact H5|]. split; [apply inv_in_state; [done|]; by apply inv_no_sock|done].
  - apply io_wp_bind. eapply (wp_upd_view _ _ _ _ _ _ (in_state Established)); [exact H1|done..|]. intros st2 H2.
    apply io_wp_bind. eapply still_wp; [apply still_touch|exact H2|]. intros [] st3 H3.
    apply io_wp_bind. eapply wp_entry; [exact H3|]. intros e He _.
    assert (Eh : v_host v = []) by (by destruct Hi; auto).
    assert (Ed : ne_pending_data e = v_data v /\ ne_pending_to_host e = []).
    { destruct v; cbn in *; injection He as; split; congruence. } destruct Ed as [Ed ->]. rewrite Ed.
    assert (Hmoved : relay_inv G (with_data [] (with_host (v_data v) (in_state Established v))) s h w).
    { destruct Hi. constructor; cbn; try done.
      intros _. by rewrite app_nil_r, <- (ri_host0 Hs), Eh. }
    apply io_wp_bind. eapply (io_wp_mono _ (fun _ => mid c x G)); [|intros [] st4 H4; apply fin_still; [apply still_UpdateNatPoll|by apply mid_fin]].
    destruct (v_data v) as [|b d] eqn:Edata.
    + apply io_wp_ret. eexists _, _, _, _. split; [exact H3|]. split; [|done]. by destruct v; cbn in *; subst.
    + apply io_wp_bind. eapply (wp_upd_view _ _ _ _ _ _ (with_host (b :: d))); [exact H3|done..|]. intros st4 H4.
      apply io_wp_bind. eapply (wp_upd_view _ _ _ _ _ _ (with_data [])); [exact H4|done..|]. intros st5 H5.
      apply mid_drain_host. eexists _, _, _, _. split; [exact H5|]. done.
Qed.

Lemma fin_poll G v s h w st status events :
  at_ v s h w st -> relay_inv G v s h w ->
  wp (OnNatPollEvent os p status events) (fun _ => fin (v_conn v <> None) (v_state v) G) st.
Proof.
  intros Ha Hi. set (c := v_conn v <> None). set (x := v_state v).
  assert (Hc : c -> w ++ v_guest v = h) by (intros C; by apply Hi).
  unfold OnNatPollEvent. destruct (status <? 0).
  { eapply wp_Teardown; [exact Ha|]. intros st' H'. eexists _, _, _, _. split; [exact H'|].
    split; [by apply inv_torn_down|done]. }
  apply io_wp_bind. eapply wp_entry; [exact Ha|]. intros e He Hp. unfold is_state.
  assert (Ee : ne_state e = x /\ ne_host_socket e = v_sock v) by (by subst v). destruct Ee as [-> ->].
  destruct (v_sock v) as [sk|] eqn:Es.
  2:{ apply io_wp_ret. exists v, s, h, w. split; [done|]. split; [done|]. by left. }
  assert (Hs : v_sock v <> None) by (by rewrite Es). pose proof (inv_sock_listen _ _ _ _ _ Hi Hs) as Hl.
  destruct (bool_decide (x = Connecting) && has events UV_WRITABLE) eqn:Ecw.
  { apply andb_true_iff in Ecw as [Ec _]. apply bool_decide_eq_true in Ec. by eapply fin_connected. }
  apply io_wp_bind. eapply (io_wp_mono _ (fun _ => mid c x G)).
  { apply wp_when; intros _; [apply mid_drain_host|]; exists v, s, h, w; done. }
  intros [] st1 Hm1. destruct Hm1 as (v1 & s1 & h1 & w1 & Ha1 & Hm1).
  apply io_wp_bind. eapply wp_entry; [exact Ha1|]. intros e1 He1 Hp1.
  apply io_wp_bind. eapply (io_wp_mono _ (fun _ => fin c x G)).
  { apply wp_when; intros _; [|apply mid_fin; by exists v1, s1, h1, w1].
    rewrite Hp1. cbn. apply io_wp_bind. eapply io_wp_mono; [apply (mid_drain_guest c x G); by exists v1, s1, h1, w1|].
    intros [] st2 (v2 & s2 & h2 & w2 & Ha2 & Hi2 & Hl2 & Hc2 & Hx2).
    apply io_wp_bind. eapply wp_entry; [exact Ha2|]. intros e2 He2 _.
    apply wp_when; intros Hn; [|apply mid_fin; by exists v2, s2, h2, w2].
    apply bool_decide_eq_true in Hn. eapply fin_readable; try done. by subst v2. }
  intros [] st2 (v2 & s2 & h2 & w2 & Ha2 & Hf2). apply io_wp_bind. eapply wp_entry; [exact Ha2|]. intros e2 _ _.
  apply io_wp_bind. eapply (io_wp_mono _ (fun _ => fin c x G)); [|intros [] st3 H3; by apply fin_still; [apply still_Reschedule|]].
  destruct (none _); (apply fin_still; [first [apply still_Poll_Stop|apply still_UpdateNatPoll]|]); by exists v2, s2, h2, w2.
Qed.

Lemma Flush_holds G v s h w st now :
  at_ v s h w st -> relay_inv G v s h w -> wp (flush_nat_entry os now p) (fun _ => holds G) st.
Proof.
  intros Ha Hi. assert (Hh : holds G st) by (by eapply holds_intro).
  apply io_wp_bind. eapply wp_entry; [exact Ha|]. intros e _ _.
  destruct (ne_host_socket e) as [sk|]; [|done].
  destruct (negb (ne_proto e =? IPPROTO_TCP)); [done|]. destruct (ph_closing _); [done|]. destruct (_ || _); [done|].
  destruct (negb (is_nil _) && _).
  - eapply wp_then; [by eapply wp_drain_guest|]. intros [] st1 H1. apply wp_still_holds; [|exact H1].
    apply still_bind; [apply still_entry|]. intros e1. apply still_when, still_UpdateNatPoll.
  - destruct (negb (is_nil _)); [done|]. destruct (1000 <? _); [|done].
    apply wp_still_holds; [|exact Hh]. apply still_bind; [by apply (still_host _ _ _ _ _ _ (ReadableBytes sk))|].
    intros n. apply still_when. apply still_bind; [apply still_Poll_Stop|intros _; apply still_UpdateNatPoll].
Qed.

(** Every event keeps the invariant. *)
Lemma event_holds G v s h w st ev :
  at_ v s h w st -> relay_inv G v s h w -> may_happen v ev ->
  wp (nat_event p ev) (fun _ => holds (G ++ guest_bytes ev)) st.
Proof.
  intros Ha Hi Hm. destruct ev as [pcb|pcb [data|]| | |status events|now]; cbn [guest_bytes nat_event];
    rewrite ?app_nil_r.
  - by eapply Accepted_holds.
  - by eapply Recv_data_holds.
  - by eapply Recv_fin_holds.
  - by eapply Err_holds.
  - by eapply Sent_holds.
  - eapply io_wp_mono; [by eapply fin_poll|]. intros []. apply fin_holds.
  - by eapply Flush_holds.
Qed.
End one_event.
End relay.

(** ** Other entries *)

Section keeps.
Context {W : Type} (os : forall c : Call, W -> Reply c * W).
#[local] Abbreviation IoSt := (IoState NetBackend W Reply).
Context (p q : nat) (Hpq : p <> q).

(** Entry [q] is as it was. *)
Definition same_entry (st st' : IoSt) : Prop := find_entry q (io_state st') = find_entry q (io_state st).

#[local] Instance same_entry_refl : Reflexive same_entry.
Proof. done. Qed.
#[local] Instance same_entry_trans : Transitive same_entry.
Proof. intros a b c H1 H2. unfold same_entry in *. congruence. Qed.

Notation keeps := (respects same_entry).

Lemma keeps_host c : keeps (NetHost.host os c).
Proof. intros st. by apply io_wp_host. Qed.
Lemma keeps_upd f : (forall e, ne_ptr (f e) = ne_ptr e) -> keeps (upd p f).
Proof.
  intros Hf st. apply io_wp_modify. unfold same_entry. cbn [io_state].
  rewrite find_map_entry by done. rewrite bool_decide_false by congruence. by destruct (find_entry q _).
Qed.
Lemma keeps_modify f : (forall nb, nat_entries_ (f nb) = nat_entries_ nb) -> keeps (modify f).
Proof. intros Hf st. apply io_wp_modify. unfold same_entry, find_entry. cbn. by rewrite Hf. Qed.
Lemma keeps_field {A} (f : NetBackend -> A) : keeps (field f).
Proof. intros st. by apply io_wp_bind. Qed.
Lemma keeps_entry r : keeps (entry r).
Proof. apply respects_bind; [apply _|apply keeps_field|]. intros o. apply respects_the, _. Qed.

Create HintDb keeps.
Hint Resolve keeps_field keeps_entry : keeps.

Ltac keeps_auto := respects_auto ltac:(first
  [ match goal with |- respects _ (NetHost.host _ ?c) => apply (keeps_host c) end | by apply keeps_upd | by apply keeps_modify | solve [eauto with keeps nocore] ]).

Lemma keeps_call c : keeps (NetHost.call os c).
Proof. unfold NetHost.call. keeps_auto. Qed.
Hint Resolve keeps_call : keeps.
Lemma keeps_inject f : keeps (InjectFrame os f).
Proof. unfold InjectFrame. keeps_auto. Qed.
Hint Resolve keeps_inject : keeps.
Lemma keeps_link_output f : keeps (LwipLinkOutput os f).
Proof. unfold LwipLinkOutput. keeps_auto. Qed.
Hint Resolve keeps_link_output : keeps.
Lemma keeps_lwip_ c : keeps (lwip_ os c).
Proof. unfold lwip_, lwip. keeps_auto. Qed.
Hint Resolve keeps_lwip_ : keeps.
Lemma keeps_poll_of : keeps (poll_of (HNat p)).
Proof. cbn [poll_of]. keeps_auto. Qed.
Lemma keeps_upd_poll f : keeps (upd_poll (HNat p) f).
Proof. cbn [upd_poll]. keeps_auto. Qed.
Hint Resolve keeps_poll_of keeps_upd_poll : keeps.
Lemma keeps_Poll_Stop : keeps (Poll_Stop os (HNat p)).
Proof. unfold Poll_Stop. keeps_auto. Qed.
Lemma keeps_Poll_Init s : keeps (Poll_Init os (HNat p) s).
Proof. unfold Poll_Init. keeps_auto. Qed.
Lemma keeps_Poll_Start ev : keeps (Poll_Start os (HNat p) ev).
Proof. unfold Poll_Start. keeps_auto. Qed.
Hint Resolve keeps_Poll_Stop keeps_Poll_Init keeps_Poll_Start : keeps.
Lemma keeps_Poll_Close : keeps (Poll_Close os (HNat p)).
Proof. unfold Poll_Close. keeps_auto. Qed.
Hint Resolve keeps_Poll_Close : keeps.
Lemma keeps_Defer s : keeps (DeferSocketClose s).
Proof. unfold DeferSocketClose. keeps_auto. Qed.
Lemma keeps_detach pcb : keeps (detach os pcb).
Proof. unfold detach. keeps_auto. Qed.
Hint Resolve keeps_Defer keeps_detach : keeps.
Lemma keeps_CloseHostSocket : keeps (CloseHostSocket os p).
Proof. unfold CloseHostSocket. keeps_auto. Qed.
Lemma keeps_DetachAndClose : keeps (DetachAndCloseLwipPcb os p).
Proof. unfold DetachAndCloseLwipPcb. keeps_auto. Qed.
Hint Resolve keeps_CloseHostSocket keeps_DetachAndClose : keeps.
Lemma keeps_Teardown : keeps (TeardownNatEntry os p).
Proof. unfold TeardownNatEntry. keeps_auto. Qed.
Lemma keeps_UpdateNatPoll : keeps (UpdateNatPoll os p).
Proof. unfold UpdateNatPoll. keeps_auto. Qed.
Lemma keeps_touch : keeps (touch os p).
Proof. unfold touch. keeps_auto. Qed.
Hint Resolve keeps_Teardown keeps_UpdateNatPoll keeps_touch : keeps.
Lemma keeps_drain_guest : keeps (DrainTcpToGuest os p).
Proof. unfold DrainTcpToGuest. keeps_auto. Qed.
Lemma keeps_drain_host : keeps (DrainTcpToHost os p).
Proof. unfold DrainTcpToHost. keeps_auto. Qed.
Lemma keeps_reschedule : keeps (RescheduleLwipTimer os).
Proof. unfold RescheduleLwipTimer. keeps_auto. Qed.
Lemma keeps_retire : keeps (retire_listener os p).
Proof. unfold retire_listener. keeps_auto. Qed.
Hint Resolve keeps_drain_guest keeps_drain_host keeps_reschedule keeps_retire : keeps.
Lemma keeps_tcp_readable : keeps (HandleTcpReadable os p).
Proof. unfold HandleTcpReadable. keeps_auto. Qed.
Lemma keeps_udp_readable : keeps (HandleUdpReadable os p).
Proof. unfold HandleUdpReadable. keeps_auto. Qed.
Lemma keeps_connected s : keeps (nat_connected os p s).
Proof. unfold nat_connected. keeps_auto. Qed.
Hint Resolve keeps_tcp_readable keeps_udp_readable keeps_connected : keeps.

(** An event of one entry leaves the others alone. *)
Lemma event_keeps ev : keeps (nat_event os p ev).
Proof.
  destruct ev as [pcb|pcb pbuf| | |status events|now]; cbn [nat_event].
  - unfold OnTcpAccepted. keeps_auto.
  - unfold OnTcpRecv. keeps_auto.
  - unfold OnTcpErr. keeps_auto.
  - unfold OnTcpSent. keeps_auto.
  - unfold OnNatPollEvent. keeps_auto.
  - unfold flush_nat_entry. keeps_auto.
Qed.
End keeps.

(** ** A connection's life *)

Section life.
Context {W : Type} (os : forall c : Call, W -> Reply c * W).
#[local] Abbreviation IoSt := (IoState NetBackend W Reply).

(** A TCP entry as [CreateNatEntry] makes it. *)
Definition fresh (e : NatEntry) : Prop :=
  ne_proto e = IPPROTO_TCP /\ ne_listen_pcb e <> None /\ ne_conn_pcb e = None /\ ne_host_socket e = None
  /\ ne_pending_data e = [] /\ ne_pending_to_guest e = [] /\ ne_pending_to_host e = [].

(** The states a connection goes through, from its creation: its own events
    in any order, with whatever the kernel and lwIP answer, between steps
    of the rest of the backend that leave the entry alone.  [G] was sent by
    the guest, [S] reached the host, [H] came from the host, [R] was
    written to the guest. *)
Inductive relay (p : nat) : bytes -> bytes -> bytes -> bytes -> IoSt -> Prop :=
| relay_new st e : find_entry p (io_state st) = Some e -> fresh e -> relay p [] [] [] [] st
| relay_event G S H R st e ev st' t :
    relay p G S H R st ->
    find_entry p (io_state st) = Some e -> may_happen (view_of e) ev ->
    nat_event os p ev st = Some (tt, st') -> io_trace st' = io_trace st ++ t ->
    relay p (G ++ guest_bytes ev) (S ++ sent t) (H ++ received t) (R ++ written t) st'
| relay_other G S H R st st' :
    relay p G S H R st -> find_entry p (io_state st') = find_entry p (io_state st) ->
    relay p G S H R st'.

Lemma relay_holds p G S H R st :
  relay p G S H R st ->
  exists e, find_entry p (io_state st) = Some e /\ ne_proto e = IPPROTO_TCP /\ relay_inv G (view_of e) S H R.
Proof.
  induction 1 as [st e He (Hp & Hl & Hc & Hs & Hd & Hg & Hh)|G S H R st e ev st' t _ IH He Hm Hev Ht|G S H R st st' _ IH Hsame].
  - exists e. split; [done|]. split; [done|]. constructor; cbn; rewrite ?Hc, ?Hs, ?Hd, ?Hg, ?Hh; done.
  - destruct IH as (e' & He' & Hp & Hi). assert (e' = e) as -> by congruence.
    assert (Ha : at_p p (io_trace st) S H R (view_of e) S H R st).
    { split; [by exists e|]. exists []. cbn. by rewrite !app_nil_r. }
    pose proof (wp_run _ _ _ _ _ (event_holds os p _ _ _ _ _ _ _ _ _ _ ev Ha Hi Hm) Hev)
      as (v & s & h & w & [(e' & He'' & Hv & Hp') (t' & Ht' & Es & Eh & Ew)] & Hi').
    assert (t' = t) as -> by (apply (app_inv_head (io_trace st)); congruence).
    exists e'. subst v s h w. done.
  - rewrite Hsame. exact IH.
Qed.

(** C3. A relayed TCP connection is first in, first out, in both directions.
    After any events of the entry, in any order and between any other steps
    of the backend that leave it alone, whatever the kernel and lwIP
    answered: what reached the host is a prefix of what the guest sent, and
    what was written to the guest a prefix of what the host sent; and while
    the socket (the guest's connection) is open, the rest is exactly what the
    entry's buffers hold, in order, so nothing is lost or doubled. *)
Theorem tcp_relay_fifo p G S H R st :
  relay p G S H R st ->
  exists e, find_entry p (io_state st) = Some e
    /\ S `prefix_of` G /\ R `prefix_of` H
    /\ (ne_host_socket e <> None -> S ++ ne_pending_to_host e ++ ne_pending_data e = G)
    /\ (ne_conn_pcb e <> None -> R ++ ne_pending_to_guest e = H).
Proof. intros Hr. destruct (relay_holds _ _ _ _ _ _ Hr) as (e & He & _ & []). by exists e. Qed.

(** When the host closes its stream, the guest has been given all of it: the
    poll event that takes an entry with an open guest connection to
    [HalfClosed] leaves every byte received from the host written to the
    guest. *)
Theorem host_close_flushed p G S H R st e status events st' t e' :
  relay p G S H R st -> find_entry p (io_state st) = Some e -> ne_conn_pcb e <> None ->
  nat_event os p (NEv_Poll status events) st = Some (tt, st') -> io_trace st' = io_trace st ++ t ->
  find_entry p (io_state st') = Some e' -> ne_state e <> HalfClosed -> ne_state e' = HalfClosed ->
  R ++ written t = H ++ received t.
Proof.
  intros Hr He Hc Hev Ht He' Hx Hx'. destruct (relay_holds _ _ _ _ _ _ Hr) as (e0 & He0 & Hp & Hi).
  assert (e0 = e) as -> by congruence.
  assert (Ha : at_p p (io_trace st) S H R (view_of e) S H R st).
  { split; [by exists e|]. exists []. cbn. by rewrite !app_nil_r. }
  pose proof (wp_run _ _ _ _ _ (fin_poll os p _ _ _ _ _ _ _ _ _ _ status events Ha Hi) Hev)
    as (v & s & h & w & [(e1 & He1 & Hv & _) (t' & Ht' & Es & Eh & Ew)] & _ & Hfin).
  assert (t' = t) as -> by (apply (app_inv_head (io_trace st)); congruence).
  assert (e1 = e') as -> by congruence. subst v s h w.
  destruct Hfin as [?|Hf]; [exact Hx'|done|]. by apply Hf.
Qed.

(** Events of other entries are steps of the rest. *)
Lemma relay_other_event p q ev G S H R st st' :
  p <> q -> relay p G S H R st -> nat_event os q ev st = Some (tt, st') -> relay p G S H R st'.
Proof.
  intros Hpq Hr Hev. eapply relay_other; [exact Hr|].
  exact (wp_run _ _ _ _ _ (event_keeps os q p (not_eq_sym Hpq) ev st) Hev).
Qed.

(** Running events, with what they move. *)
Definition may_happen_b (v : View) (ev : NatEvent) : bool :=
  match ev with
  | NEv_Accepted _ => negb (none (v_listen v))
  | NEv_Recv _ _ => negb (none (v_conn v))
  | _ => true
  end.

Lemma may_happen_b_ok v ev : may_happen_b v ev = true -> may_happen v ev.
Proof. destruct ev; cbn; try done; intros H E; rewrite E in H; done. Qed.

Fixpoint run_relay (p : nat) (evs : list NatEvent) (G S H R : bytes) (st : IoSt) : option (bytes * bytes * bytes * bytes * IoSt) :=
  match evs with
  | [] => Some (G, S, H, R, st)
  | ev :: evs =>
      e ← find_entry p (io_state st);
      if negb (may_happen_b (view_of e) ev) then None
      else
        '(_, st') ← nat_event os p ev st;
        let t := drop (length (io_trace st)) (io_trace st') in
        run_relay p evs (G ++ guest_bytes ev) (S ++ sent t) (H ++ received t) (R ++ written t) st'
  end.

Lemma event_trace p G S H R st e ev st' :
  relay p G S H R st -> find_entry p (io_state st) = Some e -> may_happen (view_of e) ev ->
  nat_event os p ev st = Some (tt, st') -> exists t, io_trace st' = io_trace st ++ t.
Proof.
  intros Hr He Hm Hev. destruct (relay_holds _ _ _ _ _ _ Hr) as (e0 & He0 & Hp & Hi).
  assert (e0 = e) as -> by congruence.
  assert (Ha : at_p p (io_trace st) S H R (view_of e) S H R st).
  { split; [by exists e|]. exists []. cbn. by rewrite !app_nil_r. }
  pose proof (wp_run _ _ _ _ _ (event_holds os p _ _ _ _ _ _ _ _ _ _ ev Ha Hi Hm) Hev)
    as (v & s & h & w & [_ (t' & Ht' & _)] & _). by exists t'.
Qed.

Lemma run_relay_sound p evs : forall G S H R st G' S' H' R' st',
  relay p G S H R st -> run_relay p evs G S H R st = Some (G', S', H', R', st') -> relay p G' S' H' R' st'.
Proof.
  induction evs as [|ev evs IH]; intros G S H R st G' S' H' R' st' Hr Hrun; cbn [run_relay] in Hrun.
  - by injection Hrun as <- <- <- <- <-.
  - apply bind_Some in Hrun as (e & He & Hrun). destruct (may_happen_b (view_of e) ev) eqn:Em; cbn [negb] in Hrun; [|done].
    apply may_happen_b_ok in Em. apply bind_Some in Hrun as ([[] st1] & Hev & Hrun).
    destruct (event_trace _ _ _ _ _ _ _ _ _ Hr He Em Hev) as [t Ht]. eapply IH; [|exact Hrun].
    eapply relay_event; [exact Hr|exact He|exact Em|exact Hev|]. rewrite Ht. by rewrite drop_app_length.
Qed.

Lemma run_relay_reaches p evs st G S H R :
  relay p [] [] [] [] st -> fst <$> run_relay p evs [] [] [] [] st = Some (G, S, H, R) ->
  exists st', relay p G S H R st'.
Proof.
  intros Hr Hrun. destruct (run_relay p evs [] [] [] [] st) as [[[[[G' S'] H'] R'] st']|] eqn:E; [|done].
  injection Hrun as <- <- <- <-. exists st'. by eapply run_relay_sound.
Qed.
End life.

Definition demo_entry : NatEntry :=
  MkNat 0 IPPROTO_TCP kGuestIp 4000 0x01020304 80 10000 false 0 0 Listening (Some 1) None None [] [] [] 0 PollHandle_new.
Definition demo_start : IoState NetBackend nat Reply :=
  MkIo (nb_set_nat_entries [demo_entry] NetBackend_new) 0%nat [].

Definition demo_events : list NatEvent :=
  [NEv_Accepted 5; NEv_Recv 5 (Some (str "GET ")); NEv_Recv 5 (Some (str "/x"));
   NEv_Poll 0 UV_WRITABLE; NEv_Poll 0 (UV_READABLE + UV_WRITABLE); NEv_Sent].

Lemma demo_fresh : relay demo_os 0 [] [] [] [] demo_start.
Proof. by apply (relay_new _ _ _ demo_entry). Qed.

Lemma demo_relay : exists st, relay demo_os 0 (str "GET /x") (str "GET /x") (str "hello") (str "hello") st.
Proof. apply (run_relay_reaches _ _ demo_events demo_start); [apply demo_fresh|]. vm_compute. reflexivity. Qed.

Lemma tcp_relay_fifo_witness : exists st e, find_entry 0 (io_state (W := nat) (Reply := Reply) st) = Some e /\ str "GET /x" `prefix_of` str "GET /x".
Proof.
  destruct demo_relay as [st Hr]. destruct (tcp_relay_fifo demo_os 0 _ _ _ _ st Hr) as (e & He & Hs & _).
  exists st, e. split; [exact He|exact Hs].
Defined.

(** The same host, before and after it closes its stream. *)
Definition demo_open : IoState NetBackend nat Reply := Eval vm_compute in
  match run_relay demo_os 0 demo_events [] [] [] [] demo_start with Some (_, st) => st | None => demo_start end.
Definition demo_shut : IoState NetBackend nat Reply := Eval vm_compute in
  match nat_event demo_os 0 (NEv_Poll 0 UV_READABLE) demo_open with Some (_, st) => st | None => demo_start end.
Definition demo_tail : list (Done (Reply := Reply)) := Eval vm_compute in
  drop (length (io_trace demo_open)) (io_trace demo_shut).
Definition demo_open_entry : NatEntry := Eval vm_compute in default demo_entry (find_entry 0 (io_state demo_open)).
Definition demo_shut_entry : NatEntry := Eval vm_compute in default demo_entry (find_entry 0 (io_state demo_shut)).

Lemma demo_open_relay : relay demo_os 0 (str "GET /x") (str "GET /x") (str "hello") (str "hello") demo_open.
Proof. apply (run_relay_sound _ _ demo_events _ _ _ _ _ _ _ _ _ _ demo_fresh). vm_compute. reflexivity. Qed.

Lemma host_close_flushed_witness : str "hello" ++ written demo_tail = str "hello" ++ received demo_tail.
Proof.
  refine (host_close_flushed demo_os 0 _ _ _ _ demo_open demo_open_entry 0 UV_READABLE demo_shut demo_tail
    demo_shut_entry demo_open_relay _ _ _ _ _ _ _); [vm_compute; reflexivity|discriminate|vm_compute; reflexivity..|discriminate|].
  vm_compute. reflexivity.
Defined.

(** The other way round: the guest's FIN closes the host socket although the
    host had not taken what was sent. *)
Definition demo_slow (c : Call) (w : nat) : Reply c * nat :=
  match c return Reply c * nat with
  | Send _ _ => (SendErr true, w)
  | c => demo_os c w
  end.

Lemma guest_close_drops :
  fst <$> run_relay demo_slow 0 [NEv_Accepted 5; NEv_Poll 0 UV_WRITABLE; NEv_Recv 5 (Some (str "bye")); NEv_Recv 5 None]
    [] [] [] [] demo_start = Some (str "bye", [], [], [])
  /\ (match run_relay demo_slow 0 [NEv_Accepted 5; NEv_Poll 0 UV_WRITABLE; NEv_Recv 5 (Some (str "bye")); NEv_Recv 5 None]
        [] [] [] [] demo_start with
      | Some (_, st) => deferred_socket_close_ (io_state st) | None => [] end) = [7].
Proof. split; vm_compute; reflexivity. Qed.
