(* ===== verification/NetPf.v ===== *)
(** * Port forwarding

    Models core/net/net_port_forward.cpp: a connection a client makes to a
    forwarded host port is accepted, a TCP connection to the guest is opened
    in lwIP and bytes are relayed between the two; and [TeardownPfConn] and
    [UpdatePfConnPoll] of core/net/net_backend.cpp.

    Not modelled: [TeardownHostForwards] and [CheckPendingUpdates], which run
    the event loop from inside one of its callbacks. *)

From S2P Require Import Prelude.
From S2P Require Import HostIo.
From S2P Require Import StdString.
From S2P Require Import NetPacket.
From S2P Require Import NetHost.
From S2P Require Import NetNat.
From S2P Require Import NetRelay.

Definition INADDR_ANY : Z := 0.
Definition INADDR_LOOPBACK : Z := 0x7F000001.

Section net_pf.
Context {W : Type} (os : forall c : Call, W -> Reply c * W).

#[local] Abbreviation M := (IO NetBackend W Reply).
#[local] Abbreviation host := (NetHost.host os).
#[local] Abbreviation call := (NetHost.call os).
#[local] Abbreviation lwip := (NetNat.lwip os).
#[local] Abbreviation lwip_ := (NetNat.lwip_ os).

Definition TeardownPfConn (p : nat) : M unit :=
  Poll_Close os (HPfConn p);;
  c ← conn p;
  match pc_host_sock c with
  | None => mret tt
  | Some s => DeferSocketClose (Some s);; upd_conn p (set_pc_host_sock None)
  end;;
  c ← conn p;
  match pc_guest_pcb c with
  | None => mret tt
  | Some pcb =>
      detach os pcb;;
      lwip_ (TcpClose (Some pcb));;
      upd_conn p (set_pc_guest_pcb None)
  end.

Definition pf_events (c : PfConn) : Z :=
  let events := UV_READABLE in
  let events := if is_nil (pc_pending_to_host c) then events else events .| UV_WRITABLE in
  if is_nil (pc_pending_to_guest c) then events else events .& bnot 32 UV_READABLE.

Definition UpdatePfConnPoll (p : nat) : M unit :=
  c ← conn p;
  if ph_closing (pc_poll c) then mret tt
  else
    match pc_host_sock c with
    | None => Poll_Stop os (HPfConn p)
    | Some s =>
        when (negb (ph_active (pc_poll c))) (Poll_Init os (HPfConn p) s);;
        Poll_Start os (HPfConn p) (pf_events c)
    end.

(** ** Relay *)

Definition DrainPfToGuest (p : nat) : M unit :=
  c ← conn p;
  match pc_pending_to_guest c, pc_guest_pcb c, pc_guest_connected c with
  | [], _, _ | _, None, _ | _, _, false => mret tt
  | data, Some pcb, true =>
      avail ← host (TcpSndbuf pcb);
      let to_write := Z.min avail (Z.of_nat (length data)) in
      when (0 <? to_write) (
        ok ← host (TcpWrite pcb (take (Z.to_nat to_write) data));
        when ok (
          lwip_ (TcpOutput pcb);;
          upd_conn p (set_pc_pending_to_guest (drop (Z.to_nat to_write) data))))
  end.

Definition DrainPfToHost (p : nat) : M unit :=
  c ← conn p;
  match pc_pending_to_host c with
  | [] => mret tt
  | data =>
      match pc_host_sock c with
      | None => upd_conn p (set_pc_pending_to_host [])
      | Some s =>
          r ← host (Send s data);
          match r with
          | Sent n =>
              when (0 <? n) (
                if (length data <? Z.to_nat n)%nat then UB
                else upd_conn p (set_pc_pending_to_host (drop (Z.to_nat n) data)))
          | SendErr would_block => when (negb would_block) (TeardownPfConn p)
          end
      end
  end.

(** One read of the client's socket; true when the handler returns. *)
Definition pf_read (p : nat) (s : Sock) : M bool :=
  DrainPfToGuest p;;
  c ← conn p;
  if negb (is_nil (pc_pending_to_guest c)) then mret false
  else
    r ← host (Recv (Some s) 4096);
    match r with
    | None | Some [] => TeardownPfConn p;; mret true
    | Some data =>
        upd_conn p (fun c => set_pc_pending_to_guest (pc_pending_to_guest c ++ data) c);;
        DrainPfToGuest p;;
        mret false
    end.

Definition OnPfConnPollEvent (p : nat) (status events : Z) : M unit :=
  c ← conn p;
  match pc_host_sock c with
  | None => TeardownPfConn p
  | Some s =>
      if status <? 0 then TeardownPfConn p
      else
        when (negb (is_nil (pc_pending_to_host c)) && has events UV_WRITABLE) (DrainPfToHost p);;
        returned ← (if has events UV_READABLE then pf_read p s else mret false);
        match returned with
        | true => mret tt
        | false =>
            c ← conn p;
            if none (pc_host_sock c) then Poll_Stop os (HPfConn p) else UpdatePfConnPoll p
        end
  end.

(** ** The callbacks of the PCB *)

Definition pf_recv (p : nat) (pcb : Pcb) (pbuf : option bytes) : M unit :=
  match pbuf with
  | None =>
      TeardownPfConn p;;
      detach os pcb;;
      lwip_ (TcpClose (Some pcb));;
      upd_conn p (set_pc_guest_pcb None)
  | Some data =>
      lwip_ (TcpRecved pcb (Z.of_nat (length data)));;
      upd_conn p (fun c => set_pc_pending_to_host (pc_pending_to_host c ++ data) c);;
      DrainPfToHost p;;
      UpdatePfConnPoll p
  end.

Definition pf_err (p : nat) : M unit :=
  upd_conn p (set_pc_guest_pcb None);;
  TeardownPfConn p.

Definition pf_sent (arg : option nat) : M unit :=
  match arg with
  | None => mret tt
  | Some p =>
      DrainPfToGuest p;;
      c ← conn p;
      when (is_nil (pc_pending_to_guest c) && negb (none (pc_host_sock c))) (UpdatePfConnPoll p)
  end.

Definition pf_connected (arg : option nat) (pcb : Pcb) : M unit :=
  match arg with
  | None => mret tt
  | Some p =>
      upd_conn p (set_pc_guest_connected true);;
      c ← conn p;
      match pc_pending_to_guest c with
      | [] => mret tt
      | data =>
          host (TcpWrite pcb (take (Z.to_nat (u16 (Z.of_nat (length data)))) data));;
          lwip_ (TcpOutput pcb);;
          upd_conn p (set_pc_pending_to_guest [])
      end;;
      UpdatePfConnPoll p
  end.

(** ** Listeners *)

Definition OnPfListenerReadable (q : nat) : M unit :=
  pf ← pf_entry q;
  cs ← host (Accept (pf_listener pf));
  match cs with
  | None => mret tt
  | Some cs =>
      pcb ← host TcpNew;
      p ← alloc_ptr;
      upd_pf q (fun pf =>
        set_pf_conns (pf_conns pf ++ [MkConn p (Some cs) pcb false [] [] PollHandle_new]) pf);;
      match pcb with
      | None => UB
      | Some pcb =>
          call (TcpArg pcb (Some (AConn p)));;
          call (TcpRecvCb pcb true);;
          call (TcpErrCb pcb true);;
          call (TcpSentCb pcb true);;
          lwip_ (TcpConnect (Some pcb) (pf_guest_port pf));;
          UpdatePfConnPoll p
      end
  end.

(** The ports that could not be listened on. *)
Fixpoint setup_loop (pfs : list nat) : M (list Z) :=
  match pfs with
  | [] => mret []
  | q :: pfs =>
      pf ← pf_entry q;
      s ← host (Socket SK_Stream);
      match s with
      | None => rest ← setup_loop pfs; mret (pf_host_port pf :: rest)
      | Some s =>
          let ip := if bool_decide (pf_host_ip pf = str "0.0.0.0") then INADDR_ANY else INADDR_LOOPBACK in
          ok ← host (BindListen s ip (pf_host_port pf));
          if negb ok then
            call (SockClose s);;
            rest ← setup_loop pfs;
            mret (pf_host_port pf :: rest)
          else
            upd_pf q (set_pf_listener (Some s));;
            Poll_Init os (HPfListener q) s;;
            Poll_Start os (HPfListener q) UV_READABLE;;
            setup_loop pfs
      end
  end.
Definition SetupHostForwards : M (list Z) :=
  pfs ← field host_forwards_;
  setup_loop (map pf_ptr pfs).

(** The pass of [FlushStalledGuestWrites] over one connection. *)
Definition flush_pf_conn (p : nat) : M unit :=
  c ← conn p;
  if none (pc_guest_pcb c) || is_nil (pc_pending_to_guest c) then mret tt
  else
    DrainPfToGuest p;;
    c ← conn p;
    when (is_nil (pc_pending_to_guest c) && negb (none (pc_host_sock c))) (UpdatePfConnPoll p).

(** [conns.remove_if] of the cleanup timer. *)
Definition pf_done (c : PfConn) : bool :=
  none (pc_host_sock c) && none (pc_guest_pcb c) && ph_closed (pc_poll c).
Definition remove_done_conns : M unit :=
  modify (fun nb => nb_set_host_forwards
    (map (fun pf => set_pf_conns (filter (fun c => pf_done c = false) (pf_conns pf)) pf) (host_forwards_ nb)) nb).
End net_pf.
