(* ===== verification/NetFrames.v ===== *)
(** * Frames from the guest

    Models core/net/net_dhcp.cpp (the DHCP server; on Unix hosts, the
    resolver lookup), core/net/net_icmp.cpp (Unix hosts) and, from
    core/net/net_backend.cpp, guest forwards, the ARP answers for them, the
    dispatch of the frames a guest transmits ([ProcessPendingTx]) and the
    callbacks of the event loop. *)

From S2P Require Import Prelude.
From S2P Require Import HostIo.
From S2P Require Import StdString.
From S2P Require Import VmModel.
From S2P Require Import NetPacket.
From S2P Require Import NetHost.
From S2P Require Import NetNat.
From S2P Require Import NetRelay.
From S2P Require Import NetPf.

(** ** DHCP *)

Definition dhcp_magic : Z := 0x63825363.

(** The loop over the options from [i] on: the message type and the requested
    address, in the bytes' order. *)
Fixpoint dhcp_options (fuel : nat) (opts : bytes) (msg_type : Z) (req_ip : bytes) : Z * bytes :=
  match fuel, opts with
  | S fuel, opt :: rest =>
      if opt =? 255 then (msg_type, req_ip)
      else if opt =? 0 then dhcp_options fuel rest msg_type req_ip
      else
        match rest with
        | [] => (msg_type, req_ip)
        | olen :: rest =>
            if (length rest <? Z.to_nat olen)%nat then (msg_type, req_ip)
            else
              let msg_type := if (opt =? 53) && (1 <=? olen) then hd 0 rest else msg_type in
              let req_ip := if (opt =? 50) && (4 <=? olen) then take 4 rest else req_ip in
              dhcp_options fuel (drop (Z.to_nat olen) rest) msg_type req_ip
        end
  | _, _ => (msg_type, req_ip)
  end.

(** A request: the message type, [xid] and the first six bytes of [chaddr].
    [inl] is the handler's [false]; [None] reads behind the frame. *)
Definition dhcp_request (f : bytes) : option (unit + Z * bytes * bytes) :=
  if negb (get 2 o_eth_type f =? 0x0800) then Some (inl tt)
  else if (length f <? sizeof_EthHdr + sizeof_IpHdr + sizeof_UdpHdr)%nat then Some (inl tt)
  else if negb (get 1 o_proto f =? IPPROTO_UDP) then Some (inl tt)
  else if (length f <? l4_off f + 4)%nat then None
  else if negb (get 2 (l4_off f + 2) f =? 67) then Some (inl tt)
  else
    let udp_off := (l4_off f + sizeof_UdpHdr)%nat in
    if (length f <? udp_off + sizeof_DhcpMsg)%nat then Some (inl tt)
    else if negb (get 4 (udp_off + 236) f =? dhcp_magic) then Some (inl tt)
    else
      let opts := drop (udp_off + sizeof_DhcpMsg) f in
      let '(msg_type, _) := dhcp_options (length opts) opts 0 [0; 0; 0; 0] in
      if (msg_type =? 1) || (msg_type =? 3) then
        Some (inr (msg_type, take 4 (drop (udp_off + 4) f), take 6 (drop (udp_off + 28) f)))
      else Some (inl tt).

(** The options of a reply. *)
Definition dhcp_reply_options (type : Z) (dns : list Z) : bytes :=
  [53; 1; type] ++ [54; 4] ++ be_bytes 4 kGatewayIp ++ [51; 4] ++ be_bytes 4 86400
  ++ [1; 4] ++ be_bytes 4 kNetmask ++ [3; 4] ++ be_bytes 4 kGatewayIp
  ++ [6; u8 (Z.of_nat (length dns) * 4)] ++ (dns ≫= be_bytes 4) ++ [255].

(** [DhcpMsg] of a reply. *)
Definition dhcp_reply_msg (xid chaddr : bytes) : bytes :=
  [2; 1; 6; 0] ++ xid ++ be_bytes 4 0 ++ be_bytes 4 0 ++ be_bytes 4 kGuestIp ++ be_bytes 4 kGatewayIp ++ be_bytes 4 0
  ++ chaddr ++ replicate 10 0 ++ replicate 64 0 ++ replicate 128 0 ++ be_bytes 4 dhcp_magic.

(** The frame of [SendDhcpReply]; the buffer of 600 bytes holds it for up to
    79 DNS servers, and there are three at most. *)
Definition dhcp_reply (type : Z) (xid chaddr : bytes) (dns : list Z) : option bytes :=
  let body := dhcp_reply_msg xid chaddr ++ dhcp_reply_options type dns in
  let udp_len := 8 + Z.of_nat (length body) in
  RecalcIpChecksum
    (replicate 6 255 ++ kGatewayMac ++ be_bytes 2 0x0800
     ++ [0x45; 0] ++ be_bytes 2 (u16 (20 + udp_len)) ++ [0; 0; 0; 0; 64; IPPROTO_UDP] ++ be_bytes 2 0
     ++ be_bytes 4 kGatewayIp ++ be_bytes 4 0xFFFFFFFF
     ++ be_bytes 2 67 ++ be_bytes 2 68 ++ be_bytes 2 (u16 udp_len) ++ be_bytes 2 0 ++ body).

(** ** The host's DNS servers *)

Fixpoint strip_prefix (p s : bytes) : option bytes :=
  match p, s with
  | [], _ => Some s
  | a :: p, b :: s => if a =? b then strip_prefix p s else None
  | _ :: _, [] => None
  end.

(** [sscanf(line, "nameserver %63s")]: the word. *)
Fixpoint scan_word (n : nat) (s : bytes) : bytes :=
  match n, s with
  | S n, c :: s => if isspace c then [] else c :: scan_word n s
  | _, _ => []
  end.
Definition scan_nameserver (line : bytes) : option bytes :=
  rest ← strip_prefix (str "nameserver") (c_str line);
  match scan_word 63 (skip_space rest) with
  | [] => None
  | w => Some w
  end.

Definition usable_dns (ip : Z) : bool := negb (ip .>> 24 =? 127) && negb (ip =? 0).

(** ** Guest forwards *)

(** [sscanf(s, "%u.%u.%u.%u")] with a 64-bit [unsigned long]. *)
Definition scan_u (s : bytes) : option (Z * bytes) :=
  let '(neg, s1) := read_sign (skip_space s) in
  let '(n, any, rest) := read_digits 0 false s1 in
  if any : bool then Some (u32 (fst (strtoull s)), rest) else None.

Definition scan_ip4 (s : bytes) : option (list Z) :=
  '(a, s) ← scan_u (c_str s);
  s ← strip_prefix [ch_dot] s;
  '(b, s) ← scan_u s;
  s ← strip_prefix [ch_dot] s;
  '(c, s) ← scan_u s;
  s ← strip_prefix [ch_dot] s;
  '(d, _) ← scan_u s;
  Some [a; b; c; d].

Definition gf_entry (gf : GuestForward) : GfEntry :=
  MkGf (gf_guest_ip gf) (gf_guest_port gf)
    (match scan_ip4 (EffectiveHostAddr gf) with
     | Some [a; b; c; d] => u32 (a .<< 24) .| u32 (b .<< 16) .| u32 (c .<< 8) .| d
     | _ => 0x7F000001
     end) (gf_host_port gf).
Definition ApplyGuestForwards (gfs : list GuestForward) (nb : NetBackend) : NetBackend :=
  nb_set_guest_forwards (map gf_entry gfs) nb.

Definition IsGuestFwdIp (ip : Z) (nb : NetBackend) : bool :=
  existsb (fun gf => ge_guest_ip gf =? ip) (guest_forwards_ nb).
Definition FindGuestFwd (ip port : Z) (nb : NetBackend) : option GfEntry :=
  first_such (fun gf => (ge_guest_ip gf =? ip) && (ge_guest_port gf =? port)) (guest_forwards_ nb).

(** The reply to an ARP request for a forwarded address; [None] is the
    handler's [false]. *)
Definition guestfwd_arp (f : bytes) (nb : NetBackend) : option bytes :=
  if (length f <? sizeof_EthHdr + 28)%nat then None
  else if negb (get 2 o_eth_type f =? 0x0806) then None
  else
    let arp := drop sizeof_EthHdr f in
    if negb (get 2 6 arp =? 1) then None
    else
      let target_ip := get 4 24 arp in
      if negb (IsGuestFwdIp target_ip nb) then None
      else Some (
        take 6 (drop 6 f) ++ kGatewayMac ++ be_bytes 2 0x0806
        ++ [0; 1; 0x08; 0; 6; 4; 0; 2] ++ kGatewayMac ++ be_bytes 4 target_ip
        ++ take 6 (drop 8 arp) ++ take 4 (drop 14 arp)).

Section net_frames.
Context {W : Type} (os : forall c : Call, W -> Reply c * W).

#[local] Abbreviation M := (IO NetBackend W Reply).
#[local] Abbreviation host := (NetHost.host os).
#[local] Abbreviation call := (NetHost.call os).
#[local] Abbreviation lwip_ := (NetNat.lwip_ os).

(** The lines of /etc/resolv.conf, read until three addresses are found. *)
Fixpoint dns_loop (lines : list bytes) (result : list Z) : M (list Z) :=
  match lines with
  | [] => mret result
  | line :: lines =>
      match scan_nameserver line with
      | None => dns_loop lines result
      | Some w =>
          o ← host (InetPton w);
          match o with
          | Some ip =>
              if usable_dns ip then
                let result := result ++ [ip] in
                if (3 <=? length result)%nat then mret result else dns_loop lines result
              else dns_loop lines result
          | None => dns_loop lines result
          end
      end
  end.
Definition GetHostDnsServers : M (list Z) :=
  file ← host ResolvConf;
  result ← match file with Some lines => dns_loop lines [] | None => mret [] end;
  mret (match result with [] => [0x08080808] | _ => result end).

Definition SendDhcpReply (type : Z) (xid chaddr : bytes) : M unit :=
  dns ← GetHostDnsServers;
  f ← the (dhcp_reply type xid chaddr dns);
  InjectFrame os f.

Definition HandleArpOrDhcp (f : bytes) : M bool :=
  r ← the (dhcp_request f);
  match r with
  | inl _ => mret false
  | inr (msg_type, xid, chaddr) =>
      SendDhcpReply (if msg_type =? 1 then 2 else 5) xid chaddr;;
      mret true
  end.

Definition HandleGuestFwdArp (f : bytes) : M bool :=
  r ← field (guestfwd_arp f);
  match r with
  | None => mret false
  | Some reply => InjectFrame os reply;; mret true
  end.

(** ** ICMP *)

Definition HandleIcmpOut (dst_ip : Z) (icmp_data : bytes) : M unit :=
  s ← field icmp_socket_;
  s ← match s with
      | Some s => mret (Some s)
      | None =>
          s ← host (Socket SK_Icmp);
          match s with
          | None => mret None
          | Some s =>
              modify (nb_set_icmp_socket (Some s));;
              call (UvPollInit HIcmp s);;
              call (UvPollStart HIcmp UV_READABLE);;
              modify (nb_set_icmp_poll_active true);;
              mret (Some s)
          end
      end;
  match s with
  | None => mret tt
  | Some s => call (SendTo s icmp_data dst_ip 0)
  end.

(** One datagram of the loop; false ends it. *)
Definition icmp_step (s : Sock) : M bool :=
  r ← host (RecvFrom (Some s) 2048);
  match r with
  | None | Some ([], _) => mret false
  | Some (buf, from_ip) =>
      if (length buf <? 20)%nat then mret true
      else
        let hdr_len := Z.to_nat ((hd 0 buf .& 0xF) * 4) in
        if (length buf <? hdr_len + 8)%nat then mret true
        else
          id ← host Rand;
          f ← the (BuildIpFrame kGuestMac kGatewayMac from_ip kGuestIp IPPROTO_ICMP (drop hdr_len buf) id);
          InjectFrame os f;;
          mret true
  end.
(** [fuel] bounds the datagrams; the loop ends when the socket is empty. *)
Fixpoint icmp_loop (fuel : nat) (s : Sock) : M unit :=
  match fuel with
  | O => UB
  | S fuel =>
      more ← icmp_step s;
      match more with true => icmp_loop fuel s | false => mret tt end
  end.
Definition HandleIcmpReadable (fuel : nat) : M unit :=
  s ← field icmp_socket_;
  match s with
  | None => mret tt
  | Some s => icmp_loop fuel s
  end.

(** ** Into lwIP *)

Definition lwip_event (ev : LwipEvent) : M unit :=
  match ev with
  | EvLinkOutput f => LwipLinkOutput os f
  | EvAccept (ANat p) (Some pcb) true => OnTcpAccepted os p pcb
  | EvAccept _ _ _ => mret tt
  | EvRecv (ANat p) pcb pbuf => OnTcpRecv os p pcb pbuf
  | EvRecv (AConn p) pcb pbuf => pf_recv os p pcb pbuf
  | EvErr (ANat p) => OnTcpErr os p
  | EvErr (AConn p) => pf_err os p
  | EvSent None => mret tt
  | EvSent (Some (ANat p)) => OnTcpSent os p
  | EvSent (Some (AConn p)) => pf_sent os (Some p)
  | EvConnected (Some (AConn p)) pcb => pf_connected os (Some p) pcb
  | EvConnected _ pcb => pf_connected os None pcb
  end.

(** A pbuf's length has 16 bits. *)
Definition feed (f : bytes) : M unit :=
  let len := u16 (Z.of_nat (length f)) in
  p ← host (PbufAlloc len);
  match p with
  | false => mret tt
  | true =>
      r ← host (Input (take (Z.to_nat len) f));
      for_each lwip_event (snd r);;
      when (negb (fst r)) (call PbufFree)
  end.

Definition RewriteAndFeed (f : bytes) (p : nat) : M unit :=
  e ← entry p;
  g ← the (rewrite_to_gateway e f);
  feed g.

(** ** Dispatch *)

(** The entry of a flow, made when there is none; [setup] is applied to a
    new one. *)
Definition find_or_create (guest_ip guest_port dst_ip dst_port proto : Z) (setup : NatEntry -> NatEntry) : M (option nat) :=
  now ← host GetMonotonicMs;
  o ← field (FindNatEntry now guest_port dst_ip dst_port proto);
  match o with
  | Some p => mret (Some p)
  | None =>
      o ← CreateNatEntry os guest_ip guest_port dst_ip dst_port proto;
      match o with
      | None => mret None
      | Some p => upd p setup;; mret (Some p)
      end
  end.

Definition mark_guestfwd (dst port : Z) (e : NatEntry) : NatEntry :=
  set_ne_guestfwd_port port (set_ne_guestfwd_ip dst (set_ne_gateway_local true e)).

(** A UDP payload out of the entry's socket. *)
Definition nat_send_udp (p : nat) (payload : bytes) (ip port : Z) : M unit :=
  e ← entry p;
  match ne_host_socket e, payload with
  | None, _ | _, [] => mret tt
  | Some s, _ =>
      call (SendTo s payload ip port);;
      touch os p
  end.

(** The guest forward part; true when the frame is done with. *)
Definition dispatch_guestfwd (f : bytes) : M bool :=
  let dst := get 4 o_dst_ip f in
  is_gf ← field (IsGuestFwdIp dst);
  let off := l4_off f in
  let proto := get 1 o_proto f in
  match is_gf with
  | false => mret false
  | true =>
      if (proto =? IPPROTO_TCP) && (off + sizeof_TcpHdr <=? length f)%nat then
        let dport := get 2 (off + 2) f in
        gf ← field (FindGuestFwd dst dport);
        match gf, dst =? kGatewayIp with
        | None, true => mret false
        | _, _ =>
            let '(fwd_ip, fwd_port) :=
              match gf with Some gf => (ge_host_ip gf, ge_host_port gf) | None => (0x7F000001, dport) end in
            o ← find_or_create (get 4 o_src_ip f) (get 2 off f) fwd_ip fwd_port IPPROTO_TCP (mark_guestfwd dst dport);
            match o with
            | None => mret true
            | Some p => RewriteAndFeed f p;; mret true
            end
        end
      else if (proto =? IPPROTO_UDP) && (off + sizeof_UdpHdr <=? length f)%nat then
        let g_dport := get 2 (off + 2) f in
        gf ← field (FindGuestFwd dst g_dport);
        match gf, dst =? kGatewayIp with
        | None, true => mret false
        | _, _ =>
            let '(fwd_ip, fwd_port) :=
              match gf with Some gf => (ge_host_ip gf, ge_host_port gf) | None => (0x7F000001, g_dport) end in
            o ← find_or_create (get 4 o_src_ip f) (get 2 off f) fwd_ip fwd_port IPPROTO_UDP (mark_guestfwd dst g_dport);
            match o with
            | None => mret true
            | Some p => nat_send_udp p (drop (off + sizeof_UdpHdr) f) fwd_ip fwd_port;; mret true
            end
        end
      else mret (negb (dst =? kGatewayIp))
  end.

(** An IP packet for an address outside. *)
Definition dispatch_external (f : bytes) : M unit :=
  let off := l4_off f in
  let proto := get 1 o_proto f in
  let src := get 4 o_src_ip f in
  let dst := get 4 o_dst_ip f in
  if proto =? IPPROTO_TCP then
    if (length f <? off + sizeof_TcpHdr)%nat then mret tt
    else
      o ← find_or_create src (get 2 off f) dst (get 2 (off + 2) f) IPPROTO_TCP id;
      match o with
      | None => mret tt
      | Some p => RewriteAndFeed f p
      end
  else if proto =? IPPROTO_UDP then
    if (length f <? off + sizeof_UdpHdr)%nat then mret tt
    else
      o ← find_or_create src (get 2 off f) dst (get 2 (off + 2) f) IPPROTO_UDP id;
      match o with
      | None => mret tt
      | Some p =>
          e ← entry p;
          nat_send_udp p (drop (off + sizeof_UdpHdr) f) (ne_real_dst_ip e) (ne_real_dst_port e)
      end
  else if proto =? IPPROTO_ICMP then
    let icmp_len := u32 (Z.of_nat (length f) - Z.of_nat off) in
    if icmp_len <? 8 then mret tt
    else if (length f <? off)%nat then UB
    else HandleIcmpOut dst (drop off f)
  else mret tt.

Definition process_frame (f : bytes) : M unit :=
  if (length f <? sizeof_EthHdr)%nat then mret tt
  else
    handled ← HandleArpOrDhcp f;
    match handled with
    | true => mret tt
    | false =>
        let ethertype := get 2 o_eth_type f in
        if ethertype =? 0x0806 then
          handled ← HandleGuestFwdArp f;
          match handled with true => mret tt | false => feed f end
        else if negb (ethertype =? 0x0800) then mret tt
        else if (length f <? sizeof_EthHdr + sizeof_IpHdr)%nat then mret tt
        else
          handled ← dispatch_guestfwd f;
          match handled with
          | true => mret tt
          | false =>
              if get 4 o_dst_ip f =? kGatewayIp then feed f
              else dispatch_external f
          end
    end.

Definition ProcessPendingTx : M unit :=
  frames ← field tx_queue_;
  modify (nb_set_tx_queue []);;
  for_each process_frame frames.

(** ** The event loop's callbacks *)

Definition EnqueueTx (f : bytes) : M unit := modify (enqueue_tx f).
Definition SetLinkUp (up : bool) : M unit := modify (nb_set_link_up up).

Definition OnTxReady : M unit :=
  ProcessPendingTx;;
  ls ← field deferred_listen_close_;
  for_each (fun l => lwip_ (TcpClose (Some l))) ls;;
  modify (nb_set_deferred_listen_close []);;
  cs ← field deferred_conn_abort_;
  for_each (fun c => lwip_ (TcpAbort c)) cs;;
  modify (nb_set_deferred_conn_abort []);;
  RescheduleLwipTimer os.

Definition FlushStalledGuestWrites : M unit :=
  now ← host GetMonotonicMs;
  es ← field nat_entries_;
  for_each (flush_nat_entry os now) (map ne_ptr es);;
  pfs ← field host_forwards_;
  for_each (flush_pf_conn os) (map pc_ptr (pfs ≫= pf_conns)).

Definition OnLwipTimer : M unit :=
  evs ← host SysCheckTimeouts;
  for_each lwip_event evs;;
  FlushStalledGuestWrites;;
  RescheduleLwipTimer os.

Definition OnCleanupTimer : M unit :=
  CleanupStaleEntries os;;
  remove_done_conns.

Definition UpdateGuestForwards (gfs : list GuestForward) : M unit :=
  modify (nb_set_pending_gf_update (Some gfs)).
Definition CheckPendingGfUpdates : M unit :=
  update ← field pending_gf_update_;
  match update with
  | None => mret tt
  | Some gfs =>
      modify (nb_set_pending_gf_update None);;
      modify (ApplyGuestForwards gfs)
  end.
End net_frames.

(** ** The DHCP reply

    What a client reads in it: an option list, in order. *)
Fixpoint parse_options (fuel : nat) (opts : bytes) : option (list (Z * bytes)) :=
  match fuel, opts with
  | S fuel, opt :: rest =>
      if opt =? 255 then Some []
      else if opt =? 0 then parse_options fuel rest
      else
        match rest with
        | [] => None
        | olen :: rest =>
            if (length rest <? Z.to_nat olen)%nat then None
            else os ← parse_options fuel (drop (Z.to_nat olen) rest); Some ((opt, take (Z.to_nat olen) rest) :: os)
        end
  | _, _ => None
  end.

(** What the reply says: where the frame and the packet come from and go
    to, the message, and the options. *)
Record Lease := MkLease {
  l_eth_dst : bytes;
  l_eth_src : bytes;
  l_src_ip : Z;
  l_dst_ip : Z;
  l_type : option Z;
  l_xid : bytes;
  l_chaddr : bytes;
  l_yiaddr : Z;
  l_server : option Z;
  l_lease : option Z;
  l_mask : option Z;
  l_router : option Z;
  l_dns : option bytes
}.

(** The value of an option. *)
Definition opt_val (code : Z) (l : list (Z * bytes)) : option bytes :=
  snd <$> first_such (fun o => fst o =? code) l.
Definition dhcp_off : nat := 42.

Definition client_parse (f : bytes) : option Lease :=
  if negb ((get 2 o_eth_type f =? 0x0800) && (get 1 o_proto f =? IPPROTO_UDP) && (get 1 o_ver_ihl f =? 0x45)
           && (get 2 34 f =? 67) && (get 2 36 f =? 68) && (get 2 38 f =? Z.of_nat (length f) - 34)
           && (get 2 o_total_len f =? Z.of_nat (length f) - 14)
           && (get 1 dhcp_off f =? 2) && (get 4 (dhcp_off + 236) f =? dhcp_magic)) then None
  else
    let opts := drop (dhcp_off + sizeof_DhcpMsg) f in
    l ← parse_options (length opts) opts;
    Some (MkLease (take 6 f) (take 6 (drop 6 f)) (get 4 o_src_ip f) (get 4 o_dst_ip f) (hd 0 <$> opt_val 53 l) (take 4 (drop (dhcp_off + 4) f)) (take 6 (drop (dhcp_off + 28) f))
            (get 4 (dhcp_off + 16) f) (be_val <$> opt_val 54 l) (be_val <$> opt_val 51 l) (be_val <$> opt_val 1 l)
            (be_val <$> opt_val 3 l) (opt_val 6 l)).

Lemma be_bytes_4 v : be_bytes 4 v = [v / 256 / 256 / 256 mod 256; v / 256 / 256 mod 256; v / 256 mod 256; v mod 256].
Proof. reflexivity. Qed.

(** The checksum field is none of those the client reads. *)
Lemma client_parse_checksum f c :
  (o_checksum + 2 <= length f)%nat -> client_parse (put 2 o_checksum c f) = client_parse f.
Proof.
  intros Hl. unfold client_parse. rewrite length_put by done.
  assert (Hd : forall n, (o_checksum + 2 <= n)%nat -> drop n (put 2 o_checksum c f) = drop n f).
  { intros n Hn. apply list_eq. intros i. rewrite !lookup_drop. apply lookup_put_ne; lia. }
  assert (Ht : forall k n, (n + k <= o_checksum)%nat -> take k (drop n (put 2 o_checksum c f)) = take k (drop n f)).
  { intros k n Hn. apply list_eq. intros i. destruct (decide (i < k)%nat); [|by rewrite !lookup_take_ge by lia].
    rewrite !lookup_take_lt, !lookup_drop by lia. apply lookup_put_ne; lia. }
  pose proof (Ht 6%nat 0%nat ltac:(unfold o_checksum; lia)) as Ht0. rewrite !drop_0 in Ht0. rewrite Ht0, (Ht 6%nat 6%nat) by (unfold o_checksum; lia).
  rewrite !Hd by (unfold o_checksum, dhcp_off, sizeof_DhcpMsg; lia).
  rewrite !get_put_ne by (try done; unfold o_checksum, dhcp_off, o_eth_type, o_proto, o_ver_ihl, o_total_len, o_src_ip, o_dst_ip; lia).
  reflexivity.
Qed.

Definition lease_of (type : Z) (xid chaddr : bytes) (dns : list Z) : Lease :=
  MkLease (replicate 6 255) kGatewayMac kGatewayIp 0xFFFFFFFF (Some type) xid chaddr kGuestIp (Some kGatewayIp) (Some 86400) (Some kNetmask) (Some kGatewayIp)
    (Some (dns ≫= be_bytes 4)).

(** C27. A client understands the DHCP reply: for any transaction, client address
    and up to three DNS servers the frame fits its buffer and has a valid IP
    header checksum; it goes from the gateway's Ethernet and IP address to
    everyone; and a client that checks protocol, ports, lengths and magic and
    parses the options finds the message type, its transaction and address,
    the guest's address, server, lease time, mask, router and exactly these
    DNS servers. *)
Theorem dhcp_reply_parses type xid chaddr dns :
  in_width 8 type -> bytes_ok xid -> length xid = 4%nat -> bytes_ok chaddr -> length chaddr = 6%nat ->
  (length dns <= 3)%nat ->
  exists r, dhcp_reply type xid chaddr dns = Some r /\ ip_ok r /\ (length r <= 600)%nat
    /\ client_parse r = Some (lease_of type xid chaddr dns).
Proof.
  intros Ht Hxb Hx Hcb Hc Hd. unfold dhcp_reply. set (f := replicate 6 255 ++ _).
  assert (Hb : bytes_ok f).
  { assert (Hdns : bytes_ok (dns ≫= be_bytes 4)).
    { clear. induction dns; [by apply Forall_nil|]. apply Forall_app_2; [apply be_bytes_ok|done]. }
    assert (Hty : bytes_ok [53; 1; type]).
    { apply Forall_cons. split; [by vm_compute|]. apply Forall_cons. split; [by vm_compute|]. by apply Forall_singleton. }
    assert (Hn : bytes_ok [6; u8 (Z.of_nat (length dns) * 4)]).
    { apply Forall_cons. split; [by vm_compute|]. apply Forall_singleton, wrap_in_width. lia. }
    unfold f, dhcp_reply_msg, dhcp_reply_options.
    repeat first [assumption | apply be_bytes_ok | apply Forall_app_2 | by apply bytes_okb_ok]. }
  assert (Hf : length f = (312 + 4 * length dns)%nat /\ ip_hdr_len f = 20%nat
               /\ client_parse f = Some (lease_of type xid chaddr dns)).
  { clear Hb. destruct xid as [|x0 [|x1 [|x2 [|x3 [|? ?]]]]]; simpl in Hx; try lia.
    destruct chaddr as [|c0 [|c1 [|c2 [|c3 [|c4 [|c5 [|? ?]]]]]]]; simpl in Hc; try lia.
    destruct dns as [|d1 [|d2 [|d3 [|? ?]]]]; simpl in Hd; try lia.
    all: unfold f; split; [reflexivity|split; [reflexivity|vm_compute; reflexivity]]. }
  destruct Hf as (Hlen & Hihl & Hp).
  destruct (RecalcIpChecksum_ok f) as (c & _ & Hr & Hok).
  - done.
  - rewrite Hihl. lia.
  - unfold l4_off, sizeof_EthHdr. rewrite Hihl. lia.
  - exists (put 2 o_checksum c f). assert (Hl : (o_checksum + 2 <= length f)%nat) by (unfold o_checksum; lia).
    split; [done|]. split; [done|]. split; [rewrite length_put by done; lia|]. by rewrite client_parse_checksum.
Qed.

Lemma dhcp_reply_parses_witness : exists r, dhcp_reply 2 [1; 2; 3; 4] kGuestMac [0x08080808] = Some r
  /\ client_parse r = Some (lease_of 2 [1; 2; 3; 4] kGuestMac [0x08080808]).
Proof.
  destruct (dhcp_reply_parses 2 [1; 2; 3; 4] kGuestMac [0x08080808]) as (r & H1 & _ & _ & H2).
  - by vm_compute.
  - by apply bytes_okb_ok.
  - reflexivity.
  - by apply bytes_okb_ok.
  - reflexivity.
  - apply Nat.leb_le. reflexivity.
  - exists r. split; [exact H1|exact H2].
Defined.

(** The header length is the guest's: the request handler reads the UDP port
    behind the end of a frame of 42 bytes. *)
Lemma dhcp_reads_behind_frame : exists f, length f = 42%nat /\ dhcp_request f = None.
Proof.
  exists (replicate 12 0 ++ [8; 0; 0x4F] ++ replicate 8 0 ++ [17] ++ replicate 18 0). split; reflexivity.
Qed.

(** ** Behaviour worth knowing *)

(** A UDP reply of a guest forward comes from the gateway, not from the
    address the guest sent to: the entry says 10.0.2.100 port 53. *)
Definition demo_fwd_entry : NatEntry :=
  MkNat 0 IPPROTO_UDP kGuestIp 5353 0x7F000001 5300 10000 true 0x0A000264 53 Established None None (Some 9) [] [] [] 0
    (MkPoll true true false false).

Definition injected {W} (st : IoState NetBackend W Reply) : list bytes :=
  io_trace st ≫= fun d => match d with
                           | existT c _ => match c with InjectRx f => [f] | _ => [] end
                           end.

Lemma guestfwd_udp_reply_source :
  match HandleUdpReadable demo_os 0 (MkIo (nb_set_nat_entries [demo_fwd_entry] NetBackend_new) 0%nat []) with
  | Some (_, st) => map (fun f => (get 4 o_src_ip f, get 2 34 f)) (injected st)
  | None => []
  end = [(kGatewayIp, 5300)]
  /\ (shown_ip demo_fwd_entry, shown_port demo_fwd_entry) = (0x0A000264, 53).
Proof. split; vm_compute; reflexivity. Qed.

(** An entry made for a guest forward is also found for a connection to the
    host's own address; its replies then come from the forward's. *)
Lemma guestfwd_entry_shared :
  FindNatEntry 0 5353 0x7F000001 5300 IPPROTO_UDP (nb_set_nat_entries [demo_fwd_entry] NetBackend_new) = Some 0%nat.
Proof. reflexivity. Qed.

(** A short ICMP packet: the length wraps and the handler reads behind the
    frame. *)
Definition demo_icmp : bytes := replicate 12 0 ++ [8; 0; 0x4F] ++ replicate 8 0 ++ [IPPROTO_ICMP] ++ replicate 10 0.

Lemma icmp_reads_behind_frame :
  process_frame demo_os demo_icmp (MkIo NetBackend_new 0%nat []) = None /\ length demo_icmp = 34%nat.
Proof. split; vm_compute; reflexivity. Qed.

(** A guest's FIN on a forwarded connection closes its PCB twice. *)
Definition demo_conn : PfConn := MkConn 1 (Some 9) (Some 5) true [] [] (MkPoll true true false false).
Definition closed_pcbs {W} (st : IoState NetBackend W Reply) : list (option Pcb) :=
  io_trace st ≫= fun d => match d with
                           | existT c _ => match c with TcpClose p => [p] | _ => [] end
                           end.

Lemma pf_fin_closes_twice :
  match pf_recv demo_os 1 5 None
          (MkIo (nb_set_host_forwards [MkPf 0 8080 80 [] (Some 3) PollHandle_new [demo_conn]] NetBackend_new) 0%nat []) with
  | Some (_, st) => closed_pcbs st
  | None => []
  end = [Some 5; Some 5].
Proof. vm_compute. reflexivity. Qed.

