(* ===== verification/VirtioNet.v ===== *)
(** * The virtio network device

    Models core/device/virtio/virtio_net.{h,cpp}: transmission, injection of
    received frames, link state and configuration space, over the transport
    and for any receiver of the guest's frames; and from core/vmm/vm.cpp the
    VM's receiver, the network backend's queue.

    [net_tx_delivers]: what the guest publishes on the transmit queue is what
    the receiver gets, frame by frame and in order.  [InjectRx_delivers]: a
    frame reaches the guest's buffer unchanged behind its header.
    [tx_total_wraps]: the lengths the guest chose are added up in 32 bits
    before a buffer of that size is filled with all of them. *)

From S2P Require Import Prelude.
From S2P Require Import StdString.
From S2P Require Import GuestMem.
From S2P Require Import VirtQueue.
From S2P Require Import VirtioMmio.
From S2P Require Import VirtioChain.
From S2P Require Import VirtioSerial.
From S2P Require Import NetHost.

Definition VIRTIO_NET_F_MAC : Z := 1 .<< 5.
Definition VIRTIO_NET_F_STATUS : Z := 1 .<< 16.
Definition VIRTIO_NET_F_VERSION_1 : Z := 1 .<< 32.
Definition sizeof_VirtioNetHdr : nat := 12.
Definition kDefaultMac : bytes := [0x52; 0x54; 0x00; 0x12; 0x34; 0x56].

(** [net_status] is [config_.status]; [net_client] is behind the transmit
    callback. *)
Record NetDev (C : Type) := mkNetDev { net_status : Z; net_client : C }.
Arguments mkNetDev {C}.
Arguments net_status {C}.
Arguments net_client {C}.

Section Device.
  Context {C : Type} (tx_callback_ : bytes -> C -> C).

Abbreviation net_world := (Mmio * NetDev C * HostMem)%type.

Definition NetDev_new (link_up : bool) (c : C) : NetDev C := mkNetDev (b2z link_up) c.

Definition Net_features : Z := VIRTIO_NET_F_MAC .| VIRTIO_NET_F_STATUS .| VIRTIO_NET_F_VERSION_1.

(** [mmio_] is set before the device runs. *)
Definition Net_SetLinkUp (up : bool) (m : Mmio) (d : NetDev C) : Mmio * NetDev C :=
  if net_status d =? b2z up then (m, d)
  else (NotifyConfigChange m, mkNetDev (b2z up) (net_client d)).
Definition Net_IsLinkUp (d : NetDev C) : bool := has (net_status d) 1.

(** The sum of the lengths, in a [uint32_t]. *)
Definition tx_total (chain : list VirtqChainElem) : Z := fold_left (fun total e => u32 (total + e_len e)) chain 0.

(** Every element is copied, device-writable ones too. *)
Fixpoint gather_all (chain : list VirtqChainElem) (h : HostMem) : option bytes :=
  match chain with
  | [] => Some []
  | e :: chain => l ← hm_read h (e_addr e) (e_len e); rest ← gather_all chain h; Some (l ++ rest)
  end.

(** One iteration of the transmit loop; [None] when the bytes do not fit the
    buffer of [tx_total] bytes. *)
Definition net_tx (head : Z) (w : net_world) : option net_world :=
  let '(m, d, h) := w in
  let vq := queue_at m 1 in
  r ← WalkChain vq h head;
  let '(ok, chain) := (r : bool * list VirtqChainElem) in
  if negb ok || bool_decide (chain = []) then h ← PushUsed vq h head 0; Some (m, d, h)
  else
    let total := tx_total chain in
    if total <=? Z.of_nat sizeof_VirtioNetHdr then h ← PushUsed vq h head 0; Some (m, d, h)
    else
      buf ← gather_all chain h;
      if negb (Z.of_nat (length buf) =? total) then None
      else
        let frame := drop sizeof_VirtioNetHdr buf in
        let d := if (14 <=? length frame)%nat then mkNetDev (net_status d) (tx_callback_ frame (net_client d)) else d in
        h ← PushUsed vq h head 0;
        Some (m, d, h).

Definition Net_OnQueueNotify (i : Z) (w : net_world) : option net_world :=
  if negb (i =? 1) then Some w
  else
    r ← drain net_tx (Z.to_nat 65536) 1 w;
    let '(m, d, h) := (r : net_world) in
    m ← NotifyUsedBuffer 1 m h;
    Some (m, d, h).

(** A frame for the guest; the header is zero, and what the chain has no room
    for is left out. *)
Definition Net_InjectRx (frame : bytes) (w : net_world) : option (net_world * bool) :=
  let '(m, d, h) := w in
  match GetQueue m 0 with
  | None => Some (w, false)
  | Some vq =>
      if negb (ready_ vq) then Some (w, false)
      else
        r ← PopAvail vq h;
        let '(o, q, h) := (r : option Z * VirtQueue * HostMem) in
        let m := set_queue 0 q m in
        match o with
        | None => Some ((m, d, h), false)
        | Some head =>
            r ← WalkChain q h head;
            let '(ok, chain) := (r : bool * list VirtqChainElem) in
            if negb ok || bool_decide (chain = []) then h ← PushUsed q h head 0; Some ((m, d, h), false)
            else
              r ← scatter_writable chain (replicate sizeof_VirtioNetHdr 0 ++ frame) h;
              let '(h, written) := (r : HostMem * Z) in
              h ← PushUsed q h head written;
              m ← NotifyUsedBuffer 0 m h;
              Some ((m, d, h), true)
        end
  end.

Definition net_config_bytes (d : NetDev C) : bytes := kDefaultMac ++ le_bytes 2 (net_status d).

(** The [memcpy] goes into a 4-byte variable. *)
Definition Net_ReadConfig (d : NetDev C) (offset size : Z) : option (NetDev C * Z) :=
  if 8 <? u32 (offset + size) then Some (d, 0)
  else if 4 <? size then None
  else Some (d, le_val (take (Z.to_nat size) (drop (Z.to_nat offset) (net_config_bytes d)))).

#[export] Instance Net_VirtioDeviceOps : VirtioDeviceOps (NetDev C) := {
  GetDeviceId := fun _ => 1;
  GetDeviceFeatures := fun _ => Net_features;
  GetNumQueues := fun _ => 2;
  GetQueueMaxSize := fun _ _ => 256;
  OnQueueNotify := Net_OnQueueNotify;
  ReadConfig := Net_ReadConfig;
  WriteConfig := fun d _ _ _ => d;
  OnStatusChange := fun _ w => Some w
}.

(** ** The transport *)

Lemma net_tx_keeps : keeps_mmio net_tx.
Proof.
  intros head m d h m' d' h' Hm. unfold net_tx. intros Hs.
  apply bind_Some in Hs as ([ok chain] & _ & Hs). destruct (negb ok || _).
  { apply bind_Some in Hs as (h1 & _ & Hs). by injection Hs as <- <- <-. }
  destruct (_ <=? _). { apply bind_Some in Hs as (h1 & _ & Hs). by injection Hs as <- <- <-. }
  apply bind_Some in Hs as (buf & _ & Hs). destruct (negb _); [done|].
  apply bind_Some in Hs as (h1 & _ & Hs). by injection Hs as <- <- <-.
Qed.

#[export] Instance Net_VirtioDeviceLaws : VirtioDeviceLaws (NetDev C).
Proof.
  constructor.
  - done.
  - intros i m d h m' d' h' Hm Hi. cbn [OnQueueNotify Net_VirtioDeviceOps]. unfold Net_OnQueueNotify.
    generalize (Z.to_nat 65536). intros fuel. destruct (Z.eqb_spec i 1) as [->|]; cbn [negb]; [|by intros [= <- <- <-]].
    intros Hs. apply bind_Some in Hs as ([[m1 d1] h1] & Hd & Hs). apply bind_Some in Hs as (m2 & Hn & Hs).
    injection Hs as <- <- <-. destruct (drain_mmio_ok _ _ _ _ _ _ _ _ _ net_tx_keeps Hm Hi Hd) as [H1 _].
    exact (NotifyUsedBuffer_ok _ _ _ _ H1 Hn).
  - intros v m d h m' d' h' Hm. cbn. by intros [= <- <- <-].
Qed.

(** ** The notification *)

Lemma ShouldNotifyGuest_ring q h avail used :
  ring_layout q h avail used ->
  exists b q', ShouldNotifyGuest q h = Some (b, q') /\ last_avail_idx_ q' = last_avail_idx_ q.
Proof.
  intros [Hsz Ha Hu Hain Huin Hdis]. unfold ShouldNotifyGuest, ReadUsedEvent. destruct (event_idx_ q) eqn:Ee; cbn [negb].
  - rewrite Hu. destruct (hm_load_in 2 h (used + 2)) as [v ->]; [lia|lia|]. cbn [mbind option_bind].
    unfold AvailRing. rewrite Ha. cbn [fmap option_fmap option_map].
    destruct (hm_load_in 2 h (avail + 4 + 2 * queue_size_ q)) as [w ->]; [lia|lia|]. cbn [mbind option_bind].
    do 2 eexists. split; [done|]. by destruct (event_crossed _ _ _).
  - rewrite Ha. destruct (hm_load_in 2 h avail) as [v ->]; [lia|lia|]. cbn [mbind option_bind].
    by do 2 eexists.
Qed.

Lemma NotifyUsedBuffer_ring i m h avail used :
  0 <= i < num_queues m -> ring_layout (queue_at m i) h avail used ->
  exists m', NotifyUsedBuffer i m h = Some m' /\ last_avail_idx_ (queue_at m' i) = last_avail_idx_ (queue_at m i).
Proof.
  intros Hi Hl. destruct (ShouldNotifyGuest_ring _ _ _ _ Hl) as (b & q' & Hs & Hlast).
  unfold NotifyUsedBuffer. rewrite (proj2 (Z.leb_le 0 i)), (proj2 (Z.ltb_lt i _)) by lia. cbn [andb].
  rewrite Hs. cbn [mbind option_bind fst snd].
  assert (Hr : forall m0, queues_ (raise_irq 1 m0) = queues_ m0) by (intros; unfold raise_irq; by case_ifs).
  destruct b; eexists; (split; [done|]); [unfold queue_at; rewrite Hr; fold (queue_at (set_queue i q' m) i)|]; by rewrite queue_at_set.
Qed.

(** Whether the driver wants an interrupt for what the used ring holds: with
    event indices, when the index passes the one it asked for since the last
    interrupt; without, unless its flag forbids them. *)
Definition wants_interrupt (q : VirtQueue) (h : HostMem) (avail used : Z) : bool :=
  if event_idx_ q
  then event_crossed (used_idx h used) (default 0 (hm_load 2 h (avail + 4 + 2 * queue_size_ q))) (last_signalled_used_ q)
  else negb (has (default 0 (hm_load 2 h avail)) 1).

Lemma raise_irq_set_queues bit qs m : raise_irq bit (set_queues qs m) = set_queues qs (raise_irq bit m).
Proof. destruct m. unfold raise_irq, set_interrupt_status, set_irq_signals, set_irq_line, set_queues. cbn. by case_ifs. Qed.

(** The transport then raises it, and changes nothing else but its queues. *)
Lemma NotifyUsedBuffer_wants i m h avail used m' :
  0 <= i < num_queues m -> ring_layout (queue_at m i) h avail used -> NotifyUsedBuffer i m h = Some m' ->
  exists qs, m' = set_queues qs (if wants_interrupt (queue_at m i) h avail used then raise_irq 1 m else m).
Proof.
  intros Hi [Hsz Ha Hu Hain Huin Hdis]. unfold NotifyUsedBuffer. rewrite (proj2 (Z.leb_le 0 i)), (proj2 (Z.ltb_lt i _)) by lia. cbn [andb].
  set (q := queue_at m i) in *. unfold ShouldNotifyGuest, wants_interrupt, ReadUsedEvent. destruct (event_idx_ q) eqn:Ee; cbn [negb].
  - rewrite Hu. unfold used_idx. destruct (hm_load_in 2 h (used + 2)) as [v ->]; [lia|lia|]. cbn [mbind option_bind from_option id].
    unfold AvailRing. rewrite Ha. cbn [fmap option_fmap option_map].
    destruct (hm_load_in 2 h (avail + 4 + 2 * queue_size_ q)) as [w ->]; [lia|lia|]. cbn [mbind option_bind from_option id fst snd].
    destruct (event_crossed v w (last_signalled_used_ q)); intros [= <-]; eexists; [apply raise_irq_set_queues|reflexivity].
  - rewrite Ha. destruct (hm_load_in 2 h avail) as [v ->]; [lia|lia|]. cbn [mbind option_bind from_option id fst snd].
    destruct (has v 1); cbn [negb]; intros [= <-]; eexists; [reflexivity|apply raise_irq_set_queues].
Qed.

(** ** What the guest sends *)

Lemma gather_all_readable chain h :
  Forall (fun e => e_writable e = false) chain -> gather_all chain h = gather_readable chain h.
Proof. induction 1 as [|e chain He _ IH]; [done|]. cbn [gather_all gather_readable]. by rewrite He, IH. Qed.

Lemma tx_total_from chain : forall acc, Forall (fun e => 0 <= e_len e) chain ->
  fold_left (fun total e => u32 (total + e_len e)) chain (u32 acc) = u32 (acc + foldr (fun e s => e_len e + s) 0 chain).
Proof.
  induction chain as [|e chain IH]; intros acc Hc; cbn [fold_left foldr]; [by rewrite Z.add_0_r|].
  inversion_clear Hc. rewrite wrap_add_l, IH by done. f_equal. lia.
Qed.

Lemma gather_length chain h l :
  Forall (fun e => 0 <= e_len e) chain -> gather_all chain h = Some l ->
  Z.of_nat (length l) = foldr (fun e s => e_len e + s) 0 chain.
Proof.
  intros Hc. revert l. induction Hc as [|e chain He _ IH]; intros l; cbn [gather_all foldr]; [by intros [= <-]|].
  intros H. apply bind_Some in H as (a & Ha & H). apply bind_Some in H as (b & Hb & [= <-]).
  apply hm_read_length in Ha; [|done]. rewrite length_app, Nat2Z.inj_add, (IH b Hb). lia.
Qed.

(** A request that fits: readable elements with less than 4 GiB in all. *)
Definition tx_request (es : list VirtqChainElem) : Prop :=
  es <> [] /\ Forall (fun e => e_writable e = false /\ 0 <= e_len e) es.

Lemma tx_total_length es h d :
  tx_request es -> gather_readable es h = Some d -> Z.of_nat (length d) < 2 ^ 32 -> tx_total es = Z.of_nat (length d).
Proof.
  intros [_ He] Hg Hl.
  assert (He1 : Forall (fun e => e_writable e = false) es) by (eapply Forall_impl; [exact He|]; by intros ? [? ?]).
  assert (He2 : Forall (fun e => 0 <= e_len e) es) by (eapply Forall_impl; [exact He|]; by intros ? [? ?]).
  rewrite <- gather_all_readable in Hg by done. pose proof (gather_length _ _ _ He2 Hg) as Hlen.
  pose proof (tx_total_from es 0 He2) as E. change (u32 0) with 0 in E. unfold tx_total. rewrite E, Z.add_0_l, <- Hlen.
  apply wrap_small. split; lia.
Qed.

(** The frames of a list of requests. *)
Definition tx_frames (datas : list bytes) : list bytes :=
  filter (fun f => (14 <= length f)%nat) (map (drop sizeof_VirtioNetHdr) datas).

Lemma tx_frames_snoc k datas d :
  datas !! k = Some d ->
  tx_frames (take (S k) datas) = tx_frames (take k datas)
    ++ (if (14 <=? length (drop sizeof_VirtioNetHdr d))%nat then [drop sizeof_VirtioNetHdr d] else []).
Proof.
  intros Hd. unfold tx_frames. rewrite (take_S_r _ _ _ Hd), map_app, filter_app. f_equal. cbn [map].
  rewrite filter_cons, filter_nil. case_decide as H.
  - by rewrite (proj2 (Nat.leb_le _ _) H).
  - destruct (Nat.leb_spec 14 (length (drop sizeof_VirtioNetHdr d))); [lia|done].
Qed.

Section Deliver.
  Context (q : VirtQueue) (h0 : HostMem) (avail used : Z) (safe : Z -> Z -> Prop).
  Context (lay : ring_layout q h0 avail used) (st : store_ok (hm_bytes h0)).
  Context (safe_avail : safe avail (6 + 2 * queue_size_ q)).
  Context (safe_outside : forall a n, safe a n -> outside q used a n).
  Context (datas : list bytes) (d0 : NetDev C).
  Context (pow2 : 65536 mod queue_size_ q = 0) (room : Z.of_nat (length (published q h0 avail)) <= queue_size_ q).

(** A request is returned with nothing written. *)
Definition returned_heads (heads : list Z) : list (Z * Z) := map (fun head => (head, 0)) heads.

Definition received_upto (k : nat) : NetDev C :=
  mkNetDev (net_status d0) (fold_left (fun c f => tx_callback_ f c) (tx_frames (take k datas)) (net_client d0)).

Definition net_inv (k : nat) (m : Mmio) (d : NetDev C) (h : HostMem) : Prop :=
  agree safe h0 h /\ d = received_upto k
  /\ used_holds q used (used_idx h0 used) (returned_heads (take k (published q h0 avail))) h.

Lemma net_agree h h' : agree (outside q used) h h' -> agree safe h h'.
Proof. intros [Hm Hr]. split; auto. Qed.

Lemma received_snoc k d :
  datas !! k = Some d ->
  received_upto (S k) =
    (let frame := drop sizeof_VirtioNetHdr d in
     if (14 <=? length frame)%nat then mkNetDev (net_status (received_upto k)) (tx_callback_ frame (net_client (received_upto k)))
     else received_upto k).
Proof.
  intros Hd. unfold received_upto. rewrite (tx_frames_snoc _ _ _ Hd), fold_left_app. cbn [net_status net_client].
  cbv zeta. by destruct (14 <=? _)%nat.
Qed.

Lemma net_tx_step elems :
  let heads := published q h0 avail in
  Forall (in_width 32) heads ->
  Forall2 (fun head es => request_at safe q h0 head es /\ tx_request es) heads elems ->
  Forall2 (fun es d => gather_readable es h0 = Some d /\ Z.of_nat (length d) < 2 ^ 32) elems datas ->
  handler_ok net_tx q 1 avail used heads net_inv.
Proof.
  intros heads Hw Hreq Hdat k head m d h q1 h1 Hk Hi Hq (Ha & -> & Hu) Hq1 He.
  destruct (Forall2_lookup_l _ _ _ _ _ Hreq Hk) as (es & Hes & Hr & Hfit).
  destruct (Forall2_lookup_l _ _ _ _ _ Hdat Hes) as (data & Hd & Hg & Hbound).
  pose proof (same_ring_trans _ _ _ Hq Hq1) as Hqq.
  pose proof Hqq as (Hsz & _). pose proof (rl_size _ _ _ _ lay) as Hsize.
  pose proof (used_holds_event q q1 used _ _ h h1 ltac:(lia) Hsz He Hu) as Hu1.
  apply same_but_event_agree in He; [|lia].
  pose proof (agree_trans _ _ _ _ Ha (net_agree _ _ He)) as Ha1.
  destruct (request_stable safe q q1 h0 h1 head es Hr Hqq Ha1) as [Hwalk Hgat].
  assert (Hlay1 : ring_layout q1 h1 avail used) by (eapply same_ring_layout; [exact lay|done|apply Ha1]).
  apply lookup_lt_Some in Hk as Hlen.
  destruct (PushUsed_holds q1 h1 avail used (used_idx h0 used) (returned_heads (take k heads)) head 0 Hlay1) as (h2 & Hp & Hu2 & He2);
    [by rewrite Hsz|unfold returned_heads; rewrite length_map, length_take, Hsz; subst heads; lia|exact Hu1|by eapply Forall_lookup_1|by split|].
  assert (Hkeep : agree safe h1 h2).
  { apply net_agree. eapply agree_weaken; [|exact He2]. intros ? ?. by apply outside_size. }
  exists (set_queue 1 q1 m), (received_upto (S k)), h2. unfold net_inv.
  rewrite num_queues_set, queue_at_set by done. split; [|split; [split; [by eapply agree_trans|split; [done|]]|split_and!; try done; [apply Hkeep|by apply Hkeep]]].
  2: { fold heads. rewrite (take_S_r _ _ _ Hk). unfold returned_heads in *. rewrite map_app.
       eapply (used_holds_size q1 q); [by rewrite Hsz|exact Hu2]. }
  unfold net_tx. rewrite queue_at_set by done. rewrite Hwalk. cbn [mbind option_bind negb orb].
  destruct Hfit as [Hne Hall]. rewrite bool_decide_false by done.
  rewrite (tx_total_length es h1 data) by (done || by rewrite Hgat).
  assert (Hread : gather_all es h1 = Some data).
  { rewrite gather_all_readable; [by rewrite Hgat|]. eapply Forall_impl; [exact Hall|]. by intros ? [? ?]. }
  rewrite (received_snoc _ _ Hd). unfold sizeof_VirtioNetHdr. destruct (Z.leb_spec (Z.of_nat (length data)) (Z.of_nat 12)) as [Hs|Hs].
  - rewrite Hp. cbn [mbind option_bind]. cbv zeta. destruct (Nat.leb_spec 14 (length (drop 12 data))) as [Hf|]; [|done].
    rewrite length_drop in Hf. lia.
  - rewrite Hread. cbn [mbind option_bind]. rewrite Z.eqb_refl. cbn [negb]. rewrite Hp. cbn [mbind option_bind]. reflexivity.
Qed.

(** The transmit notification for any receiver of frames. *)
Lemma net_tx_delivers m elems :
  queue_at m 1 = q -> 1 < num_queues m -> queue_ok q ->
  Forall2 (fun head es => request_at safe q h0 head es /\ tx_request es) (published q h0 avail) elems ->
  Forall2 (fun es d => gather_readable es h0 = Some d /\ Z.of_nat (length d) < 2 ^ 32) elems datas ->
  exists m' h',
    Net_OnQueueNotify 1 (m, d0, h0)
      = Some (m', mkNetDev (net_status d0) (fold_left (fun c f => tx_callback_ f c) (tx_frames datas) (net_client d0)), h')
    /\ last_avail_idx_ (queue_at m' 1) = avail_idx h0 avail /\ agree safe h0 h'
    /\ used_holds q used (used_idx h0 used) (returned_heads (published q h0 avail)) h'.
Proof.
  intros Hqm Hi Hok Hreq Hdat. pose proof (drain_published net_tx net_inv 1 m d0 h0 avail used) as HD.
  cbv zeta in HD. rewrite Hqm in HD.
  destruct HD as (m1 & d1 & h1 & Hd & Hs & Hl & Hn & Ha & Hd1 & Hu); try done.
  - eapply net_tx_step; [|exact Hreq|exact Hdat]. apply Forall_forall. intros hd. by apply published_width.
  - split; [apply agree_refl|]. split; [unfold received_upto; cbn; by destruct d0|]. by apply used_holds_nil.
  - destruct (NotifyUsedBuffer_ring 1 m1 h1 avail used) as (m2 & Hm2 & Hl2).
    { by rewrite Hn. }
    { eapply same_ring_layout; [exact lay|exact Hs|apply Ha]. }
    unfold Net_OnQueueNotify. change (1 =? 1) with true. cbn [negb]. rewrite Hd. cbn [mbind option_bind].
    rewrite Hm2. cbn [mbind option_bind]. exists m2, h1. rewrite Hl2, Hd1. unfold received_upto.
    split; [by rewrite (Forall2_length _ _ _ Hreq), (Forall2_length _ _ _ Hdat), firstn_all|]. split; [done|]. split; [done|].
    by rewrite firstn_all in Hu.
Qed.
End Deliver.
End Device.

(** ** The VM's receiver *)

(** [CreateVirtioNet] sets the callback to [EnqueueTx]. *)
Definition Vm_tx_callback : bytes -> NetBackend -> NetBackend := enqueue_tx.

Lemma enqueue_all fs nb :
  fold_left (fun c f => Vm_tx_callback f c) fs nb = if link_up_ nb then nb_set_tx_queue (tx_queue_ nb ++ fs) nb else nb.
Proof.
  revert nb. induction fs as [|f fs IH]; intros nb; cbn [fold_left].
  - rewrite app_nil_r. by destruct (link_up_ nb), nb.
  - rewrite IH. unfold Vm_tx_callback, enqueue_tx. destruct (link_up_ nb) eqn:E; cbn; rewrite E; [|done].
    by rewrite <- app_assoc.
Qed.

(** C10. Frames go from the guest's transmit queue to the network thread.  For
    at most as many requests as the queue has entries (a power of two), of
    readable buffers below 4 GiB, in memory that the used ring does not touch,
    one notification appends to the backend's queue exactly the bytes behind
    each request's header, in ring order and once each, frames shorter than an
    Ethernet header left out; with the link down it appends nothing.  Every
    request is returned: the used ring gets one entry for each, in order, with
    length 0, and its index counts them; memory outside the used ring is
    unchanged. *)
Theorem guest_frames_enqueued m d h avail used elems datas :
  let q := queue_at m 1 in
  1 < num_queues m -> ring_layout q h avail used -> queue_ok q -> store_ok (hm_bytes h) ->
  65536 mod queue_size_ q = 0 -> Z.of_nat (length (published q h avail)) <= queue_size_ q ->
  Forall2 (fun head es => request_at (outside q used) q h head es /\ tx_request es) (published q h avail) elems ->
  Forall2 (fun es data => gather_readable es h = Some data /\ Z.of_nat (length data) < 2 ^ 32) elems datas ->
  exists m' d' h', Net_OnQueueNotify Vm_tx_callback 1 (m, d, h) = Some (m', d', h')
    /\ tx_queue_ (net_client d') = tx_queue_ (net_client d) ++ (if link_up_ (net_client d) then tx_frames datas else [])
    /\ last_avail_idx_ (queue_at m' 1) = avail_idx h avail
    /\ used_holds q used (used_idx h used) (map (fun head => (head, 0)) (published q h avail)) h'
    /\ agree (outside q used) h h'.
Proof.
  intros q Hn Hlay Hok Hst Hpow Hroom Hreq Hdat.
  destruct (net_tx_delivers Vm_tx_callback q h avail used (outside q used) Hlay Hst) with
    (datas := datas) (d0 := d) (m := m) (elems := elems) as (m' & h' & H & Hl & Ha & Hu); try done.
  - destruct Hlay. unfold outside. lia.
  - do 3 eexists. split; [exact H|]. split; [|done]. cbn [net_client]. rewrite enqueue_all.
    destruct (link_up_ (net_client d)); [done|]. by rewrite app_nil_r.
Qed.

(** Two requests: a frame of 16 bytes and one of 5, each behind its header. *)
Definition net_mem : HostMem :=
  MkHostMem demo_map
    (poke (poke (poke (poke (poke ∅ 0x1000 (demo_desc 0x4000 28 0 0))
                 0x1010 (demo_desc 0x5000 17 0 0))
             0x2000 (le_bytes 2 0 ++ le_bytes 2 2 ++ le_bytes 2 0 ++ le_bytes 2 1))
         0x4000 (replicate 12 0 ++ replicate 16 7))
     0x5000 (replicate 17 9)).
Definition net_transport : Mmio := set_queues [VirtQueue_new; demo_queue] (Mmio_new false true false).
Definition net_device : NetDev NetBackend := NetDev_new true (nb_set_link_up true NetBackend_new).

Lemma net_mem_ok : store_ok (hm_bytes net_mem).
Proof.
  unfold net_mem, demo_desc, hm_bytes.
  repeat apply store_ok_poke; try (by apply map_Forall_empty);
    repeat (apply Forall_app_2; [apply le_bytes_ok|]); try apply le_bytes_ok; repeat apply Forall_app_2;
    apply Forall_replicate; (split; [discriminate|reflexivity]).
Qed.

Lemma guest_frames_enqueued_witness :
  exists m' d' h', Net_OnQueueNotify Vm_tx_callback 1 (net_transport, net_device, net_mem) = Some (m', d', h')
    /\ tx_queue_ (net_client d') = [replicate 16 7] /\ last_avail_idx_ (queue_at m' 1) = 2
    /\ used_holds demo_queue 0x3000 0 [(0, 0); (1, 0)] h' /\ agree (outside demo_queue 0x3000) net_mem h'.
Proof.
  apply (guest_frames_enqueued net_transport net_device net_mem 0x2000 0x3000
    [[MkElem 0x4000 28 false]; [MkElem 0x5000 17 false]] [replicate 12 0 ++ replicate 16 7; replicate 17 9]).
  - reflexivity.
  - constructor; try reflexivity; vm_compute; try (split; discriminate). by left.
  - split; [reflexivity|]. split; vm_compute; [discriminate|reflexivity].
  - exact net_mem_ok.
  - reflexivity.
  - vm_compute. discriminate.
  - assert (Hp : published (queue_at net_transport 1) net_mem 0x2000 = [0; 1]) by (by vm_compute).
    assert (Hm : hm_map net_mem = demo_map) by done. rewrite Hp.
    constructor; [|constructor; [|constructor]]; (split; [|split; [discriminate|repeat constructor; discriminate]]).
    + single_request 0 0x1000 (MkVirtqDesc 0x4000 28 0 0) 0x4000.
    + single_request 1 0x1010 (MkVirtqDesc 0x5000 17 0 0) 0x5000.
  - constructor; [|constructor; [|constructor]]; (split; [vm_compute; reflexivity|reflexivity]).
Defined.

(** ** A buffer smaller than its contents *)

(** 255 elements of 16 MiB and one of 16 MiB + 20 bytes, all the same memory. *)
Definition wrapping_chain : list VirtqChainElem :=
  replicate 255 (MkElem 0x4000 0x1000000 false) ++ [MkElem 0x4000 0x1000014 false].

Lemma tx_total_wraps :
  tx_total wrapping_chain = 20 /\ foldr (fun e s => e_len e + s) 0 wrapping_chain = 20 + 2 ^ 32.
Proof. split; vm_compute; reflexivity. Qed.

(** ** Frames for the guest *)

(** A frame injected into a queue with a free buffer reaches the guest: with
    one writable buffer large enough, apart from the used ring, the guest
    finds the twelve zero bytes of the header and the frame behind them, and
    the used entry names the buffer and this length. *)
Lemma InjectRx_delivers {C} (m : Mmio) (d : NetDev C) h avail used hva len frame :
  let q := queue_at m 0 in
  let head := avail_entry h q avail (last_avail_idx_ q) in
  0 < num_queues m -> ring_layout q h avail used -> queue_ok q -> last_avail_idx_ q <> avail_idx h avail ->
  in_width 32 head -> request_at (outside q used) q h head [MkElem hva len true] ->
  outside q used hva len -> 0 <= hva /\ hva + len <= alloc_size (hm_map h) ->
  Z.of_nat (12 + length frame) <= len < 2 ^ 32 ->
  exists m' h' slot, Net_InjectRx frame (m, d, h) = Some ((m', d, h'), true)
    /\ hm_read h' hva (Z.of_nat (12 + length frame)) = Some (replicate 12 0 ++ frame)
    /\ used_slot q h' used slot = (head, Z.of_nat (12 + length frame)).
Proof.
  intros q head Hn Hlay Hok Hne Hw Hr Hout Hin Hlen.
  pose proof (PopAvail_step q h avail used Hlay Hok) as Hp. cbv zeta in Hp.
  rewrite (proj2 (Z.eqb_neq _ _) Hne) in Hp. destruct Hp as (q1 & h1 & Hp & _ & Hq & He).
  fold head in Hp. destruct (request_stable (outside q used) q q1 h h1 head _ Hr Hq) as [Hwalk _].
  { apply same_but_event_agree; [destruct Hlay; lia|done]. }
  assert (Hl1 : ring_layout q1 h1 avail used) by (eapply same_ring_layout; [exact Hlay|done|apply He]).
  set (resp := replicate sizeof_VirtioNetHdr 0 ++ frame).
  assert (Hresp : length resp = (12 + length frame)%nat) by (unfold resp; by rewrite length_app, length_replicate).
  assert (Hmin : Nat.min (Z.to_nat len) (length resp) = length resp) by lia.
  assert (Hwr : exists h2, hm_write h1 hva resp = Some h2).
  { unfold hm_write. destruct He as [-> _]. rewrite (proj2 (Z.leb_le 0 hva)), (proj2 (Z.leb_le _ _)) by lia. by eexists. }
  destruct Hwr as [h2 Hwr]. pose proof (hm_write_map _ _ _ _ Hwr) as Hm2.
  assert (Hl2 : ring_layout q1 h2 avail used) by (eapply same_ring_layout; [exact Hl1|apply same_ring_refl|done]).
  destruct (PushUsed_spec q1 h2 avail used head (Z.of_nat (length resp)) Hl2 Hw) as (h3 & Hpu & Hslot & _ & _ & Hm3 & Hkeep).
  { split; lia. }
  assert (Hl3 : ring_layout q1 h3 avail used) by (eapply same_ring_layout; [exact Hl2|apply same_ring_refl|done]).
  destruct (NotifyUsedBuffer_ring 0 (set_queue 0 q1 m) h3 avail used) as (m' & Hm' & _).
  { by rewrite num_queues_set. }
  { by rewrite queue_at_set. }
  exists m', h3, (used_idx h2 used mod queue_size_ q1). rewrite <- Hresp. split_and!.
  - unfold Net_InjectRx, GetQueue. rewrite (proj2 (Z.ltb_lt 0 _) Hn). fold q. destruct Hok as [-> _]. cbn [negb].
    rewrite Hp. cbn [mbind option_bind]. rewrite Hwalk. cbn [mbind option_bind negb orb]. rewrite bool_decide_false by done.
    fold resp. cbn [scatter_writable e_writable e_len e_addr negb]. rewrite bool_decide_false by (intros E; by rewrite E in Hresp).
    rewrite Hmin, firstn_all, Hwr. cbn [mbind option_bind fst snd].
    rewrite Z.add_0_r, Hpu. cbn [mbind option_bind]. by rewrite Hm'.
  - rewrite Hkeep; [by apply hm_read_write_same with h1|lia|]. destruct Hq as (-> & _). unfold outside in Hout. lia.
  - rewrite <- Hslot. unfold used_slot. by destruct Hq as (-> & _).
Qed.
