(* ===== verification/Clocks.v ===== *)
(** * Timers, clocks and power management

    Models core/device/timer/i8254_pit.{h,cpp} (the PIT and port 0x61),
    core/device/rtc/cmos_rtc.{h,cpp}, core/device/rtc/pl031_rtc.{h,cpp} and
    core/device/acpi/acpi_pm.{h,cpp}.  The time stamp counter, its measured
    frequency and the host's wall clock are arguments of the accesses that
    read them.  The PIT computes in [double]; the arithmetic is IEEE 754
    binary64 as the Standard Library specifies it.  The callbacks are set
    before a device runs.

    [pit_program_latch_read]: what a guest reads from a counter it programmed
    and latched; [pit_oneshot_output]: the output it polls to calibrate its
    clock.  [cmos_reads_time], [pl031_keeps_time]: the clocks tell the time.
    [pm_timer_exact]: until when the ACPI timer is right, and
    [pm_timer_overflow], when it goes back.  [pm_write_callbacks]: when the VM is
    shut down or reset. *)

From Stdlib Require Import SpecFloat.
From S2P Require Import Prelude.

(** ** Doubles *)

Definition f64_of (z : Z) : spec_float := binary_normalize 53 1024 z 0 false.
Definition f64_mul : spec_float -> spec_float -> spec_float := SFmul 53 1024.
Definition f64_div : spec_float -> spec_float -> spec_float := SFdiv 53 1024.

(** [static_cast<uint64_t>] truncates; out of range is undefined. *)
Definition f64_to_u64 (x : spec_float) : option Z :=
  match x with
  | S754_zero _ => Some 0
  | S754_finite neg m e =>
      let t := if 0 <=? e then Z.pos m * 2 ^ e else Z.pos m / 2 ^ (- e) in
      if neg : bool then (if t =? 0 then Some 0 else None)
      else if t <? 2 ^ 64 then Some t else None
  | _ => None
  end.

(** ** The PIT *)

Definition kPitFrequencyHz : Z := 1193182.

Record Channel := MkChannel {
  reload : Z;
  mode : Z;
  access : Z;
  latch_pending : bool;
  latched_value : Z;
  write_lo_next : bool;
  read_lo_next : bool;
  armed : bool;
  start_tsc : Z
}.

Definition set_reload (v : Z) (s : Channel) : Channel :=
  MkChannel v (mode s) (access s) (latch_pending s) (latched_value s) (write_lo_next s)
    (read_lo_next s) (armed s) (start_tsc s).
Definition set_mode (v : Z) (s : Channel) : Channel :=
  MkChannel (reload s) v (access s) (latch_pending s) (latched_value s) (write_lo_next s)
    (read_lo_next s) (armed s) (start_tsc s).
Definition set_access (v : Z) (s : Channel) : Channel :=
  MkChannel (reload s) (mode s) v (latch_pending s) (latched_value s) (write_lo_next s)
    (read_lo_next s) (armed s) (start_tsc s).
Definition set_latch_pending (v : bool) (s : Channel) : Channel :=
  MkChannel (reload s) (mode s) (access s) v (latched_value s) (write_lo_next s)
    (read_lo_next s) (armed s) (start_tsc s).
Definition set_latched_value (v : Z) (s : Channel) : Channel :=
  MkChannel (reload s) (mode s) (access s) (latch_pending s) v (write_lo_next s)
    (read_lo_next s) (armed s) (start_tsc s).
Definition set_write_lo_next (v : bool) (s : Channel) : Channel :=
  MkChannel (reload s) (mode s) (access s) (latch_pending s) (latched_value s) v
    (read_lo_next s) (armed s) (start_tsc s).
Definition set_read_lo_next (v : bool) (s : Channel) : Channel :=
  MkChannel (reload s) (mode s) (access s) (latch_pending s) (latched_value s) (write_lo_next s)
    v (armed s) (start_tsc s).
Definition set_armed (v : bool) (s : Channel) : Channel :=
  MkChannel (reload s) (mode s) (access s) (latch_pending s) (latched_value s) (write_lo_next s)
    (read_lo_next s) v (start_tsc s).
Definition set_start_tsc (v : Z) (s : Channel) : Channel :=
  MkChannel (reload s) (mode s) (access s) (latch_pending s) (latched_value s) (write_lo_next s)
    (read_lo_next s) (armed s) v.

Definition Channel_new : Channel := MkChannel 0 0 0 false 0 true true false 0.

(** [ch0_timer] is the period in milliseconds of the timer registered with the
    loop. *)
Record I8254Pit := MkPit { channels_ : list Channel; io_loop_ : bool; ch0_timer : option Z }.

Definition Pit_new (loop : bool) : I8254Pit := MkPit (replicate 3 Channel_new) loop None.
Definition channel (p : I8254Pit) (i : Z) : Channel := nth (Z.to_nat i) (channels_ p) Channel_new.
Definition upd_channel (i : Z) (f : Channel -> Channel) (p : I8254Pit) : I8254Pit :=
  MkPit (<[Z.to_nat i := f (channel p i)]> (channels_ p)) (io_loop_ p) (ch0_timer p).
Definition set_ch0_timer (t : option Z) (p : I8254Pit) : I8254Pit := MkPit (channels_ p) (io_loop_ p) t.

Definition StopChannel0Timer (p : I8254Pit) : I8254Pit := set_ch0_timer None p.

Definition reload_count (c : Channel) : Z := if reload c =? 0 then 65536 else reload c.

Definition pit_period_ms (n : Z) : option Z :=
  ns ← f64_to_u64 (f64_mul (f64_div (f64_of n) (f64_of kPitFrequencyHz)) (f64_of 1000000000));
  let ms := ns / 1000000 in
  Some (if ms =? 0 then 1 else ms).

Definition ArmChannel0Timer (p : I8254Pit) : option I8254Pit :=
  let p := StopChannel0Timer p in
  let ch := channel p 0 in
  if negb (io_loop_ p) then Some p
  else if negb (armed ch) || (reload ch =? 0) then Some p
  else if negb (mode ch =? 2) && negb (mode ch =? 3) then Some p
  else
    ms ← pit_period_ms (reload_count ch);
    Some (set_ch0_timer (Some ms) p).

Section Pit.
Context (tsc_freq : Z).

Definition ElapsedPitTicks (c : Channel) (tsc : Z) : option Z :=
  if negb (armed c) then Some 0
  else f64_to_u64 (f64_div (f64_mul (f64_of (u64 (tsc - start_tsc c))) (f64_of kPitFrequencyHz)) (f64_of tsc_freq)).

(** The count for a number of ticks. *)
Definition count_at (c : Channel) (ticks : Z) : Z :=
  let n := reload_count c in
  if mode c =? 0 then (if n <=? ticks then 0 else u16 (n - ticks)) else u16 (n - ticks mod n).
Definition CurrentCount (c : Channel) (tsc : Z) : option Z := count_at c <$> ElapsedPitTicks c tsc.

Definition output_at (c : Channel) (ticks : Z) : bool :=
  let n := reload_count c in
  if mode c =? 0 then armed c && (n <=? ticks)
  else if mode c =? 2 then negb (ticks mod n =? n - 1)
  else if mode c =? 3 then ticks mod n <? n / 2
  else true.
Definition OutputHigh (c : Channel) (tsc : Z) : option bool := output_at c <$> ElapsedPitTicks c tsc.
Definition IsChannel2OutputHigh (p : I8254Pit) (tsc : Z) : option bool := OutputHigh (channel p 2) tsc.

Definition Pit_PioRead (offset tsc : Z) (p : I8254Pit) : option (I8254Pit * Z) :=
  if 3 <=? offset then Some (p, 0xFF)
  else
    let ch := channel p offset in
    count ← (if latch_pending ch then Some (latched_value ch) else CurrentCount ch tsc);
    let lo := count .& 0xFF in
    let hi := (count .>> 8) .& 0xFF in
    if access ch =? 1 then Some (upd_channel offset (set_latch_pending false) p, lo)
    else if access ch =? 2 then Some (upd_channel offset (set_latch_pending false) p, hi)
    else if read_lo_next ch then Some (upd_channel offset (set_read_lo_next false) p, lo)
    else Some (upd_channel offset (fun ch => set_latch_pending false (set_read_lo_next true ch)) p, hi).

(** The control word of port 0x43. *)
Definition pit_control (val tsc : Z) (p : I8254Pit) : option I8254Pit :=
  let ch_num := (val .>> 6) .& 3 in
  if ch_num =? 3 then Some p
  else
    let acc := (val .>> 4) .& 3 in
    if acc =? 0 then
      count ← CurrentCount (channel p ch_num) tsc;
      Some (upd_channel ch_num (fun ch => set_latched_value count (set_latch_pending true ch)) p)
    else
      Some (upd_channel ch_num (fun ch =>
        set_read_lo_next true (set_write_lo_next true (set_armed false
          (set_mode ((val .>> 1) .& 7) (set_access acc ch))))) p).

Definition start_count (tsc : Z) (ch : Channel) : Channel := set_start_tsc tsc (set_armed true ch).
Definition set_reload_lo (val : Z) (ch : Channel) : Channel := set_reload ((reload ch .& 0xFF00) .| val) ch.
Definition set_reload_hi (val : Z) (ch : Channel) : Channel := set_reload ((reload ch .& 0x00FF) .| u16 (val .<< 8)) ch.

Definition write_count (val tsc : Z) (ch : Channel) : Channel :=
  if access ch =? 1 then start_count tsc (set_reload_lo val ch)
  else if access ch =? 2 then start_count tsc (set_reload_hi val ch)
  else if write_lo_next ch then set_write_lo_next false (set_reload_lo val ch)
  else start_count tsc (set_write_lo_next true (set_reload_hi val ch)).

Definition Pit_PioWrite (offset value tsc : Z) (p : I8254Pit) : option I8254Pit :=
  let val := u8 value in
  if offset =? 3 then pit_control val tsc p
  else if 3 <=? offset then Some p
  else
    let p := upd_channel offset (write_count val tsc) p in
    if (offset =? 0) && armed (channel p offset) then ArmChannel0Timer p else Some p.

(** *** Port 0x61 *)

(** [value_] is the byte last written; the PIT is set before the device runs. *)
Definition SysB_PioRead (value_ tsc : Z) (p : I8254Pit) : option Z :=
  high ← IsChannel2OutputHigh p tsc;
  Some (if high : bool then value_ .| 0x20 else value_ .& bnot 8 0x20).
Definition SysB_PioWrite (value : Z) : Z := u8 value.
End Pit.

(** ** The CMOS clock *)

(** [struct tm] of [gmtime_r]. *)
Record Tm := MkTm { tm_sec : Z; tm_min : Z; tm_hour : Z; tm_wday : Z; tm_mday : Z; tm_mon : Z; tm_year : Z }.

Definition ToBcd (val : Z) : Z := u8 ((Z.quot val 10 .<< 4) .| Z.rem val 10).

Definition Cmos_ReadRegister (t : Tm) (reg : Z) : Z :=
  if reg =? 0x00 then ToBcd (tm_sec t)
  else if reg =? 0x02 then ToBcd (tm_min t)
  else if reg =? 0x04 then ToBcd (tm_hour t)
  else if reg =? 0x06 then ToBcd (tm_wday t + 1)
  else if reg =? 0x07 then ToBcd (tm_mday t)
  else if reg =? 0x08 then ToBcd (tm_mon t + 1)
  else if reg =? 0x09 then ToBcd (Z.rem (tm_year t + 1900) 100)
  else if reg =? 0x32 then ToBcd (Z.quot (tm_year t + 1900) 100)
  else if reg =? 0x0A then 0x26
  else if reg =? 0x0B then 0x02
  else if reg =? 0x0C then 0x00
  else if reg =? 0x0D then 0x80
  else 0x00.

(** The state is [index_]. *)
Definition Cmos_PioRead (t : Tm) (offset index : Z) : Z :=
  if offset =? 0 then index else Cmos_ReadRegister t index.
Definition Cmos_PioWrite (offset value index : Z) : Z := if offset =? 0 then u8 value .& 0x7F else index.

(** ** The PL031 *)

(** [tick_offset_] is a signed 64-bit number; [pl_irq] the last level driven. *)
Record Pl031 := MkPl031 {
  match_reg_ : Z; load_reg_ : Z; rtc_cr_ : Z; rtc_imsc_ : Z; rtc_ris_ : Z; tick_offset_ : Z; rtc_line : bool }.
Definition Pl031_new : Pl031 := MkPl031 0 0 1 0 0 0 false.

Definition HostEpoch (now : Z) : Z := u32 now.

Definition Rtc_UpdateIrq (s : Pl031) : Pl031 :=
  MkPl031 (match_reg_ s) (load_reg_ s) (rtc_cr_ s) (rtc_imsc_ s) (rtc_ris_ s) (tick_offset_ s)
    (negb (rtc_ris_ s .& rtc_imsc_ s =? 0)).

Definition Pl031_MmioRead (offset now : Z) (s : Pl031) : Z :=
  if offset =? 0x000 then u32 (HostEpoch now + tick_offset_ s)
  else if offset =? 0x004 then match_reg_ s
  else if offset =? 0x008 then load_reg_ s
  else if offset =? 0x00C then rtc_cr_ s
  else if offset =? 0x010 then rtc_imsc_ s
  else if offset =? 0x014 then rtc_ris_ s
  else if offset =? 0x018 then rtc_ris_ s .& rtc_imsc_ s
  else if offset =? 0xFE0 then 0x31
  else if offset =? 0xFE4 then 0x10
  else if offset =? 0xFE8 then 0x04
  else if offset =? 0xFEC then 0x00
  else if offset =? 0xFF0 then 0x0D
  else if offset =? 0xFF4 then 0xF0
  else if offset =? 0xFF8 then 0x05
  else if offset =? 0xFFC then 0xB1
  else 0.

Definition Pl031_MmioWrite (offset value now : Z) (s : Pl031) : Pl031 :=
  if offset =? 0x004 then
    MkPl031 (u32 value) (load_reg_ s) (rtc_cr_ s) (rtc_imsc_ s) (rtc_ris_ s) (tick_offset_ s) (rtc_line s)
  else if offset =? 0x008 then
    MkPl031 (match_reg_ s) (u32 value) (rtc_cr_ s) (rtc_imsc_ s) (rtc_ris_ s) (u32 value - HostEpoch now) (rtc_line s)
  else if offset =? 0x00C then
    MkPl031 (match_reg_ s) (load_reg_ s) (u32 value .& 1) (rtc_imsc_ s) (rtc_ris_ s) (tick_offset_ s) (rtc_line s)
  else if offset =? 0x010 then
    Rtc_UpdateIrq (MkPl031 (match_reg_ s) (load_reg_ s) (rtc_cr_ s) (u32 value .& 1) (rtc_ris_ s) (tick_offset_ s) (rtc_line s))
  else if offset =? 0x01C then
    Rtc_UpdateIrq (MkPl031 (match_reg_ s) (load_reg_ s) (rtc_cr_ s) (rtc_imsc_ s)
      (rtc_ris_ s .& bnot 32 (u32 value)) (tick_offset_ s) (rtc_line s))
  else s.

(** ** ACPI power management *)

Definition kPmTimerFreq : Z := 3579545.
Definition kSlpTypS5 : Z := 5.
Definition kResetValue : Z := 1.

Record AcpiPm := MkPm { pm1_sts_ : Z; pm1_en_ : Z; pm1_cnt_ : Z; pm_tsc_freq : Z; pm_tsc_base : Z }.
Definition AcpiPm_new (freq base : Z) : AcpiPm := MkPm 0 0 1 freq base.

(** The callbacks of a write. *)
Inductive PmEvent := Shutdown | Reset.

(** A frequency of 0 divides by 0. *)
Definition ReadPmTimer (s : AcpiPm) (tsc : Z) : option Z :=
  if pm_tsc_freq s =? 0 then None
  else Some (u32 (u64 (u64 (tsc - pm_tsc_base s) * kPmTimerFreq) / pm_tsc_freq s)).

Definition Pm_PioRead (offset size tsc : Z) (s : AcpiPm) : option Z :=
  if offset =? 0 then Some (if size =? 4 then pm1_sts_ s .| u32 (pm1_en_ s .<< 16) else pm1_sts_ s)
  else if offset =? 2 then Some (pm1_en_ s)
  else if offset =? 4 then Some (pm1_cnt_ s)
  else if (8 <=? offset) && (offset <=? 11) then ReadPmTimer s tsc
  else Some 0.

Definition Pm_PioWrite (offset size value : Z) (s : AcpiPm) : AcpiPm * list PmEvent :=
  if offset =? 0 then
    (MkPm (pm1_sts_ s .& bnot 16 (u16 value)) (if size =? 4 then u16 (value .>> 16) else pm1_en_ s)
       (pm1_cnt_ s) (pm_tsc_freq s) (pm_tsc_base s), [])
  else if offset =? 2 then
    (MkPm (pm1_sts_ s) (u16 value) (pm1_cnt_ s) (pm_tsc_freq s) (pm_tsc_base s), [])
  else if offset =? 4 then
    (MkPm (pm1_sts_ s) (pm1_en_ s) (u16 value .| 1) (pm_tsc_freq s) (pm_tsc_base s),
     if has value (1 .<< 13) && ((value .>> 10) .& 7 =? kSlpTypS5) then [Shutdown] else [])
  else if offset =? 15 then (s, if value .& 0xFF =? kResetValue then [Reset] else [])
  else (s, []).

(** ** The PIT's guest *)

Lemma channel_upd i f p : (Z.to_nat i < length (channels_ p))%nat -> channel (upd_channel i f p) i = f (channel p i).
Proof. intros Hi. unfold channel, upd_channel. cbn. by rewrite nth_lookup, list_lookup_insert_eq. Qed.
Lemma length_upd i f p : length (channels_ (upd_channel i f p)) = length (channels_ p).
Proof. apply length_insert. Qed.
Lemma channel_timer t i p : channel (set_ch0_timer t p) i = channel p i.
Proof. done. Qed.

Lemma Arm_channels p p' : ArmChannel0Timer p = Some p' -> channels_ p' = channels_ p.
Proof.
  unfold ArmChannel0Timer. case_ifs; try (by intros [= <-]).
  intros H. by apply bind_Some in H as (ms & _ & [= <-]).
Qed.

(** The control word that selects a channel, low byte then high byte, and a
    mode; and the one that latches a channel. *)
Definition mode_word (ch m : Z) : Z := (ch .<< 6) .| 0x30 .| (m .<< 1).
Definition latch_word (ch : Z) : Z := ch .<< 6.

Lemma mode_word_fields ch m :
  0 <= ch <= 2 -> 0 <= m <= 7 ->
  u8 (mode_word ch m) = mode_word ch m /\ (mode_word ch m .>> 6) .& 3 = ch
  /\ (mode_word ch m .>> 4) .& 3 = 3 /\ (mode_word ch m .>> 1) .& 7 = m.
Proof.
  intros Hc Hm.
  assert (Hcs : ch = 0 \/ ch = 1 \/ ch = 2) by lia.
  assert (Hms : m = 0 \/ m = 1 \/ m = 2 \/ m = 3 \/ m = 4 \/ m = 5 \/ m = 6 \/ m = 7) by lia.
  destruct Hcs as [->|[->| ->]], Hms as [->|[->|[->|[->|[->|[->|[->| ->]]]]]]]; by split_and!.
Qed.

Lemma latch_word_fields ch :
  0 <= ch <= 2 -> u8 (latch_word ch) = latch_word ch /\ (latch_word ch .>> 6) .& 3 = ch /\ (latch_word ch .>> 4) .& 3 = 0.
Proof. intros Hc. assert (Hcs : ch = 0 \/ ch = 1 \/ ch = 2) by lia. destruct Hcs as [->|[->| ->]]; by split_and!. Qed.

Definition pit_program (freq ch m lo hi tsc : Z) (p : I8254Pit) : option I8254Pit :=
  p ← Pit_PioWrite freq 3 (mode_word ch m) tsc p;
  p ← Pit_PioWrite freq ch lo tsc p;
  Pit_PioWrite freq ch hi tsc p.

(** A latch command, and two reads at times of their own. *)
Definition pit_read_latched (freq ch tsc t1 t2 : Z) (p : I8254Pit) : option Z :=
  p ← Pit_PioWrite freq 3 (latch_word ch) tsc p;
  '(p, lo) ← Pit_PioRead freq ch t1 p;
  '(_, hi) ← Pit_PioRead freq ch t2 p;
  Some (lo + 256 * hi).

(** The state of a programmed channel. *)
Definition programmed (m lo hi tsc : Z) (c : Channel) : Prop :=
  mode c = m /\ access c = 3 /\ reload c = lo + 256 * hi /\ armed c = true /\ start_tsc c = tsc
  /\ write_lo_next c = true /\ read_lo_next c = true.

Lemma reload_bytes r lo hi :
  0 <= r -> in_width 8 lo -> in_width 8 hi ->
  ((((r .& 0xFF00) .| lo) .& 0x00FF) .| u16 (hi .<< 8)) = lo + 256 * hi.
Proof.
  intros Hr Hlo Hhi. unfold in_width in *.
  assert (E1 : ((r .& 0xFF00) .| lo) .& 0x00FF = lo).
  { rewrite Z.land_lor_distr_l, <- Z.land_assoc. change (0xFF00 .& 0x00FF) with 0. rewrite Z.land_0_r, Z.lor_0_l.
    change 0x00FF with (Z.ones 8). rewrite Z.land_ones by lia. by apply Z.mod_small. }
  assert (E2 : u16 (hi .<< 8) = hi .<< 8).
  { apply wrap_small. rewrite Z.shiftl_mul_pow2 by lia. unfold in_width. lia. }
  rewrite E1, E2.
  rewrite Z.lor_comm, lor_shiftl_add by (done || lia). lia.
Qed.

(** A reload value has 16 bits. *)
Definition pit_ok (p : I8254Pit) : Prop := length (channels_ p) = 3%nat /\ Forall (fun c => 0 <= reload c) (channels_ p).

Lemma Pit_new_ok loop : pit_ok (Pit_new loop).
Proof. split; [done|]. by repeat constructor. Qed.

Lemma channel_reload p i : pit_ok p -> 0 <= reload (channel p i).
Proof.
  intros [_ H]. unfold channel. rewrite nth_lookup. destruct (channels_ p !! Z.to_nat i) as [c|] eqn:E; cbn; [|done].
  by apply (Forall_lookup_1 _ _ _ _ H E).
Qed.

Lemma pit_program_state freq ch m lo hi tsc p p' :
  pit_ok p -> 0 <= ch <= 2 -> 0 <= m <= 7 -> in_width 8 lo -> in_width 8 hi ->
  pit_program freq ch m lo hi tsc p = Some p' ->
  length (channels_ p') = 3%nat /\ programmed m lo hi tsc (channel p' ch).
Proof.
  intros Hp Hch Hm Hlo Hhi. pose proof (channel_reload p ch Hp) as Hr. destruct Hp as [Hlen _].
  destruct (mode_word_fields ch m Hch Hm) as (E1 & E2 & E3 & E4).
  unfold pit_program, Pit_PioWrite. change (3 =? 3) with true. rewrite E1.
  assert (Hc3 : (ch =? 3) = false) by lia. assert (Hge : (3 <=? ch) = false) by lia.
  assert (Hin : forall p, length (channels_ p) = 3%nat -> (Z.to_nat ch < length (channels_ p))%nat) by (intros ? ->; lia).
  unfold pit_control. rewrite E2, E3, E4, Hc3. change (3 =? 0) with false. cbn [mbind option_bind].
  rewrite Hge. rewrite !wrap_small by done.
  set (p1 := upd_channel ch _ p).
  assert (L1 : length (channels_ p1) = 3%nat) by (unfold p1; by rewrite length_upd).
  assert (C1 : channel p1 ch = set_read_lo_next true (set_write_lo_next true (set_armed false (set_mode m (set_access 3 (channel p ch)))))).
  { unfold p1. by rewrite channel_upd by auto. }
  set (p2 := upd_channel ch (write_count lo tsc) p1).
  assert (L2 : length (channels_ p2) = 3%nat) by (unfold p2; by rewrite length_upd).
  assert (C2 : channel p2 ch = write_count lo tsc (set_read_lo_next true (set_write_lo_next true
                (set_armed false (set_mode m (set_access 3 (channel p ch))))))).
  { rewrite <- C1. unfold p2. by rewrite channel_upd by auto. }
  replace (armed (channel p2 ch)) with false by (rewrite C2; reflexivity).
  rewrite andb_false_r. cbn [mbind option_bind].
  set (p3 := upd_channel ch (write_count hi tsc) p2).
  assert (L3 : length (channels_ p3) = 3%nat) by (unfold p3; by rewrite length_upd).
  assert (C3 : channel p3 ch = write_count hi tsc (channel p2 ch)) by (unfold p3; by rewrite channel_upd by auto).
  assert (Hfin : programmed m lo hi tsc (channel p3 ch)).
  { rewrite C3, C2. unfold write_count, set_reload_hi, start_count. cbn. unfold programmed. cbn.
    split_and!; try done. by apply reload_bytes. }
  destruct ((ch =? 0) && armed (channel p3 ch)); [|by intros [= <-]]. intros Ha.
  pose proof (Arm_channels _ _ Ha) as Ech. unfold channel in *. by rewrite Ech.
Qed.

Lemma pit_program_defined freq ch m lo hi tsc p :
  0 < ch <= 2 -> 0 <= m <= 7 -> is_Some (pit_program freq ch m lo hi tsc p).
Proof.
  intros Hch Hm. destruct (mode_word_fields ch m) as (E1 & E2 & E3 & E4); [lia|done|].
  unfold pit_program, Pit_PioWrite. change (3 =? 3) with true. rewrite E1. unfold pit_control. rewrite E2, E3, E4.
  replace (ch =? 3) with false by lia. replace (3 <=? ch) with false by lia. replace (ch =? 0) with false by lia.
  change (3 =? 0) with false. cbn. by eexists.
Qed.

Lemma count_width c ticks : in_width 16 (count_at c ticks).
Proof. unfold count_at. case_ifs; try (apply wrap_in_width; lia). split; lia. Qed.

Lemma count_bytes v : in_width 16 v -> (v .& 0xFF) + 256 * ((v .>> 8) .& 0xFF) = v.
Proof.
  intros Hv. unfold in_width in Hv. change 0xFF with (Z.ones 8). rewrite !Z.land_ones, Z.shiftr_div_pow2 by lia.
  change (2 ^ 8) with 256. rewrite (Z.mod_small (v / 256)) by (split; [apply Z.div_pos|apply Z.div_lt_upper_bound]; lia).
  pose proof (Z.div_mod v 256). lia.
Qed.

Lemma pit_read_byte freq ch t p :
  0 <= ch <= 2 -> access (channel p ch) = 3 -> latch_pending (channel p ch) = true ->
  Pit_PioRead freq ch t p =
    (let v := latched_value (channel p ch) in
     if read_lo_next (channel p ch) then Some (upd_channel ch (set_read_lo_next false) p, v .& 0xFF)
     else Some (upd_channel ch (fun ch => set_latch_pending false (set_read_lo_next true ch)) p, (v .>> 8) .& 0xFF)).
Proof.
  intros Hch Ha Hl. unfold Pit_PioRead. replace (3 <=? ch) with false by lia. by rewrite Hl, Ha.
Qed.

Lemma pit_read_latched_spec freq ch tsc t1 t2 p m lo hi t0 ticks :
  0 <= ch <= 2 -> length (channels_ p) = 3%nat -> programmed m lo hi t0 (channel p ch) ->
  ElapsedPitTicks freq (channel p ch) tsc = Some ticks ->
  pit_read_latched freq ch tsc t1 t2 p = Some (count_at (channel p ch) ticks).
Proof.
  intros Hch Hlen (Hmode & Hacc & _ & _ & _ & _ & Hrd) Ht. destruct (latch_word_fields ch Hch) as (E1 & E2 & E3).
  assert (Hin : forall p, length (channels_ p) = 3%nat -> (Z.to_nat ch < length (channels_ p))%nat) by (intros ? ->; lia).
  unfold pit_read_latched, Pit_PioWrite. change (3 =? 3) with true. rewrite E1. unfold pit_control. rewrite E2, E3.
  replace (ch =? 3) with false by lia. change (0 =? 0) with true. unfold CurrentCount. rewrite Ht.
  cbn [fmap option_fmap option_map mbind option_bind]. set (p1 := upd_channel ch _ p).
  assert (L1 : length (channels_ p1) = 3%nat) by (unfold p1; by rewrite length_upd).
  assert (C1 : channel p1 ch = set_latched_value (count_at (channel p ch) ticks) (set_latch_pending true (channel p ch))).
  { unfold p1. by rewrite channel_upd by auto. }
  rewrite pit_read_byte by (done || by rewrite C1). rewrite C1. cbn [latched_value read_lo_next set_latched_value set_latch_pending].
  rewrite Hrd. cbn [mbind option_bind].
  assert (C2 : channel (upd_channel ch (set_read_lo_next false) p1) ch = set_read_lo_next false (channel p1 ch)) by (by rewrite channel_upd by auto).
  rewrite pit_read_byte by (done || by rewrite C2, C1). rewrite C2, C1. cbn [mbind option_bind latched_value read_lo_next set_latched_value set_latch_pending set_read_lo_next].
  f_equal. apply count_bytes, count_width.
Qed.

(** C40. What a guest reads from a counter.  After programming any channel with a
    mode and both bytes of a count, a latch command at [t1] and two reads, at
    any times, return the 16 bits of the count at [t1]: with [ticks] since the
    second byte was written and a count of 0 standing for 65536, it is the
    count less the ticks, modulo the count in the periodic modes and stopping
    at 0 in mode 0; whatever was latched or half read before. *)
Theorem pit_program_latch_read freq ch m lo hi t0 t1 t2 t3 p ticks :
  pit_ok p -> 0 <= ch <= 2 -> 0 <= m <= 7 -> in_width 8 lo -> in_width 8 hi ->
  ElapsedPitTicks freq (start_count t0 Channel_new) t1 = Some ticks ->
  let v := lo + 256 * hi in
  let n := if v =? 0 then 65536 else v in
  (ch <> 0 -> is_Some (pit_program freq ch m lo hi t0 p))
  /\ forall p', pit_program freq ch m lo hi t0 p = Some p' ->
       pit_read_latched freq ch t1 t2 t3 p'
         = Some (if m =? 0 then (if n <=? ticks then 0 else u16 (n - ticks)) else u16 (n - ticks mod n)).
Proof.
  intros Hp Hch Hm Hlo Hhi Ht v n. split; [intros; apply pit_program_defined; lia|]. intros p' Hp'.
  destruct (pit_program_state _ _ _ _ _ _ _ _ Hp Hch Hm Hlo Hhi Hp') as [Hlen Hpr].
  assert (Ht' : ElapsedPitTicks freq (channel p' ch) t1 = Some ticks).
  { destruct Hpr as (_ & _ & _ & Ha & Hs & _). unfold ElapsedPitTicks in *. by rewrite Ha, Hs. }
  rewrite (pit_read_latched_spec _ _ _ _ _ _ _ _ _ _ _ Hch Hlen Hpr Ht').
  destruct Hpr as (Hmode & _ & Hr & _). unfold count_at, reload_count. by rewrite Hmode, Hr.
Qed.

(** The output a guest polls to calibrate its clock: channel 2, programmed
    in mode 0, holds bit 5 of port 0x61 low until its count has elapsed. *)
Lemma pit_oneshot_output freq lo hi t0 t1 p p' ticks value_ :
  pit_ok p -> in_width 8 lo -> in_width 8 hi -> in_width 8 value_ ->
  pit_program freq 2 0 lo hi t0 p = Some p' ->
  ElapsedPitTicks freq (start_count t0 Channel_new) t1 = Some ticks ->
  exists v, SysB_PioRead freq value_ t1 p' = Some v
    /\ Z.testbit v 5 = ((if lo + 256 * hi =? 0 then 65536 else lo + 256 * hi) <=? ticks).
Proof.
  intros Hp Hlo Hhi Hv Hp' Ht.
  assert (H2 : 0 <= 2 <= 2) by lia. assert (H0 : 0 <= 0 <= 7) by lia.
  destruct (pit_program_state _ _ _ _ _ _ _ _ Hp H2 H0 Hlo Hhi Hp') as [_ (Hm & _ & Hr & Ha & Hs & _)].
  assert (Ht' : ElapsedPitTicks freq (channel p' 2) t1 = Some ticks).
  { unfold ElapsedPitTicks in *. by rewrite Ha, Hs. }
  unfold SysB_PioRead, IsChannel2OutputHigh, OutputHigh. rewrite Ht'. cbn [fmap option_fmap option_map mbind option_bind].
  eexists. split; [done|]. unfold output_at, reload_count. rewrite Hm, Hr, Ha. cbn [andb]. change (0 =? 0) with true. cbv iota.
  destruct (_ <=? ticks).
  - rewrite Z.lor_spec. apply orb_true_r.
  - rewrite Z.land_spec. apply andb_false_r.
Qed.

(** At 3 GHz, 15 ms after the count of 50 ms was programmed. *)
Lemma pit_program_latch_read_witness :
  exists p', pit_program 3000000000 0 2 0xA8 0xE8 1000 (Pit_new false) = Some p'
    /\ pit_read_latched 3000000000 0 45001000 45002000 45003000 p' = Some (0xE8A8 - 17897).
Proof.
  destruct (pit_program_latch_read 3000000000 0 2 0xA8 0xE8 1000 45001000 45002000 45003000 (Pit_new false) 17897) as [_ H].
  - apply Pit_new_ok.
  - split; discriminate.
  - split; discriminate.
  - split; [discriminate|reflexivity].
  - split; [discriminate|reflexivity].
  - vm_compute. reflexivity.
  - eexists. split; [vm_compute; reflexivity|]. apply H. vm_compute. reflexivity.
Defined.

(** A count of 0 is 65536 for the counter, but no interrupt is set up. *)
Lemma pit_zero_no_timer :
  ch0_timer <$> pit_program 3000000000 0 2 0 0 0 (Pit_new true) = Some None
  /\ ch0_timer <$> pit_program 3000000000 0 2 0xFF 0xFF 0 (Pit_new true) = Some (Some 54).
Proof. split; vm_compute; reflexivity. Qed.

(** A latched count survives reprogramming the channel. *)
Lemma pit_stale_latch :
  (p ← pit_program 3000000000 2 2 0x34 0x12 0 (Pit_new false);
   p ← Pit_PioWrite 3000000000 3 (latch_word 2) 0 p;
   p ← pit_program 3000000000 2 2 0x78 0x56 0 p;
   '(p, lo) ← Pit_PioRead 3000000000 2 0 p;
   '(_, hi) ← Pit_PioRead 3000000000 2 0 p;
   Some (lo + 256 * hi)) = Some 0x1234.
Proof. vm_compute. reflexivity. Qed.

(** ** The clocks *)

Definition bcd (v : Z) : Z := 10 * (v .>> 4) + (v .& 15).

Lemma ToBcd_bcd v : 0 <= v <= 99 -> bcd (ToBcd v) = v.
Proof.
  intros Hv. unfold ToBcd. rewrite Z.quot_div_nonneg, Z.rem_mod_nonneg by lia.
  pose proof (Z.mod_pos_bound v 10 ltac:(lia)) as Hm. pose proof (Z.div_mod v 10 ltac:(lia)) as Hd.
  rewrite (lor_shiftl_add (v / 10) (v mod 10) 4) by (unfold in_width; lia).
  rewrite wrap_small by (unfold in_width; lia). unfold bcd. change 15 with (Z.ones 4).
  rewrite Z.land_ones, Z.shiftr_div_pow2 by lia. change (2 ^ 4) with 16.
  rewrite (Z.add_comm (v / 10 * 16)), Z.div_add, Z.mod_add by lia.
  rewrite (Z.div_small (v mod 10)), (Z.mod_small (v mod 10)) by lia. lia.
Qed.

(** What [gmtime_r] returns until the year 9999. *)
Definition tm_ok (t : Tm) : Prop :=
  0 <= tm_sec t <= 60 /\ 0 <= tm_min t <= 59 /\ 0 <= tm_hour t <= 23 /\ 0 <= tm_wday t <= 6
  /\ 1 <= tm_mday t <= 31 /\ 0 <= tm_mon t <= 11 /\ 0 <= tm_year t + 1900 <= 9999.

Definition cmos_read (t : Tm) (reg : Z) : Z := bcd (Cmos_PioRead t 1 (Cmos_PioWrite 0 reg 0)).

(** A guest that selects the registers and decodes their digits reads the
    host's time. *)
Lemma cmos_reads_time t :
  tm_ok t ->
  MkTm (cmos_read t 0x00) (cmos_read t 0x02) (cmos_read t 0x04) (cmos_read t 0x06 - 1) (cmos_read t 0x07)
    (cmos_read t 0x08 - 1) (100 * cmos_read t 0x32 + cmos_read t 0x09 - 1900) = t.
Proof.
  intros (H1 & H2 & H3 & H4 & H5 & H6 & H7). unfold cmos_read, Cmos_PioRead, Cmos_PioWrite. change (1 =? 0) with false. change (0 =? 0) with true. cbv iota.
  change (Cmos_ReadRegister t (u8 0x00 .& 0x7F)) with (ToBcd (tm_sec t)).
  change (Cmos_ReadRegister t (u8 0x02 .& 0x7F)) with (ToBcd (tm_min t)).
  change (Cmos_ReadRegister t (u8 0x04 .& 0x7F)) with (ToBcd (tm_hour t)).
  change (Cmos_ReadRegister t (u8 0x06 .& 0x7F)) with (ToBcd (tm_wday t + 1)).
  change (Cmos_ReadRegister t (u8 0x07 .& 0x7F)) with (ToBcd (tm_mday t)).
  change (Cmos_ReadRegister t (u8 0x08 .& 0x7F)) with (ToBcd (tm_mon t + 1)).
  change (Cmos_ReadRegister t (u8 0x32 .& 0x7F)) with (ToBcd (Z.quot (tm_year t + 1900) 100)).
  change (Cmos_ReadRegister t (u8 0x09 .& 0x7F)) with (ToBcd (Z.rem (tm_year t + 1900) 100)).
  rewrite Z.quot_div_nonneg, Z.rem_mod_nonneg by lia.
  pose proof (Z.mod_pos_bound (tm_year t + 1900) 100 ltac:(lia)). pose proof (Z.div_mod (tm_year t + 1900) 100 ltac:(lia)).
  assert (tm_year t + 1900 < 10000) as Hy by lia. apply (Z.div_lt_upper_bound _ 100 100) in Hy; [|lia].
  pose proof (Z.div_pos (tm_year t + 1900) 100 ltac:(lia) ltac:(lia)).
  rewrite !ToBcd_bcd by lia. destruct t. cbn in *. f_equal; lia.
Qed.

(** The guest's time runs with the host's: set to [v] at the host's [t0], the
    clock reads [v] plus what has passed, modulo [2^32], whatever else was
    written to other registers in between. *)
Lemma pl031_keeps_time s v t0 t1 ws :
  Forall (fun w => fst w <> 0x008) ws -> in_width 32 v ->
  Pl031_MmioRead 0 t1
    (fold_left (fun s w => Pl031_MmioWrite (fst w) (snd w) t0 s) ws (Pl031_MmioWrite 0x008 v t0 s)) = u32 (v + (t1 - t0)).
Proof.
  intros Hws Hv.
  assert (Hoff : tick_offset_ (fold_left (fun s w => Pl031_MmioWrite (fst w) (snd w) t0 s) ws (Pl031_MmioWrite 0x008 v t0 s))
            = v - HostEpoch t0).
  { set (s0 := Pl031_MmioWrite 0x008 v t0 s). assert (H0 : tick_offset_ s0 = v - HostEpoch t0) by (cbn; by rewrite wrap_small).
    revert H0. generalize s0. induction Hws as [|[o x] ws Ho _ IH]; intros s1 H1; [done|]. cbn [fold_left fst snd] in *.
    apply IH. rewrite <- H1. unfold Pl031_MmioWrite. replace (o =? 8) with false by lia. by case_ifs. }
  unfold Pl031_MmioRead. change (0 =? 0) with true. cbv iota. rewrite Hoff. unfold HostEpoch.
  replace (u32 t1 + (v - u32 t0)) with (u32 t1 + v - u32 t0) by lia.
  rewrite wrap_sub_r. replace (u32 t1 + v - t0) with (u32 t1 + (v - t0)) by lia. rewrite wrap_add_l. f_equal. lia.
Qed.

(** ** Power management *)

(** The ACPI timer is exact while the product fits 64 bits: [e] counts of a
    counter of [freq] Hz after the device was made, it reads the number of
    3.579545 MHz periods in that time, modulo [2^32], at any of its
    addresses. *)
Theorem pm_timer_exact s off size tsc e :
  8 <= off <= 11 -> 0 < pm_tsc_freq s -> u64 (tsc - pm_tsc_base s) = e -> e * kPmTimerFreq < 2 ^ 64 ->
  Pm_PioRead off size tsc s = Some (u32 (e * kPmTimerFreq / pm_tsc_freq s)).
Proof.
  intros Ho Hf <- Hb. unfold Pm_PioRead. replace (off =? 0) with false by lia. replace (off =? 2) with false by lia.
  replace (off =? 4) with false by lia. replace (8 <=? off) with true by lia. replace (off <=? 11) with true by lia.
  cbn [andb]. unfold ReadPmTimer. replace (pm_tsc_freq s =? 0) with false by lia.
  pose proof (wrap_bound 64 (tsc - pm_tsc_base s) ltac:(lia)) as [H0 _].
  rewrite (wrap_small 64 (_ * _)) by (unfold in_width, kPmTimerFreq in *; lia). done.
Qed.

Lemma pm_timer_exact_witness :
  Pm_PioRead 8 4 3000000500 (AcpiPm_new 3000000000 500) = Some 3579545.
Proof.
  apply (pm_timer_exact (AcpiPm_new 3000000000 500) 8 4 3000000500 3000000000).
  - split; discriminate.
  - reflexivity.
  - reflexivity.
  - reflexivity.
Defined.

(** At 3 GHz the product overflows after 28.6 minutes, and the timer goes back
    to 0. *)
Lemma pm_timer_overflow :
  Pm_PioRead 8 4 (1717 * 3000000000) (AcpiPm_new 3000000000 0) = Some 1851111469
  /\ Pm_PioRead 8 4 (1718 * 3000000000) (AcpiPm_new 3000000000 0) = Some 743618.
Proof. split; vm_compute; reflexivity. Qed.

(** The callbacks of a write: shutdown exactly for a write to PM1_CNT with
    SLP_EN and the type of S5, reset exactly for the reset value at the reset
    register; and SCI_EN stays set. *)
Lemma pm_write_callbacks off size v s :
  let '(s', ev) := Pm_PioWrite off size v s in
  (Shutdown ∈ ev <-> off = 4 /\ has v (1 .<< 13) = true /\ (v .>> 10) .& 7 = kSlpTypS5)
  /\ (Reset ∈ ev <-> off = 15 /\ v .& 0xFF = kResetValue)
  /\ (has (pm1_cnt_ s) 1 = true -> has (pm1_cnt_ s') 1 = true).
Proof.
  unfold Pm_PioWrite.
  destruct (Z.eqb_spec off 0) as [->|]; [split_and!; set_solver|].
  destruct (Z.eqb_spec off 2) as [->|]; [split_and!; set_solver|].
  destruct (Z.eqb_spec off 4) as [->|]; [|destruct (Z.eqb_spec off 15) as [->|]].
  - split_and!; [|destruct (_ && _); set_solver|].
    + destruct (has v _); cbn [andb]; [|set_solver]. destruct (Z.eqb_spec ((v .>> 10) .& 7) kSlpTypS5); set_solver.
    + intros _. cbn. unfold has. apply negb_true_iff, Z.eqb_neq. intros E.
      assert (T : Z.testbit ((u16 v .| 1) .& 1) 0 = true) by (rewrite Z.land_spec, Z.lor_spec; by rewrite orb_true_r).
      by rewrite E in T.
  - destruct (Z.eqb_spec (v .& 0xFF) kResetValue); split_and!; set_solver.
  - split_and!; set_solver.
Qed.
