(* ===== verification/ConsoleTx.v ===== *)
(** * The console's transmit batcher

    Models core/vmm/console_tx_batcher.{h,cpp}.  The UARTs append the guest's
    output byte by byte; the batcher hands it to the console port in chunks.

    Each step is one region under [mu_].  The writer is called with the mutex
    released, so a chunk taken from the buffer is in flight until its thread
    has written it, and other threads may take steps in between:
    [in_flight] holds these chunks in the order they were taken, each with
    what the thread does next.

    [console_conserved]: no byte is lost or doubled, whatever the
    interleaving.  [console_fifo]: the output is in order as long as the
    writes complete in the order the chunks were taken; [console_reordered]:
    two threads can exchange them.  [console_timer_drains]: the timer is
    armed whenever bytes wait, and empties the buffer. *)

From S2P Require Import Prelude.
From S2P Require Import StdString.

Definition kFlushThreshold : nat := 1024.

(** What a thread does after writing its chunk: nothing, or the write-through
    of the data of its own [Append]. *)
Record Flight := mkFlight { fl_chunk : bytes; fl_then : option bytes }.

(** [written] is what the console port got; [appended] what was given to
    [Append].  [loop_running]: a loop is attached and running. *)
Record Batcher := mkBatcher {
  loop_running : bool; buf_ : bytes; timer_armed_ : bool;
  in_flight : list Flight; written : bytes; appended : bytes }.

Definition Batcher_new (running : bool) : Batcher := mkBatcher running [] false [] [] [].

Definition take_off (c : bytes) (k : option bytes) (b : Batcher) : Batcher :=
  mkBatcher (loop_running b) (buf_ b) (timer_armed_ b) (in_flight b ++ [mkFlight c k]) (written b) (appended b).
Definition set_buf (v : bytes) (b : Batcher) : Batcher :=
  mkBatcher (loop_running b) v (timer_armed_ b) (in_flight b) (written b) (appended b).
Definition set_timer_armed (v : bool) (b : Batcher) : Batcher :=
  mkBatcher (loop_running b) (buf_ b) v (in_flight b) (written b) (appended b).

(** [FlushLocked] until it releases the mutex. *)
Definition FlushLocked (k : option bytes) (b : Batcher) : Batcher := take_off (buf_ b) k (set_buf [] b).

Definition is_empty (l : bytes) : bool := match l with [] => true | _ => false end.

Definition Append (data : bytes) (b : Batcher) : Batcher :=
  if is_empty data then b
  else
    let b := mkBatcher (loop_running b) (buf_ b) (timer_armed_ b) (in_flight b) (written b) (appended b ++ data) in
    if negb (loop_running b) then
      if negb (is_empty (buf_ b)) then FlushLocked (Some data) b else take_off data None b
    else
      let b := set_buf (buf_ b ++ data) b in
      if (kFlushThreshold <=? length (buf_ b))%nat then FlushLocked None b
      else if negb (timer_armed_ b) then set_timer_armed true b else b.

Definition Flush (b : Batcher) : Batcher := if negb (is_empty (buf_ b)) then FlushLocked None b else b.

Definition OnTimerFire (b : Batcher) : Batcher :=
  let b := set_timer_armed false b in
  if negb (is_empty (buf_ b)) then FlushLocked None b else b.

(** The [i]th chunk in flight is written. *)
Definition finish_write (i : nat) (b : Batcher) : Batcher :=
  match in_flight b !! i with
  | None => b
  | Some f =>
      let rest := match fl_then f with Some data => [mkFlight data None] | None => [] end in
      mkBatcher (loop_running b) (buf_ b) (timer_armed_ b)
        (take i (in_flight b) ++ rest ++ drop (S i) (in_flight b)) (written b ++ fl_chunk f) (appended b)
  end.

(** The loop starts or stops, or is attached. *)
Definition set_loop (running : bool) (b : Batcher) : Batcher :=
  mkBatcher running (buf_ b) (timer_armed_ b) (in_flight b) (written b) (appended b).

Inductive Step :=
| SAppend (data : bytes) | SFlush | STimer | SWritten (i : nat) | SLoop (running : bool).

Definition step (b : Batcher) (s : Step) : Batcher :=
  match s with
  | SAppend data => Append data b
  | SFlush => Flush b
  | STimer => if timer_armed_ b then OnTimerFire b else b
  | SWritten i => finish_write i b
  | SLoop r => set_loop r b
  end.
Definition run (ss : list Step) (b : Batcher) : Batcher := fold_left step ss b.

(** ** Conservation and order *)

Definition flight_bytes (f : Flight) : bytes := fl_chunk f ++ default [] (fl_then f).
(** What has not reached the port, in the order it was taken. *)
Definition outstanding (b : Batcher) : bytes := (in_flight b ≫= flight_bytes) ++ buf_ b.

Lemma is_empty_spec l : is_empty l = true <-> l = [].
Proof. by destruct l. Qed.

(** A step other than a write keeps what is written and adds what it appends
    behind everything outstanding. *)
Lemma step_outstanding b s :
  (forall i, s <> SWritten i) ->
  exists data, written (step b s) = written b /\ appended (step b s) = appended b ++ data
    /\ outstanding (step b s) = outstanding b ++ data.
Proof.
  intros Hs. destruct s as [data| | |i|r]; [|exists []..]; try (by destruct (Hs i)); cbn [step];
    unfold Append, Flush, OnTimerFire, FlushLocked, take_off, outstanding.
  - destruct data as [|x data]; [exists []; by rewrite !app_nil_r|]. exists (x :: data). cbn [is_empty loop_running buf_ timer_armed_].
    set (d := x :: data). destruct (loop_running b); cbn [negb].
    + destruct (_ <=? _)%nat; [|destruct (timer_armed_ b)]; cbn; rewrite ?bind_app; cbn; unfold flight_bytes; cbn;
        rewrite ?app_nil_r, <- ?app_assoc; done.
    + destruct (buf_ b) eqn:E; cbn; rewrite ?E, bind_app; cbn; unfold flight_bytes; cbn;
        rewrite ?app_nil_r, <- ?app_assoc; cbn; rewrite ?app_nil_r; done.
  - destruct (buf_ b) eqn:E; cbn; rewrite ?E, ?bind_app; cbn; unfold flight_bytes; cbn; by rewrite ?app_nil_r.
  - destruct (timer_armed_ b); [|by rewrite !app_nil_r].
    cbn. destruct (buf_ b) eqn:E; cbn; rewrite ?E, ?bind_app; cbn; unfold flight_bytes; cbn; by rewrite ?app_nil_r.
  - cbn. by rewrite !app_nil_r.
Qed.

(** A write moves its chunk. *)
Lemma finish_write_split i b :
  exists pre c post, in_flight b ≫= flight_bytes = pre ++ c ++ post
    /\ in_flight (finish_write i b) ≫= flight_bytes = pre ++ post
    /\ written (finish_write i b) = written b ++ c /\ buf_ (finish_write i b) = buf_ b
    /\ appended (finish_write i b) = appended b /\ (i = 0%nat -> pre = []).
Proof.
  unfold finish_write. destruct (in_flight b !! i) as [f|] eqn:E.
  - exists (take i (in_flight b) ≫= flight_bytes), (fl_chunk f),
      (default [] (fl_then f) ++ (drop (S i) (in_flight b) ≫= flight_bytes)).
    cbn [in_flight written buf_ appended]. split_and!; try done; [| |by intros ->].
    + rewrite <- (take_drop_middle _ _ _ E) at 1. rewrite bind_app. cbn. unfold flight_bytes at 2. by rewrite <- !app_assoc.
    + rewrite !bind_app. f_equal. by destruct (fl_then f); cbn; unfold flight_bytes; cbn; rewrite ?app_nil_r.
  - exists [], [], (in_flight b ≫= flight_bytes). by rewrite app_nil_r.
Qed.

Lemma write_or_not s : (exists i, s = SWritten i) \/ forall i, s <> SWritten i.
Proof. destruct s; try (by right); left; by eexists. Qed.

(** While bytes wait the timer is armed, and never a full chunk waits. *)
Definition batcher_ok (b : Batcher) : Prop :=
  (buf_ b <> [] -> timer_armed_ b = true) /\ (length (buf_ b) < kFlushThreshold)%nat.

Lemma step_ok b s : batcher_ok b -> batcher_ok (step b s).
Proof.
  intros Hb. pose proof Hb as [H1 H2]. assert (H0 : (0 < kFlushThreshold)%nat) by (unfold kFlushThreshold; lia).
  assert (Hnil : forall l k w t x, batcher_ok (mkBatcher l [] t k w x)) by (intros; by split).
  destruct s as [data| | |i|r]; cbn [step].
  - unfold Append. destruct (is_empty data); [done|]. cbv zeta. cbn [loop_running buf_ timer_armed_].
    destruct (loop_running b); cbn [negb].
    + unfold set_buf. cbn [buf_ timer_armed_]. destruct (Nat.leb_spec kFlushThreshold (length (buf_ b ++ data))).
      * apply Hnil.
      * destruct (timer_armed_ b) eqn:Et; cbn [negb]; (split; [by rewrite ?Et|cbn in *; lia]).
    + destruct (is_empty (buf_ b)) eqn:E; cbn [negb]; [|apply Hnil]. apply is_empty_spec in E. unfold take_off. cbn. rewrite E. apply Hnil.
  - unfold Flush. destruct (is_empty (buf_ b)); [done|apply Hnil].
  - destruct (timer_armed_ b) eqn:Et; [|done]. unfold OnTimerFire. cbn [set_timer_armed buf_].
    destruct (is_empty (buf_ b)) eqn:E; cbn [negb]; [|apply Hnil]. apply is_empty_spec in E. unfold set_timer_armed. rewrite E. apply Hnil.
  - unfold finish_write. by destruct (in_flight b !! i).
  - done.
Qed.

Lemma run_ok running ss : batcher_ok (run ss (Batcher_new running)).
Proof.
  unfold run. assert (H : batcher_ok (Batcher_new running)) by (split; [done|cbn; unfold kFlushThreshold; lia]).
  revert H. generalize (Batcher_new running). induction ss as [|s ss IH]; intros b H; [done|]. by apply IH, step_ok.
Qed.

(** C30. No byte of the console output is lost, doubled or left waiting:
    whatever steps the threads take, in any interleaving, what the port got
    together with what is in flight or buffered is a permutation of what the
    guest sent, and whenever bytes are buffered a timer is armed. *)
Theorem console_conserved running ss :
  let b := run ss (Batcher_new running) in
  written b ++ outstanding b ≡ₚ appended b /\ (buf_ b <> [] -> timer_armed_ b = true).
Proof.
  cbv zeta. split; [|apply run_ok]. unfold run. assert (H : written (Batcher_new running) ++ outstanding (Batcher_new running) ≡ₚ appended (Batcher_new running)) by done.
  revert H. generalize (Batcher_new running). induction ss as [|s ss IH]; intros b H; [done|]. cbn [fold_left]. apply IH.
  destruct (write_or_not s) as [[i ->]|Hs].
  - destruct (finish_write_split i b) as (pre & c & post & E1 & E2 & E3 & E4 & E5 & _). cbn [step].
    unfold outstanding in *. rewrite E2, E3, E4, E5. rewrite E1 in H. rewrite <- H.
    rewrite <- !app_assoc. apply Permutation_app_head. rewrite !(app_assoc _ _ (buf_ b)). apply Permutation_app_tail.
    rewrite !app_assoc. apply Permutation_app_tail, Permutation_app_comm.
  - destruct (step_outstanding b s Hs) as (data & E1 & E2 & E3).
    rewrite E1, E2, E3, app_assoc. by apply Permutation_app_tail.
Qed.

(** The writes complete in the order the chunks were taken. *)
Definition in_order (s : Step) : Prop := match s with SWritten i => i = 0%nat | _ => True end.

(** As long as writes complete in the order their chunks were taken, the
    console port gets the guest's output in order: what is written, in flight
    and buffered is, in this order, exactly what was appended. *)
Lemma console_fifo running ss :
  Forall in_order ss ->
  let b := run ss (Batcher_new running) in written b ++ outstanding b = appended b.
Proof.
  cbv zeta. unfold run. assert (H : written (Batcher_new running) ++ outstanding (Batcher_new running) = appended (Batcher_new running)) by done.
  revert H. generalize (Batcher_new running). induction ss as [|s ss IH]; intros b H Hss; [done|].
  inversion_clear Hss as [|? ? Hs Hr]. cbn [fold_left]. apply IH; [|done].
  destruct (write_or_not s) as [[i ->]|Hn].
  - destruct (finish_write_split i b) as (pre & c & post & E1 & E2 & E3 & E4 & E5 & E6). cbn [step]. cbn in Hs. rewrite (E6 Hs) in *.
    unfold outstanding in *. rewrite E2, E3, E4, E5. rewrite E1 in H. rewrite <- H. cbn [app]. by rewrite <- !app_assoc.
  - destruct (step_outstanding b s Hn) as (data & E1 & E2 & E3).
    by rewrite E1, E2, E3, app_assoc, H.
Qed.

(** The writer runs without the mutex: two threads' chunks can change places. *)
Lemma console_reordered :
  let b := run [SAppend (str "a"); SFlush; SAppend (str "b"); SFlush; SWritten 1; SWritten 0] (Batcher_new true) in
  appended b = str "ab" /\ written b = str "ba".
Proof. split; vm_compute; reflexivity. Qed.

(** ** The timer *)

(** The chunks in flight reach the port. *)
Lemma writes_complete b : exists n, written (run (replicate n (SWritten 0)) b) = written b ++ (in_flight b ≫= flight_bytes).
Proof.
  remember (in_flight b) as l eqn:El. revert b El. induction l as [|[c k] l IH]; intros b El.
  { exists 0%nat. cbn. by rewrite app_nil_r. }
  assert (E : step b (SWritten 0) =
    mkBatcher (loop_running b) (buf_ b) (timer_armed_ b)
      (match k with Some data => [mkFlight data None] | None => [] end ++ l) (written b ++ c) (appended b)).
  { cbn [step]. unfold finish_write. rewrite <- El. cbn. by rewrite drop_0. }
  set (b1 := fun w => mkBatcher (loop_running b) (buf_ b) (timer_armed_ b) l w (appended b)).
  destruct k as [data|].
  - destruct (IH (b1 ((written b ++ c) ++ data)) eq_refl) as [n Hn]. exists (S (S n)). cbn [replicate].
    unfold run in *. cbn [fold_left]. rewrite E.
    replace (step _ (SWritten 0)) with (b1 ((written b ++ c) ++ data)) by (cbn [step]; unfold finish_write; cbn; by rewrite drop_0).
    rewrite Hn. unfold b1. cbn. unfold flight_bytes. cbn. by rewrite <- !app_assoc.
  - destruct (IH (b1 (written b ++ c)) eq_refl) as [n Hn]. exists (S n). cbn [replicate].
    unfold run in *. cbn [fold_left]. rewrite E. cbn [app]. fold (b1 (written b ++ c)). rewrite Hn.
    unfold b1. cbn. unfold flight_bytes. cbn. by rewrite app_nil_r, <- app_assoc.
Qed.

(** The timer's step empties the buffer. *)
Lemma timer_empties b :
  batcher_ok b ->
  written (step b STimer) = written b /\ in_flight (step b STimer) ≫= flight_bytes = outstanding b.
Proof.
  intros [H1 _]. unfold outstanding. cbn [step]. destruct (buf_ b) as [|x l] eqn:E.
  - rewrite app_nil_r. destruct (timer_armed_ b); [|done]. unfold OnTimerFire. cbn [set_timer_armed buf_]. by rewrite E.
  - rewrite H1 by done. unfold OnTimerFire. cbn [set_timer_armed buf_]. rewrite E. cbn. rewrite E, bind_app. cbn.
    unfold flight_bytes. cbn. by rewrite !app_nil_r.
Qed.

(** Bytes never wait for ever: after any steps fewer than 1024 bytes are
    buffered, the timer is armed while there are any, and when it fires and
    the chunks in flight are written in order, the port has got everything
    the guest sent, in order. *)
Theorem console_timer_drains running ss :
  Forall in_order ss ->
  let b := run ss (Batcher_new running) in
  (length (buf_ b) < kFlushThreshold)%nat /\ (buf_ b <> [] -> timer_armed_ b = true)
  /\ exists n, written (run (STimer :: replicate n (SWritten 0)) b) = appended b.
Proof.
  intros Hs b. pose proof (run_ok running ss : batcher_ok b) as Hok. pose proof Hok as [H1 H2]. split_and!; [done|done|].
  destruct (writes_complete (step b STimer)) as [n Hn]. exists n. unfold run in *. cbn [fold_left].
  destruct (timer_empties b Hok) as [E1 E2]. rewrite Hn, E1, E2. exact (console_fifo running ss Hs).
Qed.

Lemma console_timer_drains_witness :
  exists n, written (run (STimer :: replicate n (SWritten 0)) (run [SLoop true; SAppend (str "boot"); SAppend (str " ok")] (Batcher_new false)))
    = str "boot ok".
Proof.
  destruct (console_timer_drains false [SLoop true; SAppend (str "boot"); SAppend (str " ok")]) as (_ & _ & n & H).
  - repeat constructor.
  - exists n. exact H.
Defined.
