(* ===== verification/Fdt.v ===== *)
(** * The flattened device tree builder

    Models core/arch/aarch64/fdt_builder.{h,cpp}.  A builder is its two buffers
    and the next phandle; the methods are functions from builder to builder,
    and [FdtOp] names them, so that a device tree is a list of operations.

    [fdt_read] is the reader of the devicetree specification (version 17):
    header, structure block, strings block.  [fdt_roundtrip]: it finds in
    the blob of any operations exactly the nodes and properties they name,
    in order, with the property names resolved through the shared strings
    block. *)

From Stdlib Require Import ZifyNat.
From S2P Require Import Prelude.
From S2P Require Import StdString.

Definition kFdtMagic : Z := 0xD00DFEED.
Definition kFdtBeginNode : Z := 1.
Definition kFdtEndNode : Z := 2.
Definition kFdtProp : Z := 3.
Definition kFdtEnd : Z := 9.
Definition kFdtVersion : Z := 17.
Definition kFdtLastCompat : Z := 16.

Record FdtBuilder := mkFdt { struct_buf_ : bytes; strings_buf_ : bytes; next_phandle_ : Z }.
Definition FdtBuilder_new : FdtBuilder := mkFdt [] [] 1.

Definition AllocPhandle (f : FdtBuilder) : Z * FdtBuilder :=
  (next_phandle_ f, mkFdt (struct_buf_ f) (strings_buf_ f) (u32 (next_phandle_ f + 1))).

(** ** Buffers *)

Definition PushU32BE (buf : bytes) (val : Z) : bytes := buf ++ be_bytes 4 val.

(** The loop pushes at most three bytes. *)
Fixpoint pad_loop (fuel : nat) (buf : bytes) : bytes :=
  match fuel with
  | O => buf
  | S fuel => if (length buf mod 4 =? 0)%nat then buf else pad_loop fuel (buf ++ [0])
  end.
Definition PadTo4 (buf : bytes) : bytes := pad_loop 3 buf.

(** The search of [AddString] from offset [existing] on. *)
Fixpoint find_string (fuel existing : nat) (s buf : bytes) : option nat :=
  match fuel with
  | O => None
  | S fuel =>
      if (existing <? length buf)%nat then
        let candidate := c_str (drop existing buf) in
        if bool_decide (s = candidate) then Some existing
        else find_string fuel (existing + (length candidate + 1)) s buf
      else None
  end.

Definition AddString (s : bytes) (f : FdtBuilder) : Z * FdtBuilder :=
  match find_string (length (strings_buf_ f)) 0 s (strings_buf_ f) with
  | Some existing => (u32 (Z.of_nat existing), f)
  | None =>
      (u32 (Z.of_nat (length (strings_buf_ f))),
       mkFdt (struct_buf_ f) (strings_buf_ f ++ s ++ [0]) (next_phandle_ f))
  end.

Definition push (val : Z) (f : FdtBuilder) : FdtBuilder :=
  mkFdt (PushU32BE (struct_buf_ f) val) (strings_buf_ f) (next_phandle_ f).
Definition push_bytes (l : bytes) (f : FdtBuilder) : FdtBuilder :=
  mkFdt (struct_buf_ f ++ l) (strings_buf_ f) (next_phandle_ f).
Definition pad (f : FdtBuilder) : FdtBuilder := mkFdt (PadTo4 (struct_buf_ f)) (strings_buf_ f) (next_phandle_ f).

(** [PushU32BE(struct_buf_, AddString(name))]. *)
Definition push_name (name : bytes) (f : FdtBuilder) : FdtBuilder := let '(off, f) := AddString name f in push off f.

(** ** The methods *)

Definition BeginNode (name : bytes) (f : FdtBuilder) : FdtBuilder :=
  pad (push_bytes [0] (push_bytes name (push kFdtBeginNode f))).
Definition EndNode (f : FdtBuilder) : FdtBuilder := push kFdtEndNode f.

Definition AddPropertyU32 (name : bytes) (value : Z) (f : FdtBuilder) : FdtBuilder :=
  push value (push_name name (push 4 (push kFdtProp f))).
Definition AddPropertyU64 (name : bytes) (value : Z) (f : FdtBuilder) : FdtBuilder :=
  push (u32 (value .& 0xFFFFFFFF)) (push (u32 (value .>> 32)) (push_name name (push 8 (push kFdtProp f)))).
Definition AddPropertyString (name value : bytes) (f : FdtBuilder) : FdtBuilder :=
  pad (push_bytes [0] (push_bytes value (push_name name (push (u32 (u32 (Z.of_nat (length value)) + 1)) (push kFdtProp f))))).
Definition AddPropertyEmpty (name : bytes) (f : FdtBuilder) : FdtBuilder := push_name name (push 0 (push kFdtProp f)).
Definition AddPropertyCells (name : bytes) (cells : list Z) (f : FdtBuilder) : FdtBuilder :=
  fold_left (fun f cell => push cell f) cells
    (push_name name (push (u32 (u32 (Z.of_nat (length cells)) * 4)) (push kFdtProp f))).
Definition AddPropertyBytes (name data : bytes) (f : FdtBuilder) : FdtBuilder :=
  pad (push_bytes data (push_name name (push (u32 (Z.of_nat (length data))) (push kFdtProp f)))).

Definition fdt_header (struct_len strings_len : nat) : bytes :=
  let off_dt_struct := 40 + 16 in
  let off_dt_strings := u32 (off_dt_struct + u32 (Z.of_nat struct_len)) in
  let total_size := u32 (off_dt_strings + u32 (Z.of_nat strings_len)) in
  be_bytes 4 kFdtMagic ++ be_bytes 4 total_size ++ be_bytes 4 off_dt_struct ++ be_bytes 4 off_dt_strings
  ++ be_bytes 4 40 ++ be_bytes 4 kFdtVersion ++ be_bytes 4 kFdtLastCompat ++ be_bytes 4 0
  ++ be_bytes 4 (u32 (Z.of_nat strings_len)) ++ be_bytes 4 (u32 (Z.of_nat struct_len)).

Definition Finish (f : FdtBuilder) : bytes :=
  let f := push kFdtEnd f in
  fdt_header (length (struct_buf_ f)) (length (strings_buf_ f))
  ++ (be_bytes 4 0 ++ be_bytes 4 0) ++ (be_bytes 4 0 ++ be_bytes 4 0)
  ++ struct_buf_ f ++ strings_buf_ f.

Inductive FdtOp :=
| OpBegin (name : bytes)
| OpEnd
| OpU32 (name : bytes) (value : Z)
| OpU64 (name : bytes) (value : Z)
| OpString (name value : bytes)
| OpEmpty (name : bytes)
| OpCells (name : bytes) (cells : list Z)
| OpBytes (name data : bytes).

Definition fdt_op (f : FdtBuilder) (op : FdtOp) : FdtBuilder :=
  match op with
  | OpBegin name => BeginNode name f
  | OpEnd => EndNode f
  | OpU32 name v => AddPropertyU32 name v f
  | OpU64 name v => AddPropertyU64 name v f
  | OpString name v => AddPropertyString name v f
  | OpEmpty name => AddPropertyEmpty name f
  | OpCells name cells => AddPropertyCells name cells f
  | OpBytes name data => AddPropertyBytes name data f
  end.
Definition fdt_build (ops : list FdtOp) : FdtBuilder := fold_left fdt_op ops FdtBuilder_new.

(** ** The reader of the specification *)

Inductive FdtEvent := EvBegin (name : bytes) | EvEnd | EvProp (name data : bytes).

Definition word_at (off : nat) (l : bytes) : Z := be_val (take 4 (drop off l)).
Definition padded (n : nat) : nat := n + (4 - n mod 4) mod 4.

Fixpoint read_struct (fuel : nat) (s strings : bytes) : option (list FdtEvent) :=
  match fuel with
  | O => None
  | S fuel =>
      if (length s <? 4)%nat then None
      else
        let token := word_at 0 s in
        let s := drop 4 s in
        if token =? 1 then
          let name := c_str s in
          if (length s <? padded (length name + 1))%nat then None
          else evs ← read_struct fuel (drop (padded (length name + 1)) s) strings; Some (EvBegin name :: evs)
        else if token =? 2 then evs ← read_struct fuel s strings; Some (EvEnd :: evs)
        else if token =? 3 then
          let len := Z.to_nat (word_at 0 s) in
          let nameoff := Z.to_nat (word_at 4 s) in
          let s := drop 8 s in
          if (length s <? padded len)%nat || (length strings <=? nameoff)%nat then None
          else evs ← read_struct fuel (drop (padded len) s) strings;
               Some (EvProp (c_str (drop nameoff strings)) (take len s) :: evs)
        else if token =? 4 then read_struct fuel s strings
        else if token =? 9 then match s with [] => Some [] | _ => None end
        else None
  end.

Definition fdt_read (dtb : bytes) : option (list FdtEvent) :=
  if (length dtb <? 40)%nat then None
  else if negb (word_at 0 dtb =? 0xD00DFEED) then None
  else if negb (word_at 4 dtb =? Z.of_nat (length dtb)) then None
  else if word_at 20 dtb <? 16 then None
  else
    let strct := take (Z.to_nat (word_at 36 dtb)) (drop (Z.to_nat (word_at 8 dtb)) dtb) in
    let strings := take (Z.to_nat (word_at 32 dtb)) (drop (Z.to_nat (word_at 12 dtb)) dtb) in
    read_struct (length strct) strct strings.

(** The value of a property, and what an operation is to the reader. *)
Definition op_event (op : FdtOp) : FdtEvent :=
  match op with
  | OpBegin name => EvBegin name
  | OpEnd => EvEnd
  | OpU32 name v => EvProp name (be_bytes 4 v)
  | OpU64 name v => EvProp name (be_bytes 8 v)
  | OpString name v => EvProp name (v ++ [0])
  | OpEmpty name => EvProp name []
  | OpCells name cells => EvProp name (cells ≫= be_bytes 4)
  | OpBytes name data => EvProp name data
  end.

(** Names are C strings. *)
Definition op_ok (op : FdtOp) : Prop :=
  match op with
  | OpEnd => True
  | OpU64 name v => 0 ∉ name /\ in_width 64 v
  | OpBegin name | OpU32 name _ | OpString name _ | OpEmpty name | OpCells name _ | OpBytes name _ => 0 ∉ name
  end.

(** ** Strings *)

(** A terminated string at offset [k]. *)
Definition str_at (buf : bytes) (k : nat) (s : bytes) : Prop :=
  exists pre post, buf = pre ++ s ++ [0] ++ post /\ length pre = k /\ 0 ∉ s.

(** A string block ends with a NUL. *)
Definition terminated (buf : bytes) : Prop := buf = [] \/ exists b, buf = b ++ [0].

Lemma c_str_split s : terminated s -> s <> [] -> exists t, s = c_str s ++ 0 :: t.
Proof.
  induction s as [|c s IH]; [done|]. intros Ht _. cbn. destruct (Z.eqb_spec c 0) as [->|Hc]; [by exists s|].
  destruct Ht as [|[b Hb]]; [done|]. destruct b as [|x b]; [by injection Hb as ->|]. injection Hb as -> ->.
  destruct (IH (or_intror (ex_intro _ b eq_refl))) as [t Ht]; [by destruct b|]. exists t. cbn. by rewrite <- Ht.
Qed.

Lemma terminated_drop buf k : terminated buf -> terminated (drop k buf).
Proof.
  intros [->|[b ->]]; [left; by rewrite drop_nil|]. destruct (Nat.le_gt_cases k (length b)) as [H|H].
  - right. exists (drop k b). by rewrite drop_app_le.
  - left. apply drop_ge. rewrite length_app. cbn. lia.
Qed.

Lemma find_string_ok fuel s buf :
  0 ∉ s -> terminated buf -> forall existing k, find_string fuel existing s buf = Some k -> str_at buf k s.
Proof.
  intros Hs Ht. induction fuel as [|fuel IH]; intros existing k; [done|]. cbn [find_string].
  destruct (Nat.ltb_spec existing (length buf)) as [Hlt|]; [|done]. case_bool_decide as E; [|apply IH]. intros [= <-].
  assert (Hne : drop existing buf <> []).
  { intros H. apply (f_equal length) in H. rewrite length_drop in H. cbn in H. lia. }
  destruct (c_str_split _ (terminated_drop _ existing Ht) Hne) as [t Hsp]. rewrite <- E in Hsp.
  exists (take existing buf), t. change ([0] ++ t) with (0 :: t). rewrite <- Hsp, take_drop. split; [done|]. split; [|done]. rewrite length_take. lia.
Qed.

Lemma str_at_app buf buf' k s : str_at buf k s -> str_at (buf ++ buf') k s.
Proof. intros (pre & post & -> & Hk & Hs). exists pre, (post ++ buf'). by rewrite <- !app_assoc. Qed.

Lemma str_at_read buf k s : str_at buf k s -> c_str (drop k buf) = s /\ (k < length buf)%nat.
Proof.
  intros (pre & post & -> & <- & Hs). rewrite drop_app_length. cbn [app]. split; [by apply c_str_app|].
  rewrite !length_app. cbn. lia.
Qed.

(** [AddString] returns where the string is and keeps what was there. *)
Lemma AddString_ok s f :
  0 ∉ s -> terminated (strings_buf_ f) -> Z.of_nat (length (strings_buf_ (snd (AddString s f)))) < 2 ^ 32 ->
  exists k more, AddString s f = (Z.of_nat k, mkFdt (struct_buf_ f) (strings_buf_ f ++ more) (next_phandle_ f))
    /\ str_at (strings_buf_ f ++ more) k s /\ terminated (strings_buf_ f ++ more).
Proof.
  intros Hs Ht. unfold AddString. destruct (find_string _ 0 s _) as [k|] eqn:E; cbn [snd strings_buf_]; intros Hl.
  - exists k, []. rewrite app_nil_r. pose proof (find_string_ok _ _ _ Hs Ht _ _ E) as Ha. destruct (str_at_read _ _ _ Ha) as [_ Hk].
    rewrite wrap_small by (unfold in_width; lia). by destruct f.
  - rewrite !length_app in Hl. exists (length (strings_buf_ f)), (s ++ [0]). rewrite wrap_small by (unfold in_width; lia).
    split; [done|]. split; [by exists (strings_buf_ f), []|]. right. exists (strings_buf_ f ++ s). by rewrite <- app_assoc.
Qed.

(** ** What an operation writes *)

(** [lia] with division on [nat]. *)
Ltac nat_dlia := zify; Z.div_mod_to_equations; lia.

Definition pad_to (l : bytes) : bytes := l ++ replicate ((4 - length l mod 4) mod 4) 0.

Lemma length_pad_to l : length (pad_to l) = padded (length l).
Proof. unfold pad_to, padded. by rewrite length_app, length_replicate. Qed.

Lemma padded_aligned n : (padded n mod 4 = 0)%nat.
Proof. unfold padded. nat_dlia. Qed.

Lemma PadTo4_eq buf : PadTo4 buf = pad_to buf.
Proof.
  unfold PadTo4, pad_to. pose proof (Nat.mod_upper_bound (length buf) 4 ltac:(lia)) as H. cbn [pad_loop].
  rewrite !length_app. cbn [length].
  assert (Hc : (length buf mod 4 = 0 \/ length buf mod 4 = 1 \/ length buf mod 4 = 2 \/ length buf mod 4 = 3)%nat) by lia.
  destruct Hc as [E|[E|[E|E]]]; rewrite E; cbn [Nat.eqb].
  - cbn. by rewrite app_nil_r.
  - replace ((length buf + 1) mod 4)%nat with 2%nat by nat_dlia. replace ((length buf + 1 + 1) mod 4)%nat with 3%nat by nat_dlia.
    cbn. by rewrite <- !app_assoc.
  - replace ((length buf + 1) mod 4)%nat with 3%nat by nat_dlia. replace ((length buf + 1 + 1) mod 4)%nat with 0%nat by nat_dlia.
    cbn. by rewrite <- !app_assoc.
  - by replace ((length buf + 1) mod 4)%nat with 0%nat by nat_dlia.
Qed.

(** Padding the buffer pads what is behind an aligned part. *)
Lemma PadTo4_behind a l : (length a mod 4 = 0)%nat -> PadTo4 (a ++ l) = a ++ pad_to l.
Proof.
  intros Ha. rewrite PadTo4_eq. unfold pad_to. rewrite length_app, <- app_assoc. do 3 f_equal. nat_dlia.
Qed.

Lemma pad_to_aligned l : (length l mod 4 = 0)%nat -> pad_to l = l.
Proof. intros H. unfold pad_to. rewrite H. cbn. by rewrite app_nil_r. Qed.

(** The bytes of an operation, with the strings block it refers to. *)
Definition encodes (strings : bytes) (op : FdtOp) (bs : bytes) : Prop :=
  match op_event op with
  | EvBegin name => 0 ∉ name /\ bs = be_bytes 4 1 ++ pad_to (name ++ [0])
  | EvEnd => bs = be_bytes 4 2
  | EvProp name data =>
      exists k, str_at strings k name
        /\ bs = be_bytes 4 3 ++ be_bytes 4 (Z.of_nat (length data)) ++ be_bytes 4 (Z.of_nat k) ++ pad_to data
  end.

Lemma encodes_app strings more op bs : encodes strings op bs -> encodes (strings ++ more) op bs.
Proof.
  unfold encodes. destruct (op_event op); [done|done|]. intros (k & Hk & ->). exists k. split; [|done]. by apply str_at_app.
Qed.

Definition aligned (f : FdtBuilder) : Prop := (length (struct_buf_ f) mod 4 = 0)%nat.

(** [bs] and [more] are appended to the two blocks. *)
Definition extends (f f' : FdtBuilder) (bs more : bytes) : Prop :=
  struct_buf_ f' = struct_buf_ f ++ bs /\ strings_buf_ f' = strings_buf_ f ++ more.

(** A property up to its padding. *)
Definition add_prop (name : bytes) (len : Z) (data : bytes) (f : FdtBuilder) : FdtBuilder :=
  push_bytes data (push_name name (push len (push kFdtProp f))).

Lemma add_prop_ok name len data f :
  0 ∉ name -> terminated (strings_buf_ f) -> Z.of_nat (length (strings_buf_ (add_prop name len data f))) < 2 ^ 32 ->
  exists k more, extends f (add_prop name len data f) (be_bytes 4 3 ++ be_bytes 4 len ++ be_bytes 4 (Z.of_nat k) ++ data) more
    /\ str_at (strings_buf_ f ++ more) k name /\ terminated (strings_buf_ f ++ more).
Proof.
  intros Hn Ht Hl. unfold add_prop, push_name in *.
  destruct (AddString_ok name (push len (push kFdtProp f)) Hn Ht) as (k & more & E & Hk & Hm).
  { by destruct (AddString name (push len (push kFdtProp f))). }
  rewrite E. exists k, more. split; [|done]. unfold extends. cbn. unfold PushU32BE. by rewrite <- !app_assoc.
Qed.

Lemma AddPropertyCells_eq name cells f :
  AddPropertyCells name cells f = add_prop name (u32 (u32 (Z.of_nat (length cells)) * 4)) (cells ≫= be_bytes 4) f.
Proof.
  unfold AddPropertyCells, add_prop. generalize (push_name name (push (u32 (u32 (Z.of_nat (length cells)) * 4)) (push kFdtProp f))).
  induction cells as [|c cells IH]; intros g; cbn [fold_left]; [by destruct g; unfold push_bytes; cbn; rewrite app_nil_r|].
  rewrite IH. unfold push_bytes, push, PushU32BE. cbn. by rewrite <- app_assoc.
Qed.

Lemma be_bytes_8 v : in_width 64 v -> be_bytes 8 v = be_bytes 4 (u32 (v .>> 32)) ++ be_bytes 4 (u32 (v .& 0xFFFFFFFF)).
Proof.
  intros Hv. unfold in_width in Hv. change 0xFFFFFFFF with (Z.ones 32). rewrite Z.land_ones, Z.shiftr_div_pow2 by lia.
  unfold wrap. rewrite (Z.mod_mod v) by lia. change (2 ^ 32) with 4294967296 in *. cbn [be_bytes le_bytes rev app].
  repeat (f_equal; [dlia|]). f_equal. dlia.
Qed.

(** The unpadded bytes of a property that [fdt_op] then pads, or need not. *)
Lemma prop_encodes name data f f1 len op :
  op_event op = EvProp name data -> f1 = add_prop name len data f ->
  fdt_op f op = pad f1 \/ (fdt_op f op = f1 /\ (length data mod 4 = 0)%nat) ->
  0 ∉ name -> aligned f -> terminated (strings_buf_ f) -> len = Z.of_nat (length data) ->
  Z.of_nat (length (strings_buf_ (fdt_op f op))) < 2 ^ 32 ->
  exists bs more, extends f (fdt_op f op) bs more /\ terminated (strings_buf_ f ++ more)
    /\ (length bs mod 4 = 0)%nat /\ encodes (strings_buf_ f ++ more) op bs.
Proof.
  intros Hop -> Hpad Hn Ha Ht -> Hl.
  assert (Hl1 : Z.of_nat (length (strings_buf_ (add_prop name (Z.of_nat (length data)) data f))) < 2 ^ 32) by (by destruct Hpad as [E|[E _]]; rewrite E in Hl).
  destruct (add_prop_ok name (Z.of_nat (length data)) data f Hn Ht Hl1) as (k & more & [E1 E2] & Hk & Hm).
  set (hd := be_bytes 4 3 ++ be_bytes 4 (Z.of_nat (length data)) ++ be_bytes 4 (Z.of_nat k)).
  assert (Hhd : length hd = 12%nat) by (unfold hd; by rewrite !length_app, !length_be_bytes).
  exists (hd ++ pad_to data), more. split_and!; [split| | |].
  - assert (E3 : struct_buf_ (add_prop name (Z.of_nat (length data)) data f) = (struct_buf_ f ++ hd) ++ data).
    { rewrite E1. unfold hd. by rewrite <- !app_assoc. }
    destruct Hpad as [->|[-> Hz]].
    + cbn [pad struct_buf_]. rewrite E3, PadTo4_behind; [by rewrite <- app_assoc|]. rewrite length_app, Hhd. unfold aligned in Ha. nat_dlia.
    + by rewrite E3, pad_to_aligned, <- app_assoc.
  - destruct Hpad as [->|[-> _]]; exact E2.
  - done.
  - rewrite length_app, Hhd, length_pad_to. pose proof (padded_aligned (length data)). nat_dlia.
  - unfold encodes. rewrite Hop. exists k. split; [done|]. unfold hd. by rewrite <- !app_assoc.
Qed.

(** Lengths that fit, as they are once the blob is below 4 GiB. *)
Definition op_fits (op : FdtOp) : Prop :=
  match op_event op with EvProp _ data => Z.of_nat (length data) < 2 ^ 32 | _ => True end.

Lemma length_cells cells : length (cells ≫= be_bytes 4) = (4 * length cells)%nat.
Proof. induction cells as [|c cells IH]; [done|]. rewrite bind_cons, length_app, length_be_bytes, IH. cbn [length]. lia. Qed.

Lemma fdt_op_ok f op :
  op_ok op -> op_fits op -> aligned f -> terminated (strings_buf_ f) ->
  Z.of_nat (length (strings_buf_ (fdt_op f op))) < 2 ^ 32 ->
  exists bs more, extends f (fdt_op f op) bs more /\ terminated (strings_buf_ f ++ more)
    /\ (length bs mod 4 = 0)%nat /\ encodes (strings_buf_ f ++ more) op bs.
Proof.
  intros Hok Hfit Ha Ht. unfold op_fits in Hfit. destruct op as [name| |name v|name v|name v|name|name cells|name data]; cbn [op_ok op_event] in *.
  - intros _. exists (be_bytes 4 1 ++ pad_to (name ++ [0])), []. rewrite app_nil_r. split_and!; [split| | |].
    + cbn [fdt_op BeginNode pad push_bytes push struct_buf_ PushU32BE]. unfold BeginNode, pad, push_bytes, push, PushU32BE. cbn [struct_buf_].
      rewrite <- !app_assoc. rewrite (app_assoc (struct_buf_ f)), PadTo4_behind; [by rewrite <- app_assoc|].
      rewrite length_app, length_be_bytes. unfold aligned in Ha. nat_dlia.
    + cbn. by rewrite app_nil_r.
    + done.
    + rewrite length_app, length_be_bytes, length_pad_to. pose proof (padded_aligned (length (name ++ [0]))). nat_dlia.
    + done.
  - intros _. exists (be_bytes 4 2), []. rewrite app_nil_r. split_and!; try done. split; cbn; [done|by rewrite app_nil_r].
  - eapply prop_encodes; [reflexivity|reflexivity|right; split; reflexivity|done..].
  - destruct Hok as [Hn Hv]. eapply prop_encodes; [reflexivity|reflexivity| |done..].
    right. split; [|by rewrite length_be_bytes]. cbn [fdt_op]. rewrite be_bytes_8 by done.
    unfold AddPropertyU64, add_prop, push_bytes, push, PushU32BE. rewrite length_app, !length_be_bytes. cbn. by rewrite <- app_assoc.
  - eapply prop_encodes; [reflexivity|reflexivity| |done..]. left. cbn [fdt_op]. unfold AddPropertyString, add_prop, push_bytes.
    rewrite length_app in *. cbn [length] in *. rewrite Nat2Z.inj_add in *. cbn [struct_buf_ strings_buf_ next_phandle_].
    rewrite (wrap_small 32 (Z.of_nat _)), wrap_small by (unfold in_width; lia). by rewrite <- app_assoc.
  - eapply prop_encodes; [reflexivity|reflexivity| |done..]. right. split; [|done]. cbn [fdt_op]. unfold AddPropertyEmpty, add_prop, push_bytes.
    rewrite app_nil_r. by destruct (push_name _ _).
  - rewrite length_cells in Hfit. eapply prop_encodes; [reflexivity|reflexivity| |done..]. right. split; [|rewrite length_cells; nat_dlia].
    cbn [fdt_op]. rewrite AddPropertyCells_eq, length_cells. rewrite (wrap_small 32 (Z.of_nat _)), wrap_small by (unfold in_width; lia). 
    f_equal. lia.
  - eapply prop_encodes; [reflexivity|reflexivity| |done..]. left. cbn [fdt_op]. unfold AddPropertyBytes, add_prop.
    by rewrite wrap_small by (unfold in_width; lia).
Qed.

(** ** Reading it back *)

Lemma word_at_0 v l : in_width 32 v -> word_at 0 (be_bytes 4 v ++ l) = v.
Proof.
  intros Hv. unfold word_at. rewrite drop_0, take_app_length' by (by rewrite length_be_bytes).
  rewrite be_val_be_bytes. by apply Z.mod_small.
Qed.

Lemma word_at_skip k l off : word_at (length k + off) (k ++ l) = word_at off l.
Proof. unfold word_at. by rewrite drop_app_add. Qed.

Lemma words_at ws i v rest : ws !! i = Some v -> in_width 32 v -> word_at (4 * i) ((ws ≫= be_bytes 4) ++ rest) = v.
Proof.
  revert i. induction ws as [|w ws IH]; intros i Hi Hv; [done|]. rewrite bind_cons, <- app_assoc. destruct i as [|i].
  - injection Hi as ->. by apply word_at_0.
  - replace (4 * S i)%nat with (length (be_bytes 4 w) + 4 * i)%nat by (rewrite length_be_bytes; lia). rewrite word_at_skip. by apply IH.
Qed.

Lemma read_op fuel strings op bs rest :
  encodes strings op bs -> op_fits op -> Z.of_nat (length strings) < 2 ^ 32 ->
  read_struct (S fuel) (bs ++ rest) strings = (evs ← read_struct fuel rest strings; Some (op_event op :: evs)).
Proof.
  unfold encodes, op_fits. intros He Hf Hs.
  assert (Hdrop : forall v l, drop 4 (be_bytes 4 v ++ l) = l) by (intros; by rewrite drop_app_length' by (by rewrite length_be_bytes)).
  assert (Hlen : forall v l, (length (be_bytes 4 v ++ l) <? 4)%nat = false).
  { intros. apply Nat.ltb_ge. rewrite length_app, length_be_bytes. lia. }
  destruct (op_event op) as [name| |name data]; cbn [read_struct].
  - destruct He as [Hn ->]. rewrite <- app_assoc, Hlen, word_at_0, Hdrop by done. change (1 =? 1) with true. cbv iota.
    unfold pad_to. rewrite <- !app_assoc. change ([0] ++ ?x) with (0 :: x). rewrite c_str_app by done.
    replace (length name + 1)%nat with (length (name ++ [0])) by (by rewrite length_app).
    assert (E : forall r, name ++ 0 :: replicate ((4 - length (name ++ [0]) mod 4) mod 4) 0 ++ r = pad_to (name ++ [0]) ++ r).
    { intros r. unfold pad_to. by rewrite <- !app_assoc. }
    rewrite E, <- length_pad_to, drop_app_length.
    rewrite (proj2 (Nat.ltb_ge _ _)) by (rewrite length_app; lia). done.
  - subst bs. rewrite Hlen, word_at_0, Hdrop by done. done.
  - destruct He as (k & Hk & ->). destruct (str_at_read _ _ _ Hk) as [Hname Hkl].
    rewrite <- !app_assoc, Hlen, word_at_0, Hdrop by done. change (3 =? 1) with false. change (3 =? 2) with false.
    change (3 =? 3) with true. cbv iota.
    rewrite word_at_0 by (unfold in_width; lia).
    replace (word_at 4 _) with (Z.of_nat k).
    2:{ change 4%nat with (4 + 0)%nat at 1. rewrite <- (length_be_bytes 4 (Z.of_nat (length data))), word_at_skip, word_at_0; [done|].
        unfold in_width. lia. }
    change 8%nat with (4 + 4)%nat. rewrite <- drop_drop, Hdrop, Hdrop, !Nat2Z.id.
    rewrite <- length_pad_to, drop_app_length. rewrite (proj2 (Nat.ltb_ge _ _)) by (rewrite length_app; lia).
    rewrite (proj2 (Nat.leb_gt _ _) Hkl). cbn [orb]. rewrite Hname.
    replace (take (length data) (pad_to data ++ rest)) with data; [done|]. unfold pad_to. rewrite <- app_assoc. by rewrite take_app_length.
Qed.

Lemma read_ops strings ops bss :
  Forall2 (encodes strings) ops bss -> Forall op_fits ops -> Z.of_nat (length strings) < 2 ^ 32 ->
  forall fuel, (length ops < fuel)%nat -> read_struct fuel (concat bss ++ be_bytes 4 kFdtEnd) strings = Some (map op_event ops).
Proof.
  intros H Hf Hs. induction H as [|op bs ops bss He _ IH]; intros fuel Hfuel; (destruct fuel as [|fuel]; [cbn in Hfuel; lia|]).
  - cbn [concat app map]. vm_compute. done.
  - inversion_clear Hf. cbn [concat map]. rewrite <- app_assoc, (read_op fuel strings op bs) by done. rewrite IH; [done|done|cbn in Hfuel; lia].
Qed.

Lemma strings_grow f op : (length (strings_buf_ f) <= length (strings_buf_ (fdt_op f op)))%nat.
Proof.
  assert (H : forall name f, (length (strings_buf_ f) <= length (strings_buf_ (push_name name f)))%nat).
  { intros name g. unfold push_name, AddString. destruct (find_string _ _ _ _); cbn; [done|]. rewrite length_app. lia. }
  destruct op; cbn [fdt_op]; [done|done|..]; rewrite ?AddPropertyCells_eq; refine (H _ (push _ (push kFdtProp f))).
Qed.

Lemma build_ok ops : forall f,
  Forall op_ok ops -> Forall op_fits ops -> aligned f -> terminated (strings_buf_ f) ->
  Z.of_nat (length (strings_buf_ (fold_left fdt_op ops f))) < 2 ^ 32 ->
  exists bss more, extends f (fold_left fdt_op ops f) (concat bss) more
    /\ Forall2 (encodes (strings_buf_ f ++ more)) ops bss.
Proof.
  induction ops as [|op ops IH]; intros f Hok Hfit Ha Ht Hl.
  - exists [], []. rewrite app_nil_r. split; [|constructor]. by split; rewrite app_nil_r.
  - inversion_clear Hok. inversion_clear Hfit. cbn [fold_left] in *.
    assert (Hmono : forall l g, (length (strings_buf_ g) <= length (strings_buf_ (fold_left fdt_op l g)))%nat).
    { induction l as [|o l IHl]; intros g; [done|]. cbn [fold_left]. pose proof (strings_grow g o). specialize (IHl (fdt_op g o)). lia. }
    destruct (fdt_op_ok f op) as (bs & more & [E1 E2] & Hm & Hb & He); try done.
    { specialize (Hmono ops (fdt_op f op)). lia. }
    destruct (IH (fdt_op f op)) as (bss & more' & [E3 E4] & Hes); try done.
    { unfold aligned in *. rewrite E1, length_app. nat_dlia. }
    { by rewrite E2. }
    exists (bs :: bss), (more ++ more'). rewrite E2, <- app_assoc in Hes. split.
    + split; cbn [concat]; [by rewrite E3, E1, <- app_assoc|by rewrite E4, E2, <- app_assoc].
    + constructor; [|done]. rewrite app_assoc. by apply encodes_app.
Qed.

Lemma encodes_length strings ops bss : Forall2 (encodes strings) ops bss -> (length ops <= length (concat bss))%nat.
Proof.
  induction 1 as [|op bs ops bss Ho _ IH]; cbn [length concat]; [lia|].
  rewrite length_app. assert (1 <= length bs)%nat; [|lia]. unfold encodes in Ho. destruct (op_event op).
  - destruct Ho as [_ ->]. rewrite length_app, length_be_bytes. lia.
  - subst bs. rewrite length_be_bytes. lia.
  - destruct Ho as (k & _ & ->). rewrite length_app, length_be_bytes. lia.
Qed.

(** The words of the header. *)
Lemma header_words sl tl rest :
  Z.of_nat (56 + sl + tl) < 2 ^ 32 ->
  let off := 56 + Z.of_nat sl in let dtb := fdt_header sl tl ++ rest in
  word_at 0 dtb = kFdtMagic /\ word_at 4 dtb = off + Z.of_nat tl /\ word_at 8 dtb = 56 /\ word_at 12 dtb = off
  /\ word_at 20 dtb = kFdtVersion /\ word_at 32 dtb = Z.of_nat tl /\ word_at 36 dtb = Z.of_nat sl.
Proof.
  intros Hl off dtb.
  set (ws := [kFdtMagic; off + Z.of_nat tl; 56; off; 40; kFdtVersion; kFdtLastCompat; 0; Z.of_nat tl; Z.of_nat sl]).
  assert (Hheader : fdt_header sl tl = ws ≫= be_bytes 4).
  { unfold fdt_header. cbv zeta. rewrite (wrap_small 32 (Z.of_nat sl)), (wrap_small 32 (Z.of_nat tl)) by (unfold in_width; lia).
    change (40 + 16 + Z.of_nat sl) with off. rewrite (wrap_small 32 off), (wrap_small 32 (off + _)) by (unfold in_width, off; lia). reflexivity. }
  assert (Hword : forall i v, ws !! i = Some v -> in_width 32 v -> word_at (4 * i) dtb = v).
  { intros i v Hi Hw. unfold dtb. rewrite Hheader. by apply words_at. }
  split_and!; [refine (Hword 0%nat _ _ _)|refine (Hword 1%nat _ _ _)|refine (Hword 2%nat _ _ _)|refine (Hword 3%nat _ _ _)
      |refine (Hword 5%nat _ _ _)|refine (Hword 8%nat _ _ _)|refine (Hword 9%nat _ _ _)];
    first [reflexivity|unfold in_width, off, kFdtMagic, kFdtVersion; lia].
Qed.

(** The blob of a builder that started empty. *)
Lemma finish_read ops f0 :
  struct_buf_ f0 = [] -> strings_buf_ f0 = [] -> Forall op_ok ops -> Forall op_fits ops ->
  Z.of_nat (length (Finish (fold_left fdt_op ops f0))) < 2 ^ 32 ->
  fdt_read (Finish (fold_left fdt_op ops f0)) = Some (map op_event ops).
Proof.
  intros H1 H2 Hok Hfit Hl. set (f := fold_left fdt_op ops f0) in *.
  set (sl := length (struct_buf_ f ++ be_bytes 4 kFdtEnd)). set (tl := length (strings_buf_ f)).
  assert (Hfin : Finish f = fdt_header sl tl ++ replicate 16 0 ++ (struct_buf_ f ++ be_bytes 4 kFdtEnd) ++ strings_buf_ f) by done.
  assert (Hh : length (fdt_header sl tl) = 40%nat) by (unfold fdt_header; by rewrite !length_app, !length_be_bytes).
  assert (Hlen : length (Finish f) = (56 + sl + tl)%nat).
  { rewrite Hfin, length_app, Hh, length_app, length_replicate, length_app. fold sl tl. lia. }
  assert (Hst : Z.of_nat (length (strings_buf_ (fold_left fdt_op ops f0))) < 2 ^ 32) by (fold f tl; lia).
  destruct (build_ok ops f0 Hok Hfit) as (bss & more & [E1 E2] & He); [unfold aligned; by rewrite H1|by left|exact Hst|].
  fold f in E1, E2. rewrite H1 in E1. rewrite H2 in E2, He. cbn [app] in *. rewrite <- E2 in He.
  assert (Hn : (length ops < sl)%nat).
  { unfold sl. rewrite E1, length_app, length_be_bytes. pose proof (encodes_length _ _ _ He). lia. }
  unfold fdt_read. rewrite (proj2 (Nat.ltb_ge _ _)) by lia.
  set (off := 56 + Z.of_nat sl).
  assert (W := header_words sl tl (replicate 16 0 ++ (struct_buf_ f ++ be_bytes 4 kFdtEnd) ++ strings_buf_ f) ltac:(lia)).
  rewrite <- Hfin in W. cbv zeta in W. fold off in W.
  destruct W as (-> & -> & -> & -> & -> & -> & ->).
  replace (off + Z.of_nat tl =? Z.of_nat (length (Finish f))) with true by (symmetry; apply Z.eqb_eq; unfold off; lia).
  cbn [negb]. change (kFdtMagic =? 0xD00DFEED) with true. change (kFdtVersion <? 16) with false. cbv iota.
  assert (H56 : drop (Z.to_nat 56) (Finish f) = (struct_buf_ f ++ be_bytes 4 kFdtEnd) ++ strings_buf_ f).
  { rewrite Hfin, app_assoc, drop_app_length'; [done|]. by rewrite length_app, Hh. }
  assert (Hoff : drop (Z.to_nat off) (Finish f) = strings_buf_ f).
  { replace (Z.to_nat off) with (Z.to_nat 56 + sl)%nat by (unfold off; lia). rewrite <- drop_drop, H56. by apply drop_app_length'. }
  rewrite H56, Hoff, !Nat2Z.id, take_app_length' by done. rewrite firstn_all2 by (fold tl; lia).
  rewrite E1. apply read_ops; [done|done|fold tl; lia|]. rewrite <- E1. fold sl. exact Hn.
Qed.

(** C29. A device tree survives the builder.  For any operations whose names hold
    no NUL, with a blob below 4 GiB, a reader of the specification accepts
    the header of what [Finish] returns and finds in the structure block
    exactly the nodes and properties of the operations, in order, every
    property under the name it was added with. *)
Theorem fdt_roundtrip ops :
  Forall op_ok ops -> Forall op_fits ops -> Z.of_nat (length (Finish (fdt_build ops))) < 2 ^ 32 ->
  fdt_read (Finish (fdt_build ops)) = Some (map op_event ops).
Proof. by apply finish_read. Qed.

(** ** A small tree *)

Definition demo_ops : list FdtOp :=
  [OpBegin []; OpU32 (str "#size-cells") 2; OpBegin (str "memory@40000000"); OpString (str "device_type") (str "memory");
   OpCells (str "reg") [0; 0x40000000; 0; 0x20000000]; OpEnd; OpBegin (str "cpus"); OpU32 (str "#size-cells") 0; OpEnd; OpEnd].

Lemma name_okb s : forallb (fun c => negb (c =? 0)) s = true -> 0 ∉ s.
Proof.
  intros H Hin. apply list_elem_of_In in Hin. by apply (proj1 (forallb_forall _ _) H) in Hin.
Qed.

Lemma fdt_roundtrip_witness : fdt_read (Finish (fdt_build demo_ops)) = Some (map op_event demo_ops).
Proof.
  apply fdt_roundtrip.
  - repeat first [apply Forall_nil; exact I|apply Forall_cons; split]; first [exact I|apply name_okb; reflexivity].
  - repeat constructor.
  - reflexivity.
Defined.

(** The second [#size-cells] shares the first one's name. *)
Lemma demo_shares_names : strings_buf_ (fdt_build demo_ops) = str "#size-cells" ++ [0] ++ str "device_type" ++ [0] ++ str "reg" ++ [0].
Proof. vm_compute. reflexivity. Qed.
