(* ===== verification/BootMem.v ===== *)
(** * Guest RAM as a boot loader writes it

    Shared by the files that place kernels, tables and device trees:
    reads of guest-physical memory in the first bank, and the rules for
    chains of stores into [HostMem]. *)

From S2P Require Import Prelude.
From S2P Require Import StdString.
From S2P Require Import GuestMem.

(** Bytes of guest-physical memory, in the bank that starts at [ram_base]. *)
Definition phys_read (h : HostMem) (gpa n : Z) : option bytes :=
  let m := hm_map h in
  if (ram_base m <=? gpa) && (gpa - ram_base m + n <=? low_size m)
  then hm_read h (gpa - ram_base m) n else None.

(** A first bank at [base] with room for [lim] bytes. *)
Definition bank (base lim : Z) (h : HostMem) : Prop :=
  ram_base (hm_map h) = base /\ lim <= low_size (hm_map h) /\ low_size (hm_map h) <= alloc_size (hm_map h).
Abbreviation low_ram := (bank 0).

Lemma hm_write_some h a l :
  0 <= a -> a + Z.of_nat (length l) <= alloc_size (hm_map h) ->
  hm_write h a l = Some (MkHostMem (hm_map h) (poke (hm_bytes h) a l)).
Proof. intros. unfold hm_write. rewrite !(proj2 (Z.leb_le _ _)) by lia. done. Qed.

Lemma phys_read_bank base lim h a n :
  bank base lim h -> 0 <= a -> a + n <= lim -> phys_read h (base + a) n = Some (peek (hm_bytes h) a n).
Proof.
  intros (Hb & Hl & Ha) H0 Hn. unfold phys_read, hm_read. rewrite Hb. replace (base + a - base) with a by lia.
  rewrite !(proj2 (Z.leb_le _ _)) by lia. done.
Qed.

Lemma phys_read_low lim h a n :
  low_ram lim h -> 0 <= a -> a + n <= lim -> phys_read h a n = Some (peek (hm_bytes h) a n).
Proof. apply phys_read_bank. Qed.

Lemma peek_take s a n m : (n <= m) -> 0 <= n -> peek s a n = take (Z.to_nat n) (peek s a m).
Proof.
  intros Hn H0. replace m with (n + (m - n)) by lia. rewrite peek_app by lia.
  by rewrite take_app_length' by (by rewrite length_peek).
Qed.

Lemma peek_poke_eq s a l b n : a = b -> n = Z.of_nat (length l) -> peek (poke s a l) b n = l.
Proof. intros -> ->. apply peek_poke_same. Qed.

(** A part of what was stored. *)
Lemma peek_poke_sub s a l b n :
  a <= b -> 0 <= n -> b + n <= a + Z.of_nat (length l) ->
  peek (poke s a l) b n = take (Z.to_nat n) (drop (Z.to_nat (b - a)) l).
Proof.
  intros Ha Hn Hb. apply list_eq. intros i. destruct (decide (i < Z.to_nat n)%nat) as [Hi|Hi].
  - rewrite lookup_peek, lookup_take_lt, lookup_drop by done.
    destruct (lookup_lt_is_Some_2 l (Z.to_nat (b - a) + i)) as [x Hx]; [lia|]. rewrite Hx. f_equal.
    apply get8_poke_in; [lia|]. by replace (Z.to_nat (b + Z.of_nat i - a)) with (Z.to_nat (b - a) + i)%nat by lia.
  - rewrite !lookup_ge_None_2; [done| |rewrite length_peek; lia]. rewrite length_take. lia.
Qed.

Lemma field_peek s a n k off :
  Z.of_nat (off + n) <= k -> field n off (peek s a k) = le_val (peek s (a + Z.of_nat off) (Z.of_nat n)).
Proof.
  intros Hk. unfold field. f_equal. replace k with (Z.of_nat off + (Z.of_nat n + (k - Z.of_nat off - Z.of_nat n))) by lia.
  rewrite peek_app, drop_app_length' by (rewrite ?length_peek; lia).
  rewrite peek_app, take_app_length' by (rewrite ?length_peek; lia). done.
Qed.

(** The same member seen through another window. *)
Lemma field_shift s a k a' k' n off off' :
  a + Z.of_nat off = a' + Z.of_nat off' -> Z.of_nat (off + n) <= k -> Z.of_nat (off' + n) <= k' ->
  field n off (peek s a k) = field n off' (peek s a' k').
Proof. intros E Hk Hk'. by rewrite !field_peek, E. Qed.

Lemma le_val_word n v : in_width (8 * Z.of_nat n) v -> le_val (le_bytes n v) = v.
Proof. intros Hv. rewrite le_val_le_bytes. unfold in_width in Hv. rewrite Z.pow_mul_r in Hv by lia. by apply Z.mod_small. Qed.

(** Only the range [[lo, hi)] may differ. *)
Definition keeps (lo hi : Z) (h h' : HostMem) : Prop :=
  hm_map h' = hm_map h /\ forall a n, a + n <= lo \/ hi <= a -> peek (hm_bytes h') a n = peek (hm_bytes h) a n.

Lemma keeps_bank lo hi h h' base lim : keeps lo hi h h' -> bank base lim h -> bank base lim h'.
Proof. intros [E _]. unfold bank. by rewrite E. Qed.

(** One store inside RAM. *)
Ltac write_step :=
  rewrite hm_write_some by (cbn [hm_map length]; autorewrite with len; rewrite ?length_replicate; lia);
  cbn [mbind option_bind hm_map hm_bytes].

(** Reads a byte range of a chain of stores. *)
Ltac peek_poke :=
  repeat match goal with
  | |- peek (poke _ ?a ?l) ?a _ = ?l => exact (peek_poke_same _ a l)
  | |- peek (poke _ _ _) _ _ = _ => rewrite peek_poke_disjoint by (cbn [length]; autorewrite with len; rewrite ?length_replicate; lia)
  end.

(** Goes back over stores whose frame is known. *)
Ltac frames :=
  repeat match goal with
  | F : forall a n, _ -> peek (hm_bytes ?h') a n = peek _ a n |- context [peek (hm_bytes ?h') _ _] => rewrite F by lia
  end.
