(* ===== verification/AcpiTables.v ===== *)
(** * The ACPI tables of the x86 machine

    Models core/arch/x86_64/acpi.{h,cpp}: [BuildAcpiTables] places RSDP, XSDT,
    MADT, FADT and DSDT in guest RAM.  A builder that fills a buffer is the
    list of the bytes it leaves there; the entry point is the sequence of
    stores into [HostMem].

    The other side is [acpi_read], what an operating system does with the
    tables: it follows the pointers from the RSDP, checks signatures and
    checksums, walks the MADT and interprets the AML of the DSDT.
    [acpi_tables_roundtrip]: it finds exactly the processors, interrupt
    controller, power management ports and devices that were put in. *)

From S2P Require Import Prelude.
From S2P Require Import StdString.
From S2P Require Import GuestMem.
From S2P Require Import BootMem.

Record VirtioMmioAcpiInfo := mkAcpiInfo { ai_base : Z; ai_size : Z; ai_irq : Z }.

Definition kRsdp : Z := 0x4000.
Definition kXsdt : Z := 0x4100.
Definition kMadt : Z := 0x4200.
Definition kFadt : Z := 0x4300.
Definition kDsdt : Z := 0x4500.

Definition sum_u8 (data : bytes) : Z := fold_left (fun sum p => u8 (sum + p)) data 0.
Definition AcpiChecksum (data : bytes) : Z := u8 (- sum_u8 data).

(** An [AcpiHeader]; the checksum at offset 9 is still 0. *)
Definition FillHeader (sig : bytes) (len rev : Z) : bytes :=
  sig ++ le_bytes 4 len ++ [rev; 0] ++ str "TENBOX" ++ str "TENBOX  " ++ le_bytes 4 1 ++ str "TNBX" ++ le_bytes 4 1.

(** [hdr->checksum = AcpiChecksum(table, len)]. *)
Definition set_checksum (table : bytes) : bytes := <[9%nat := AcpiChecksum table]> table.

(** ** DSDT *)

Definition kDevBody : Z := 54.
Definition kDevEntry : Z := 61.
Definition kS5Size : Z := 16.

(** The array behind a literal of 16 digits, its NUL included. *)
Definition hex_digit (i : Z) : option Z := (str "0123456789ABCDEF" ++ [0]) !! Z.to_nat i.

Definition s5_object : bytes :=
  [0x08] ++ str "_S5_" ++ [0x12; 0x0A; 0x04; 0x0A; 0x05; 0x0A; 0x05; 0x0A; 0x00; 0x0A; 0x00].

Definition crs_bytes (d : VirtioMmioAcpiInfo) : bytes :=
  [0x86; 0x09; 0x00; 0x01] ++ le_bytes 4 (ai_base d) ++ le_bytes 4 (ai_size d)
  ++ [0x89; 0x06; 0x00; 0x03; 0x01] ++ le_bytes 4 (ai_irq d) ++ [0x79; 0x00].

(** One turn of the loop over the devices. *)
Definition dsdt_device (i : Z) (d : VirtioMmioAcpiInfo) : option bytes :=
  hi ← hex_digit (i / 16);
  lo ← hex_digit (i mod 16);
  Some ([0x5B; 0x82; 1 + 4 + kDevBody] ++ str "VR" ++ [hi; lo]
        ++ [0x08] ++ str "_HID" ++ [0x0D] ++ str "LNRO0005" ++ [0x00]
        ++ [0x08] ++ str "_UID" ++ [0x0A; u8 i]
        ++ [0x08] ++ str "_CRS" ++ [0x11; 0x1A; 0x0A; 0x17] ++ crs_bytes d).

Fixpoint dsdt_devices (i : Z) (devs : list VirtioMmioAcpiInfo) : option bytes :=
  match devs with
  | [] => Some []
  | d :: devs => b ← dsdt_device i d; rest ← dsdt_devices (i + 1) devs; Some (b ++ rest)
  end.

(** The length field of the scope: one byte, or two from 63 bytes on. *)
Definition scope_pkglen_sz (scope_remaining : Z) : Z := if u32 (scope_remaining + 1) <=? 63 then 1 else 2.

Definition scope_pkglen (scope_remaining : Z) : bytes :=
  let sz := scope_pkglen_sz scope_remaining in
  let scope_pkglen_val := u32 (sz + scope_remaining) in
  if sz =? 1 then [u8 scope_pkglen_val]
  else [u8 ((scope_pkglen_val .& 0x0F) .| 0x40); u8 (scope_pkglen_val .>> 4)].

Definition BuildDsdt (devs : list VirtioMmioAcpiInfo) : option bytes :=
  let N := u32 (Z.of_nat (length devs)) in
  let scope_body := u32 (N * kDevEntry) in
  let scope_remaining := u32 (5 + scope_body) in
  let scope_total := u32 (1 + scope_pkglen_sz scope_remaining + scope_remaining) in
  let dsdt_total := u32 (36 + kS5Size + scope_total) in
  body ← dsdt_devices 0 devs;
  Some (set_checksum
    (FillHeader (str "DSDT") dsdt_total 2 ++ s5_object
     ++ [0x10] ++ scope_pkglen scope_remaining ++ [0x5C] ++ str "_SB_" ++ body)).

(** ** FADT *)

Definition kFadtSize : Z := 268.
Definition kPm1aEvtPort : Z := 0x600.
Definition kPm1aCntPort : Z := 0x604.
Definition kPmTmrPort : Z := 0x608.
Definition kResetPort : Z := 0x60F.
Definition kResetValue : Z := 0x01.

(** [memcpy(buf + off, src, len)] inside a buffer. *)
Definition blit (off : nat) (src buf : bytes) : bytes :=
  take off buf ++ src ++ drop (off + length src) buf.

Definition fadt_flags : Z := (1 .<< 4) .| (1 .<< 5) .| (1 .<< 8) .| (1 .<< 10).

Definition BuildFadt (dsdt_addr : Z) : bytes :=
  let buf := replicate (Z.to_nat kFadtSize) 0 in
  let buf := blit 0 (FillHeader (str "FACP") kFadtSize 5) buf in
  let buf := blit 40 (le_bytes 4 (u32 dsdt_addr)) buf in
  let buf := blit 46 (le_bytes 2 9) buf in
  let buf := blit 56 (le_bytes 4 kPm1aEvtPort) buf in
  let buf := blit 64 (le_bytes 4 kPm1aCntPort) buf in
  let buf := blit 76 (le_bytes 4 kPmTmrPort) buf in
  let buf := blit 88 [4] buf in
  let buf := blit 89 [2] buf in
  let buf := blit 91 [4] buf in
  let buf := blit 112 (le_bytes 4 fadt_flags) buf in
  let buf := blit 116 [1; 8; 0; 1] buf in
  let buf := blit 120 (le_bytes 8 kResetPort) buf in
  let buf := blit 128 [kResetValue] buf in
  let buf := blit 131 [1] buf in
  let buf := blit 140 (le_bytes 8 dsdt_addr) buf in
  let buf := blit 148 [1; 32; 0; 3] buf in
  let buf := blit 152 (le_bytes 8 kPm1aEvtPort) buf in
  let buf := blit 172 [1; 16; 0; 2] buf in
  let buf := blit 176 (le_bytes 8 kPm1aCntPort) buf in
  let buf := blit 208 [1; 32; 0; 3] buf in
  let buf := blit 212 (le_bytes 8 kPmTmrPort) buf in
  set_checksum buf.

(** ** MADT, XSDT, RSDP *)

Definition madt_cpu (apic_ids : list Z) (i : Z) : bytes :=
  [0; 8; u8 i; match apic_ids !! Z.to_nat i with Some id => u8 id | None => u8 i end] ++ le_bytes 4 1.

Definition madt_ioapic (num_cpus : Z) : bytes := [1; 12; u8 num_cpus; 0] ++ le_bytes 4 0xFEC00000 ++ le_bytes 4 0.
Definition madt_sci : bytes := [2; 10; 0; 9] ++ le_bytes 4 9 ++ le_bytes 2 0x000F.

Definition madt_body (num_cpus : Z) (apic_ids : list Z) : bytes :=
  le_bytes 4 0xFEE00000 ++ le_bytes 4 0x00000001
  ++ (seqZ 0 num_cpus ≫= madt_cpu apic_ids) ++ madt_ioapic num_cpus ++ madt_sci.

Definition madt_table (num_cpus : Z) (apic_ids : list Z) : bytes :=
  let body := madt_body num_cpus apic_ids in
  set_checksum (FillHeader (str "APIC") (u32 (36 + Z.of_nat (length body))) 3 ++ body).

Definition xsdt_table : bytes :=
  set_checksum (FillHeader (str "XSDT") (36 + 2 * 8) 1 ++ le_bytes 8 kFadt ++ le_bytes 8 kMadt).

Definition rsdp_table : bytes :=
  let rsdp := str "RSD PTR " ++ [0] ++ str "TENBOX" ++ [2] ++ le_bytes 4 0 ++ le_bytes 4 36 ++ le_bytes 8 kXsdt
              ++ [0] ++ [0; 0; 0] in
  let rsdp := <[8%nat := AcpiChecksum (take 20 rsdp)]> rsdp in
  <[32%nat := AcpiChecksum rsdp]> rsdp.

Definition BuildAcpiTables (num_cpus : Z) (virtio_devs : list VirtioMmioAcpiInfo) (apic_ids : list Z)
    (h : HostMem) : option (Z * HostMem) :=
  h ← hm_write h kMadt (replicate 256 0);
  h ← hm_write h kMadt (madt_table num_cpus apic_ids);
  dsdt ← BuildDsdt virtio_devs;
  h ← hm_write h kDsdt dsdt;
  h ← hm_write h kFadt (BuildFadt kDsdt);
  h ← hm_write h kXsdt (replicate 128 0);
  h ← hm_write h kXsdt xsdt_table;
  h ← hm_write h kRsdp rsdp_table;
  Some (kRsdp, h).

(** ** What an operating system reads *)

Definition read_table (h : HostMem) (sig : bytes) (a : Z) : option bytes :=
  hdr ← phys_read h a 36;
  if bool_decide (take 4 hdr = sig) && (36 <=? field 4 4 hdr) then
    t ← phys_read h a (field 4 4 hdr);
    if sum_u8 t =? 0 then Some t else None
  else None.

Inductive MadtEntry :=
| LocalApicEntry (processor_id apic_id flags : Z)
| IoApicEntry (id address gsi_base : Z)
| OverrideEntry (bus source gsi flags : Z).

Fixpoint madt_entries (fuel : nat) (l : bytes) : option (list MadtEntry) :=
  match fuel, l with
  | _, [] => Some []
  | S fuel, 0 :: 8 :: pid :: aid :: l =>
      es ← madt_entries fuel (drop 4 l); Some (LocalApicEntry pid aid (le_val (take 4 l)) :: es)
  | S fuel, 1 :: 12 :: id :: _ :: l =>
      es ← madt_entries fuel (drop 8 l);
      Some (IoApicEntry id (le_val (take 4 l)) (le_val (take 4 (drop 4 l))) :: es)
  | S fuel, 2 :: 10 :: bus :: src :: l =>
      es ← madt_entries fuel (drop 6 l);
      Some (OverrideEntry bus src (le_val (take 4 l)) (le_val (take 2 (drop 4 l))) :: es)
  | _, _ => None
  end.

(** *** AML *)

(** [PkgLength]: the length counts its own bytes.  Result: the rest of the
    package and what follows it. *)
Definition pkg (l : bytes) : option (bytes * bytes) :=
  match l with
  | [] => None
  | b :: l =>
      let n := Z.to_nat (b .>> 6) in
      let len := if (n =? 0)%nat then b .& 0x3F else (b .& 0x0F) .| (le_val (take n l) .<< 4) in
      let l := drop n l in
      let body := Z.to_nat len - (n + 1) in
      if (length l <? body)%nat || (Z.to_nat len <? n + 1)%nat then None
      else Some (take body l, drop body l)
  end%nat.

Inductive AmlData := AmlInt (v : Z) | AmlString (s : bytes) | AmlPackage (l : list AmlData) | AmlBuffer (b : bytes).

(** [n] data objects. *)
Fixpoint aml_data (fuel : nat) (n : nat) (l : bytes) : option (list AmlData * bytes) :=
  match fuel, n with
  | _, O => Some ([], l)
  | O, _ => None
  | S fuel, S n =>
      '(d, l) ← match l with
                | 0x0A :: b :: l => Some (AmlInt b, l)
                | 0x0D :: l => Some (AmlString (c_str l), drop (length (c_str l) + 1) l)
                | 0x12 :: l =>
                    '(body, l) ← pkg l;
                    match body with
                    | k :: body => '(ds, _) ← aml_data fuel (Z.to_nat k) body; Some (AmlPackage ds, l)
                    | [] => None
                    end
                | 0x11 :: l =>
                    '(body, l) ← pkg l;
                    match body with
                    | 0x0A :: k :: body =>
                        if Z.of_nat (length body) =? k then Some (AmlBuffer body, l) else None
                    | _ => None
                    end
                | _ => None
                end;
      '(ds, l) ← aml_data fuel n l;
      Some (d :: ds, l)
  end.

Inductive AmlTerm :=
| AmlName (name : bytes) (v : AmlData)
| AmlScope (name : bytes) (body : list AmlTerm)
| AmlDevice (name : bytes) (body : list AmlTerm).

Fixpoint aml_terms (fuel : nat) (l : bytes) : option (list AmlTerm) :=
  match fuel with
  | O => None
  | S fuel =>
      match l with
      | [] => Some []
      | 0x08 :: l =>
          '(ds, rest) ← aml_data 100 1 (drop 4 l);
          match ds with
          | [d] => ts ← aml_terms fuel rest; Some (AmlName (take 4 l) d :: ts)
          | _ => None
          end
      | 0x10 :: l =>
          '(body, rest) ← pkg l;
          match body with
          | 0x5C :: body =>
              inner ← aml_terms fuel (drop 4 body);
              ts ← aml_terms fuel rest;
              Some (AmlScope (0x5C :: take 4 body) inner :: ts)
          | _ => None
          end
      | 0x5B :: 0x82 :: l =>
          '(body, rest) ← pkg l;
          inner ← aml_terms fuel (drop 4 body);
          ts ← aml_terms fuel rest;
          Some (AmlDevice (take 4 body) inner :: ts)
      | _ => None
      end
  end.

(** *** Devices, power management, the whole *)

(** The resource descriptors of the VMM's devices: one fixed memory range,
    one extended interrupt, the end tag. *)
Definition resources (l : bytes) : option (Z * Z * Z) :=
  match l with
  | 0x86 :: 9 :: 0 :: _ :: l =>
      match drop 8 l with
      | 0x89 :: 6 :: 0 :: _ :: 1 :: irq =>
          match drop 4 irq with
          | [0x79; _] => Some (le_val (take 4 l), le_val (take 4 (drop 4 l)), le_val (take 4 irq))
          | _ => None
          end
      | _ => None
      end
  | _ => None
  end.

Definition lookup_name (name : bytes) (ts : list AmlTerm) : option AmlData :=
  head (omap (fun t => match t with
                       | AmlName n v => if bool_decide (n = name) then Some v else None
                       | _ => None
                       end) ts).

Record AcpiDevice := mkAcpiDevice { ad_name : bytes; ad_hid : bytes; ad_uid : Z; ad_res : Z * Z * Z }.

Definition read_device (t : AmlTerm) : option AcpiDevice :=
  match t with
  | AmlDevice name body =>
      match lookup_name (str "_HID") body, lookup_name (str "_UID") body, lookup_name (str "_CRS") body with
      | Some (AmlString hid), Some (AmlInt uid), Some (AmlBuffer crs) =>
          res ← resources crs; Some (mkAcpiDevice name hid uid res)
      | _, _, _ => None
      end
  | _ => None
  end.

(** The fixed registers: ports, widths, the interrupt, the reset register. *)
Record FadtInfo := mkFadtInfo {
  fi_dsdt : Z; fi_sci : Z; fi_smi_cmd : Z; fi_pm1a_evt : Z * Z; fi_pm1a_cnt : Z * Z; fi_pm_tmr : Z * Z;
  fi_flags : Z; fi_reset : Z * Z
}.

(** A 32-bit register field and its extended form must agree. *)
Definition reg_port (t : bytes) (off xoff : nat) : option Z :=
  if (field 1 xoff t =? 1) && (field 8 (xoff + 4) t =? field 4 off t) then Some (field 4 off t) else None.

Definition read_fadt (t : bytes) : option FadtInfo :=
  evt ← reg_port t 56 148;
  cnt ← reg_port t 64 172;
  tmr ← reg_port t 76 208;
  if negb (field 8 140 t =? field 4 40 t) then None
  else Some (mkFadtInfo (field 8 140 t) (field 2 46 t) (field 4 48 t) (evt, field 1 88 t) (cnt, field 1 89 t)
               (tmr, field 1 91 t) (field 4 112 t) (field 8 120 t, field 1 128 t)).

Record AcpiConfig := mkAcpiConfig {
  ac_lapic : Z; ac_madt_flags : Z; ac_madt : list MadtEntry; ac_fadt : FadtInfo;
  ac_s5 : AmlData; ac_devices : list AcpiDevice
}.

Definition read_rsdp (h : HostMem) (a : Z) : option Z :=
  r ← phys_read h a 36;
  if bool_decide (take 8 r = str "RSD PTR ") && (sum_u8 (take 20 r) =? 0) && (sum_u8 r =? 0)
     && (2 <=? field 1 15 r) && (field 4 20 r =? 36)
  then Some (field 8 24 r) else None.

Definition read_dsdt (t : bytes) : option (AmlData * list AcpiDevice) :=
  ts ← aml_terms (length t) (drop 36 t);
  s5 ← lookup_name (str "_S5_") ts;
  match ts with
  | [_; AmlScope name devs] =>
      if bool_decide (name = 0x5C :: str "_SB_") then ds ← mapM read_device devs; Some (s5, ds) else None
  | _ => None
  end.

Definition acpi_read (h : HostMem) (rsdp : Z) : option AcpiConfig :=
  xsdt ← (read_rsdp h rsdp) ≫= read_table h (str "XSDT");
  if negb (Z.of_nat (length xsdt) =? 52) then None
  else
    fadt ← read_table h (str "FACP") (field 8 36 xsdt);
    madt ← read_table h (str "APIC") (field 8 44 xsdt);
    entries ← madt_entries (length madt) (drop 44 madt);
    fi ← read_fadt fadt;
    '(s5, ds) ← (read_table h (str "DSDT") (fi_dsdt fi)) ≫= read_dsdt;
    Some (mkAcpiConfig (field 4 36 madt) (field 4 40 madt) entries fi s5 ds).

(** What the machine is, in those terms. *)
Definition expected_madt (num_cpus : Z) (apic_ids : list Z) : list MadtEntry :=
  map (fun i => LocalApicEntry i (match apic_ids !! Z.to_nat i with Some id => u8 id | None => i end) 1)
      (seqZ 0 num_cpus)
  ++ [IoApicEntry num_cpus 0xFEC00000 0; OverrideEntry 0 9 9 0x000F].

Definition hex2 (i : Z) : bytes :=
  let d k := default 0 (hex_digit k) in [d (i / 16); d (i mod 16)].

Definition expected_device (i : nat) (d : VirtioMmioAcpiInfo) : AcpiDevice :=
  mkAcpiDevice (str "VR" ++ hex2 (Z.of_nat i)) (str "LNRO0005") (Z.of_nat i) (ai_base d, ai_size d, ai_irq d).

Definition expected_fadt : FadtInfo :=
  mkFadtInfo kDsdt 9 0 (kPm1aEvtPort, 4) (kPm1aCntPort, 2) (kPmTmrPort, 4) 0x530 (kResetPort, kResetValue).

Definition expected_config (num_cpus : Z) (devs : list VirtioMmioAcpiInfo) (apic_ids : list Z) : AcpiConfig :=
  mkAcpiConfig 0xFEE00000 1 (expected_madt num_cpus apic_ids) expected_fadt
    (AmlPackage [AmlInt 5; AmlInt 5; AmlInt 0; AmlInt 0]) (imap expected_device devs).

Definition demo_mem : HostMem := MkHostMem (MkGuestMemMap 0x8000000 0 0x8000000 0 0) ∅.
Definition demo_devs : list VirtioMmioAcpiInfo :=
  [mkAcpiInfo 0xd0000000 0x200 5; mkAcpiInfo 0xd0000200 0x200 6; mkAcpiInfo 0xd0000400 0x200 11].

Example demo_parses : (r ← BuildAcpiTables 4 demo_devs [0; 2; 4; 6] demo_mem; acpi_read (snd r) (fst r))
  = Some (expected_config 4 demo_devs [0; 2; 4; 6]).
Proof. vm_compute. reflexivity. Qed.

Example demo_overwritten : (r ← BuildAcpiTables 24 demo_devs [] demo_mem; acpi_read (snd r) (fst r)) = None.
Proof. vm_compute. reflexivity. Qed.

(** ** Checksums and headers *)

Definition zsum (l : bytes) : Z := foldr Z.add 0 l.

Lemma zsum_insert l i x y : l !! i = Some x -> zsum (<[i := y]> l) = zsum l - x + y.
Proof.
  revert i. induction l as [|b l IH]; intros [|i] H; [done|done|injection H as ->; cbn; lia|].
  change (b + zsum (<[i := y]> l) = b + zsum l - x + y). rewrite (IH i) by done. lia.
Qed.

Lemma sum_u8_zsum l : sum_u8 l = u8 (zsum l).
Proof.
  unfold sum_u8. assert (H : forall s, fold_left (fun sum p => u8 (sum + p)) l (u8 s) = u8 (s + zsum l)); [|exact (H 0)].
  induction l as [|b l IH]; intros s; cbn [fold_left]; [cbn; by rewrite Z.add_0_r|].
  by rewrite IH, <- Z.add_assoc, wrap_add_l.
Qed.

(** A byte that holds 0 replaced by the checksum makes the sum vanish. *)
Lemma checksum_insert l i : l !! i = Some 0 -> sum_u8 (<[i := AcpiChecksum l]> l) = 0.
Proof.
  intros H. rewrite sum_u8_zsum, (zsum_insert l i 0) by done. unfold AcpiChecksum. rewrite sum_u8_zsum.
  rewrite wrap_add_r. replace (zsum l - 0 + - u8 (zsum l)) with (zsum l - u8 (zsum l)) by lia. rewrite wrap_sub_r.
  by rewrite Z.sub_diag.
Qed.

Definition header_tail : bytes := str "TENBOX" ++ str "TENBOX  " ++ le_bytes 4 1 ++ str "TNBX" ++ le_bytes 4 1.

Definition table (sig : bytes) (len rev : Z) (body : bytes) : bytes := set_checksum (FillHeader sig len rev ++ body).

Lemma table_eq sig len rev body :
  length sig = 4%nat -> exists c, table sig len rev body = sig ++ le_bytes 4 len ++ [rev; c] ++ header_tail ++ body.
Proof.
  intros Hs. exists (AcpiChecksum (FillHeader sig len rev ++ body)). unfold table, set_checksum. generalize (AcpiChecksum (FillHeader sig len rev ++ body)).
  intros c. unfold FillHeader. do 5 (destruct sig as [|? sig]; try discriminate Hs). reflexivity.
Qed.

(** A table as the reader of tables sees it. *)
Definition table_wf (sig t : bytes) : Prop :=
  take 4 t = sig /\ field 4 4 t = Z.of_nat (length t) /\ (36 <= length t)%nat /\ sum_u8 t = 0.

Lemma table_ok sig rev body :
  length sig = 4%nat -> Z.of_nat (36 + length body) < 2 ^ 32 ->
  let t := table sig (Z.of_nat (36 + length body)) rev body in
  table_wf sig t /\ length t = (36 + length body)%nat /\ drop 36 t = body.
Proof.
  intros Hs Hl t. assert (Hsum : sum_u8 t = 0).
  { apply checksum_insert. unfold FillHeader. do 5 (destruct sig as [|? sig]; try discriminate Hs). reflexivity. }
  unfold table_wf. rewrite Hsum. clear Hsum. unfold t. destruct (table_eq sig (Z.of_nat (36 + length body)) rev body Hs) as [c ->].
  assert (Hlen : length (sig ++ le_bytes 4 (Z.of_nat (36 + length body)) ++ [rev; c] ++ header_tail ++ body) = (36 + length body)%nat).
  { rewrite !length_app, length_le_bytes, Hs. change (length header_tail) with 26%nat. cbn. lia. }
  rewrite Hlen. split_and!; [by rewrite take_app_length'| |lia|done|done|].
  - apply field_encoded; [done|]. unfold in_width. lia.
  - do 5 (destruct sig as [|? sig]; try discriminate Hs). reflexivity.
Qed.

(** ** Memory *)

Lemma read_table_ok lim h sig a t :
  low_ram lim h -> 0 <= a -> a + Z.of_nat (length t) <= lim -> table_wf sig t ->
  peek (hm_bytes h) a (Z.of_nat (length t)) = t -> read_table h sig a = Some t.
Proof.
  intros Hm Ha Hl (Hsig & Hlen & H36 & Hsum) Hp. unfold read_table.
  rewrite (phys_read_low lim) by (done || lia). rewrite (peek_take _ _ 36 (Z.of_nat (length t))), Hp by lia. cbn [mbind option_bind].
  change (Z.to_nat 36) with 36%nat. rewrite take_take. change (4 `min` 36)%nat with 4%nat. rewrite Hsig, bool_decide_true by done.
  replace (field 4 4 (take 36 t)) with (field 4 4 t).
  2:{ unfold field. rewrite skipn_firstn_comm, take_take. done. }
  rewrite Hlen, (proj2 (Z.leb_le _ _)) by lia. cbn [andb].
  rewrite (phys_read_low lim), Hp by (done || lia). cbn [mbind option_bind]. by rewrite Hsum.
Qed.

(** ** MADT *)

Definition cpu_entry (apic_ids : list Z) (i : Z) : MadtEntry :=
  LocalApicEntry i (match apic_ids !! Z.to_nat i with Some id => u8 id | None => i end) 1.

Lemma madt_cpus_read ids rest fuel n : forall a,
  0 <= a -> a + Z.of_nat n <= 256 ->
  madt_entries (n + fuel) ((seqZ a (Z.of_nat n) ≫= madt_cpu ids) ++ rest)
  = es ← madt_entries fuel rest; Some (map (cpu_entry ids) (seqZ a (Z.of_nat n)) ++ es).
Proof.
  induction n as [|n IH]; intros a Ha Hn.
  - change (madt_entries fuel rest = (es ← madt_entries fuel rest; Some ([] ++ es))). by destruct (madt_entries fuel rest).
  - rewrite seqZ_cons by lia. replace (Z.pred (Z.of_nat (S n))) with (Z.of_nat n) by lia.
    rewrite bind_cons, <- app_assoc. unfold madt_cpu at 1. rewrite (wrap_small 8 a) by (unfold in_width; lia).
    cbn [app madt_entries Nat.add le_bytes drop take]. rewrite !drop_0, take_0. unfold Z.succ. rewrite IH by lia.
    destruct (madt_entries fuel rest); reflexivity.
Qed.

Lemma length_madt_body n ids : 0 <= n -> Z.of_nat (length (madt_body n ids)) = 30 + 8 * n.
Proof.
  intros Hn. unfold madt_body. rewrite !length_app.
  assert (H : forall l, length (l ≫= madt_cpu ids) = (8 * length l)%nat).
  { induction l as [|x l IH]; [done|]. rewrite bind_cons, length_app, IH. cbn. lia. }
  rewrite H, length_seqZ. change (length (madt_ioapic n)) with 12%nat. change (length madt_sci) with 10%nat.
  cbn [length le_bytes]. lia.
Qed.

Lemma madt_read n ids fuel :
  0 <= n <= 255 -> (Z.to_nat n + 2 <= fuel)%nat ->
  madt_entries fuel (drop 8 (madt_body n ids)) = Some (expected_madt n ids).
Proof.
  intros Hn Hf. unfold madt_body, expected_madt.
  replace fuel with (Z.to_nat n + S (S (fuel - Z.to_nat n - 2)))%nat by lia.
  change (drop 8 (le_bytes 4 0xFEE00000 ++ le_bytes 4 1 ++ ?l)) with l.
  assert (Hseq : seqZ 0 n = seqZ 0 (Z.of_nat (Z.to_nat n))) by (by rewrite Z2Nat.id by lia).
  rewrite Hseq, madt_cpus_read by lia.
  replace (madt_entries _ _) with (Some [IoApicEntry n 0xFEC00000 0; OverrideEntry 0 9 9 0x000F]); [done|].
  unfold madt_ioapic. rewrite (wrap_small 8 n) by (unfold in_width; lia).
  cbn [app madt_entries le_bytes madt_sci take drop]. destruct (fuel - Z.to_nat n - 2)%nat; reflexivity.
Qed.

(** ** AML *)

Lemma pkg_short body rest :
  (length body < 63)%nat -> pkg (Z.of_nat (1 + length body) :: body ++ rest) = Some (body, rest).
Proof.
  intros Hl. unfold pkg.
  assert (E : Z.shiftr (Z.of_nat (1 + length body)) 6 = 0).
  { rewrite Z.shiftr_div_pow2 by lia. apply Z.div_small. lia. }
  rewrite E. change (Z.to_nat 0) with 0%nat. cbn [Nat.eqb drop].
  assert (E2 : Z.land (Z.of_nat (1 + length body)) 0x3F = Z.of_nat (1 + length body)).
  { change 0x3F with (Z.ones 6). rewrite Z.land_ones by lia. apply Z.mod_small. lia. }
  rewrite E2, Nat2Z.id. replace (1 + length body - (0 + 1))%nat with (length body) by lia.
  rewrite drop_0, (proj2 (Nat.ltb_ge _ _)), (proj2 (Nat.ltb_ge (1 + _) _)) by (rewrite ?length_app; lia). cbn [orb].
  by rewrite take_app_length, drop_app_length.
Qed.

(** The two-byte form. *)
Lemma pkg_long v body rest :
  v = Z.of_nat (2 + length body) -> v < 4096 ->
  pkg (u8 ((v .& 0x0F) .| 0x40) :: u8 (v .>> 4) :: body ++ rest) = Some (body, rest).
Proof.
  intros Hv Hl. unfold pkg.
  assert (E : Z.shiftr (u8 ((v .& 0x0F) .| 0x40)) 6 = 1).
  { change 0x0F with (Z.ones 4). change 0x40 with (2 ^ 6). change 1 with (2 ^ 0). bitwise. }
  rewrite E. change (Z.to_nat 1) with 1%nat. cbn [Nat.eqb drop take]. rewrite take_0, drop_0.
  assert (E2 : Z.lor (Z.land (u8 ((v .& 0x0F) .| 0x40)) 0x0F) (Z.shiftl (le_val [u8 (v .>> 4)]) 4) = v).
  { cbn [le_val]. rewrite Z.mul_0_r, Z.add_0_r. assert (Hw : in_width 12 v) by (unfold in_width; lia).
    change 0x0F with (Z.ones 4). change 0x40 with (2 ^ 6). bitwise. }
  rewrite E2, Hv, Nat2Z.id. replace (2 + length body - (1 + 1))%nat with (length body) by lia.
  rewrite (proj2 (Nat.ltb_ge _ _)), (proj2 (Nat.ltb_ge (2 + _) _)) by (rewrite ?length_app; lia). cbn [orb].
  by rewrite take_app_length, drop_app_length.
Qed.

Lemma read_name fuel name data d rest :
  length name = 4%nat -> aml_data 100 1 data = Some ([d], rest) ->
  aml_terms (S fuel) (0x08 :: name ++ data) = ts ← aml_terms fuel rest; Some (AmlName name d :: ts).
Proof.
  intros Hn Hd. cbn [aml_terms]. rewrite drop_app_length', Hd, take_app_length' by done. reflexivity.
Qed.

Lemma read_pkg_device fuel l name body rest :
  length name = 4%nat -> pkg l = Some (name ++ body, rest) ->
  aml_terms (S fuel) (0x5B :: 0x82 :: l)
  = inner ← aml_terms fuel body; ts ← aml_terms fuel rest; Some (AmlDevice name inner :: ts).
Proof.
  intros Hn Hp. cbn [aml_terms]. rewrite Hp. cbn [mbind option_bind]. by rewrite drop_app_length', take_app_length' by done.
Qed.

Lemma read_pkg_scope fuel l name body rest :
  length name = 4%nat -> pkg l = Some (0x5C :: name ++ body, rest) ->
  aml_terms (S fuel) (0x10 :: l)
  = inner ← aml_terms fuel body; ts ← aml_terms fuel rest; Some (AmlScope (0x5C :: name) inner :: ts).
Proof.
  intros Hn Hp. cbn [aml_terms]. rewrite Hp. cbn [mbind option_bind]. by rewrite drop_app_length', take_app_length' by done.
Qed.

Definition device_terms (i : Z) (d : VirtioMmioAcpiInfo) : list AmlTerm :=
  [AmlName (str "_HID") (AmlString (str "LNRO0005")); AmlName (str "_UID") (AmlInt i);
   AmlName (str "_CRS") (AmlBuffer (crs_bytes d))].

Definition device_body (i : Z) (d : VirtioMmioAcpiInfo) : bytes :=
  0x08 :: str "_HID" ++ ([0x0D] ++ str "LNRO0005" ++ [0x00])
  ++ 0x08 :: str "_UID" ++ [0x0A; i] ++ 0x08 :: str "_CRS" ++ [0x11; 0x1A; 0x0A; 0x17] ++ crs_bytes d.

Lemma read_device_body fuel i d : aml_terms (4 + fuel) (device_body i d) = Some (device_terms i d).
Proof.
  unfold device_body, device_terms. set (crs := 0x08 :: str "_CRS" ++ [0x11; 0x1A; 0x0A; 0x17] ++ crs_bytes d).
  set (uid := 0x08 :: str "_UID" ++ [0x0A; i] ++ crs).
  change (4 + fuel)%nat with (S (3 + fuel)). rewrite (read_name _ _ _ (AmlString (str "LNRO0005")) uid) by reflexivity.
  change (3 + fuel)%nat with (S (2 + fuel)). unfold uid. rewrite (read_name _ _ _ (AmlInt i) crs) by reflexivity.
  change (2 + fuel)%nat with (S (1 + fuel)). unfold crs. rewrite (read_name _ _ _ (AmlBuffer (crs_bytes d)) []) by reflexivity.
  reflexivity.
Qed.

Lemma hex_digits_some i : 0 <= i < 256 -> exists hi lo, hex_digit (i / 16) = Some hi /\ hex_digit (i mod 16) = Some lo /\ hex2 i = [hi; lo].
Proof.
  intros Hi. assert (H : forall k, 0 <= k < 16 -> exists x, hex_digit k = Some x).
  { intros k Hk. apply lookup_lt_is_Some_2. change (length _) with 17%nat. lia. }
  destruct (H (i / 16)) as [hi Ehi]; [dlia|]. destruct (H (i mod 16)) as [lo Elo]; [dlia|].
  exists hi, lo. unfold hex2. by rewrite Ehi, Elo.
Qed.

Definition device_term (i : Z) (d : VirtioMmioAcpiInfo) : AmlTerm := AmlDevice (str "VR" ++ hex2 i) (device_terms i d).

Lemma dsdt_devices_read devs fuel : forall i,
  0 <= i -> i + Z.of_nat (length devs) <= 256 ->
  exists bs, dsdt_devices i devs = Some bs /\ length bs = (61 * length devs)%nat
    /\ aml_terms (length devs + 5 + fuel) bs = Some (imap (fun k d => device_term (i + Z.of_nat k) d) devs).
Proof.
  induction devs as [|d devs IH]; intros i Hi Hl; [by exists []|]. cbn [length] in Hl.
  destruct (IH (i + 1)) as (bs & E & Hb & Hr); [lia..|]. destruct (hex_digits_some i) as (hi & lo & Ehi & Elo & Eh); [lia|].
  cbn [dsdt_devices]. unfold dsdt_device. rewrite Ehi, Elo, E, (wrap_small 8 i) by (unfold in_width; lia). cbn [mbind option_bind].
  eexists. split; [reflexivity|]. split; [rewrite length_app, Hb; cbn; lia|].
  set (body := (str "VR" ++ hex2 i) ++ device_body i d).
  assert (Hbody : length body = 58%nat) by (unfold body; rewrite Eh; reflexivity).
  replace (_ ++ bs) with (0x5B :: 0x82 :: Z.of_nat (1 + length body) :: body ++ bs).
  2:{ rewrite Hbody. unfold body. rewrite Eh. unfold device_body. cbn [app str]. reflexivity. }
  change (length (d :: devs) + 5 + fuel)%nat with (S (length devs + 5 + fuel)).
  rewrite (read_pkg_device _ _ (str "VR" ++ hex2 i) (device_body i d) bs); [|by rewrite Eh|apply (pkg_short body); lia].
  replace (length devs + 5 + fuel)%nat with (4 + (length devs + 1 + fuel))%nat at 1 by lia.
  rewrite read_device_body. cbn [mbind option_bind]. rewrite Hr. cbn [mbind option_bind imap].
  change (AmlDevice _ _) with (device_term i d). rewrite Z.add_0_r. do 2 f_equal. apply imap_ext. intros k x _. unfold compose. f_equal. lia.
Qed.

Definition dev_ok (d : VirtioMmioAcpiInfo) : Prop :=
  in_width 32 (ai_base d) /\ in_width 32 (ai_size d) /\ in_width 32 (ai_irq d).

Lemma le4_bytes v : in_width 32 v -> exists a b c d, le_bytes 4 v = [a; b; c; d] /\ le_val [a; b; c; d] = v.
Proof.
  intros Hv. do 4 eexists. split; [reflexivity|]. change (le_val (le_bytes 4 v) = v). rewrite le_val_le_bytes. by apply Z.mod_small.
Qed.

Lemma resources_crs d : dev_ok d -> resources (crs_bytes d) = Some (ai_base d, ai_size d, ai_irq d).
Proof.
  intros (Hb & Hs & Hi). unfold crs_bytes.
  destruct (le4_bytes _ Hb) as (? & ? & ? & ? & -> & Eb). destruct (le4_bytes _ Hs) as (? & ? & ? & ? & -> & Es).
  destruct (le4_bytes _ Hi) as (? & ? & ? & ? & -> & Ei). rewrite <- Eb, <- Es, <- Ei at 1. reflexivity.
Qed.

Lemma read_device_term i d : dev_ok d ->
  read_device (device_term (Z.of_nat i) d) = Some (expected_device i d).
Proof.
  intros Hd. unfold device_term, read_device, device_terms.
  change (lookup_name (str "_HID") _) with (Some (AmlString (str "LNRO0005"))).
  change (lookup_name (str "_UID") _) with (Some (AmlInt (Z.of_nat i))).
  change (lookup_name (str "_CRS") _) with (Some (AmlBuffer (crs_bytes d))). cbv iota.
  by rewrite resources_crs.
Qed.

Lemma read_devices devs : Forall dev_ok devs ->
  mapM read_device (imap (fun k d => device_term (0 + Z.of_nat k) d) devs) = Some (imap expected_device devs).
Proof.
  intros Hok. apply mapM_Some. apply Forall2_same_length_lookup. rewrite !length_imap. split; [done|].
  intros k t e. rewrite !list_lookup_imap. destruct (devs !! k) as [d|] eqn:Hk; [|done]. intros [= <-] [= <-].
  apply read_device_term. by eapply Forall_lookup_1.
Qed.

(** What [read_dsdt] makes of a table with this scope. *)
Lemma dsdt_terms_read t pk bs devs :
  Forall dev_ok devs -> drop 36 t = s5_object ++ 0x10 :: pk ->
  pkg pk = Some (0x5C :: str "_SB_" ++ bs, []) -> (length devs + 7 <= length t)%nat ->
  (forall fuel, aml_terms (length devs + 5 + fuel) bs = Some (imap (fun k d => device_term (0 + Z.of_nat k) d) devs)) ->
  read_dsdt t = Some (AmlPackage [AmlInt 5; AmlInt 5; AmlInt 0; AmlInt 0], imap expected_device devs).
Proof.
  intros Hok Ht Hp Hl Hr. unfold read_dsdt. rewrite Ht.
  replace (length t) with (S (S (length devs + 5 + (length t - length devs - 7)))) by lia. set (fuel := (length t - length devs - 7)%nat).
  change (s5_object ++ ?l) with (0x08 :: str "_S5_" ++ ([0x12; 0x0A; 0x04; 0x0A; 0x05; 0x0A; 0x05; 0x0A; 0x00; 0x0A; 0x00] ++ l)).
  rewrite (read_name _ _ _ (AmlPackage [AmlInt 5; AmlInt 5; AmlInt 0; AmlInt 0]) (0x10 :: pk)) by reflexivity.
  rewrite (read_pkg_scope _ _ (str "_SB_") bs []) by done. rewrite Hr. cbn [mbind option_bind].
  replace (aml_terms _ []) with (Some (@nil AmlTerm)) by (by rewrite <- Nat.add_assoc, Nat.add_comm). cbn [mbind option_bind].
  change (lookup_name (str "_S5_") _) with (Some (AmlPackage [AmlInt 5; AmlInt 5; AmlInt 0; AmlInt 0])). cbn [mbind option_bind].
  rewrite bool_decide_true by done. by rewrite read_devices.
Qed.

Lemma scope_pkglen_ok scope :
  (length scope <= 4090)%nat -> let n := Z.of_nat (length scope) in
  pkg (scope_pkglen n ++ scope) = Some (scope, []) /\ Z.of_nat (length (scope_pkglen n)) = scope_pkglen_sz n
  /\ 1 <= scope_pkglen_sz n <= 2.
Proof.
  intros Hl n. unfold scope_pkglen, scope_pkglen_sz. rewrite (wrap_small 32 (n + 1)) by (unfold in_width; lia).
  rewrite <- (app_nil_r scope) at 1. destruct (Z.leb_spec (n + 1) 63); cbn [Z.eqb Pos.eqb app length]; (split; [|lia]).
  - rewrite (wrap_small 32), (wrap_small 8) by (unfold in_width; lia).
    replace (1 + n) with (Z.of_nat (1 + length scope)) by lia. apply pkg_short. lia.
  - rewrite (wrap_small 32) by (unfold in_width; lia). apply pkg_long; lia.
Qed.

(** The differentiated table, for as many devices as its length field takes. *)
Lemma dsdt_read devs :
  (length devs <= 66)%nat -> Forall dev_ok devs ->
  exists t, BuildDsdt devs = Some t /\ table_wf (str "DSDT") t /\ (length t <= 4100)%nat
    /\ read_dsdt t = Some (AmlPackage [AmlInt 5; AmlInt 5; AmlInt 0; AmlInt 0], imap expected_device devs).
Proof.
  intros Hn Hok. destruct (dsdt_devices_read devs 0 0) as (bs & E & Hb & _); [lia..|].
  assert (Hr : forall fuel, aml_terms (length devs + 5 + fuel) bs = Some (imap (fun k d => device_term (0 + Z.of_nat k) d) devs)).
  { intros fuel. destruct (dsdt_devices_read devs fuel 0) as (bs' & E' & _ & H'); [lia..|]. by simplify_eq. }
  unfold BuildDsdt. rewrite E. unfold kDevEntry, kS5Size. cbn [mbind option_bind].
  set (scope := 0x5C :: str "_SB_" ++ bs). change ([0x5C] ++ str "_SB_" ++ bs) with scope.
  assert (Hscope : length scope = (5 + 61 * length devs)%nat) by (unfold scope; cbn [length]; by rewrite length_app, Hb).
  rewrite (wrap_small 32 (Z.of_nat _)), (wrap_small 32 (_ * 61)), (wrap_small 32 (5 + _)) by (unfold in_width; lia).
  replace (5 + Z.of_nat (length devs) * 61) with (Z.of_nat (length scope)) by lia.
  destruct (scope_pkglen_ok scope) as (Hpk & Hlpk & Hsz); [lia|]. cbv zeta in *.
  set (pk := scope_pkglen _ ++ scope) in *. set (body := s5_object ++ [0x10] ++ pk).
  assert (Hbody : length body = (17 + length pk)%nat) by (unfold body; rewrite !length_app; reflexivity).
  assert (Hlen : Z.of_nat (length pk) = scope_pkglen_sz (Z.of_nat (length scope)) + Z.of_nat (length scope)).
  { unfold pk. rewrite length_app. lia. }
  rewrite (wrap_small 32 (1 + _ + _)), wrap_small by (unfold in_width; lia).
  replace (36 + 16 + _) with (Z.of_nat (36 + length body)) by lia.
  destruct (table_ok (str "DSDT") 2 body) as (Hwf & Ht & Hdrop); [done|lia|].
  eexists. split; [reflexivity|]. split; [exact Hwf|]. change (set_checksum _) with (table (str "DSDT") (Z.of_nat (36 + length body)) 2 body).
  split; [lia|]. eapply (dsdt_terms_read _ pk bs); [done|exact Hdrop|exact Hpk|lia|done].
Qed.

(** ** The tables in memory *)

Lemma acpi_layout : kRsdp = 0x4000 /\ kXsdt = 0x4100 /\ kMadt = 0x4200 /\ kFadt = 0x4300 /\ kDsdt = 0x4500.
Proof. done. Qed.

Lemma madt_table_ok n ids :
  0 <= n <= 23 -> let t := madt_table n ids in
  table_wf (str "APIC") t /\ Z.of_nat (length t) = 66 + 8 * n
  /\ drop 36 t = madt_body n ids.
Proof.
  intros Hn t. pose proof (length_madt_body n ids) as Hb.
  destruct (table_ok (str "APIC") 3 (madt_body n ids)) as (Hwf & Hl & Hd); [done|lia|].
  unfold table in *. unfold t, madt_table.
  replace (u32 (36 + Z.of_nat (length (madt_body n ids)))) with (Z.of_nat (36 + length (madt_body n ids))).
  2:{ rewrite wrap_small by (unfold in_width; lia). lia. }
  split; [done|]. split; [lia|done].
Qed.

(** The tables at their places. *)
Definition acpi_in_mem (n : Z) (ids : list Z) (dsdt : bytes) (h : HostMem) : Prop :=
  let at_ a k := peek (hm_bytes h) a k in
  at_ kRsdp 36 = rsdp_table /\ at_ kXsdt 52 = xsdt_table /\ at_ kMadt (66 + 8 * n) = madt_table n ids
  /\ at_ kFadt 268 = BuildFadt kDsdt /\ at_ kDsdt (Z.of_nat (length dsdt)) = dsdt.

(** They stay there while nobody writes below 0x7000. *)
Lemma acpi_in_mem_keeps n ids dsdt h h' :
  (forall a k, 0x4000 <= a -> a + k <= 0x7000 -> peek (hm_bytes h') a k = peek (hm_bytes h) a k) ->
  0 <= n <= 23 -> (length dsdt <= 4100)%nat -> acpi_in_mem n ids dsdt h -> acpi_in_mem n ids dsdt h'.
Proof.
  intros Hk Hn Hd (H1 & H2 & H3 & H4 & H5). unfold acpi_in_mem. pose proof acpi_layout.
  rewrite !Hk by lia. split_and!; [exact H1|exact H2|exact H3|exact H4|exact H5].
Qed.

Lemma BuildAcpiTables_mem n devs ids dsdt h :
  low_ram 0x7000 h -> 0 <= n <= 23 -> BuildDsdt devs = Some dsdt -> (length dsdt <= 4100)%nat ->
  exists h', BuildAcpiTables n devs ids h = Some (kRsdp, h') /\ keeps 0x4000 0x7000 h h' /\ acpi_in_mem n ids dsdt h'.
Proof.
  intros (Hb & Hl & Ha) Hn E Hd. unfold acpi_in_mem. destruct (madt_table_ok n ids Hn) as (_ & Hm & _). rewrite <- Hm. pose proof acpi_layout.
  assert (Hx : 52 = Z.of_nat (length xsdt_table)) by reflexivity.
  assert (Hr : 36 = Z.of_nat (length rsdp_table)) by reflexivity.
  assert (Hf : 268 = Z.of_nat (length (BuildFadt kDsdt))) by reflexivity.
  rewrite Hx, Hr, Hf. unfold BuildAcpiTables. rewrite E. clear E. cbn [mbind option_bind].
  generalize dependent rsdp_table. generalize dependent xsdt_table. generalize dependent (BuildFadt kDsdt).
  generalize dependent (madt_table n ids). intros tm Hm tf Hf tx Hx tr Hr. do 7 write_step.
  eexists. split; [reflexivity|]. cbn [hm_map hm_bytes].
  split_and!; [split; [reflexivity|]; intros a k Hak; cbn [hm_bytes]; peek_poke; reflexivity|peek_poke..].
Qed.

Lemma xsdt_wf : table_wf (str "XSDT") xsdt_table.
Proof. unfold table_wf. split_and!; [reflexivity|reflexivity|apply Nat.leb_le; reflexivity|reflexivity]. Qed.

Lemma fadt_wf : table_wf (str "FACP") (BuildFadt kDsdt).
Proof. unfold table_wf. split_and!; [reflexivity|reflexivity|apply Nat.leb_le; reflexivity|reflexivity]. Qed.

Lemma xsdt_fields : (Z.of_nat (length xsdt_table) =? 52) = true /\ field 8 36 xsdt_table = kFadt /\ field 8 44 xsdt_table = kMadt.
Proof. vm_compute. done. Qed.

Lemma fadt_fields : read_fadt (BuildFadt kDsdt) = Some expected_fadt.
Proof. vm_compute. done. Qed.

Lemma rsdp_fields :
  take 8 rsdp_table = str "RSD PTR " /\ sum_u8 (take 20 rsdp_table) = 0 /\ sum_u8 rsdp_table = 0
  /\ field 1 15 rsdp_table = 2 /\ field 4 20 rsdp_table = 36 /\ field 8 24 rsdp_table = kXsdt.
Proof. vm_compute. done. Qed.

Lemma read_rsdp_ok h : low_ram 0x7000 h -> peek (hm_bytes h) kRsdp 36 = rsdp_table -> read_rsdp h kRsdp = Some kXsdt.
Proof.
  intros Hm Hp. unfold read_rsdp. pose proof acpi_layout. rewrite (phys_read_low 0x7000), Hp by (exact Hm || lia). cbn [mbind option_bind].
  destruct rsdp_fields as (-> & -> & -> & -> & -> & ->). by rewrite bool_decide_true by done.
Qed.

Lemma madt_fields n ids t :
  drop 36 t = madt_body n ids -> Z.of_nat (length t) = 66 + 8 * n -> 0 <= n <= 23 ->
  madt_entries (length t) (drop 44 t) = Some (expected_madt n ids) /\ field 4 36 t = 0xFEE00000 /\ field 4 40 t = 1.
Proof.
  intros Hd Hl Hn. change 44%nat with (36 + 8)%nat. rewrite <- drop_drop, Hd. split; [apply madt_read; lia|].
  unfold field. change 40%nat with (36 + 4)%nat. rewrite <- drop_drop, !Hd. done.
Qed.

(** The reader, one step after the other. *)
Lemma acpi_read_steps h a xa xsdt fadt madt dsdt entries fi s5 ds lapic flags :
  read_rsdp h a = Some xa -> read_table h (str "XSDT") xa = Some xsdt -> (Z.of_nat (length xsdt) =? 52) = true ->
  read_table h (str "FACP") (field 8 36 xsdt) = Some fadt -> read_table h (str "APIC") (field 8 44 xsdt) = Some madt ->
  madt_entries (length madt) (drop 44 madt) = Some entries -> read_fadt fadt = Some fi ->
  read_table h (str "DSDT") (fi_dsdt fi) = Some dsdt -> read_dsdt dsdt = Some (s5, ds) ->
  field 4 36 madt = lapic -> field 4 40 madt = flags ->
  acpi_read h a = Some (mkAcpiConfig lapic flags entries fi s5 ds).
Proof.
  intros Hr Hx H52 Hf Hm He Hfi Hd Hread <- <-. unfold acpi_read. rewrite Hr. cbn [mbind option_bind]. rewrite Hx. cbn [mbind option_bind].
  rewrite H52, Hf. cbn [mbind option_bind negb]. rewrite Hm. cbn [mbind option_bind]. rewrite He. cbn [mbind option_bind].
  rewrite Hfi. cbn [mbind option_bind]. rewrite Hd. cbn [mbind option_bind]. by rewrite Hread.
Qed.

Lemma acpi_in_mem_read num_cpus devs apic_ids dsdt h :
  low_ram 0x7000 h -> 0 <= num_cpus <= 23 -> acpi_in_mem num_cpus apic_ids dsdt h -> (length dsdt <= 4100)%nat ->
  table_wf (str "DSDT") dsdt ->
  read_dsdt dsdt = Some (AmlPackage [AmlInt 5; AmlInt 5; AmlInt 0; AmlInt 0], imap expected_device devs) ->
  acpi_read h kRsdp = Some (expected_config num_cpus devs apic_ids).
Proof.
  intros Hm' Hn (Hrsdp & Hxsdt & Hmadt & Hfadt & Hdsdt) Hlen Hwf Hread.
  destruct (madt_table_ok num_cpus apic_ids Hn) as (Hmwf & Hml & Hmd).
  assert (T : forall sig a n t, table_wf sig t -> Z.of_nat (length t) = n -> 0 <= a /\ a + n <= 0x7000 ->
    peek (hm_bytes h) a n = t -> read_table h sig a = Some t).
  { intros sig a n t Ht <- [] Hp. by apply (read_table_ok 0x7000). }
  pose proof acpi_layout as Hlay.
  pose proof (read_rsdp_ok h Hm' Hrsdp) as Hr.
  assert (Hx : read_table h (str "XSDT") kXsdt = Some xsdt_table).
  { refine (T _ _ _ _ xsdt_wf _ _ Hxsdt); [reflexivity|lia]. }
  assert (Hf : read_table h (str "FACP") kFadt = Some (BuildFadt kDsdt)).
  { refine (T _ _ _ _ fadt_wf _ _ Hfadt); [reflexivity|lia]. }
  assert (Hma : read_table h (str "APIC") kMadt = Some (madt_table num_cpus apic_ids)).
  { refine (T _ _ _ _ Hmwf Hml _ Hmadt). lia. }
  assert (Hds : read_table h (str "DSDT") kDsdt = Some dsdt).
  { refine (T _ _ _ _ Hwf eq_refl _ Hdsdt). lia. }
  destruct (madt_fields num_cpus apic_ids _ Hmd Hml Hn) as (He & Hla & Hfl). destruct xsdt_fields as (H52 & Ef & Em).
  rewrite <- Ef in Hf. rewrite <- Em in Hma.
  exact (acpi_read_steps _ _ _ _ _ _ _ _ _ _ _ _ _ Hr Hx H52 Hf Hma He fadt_fields Hds Hread Hla Hfl).
Qed.

(** C28. An operating system that reads the tables from the RSDP finds the
    machine that was described: every processor with its APIC id, the I/O
    APIC and the SCI's polarity, the power management ports of the PM
    device, the sleep type that powers off, and each virtio device in order
    with its name, memory window and interrupt.  Every signature, length and
    checksum on the way is right, and memory outside [0x4000, 0x7000) is not
    touched.  The bound on the processors is the space between MADT and
    FADT. *)
Theorem acpi_tables_roundtrip num_cpus devs apic_ids h :
  low_ram 0x7000 h -> 0 <= num_cpus <= 23 -> (length devs <= 66)%nat -> Forall dev_ok devs ->
  exists h', BuildAcpiTables num_cpus devs apic_ids h = Some (kRsdp, h')
    /\ acpi_read h' kRsdp = Some (expected_config num_cpus devs apic_ids)
    /\ keeps 0x4000 0x7000 h h'.
Proof.
  intros Hm Hn Hd Hok. destruct (dsdt_read devs Hd Hok) as (dsdt & E & Hwf & Hlen & Hread).
  destruct (BuildAcpiTables_mem num_cpus devs apic_ids dsdt h Hm Hn E Hlen) as (h' & Hbuild & Hkeep & Hin).
  exists h'. split; [exact Hbuild|]. split; [|exact Hkeep].
  by eapply acpi_in_mem_read; [exact (keeps_bank _ _ _ _ _ _ Hkeep Hm)|exact Hn|exact Hin|exact Hlen|exact Hwf|].
Qed.

Lemma acpi_tables_roundtrip_witness :
  exists h', BuildAcpiTables 4 demo_devs [0; 2; 4; 6] demo_mem = Some (kRsdp, h')
    /\ acpi_read h' kRsdp = Some (expected_config 4 demo_devs [0; 2; 4; 6]).
Proof.
  destruct (acpi_tables_roundtrip 4 demo_devs [0; 2; 4; 6] demo_mem) as (h' & H1 & H2 & _).
  - split_and!; done.
  - lia.
  - cbn. lia.
  - repeat constructor; done.
  - exists h'. exact (conj H1 H2).
Defined.
