(* ===== verification/X86Boot.v ===== *)
(** * Direct boot of a Linux kernel on x86

    Models core/arch/x86_64/boot.{h,cpp}: [LoadLinuxKernel] checks a bzImage,
    copies its protected-mode part to 1 MiB and fills the zero page
    ([boot_params]), the command line, the initial RAM disk, the memory map,
    the ACPI tables ([AcpiTables]) and the GDT of the entry code.  The
    function is cut into the blocks its comments name; each is a function on
    [HostMem], [None] when a copy leaves a buffer or guest RAM.

    The other side is [boot_read]: what a kernel finds by the boot protocol.
    [linux_boot_view]: it is the configuration.  [initrd_wrap]: an initial
    RAM disk larger than low memory passes the check and is copied outside
    the guest. *)

From S2P Require Import Prelude.
From S2P Require Import StdString.
From S2P Require Import GuestMem.
From S2P Require Import BootMem.
From S2P Require Import AcpiTables.

Definition kGdtBase : Z := 0x1000.
Definition kBootParams : Z := 0x7000.
Definition kCmdlineBase : Z := 0x10000.
Definition kCmdlineMaxLen : Z := 0x10000.
Definition kKernelBase : Z := 0x100000.

Definition kAcpiRsdpAddr : Z := 0x070.
Definition kE820Entries : Z := 0x1E8.
Definition kSetupSects : Z := 0x1F1.
Definition kHeaderMagic : Z := 0x202.
Definition kVersion : Z := 0x206.
Definition kTypeOfLoader : Z := 0x210.
Definition kLoadflags : Z := 0x211.
Definition kRamdiskImage : Z := 0x218.
Definition kRamdiskSize : Z := 0x21C.
Definition kCmdLinePtr : Z := 0x228.
Definition kE820Table : Z := 0x2D0.

Definition kE820Ram : Z := 1.

Record BootConfig := mkBootConfig {
  kernel_path : bytes; initrd_path : bytes; cmdline : bytes; cpu_count : Z;
  virtio_devs : list VirtioMmioAcpiInfo; apic_ids : list Z
}.

(** The host's files; one that cannot be opened reads as empty. *)
Definition ReadFile (files : bytes -> option bytes) (path : bytes) : bytes := default [] (files path).

(** [n] bytes of a vector from [off] on. *)
Definition src (l : bytes) (off n : Z) : option bytes :=
  if off + n <=? Z.of_nat (length l) then Some (take (Z.to_nat n) (drop (Z.to_nat off) l)) else None.

(** The protected-mode part of the image: its offset and size. *)
Definition setup_size (kernel : bytes) : Z :=
  let setup_sects := field 1 (Z.to_nat kSetupSects) kernel in
  let setup_sects := if setup_sects =? 0 then 4 else setup_sects in
  (1 + setup_sects) * 512.
Definition kernel_size (kernel : bytes) : Z := u32 (u32 (Z.of_nat (length kernel)) - setup_size kernel).

(** The checks before anything is written. *)
Definition bzimage_ok (kernel : bytes) : bool :=
  (1024 <=? Z.of_nat (length kernel))
  && bool_decide (take 4 (drop (Z.to_nat kHeaderMagic) kernel) = str "HdrS")
  && (0x0206 <=? field 2 (Z.to_nat kVersion) kernel).

(** The zero page with the setup header. *)
Definition setup_boot_params (kernel : bytes) (h : HostMem) : option HostMem :=
  h ← hm_write h kBootParams (replicate 4096 0);
  let header_end := Z.min (setup_size kernel) 0x290 in
  h ← (if kSetupSects <? header_end
       then hdr ← src kernel kSetupSects (header_end - kSetupSects); hm_write h (kBootParams + kSetupSects) hdr
       else Some h);
  h ← hm_write h (kBootParams + kTypeOfLoader) [0xFF];
  flags ← hm_load 1 h (kBootParams + kLoadflags);
  hm_store 1 h (kBootParams + kLoadflags) (flags .| 0x01).

Definition load_cmdline (cmdline : bytes) (h : HostMem) : option HostMem :=
  match cmdline with
  | [] => Some h
  | _ =>
      let len := Z.min (Z.of_nat (length cmdline)) (kCmdlineMaxLen - 1) in
      h ← hm_write h kCmdlineBase (take (Z.to_nat len) cmdline);
      h ← hm_write h (kCmdlineBase + len) [0];
      hm_store 4 h (kBootParams + kCmdLinePtr) kCmdlineBase
  end.

(** The [bool] is false for [return 0]. *)
Definition load_initrd (files : bytes -> option bytes) (initrd_path : bytes) (ksize : Z) (h : HostMem) : option (bool * HostMem) :=
  match initrd_path with
  | [] => Some (true, h)
  | _ =>
      let initrd := ReadFile files initrd_path in
      let size := Z.of_nat (length initrd) in
      let initrd_addr := AlignDown (u64 (low_size (hm_map h) - size)) kPageSize in
      if size =? 0 then Some (false, h)
      else if initrd_addr <=? kKernelBase + ksize then Some (false, h)
      else
        h ← hm_write h initrd_addr initrd;
        h ← hm_store 4 h (kBootParams + kRamdiskImage) (u32 initrd_addr);
        h ← hm_store 4 h (kBootParams + kRamdiskSize) (u32 size);
        Some (true, h)
  end.

Definition e820_entry (addr size type : Z) : bytes := le_bytes 8 addr ++ le_bytes 8 size ++ le_bytes 4 type.

Definition setup_e820 (h : HostMem) : option HostMem :=
  let mem := hm_map h in
  let e820 := kBootParams + kE820Table in
  h ← hm_write h e820 (e820_entry 0 0xA0000 kE820Ram);
  h ← hm_write h (e820 + 20) (e820_entry 0x100000 (u64 (low_size mem - 0x100000)) kE820Ram);
  h ← (if 0 <? high_size mem then hm_write h (e820 + 40) (e820_entry (high_base mem) (high_size mem) kE820Ram)
       else Some h);
  hm_store 1 h (kBootParams + kE820Entries) (if 0 <? high_size mem then 3 else 2).

Definition write_gdt (h : HostMem) : option HostMem :=
  hm_write h kGdtBase
    (le_bytes 8 0 ++ le_bytes 8 0 ++ le_bytes 8 0x00CF9A000000FFFF ++ le_bytes 8 0x00CF92000000FFFF).

Definition LoadLinuxKernel (files : bytes -> option bytes) (config : BootConfig) (h : HostMem) : option (Z * HostMem) :=
  let kernel := ReadFile files (kernel_path config) in
  if negb (bzimage_ok kernel) then Some (0, h)
  else
    let ksize := kernel_size kernel in
    if low_size (hm_map h) <? kKernelBase + ksize then Some (0, h)
    else
      image ← src kernel (setup_size kernel) ksize;
      h ← hm_write h kKernelBase image;
      h ← setup_boot_params kernel h;
      h ← load_cmdline (cmdline config) h;
      '(ok, h) ← load_initrd files (initrd_path config) ksize h;
      if negb ok then Some (0, h)
      else
        h ← setup_e820 h;
        '(rsdp_addr, h) ← BuildAcpiTables (cpu_count config) (virtio_devs config) (apic_ids config) h;
        h ← hm_store 8 h (kBootParams + kAcpiRsdpAddr) rsdp_addr;
        h ← write_gdt h;
        Some (ksize, h).

(** ** What the kernel finds

    The 32-bit boot protocol: the zero page is at [%esi]. *)

Record LinuxView := mkLinuxView {
  lv_image : bytes; lv_loader : Z; lv_loadflags : Z; lv_cmdline : option bytes; lv_initrd : option bytes;
  lv_e820 : list (Z * Z * Z); lv_acpi : AcpiConfig; lv_gdt : list Z
}.

Definition read_e820 (bp : bytes) : list (Z * Z * Z) :=
  map (fun i => let off := (0x2D0 + 20 * i)%nat in (field 8 off bp, field 8 (off + 8) bp, field 4 (off + 16) bp))
      (seq 0 (Z.to_nat (field 1 0x1E8 bp))).

(** A NUL-terminated string of at most 64 KiB. *)
Definition read_string (h : HostMem) (a : Z) : option bytes := c_str <$> phys_read h a 0x10000.

Definition boot_read (h : HostMem) (ksize : Z) : option LinuxView :=
  image ← phys_read h kKernelBase ksize;
  bp ← phys_read h kBootParams 4096;
  cmd ← (if field 4 0x228 bp =? 0 then Some None else Some <$> read_string h (field 4 0x228 bp));
  initrd ← (if field 4 0x21C bp =? 0 then Some None else Some <$> phys_read h (field 4 0x218 bp) (field 4 0x21C bp));
  acpi ← acpi_read h (field 8 0x70 bp);
  gdt ← phys_read h kGdtBase 32;
  Some (mkLinuxView image (field 1 0x210 bp) (field 1 0x211 bp) cmd initrd (read_e820 bp) acpi
          (map (fun i => field 8 (8 * i) gdt) (seq 0 4))).

(** A kernel image below 4 GiB whose loader fields are still empty. *)
Definition pristine (kernel : bytes) : Prop :=
  bytes_ok kernel /\ bzimage_ok kernel = true /\ setup_size kernel < Z.of_nat (length kernel) < 2 ^ 32
  /\ field 4 0x218 kernel = 0 /\ field 4 0x21C kernel = 0 /\ field 4 0x228 kernel = 0.

(** The RAM disk of a configuration, if it names one. *)
Definition the_initrd (files : bytes -> option bytes) (path : bytes) : option bytes :=
  match path with [] => None | _ => Some (ReadFile files path) end.

(** Where it goes. *)
Definition initrd_addr (m : GuestMemMap) (rd : bytes) : Z := AlignDown (low_size m - Z.of_nat (length rd)) kPageSize.

Definition expected_e820 (m : GuestMemMap) : list (Z * Z * Z) :=
  [(0, 0xA0000, 1); (0x100000, low_size m - 0x100000, 1)]
  ++ (if 0 <? high_size m then [(high_base m, high_size m, 1)] else []).

Definition expected_view (files : bytes -> option bytes) (c : BootConfig) (m : GuestMemMap) : LinuxView :=
  let kernel := ReadFile files (kernel_path c) in
  mkLinuxView (drop (Z.to_nat (setup_size kernel)) kernel) 0xFF (field 1 0x211 kernel .| 1)
    (match cmdline c with [] => None | s => Some (take (Z.to_nat 65535) s) end)
    (the_initrd files (initrd_path c)) (expected_e820 m)
    (expected_config (cpu_count c) (virtio_devs c) (apic_ids c))
    [0; 0; 0x00CF9A000000FFFF; 0x00CF92000000FFFF].

(** ** The blocks *)

(** The layout as numbers. *)
Ltac layout :=
  unfold kGdtBase, kBootParams, kCmdlineBase, kCmdlineMaxLen, kKernelBase, kAcpiRsdpAddr, kE820Entries, kSetupSects,
    kTypeOfLoader, kLoadflags, kRamdiskImage, kRamdiskSize, kCmdLinePtr, kE820Table in *.

Lemma setup_size_bound kernel : bytes_ok kernel -> 1024 <= setup_size kernel <= 131072.
Proof.
  intros Hb. unfold setup_size. pose proof (field_width 1 (Z.to_nat kSetupSects) kernel Hb) as [].
  destruct (Z.eqb_spec (field 1 (Z.to_nat kSetupSects) kernel) 0); lia.
Qed.

Lemma src_some l off n : 0 <= off -> off + n <= Z.of_nat (length l) -> src l off n = Some (take (Z.to_nat n) (drop (Z.to_nat off) l)).
Proof. intros ? ?. unfold src. by rewrite (proj2 (Z.leb_le _ _)). Qed.

(** [hm_store] inside RAM. *)
Ltac store_step := unfold hm_store; write_step.

Lemma take_drop_sub (l : bytes) off n i k :
  (k + i <= n)%nat -> take k (drop i (take n (drop off l))) = take k (drop (off + i) l).
Proof.
  intros H. rewrite skipn_firstn_comm, take_take, drop_drop. do 2 f_equal. lia.
Qed.

Lemma setup_boot_params_ok kernel h :
  low_ram 0x100000 h -> bytes_ok kernel -> 1024 <= Z.of_nat (length kernel) ->
  exists h', setup_boot_params kernel h = Some h' /\ keeps 0x7000 0x8000 h h'
    /\ peek (hm_bytes h') 0x7210 1 = [0xFF] /\ peek (hm_bytes h') 0x7211 1 = [field 1 0x211 kernel .| 1]
    /\ peek (hm_bytes h') 0x7218 8 = take 8 (drop 0x218 kernel) /\ peek (hm_bytes h') 0x7228 4 = take 4 (drop 0x228 kernel).
Proof.
  intros (Hb & Hl & Ha) Hk H1k. pose proof (setup_size_bound kernel Hk) as Hs. unfold setup_boot_params. layout.
  write_step. replace (Z.min (setup_size kernel) 0x290) with 0x290 by lia.
  change (0x1F1 <? 0x290) with true. cbv iota. rewrite src_some by lia. cbn [mbind option_bind].
  set (hdr := take _ (drop _ kernel)).
  assert (Hh : length hdr = 159%nat) by (unfold hdr; rewrite length_take, length_drop; lia).
  assert (Hsub : forall i k, (k + i <= 159)%nat -> take k (drop i hdr) = take k (drop (497 + i) kernel)).
  { intros i k Hik. apply take_drop_sub. exact Hik. }
  write_step. write_step. unfold hm_load, hm_read. cbn [hm_map hm_bytes].
  rewrite !(proj2 (Z.leb_le _ _)) by lia. cbn [andb fmap option_fmap option_map mbind option_bind].
  rewrite peek_poke_disjoint, peek_poke_sub, Hsub by (cbn [length]; lia).
  set (flags := le_val _). assert (Hf : flags = field 1 0x211 kernel) by reflexivity.
  assert (Hw : in_width 8 (flags .| 1)).
  { apply in_width_lor; [lia| |done]. rewrite Hf. by apply (field_width 1). }
  store_step. change (le_bytes 1 (flags .| 1)) with [(flags .| 1) mod 256].
  rewrite Z.mod_small, Hf by exact Hw. clear Hw Hf. clearbody flags.
  eexists. split; [reflexivity|]. cbn [hm_bytes]. split_and!.
  - split; [done|]. intros a n Han. cbn [hm_bytes]. peek_poke. done.
  - rewrite peek_poke_disjoint by (cbn [length]; lia). apply (peek_poke_same _ _ [0xFF]).
  - apply (peek_poke_same _ _ [_]).
  - rewrite !peek_poke_disjoint, peek_poke_sub, Hsub by (cbn [length]; lia). reflexivity.
  - rewrite !peek_poke_disjoint, peek_poke_sub, Hsub by (cbn [length]; lia). reflexivity.
Qed.

Lemma load_cmdline_ok s h :
  low_ram 0x100000 h -> 0 ∉ s ->
  exists h', load_cmdline s h = Some h'
    /\ (match s with
        | [] => h' = h
        | _ => peek (hm_bytes h') 0x7228 4 = le_bytes 4 0x10000 /\ c_str (peek (hm_bytes h') 0x10000 0x10000) = take (Z.to_nat 65535) s
        end)
    /\ hm_map h' = hm_map h
    /\ (forall a n, a + n <= 0x7228 \/ 0x722C <= a /\ a + n <= 0x10000 \/ 0x20000 <= a ->
          peek (hm_bytes h') a n = peek (hm_bytes h) a n).
Proof.
  intros (Hb & Hl & Ha) Hs. destruct s as [|c s]; [by exists h|]. unfold load_cmdline. set (cmd := c :: s) in *. layout.
  set (len := Z.min _ _). set (text := take (Z.to_nat len) cmd).
  assert (Ht : Z.of_nat (length text) = len) by (unfold text; rewrite length_take; unfold len; lia).
  assert (Hlen : 0 < len <= 65535) by (unfold len, cmd; cbn [length]; lia).
  assert (Htext : text = take (Z.to_nat 65535) cmd).
  { unfold text, len. destruct (Z.le_gt_cases (Z.of_nat (length cmd)) 65535).
    - rewrite !take_ge by lia. done.
    - f_equal. lia. }
  assert (H0 : 0 ∉ text) by (intros (i & Hin & _)%elem_of_take; apply Hs; by apply list_elem_of_lookup; exists i).
  do 2 write_step. store_step. eexists. split; [reflexivity|]. cbn [hm_bytes hm_map]. split_and!.
  - peek_poke. apply (peek_poke_same _ _ (le_bytes 4 0x10000)).
  - rewrite peek_poke_disjoint by (autorewrite with len; lia). replace 0x10000 with (len + (1 + (0x10000 - 1 - len))) at 4 by lia.
    rewrite !peek_app by lia. rewrite peek_poke_disjoint, <- Ht, peek_poke_same by (cbn [length]; lia).
    rewrite Ht, (peek_poke_same _ _ [0]). rewrite <- Htext. cbn [app]. by apply c_str_app.
  - done.
  - intros a n Han. peek_poke. done.
Qed.

(** A RAM disk that fits above the kernel. *)
Definition initrd_fits (files : bytes -> option bytes) (path : bytes) (ksize : Z) (m : GuestMemMap) : Prop :=
  forall rd, the_initrd files path = Some rd ->
    rd <> [] /\ Z.of_nat (length rd) <= low_size m /\ kKernelBase + ksize < initrd_addr m rd.

Lemma initrd_addr_bound m rd : Z.of_nat (length rd) <= low_size m < 2 ^ 32 ->
  initrd_addr m rd mod 4096 = 0 /\ 0 <= initrd_addr m rd /\ initrd_addr m rd + Z.of_nat (length rd) <= low_size m.
Proof.
  intros H. unfold initrd_addr. change kPageSize with (2 ^ 12). rewrite AlignDown_div by (unfold in_width; lia).
  change (2 ^ 12) with 4096. split; [apply Z_mod_mult|]. dlia.
Qed.

Lemma load_initrd_ok files path ksize h :
  low_ram 0x100000 h -> low_size (hm_map h) < 2 ^ 32 -> 0 <= ksize -> initrd_fits files path ksize (hm_map h) ->
  exists h', load_initrd files path ksize h = Some (true, h')
    /\ (match the_initrd files path with
        | None => h' = h
        | Some rd => peek (hm_bytes h') 0x7218 8 = le_bytes 4 (initrd_addr (hm_map h) rd) ++ le_bytes 4 (Z.of_nat (length rd))
                     /\ peek (hm_bytes h') (initrd_addr (hm_map h) rd) (Z.of_nat (length rd)) = rd
        end)
    /\ hm_map h' = hm_map h
    /\ (forall a n, a + n <= 0x7218 \/ 0x7220 <= a /\ a + n <= 0x100000 + ksize ->
          peek (hm_bytes h') a n = peek (hm_bytes h) a n).
Proof.
  intros (Hb & Hl & Ha) H32 Hk Hfit. destruct path as [|c path]; [by exists h|]. unfold load_initrd, the_initrd in *.
  set (rd := ReadFile files (c :: path)) in *. destruct (Hfit rd eq_refl) as (Hne & Hsz & Habove). layout.
  destruct (initrd_addr_bound (hm_map h) rd) as (_ & H0 & Hend); [lia|].
  rewrite (wrap_small 64) by (unfold in_width; lia). change (AlignDown _ _) with (initrd_addr (hm_map h) rd).
  assert (0 < Z.of_nat (length rd)) by (destruct rd; [done|cbn [length]; lia]).
  rewrite (proj2 (Z.eqb_neq _ _)), (proj2 (Z.leb_gt _ _)) by lia.
  rewrite !(wrap_small 32) by (unfold in_width; lia). set (addr := initrd_addr (hm_map h) rd) in *.
  write_step. do 2 store_step. eexists. split; [reflexivity|]. cbn [hm_bytes hm_map]. split_and!.
  - change 8 with (4 + 4). rewrite peek_app by lia. f_equal.
    + peek_poke. apply (peek_poke_same _ _ (le_bytes 4 addr)).
    + apply (peek_poke_same _ _ (le_bytes 4 _)).
  - peek_poke.
  - done.
  - intros a n Han. peek_poke. done.
Qed.

Definition e820_count (m : GuestMemMap) : Z := if 0 <? high_size m then 3 else 2.
Definition e820_bytes (m : GuestMemMap) : bytes :=
  e820_entry 0 0xA0000 1 ++ e820_entry 0x100000 (low_size m - 0x100000) 1
  ++ (if 0 <? high_size m then e820_entry (high_base m) (high_size m) 1 else []).

Lemma setup_e820_ok h :
  low_ram 0x100000 h -> low_size (hm_map h) < 2 ^ 32 ->
  exists h', setup_e820 h = Some h' /\ hm_map h' = hm_map h
    /\ peek (hm_bytes h') 0x71E8 1 = [e820_count (hm_map h)]
    /\ peek (hm_bytes h') 0x72D0 (20 * e820_count (hm_map h)) = e820_bytes (hm_map h)
    /\ (forall a n, a + n <= 0x71E8 \/ 0x71E9 <= a /\ a + n <= 0x72D0 \/ 0x8000 <= a ->
          peek (hm_bytes h') a n = peek (hm_bytes h) a n).
Proof.
  intros (Hb & Hl & Ha) H32. unfold setup_e820, e820_count, e820_bytes. layout.
  rewrite (wrap_small 64) by (unfold in_width; lia).
  assert (H20 : forall x y z, length (e820_entry x y z) = 20%nat).
  { intros. unfold e820_entry. rewrite !length_app. by autorewrite with len. }
  set (e1 := e820_entry 0 _ _). set (e2 := e820_entry 0x100000 _ _). set (e3 := e820_entry (high_base _) _ _).
  pose proof (H20 0 0xA0000 1) as L1. pose proof (H20 0x100000 (low_size (hm_map h) - 0x100000) 1) as L2.
  pose proof (H20 (high_base (hm_map h)) (high_size (hm_map h)) 1) as L3.
  change (length e1 = 20%nat) in L1. change (length e2 = 20%nat) in L2. change (length e3 = 20%nat) in L3.
  clearbody e1 e2 e3. do 2 write_step.
  destruct (0 <? high_size (hm_map h)); [write_step|cbn [mbind option_bind]]; store_step; (eexists; split; [reflexivity|]);
    cbn [hm_bytes hm_map]; (split_and!; [done|apply (peek_poke_same _ _ [_])| |intros a n Han; peek_poke; done]).
  - change (20 * 3) with (20 + (20 + 20)). rewrite !peek_app by lia. f_equal; [|f_equal].
    + rewrite !peek_poke_disjoint by (autorewrite with len; lia). apply peek_poke_eq; lia.
    + rewrite !peek_poke_disjoint by (autorewrite with len; lia). apply peek_poke_eq; lia.
    + rewrite !peek_poke_disjoint by (autorewrite with len; lia). apply peek_poke_eq; lia.
  - change (20 * 2) with (20 + 20). rewrite !peek_app, app_nil_r by lia. f_equal.
    + rewrite !peek_poke_disjoint by (autorewrite with len; lia). apply peek_poke_eq; lia.
    + rewrite !peek_poke_disjoint by (autorewrite with len; lia). apply peek_poke_eq; lia.
Qed.

(** ** The whole *)

Lemma kernel_size_pristine kernel :
  pristine kernel -> kernel_size kernel = Z.of_nat (length kernel) - setup_size kernel /\ 0 < kernel_size kernel < 2 ^ 32.
Proof.
  intros (Hb & _ & Hs & _). pose proof (setup_size_bound kernel Hb). unfold kernel_size.
  rewrite (wrap_small 32 (Z.of_nat _)), wrap_small by (unfold in_width; lia). lia.
Qed.

(** What a loaded configuration must satisfy. *)
Record boot_ok (files : bytes -> option bytes) (c : BootConfig) (m : GuestMemMap) : Prop := {
  bo_base : ram_base m = 0;
  bo_low : low_size m <= alloc_size m /\ low_size m < 2 ^ 32;
  bo_high : in_width 64 (high_base m) /\ in_width 64 (high_size m);
  bo_kernel : pristine (ReadFile files (kernel_path c));
  bo_fits : kKernelBase + kernel_size (ReadFile files (kernel_path c)) <= low_size m;
  bo_cmdline : 0 ∉ cmdline c;
  bo_initrd : initrd_fits files (initrd_path c) (kernel_size (ReadFile files (kernel_path c))) m;
  bo_cpus : 0 <= cpu_count c <= 23;
  bo_devs : (length (virtio_devs c) <= 66)%nat /\ Forall dev_ok (virtio_devs c)
}.

Definition gdt_bytes : bytes := [0; 0; 0x00CF9A000000FFFF; 0x00CF92000000FFFF] ≫= le_bytes 8.

(** Guest RAM after the loader, region by region. *)
Definition booted (files : bytes -> option bytes) (c : BootConfig) (m : GuestMemMap) (dsdt : bytes) (h : HostMem) : Prop :=
  let at_ a k := peek (hm_bytes h) a k in
  let kernel := ReadFile files (kernel_path c) in
  at_ 0x100000 (kernel_size kernel) = drop (Z.to_nat (setup_size kernel)) kernel
  /\ at_ 0x7210 1 = [0xFF] /\ at_ 0x7211 1 = [field 1 0x211 kernel .| 1]
  /\ (match cmdline c with
      | [] => at_ 0x7228 4 = take 4 (drop 0x228 kernel)
      | s => at_ 0x7228 4 = le_bytes 4 0x10000 /\ c_str (at_ 0x10000 0x10000) = take (Z.to_nat 65535) s
      end)
  /\ (match the_initrd files (initrd_path c) with
      | None => at_ 0x7218 8 = take 8 (drop 0x218 kernel)
      | Some rd => at_ 0x7218 8 = le_bytes 4 (initrd_addr m rd) ++ le_bytes 4 (Z.of_nat (length rd))
                   /\ at_ (initrd_addr m rd) (Z.of_nat (length rd)) = rd
      end)
  /\ at_ 0x71E8 1 = [e820_count m] /\ at_ 0x72D0 (20 * e820_count m) = e820_bytes m
  /\ acpi_in_mem (cpu_count c) (apic_ids c) dsdt h /\ at_ 0x7070 8 = le_bytes 8 kRsdp /\ at_ 0x1000 32 = gdt_bytes.

Lemma place_kernel_ok kernel h :
  low_ram 0x100000 h -> pristine kernel -> kKernelBase + kernel_size kernel <= low_size (hm_map h) ->
  exists image h', src kernel (setup_size kernel) (kernel_size kernel) = Some image
    /\ hm_write h kKernelBase image = Some h' /\ hm_map h' = hm_map h
    /\ peek (hm_bytes h') 0x100000 (kernel_size kernel) = drop (Z.to_nat (setup_size kernel)) kernel.
Proof.
  intros (Hb & Hl & Ha) Hp Hfit. destruct (kernel_size_pristine kernel Hp) as [E Hpos]. destruct Hp as (Hbytes & _ & Hs & _).
  pose proof (setup_size_bound kernel Hbytes). layout. rewrite src_some by lia. set (image := take _ _).
  assert (Hi : image = drop (Z.to_nat (setup_size kernel)) kernel) by (apply take_ge; rewrite length_drop; lia).
  assert (Hlen : Z.of_nat (length image) = kernel_size kernel) by (rewrite Hi, length_drop; lia).
  exists image. eexists. split; [done|]. rewrite hm_write_some by lia. split; [done|]. split; [done|].
  cbn [hm_bytes]. rewrite <- Hi. by apply peek_poke_eq.
Qed.

(** The last two stores: the pointer to the RSDP and the GDT. *)
Lemma finish_boot h :
  low_ram 0x100000 h ->
  exists h' h'', hm_store 8 h (kBootParams + kAcpiRsdpAddr) kRsdp = Some h' /\ write_gdt h' = Some h'' /\ hm_map h'' = hm_map h
    /\ peek (hm_bytes h'') 0x7070 8 = le_bytes 8 kRsdp /\ peek (hm_bytes h'') 0x1000 32 = gdt_bytes
    /\ (forall a n, (a + n <= 0x1000 \/ 0x1020 <= a) /\ (a + n <= 0x7070 \/ 0x7078 <= a) ->
          peek (hm_bytes h'') a n = peek (hm_bytes h) a n).
Proof.
  intros (Hb & Hl & Ha). assert (Hg : length gdt_bytes = 32%nat) by reflexivity.
  unfold write_gdt. change (le_bytes 8 0 ++ _) with gdt_bytes. layout. revert Hg. generalize gdt_bytes. intros g Hg. do 2 eexists.
  split; [unfold hm_store; rewrite hm_write_some by (autorewrite with len; lia); reflexivity|].
  split; [rewrite hm_write_some by (cbn [hm_map]; lia); reflexivity|]. cbn [hm_map hm_bytes]. split_and!.
  - done.
  - rewrite peek_poke_disjoint by lia. by apply peek_poke_eq.
  - apply peek_poke_eq; lia.
  - intros a n Han. peek_poke. done.
Qed.

Lemma LoadLinuxKernel_mem files c h :
  boot_ok files c (hm_map h) ->
  exists h' dsdt, LoadLinuxKernel files c h = Some (kernel_size (ReadFile files (kernel_path c)), h')
    /\ hm_map h' = hm_map h /\ BuildDsdt (virtio_devs c) = Some dsdt /\ booted files c (hm_map h) dsdt h'.
Proof.
  intros [Hb [Ha H32] _ Hk Hfit Hcmd Hrd Hn [Hd Hok]]. set (kernel := ReadFile files (kernel_path c)) in *.
  destruct (kernel_size_pristine kernel Hk) as [Esz Hsz].
  assert (Hram : low_ram 0x100000 h) by (split_and!; [done| |done]; layout; lia).
  destruct (place_kernel_ok kernel h Hram Hk Hfit) as (image & h1 & Ei & E1 & M1 & K1).
  assert (R1 : low_ram 0x100000 h1) by (unfold bank; by rewrite M1).
  destruct Hk as (Hbytes & Hbz & Hlen & _).
  destruct (setup_boot_params_ok kernel h1) as (h2 & E2 & [M2 F2] & L2 & G2 & RD2 & CM2); [done|done| |].
  { pose proof (setup_size_bound kernel Hbytes). lia. }
  assert (R2 : low_ram 0x100000 h2) by (unfold bank; by rewrite M2).
  destruct (load_cmdline_ok (cmdline c) h2 R2 Hcmd) as (h3 & E3 & C3 & M3 & F3).
  assert (R3 : low_ram 0x100000 h3) by (unfold bank; by rewrite M3).
  assert (Em3 : hm_map h3 = hm_map h) by congruence.
  destruct (load_initrd_ok files (initrd_path c) (kernel_size kernel) h3) as (h4 & E4 & I4 & M4 & F4);
    [done|by rewrite Em3|lia|by rewrite Em3|].
  assert (Em4 : hm_map h4 = hm_map h) by congruence.
  destruct (setup_e820_ok h4) as (h5 & E5 & M5 & N5 & T5 & F5); [unfold bank; by rewrite Em4|by rewrite Em4|].
  assert (Em5 : hm_map h5 = hm_map h) by congruence.
  destruct (dsdt_read _ Hd Hok) as (dsdt & Ed & _ & Hdl & _).
  destruct (BuildAcpiTables_mem (cpu_count c) (virtio_devs c) (apic_ids c) dsdt h5) as (h6 & E6 & [M6 F6] & A6);
    [unfold bank; rewrite Em5; destruct Hram as (? & ? & ?); split_and!; [done|lia|done]|done|done|done|].
  assert (Em6 : hm_map h6 = hm_map h) by congruence.
  unfold LoadLinuxKernel. fold kernel. rewrite Hbz. cbn [negb]. rewrite (proj2 (Z.ltb_ge _ _)) by lia.
  rewrite Ei. cbn [mbind option_bind]. rewrite E1. cbn [mbind option_bind]. rewrite E2. cbn [mbind option_bind].
  rewrite E3. cbn [mbind option_bind]. rewrite E4. cbn [mbind option_bind negb]. rewrite E5. cbn [mbind option_bind].
  rewrite E6. cbn [mbind option_bind].
  destruct (finish_boot h6) as (h7 & h8 & E7 & E8 & M8 & P8 & G8 & F8); [unfold bank; by rewrite Em6|].
  rewrite E7. cbn [mbind option_bind]. rewrite E8. cbn [mbind option_bind].
  exists h8, dsdt. split; [reflexivity|]. split; [congruence|]. split; [exact Ed|].
  assert (R : initrd_fits files (initrd_path c) (kernel_size kernel) (hm_map h)) by done.
  unfold booted. fold kernel. clear E1 E2 E3 E4 E5 E6 E7 E8. layout. split_and!.
  - frames. exact K1.
  - frames. exact L2.
  - frames. exact G2.
  - destruct (cmdline c); [subst h3; frames; exact CM2|]. frames. exact C3.
  - rewrite Em3 in I4. destruct (the_initrd files (initrd_path c)) as [rd|] eqn:Erd; [|subst h4; frames; exact RD2].
    destruct (R rd Erd) as (_ & Hr1 & Hr2). destruct (initrd_addr_bound (hm_map h) rd) as (_ & _ & Hr3); [lia|]. layout. frames. exact I4.
  - rewrite <- Em4. frames. exact N5.
  - rewrite <- Em4. assert (2 <= e820_count (hm_map h4) <= 3) by (unfold e820_count; case_ifs; lia). frames. exact T5.
  - eapply acpi_in_mem_keeps; [|exact Hn|exact Hdl|exact A6]. intros a k Ha1 Ha2. apply F8. lia.
  - exact P8.
  - exact G8.
Qed.

(** The memory map as it is parsed. *)
Lemma read_e820_ok s m :
  0x100000 <= low_size m < 2 ^ 32 -> in_width 64 (high_base m) /\ in_width 64 (high_size m) ->
  peek s 0x71E8 1 = [e820_count m] -> peek s 0x72D0 (20 * e820_count m) = e820_bytes m ->
  read_e820 (peek s 0x7000 4096) = expected_e820 m.
Proof.
  intros Hl [Hb Hs] Hc Ht. unfold read_e820. rewrite (field_shift s 0x7000 4096 0x71E8 1 1 0x1E8 0), Hc by lia.
  change (field 1 0 [e820_count m]) with (e820_count m + 256 * 0). rewrite Z.add_0_r.
  assert (F : forall n off j, off = (0x2D0 + j)%nat -> Z.of_nat (j + n) <= 20 * e820_count m ->
    field n off (peek s 0x7000 4096) = field n j (e820_bytes m)).
  { intros n off j -> Hj. rewrite <- Ht. assert (2 <= e820_count m <= 3) by (unfold e820_count; case_ifs; lia). apply field_shift; lia. }
  assert (W : in_width 64 (low_size m - 0x100000)) by (unfold in_width; lia).
  pose proof (le_val_word 8 _ W) as W1. pose proof (le_val_word 8 _ Hb) as W2. pose proof (le_val_word 8 _ Hs) as W3.
  unfold expected_e820, e820_bytes, e820_count in *. destruct (0 <? high_size m); [change (Z.to_nat 3) with 3%nat|change (Z.to_nat 2) with 2%nat]; cbn [seq map app].
  - rewrite (F 8%nat _ 0%nat), (F 8%nat _ 8%nat), (F 4%nat _ 16%nat), (F 8%nat _ 20%nat), (F 8%nat _ 28%nat), (F 4%nat _ 36%nat),
      (F 8%nat _ 40%nat), (F 8%nat _ 48%nat), (F 4%nat _ 56%nat) by lia.
    transitivity [(0, 0xA0000, 1); (0x100000, le_val (le_bytes 8 (low_size m - 0x100000)), 1);
      (le_val (le_bytes 8 (high_base m)), le_val (le_bytes 8 (high_size m)), 1)]; [reflexivity|by rewrite W1, W2, W3].
  - rewrite (F 8%nat _ 0%nat), (F 8%nat _ 8%nat), (F 4%nat _ 16%nat), (F 8%nat _ 20%nat), (F 8%nat _ 28%nat), (F 4%nat _ 36%nat) by lia.
    transitivity [(0, 0xA0000, 1); (0x100000, le_val (le_bytes 8 (low_size m - 0x100000)), 1)]; [reflexivity|by rewrite W1].
Qed.

(** The 32-bit words the loader patches. *)
Lemma boot_words files c m dsdt h :
  boot_ok files c m -> booted files c m dsdt h ->
  let bp := peek (hm_bytes h) 0x7000 4096 in
  field 1 0x210 bp = 0xFF /\ field 1 0x211 bp = field 1 0x211 (ReadFile files (kernel_path c)) .| 1
  /\ field 4 0x228 bp = (match cmdline c with [] => 0 | _ => 0x10000 end)
  /\ field 4 0x218 bp = default 0 (initrd_addr m <$> the_initrd files (initrd_path c))
  /\ field 4 0x21C bp = default 0 ((fun rd => Z.of_nat (length rd)) <$> the_initrd files (initrd_path c))
  /\ field 8 0x70 bp = kRsdp.
Proof.
  intros [_ [Ha H32] _ (Hbytes & Hbz & Hlen & P1 & P2 & P3) _ _ Hrd _ _] (_ & L & G & C & I & _ & _ & _ & R & _) bp.
  unfold bp. set (kernel := ReadFile files (kernel_path c)) in *.
  rewrite (field_shift _ 0x7000 4096 0x7210 1 1 0x210 0), L by lia. rewrite (field_shift _ 0x7000 4096 0x7211 1 1 0x211 0), G by lia.
  rewrite (field_shift _ 0x7000 4096 0x7228 4 4 0x228 0), (field_shift _ 0x7000 4096 0x7218 8 4 0x218 0),
    (field_shift _ 0x7000 4096 0x7218 8 4 0x21C 4), (field_shift _ 0x7000 4096 0x7070 8 8 0x70 0), R by lia.
  split; [done|]. split; [unfold field; cbn; lia|]. split; [|split; [|split; [|reflexivity]]].
  - destruct (cmdline c); [rewrite C; unfold field in *; by rewrite drop_0, take_take|]. destruct C as [-> _]. reflexivity.
  - destruct (the_initrd files (initrd_path c)) as [rd|] eqn:E; cbn [fmap option_fmap option_map default].
    + destruct I as [-> _]. destruct (Hrd rd E) as (_ & Hr & _). destruct (initrd_addr_bound m rd) as (_ & H0 & He); [lia|].
      apply (field_encoded 4 0 []); [done|]. change (8 * Z.of_nat 4) with 32. unfold in_width, id in *. lia.
    + rewrite I. unfold field in *. by rewrite drop_0, take_take.
  - destruct (the_initrd files (initrd_path c)) as [rd|] eqn:E; cbn [fmap option_fmap option_map default].
    + destruct I as [-> _]. destruct (Hrd rd E) as (_ & Hr & _). rewrite <- (app_nil_r (le_bytes 4 (Z.of_nat (length rd)))).
      apply field_encoded; [done|]. change (8 * Z.of_nat 4) with 32. unfold in_width, id in *. lia.
    + rewrite I. unfold field in *. rewrite skipn_firstn_comm, take_take, drop_drop. exact P2.
Qed.

Lemma cmdline_view files c m dsdt h :
  (forall a n, 0 <= a -> a + n <= low_size m -> phys_read h a n = Some (peek (hm_bytes h) a n)) ->
  booted files c m dsdt h -> 0x100000 <= low_size m ->
  let ptr := match cmdline c with [] => 0 | _ => 0x10000 end in
  (if ptr =? 0 then Some None else Some <$> read_string h ptr)
  = Some (match cmdline c with [] => None | s => Some (take (Z.to_nat 65535) s) end).
Proof.
  intros P (_ & _ & _ & C & _) Hl. destruct (cmdline c); [done|]. destruct C as [_ C]. cbn [Z.eqb].
  unfold read_string. rewrite P by lia. cbn [fmap option_fmap option_map]. by rewrite C.
Qed.

Lemma initrd_view files c m dsdt h :
  (forall a n, 0 <= a -> a + n <= low_size m -> phys_read h a n = Some (peek (hm_bytes h) a n)) ->
  booted files c m dsdt h -> initrd_fits files (initrd_path c) (kernel_size (ReadFile files (kernel_path c))) m ->
  low_size m < 2 ^ 32 ->
  let size := default 0 ((fun rd => Z.of_nat (length rd)) <$> the_initrd files (initrd_path c)) in
  (if size =? 0 then Some None
   else Some <$> phys_read h (default 0 (initrd_addr m <$> the_initrd files (initrd_path c))) size)
  = Some (the_initrd files (initrd_path c)).
Proof.
  intros P (_ & _ & _ & _ & I & _) Hrd Hl. destruct (the_initrd files (initrd_path c)) as [rd|] eqn:E; [|done].
  cbn [fmap option_fmap option_map default]. destruct (Hrd rd E) as (Hne & Hr & _).
  destruct (initrd_addr_bound m rd) as (_ & H0 & He); [lia|]. unfold id.
  rewrite (proj2 (Z.eqb_neq _ _)) by (destruct rd; [done|cbn [length]; lia]). rewrite P by lia. by destruct I as [_ ->].
Qed.

(** C14. What a Linux kernel finds when it starts is what the VM was configured
    with: its own protected-mode image at 1 MiB, the loader's marks in the
    zero page, the command line (its first 65535 bytes) behind
    [cmd_line_ptr], the RAM disk behind [ramdisk_image] and [ramdisk_size], a
    memory map of exactly the RAM outside the legacy hole, ACPI tables that
    describe every processor and device, and the flat GDT.  None of the
    regions overwrites another.  This holds for at most 23 processors - from
    24 on another table overwrites the MADT - and 66 devices with 32-bit
    windows, a bzImage whose loader fields are empty and that fits low RAM,
    low RAM below 4 GiB, a command line without NUL, and a RAM disk, if there
    is one, that is not empty and fits low RAM above the kernel. *)
Theorem linux_boot_view files c h :
  boot_ok files c (hm_map h) ->
  let ksize := kernel_size (ReadFile files (kernel_path c)) in
  exists h', LoadLinuxKernel files c h = Some (ksize, h') /\ ksize <> 0 /\ hm_map h' = hm_map h
    /\ boot_read h' ksize = Some (expected_view files c (hm_map h)).
Proof.
  intros Hok ksize. destruct (LoadLinuxKernel_mem files c h Hok) as (h' & dsdt & E & M & Ed & B).
  exists h'. split; [exact E|]. destruct (kernel_size_pristine _ (bo_kernel _ _ _ Hok)) as [_ Hk]. split; [unfold ksize; lia|].
  split; [exact M|].
  destruct (boot_words files c (hm_map h) dsdt h' Hok B) as (W1 & W2 & W3 & W4 & W5 & W6).
  pose proof B as (K & _ & _ & _ & _ & N & T & A & _ & G). destruct Hok as [Hb [Ha H32] Hh Hp Hfit Hcmd Hrd Hn [Hd Hdev]].
  fold ksize in Hfit, Hrd, K. unfold kKernelBase in Hfit.
  assert (HR : low_ram (low_size (hm_map h)) h') by (unfold bank; rewrite M; split_and!; [done|lia|done]).
  assert (P : forall a n, 0 <= a -> a + n <= low_size (hm_map h) -> phys_read h' a n = Some (peek (hm_bytes h') a n)).
  { intros. by eapply phys_read_low. }
  assert (G4 : map (fun i => field 8 (8 * i) gdt_bytes) (seq 0 4) = [0; 0; 0x00CF9A000000FFFF; 0x00CF92000000FFFF]) by reflexivity.
  assert (Hacpi : acpi_read h' kRsdp = Some (expected_config (cpu_count c) (virtio_devs c) (apic_ids c))).
  { destruct (dsdt_read _ Hd Hdev) as (dsdt' & Ed' & Hwf & Hdl & Hread). rewrite Ed in Ed'. injection Ed' as <-.
    eapply acpi_in_mem_read; [|exact Hn|exact A|exact Hdl|exact Hwf|exact Hread].
    destruct HR as (? & ? & ?). split_and!; [done|unfold kKernelBase in *; lia|done]. }
  unfold boot_read. layout. rewrite (P 0x100000 ksize), (P 0x7000 4096), (P 0x1000 32) by lia. cbn [mbind option_bind].
  rewrite W1, W2, W3, W4, W5, W6, Hacpi, K. rewrite (read_e820_ok _ (hm_map h)) by (exact Hh || exact N || exact T || lia).
  rewrite (cmdline_view files c (hm_map h) dsdt h' P B) by lia. cbn [mbind option_bind].
  rewrite (initrd_view files c (hm_map h) dsdt h' P B Hrd) by lia.
  rewrite G. cbn [mbind option_bind]. rewrite G4. reflexivity.
Qed.

Definition demo_kernel : bytes :=
  blit 0x206 (le_bytes 2 0x020F) (blit 0x202 (str "HdrS") (blit 0x1F1 [1] (replicate 2048 0x90))).

Definition demo_image : bytes := blit 0x218 (replicate 20 0) demo_kernel.
Definition demo_files (path : bytes) : option bytes :=
  if bool_decide (path = str "bzImage") then Some demo_image
  else if bool_decide (path = str "initrd") then Some (str "cpio") else None.
Definition demo_boot : BootConfig := mkBootConfig (str "bzImage") (str "initrd") (str "console=ttyS0") 2 demo_devs [].

Lemma demo_boot_ok : boot_ok demo_files demo_boot (hm_map demo_mem).
Proof.
  split.
  - done.
  - done.
  - done.
  - split_and!; [|done..]. apply Forall_forall. intros x Hx.
    assert (Hall : forallb (fun b => (0 <=? b) && (b <? 256)) demo_image = true) by (vm_compute; reflexivity).
    apply list_elem_of_In in Hx. pose proof (proj1 (forallb_forall _ _) Hall x Hx) as H. cbv beta in H. unfold in_width. bool_hyps. lia.
  - done.
  - cbn. repeat (apply not_elem_of_cons; split; [done|]). apply not_elem_of_nil.
  - intros rd [= <-]. done.
  - done.
  - split; [cbn; lia|repeat constructor; done].
Qed.

Lemma linux_boot_view_witness :
  exists h', LoadLinuxKernel demo_files demo_boot demo_mem = Some (1024, h')
    /\ boot_read h' 1024 = Some (expected_view demo_files demo_boot (hm_map demo_mem)).
Proof.
  destruct (linux_boot_view demo_files demo_boot demo_mem demo_boot_ok) as (h' & H1 & _ & _ & H2).
  exists h'. exact (conj H1 H2).
Defined.

(** ** What the loader refuses, and what it should *)

(** A file that is no bzImage leaves guest RAM alone. *)
Lemma not_bzimage files c h :
  bzimage_ok (ReadFile files (kernel_path c)) = false -> LoadLinuxKernel files c h = Some (0, h).
Proof. intros E. unfold LoadLinuxKernel. by rewrite E. Qed.

(** An image that ends inside its setup sectors: the size of the rest wraps,
    and is then too large for any guest with an MMIO hole. *)
Lemma short_kernel_rejected files c h :
  let kernel := ReadFile files (kernel_path c) in
  bytes_ok kernel -> Z.of_nat (length kernel) < setup_size kernel -> low_size (hm_map h) <= kMmioGapStart ->
  LoadLinuxKernel files c h = Some (0, h).
Proof.
  intros kernel Hb Hs Hl. unfold LoadLinuxKernel. fold kernel. destruct (bzimage_ok kernel); [|done]. cbn [negb].
  pose proof (setup_size_bound kernel Hb). unfold kernel_size, kMmioGapStart in *. rewrite (wrap_small 32 (Z.of_nat _)) by (unfold in_width; lia).
  assert (E : u32 (Z.of_nat (length kernel) - setup_size kernel) = 2 ^ 32 + (Z.of_nat (length kernel) - setup_size kernel)).
  { unfold wrap. symmetry. apply Z.mod_unique with (q := -1); lia. }
  rewrite E. unfold kKernelBase. by rewrite (proj2 (Z.ltb_lt _ _)) by lia.
Qed.

(** A RAM disk larger than low memory: the subtraction wraps, the address is
    above the kernel, and the copy leaves the guest's RAM. *)
Lemma initrd_wrap files path ksize h rd :
  the_initrd files path = Some rd -> 0 <= low_size (hm_map h) -> alloc_size (hm_map h) < 2 ^ 62 -> 0 <= ksize < 2 ^ 32 ->
  low_size (hm_map h) < Z.of_nat (length rd) < 2 ^ 62 ->
  load_initrd files path ksize h = None.
Proof.
  intros Hrd Hl Ha Hk Hsz. destruct path as [|c path]; [done|]. injection Hrd as <-. unfold load_initrd.
  set (rd := ReadFile files (c :: path)) in *.
  assert (E : u64 (low_size (hm_map h) - Z.of_nat (length rd)) = 2 ^ 64 + (low_size (hm_map h) - Z.of_nat (length rd))).
  { unfold wrap. symmetry. apply Z.mod_unique with (q := -1); lia. }
  rewrite E. change kPageSize with (2 ^ 12). rewrite AlignDown_div by (unfold in_width; lia). change (2 ^ 12) with 4096.
  set (v := 2 ^ 64 + _). assert (Hv : v - 4096 < v / 4096 * 4096) by dlia. assert (2 ^ 64 - 2 ^ 62 <= v) by (unfold v; lia).
  rewrite (proj2 (Z.eqb_neq _ _)) by (destruct rd; cbn [length] in *; lia).
  unfold kKernelBase. rewrite (proj2 (Z.leb_gt _ _)) by lia. unfold hm_write.
  rewrite (proj2 (Z.leb_gt _ (alloc_size (hm_map h)))) by lia. by rewrite andb_false_r.
Qed.

(** *** No copy leaves guest RAM otherwise *)

Lemma hm_write_in h a l :
  0 <= a -> a + Z.of_nat (length l) <= alloc_size (hm_map h) -> exists h', hm_write h a l = Some h' /\ hm_map h' = hm_map h.
Proof. intros. rewrite hm_write_some by done. eexists. split; [reflexivity|done]. Qed.

(** One store, of which only the success matters. *)
Ltac in_step :=
  match goal with
  | |- context [hm_write ?h ?a ?l] =>
      let h' := fresh "h" in let E := fresh "E" in let M := fresh "M" in
      destruct (hm_write_in h a l) as (h' & E & M);
      [ try lia
      | cbn [length]; autorewrite with len; rewrite ?length_replicate; repeat match goal with M : hm_map _ = _ |- _ => rewrite M end; try lia
      | rewrite E; cbn [mbind option_bind] ]
  end.
Ltac in_done := eexists; split; [reflexivity|congruence].

Definition succeeds (f : HostMem -> option HostMem) (h : HostMem) : Prop := exists h', f h = Some h' /\ hm_map h' = hm_map h.

Lemma boot_params_in kernel h :
  bytes_ok kernel -> 1024 <= Z.of_nat (length kernel) -> 0x100000 <= alloc_size (hm_map h) -> succeeds (setup_boot_params kernel) h.
Proof.
  intros Hb H1k Ha. pose proof (setup_size_bound kernel Hb). unfold succeeds, setup_boot_params. layout.
  in_step. replace (Z.min (setup_size kernel) 0x290) with 0x290 by lia. change (0x1F1 <? 0x290) with true. cbv iota.
  rewrite src_some by lia. cbn [mbind option_bind].
  assert (Hh : length (take (Z.to_nat (0x290 - 0x1F1)) (drop (Z.to_nat 0x1F1) kernel)) = 159%nat) by (rewrite length_take, length_drop; lia).
  in_step. in_step. unfold hm_load, hm_read. repeat match goal with M : hm_map _ = _ |- _ => rewrite M end.
  rewrite !(proj2 (Z.leb_le _ _)) by lia. cbn [andb fmap option_fmap option_map mbind option_bind]. unfold hm_store. in_step. in_done.
Qed.

Lemma cmdline_in s h : 0x100000 <= alloc_size (hm_map h) -> succeeds (load_cmdline s) h.
Proof.
  intros Ha. unfold succeeds, load_cmdline, hm_store. layout. destruct s as [|c s]; [by exists h|]. set (cmd := c :: s).
  assert (Z.of_nat (length (take (Z.to_nat (Z.min (Z.of_nat (length cmd)) (65536 - 1))) cmd)) <= 65535) by (rewrite length_take; lia).
  assert (0 <= Z.min (Z.of_nat (length cmd)) (65536 - 1) <= 65535) by lia.
  in_step. in_step. in_step. in_done.
Qed.

Lemma e820_in h : 0x100000 <= alloc_size (hm_map h) -> succeeds setup_e820 h.
Proof.
  intros Ha. unfold succeeds, setup_e820, hm_store. layout.
  assert (H20 : forall x y z, Z.of_nat (length (e820_entry x y z)) = 20).
  { intros. unfold e820_entry. rewrite !length_app. by autorewrite with len. }
  pose proof (H20 0 0xA0000 kE820Ram). pose proof (H20 0x100000 (u64 (low_size (hm_map h) - 0x100000)) kE820Ram).
  pose proof (H20 (high_base (hm_map h)) (high_size (hm_map h)) kE820Ram).
  in_step. in_step. destruct (0 <? high_size (hm_map h)); [in_step|cbn [mbind option_bind]]; in_step; in_done.
Qed.

Lemma acpi_in n devs ids h :
  0 <= n <= 255 -> (length devs <= 256)%nat -> 0x100000 <= alloc_size (hm_map h) ->
  exists h', BuildAcpiTables n devs ids h = Some (kRsdp, h') /\ hm_map h' = hm_map h.
Proof.
  intros Hn Hd Ha. pose proof acpi_layout. destruct (dsdt_devices_read devs 0 0) as (bs & E & Hb & _); [lia..|].
  assert (Hs : forall t, length (set_checksum t) = length t) by (intros; apply length_insert).
  assert (Hf : forall sg l r, length sg = 4%nat -> length (FillHeader sg l r) = 36%nat).
  { intros sg l r Hsg. unfold FillHeader. rewrite !length_app, Hsg. reflexivity. }
  assert (Hdsdt : exists dsdt, BuildDsdt devs = Some dsdt /\ Z.of_nat (length dsdt) <= 16000).
  { unfold BuildDsdt. rewrite E. eexists. split; [reflexivity|]. rewrite Hs, !length_app, Hf, Hb by done.
    assert (length (scope_pkglen (u32 (5 + u32 (u32 (Z.of_nat (length devs)) * kDevEntry)))) <= 2)%nat
      by (unfold scope_pkglen; case_ifs; cbn; lia).
    change (length s5_object) with 16%nat. change (length (str "_SB_")) with 4%nat. cbn [length]. lia. }
  destruct Hdsdt as (dsdt & Ed & Hl). pose proof (length_madt_body n ids ltac:(lia)).
  assert (Hm : Z.of_nat (length (madt_table n ids)) = 66 + 8 * n) by (unfold madt_table; rewrite Hs, length_app, Hf by done; lia).
  assert (Hx : Z.of_nat (length xsdt_table) = 52) by reflexivity. assert (Hr : Z.of_nat (length rsdp_table) = 36) by reflexivity.
  assert (Hfa : Z.of_nat (length (BuildFadt kDsdt)) = 268) by reflexivity.
  unfold BuildAcpiTables. rewrite Ed. clear Ed Hs Hf. generalize dependent xsdt_table. generalize dependent rsdp_table.
  generalize dependent (BuildFadt kDsdt). generalize dependent (madt_table n ids). intros tm Hm tf Hfa tr Hr tx Hx.
  in_step. in_step. cbn [mbind option_bind]. in_step. in_step. in_step. in_step. in_step. in_done.
Qed.

Lemma initrd_in files path ksize h :
  0 <= ksize -> 0 <= low_size (hm_map h) < 2 ^ 32 -> 0x100000 <= low_size (hm_map h) <= alloc_size (hm_map h) ->
  Z.of_nat (length (ReadFile files path)) <= low_size (hm_map h) ->
  exists ok h', load_initrd files path ksize h = Some (ok, h') /\ hm_map h' = hm_map h.
Proof.
  intros Hk H32 Ha Hl. unfold load_initrd, hm_store. destruct path as [|c path]; [by exists true, h|].
  set (rd := ReadFile files (c :: path)) in *. layout. rewrite (wrap_small 64) by (unfold in_width; lia).
  change (AlignDown _ _) with (initrd_addr (hm_map h) rd). destruct (initrd_addr_bound (hm_map h) rd) as (_ & H0 & He); [lia|].
  case_ifs; [by exists false, h..|]. in_step. in_step. in_step. do 2 eexists. split; [reflexivity|congruence].
Qed.

(** C20. The loader never leaves guest RAM.  For any files, any bytes in them
    and any command line, processor and device counts up to 255 and 256,
    every copy of [LoadLinuxKernel] stays inside its source and inside guest
    RAM, whether it succeeds or gives up; provided that the RAM disk is not
    larger than low memory, which the code does not check
    ([initrd_wrap]). *)
Theorem boot_stays_in_ram files c h :
  ram_base (hm_map h) = 0 -> low_size (hm_map h) <= alloc_size (hm_map h) -> low_size (hm_map h) <= kMmioGapStart ->
  bytes_ok (ReadFile files (kernel_path c)) -> 0 <= cpu_count c <= 255 -> (length (virtio_devs c) <= 256)%nat ->
  Z.of_nat (length (ReadFile files (initrd_path c))) <= low_size (hm_map h) ->
  exists r h', LoadLinuxKernel files c h = Some (r, h') /\ hm_map h' = hm_map h.
Proof.
  intros Hb Ha Hl Hk Hn Hd Hrd. unfold LoadLinuxKernel. set (kernel := ReadFile files (kernel_path c)) in *. unfold kMmioGapStart in Hl.
  destruct (bzimage_ok kernel) eqn:Hbz; cbn [negb]; [|by exists 0, h].
  unfold bzimage_ok in Hbz. bool_hyps. pose proof (setup_size_bound kernel Hk).
  destruct (Z.ltb_spec (low_size (hm_map h)) (kKernelBase + kernel_size kernel)) as [|Hfit]; [by exists 0, h|]. unfold kKernelBase in *.
  assert (Hsz : 0 <= kernel_size kernel /\ setup_size kernel + kernel_size kernel <= Z.of_nat (length kernel)).
  { unfold kernel_size in *. split; [by apply wrap_nonneg|].
    pose proof (wrap_bound 32 (Z.of_nat (length kernel)) ltac:(lia)) as Hw. set (len := u32 (Z.of_nat (length kernel))) in *.
    assert (len <= Z.of_nat (length kernel)) by (apply Z.mod_le; lia).
    destruct (Z.le_gt_cases (setup_size kernel) len); [rewrite wrap_small by (unfold in_width; lia); lia|].
    assert (E : u32 (len - setup_size kernel) = 2 ^ 32 + (len - setup_size kernel)).
    { unfold wrap. symmetry. apply Z.mod_unique with (q := -1); lia. }
    lia. }
  rewrite src_some by lia. cbn [mbind option_bind].
  set (image := take _ (drop _ kernel)). assert (Hi : Z.of_nat (length image) <= kernel_size kernel) by (unfold image; rewrite length_take; lia).
  in_step. assert (Hm : forall g, hm_map g = hm_map h -> 0x100000 <= alloc_size (hm_map g)) by (intros g ->; lia).
  destruct (boot_params_in kernel h0) as (h1 & E1 & M1); [done|done|by apply Hm|]. rewrite E1. cbn [mbind option_bind].
  destruct (cmdline_in (cmdline c) h1) as (h2 & E2 & M2); [apply Hm; congruence|]. rewrite E2. cbn [mbind option_bind].
  assert (Em : hm_map h2 = hm_map h) by congruence.
  destruct (initrd_in files (initrd_path c) (kernel_size kernel) h2) as (ok & h3 & E3 & M3); [lia|rewrite Em; lia..|].
  rewrite E3. cbn [mbind option_bind]. destruct ok; cbn [negb]; [|exists 0, h3; split; [reflexivity|congruence]].
  destruct (e820_in h3) as (h4 & E4 & M4); [apply Hm; congruence|]. rewrite E4. cbn [mbind option_bind].
  destruct (acpi_in (cpu_count c) (virtio_devs c) (apic_ids c) h4) as (h5 & E5 & M5); [done|done|apply Hm; congruence|].
  rewrite E5. cbn [mbind option_bind]. unfold hm_store, write_gdt. assert (Em5 : hm_map h5 = hm_map h) by congruence. layout.
  change (le_bytes 8 0 ++ _) with gdt_bytes. assert (Hg : Z.of_nat (length gdt_bytes) = 32) by reflexivity.
  in_step. in_step. do 2 eexists. split; [reflexivity|congruence].
Qed.

Lemma boot_stays_in_ram_witness :
  exists r h', LoadLinuxKernel (fun _ => Some (demo_image ++ [0])) (mkBootConfig [1] [1] [] 255 demo_devs []) demo_mem = Some (r, h')
    /\ hm_map h' = hm_map demo_mem.
Proof.
  apply boot_stays_in_ram.
  - reflexivity.
  - cbn. lia.
  - cbn. unfold kMmioGapStart. lia.
  - apply Forall_app_2; [exact (proj1 (bo_kernel _ _ _ demo_boot_ok))|repeat constructor; done].
  - cbn. lia.
  - cbn. lia.
  - apply Z.leb_le. vm_compute. reflexivity.
Defined.
