(* ===== verification/IoLoop.v ===== *)
(** * The device I/O loop of a VM

    Models core/vmm/vm_io_loop.{h,cpp}: tasks posted from any thread, timers,
    and the eventfds of interrupts and doorbells, all served by one thread
    that runs a libuv loop.

    The program is a set of events: calls of the owner and of other threads,
    callbacks that libuv makes on the I/O thread, and the exit of that
    thread.  [exec] is what an event does, [None] where the code would touch
    freed memory or a closed handle; [enabled] is when it can happen - what a
    caller may do, and what libuv does with handles (a closing handle gets no
    callback but its close callback, which runs once; the loop ends when no
    handle is left).  [reach] are the states of any interleaving.

    A context is one allocation with the libuv handle inside: [heap] has it
    until the close callback deletes it.  [ran], [dropped] and [accepted] are
    history: the tasks that ran, were thrown away, or were taken by [Post].

    [io_loop_safe]: no event of a reachable state goes wrong.  [tasks_fifo]:
    tasks run once, in order, and only those behind a stop are dropped.
    [removed_timer_silent]: a removed timer does not fire again.
    [stop_drains]: a stopped loop ends, with nothing left.  [restart_drops]:
    a loop that is started again throws every task away. *)

From stdpp Require Import gmap.
From S2P Require Import Prelude.

(** ** Contexts and state *)

Inductive Ctx :=
| TimerCtx (id cb : Z)
| IrqFdCtx (dev trigger_fd resample_fd : Z)
| IoEventFdCtx (fd cb : Z).

(** A context on the heap: is its handle closing, and armed? *)
Record Obj := mkObj { o_ctx : Ctx; o_closing : bool; o_armed : bool }.

(** The closures that are posted. *)
Inductive Task :=
| TUser (fn : Z)
| TNull
| TAddTimer (id initial_ms cb : Z)
| TRemoveTimer (id : Z)
| TAttachIrqFd (dev trigger_fd resample_fd : Z)
| TDetachIrqFd (dev : Z)
| TAttachIoEventFd (fd cb : Z)
| TDetachIoEventFd (fd : Z).

(** A [uv_async_t] member: whether a wakeup is pending. *)
Inductive Async := AClosed | AOpen (pending : bool) | AClosing.

Record VmIoLoop := mkIo {
  accepting_ : bool; running_ : bool; post_queue_ : list Task; io_stopped_ : bool; next_timer_id_ : Z;
  timers_ : gmap Z Z; irqfds_ : gmap Z Z; ioeventfds_ : gmap Z Z;
  async_post_ : Async; async_stop_ : Async;
  (* the I/O thread: exists, and what [OnAsyncPost] has still to run *)
  io_thread_ : bool; drained : list Task;
  heap : gmap Z Obj;
  (* identifiers taken by [AddTimer] calls that have not posted yet *)
  reserved : gset Z;
  accepted : list Task; ran : list Task; dropped : list Task
}.

Definition VmIoLoop_new : VmIoLoop :=
  mkIo false false [] false 1 ∅ ∅ ∅ AClosed AClosed false [] ∅ ∅ [] [] [].

Definition set_flags (acc run : bool) (s : VmIoLoop) : VmIoLoop :=
  mkIo acc run (post_queue_ s) (io_stopped_ s) (next_timer_id_ s) (timers_ s) (irqfds_ s) (ioeventfds_ s) (async_post_ s)
    (async_stop_ s) (io_thread_ s) (drained s) (heap s) (reserved s) (accepted s) (ran s) (dropped s).
Definition set_tasks (queue batch acc rn drp : list Task) (s : VmIoLoop) : VmIoLoop :=
  mkIo (accepting_ s) (running_ s) queue (io_stopped_ s) (next_timer_id_ s) (timers_ s) (irqfds_ s) (ioeventfds_ s) (async_post_ s)
    (async_stop_ s) (io_thread_ s) batch (heap s) (reserved s) acc rn drp.
Definition set_asyncs (post stop : Async) (s : VmIoLoop) : VmIoLoop :=
  mkIo (accepting_ s) (running_ s) (post_queue_ s) (io_stopped_ s) (next_timer_id_ s) (timers_ s) (irqfds_ s) (ioeventfds_ s) post
    stop (io_thread_ s) (drained s) (heap s) (reserved s) (accepted s) (ran s) (dropped s).
Definition set_thread (b : bool) (s : VmIoLoop) : VmIoLoop :=
  mkIo (accepting_ s) (running_ s) (post_queue_ s) (io_stopped_ s) (next_timer_id_ s) (timers_ s) (irqfds_ s) (ioeventfds_ s)
    (async_post_ s) (async_stop_ s) b (drained s) (heap s) (reserved s) (accepted s) (ran s) (dropped s).
Definition set_stopped (s : VmIoLoop) : VmIoLoop :=
  mkIo (accepting_ s) (running_ s) (post_queue_ s) true (next_timer_id_ s) (timers_ s) (irqfds_ s) (ioeventfds_ s)
    (async_post_ s) (async_stop_ s) (io_thread_ s) (drained s) (heap s) (reserved s) (accepted s) (ran s) (dropped s).
Definition set_ids (next : Z) (res : gset Z) (s : VmIoLoop) : VmIoLoop :=
  mkIo (accepting_ s) (running_ s) (post_queue_ s) (io_stopped_ s) next (timers_ s) (irqfds_ s) (ioeventfds_ s)
    (async_post_ s) (async_stop_ s) (io_thread_ s) (drained s) (heap s) res (accepted s) (ran s) (dropped s).
Definition set_heap (ts is_ es : gmap Z Z) (hp : gmap Z Obj) (s : VmIoLoop) : VmIoLoop :=
  mkIo (accepting_ s) (running_ s) (post_queue_ s) (io_stopped_ s) (next_timer_id_ s) ts is_ es
    (async_post_ s) (async_stop_ s) (io_thread_ s) (drained s) hp (reserved s) (accepted s) (ran s) (dropped s).

(** The three tables of contexts, by key. *)
Inductive Key := KTimer (id : Z) | KIrq (dev : Z) | KIo (fd : Z).

Definition key_of (c : Ctx) : Key :=
  match c with TimerCtx id _ => KTimer id | IrqFdCtx dev _ _ => KIrq dev | IoEventFdCtx fd _ => KIo fd end.
Definition slot (s : VmIoLoop) (k : Key) : option Z :=
  match k with KTimer id => timers_ s !! id | KIrq dev => irqfds_ s !! dev | KIo fd => ioeventfds_ s !! fd end.

(** Changes one table and the heap. *)
Definition update (k : Key) (f : gmap Z Z -> Z -> gmap Z Z) (hp : gmap Z Obj) (s : VmIoLoop) : VmIoLoop :=
  match k with
  | KTimer id => set_heap (f (timers_ s) id) (irqfds_ s) (ioeventfds_ s) hp s
  | KIrq dev => set_heap (timers_ s) (f (irqfds_ s) dev) (ioeventfds_ s) hp s
  | KIo fd => set_heap (timers_ s) (irqfds_ s) (f (ioeventfds_ s) fd) hp s
  end.

(** ** libuv *)

(** [uv_close] of a context's handle: the handle must be there and not
    already closing. *)
Definition uv_close (hp : gmap Z Obj) (p : Z) : option (gmap Z Obj) :=
  o ← hp !! p;
  if o_closing o then None else Some (<[p := mkObj (o_ctx o) true false]> hp).

(** [uv_async_send]: the handle must be open. *)
Definition uv_async_send (a : Async) : option Async := match a with AOpen _ => Some (AOpen true) | _ => None end.
Definition close_async (a : Async) : option Async := match a with AOpen _ => Some AClosing | _ => None end.

(** ** The methods *)

(** The outcome of [uv_loop_init] and of the two [uv_async_init]. *)
Definition Start (loop_ok post_ok stop_ok : bool) (s : VmIoLoop) : bool * VmIoLoop :=
  if accepting_ s then (true, s)
  else if negb (loop_ok && post_ok && stop_ok) then (false, s)
  else (true, set_thread true (set_flags true true (set_asyncs (AOpen false) (AOpen false) s))).

(** [Stop] up to the join, and behind it. *)
Definition Stop_begin (s : VmIoLoop) : option VmIoLoop :=
  if negb (accepting_ s) then Some s
  else
    stop ← uv_async_send (async_stop_ s);
    Some (set_asyncs (async_post_ s) stop (set_flags false (running_ s) s)).
Definition Stop_joined (s : VmIoLoop) : VmIoLoop :=
  set_tasks [] (drained s) (accepted s) (ran s) (dropped s ++ post_queue_ s) (set_flags (accepting_ s) false s).

Definition Post (fn : Task) (s : VmIoLoop) : option VmIoLoop :=
  if negb (accepting_ s) then Some s
  else
    post ← uv_async_send (async_post_ s);
    Some (set_asyncs post (async_stop_ s)
            (set_tasks (post_queue_ s ++ [fn]) (drained s) (accepted s ++ [fn]) (ran s) (dropped s) s)).

Definition OnAsyncPost (s : VmIoLoop) : VmIoLoop :=
  if io_stopped_ s then set_tasks [] [] (accepted s) (ran s) (dropped s ++ post_queue_ s) s
  else set_tasks [] (post_queue_ s) (accepted s) (ran s) (dropped s) s.

(** Stops and closes the contexts of a table. *)
Definition close_all (t : gmap Z Z) (hp : gmap Z Obj) : option (gmap Z Obj) :=
  foldr (fun p acc => hp ← acc; uv_close hp p) (Some hp) (map_to_list t).*2.

Definition OnAsyncStop (s : VmIoLoop) : option VmIoLoop :=
  hp ← close_all (timers_ s) (heap s);
  hp ← close_all (irqfds_ s) hp;
  hp ← close_all (ioeventfds_ s) hp;
  post ← close_async (async_post_ s);
  stop ← close_async (async_stop_ s);
  Some (set_asyncs post stop (set_heap ∅ ∅ ∅ hp (set_stopped s))).

(** A new context at [p], in its table; nothing when libuv refuses. *)
Definition create (c : Ctx) (init_ok : bool) (p : Z) (s : VmIoLoop) : VmIoLoop :=
  if negb init_ok then s else update (key_of c) (fun t k => <[k := p]> t) (<[p := mkObj c false true]> (heap s)) s.

Definition destroy (k : Key) (s : VmIoLoop) : option VmIoLoop :=
  match slot s k with
  | None => Some s
  | Some p => hp ← uv_close (heap s) p; Some (update k (fun t k => delete k t) hp s)
  end.

(** The bodies of the posted closures; [p] is what [new] returns. *)
Definition run_task (t : Task) (init_ok : bool) (p : Z) (s : VmIoLoop) : option VmIoLoop :=
  match t with
  | TUser _ | TNull => Some s
  | TAddTimer id initial_ms cb => if io_stopped_ s then Some s else Some (create (TimerCtx id cb) init_ok p s)
  | TRemoveTimer id => destroy (KTimer id) s
  | TAttachIrqFd dev trigger_fd resample_fd =>
      if io_stopped_ s then Some s
      else if bool_decide (is_Some (irqfds_ s !! dev)) then Some s
      else Some (create (IrqFdCtx dev trigger_fd resample_fd) init_ok p s)
  | TDetachIrqFd dev => destroy (KIrq dev) s
  | TAttachIoEventFd fd cb =>
      if io_stopped_ s then Some s
      else if bool_decide (is_Some (ioeventfds_ s !! fd)) then Some s
      else Some (create (IoEventFdCtx fd cb) init_ok p s)
  | TDetachIoEventFd fd => destroy (KIo fd) s
  end.

(** The rest of the loop of [OnAsyncPost]: one task. *)
Definition run_next (init_ok : bool) (p : Z) (s : VmIoLoop) : option VmIoLoop :=
  match drained s with
  | [] => Some s
  | t :: ts => run_task t init_ok p (set_tasks (post_queue_ s) ts (accepted s) (ran s ++ [t]) (dropped s) s)
  end.

(** [next_ms]: what the callback returns. *)
Definition OnTimerFire (p next_ms : Z) (s : VmIoLoop) : option VmIoLoop :=
  o ← heap s !! p;
  match o_ctx o with
  | TimerCtx id _ =>
      if next_ms =? 0 then
        hp ← uv_close (heap s) p;
        Some (update (KTimer id) (fun t k => delete k t) hp s)
      else Some (set_heap (timers_ s) (irqfds_ s) (ioeventfds_ s) (<[p := mkObj (o_ctx o) (o_closing o) true]> (heap s)) s)
  | _ => None
  end.

(** The callbacks of the poll handles change none of the loop's state: what
    they do to the world is the eventfd they write, if any, or the callback
    they run. *)
Inductive PollEffect := NoEffect | WriteTrigger (fd : Z) | RunCallback (cb : Z).

Definition OnIrqFdReadable (status interrupt_status p : Z) (s : VmIoLoop) : option PollEffect :=
  o ← heap s !! p;
  match o_ctx o with
  | IrqFdCtx dev trigger_fd _ =>
      if status <? 0 then Some NoEffect
      else Some (if negb (interrupt_status =? 0) && (0 <=? trigger_fd) then WriteTrigger trigger_fd else NoEffect)
  | _ => None
  end.
Definition OnIoEventFdReadable (status p : Z) (s : VmIoLoop) : option PollEffect :=
  o ← heap s !! p;
  match o_ctx o with
  | IoEventFdCtx fd cb => if status <? 0 then Some NoEffect else Some (RunCallback cb)
  | _ => None
  end.

(** The entry points that post. *)
Definition RemoveTimer (id : Z) : VmIoLoop -> option VmIoLoop := Post (TRemoveTimer id).
Definition AttachIrqFd (dev trigger_fd resample_fd : Z) (s : VmIoLoop) : option VmIoLoop :=
  if (dev =? 0) || (trigger_fd <? 0) || (resample_fd <? 0) then Some s else Post (TAttachIrqFd dev trigger_fd resample_fd) s.
Definition DetachIrqFd (dev : Z) (s : VmIoLoop) : option VmIoLoop := if dev =? 0 then Some s else Post (TDetachIrqFd dev) s.
Definition AttachIoEventFd (fd cb : Z) (s : VmIoLoop) : option VmIoLoop :=
  if (fd <? 0) || (cb =? 0) then Some s else Post (TAttachIoEventFd fd cb) s.
Definition DetachIoEventFd (fd : Z) (s : VmIoLoop) : option VmIoLoop := if fd <? 0 then Some s else Post (TDetachIoEventFd fd) s.

(** [AddTimer] takes its identifier without the lock, then posts. *)
Definition AddTimer_id (s : VmIoLoop) : Z * VmIoLoop :=
  (next_timer_id_ s, set_ids (u64 (next_timer_id_ s + 1)) ({[ next_timer_id_ s ]} ∪ reserved s) s).
Definition AddTimer_post (id initial_ms cb : Z) (s : VmIoLoop) : option VmIoLoop :=
  Post (TAddTimer id initial_ms cb) (set_ids (next_timer_id_ s) (reserved s ∖ {[ id ]}) s).

(** The end of [ThreadMain]: the loop has no handle left. *)
Definition ThreadMain_exit (s : VmIoLoop) : VmIoLoop := set_thread false s.

(** ** Events *)

Inductive Ev :=
(* the owner, one call at a time *)
| EStart (loop_ok post_ok stop_ok : bool) | EStop | EStopJoined
(* any thread, the I/O thread included *)
| EPost (fn : Task) | EAddTimerId | EAddTimerPost (id initial_ms cb : Z) | ERemoveTimer (id : Z)
| EAttachIrqFd (dev trigger_fd resample_fd : Z) | EDetachIrqFd (dev : Z)
| EAttachIoEventFd (fd cb : Z) | EDetachIoEventFd (fd : Z)
(* the I/O thread *)
| EAsyncPost | EAsyncStop | ERun (init_ok : bool) (p : Z) | ETimer (p next_ms : Z)
| EIrqFd (status interrupt_status p : Z) | EIoEventFd (status p : Z)
| EClosed (p : Z) | EPostClosed | EStopClosed | EExit.

Definition io_event (e : Ev) : bool :=
  match e with
  | EAsyncPost | EAsyncStop | ERun _ _ | ETimer _ _ | EIrqFd _ _ _ | EIoEventFd _ _ | EClosed _ | EPostClosed | EStopClosed | EExit => true
  | _ => false
  end.

Definition exec (e : Ev) (s : VmIoLoop) : option VmIoLoop :=
  match e with
  | EStart l p st => Some (snd (Start l p st s))
  | EStop => Stop_begin s
  | EStopJoined => Some (Stop_joined s)
  | EPost fn => Post fn s
  | EAddTimerId => Some (snd (AddTimer_id s))
  | EAddTimerPost id ms cb => AddTimer_post id ms cb s
  | ERemoveTimer id => RemoveTimer id s
  | EAttachIrqFd dev t r => AttachIrqFd dev t r s
  | EDetachIrqFd dev => DetachIrqFd dev s
  | EAttachIoEventFd fd cb => AttachIoEventFd fd cb s
  | EDetachIoEventFd fd => DetachIoEventFd fd s
  | EAsyncPost => Some (OnAsyncPost (set_asyncs (AOpen false) (async_stop_ s) s))
  | EAsyncStop => OnAsyncStop (set_asyncs (async_post_ s) (AOpen false) s)
  | ERun init_ok p => run_next init_ok p s
  | ETimer p next_ms => OnTimerFire p next_ms s
  | EIrqFd status ist p => OnIrqFdReadable status ist p s ≫= fun _ => Some s
  | EIoEventFd status p => OnIoEventFdReadable status p s ≫= fun _ => Some s
  | EClosed p => Some (set_heap (timers_ s) (irqfds_ s) (ioeventfds_ s) (delete p (heap s)) s)
  | EPostClosed => Some (set_asyncs AClosed (async_stop_ s) s)
  | EStopClosed => Some (set_asyncs (async_post_ s) AClosed s)
  (* [uv_loop_close] with a handle left would fail *)
  | EExit => if bool_decide (heap s = ∅) then Some (ThreadMain_exit s) else None
  end.

(** What libuv runs callbacks for: an armed handle that is not closing. *)
Definition live_obj (P : Ctx -> bool) (s : VmIoLoop) (p : Z) : bool :=
  match heap s !! p with Some o => P (o_ctx o) && negb (o_closing o) && o_armed o | None => false end.
Definition is_timer (c : Ctx) : bool := match c with TimerCtx _ _ => true | _ => false end.
Definition is_irqfd (c : Ctx) : bool := match c with IrqFdCtx _ _ _ => true | _ => false end.
Definition is_ioeventfd (c : Ctx) : bool := match c with IoEventFdCtx _ _ => true | _ => false end.

#[export] Instance Task_eq_dec : EqDecision Task.
Proof. solve_decision. Defined.
#[export] Instance Async_eq_dec : EqDecision Async.
Proof. solve_decision. Defined.
#[export] Instance Key_eq_dec : EqDecision Key.
Proof. solve_decision. Defined.
#[export] Instance Ctx_eq_dec : EqDecision Ctx.
Proof. solve_decision. Defined.
#[export] Instance Obj_eq_dec : EqDecision Obj.
Proof. solve_decision. Defined.

(** The I/O thread is between two callbacks. *)
Definition idle (s : VmIoLoop) : bool := io_thread_ s && bool_decide (drained s = []).

Definition enabled (e : Ev) (s : VmIoLoop) : bool :=
  match e with
  | EStart _ _ _ => accepting_ s || negb (running_ s)
  | EStop => true
  | EStopJoined => negb (accepting_ s) && running_ s && negb (io_thread_ s)
  | EPost fn => match fn with TUser _ | TNull => true | _ => false end
  | EAddTimerId => next_timer_id_ s <? 2 ^ 64 - 1
  | EAddTimerPost id _ _ => bool_decide (id ∈ reserved s)
  (* only who called [AddTimer] knows the identifier *)
  | ERemoveTimer id => (id <? next_timer_id_ s) && bool_decide (id ∉ reserved s)
  | EAttachIrqFd _ _ _ | EDetachIrqFd _ | EAttachIoEventFd _ _ | EDetachIoEventFd _ => true
  | EAsyncPost => idle s && bool_decide (async_post_ s = AOpen true)
  | EAsyncStop => idle s && bool_decide (async_stop_ s = AOpen true)
  | ERun _ p => io_thread_ s && bool_decide (drained s ≠ []) && bool_decide (heap s !! p = None)
  | ETimer p _ => idle s && live_obj is_timer s p
  | EIrqFd _ _ p => idle s && live_obj is_irqfd s p
  | EIoEventFd _ p => idle s && live_obj is_ioeventfd s p
  | EClosed p => idle s && match heap s !! p with Some o => o_closing o | None => false end
  | EPostClosed => idle s && bool_decide (async_post_ s = AClosing)
  | EStopClosed => idle s && bool_decide (async_stop_ s = AClosing)
  | EExit => idle s && bool_decide (async_post_ s = AClosed) && bool_decide (async_stop_ s = AClosed)
             && bool_decide (map_Forall (fun _ o => o_closing o = false /\ o_armed o = false) (heap s))
  end.

Inductive reach : VmIoLoop -> Prop :=
| reach_new : reach VmIoLoop_new
| reach_step e s s' : reach s -> enabled e s = true -> exec e s = Some s' -> reach s'.

(** From [s] to [s'] by any events. *)
Inductive steps : VmIoLoop -> VmIoLoop -> Prop :=
| steps_refl s : steps s s
| steps_step e s s' s'' : steps s s' -> enabled e s' = true -> exec e s' = Some s'' -> steps s s''.

(** ** Contexts and tables *)

Lemma slot_update k k' f hp s :
  slot (update k f hp s) k' = if decide (k = k') then
    match k with KTimer id => f (timers_ s) id !! id | KIrq dev => f (irqfds_ s) dev !! dev | KIo fd => f (ioeventfds_ s) fd !! fd end
  else match k, k' with
       | KTimer id, KTimer id' => f (timers_ s) id !! id'
       | KIrq d, KIrq d' => f (irqfds_ s) d !! d'
       | KIo fd, KIo fd' => f (ioeventfds_ s) fd !! fd'
       | _, _ => slot s k'
       end.
Proof. destruct (decide (k = k')) as [->|Hne]; [by destruct k'|]. destruct k, k'; done. Qed.

Lemma slot_insert k p hp s k' :
  slot (update k (fun t k => <[k := p]> t) hp s) k' = if decide (k = k') then Some p else slot s k'.
Proof.
  rewrite slot_update. destruct (decide (k = k')) as [->|Hne]; [destruct k'; apply lookup_insert_eq|].
  destruct k, k'; try done; apply lookup_insert_ne; congruence.
Qed.

Lemma slot_delete k hp s k' :
  slot (update k (fun t k => delete k t) hp s) k' = if decide (k = k') then None else slot s k'.
Proof.
  rewrite slot_update. destruct (decide (k = k')) as [->|Hne]; [destruct k'; apply lookup_delete_eq|].
  destruct k, k'; try done; apply lookup_delete_ne; congruence.
Qed.

(** What [update] leaves alone. *)
Lemma update_frame k f hp s :
  let s' := update k f hp s in
  heap s' = hp /\ accepting_ s' = accepting_ s /\ running_ s' = running_ s /\ post_queue_ s' = post_queue_ s
  /\ io_stopped_ s' = io_stopped_ s /\ next_timer_id_ s' = next_timer_id_ s /\ async_post_ s' = async_post_ s
  /\ async_stop_ s' = async_stop_ s /\ io_thread_ s' = io_thread_ s /\ drained s' = drained s /\ reserved s' = reserved s
  /\ accepted s' = accepted s /\ ran s' = ran s /\ dropped s' = dropped s.
Proof. by destruct k. Qed.

(** The context of [k], not closing, is at [p]. *)
Definition live_at (hp : gmap Z Obj) (k : Key) (p : Z) : Prop :=
  exists o, hp !! p = Some o /\ key_of (o_ctx o) = k /\ o_closing o = false.

(** The tables hold exactly the contexts that are not closing. *)
Definition heap_ok (s : VmIoLoop) : Prop := forall k p, slot s k = Some p <-> live_at (heap s) k p.

Lemma live_at_insert hp p o k q :
  live_at (<[p := o]> hp) k q <-> if decide (p = q) then key_of (o_ctx o) = k /\ o_closing o = false else live_at hp k q.
Proof.
  unfold live_at. destruct (decide (p = q)) as [->|Hne].
  - rewrite lookup_insert_eq. split; [by intros (? & [= <-] & ?)|intros; by exists o].
  - by rewrite lookup_insert_ne.
Qed.

Lemma live_at_inj hp k k' p : live_at hp k p -> live_at hp k' p -> k = k'.
Proof. intros (o & E & <- & _) (o' & E' & <- & _). congruence. Qed.

Lemma create_ok c ok p s :
  heap_ok s -> heap s !! p = None -> slot s (key_of c) = None -> heap_ok (create c ok p s).
Proof.
  intros H Hp Hs. unfold create. destruct ok; [|done]. intros k q. cbn [negb]. rewrite slot_insert.
  destruct (update_frame (key_of c) (fun t k => <[k := p]> t) (<[p := mkObj c false true]> (heap s)) s) as [-> _].
  rewrite live_at_insert. cbn [o_ctx o_closing]. destruct (decide (key_of c = k)) as [<-|Hk], (decide (p = q)) as [<-|Hq].
  - done.
  - split; [congruence|]. intros Hl%H. congruence.
  - split; [|by intros []]. intros (o & E & _)%H. congruence.
  - apply H.
Qed.

Lemma uv_close_ok hp p k : live_at hp k p -> exists o, hp !! p = Some o /\ uv_close hp p = Some (<[p := mkObj (o_ctx o) true false]> hp).
Proof. intros (o & E & _ & Hc). exists o. split; [done|]. unfold uv_close. rewrite E. cbn. by rewrite Hc. Qed.

Lemma destroy_ok k s :
  heap_ok s -> exists s', destroy k s = Some s' /\ heap_ok s' /\ (forall k', slot s' k' = if decide (k = k') then None else slot s k')
    /\ (s' = s \/ exists hp, s' = update k (fun t k => delete k t) hp s).
Proof.
  intros H. unfold destroy. destruct (slot s k) as [p|] eqn:E.
  2:{ exists s. split_and!; [done|done| |by left]. intros k'. destruct (decide (k = k')) as [<-|]; done. }
  destruct (uv_close_ok (heap s) p k) as (o & Ho & ->); [by apply H|]. cbn [mbind option_bind]. eexists. split; [reflexivity|].
  split_and!; [|apply slot_delete|right; by eexists]. intros k' q. rewrite slot_delete.
  destruct (update_frame k (fun t k => delete k t) (<[p := mkObj (o_ctx o) true false]> (heap s)) s) as [-> _].
  rewrite live_at_insert. cbn [o_ctx o_closing]. destruct (decide (k = k')) as [<-|Hk], (decide (p = q)) as [<-|Hq].
  - split; [done|by intros []].
  - split; [done|]. intros Hl%H. congruence.
  - split; [|by intros []]. intros Hl%H. apply H in E. by pose proof (live_at_inj _ _ _ _ E Hl).
  - apply H.
Qed.

(** Closing a list of contexts. *)
Definition close_ptrs (ps : list Z) (hp : gmap Z Obj) : option (gmap Z Obj) := foldr (fun p acc => hp ← acc; uv_close hp p) (Some hp) ps.

Lemma close_ptrs_ok ps hp :
  NoDup ps -> (forall p, p ∈ ps -> exists k, live_at hp k p) ->
  exists hp', close_ptrs ps hp = Some hp'
    /\ forall p, hp' !! p = if decide (p ∈ ps) then (fun o => mkObj (o_ctx o) true false) <$> hp !! p else hp !! p.
Proof.
  induction ps as [|p ps IH]; intros Hnd Hl.
  - exists hp. split; [done|]. intros p. rewrite decide_False; [done|apply not_elem_of_nil].
  - inversion_clear Hnd as [|? ? Hn Hnd']. destruct IH as (hp1 & E1 & H1); [done|intros q Hq; apply Hl; by constructor|].
    cbn [close_ptrs foldr]. fold (close_ptrs ps hp). rewrite E1. cbn [mbind option_bind].
    destruct (Hl p) as (k & o & Ho & Hk & Hc); [by constructor|].
    assert (E : hp1 !! p = Some o) by (by rewrite H1, decide_False).
    unfold uv_close. rewrite E. cbn [mbind option_bind]. rewrite Hc. eexists. split; [reflexivity|]. intros q.
    destruct (decide (p = q)) as [<-|Hq].
    + rewrite lookup_insert_eq, decide_True by (by constructor). by rewrite Ho.
    + rewrite lookup_insert_ne, H1 by done. destruct (decide (q ∈ ps)) as [Hin|Hin].
      * rewrite decide_True by (by apply elem_of_cons; right). done.
      * rewrite decide_False; [done|]. rewrite elem_of_cons. by intros [?|?].
Qed.

Lemma close_table (K : Z -> Key) `{!Inj (=) (=) K} t hp :
  (forall i p, t !! i = Some p <-> live_at hp (K i) p) ->
  exists hp', close_all t hp = Some hp' /\ dom hp' = dom hp
    /\ forall k p, live_at hp' k p <-> live_at hp k p /\ forall i, k <> K i.
Proof.
  intros Ht. set (ps := (map_to_list t).*2).
  assert (Hin : forall p, p ∈ ps <-> exists i, live_at hp (K i) p).
  { intros p. unfold ps. rewrite list_elem_of_fmap. split.
    - intros ([i q] & -> & Hi%elem_of_map_to_list). exists i. by apply Ht.
    - intros (i & Hi%Ht). exists (i, p). split; [done|]. by apply elem_of_map_to_list. }
  destruct (close_ptrs_ok ps hp) as (hp' & E & H).
  { unfold ps. apply NoDup_fmap_2_strong; [|apply NoDup_map_to_list]. intros [i p] [j q] Hi%elem_of_map_to_list%Ht Hj%elem_of_map_to_list%Ht.
    cbn. intros ->. f_equal. apply (inj K). by apply (live_at_inj hp _ _ q). }
  { intros p (i & Hi)%Hin. by exists (K i). }
  exists hp'. split; [exact E|]. split.
  - apply set_eq. intros p. rewrite !elem_of_dom, H. destruct (decide (p ∈ ps)); [by rewrite fmap_is_Some|done].
  - intros k p. unfold live_at at 1. setoid_rewrite H. destruct (decide (p ∈ ps)) as [Hp|Hp].
    + split; [intros (o & (o' & _ & ->)%fmap_Some & _ & ?); done|]. intros [Hk Hne]. apply Hin in Hp as [i Hi].
      by destruct (Hne i (live_at_inj _ _ _ _ Hk Hi)).
    + split; [|by intros []]. intros Hk. split; [exact Hk|]. intros i ->. apply Hp, Hin. by exists i.
Qed.

#[export] Instance KTimer_inj : Inj (=) (=) KTimer. Proof. by intros ?? [=]. Qed.
#[export] Instance KIrq_inj : Inj (=) (=) KIrq. Proof. by intros ?? [=]. Qed.
#[export] Instance KIo_inj : Inj (=) (=) KIo. Proof. by intros ?? [=]. Qed.

Lemma OnAsyncStop_ok s b1 b2 :
  heap_ok s -> async_post_ s = AOpen b1 -> async_stop_ s = AOpen b2 ->
  exists hp, OnAsyncStop s = Some (set_asyncs AClosing AClosing (set_heap ∅ ∅ ∅ hp (set_stopped s)))
    /\ dom hp = dom (heap s) /\ forall k p, ~ live_at hp k p.
Proof.
  intros H E1 E2. unfold OnAsyncStop.
  destruct (close_table KTimer (timers_ s) (heap s)) as (h1 & -> & D1 & H1); [by intros i p; apply (H (KTimer i))|]. cbn [mbind option_bind].
  destruct (close_table KIrq (irqfds_ s) h1) as (h2 & -> & D2 & H2).
  { intros i p. rewrite H1. rewrite <- (H (KIrq i)). split; [done|by intros []]. }
  cbn [mbind option_bind]. destruct (close_table KIo (ioeventfds_ s) h2) as (h3 & -> & D3 & H3).
  { intros i p. rewrite H2, H1. rewrite <- (H (KIo i)). split; [done|by intros [[] ?]]. }
  cbn [mbind option_bind]. rewrite E1, E2. exists h3. split; [done|]. split; [congruence|].
  intros k p. rewrite H3, H2, H1. intros [[[_ Ht] Hi] Ho]. by destruct k as [i|i|i]; [apply (Ht i)|apply (Hi i)|apply (Ho i)].
Qed.

(** ** The invariant *)

(** Life of the I/O thread. *)
Definition phase_ok (s : VmIoLoop) : Prop :=
  if io_thread_ s then
    running_ s = true
    /\ ((exists b1 b2, async_post_ s = AOpen b1 /\ async_stop_ s = AOpen b2
           /\ (post_queue_ s <> [] -> b1 = true) /\ b2 = negb (accepting_ s))
        \/ (accepting_ s = false /\ io_stopped_ s = true
            /\ (async_post_ s = AClosing \/ async_post_ s = AClosed) /\ (async_stop_ s = AClosing \/ async_stop_ s = AClosed)))
  else
    accepting_ s = false /\ heap s = ∅ /\ drained s = [] /\ async_post_ s = AClosed /\ async_stop_ s = AClosed
    /\ (if running_ s then io_stopped_ s = true else post_queue_ s = []).

(** Once stopped the loop has no tasks at hand and no open context. *)
Definition stopped_ok (s : VmIoLoop) : Prop :=
  io_stopped_ s = true -> drained s = [] /\ forall k, slot s k = None.

Definition history_ok (s : VmIoLoop) : Prop :=
  accepted s = ran s ++ dropped s ++ drained s ++ post_queue_ s /\ (io_stopped_ s = false -> dropped s = []).

Definition adds (ts : list Task) : list Z := omap (fun t => match t with TAddTimer id _ _ => Some id | _ => None end) ts.

(** Every identifier has one life: reserved, posted, installed, gone. *)
Record ids_ok (s : VmIoLoop) : Prop := {
  id_next : 0 < next_timer_id_ s < 2 ^ 64;
  id_reserved : forall id, id ∈ reserved s ->
    id < next_timer_id_ s /\ timers_ s !! id = None /\ id ∉ adds (drained s ++ post_queue_ s);
  id_nodup : NoDup (adds (drained s ++ post_queue_ s));
  id_posted : forall id, id ∈ adds (drained s ++ post_queue_ s) -> id < next_timer_id_ s /\ timers_ s !! id = None;
  id_timers : forall id, is_Some (timers_ s !! id) -> id < next_timer_id_ s;
  id_removes : forall id, TRemoveTimer id ∈ drained s ++ post_queue_ s -> id < next_timer_id_ s /\ id ∉ reserved s;
  id_order : forall id l1 l2, drained s ++ post_queue_ s = l1 ++ TRemoveTimer id :: l2 -> id ∉ adds l2
}.

Record inv (s : VmIoLoop) : Prop := {
  inv_heap : heap_ok s; inv_phase : phase_ok s; inv_stopped : stopped_ok s; inv_history : history_ok s; inv_ids : ids_ok s
}.

Lemma inv_new : inv VmIoLoop_new.
Proof.
  constructor.
  - intros k p. split; [by destruct k|]. by intros (o & ? & _).
  - done.
  - by intros ?.
  - done.
  - constructor; try done.
    + apply NoDup_nil_2.
    + by intros ? ?%elem_of_nil.
    + by intros id [? ?].
    + by intros ? ?%elem_of_nil.
    + by intros id [|? ?] ?.
Qed.

Lemma ids_same s s' :
  ids_ok s -> drained s' ++ post_queue_ s' = drained s ++ post_queue_ s -> next_timer_id_ s' = next_timer_id_ s ->
  timers_ s' = timers_ s -> reserved s' = reserved s -> ids_ok s'.
Proof. intros [] Ep En Et Er. by constructor; rewrite ?Ep, ?En, ?Et, ?Er. Qed.

(** All but the tables and the heap. *)
Definition same_rest (s s' : VmIoLoop) : Prop :=
  accepting_ s' = accepting_ s /\ running_ s' = running_ s /\ post_queue_ s' = post_queue_ s
  /\ io_stopped_ s' = io_stopped_ s /\ next_timer_id_ s' = next_timer_id_ s /\ async_post_ s' = async_post_ s
  /\ async_stop_ s' = async_stop_ s /\ io_thread_ s' = io_thread_ s /\ drained s' = drained s /\ reserved s' = reserved s
  /\ accepted s' = accepted s /\ ran s' = ran s /\ dropped s' = dropped s.

Lemma same_rest_update k f hp s : same_rest s (update k f hp s).
Proof. apply (update_frame k f hp s). Qed.

(** A step of the I/O thread that changes tables and heap only. *)
Lemma inv_tables s s' :
  inv s -> same_rest s s' -> io_thread_ s = true -> heap_ok s' ->
  (io_stopped_ s = true -> forall k, slot s' k = None) ->
  (forall id, is_Some (timers_ s' !! id) ->
     is_Some (timers_ s !! id) \/ (id < next_timer_id_ s /\ id ∉ reserved s /\ id ∉ adds (drained s ++ post_queue_ s))) ->
  inv s'.
Proof.
  intros [_ Hp Hst Hh Hi] (E1 & E2 & E3 & E4 & E5 & E6 & E7 & E8 & E9 & E10 & E11 & E12 & E13) Ht Hheap Hs Htm. constructor; [done|..].
  - revert Hp. unfold phase_ok. by rewrite E8, Ht, E1, E2, E3, E4, E6, E7.
  - unfold stopped_ok. rewrite E4, E9. intros H. split; [by apply Hst|by apply Hs].
  - revert Hh. unfold history_ok. by rewrite E3, E4, E9, E11, E12, E13.
  - destruct Hi as [H1 H2 H3 H4 H5 H6 H7].
    assert (Hnone : forall id, timers_ s !! id = None -> (id ∈ reserved s \/ id ∈ adds (drained s ++ post_queue_ s)) -> timers_ s' !! id = None).
    { intros id Hn Hor. apply eq_None_not_Some. intros [[]%eq_None_not_Some|(_ & ? & ?)]%Htm; [done|]. by destruct Hor. }
    constructor; rewrite ?E3, ?E5, ?E9, ?E10; try done.
    + intros id Hid. destruct (H2 id Hid) as (? & ? & ?). split_and!; [done| |done]. apply Hnone; [done|by left].
    + intros id Hid. destruct (H4 id Hid) as (? & ?). split; [done|]. apply Hnone; [done|by right].
    + intros id [Hid|[? _]]%Htm; [by apply H5|done].
Qed.

(** ** Callers *)

Lemma adds_app l1 l2 : adds (l1 ++ l2) = adds l1 ++ adds l2.
Proof. apply omap_app. Qed.

Definition post_ok (fn : Task) (s : VmIoLoop) : Prop :=
  match fn with
  | TAddTimer id _ _ => id < next_timer_id_ s /\ id ∉ reserved s /\ timers_ s !! id = None
                        /\ id ∉ adds (drained s ++ post_queue_ s) /\ TRemoveTimer id ∉ drained s ++ post_queue_ s
  | TRemoveTimer id => id < next_timer_id_ s /\ id ∉ reserved s
  | _ => True
  end.

Lemma ids_post fn s s' :
  ids_ok s -> post_ok fn s -> drained s' = drained s -> post_queue_ s' = post_queue_ s ++ [fn] ->
  next_timer_id_ s' = next_timer_id_ s -> timers_ s' = timers_ s -> reserved s' = reserved s -> ids_ok s'.
Proof.
  intros [H1 H2 H3 H4 H5 H6 H7] Hfn Ed Eq En Et Er.
  assert (Ep : drained s' ++ post_queue_ s' = (drained s ++ post_queue_ s) ++ [fn]) by (by rewrite Ed, Eq, app_assoc).
  unfold post_ok in Hfn. set (pend := drained s ++ post_queue_ s) in *. clearbody pend.
  constructor; rewrite ?Ep, ?En, ?Et, ?Er, ?adds_app; try done.
  - intros id Hid. destruct (H2 id Hid) as (? & ? & ?). split_and!; [done|done|]. rewrite not_elem_of_app. split; [done|].
    destruct fn; cbn; try apply not_elem_of_nil. destruct Hfn as (_ & ? & _). rewrite list_elem_of_singleton. by intros ->.
  - apply NoDup_app. split_and!; [done| |destruct fn; cbn; first [apply NoDup_nil_2|apply NoDup_singleton]].
    intros id Hid. destruct fn; cbn; try apply not_elem_of_nil. destruct Hfn as (_ & _ & _ & ? & _). rewrite list_elem_of_singleton. by intros ->.
  - intros id [Hid|Hid]%elem_of_app; [by apply H4|]. destruct fn; cbn in Hid; try by apply elem_of_nil in Hid.
    apply list_elem_of_singleton in Hid as ->. by destruct Hfn as (? & _ & ? & _).
  - intros id [Hid|Hid]%elem_of_app; [by apply H6|]. apply list_elem_of_singleton in Hid as <-. done.
  - intros id l1 l2 E. destruct l2 as [|x l2] using rev_ind; [apply not_elem_of_nil|].
    rewrite app_comm_cons, app_assoc in E. apply app_inj_tail in E as [E <-]. rewrite adds_app, not_elem_of_app. split; [by eapply H7|].
    destruct fn; cbn; try apply not_elem_of_nil. destruct Hfn as (_ & _ & _ & _ & Hn). rewrite list_elem_of_singleton. intros ->.
    apply Hn. rewrite E. apply elem_of_app. right. by constructor.
Qed.

(** Accepting means that both wakeups are open. *)
Lemma accepting_open s : inv s -> accepting_ s = true ->
  io_thread_ s = true /\ running_ s = true /\ exists b1, async_post_ s = AOpen b1 /\ async_stop_ s = AOpen false /\ (post_queue_ s <> [] -> b1 = true).
Proof.
  intros H Ha. pose proof (inv_phase s H) as Hp. unfold phase_ok in Hp. destruct (io_thread_ s).
  - destruct Hp as (Hr & [(b1 & b2 & ? & E & ? & Hb)|(? & _)]); [|congruence]. rewrite Ha in Hb. split_and!; [done|done|].
    exists b1. by rewrite E, Hb.
  - destruct Hp as (? & _). congruence.
Qed.

Lemma Post_inv fn s : inv s -> post_ok fn s -> exists s', Post fn s = Some s' /\ inv s'.
Proof.
  intros H Hfn. unfold Post. destruct (accepting_ s) eqn:Ea; [|by exists s]. cbn [negb].
  destruct (accepting_open s H Ea) as (Ht & Hr & b1 & E1 & E2 & _). rewrite E1. cbn [uv_async_send mbind option_bind].
  eexists. split; [reflexivity|]. destruct H as [Hheap _ Hst [Hh Hd] Hi]. constructor.
  - exact Hheap.
  - unfold phase_ok. cbn. rewrite Ht. split; [done|]. left. exists true, false. by rewrite Ea.
  - exact Hst.
  - split; [|exact Hd]. cbn. by rewrite Hh, <- !app_assoc.
  - by eapply ids_post.
Qed.

Lemma Start_inv l p st s : inv s -> accepting_ s || negb (running_ s) = true -> inv (snd (Start l p st s)).
Proof.
  intros H He. unfold Start. destruct (accepting_ s) eqn:Ea; [done|]. cbn [orb] in He. apply negb_true_iff in He.
  destruct (l && p && st); [|done]. cbn [negb snd]. destruct H as [Hheap Hp Hst Hh Hi]. unfold phase_ok in Hp.
  destruct (io_thread_ s) eqn:Et; [destruct Hp as (? & _); congruence|]. destruct Hp as (_ & _ & Hdr & _ & _ & Hq). rewrite He in Hq.
  constructor; [exact Hheap| |exact Hst|exact Hh|].
  - unfold phase_ok. cbn. split; [done|]. left. exists false, false. by rewrite Hq.
  - by destruct Hi.
Qed.

Lemma Stop_begin_inv s : inv s -> exists s', Stop_begin s = Some s' /\ inv s'.
Proof.
  intros H. unfold Stop_begin. destruct (accepting_ s) eqn:Ea; [|by exists s]. cbn [negb].
  destruct (accepting_open s H Ea) as (Ht & Hr & b1 & E1 & E2 & Hq). rewrite E2. cbn [uv_async_send mbind option_bind].
  eexists. split; [reflexivity|]. destruct H as [Hheap _ Hst Hh Hi]. constructor; [exact Hheap| |exact Hst|exact Hh|by destruct Hi].
  unfold phase_ok. cbn. rewrite Ht. split; [done|]. left. by exists b1, true.
Qed.

Lemma Stop_joined_inv s : inv s -> negb (accepting_ s) && running_ s && negb (io_thread_ s) = true -> inv (Stop_joined s).
Proof.
  intros [Hheap Hp Hst [Hh Hd] Hi] He. apply andb_true_iff in He as [[_ Er]%andb_true_iff Et%negb_true_iff]. unfold phase_ok in Hp.
  rewrite Et, Er in Hp. destruct Hp as (Ha & He & Hdr & E1 & E2 & Hio).
  constructor; [exact Hheap| |exact Hst| |].
  - unfold phase_ok. cbn. rewrite Et. done.
  - split; cbn; [|congruence]. rewrite Hh, Hdr. cbn. by rewrite app_nil_r.
  - destruct Hi as [H1 H2 H3 H4 H5 H6 H7]. constructor; cbn; rewrite ?Hdr; cbn; try done.
    + intros id Hid. destruct (H2 id Hid) as (? & ? & _). split_and!; [done|done|apply not_elem_of_nil].
    + apply NoDup_nil_2.
    + by intros id ?%elem_of_nil.
    + by intros id ?%elem_of_nil.
    + by intros id [|? ?] ?.
Qed.

Lemma AddTimer_id_inv s : inv s -> next_timer_id_ s <? 2 ^ 64 - 1 = true -> inv (snd (AddTimer_id s)).
Proof.
  intros [Hheap Hp Hst Hh [H1 H2 H3 H4 H5 H6 H7]] He%Z.ltb_lt. constructor; [exact Hheap|exact Hp|exact Hst|exact Hh|].
  cbn [snd AddTimer_id]. assert (En : u64 (next_timer_id_ s + 1) = next_timer_id_ s + 1) by (apply wrap_small; unfold in_width; lia).
  constructor; cbn; rewrite ?En; try done.
  - lia.
  - intros id [->%elem_of_singleton|Hid]%elem_of_union.
    + split_and!; [lia| |].
      * apply eq_None_not_Some. intros Ht%H5. lia.
      * intros [? _]%H4. lia.
    + destruct (H2 id Hid) as (? & ? & ?). split_and!; [lia|done|done].
  - intros id Hid. destruct (H4 id Hid). split; [lia|done].
  - intros id Hid. specialize (H5 id Hid). lia.
  - intros id Hid. destruct (H6 id Hid). split; [lia|]. rewrite elem_of_union, elem_of_singleton. intros [->|?]; [lia|done].
Qed.

Lemma AddTimer_post_inv id ms cb s : inv s -> id ∈ reserved s -> exists s', AddTimer_post id ms cb s = Some s' /\ inv s'.
Proof.
  intros [Hheap Hp Hst Hh [H1 H2 H3 H4 H5 H6 H7]] Hid. destruct (H2 id Hid) as (Hlt & Hn & Hna). apply Post_inv.
  - constructor; [exact Hheap|exact Hp|exact Hst|exact Hh|]. constructor; cbn; try done.
    + intros i [Hi _]%elem_of_difference. by apply H2.
    + intros i Hi. destruct (H6 i Hi). split; [done|]. rewrite elem_of_difference. by intros [].
  - cbn. split_and!; [done| |done|done|].
    + rewrite elem_of_difference, elem_of_singleton. by intros [].
    + intros [_ ?]%H6. done.
Qed.

(** ** Callbacks *)

Lemma idle_spec s : idle s = true -> io_thread_ s = true /\ drained s = [].
Proof. unfold idle. by intros [? ?%bool_decide_eq_true]%andb_true_iff. Qed.

Lemma OnAsyncPost_inv s : inv s -> idle s && bool_decide (async_post_ s = AOpen true) = true ->
  inv (OnAsyncPost (set_asyncs (AOpen false) (async_stop_ s) s)).
Proof.
  intros [Hheap Hp Hst [Hh Hd] Hi] He. apply andb_true_iff in He as [[Et Edr]%idle_spec Epost%bool_decide_eq_true].
  assert (Hp' : running_ s = true /\ exists b2, async_stop_ s = AOpen b2 /\ b2 = negb (accepting_ s)).
  { unfold phase_ok in Hp. rewrite Et in Hp. destruct Hp as (Hr & [(b1 & b2 & _ & E2 & _ & Ha)|(_ & _ & [] & _)]); [|congruence..].
    split; [done|by exists b2]. }
  destruct Hp' as (Hr & b2 & Estop & Ha).
  assert (Hphase : forall s', io_thread_ s' = true -> running_ s' = true -> async_post_ s' = AOpen false -> async_stop_ s' = AOpen b2 ->
            post_queue_ s' = [] -> accepting_ s' = accepting_ s -> phase_ok s').
  { intros s' E1 E2 E3 E4 E5 E6. unfold phase_ok. rewrite E1, E5, E6. split; [done|]. left. by exists false, b2. }
  rewrite Edr in *. cbn [app] in *.
  unfold OnAsyncPost. cbn [io_stopped_ set_asyncs]. destruct (io_stopped_ s) eqn:Eio; (constructor; [exact Hheap|by apply Hphase|..]).
  - intros _. split; [done|]. by apply Hst.
  - split; cbn; [|congruence]. by rewrite Hh, app_nil_r, app_assoc.
  - destruct Hi as [H1 H2 _ _ H5 _ _]. constructor; cbn; try done; try (intros *; by intros ?%elem_of_nil); try by intros ? [|? ?] ?.
    + intros id Hid. destruct (H2 id Hid) as (? & ? & _). split_and!; [done|done|apply not_elem_of_nil].
    + apply NoDup_nil_2.
  - intros ?. cbn in *. congruence.
  - split; cbn; [by rewrite Hh, app_nil_r|]. intros _. by apply Hd.
  - apply (ids_same s); [done|cbn; by rewrite Edr, app_nil_r|done..].
Qed.

Lemma OnAsyncStop_inv s : inv s -> idle s && bool_decide (async_stop_ s = AOpen true) = true ->
  exists s', OnAsyncStop (set_asyncs (async_post_ s) (AOpen false) s) = Some s' /\ inv s'.
Proof.
  intros [Hheap Hp Hst [Hh Hd] Hi] He. apply andb_true_iff in He as [[Et Edr]%idle_spec Estop%bool_decide_eq_true].
  assert (Hp' : running_ s = true /\ exists b1, async_post_ s = AOpen b1).
  { unfold phase_ok in Hp. rewrite Et in Hp. destruct Hp as (Hr & [(b1 & b2 & E1 & _)|(_ & _ & _ & [])]); [|congruence..].
    split; [done|by exists b1]. }
  destruct Hp' as (Hr & b1 & Epost).
  destruct (OnAsyncStop_ok (set_asyncs (async_post_ s) (AOpen false) s) b1 false) as (hp & -> & _ & Hdead); [done..|].
  eexists. split; [reflexivity|]. constructor.
  - intros k p. split; [by destruct k|]. by intros ?%Hdead.
  - unfold phase_ok. cbn. rewrite Et. split; [done|]. right. split_and!; [|done|by left|by left].
    unfold phase_ok in Hp. rewrite Et in Hp. destruct Hp as (_ & [(? & b2 & _ & E2 & _ & Ha)|[? _]]); [|done].
    rewrite Estop in E2. injection E2 as <-. by destruct (accepting_ s).
  - intros _. split; [done|]. by intros [].
  - split; [done|]. cbn. congruence.
  - cbn. destruct Hi as [H1 H2 H3 H4 H5 H6 H7]. constructor; cbn; try done.
    + intros id Hid. destruct (H2 id Hid) as (? & _ & ?). by split_and!.
    + intros id Hid. destruct (H4 id Hid) as (? & _). by split.
    + by intros id [? ?].
Qed.

(** The head of the drained tasks, taken. *)
Definition pop_task (t : Task) (ts : list Task) (s : VmIoLoop) : VmIoLoop :=
  set_tasks (post_queue_ s) ts (accepted s) (ran s ++ [t]) (dropped s) s.

(** What is known of its identifier. *)
Definition head_ok (t : Task) (s : VmIoLoop) : Prop :=
  match t with
  | TAddTimer id _ _ => id < next_timer_id_ s /\ id ∉ reserved s /\ id ∉ adds (drained s ++ post_queue_ s) /\ timers_ s !! id = None
  | TRemoveTimer id => id < next_timer_id_ s /\ id ∉ reserved s /\ id ∉ adds (drained s ++ post_queue_ s)
  | _ => True
  end.

Lemma pop_task_inv t ts s :
  inv s -> drained s = t :: ts -> inv (pop_task t ts s) /\ head_ok t (pop_task t ts s) /\ io_stopped_ s = false.
Proof.
  intros [Hheap Hp Hst [Hh Hd] [H1 H2 H3 H4 H5 H6 H7]] Edr.
  assert (Hio : io_stopped_ s = false).
  { destruct (io_stopped_ s) eqn:E; [|done]. destruct (Hst E) as [? _]. congruence. }
  rewrite Edr in *. cbn [app] in *. change (t :: ?l) with ([t] ++ l) in *. rewrite adds_app in *. apply NoDup_app in H3 as (_ & Hn & Hnd).
  split; [|split; [|done]].
  - constructor; [exact Hheap| | | |].
    + revert Hp. unfold phase_ok. cbn. rewrite Edr. destruct (io_thread_ s); [done|]. by intros (_ & _ & ? & _).
    + intros E. cbn in E. congruence.
    + split; [|exact Hd]. cbn. rewrite Hh, (Hd Hio). cbn. by rewrite <- app_assoc.
    + constructor; cbn; try done.
      * intros id Hid. destruct (H2 id Hid) as (? & ? & [_ ?]%not_elem_of_app). done.
      * intros id Hid. apply H4, elem_of_app. by right.
      * intros id Hid. apply H6, elem_of_app. by right.
      * intros id l1 l2 E. apply (H7 id ([t] ++ l1) l2). by rewrite E.
  - destruct t; try exact I; cbn.
    + destruct (H4 id) as [? ?]; [by left|]. split_and!; [done| |apply Hn; by left|done]. intros (_ & _ & Hx)%H2. apply Hx. by left.
    + destruct (H6 id) as [? ?]; [by left|]. split_and!; [done|done|]. by apply (H7 id [] (ts ++ post_queue_ s)).
Qed.

Lemma same_rest_refl s : same_rest s s.
Proof. by unfold same_rest. Qed.

Lemma create_inv c ok p s :
  inv s -> io_thread_ s = true -> io_stopped_ s = false -> heap s !! p = None -> slot s (key_of c) = None ->
  (forall id cb, c = TimerCtx id cb -> id < next_timer_id_ s /\ id ∉ reserved s /\ id ∉ adds (drained s ++ post_queue_ s)) ->
  inv (create c ok p s) /\ same_rest s (create c ok p s).
Proof.
  intros H Ht Hio Hp Hs Hid. assert (Hr : same_rest s (create c ok p s)).
  { unfold create. destruct ok; [apply same_rest_update|apply same_rest_refl]. }
  split; [|exact Hr]. apply (inv_tables s); [done|exact Hr|done| |congruence|].
  - apply create_ok; [by apply inv_heap|done|done].
  - intros id [q Hq]. unfold create in Hq. destruct ok; [|by left; exists q]. cbn [negb] in Hq.
    change (timers_ ?x !! id) with (slot x (KTimer id)) in Hq. rewrite slot_insert in Hq.
    destruct (decide (key_of c = KTimer id)) as [E|]; [|by left; exists q]. right.
    destruct c as [id' cb| |]; try done. injection E as ->. by apply (Hid id cb).
Qed.

Lemma destroy_inv k s :
  inv s -> io_thread_ s = true -> exists s', destroy k s = Some s' /\ inv s' /\ same_rest s s' /\ slot s' k = None.
Proof.
  intros H Ht. destruct (destroy_ok k s (inv_heap s H)) as (s' & E & Hheap & Hslot & Hs'). exists s'. split; [done|].
  assert (Hr : same_rest s s') by (destruct Hs' as [->|[hp ->]]; [apply same_rest_refl|apply same_rest_update]).
  assert (Hmono : forall k', is_Some (slot s' k') -> is_Some (slot s k')).
  { intros k' [q Hq]. rewrite Hslot in Hq. destruct (decide (k = k')); [done|by exists q]. }
  split_and!; [|done|rewrite Hslot; by rewrite decide_True].
  apply (inv_tables s); [done|done|done|done| |].
  - intros Hio k'. apply eq_None_not_Some. intros Hx%Hmono. destruct (inv_stopped s H Hio) as [_ Hn]. rewrite Hn in Hx. by destruct Hx.
  - intros id Hid. left. by apply (Hmono (KTimer id)).
Qed.

Lemma run_task_inv t ok p s :
  inv s -> head_ok t s -> io_stopped_ s = false -> io_thread_ s = true -> heap s !! p = None ->
  exists s', run_task t ok p s = Some s' /\ inv s' /\ same_rest s s'
    /\ (forall id, t = TRemoveTimer id -> timers_ s' !! id = None).
Proof.
  intros H Hh Hio Ht Hp. pose proof (same_rest_refl s).
  destruct t as [fn| |id ms cb|id|dev tr re|dev|fd cb|fd]; cbn [run_task]; rewrite ?Hio; [by exists s..| | | | | |].
  - destruct Hh as (? & ? & ? & ?). eexists. split; [reflexivity|].
    destruct (create_inv (TimerCtx id cb) ok p s) as [? ?]; [done..|by intros ?? [= <- _]|by split_and!].
  - destruct (destroy_inv (KTimer id) s H Ht) as (s' & E & Hi & Hr & Hn). exists s'. split_and!; [done..|]. by intros ? [= <-].
  - case_bool_decide as E; [by exists s|]. eexists. split; [reflexivity|]. apply eq_None_not_Some in E.
    destruct (create_inv (IrqFdCtx dev tr re) ok p s) as [? ?]; [done..|by split_and!].
  - destruct (destroy_inv (KIrq dev) s H Ht) as (s' & E & Hi & Hr & _). by exists s'.
  - case_bool_decide as E; [by exists s|]. eexists. split; [reflexivity|]. apply eq_None_not_Some in E.
    destruct (create_inv (IoEventFdCtx fd cb) ok p s) as [? ?]; [done..|by split_and!].
  - destruct (destroy_inv (KIo fd) s H Ht) as (s' & E & Hi & Hr & _). by exists s'.
Qed.

Lemma run_next_inv t ts ok p s :
  inv s -> drained s = t :: ts -> io_thread_ s = true -> heap s !! p = None ->
  exists s', run_next ok p s = Some s' /\ inv s' /\ same_rest (pop_task t ts s) s'
    /\ (forall id, t = TRemoveTimer id -> timers_ s' !! id = None).
Proof.
  intros H E Ht Hp. destruct (pop_task_inv t ts s H E) as (Hi & Hh & Hio). unfold run_next. rewrite E. by apply run_task_inv.
Qed.

Lemma live_obj_spec P s p : live_obj P s p = true -> exists o, heap s !! p = Some o /\ P (o_ctx o) = true /\ o_closing o = false.
Proof.
  unfold live_obj. destruct (heap s !! p) as [o|]; [|done]. intros [[? ?%negb_true_iff]%andb_true_iff _]%andb_true_iff. by exists o.
Qed.

Lemma OnTimerFire_inv p next_ms s :
  inv s -> idle s && live_obj is_timer s p = true -> exists s', OnTimerFire p next_ms s = Some s' /\ inv s' /\ same_rest s s'.
Proof.
  intros H He. apply andb_true_iff in He as [[Et _]%idle_spec (o & Eo & Hc & Hcl)%live_obj_spec].
  unfold OnTimerFire. rewrite Eo. cbn [mbind option_bind]. destruct (o_ctx o) as [id cb| |] eqn:Ec; try done.
  assert (Hslot : slot s (KTimer id) = Some p) by (apply (inv_heap s H); exists o; by rewrite Ec).
  destruct (next_ms =? 0).
  - destruct (destroy_inv (KTimer id) s H Et) as (s' & E & Hi & Hr & _). exists s'. split; [|done].
    unfold destroy in E. by rewrite Hslot in E.
  - eexists. split; [reflexivity|]. split; [|by unfold same_rest]. apply (inv_tables s); [done|by unfold same_rest|done| | |by left].
    + intros k q. cbn [heap set_heap]. rewrite live_at_insert. cbn [o_ctx o_closing key_of].
      change (slot (set_heap _ _ _ _ _) k) with (slot s k). destruct (decide (p = q)) as [<-|]; [|apply (inv_heap s H)].
      rewrite (inv_heap s H k p). unfold live_at. rewrite Eo. split; [intros (? & [= <-] & ? & ?); by rewrite Ec in *|].
      intros []. exists o. by rewrite Ec.
    + intros Hio. apply (inv_stopped s H Hio).
Qed.

Lemma EClosed_inv p s :
  inv s -> idle s && match heap s !! p with Some o => o_closing o | None => false end = true ->
  inv (set_heap (timers_ s) (irqfds_ s) (ioeventfds_ s) (delete p (heap s)) s).
Proof.
  intros H He. apply andb_true_iff in He as [[Et _]%idle_spec Hc]. apply (inv_tables s); [done|by unfold same_rest|done| | |by left].
  - intros k q. change (slot (set_heap _ _ _ _ _) k) with (slot s k). rewrite (inv_heap s H k q). unfold live_at. cbn [heap set_heap].
    destruct (decide (p = q)) as [<-|Hne]; [|by rewrite lookup_delete_ne]. rewrite lookup_delete_eq. destruct (heap s !! p) as [o|]; [|done].
    split; [|by intros (? & ? & _)]. intros (? & [= <-] & _ & ?). congruence.
  - intros Hio. apply (inv_stopped s H Hio).
Qed.

(** The loop closes its wakeups: it has been stopped. *)
Definition closing (s : VmIoLoop) : Prop :=
  io_thread_ s = true /\ accepting_ s = false /\ running_ s = true /\ io_stopped_ s = true
  /\ (async_post_ s = AClosing \/ async_post_ s = AClosed) /\ (async_stop_ s = AClosing \/ async_stop_ s = AClosed).

Lemma closing_intro s :
  inv s -> io_thread_ s = true ->
  (async_post_ s = AClosing \/ async_post_ s = AClosed) \/ (async_stop_ s = AClosing \/ async_stop_ s = AClosed) -> closing s.
Proof.
  intros H Et Ha. pose proof (inv_phase s H) as Hp. unfold phase_ok in Hp. rewrite Et in Hp.
  destruct Hp as (Hr & [(b1 & b2 & E1 & E2 & _)|(? & ? & ? & ?)]); [|by unfold closing].
  rewrite E1, E2 in Ha. by destruct Ha as [[|]|[|]].
Qed.

Lemma set_asyncs_inv post stop s :
  inv s -> closing s -> (post = AClosing \/ post = AClosed) -> (stop = AClosing \/ stop = AClosed) -> inv (set_asyncs post stop s).
Proof.
  intros [Hheap _ Hst Hh Hi] (Et & Ha & Hr & Hio & _) H1 H2. constructor; [exact Hheap| |exact Hst|exact Hh|by destruct Hi].
  unfold phase_ok. cbn. rewrite Et. split; [done|]. by right.
Qed.

(** A stopped loop has no open context. *)
Lemma stopped_no_live s : inv s -> io_stopped_ s = true -> map_Forall (fun _ o => o_closing o = true) (heap s).
Proof.
  intros H Hio p o Ho. destruct (o_closing o) eqn:E; [done|]. destruct (inv_stopped s H Hio) as [_ Hn].
  assert (Hl : slot s (key_of (o_ctx o)) = Some p) by (apply (inv_heap s H); by exists o). by rewrite Hn in Hl.
Qed.

Lemma EExit_inv s :
  inv s -> enabled EExit s = true -> heap s = ∅ /\ inv (ThreadMain_exit s).
Proof.
  intros H He. cbn [enabled] in He.
  apply andb_true_iff in He as [[[[Et Edr]%idle_spec Ep%bool_decide_eq_true]%andb_true_iff Es%bool_decide_eq_true]%andb_true_iff Hf%bool_decide_eq_true].
  destruct (closing_intro s H Et) as (_ & Ha & Hr & Hio & _); [left; by right|].
  assert (Hheap : heap s = ∅).
  { apply map_empty. intros p. destruct (heap s !! p) as [o|] eqn:Eo; [|done]. destruct (Hf p o Eo) as [Hc _].
    by rewrite (stopped_no_live s H Hio p o Eo) in Hc. }
  split; [done|]. destruct H as [Hhp _ Hst Hh Hi]. constructor; [exact Hhp| |exact Hst|exact Hh|by destruct Hi].
  unfold phase_ok. cbn. by rewrite Hr.
Qed.

(** Every event that can happen is defined, and keeps the invariant. *)
Lemma exec_inv e s : inv s -> enabled e s = true -> exists s', exec e s = Some s' /\ inv s'.
Proof.
  intros H He. destruct e; cbn [enabled exec] in *; unfold AttachIrqFd, DetachIrqFd, AttachIoEventFd, DetachIoEventFd, RemoveTimer.
  - eexists. split; [done|]. by apply Start_inv.
  - by apply Stop_begin_inv.
  - eexists. split; [done|]. by apply Stop_joined_inv.
  - apply Post_inv; [done|]. by destruct fn.
  - eexists. split; [done|]. by apply AddTimer_id_inv.
  - apply AddTimer_post_inv; [done|]. by apply bool_decide_eq_true in He.
  - apply andb_true_iff in He as [?%Z.ltb_lt ?%bool_decide_eq_true]. by apply Post_inv.
  - case_ifs; [by exists s|]. by apply Post_inv.
  - case_ifs; [by exists s|]. by apply Post_inv.
  - case_ifs; [by exists s|]. by apply Post_inv.
  - case_ifs; [by exists s|]. by apply Post_inv.
  - eexists. split; [done|]. by apply OnAsyncPost_inv.
  - by apply OnAsyncStop_inv.
  - apply andb_true_iff in He as [[Et Ed%bool_decide_eq_true]%andb_true_iff Ep%bool_decide_eq_true].
    destruct (drained s) as [|t ts] eqn:Edr; [done|]. destruct (run_next_inv t ts init_ok p s) as (s' & ? & ? & _); [done..|]. by exists s'.
  - destruct (OnTimerFire_inv p next_ms s H He) as (s' & ? & ? & _). by exists s'.
  - apply andb_true_iff in He as [_ (o & Eo & Hc & _)%live_obj_spec]. unfold OnIrqFdReadable. rewrite Eo. cbn [mbind option_bind].
    destruct (o_ctx o); try done. case_ifs; by exists s.
  - apply andb_true_iff in He as [_ (o & Eo & Hc & _)%live_obj_spec]. unfold OnIoEventFdReadable. rewrite Eo. cbn [mbind option_bind].
    destruct (o_ctx o); try done. case_ifs; by exists s.
  - eexists. split; [done|]. by apply EClosed_inv.
  - apply andb_true_iff in He as [[Et _]%idle_spec Ep%bool_decide_eq_true]. eexists. split; [done|].
    assert (Hc : closing s) by (apply closing_intro; [done|done|left; by left]). apply set_asyncs_inv; [done|done|by right|apply Hc].
  - apply andb_true_iff in He as [[Et _]%idle_spec Ep%bool_decide_eq_true]. eexists. split; [done|].
    assert (Hc : closing s) by (apply closing_intro; [done|done|right; by left]). apply set_asyncs_inv; [done|done|apply Hc|by right].
  - destruct (EExit_inv s H He) as [E Hi]. rewrite bool_decide_eq_true_2 by done. by eexists.
Qed.

Lemma reach_inv s : reach s -> inv s.
Proof.
  induction 1 as [|e s s' _ IH He E]; [apply inv_new|]. destruct (exec_inv e s IH He) as (s1 & E1 & ?). congruence.
Qed.

(** ** A removed timer *)

Definition gone (id : Z) (s : VmIoLoop) : Prop :=
  id < next_timer_id_ s /\ id ∉ reserved s /\ id ∉ adds (drained s ++ post_queue_ s) /\ timers_ s !! id = None.

Lemma gone_tables id s s' : gone id s -> same_rest s s' -> timers_ s' !! id = None -> gone id s'.
Proof. intros (? & ? & ? & _) (_ & _ & E3 & _ & E5 & _ & _ & _ & E9 & E10 & _) Hn. unfold gone. by rewrite E3, E5, E9, E10. Qed.

Lemma destroy_gone id k s s' : timers_ s !! id = None -> destroy k s = Some s' -> timers_ s' !! id = None.
Proof.
  intros Hn. unfold destroy. destruct (slot s k) as [p|]; [|by intros [= <-]]. destruct (uv_close (heap s) p) as [hp|]; [|done].
  intros [= <-]. change (slot (update k (fun t k => delete k t) hp s) (KTimer id) = None). rewrite slot_delete. by destruct (decide _).
Qed.

Lemma create_gone id c ok p s : timers_ s !! id = None -> key_of c <> KTimer id -> timers_ (create c ok p s) !! id = None.
Proof.
  intros Hn Hk. unfold create. destruct ok; [|done]. cbn [negb].
  change (slot (update (key_of c) (fun t k => <[k := p]> t) (<[p := mkObj c false true]> (heap s)) s) (KTimer id) = None).
  rewrite slot_insert. by rewrite decide_False.
Qed.

Lemma run_task_gone id t ok p s s' :
  timers_ s !! id = None -> id ∉ adds [t] -> run_task t ok p s = Some s' -> timers_ s' !! id = None.
Proof.
  intros Hn Ht. destruct t as [fn| |i ms cb|i|dev tr re|dev|fd cb|fd]; cbn [run_task]; try (by intros [= <-]); try (by apply destroy_gone).
  - destruct (io_stopped_ s); intros [= <-]; [done|]. apply create_gone; [done|]. cbn. intros [= ->]. apply Ht. by left.
  - destruct (io_stopped_ s); [by intros [= <-]|]. case_bool_decide; intros [= <-]; [done|]. by apply create_gone.
  - destruct (io_stopped_ s); [by intros [= <-]|]. case_bool_decide; intros [= <-]; [done|]. by apply create_gone.
Qed.

Lemma Post_gone id fn s s' : gone id s -> id ∉ adds [fn] -> Post fn s = Some s' -> gone id s'.
Proof.
  intros (H1 & H2 & H3 & H4) Hf. unfold Post. destruct (accepting_ s); [|by intros [= <-]]. cbn [negb].
  destruct (uv_async_send _); [|done]. intros [= <-]. unfold gone. cbn. split_and!; [done|done| |done].
  rewrite app_assoc, adds_app, not_elem_of_app. done.
Qed.

Lemma gone_call id e s s' :
  io_event e = false -> inv s -> gone id s -> enabled e s = true -> exec e s = Some s' -> gone id s'.
Proof.
  intros Hcall H Hg He E. pose proof Hg as (H1 & H2 & H3 & H4).
  destruct e as [l p st| | |fn| |i ms cb|i|dev tr re|dev|fd cb|fd| | | | | | | | | |]; try done; cbn [enabled exec] in *;
    unfold AttachIrqFd, DetachIrqFd, AttachIoEventFd, DetachIoEventFd, RemoveTimer in *.
  - injection E as <-. unfold Start. by destruct (accepting_ s), (negb (l && p && st)).
  - unfold Stop_begin in E. destruct (accepting_ s); [|by injection E as <-]. cbn [negb] in E.
    destruct (uv_async_send _); [|done]. by injection E as <-.
  - injection E as <-. split_and!; [done|done| |done]. cbn. rewrite adds_app in *. rewrite not_elem_of_app in *.
    split; [by destruct H3|apply not_elem_of_nil].
  - eapply Post_gone; [done| |done]. destruct fn; try done; apply not_elem_of_nil.
  - injection E as <-. pose proof (id_next s (inv_ids s H)). apply Z.ltb_lt in He.
    cbn [snd AddTimer_id]. unfold gone. cbn. rewrite wrap_small by (unfold in_width; lia).
    split_and!; [lia| |done|done]. rewrite elem_of_union, elem_of_singleton. intros [->|?]; [lia|done].
  - apply bool_decide_eq_true in He. eapply (Post_gone id (TAddTimer i ms cb)); [| |exact E].
    + unfold gone. cbn. split_and!; [done| |done|done]. rewrite elem_of_difference. by intros [].
    + cbn. rewrite list_elem_of_singleton. by intros ->.
  - eapply Post_gone; [done| |done]. apply not_elem_of_nil.
  - destruct (_ || _); [by injection E as <-|]. eapply Post_gone; [done| |done]. apply not_elem_of_nil.
  - destruct (dev =? 0); [by injection E as <-|]. eapply Post_gone; [done| |done]. apply not_elem_of_nil.
  - destruct (_ || _); [by injection E as <-|]. eapply Post_gone; [done| |done]. apply not_elem_of_nil.
  - destruct (fd <? 0); [by injection E as <-|]. eapply Post_gone; [done| |done]. apply not_elem_of_nil.
Qed.

Lemma gone_step id e s s' : inv s -> gone id s -> enabled e s = true -> exec e s = Some s' -> gone id s'.
Proof.
  intros H Hg He E. destruct (io_event e) eqn:Ee; [|by eapply gone_call]. pose proof Hg as (H1 & H2 & H3 & H4).
  destruct e as [ | | | | | | | | | | | | |ok p|p next| | |p| | |]; try done; cbn [enabled exec] in *.
  - injection E as <-. rewrite adds_app, not_elem_of_app in H3. destruct H3 as [_ H3]. unfold OnAsyncPost. cbn [io_stopped_ set_asyncs].
    destruct (io_stopped_ s); unfold gone; cbn; (split_and!; [done|done| |done]); [apply not_elem_of_nil|by rewrite app_nil_r].
  - unfold OnAsyncStop in E.
    do 5 apply bind_Some in E as (? & _ & E). injection E as <-. unfold gone. cbn. split_and!; [done|done|done|apply lookup_empty].
  - apply andb_true_iff in He as [[Et Ed%bool_decide_eq_true]%andb_true_iff Ep%bool_decide_eq_true].
    destruct (drained s) as [|t ts] eqn:Edr; [done|]. destruct (run_next_inv t ts ok p s) as (s1 & E1 & _ & Hr & _); [done..|].
    rewrite E1 in E. injection E as <-. change (t :: ts) with ([t] ++ ts) in H3. rewrite <- app_assoc, adds_app, not_elem_of_app in H3.
    destruct H3 as [Ht H3]. apply (gone_tables id (pop_task t ts s)); [by unfold gone|done|]. unfold run_next in E1. rewrite Edr in E1.
    by apply (run_task_gone id t ok p (pop_task t ts s)).
  - destruct (OnTimerFire_inv p next s H He) as (s1 & E1 & _ & Hr). rewrite E1 in E. injection E as <-.
    apply (gone_tables id s); [done|done|]. unfold OnTimerFire in E1. destruct (heap s !! p) as [o|]; [|done]. cbn [mbind option_bind] in E1.
    destruct (o_ctx o); try done. destruct (next =? 0); [|by injection E1 as <-]. destruct (uv_close _ _); [|done]. injection E1 as <-. cbn.
    rewrite lookup_delete. by destruct (decide _).
  - destruct (OnIrqFdReadable _ _ _ _); [|done]. by injection E as <-.
  - destruct (OnIoEventFdReadable _ _ _); [|done]. by injection E as <-.
  - by injection E as <-.
  - by injection E as <-.
  - by injection E as <-.
  - case_bool_decide; [|done]. by injection E as <-.
Qed.

Lemma steps_inv s s' : inv s -> steps s s' -> inv s'.
Proof. intros H. induction 1 as [|e s s1 s2 _ IH He E]; [done|]. destruct (exec_inv e s1 (IH H) He) as (s3 & E3 & ?). congruence. Qed.

Lemma steps_gone id s s' : inv s -> gone id s -> steps s s' -> gone id s'.
Proof.
  intros H Hg Hs. induction Hs as [|e s s1 s2 Hs IH He E]; [done|].
  apply (gone_step id e s1); [by apply (steps_inv s)|by apply IH|done|done].
Qed.

(** ** What the loop promises *)

(** C19. The loop is used without races on its handles.  However calls from any
    threads, libuv's callbacks and stops interleave, no event touches a
    deleted context, closes a handle twice, or signals a wakeup that is
    closed; and once the I/O thread has ended no context is left: every
    [new] of a task has met its [delete]. *)
Theorem io_loop_safe s e :
  reach s -> enabled e s = true ->
  is_Some (exec e s) /\ (io_thread_ s = false -> heap s = ∅ /\ forall k, slot s k = None).
Proof.
  intros H%reach_inv He. destruct (exec_inv e s H He) as (s' & E & _). split; [by exists s'|]. intros Et.
  pose proof (inv_phase s H) as Hp. unfold phase_ok in Hp. rewrite Et in Hp. destruct Hp as (_ & Hh & _). split; [done|].
  intros k. apply eq_None_not_Some. intros (p & o & Ho & _)%(fun x => match x with ex_intro _ p E => ex_intro _ p (proj1 (inv_heap s H k p) E) end).
  by rewrite Hh, lookup_empty in Ho.
Qed.

(** C31. Tasks are served first in, first out.  In every reachable state the
    accepted tasks are those that ran, those dropped, those drained and those
    queued, in the order they were accepted - so each ran at most once, none
    was overtaken - and none is dropped before the loop is stopped.  While the
    loop accepts, a queued task has a wakeup pending. *)
Theorem tasks_fifo s :
  reach s ->
  accepted s = ran s ++ dropped s ++ drained s ++ post_queue_ s
  /\ (io_stopped_ s = false -> dropped s = [])
  /\ (accepting_ s = true -> post_queue_ s <> [] -> async_post_ s = AOpen true).
Proof.
  intros H%reach_inv. destruct (inv_history s H) as [Hh Hd]. split_and!; [done|done|]. intros Ha Hq.
  destruct (accepting_open s H Ha) as (_ & _ & b1 & E & _ & Hb). by rewrite E, Hb.
Qed.

(** A removed timer is silent.  From the moment the I/O thread has run the
    task of [RemoveTimer], whatever happens later, the timer is not in the
    table and libuv has no timer of that identifier to fire. *)
Theorem removed_timer_silent s id ts ok p s1 s2 :
  reach s -> drained s = TRemoveTimer id :: ts -> enabled (ERun ok p) s = true -> exec (ERun ok p) s = Some s1 -> steps s1 s2 ->
  timers_ s2 !! id = None
  /\ forall q next_ms o, enabled (ETimer q next_ms) s2 = true -> heap s2 !! q = Some o -> key_of (o_ctx o) <> KTimer id.
Proof.
  intros H%reach_inv Ed He E Hs. destruct (exec_inv _ _ H He) as (s1' & E1 & H1). rewrite E in E1. injection E1 as <-.
  cbn [enabled exec] in *. apply andb_true_iff in He as [[Et _]%andb_true_iff Ep%bool_decide_eq_true].
  destruct (run_next_inv _ ts ok p s H Ed Et Ep) as (s1' & E1 & _ & Hr & Hn). rewrite E in E1. injection E1 as <-.
  destruct (pop_task_inv _ ts s H Ed) as (_ & (Ha & Hb & Hc) & _).
  assert (Hg : gone id s1).
  { destruct Hr as (_ & _ & E3 & _ & E5 & _ & _ & _ & E9 & E10 & _). unfold gone. rewrite E3, E5, E9, E10. split_and!; [done..|]. by apply Hn. }
  pose proof (steps_gone id s1 s2 H1 Hg Hs) as (_ & _ & _ & Hnone). split; [done|]. intros q next_ms o He2 Ho Hk.
  cbn [enabled] in He2. apply andb_true_iff in He2 as [_ (o' & Eo & _ & Hcl)%live_obj_spec]. rewrite Ho in Eo. injection Eo as <-.
  assert (Hl : slot s2 (KTimer id) = Some q) by (apply (inv_heap s2 (steps_inv _ _ H1 Hs)); by exists o).
  change (timers_ s2 !! id = Some q) in Hl. congruence.
Qed.

(** ** The end *)

Definition async_left (a : Async) : nat := match a with AClosed => 0 | _ => 1 end.
Definition left_to_close (s : VmIoLoop) : nat :=
  size (heap s) + async_left (async_post_ s) + async_left (async_stop_ s) + (if io_thread_ s then 1 else 0).

Lemma closing_facts s : inv s -> closing s -> idle s = true /\ map_Forall (fun _ o => o_closing o = true) (heap s).
Proof.
  intros H (Et & _ & _ & Hio & _). split; [|by apply stopped_no_live]. unfold idle. rewrite Et.
  apply bool_decide_eq_true. apply (inv_stopped s H Hio).
Qed.

Lemma closing_goes_on s : inv s -> closing s -> exists e, io_event e = true /\ enabled e s = true.
Proof.
  intros H Hc. destruct (closing_facts s H Hc) as [Hi Hcl]. destruct Hc as (_ & _ & _ & _ & Hp & Hs).
  destruct (decide (heap s = ∅)) as [Eh|Eh].
  - destruct Hp as [Hp|Hp]; [exists EPostClosed; cbn [enabled]; by rewrite Hi, Hp|].
    destruct Hs as [Hs|Hs]; [exists EStopClosed; cbn [enabled]; by rewrite Hi, Hs|].
    exists EExit. cbn [enabled]. rewrite Hi, Hp, Hs, Eh. cbn [andb]. split; [done|]. apply bool_decide_eq_true, map_Forall_empty.
  - apply map_choose in Eh as (p & o & Ho). exists (EClosed p). cbn [enabled]. rewrite Hi, Ho. cbn. by rewrite (Hcl p o Ho).
Qed.

Lemma closing_call e s s' :
  io_event e = false -> closing s -> enabled e s = true -> exec e s = Some s' -> closing s' /\ left_to_close s' = left_to_close s.
Proof.
  intros Hcall Hc He E. pose proof Hc as (Et & Ha & Hr & Hio & Hp & Hs).
  assert (Hpost : forall fn s0, accepting_ s0 = false -> Post fn s0 = Some s' -> s' = s0).
  { intros fn s0 Ha0. unfold Post. rewrite Ha0. by intros [= <-]. }
  destruct e; try done; cbn [enabled exec] in *; unfold AttachIrqFd, DetachIrqFd, AttachIoEventFd, DetachIoEventFd, RemoveTimer in *.
  - rewrite Ha, Hr in He. done.
  - unfold Stop_begin in E. rewrite Ha in E. by injection E as <-.
  - by rewrite Et, andb_false_r in He.
  - apply Hpost in E as ->; done.
  - by injection E as <-.
  - apply Hpost in E as ->; done.
  - apply Hpost in E as ->; done.
  - destruct (_ || _); [by injection E as <-|]. apply Hpost in E as ->; done.
  - destruct (dev =? 0); [by injection E as <-|]. apply Hpost in E as ->; done.
  - destruct (_ || _); [by injection E as <-|]. apply Hpost in E as ->; done.
  - destruct (fd <? 0); [by injection E as <-|]. apply Hpost in E as ->; done.
Qed.

Lemma closing_io e s s' :
  io_event e = true -> inv s -> closing s -> enabled e s = true -> exec e s = Some s' ->
  (left_to_close s' < left_to_close s)%nat /\ (closing s' \/ (io_thread_ s' = false /\ heap s' = ∅)).
Proof.
  intros Hio_e H Hc He E. destruct (closing_facts s H Hc) as [Hi Hcl]. destruct (idle_spec s Hi) as [_ Ed].
  pose proof Hc as (Et & Ha & Hr & Hio & Hp & Hs).
  assert (Hlive : forall P p, live_obj P s p = true -> False).
  { intros P p (o & Ho & _ & Hf)%live_obj_spec. by rewrite (Hcl p o Ho) in Hf. }
  destruct e; try done; cbn [enabled exec] in *;
    try (exfalso; apply andb_true_iff in He as [_ Hx]; by apply Hlive in Hx); rewrite ?Hi in He; cbn [andb] in He.
  - apply bool_decide_eq_true in He. rewrite He in Hp. by destruct Hp.
  - apply bool_decide_eq_true in He. rewrite He in Hs. by destruct Hs.
  - by rewrite Ed, Et in He.
  - injection E as <-. split; [|by left]. unfold left_to_close. cbn. destruct (heap s !! p) as [o|] eqn:Eo; [|done].
    rewrite map_size_delete_Some by (by exists o). assert (size (heap s) <> 0%nat); [|lia]. apply map_size_non_empty_iff. intros Eh.
    by rewrite Eh, lookup_empty in Eo.
  - apply bool_decide_eq_true in He. injection E as <-. unfold left_to_close, closing. cbn. rewrite He. cbn. split; [lia|].
    left. split_and!; try done. by right.
  - apply bool_decide_eq_true in He. injection E as <-. unfold left_to_close, closing. cbn. rewrite He. cbn. split; [lia|].
    left. split_and!; try done. by right.
  - case_bool_decide as Eh; [|done]. injection E as <-. unfold left_to_close. cbn. rewrite Et. split; [lia|]. by right.
Qed.

(** No context is registered any more. *)
Definition no_tables (s : VmIoLoop) : Prop := timers_ s = ∅ /\ irqfds_ s = ∅ /\ ioeventfds_ s = ∅.

Lemma stopped_no_tables s : inv s -> io_stopped_ s = true -> no_tables s.
Proof.
  intros H Hio. destruct (inv_stopped s H Hio) as [_ Hn].
  unfold no_tables. split_and!; apply map_empty; intros i; [apply (Hn (KTimer i))|apply (Hn (KIrq i))|apply (Hn (KIo i))].
Qed.

(** The stop callback leaves a closing loop. *)
Lemma OnAsyncStop_closing s s' : inv s -> enabled EAsyncStop s = true -> exec EAsyncStop s = Some s' -> closing s'.
Proof.
  intros H He E. destruct (exec_inv _ _ H He) as (s1 & E1 & Hi). rewrite E in E1. injection E1 as <-.
  cbn [enabled] in He. apply andb_true_iff in He as [[Et _]%idle_spec _].
  cbn [exec] in E. unfold OnAsyncStop in E. do 3 apply bind_Some in E as (? & _ & E).
  apply bind_Some in E as (post & Ep & E). apply bind_Some in E as (stop & _ & E). injection E as <-.
  apply closing_intro; [exact Hi|exact Et|]. left. left. revert Ep. cbn [async_post_ set_asyncs]. unfold close_async.
  destruct (async_post_ s); [done| |done]. by intros [= <-].
Qed.

Lemma stopped_stays e s s' : io_event e = true -> enabled e s = true -> exec e s = Some s' -> closing s -> inv s ->
  io_thread_ s' = false -> io_stopped_ s' = true.
Proof.
  intros Hio_e He E Hc H Ht. pose proof Hc as (Et & _ & _ & Hio & _). destruct (closing_facts s H Hc) as [Hi Hcl].
  assert (Hlive : forall P p, live_obj P s p = true -> False).
  { intros P p (o & Ho & _ & Hf)%live_obj_spec. by rewrite (Hcl p o Ho) in Hf. }
  destruct e; try done; cbn [enabled exec] in *;
    try (exfalso; apply andb_true_iff in He as [_ Hx]; by apply Hlive in Hx);
    rewrite ?Hi in He; cbn [andb] in He.
  - apply bool_decide_eq_true in He. destruct Hc as (_ & _ & _ & _ & Hp & _). rewrite He in Hp. by destruct Hp.
  - unfold OnAsyncStop in E. do 5 apply bind_Some in E as (? & _ & E). by injection E as <-.
  - destruct (idle_spec s Hi) as [_ Ed]. by rewrite Ed, Et in He.
  - by injection E as <-.
  - by injection E as <-.
  - by injection E as <-.
  - case_bool_decide; [|done]. by injection E as <-.
Qed.

(** The I/O thread has ended and left nothing behind. *)
Definition ended (s : VmIoLoop) : Prop := io_thread_ s = false /\ heap s = ∅ /\ no_tables s.

(** C25. A stopped loop ends.  The stop callback leaves a loop that closes its
    handles and has no context in its tables.  From there some event of the
    I/O thread can always happen until the thread has ended, every such event
    brings the end closer by the measure [left_to_close], no call of another
    thread sets it back, and the thread ends with every context deleted and
    every table empty: the join in [Stop] returns. *)
Theorem stop_drains s :
  reach s ->
  (forall s', enabled EAsyncStop s = true -> exec EAsyncStop s = Some s' -> closing s')
  /\ (closing s ->
      no_tables s /\ (exists e, io_event e = true /\ enabled e s = true)
      /\ forall e s', enabled e s = true -> exec e s = Some s' ->
           (closing s' \/ ended s')
           /\ (if io_event e then (left_to_close s' < left_to_close s)%nat else left_to_close s' = left_to_close s)).
Proof.
  intros H%reach_inv. split; [intros s' He E; by apply (OnAsyncStop_closing s s')|]. intros Hc.
  split; [apply stopped_no_tables; [done|apply Hc]|]. split; [by apply closing_goes_on|].
  intros e s' He E. destruct (io_event e) eqn:Ee; [|destruct (closing_call e s s' Ee Hc He E); split; [by left|done]].
  destruct (closing_io e s s' Ee H Hc He E) as [Hm [Hc'|[Ht Hh]]]; (split; [|done]); [by left|right].
  destruct (exec_inv e s H He) as (s1 & E1 & Hi). rewrite E in E1. injection E1 as <-. split; [done|]. split; [done|].
  apply stopped_no_tables; [done|]. by apply (stopped_stays e s s').
Qed.

(** ** Runs *)

Definition run1 (e : Ev) (s : VmIoLoop) : option VmIoLoop := if enabled e s then exec e s else None.
Definition run (evs : list Ev) (s : VmIoLoop) : option VmIoLoop := foldl (fun acc e => s ← acc; run1 e s) (Some s) evs.

Lemma run_reach evs s : reach s -> forall s', run evs s = Some s' -> reach s'.
Proof.
  unfold run. induction evs as [|e evs IH] using rev_ind; intros H s'; [by intros [= <-]|]. rewrite foldl_snoc.
  intros (s1 & E1 & E)%bind_Some. unfold run1 in E. destruct (enabled e s1) eqn:Ee; [|done].
  by apply (reach_step e s1); [apply IH| |].
Qed.

(** A timer that is added, fires, is removed while a task waits, and a stop. *)
Definition demo_evs : list Ev :=
  [EStart true true true; EAddTimerId; EAddTimerPost 1 10 5; EAttachIoEventFd 7 9; EPost (TUser 3); EAsyncPost;
   ERun true 100; ERun true 101; ERun true 102; ETimer 100 10; ERemoveTimer 1; EPost (TUser 4); EAsyncPost].
Definition demo_state : VmIoLoop := default VmIoLoop_new (run demo_evs VmIoLoop_new).
Definition demo_removed : VmIoLoop := default VmIoLoop_new (run1 (ERun true 102) demo_state).
Definition demo_stop_evs : list Ev := demo_evs ++ [ERun true 102; ERun true 102; EStop; EPost (TUser 5); EAsyncStop].
Definition demo_stopped : VmIoLoop := default VmIoLoop_new (run demo_stop_evs VmIoLoop_new).

Lemma demo_reach : reach demo_state /\ reach demo_stopped.
Proof.
  split; [apply (run_reach demo_evs _ reach_new)|apply (run_reach demo_stop_evs _ reach_new)]; vm_compute; reflexivity.
Qed.

Lemma io_loop_safe_witness : enabled (ERun true 102) demo_state = true /\ is_Some (exec (ERun true 102) demo_state).
Proof.
  split; [vm_compute; reflexivity|]. apply (io_loop_safe demo_state (ERun true 102)); [apply demo_reach|vm_compute; reflexivity].
Defined.

Lemma tasks_fifo_witness : dropped demo_stopped = [] /\ accepted demo_state = ran demo_state ++ dropped demo_state ++ drained demo_state ++ post_queue_ demo_state.
Proof. split; [vm_compute; reflexivity|]. apply (tasks_fifo demo_state). apply demo_reach. Defined.

Lemma removed_timer_silent_witness : timers_ demo_state !! 1 = Some 100 /\ timers_ demo_removed !! 1 = None.
Proof.
  split; [vm_compute; reflexivity|].
  apply (removed_timer_silent demo_state 1 [TUser 4] true 102 demo_removed demo_removed); [apply demo_reach|vm_compute; reflexivity..|apply steps_refl].
Defined.

Lemma stop_drains_witness : exists e, io_event e = true /\ enabled e demo_stopped = true.
Proof.
  destruct (stop_drains demo_stopped) as [_ H]; [apply demo_reach|].
  destruct H as (_ & H & _); [split_and!; vm_compute; try reflexivity; by left|exact H].
Defined.

(** [Start] does not clear [io_stopped_]: a loop that was stopped and is
    started again takes tasks, wakes up, and throws every one away. *)
Lemma restart_drops s s' : reach s -> io_stopped_ s = true -> steps s s' -> ran s' = ran s.
Proof.
  intros H%reach_inv Hio Hs. enough (inv s' /\ io_stopped_ s' = true /\ ran s' = ran s) by tauto.
  induction Hs as [|e s s1 s2 Hs IH He E]; [done|]. destruct (IH H Hio) as (H1 & Hio1 & Hr1). clear IH Hs. rewrite <- Hr1.
  destruct (exec_inv e s1 H1 He) as (s3 & E3 & H3). rewrite E in E3. injection E3 as <-. split; [done|].
  assert (Hpost : forall fn s0, Post fn s0 = Some s2 -> io_stopped_ s0 = true -> ran s0 = ran s1 -> io_stopped_ s2 = true /\ ran s2 = ran s1).
  { intros fn s0. unfold Post. destruct (accepting_ s0); [|by intros [= <-]]. cbn [negb]. destruct (uv_async_send _); [|done]. by intros [= <-]. }
  destruct e as [l p st| | |fn| |i ms cb|i|dev tr re|dev|fd cb|fd| | |ok p|p next| | |p| | |]; cbn [enabled exec] in *;
    unfold AttachIrqFd, DetachIrqFd, AttachIoEventFd, DetachIoEventFd, RemoveTimer in *; try (by injection E as <-); try (by apply Hpost in E).
  - injection E as <-. unfold Start. by destruct (accepting_ s1), (negb (l && p && st)).
  - unfold Stop_begin in E. destruct (accepting_ s1); [|by injection E as <-]. cbn [negb] in E. destruct (uv_async_send _); [|done]. by injection E as <-.
  - destruct (_ || _); [by injection E as <-|by apply Hpost in E].
  - destruct (dev =? 0); [by injection E as <-|by apply Hpost in E].
  - destruct (_ || _); [by injection E as <-|by apply Hpost in E].
  - destruct (fd <? 0); [by injection E as <-|by apply Hpost in E].
  - injection E as <-. unfold OnAsyncPost. cbn [io_stopped_ set_asyncs]. by rewrite Hio1.
  - unfold OnAsyncStop in E. do 5 apply bind_Some in E as (? & _ & E). by injection E as <-.
  - destruct (inv_stopped s1 H1 Hio1) as [Ed _]. rewrite Ed in He. by rewrite andb_false_r in He.
  - destruct (OnTimerFire_inv p next s1 H1 He) as (s4 & E4 & _ & (_ & _ & _ & R1 & _ & _ & _ & _ & _ & _ & _ & R2 & _)).
    rewrite E4 in E. injection E as <-. by rewrite R1, R2.
  - destruct (OnIrqFdReadable _ _ _ _); [|done]. by injection E as <-.
  - destruct (OnIoEventFdReadable _ _ _); [|done]. by injection E as <-.
  - case_bool_decide; [|done]. by injection E as <-.
Qed.

Lemma restarted_loop_idles :
  (s ← run [EStart true true true; EStop; EAsyncStop; EPostClosed; EStopClosed; EExit; EStopJoined; EStart true true true;
            EPost (TUser 3); EAsyncPost] VmIoLoop_new; Some (accepting_ s, running_ s, accepted s, ran s, dropped s))
  = Some (true, true, [TUser 3], [], [TUser 3]).
Proof. vm_compute. reflexivity. Qed.
