(* ===== verification/VirtioInput.v ===== *)
(** * The virtio keyboard and tablet

    Models core/device/virtio/virtio_input.{h,cpp} - configuration space and
    injection of input events - and from core/vmm/vm.cpp the VM's
    [InjectKeyEvent], [InjectPointerEvent] and [InjectWheelEvent], which turn
    console input into groups of events.

    [input_capabilities]: what a driver reads by the select protocol are
    exactly the events the VM can send.  [input_group_delivered]: a group of
    events that finds buffers reaches the guest completely and in order.
    [button_release_lost]: a pointer event that finds no buffer is forgotten,
    but its button state is remembered as sent. *)

From Stdlib Require Import ZifyBool.
From S2P Require Import Prelude.
From S2P Require Import StdString.
From S2P Require Import GuestMem.
From S2P Require Import VirtQueue.
From S2P Require Import VirtioMmio.
From S2P Require Import VirtioChain.
From S2P Require Import VirtioNet.

Definition EV_SYN : Z := 0.
Definition EV_KEY : Z := 1.
Definition EV_REL : Z := 2.
Definition EV_ABS : Z := 3.
Definition EV_MSC : Z := 4.
Definition EV_REP : Z := 0x14.
Definition SYN_REPORT : Z := 0.
Definition MSC_SCAN : Z := 4.
Definition ABS_X : Z := 0.
Definition ABS_Y : Z := 1.
Definition REL_WHEEL : Z := 8.
Definition REL_HWHEEL : Z := 6.
Definition BTN_LEFT : Z := 0x110.
Definition BTN_RIGHT : Z := 0x111.
Definition BTN_MIDDLE : Z := 0x112.

Definition VIRTIO_INPUT_CFG_ID_NAME : Z := 1.
Definition VIRTIO_INPUT_CFG_ID_SERIAL : Z := 2.
Definition VIRTIO_INPUT_CFG_ID_DEVIDS : Z := 3.
Definition VIRTIO_INPUT_CFG_PROP_BITS : Z := 0x10.
Definition VIRTIO_INPUT_CFG_EV_BITS : Z := 0x11.
Definition VIRTIO_INPUT_CFG_ABS_INFO : Z := 0x12.

Inductive SubType := kKeyboard | kTablet.

(** [config_] without the reserved bytes. *)
Record InputDev := mkInput { sub_type_ : SubType; c_select : Z; c_subsel : Z; c_size : Z; c_data : bytes }.

Definition InputDev_new (t : SubType) : InputDev := mkInput t 0 0 0 (replicate 128 0).

(** ** Configuration space *)

Definition SetBit (bitmap : bytes) (bit : Z) : bytes :=
  let i := Z.to_nat (bit / 8) in <[i := (nth i bitmap 0) .| (1 .<< (bit mod 8))]> bitmap.

(** [config_.data] from [l] on, and the size. *)
Definition fill (l : bytes) : bytes * Z := (l ++ replicate (128 - length l) 0, Z.of_nat (length l)).
Definition set_bits (bits : list Z) (size : Z) : bytes * Z := (fold_left SetBit bits (replicate 128 0), size).
Definition nothing : bytes * Z := (replicate 128 0, 0).

Definition ev_bits (t : SubType) (subsel : Z) : bytes * Z :=
  match t with
  | kKeyboard =>
      if subsel =? EV_KEY then set_bits (seqZ 1 248) (u8 (248 / 8 + 1))
      else if subsel =? EV_SYN then set_bits [SYN_REPORT] 1
      else if subsel =? EV_REP then set_bits [0; 1] 1
      else if subsel =? EV_MSC then set_bits [MSC_SCAN] 1
      else nothing
  | kTablet =>
      if subsel =? EV_ABS then set_bits [ABS_X; ABS_Y] 1
      else if subsel =? EV_REL then set_bits [REL_WHEEL; REL_HWHEEL] (u8 (REL_WHEEL / 8 + 1))
      else if subsel =? EV_KEY then set_bits [BTN_LEFT; BTN_RIGHT; BTN_MIDDLE] (u8 (BTN_MIDDLE / 8 + 1))
      else if subsel =? EV_SYN then set_bits [SYN_REPORT] 1
      else nothing
  end.

Definition UpdateConfigData (d : InputDev) : InputDev :=
  let '(data, size) :=
    if c_select d =? VIRTIO_INPUT_CFG_ID_NAME then
      fill (match sub_type_ d with kKeyboard => str "virtio-keyboard" | kTablet => str "virtio-tablet" end)
    else if c_select d =? VIRTIO_INPUT_CFG_ID_SERIAL then fill (str "tenbox-0")
    else if c_select d =? VIRTIO_INPUT_CFG_ID_DEVIDS then
      fill (le_bytes 2 0x06 ++ le_bytes 2 0x0001
              ++ le_bytes 2 (match sub_type_ d with kKeyboard => 0x0001 | kTablet => 0x0002 end) ++ le_bytes 2 0x0001)
    else if c_select d =? VIRTIO_INPUT_CFG_PROP_BITS then nothing
    else if c_select d =? VIRTIO_INPUT_CFG_EV_BITS then ev_bits (sub_type_ d) (c_subsel d)
    else if c_select d =? VIRTIO_INPUT_CFG_ABS_INFO then
      match sub_type_ d with
      | kTablet => if (c_subsel d =? ABS_X) || (c_subsel d =? ABS_Y)
                   then fill (le_bytes 4 0 ++ le_bytes 4 32767 ++ le_bytes 4 0 ++ le_bytes 4 0 ++ le_bytes 4 0) else nothing
      | kKeyboard => nothing
      end
    else nothing in
  mkInput (sub_type_ d) (c_select d) (c_subsel d) size data.

Definition input_config_bytes (d : InputDev) : bytes := [c_select d; c_subsel d; c_size d] ++ replicate 5 0 ++ c_data d.

(** [None]: the read starts outside the structure, or the [memcpy] leaves the
    4-byte variable. *)
Definition Input_ReadConfig (d : InputDev) (offset size : Z) : option (InputDev * Z) :=
  if 136 <? u32 (offset + size) then Some (d, 0)
  else if (4 <? size) || (136 <? offset + size) then None
  else Some (d, le_val (take (Z.to_nat size) (drop (Z.to_nat offset) (input_config_bytes d)))).

Definition Input_WriteConfig (d : InputDev) (offset size value : Z) : InputDev :=
  if 136 <? u32 (offset + size) then d
  else if (offset <=? 1) && (u32 (offset + size) <=? 2) then
    let cfg := take (Z.to_nat offset) [c_select d; c_subsel d] ++ take (Z.to_nat size) (le_bytes 4 value)
               ++ drop (Z.to_nat (offset + size)) [c_select d; c_subsel d] in
    UpdateConfigData (mkInput (sub_type_ d) (nth 0 cfg 0) (nth 1 cfg 0) (c_size d) (c_data d))
  else d.

(** ** Queues *)

Abbreviation input_world := (Mmio * InputDev * HostMem)%type.

(** The status queue is discarded. *)
Definition discard (head : Z) (w : input_world) : option input_world :=
  let '(m, d, h) := w in h ← PushUsed (queue_at m 1) h head 0; Some (m, d, h).

Definition Input_OnQueueNotify (i : Z) (w : input_world) : option input_world :=
  if i =? 1 then drain discard (Z.to_nat 65536) 1 w else Some w.

Record InputEvent := mkEvent { ev_type : Z; ev_code : Z; ev_value : Z }.
Definition event_bytes (e : InputEvent) : bytes := le_bytes 2 (ev_type e) ++ le_bytes 2 (ev_code e) ++ le_bytes 4 (ev_value e).

Definition notify_if (notify : bool) (m : Mmio) (h : HostMem) : option Mmio := if notify then NotifyUsedBuffer 0 m h else Some m.

Definition InjectEvent (e : InputEvent) (notify : bool) (w : input_world) : option input_world :=
  let '(m, d, h) := w in
  match GetQueue m 0 with
  | None => Some w
  | Some vq =>
      if negb (ready_ vq) then Some w
      else
        r ← PopAvail vq h;
        let '(o, q, h) := (r : option Z * VirtQueue * HostMem) in
        let m := set_queue 0 q m in
        match o with
        | None => m ← notify_if notify m h; Some (m, d, h)
        | Some head =>
            r ← WalkChain q h head;
            let '(ok, chain) := (r : bool * list VirtqChainElem) in
            if negb ok then h ← PushUsed q h head 0; m ← notify_if notify m h; Some (m, d, h)
            else
              r ← scatter_writable chain (event_bytes e) h;
              let '(h, written) := (r : HostMem * Z) in
              h ← PushUsed q h head written;
              m ← notify_if notify m h;
              Some (m, d, h)
        end
  end.

#[export] Instance Input_VirtioDeviceOps : VirtioDeviceOps InputDev := {
  GetDeviceId := fun _ => 18;
  GetDeviceFeatures := fun _ => 1 .<< 32;
  GetNumQueues := fun _ => 2;
  GetQueueMaxSize := fun _ _ => 64;
  OnQueueNotify := Input_OnQueueNotify;
  ReadConfig := Input_ReadConfig;
  WriteConfig := Input_WriteConfig;
  OnStatusChange := fun _ w => Some w
}.

(** ** The VM's input *)

(** Events injected one after the other, the last one with its interrupt. *)
Fixpoint inject_group (evs : list InputEvent) (w : input_world) : option input_world :=
  match evs with
  | [] => Some w
  | [e] => InjectEvent e true w
  | e :: evs => w ← InjectEvent e false w; inject_group evs w
  end.

Definition syn : InputEvent := mkEvent EV_SYN SYN_REPORT 0.

Definition key_group (evdev_code : Z) (pressed : bool) : list InputEvent :=
  [mkEvent EV_KEY (u16 evdev_code) (b2z pressed); syn].
Definition InjectKeyEvent (evdev_code : Z) (pressed : bool) (kbd : option input_world) : option (option input_world) :=
  match kbd with None => Some None | Some w => Some <$> inject_group (key_group evdev_code pressed) w end.

(** [x], [y]: the coordinates as [int32_t]. *)
Definition button_event (mask code buttons prev : Z) : list InputEvent :=
  if (buttons .& mask) =? (prev .& mask) then [] else [mkEvent EV_KEY code (b2z (has buttons mask))].
Definition pointer_group (x y buttons prev : Z) : list InputEvent :=
  [mkEvent EV_ABS ABS_X (u32 x); mkEvent EV_ABS ABS_Y (u32 y)]
  ++ button_event 1 BTN_LEFT buttons prev ++ button_event 2 BTN_RIGHT buttons prev ++ button_event 4 BTN_MIDDLE buttons prev
  ++ [syn].

(** With [inject_prev_buttons_]. *)
Definition InjectPointerEvent (x y buttons : Z) (prev : Z) (tablet : option input_world) : option (Z * option input_world) :=
  match tablet with
  | None => Some (prev, None)
  | Some w => w ← inject_group (pointer_group x y buttons prev) w; Some (buttons, Some w)
  end.

Definition wheel_group (delta : Z) : list InputEvent := [mkEvent EV_REL REL_WHEEL (u32 delta); syn].
Definition InjectWheelEvent (delta : Z) (tablet : option input_world) : option (option input_world) :=
  match tablet with
  | None => Some None
  | Some w => if delta =? 0 then Some (Some w) else Some <$> inject_group (wheel_group delta) w
  end.

(** ** Capabilities *)

(** The driver's side of the protocol: it writes select and subsel, reads the
    size, and then that many bytes of data, one by one. *)
Fixpoint read_data (n : nat) (offset : Z) (d : InputDev) : option bytes :=
  match n with
  | O => Some []
  | S n => '(d, b) ← Input_ReadConfig d offset 1; l ← read_data n (offset + 1) d; Some (b :: l)
  end.

Definition query (d : InputDev) (select subsel : Z) : option bytes :=
  let d := Input_WriteConfig (Input_WriteConfig d 0 1 select) 1 1 subsel in
  '(d, size) ← Input_ReadConfig d 2 1;
  read_data (Z.to_nat size) 8 d.

Definition bit_set (bitmap : bytes) (k : Z) : bool := Z.testbit (nth (Z.to_nat (k / 8)) bitmap 0) (k mod 8).

(** The event types and codes a device announces. *)
Definition announced (d : InputDev) (ty code : Z) : bool :=
  match query d VIRTIO_INPUT_CFG_EV_BITS ty with Some bitmap => bit_set bitmap code | None => false end.

(** Event types and codes by device. *)
Definition sends (t : SubType) (ty code : Z) : bool :=
  match t with
  | kKeyboard => ((ty =? EV_KEY) && (1 <=? code) && (code <=? 248)) || ((ty =? EV_SYN) && (code =? SYN_REPORT))
                 || ((ty =? EV_REP) && ((code =? 0) || (code =? 1))) || ((ty =? EV_MSC) && (code =? MSC_SCAN))
  | kTablet => ((ty =? EV_KEY) && (BTN_LEFT <=? code) && (code <=? BTN_MIDDLE)) || ((ty =? EV_SYN) && (code =? SYN_REPORT))
               || ((ty =? EV_ABS) && ((code =? ABS_X) || (code =? ABS_Y)))
               || ((ty =? EV_REL) && ((code =? REL_WHEEL) || (code =? REL_HWHEEL)))
  end.

Lemma bit_set_SetBit bm b k :
  0 <= b -> 0 <= k -> b / 8 < Z.of_nat (length bm) -> bit_set (SetBit bm b) k = (k =? b) || bit_set bm k.
Proof.
  intros Hb Hk Hl. unfold bit_set, SetBit. assert (0 <= b / 8) by (apply Z.div_pos; lia). assert (0 <= k / 8) by (apply Z.div_pos; lia).
  rewrite !nth_lookup. destruct (Z.eq_dec (k / 8) (b / 8)) as [E|E].
  - rewrite E, list_lookup_insert_eq by lia. cbn [from_option id]. rewrite <- nth_lookup. set (w := nth _ bm 0).
    assert (0 <= k mod 8 < 8 /\ 0 <= b mod 8 < 8) as [] by (split; apply Z.mod_pos_bound; lia).
    rewrite Z.lor_spec, Z.shiftl_spec, orb_comm by lia. f_equal. destruct (Z.eqb_spec k b) as [->|Hne]; [by rewrite Z.sub_diag|].
    change 1 with (2 ^ 0). rewrite Z.pow2_bits_false; [done|]. intros E'. apply Hne. rewrite (Z.div_mod k 8), (Z.div_mod b 8) by lia. lia.
  - rewrite list_lookup_insert_ne by lia. replace (k =? b) with false; [done|]. symmetry. apply Z.eqb_neq. congruence.
Qed.

Lemma bit_set_fold bits : forall bm k,
  0 <= k -> Forall (fun b => 0 <= b < 8 * Z.of_nat (length bm)) bits ->
  bit_set (fold_left SetBit bits bm) k = existsb (Z.eqb k) bits || bit_set bm k.
Proof.
  induction bits as [|b bits IH]; intros bm k Hk Hb; [done|]. inversion_clear Hb as [|? ? [Hb0 Hb1] Hbs].
  assert (Hl : length (SetBit bm b) = length bm) by apply length_insert. cbn [fold_left existsb]. rewrite IH by (by rewrite ?Hl).
  rewrite bit_set_SetBit by (first [done|apply Z.div_lt_upper_bound; lia]). by destruct (k =? b), (existsb _ _).
Qed.

Lemma bit_set_zeros n k : bit_set (replicate n 0) k = false.
Proof.
  unfold bit_set. rewrite nth_lookup. destruct (replicate n 0 !! _) as [x|] eqn:E; [|apply Z.testbit_0_l].
  apply lookup_replicate in E as [-> _]. apply Z.testbit_0_l.
Qed.

(** A bitmap cut behind the byte of its last bit. *)
Lemma bit_set_taken bits size k :
  0 <= k -> Forall (fun b => 0 <= b < 8 * size) bits -> size <= 128 ->
  bit_set (take (Z.to_nat size) (fst (set_bits bits size))) k = existsb (Z.eqb k) bits.
Proof.
  intros Hk Hb Hs. assert (0 <= k / 8) by (apply Z.div_pos; lia). cbn [fst set_bits].
  assert (E : bit_set (fold_left SetBit bits (replicate 128 0)) k = existsb (Z.eqb k) bits).
  { rewrite bit_set_fold, bit_set_zeros, orb_false_r; [done|done|]. eapply Forall_impl; [exact Hb|]. intros b Hx. cbv beta in *. rewrite length_replicate. lia. }
  destruct (Z.lt_ge_cases (k / 8) size) as [Hlt|Hge].
  - rewrite <- E. unfold bit_set. by rewrite !nth_lookup, lookup_take_lt by lia.
  - unfold bit_set. rewrite nth_overflow, Z.testbit_0_l by (rewrite length_take; lia). symmetry. apply not_true_iff_false.
    intros (b & Hin & <-%Z.eqb_eq)%existsb_exists. apply list_elem_of_In in Hin. pose proof (proj1 (Forall_forall _ _) Hb k Hin) as Hx. cbv beta in Hx.
    assert (k / 8 < size); [|lia]. apply Z.div_lt_upper_bound; lia.
Qed.

Lemma UpdateConfigData_kept d :
  sub_type_ (UpdateConfigData d) = sub_type_ d /\ c_select (UpdateConfigData d) = c_select d /\ c_subsel (UpdateConfigData d) = c_subsel d.
Proof. unfold UpdateConfigData. by match goal with |- context [let '(_, _) := ?x in _] => destruct x end. Qed.

(** Selecting, by its two writes. *)
Lemma select_eq d select subsel : 0 <= select < 256 -> 0 <= subsel < 256 ->
  exists size data, Input_WriteConfig (Input_WriteConfig d 0 1 select) 1 1 subsel
    = UpdateConfigData (mkInput (sub_type_ d) select subsel size data).
Proof.
  intros Hs Hb. change (Input_WriteConfig d 0 1 select) with (UpdateConfigData (mkInput (sub_type_ d) (select mod 256) (c_subsel d) (c_size d) (c_data d))).
  set (d1 := UpdateConfigData _). exists (c_size d1), (c_data d1).
  change (Input_WriteConfig d1 1 1 subsel) with (UpdateConfigData (mkInput (sub_type_ d1) (c_select d1) (subsel mod 256) (c_size d1) (c_data d1))).
  destruct (UpdateConfigData_kept (mkInput (sub_type_ d) (select mod 256) (c_subsel d) (c_size d) (c_data d))) as (E1 & E2 & _).
  fold d1 in E1, E2. by rewrite E1, E2, !Z.mod_small by lia.
Qed.

(** One byte of the structure. *)
Lemma read_config_byte d k b :
  0 <= k < 136 -> input_config_bytes d !! Z.to_nat k = Some b -> Input_ReadConfig d k 1 = Some (d, b).
Proof.
  intros Hk Hb. unfold Input_ReadConfig. rewrite wrap_small by (unfold in_width; lia). rewrite (proj2 (Z.ltb_ge 136 (k + 1))) by lia.
  change (4 <? 1) with false. cbn [orb]. rewrite (drop_S _ b _ Hb). change (Z.to_nat 1) with 1%nat. cbn [take le_val]. by rewrite Z.mul_0_r, Z.add_0_r.
Qed.

Lemma query_reads d select subsel size data :
  Input_WriteConfig (Input_WriteConfig d 0 1 select) 1 1 subsel = mkInput (sub_type_ d) select subsel size data ->
  length data = 128%nat -> 0 <= size <= 128 -> query d select subsel = Some (take (Z.to_nat size) data).
Proof.
  intros E Hd Hs. unfold query. rewrite E. set (d1 := mkInput (sub_type_ d) select subsel size data).
  rewrite (read_config_byte d1 2 size) by done || lia. cbn [mbind option_bind].
  assert (H : forall n k, (k + n <= 128)%nat -> read_data n (8 + Z.of_nat k) d1 = Some (take n (drop k data))).
  { induction n as [|n IH]; intros k Hk; [done|]. cbn [read_data].
    destruct (lookup_lt_is_Some_2 data k) as [b Hb]; [lia|].
    rewrite (read_config_byte d1 _ b); [|lia|].
    - cbn [mbind option_bind]. rewrite (drop_S _ _ _ Hb). cbn [take].
      specialize (IH (S k) ltac:(lia)). replace (8 + Z.of_nat k + 1) with (8 + Z.of_nat (S k)) by lia. by rewrite IH.
    - replace (Z.to_nat (8 + Z.of_nat k)) with (8 + k)%nat by lia. exact Hb. }
  exact (H (Z.to_nat size) 0%nat ltac:(lia)).
Qed.

Lemma SetBit_fold_length bits bm : length (fold_left SetBit bits bm) = length bm.
Proof. revert bm. induction bits as [|b bits IH]; intros bm; [done|]. cbn [fold_left]. rewrite IH. apply length_insert. Qed.

Lemma ev_bits_size t ty : length (fst (ev_bits t ty)) = 128%nat /\ 0 <= snd (ev_bits t ty) <= 128.
Proof.
  unfold ev_bits, set_bits, nothing. destruct t; case_ifs; cbn [fst snd]; rewrite ?SetBit_fold_length, ?length_replicate; (split; [done|]);
    vm_compute; split; discriminate.
Qed.

Lemma query_bits d ty :
  0 <= ty < 256 ->
  query d VIRTIO_INPUT_CFG_EV_BITS ty = Some (take (Z.to_nat (snd (ev_bits (sub_type_ d) ty))) (fst (ev_bits (sub_type_ d) ty))).
Proof.
  intros Hty. destruct (select_eq d VIRTIO_INPUT_CFG_EV_BITS ty) as (size & data & E); [unfold VIRTIO_INPUT_CFG_EV_BITS; lia|done|].
  destruct (ev_bits_size (sub_type_ d) ty) as [Hl Hs]. apply query_reads; [|done|done]. rewrite E. unfold UpdateConfigData.
  cbn [c_select sub_type_ c_subsel]. change (VIRTIO_INPUT_CFG_EV_BITS =? VIRTIO_INPUT_CFG_EV_BITS) with true.
  change (VIRTIO_INPUT_CFG_EV_BITS =? VIRTIO_INPUT_CFG_ID_NAME) with false. change (VIRTIO_INPUT_CFG_EV_BITS =? VIRTIO_INPUT_CFG_ID_SERIAL) with false.
  change (VIRTIO_INPUT_CFG_EV_BITS =? VIRTIO_INPUT_CFG_ID_DEVIDS) with false. change (VIRTIO_INPUT_CFG_EV_BITS =? VIRTIO_INPUT_CFG_PROP_BITS) with false.
  cbv iota. by destruct (ev_bits (sub_type_ d) ty).
Qed.

(** The driver learns what it will get.  In any state of the device, a
    driver that writes select and subsel and then reads the size and the
    bitmap byte by byte finds exactly the events of the device: escape to code
    248, repeat and scan codes for the keyboard; buttons, axes and wheels for
    the tablet.  Whatever the VM's pointer and wheel input is, and for any key
    up to 248, every event it injects is one announced. *)
Theorem input_capabilities :
  (forall d ty code, 0 <= ty < 256 -> 0 <= code -> announced d ty code = sends (sub_type_ d) ty code)
  /\ (forall d code pressed, sub_type_ d = kKeyboard -> 1 <= code <= 248 ->
        Forall (fun e => announced d (ev_type e) (ev_code e) = true) (key_group code pressed))
  /\ (forall d x y buttons prev, sub_type_ d = kTablet -> Forall (fun e => announced d (ev_type e) (ev_code e) = true) (pointer_group x y buttons prev))
  /\ (forall d delta, sub_type_ d = kTablet -> Forall (fun e => announced d (ev_type e) (ev_code e) = true) (wheel_group delta)).
Proof.
  assert (H : forall d ty code, 0 <= ty < 256 -> 0 <= code -> announced d ty code = sends (sub_type_ d) ty code).
  { intros d ty code Hty Hc. unfold announced. rewrite query_bits by done. generalize (sub_type_ d). intros t. unfold ev_bits, nothing.
    assert (Hz : forall n, bit_set (take n (replicate 128 0)) code = false) by (intros n; rewrite take_replicate; apply bit_set_zeros).
    assert (Hseq : existsb (Z.eqb code) (seqZ 1 248) = (1 <=? code) && (code <=? 248)).
    { apply eq_bool_prop_intro. rewrite !Is_true_true, existsb_exists. split.
      - intros (x & Hin%list_elem_of_In%elem_of_seqZ & ->%Z.eqb_eq). lia.
      - intros Hx. exists code. rewrite Z.eqb_refl, <- list_elem_of_In, elem_of_seqZ. lia. }
    unfold EV_KEY, EV_SYN, EV_REP, EV_MSC, EV_ABS, EV_REL, SYN_REPORT, MSC_SCAN, BTN_LEFT, BTN_MIDDLE, BTN_RIGHT, ABS_X, ABS_Y, REL_WHEEL, REL_HWHEEL.
    destruct t; case_ifs; cbn [snd set_bits nothing]; rewrite ?Hz; change (u8 (248 / 8 + 1)) with 32; change (u8 (8 / 8 + 1)) with 2;
      change (u8 (0x112 / 8 + 1)) with 35; try rewrite bit_set_taken; try done.
    all: try (apply Forall_forall; intros b Hb%elem_of_seqZ; lia).
    all: try (repeat apply Forall_cons_2; try apply Forall_nil_2; lia).
    all: rewrite ?Hseq; cbn [existsb]; unfold sends, EV_KEY, EV_SYN, EV_REP, EV_MSC, EV_ABS, EV_REL, SYN_REPORT, MSC_SCAN, BTN_LEFT, BTN_MIDDLE,
      ABS_X, ABS_Y, REL_WHEEL, REL_HWHEEL; lia. }
  split_and!; [done| | |].
  - intros d code pressed Ht Hc. repeat apply Forall_cons_2; try apply Forall_nil_2; cbn [ev_type ev_code syn]; rewrite H, Ht; try done; [|by apply wrap_nonneg].
    rewrite wrap_small by (unfold in_width; lia). unfold sends. cbn. lia.
  - intros d x y buttons prev Ht. unfold pointer_group, button_event. repeat apply Forall_app_2; repeat case_ifs;
      repeat apply Forall_cons_2; try apply Forall_nil_2; cbn [ev_type ev_code syn]; by rewrite H, Ht.
  - intros d delta Ht. repeat apply Forall_cons_2; try apply Forall_nil_2; cbn [ev_type ev_code syn]; by rewrite H, Ht.
Qed.

Lemma input_capabilities_witness :
  let tablet := InputDev_new kTablet in
  let keyboard := InputDev_new kKeyboard in
  announced tablet EV_KEY BTN_MIDDLE = true /\ announced keyboard EV_KEY 249 = false
  /\ Forall (fun e => announced keyboard (ev_type e) (ev_code e) = true) (key_group 30 true).
Proof.
  intros tablet keyboard. destruct input_capabilities as (H & Hk & _). split; [|split].
  - rewrite (H tablet EV_KEY BTN_MIDDLE) by (unfold EV_KEY, BTN_MIDDLE; lia). reflexivity.
  - rewrite (H keyboard EV_KEY 249) by (unfold EV_KEY, BTN_MIDDLE; lia). reflexivity.
  - apply Hk; [reflexivity|split; discriminate].
Defined.

(** ** One event *)

Lemma load_same n h h' a : hm_read h' a (Z.of_nat n) = hm_read h a (Z.of_nat n) -> hm_load n h' a = hm_load n h a.
Proof. unfold hm_load. by intros ->. Qed.

Lemma length_event e : length (event_bytes e) = 8%nat.
Proof. unfold event_bytes. by rewrite !length_app, !length_le_bytes. Qed.

(** What a delivered event changes. *)
Record delivered (q : VirtQueue) (used head hva : Z) (e : InputEvent) (h h' : HostMem) : Prop := {
  dl_map : hm_map h' = hm_map h;
  dl_data : hm_read h' hva 8 = Some (event_bytes e);
  dl_idx : used_idx h' used = u16 (used_idx h used + 1);
  dl_slot : used_slot q h' used (used_idx h used mod queue_size_ q) = (head, 8);
  dl_slots : forall k, 0 <= k < queue_size_ q -> k <> used_idx h used mod queue_size_ q -> used_slot q h' used k = used_slot q h used k;
  dl_frame : forall a n, outside q used a n -> a + n <= hva \/ hva + 8 <= a -> hm_read h' a n = hm_read h a n
}.

Lemma InjectEvent_step (m : Mmio) (d : InputDev) h avail used hva len e notify safe q0 h0 :
  let q := queue_at m 0 in
  let head := avail_entry h q avail (last_avail_idx_ q) in
  0 < num_queues m -> ring_layout q h avail used -> queue_ok q -> last_avail_idx_ q <> avail_idx h avail -> in_width 32 head ->
  (forall a n, safe a n -> outside q used a n) -> request_at safe q0 h0 head [MkElem hva len true] ->
  same_ring q0 q -> agree safe h0 h -> outside q used hva len -> 0 <= hva /\ hva + len <= alloc_size (hm_map h) -> 8 <= len ->
  exists q' h', InjectEvent e notify (m, d, h) = (m' ← notify_if notify (set_queue 0 q' m) h'; Some (m', d, h'))
    /\ same_ring q q' /\ last_avail_idx_ q' = u16 (last_avail_idx_ q + 1) /\ delivered q used head hva e h h'.
Proof.
  intros q head Hn Hlay Hok Hne Hw Hsafe Hr Hq0 Hh0 Hout Hin Hlen. pose proof (PopAvail_step q h avail used Hlay Hok) as Hp. cbv zeta in Hp.
  rewrite (proj2 (Z.eqb_neq _ _) Hne) in Hp. destruct Hp as (q1 & h1 & Hp & Hlast & Hq & He). fold head in Hp.
  assert (Hag : agree (outside q used) h h1) by (apply same_but_event_agree; [destruct Hlay; lia|done]).
  destruct (request_stable safe q0 q1 h0 h1 head _ Hr (same_ring_trans _ _ _ Hq0 Hq) (agree_trans _ _ _ _ Hh0 (agree_weaken _ _ _ _ Hsafe Hag))) as [Hwalk _].
  assert (Hl1 : ring_layout q1 h1 avail used) by (eapply same_ring_layout; [exact Hlay|done|apply He]).
  assert (Hwr : exists h2, hm_write h1 hva (event_bytes e) = Some h2).
  { unfold hm_write. rewrite length_event. destruct He as [-> _]. rewrite (proj2 (Z.leb_le 0 hva)), (proj2 (Z.leb_le _ _)) by lia. by eexists. }
  destruct Hwr as [h2 Hwr]. pose proof (hm_write_map _ _ _ _ Hwr) as Hm2.
  assert (Hl2 : ring_layout q1 h2 avail used) by (eapply same_ring_layout; [exact Hl1|apply same_ring_refl|done]).
  destruct (PushUsed_spec q1 h2 avail used head 8 Hl2 Hw) as (h3 & Hpu & Hslot & Hidx & Hslots & Hm3 & Hkeep); [done|].
  pose proof Hq as (Hsz & _). destruct (rl_size _ _ _ _ Hlay) as [Hs1 _]. unfold outside in Hout.
  (* the ring between the first two steps *)
  assert (Hring : forall a n, 0 <= n -> used <= a -> a + n <= used + 4 + 8 * queue_size_ q -> hm_read h2 a n = hm_read h a n).
  { intros a n H0 Ha Hb. destruct He as [_ He]. rewrite <- (He a n) by lia.
    apply (hm_read_write_disjoint h1 hva (event_bytes e)); [done|rewrite length_event; lia]. }
  assert (Eidx : used_idx h2 used = used_idx h used) by (unfold used_idx; by rewrite (load_same 2 h h2) by (apply Hring; lia)).
  assert (Eslot : forall k, 0 <= k < queue_size_ q -> used_slot q h2 used k = used_slot q h used k).
  { intros k Hk. unfold used_slot. by rewrite !(load_same 4 h h2) by (apply Hring; lia). }
  exists q1, h3. split_and!; [|done|done|].
  - unfold InjectEvent, GetQueue. rewrite (proj2 (Z.ltb_lt 0 _) Hn). fold q. destruct Hok as [-> _]. cbn [negb].
    rewrite Hp. cbn [mbind option_bind]. rewrite Hwalk. cbn [mbind option_bind negb scatter_writable e_writable e_len e_addr].
    rewrite bool_decide_false by (intros E; pose proof (length_event e) as Hl; by rewrite E in Hl).
    rewrite length_event. replace (Nat.min (Z.to_nat len) 8) with 8%nat by lia.
    rewrite take_ge by (by rewrite length_event). rewrite Hwr. cbn [mbind option_bind fst snd]. change (Z.of_nat 8 + 0) with 8. by rewrite Hpu.
  - rewrite Hsz, Eidx in *. constructor.
    + rewrite Hm3, Hm2. apply He.
    + change 8 with (Z.of_nat 8). rewrite Hkeep by lia. rewrite <- (length_event e). by apply hm_read_write_same with h1.
    + exact Hidx.
    + rewrite <- Hslot. done.
    + intros k Hk Hne'. transitivity (used_slot q h2 used k); [by apply Hslots|by apply Eslot].
    + intros a n [H0 Ha] Hd. rewrite Hkeep by (rewrite ?Hsz; lia). destruct He as [_ He]. rewrite <- (He a n) by lia.
      apply (hm_read_write_disjoint h1 hva (event_bytes e)); [done|rewrite length_event; lia].
Qed.

(** ** A group of events *)

Section Group.
Context (m0 : Mmio) (d : InputDev) (h0 : HostMem) (avail used : Z) (bufs : list (Z * Z)).
#[local] Abbreviation q := (queue_at m0 0).
#[local] Abbreviation size := (queue_size_ q).
#[local] Abbreviation last := (last_avail_idx_ q).
#[local] Abbreviation u0 := (used_idx h0 used).

Definition head_at (k : nat) : Z := avail_entry h0 q avail (last + Z.of_nat k).

(** Memory that the group leaves alone. *)
Definition unwritten (a n : Z) : Prop := outside q used a n /\ Forall (fun b => a + n <= fst b \/ fst b + 8 <= a) bufs.

(** The driver has published one writable buffer per event, apart from the
    rings and from each other. *)
Record group_ok : Prop := {
  go_queues : 0 < num_queues m0;
  go_layout : ring_layout q h0 avail used;
  go_ready : queue_ok q;
  go_size : 65536 mod size = 0;
  go_store : store_ok (hm_bytes h0);
  go_room : Z.of_nat (length bufs) <= avail_count q h0 avail /\ Z.of_nat (length bufs) <= size;
  go_avail : unwritten avail (6 + 2 * size);
  go_bufs : forall k b, bufs !! k = Some b ->
    request_at unwritten q h0 (head_at k) [MkElem (fst b) (snd b) true] /\ outside q used (fst b) (snd b)
    /\ 0 <= fst b /\ fst b + snd b <= alloc_size (hm_map h0) /\ 8 <= snd b;
  go_apart : forall j k b c, bufs !! j = Some b -> bufs !! k = Some c -> j <> k -> fst b + 8 <= fst c \/ fst c + 8 <= fst b
}.

(** Event [k] is in its buffer and in its slot of the used ring. *)
Definition seen (evs : list InputEvent) (h : HostMem) (k : nat) : Prop :=
  forall e b, evs !! k = Some e -> bufs !! k = Some b ->
    hm_read h (fst b) 8 = Some (event_bytes e)
    /\ used_slot q h used ((u0 + Z.of_nat k) mod size) = (head_at k, 8).

Record group_inv (evs : list InputEvent) (k : nat) (m : Mmio) (h : HostMem) : Prop := {
  gi_num : num_queues m = num_queues m0;
  gi_ring : same_ring q (queue_at m 0);
  gi_last : last_avail_idx_ (queue_at m 0) = u16 (last + Z.of_nat k);
  gi_agree : agree unwritten h0 h;
  gi_idx : used_idx h used = u16 (u0 + Z.of_nat k);
  gi_mmio : exists qs, m = set_queues qs m0;
  gi_seen : forall j, (j < k)%nat -> seen evs h j
}.

(** The transport behind the group: one interrupt, if the driver wants it, and
    nothing else but the queues changed. *)
Definition one_interrupt (h' : HostMem) (m' : Mmio) : Prop :=
  exists qs, m' = set_queues qs (if wants_interrupt q h' avail used then raise_irq 1 m0 else m0).

Hypothesis Hok : group_ok.

Lemma wants_same_ring q1 h : same_ring q q1 -> wants_interrupt q1 h avail used = wants_interrupt q h avail used.
Proof. intros (Hs & _ & _ & _ & _ & He & Hl). unfold wants_interrupt. by rewrite Hs, He, Hl. Qed.

Lemma size_pos : 0 < size.
Proof. pose proof (rl_size _ _ _ _ (go_layout Hok)). lia. Qed.

Lemma head_width k : in_width 32 (head_at k).
Proof.
  unfold head_at, avail_entry. destruct (hm_load 2 h0 _) as [v|] eqn:E; [|done]. apply load16_width in E; [|apply (go_store Hok)].
  unfold in_width in *. cbn. lia.
Qed.

(** Before event [k] the ring is not empty, and its head is the driver's. *)
Lemma ring_at evs k m h :
  group_inv evs k m h -> (k < length bufs)%nat ->
  0 < num_queues m /\ ring_layout (queue_at m 0) h avail used /\ queue_ok (queue_at m 0)
  /\ last_avail_idx_ (queue_at m 0) <> avail_idx h avail
  /\ avail_entry h (queue_at m 0) avail (last_avail_idx_ (queue_at m 0)) = head_at k.
Proof.
  intros [Hn Hr Hl Ha _ _ _] Hk. pose proof (go_layout Hok) as Hlay. pose proof (go_ready Hok) as [Hrdy Hlw].
  destruct (kept_ring q h0 h avail used Hlay) as [Hidx Hent]; [apply Ha|apply Ha; apply (go_avail Hok)|].
  pose proof Hr as (Hsz & _ & _ & _ & Hrd & _). split_and!.
  - rewrite Hn. apply (go_queues Hok).
  - eapply same_ring_layout; [exact Hlay|exact Hr|apply Ha].
  - split; [by rewrite Hrd|]. rewrite Hl. by apply wrap_in_width.
  - rewrite Hl, Hidx. intros E. destruct (go_room Hok) as [Hroom _]. unfold avail_count in Hroom. rewrite <- E in Hroom.
    rewrite wrap_sub_l in Hroom. replace (last + Z.of_nat k - last) with (Z.of_nat k) in Hroom by lia.
    pose proof (wrap_bound 16 (Z.of_nat k)). unfold wrap in Hroom. rewrite Z.mod_small in Hroom; [lia|]. 
    pose proof (rl_size _ _ _ _ Hlay) as Hq. destruct (go_room Hok) as [_ Hs]. lia.
  - rewrite Hl. unfold head_at. rewrite <- Hent. unfold avail_entry. rewrite Hsz. by rewrite wrap_wrap.
Qed.

Lemma group_step evs k m h e b notify :
  group_inv evs k m h -> evs !! k = Some e -> bufs !! k = Some b ->
  exists q2 h2, InjectEvent e notify (m, d, h) = (m' ← notify_if notify (set_queue 0 q2 m) h2; Some (m', d, h2))
    /\ group_inv evs (S k) (set_queue 0 q2 m) h2.
Proof.
  intros Hinv He Hb. pose proof (lookup_lt_Some _ _ _ Hb) as Hk. destruct (ring_at evs k m h Hinv Hk) as (Hn & Hlay & Hrdy & Hne & Hhead).
  destruct Hinv as [Gn Gr Gl Ga Gi Gm Gs]. destruct (go_bufs Hok k b Hb) as (Hreq & Hout & Hb0 & Hb1 & Hb8). pose proof Gr as (Hsz & _).
  assert (Hmap : hm_map h = hm_map h0) by apply Ga.
  destruct (InjectEvent_step m d h avail used (fst b) (snd b) e notify unwritten q h0) as (q2 & h2 & E & Hq2 & Hl2 & Hd); try done.
  { rewrite Hhead. apply head_width. }
  { intros a n [Ho _]. revert Ho. by apply outside_size. }
  { by rewrite Hhead. }
  { revert Hout. by apply outside_size. }
  { by rewrite Hmap. }
  rewrite Hhead in Hd. destruct Hd as [D1 D2 D3 D4 D5 D6]. rewrite Hsz in *.
  assert (Hframe : forall a n, outside q used a n -> a + n <= fst b \/ fst b + 8 <= a -> hm_read h2 a n = hm_read h a n).
  { intros a n Ho. apply D6. revert Ho. by apply outside_size. }
  exists q2, h2. split; [exact E|]. rewrite Gi, slot_mod in D4, D5 by (apply size_pos || apply (go_size Hok)). constructor.
  - by rewrite num_queues_set.
  - rewrite queue_at_set by done. by eapply same_ring_trans.
  - rewrite queue_at_set by done. rewrite Hl2, Gl, wrap_add_l. f_equal. lia.
  - apply (agree_trans _ _ h); [done|]. split; [done|]. intros a n [Ho Hd]. apply Hframe; [done|]. by apply (Forall_lookup_1 _ _ _ _ Hd Hb).
  - rewrite D3, Gi, wrap_add_l. f_equal. lia.
  - destruct Gm as [qs ->]. by eexists.
  - intros j Hj e' b' He' Hb'. destruct (decide (j = k)) as [->|Hjk].
    + rewrite He in He'. rewrite Hb in Hb'. injection He' as <-. injection Hb' as <-. by split.
    + destruct (Gs j ltac:(lia) e' b' He' Hb') as [S1 S2]. split.
      * rewrite Hframe; [done| |].
        -- destruct (go_bufs Hok j b' Hb') as (_ & [_ Ho] & _ & _ & H8). unfold outside in *. lia.
        -- destruct (go_apart Hok j k b' b Hb' Hb Hjk); lia.
      * rewrite <- S2. apply D5; [apply Z.mod_pos_bound, size_pos|].
        destruct (go_room Hok). apply slots_apart; lia.
Qed.

Lemma inject_group_inv evs : (length evs = length bufs)%nat -> forall rest k m h,
  rest <> [] -> drop k evs = rest -> group_inv evs k m h ->
  exists m' h', inject_group rest (m, d, h) = Some (m', d, h') /\ agree unwritten h0 h'
    /\ last_avail_idx_ (queue_at m' 0) = u16 (last + Z.of_nat (length evs)) /\ used_idx h' used = u16 (u0 + Z.of_nat (length evs))
    /\ (forall j, (j < length evs)%nat -> seen evs h' j) /\ one_interrupt h' m'.
Proof.
  intros Hlen. induction rest as [|e rest IH]; intros k m h Hne Hd Hinv; [done|].
  assert (He : evs !! k = Some e) by (by rewrite <- (Nat.add_0_r k), <- lookup_drop, Hd).
  assert (Hrest : drop (S k) evs = rest) by (by rewrite <- Nat.add_1_r, <- drop_drop, Hd).
  destruct (lookup_lt_is_Some_2 bufs k) as [b Hb]; [rewrite <- Hlen; by apply lookup_lt_Some in He|].
  destruct rest as [|e2 rest].
  - destruct (group_step evs k m h e b true Hinv He Hb) as (q2 & h2 & E & Hinv'). pose proof Hinv' as [Gn Gr Gl Ga Gi [qs Gm] Gs].
    assert (Hk : S k = length evs).
    { apply (f_equal length) in Hd. rewrite length_drop in Hd. cbn in Hd. lia. }
    destruct (NotifyUsedBuffer_ring 0 (set_queue 0 q2 m) h2 avail used) as (m' & Hm' & Hl').
    { rewrite Gn. pose proof (go_queues Hok). lia. }
    { eapply same_ring_layout; [exact (go_layout Hok)|exact Gr|apply Ga]. }
    exists m', h2. cbn [inject_group]. rewrite E. cbn [notify_if]. rewrite Hm'. cbn [mbind option_bind]. rewrite <- Hk, Hl'.
    split_and!; try done. destruct (NotifyUsedBuffer_wants 0 (set_queue 0 q2 m) h2 avail used m') as [qs' E']; [rewrite Gn; pose proof (go_queues Hok); lia| |exact Hm'|].
    { eapply same_ring_layout; [exact (go_layout Hok)|exact Gr|apply Ga]. }
    exists qs'. rewrite E', (wants_same_ring _ _ Gr), Gm, raise_irq_set_queues. by destruct (wants_interrupt q h2 avail used).
  - destruct (group_step evs k m h e b false Hinv He Hb) as (q2 & h2 & E & Hinv'). cbn [notify_if mbind option_bind] in E.
    destruct (IH (S k) _ _ ltac:(done) Hrest Hinv') as (m' & h' & E' & Hfacts). exists m', h'. split; [|exact Hfacts].
    change (inject_group (e :: e2 :: rest) (m, d, h)) with (w ← InjectEvent e false (m, d, h); inject_group (e2 :: rest) w). by rewrite E.
Qed.

Lemma group_delivered evs : evs <> [] -> (length evs = length bufs)%nat ->
  exists m' h', inject_group evs (m0, d, h0) = Some (m', d, h') /\ agree unwritten h0 h'
    /\ last_avail_idx_ (queue_at m' 0) = u16 (last + Z.of_nat (length evs)) /\ used_idx h' used = u16 (u0 + Z.of_nat (length evs))
    /\ (forall j, (j < length evs)%nat -> seen evs h' j) /\ one_interrupt h' m'.
Proof.
  intros Hne Hlen. apply (inject_group_inv evs Hlen evs 0 m0 h0 Hne); [done|]. pose proof (go_ready Hok) as [_ Hl].
  constructor; try done.
  - rewrite Z.add_0_r. symmetry. by apply wrap_small.
  - rewrite Z.add_0_r. symmetry. apply wrap_small. unfold used_idx. destruct (hm_load 2 h0 _) as [v|] eqn:E; [|done].
    apply load16_width in E; [done|apply (go_store Hok)].
  - exists (queues_ m0). by destruct m0.
  - lia.
Qed.
End Group.

(** The console's input: a key, the pointer with buttons, the wheel. *)
Inductive Input := KeyInput (evdev_code : Z) (pressed : bool) | PointerInput (x y buttons : Z) | WheelInput (delta : Z).

Definition input_group (prev : Z) (i : Input) : list InputEvent :=
  match i with
  | KeyInput c p => key_group c p
  | PointerInput x y b => pointer_group x y b prev
  | WheelInput delta => wheel_group delta
  end.

(** The VM's entry point for it, on the device it goes to. *)
Definition inject (prev : Z) (i : Input) (w : input_world) : option input_world :=
  match i with
  | KeyInput c p => r ← InjectKeyEvent c p (Some w); r
  | PointerInput x y b => r ← InjectPointerEvent x y b prev (Some w); snd r
  | WheelInput delta => r ← InjectWheelEvent delta (Some w); r
  end.

Lemma inject_eq prev i w : i <> WheelInput 0 -> inject prev i w = inject_group (input_group prev i) w.
Proof.
  destruct i as [c p|x y b|delta]; cbn [inject input_group InjectKeyEvent InjectPointerEvent InjectWheelEvent]; intros Hi.
  - by destruct (inject_group _ w).
  - by destruct (inject_group _ w).
  - rewrite (proj2 (Z.eqb_neq delta 0)) by congruence. by destruct (inject_group _ w).
Qed.

(** C11. Console input reaches the guest.  For a key, a pointer position with any
    change of the buttons, or a turn of the wheel: when the driver has
    published a writable buffer of eight bytes for each event of the group,
    then after the call buffer [k] holds event [k] - type, code, value - and
    the next slots of the used ring name the buffers in this order with
    length 8; the used index has advanced by the size of the group, and memory
    the driver set aside for nothing of this is unchanged.  The group raises
    one interrupt, at its end, if the driver wants one, and otherwise none; no
    other register of the transport changes. *)
Theorem input_group_delivered m d h avail used bufs prev i :
  group_ok m h avail used bufs -> i <> WheelInput 0 -> length (input_group prev i) = length bufs ->
  exists m' h', inject prev i (m, d, h) = Some (m', d, h')
    /\ used_idx h' used = u16 (used_idx h used + Z.of_nat (length bufs))
    /\ (forall k, (k < length bufs)%nat -> seen m h avail used bufs (input_group prev i) h' k)
    /\ last_avail_idx_ (queue_at m' 0) = u16 (last_avail_idx_ (queue_at m 0) + Z.of_nat (length bufs))
    /\ agree (unwritten m used bufs) h h'
    /\ one_interrupt m avail used h' m'.
Proof.
  intros Hok Hi Hlen. rewrite inject_eq by done.
  destruct (group_delivered m d h avail used bufs Hok (input_group prev i)) as (m' & h' & E & Ha & Hl & Hu & Hs & Hann).
  - by destruct i.
  - done.
  - exists m', h'. rewrite <- Hlen. by split_and!.
Qed.

(** ** Without buffers *)

Lemma InjectEvent_empty m (d : InputDev) h avail used e notify :
  let q := queue_at m 0 in
  0 < num_queues m -> ring_layout q h avail used -> queue_ok q -> last_avail_idx_ q = avail_idx h avail ->
  InjectEvent e notify (m, d, h) = (m' ← notify_if notify m h; Some (m', d, h)).
Proof.
  intros q Hn Hlay Hok He. pose proof (PopAvail_step q h avail used Hlay Hok) as Hp. cbv zeta in Hp.
  rewrite (proj2 (Z.eqb_eq _ _) He) in Hp. unfold InjectEvent, GetQueue. rewrite (proj2 (Z.ltb_lt 0 _) Hn). fold q.
  destruct Hok as [-> _]. cbn [negb]. rewrite Hp. cbn [mbind option_bind]. unfold q. by rewrite set_queue_self.
Qed.

Lemma inject_group_empty m (d : InputDev) h avail used evs :
  let q := queue_at m 0 in
  0 < num_queues m -> ring_layout q h avail used -> queue_ok q -> last_avail_idx_ q = avail_idx h avail ->
  exists m', inject_group evs (m, d, h) = Some (m', d, h).
Proof.
  intros q Hn Hlay Hok He. induction evs as [|e [|e2 evs] IH]; [by exists m| |].
  - cbn [inject_group]. rewrite (InjectEvent_empty m d h avail used) by done. cbn [notify_if].
    destruct (NotifyUsedBuffer_ring 0 m h avail used) as (m' & -> & _); [lia|done|]. by exists m'.
  - change (inject_group (e :: e2 :: evs) (m, d, h)) with (w ← InjectEvent e false (m, d, h); inject_group (e2 :: evs) w).
    rewrite (InjectEvent_empty m d h avail used) by done. exact IH.
Qed.

(** When the ring has no buffer the events are dropped, but the buttons count
    as sent: the next pointer event with the same buttons has no button event
    in it, so a release that met a full moment never reaches the guest. *)
Lemma button_release_lost m (d : InputDev) h avail used x y buttons prev :
  let q := queue_at m 0 in
  0 < num_queues m -> ring_layout q h avail used -> queue_ok q -> last_avail_idx_ q = avail_idx h avail ->
  (exists m', InjectPointerEvent x y buttons prev (Some (m, d, h)) = Some (buttons, Some (m', d, h)))
  /\ forall x' y', Forall (fun e => ev_type e <> EV_KEY) (pointer_group x' y' buttons buttons).
Proof.
  intros q Hn Hlay Hok He. split.
  - destruct (inject_group_empty m d h avail used (pointer_group x y buttons prev)) as (m' & E); try done.
    exists m'. unfold InjectPointerEvent. by rewrite E.
  - intros x' y'. unfold pointer_group, button_event. rewrite !Z.eqb_refl. by repeat apply Forall_cons_2.
Qed.

(** ** A key on a ring with two buffers *)

Lemma request_single_write (safe : Z -> Z -> Prop) q h head a d hva :
  DescAt q h head = Some a -> load_desc h a = Some d -> d_flags d = 2 ->
  GpaToHva (hm_map h) (d_addr d) = Some hva -> 1 <= queue_size_ q -> safe a 16 ->
  request_at safe q h head [MkElem hva (d_len d) true].
Proof.
  intros Ha Hd Hf Hg Hq Hs1. exists []. split.
  { exists a, d. rewrite Hf. cbn. split_and!; try done; intros; by split. }
  split; [cbn; lia|]. split; constructor; try constructor; [|done]. intros a'. rewrite Ha. by intros [= <-].
Qed.

Definition input_mem : HostMem :=
  MkHostMem demo_map
    (poke (poke (poke ∅ 0x1000 (demo_desc 0x4000 8 2 0)) 0x1010 (demo_desc 0x5000 8 2 0))
       0x2000 (le_bytes 2 0 ++ le_bytes 2 2 ++ le_bytes 2 0 ++ le_bytes 2 1)).
Definition input_transport : Mmio := set_queues [demo_queue; VirtQueue_new] (Mmio_new false true false).
Definition input_bufs : list (Z * Z) := [(0x4000, 8); (0x5000, 8)].

Lemma input_group_ok : group_ok input_transport input_mem 0x2000 0x3000 input_bufs.
Proof.
  assert (Hsafe : forall a, a = 0x1000 \/ a = 0x1010 -> unwritten input_transport 0x3000 input_bufs a 16).
  { intros a Ha. split; [split; [discriminate|left; cbn; lia]|]. repeat apply Forall_cons_2; try apply Forall_nil_2; cbn; lia. }
  constructor.
  - reflexivity.
  - constructor; try reflexivity; vm_compute; try (split; discriminate). by left.
  - split; [reflexivity|]. split; vm_compute; [discriminate|reflexivity].
  - reflexivity.
  - unfold input_mem, demo_desc, hm_bytes. repeat apply store_ok_poke; try (by apply map_Forall_empty);
      repeat (apply Forall_app_2; [apply le_bytes_ok|]); apply le_bytes_ok.
  - split; vm_compute; discriminate.
  - split; [split; [discriminate|left; vm_compute; discriminate]|]. repeat apply Forall_cons_2; try apply Forall_nil_2; left; vm_compute; discriminate.
  - intros [|[|k]] b Hb; try done; injection Hb as <-.
    + split; [|split; [split; [discriminate|right; vm_compute; discriminate]|split_and!; vm_compute; discriminate]].
      refine (request_single_write _ _ _ _ 0x1000 (MkVirtqDesc 0x4000 8 2 0) 0x4000 _ _ _ _ _ _);
        [vm_compute; reflexivity|vm_compute; reflexivity|reflexivity|vm_compute; reflexivity|discriminate|]. apply Hsafe. by left.
    + split; [|split; [split; [discriminate|right; vm_compute; discriminate]|split_and!; vm_compute; discriminate]].
      refine (request_single_write _ _ _ _ 0x1010 (MkVirtqDesc 0x5000 8 2 0) 0x5000 _ _ _ _ _ _);
        [vm_compute; reflexivity|vm_compute; reflexivity|reflexivity|vm_compute; reflexivity|discriminate|]. apply Hsafe. by right.
  - intros [|[|j]] [|[|k]] b c Hb Hc; try done; injection Hb as <-; injection Hc as <-; intros _; [left|right]; vm_compute; discriminate.
Qed.

Lemma input_group_delivered_witness :
  exists m' h', inject 0 (KeyInput 30 true) (input_transport, InputDev_new kKeyboard, input_mem) = Some (m', InputDev_new kKeyboard, h')
    /\ used_idx h' 0x3000 = 2 /\ hm_read h' 0x4000 8 = Some [1; 0; 30; 0; 1; 0; 0; 0] /\ hm_read h' 0x5000 8 = Some [0; 0; 0; 0; 0; 0; 0; 0].
Proof.
  destruct (input_group_delivered input_transport (InputDev_new kKeyboard) input_mem 0x2000 0x3000 input_bufs 0 (KeyInput 30 true))
    as (m' & h' & E & Hu & Hs & _); [exact input_group_ok|discriminate|reflexivity|].
  exists m', h'. split; [exact E|]. split; [rewrite Hu; vm_compute; reflexivity|].
  split; [apply (Hs 0%nat ltac:(cbn; lia) _ _ eq_refl eq_refl)|apply (Hs 1%nat ltac:(cbn; lia) _ _ eq_refl eq_refl)].
Defined.
