(* ===== verification/VirtioSnd.v ===== *)
(** * The virtio sound device

    Models core/device/virtio/virtio_snd.{h,cpp}: the control queue with its
    stream commands, the transmit queue that collects PCM data, and the period
    tick that hands the data to the audio port at real rate and returns the
    buffers to the guest.  The timer runs on the VM's [VmIoLoop], whose
    methods are those of [IoLoop].

    [steady_clock::now()] is [snd_now], in nanoseconds; what
    [AudioPort::SubmitPcm] gets is the trace [audio_port_].  The vector of
    16-bit samples is its bytes.  [None] is undefined behaviour.

    [tx_collects]: a transmit notification appends the data of the published
    requests, in order.  [ticks_play_in_order]: ticks at any times hand the
    audio port the collected data in order and return the buffers in order,
    at no more than real rate.  [tx_odd_overflows]: a request with an odd
    number of data bytes is copied past the end of its vector. *)

From S2P Require Import Prelude.
From S2P Require Import StdString.
From S2P Require Import GuestMem.
From S2P Require Import VirtQueue.
From S2P Require Import VirtioMmio.
From S2P Require Import VirtioChain.
From S2P Require Import VirtioNet.
From S2P Require Import IoLoop.

Definition VIRTIO_SND_VQ_TX : Z := 2.
Definition VIRTIO_SND_D_OUTPUT : Z := 0.
Definition VIRTIO_SND_R_JACK_INFO : Z := 1.
Definition VIRTIO_SND_R_PCM_INFO : Z := 0x0100.
Definition VIRTIO_SND_R_PCM_SET_PARAMS : Z := 0x0101.
Definition VIRTIO_SND_R_PCM_PREPARE : Z := 0x0102.
Definition VIRTIO_SND_R_PCM_RELEASE : Z := 0x0103.
Definition VIRTIO_SND_R_PCM_START : Z := 0x0104.
Definition VIRTIO_SND_R_PCM_STOP : Z := 0x0105.
Definition VIRTIO_SND_R_CHMAP_INFO : Z := 0x0200.
Definition VIRTIO_SND_S_OK : Z := 0x8000.
Definition VIRTIO_SND_S_BAD_MSG : Z := 0x8001.
Definition VIRTIO_SND_S_NOT_SUPP : Z := 0x8002.
Definition VIRTIO_SND_PCM_FMT_S16 : Z := 5.
Definition VIRTIO_SND_PCM_RATE_48000 : Z := 7.
Definition VIRTIO_SND_CHMAP_FL : Z := 3.
Definition VIRTIO_SND_CHMAP_FR : Z := 4.

Inductive StreamState := kIdle | kPrepared | kRunning.

Record PendingTxBuffer := mkPending { pd_head : Z; pd_status_len : Z; pd_pcm : bytes }.
Record AudioChunk := mkChunk { ch_rate : Z; ch_channels : Z; ch_pcm : bytes }.

Record SndDev := mkSnd {
  stream_state_ : StreamState; pcm_sample_rate_ : Z; pcm_channels_ : Z; pcm_format_ : Z; pcm_buffer_bytes_ : Z;
  pcm_period_bytes_ : Z; event_buf_heads_ : list Z; pending_tx_buffers_ : list PendingTxBuffer;
  period_running_ : bool; period_timer_id_ : Z; period_start_time_ : Z; period_bytes_processed_ : Z;
  io_loop_ : option VmIoLoop; audio_port_ : option (list AudioChunk); snd_now : Z
}.

(** [snd_config_]. *)
Definition snd_jacks : Z := 0.
Definition snd_streams : Z := 1.
Definition snd_chmaps : Z := 1.

Definition SndDev_new (loop : option VmIoLoop) (port : option (list AudioChunk)) (now : Z) : SndDev :=
  mkSnd kIdle 48000 2 VIRTIO_SND_PCM_FMT_S16 0 0 [] [] false 0 0 0 loop port now.

Definition set_stream (st : StreamState) (d : SndDev) : SndDev :=
  mkSnd st (pcm_sample_rate_ d) (pcm_channels_ d) (pcm_format_ d) (pcm_buffer_bytes_ d) (pcm_period_bytes_ d) (event_buf_heads_ d)
    (pending_tx_buffers_ d) (period_running_ d) (period_timer_id_ d) (period_start_time_ d) (period_bytes_processed_ d)
    (io_loop_ d) (audio_port_ d) (snd_now d).
Definition set_pcm (rate ch fmt buf period : Z) (d : SndDev) : SndDev :=
  mkSnd (stream_state_ d) rate ch fmt buf period (event_buf_heads_ d)
    (pending_tx_buffers_ d) (period_running_ d) (period_timer_id_ d) (period_start_time_ d) (period_bytes_processed_ d)
    (io_loop_ d) (audio_port_ d) (snd_now d).
Definition set_pending (evs : list Z) (l : list PendingTxBuffer) (d : SndDev) : SndDev :=
  mkSnd (stream_state_ d) (pcm_sample_rate_ d) (pcm_channels_ d) (pcm_format_ d) (pcm_buffer_bytes_ d) (pcm_period_bytes_ d) evs
    l (period_running_ d) (period_timer_id_ d) (period_start_time_ d) (period_bytes_processed_ d) (io_loop_ d) (audio_port_ d) (snd_now d).
Definition set_timer (running : bool) (id : Z) (loop : option VmIoLoop) (d : SndDev) : SndDev :=
  mkSnd (stream_state_ d) (pcm_sample_rate_ d) (pcm_channels_ d) (pcm_format_ d) (pcm_buffer_bytes_ d) (pcm_period_bytes_ d)
    (event_buf_heads_ d) (pending_tx_buffers_ d) running id (period_start_time_ d) (period_bytes_processed_ d) loop (audio_port_ d) (snd_now d).
Definition set_clock (start processed : Z) (port : option (list AudioChunk)) (d : SndDev) : SndDev :=
  mkSnd (stream_state_ d) (pcm_sample_rate_ d) (pcm_channels_ d) (pcm_format_ d) (pcm_buffer_bytes_ d) (pcm_period_bytes_ d)
    (event_buf_heads_ d) (pending_tx_buffers_ d) (period_running_ d) (period_timer_id_ d) start processed (io_loop_ d) port (snd_now d).
(** Time goes on. *)
Definition set_now (now : Z) (d : SndDev) : SndDev :=
  mkSnd (stream_state_ d) (pcm_sample_rate_ d) (pcm_channels_ d) (pcm_format_ d) (pcm_buffer_bytes_ d) (pcm_period_bytes_ d)
    (event_buf_heads_ d) (pending_tx_buffers_ d) (period_running_ d) (period_timer_id_ d) (period_start_time_ d) (period_bytes_processed_ d)
    (io_loop_ d) (audio_port_ d) now.

Abbreviation snd_world := (Mmio * SndDev * HostMem)%type.

(** ** The period timer *)

(** The lambda of [StartPeriodTimer], as a callback of the loop. *)
Definition kPeriodCallback : Z := 25.

Definition StopPeriodTimer (d : SndDev) : option SndDev :=
  if negb (period_running_ d) then Some d
  else
    let d := set_timer false (period_timer_id_ d) (io_loop_ d) d in
    match io_loop_ d with
    | Some loop =>
        if period_timer_id_ d =? 0 then Some d
        else loop ← RemoveTimer (period_timer_id_ d) loop; Some (set_timer false 0 (Some loop) d)
    | None => Some d
    end.

Definition StartPeriodTimer (d : SndDev) : option SndDev :=
  d ← StopPeriodTimer d;
  match io_loop_ d with
  | None => Some d
  | Some loop =>
      let d := set_clock (snd_now d) 0 (audio_port_ d) d in
      let '(id, loop) := AddTimer_id loop in
      loop ← AddTimer_post id 0 kPeriodCallback loop;
      Some (set_timer true id (Some loop) d)
  end.

(** [txq->PushUsed] for each buffer, when the transport has the queue. *)
Fixpoint push_all (bufs : list PendingTxBuffer) (q : VirtQueue) (h : HostMem) : option HostMem :=
  match bufs with
  | [] => Some h
  | b :: bufs => h ← PushUsed q h (pd_head b) (pd_status_len b); push_all bufs q h
  end.
Definition return_buffers (bufs : list PendingTxBuffer) (m : Mmio) (h : HostMem) : option (Mmio * HostMem) :=
  match GetQueue m VIRTIO_SND_VQ_TX with
  | None => Some (m, h)
  | Some txq => h ← push_all bufs txq h; m ← NotifyUsedBuffer VIRTIO_SND_VQ_TX m h; Some (m, h)
  end.

Definition FlushPendingTxBuffers (w : snd_world) : option snd_world :=
  let '(m, d, h) := w in
  match pending_tx_buffers_ d with
  | [] => Some w
  | bufs =>
      '(m, h) ← return_buffers bufs m h;
      Some (m, set_pending (event_buf_heads_ d) [] d, h)
  end.

Definition bytes_per_second (d : SndDev) : Z := u32 (u32 (pcm_sample_rate_ d * pcm_channels_ d) * 2).
(** [duration_cast<milliseconds>] truncates. *)
Definition elapsed_ms (d : SndDev) : Z := Z.quot (snd_now d - period_start_time_ d) 1000000.
Definition audio_ms (d : SndDev) : Z := Z.quot (period_bytes_processed_ d * 1000) (bytes_per_second d).

(** The delay until the next tick, and the world.  The product for
    [audio_ms] is in [int64_t]. *)
Definition PeriodTick (w : snd_world) : option (Z * snd_world) :=
  let '(m, d, h) := w in
  if (pcm_sample_rate_ d =? 0) || (pcm_period_bytes_ d =? 0) || (pcm_channels_ d =? 0) then Some (10, w)
  else if 2 ^ 63 <=? period_bytes_processed_ d * 1000 then None
  else
    let drift_ms := audio_ms d - elapsed_ms d in
    if 0 <? drift_ms then Some (Z.min drift_ms 10, w)
    else if drift_ms <? -200 then Some (1, (m, set_clock (snd_now d) 0 (audio_port_ d) d, h))
    else
      match pending_tx_buffers_ d with
      | [] => Some (1, w)
      | buf :: rest =>
          let d := set_pending (event_buf_heads_ d) rest d in
          let '(pcm_bytes, port) :=
            match pd_pcm buf, audio_port_ d with
            | _ :: _, Some chunks =>
                (Z.of_nat (length (pd_pcm buf)), Some (chunks ++ [mkChunk (pcm_sample_rate_ d) (pcm_channels_ d) (pd_pcm buf)]))
            | _, port => (0, port)
            end in
          let more := if 0 <? pcm_bytes then pcm_bytes else pcm_period_bytes_ d in
          let d := set_clock (period_start_time_ d) (u64 (period_bytes_processed_ d + more)) port d in
          '(m, h) ← return_buffers [buf] m h;
          Some (1, (m, d, h))
      end.

(** The lambda: 0 ends the timer. *)
Definition period_callback (w : snd_world) : option (Z * snd_world) :=
  let '(_, d, _) := w in
  if negb (period_running_ d) then Some (0, w)
  else
    '(next_ms, w) ← PeriodTick w;
    let '(_, d, _) := (w : snd_world) in
    if negb (period_running_ d) then Some (0, w) else Some (if next_ms =? 0 then 1 else next_ms, w).

(** ** Control requests *)

Definition RateEnumToHz (rate_enum : Z) : Z :=
  if rate_enum =? 1 then 8000 else if rate_enum =? 2 then 11025 else if rate_enum =? 3 then 16000
  else if rate_enum =? 4 then 22050 else if rate_enum =? 5 then 32000 else if rate_enum =? 6 then 44100
  else if rate_enum =? 7 then 48000 else if rate_enum =? 10 then 96000 else 48000.

Definition snd_status (code : Z) : bytes := le_bytes 4 code.

Definition pcm_info : bytes :=
  le_bytes 4 0 ++ le_bytes 4 0 ++ le_bytes 8 (1 .<< VIRTIO_SND_PCM_FMT_S16) ++ le_bytes 8 (1 .<< VIRTIO_SND_PCM_RATE_48000)
  ++ [VIRTIO_SND_D_OUTPUT; 2; 2] ++ replicate 5 0.
Definition HandlePcmInfo (start_id count : Z) : bytes :=
  if (snd_streams <=? start_id) || (count =? 0) then snd_status VIRTIO_SND_S_OK
  else snd_status VIRTIO_SND_S_OK ++ concat (replicate (Z.to_nat (Z.min count (snd_streams - start_id))) pcm_info).

Definition chmap_info : bytes :=
  le_bytes 4 0 ++ [VIRTIO_SND_D_OUTPUT; 2; VIRTIO_SND_CHMAP_FL; VIRTIO_SND_CHMAP_FR] ++ replicate 16 0.
Definition HandleChmapInfo (start_id count : Z) : bytes :=
  if (snd_chmaps <=? start_id) || (count =? 0) then snd_status VIRTIO_SND_S_OK
  else snd_status VIRTIO_SND_S_OK ++ concat (replicate (Z.to_nat (Z.min count (snd_chmaps - start_id))) chmap_info).

(** [req]: at least the 24 bytes of [VirtioSndPcmSetParams]. *)
Definition HandlePcmSetParams (req : bytes) (d : SndDev) : bytes * SndDev :=
  if snd_streams <=? field 4 4 req then (snd_status VIRTIO_SND_S_BAD_MSG, d)
  else (snd_status VIRTIO_SND_S_OK,
        set_pcm (RateEnumToHz (field 1 22 req)) (field 1 20 req) (field 1 21 req) (field 4 8 req) (field 4 12 req) d).

Definition HandlePcmStreamCmd (code stream_id : Z) (w : snd_world) : option (bytes * snd_world) :=
  let '(m, d, h) := w in
  if snd_streams <=? stream_id then Some (snd_status VIRTIO_SND_S_BAD_MSG, w)
  else
    w ← (if code =? VIRTIO_SND_R_PCM_PREPARE then d ← StopPeriodTimer d; Some (m, set_stream kPrepared d, h)
         else if code =? VIRTIO_SND_R_PCM_START then d ← StartPeriodTimer (set_stream kRunning d); Some (m, d, h)
         else if code =? VIRTIO_SND_R_PCM_STOP then
           d ← StopPeriodTimer d; '(m, d, h) ← FlushPendingTxBuffers (m, d, h); Some (m, set_stream kPrepared d, h)
         else if code =? VIRTIO_SND_R_PCM_RELEASE then
           d ← StopPeriodTimer d; '(m, d, h) ← FlushPendingTxBuffers (m, d, h); Some (m, set_stream kIdle d, h)
         else Some w);
    Some (snd_status VIRTIO_SND_S_OK, w).

(** The switch of the control queue: the response. *)
Definition snd_request (req : bytes) (w : snd_world) : option (bytes * snd_world) :=
  let '(m, d, h) := w in
  let code := field 4 0 req in
  let query f := if 16 <=? Z.of_nat (length req) then f (field 4 4 req) (field 4 8 req) else snd_status VIRTIO_SND_S_BAD_MSG in
  if code =? VIRTIO_SND_R_JACK_INFO then Some (snd_status VIRTIO_SND_S_OK, w)
  else if code =? VIRTIO_SND_R_PCM_INFO then Some (query HandlePcmInfo, w)
  else if code =? VIRTIO_SND_R_PCM_SET_PARAMS then
    if 24 <=? Z.of_nat (length req) then let '(resp, d) := HandlePcmSetParams req d in Some (resp, (m, d, h))
    else Some (snd_status VIRTIO_SND_S_BAD_MSG, w)
  else if (code =? VIRTIO_SND_R_PCM_PREPARE) || (code =? VIRTIO_SND_R_PCM_START) || (code =? VIRTIO_SND_R_PCM_STOP)
          || (code =? VIRTIO_SND_R_PCM_RELEASE) then
    HandlePcmStreamCmd code (if 8 <=? Z.of_nat (length req) then field 4 4 req else 0) w
  else if code =? VIRTIO_SND_R_CHMAP_INFO then Some (query HandleChmapInfo, w)
  else Some (snd_status VIRTIO_SND_S_NOT_SUPP, w).

(** One iteration of [ProcessControlQueue]. *)
Definition snd_control (head : Z) (w : snd_world) : option snd_world :=
  let '(m, d, h) := w in
  r ← WalkChain (queue_at m 0) h head;
  let '(ok, chain) := (r : bool * list VirtqChainElem) in
  if negb ok then h ← PushUsed (queue_at m 0) h head 0; Some (m, d, h)
  else
    req ← gather_readable chain h;
    if (length req <? 4)%nat then h ← PushUsed (queue_at m 0) h head 0; Some (m, d, h)
    else
      '(resp, w) ← snd_request req w;
      let '(m, d, h) := (w : snd_world) in
      r ← scatter_writable chain resp h;
      let '(h, written) := (r : HostMem * Z) in
      h ← PushUsed (queue_at m 0) h head written;
      Some (m, d, h).

(** ** Transmission *)

(** The data behind the first [skip] readable bytes. *)
Fixpoint tx_pcm (skip : Z) (chain : list VirtqChainElem) (h : HostMem) : option bytes :=
  match chain with
  | [] => Some []
  | e :: chain =>
      if e_writable e then tx_pcm skip chain h
      else if e_len e <=? skip then tx_pcm (skip - e_len e) chain h
      else
        l ← hm_read h (e_addr e + skip) (e_len e - skip);
        rest ← tx_pcm 0 chain h;
        Some (l ++ rest)
  end.

Definition total_readable (chain : list VirtqChainElem) : Z :=
  foldr (fun e s => if e_writable e then s else e_len e + s) 0 chain.
Definition status_elem (chain : list VirtqChainElem) : option VirtqChainElem := List.find e_writable chain.

(** One iteration of [ProcessTxQueue]; the vector holds an even number of
    bytes, and the copy must not leave it. *)
Definition snd_tx (head : Z) (w : snd_world) : option snd_world :=
  let '(m, d, h) := w in
  r ← WalkChain (queue_at m VIRTIO_SND_VQ_TX) h head;
  let '(ok, chain) := (r : bool * list VirtqChainElem) in
  if negb ok then h ← PushUsed (queue_at m VIRTIO_SND_VQ_TX) h head 0; Some (m, d, h)
  else
    h ← match status_elem chain with
        | Some e => if 8 <=? e_len e then hm_write h (e_addr e) (le_bytes 4 VIRTIO_SND_S_OK ++ le_bytes 4 0) else Some h
        | None => Some h
        end;
    pcm ← (if (4 <? total_readable chain) && (pcm_format_ d =? VIRTIO_SND_PCM_FMT_S16) then
             pcm ← tx_pcm 4 chain h;
             if Nat.even (length pcm) then Some pcm else None
           else Some []);
    Some (m, set_pending (event_buf_heads_ d) (pending_tx_buffers_ d ++ [mkPending head 8 pcm]) d, h).

Definition snd_event (head : Z) (w : snd_world) : option snd_world :=
  let '(m, d, h) := w in Some (m, set_pending (event_buf_heads_ d ++ [head]) (pending_tx_buffers_ d) d, h).

Definition Snd_OnQueueNotify (i : Z) (w : snd_world) : option snd_world :=
  if i =? 0 then
    '(m, d, h) ← drain snd_control (Z.to_nat 65536) 0 w;
    m ← NotifyUsedBuffer 0 m h;
    Some (m, d, h)
  else if i =? 1 then drain snd_event (Z.to_nat 65536) 1 w
  else if i =? VIRTIO_SND_VQ_TX then drain snd_tx (Z.to_nat 65536) VIRTIO_SND_VQ_TX w
  else Some w.

(** ** The rest of the interface *)

Definition snd_config_bytes : bytes := le_bytes 4 snd_jacks ++ le_bytes 4 snd_streams ++ le_bytes 4 snd_chmaps.
Definition Snd_ReadConfig (d : SndDev) (offset size : Z) : option (SndDev * Z) :=
  if 12 <? u32 (offset + size) then Some (d, 0)
  else if (4 <? size) || (12 <? offset + size) then None
  else Some (d, le_val (take (Z.to_nat size) (drop (Z.to_nat offset) snd_config_bytes))).

Definition Snd_OnStatusChange (new_status : Z) (w : snd_world) : option snd_world :=
  let '(m, d, h) := w in
  if new_status =? 0 then
    d ← StopPeriodTimer d;
    Some (m, set_pending [] [] (set_pcm 48000 2 VIRTIO_SND_PCM_FMT_S16 (pcm_buffer_bytes_ d) (pcm_period_bytes_ d) (set_stream kIdle d)), h)
  else Some w.

#[export] Instance Snd_VirtioDeviceOps : VirtioDeviceOps SndDev := {
  GetDeviceId := fun _ => 25;
  GetDeviceFeatures := fun _ => 1 .<< 32;
  GetNumQueues := fun _ => 4;
  GetQueueMaxSize := fun _ _ => 256;
  OnQueueNotify := Snd_OnQueueNotify;
  ReadConfig := Snd_ReadConfig;
  WriteConfig := fun d _ _ _ => d;
  OnStatusChange := Snd_OnStatusChange
}.

(** ** Collecting *)

Lemma total_gather chain h data :
  Forall (fun e => 0 <= e_len e) chain -> gather_readable chain h = Some data -> total_readable chain = Z.of_nat (length data).
Proof.
  intros Hl. revert data. induction Hl as [|e chain He _ IH]; intros data Hg; cbn [gather_readable total_readable foldr] in *; [by injection Hg as <-|].
  destruct (e_writable e); [by apply IH|]. apply bind_Some in Hg as (l & Hr & Hg). apply bind_Some in Hg as (rest & Hg & [= <-]).
  pose proof (hm_read_length _ _ _ _ He Hr). unfold total_readable in IH. rewrite (IH rest Hg), length_app. lia.
Qed.

Lemma tx_pcm_gather chain h data skip :
  Forall (fun e => 0 <= e_len e) chain -> gather_readable chain h = Some data -> 0 <= skip ->
  tx_pcm skip chain h = Some (drop (Z.to_nat skip) data).
Proof.
  intros Hl. revert data skip. induction Hl as [|e chain He _ IH]; intros data skip Hg Hs; cbn [gather_readable tx_pcm] in *.
  - injection Hg as <-. by rewrite drop_nil.
  - destruct (e_writable e); [by apply IH|]. apply bind_Some in Hg as (l & Hr & Hg). apply bind_Some in Hg as (rest & Hg & [= <-]).
    pose proof (hm_read_length _ _ _ _ He Hr) as Hlen. destruct (Z.leb_spec (e_len e) skip) as [Hle|Hgt].
    + rewrite (IH rest) by (done || lia). f_equal. rewrite drop_app_ge by lia. f_equal. lia.
    + rewrite (hm_read_sub h (e_addr e) (e_len e) skip _ l) by (done || lia). cbn [mbind option_bind]. rewrite (IH rest 0) by done.
      cbn [mbind option_bind]. f_equal. rewrite drop_0, drop_app_le by lia. f_equal. apply take_ge. rewrite length_drop. lia.
Qed.

(** What the status element may overwrite. *)
Definition status_ok (safe : Z -> Z -> Prop) (h : HostMem) (es : list VirtqChainElem) : Prop :=
  forall e, status_elem es = Some e -> 8 <= e_len e ->
    0 <= e_addr e /\ e_addr e + 8 <= alloc_size (hm_map h) /\ forall a n, safe a n -> a + n <= e_addr e \/ e_addr e + 8 <= a.

(** A playback request: the transfer header and an even number of bytes. *)
Definition tx_request (safe : Z -> Z -> Prop) (h : HostMem) (es : list VirtqChainElem) (pcm : bytes) : Prop :=
  Forall (fun e => 0 <= e_len e) es /\ status_ok safe h es
  /\ exists data, gather_readable es h = Some data /\ pcm = drop 4 data /\ Nat.even (length pcm) = true.

Section Collect.
Context (q : VirtQueue) (h0 : HostMem) (avail used : Z) (safe : Z -> Z -> Prop).
Context (lay : ring_layout q h0 avail used) (st : store_ok (hm_bytes h0)).
Context (safe_avail : safe avail (6 + 2 * queue_size_ q)).
Context (safe_outside : forall a n, safe a n -> outside q used a n).
Context (pcms : list bytes) (heads : list Z) (d0 : SndDev).
Hypothesis S16 : pcm_format_ d0 = VIRTIO_SND_PCM_FMT_S16.

Definition queued (k : nat) : list PendingTxBuffer := zip_with (fun hd pcm => mkPending hd 8 pcm) (take k heads) (take k pcms).
Definition collected (k : nat) : SndDev := set_pending (event_buf_heads_ d0) (pending_tx_buffers_ d0 ++ queued k) d0.
Definition collect_inv (k : nat) (m : Mmio) (d : SndDev) (h : HostMem) : Prop := agree safe h0 h /\ d = collected k.

Lemma queued_snoc k hd pcm : heads !! k = Some hd -> pcms !! k = Some pcm -> queued (S k) = queued k ++ [mkPending hd 8 pcm].
Proof.
  intros Hh Hp. unfold queued. rewrite (take_S_r _ _ _ Hh), (take_S_r _ _ _ Hp).
  rewrite zip_with_app; [done|]. rewrite !length_take. apply lookup_lt_Some in Hh, Hp. lia.
Qed.

Lemma status_write h es :
  status_ok safe h0 es -> agree safe h0 h ->
  exists h', (match status_elem es with
              | Some e => if 8 <=? e_len e then hm_write h (e_addr e) (le_bytes 4 VIRTIO_SND_S_OK ++ le_bytes 4 0) else Some h
              | None => Some h
              end) = Some h' /\ agree safe h0 h' /\ hm_map h' = hm_map h.
Proof.
  intros Hs [Hm Hr]. unfold status_ok in Hs. destruct (status_elem es) as [e|]; [|by exists h].
  destruct (Z.leb_spec 8 (e_len e)) as [H8|]; [|by exists h]. destruct (Hs e eq_refl H8) as (H0 & H1 & Hd).
  set (l := le_bytes 4 VIRTIO_SND_S_OK ++ le_bytes 4 0). assert (Hl : length l = 8%nat) by done.
  assert (Hw : exists h', hm_write h (e_addr e) l = Some h').
  { unfold hm_write. rewrite Hm, Hl, !(proj2 (Z.leb_le _ _)) by lia. by eexists. }
  destruct Hw as [h' Hw]. exists h'. pose proof (hm_write_map _ _ _ _ Hw) as Hm'. split_and!; [done| |done]. split; [congruence|].
  intros a n Ha. rewrite <- Hr by done. apply (hm_read_write_disjoint h (e_addr e) l); [done|]. rewrite Hl. by apply Hd.
Qed.

Lemma snd_tx_step elems :
  Forall2 (fun head es => request_at safe q h0 head es) heads elems ->
  Forall2 (tx_request safe h0) elems pcms ->
  handler_ok snd_tx q 2 avail used heads collect_inv.
Proof.
  intros Hreq Hpcm k head m d h q1 h1 Hk Hi Hq [Ha ->] Hq1 He.
  destruct (Forall2_lookup_l _ _ _ _ _ Hreq Hk) as (es & Hes & Hr).
  destruct (Forall2_lookup_l _ _ _ _ _ Hpcm Hes) as (pcm & Hp & Hlen & Hst & data & Hg & Epcm & Hev).
  pose proof (same_ring_trans _ _ _ Hq Hq1) as Hqq.
  apply same_but_event_agree in He; [|destruct lay; lia].
  pose proof (agree_trans _ _ _ _ Ha (agree_weaken _ _ _ _ safe_outside He)) as Ha1.
  destruct (request_stable safe q q1 h0 h1 head es Hr Hqq Ha1) as [Hwalk _].
  destruct (status_write h1 es Hst Ha1) as (h2 & Hw & Ha2 & Hm2).
  destruct (request_stable safe q q1 h0 h2 head es Hr Hqq Ha2) as [_ Hgat].
  exists (set_queue 2 q1 m), (collected (S k)), h2. unfold collect_inv.
  rewrite num_queues_set, queue_at_set by done. split; [|split_and!; try done].
  2:{ destruct Ha1 as [_ R1], Ha2 as [_ R2]. by rewrite R1, R2. }
  unfold snd_tx, VIRTIO_SND_VQ_TX. rewrite queue_at_set by done. rewrite Hwalk. cbn [mbind option_bind negb]. rewrite Hw. cbn [mbind option_bind].
  rewrite <- Hgat in Hg. rewrite (total_gather es h2 data Hlen Hg). change (pcm_format_ (collected k)) with (pcm_format_ d0). rewrite S16, Z.eqb_refl, andb_true_r.
  assert (Hdata : (if 4 <? Z.of_nat (length data) then pcm ← tx_pcm 4 es h2; if Nat.even (length pcm) then Some pcm else None else Some []) = Some pcm).
  { destruct (Z.ltb_spec 4 (Z.of_nat (length data))).
    - rewrite (tx_pcm_gather es h2 data 4) by done. change (Z.to_nat 4) with 4%nat. rewrite <- Epcm. cbn [mbind option_bind]. by rewrite Hev.
    - f_equal. rewrite Epcm. symmetry. apply drop_ge. lia. }
  rewrite Hdata. cbn [mbind option_bind]. do 2 f_equal. unfold collected. rewrite (queued_snoc _ _ _ Hk Hp). cbn. by rewrite app_assoc.
Qed.
End Collect.

(** The data to play is what the guest wrote.  On a transmit queue the driver
    laid out, with 16-bit samples, one notification appends one buffer per
    published request, in ring order: its head, and exactly the bytes behind
    the four-byte transfer header, gathered over the request's elements.  The
    driver's memory apart from the status elements is unchanged. *)
Theorem tx_collects m d h avail used safe elems pcms :
  let q := queue_at m 2 in
  2 < num_queues m -> ring_layout q h avail used -> queue_ok q -> store_ok (hm_bytes h) ->
  safe avail (6 + 2 * queue_size_ q) -> (forall a n, safe a n -> outside q used a n) ->
  pcm_format_ d = VIRTIO_SND_PCM_FMT_S16 ->
  Forall2 (fun head es => request_at safe q h head es) (published q h avail) elems -> Forall2 (tx_request safe h) elems pcms ->
  exists m' h', Snd_OnQueueNotify 2 (m, d, h)
      = Some (m', set_pending (event_buf_heads_ d) (pending_tx_buffers_ d ++ zip_with (fun hd pcm => mkPending hd 8 pcm) (published q h avail) pcms) d, h')
    /\ last_avail_idx_ (queue_at m' 2) = avail_idx h avail /\ agree safe h h'.
Proof.
  intros q Hn Hlay Hok Hst Hsafe Hout Hfmt Hreq Hpcm.
  destruct (drain_published snd_tx (collect_inv h safe pcms (published q h avail) d) 2 m d h avail used) as (m1 & d1 & h1 & Hd & _ & Hl & _ & Ha & Hd1); try done.
  - by eapply snd_tx_step.
  - split; [apply agree_refl|]. unfold collected, queued. cbn. rewrite app_nil_r. by destruct d.
  - exists m1, h1. split; [|by split]. change (Snd_OnQueueNotify 2 (m, d, h)) with (drain snd_tx (Z.to_nat 65536) 2 (m, d, h)).
    rewrite Hd, Hd1. unfold collected, queued. rewrite firstn_all. do 3 f_equal.
    rewrite take_ge; [done|]. by rewrite <- (Forall2_length _ _ _ Hpcm), <- (Forall2_length _ _ _ Hreq).
Qed.

(** ** Playing *)

Lemma ShouldNotify_layout q h avail used b q' :
  ShouldNotifyGuest q h = Some (b, q') -> ring_layout q h avail used -> ring_layout q' h avail used /\ queue_size_ q' = queue_size_ q.
Proof.
  intros Hs Hl. assert (E : q' = q \/ exists v, q' = set_last_signalled_used v q).
  { unfold ShouldNotifyGuest in Hs. destruct (negb (event_idx_ q)).
    - destruct (Avail q h); [apply bind_Some in Hs as (? & _ & [= _ <-])|injection Hs as _ <-]; by left.
    - destruct (Used q h); [|injection Hs as _ <-; by left]. apply bind_Some in Hs as (v & _ & Hs). apply bind_Some in Hs as (u & _ & [= _ <-]).
      destruct (event_crossed _ _ _); [right; by eexists|by left]. }
  destruct E as [->|[v ->]]; [done|]. by destruct Hl.
Qed.

Lemma NotifyUsedBuffer_layout i m h avail used :
  0 <= i < num_queues m -> ring_layout (queue_at m i) h avail used ->
  exists m', NotifyUsedBuffer i m h = Some m' /\ ring_layout (queue_at m' i) h avail used
    /\ queue_size_ (queue_at m' i) = queue_size_ (queue_at m i) /\ num_queues m' = num_queues m.
Proof.
  intros Hi Hl. destruct (ShouldNotifyGuest_ring _ _ _ _ Hl) as (b & q' & Hs & _). destruct (ShouldNotify_layout _ _ _ _ _ _ Hs Hl) as [Hl' Hz].
  unfold NotifyUsedBuffer. rewrite (proj2 (Z.leb_le 0 i)), (proj2 (Z.ltb_lt i _)) by lia. cbn [andb]. rewrite Hs. cbn [mbind option_bind fst snd].
  assert (Hr : forall m0, queues_ (raise_irq 1 m0) = queues_ m0) by (intros; unfold raise_irq; by case_ifs).
  assert (Hq : forall m0, queue_at (raise_irq 1 m0) i = queue_at m0 i /\ num_queues (raise_irq 1 m0) = num_queues m0).
  { intros m0. unfold queue_at, num_queues. by rewrite Hr. }
  destruct b; eexists; (split; [reflexivity|]); [destruct (Hq (set_queue i q' m)) as [-> ->]|]; by rewrite num_queues_set, queue_at_set.
Qed.

(** What the audio port gets for a buffer, and what counts as played. *)
Definition chunk_of (d : SndDev) (b : PendingTxBuffer) : list AudioChunk :=
  match pd_pcm b with [] => [] | pcm => [mkChunk (pcm_sample_rate_ d) (pcm_channels_ d) pcm] end.
Definition played_bytes (d : SndDev) (b : PendingTxBuffer) : Z :=
  match pd_pcm b with [] => pcm_period_bytes_ d | pcm => Z.of_nat (length pcm) end.

(** Ticks of the timer at the times [times]. *)
Fixpoint ticks (times : list Z) (w : snd_world) : option snd_world :=
  match times with
  | [] => Some w
  | t :: times =>
      let '(m, d, h) := w in
      '(_, w) ← period_callback (m, set_now t d, h);
      ticks times w
  end.

(** Parameters of a stream, and buffers, with the bound [B] on their size. *)
Definition params_ok (B : Z) (d : SndDev) : Prop :=
  0 < pcm_sample_rate_ d <= 96000 /\ 0 < pcm_channels_ d < 256 /\ 0 < pcm_period_bytes_ d <= B /\ B < 2 ^ 32.
Definition buf_ok (B : Z) (b : PendingTxBuffer) : Prop :=
  in_width 32 (pd_head b) /\ pd_status_len b = 8 /\ Z.of_nat (length (pd_pcm b)) <= B.

(** No more than one buffer ahead of real time, to the millisecond. *)
Definition paced (B : Z) (d : SndDev) : Prop :=
  0 <= period_bytes_processed_ d /\ 0 <= snd_now d - period_start_time_ d < 2 ^ 55
  /\ period_bytes_processed_ d * 1000 < (elapsed_ms d + 1) * bytes_per_second d + 1000 * B.

Lemma bps_eq B d : params_ok B d -> bytes_per_second d = pcm_sample_rate_ d * pcm_channels_ d * 2 /\ 0 < bytes_per_second d < 2 ^ 26.
Proof.
  intros (Hr & Hc & _). assert (0 < pcm_sample_rate_ d * pcm_channels_ d <= 96000 * 255) by nia.
  unfold bytes_per_second. rewrite (wrap_small 32 (pcm_sample_rate_ d * _)), wrap_small by (unfold in_width; lia). lia.
Qed.

Lemma elapsed_div d : 0 <= snd_now d - period_start_time_ d -> elapsed_ms d = (snd_now d - period_start_time_ d) / 1000000.
Proof. intros. apply Z.quot_div_nonneg; lia. Qed.

Lemma paced_later B d t : params_ok B d -> paced B d -> snd_now d <= t -> t - period_start_time_ d < 2 ^ 55 -> paced B (set_now t d).
Proof.
  intros Hp (H0 & H1 & H2) Ht Hlim. destruct (bps_eq B d Hp) as [_ Hb]. split; [exact H0|]. cbn [snd_now set_now period_start_time_ period_bytes_processed_].
  split; [lia|]. change (bytes_per_second (set_now t d)) with (bytes_per_second d). rewrite (elapsed_div d) in H2 by lia.
  rewrite elapsed_div by (cbn; lia). cbn [snd_now set_now period_start_time_].
  assert ((snd_now d - period_start_time_ d) / 1000000 <= (t - period_start_time_ d) / 1000000) by (apply Z.div_le_mono; lia). nia.
Qed.

(** What a tick leaves alone. *)
Definition same_stream (d d' : SndDev) : Prop :=
  pcm_sample_rate_ d' = pcm_sample_rate_ d /\ pcm_channels_ d' = pcm_channels_ d /\ pcm_period_bytes_ d' = pcm_period_bytes_ d
  /\ period_running_ d' = period_running_ d /\ snd_now d <= snd_now d' /\ period_start_time_ d <= period_start_time_ d'.

Definition returned (bufs : list PendingTxBuffer) : list (Z * Z) := map (fun b => (pd_head b, pd_status_len b)) bufs.

Lemma return_buffer m h avail used u0 done b :
  2 < num_queues m -> ring_layout (queue_at m 2) h avail used -> 65536 mod queue_size_ (queue_at m 2) = 0 ->
  Z.of_nat (length done) < queue_size_ (queue_at m 2) -> used_holds (queue_at m 2) used u0 (returned done) h ->
  in_width 32 (pd_head b) -> pd_status_len b = 8 ->
  exists m' h', return_buffers [b] m h = Some (m', h') /\ num_queues m' = num_queues m
    /\ ring_layout (queue_at m' 2) h' avail used /\ queue_size_ (queue_at m' 2) = queue_size_ (queue_at m 2)
    /\ used_holds (queue_at m' 2) used u0 (returned (done ++ [b])) h'.
Proof.
  intros Hn Hlay Hpow Hroom Hu Hh Hs. unfold return_buffers, GetQueue, VIRTIO_SND_VQ_TX. rewrite (proj2 (Z.ltb_lt 2 _) Hn). cbn [push_all].
  destruct (PushUsed_holds (queue_at m 2) h avail used u0 (returned done) (pd_head b) (pd_status_len b)) as (h' & -> & Hu' & Ha); try done.
  { unfold returned. by rewrite length_map. }
  { by rewrite Hs. }
  cbn [mbind option_bind].
  destruct (NotifyUsedBuffer_layout 2 m h' avail used) as (m' & -> & Hl' & Hz & Hn'); [lia|eapply same_ring_layout; [exact Hlay|apply same_ring_refl|apply Ha]|].
  cbn [mbind option_bind]. exists m', h'. split_and!; try done. unfold returned. rewrite map_app. destruct Hu' as [U1 U2]. split; [done|]. by rewrite Hz.
Qed.

(** A tick plays at most the first buffer. *)
Definition tick_result (B avail used u0 : Z) (done : list PendingTxBuffer) (chunks : list AudioChunk) (m : Mmio) (d : SndDev)
    (k : nat) (m' : Mmio) (d' : SndDev) (h' : HostMem) : Prop :=
  pending_tx_buffers_ d' = drop k (pending_tx_buffers_ d)
  /\ audio_port_ d' = Some (chunks ++ concat (map (chunk_of d) (take k (pending_tx_buffers_ d))))
  /\ same_stream d d' /\ paced B d'
  /\ num_queues m' = num_queues m /\ ring_layout (queue_at m' 2) h' avail used
  /\ queue_size_ (queue_at m' 2) = queue_size_ (queue_at m 2)
  /\ used_holds (queue_at m' 2) used u0 (returned (done ++ take k (pending_tx_buffers_ d))) h'.

Lemma stay_result B avail used u0 done chunks m d h start p :
  params_ok B d -> paced B d -> audio_port_ d = Some chunks ->
  ring_layout (queue_at m 2) h avail used -> used_holds (queue_at m 2) used u0 (returned done) h ->
  (start = period_start_time_ d /\ p = period_bytes_processed_ d) \/ (start = snd_now d /\ p = 0) ->
  tick_result B avail used u0 done chunks m d 0 m (set_clock start p (audio_port_ d) d) h.
Proof.
  intros Hp Hpaced Haud Hlay Hu Hsp. pose proof Hpaced as (H0 & Hnow & Hpc). pose proof Hp as (_ & _ & Hper & _). destruct (bps_eq B d Hp) as [_ Hbps].
  unfold tick_result. rewrite Haud. cbn [take concat map]. rewrite !app_nil_r, drop_0. split_and!; try done.
  - unfold same_stream. cbn. split_and!; try done. by destruct Hsp as [[-> _]|[-> _]]; [|lia].
  - destruct Hsp as [[-> ->]|[-> ->]]; [exact Hpaced|]. split_and!; cbn; [lia|lia|lia|].
    unfold elapsed_ms. cbn. rewrite Z.sub_diag. change (bytes_per_second (set_clock _ _ _ d)) with (bytes_per_second d). rewrite Z.quot_0_l by lia. lia.
Qed.

(** The first buffer handed over, and counted. *)
Definition played (d : SndDev) (b : PendingTxBuffer) (rest : list PendingTxBuffer) (chunks : list AudioChunk) : SndDev :=
  set_clock (period_start_time_ d) (period_bytes_processed_ d + played_bytes d b) (Some (chunks ++ chunk_of d b))
    (set_pending (event_buf_heads_ d) rest d).

Lemma play_result B avail used u0 done chunks m d b rest m' h' :
  params_ok B d -> paced B d -> audio_ms d <= elapsed_ms d -> pending_tx_buffers_ d = b :: rest -> buf_ok B b ->
  num_queues m' = num_queues m -> ring_layout (queue_at m' 2) h' avail used ->
  queue_size_ (queue_at m' 2) = queue_size_ (queue_at m 2) -> used_holds (queue_at m' 2) used u0 (returned (done ++ [b])) h' ->
  tick_result B avail used u0 done chunks m d 1 m' (played d b rest chunks) h'.
Proof.
  intros Hp (H0 & Hnow & Hpc) Hdue Hpend (_ & _ & Hb) Hn Hlay Hz Hu. pose proof Hp as (_ & _ & Hper & _). destruct (bps_eq B d Hp) as [_ Hbps].
  unfold tick_result. rewrite Hpend. cbn [take drop concat map]. rewrite app_nil_r. split_and!; try done.
  assert (Hpl : 0 < played_bytes d b <= B) by (unfold played_bytes; destruct (pd_pcm b); [lia|cbn [length] in *; lia]).
  unfold audio_ms in Hdue. rewrite Z.quot_div_nonneg in Hdue by lia.
  assert (Hlt : period_bytes_processed_ d * 1000 < (elapsed_ms d + 1) * bytes_per_second d).
  { pose proof (Z.div_mod (period_bytes_processed_ d * 1000) (bytes_per_second d)).
    pose proof (Z.mod_pos_bound (period_bytes_processed_ d * 1000) (bytes_per_second d)). nia. }
  unfold paced, played. cbn [period_bytes_processed_ set_clock set_pending snd_now period_start_time_].
  change (elapsed_ms (set_clock _ _ _ _)) with (elapsed_ms d). change (bytes_per_second (set_clock _ _ _ _)) with (bytes_per_second d). lia.
Qed.

Lemma tick_step B m d h avail used u0 done chunks :
  params_ok B d -> paced B d -> period_running_ d = true -> audio_port_ d = Some chunks -> Forall (buf_ok B) (pending_tx_buffers_ d) ->
  2 < num_queues m -> ring_layout (queue_at m 2) h avail used -> 65536 mod queue_size_ (queue_at m 2) = 0 ->
  Z.of_nat (length done + length (pending_tx_buffers_ d)) <= queue_size_ (queue_at m 2) ->
  used_holds (queue_at m 2) used u0 (returned done) h ->
  exists r k m' d' h', period_callback (m, d, h) = Some (r, (m', d', h')) /\ 0 < r
    /\ tick_result B avail used u0 done chunks m d k m' d' h'
    /\ snd_now d' = snd_now d
    /\ (0 <= elapsed_ms d - audio_ms d <= 200 -> pending_tx_buffers_ d <> [] -> k = 1%nat).
Proof.
  intros Hp Hpaced Hrun Haud Hbufs Hn Hlay Hpow Hroom Hu. pose proof Hpaced as (Hpr & Hnow & Hpc). pose proof Hp as (Hr & Hc & Hper & HB).
  destruct (bps_eq B d Hp) as [_ Hbps].
  assert (He : 0 <= elapsed_ms d < 2 ^ 36) by (rewrite elapsed_div by lia; split; [apply Z.div_pos; lia|apply Z.div_lt_upper_bound; lia]).
  assert (Hov : period_bytes_processed_ d * 1000 < 2 ^ 63 - 2 ^ 43) by nia.
  assert (Hsame : set_clock (period_start_time_ d) (period_bytes_processed_ d) (audio_port_ d) d = d) by (by destruct d).
  unfold period_callback. rewrite Hrun. cbn [negb]. unfold PeriodTick.
  rewrite !(proj2 (Z.eqb_neq _ 0)), (proj2 (Z.leb_gt (2 ^ 63) _)) by lia. cbn [orb].
  destruct (Z.ltb_spec 0 (audio_ms d - elapsed_ms d)) as [Hahead|Hdue].
  { cbn [mbind option_bind]. rewrite Hrun. cbn [negb]. eexists _, 0%nat, m, d, h. split; [reflexivity|].
    split; [destruct (Z.eqb_spec (Z.min (audio_ms d - elapsed_ms d) 10) 0); lia|]. split; [|lia].
    rewrite <- Hsame at 2. apply stay_result; try done. by left. }
  destruct (Z.ltb_spec (audio_ms d - elapsed_ms d) (-200)) as [Hlate|Hnear].
  { cbn [mbind option_bind period_running_ set_clock]. rewrite Hrun. cbn [negb]. eexists _, 0%nat, m, _, h. split; [reflexivity|].
    split; [done|]. split; [|split; [done|lia]]. apply stay_result; try done. by right. }
  destruct (pending_tx_buffers_ d) as [|b rest] eqn:Hpend.
  { cbn [mbind option_bind]. rewrite Hrun. cbn [negb]. eexists _, 0%nat, m, d, h. split; [reflexivity|]. split; [done|]. split; [|done].
    rewrite <- Hsame at 2. apply stay_result; try done. by left. }
  inversion_clear Hbufs as [|? ? (Hhd & Hsl & Hb) _]. cbn [length] in Hroom.
  destruct (return_buffer m h avail used u0 done b) as (m' & h' & E & Hn' & Hl' & Hz & Hu'); try done; [lia|].
  assert (Hport : match pd_pcm b, audio_port_ (set_pending (event_buf_heads_ d) rest d) with
            | _ :: _, Some chunks => (Z.of_nat (length (pd_pcm b)), Some (chunks ++ [mkChunk (pcm_sample_rate_ (set_pending (event_buf_heads_ d) rest d))
                                        (pcm_channels_ (set_pending (event_buf_heads_ d) rest d)) (pd_pcm b)]))
            | _, port => (0, port)
            end = (Z.of_nat (length (pd_pcm b)), Some (chunks ++ chunk_of d b))).
  { unfold chunk_of. cbn [audio_port_ set_pending pcm_sample_rate_ pcm_channels_]. rewrite Haud. destruct (pd_pcm b); [by rewrite app_nil_r|done]. }
  rewrite Hport, E. cbn [mbind option_bind].
  assert (Hmore : (if 0 <? Z.of_nat (length (pd_pcm b)) then Z.of_nat (length (pd_pcm b)) else pcm_period_bytes_ (set_pending (event_buf_heads_ d) rest d))
                  = played_bytes d b) by (unfold played_bytes; by destruct (pd_pcm b)).
  rewrite Hmore. assert (0 < played_bytes d b <= B) by (unfold played_bytes; destruct (pd_pcm b); cbn [length] in *; lia).
  change (period_bytes_processed_ (set_pending _ _ _)) with (period_bytes_processed_ d). change (period_start_time_ (set_pending _ _ _)) with (period_start_time_ d).
  rewrite (wrap_small 64) by (unfold in_width; lia). fold (played d b rest chunks).
  change (period_running_ (played _ _ _ _)) with (period_running_ d). rewrite Hrun. cbn [negb].
  eexists _, 1%nat, m', _, h'. split; [reflexivity|]. split; [done|]. split; [|done].
  eapply play_result; try done. lia.
Qed.

Lemma tick_result_trans B avail used u0 done chunks m d k m1 d1 h1 j m2 d2 h2 :
  tick_result B avail used u0 done chunks m d k m1 d1 h1 ->
  tick_result B avail used u0 (done ++ take k (pending_tx_buffers_ d)) (chunks ++ concat (map (chunk_of d) (take k (pending_tx_buffers_ d))))
    m1 d1 j m2 d2 h2 ->
  tick_result B avail used u0 done chunks m d (k + j) m2 d2 h2.
Proof.
  intros (P1 & A1 & (R1 & C1 & E1 & S1 & N1 & T1) & _ & M1 & _ & Z1 & _) (P2 & A2 & (R2 & C2 & E2 & S2 & N2 & T2) & Hp & M2 & L2 & Z2 & U2).
  assert (Hc : forall l, map (chunk_of d1) l = map (chunk_of d) l) by (intros; apply map_ext; intros b; unfold chunk_of; by rewrite R1, C1).
  assert (Htk : take (k + j) (pending_tx_buffers_ d) = take k (pending_tx_buffers_ d) ++ take j (pending_tx_buffers_ d1)).
  { rewrite P1. symmetry. apply take_take_drop. }
  unfold tick_result. rewrite Htk, map_app, concat_app, !app_assoc, <- (Hc (take j _)). split_and!; try done; try congruence.
  - by rewrite P2, P1, drop_drop.
  - unfold same_stream. split_and!; (congruence || lia).
Qed.

(** The times do not go back. *)
Fixpoint times_ok (now limit : Z) (times : list Z) : Prop :=
  match times with [] => True | t :: times => now <= t < limit /\ times_ok t limit times end.

(** The device, playing, with its transmit queue. *)
Definition playing (B avail used u0 : Z) (done : list PendingTxBuffer) (chunks : list AudioChunk) (m : Mmio) (d : SndDev) (h : HostMem) : Prop :=
  params_ok B d /\ paced B d /\ period_running_ d = true /\ audio_port_ d = Some chunks /\ Forall (buf_ok B) (pending_tx_buffers_ d)
  /\ 2 < num_queues m /\ ring_layout (queue_at m 2) h avail used /\ 65536 mod queue_size_ (queue_at m 2) = 0
  /\ Z.of_nat (length done + length (pending_tx_buffers_ d)) <= queue_size_ (queue_at m 2)
  /\ used_holds (queue_at m 2) used u0 (returned done) h.

Lemma playing_later B avail used u0 done chunks m d h t :
  playing B avail used u0 done chunks m d h -> snd_now d <= t < period_start_time_ d + 2 ^ 55 -> playing B avail used u0 done chunks m (set_now t d) h.
Proof. intros (Hp & Hpaced & Hrest) Ht. split; [done|]. split; [apply paced_later; done || lia|done]. Qed.

Lemma playing_tick B avail used u0 done chunks m d h k m' d' h' :
  playing B avail used u0 done chunks m d h -> tick_result B avail used u0 done chunks m d k m' d' h' ->
  playing B avail used u0 (done ++ take k (pending_tx_buffers_ d)) (chunks ++ concat (map (chunk_of d) (take k (pending_tx_buffers_ d)))) m' d' h'.
Proof.
  intros (Hp & _ & Hrun & _ & Hbufs & Hn & _ & Hpow & Hroom & _) (P & A & (R & C & E & S & _ & _) & Hpaced & M & L & Z1 & U).
  unfold playing, params_ok. rewrite R, C, E, P, M, Z1, S. split_and!; try done; try apply Hp.
  - by apply Forall_drop.
  - rewrite length_app, length_take, length_drop. lia.
Qed.

Lemma playing_step B avail used u0 done chunks m d h :
  playing B avail used u0 done chunks m d h ->
  exists r k m' d' h', period_callback (m, d, h) = Some (r, (m', d', h')) /\ 0 < r
    /\ tick_result B avail used u0 done chunks m d k m' d' h' /\ snd_now d' = snd_now d
    /\ (0 <= elapsed_ms d - audio_ms d <= 200 -> pending_tx_buffers_ d <> [] -> k = 1%nat).
Proof. intros (? & ? & ? & ? & ? & ? & ? & ? & ? & ?). by apply tick_step. Qed.

Lemma tick_result_refl B avail used u0 done chunks m d h :
  playing B avail used u0 done chunks m d h -> tick_result B avail used u0 done chunks m d 0 m d h.
Proof.
  intros (_ & Hp & _ & Ha & _ & _ & Hl & _ & _ & Hu). unfold tick_result. cbn [take concat map]. rewrite !app_nil_r.
  split_and!; try done.
Qed.

Lemma last_behind (l : list Z) x y : List.last l x = List.last (x :: l) y.
Proof.
  assert (E : forall (z : Z) u v, List.last (z :: l) u = List.last (z :: l) v).
  { induction l as [|w l IH]; [done|]. intros z u v. apply (IH w). }
  destruct l as [|z l]; [done|]. apply (E z).
Qed.

Lemma ticks_result B avail used u0 limit times : forall done chunks m d h,
  playing B avail used u0 done chunks m d h -> times_ok (snd_now d) limit times -> limit <= period_start_time_ d + 2 ^ 55 ->
  exists k m' d' h', ticks times (m, d, h) = Some (m', d', h') /\ tick_result B avail used u0 done chunks m d k m' d' h'
    /\ snd_now d' = List.last times (snd_now d).
Proof.
  induction times as [|t times IH]; intros done chunks m d h Hpl Ht Hlim; cbn [ticks].
  - exists 0%nat, m, d, h. split; [done|]. split; [by apply tick_result_refl|done].
  - destruct Ht as [Ht Hts]. pose proof (playing_later _ _ _ _ _ _ _ _ _ t Hpl ltac:(lia)) as Hlater.
    destruct (playing_step _ _ _ _ _ _ _ _ _ Hlater) as (r & k & m1 & d1 & h1 & E & _ & Htick & Hnow & _). rewrite E. cbn [mbind option_bind].
    assert (Hst : period_start_time_ d <= period_start_time_ d1) by apply Htick. cbn [snd_now set_now] in Hnow.
    destruct (IH _ _ m1 d1 h1 (playing_tick _ _ _ _ _ _ _ _ _ _ _ _ _ Hlater Htick)) as (j & m2 & d2 & h2 & E2 & H2 & Hlast);
      [by rewrite Hnow|lia|]. exists (k + j)%nat, m2, d2, h2. split; [done|].
    split; [|rewrite Hlast, Hnow; apply last_behind].
    pose proof (tick_result_trans _ _ _ _ _ _ _ _ _ _ _ _ _ _ _ _ Htick H2) as (Q1 & Q2 & (W1 & W2 & W3 & W4 & W5 & W6) & Q4). 
    unfold tick_result. split_and!; try done; try apply Q4. unfold same_stream. cbn [snd_now set_now] in W5. split_and!; (done || lia).
Qed.

(** C12. Audio comes out in order and at real rate.  While the stream runs, ticks
    of the period timer at any times hand the audio port the first [k]
    collected buffers, in order and unchanged, and return exactly these to the
    guest, in order, in the used ring behind what was returned before; the
    rest stays collected.  What was handed over is never more than one buffer
    ahead of the clock.  And a later tick that comes no more than 200 ms late
    hands over the next one. *)
Theorem ticks_play_in_order B avail used u0 limit times done chunks m d h :
  playing B avail used u0 done chunks m d h -> times_ok (snd_now d) limit times -> limit <= period_start_time_ d + 2 ^ 55 ->
  exists k m' d' h', ticks times (m, d, h) = Some (m', d', h')
    /\ pending_tx_buffers_ d' = drop k (pending_tx_buffers_ d)
    /\ audio_port_ d' = Some (chunks ++ concat (map (chunk_of d) (take k (pending_tx_buffers_ d))))
    /\ used_holds (queue_at m' 2) used u0 (returned (done ++ take k (pending_tx_buffers_ d))) h'
    /\ paced B d'
    /\ (forall t b rest, List.last times (snd_now d) <= t < limit -> pending_tx_buffers_ d' = b :: rest ->
          0 <= elapsed_ms (set_now t d') - audio_ms d' <= 200 ->
          exists m2 d2 h2, ticks [t] (m', d', h') = Some (m2, d2, h2) /\ pending_tx_buffers_ d2 = rest
            /\ audio_port_ d2 = Some (chunks ++ concat (map (chunk_of d) (take (S k) (pending_tx_buffers_ d))))).
Proof.
  intros Hpl Ht Hlim. destruct (ticks_result _ _ _ _ _ _ _ _ _ _ _ Hpl Ht Hlim) as (k & m' & d' & h' & E & Hr & Hlast).
  pose proof (playing_tick _ _ _ _ _ _ _ _ _ _ _ _ _ Hpl Hr) as Hpl'. exists k, m', d', h'. split; [done|].
  pose proof Hr as (P & A & Hs & Hpc & _ & _ & _ & U). split_and!; try done.
  intros t b rest Hte Hpend Hlate. assert (Hst : period_start_time_ d <= period_start_time_ d') by apply Hs.
  destruct (playing_step _ _ _ _ _ _ _ _ _ (playing_later _ _ _ _ _ _ _ _ _ t Hpl' ltac:(lia))) as (r & j & m2 & d2 & h2 & E2 & _ & Htick & _ & Hj).
  assert (j = 1%nat) as -> by (apply Hj; [done|]; cbn [pending_tx_buffers_ set_now]; by rewrite Hpend).
  exists m2, d2, h2. cbn [ticks]. rewrite E2. cbn [mbind option_bind]. split; [done|].
  assert (Htick' : tick_result B avail used u0 (done ++ take k (pending_tx_buffers_ d)) (chunks ++ concat (map (chunk_of d) (take k (pending_tx_buffers_ d)))) m' d' 1 m2 d2 h2).
  { destruct Htick as (Q1 & Q2 & (W1 & W2 & W3 & W4 & W5 & W6) & Q4). cbn [snd_now set_now] in W5. unfold tick_result.
    split_and!; try done; try apply Q4. unfold same_stream. split_and!; (done || lia). }
  destruct (tick_result_trans _ _ _ _ _ _ _ _ _ _ _ _ _ _ _ _ Hr Htick') as (_ & Q & _).
  rewrite Nat.add_1_r in Q. split; [|done]. destruct Htick' as (Q1 & _). by rewrite Q1, Hpend.
Qed.

(** ** A request of four samples *)

Definition snd_mem : HostMem :=
  MkHostMem demo_map
    (poke (poke (poke (poke ∅ 0x1000 (demo_desc 0x4000 12 1 1)) 0x1010 (demo_desc 0x5000 8 2 0))
       0x2000 (le_bytes 2 0 ++ le_bytes 2 1 ++ le_bytes 2 0 ++ le_bytes 2 0))
     0x4000 (replicate 4 0 ++ [1; 0; 2; 0; 3; 0; 4; 0])).
Definition snd_transport : Mmio := set_queues [VirtQueue_new; VirtQueue_new; demo_queue; VirtQueue_new] (Mmio_new false true false).
Definition snd_device : SndDev := SndDev_new None (Some []) 0.
Definition snd_elems : list VirtqChainElem := [MkElem 0x4000 12 false; MkElem 0x5000 8 true].
Definition snd_safe (a n : Z) : Prop := outside demo_queue 0x3000 a n /\ (a + n <= 0x5000 \/ 0x5008 <= a).

Lemma snd_mem_ok : store_ok (hm_bytes snd_mem).
Proof.
  unfold snd_mem, demo_desc, hm_bytes.
  repeat apply store_ok_poke; try (by apply map_Forall_empty); repeat (apply Forall_app_2; [apply le_bytes_ok|]); try apply le_bytes_ok;
    repeat first [apply Forall_app_2|apply Forall_cons_2|apply Forall_nil_2|apply Forall_replicate]; (split; [discriminate|reflexivity]).
Qed.

Lemma snd_layout : ring_layout demo_queue snd_mem 0x2000 0x3000.
Proof. constructor; try reflexivity; vm_compute; try (split; discriminate). by left. Qed.

Lemma snd_request_at : request_at snd_safe demo_queue snd_mem 0 snd_elems.
Proof.
  exists [1]. split.
  { exists 0x1000, (MkVirtqDesc 0x4000 12 1 1). split_and!; try (vm_compute; reflexivity); [by split|intros _].
    exists 0x1010, (MkVirtqDesc 0x5000 8 2 0). split_and!; try (vm_compute; reflexivity); [by split|done]. }
  split; [discriminate|]. split.
  - repeat apply Forall_cons_2; try apply Forall_nil_2; intros a Ha; vm_compute in Ha; injection Ha as <-;
      (split; [split; [discriminate|left; discriminate]|left; discriminate]).
  - repeat apply Forall_cons_2; try apply Forall_nil_2; [|discriminate]. intros _. split; [split; [discriminate|right; discriminate]|left; discriminate].
Qed.

Lemma tx_collects_witness :
  exists m' h', Snd_OnQueueNotify 2 (snd_transport, snd_device, snd_mem)
      = Some (m', set_pending [] [mkPending 0 8 [1; 0; 2; 0; 3; 0; 4; 0]] snd_device, h')
    /\ last_avail_idx_ (queue_at m' 2) = 1 /\ agree snd_safe snd_mem h'.
Proof.
  apply (tx_collects snd_transport snd_device snd_mem 0x2000 0x3000 snd_safe [snd_elems] [[1; 0; 2; 0; 3; 0; 4; 0]]).
  - reflexivity.
  - exact snd_layout.
  - split; [reflexivity|]. split; vm_compute; [discriminate|reflexivity].
  - exact snd_mem_ok.
  - split; [split; [discriminate|left; vm_compute; discriminate]|left; vm_compute; discriminate].
  - intros a n [H _]. exact H.
  - reflexivity.
  - assert (Hp : published (queue_at snd_transport 2) snd_mem 0x2000 = [0]) by (by vm_compute). rewrite Hp.
    constructor; [exact snd_request_at|constructor].
  - constructor; [|constructor]. split; [repeat apply Forall_cons_2; try apply Forall_nil_2; discriminate|]. split.
    + intros e [= <-] _. split_and!; try discriminate. intros a n [_ H]. exact H.
    + exists (replicate 4 0 ++ [1; 0; 2; 0; 3; 0; 4; 0]). split_and!; vm_compute; reflexivity.
Defined.

(** The same buffer behind one already returned, 5 ms and 12 ms into a
    stream of 48000 stereo frames per second. *)
Definition snd_playing : SndDev :=
  set_timer true 1 None
    (set_pending [] [mkPending 0 8 [1; 0; 2; 0; 3; 0; 4; 0]; mkPending 1 8 []] (set_pcm 48000 2 VIRTIO_SND_PCM_FMT_S16 7680 1920 snd_device)).

Lemma snd_playing_ok : playing 1920 0x2000 0x3000 0 [] [] snd_transport snd_playing snd_mem.
Proof.
  split; [split_and!; (discriminate || reflexivity)|]. split; [split_and!; (discriminate || reflexivity)|].
  split; [reflexivity|]. split; [reflexivity|].
  split; [repeat apply Forall_cons_2; try apply Forall_nil_2; (split; [split; [discriminate|reflexivity]|split; [reflexivity|discriminate]])|].
  split; [reflexivity|]. split; [exact snd_layout|]. split; [reflexivity|]. split; [discriminate|].
  split; [vm_compute; reflexivity|done].
Qed.

Lemma ticks_play_in_order_witness :
  exists k m' d' h', ticks [5000000; 12000000] (snd_transport, snd_playing, snd_mem) = Some (m', d', h')
    /\ pending_tx_buffers_ d' = drop k (pending_tx_buffers_ snd_playing).
Proof.
  destruct (ticks_play_in_order 1920 0x2000 0x3000 0 100000000 [5000000; 12000000] [] [] snd_transport snd_playing snd_mem)
    as (k & m' & d' & h' & E & P & _); [exact snd_playing_ok|cbn; lia|vm_compute; discriminate|].
  exists k, m', d', h'. split; [exact E|exact P].
Defined.

(** ** An odd number of bytes *)

(** The vector of samples holds half of the bytes, rounded down; the copy
    writes them all.  A request with an odd number of data bytes is undefined
    behaviour, whatever the device's state. *)
Theorem tx_odd_overflows m d h head elems data :
  WalkChain (queue_at m 2) h head = Some (true, elems) -> status_elem elems = None -> Forall (fun e => 0 <= e_len e) elems ->
  gather_readable elems h = Some data -> 4 < Z.of_nat (length data) -> Nat.odd (length data) = true ->
  pcm_format_ d = VIRTIO_SND_PCM_FMT_S16 -> snd_tx head (m, d, h) = None.
Proof.
  intros Hw Hs Hl Hg H4 Ho Hf. unfold snd_tx, VIRTIO_SND_VQ_TX. rewrite Hw. cbn [mbind option_bind negb]. rewrite Hs.
  rewrite (total_gather elems h data Hl Hg), Hf, Z.eqb_refl, (proj2 (Z.ltb_lt 4 _) H4). cbn [andb mbind option_bind].
  rewrite (tx_pcm_gather elems h data 4 Hl Hg) by lia. cbn [mbind option_bind]. rewrite length_drop.
  replace (Nat.even (length data - Z.to_nat 4)) with false; [done|]. symmetry.
  apply Nat.odd_spec in Ho as [n Hn]. apply not_true_iff_false. rewrite Nat.even_spec. intros [j Hj]. lia.
Qed.
