(* ===== verification/ArmBoot.v ===== *)
(** * Boot of a Linux kernel on ARM

    Models core/arch/aarch64/boot.{h,cpp} ([LoadLinuxImage]) and
    [Aarch64Machine::LoadKernel] of core/arch/aarch64/aarch64_machine.cpp: the
    kernel image at its text offset, the initial RAM disk behind the region
    the kernel reserves, and the device tree, built with [Fdt], at the start
    of RAM.  The files, the entropy and what the hypervisor says of its
    interrupt controller are arguments.

    The other side is [arm_boot_read]: the device tree read back from guest
    RAM and searched the way a kernel does, by node path and by [compatible].
    [arm_boot_view]: it describes the machine that was configured, and kernel
    and RAM disk are where it says.  [image_wrap], [initrd_end_wraps]: sums
    with fields of the image header wrap around 64 bits. *)

From S2P Require Import Prelude.
From S2P Require Import StdString.
From S2P Require Import GuestMem.
From S2P Require Import BootMem.
From S2P Require Import Fdt.

(** ** The loader *)

Definition kArmImageMagic : Z := 0x644d5241.
Definition kRamBase : Z := 0x40000000.
Definition kFdtBase : Z := kRamBase.
Definition kFdtMaxSize : Z := 0x100000.

Record ArmConfig := mkArmConfig { a_kernel_path : bytes; a_initrd_path : bytes; a_cmdline : bytes; a_cpu_count : Z }.

(** [fopen]: [None] when the file cannot be opened. *)
Abbreviation Files := (bytes -> option bytes).

(** Members of [LinuxImageHeader]. *)
Definition hdr_text_offset (kernel : bytes) : Z := field 8 8 kernel.
Definition hdr_image_size (kernel : bytes) : Z := field 8 16 kernel.
Definition hdr_magic (kernel : bytes) : Z := field 4 56 kernel.

Definition text_offset_of (kernel : bytes) : Z :=
  if hdr_text_offset kernel =? 0 then 0x200000 else hdr_text_offset kernel.

Definition LoadLinuxImage (files : Files) (path : bytes) (h : HostMem) : option (Z * HostMem) :=
  match files path with
  | None => Some (0, h)
  | Some kernel =>
      let file_size := Z.of_nat (length kernel) in
      if file_size <? 64 then Some (0, h)
      else if negb (hdr_magic kernel =? kArmImageMagic) then Some (0, h)
      else
        let text_offset := text_offset_of kernel in
        let kernel_gpa := u64 (kRamBase + text_offset) in
        let kernel_end_offset := u64 (text_offset + file_size) in
        if alloc_size (hm_map h) <? kernel_end_offset then Some (0, h)
        else
          h ← hm_write h text_offset kernel;
          Some (kernel_gpa, h)
  end.

(** The initial RAM disk: whether to go on, start and end, memory. *)
Definition load_arm_initrd (files : Files) (config : ArmConfig) (kernel_entry : Z) (h : HostMem)
    : option (bool * Z * Z * HostMem) :=
  match a_initrd_path config with
  | [] => Some (true, 0, 0, h)
  | path =>
      match files path with
      | None => Some (false, 0, 0, h)
      | Some initrd =>
          let initrd_size := Z.of_nat (length initrd) in
          if initrd_size =? 0 then Some (false, 0, 0, h)
          else
            let text_offset := u64 (kernel_entry - kRamBase) in
            let kernel_reserved_end :=
              match files (a_kernel_path config) with
              | None => text_offset
              | Some kernel =>
                  if (64 <=? Z.of_nat (length kernel)) && (0 <? hdr_image_size kernel)
                  then u64 (text_offset + hdr_image_size kernel)
                  else u64 (text_offset + Z.of_nat (length kernel))
              end in
            let initrd_offset := AlignUp kernel_reserved_end kPageSize in
            if alloc_size (hm_map h) <? u64 (initrd_offset + initrd_size) then Some (false, 0, 0, h)
            else
              h ← hm_write h initrd_offset initrd;
              let initrd_start := u64 (kRamBase + initrd_offset) in
              Some (true, initrd_start, u64 (initrd_start + initrd_size), h)
      end
  end.

(** ** The device tree *)

Definition kUartBase : Z := 0x09000000.
Definition kUartIrq : Z := 1.
Definition kRtcBase : Z := 0x09010000.
Definition kRtcIrq : Z := 2.
Definition kVirtioMmioBase : Z := 0x0A000000.
Definition kVirtioStride : Z := 0x200.
Definition kVirtioBaseIrq : Z := 16.
Definition kGicDistBase : Z := 0x08000000.
Definition kGicRedistBase : Z := 0x080A0000.
Definition kGicV2CpuBase : Z := 0x08010000.
Definition kGicV2CpuSize : Z := 0x10000.

Record VirtioDeviceSlot := mkSlot { mmio_base : Z; slot_irq : Z }.

(** The hypervisor of the VM, as far as the [dynamic_cast]s tell. *)
Inductive HvKind :=
| HvfVm (redist_base redist_size_per_cpu : Z)
| KvmVm (uses_gic_v2 : bool)
| OtherVm.

(** [%PRIx64]. *)
Definition hex_char (d : Z) : Z := if d <? 10 then 48 + d else 87 + d.
Fixpoint hex_digits (fuel : nat) (n : Z) : bytes :=
  match fuel with
  | O => []
  | S fuel => if n <? 16 then [hex_char n] else hex_digits fuel (n / 16) ++ [hex_char (n mod 16)]
  end.
Definition to_hex (n : Z) : bytes := hex_digits 16 n.

Definition hi_cell (v : Z) : Z := u32 (v .>> 32).
Definition lo_cell (v : Z) : Z := u32 (v .& 0xFFFFFFFF).

Definition chosen_ops (cmdline : bytes) (initrd_start initrd_end : Z) (rng_seed : bytes) : list FdtOp :=
  [OpBegin (str "chosen")]
  ++ (match cmdline with [] => [] | _ => [OpString (str "bootargs") cmdline] end)
  ++ (if initrd_start =? 0 then []
      else [OpU64 (str "linux,initrd-start") initrd_start; OpU64 (str "linux,initrd-end") initrd_end])
  ++ [OpString (str "stdout-path") (str "/pl011@" ++ to_hex kUartBase); OpBytes (str "rng-seed") rng_seed; OpEnd].

Definition memory_ops (alloc : Z) : list FdtOp :=
  [OpBegin (str "memory@" ++ to_hex kRamBase); OpString (str "device_type") (str "memory");
   OpCells (str "reg") [hi_cell kRamBase; lo_cell kRamBase; hi_cell alloc; lo_cell alloc]; OpEnd].

Definition cpu_ops (i : Z) : list FdtOp :=
  [OpBegin (str "cpu@" ++ to_dec i); OpString (str "device_type") (str "cpu"); OpString (str "compatible") (str "arm,arm-v8");
   OpU32 (str "reg") i; OpString (str "enable-method") (str "psci"); OpEnd].

Definition cpus_ops (cpu_count : Z) : list FdtOp :=
  [OpBegin (str "cpus"); OpU32 (str "#address-cells") 1; OpU32 (str "#size-cells") 0]
  ++ (seqZ 0 cpu_count ≫= cpu_ops) ++ [OpEnd].

Definition psci_ops : list FdtOp :=
  [OpBegin (str "psci"); OpString (str "compatible") (str "arm,psci-1.0"); OpString (str "method") (str "hvc"); OpEnd].

Definition hypervisor_ops (hv : HvKind) : list FdtOp :=
  match hv with
  | KvmVm _ => [OpBegin (str "hypervisor"); OpString (str "compatible") (str "linux,kvm"); OpEnd]
  | _ => []
  end.

Definition timer_ops : list FdtOp :=
  [OpBegin (str "timer"); OpString (str "compatible") (str "arm,armv8-timer");
   OpCells (str "interrupts") [1; 13; 4; 1; 14; 4; 1; 11; 4; 1; 10; 4]; OpEmpty (str "always-on"); OpEnd].

(** Redistributors: base and total size. *)
Definition redist_region (hv : HvKind) (cpu_count : Z) : Z * Z :=
  match hv with
  | HvfVm base size => (base, u32 (u32 size * cpu_count))
  | _ => (kGicRedistBase, u32 (cpu_count * 0x20000))
  end.

Definition uses_gic_v2 (hv : HvKind) : bool := match hv with KvmVm v2 => v2 | _ => false end.

Definition gic_cells (hv : HvKind) (cpu_count : Z) : list Z :=
  [hi_cell kGicDistBase; lo_cell kGicDistBase; 0; 0x10000]
  ++ (if uses_gic_v2 hv then [hi_cell kGicV2CpuBase; lo_cell kGicV2CpuBase; 0; u32 kGicV2CpuSize]
      else let '(base, size) := redist_region hv cpu_count in [hi_cell base; lo_cell base; 0; size]).

Definition gic_ops (hv : HvKind) (cpu_count gic_phandle : Z) : list FdtOp :=
  [OpBegin (str "intc@" ++ to_hex kGicDistBase);
   OpString (str "compatible") (if uses_gic_v2 hv then str "arm,cortex-a15-gic" else str "arm,gic-v3");
   OpU32 (str "#interrupt-cells") 3; OpEmpty (str "interrupt-controller"); OpU32 (str "phandle") gic_phandle;
   OpCells (str "reg") (gic_cells hv cpu_count); OpEnd].

Definition clock_ops (phandle : Z) : list FdtOp :=
  [OpBegin (str "apb-pclk"); OpString (str "compatible") (str "fixed-clock"); OpU32 (str "#clock-cells") 0;
   OpU32 (str "clock-frequency") 24000000; OpString (str "clock-output-names") (str "clk24mhz");
   OpU32 (str "phandle") phandle; OpEnd].

(** Pl011::kMmioSize, Pl031Rtc::kMmioSize. *)
Definition kPeriphSize : Z := 0x1000.

Definition uart_ops (clk : Z) : list FdtOp :=
  [OpBegin (str "pl011@" ++ to_hex kUartBase);
   OpBytes (str "compatible") (str "arm,pl011" ++ [0] ++ str "arm,primecell" ++ [0]);
   OpCells (str "reg") [hi_cell kUartBase; lo_cell kUartBase; 0; kPeriphSize];
   OpCells (str "interrupts") [0; kUartIrq; 4]; OpCells (str "clocks") [clk; clk];
   OpBytes (str "clock-names") (str "uartclk" ++ [0] ++ str "apb_pclk" ++ [0]); OpEnd].

Definition rtc_ops (clk : Z) : list FdtOp :=
  [OpBegin (str "pl031@" ++ to_hex kRtcBase);
   OpBytes (str "compatible") (str "arm,pl031" ++ [0] ++ str "arm,primecell" ++ [0]);
   OpCells (str "reg") [hi_cell kRtcBase; lo_cell kRtcBase; 0; kPeriphSize];
   OpCells (str "interrupts") [0; kRtcIrq; 4]; OpCells (str "clocks") [clk];
   OpBytes (str "clock-names") (str "apb_pclk" ++ [0]); OpEnd].

Definition virtio_ops (slot : VirtioDeviceSlot) : list FdtOp :=
  [OpBegin (str "virtio_mmio@" ++ to_hex (mmio_base slot)); OpString (str "compatible") (str "virtio,mmio");
   OpCells (str "reg") [hi_cell (mmio_base slot); lo_cell (mmio_base slot); 0; 0x200];
   OpCells (str "interrupts") [0; slot_irq slot; 4]; OpEmpty (str "dma-coherent"); OpEnd].

(** The tree before and behind the second [AllocPhandle]. *)
Definition tree_ops_1 (hv : HvKind) (config : ArmConfig) (alloc initrd_start initrd_end : Z) (rng_seed : bytes) (gic_phandle : Z)
    : list FdtOp :=
  [OpBegin []; OpString (str "compatible") (str "linux,dummy-virt"); OpU32 (str "#address-cells") 2; OpU32 (str "#size-cells") 2;
   OpU32 (str "interrupt-parent") gic_phandle]
  ++ chosen_ops (a_cmdline config) initrd_start initrd_end rng_seed
  ++ memory_ops alloc ++ cpus_ops (a_cpu_count config) ++ psci_ops ++ hypervisor_ops hv ++ timer_ops
  ++ gic_ops hv (a_cpu_count config) gic_phandle.

Definition tree_ops_2 (slots : list VirtioDeviceSlot) (clk : Z) : list FdtOp :=
  clock_ops clk ++ uart_ops clk ++ rtc_ops clk ++ (slots ≫= virtio_ops) ++ [OpEnd].

Definition build_tree (hv : HvKind) (config : ArmConfig) (alloc initrd_start initrd_end : Z) (rng_seed : bytes)
    (slots : list VirtioDeviceSlot) : bytes :=
  let '(gic_phandle, fdt) := AllocPhandle FdtBuilder_new in
  let fdt := fold_left fdt_op (tree_ops_1 hv config alloc initrd_start initrd_end rng_seed gic_phandle) fdt in
  let '(apb_pclk_phandle, fdt) := AllocPhandle fdt in
  Finish (fold_left fdt_op (tree_ops_2 slots apb_pclk_phandle) fdt).

(** [LoadKernel]: its result, [kernel_entry_], [fdt_gpa_] and memory. *)
Record ArmLoaded := mkLoaded { al_ok : bool; al_entry : Z; al_fdt : Z; al_mem : HostMem }.

Definition LoadKernel (hv : HvKind) (files : Files) (rng_seed : bytes) (config : ArmConfig) (slots : list VirtioDeviceSlot)
    (h : HostMem) : option ArmLoaded :=
  '(kernel_entry, h) ← LoadLinuxImage files (a_kernel_path config) h;
  if kernel_entry =? 0 then Some (mkLoaded false 0 0 h)
  else
    '(ok, initrd_start, initrd_end, h) ← load_arm_initrd files config kernel_entry h;
    if negb ok then Some (mkLoaded false kernel_entry 0 h)
    else
      let dtb := build_tree hv config (alloc_size (hm_map h)) initrd_start initrd_end rng_seed slots in
      if kFdtMaxSize <? Z.of_nat (length dtb) then Some (mkLoaded false kernel_entry kFdtBase h)
      else
        h ← hm_write h 0 dtb;
        Some (mkLoaded true kernel_entry kFdtBase h).

Definition GetVirtioSlots : list VirtioDeviceSlot :=
  map (fun i => mkSlot (kVirtioMmioBase + i * kVirtioStride) (u8 (kVirtioBaseIrq + i))) (seqZ 0 8).

(** ** What the kernel finds

    The nodes of a device tree in the order of the blob, with their path,
    the [#address-cells] and [#size-cells] of the parent, and properties. *)

Record DtNode := mkNode { n_path : bytes; n_cells : nat * nat; n_props : list (bytes * bytes) }.

Fixpoint leading_props (evs : list FdtEvent) : list (bytes * bytes) :=
  match evs with
  | EvProp name data :: evs => (name, data) :: leading_props evs
  | _ => []
  end.

Fixpoint prop (name : bytes) (ps : list (bytes * bytes)) : option bytes :=
  match ps with
  | [] => None
  | (n, data) :: ps => if bool_decide (n = name) then Some data else prop name ps
  end.

Definition cells_of (ps : list (bytes * bytes)) : nat * nat :=
  (Z.to_nat (from_option be_val 2 (prop (str "#address-cells") ps)),
   Z.to_nat (from_option be_val 1 (prop (str "#size-cells") ps))).

(** [stack]: path and cells of the open nodes, the innermost first. *)
Fixpoint dt_nodes (stack : list (bytes * (nat * nat))) (evs : list FdtEvent) : list DtNode :=
  match evs with
  | [] => []
  | EvProp _ _ :: evs => dt_nodes stack evs
  | EvEnd :: evs => dt_nodes (tail stack) evs
  | EvBegin name :: evs =>
      let ps := leading_props evs in
      let '(path, cells) := match stack with
                            | [] => ([], (2%nat, 1%nat))
                            | (parent, cells) :: _ => (parent ++ str "/" ++ name, cells)
                            end in
      mkNode path cells ps :: dt_nodes ((path, cells_of ps) :: stack) evs
  end.

(** Values: 32-bit cells, lists of strings, address and size pairs. *)
Definition dt_cells (data : bytes) : list Z := map (fun i => word_at (4 * i) data) (seq 0 (length data / 4)).
Fixpoint dt_strings (fuel : nat) (data : bytes) : list bytes :=
  match fuel, data with
  | S fuel, _ :: _ => c_str data :: dt_strings fuel (drop (S (length (c_str data))) data)
  | _, _ => []
  end.
Definition cells_val (cells : list Z) : Z := fold_left (fun acc c => acc * 2 ^ 32 + c) cells 0.
Fixpoint entries (n ac sc : nat) (cells : list Z) : list (Z * Z) :=
  match n with
  | O => []
  | S n => (cells_val (take ac cells), cells_val (take sc (drop ac cells))) :: entries n ac sc (drop (ac + sc) cells)
  end.

Definition n_prop (name : bytes) (nd : DtNode) : bytes := default [] (prop name (n_props nd)).
Definition n_reg (nd : DtNode) : list (Z * Z) :=
  let '(ac, sc) := n_cells nd in
  let cells := dt_cells (n_prop (str "reg") nd) in entries (length cells / (ac + sc)) ac sc cells.
Definition n_irqs (nd : DtNode) : list Z := dt_cells (n_prop (str "interrupts") nd).
Definition n_compatible (nd : DtNode) : list bytes :=
  let data := n_prop (str "compatible") nd in dt_strings (length data) data.

Definition at_path (path : bytes) (nd : DtNode) : bool := bool_decide (n_path nd = path).
Definition compatible (s : bytes) (nd : DtNode) : bool := existsb (fun c => bool_decide (c = s)) (n_compatible nd).
Definition device_type (s : bytes) (nd : DtNode) : bool := bool_decide (prop (str "device_type") (n_props nd) = Some (s ++ [0])).
Definition is_phandle (ph : bytes) (nd : DtNode) : bool := bool_decide (prop (str "phandle") (n_props nd) = Some ph).

Definition has_prop (name : bytes) (nd : DtNode) : bool := match prop name (n_props nd) with Some _ => true | None => false end.

(** What a kernel learns: beside the devices, the interrupts of the timer
    with whether it runs always, and the entropy. *)
Record ArmView := mkArmView {
  av_image : bytes; av_memory : list (Z * Z); av_cpus : list Z; av_bootargs : option bytes; av_initrd : option bytes;
  av_intc : list (list bytes * list (Z * Z)); av_stdout : list (list bytes * list (Z * Z) * list Z);
  av_rtc : list (list (Z * Z) * list Z); av_virtio : list (list (Z * Z) * list Z); av_psci : list bytes;
  av_timer : list (list Z * bool); av_entropy : option bytes
}.

(** The one node that satisfies [P]. *)
Definition the_node (P : DtNode -> bool) (nodes : list DtNode) : option DtNode :=
  match List.filter P nodes with [nd] => Some nd | _ => None end.

Definition initrd_read (h : HostMem) (chosen : DtNode) : option (option bytes) :=
  match prop (str "linux,initrd-start") (n_props chosen), prop (str "linux,initrd-end") (n_props chosen) with
  | Some s, Some e => Some <$> phys_read h (be_val s) (be_val e - be_val s)
  | _, _ => Some None
  end.

Definition arm_view (h : HostMem) (image : bytes) (nodes : list DtNode) : option ArmView :=
  root ← the_node (at_path []) nodes;
  chosen ← the_node (at_path (str "/chosen")) nodes;
  initrd ← initrd_read h chosen;
  let intc := List.filter (is_phandle (n_prop (str "interrupt-parent") root)) nodes in
  let stdout := List.filter (at_path (c_str (n_prop (str "stdout-path") chosen))) nodes in
  Some (mkArmView image
    (List.filter (device_type (str "memory")) nodes ≫= n_reg)
    (map fst (List.filter (device_type (str "cpu")) nodes ≫= n_reg))
    (c_str <$> prop (str "bootargs") (n_props chosen)) initrd
    (map (fun nd => (n_compatible nd, n_reg nd)) intc)
    (map (fun nd => (n_compatible nd, n_reg nd, n_irqs nd)) stdout)
    (map (fun nd => (n_reg nd, n_irqs nd)) (List.filter (compatible (str "arm,pl031")) nodes))
    (map (fun nd => (n_reg nd, n_irqs nd)) (List.filter (compatible (str "virtio,mmio")) nodes))
    (map (n_prop (str "method")) (List.filter (compatible (str "arm,psci-1.0")) nodes))
    (map (fun nd => (n_irqs nd, has_prop (str "always-on") nd)) (List.filter (compatible (str "arm,armv8-timer")) nodes))
    (prop (str "rng-seed") (n_props chosen))).

(** The boot protocol: the tree is at [x0], the image, of [ksize] bytes, at
    the entry point. *)
Definition arm_boot_read (h : HostMem) (dtb_gpa entry ksize : Z) : option ArmView :=
  image ← phys_read h entry ksize;
  header ← phys_read h dtb_gpa 40;
  dtb ← phys_read h dtb_gpa (word_at 4 header);
  evs ← fdt_read dtb;
  arm_view h image (dt_nodes [] evs).

Definition the_arm_initrd (files : Files) (path : bytes) : option bytes :=
  match path with [] => None | _ => files path end.

Definition expected_view (files : Files) (hv : HvKind) (seed : bytes) (c : ArmConfig) (slots : list VirtioDeviceSlot)
    (kernel : bytes) (alloc : Z) : ArmView :=
  mkArmView kernel [(0x40000000, alloc)] (seqZ 0 (a_cpu_count c))
    (match a_cmdline c with [] => None | s => Some s end) (the_arm_initrd files (a_initrd_path c))
    [if uses_gic_v2 hv then ([str "arm,cortex-a15-gic"], [(0x08000000, 0x10000); (0x08010000, 0x10000)])
     else ([str "arm,gic-v3"], [(0x08000000, 0x10000); redist_region hv (a_cpu_count c)])]
    [([str "arm,pl011"; str "arm,primecell"], [(0x09000000, 0x1000)], [0; 1; 4])]
    [([(0x09010000, 0x1000)], [0; 2; 4])]
    (map (fun s => ([(mmio_base s, 0x200)], [0; slot_irq s; 4])) slots) [str "hvc" ++ [0]]
    [([1; 13; 4; 1; 14; 4; 1; 11; 4; 1; 10; 4], true)] (Some seed).

(** ** The operations are well formed *)

(** The phandle counter and the buffers do not meet. *)
Definition set_phandle (p : Z) (f : FdtBuilder) : FdtBuilder := mkFdt (struct_buf_ f) (strings_buf_ f) p.

Lemma push_name_phandle name p f : push_name name (set_phandle p f) = set_phandle p (push_name name f).
Proof. unfold push_name, AddString. cbn [set_phandle strings_buf_]. by destruct (find_string _ _ _ _). Qed.

Lemma fold_push_phandle cells p f :
  fold_left (fun f cell => push cell f) cells (set_phandle p f) = set_phandle p (fold_left (fun f cell => push cell f) cells f).
Proof. revert f. induction cells as [|c cells IH]; intros f; [done|]. apply (IH (push c f)). Qed.

Lemma fdt_op_phandle op p f : fdt_op (set_phandle p f) op = set_phandle p (fdt_op f op).
Proof.
  assert (H : forall v name, push_name name (push v (push kFdtProp (set_phandle p f))) = set_phandle p (push_name name (push v (push kFdtProp f)))).
  { intros v name. apply (push_name_phandle name p (push v (push kFdtProp f))). }
  destruct op; cbn [fdt_op]; [done|done|unfold AddPropertyU32, add_prop|unfold AddPropertyU64, add_prop|unfold AddPropertyString, add_prop
    |unfold AddPropertyEmpty, add_prop|unfold AddPropertyCells|unfold AddPropertyBytes, add_prop]; rewrite ?H; try done.
  apply fold_push_phandle.
Qed.

Lemma fold_ops_phandle ops p f : fold_left fdt_op ops (set_phandle p f) = set_phandle p (fold_left fdt_op ops f).
Proof. revert f. induction ops as [|op ops IH]; intros f; [done|]. cbn [fold_left]. by rewrite fdt_op_phandle, IH. Qed.

Lemma next_phandle_fold ops f : next_phandle_ (fold_left fdt_op ops f) = next_phandle_ f.
Proof. transitivity (next_phandle_ (fold_left fdt_op ops (set_phandle (next_phandle_ f) f))); [by destruct f|]. by rewrite fold_ops_phandle. Qed.

(** The two phandles are 1 and 2. *)
Definition tree_ops hv config alloc initrd_start initrd_end rng_seed slots : list FdtOp :=
  tree_ops_1 hv config alloc initrd_start initrd_end rng_seed 1 ++ tree_ops_2 slots 2.

Lemma build_tree_eq hv config alloc i0 i1 seed slots :
  build_tree hv config alloc i0 i1 seed slots = Finish (fdt_build (tree_ops hv config alloc i0 i1 seed slots)).
Proof.
  unfold build_tree, fdt_build, tree_ops. rewrite fold_left_app. cbn [AllocPhandle FdtBuilder_new next_phandle_ struct_buf_ strings_buf_].
  change (u32 (1 + 1)) with 2. set (ops := tree_ops_1 _ _ _ _ _ _ _). unfold AllocPhandle.
  change (mkFdt [] [] 2) with (set_phandle 2 FdtBuilder_new). rewrite fold_ops_phandle.
  change (next_phandle_ (set_phandle 2 _)) with 2. set (f := fold_left fdt_op ops _).
  change (mkFdt _ _ (u32 (2 + 1))) with (set_phandle 3 f). by rewrite fold_ops_phandle.
Qed.

Definition op_good (op : FdtOp) : Prop := op_ok op /\ op_fits op.

Lemma hex_digits_ok fuel n : 0 <= n -> 0 ∉ hex_digits fuel n.
Proof.
  revert n. induction fuel as [|fuel IH]; intros n Hn; cbn [hex_digits]; [apply not_elem_of_nil|].
  assert (Hc : forall d, 0 <= d < 16 -> 0 ∉ [hex_char d]).
  { intros d Hd [E|[]%not_elem_of_nil]%elem_of_cons. unfold hex_char in E. destruct (d <? 10); lia. }
  destruct (Z.ltb_spec n 16); [apply Hc; lia|]. rewrite not_elem_of_app. split; [apply IH; dlia|apply Hc; dlia].
Qed.

Lemma app_okb s t : forallb (fun c => negb (c =? 0)) s = true -> 0 ∉ t -> 0 ∉ s ++ t.
Proof. intros Hs Ht. rewrite not_elem_of_app. split; [by apply name_okb|done]. Qed.

(** Operations with literal names and bounded values. *)
Ltac ops_good :=
  repeat match goal with
  | |- Forall _ (_ ++ _) => apply Forall_app; split
  | |- Forall _ (_ :: _) => apply Forall_cons; split
  | |- Forall _ [] => apply Forall_nil; exact I
  | |- op_good _ => split
  | |- op_ok (OpU64 _ _) => split
  end; try first [exact I|apply name_okb; reflexivity|done|reflexivity].

Lemma cpu_ops_good i : in_width 64 i -> Forall op_good (cpu_ops i).
Proof. intros Hi. unfold cpu_ops. ops_good. apply app_okb; [done|]. by apply to_dec_not_in. Qed.

Lemma cpus_ops_good n : in_width 32 n -> Forall op_good (cpus_ops n).
Proof.
  intros Hn. unfold cpus_ops. ops_good. apply Forall_bind, Forall_forall. intros i Hi%elem_of_seqZ. apply cpu_ops_good.
  unfold in_width in *. lia.
Qed.

Lemma virtio_ops_good s : in_width 64 (mmio_base s) -> Forall op_good (virtio_ops s).
Proof. intros Hs. unfold virtio_ops. ops_good. apply app_okb; [done|]. apply hex_digits_ok. by destruct Hs. Qed.

Lemma chosen_ops_good cmdline i0 i1 seed :
  Z.of_nat (length cmdline) < 0x100000 -> in_width 64 i0 -> in_width 64 i1 -> length seed = 64%nat ->
  Forall op_good (chosen_ops cmdline i0 i1 seed).
Proof.
  intros Hc Hi0 Hi1 Hs. unfold chosen_ops. destruct cmdline as [|c s]; destruct (i0 =? 0); ops_good;
    unfold op_fits; cbn [op_event]; rewrite ?length_app; cbn [length] in *; rewrite ?Hs; try lia; try reflexivity.
Qed.

Lemma tree_ops_good hv c alloc i0 i1 seed slots :
  Z.of_nat (length (a_cmdline c)) < 0x100000 -> in_width 64 i0 -> in_width 64 i1 -> length seed = 64%nat ->
  in_width 32 (a_cpu_count c) -> Forall (fun s => in_width 64 (mmio_base s)) slots ->
  Forall op_good (tree_ops hv c alloc i0 i1 seed slots).
Proof.
  intros. unfold tree_ops, tree_ops_1, tree_ops_2, memory_ops, psci_ops, timer_ops, gic_ops, clock_ops, uart_ops, rtc_ops, hypervisor_ops, gic_cells.
  ops_good; [by apply chosen_ops_good|by apply cpus_ops_good|destruct hv; ops_good| | |].
  - by destruct (uses_gic_v2 hv).
  - destruct (uses_gic_v2 hv); [done|]. by destruct (redist_region _ _).
  - apply Forall_bind. eapply Forall_impl; [done|]. apply virtio_ops_good.
Qed.

(** ** The nodes of the tree *)

Definition evs_of (ops : list FdtOp) : list FdtEvent := map op_event ops.

(** A node without children. *)
Fixpoint leaf_body (evs : list FdtEvent) : bool :=
  match evs with EvProp _ _ :: evs => leaf_body evs | [EvEnd] => true | _ => false end.
Definition leaf (evs : list FdtEvent) : bool := match evs with EvBegin _ :: evs => leaf_body evs | _ => false end.
Definition leaf_node (parent : bytes) (cells : nat * nat) (ops : list FdtOp) : DtNode :=
  match evs_of ops with
  | EvBegin name :: evs => mkNode (parent ++ str "/" ++ name) cells (leading_props evs)
  | _ => mkNode [] cells []
  end.

Lemma leaf_nodes p cells st ops rest :
  leaf (evs_of ops) = true ->
  dt_nodes ((p, cells) :: st) (evs_of ops ++ rest) = leaf_node p cells ops :: dt_nodes ((p, cells) :: st) rest.
Proof.
  unfold leaf_node. destruct (evs_of ops) as [|[name| |? ?] evs]; cbn [leaf]; try done. intros H. cbn [app dt_nodes].
  assert (Hl : leading_props (evs ++ rest) = leading_props evs).
  { clear -H. induction evs as [|[?| |? ?] evs IH]; cbn in *; try done. by rewrite IH. }
  rewrite Hl. f_equal. generalize (p ++ str "/" ++ name, cells_of (leading_props evs)). intros e. clear -H.
  induction evs as [|[?| |? ?] evs IH]; cbn in *; try done; [by destruct evs|by apply IH].
Qed.

Lemma leaves_nodes {A} (f : A -> list FdtOp) (l : list A) p cells st rest :
  (forall x, leaf (evs_of (f x)) = true) ->
  dt_nodes ((p, cells) :: st) (evs_of (l ≫= f) ++ rest)
  = map (fun x => leaf_node p cells (f x)) l ++ dt_nodes ((p, cells) :: st) rest.
Proof.
  intros Hf. induction l as [|x l IH]; [done|]. rewrite bind_cons. unfold evs_of in *. rewrite map_app, <- app_assoc.
  rewrite (leaf_nodes p cells st (f x)), IH by apply Hf. done.
Qed.

Definition top := (2, 2)%nat.
Definition root_node : DtNode :=
  mkNode [] (2, 1)%nat [(str "compatible", str "linux,dummy-virt" ++ [0]); (str "#address-cells", be_bytes 4 2);
                        (str "#size-cells", be_bytes 4 2); (str "interrupt-parent", be_bytes 4 1)].
Definition cpus_node : DtNode :=
  mkNode (str "/cpus") top [(str "#address-cells", be_bytes 4 1); (str "#size-cells", be_bytes 4 0)].
Definition cpu_node (i : Z) : DtNode := leaf_node (str "/cpus") (1, 0)%nat (cpu_ops i).
Abbreviation child := (leaf_node [] top).

Definition tree_nodes (hv : HvKind) (c : ArmConfig) (alloc i0 i1 : Z) (seed : bytes) (slots : list VirtioDeviceSlot) : list DtNode :=
  [root_node; child (chosen_ops (a_cmdline c) i0 i1 seed); child (memory_ops alloc); cpus_node]
  ++ map cpu_node (seqZ 0 (a_cpu_count c))
  ++ [child psci_ops] ++ (match hv with KvmVm _ => [child (hypervisor_ops hv)] | _ => [] end)
  ++ [child timer_ops; child (gic_ops hv (a_cpu_count c) 1); child (clock_ops 2); child (uart_ops 2); child (rtc_ops 2)]
  ++ map (fun s => child (virtio_ops s)) slots.

Lemma chosen_leaf cmdline i0 i1 seed : leaf (evs_of (chosen_ops cmdline i0 i1 seed)) = true.
Proof. unfold chosen_ops. by destruct cmdline, (i0 =? 0). Qed.

Lemma cpus_nodes n st rest :
  dt_nodes (([], top) :: st) (evs_of (cpus_ops n) ++ rest)
  = cpus_node :: map cpu_node (seqZ 0 n) ++ dt_nodes (([], top) :: st) rest.
Proof.
  unfold cpus_ops, evs_of. rewrite !map_app, <- !app_assoc.
  change (map op_event [_; _; _] ++ ?r) with
    (EvBegin (str "cpus") :: EvProp (str "#address-cells") (be_bytes 4 1) :: EvProp (str "#size-cells") (be_bytes 4 0) :: r).
  cbn [dt_nodes leading_props].
  assert (Hl : forall l, leading_props (map op_event (l ≫= cpu_ops) ++ map op_event [OpEnd] ++ rest) = []) by (by intros [|? ?]).
  rewrite Hl. f_equal. set (e := (_, cells_of _)). replace e with (str "/cpus", (1, 0)%nat) by (vm_compute; reflexivity).
  fold (evs_of (seqZ 0 n ≫= cpu_ops)). by rewrite leaves_nodes.
Qed.

Lemma nodes_of_tree hv c alloc i0 i1 seed slots :
  dt_nodes [] (evs_of (tree_ops hv c alloc i0 i1 seed slots)) = tree_nodes hv c alloc i0 i1 seed slots.
Proof.
  unfold tree_ops, tree_ops_1, tree_ops_2, evs_of. rewrite !map_app, <- !app_assoc. fold evs_of.
  change (map op_event (_ :: _ :: _ :: _ :: _ :: []) ++ ?r) with
    (EvBegin [] :: EvProp (str "compatible") (str "linux,dummy-virt" ++ [0]) :: EvProp (str "#address-cells") (be_bytes 4 2)
       :: EvProp (str "#size-cells") (be_bytes 4 2) :: EvProp (str "interrupt-parent") (be_bytes 4 1) :: r).
  cbn [dt_nodes leading_props].
  assert (Hl : forall l, leading_props (map op_event (chosen_ops (a_cmdline c) i0 i1 seed) ++ l) = []) by done.
  rewrite Hl. unfold tree_nodes. cbn [app]. f_equal. set (e := (_, cells_of _)).
  replace e with ([] : bytes, top) by (vm_compute; reflexivity).
  repeat change (map op_event ?x) with (evs_of x).
  rewrite leaf_nodes by apply chosen_leaf. rewrite leaf_nodes, cpus_nodes, leaf_nodes by done. do 3 f_equal. f_equal. f_equal.
  assert (Hrest : dt_nodes [([], top)] (evs_of timer_ops ++ evs_of (gic_ops hv (a_cpu_count c) 1) ++ evs_of (clock_ops 2) ++ evs_of (uart_ops 2)
            ++ evs_of (rtc_ops 2) ++ evs_of (slots ≫= virtio_ops) ++ evs_of [OpEnd])
          = [child timer_ops; child (gic_ops hv (a_cpu_count c) 1); child (clock_ops 2); child (uart_ops 2); child (rtc_ops 2)]
            ++ map (fun s => child (virtio_ops s)) slots).
  { rewrite !leaf_nodes, leaves_nodes by done. cbn [evs_of map dt_nodes op_event]. by rewrite app_nil_r. }
  destruct hv; [exact Hrest| |exact Hrest]. cbn [hypervisor_ops]. rewrite leaf_nodes by done. exact (f_equal (cons _) Hrest).
Qed.

(** ** Values *)

Lemma dt_cells_bind cells : Forall (in_width 32) cells -> dt_cells (cells ≫= be_bytes 4) = cells.
Proof.
  intros Hw. unfold dt_cells. rewrite length_cells. replace (4 * length cells / 4)%nat with (length cells) by nat_dlia.
  apply list_eq. intros i. change (map ?f ?l) with (f <$> l). rewrite list_lookup_fmap. destruct (decide (i < length cells)%nat) as [Hi|Hi].
  - rewrite lookup_seq_lt by done. cbn [fmap option_fmap option_map]. destruct (lookup_lt_is_Some_2 cells i Hi) as [v Hv].
    rewrite Hv. f_equal. rewrite <- (app_nil_r (_ ≫= _)). apply words_at; [done|]. exact (Forall_lookup_1 _ _ _ _ Hw Hv).
  - rewrite !lookup_ge_None_2 by (rewrite ?length_seq; lia). done.
Qed.

Lemma hi_lo_width v : in_width 32 (hi_cell v) /\ in_width 32 (lo_cell v).
Proof. split; by apply wrap_in_width. Qed.

Lemma hi_lo_val v : in_width 64 v -> cells_val [hi_cell v; lo_cell v] = v.
Proof.
  intros Hv. unfold cells_val, hi_cell, lo_cell. cbn [fold_left]. rewrite lo_mask_eq, Z.land_ones, Z.shiftr_div_pow2 by lia.
  unfold in_width in Hv. rewrite !wrap_small by (unfold in_width; dlia). dlia.
Qed.

Lemma cells_val_0 v : cells_val [0; v] = v.
Proof. done. Qed.

(** One or two address and size pairs of 64 bits. *)
Lemma n_reg_1 nd a s :
  n_cells nd = top -> n_prop (str "reg") nd = [hi_cell a; lo_cell a; hi_cell s; lo_cell s] ≫= be_bytes 4 ->
  in_width 64 a -> in_width 64 s -> n_reg nd = [(a, s)].
Proof.
  intros Hc Hp Ha Hs. unfold n_reg. rewrite Hc, Hp. pose proof (hi_lo_width a) as []. pose proof (hi_lo_width s) as [].
  rewrite dt_cells_bind by (repeat apply Forall_cons_2; auto). cbn [length top]. change (4 / (2 + 2))%nat with 1%nat. cbn [entries take drop Nat.add].
  by rewrite !hi_lo_val.
Qed.

Lemma n_reg_2 nd a s b t :
  n_cells nd = top ->
  n_prop (str "reg") nd = [hi_cell a; lo_cell a; hi_cell s; lo_cell s; hi_cell b; lo_cell b; hi_cell t; lo_cell t] ≫= be_bytes 4 ->
  in_width 64 a -> in_width 64 s -> in_width 64 b -> in_width 64 t -> n_reg nd = [(a, s); (b, t)].
Proof.
  intros Hc Hp Ha Hs Hb Ht. unfold n_reg. rewrite Hc, Hp.
  pose proof (hi_lo_width a) as []. pose proof (hi_lo_width s) as []. pose proof (hi_lo_width b) as []. pose proof (hi_lo_width t) as [].
  rewrite dt_cells_bind by (repeat apply Forall_cons_2; auto). cbn [length top]. change (8 / (2 + 2))%nat with 2%nat. cbn [entries take drop Nat.add].
  by rewrite !hi_lo_val.
Qed.

(** A size of 32 bits. *)
Lemma small_cells s : in_width 32 s -> hi_cell s = 0 /\ lo_cell s = s.
Proof.
  intros Hs. unfold hi_cell, lo_cell. rewrite lo_mask_eq, Z.land_ones, Z.shiftr_div_pow2 by lia. unfold in_width in Hs.
  rewrite (Z.mod_small s), !wrap_small by (unfold in_width; dlia). split; [dlia|done].
Qed.

Lemma hv_redist_width hv n : in_width 32 (snd (redist_region hv n)).
Proof. destruct hv; by apply wrap_in_width. Qed.

(** ** Searching the nodes *)

Lemma filter_map_const {A} (q : DtNode -> bool) (f : A -> DtNode) b l :
  (forall x, q (f x) = b) -> List.filter q (map f l) = if b then map f l else [].
Proof. intros H. induction l as [|x l IH]; cbn; [by destruct b|]. rewrite H, IH. by destruct b. Qed.

Lemma filter_drop (q : DtNode -> bool) x l : q x = false -> List.filter q (x :: l) = List.filter q l.
Proof. cbn. by intros ->. Qed.
Lemma filter_keep (q : DtNode -> bool) x l : q x = true -> List.filter q (x :: l) = x :: List.filter q l.
Proof. cbn. by intros ->. Qed.

(** The properties of two nodes depend on the configuration. *)
Ltac decide_node :=
  first [reflexivity
        |unfold chosen_ops; match goal with |- context [match ?l with [] => _ | _ => _ end] => destruct l end;
         match goal with |- context [?i =? 0] => destruct (i =? 0) end; reflexivity
        |unfold gic_ops; match goal with |- context [uses_gic_v2 ?hv] => destruct (uses_gic_v2 hv) end; reflexivity].

(** Splits a search along the tree and decides it node by node. *)
Ltac search :=
  unfold tree_nodes; rewrite !List.filter_app;
  repeat match goal with
  | |- context [List.filter ?q (map ?f ?l)] =>
      first [rewrite (filter_map_const q f false l) by reflexivity | rewrite (filter_map_const q f true l) by reflexivity]
  end;
  repeat first [rewrite filter_drop by decide_node | rewrite filter_keep by decide_node]; cbn [List.filter app].

Section Search.
Context (hv : HvKind) (c : ArmConfig) (alloc i0 i1 : Z) (seed : bytes) (slots : list VirtioDeviceSlot).
Hypothesis Hslots : Forall (fun s => in_width 64 (mmio_base s) /\ in_width 8 (slot_irq s)) slots.
Hypothesis Hcpus : in_width 32 (a_cpu_count c).
Hypothesis Halloc : in_width 64 alloc.
Hypothesis Hcmd : 0 ∉ a_cmdline c.
Hypothesis Hredist : in_width 64 (fst (redist_region hv (a_cpu_count c))).
Let nodes := tree_nodes hv c alloc i0 i1 seed slots.
Let chosen := child (chosen_ops (a_cmdline c) i0 i1 seed).

Lemma find_root : the_node (at_path []) nodes = Some root_node.
Proof. unfold the_node, nodes. destruct hv; search; reflexivity. Qed.

Lemma find_chosen : the_node (at_path (str "/chosen")) nodes = Some chosen.
Proof. unfold the_node, nodes. destruct hv; search; reflexivity. Qed.

Lemma find_memory : List.filter (device_type (str "memory")) nodes = [child (memory_ops alloc)].
Proof. unfold nodes. destruct hv; search; reflexivity. Qed.

Lemma find_cpus : List.filter (device_type (str "cpu")) nodes = map cpu_node (seqZ 0 (a_cpu_count c)).
Proof. unfold nodes. destruct hv; search; cbn [app]; by rewrite app_nil_r. Qed.

Lemma find_intc : List.filter (is_phandle (be_bytes 4 1)) nodes = [child (gic_ops hv (a_cpu_count c) 1)].
Proof. unfold nodes. destruct hv; search; reflexivity. Qed.

Lemma find_stdout : List.filter (at_path (str "/pl011@9000000")) nodes = [child (uart_ops 2)].
Proof. unfold nodes. destruct hv; search; reflexivity. Qed.

Lemma find_rtc : List.filter (compatible (str "arm,pl031")) nodes = [child (rtc_ops 2)].
Proof. unfold nodes. destruct hv; search; reflexivity. Qed.

Lemma find_virtio : List.filter (compatible (str "virtio,mmio")) nodes = map (fun s => child (virtio_ops s)) slots.
Proof. unfold nodes. destruct hv; search; reflexivity. Qed.

Lemma find_psci : List.filter (compatible (str "arm,psci-1.0")) nodes = [child psci_ops].
Proof. unfold nodes. destruct hv; search; reflexivity. Qed.

Lemma find_timer : List.filter (compatible (str "arm,armv8-timer")) nodes = [child timer_ops].
Proof. unfold nodes. destruct hv; search; reflexivity. Qed.

(** What the nodes say. *)

Lemma memory_says : n_reg (child (memory_ops alloc)) = [(kRamBase, alloc)].
Proof. by apply n_reg_1. Qed.

Lemma cpus_say : map fst (map cpu_node (seqZ 0 (a_cpu_count c)) ≫= n_reg) = seqZ 0 (a_cpu_count c).
Proof.
  assert (H : Forall (in_width 32) (seqZ 0 (a_cpu_count c))).
  { apply Forall_forall. intros i Hi%elem_of_seqZ. unfold in_width in *. lia. }
  induction H as [|i l Hi _ IH]; [done|]. cbn [map]. rewrite bind_cons, map_app, IH.
  unfold n_reg. change (n_cells (cpu_node i)) with (1, 0)%nat.
  change (n_prop (str "reg") (cpu_node i)) with (be_bytes 4 i ++ []). change (be_bytes 4 i ++ []) with ([i] ≫= be_bytes 4).
  by rewrite dt_cells_bind by (repeat apply Forall_cons_2; auto).
Qed.

Lemma intc_says :
  (n_compatible (child (gic_ops hv (a_cpu_count c) 1)), n_reg (child (gic_ops hv (a_cpu_count c) 1)))
  = if uses_gic_v2 hv then ([str "arm,cortex-a15-gic"], [(0x08000000, 0x10000); (0x08010000, 0x10000)])
    else ([str "arm,gic-v3"], [(0x08000000, 0x10000); redist_region hv (a_cpu_count c)]).
Proof.
  pose proof (hv_redist_width hv (a_cpu_count c)) as Hs. destruct (small_cells _ Hs) as [Eh El].
  unfold gic_ops, gic_cells. clear -Hs Eh El Hredist. destruct (redist_region hv (a_cpu_count c)) as [base size]. cbn [fst snd] in *.
  destruct (uses_gic_v2 hv); [vm_compute; reflexivity|]. f_equal. apply n_reg_2; try done.
  - rewrite Eh, El. reflexivity.
  - exact (in_width_le 32 64 size ltac:(lia) Hs).
Qed.

Lemma stdout_says :
  (n_compatible (child (uart_ops 2)), n_reg (child (uart_ops 2)), n_irqs (child (uart_ops 2)))
  = ([str "arm,pl011"; str "arm,primecell"], [(0x09000000, 0x1000)], [0; 1; 4]).
Proof. vm_compute. reflexivity. Qed.

Lemma rtc_says : (n_reg (child (rtc_ops 2)), n_irqs (child (rtc_ops 2))) = ([(0x09010000, 0x1000)], [0; 2; 4]).
Proof. vm_compute. reflexivity. Qed.

Lemma virtio_says :
  map (fun nd => (n_reg nd, n_irqs nd)) (map (fun s => child (virtio_ops s)) slots)
  = map (fun s => ([(mmio_base s, 0x200)], [0; slot_irq s; 4])) slots.
Proof.
  rewrite map_map. apply List.map_ext_in. intros s Hin%list_elem_of_In.
  destruct (proj1 (Forall_forall _ _) Hslots s Hin) as [Hs Hi]. f_equal.
  - by apply n_reg_1.
  - unfold n_irqs. change (n_prop (str "interrupts") _) with ([0; slot_irq s; 4] ≫= be_bytes 4).
    apply dt_cells_bind. assert (in_width 32 (slot_irq s)) by (by apply (in_width_le 8)). repeat apply Forall_cons_2; auto; done.
Qed.

Lemma bootargs_say : c_str <$> prop (str "bootargs") (n_props chosen) = match a_cmdline c with [] => None | s => Some s end.
Proof.
  unfold chosen, chosen_ops. destruct (a_cmdline c) as [|x s]; destruct (i0 =? 0); try reflexivity; cbn [app];
    refine (f_equal Some (c_str_app (x :: s) [] Hcmd)).
Qed.

Lemma stdout_path_says : c_str (n_prop (str "stdout-path") chosen) = str "/pl011@9000000".
Proof. unfold chosen, chosen_ops. destruct (a_cmdline c), (i0 =? 0); reflexivity. Qed.

Lemma timer_says :
  (n_irqs (child timer_ops), has_prop (str "always-on") (child timer_ops)) = ([1; 13; 4; 1; 14; 4; 1; 11; 4; 1; 10; 4], true).
Proof. vm_compute. reflexivity. Qed.

Lemma entropy_says : prop (str "rng-seed") (n_props chosen) = Some seed.
Proof. unfold chosen, chosen_ops. destruct (a_cmdline c), (i0 =? 0); reflexivity. Qed.

Lemma initrd_says h :
  in_width 64 i0 -> in_width 64 i1 ->
  initrd_read h chosen = if i0 =? 0 then Some None else Some <$> phys_read h i0 (i1 - i0).
Proof.
  intros H0 H1. assert (Hv : forall v, in_width 64 v -> be_val (be_bytes 8 v) = v).
  { intros v Hv. rewrite be_val_be_bytes. by apply Z.mod_small. }
  unfold initrd_read, chosen, chosen_ops. destruct (a_cmdline c), (i0 =? 0) eqn:E; try reflexivity;
    (transitivity (Some <$> phys_read h (be_val (be_bytes 8 i0)) (be_val (be_bytes 8 i1) - be_val (be_bytes 8 i0)));
     [reflexivity|by rewrite !Hv]).
Qed.

Lemma tree_view h image rd :
  in_width 64 i0 -> in_width 64 i1 -> (if i0 =? 0 then Some None else Some <$> phys_read h i0 (i1 - i0)) = Some rd ->
  arm_view h image nodes
  = Some (mkArmView image [(kRamBase, alloc)] (seqZ 0 (a_cpu_count c)) (match a_cmdline c with [] => None | s => Some s end) rd
            [if uses_gic_v2 hv then ([str "arm,cortex-a15-gic"], [(0x08000000, 0x10000); (0x08010000, 0x10000)])
             else ([str "arm,gic-v3"], [(0x08000000, 0x10000); redist_region hv (a_cpu_count c)])]
            [([str "arm,pl011"; str "arm,primecell"], [(0x09000000, 0x1000)], [0; 1; 4])]
            [([(0x09010000, 0x1000)], [0; 2; 4])]
            (map (fun s => ([(mmio_base s, 0x200)], [0; slot_irq s; 4])) slots) [str "hvc" ++ [0]]
            [([1; 13; 4; 1; 14; 4; 1; 11; 4; 1; 10; 4], true)] (Some seed)).
Proof.
  intros H0 H1 Hrd. unfold arm_view. rewrite find_root, find_chosen. cbn [mbind option_bind].
  rewrite initrd_says, Hrd by done. cbn [mbind option_bind].
  change (n_prop (str "interrupt-parent") root_node) with (be_bytes 4 1).
  rewrite stdout_path_says, bootargs_say, find_memory, find_cpus, find_intc, find_stdout, find_rtc, find_virtio, find_psci, find_timer,
    entropy_says.
  cbn [map mbind list_bind]. rewrite memory_says, cpus_say, intc_says, stdout_says, rtc_says, virtio_says, timer_says. reflexivity.
Qed.
End Search.

(** ** The whole *)

(** The bytes from the text offset on that the kernel takes, where the RAM
    disk goes, and what the tree says of it. *)
Definition kernel_span (kernel : bytes) : Z :=
  if 0 <? hdr_image_size kernel then hdr_image_size kernel else Z.of_nat (length kernel).
Definition initrd_offset (kernel : bytes) : Z := AlignUp (text_offset_of kernel + kernel_span kernel) kPageSize.
Definition initrd_range (files : Files) (path kernel : bytes) : Z * Z :=
  match the_arm_initrd files path with
  | None => (0, 0)
  | Some rd => (kRamBase + initrd_offset kernel, kRamBase + initrd_offset kernel + Z.of_nat (length rd))
  end.

(** What a configuration must satisfy to boot: the image starts behind the
    device tree, and everything fits. *)
Record arm_ok (hv : HvKind) (files : Files) (seed : bytes) (c : ArmConfig) (slots : list VirtioDeviceSlot) (m : GuestMemMap)
    (kernel : bytes) : Prop := {
  ak_base : ram_base m = kRamBase;
  ak_ram : low_size m = alloc_size m /\ kRamBase + alloc_size m < 2 ^ 64;
  ak_file : files (a_kernel_path c) = Some kernel;
  ak_kernel : bytes_ok kernel /\ 64 <= Z.of_nat (length kernel) /\ hdr_magic kernel = kArmImageMagic;
  ak_offset : kFdtMaxSize <= text_offset_of kernel;
  ak_fits : text_offset_of kernel + kernel_span kernel <= alloc_size m /\ Z.of_nat (length kernel) <= kernel_span kernel;
  ak_initrd : a_initrd_path c <> [] ->
    exists rd, files (a_initrd_path c) = Some rd /\ rd <> [] /\ initrd_offset kernel + Z.of_nat (length rd) <= alloc_size m;
  ak_cmdline : 0 ∉ a_cmdline c /\ Z.of_nat (length (a_cmdline c)) < 0x100000;
  ak_seed : length seed = 64%nat;
  ak_cpus : in_width 32 (a_cpu_count c);
  ak_redist : in_width 64 (fst (redist_region hv (a_cpu_count c)));
  ak_slots : Forall (fun s => in_width 64 (mmio_base s) /\ in_width 8 (slot_irq s)) slots;
  ak_dtb : let '(i0, i1) := initrd_range files (a_initrd_path c) kernel in
    Z.of_nat (length (build_tree hv c (alloc_size m) i0 i1 seed slots)) <= kFdtMaxSize
}.

Section Loaded.
Context (hv : HvKind) (files : Files) (seed : bytes) (c : ArmConfig) (slots : list VirtioDeviceSlot) (m : GuestMemMap) (kernel : bytes).
Hypothesis Hok : arm_ok hv files seed c slots m kernel.
#[local] Abbreviation alloc := (alloc_size m).
#[local] Abbreviation at_text := (text_offset_of kernel).

Lemma text_bounds :
  0x100000 <= at_text /\ at_text + Z.of_nat (length kernel) <= alloc /\ alloc < 2 ^ 64 - 0x40000000
  /\ 64 <= Z.of_nat (length kernel) /\ at_text + kernel_span kernel <= alloc.
Proof.
  destruct Hok as [_ Hr _ [_ [H64 _]] Ho Hf _ _ _ _ _ _ _]. unfold kFdtMaxSize, kRamBase in *. lia.
Qed.

Lemma load_image_ok s :
  LoadLinuxImage files (a_kernel_path c) (MkHostMem m s)
  = Some (kRamBase + at_text, MkHostMem m (poke s at_text kernel)).
Proof.
  pose proof text_bounds as (H1 & H2 & H3 & H4 & _). destruct Hok as [_ _ Hf [_ [_ Hm]] _ _ _ _ _ _ _ _ _].
  unfold LoadLinuxImage. rewrite Hf, (proj2 (Z.ltb_ge _ 64)), Hm by lia. rewrite Z.eqb_refl. cbn [negb hm_map].
  unfold kRamBase in *. rewrite !(wrap_small 64) by (unfold in_width; lia).
  rewrite (proj2 (Z.ltb_ge _ _)), hm_write_some by (cbn [hm_map]; lia). done.
Qed.

Lemma initrd_bounds rd :
  the_arm_initrd files (a_initrd_path c) = Some rd ->
  files (a_initrd_path c) = Some rd /\ 0 < Z.of_nat (length rd) /\ initrd_offset kernel + Z.of_nat (length rd) <= alloc
  /\ at_text + Z.of_nat (length kernel) <= initrd_offset kernel.
Proof.
  intros Hrd. unfold the_arm_initrd in Hrd. destruct (a_initrd_path c) as [|x p] eqn:Ep; [done|].
  destruct (ak_initrd _ _ _ _ _ _ _ Hok) as (rd' & Hf & Hne & Hfit); [by rewrite Ep|]. rewrite Ep in Hf. rewrite Hf in Hrd. injection Hrd as ->.
  split_and!; [done|destruct rd; [done|cbn; lia]|done|].
  destruct (ak_fits _ _ _ _ _ _ _ Hok) as [Hf1 Hf2].  pose proof text_bounds as (H1 & _ & H3 & _).
  unfold initrd_offset. destruct (AlignUp_page (at_text + kernel_span kernel)) as [[? ?] _]; [lia..|]. lia.
Qed.

(** Behind the kernel and, in the tree, not at 0. *)
Lemma load_arm_initrd_ok s :
  let '(i0, i1) := initrd_range files (a_initrd_path c) kernel in
  exists s', load_arm_initrd files c (kRamBase + at_text) (MkHostMem m s) = Some (true, i0, i1, MkHostMem m s')
    /\ (match the_arm_initrd files (a_initrd_path c) with
        | None => s' = s
        | Some rd => peek s' (initrd_offset kernel) (Z.of_nat (length rd)) = rd
        end)
    /\ forall a n, a + n <= at_text + Z.of_nat (length kernel) -> peek s' a n = peek s a n.
Proof.
  pose proof initrd_bounds as Hb. pose proof text_bounds as (H1 & H2 & H3 & H4 & H5).
  unfold initrd_range, load_arm_initrd. destruct (a_initrd_path c) as [|x p] eqn:Ep; [by exists s|]. rewrite <- Ep in *.
  destruct (the_arm_initrd files (a_initrd_path c)) as [rd|] eqn:Hrd.
  2:{ unfold the_arm_initrd in Hrd. rewrite Ep in Hrd.
      destruct (ak_initrd _ _ _ _ _ _ _ Hok) as (rd & Hf & _); [by rewrite Ep|]. rewrite Ep in Hf. by rewrite Hf in Hrd. }
  destruct (Hb rd eq_refl) as (Hf & Hpos & Hfit & Hbehind). rewrite Hf, (proj2 (Z.eqb_neq _ 0)), (ak_file _ _ _ _ _ _ _ Hok) by lia.
  unfold kRamBase in *. rewrite (wrap_small 64 (_ + at_text - _)) by (unfold in_width; lia).
  replace (0x40000000 + at_text - 0x40000000) with at_text by lia. rewrite (proj2 (Z.leb_le 64 _)) by lia. cbn [andb].
  set (reserved := if 0 <? hdr_image_size kernel then _ else _).
  assert (Hr : reserved = at_text + kernel_span kernel).
  { clear Hbehind Hfit. revert H5. unfold reserved, kernel_span.
    destruct (Z.ltb_spec 0 (hdr_image_size kernel)); intros H5; apply wrap_small; unfold in_width; lia. }
  rewrite Hr. fold (initrd_offset kernel). cbn [hm_map].
  rewrite (wrap_small 64 (initrd_offset kernel + _)), (wrap_small 64 (0x40000000 + initrd_offset kernel)), wrap_small by (unfold in_width; lia).
  rewrite (proj2 (Z.ltb_ge _ _)), hm_write_some by (cbn [hm_map]; lia). cbn [mbind option_bind hm_map hm_bytes].
  eexists. split; [reflexivity|]. split; [apply peek_poke_same|]. intros a n Han. apply peek_poke_disjoint. lia.
Qed.

Lemma range_bounds :
  let '(i0, i1) := initrd_range files (a_initrd_path c) kernel in
  in_width 64 i0 /\ in_width 64 i1
  /\ (i0 = 0 <-> the_arm_initrd files (a_initrd_path c) = None).
Proof.
  unfold initrd_range. destruct (the_arm_initrd _ _) as [rd|] eqn:Hrd; [|done]. destruct (initrd_bounds rd Hrd) as (_ & ? & ? & ?).
  pose proof text_bounds as (? & ? & ? & ? & _). unfold kRamBase, in_width. split_and!; [lia..|]. split; [lia|done].
Qed.

Lemma dtb_read :
  let '(i0, i1) := initrd_range files (a_initrd_path c) kernel in
  fdt_read (build_tree hv c alloc i0 i1 seed slots) = Some (evs_of (tree_ops hv c alloc i0 i1 seed slots)).
Proof.
  pose proof range_bounds as Hr. destruct Hok as [_ _ _ _ _ _ _ [_ Hc] Hs Hn _ Hsl Hd]. destruct (initrd_range _ _ _) as [i0 i1].
  destruct Hr as (H0 & H1 & _). rewrite build_tree_eq in *.
  assert (Hg : Forall op_good (tree_ops hv c alloc i0 i1 seed slots)).
  { apply tree_ops_good; try done. eapply Forall_impl; [exact Hsl|]. by intros ? []. }
  apply Forall_and in Hg as [Ha Hb]. apply finish_read; try done. unfold kFdtMaxSize in Hd. unfold fdt_build in Hd. lia.
Qed.

Lemma loaded_bank s lim : lim <= alloc -> bank kRamBase lim (MkHostMem m s).
Proof. intros Hl. destruct Hok as [Hb [Hr _] _ _ _ _ _ _ _ _ _ _ _]. unfold bank. cbn [hm_map]. rewrite Hb, Hr. lia. Qed.

(** Guest RAM as the loader leaves it. *)
Lemma LoadKernel_ok s :
  let '(i0, i1) := initrd_range files (a_initrd_path c) kernel in
  let dtb := build_tree hv c alloc i0 i1 seed slots in
  exists s', LoadKernel hv files seed c slots (MkHostMem m s)
             = Some (mkLoaded true (kRamBase + at_text) kFdtBase (MkHostMem m s'))
    /\ peek s' 0 (Z.of_nat (length dtb)) = dtb
    /\ peek s' at_text (Z.of_nat (length kernel)) = kernel
    /\ forall rd, the_arm_initrd files (a_initrd_path c) = Some rd -> peek s' (initrd_offset kernel) (Z.of_nat (length rd)) = rd.
Proof.
  pose proof text_bounds as (H1 & H2 & H3 & H4 & _). pose proof initrd_bounds as Hb. pose proof (ak_dtb _ _ _ _ _ _ _ Hok) as Hl.
  unfold LoadKernel. rewrite load_image_ok. cbn [mbind option_bind]. rewrite (proj2 (Z.eqb_neq _ 0)) by (unfold kRamBase; lia).
  set (s1 := poke s _ kernel). pose proof (load_arm_initrd_ok s1) as Hi. destruct (initrd_range _ _ _) as [i0 i1].
  destruct Hi as (s2 & -> & Hrd & Hkeep). cbn [mbind option_bind negb hm_map]. set (dtb := build_tree _ _ _ _ _ _ _) in *.
  unfold kFdtMaxSize in *. rewrite (proj2 (Z.ltb_ge _ _)), hm_write_some by (cbn [hm_map]; lia).
  eexists. split; [reflexivity|]. split_and!; [apply peek_poke_same| |].
  - rewrite peek_poke_disjoint, Hkeep by lia. apply peek_poke_same.
  - intros rd E. rewrite E in Hrd. destruct (Hb rd E) as (_ & _ & _ & Hbehind). by rewrite peek_poke_disjoint by lia.
Qed.

Lemma initrd_seen s :
  let '(i0, i1) := initrd_range files (a_initrd_path c) kernel in
  (forall rd, the_arm_initrd files (a_initrd_path c) = Some rd -> peek s (initrd_offset kernel) (Z.of_nat (length rd)) = rd) ->
  (if i0 =? 0 then Some None else Some <$> phys_read (MkHostMem m s) i0 (i1 - i0)) = Some (the_arm_initrd files (a_initrd_path c)).
Proof.
  pose proof initrd_bounds as Hb. pose proof text_bounds as (H1 & _). unfold initrd_range.
  destruct (the_arm_initrd _ _) as [rd|]; [|done]. intros Hp. destruct (Hb rd eq_refl) as (_ & H0 & Hfit & Hbehind).
  rewrite (proj2 (Z.eqb_neq _ 0)) by (unfold kRamBase; lia).
  replace (_ + _ - _) with (Z.of_nat (length rd)) by lia.
  rewrite (phys_read_bank _ alloc) by (first [by apply loaded_bank|lia]). cbn [hm_bytes]. by rewrite Hp.
Qed.
End Loaded.

(** The size is in the header. *)
Lemma fdt_read_size dtb evs : fdt_read dtb = Some evs -> word_at 4 dtb = Z.of_nat (length dtb) /\ (40 <= length dtb)%nat.
Proof.
  unfold fdt_read. destruct (Nat.ltb_spec (length dtb) 40); [done|]. destruct (negb (_ =? 0xD00DFEED)); [done|].
  destruct (Z.eqb_spec (word_at 4 dtb) (Z.of_nat (length dtb))); done.
Qed.

Lemma word_at_take k off l : (off + 4 <= k)%nat -> word_at off (take k l) = word_at off l.
Proof. intros H. unfold word_at. by rewrite skipn_firstn_comm, take_take, Nat.min_l by lia. Qed.

Lemma read_dtb h dtb evs :
  bank kRamBase (Z.of_nat (length dtb)) h -> peek (hm_bytes h) 0 (Z.of_nat (length dtb)) = dtb -> fdt_read dtb = Some evs ->
  (header ← phys_read h kFdtBase 40; phys_read h kFdtBase (word_at 4 header)) = Some dtb.
Proof.
  intros Hb Hp Hr. destruct (fdt_read_size _ _ Hr) as [Hs H40]. change kFdtBase with (kRamBase + 0).
  rewrite (phys_read_bank _ _ _ _ 40 Hb) by lia. cbn [mbind option_bind].
  rewrite (peek_take _ 0 40 (Z.of_nat (length dtb))), Hp, word_at_take, Hs by lia. rewrite (phys_read_bank _ _ _ _ _ Hb) by lia. by rewrite Hp.
Qed.

(** C15. A kernel that boots finds the machine that was configured.  For any
    configuration that fits - an image whose text offset lies behind the
    first MiB of RAM (there the device tree goes), whose stated size covers
    its file and which, like a RAM disk that exists and is not empty, fits
    RAM, one bank from 1 GiB on; a command line without NUL; 64
    bytes of entropy; virtio slots with 8-bit interrupts; a device tree of at
    most 1 MiB - the loader succeeds and enters the image at its text offset.
    The tree at the address handed over is well formed, and by path, phandle
    and [compatible] it leads to the RAM of the guest, one CPU node per
    configured CPU, the command line, the bytes of the RAM disk, the interrupt
    controller that the [interrupt-parent] refers to, the console of
    [stdout-path], the clock, every virtio slot with its interrupt, the PSCI
    conduit, the interrupts of the always-on timer and the entropy. *)
Theorem arm_boot_view hv files seed c slots m s kernel :
  arm_ok hv files seed c slots m kernel ->
  exists h', LoadKernel hv files seed c slots (MkHostMem m s)
             = Some (mkLoaded true (kRamBase + text_offset_of kernel) kFdtBase h')
    /\ arm_boot_read h' kFdtBase (kRamBase + text_offset_of kernel) (Z.of_nat (length kernel))
       = Some (expected_view files hv seed c slots kernel (alloc_size m)).
Proof.
  intros Hok. pose proof (LoadKernel_ok _ _ _ _ _ _ _ Hok s) as Hloaded.
  pose proof (text_bounds _ _ _ _ _ _ _ Hok) as (H1 & H2 & H3 & H4 & _).
  pose proof (dtb_read _ _ _ _ _ _ _ Hok) as Hd. pose proof (range_bounds _ _ _ _ _ _ _ Hok) as Hr.
  pose proof (initrd_seen _ _ _ _ _ _ _ Hok) as Hi. pose proof (ak_dtb _ _ _ _ _ _ _ Hok) as Hl. unfold kFdtMaxSize in Hl.
  destruct (initrd_range _ _ _) as [i0 i1], Hloaded as (s' & Hload & Hdtb & Hk & Hrd), Hr as (H0 & H0' & _).
  eexists. split; [exact Hload|]. specialize (Hi s' Hrd).
  set (h' := MkHostMem m s') in *. set (dtb := build_tree _ _ _ _ _ _ _) in *.
  pose proof (loaded_bank _ _ _ _ _ _ _ Hok s' (alloc_size m) ltac:(lia)) as Hbank. fold h' in Hbank.
  pose proof (loaded_bank _ _ _ _ _ _ _ Hok s' (Z.of_nat (length dtb)) ltac:(lia)) as Hbd. fold h' in Hbd.
  unfold arm_boot_read. rewrite (phys_read_bank _ _ _ _ _ Hbank) by lia. cbn [mbind option_bind hm_bytes h']. rewrite Hk.
  pose proof (read_dtb h' dtb _ Hbd Hdtb Hd) as Hrdt.
  destruct (phys_read h' kFdtBase 40) as [header|]; [|done]. cbn [mbind option_bind] in Hrdt |- *. rewrite Hrdt. cbn [mbind option_bind].
  rewrite Hd. cbn [mbind option_bind]. rewrite nodes_of_tree.
  destruct Hok as [_ Hram _ _ _ _ _ [Hcmd _] _ Hcpu Hredist Hslots _].
  refine (tree_view hv c _ i0 i1 seed slots Hslots Hcpu _ Hcmd Hredist _ _ _ H0 H0' Hi). unfold in_width, kRamBase in *. lia.
Qed.

(** ** A machine with two CPUs and a RAM disk *)

Definition demo_kernel_with (text_offset image_size : Z) : bytes :=
  le_bytes 8 0 ++ le_bytes 8 text_offset ++ le_bytes 8 image_size ++ replicate 32 0 ++ le_bytes 4 kArmImageMagic ++ [1; 2; 3; 4; 5; 6].
Definition demo_arm_map : GuestMemMap := MkGuestMemMap 0x1000000 kRamBase 0x1000000 0 0.
Definition demo_arm_config : ArmConfig := mkArmConfig [75] [82] (str "console=ttyAMA0") 2.
Definition demo_files (kernel : bytes) : Files := fun p => if bool_decide (p = [75]) then Some kernel else Some [9; 8; 7].
Definition demo_seed : bytes := replicate 64 7.
Definition demo_boot (kernel : bytes) : option ArmView :=
  r ← LoadKernel (KvmVm false) (demo_files kernel) demo_seed demo_arm_config GetVirtioSlots (MkHostMem demo_arm_map ∅);
  arm_boot_read (al_mem r) (al_fdt r) (al_entry r) (Z.of_nat (length kernel)).
Definition demo_kernel : bytes := demo_kernel_with 0 0x400000.

Lemma demo_arm_ok : arm_ok (KvmVm false) (demo_files demo_kernel) demo_seed demo_arm_config GetVirtioSlots demo_arm_map demo_kernel.
Proof.
  assert (Hb : forall w l, forallb (fun x => (0 <=? x) && (x <? 2 ^ w)) l = true -> Forall (in_width w) l).
  { intros w l H. apply Forall_forall. intros x Hx%list_elem_of_In. apply (proj1 (forallb_forall _ _) H) in Hx. unfold in_width. bool_hyps. lia. }
  constructor.
  1-3: by vm_compute.
  - split; [apply Hb; vm_compute; reflexivity|by vm_compute].
  - by vm_compute.
  - by vm_compute.
  - intros _. exists [9; 8; 7]. by vm_compute.
  - split; [apply name_okb; reflexivity|by vm_compute].
  - reflexivity.
  - by vm_compute.
  - by vm_compute.
  - unfold GetVirtioSlots. apply Forall_forall. intros s (i & <- & Hi%list_elem_of_In%elem_of_seqZ)%list_elem_of_In%in_map_iff.
    cbn [mmio_base slot_irq]. unfold in_width, kVirtioMmioBase, kVirtioStride, kVirtioBaseIrq in *. split; [lia|by apply wrap_in_width].
  - vm_compute. congruence.
Qed.

Lemma arm_boot_view_witness :
  exists h', arm_boot_read h' kFdtBase 0x40200000 66
             = Some (expected_view (demo_files demo_kernel) (KvmVm false) demo_seed demo_arm_config GetVirtioSlots demo_kernel 0x1000000).
Proof.
  destruct (arm_boot_view _ _ _ _ _ _ ∅ _ demo_arm_ok) as (h' & _ & H). exists h'. exact H.
Defined.

(** ** Where the loader goes wrong *)

(** The check of the image adds up modulo 2^64: a text offset close to
    2^64 passes and the image is read to an address outside guest RAM. *)
Lemma image_wrap files path kernel h :
  files path = Some kernel -> bytes_ok kernel -> 64 <= Z.of_nat (length kernel) < 2 ^ 62 -> hdr_magic kernel = kArmImageMagic ->
  2 ^ 64 <= text_offset_of kernel + Z.of_nat (length kernel) ->
  text_offset_of kernel + Z.of_nat (length kernel) - 2 ^ 64 <= alloc_size (hm_map h) < 2 ^ 62 ->
  LoadLinuxImage files path h = None.
Proof.
  intros Hf Hb Hl Hm Hw Ha. unfold LoadLinuxImage. rewrite Hf, (proj2 (Z.ltb_ge _ 64)), Hm by lia. rewrite Z.eqb_refl. cbn [negb].
  assert (Ht : text_offset_of kernel < 2 ^ 64).
  { unfold text_offset_of, hdr_text_offset in *. pose proof (field_bound8 8 kernel Hb). destruct (_ =? 0); lia. }
  assert (E : u64 (text_offset_of kernel + Z.of_nat (length kernel)) = text_offset_of kernel + Z.of_nat (length kernel) - 2 ^ 64).
  { unfold wrap. rewrite <- (Z.mod_small (_ - 2 ^ 64) (2 ^ 64)) by lia. rewrite <- (Z_mod_plus_full (_ - _) 1). f_equal. lia. }
  rewrite E, (proj2 (Z.ltb_ge _ _)) by lia. unfold hm_write. rewrite (proj2 (Z.leb_gt (_ + _) _)), andb_false_r by lia. done.
Qed.

(** An image size that takes the end of the kernel past 2^64 puts the RAM
    disk at the start of RAM, where the device tree overwrites it; the boot
    goes on. *)
Lemma initrd_end_wraps :
  (v ← demo_boot (demo_kernel_with 0x200000 (2 ^ 64 - 0x200000)); Some (av_image v, av_initrd v))
  = Some (demo_kernel_with 0x200000 (2 ^ 64 - 0x200000), Some [0xD0; 0x0D; 0xFE]).
Proof. vm_compute. reflexivity. Qed.

(** A text offset inside the region of the device tree: the tree is written
    over the kernel. *)
Lemma dtb_over_kernel : bool_decide (av_image <$> demo_boot (demo_kernel_with 64 0) = Some (demo_kernel_with 64 0)) = false.
Proof. vm_compute. reflexivity. Qed.

(** From 124 CPUs on (128 are accepted) the redistributors that the tree
    describes lie over the console and the clock. *)
Lemma redist_over_uart hv n :
  (match hv with HvfVm _ _ => False | _ => True end) -> 124 <= n <= 128 ->
  let '(base, size) := redist_region hv n in base <= kUartBase /\ kUartBase + kPeriphSize <= base + size.
Proof.
  intros Hhv Hn. destruct hv; [done| |]; cbn [redist_region]; unfold kGicRedistBase, kUartBase, kPeriphSize;
    rewrite wrap_small by (unfold in_width; lia); lia.
Qed.
