(* ===== verification/HvfDecode.v ===== *)
(** * The instruction decoder of the macOS x86 back end

    Models [HvfVCpu::DecodeMmioInsn] of
    platform/macos/hypervisor/x86_64/hvf_vcpu.cpp, which the vCPU runs on the
    guest's code when an access to device memory exits.

    [code n] is the byte [n] behind the start of the instruction; [None] is a
    read behind the host's memory, undefined behaviour.  The position is a
    [nat]: it stays below 24, so the [uint8_t] does not wrap.

    The other side is [encode], the instruction format of the Intel manual
    (volume 2, chapter 2) for the instructions the decoder knows, in 64-bit
    mode.  [decode_encode]: the decoder reads back operation, register,
    operand size, immediate and length.  [xchg_is_store], [high_byte_register]:
    what it gets wrong. *)

From S2P Require Import Prelude.
From S2P Require Import StdString.

(** ** The decoder *)

(** The registers of the hypervisor's interface that are used; a general
    purpose register by its number in instructions. *)
Inductive hv_x86_reg_t := GPR (i : Z) | HV_X86_RIP | HV_X86_RFLAGS | HV_X86_XCR0.

Abbreviation HV_X86_RAX := (GPR 0).
Abbreviation HV_X86_RCX := (GPR 1).
Abbreviation HV_X86_RDX := (GPR 2).
Abbreviation HV_X86_RBX := (GPR 3).
Abbreviation HV_X86_RSP := (GPR 4).
Abbreviation HV_X86_RSI := (GPR 6).

Definition reg_map (i : Z) : hv_x86_reg_t := GPR i.

Inductive MmioOp := kMovLoad | kMovStore | kMovStoreImm | kMovzx | kMovsx | kTest | kAnd | kOr | kXor | kCmpxchg.

Record MmioDecodeResult := mkDecode {
  d_op : MmioOp; d_reg : hv_x86_reg_t; d_size : Z; d_is_write : bool; d_has_imm : bool; d_insn_len : nat; d_imm_value : Z
}.

(** [has_lock] and [rex_b] are set and not used. *)
Record Prefixes := mkPfx { rex_w : bool; rex_r : bool; has_66 : bool }.

Definition ignored_prefix (b : Z) : bool :=
  (b =? 0xF0) || (b =? 0x67) || (b =? 0xF2) || (b =? 0xF3) || (b =? 0x2E) || (b =? 0x3E) || (b =? 0x26) || (b =? 0x36)
  || (b =? 0x64) || (b =? 0x65).

Fixpoint scan_prefixes (fuel : nat) (code : nat -> option Z) (pos : nat) (p : Prefixes) : option (nat * Prefixes) :=
  match fuel with
  | O => Some (pos, p)
  | S fuel =>
      b ← code pos;
      if b =? 0x66 then scan_prefixes fuel code (S pos) (mkPfx (rex_w p) (rex_r p) true)
      else if ignored_prefix b then scan_prefixes fuel code (S pos) p
      else if b .& 0xF0 =? 0x40 then scan_prefixes fuel code (S pos) (mkPfx (has (b .>> 3) 1) (has (b .>> 2) 1) (has_66 p))
      else Some (pos, p)
  end.

Definition OperandSize (p : Prefixes) (byte_variant : bool) : Z :=
  if byte_variant then 1 else if rex_w p then 4 else if has_66 p then 2 else 4.

Definition SkipModRM (code : nat -> option Z) (modrm : Z) (pos : nat) : option nat :=
  let mod_ := (modrm .>> 6) .& 3 in
  let rm := modrm .& 7 in
  if mod_ =? 3 then Some pos
  else
    let has_sib := rm =? 4 in
    '(pos, sib_base) ← (if has_sib then b ← code pos; Some (S pos, b .& 7) else Some (pos, 0));
    Some (if mod_ =? 0 then if (rm =? 5) || (has_sib && (sib_base =? 5)) then (pos + 4)%nat else pos
          else if mod_ =? 1 then (pos + 1)%nat else (pos + 4)%nat).

Fixpoint read_imm (n : nat) (i : Z) (code : nat -> option Z) (pos : nat) (v : Z) : option (Z * nat) :=
  match n with
  | O => Some (v, pos)
  | S n =>
      if (pos <? 15)%nat then b ← code pos; read_imm n (i + 1) code (S pos) (v .| (b .<< (i * 8))) else Some (v, pos)
  end.
Definition ReadImm (sz : Z) (code : nat -> option Z) (pos : nat) : option (Z * nat) := read_imm (Z.to_nat sz) 0 code pos 0.

Definition reg_field (p : Prefixes) (modrm : Z) : Z := ((modrm .>> 3) .& 7) .| (if rex_r p then 8 else 0).

(** The forms [op r/m, r] and [op r, r/m]. *)
Definition decode_reg (op : MmioOp) (size : Z) (write : bool) (p : Prefixes) (code : nat -> option Z) (pos : nat)
    : option (option MmioDecodeResult) :=
  modrm ← code pos;
  pos ← SkipModRM code modrm (S pos);
  Some (Some (mkDecode op (reg_map (reg_field p modrm .& 0xF)) size write false pos 0)).

Definition decode_two_byte (p : Prefixes) (code : nat -> option Z) (pos : nat) : option (option MmioDecodeResult) :=
  op2 ← code pos;
  let form op size write := decode_reg op size write p code (S pos) in
  let default := modrm ← code (S pos); _ ← SkipModRM code modrm (S (S pos)); Some None in
  if op2 =? 0xB6 then form kMovzx 1 false
  else if op2 =? 0xB7 then form kMovzx 2 false
  else if op2 =? 0xBE then form kMovsx 1 false
  else if op2 =? 0xBF then form kMovsx 2 false
  else if op2 =? 0xB1 then form kCmpxchg (OperandSize p false) true
  else if op2 =? 0xB0 then form kCmpxchg 1 true
  else default.

Definition imm_size (sz : Z) : Z := if sz =? 8 then 4 else sz.

Definition decode_store_imm (byte : bool) (p : Prefixes) (code : nat -> option Z) (pos : nat) : option (option MmioDecodeResult) :=
  modrm ← code pos;
  pos ← SkipModRM code modrm (S pos);
  let sz := OperandSize p byte in
  '(imm, pos) ← ReadImm (imm_size sz) code pos;
  Some (Some (mkDecode kMovStoreImm HV_X86_RAX sz true true pos imm)).

Definition decode_group1 (opcode : Z) (p : Prefixes) (code : nat -> option Z) (pos : nat) : option (option MmioDecodeResult) :=
  modrm ← code pos;
  let alu_op := (modrm .>> 3) .& 7 in
  pos ← SkipModRM code modrm (S pos);
  let sz := OperandSize p (opcode =? 0x80) in
  '(imm, pos) ← ReadImm (if opcode =? 0x83 then 1 else imm_size sz) code pos;
  let imm := if (opcode =? 0x83) && has imm 0x80 then imm .| bnot 64 0xFF else imm in
  let out op write := Some (Some (mkDecode op HV_X86_RAX sz write true pos imm)) in
  if alu_op =? 1 then out kOr true
  else if alu_op =? 4 then out kAnd true
  else if alu_op =? 6 then out kXor true
  else if alu_op =? 7 then out kTest false
  else Some None.

Definition decode_group3 (byte : bool) (p : Prefixes) (code : nat -> option Z) (pos : nat) : option (option MmioDecodeResult) :=
  modrm ← code pos;
  if negb ((modrm .>> 3) .& 7 =? 0) then Some None
  else
    pos ← SkipModRM code modrm (S pos);
    let sz := OperandSize p byte in
    '(imm, pos) ← ReadImm (imm_size sz) code pos;
    Some (Some (mkDecode kTest HV_X86_RAX sz false true pos imm)).

Definition DecodeMmioInsn (code : nat -> option Z) : option (option MmioDecodeResult) :=
  '(pos, p) ← scan_prefixes 8 code 0 (mkPfx false false false);
  opcode ← code pos;
  let pos := S pos in
  let form op byte write := decode_reg op (OperandSize p byte) write p code pos in
  if opcode =? 0x0F then decode_two_byte p code pos
  else if (opcode =? 0x88) || (opcode =? 0x89) then form kMovStore (opcode =? 0x88) true
  else if (opcode =? 0x8A) || (opcode =? 0x8B) then form kMovLoad (opcode =? 0x8A) false
  else if (opcode =? 0xC6) || (opcode =? 0xC7) then decode_store_imm (opcode =? 0xC6) p code pos
  else if (opcode =? 0x86) || (opcode =? 0x87) then form kMovStore (opcode =? 0x86) true
  else if (opcode =? 0x20) || (opcode =? 0x21) then form kAnd (opcode =? 0x20) true
  else if (opcode =? 0x08) || (opcode =? 0x09) then form kOr (opcode =? 0x08) true
  else if (opcode =? 0x30) || (opcode =? 0x31) then form kXor (opcode =? 0x30) true
  else if (opcode =? 0x80) || (opcode =? 0x81) || (opcode =? 0x83) then decode_group1 opcode p code pos
  else if (opcode =? 0xF6) || (opcode =? 0xF7) then decode_group3 (opcode =? 0xF6) p code pos
  else if (opcode =? 0x84) || (opcode =? 0x85) then form kTest (opcode =? 0x84) false
  else Some None.

(** ** Instructions *)

Inductive OpSize := S8 | S16 | S32 | S64.

(** A memory operand; registers are numbered from 0 to 15. *)
Inductive Ea :=
| Base (b : Z) | BaseDisp8 (b d : Z) | BaseDisp32 (b d : Z)
| RipDisp32 (d : Z)
| Index (s i b : Z) | IndexDisp8 (s i b d : Z) | IndexDisp32 (s i b d : Z)
| IndexOnly (s i d : Z).

Inductive AluOp := OpOr | OpAnd | OpXor.

Inductive Insn :=
| MovLoad (s : OpSize) (r : Z)        (* MOV r, m *)
| MovStore (s : OpSize) (r : Z)       (* MOV m, r *)
| MovImm (s : OpSize) (imm : Z)       (* MOV m, imm *)
| Movzx (src16 : bool) (s : OpSize) (r : Z) | Movsx (src16 : bool) (s : OpSize) (r : Z)
| Alu (o : AluOp) (s : OpSize) (r : Z) | AluImm (o : AluOp) (s : OpSize) (imm : Z)
| AluImm8 (o : AluOp) (s : OpSize) (imm : Z)   (* the sign-extended byte *)
| CmpImm (s : OpSize) (imm : Z) | CmpImm8 (s : OpSize) (imm : Z)
| TestReg (s : OpSize) (r : Z) | TestImm (s : OpSize) (imm : Z)
| Cmpxchg (s : OpSize) (r : Z).

Definition is8 (s : OpSize) : bool := match s with S8 => true | _ => false end.
Definition is16 (s : OpSize) : bool := match s with S16 => true | _ => false end.
Definition is64 (s : OpSize) : bool := match s with S64 => true | _ => false end.

Definition insn_size (i : Insn) : OpSize :=
  match i with
  | MovLoad s _ | MovStore s _ | MovImm s _ | Movzx _ s _ | Movsx _ s _ | Alu _ s _ | AluImm _ s _ | AluImm8 _ s _ | CmpImm s _
  | CmpImm8 s _ | TestReg s _ | TestImm s _ | Cmpxchg s _ => s
  end.

Definition alu_digit (o : AluOp) : Z := match o with OpOr => 1 | OpAnd => 4 | OpXor => 6 end.

(** The register field: a register, or the opcode's extension. *)
Definition insn_reg (i : Insn) : Z :=
  match i with
  | MovLoad _ r | MovStore _ r | Movzx _ _ r | Movsx _ _ r | Alu _ _ r | TestReg _ r | Cmpxchg _ r => r
  | AluImm o _ _ | AluImm8 o _ _ => alu_digit o
  | CmpImm _ _ | CmpImm8 _ _ => 7
  | MovImm _ _ | TestImm _ _ => 0
  end.

(** The opcode for bytes is the one for words less one. *)
Definition wide (s : OpSize) (opcode : Z) : Z := if is8 s then opcode - 1 else opcode.

Definition opcode_bytes (i : Insn) : bytes :=
  match i with
  | MovLoad s _ => [wide s 0x8B]
  | MovStore s _ => [wide s 0x89]
  | MovImm s _ => [wide s 0xC7]
  | Movzx src16 _ _ => [0x0F; if src16 then 0xB7 else 0xB6]
  | Movsx src16 _ _ => [0x0F; if src16 then 0xBF else 0xBE]
  | Alu OpAnd s _ => [wide s 0x21]
  | Alu OpOr s _ => [wide s 0x09]
  | Alu OpXor s _ => [wide s 0x31]
  | AluImm _ s _ | CmpImm s _ => [wide s 0x81]
  | AluImm8 _ _ _ | CmpImm8 _ _ => [0x83]
  | TestReg s _ => [wide s 0x85]
  | TestImm s _ => [wide s 0xF7]
  | Cmpxchg s _ => [0x0F; wide s 0xB1]
  end.

Definition imm_bytes (s : OpSize) (imm : Z) : bytes :=
  match s with S8 => le_bytes 1 imm | S16 => le_bytes 2 imm | _ => le_bytes 4 imm end.
Definition insn_imm (i : Insn) : bytes :=
  match i with
  | MovImm s imm | AluImm _ s imm | CmpImm s imm | TestImm s imm => imm_bytes s imm
  | AluImm8 _ _ imm | CmpImm8 _ imm => le_bytes 1 imm
  | _ => []
  end.

Definition modrm_byte (m reg rm : Z) : Z := m * 64 + (reg mod 8) * 8 + rm mod 8.
Definition sib_byte (s i b : Z) : Z := s * 64 + (i mod 8) * 8 + b mod 8.

Definition ea_bytes (reg : Z) (a : Ea) : bytes :=
  match a with
  | Base b => [modrm_byte 0 reg b]
  | BaseDisp8 b d => modrm_byte 1 reg b :: le_bytes 1 d
  | BaseDisp32 b d => modrm_byte 2 reg b :: le_bytes 4 d
  | RipDisp32 d => modrm_byte 0 reg 5 :: le_bytes 4 d
  | Index s i b => [modrm_byte 0 reg 4; sib_byte s i b]
  | IndexDisp8 s i b d => modrm_byte 1 reg 4 :: sib_byte s i b :: le_bytes 1 d
  | IndexDisp32 s i b d => modrm_byte 2 reg 4 :: sib_byte s i b :: le_bytes 4 d
  | IndexOnly s i d => modrm_byte 0 reg 4 :: sib_byte s i 5 :: le_bytes 4 d
  end.

Definition ea_base (a : Ea) : Z :=
  match a with
  | Base b | BaseDisp8 b _ | BaseDisp32 b _ | Index _ _ b | IndexDisp8 _ _ b _ | IndexDisp32 _ _ b _ => b
  | RipDisp32 _ | IndexOnly _ _ _ => 0
  end.
Definition ea_index (a : Ea) : Z :=
  match a with Index _ i _ | IndexDisp8 _ i _ _ | IndexDisp32 _ i _ _ | IndexOnly _ i _ => i | _ => 0 end.

Definition rex_byte (i : Insn) (a : Ea) : Z :=
  0x40 + 8 * b2z (is64 (insn_size i)) + 4 * (insn_reg i / 8) + 2 * (ea_index a / 8) + ea_base a / 8.

(** [rex]: a REX prefix even if its bits are 0. *)
Definition rex_bytes (rex : bool) (i : Insn) (a : Ea) : bytes := if rex || negb (rex_byte i a =? 0x40) then [rex_byte i a] else [].

(** [pfx]: further prefixes, the lock prefix among them. *)
Definition prefix_bytes (pfx : bytes) (rex : bool) (i : Insn) (a : Ea) : bytes :=
  pfx ++ (if is16 (insn_size i) then [0x66] else [])
  ++ rex_bytes rex i a.

Definition encode (pfx : bytes) (rex : bool) (i : Insn) (a : Ea) : bytes :=
  prefix_bytes pfx rex i a ++ opcode_bytes i ++ ea_bytes (insn_reg i) a ++ insn_imm i.

Definition ea_ok (a : Ea) : Prop :=
  0 <= ea_base a < 16 /\ 0 <= ea_index a < 16 /\
  match a with
  | Base b => b mod 8 <> 4 /\ b mod 8 <> 5
  | BaseDisp8 b _ | BaseDisp32 b _ => b mod 8 <> 4
  | Index s _ b => 0 <= s < 4 /\ b mod 8 <> 5
  | IndexDisp8 s _ _ _ | IndexDisp32 s _ _ _ | IndexOnly s _ _ => 0 <= s < 4
  | RipDisp32 _ => True
  end.

(** Sizes there are: immediates fit. *)
Definition imm_ok (s : OpSize) (imm : Z) : Prop :=
  in_width (match s with S8 => 8 | S16 => 16 | _ => 32 end) imm.
Definition insn_ok (i : Insn) : Prop :=
  0 <= insn_reg i < 16 /\
  match i with
  | MovImm s imm | AluImm _ s imm | CmpImm s imm | TestImm s imm => imm_ok s imm
  | AluImm8 _ s imm | CmpImm8 s imm => s <> S8 /\ in_width 8 imm
  | Movzx _ s _ | Movsx _ s _ => s <> S8
  | _ => True
  end.

(** What the decoder is to say.  A 64-bit access is one of 32 bits. *)
Definition mmio_size (s : OpSize) : Z := match s with S8 => 1 | S16 => 2 | _ => 4 end.
Definition sext8 (imm : Z) : Z := if imm <? 128 then imm else imm + (2 ^ 64 - 256).
Definition alu_kind (o : AluOp) : MmioOp := match o with OpOr => kOr | OpAnd => kAnd | OpXor => kXor end.

Definition expected (i : Insn) (len : nat) : MmioDecodeResult :=
  let sz := mmio_size (insn_size i) in
  match i with
  | MovLoad _ r => mkDecode kMovLoad (GPR r) sz false false len 0
  | MovStore _ r => mkDecode kMovStore (GPR r) sz true false len 0
  | MovImm _ imm => mkDecode kMovStoreImm HV_X86_RAX sz true true len imm
  | Movzx src16 _ r => mkDecode kMovzx (GPR r) (if src16 then 2 else 1) false false len 0
  | Movsx src16 _ r => mkDecode kMovsx (GPR r) (if src16 then 2 else 1) false false len 0
  | Alu o _ r => mkDecode (alu_kind o) (GPR r) sz true false len 0
  | AluImm o _ imm => mkDecode (alu_kind o) HV_X86_RAX sz true true len imm
  | AluImm8 o _ imm => mkDecode (alu_kind o) HV_X86_RAX sz true true len (sext8 imm)
  | CmpImm _ imm => mkDecode kTest HV_X86_RAX sz false true len imm
  | CmpImm8 _ imm => mkDecode kTest HV_X86_RAX sz false true len (sext8 imm)
  | TestReg _ r => mkDecode kTest (GPR r) sz false false len 0
  | TestImm _ imm => mkDecode kTest HV_X86_RAX sz false true len imm
  | Cmpxchg _ r => mkDecode kCmpxchg (GPR r) sz true false len 0
  end.

(** The bytes [l] are at [pos]. *)
Definition reads (code : nat -> option Z) (pos : nat) (l : bytes) : Prop :=
  forall k b, l !! k = Some b -> code (pos + k)%nat = Some b.

Lemma reads_cons code pos b l : reads code pos (b :: l) <-> code pos = Some b /\ reads code (S pos) l.
Proof.
  unfold reads. split.
  - intros H. split; [rewrite <- (Nat.add_0_r pos); by apply H|]. intros k c Hk. rewrite Nat.add_succ_comm. by apply H.
  - intros [H0 H] [|k] c Hk; [rewrite Nat.add_0_r; by injection Hk as <-|]. rewrite <- Nat.add_succ_comm. by apply H.
Qed.

Lemma reads_app code pos l1 l2 : reads code pos (l1 ++ l2) <-> reads code pos l1 /\ reads code (pos + length l1) l2.
Proof.
  revert pos. induction l1 as [|b l1 IH]; intros pos; cbn [app length].
  - rewrite Nat.add_0_r. split; [intros H; split; [intros k c Hk; by rewrite lookup_nil in Hk|done]|by intros [_ H]].
  - rewrite !reads_cons, IH, Nat.add_succ_comm. tauto.
Qed.

(** ** Prefixes *)

Lemma scan_ignored code p l : Forall (fun b => ignored_prefix b = true) l -> forall fuel pos,
  reads code pos l -> (length l <= fuel)%nat ->
  scan_prefixes fuel code pos p = scan_prefixes (fuel - length l) code (pos + length l) p.
Proof.
  induction 1 as [|b l Hb _ IH]; intros fuel pos Hr Hf; cbn [length] in *.
  - by rewrite Nat.sub_0_r, Nat.add_0_r.
  - apply reads_cons in Hr as [H0 Hr]. destruct fuel as [|fuel]; [lia|]. cbn [scan_prefixes Nat.sub]. rewrite H0. cbn [mbind option_bind].
    assert (b =? 0x66 = false) as -> by (destruct (Z.eqb_spec b 0x66) as [->|]; [discriminate Hb|done]).
    rewrite Hb, IH by (done || lia). f_equal. lia.
Qed.

Lemma rex_fields w r x b :
  0 <= r < 2 -> 0 <= x < 2 -> 0 <= b < 2 ->
  let v := 0x40 + 8 * b2z w + 4 * r + 2 * x + b in
  v =? 0x66 = false /\ ignored_prefix v = false /\ v .& 0xF0 =? 0x40 = true /\ has (v .>> 3) 1 = w /\ has (v .>> 2) 1 = (r =? 1).
Proof.
  intros Hr Hx Hb. assert (r = 0 \/ r = 1) as [-> | ->] by lia; assert (x = 0 \/ x = 1) as [-> | ->] by lia;
    assert (b = 0 \/ b = 1) as [-> | ->] by lia; destruct w; cbn; split_and!; reflexivity.
Qed.

(** No prefix. *)
Definition plain (b : Z) : bool := negb ((b =? 0x66) || ignored_prefix b || (b .& 0xF0 =? 0x40)).

Lemma scan_plain code p fuel pos b :
  code pos = Some b -> plain b = true -> scan_prefixes fuel code pos p = Some (pos, p).
Proof.
  intros Hc Hp. destruct fuel; [done|]. cbn [scan_prefixes]. rewrite Hc. cbn [mbind option_bind]. unfold plain in Hp.
  apply negb_true_iff in Hp. apply orb_false_iff in Hp as [Hp ->]. by apply orb_false_iff in Hp as [-> ->].
Qed.

Definition insn_prefixes (i : Insn) : Prefixes := mkPfx (is64 (insn_size i)) (insn_reg i / 8 =? 1) (is16 (insn_size i)).

Lemma scan_encoded code pfx rex i a b rest :
  insn_ok i -> ea_ok a -> Forall (fun b => ignored_prefix b = true) pfx -> (length (prefix_bytes pfx rex i a) <= 8)%nat ->
  plain b = true -> reads code 0 (prefix_bytes pfx rex i a ++ b :: rest) ->
  scan_prefixes 8 code 0 (mkPfx false false false) = Some (length (prefix_bytes pfx rex i a), insn_prefixes i).
Proof.
  intros [Hi _] (Hb & Hx & _) Hpfx Hlen Hplain Hr. unfold prefix_bytes in *. rewrite !length_app in *.
  rewrite <- !app_assoc, !reads_app in Hr. destruct Hr as (H1 & H2 & H3 & H4%reads_cons). destruct H4 as [H4 _].
  rewrite (scan_ignored code _ pfx) by (done || lia). cbn [Nat.add].
  set (n := length pfx) in *. assert (Hrx : 0 <= insn_reg i / 8 < 2 /\ 0 <= ea_index a / 8 < 2 /\ 0 <= ea_base a / 8 < 2) by (split_and!; dlia).
  destruct (rex_fields (is64 (insn_size i)) (insn_reg i / 8) (ea_index a / 8) (ea_base a / 8)) as (R1 & R2 & R3 & R4 & R5); [lia..|].
  fold (rex_byte i a) in *.
  assert (Hend : forall fuel pos, reads code pos (rex_bytes rex i a) -> code (pos + length (rex_bytes rex i a))%nat = Some b ->
            (length (rex_bytes rex i a) <= fuel)%nat ->
            scan_prefixes fuel code pos (mkPfx false false (is16 (insn_size i)))
            = Some ((pos + length (rex_bytes rex i a))%nat, insn_prefixes i)).
  { intros fuel pos Hrd Hcd Hfu. unfold rex_bytes in *. destruct (rex || negb (rex_byte i a =? 0x40)) eqn:E; cbn [length] in *.
    - apply reads_cons in Hrd as [Hrd _]. destruct fuel as [|fuel]; [lia|]. cbn [scan_prefixes]. rewrite Hrd. cbn [mbind option_bind].
      rewrite R1, R2, R3, R4, R5. rewrite Nat.add_1_r in *. by rewrite (scan_plain _ _ _ _ b) by done.
    - rewrite Nat.add_0_r in *. rewrite (scan_plain _ _ _ _ b) by done. do 2 f_equal.
      apply orb_false_iff in E as [_ E]. apply negb_false_iff, Z.eqb_eq in E. unfold insn_prefixes. unfold rex_byte in E.
      destruct (is64 (insn_size i)); cbn [b2z] in E; [lia|]. assert (insn_reg i / 8 = 0) as -> by lia. done. }
  destruct (is16 (insn_size i)) eqn:E16.
  - cbn [length] in *. apply reads_cons in H2 as [H2 _]. destruct (8 - n)%nat as [|fuel] eqn:Ef; [lia|].
    cbn [scan_prefixes]. cbn [Nat.add] in *. rewrite H2. cbn [mbind option_bind]. rewrite Z.eqb_refl. cbn [rex_w rex_r].
    rewrite <- Nat.add_1_r in *. rewrite (Hend fuel (n + 1)%nat) by (done || lia). do 2 f_equal. lia.
  - cbn [length] in *. rewrite ?Nat.add_0_r in *. rewrite (Hend _ n) by (done || lia). done.
Qed.

(** ** Memory operands *)

Lemma modrm_fields m reg rm :
  0 <= m < 4 -> let v := modrm_byte m reg rm in (v .>> 6) .& 3 = m /\ (v .>> 3) .& 7 = reg mod 8 /\ v .& 7 = rm mod 8.
Proof.
  intros Hm v. subst v. unfold modrm_byte.
  assert (forall z, z .& 3 = z mod 4) as -> by (intros; by apply (Z.land_ones _ 2)).
  assert (H7 : forall z, z .& 7 = z mod 8) by (intros; by apply (Z.land_ones _ 3)). rewrite !H7, !Z.shiftr_div_pow2 by lia.
  change (2 ^ 6) with 64. change (2 ^ 3) with 8. split_and!; dlia.
Qed.

Lemma reg_field_encoded i m rm :
  insn_ok i -> 0 <= m < 4 -> reg_field (insn_prefixes i) (modrm_byte m (insn_reg i) rm) .& 0xF = insn_reg i.
Proof.
  intros [Hi _] Hm. unfold reg_field. destruct (modrm_fields m (insn_reg i) rm Hm) as (_ & -> & _). cbn [rex_r insn_prefixes].
  change 0xF with (Z.ones 4). rewrite Z.land_ones by lia. change (2 ^ 4) with 16.
  assert (insn_reg i / 8 = 0 \/ insn_reg i / 8 = 1) as [E|E] by dlia; rewrite E; cbn [Z.eqb Pos.eqb].
  - rewrite Z.lor_0_r. dlia.
  - change 8 with (1 .<< 3) at 2. rewrite Z.lor_comm, lor_shiftl_add by (unfold in_width; dlia). dlia.
Qed.

Lemma skip_ea code i a pos :
  ea_ok a -> insn_ok i -> reads code pos (ea_bytes (insn_reg i) a) ->
  exists modrm, code pos = Some modrm /\ SkipModRM code modrm (S pos) = Some (pos + length (ea_bytes (insn_reg i) a))%nat
    /\ reg_field (insn_prefixes i) modrm .& 0xF = insn_reg i /\ (modrm .>> 3) .& 7 = insn_reg i mod 8.
Proof.
  intros (Hb & Hx & Ha) Hi Hr.
  assert (H : exists m rm, 0 <= m < 3 /\ code pos = Some (modrm_byte m (insn_reg i) rm)
            /\ SkipModRM code (modrm_byte m (insn_reg i) rm) (S pos) = Some (pos + length (ea_bytes (insn_reg i) a))%nat).
  { assert (Hsib : forall s x b, 0 <= s < 4 -> sib_byte s x b .& 7 = b mod 8) by (intros s x b Hs; by apply (modrm_fields s x b)).
    destruct a as [b|b d|b d|d|s x b|s x b d|s x b d|s x d]; cbn [ea_bytes ea_base ea_index] in *.
    all: repeat (apply reads_cons in Hr as [? Hr]).
    1: exists 0, b. 2: exists 1, b. 3: exists 2, b. 4: exists 0, 5. 5: exists 0, 4. 6: exists 1, 4. 7: exists 2, 4. 8: exists 0, 4.
    all: split; [lia|]; split; [done|]; unfold SkipModRM.
    all: match goal with |- context [modrm_byte ?m ?r ?rm] => destruct (modrm_fields m r rm) as (-> & _ & ->); [lia|] end.
    all: cbn [length]; rewrite ?length_le_bytes.
    all: try (rewrite (proj2 (Z.eqb_neq (b mod 8) 4)) by tauto); try (rewrite (proj2 (Z.eqb_neq (b mod 8) 5)) by tauto);
      cbn [Z.eqb Pos.eqb Z.modulo Z.div_eucl mbind option_bind andb orb].
    all: try (f_equal; lia).
    all: match goal with H : ?c (S ?p) = Some _ |- context [?c (S ?p)] => rewrite H | _ => idtac end.
    all: change (5 mod 8) with 5; change (4 mod 8) with 4; cbn [Z.eqb Pos.eqb mbind option_bind andb orb].
    all: rewrite ?Hsib by tauto; change (5 mod 8) with 5; try (rewrite (proj2 (Z.eqb_neq (b mod 8) 5)) by tauto); cbn [Z.eqb Pos.eqb]; f_equal; lia. }
  destruct H as (m & rm & Hm & H1 & H2). exists (modrm_byte m (insn_reg i) rm). split_and!; try done.
  - apply reg_field_encoded; [done|lia].
  - by apply modrm_fields; lia.
Qed.

(** ** Immediates *)

Lemma read_imm_le n : forall code pos imm v i,
  reads code pos (le_bytes n imm) -> (pos + n <= 15)%nat -> in_width (8 * Z.of_nat n) imm -> 0 <= i ->
  read_imm n i code pos v = Some (v .| (imm .<< (i * 8)), (pos + n)%nat).
Proof.
  induction n as [|n IH]; intros code pos imm v i Hr Hp Hw Hi; cbn [read_imm le_bytes] in *.
  - assert (imm = 0) as -> by (unfold in_width in Hw; cbn in Hw; lia). by rewrite Z.shiftl_0_l, Z.lor_0_r, Nat.add_0_r.
  - apply reads_cons in Hr as [H0 Hr]. rewrite (proj2 (Nat.ltb_lt pos 15)), H0 by lia. cbn [mbind option_bind].
    unfold in_width in Hw. rewrite Nat2Z.inj_succ in Hw. replace (8 * Z.succ (Z.of_nat n)) with (8 * Z.of_nat n + 8) in Hw by lia.
    rewrite Z.pow_add_r in Hw by lia. change (2 ^ 8) with 256 in Hw.
    rewrite (IH _ _ (imm / 256)); [|done|lia|unfold in_width; split; [apply Z.div_pos; lia|apply Z.div_lt_upper_bound; lia]|lia].
    f_equal. f_equal; [|lia]. rewrite <- Z.lor_assoc. f_equal. replace ((i + 1) * 8) with (8 + i * 8) by lia.
    rewrite <- (Z.shiftl_shiftl _ 8) by lia. rewrite <- Z.shiftl_lor. f_equal.
    rewrite Z.lor_comm, lor_shiftl_add by (unfold in_width; dlia). change (2 ^ 8) with 256. dlia.
Qed.

Lemma ReadImm_bytes s imm code pos :
  reads code pos (imm_bytes s imm) -> imm_ok s imm -> (pos + length (imm_bytes s imm) <= 15)%nat ->
  ReadImm (mmio_size s) code pos = Some (imm, (pos + length (imm_bytes s imm))%nat).
Proof.
  intros Hr Hok Hl. unfold ReadImm. destruct s; cbn [imm_bytes mmio_size] in *; rewrite length_le_bytes in *;
    [change (Z.to_nat 1) with 1%nat|change (Z.to_nat 2) with 2%nat|change (Z.to_nat 4) with 4%nat|change (Z.to_nat 4) with 4%nat];
    rewrite (read_imm_le _ _ _ imm) by (done || lia); cbn [Z.mul]; by rewrite Z.shiftl_0_r, Z.lor_0_l.
Qed.

Lemma ReadImm_byte imm code pos :
  reads code pos (le_bytes 1 imm) -> in_width 8 imm -> (pos + 1 <= 15)%nat -> ReadImm 1 code pos = Some (imm, (pos + 1)%nat).
Proof. intros. by apply (ReadImm_bytes S8 imm code pos). Qed.

Lemma sext_imm8 imm : in_width 8 imm -> (if true && has imm 0x80 then imm .| bnot 64 0xFF else imm) = sext8 imm.
Proof.
  intros Hi. unfold sext8, has. cbn [andb]. assert (E : imm .& 0x80 = if imm <? 128 then 0 else 0x80).
  { assert (H : forallb (fun x => x .& 0x80 =? (if x <? 128 then 0 else 0x80)) (seqZ 0 256) = true) by reflexivity.
    rewrite forallb_forall in H. apply Z.eqb_eq, H. apply list_elem_of_In, elem_of_seqZ. unfold in_width in Hi. lia. }
  rewrite E. destruct (Z.ltb_spec imm 128); cbn [Z.eqb negb]; [done|].
  change (bnot 64 255) with ((2 ^ 56 - 1) .<< 8). rewrite Z.lor_comm, lor_shiftl_add by (done || lia). lia.
Qed.

Lemma operand_size i : OperandSize (insn_prefixes i) (is8 (insn_size i)) = mmio_size (insn_size i).
Proof. unfold OperandSize, insn_prefixes. cbn [rex_w has_66]. by destruct (insn_size i). Qed.

(** ** The round trip *)

Record encoding_ok (pfx : bytes) (rex : bool) (i : Insn) (a : Ea) : Prop := {
  eo_insn : insn_ok i;
  eo_ea : ea_ok a;
  eo_pfx : Forall (fun b => ignored_prefix b = true) pfx;
  eo_pfx_len : (length (prefix_bytes pfx rex i a) <= 8)%nat;
  eo_len : (length (encode pfx rex i a) <= 15)%nat;
  (* without REX, registers 4 to 7 of a byte operation are the high bytes *)
  eo_byte : insn_size i = S8 -> 4 <= insn_reg i < 8 -> rex = true
}.

Lemma decode_form code op i a sz write pos :
  insn_ok i -> ea_ok a -> reads code pos (ea_bytes (insn_reg i) a) ->
  decode_reg op sz write (insn_prefixes i) code pos
  = Some (Some (mkDecode op (GPR (insn_reg i)) sz write false (pos + length (ea_bytes (insn_reg i) a)) 0)).
Proof.
  intros Hi Ha Hr. destruct (skip_ea code i a pos Ha Hi Hr) as (modrm & H1 & H2 & H3 & _).
  unfold decode_reg. rewrite H1. cbn [mbind option_bind]. rewrite H2. cbn [mbind option_bind]. by rewrite H3.
Qed.

(** Behind opcode and prefixes. *)
Lemma decode_behind code pfx rex i a opcode rest :
  encoding_ok pfx rex i a -> reads code 0 (encode pfx rex i a) -> opcode_bytes i = opcode :: rest -> plain opcode = true ->
  let pos := S (length (prefix_bytes pfx rex i a)) in
  scan_prefixes 8 code 0 (mkPfx false false false) = Some (length (prefix_bytes pfx rex i a), insn_prefixes i)
  /\ code (length (prefix_bytes pfx rex i a)) = Some opcode
  /\ reads code pos rest /\ reads code (pos + length rest) (ea_bytes (insn_reg i) a)
  /\ reads code (pos + length rest + length (ea_bytes (insn_reg i) a)) (insn_imm i)
  /\ length (encode pfx rex i a) = (pos + length rest + length (ea_bytes (insn_reg i) a) + length (insn_imm i))%nat.
Proof.
  intros [Hi Ha Hp Hpl Hl _] Hr Ho Hplain pos. pose proof Hr as Hr0. unfold encode in Hr. rewrite Ho in *. rewrite !reads_app in Hr.
  destruct Hr as (H1 & (H2 & H3)%reads_cons & H4 & H5). cbn [Nat.add length] in *.
  split.
  { eapply (scan_encoded _ _ _ _ _ opcode (rest ++ ea_bytes (insn_reg i) a ++ insn_imm i)); try done.
    unfold encode in Hr0. by rewrite Ho in Hr0. }
  split_and!; try done.
  - by replace (pos + length rest)%nat with (length (prefix_bytes pfx rex i a) + S (length rest))%nat by (subst pos; lia).
  - by replace (pos + length rest + length (ea_bytes (insn_reg i) a))%nat
      with (length (prefix_bytes pfx rex i a) + S (length rest) + length (ea_bytes (insn_reg i) a))%nat by (subst pos; lia).
  - unfold encode. rewrite Ho, !length_app. cbn [length]. subst pos. lia.
Qed.


Lemma decode_reg_insn code pfx rex i a opcode op write :
  encoding_ok pfx rex i a -> reads code 0 (encode pfx rex i a) -> opcode_bytes i = [opcode] -> plain opcode = true -> insn_imm i = [] ->
  (forall p pos, scan_prefixes 8 code 0 (mkPfx false false false) = Some (pos, p) -> code pos = Some opcode ->
     DecodeMmioInsn code = decode_reg op (OperandSize p (is8 (insn_size i))) write p code (S pos)) ->
  DecodeMmioInsn code
  = Some (Some (mkDecode op (GPR (insn_reg i)) (mmio_size (insn_size i)) write false (length (encode pfx rex i a)) 0)).
Proof.
  intros H Hr Ho Hp Him Hd. destruct (decode_behind _ _ _ _ _ _ [] H Hr Ho Hp) as (E1 & E2 & _ & Hea & _ & ->).
  rewrite (Hd _ _ E1 E2), operand_size. cbn [length] in *. rewrite Nat.add_0_r in *. rewrite (decode_form _ _ i a) by (done || apply H).
  rewrite Him. do 3 f_equal. cbn [length]. lia.
Qed.

Lemma decode_two_insn code pfx rex i a op2 op sz write :
  encoding_ok pfx rex i a -> reads code 0 (encode pfx rex i a) -> opcode_bytes i = [0x0F; op2] -> insn_imm i = [] ->
  (forall pos, code pos = Some op2 ->
     decode_two_byte (insn_prefixes i) code pos = decode_reg op sz write (insn_prefixes i) code (S pos)) ->
  DecodeMmioInsn code = Some (Some (mkDecode op (GPR (insn_reg i)) sz write false (length (encode pfx rex i a)) 0)).
Proof.
  intros H Hr Ho Him Hd. destruct (decode_behind _ _ _ _ _ _ [op2] H Hr Ho eq_refl) as (E1 & E2 & [E3 _]%reads_cons & Hea & _ & ->).
  unfold DecodeMmioInsn. rewrite E1. cbn [mbind option_bind]. rewrite E2. cbn [mbind option_bind Z.eqb Pos.eqb].
  rewrite Hd by done. cbn [length] in *. rewrite Nat.add_1_r in *. rewrite (decode_form _ _ i a) by (done || apply H).
  rewrite Him. do 3 f_equal. cbn [length]. lia.
Qed.

(** Behind the memory operand of an instruction with an immediate. *)
Lemma decode_imm_insn code pfx rex i a opcode imm sz :
  encoding_ok pfx rex i a -> reads code 0 (encode pfx rex i a) -> opcode_bytes i = [opcode] -> plain opcode = true ->
  (forall pos, reads code pos (insn_imm i) -> (pos + length (insn_imm i) <= 15)%nat ->
     ReadImm sz code pos = Some (imm, (pos + length (insn_imm i))%nat)) ->
  exists n modrm pos, scan_prefixes 8 code 0 (mkPfx false false false) = Some (n, insn_prefixes i) /\ code n = Some opcode
    /\ code (S n) = Some modrm /\ SkipModRM code modrm (S (S n)) = Some pos /\ (modrm .>> 3) .& 7 = insn_reg i mod 8
    /\ ReadImm sz code pos = Some (imm, length (encode pfx rex i a)).
Proof.
  intros H Hr Ho Hp Him. destruct (decode_behind _ _ _ _ _ _ [] H Hr Ho Hp) as (E1 & E2 & _ & Hea & Hi & Hlen).
  cbn [length] in *. rewrite Nat.add_0_r in *. destruct (skip_ea code i a _ (eo_ea _ _ _ _ H) (eo_insn _ _ _ _ H) Hea) as (modrm & M1 & M2 & _ & M3).
  pose proof (eo_len _ _ _ _ H) as Hl. rewrite Hlen in Hl. do 3 eexists. split_and!; try done. rewrite Hlen. by apply Him.
Qed.

(** The instruction with one of the register forms, at each operand size. *)
Ltac reg_form s opcode op write :=
  match goal with
  | H : encoding_ok ?pfx ?rex ?i ?a, Hr : reads ?code 0 _ |- _ =>
      rewrite (decode_reg_insn code pfx rex i a opcode op write H Hr); [reflexivity|by destruct s|by destruct s|reflexivity|];
      let E1 := fresh in let E2 := fresh in
      intros ? ? E1 E2; unfold DecodeMmioInsn; rewrite E1; cbn [mbind option_bind]; rewrite E2; by destruct s
  end.

Ltac two_form x op2 op sz write :=
  match goal with
  | H : encoding_ok ?pfx ?rex ?i ?a, Hr : reads ?code 0 _ |- _ =>
      rewrite (decode_two_insn code pfx rex i a op2 op sz write H Hr); [reflexivity|reflexivity|reflexivity|];
      let E := fresh in intros ? E; unfold decode_two_byte; rewrite E; by destruct x
  end.

Lemma imm_size_mmio s : imm_size (mmio_size s) = mmio_size s.
Proof. by destruct s. Qed.

(** With an immediate: [form] is what the opcode leads to. *)
Ltac imm_form s opcode imm sz form :=
  match goal with
  | H : encoding_ok ?pfx ?rex ?i ?a, Hr : reads ?code 0 _ |- _ =>
      destruct (decode_imm_insn code pfx rex i a opcode imm sz H Hr) as (?n & ?m & ?pos & ?E1 & ?E2 & ?E3 & ?E4 & ?E5 & ?E6);
      [by destruct s|by destruct s|intros; first [by apply (ReadImm_bytes s imm code)|by apply (ReadImm_byte imm code)]|];
      transitivity (form (insn_prefixes i) code (S n));
      [unfold DecodeMmioInsn; rewrite E1; cbn [mbind option_bind]; rewrite E2; by destruct s
      |unfold decode_store_imm, decode_group1, decode_group3; rewrite E3; cbn [mbind option_bind]]
  end.

Lemma decode_mov_imm code pfx rex s imm a :
  encoding_ok pfx rex (MovImm s imm) a -> reads code 0 (encode pfx rex (MovImm s imm) a) -> imm_ok s imm ->
  DecodeMmioInsn code = Some (Some (expected (MovImm s imm) (length (encode pfx rex (MovImm s imm) a)))).
Proof.
  intros H Hr Hok. imm_form s (wide s 0xC7) imm (mmio_size s) (decode_store_imm (is8 s)).
  rewrite E4. cbn [mbind option_bind]. pose proof (operand_size (MovImm s imm)) as Hsz. cbn [insn_size] in Hsz. rewrite Hsz, imm_size_mmio. by rewrite E6.
Qed.

Lemma decode_test_imm code pfx rex s imm a :
  encoding_ok pfx rex (TestImm s imm) a -> reads code 0 (encode pfx rex (TestImm s imm) a) -> imm_ok s imm ->
  DecodeMmioInsn code = Some (Some (expected (TestImm s imm) (length (encode pfx rex (TestImm s imm) a)))).
Proof.
  intros H Hr Hok. imm_form s (wide s 0xF7) imm (mmio_size s) (decode_group3 (is8 s)).
  rewrite E5. change (negb (insn_reg (TestImm s imm) mod 8 =? 0)) with false. cbn iota.
  rewrite E4. cbn [mbind option_bind]. pose proof (operand_size (TestImm s imm)) as Hsz. cbn [insn_size] in Hsz. rewrite Hsz, imm_size_mmio. by rewrite E6.
Qed.

(** The operation of group 1. *)
Definition group1_ok (d : Z) (op : MmioOp) (write : bool) : Prop :=
  (d = 1 /\ op = kOr /\ write = true) \/ (d = 4 /\ op = kAnd /\ write = true) \/ (d = 6 /\ op = kXor /\ write = true)
  \/ (d = 7 /\ op = kTest /\ write = false).

Lemma decode_group1_imm code pfx rex i s imm a op write :
  encoding_ok pfx rex i a -> reads code 0 (encode pfx rex i a) -> opcode_bytes i = [wide s 0x81] -> insn_size i = s ->
  insn_imm i = imm_bytes s imm -> imm_ok s imm -> group1_ok (insn_reg i) op write ->
  DecodeMmioInsn code = Some (Some (mkDecode op HV_X86_RAX (mmio_size s) write true (length (encode pfx rex i a)) imm)).
Proof.
  intros H Hr Ho Hs Hi Hok Hg.
  destruct (decode_imm_insn code pfx rex i a (wide s 0x81) imm (mmio_size s) H Hr Ho) as (n & m & pos & E1 & E2 & E3 & E4 & E5 & E6);
    [by destruct s|rewrite Hi; intros; by apply ReadImm_bytes|].
  transitivity (decode_group1 (wide s 0x81) (insn_prefixes i) code (S n)).
  { unfold DecodeMmioInsn. rewrite E1. cbn [mbind option_bind]. rewrite E2. by destruct s. }
  unfold decode_group1. rewrite E3. cbn [mbind option_bind]. rewrite E4. cbn [mbind option_bind].
  replace (wide s 0x81 =? 0x80) with (is8 s) by (by destruct s). replace (wide s 0x81 =? 0x83) with false by (by destruct s).
  rewrite <- Hs, operand_size, imm_size_mmio, Hs, E6. cbn [mbind option_bind andb].
  rewrite E5. by destruct Hg as [(-> & -> & ->)|[(-> & -> & ->)|[(-> & -> & ->)|(-> & -> & ->)]]].
Qed.

Lemma decode_group1_imm8 code pfx rex i s imm a op write :
  encoding_ok pfx rex i a -> reads code 0 (encode pfx rex i a) -> opcode_bytes i = [0x83] -> insn_size i = s -> s <> S8 ->
  insn_imm i = le_bytes 1 imm -> in_width 8 imm -> group1_ok (insn_reg i) op write ->
  DecodeMmioInsn code = Some (Some (mkDecode op HV_X86_RAX (mmio_size s) write true (length (encode pfx rex i a)) (sext8 imm))).
Proof.
  intros H Hr Ho Hs H8 Hi Hok Hg.
  destruct (decode_imm_insn code pfx rex i a 0x83 imm 1 H Hr Ho) as (n & m & pos & E1 & E2 & E3 & E4 & E5 & E6);
    [done|rewrite Hi; intros; by apply ReadImm_byte|].
  transitivity (decode_group1 0x83 (insn_prefixes i) code (S n)).
  { unfold DecodeMmioInsn. rewrite E1. cbn [mbind option_bind]. by rewrite E2. }
  unfold decode_group1. rewrite E3. cbn [mbind option_bind]. rewrite E4. cbn [mbind option_bind Z.eqb Pos.eqb].
  rewrite E6. cbn [mbind option_bind]. rewrite (sext_imm8 imm Hok), E5.
  replace (OperandSize (insn_prefixes i) false) with (mmio_size s)
    by (rewrite <- Hs, <- operand_size, Hs; by destruct s).
  by destruct Hg as [(-> & -> & ->)|[(-> & -> & ->)|[(-> & -> & ->)|(-> & -> & ->)]]].
Qed.

Lemma decode_insn code pfx rex i a :
  encoding_ok pfx rex i a -> reads code 0 (encode pfx rex i a) ->
  DecodeMmioInsn code = Some (Some (expected i (length (encode pfx rex i a)))).
Proof.
  intros H Hr. pose proof (eo_insn _ _ _ _ H) as [Hreg Hok]. assert (Halu : forall o, group1_ok (alu_digit o) (alu_kind o) true).
  { unfold group1_ok. intros []; tauto. }
  destruct i as [s r|s r|s imm|src s r|src s r|o s r|o s imm|o s imm|s imm|s imm|s r|s imm|s r].
  - reg_form s (wide s 0x8B) kMovLoad false.
  - reg_form s (wide s 0x89) kMovStore true.
  - by apply decode_mov_imm.
  - two_form src (if src then 0xB7 else 0xB6) kMovzx (if src then 2 else 1) false.
  - two_form src (if src then 0xBF else 0xBE) kMovsx (if src then 2 else 1) false.
  - destruct o; [reg_form s (wide s 0x09) kOr true|reg_form s (wide s 0x21) kAnd true|reg_form s (wide s 0x31) kXor true].
  - apply (decode_group1_imm _ _ _ _ s imm a (alu_kind o) true); try done. apply Halu.
  - destruct Hok. apply (decode_group1_imm8 _ _ _ _ s imm a (alu_kind o) true); try done. apply Halu.
  - apply (decode_group1_imm _ _ _ _ s imm a kTest false); try done. unfold group1_ok. cbn. tauto.
  - destruct Hok. apply (decode_group1_imm8 _ _ _ _ s imm a kTest false); try done. unfold group1_ok. cbn. tauto.
  - reg_form s (wide s 0x85) kTest false.
  - by apply decode_test_imm.
  - two_form s (wide s 0xB1) kCmpxchg (mmio_size s) true.
Qed.

(** The decoder agrees with the instruction format: for every instruction it
    is made for, any memory operand, any further prefixes, and up to the
    architecture's 15 bytes, it finds the operation, the register with its
    extension, the operand size, the immediate and the length of the
    instruction, whatever bytes follow.  A 64-bit operand counts as 32 bits. *)
Theorem decode_encode code pfx rex i a :
  encoding_ok pfx rex i a -> reads code 0 (encode pfx rex i a) ->
  DecodeMmioInsn code = Some (Some (expected i (length (encode pfx rex i a)))).
Proof. apply decode_insn. Qed.

(** [bytes_code l]: code of the bytes [l]. *)
Definition bytes_code (l : bytes) : nat -> option Z := fun n => l !! n.

Lemma bytes_code_reads l rest : reads (bytes_code (l ++ rest)) 0 l.
Proof. intros k b Hk. unfold bytes_code. cbn [Nat.add]. by apply lookup_app_l_Some. Qed.

(** [mov %r13d, 0xb0(%rax,%r9,4)] and, with a lock prefix,
    [or $-2, 0x3f200000(%rip)]. *)
Lemma decode_encode_witness :
  DecodeMmioInsn (bytes_code [0x46; 0x89; 0xAC; 0x88; 0xB0; 0; 0; 0; 0xC3]) = Some (Some (mkDecode kMovStore (GPR 13) 4 true false 8 0))
  /\ DecodeMmioInsn (bytes_code [0xF0; 0x83; 0x0D; 0; 0; 0x20; 0x3F; 0xFE]) = Some (Some (mkDecode kOr HV_X86_RAX 4 true true 8 (2 ^ 64 - 2))).
Proof.
  split.
  - apply (decode_encode _ [] false (MovStore S32 13) (IndexDisp32 2 9 0 0xB0)).
    + constructor; [split; [cbn; lia|done]|unfold ea_ok; cbn; lia|apply Forall_nil_2|vm_compute; lia|vm_compute; lia|done].
    + exact (bytes_code_reads _ [0xC3]).
  - apply (decode_encode _ [0xF0] false (AluImm8 OpOr S32 0xFE) (RipDisp32 0x3F200000)).
    + constructor; [split; [cbn; lia|split; [done|by split]]|unfold ea_ok; cbn; lia|by apply Forall_singleton|vm_compute; lia|vm_compute; lia|done].
    + exact (bytes_code_reads _ []).
Defined.

(** ** What it gets wrong *)

(** An exchange is taken for a store: the register is never loaded. *)
Lemma xchg_is_store : DecodeMmioInsn (bytes_code [0x87; 0x08]) = DecodeMmioInsn (bytes_code [0x89; 0x08]).
Proof. reflexivity. Qed.

(** [mov %ah, (%rax)] and [mov %spl, (%rax)] are the same to it: without a
    REX prefix, registers 4 to 7 are the second bytes of the first four. *)
Lemma high_byte_register :
  DecodeMmioInsn (bytes_code [0x88; 0x20]) = Some (Some (mkDecode kMovStore HV_X86_RSP 1 true false 2 0))
  /\ DecodeMmioInsn (bytes_code [0x40; 0x88; 0x20]) = Some (Some (mkDecode kMovStore HV_X86_RSP 1 true false 3 0)).
Proof. by split. Qed.

(** [mov 0xFEE00020, %eax], the short form of a load to the accumulator, is
    not known. *)
Lemma moffs_unknown : DecodeMmioInsn (bytes_code [0xA1; 0x20; 0; 0xE0; 0xFE; 0; 0; 0; 0]) = Some None.
Proof. reflexivity. Qed.
