(* ===== verification/HvfVcpu.v ===== *)
(** * Exits to devices on the macOS x86 back end

    Models the part of platform/macos/hypervisor/x86_64/hvf_vcpu.{h,cpp} that
    emulates device accesses: [HandleIo], and [HandleEptViolation] with its
    walk of the guest's page tables, its decoder ([HvfDecode]) and its
    emulation.  The rest of the
    vCPU is in [HvfCtl].

    A vCPU is the object's members with the registers and the VMCS fields
    Hypervisor.framework keeps for it, which [hv_vcpu_read_register] and the
    like return as they were written.  Exit statistics and logging are left
    out.  [None] is undefined behaviour: an access outside the host's memory
    or a dangling device.

    [rip_walk_translates]: the walk is the architecture's 4-level paging.
    [mmio_refines]: what the emulation does to registers and devices is what
    the processor would do, for the instructions it gets right.  The lemmas
    behind it say what it gets wrong for the others. *)

From S2P Require Import Prelude.
From S2P Require Import StdString.
From S2P Require Import GuestMem.
From S2P Require Import AddrSpace.
From S2P Require Import IoApic.
From S2P Require Import HvfDecode.

(** ** The vCPU *)

Inductive Seg := SegCS | SegDS | SegES | SegSS | SegFS | SegGS | SegLDTR | SegTR.
Inductive SegPart := SegSel | SegBase | SegLimit | SegAR.

Inductive VmcsField :=
| VMCS_CTRL_PIN_BASED | VMCS_CTRL_CPU_BASED | VMCS_CTRL_CPU_BASED2 | VMCS_CTRL_VMENTRY_CONTROLS | VMCS_CTRL_VMEXIT_CONTROLS
| VMCS_CTRL_EXC_BITMAP | VMCS_CTRL_CR0_MASK | VMCS_CTRL_CR0_SHADOW | VMCS_CTRL_CR4_MASK | VMCS_CTRL_CR4_SHADOW
| VMCS_CTRL_TPR_THRESHOLD | VMCS_CTRL_VMENTRY_IRQ_INFO | VMCS_CTRL_VMENTRY_EXC_ERROR
| VMCS_GUEST (s : Seg) (p : SegPart) | VMCS_GUEST_GDTR_BASE | VMCS_GUEST_GDTR_LIMIT | VMCS_GUEST_IDTR_BASE | VMCS_GUEST_IDTR_LIMIT
| VMCS_GUEST_CR0 | VMCS_GUEST_CR3 | VMCS_GUEST_CR4 | VMCS_GUEST_IA32_EFER | VMCS_GUEST_ACTIVITY_STATE
| VMCS_GUEST_INTERRUPTIBILITY | VMCS_GUEST_LINK_POINTER | VMCS_GUEST_PHYSICAL_ADDRESS
| VMCS_RO_EXIT_REASON | VMCS_RO_EXIT_QUALIFIC | VMCS_RO_VMEXIT_INSTR_LEN | VMCS_RO_IDT_VECTOR_INFO | VMCS_RO_IDT_VECTOR_ERROR.

#[export] Instance Seg_eq_dec : EqDecision Seg.
Proof. solve_decision. Defined.
#[export] Instance SegPart_eq_dec : EqDecision SegPart.
Proof. solve_decision. Defined.
#[export] Instance VmcsField_eq_dec : EqDecision VmcsField.
Proof. solve_decision. Defined.
#[export] Instance hv_x86_reg_eq_dec : EqDecision hv_x86_reg_t.
Proof. solve_decision. Defined.

Definition upd {K V : Type} `{EqDecision K} (k : K) (v : V) (f : K -> V) : K -> V := fun k' => if decide (k' = k) then v else f k'.

Record HvfVCpu := mkVCpu {
  regs : hv_x86_reg_t -> Z; vmcs : VmcsField -> Z;
  index_ : Z; ram_size_ : Z; tsc_freq_ : Z; kvmclock_system_time_gpa_ : Z; kvmclock_enabled_ : bool; apic_base_msr_ : Z;
  last_ept_gpa_ : Z; last_decode_fail_count_ : Z; pending_irqs_ : list Z; irq_window_active_ : bool
}.

Definition set_reg (r : hv_x86_reg_t) (v : Z) (s : HvfVCpu) : HvfVCpu :=
  mkVCpu (upd r v (regs s)) (vmcs s) (index_ s) (ram_size_ s) (tsc_freq_ s) (kvmclock_system_time_gpa_ s)
    (kvmclock_enabled_ s) (apic_base_msr_ s) (last_ept_gpa_ s) (last_decode_fail_count_ s) (pending_irqs_ s) (irq_window_active_ s).
Definition set_vmcs (f : VmcsField) (v : Z) (s : HvfVCpu) : HvfVCpu :=
  mkVCpu (regs s) (upd f v (vmcs s)) (index_ s) (ram_size_ s) (tsc_freq_ s) (kvmclock_system_time_gpa_ s)
    (kvmclock_enabled_ s) (apic_base_msr_ s) (last_ept_gpa_ s) (last_decode_fail_count_ s) (pending_irqs_ s) (irq_window_active_ s).
Definition set_kvmclock (gpa : Z) (enabled : bool) (s : HvfVCpu) : HvfVCpu :=
  mkVCpu (regs s) (vmcs s) (index_ s) (ram_size_ s) (tsc_freq_ s) gpa
    enabled (apic_base_msr_ s) (last_ept_gpa_ s) (last_decode_fail_count_ s) (pending_irqs_ s) (irq_window_active_ s).
Definition set_apic_base (v : Z) (s : HvfVCpu) : HvfVCpu :=
  mkVCpu (regs s) (vmcs s) (index_ s) (ram_size_ s) (tsc_freq_ s) (kvmclock_system_time_gpa_ s)
    (kvmclock_enabled_ s) v (last_ept_gpa_ s) (last_decode_fail_count_ s) (pending_irqs_ s) (irq_window_active_ s).
Definition set_ept (gpa fails : Z) (s : HvfVCpu) : HvfVCpu :=
  mkVCpu (regs s) (vmcs s) (index_ s) (ram_size_ s) (tsc_freq_ s) (kvmclock_system_time_gpa_ s)
    (kvmclock_enabled_ s) (apic_base_msr_ s) gpa fails (pending_irqs_ s) (irq_window_active_ s).
Definition set_irqs (q : list Z) (window : bool) (s : HvfVCpu) : HvfVCpu :=
  mkVCpu (regs s) (vmcs s) (index_ s) (ram_size_ s) (tsc_freq_ s) (kvmclock_system_time_gpa_ s)
    (kvmclock_enabled_ s) (apic_base_msr_ s) (last_ept_gpa_ s) (last_decode_fail_count_ s) q window.

Inductive VCpuExitAction := kContinue | kHalt | kShutdown | kError.

Definition CR0_PE : Z := 1 .<< 0.
Definition CR0_PG : Z := 1 .<< 31.

Definition AdvanceRip (s : HvfVCpu) : HvfVCpu := set_reg HV_X86_RIP (u64 (regs s HV_X86_RIP + vmcs s VMCS_RO_VMEXIT_INSTR_LEN)) s.

(** ** Ports *)

Section Exits.
Context {D : Type} `{Device D} (a : AddressSpace).

Definition HandleIo (exit_qual : Z) (s : HvfVCpu) (ds : list D) : option (VCpuExitAction * HvfVCpu * list D) :=
  let port := (exit_qual .>> 16) .& 0xFFFF in
  let size := (exit_qual .& 7) + 1 in
  let is_in := has (exit_qual .>> 3) 1 in
  let is_string := has (exit_qual .>> 4) 1 in
  if is_string then Some (kContinue, AdvanceRip s, ds)
  else if is_in then
    '(ds, val, _) ← HandlePortIn a ds port size;
    let rax := regs s HV_X86_RAX in
    let mask := u64 ((1 .<< (size * 8)) - 1) in
    let rax := (rax .& bnot 64 mask) .| (u32 val .& mask) in
    Some (kContinue, AdvanceRip (set_reg HV_X86_RAX rax s), ds)
  else
    let val := u32 (regs s HV_X86_RAX) in
    '(ds, _) ← HandlePortOut a ds port size val;
    Some (kContinue, AdvanceRip s, ds).

(** ** The guest's code *)

(** The lambda [GpaToHost]; [guest_mem_] is set. *)
Definition GpaToHost (h : HostMem) (s : HvfVCpu) (addr len : Z) : option Z :=
  match GpaToHva (hm_map h) addr with
  | Some p => Some p
  | None => if u64 (addr + len) <=? ram_size_ s then Some addr else None
  end.

(** One level of the walk: the entry, if the table is in RAM and the entry is
    present, goes to [k]. *)
Definition walk_level (h : HostMem) (s : HvfVCpu) (table index : Z) (k : Z -> option (option Z)) : option (option Z) :=
  match GpaToHost h s (u64 (table + index * 8)) 8 with
  | None => Some None
  | Some p => e ← hm_load 8 h p; if has e 1 then k e else Some None
  end.

Definition rip_walk (h : HostMem) (s : HvfVCpu) (rip : Z) : option (option Z) :=
  let cr3 := vmcs s VMCS_GUEST_CR3 in
  walk_level h s (cr3 .& bnot 64 0xFFF) ((rip .>> 39) .& 0x1FF) (fun pml4e =>
  walk_level h s (pml4e .& 0x000FFFFFFFFFF000) ((rip .>> 30) .& 0x1FF) (fun pdpte =>
    if has pdpte 0x80 then Some (Some ((pdpte .& 0x000FFFFFC0000000) .| (rip .& 0x3FFFFFFF)))
    else walk_level h s (pdpte .& 0x000FFFFFFFFFF000) ((rip .>> 21) .& 0x1FF) (fun pde =>
      if has pde 0x80 then Some (Some ((pde .& 0x000FFFFFFFE00000) .| (rip .& 0x1FFFFF)))
      else walk_level h s (pde .& 0x000FFFFFFFFFF000) ((rip .>> 12) .& 0x1FF) (fun pte =>
        Some (Some ((pte .& 0x000FFFFFFFFFF000) .| (rip .& 0xFFF))))))).

Definition rip_to_gpa (h : HostMem) (s : HvfVCpu) : option (option Z) :=
  let rip := regs s HV_X86_RIP in
  if negb (has (vmcs s VMCS_CTRL_CR0_SHADOW) CR0_PG) then Some (Some (u64 (vmcs s (VMCS_GUEST SegCS SegBase) + rip)))
  else rip_walk h s rip.

Definition code_at (h : HostMem) (hva : Z) (n : nat) : option Z := hm_load 1 h (hva + Z.of_nat n).

Definition decode_at (h : HostMem) (s : HvfVCpu) (rip_gpa : option Z) : option (option MmioDecodeResult) :=
  match rip_gpa with
  | None => Some None
  | Some g => match GpaToHost h s g 15 with None => Some None | Some hva => DecodeMmioInsn (code_at h hva) end
  end.

(** ** Device memory *)

Definition Mask (sz : Z) : Z := if 8 <=? sz then 2 ^ 64 - 1 else u64 ((1 .<< (sz * 8)) - 1).

(** The lambdas [MmioRead] and [MmioWrite]. *)
Definition mmio_read (is_mmio : bool) (gpa sz : Z) (ds : list D) : option (list D * Z) :=
  if is_mmio then '(ds, v, _) ← HandleMmioRead a ds gpa sz; Some (ds, u64 v) else Some (ds, 0).
Definition mmio_write (is_mmio : bool) (gpa sz v : Z) (ds : list D) : option (list D) :=
  if is_mmio then '(ds, _) ← HandleMmioWrite a ds gpa sz v; Some ds else Some ds.

Definition rmw (is_mmio : bool) (gpa : Z) (f : Z -> Z -> Z) (d : MmioDecodeResult) (s : HvfVCpu) (ds : list D)
    : option (HvfVCpu * list D) :=
  '(ds, old_val) ← mmio_read is_mmio gpa (d_size d) ds;
  let operand := if d_has_imm d then d_imm_value d else regs s (d_reg d) in
  ds ← mmio_write is_mmio gpa (d_size d) (f old_val operand .& Mask (d_size d)) ds;
  Some (s, ds).

Definition emulate (is_mmio : bool) (gpa : Z) (d : MmioDecodeResult) (s : HvfVCpu) (ds : list D) : option (HvfVCpu * list D) :=
  let sz := d_size d in
  match d_op d with
  | kMovLoad | kMovzx => '(ds, v) ← mmio_read is_mmio gpa sz ds; Some (set_reg (d_reg d) (v .& Mask sz) s, ds)
  | kMovStore => ds ← mmio_write is_mmio gpa sz (regs s (d_reg d) .& Mask sz) ds; Some (s, ds)
  | kMovStoreImm => ds ← mmio_write is_mmio gpa sz (d_imm_value d .& Mask sz) ds; Some (s, ds)
  | kMovsx =>
      '(ds, v) ← mmio_read is_mmio gpa sz ds;
      let val := v .& Mask sz in
      let val := if has val (1 .<< (sz * 8 - 1)) then val .| bnot 64 (Mask sz) else val in
      Some (set_reg (d_reg d) val s, ds)
  | kTest => Some (s, ds)
  | kAnd => rmw is_mmio gpa Z.land d s ds
  | kOr => rmw is_mmio gpa Z.lor d s ds
  | kXor => rmw is_mmio gpa Z.lxor d s ds
  | kCmpxchg =>
      '(ds, v) ← mmio_read is_mmio gpa sz ds;
      let mem_val := v .& Mask sz in
      let rax_val := regs s HV_X86_RAX .& Mask sz in
      if rax_val =? mem_val then ds ← mmio_write is_mmio gpa sz (regs s (d_reg d) .& Mask sz) ds; Some (s, ds)
      else
        let full_rax := (regs s HV_X86_RAX .& bnot 64 (Mask sz)) .| mem_val in
        Some (set_reg HV_X86_RAX full_rax s, ds)
  end.

Definition HandleEptViolation (exit_qual : Z) (s : HvfVCpu) (ds : list D) (h : HostMem)
    : option (VCpuExitAction * HvfVCpu * list D) :=
  let gpa := vmcs s VMCS_GUEST_PHYSICAL_ADDRESS in
  let s := set_ept gpa (last_decode_fail_count_ s) s in
  let is_fetch := has (exit_qual .>> 2) 1 in
  if is_fetch then Some (kContinue, s, ds)
  else
    let is_mmio := IsMmioAddress a gpa in
    let is_gap := (kMmioGapStart <=? gpa) && (gpa <? kMmioGapEnd) in
    if negb is_mmio && negb is_gap then Some (kContinue, s, ds)
    else
      let rip := regs s HV_X86_RIP in
      let insn_len := vmcs s VMCS_RO_VMEXIT_INSTR_LEN in
      rip_gpa ← rip_to_gpa h s;
      decode ← decode_at h s rip_gpa;
      match decode with
      | None =>
          let s := set_ept (last_ept_gpa_ s) (u32 (last_decode_fail_count_ s + 1)) s in
          let skip := if (0 <? insn_len) && (insn_len <=? 15) then u8 insn_len else 0 in
          Some (kContinue, (if 0 <? skip then set_reg HV_X86_RIP (u64 (rip + skip)) s else s), ds)
      | Some d =>
          '(s, ds) ← emulate is_mmio gpa d s ds;
          Some (kContinue, set_reg HV_X86_RIP (u64 (rip + Z.of_nat (d_insn_len d))) s, ds)
      end.
End Exits.

(** ** Address translation *)

(** 4-level paging of the architecture, by numbers: [level] 3 is the PML4.
    [None]: no translation. *)
Definition phys_load (h : HostMem) (gpa : Z) : option Z := p ← GpaToHva (hm_map h) gpa; hm_load 8 h p.

Fixpoint translate (level : nat) (h : HostMem) (table va : Z) : option Z :=
  e ← phys_load h (table + 8 * (va / 2 ^ (12 + 9 * Z.of_nat level) mod 512));
  if negb (Z.testbit e 0) then None
  else
    let frame n := e mod 2 ^ 52 / 2 ^ n * 2 ^ n + va mod 2 ^ n in
    match level with
    | O => Some (frame 12)
    | S level => if (Nat.ltb level 2) && Z.testbit e 7 then Some (frame (12 + 9 * Z.of_nat (S level)))
                 else translate level h (e mod 2 ^ 52 / 2 ^ 12 * 2 ^ 12) va
    end.

(** RAM as x86 machines have it. *)
Record ram_ok (h : HostMem) (s : HvfVCpu) : Prop := {
  ro_base : ram_base (hm_map h) = 0;
  ro_low : 0 <= low_size (hm_map h) /\ low_size (hm_map h) mod 8 = 0;
  ro_high : 0 <= high_size (hm_map h) /\ high_size (hm_map h) mod 8 = 0 /\ high_base (hm_map h) mod 8 = 0;
  ro_size : ram_size_ s = low_size (hm_map h);
  ro_alloc : low_size (hm_map h) + high_size (hm_map h) <= alloc_size (hm_map h)
}.

Lemma upd_same {K V : Type} `{EqDecision K} (k : K) (v : V) f : upd k v f k = v.
Proof. unfold upd. by rewrite decide_True. Qed.
Lemma upd_other {K V : Type} `{EqDecision K} (k k' : K) (v : V) f : k' <> k -> upd k v f k' = f k'.
Proof. intros. unfold upd. by rewrite decide_False. Qed.

(** A table address below 2^52 that is not RAM is not accessed. *)
Lemma GpaToHost_ram h s x :
  ram_ok h s -> 0 <= x -> x + 8 < 2 ^ 64 -> GpaToHost h s x 8 = GpaToHva (hm_map h) x.
Proof.
  intros [Hb [Hl _] _ Hs _] H0 Hx. unfold GpaToHost. destruct (GpaToHva (hm_map h) x) eqn:E; [done|].
  rewrite wrap_small by (unfold in_width; lia). rewrite Hs. destruct (Z.leb_spec (x + 8) (low_size (hm_map h))); [|done].
  unfold GpaToHva in E. rewrite Hb in E.
  replace ((0 <=? x) && (x - 0 <? low_size (hm_map h))) with true in E; [done|].
  symmetry. apply andb_true_iff. split; [apply Z.leb_le|apply Z.ltb_lt]; lia.
Qed.

Lemma entry_in_ram h s x p :
  ram_ok h s -> 0 <= x -> x mod 8 = 0 -> GpaToHva (hm_map h) x = Some p -> exists e, hm_load 8 h p = Some e.
Proof.
  intros [Hb [Hl Hl8] (Hh & Hh8 & Hb8) _ Ha] H0 H8 E. unfold GpaToHva in E. rewrite Hb in E.
  assert (Hp : 0 <= p /\ p + 8 <= alloc_size (hm_map h)).
  { destruct ((0 <=? x) && (x - 0 <? low_size (hm_map h))) eqn:E1; [injection E as <-; bool_hyps; dlia|].
    destruct (negb (high_size (hm_map h) =? 0) && (high_base (hm_map h) <=? x) && (x - high_base (hm_map h) <? high_size (hm_map h))) eqn:E2;
      [|done]. injection E as <-. bool_hyps. dlia. }
  unfold hm_load, hm_read. rewrite (proj2 (Z.leb_le 0 p)), (proj2 (Z.leb_le _ _)) by (apply Hp || (cbn; lia)). by eexists.
Qed.

(** Bits [n] to 51 of an entry. *)
Lemma frame_bits n e : 0 <= n <= 52 -> e .& (Z.ones (52 - n) .<< n) = e mod 2 ^ 52 / 2 ^ n * 2 ^ n.
Proof.
  intros Hn. rewrite <- Z.shiftr_div_pow2, <- Z.shiftl_mul_pow2, <- Z.land_ones by lia.
  apply Z.bits_inj'. intros i Hi. rewrite Z.land_spec. destruct (Z.ltb_spec i n).
  - rewrite !Z.shiftl_spec_low by lia. apply andb_false_r.
  - rewrite !Z.shiftl_spec, Z.shiftr_spec, Z.land_spec, !testbit_ones by lia. rewrite Z.sub_add. f_equal.
    destruct (Z.ltb_spec (i - n) (52 - n)), (Z.ltb_spec i 52); done || lia.
Qed.

Lemma frame_offset n e va : 0 <= n <= 52 ->
  (e .& (Z.ones (52 - n) .<< n)) .| (va .& Z.ones n) = e mod 2 ^ 52 / 2 ^ n * 2 ^ n + va mod 2 ^ n.
Proof.
  intros Hn. rewrite frame_bits, Z.land_ones by lia. rewrite <- Z.shiftl_mul_pow2 by lia.
  rewrite lor_shiftl_add by (try apply Z.mod_pos_bound; unfold in_width; try lia; apply Z.mod_pos_bound; apply Z.pow_pos_nonneg; lia).
  by rewrite Z.shiftl_mul_pow2 by lia.
Qed.

Definition table_ok (t : Z) : Prop := 0 <= t /\ t + 4096 <= 2 ^ 52 /\ t mod 4096 = 0.

Lemma frame_table e : table_ok (e mod 2 ^ 52 / 2 ^ 12 * 2 ^ 12).
Proof. unfold table_ok. change (2 ^ 12) with 4096. pose proof (Z.mod_pos_bound e (2 ^ 52)). split; [dlia|]. split; [dlia|]. apply Z_mod_mult. Qed.

Lemma walk_level_load h s table va n k k' :
  ram_ok h s -> table_ok table -> 0 <= n -> (forall e, k e = Some (k' e)) ->
  walk_level h s table ((va .>> n) .& 0x1FF) k
  = Some (e ← phys_load h (table + 8 * (va / 2 ^ n mod 512)); if negb (Z.testbit e 0) then None else k' e).
Proof.
  intros Hok (Ht & Ht2 & Ht3) Hn Hk. unfold walk_level, phys_load. change 0x1FF with (Z.ones 9).
  rewrite Z.land_ones, Z.shiftr_div_pow2 by lia. change (2 ^ 9) with 512. set (i := va / 2 ^ n mod 512).
  assert (Hi : 0 <= i < 512) by (apply Z.mod_pos_bound; lia). rewrite (Z.mul_comm i), (wrap_small 64) by (unfold in_width; lia).
  rewrite GpaToHost_ram by (done || lia). destruct (GpaToHva (hm_map h) (table + 8 * i)) as [p|] eqn:E; [|done]. cbn [mbind option_bind].
  destruct (entry_in_ram h s (table + 8 * i) p Hok ltac:(lia) ltac:(dlia) E) as [e He]. rewrite He. cbn [mbind option_bind].
  change 1 with (1 .<< 0) at 1. rewrite has_bit by lia. destruct (Z.testbit e 0); [apply Hk|done].
Qed.

(** The last levels, from the bottom. *)
Lemma walk_pt h s table rip :
  ram_ok h s -> table_ok table ->
  walk_level h s table ((rip .>> 12) .& 0x1FF) (fun pte => Some (Some ((pte .& 0x000FFFFFFFFFF000) .| (rip .& 0xFFF))))
  = Some (translate 0 h table rip).
Proof.
  intros Hok Ht. rewrite (walk_level_load _ _ _ _ 12 _ (fun pte => Some (pte mod 2 ^ 52 / 2 ^ 12 * 2 ^ 12 + rip mod 2 ^ 12)) Hok Ht); [reflexivity|lia|].
  intros pte. f_equal. f_equal. apply (frame_offset 12). lia.
Qed.

Lemma walk_pd h s table rip :
  ram_ok h s -> table_ok table ->
  walk_level h s table ((rip .>> 21) .& 0x1FF) (fun pde =>
    if has pde 0x80 then Some (Some ((pde .& 0x000FFFFFFFE00000) .| (rip .& 0x1FFFFF)))
    else walk_level h s (pde .& 0x000FFFFFFFFFF000) ((rip .>> 12) .& 0x1FF) (fun pte =>
      Some (Some ((pte .& 0x000FFFFFFFFFF000) .| (rip .& 0xFFF)))))
  = Some (translate 1 h table rip).
Proof.
  intros Hok Ht. rewrite (walk_level_load _ _ _ _ 21 _ (fun pde => if Z.testbit pde 7
    then Some (pde mod 2 ^ 52 / 2 ^ 21 * 2 ^ 21 + rip mod 2 ^ 21) else translate 0 h (pde mod 2 ^ 52 / 2 ^ 12 * 2 ^ 12) rip) Hok Ht); [reflexivity|lia|].
  intros pde. change 0x80 with (1 .<< 7). rewrite (has_bit pde 7) by lia. destruct (Z.testbit pde 7); [f_equal; f_equal; apply (frame_offset 21); lia|].
  change (pde .& 0x000FFFFFFFFFF000) with (pde .& (Z.ones (52 - 12) .<< 12)). rewrite (frame_bits 12 pde) by lia. apply walk_pt; [done|apply frame_table].
Qed.

Lemma walk_pdpt h s table rip :
  ram_ok h s -> table_ok table ->
  walk_level h s table ((rip .>> 30) .& 0x1FF) (fun pdpte =>
    if has pdpte 0x80 then Some (Some ((pdpte .& 0x000FFFFFC0000000) .| (rip .& 0x3FFFFFFF)))
    else walk_level h s (pdpte .& 0x000FFFFFFFFFF000) ((rip .>> 21) .& 0x1FF) (fun pde =>
      if has pde 0x80 then Some (Some ((pde .& 0x000FFFFFFFE00000) .| (rip .& 0x1FFFFF)))
      else walk_level h s (pde .& 0x000FFFFFFFFFF000) ((rip .>> 12) .& 0x1FF) (fun pte =>
        Some (Some ((pte .& 0x000FFFFFFFFFF000) .| (rip .& 0xFFF))))))
  = Some (translate 2 h table rip).
Proof.
  intros Hok Ht. rewrite (walk_level_load _ _ _ _ 30 _ (fun pdpte => if Z.testbit pdpte 7
    then Some (pdpte mod 2 ^ 52 / 2 ^ 30 * 2 ^ 30 + rip mod 2 ^ 30) else translate 1 h (pdpte mod 2 ^ 52 / 2 ^ 12 * 2 ^ 12) rip) Hok Ht);
    [reflexivity|lia|].
  intros pdpte. change 0x80 with (1 .<< 7). rewrite (has_bit pdpte 7) by lia. destruct (Z.testbit pdpte 7); [f_equal; f_equal; apply (frame_offset 30); lia|].
  change (pdpte .& 0x000FFFFFFFFFF000) with (pdpte .& (Z.ones (52 - 12) .<< 12)). rewrite (frame_bits 12 pdpte) by lia. apply walk_pd; [done|apply frame_table].
Qed.

(** The back end finds the guest's code: with paging on, for a CR3 that holds
    no more than a table address and with its tables anywhere in memory, the
    address it reads the instruction from is the one 4-level paging gives for
    RIP, with pages of 4 KiB, 2 MiB and 1 GiB; there is none exactly when an
    entry on the way is not present or its table is not in RAM; and the walk
    reads only RAM. *)
Theorem rip_walk_translates h s rip :
  ram_ok h s -> in_width 52 (vmcs s VMCS_GUEST_CR3) ->
  rip_walk h s rip = Some (translate 3 h (vmcs s VMCS_GUEST_CR3 / 4096 * 4096) rip).
Proof.
  intros Hok Hcr. unfold rip_walk, in_width in *. set (cr3 := vmcs s VMCS_GUEST_CR3) in *.
  assert (Hcr3 : cr3 .& bnot 64 0xFFF = cr3 / 4096 * 4096).
  { change 0xFFF with (4096 - 1). fold (AlignDown cr3 4096). change 4096 with (2 ^ 12). apply AlignDown_div; [lia|unfold in_width; lia]. }
  rewrite Hcr3. assert (Ht : table_ok (cr3 / 4096 * 4096)) by (unfold table_ok; split; [dlia|]; split; [dlia|apply Z_mod_mult]).
  rewrite (walk_level_load _ _ _ _ 39 _ (fun e => translate 2 h (e mod 2 ^ 52 / 2 ^ 12 * 2 ^ 12) rip) Hok Ht); [reflexivity|lia|].
  intros pml4e. change (pml4e .& 0x000FFFFFFFFFF000) with (pml4e .& (Z.ones (52 - 12) .<< 12)). rewrite (frame_bits 12 pml4e) by lia. apply walk_pdpt; [done|apply frame_table].
Qed.

(** ** The processor's side *)

Definition bits_of (s : OpSize) : Z := match s with S8 => 8 | S16 => 16 | S32 => 32 | S64 => 64 end.

(** A register written at an operand size: 32 bits clear the upper half,
    smaller ones leave the rest alone. *)
Definition reg_write (s : OpSize) (r v : Z) (rg : Z -> Z) : Z -> Z :=
  upd r (match s with S32 | S64 => v | _ => rg r / 2 ^ bits_of s * 2 ^ bits_of s + v end) rg.

Definition sext (w v : Z) : Z := if v <? 2 ^ (w - 1) then v else v + (2 ^ 64 - 2 ^ w).
Definition alu_fun (o : AluOp) : Z -> Z -> Z := match o with OpOr => Z.lor | OpAnd => Z.land | OpXor => Z.lxor end.

Section Semantics.
Context {D : Type} `{Device D} (a : AddressSpace).

Definition bus_read (w gpa : Z) (ds : list D) : option (list D * Z) :=
  '(ds, v, _) ← HandleMmioRead a ds gpa (w / 8); Some (ds, v mod 2 ^ w).
Definition bus_write (w gpa v : Z) (ds : list D) : option (list D) := '(ds, _) ← HandleMmioWrite a ds gpa (w / 8) v; Some ds.

(** What an instruction with its memory operand in the device at [gpa] does
    to general registers and devices, by the Intel manual, volume 2. *)
Definition x86_mmio (i : Insn) (gpa : Z) (rg : Z -> Z) (ds : list D) : option ((Z -> Z) * list D) :=
  let s := insn_size i in
  let w := bits_of s in
  let modify f v := '(ds, old) ← bus_read w gpa ds; ds ← bus_write w gpa (f old (v mod 2 ^ w)) ds; Some (rg, ds) in
  match i with
  | MovLoad _ r => '(ds, v) ← bus_read w gpa ds; Some (reg_write s r v rg, ds)
  | MovStore _ r => ds ← bus_write w gpa (rg r mod 2 ^ w) ds; Some (rg, ds)
  | MovImm _ imm => ds ← bus_write w gpa (match s with S64 => sext 32 imm | _ => imm end) ds; Some (rg, ds)
  | Movzx src16 _ r => '(ds, v) ← bus_read (if src16 then 16 else 8) gpa ds; Some (reg_write s r v rg, ds)
  | Movsx src16 _ r =>
      let sw := if src16 then 16 else 8 in
      '(ds, v) ← bus_read sw gpa ds; Some (reg_write s r (sext sw v mod 2 ^ w) rg, ds)
  | Alu o _ r => modify (alu_fun o) (rg r)
  | AluImm o _ imm => modify (alu_fun o) (match s with S64 => sext 32 imm | _ => imm end)
  | AluImm8 o _ imm => modify (alu_fun o) (sext 8 imm)
  | CmpImm _ _ | CmpImm8 _ _ | TestReg _ _ | TestImm _ _ => '(ds, _) ← bus_read w gpa ds; Some (rg, ds)
  | Cmpxchg _ r =>
      '(ds, old) ← bus_read w gpa ds;
      if rg 0 mod 2 ^ w =? old then ds ← bus_write w gpa (rg r mod 2 ^ w) ds; Some (rg, ds)
      else ds ← bus_write w gpa old ds; Some (reg_write s 0 old rg, ds)
  end.

(** The instructions that are emulated as they are. *)
Definition faithful (i : Insn) : bool :=
  match i with
  | MovLoad s _ => match s with S32 => true | _ => false end
  | MovStore s _ | MovImm s _ | Alu _ s _ | AluImm _ s _ | AluImm8 _ s _ => negb (is64 s)
  | Movzx _ s _ => match s with S32 | S64 => true | _ => false end
  | Movsx _ s _ => is64 s
  | _ => false
  end.

Lemma Mask_mod w v : w = 8 \/ w = 16 \/ w = 32 -> u64 v .& Mask (w / 8) = v mod 2 ^ w.
Proof.
  intros Hw. assert (E : Mask (w / 8) = Z.ones w) by (destruct Hw as [->|[->| ->]]; reflexivity). rewrite E.
  rewrite Z.land_ones by lia. unfold wrap. replace (2 ^ 64) with (2 ^ w * 2 ^ (64 - w)) by (rewrite <- Z.pow_add_r by lia; f_equal; lia).
  rewrite Z.rem_mul_r by (try apply Z.pow_nonzero; try apply Z.pow_pos_nonneg; lia).
  rewrite Z.mul_comm, Z_mod_plus_full. apply Zmod_mod.
Qed.

Lemma Mask_width w v : w = 8 \/ w = 16 \/ w = 32 -> in_width 64 v -> v .& Mask (w / 8) = v mod 2 ^ w.
Proof. intros Hw Hv. rewrite <- (Mask_mod w v Hw). by rewrite wrap_small. Qed.

Lemma alu_mask o x y m : alu_fun o x y .& m = alu_fun o (x .& m) (y .& m).
Proof.
  destruct o; cbn [alu_fun]; apply Z.bits_inj'; intros i Hi; rewrite ?Z.land_spec, ?Z.lor_spec, ?Z.lxor_spec, ?Z.land_spec; btauto.
Qed.

Lemma mmio_size_bits s : s <> S64 -> mmio_size s = bits_of s / 8 /\ (bits_of s = 8 \/ bits_of s = 16 \/ bits_of s = 32).
Proof. intros Hs. destruct s; try done; cbn; tauto. Qed.

Lemma mmio_read_bus w gpa ds :
  w = 8 \/ w = 16 \/ w = 32 ->
  forall ds' v, bus_read w gpa ds = Some (ds', v) ->
  exists v', mmio_read a true gpa (w / 8) ds = Some (ds', v') /\ v' .& Mask (w / 8) = v.
Proof.
  intros Hw ds' v Hb. unfold bus_read, mmio_read in *. apply bind_Some in Hb as ([[ds1 v1] b] & -> & [= <- <-]).
  cbn [mbind option_bind]. eexists. split; [reflexivity|]. by apply Mask_mod.
Qed.

Lemma mmio_write_bus w gpa v ds : mmio_write a true gpa (w / 8) v ds = bus_write w gpa v ds.
Proof. done. Qed.

(** Read, modify, write. *)
Lemma rmw_bus o s gpa d v (ds : list D) (rg : Z -> Z) ds' st :
  s <> S64 -> d_size d = mmio_size s -> (if d_has_imm d then d_imm_value d else regs st (d_reg d)) .& Mask (mmio_size s) = v mod 2 ^ bits_of s ->
  ('(ds, old) ← bus_read (bits_of s) gpa ds; ds ← bus_write (bits_of s) gpa (alu_fun o old (v mod 2 ^ bits_of s)) ds; Some (rg, ds)) = Some (rg, ds') ->
  rmw a true gpa (alu_fun o) d st ds = Some (st, ds').
Proof.
  intros Hs Hsz Hop Hr. destruct (mmio_size_bits s Hs) as [Hm Hw]. apply bind_Some in Hr as ([ds1 old] & Hrd & Hr).
  apply bind_Some in Hr as (ds2 & Hwr & [= ->]). destruct (mmio_read_bus _ _ _ Hw _ _ Hrd) as (v' & Hrd' & Hv').
  unfold rmw. rewrite Hm in Hop. rewrite Hsz, Hm, Hrd'. cbn [mbind option_bind]. rewrite alu_mask, Hv', Hop, mmio_write_bus, Hwr. done.
Qed.

Lemma sext_code w v : w = 8 \/ w = 16 -> 0 <= v < 2 ^ w ->
  (if has v (1 .<< (w / 8 * 8 - 1)) then v .| bnot 64 (Mask (w / 8)) else v) = sext w v.
Proof.
  intros Hw Hv. assert (E : w / 8 * 8 - 1 = w - 1) by (destruct Hw as [-> | ->]; reflexivity). rewrite E, has_bit by lia. unfold sext.
  assert (Ht : Z.testbit v (w - 1) = negb (v <? 2 ^ (w - 1))).
  { replace v with ((v / 2 ^ (w - 1)) * 2 ^ (w - 1) + v mod 2 ^ (w - 1)) at 1 by (rewrite Z.mul_comm; symmetry; apply Z.div_mod; apply Z.pow_nonzero; lia).
    assert (Hp : 0 < 2 ^ (w - 1)) by (apply Z.pow_pos_nonneg; lia). assert (Hq : 2 ^ w = 2 * 2 ^ (w - 1)) by (rewrite <- Z.pow_succ_r by lia; f_equal; lia).
    rewrite <- lor_shiftl_add by (try lia; apply Z.mod_pos_bound; lia). rewrite Z.lor_spec, Z.shiftl_spec, Z.sub_diag by lia.
    rewrite (testbit_high (w - 1) (v mod 2 ^ (w - 1))), orb_false_r by (try lia; apply Z.mod_pos_bound; lia).
    destruct (Z.ltb_spec v (2 ^ (w - 1))); [by rewrite Z.div_small by lia|].
    replace (v / 2 ^ (w - 1)) with 1; [done|]. apply (Z.div_unique_pos v (2 ^ (w - 1)) 1 (v - 2 ^ (w - 1))); lia. }
  rewrite Ht. destruct (Z.ltb_spec v (2 ^ (w - 1))); cbn [negb]; [done|].
  assert (Em : Mask (w / 8) = 2 ^ w - 1) by (destruct Hw as [-> | ->]; reflexivity).
  rewrite Em, bnot_align by lia. rewrite Z.lor_comm, lor_shiftl_add by (done || lia). rewrite Z.ones_equiv, <- Z.sub_1_r.
  assert (2 ^ (64 - w) * 2 ^ w = 2 ^ 64) by (rewrite <- Z.pow_add_r by lia; f_equal; lia). lia.
Qed.
Lemma upd_GPR r v (f : hv_x86_reg_t -> Z) n : upd (GPR r) v f (GPR n) = upd r v (fun n => f (GPR n)) n.
Proof. unfold upd. do 2 case_decide; congruence. Qed.

(** The state behind an emulation: at most one register is written. *)
Definition gprs_to (st st' : HvfVCpu) (rg : Z -> Z) : Prop :=
  (forall n, regs st' (GPR n) = rg n) /\ (forall r, (forall n, r <> GPR n) -> regs st' r = regs st r) /\ vmcs st' = vmcs st.

Lemma gprs_same st : gprs_to st st (fun n => regs st (GPR n)).
Proof. done. Qed.
Lemma gprs_set st r v : gprs_to st (set_reg (GPR r) v st) (upd r v (fun n => regs st (GPR n))).
Proof. split; [intros n; apply upd_GPR|]. split; [|done]. intros x Hx. by apply upd_other. Qed.

(** [emulated]: the emulation does what [x86_mmio] says. *)
Definition emulated (gpa : Z) (d : MmioDecodeResult) (st : HvfVCpu) (ds : list D) (rg : Z -> Z) (ds' : list D) : Prop :=
  exists st' rg', emulate a true gpa d st ds = Some (st', ds') /\ gprs_to st st' rg' /\ rg = rg'.

Lemma emulate_store d s gpa v st ds rg ds' :
  s <> S64 -> v .& Mask (mmio_size s) = v mod 2 ^ bits_of s ->
  emulate a true gpa d st ds = (ds ← mmio_write a true gpa (mmio_size s) (v .& Mask (mmio_size s)) ds; Some (st, ds)) ->
  (ds ← bus_write (bits_of s) gpa (v mod 2 ^ bits_of s) ds; Some (fun n => regs st (GPR n), ds)) = Some (rg, ds') ->
  emulated gpa d st ds rg ds'.
Proof.
  intros Hs Hm He Hx. destruct (mmio_size_bits s Hs) as [Hsz Hw]. apply bind_Some in Hx as (ds1 & Hx & [= <- <-]).
  exists st, (fun n => regs st (GPR n)). split; [|split; [apply gprs_same|done]]. by rewrite He, Hm, Hsz, mmio_write_bus, Hx.
Qed.

Lemma emulate_alu d o s gpa v st ds rg ds' :
  s <> S64 -> d_size d = mmio_size s -> (if d_has_imm d then d_imm_value d else regs st (d_reg d)) = v -> in_width 64 v ->
  emulate a true gpa d st ds = rmw a true gpa (alu_fun o) d st ds ->
  ('(ds, old) ← bus_read (bits_of s) gpa ds; ds ← bus_write (bits_of s) gpa (alu_fun o old (v mod 2 ^ bits_of s)) ds;
   Some (fun n => regs st (GPR n), ds)) = Some (rg, ds') ->
  emulated gpa d st ds rg ds'.
Proof.
  intros Hs Hsz Hop Hv He Hx. destruct (mmio_size_bits s Hs) as [Hm Hw]. unfold emulated. rewrite He.
  assert (E : rg = (fun n => regs st (GPR n))).
  { apply bind_Some in Hx as ([? ?] & _ & Hx'). by apply bind_Some in Hx' as (? & _ & [= <- _]). }
  subst rg. exists st, (fun n => regs st (GPR n)). split; [|split; [apply gprs_same|done]].
  apply (rmw_bus o s gpa _ v ds (fun n => regs st (GPR n))); try done. rewrite Hop, Hm. by apply Mask_width.
Qed.

Lemma emulate_load d w r f gpa st ds (rg : Z -> Z) ds' :
  w = 8 \/ w = 16 \/ w = 32 ->
  emulate a true gpa d st ds = ('(ds, v) ← mmio_read a true gpa (w / 8) ds; Some (set_reg (GPR r) (f (v .& Mask (w / 8))) st, ds)) ->
  ('(ds, v) ← bus_read w gpa ds; Some (upd r (f v) (fun n => regs st (GPR n)), ds)) = Some (rg, ds') ->
  emulated gpa d st ds rg ds'.
Proof.
  intros Hw He Hx. apply bind_Some in Hx as ([ds1 v] & Hb & [= <- <-]). destruct (mmio_read_bus w _ _ Hw _ _ Hb) as (v' & Hm & Hv).
  unfold emulated. rewrite He, Hm. cbn [mbind option_bind]. rewrite Hv. do 2 eexists. split; [done|]. split; [apply gprs_set|done].
Qed.

Lemma mod_width w v : in_width w v -> v mod 2 ^ w = v.
Proof. intros Hv. by apply Z.mod_small. Qed.

Lemma sext8_sext imm : sext8 imm = sext 8 imm.
Proof. done. Qed.

Lemma sext8_width imm : in_width 8 imm -> in_width 64 (sext8 imm).
Proof. unfold in_width, sext8. intros. destruct (Z.ltb_spec imm 128); lia. Qed.

Lemma imm_ok_width s imm : imm_ok s imm -> s <> S64 -> in_width (bits_of s) imm /\ in_width 64 imm.
Proof. intros Hi Hs. assert (H0 : in_width (bits_of s) imm) by (by destruct s). split; [done|]. eapply in_width_le, H0. destruct s; cbn; lia. Qed.

Lemma bus_read_width w gpa ds ds' v : 0 <= w -> bus_read w gpa ds = Some (ds', v) -> in_width w v.
Proof.
  intros Hw Hb. unfold bus_read in Hb. apply bind_Some in Hb as ([[ds2 v2] b] & _ & [= _ <-]).
  apply Z.mod_pos_bound. by apply Z.pow_pos_nonneg.
Qed.

Lemma sext_width w v : w = 8 \/ w = 16 -> in_width w v -> in_width 64 (sext w v).
Proof. unfold in_width, sext. intros [-> | ->] Hv; cbn in *; match goal with |- context [?x <? ?y] => destruct (Z.ltb_spec x y) end; lia. Qed.

Lemma emulate_refines i len gpa st ds rg ds' :
  faithful i = true -> insn_ok i -> (forall n, in_width 64 (regs st (GPR n))) ->
  x86_mmio i gpa (fun n => regs st (GPR n)) ds = Some (rg, ds') ->
  emulated gpa (expected i len) st ds rg ds'.
Proof.
  intros Hf [_ Hok] Hr Hx. destruct i as [s r|s r|s imm|src s r|src s r|o s r|o s imm|o s imm|s imm|s imm|s r|s imm|s r]; try done; cbn in Hf;
    try assert (Hs : s <> S64) by (by destruct s); try destruct (mmio_size_bits s Hs) as [Hsz Hw].
  - destruct s; try done. by apply (emulate_load _ 32 r (fun v => v)); [tauto| |].
  - apply (emulate_store _ s _ (regs st (GPR r))); try done. rewrite Hsz. by apply Mask_width.
  - destruct (imm_ok_width s imm Hok Hs) as [Hi1 Hi2]. apply (emulate_store _ s _ imm); try done.
    + rewrite Hsz. by apply Mask_width.
    + rewrite mod_width by done. by destruct s.
  - apply (emulate_load _ (if src then 16 else 8) r (fun v => v)); [destruct src; tauto|by destruct src|by destruct s].
  - destruct s; try done. apply (emulate_load _ (if src then 16 else 8) r (fun v => if has v (1 .<< ((if src then 2 else 1) * 8 - 1)) then v .| bnot 64 (Mask (if src then 2 else 1)) else v));
      [destruct src; tauto|by destruct src|].
    cbn [x86_mmio insn_size reg_write bits_of] in Hx. destruct src; (apply bind_Some in Hx as ([ds1 v] & Hb & Hx); rewrite Hb; cbn [mbind option_bind];
      apply bus_read_width in Hb; [|lia]; rewrite <- Hx).
    + pose proof (sext_code 16 v ltac:(tauto) Hb) as E. change (16 / 8) with 2 in E. by rewrite E, (mod_width 64) by (apply sext_width; tauto).
    + pose proof (sext_code 8 v ltac:(tauto) Hb) as E. change (8 / 8) with 1 in E. by rewrite E, (mod_width 64) by (apply sext_width; tauto).
  - apply (emulate_alu _ o s _ (regs st (GPR r))); try done. by destruct o.
  - destruct (imm_ok_width s imm Hok Hs) as [Hi1 Hi2]. apply (emulate_alu _ o s _ imm); try done; [by destruct o|by destruct s].
  - destruct Hok as [_ Hi]. apply (emulate_alu _ o s _ (sext8 imm)); try done; [by apply sext8_width|by destruct o].
Qed.
(** Device memory is accessed by the instruction at RIP. *)
Record at_device (st : HvfVCpu) (h : HostMem) (code : bytes) : Prop := {
  ad_mmio : IsMmioAddress a (vmcs st VMCS_GUEST_PHYSICAL_ADDRESS) = true;
  ad_paging : has (vmcs st VMCS_CTRL_CR0_SHADOW) CR0_PG = true;
  ad_ram : ram_ok h st;
  ad_cr3 : in_width 52 (vmcs st VMCS_GUEST_CR3);
  ad_code : exists g hva, translate 3 h (vmcs st VMCS_GUEST_CR3 / 4096 * 4096) (regs st HV_X86_RIP) = Some g
    /\ GpaToHva (hm_map h) g = Some hva /\ hm_read h hva (Z.of_nat (length code)) = Some code;
  ad_regs : forall n, in_width 64 (regs st (GPR n))
}.

Lemma code_reads h hva l : hm_read h hva (Z.of_nat (length l)) = Some l -> reads (code_at h hva) 0 l.
Proof.
  intros Hr k b Hk. unfold code_at, hm_load. apply lookup_lt_Some in Hk as Hlt. unfold hm_read in *. cbn [Nat.add].
  destruct ((0 <=? hva) && (hva + Z.of_nat (length l) <=? alloc_size (hm_map h))) eqn:E; [|done]. bool_hyps. injection Hr as Hr.
  rewrite (proj2 (Z.leb_le 0 _)), (proj2 (Z.leb_le _ (alloc_size _))) by lia. cbn [andb fmap option_fmap option_map].
  rewrite <- Hr, lookup_peek in Hk by lia. injection Hk as Hk. unfold peek. change (seqZ ?x (Z.of_nat 1)) with [Z.of_nat 0 + x].
  cbn [fmap list_fmap le_val]. rewrite Z.add_0_l, Hk. f_equal. lia.
Qed.

Lemma decode_at_device st h pfx rex i ea :
  at_device st h (encode pfx rex i ea) -> encoding_ok pfx rex i ea ->
  exists g, rip_to_gpa h st = Some g
    /\ decode_at h st g = Some (Some (expected i (length (encode pfx rex i ea)))).
Proof.
  intros [_ Hpg Hram Hcr (g & hva & Hg & Hh & Hr) _] Hok. exists (Some g). unfold rip_to_gpa, decode_at.
  rewrite Hpg, rip_walk_translates, Hg by done. split; [done|]. unfold GpaToHost. rewrite Hh. by apply decode_insn, code_reads.
Qed.

End Semantics.

(** ** An example

    RAM of 16 KiB holds the tables at 0x1000, 0x2000 and 0x3000, which map
    the 2 MiB from 0x200000 to address 0, and [mov %ecx, (%rbx)] at 0x3F00;
    the device is the I/O APIC. *)
Definition ex_mem : HostMem :=
  MkHostMem (MkGuestMemMap 0x4000 0 0x4000 0 0)
    (poke (poke (poke (poke ∅ 0x1000 (le_bytes 8 0x2003)) 0x2000 (le_bytes 8 0x3003)) 0x3008 (le_bytes 8 0x83)) 0x3F00 [0x89; 0x0B]).
Definition ex_vcpu : HvfVCpu :=
  mkVCpu (fun r => match r with HV_X86_RCX => 2 ^ 40 + 0x12 | HV_X86_RIP => 0x203F00 | _ => 0 end)
    (fun f => match f with VMCS_CTRL_CR0_SHADOW => 0x80000011 | VMCS_GUEST_CR3 => 0x1000 | VMCS_GUEST_PHYSICAL_ADDRESS => 0xFEC00000 | _ => 0 end)
    0 0x4000 0 0 false 0 0 0 [] false.
Definition ex_space : AddressSpace := AddMmioDevice (MkAddressSpace [] []) 0xFEC00000 0x1000 (Some 0%nat).

Lemma ex_ram : ram_ok ex_mem ex_vcpu.
Proof. split; vm_compute; repeat split; discriminate. Qed.

Lemma rip_walk_translates_witness : rip_walk ex_mem ex_vcpu 0x203F00 = Some (Some 0x3F00).
Proof. rewrite (rip_walk_translates _ _ _ ex_ram) by (vm_compute; split; discriminate || reflexivity). vm_compute. reflexivity. Defined.


(** ** What it gets wrong *)

(** A device whose registers all read as [n]. *)
Definition constant_device : Device Z :=
  {| PioRead d _ _ := (d, d); PioWrite d _ _ _ := d; MmioRead d _ _ := (d, d); MmioWrite d _ _ _ := d |}.
#[local] Existing Instance constant_device.

Definition reg_behind {D} (r : hv_x86_reg_t) (x : option (HvfVCpu * list D)) : option Z := (fun x => regs x.1 r) <$> x.
Definition arch_reg {D} (n : Z) (x : option ((Z -> Z) * list D)) : option Z := (fun x => x.1 n) <$> x.
Definition by_emulation (i : Insn) (r n : Z) : option Z :=
  reg_behind (GPR r) (emulate ex_space true 0xFEC00000 (expected i 2) ex_vcpu [n]).
Definition by_manual (i : Insn) (r n : Z) : option Z :=
  arch_reg r (x86_mmio ex_space i 0xFEC00000 (fun n => regs ex_vcpu (GPR n)) [n]).

(** Loads of 8 and 16 bits clear the rest of the register. *)
Lemma small_load_clears : by_emulation (MovLoad S8 1) 1 0xFF = Some 0xFF /\ by_manual (MovLoad S8 1) 1 0xFF = Some (2 ^ 40 + 0xFF).
Proof. by split. Qed.

(** A sign extension to 32 bits sets the upper half of the register. *)
Lemma movsx32_sets_high : by_emulation (Movsx false S32 1) 1 0x80 = Some (2 ^ 64 - 0x80) /\ by_manual (Movsx false S32 1) 1 0x80 = Some 0xFFFFFF80.
Proof. by split. Qed.

(** A load of 64 bits is one of 32. *)
Lemma qword_load_half : by_emulation (MovLoad S64 1) 1 (2 ^ 40 + 5) = Some 5 /\ by_manual (MovLoad S64 1) 1 (2 ^ 40 + 5) = Some (2 ^ 40 + 5).
Proof. by split. Qed.

(** A comparison that fails leaves the upper half of RAX. *)
Lemma cmpxchg_keeps_high :
  let st := set_reg HV_X86_RAX (2 ^ 32 + 7) ex_vcpu in
  reg_behind HV_X86_RAX (emulate ex_space true 0xFEC00000 (expected (Cmpxchg S32 1) 3) st [5]) = Some (2 ^ 32 + 5)
  /\ arch_reg 0 (x86_mmio ex_space (Cmpxchg S32 1) 0xFEC00000 (fun n => regs st (GPR n)) [5]) = Some 5.
Proof. by split. Qed.

(** TEST and CMP neither read the device nor set a flag. *)
Lemma test_does_nothing is_mmio gpa d s ds :
  d_op d = kTest -> emulate ex_space (D := Z) is_mmio gpa d s ds = Some (s, ds).
Proof. intros H. unfold emulate. by rewrite H. Qed.

(** INS and OUTS are skipped. *)
Lemma string_io_skipped {D} `{Device D} a q s (ds : list D) :
  has (q .>> 4) 1 = true -> HandleIo a q s ds = Some (kContinue, AdvanceRip s, ds).
Proof. intros H1. unfold HandleIo. by rewrite H1. Qed.
