(* ===== verification/HvfCtl.v ===== *)
(** * The macOS x86 vCPU: control exits, interrupts and the run loop

    Models the rest of platform/macos/hypervisor/x86_64/hvf_vcpu.cpp: the
    state a vCPU is created, booted and started with, CPUID, MSRs with
    kvmclock, control registers, interrupt injection and [RunOnce], and
    [HvfVm::RequestInterrupt] of hvf_vm.cpp.

    Hypervisor.framework is a parameter: its capabilities, the MSRs it keeps
    ([M], with [hv_read_msr] and [hv_write_msr]) and the run of the guest; so
    are the host's [cpuid] and clocks.  The masks of the VMX controls are the
    architecture's.  Memory is the guest's through [guest_mem_], which is
    always set.  Exit statistics and logging are left out.

    [irqs_injected]: injection is first in first out, each interrupt once,
    and a window is open exactly while some wait.  [entry_state_kept]:
    what the guest does keeps EFER and the VM-entry controls together.
    [kvmclock_accuracy]: the clock the guest computes.  [vcpu_typed_kept]: every
    register stays in 64 bits.  [run_once_errors]: which exits are errors. *)

From S2P Require Import Prelude.
From S2P Require Import StdString.
From S2P Require Import GuestMem.
From S2P Require Import AddrSpace.
From S2P Require Import X86Boot.
From S2P Require Import HvfDecode.
From S2P Require Import HvfVcpu.

(** ** Bits *)

Definition CR0_NE : Z := 1 .<< 5.
Definition CR0_NW : Z := 1 .<< 29.
Definition CR0_CD : Z := 1 .<< 30.
Definition CR4_VMXE : Z := 1 .<< 13.
Definition EFER_LME : Z := 1 .<< 8.
Definition EFER_LMA : Z := 1 .<< 10.
Definition cr0_ones_mask : Z := CR0_NE.
Definition cr0_zeros_mask : Z := CR0_NW .| CR0_CD.
Definition cr4_ones_mask : Z := CR4_VMXE.
Definition FixCr0 (cr0 : Z) : Z := (cr0 .| cr0_ones_mask) .& bnot 64 cr0_zeros_mask.
Definition Cap2Ctrl (cap ctrl : Z) : Z := (ctrl .| (cap .& 0xFFFFFFFF)) .& (cap .>> 32).

Definition PIN_BASED_INTR : Z := 1 .<< 0.
Definition PIN_BASED_NMI : Z := 1 .<< 3.
Definition PIN_BASED_VIRTUAL_NMI : Z := 1 .<< 5.
Definition CPU_BASED_IRQ_WND : Z := 1 .<< 2.
Definition CPU_BASED_HLT : Z := 1 .<< 7.
Definition CPU_BASED_CR8_LOAD : Z := 1 .<< 19.
Definition CPU_BASED_CR8_STORE : Z := 1 .<< 20.
Definition CPU_BASED_UNCOND_IO : Z := 1 .<< 24.
Definition CPU_BASED_MSR_BITMAPS : Z := 1 .<< 28.
Definition CPU_BASED_SECONDARY_CTLS : Z := 1 .<< 31.
Definition CPU_BASED2_UNRESTRICTED : Z := 1 .<< 7.
Definition VMENTRY_GUEST_IA32E : Z := 1 .<< 9.
Definition VMENTRY_LOAD_EFER : Z := 1 .<< 15.
Definition VMEXIT_HOST_IA32E : Z := 1 .<< 9.
Definition VMEXIT_ACK_INTR : Z := 1 .<< 15.
Definition VMEXIT_LOAD_EFER : Z := 1 .<< 21.
Definition IRQ_INFO_EXT_IRQ : Z := 0 .<< 8.
Definition IRQ_INFO_VALID : Z := 1 .<< 31.

(** ** Creation and boot *)

Definition write_vmcs (l : list (VmcsField * Z)) (s : HvfVCpu) : HvfVCpu := fold_left (fun s '(f, v) => set_vmcs f v s) l s.
Definition write_regs (l : list (hv_x86_reg_t * Z)) (s : HvfVCpu) : HvfVCpu := fold_left (fun s '(r, v) => set_reg r v s) l s.

(** The capability MSRs. *)
Record HvCaps := mkCaps { cap_pin : Z; cap_proc : Z; cap_proc2 : Z; cap_entry : Z; cap_exit : Z }.

Definition seg_fields (s : Seg) (sel base limit ar : Z) : list (VmcsField * Z) :=
  [(VMCS_GUEST s SegSel, sel); (VMCS_GUEST s SegBase, base); (VMCS_GUEST s SegLimit, limit); (VMCS_GUEST s SegAR, ar)].

Definition SetupVmcs (c : HvCaps) (s : HvfVCpu) : HvfVCpu :=
  let pin_ctrl := Cap2Ctrl (cap_pin c) (PIN_BASED_INTR .| PIN_BASED_NMI .| PIN_BASED_VIRTUAL_NMI) in
  let proc_ctrl := Cap2Ctrl (cap_proc c)
    (CPU_BASED_HLT .| CPU_BASED_UNCOND_IO .| CPU_BASED_MSR_BITMAPS .| CPU_BASED_SECONDARY_CTLS .| CPU_BASED_CR8_LOAD .| CPU_BASED_CR8_STORE) in
  let proc2_ctrl := Cap2Ctrl (cap_proc2 c) CPU_BASED2_UNRESTRICTED in
  let entry_ctrl := Cap2Ctrl (cap_entry c) VMENTRY_LOAD_EFER .& bnot 64 VMENTRY_GUEST_IA32E in
  let exit_ctrl := Cap2Ctrl (cap_exit c) (VMEXIT_HOST_IA32E .| VMEXIT_ACK_INTR .| VMEXIT_LOAD_EFER) in
  let cr0_mask := (cr0_ones_mask .| cr0_zeros_mask) .| CR0_PG .| CR0_PE in
  let s := write_vmcs (
    [(VMCS_CTRL_PIN_BASED, pin_ctrl); (VMCS_CTRL_CPU_BASED, proc_ctrl); (VMCS_CTRL_CPU_BASED2, proc2_ctrl);
     (VMCS_CTRL_VMENTRY_CONTROLS, entry_ctrl); (VMCS_CTRL_VMEXIT_CONTROLS, exit_ctrl); (VMCS_CTRL_EXC_BITMAP, 0);
     (VMCS_CTRL_CR0_MASK, cr0_mask); (VMCS_CTRL_CR0_SHADOW, 0x60000010); (VMCS_CTRL_CR4_MASK, cr4_ones_mask); (VMCS_CTRL_CR4_SHADOW, 0);
     (VMCS_CTRL_TPR_THRESHOLD, 0)]
    ++ seg_fields SegCS 0 0 0xFFFF 0x9B ++ seg_fields SegDS 0 0 0xFFFF 0x93 ++ seg_fields SegES 0 0 0xFFFF 0x93
    ++ seg_fields SegSS 0 0 0xFFFF 0x93 ++ seg_fields SegFS 0 0 0xFFFF 0x93 ++ seg_fields SegGS 0 0 0xFFFF 0x93
    ++ seg_fields SegLDTR 0 0 0 0x0082 ++ seg_fields SegTR 0 0 0 0x008B
    ++ [(VMCS_GUEST_GDTR_BASE, 0); (VMCS_GUEST_GDTR_LIMIT, 0); (VMCS_GUEST_IDTR_BASE, 0); (VMCS_GUEST_IDTR_LIMIT, 0);
        (VMCS_GUEST_CR0, FixCr0 0x60000010); (VMCS_GUEST_CR3, 0); (VMCS_GUEST_CR4, cr4_ones_mask); (VMCS_GUEST_IA32_EFER, 0)]) s in
  let s := write_regs [(HV_X86_RIP, 0); (HV_X86_RFLAGS, 0x2); (HV_X86_RSP, 0)] s in
  write_vmcs [(VMCS_GUEST_ACTIVITY_STATE, 0); (VMCS_GUEST_INTERRUPTIBILITY, 0); (VMCS_GUEST_LINK_POINTER, 2 ^ 64 - 1)] s.

(** [regs0] and [vmcs0] are what [hv_vcpu_create] leaves, [freq] the measured
    frequency. *)
Definition Create (created : bool) (index ram_size freq : Z) (regs0 : hv_x86_reg_t -> Z) (vmcs0 : VmcsField -> Z) (c : HvCaps)
    : option HvfVCpu :=
  let apic_base := 0xFEE00000 .| (1 .<< 11) .| (if index =? 0 then 1 .<< 8 else 0) in
  if negb created then None
  else Some (SetupVmcs c (mkVCpu regs0 vmcs0 index ram_size freq 0 false apic_base 0 0 [] false)).

Definition HV_X86_RBP := GPR 5.
Definition HV_X86_RDI := GPR 7.

Definition SetupBootRegisters (s : HvfVCpu) : HvfVCpu :=
  let SetDataSeg seg := seg_fields seg 0x18 0 0xFFFFFFFF 0xC093 in
  let s := write_vmcs (
    [(VMCS_GUEST_GDTR_BASE, kGdtBase); (VMCS_GUEST_GDTR_LIMIT, 0x1F)] ++ seg_fields SegCS 0x10 0 0xFFFFFFFF 0xC09B
    ++ SetDataSeg SegDS ++ SetDataSeg SegES ++ SetDataSeg SegSS ++ [(VMCS_GUEST_CR0, FixCr0 0x21); (VMCS_CTRL_CR0_SHADOW, 0x21)]) s in
  write_regs [(HV_X86_RIP, kKernelBase); (HV_X86_RSI, kBootParams); (HV_X86_RFLAGS, 0x2); (HV_X86_RAX, 0); (HV_X86_RBX, 0); (HV_X86_RCX, 0);
    (HV_X86_RDX, 0); (HV_X86_RDI, 0); (HV_X86_RBP, 0); (HV_X86_RSP, 0)] s.

Definition SetupSipiRegisters (sipi_vector : Z) (s : HvfVCpu) : HvfVCpu :=
  let cs_sel := u16 (sipi_vector .<< 8) in
  let cs_base := sipi_vector .<< 12 in
  let SetRealModeSeg seg := seg_fields seg 0 0 0xFFFF 0x93 in
  let s := write_vmcs (seg_fields SegCS cs_sel cs_base 0xFFFF 0x9B
    ++ SetRealModeSeg SegDS ++ SetRealModeSeg SegES ++ SetRealModeSeg SegSS ++ SetRealModeSeg SegFS ++ SetRealModeSeg SegGS
    ++ [(VMCS_GUEST_CR0, FixCr0 0x60000010); (VMCS_CTRL_CR0_SHADOW, 0x60000010); (VMCS_GUEST_CR3, 0); (VMCS_GUEST_CR4, cr4_ones_mask);
        (VMCS_CTRL_CR4_SHADOW, 0); (VMCS_GUEST_IA32_EFER, 0)]) s in
  let s := set_vmcs VMCS_CTRL_VMENTRY_CONTROLS (vmcs s VMCS_CTRL_VMENTRY_CONTROLS .& bnot 64 VMENTRY_GUEST_IA32E) s in
  let s := write_regs [(HV_X86_RIP, 0); (HV_X86_RFLAGS, 0x2); (HV_X86_RSP, 0); (HV_X86_RAX, 0); (HV_X86_RBX, 0); (HV_X86_RCX, 0);
    (HV_X86_RDX, 0); (HV_X86_RDI, 0); (HV_X86_RSI, 0); (HV_X86_RBP, 0)] s in
  write_vmcs [(VMCS_GUEST_ACTIVITY_STATE, 0); (VMCS_GUEST_INTERRUPTIBILITY, 0)] s.

(** ** CPUID *)

Record CpuId := mkCpuId { eax : Z; ebx : Z; ecx : Z; edx : Z }.

Definition clear_bits (l : list Z) (v : Z) : Z := fold_left (fun v n => v .& bnot 32 (1 .<< n)) l v.

(** The leaf as the guest sees it. *)
Definition guest_cpuid (host_cpuid : Z -> Z -> CpuId) (index leaf subleaf : Z) : CpuId :=
  let r :=
    if leaf =? 0x40000000 then mkCpuId 0x40000001 0x4b4d564b 0x564b4d56 0x0000004d
    else if leaf =? 0x40000001 then mkCpuId ((1 .<< 1) .| (1 .<< 3) .| (1 .<< 12) .| (1 .<< 24)) 0 0 (1 .<< 0)
    else host_cpuid leaf subleaf in
  let r := if leaf =? 1
           then mkCpuId (eax r) ((ebx r .& 0x00FFFFFF) .| u32 (index .<< 24)) (clear_bits [3; 5; 21; 24; 26; 27] (ecx r) .| (1 .<< 31)) (edx r)
           else r in
  let r := if leaf =? 6 then mkCpuId 0 0 0 0 else r in
  let r := if (leaf =? 7) && (subleaf =? 0) then mkCpuId (eax r) (clear_bits [10; 16] (ebx r)) (clear_bits [22] (ecx r)) (edx r) else r in
  let r := if leaf =? 0xB then mkCpuId (eax r) (ebx r) (ecx r) index else r in
  if leaf =? 0x80000001 then mkCpuId (eax r) (ebx r) (ecx r) (clear_bits [27] (edx r)) else r.

Definition HandleCpuid (host_cpuid : Z -> Z -> CpuId) (s : HvfVCpu) : VCpuExitAction * HvfVCpu :=
  let r := guest_cpuid host_cpuid (index_ s) (u32 (regs s HV_X86_RAX)) (u32 (regs s HV_X86_RCX)) in
  (kContinue, AdvanceRip (write_regs [(HV_X86_RAX, eax r); (HV_X86_RBX, ebx r); (HV_X86_RCX, ecx r); (HV_X86_RDX, edx r)] s)).

(** ** kvmclock *)

(** The loops of [ComputeKvmclockScale]; each runs at most 31 times. *)
Fixpoint scale_down (fuel : nat) (scaled_hz shift : Z) : Z * Z :=
  match fuel with
  | O => (scaled_hz, shift)
  | S fuel => if (1000000000 * 2 <? scaled_hz) && (-31 <? shift) then scale_down fuel (scaled_hz .>> 1) (shift - 1) else (scaled_hz, shift)
  end.
Fixpoint scale_up (fuel : nat) (scaled_hz shift : Z) : Z * Z :=
  match fuel with
  | O => (scaled_hz, shift)
  | S fuel => if (scaled_hz <? 1000000000 / 2) && (shift <? 31) then scale_up fuel (u64 (scaled_hz .<< 1)) (shift + 1) else (scaled_hz, shift)
  end.

(** The result is [(shift, mul)]. *)
Definition ComputeKvmclockScale (freq : Z) : Z * Z :=
  let freq := if freq =? 0 then 1 else freq in
  let '(scaled_hz, shift) := scale_down 63 freq 0 in
  let '(scaled_hz, shift) := scale_up 63 scaled_hz shift in
  let dividend := 1000000000 .<< 32 in
  let mul64 := u64 (dividend / scaled_hz) in
  (shift, if 0xFFFFFFFF <? mul64 then 0xFFFFFFFF else mul64).

(** What the host's clocks read. *)
Record HostTime := mkTime { tsc_now : Z; steady_ns : Z; wall_sec : Z; wall_nsec : Z }.

(** The stores of [UpdateKvmclock] in their order: offset, width, value; the
    layout is [pvclock_vcpu_time_info]. *)
Definition kvmclock_stores (t : HostTime) (freq version : Z) : list (Z * nat * Z) :=
  let ver := u32 (version + 1) .| 1 in
  let '(shift, mul) := ComputeKvmclockScale freq in
  [(0, 4%nat, ver); (8, 8%nat, tsc_now t); (16, 8%nat, steady_ns t); (24, 4%nat, mul); (28, 1%nat, u8 shift); (29, 1%nat, 1 .<< 0);
   (0, 4%nat, u32 (ver + 1))].

Fixpoint run_stores (l : list (Z * nat * Z)) (hva : Z) (h : HostMem) : option HostMem :=
  match l with
  | [] => Some h
  | (off, n, v) :: l => h ← hm_store n h (hva + off) v; run_stores l hva h
  end.

Definition UpdateKvmclock (t : HostTime) (gpa : Z) (s : HvfVCpu) (h : HostMem) : option HostMem :=
  match GpaToHva (hm_map h) gpa with
  | None => Some h
  | Some hva => version ← hm_load 4 h hva; run_stores (kvmclock_stores t (tsc_freq_ s) version) hva h
  end.

(** The stores of the wall clock. *)
Definition wall_clock_stores (t : HostTime) : list (Z * nat * Z) :=
  [(0, 4%nat, 1); (4, 4%nat, u32 (wall_sec t)); (8, 4%nat, u32 (wall_nsec t)); (0, 4%nat, 2)].

(** ** MSRs *)

Definition MSR_IA32_APIC_BASE : Z := 0x1B.
Definition MSR_IA32_EFER : Z := 0xC0000080.
Definition MSR_IA32_MISC_ENABLE : Z := 0x1A0.
Definition MSR_MCG_CAP : Z := 0x179.
Definition MSR_MCG_STATUS : Z := 0x17A.
Definition MSR_MTRRcap : Z := 0xFE.
Definition MSR_MTRRdefType : Z := 0x2FF.
Definition MSR_PAT : Z := 0x277.
Definition MSR_KVM_WALL_CLOCK_NEW : Z := 0x4b564d00.
Definition MSR_KVM_SYSTEM_TIME_NEW : Z := 0x4b564d01.
Definition MSR_KVM_POLL_CONTROL : Z := 0x4b564d05.

(** [IA-32e mode guest] follows EFER.LMA. *)
Definition set_ia32e (on : bool) (s : HvfVCpu) : HvfVCpu :=
  let entry_ctrl := vmcs s VMCS_CTRL_VMENTRY_CONTROLS in
  set_vmcs VMCS_CTRL_VMENTRY_CONTROLS (if on then entry_ctrl .| VMENTRY_GUEST_IA32E else entry_ctrl .& bnot 64 VMENTRY_GUEST_IA32E) s.

Section Msrs.
Context {M : Type} (hv_read_msr : Z -> M -> option Z) (hv_write_msr : Z -> Z -> M -> M).

Definition wrmsr (msr val : Z) (t : HostTime) (s : HvfVCpu) (m : M) (h : HostMem) : option (HvfVCpu * M * HostMem) :=
  if msr =? MSR_IA32_APIC_BASE then Some (set_apic_base ((val .& bnot 64 (1 .<< 10)) .| (1 .<< 11)) s, m, h)
  else if msr =? MSR_IA32_EFER then Some (set_ia32e (has val EFER_LMA) (set_vmcs VMCS_GUEST_IA32_EFER val s), m, h)
  else if msr =? MSR_KVM_WALL_CLOCK_NEW then
    match GpaToHva (hm_map h) val with
    | None => Some (s, m, h)
    | Some hva => h ← run_stores (wall_clock_stores t) hva h; Some (s, m, h)
    end
  else if msr =? MSR_KVM_SYSTEM_TIME_NEW then
    let gpa := val .& bnot 64 0x3 in
    if has val 1 then let s := set_kvmclock gpa true s in h ← UpdateKvmclock t gpa s h; Some (s, m, h)
    else Some (set_kvmclock (kvmclock_system_time_gpa_ s) false s, m, h)
  else if msr =? MSR_KVM_POLL_CONTROL then Some (s, m, h)
  else if (msr =? MSR_MCG_CAP) || (msr =? MSR_MCG_STATUS) then Some (s, m, h)
  else if msr =? MSR_MTRRcap then Some (s, m, h)
  else if ((0x200 <=? msr) && (msr <=? 0x2FF)) || (msr =? MSR_MTRRdefType) then Some (s, m, h)
  else if msr =? MSR_IA32_MISC_ENABLE then Some (s, m, h)
  else Some (s, hv_write_msr msr val m, h).

Definition rdmsr (msr : Z) (s : HvfVCpu) (m : M) : Z :=
  if msr =? MSR_IA32_APIC_BASE then apic_base_msr_ s
  else if msr =? MSR_IA32_EFER then vmcs s VMCS_GUEST_IA32_EFER
  else if (msr =? MSR_KVM_WALL_CLOCK_NEW) || (msr =? MSR_KVM_SYSTEM_TIME_NEW) then 0
  else if msr =? MSR_KVM_POLL_CONTROL then 1
  else if msr =? MSR_IA32_MISC_ENABLE then (1 .<< 0) .| (1 .<< 11) .| (1 .<< 12)
  else if (msr =? MSR_MCG_CAP) || (msr =? MSR_MCG_STATUS) then 0
  else if (msr =? MSR_MTRRcap) || ((0x200 <=? msr) && (msr <=? 0x2FF)) || (msr =? MSR_MTRRdefType) then 0
  else if msr =? MSR_PAT then 0x0007040600070406
  else default 0 (hv_read_msr msr m).

Definition edx_eax (s : HvfVCpu) : Z := u64 (regs s HV_X86_RDX .<< 32) .| (regs s HV_X86_RAX .& 0xFFFFFFFF).

Definition HandleMsr (is_write : bool) (t : HostTime) (s : HvfVCpu) (m : M) (h : HostMem)
    : option (VCpuExitAction * HvfVCpu * M * HostMem) :=
  let msr := u32 (regs s HV_X86_RCX) in
  if is_write then '(s, m, h) ← wrmsr msr (edx_eax s) t s m h; Some (kContinue, AdvanceRip s, m, h)
  else
    let val := rdmsr msr s m in
    Some (kContinue, AdvanceRip (write_regs [(HV_X86_RAX, val .& 0xFFFFFFFF); (HV_X86_RDX, val .>> 32)] s), m, h).
End Msrs.

(** ** Control registers *)

Definition mov_to_cr0 (regval : Z) (s : HvfVCpu) : HvfVCpu :=
  let s := write_vmcs [(VMCS_CTRL_CR0_SHADOW, regval); (VMCS_GUEST_CR0, FixCr0 regval)] s in
  let efer := vmcs s VMCS_GUEST_IA32_EFER in
  if has regval CR0_PG then
    if has efer EFER_LME then set_ia32e true (set_vmcs VMCS_GUEST_IA32_EFER (efer .| EFER_LMA) s) else s
  else if has efer EFER_LMA then set_ia32e false (set_vmcs VMCS_GUEST_IA32_EFER (efer .& bnot 64 EFER_LMA) s) else s.

Definition mov_to_cr (cr_num regval : Z) (s : HvfVCpu) : HvfVCpu :=
  if cr_num =? 0 then mov_to_cr0 regval s
  else if cr_num =? 3 then set_vmcs VMCS_GUEST_CR3 regval s
  else if cr_num =? 4 then write_vmcs [(VMCS_CTRL_CR4_SHADOW, regval); (VMCS_GUEST_CR4, regval .| cr4_ones_mask)] s
  else s.

Definition mov_from_cr (cr_num : Z) (s : HvfVCpu) : Z :=
  if cr_num =? 0 then vmcs s VMCS_CTRL_CR0_SHADOW
  else if cr_num =? 3 then vmcs s VMCS_GUEST_CR3
  else if cr_num =? 4 then vmcs s VMCS_CTRL_CR4_SHADOW
  else 0.

Definition clts (s : HvfVCpu) : HvfVCpu :=
  write_vmcs [(VMCS_GUEST_CR0, vmcs s VMCS_GUEST_CR0 .& bnot 64 (1 .<< 3)); (VMCS_CTRL_CR0_SHADOW, vmcs s VMCS_CTRL_CR0_SHADOW .& bnot 64 (1 .<< 3))] s.

Definition lmsw (lmsw_val : Z) (s : HvfVCpu) : HvfVCpu :=
  let apply v := (v .& bnot 64 0xE) .| (lmsw_val .& 0xE) .| CR0_PE in
  write_vmcs [(VMCS_GUEST_CR0, FixCr0 (apply (vmcs s VMCS_GUEST_CR0))); (VMCS_CTRL_CR0_SHADOW, apply (vmcs s VMCS_CTRL_CR0_SHADOW))] s.

Definition HandleCrAccess (exit_qual : Z) (s : HvfVCpu) : VCpuExitAction * HvfVCpu :=
  let cr_num := exit_qual .& 0xF in
  let access_type := (exit_qual .>> 4) .& 0x3 in
  let reg := reg_map ((exit_qual .>> 8) .& 0xF) in
  let s :=
    if access_type =? 0 then mov_to_cr cr_num (regs s reg) s
    else if access_type =? 1 then set_reg reg (mov_from_cr cr_num s) s
    else if access_type =? 2 then clts s
    else lmsw ((exit_qual .>> 16) .& 0xFFFF) s in
  (kContinue, AdvanceRip s).

Definition HandleXsetbv (s : HvfVCpu) : VCpuExitAction * HvfVCpu :=
  (kContinue, AdvanceRip (if regs s HV_X86_RCX =? 0 then set_reg HV_X86_XCR0 (edx_eax s) s else s)).

Definition HandleHlt (s : HvfVCpu) : VCpuExitAction * HvfVCpu := (kHalt, AdvanceRip s).

(** ** Interrupts *)

Definition QueueInterrupt (vector : Z) (s : HvfVCpu) : HvfVCpu := set_irqs (pending_irqs_ s ++ [vector]) (irq_window_active_ s) s.

(** Requests, or takes back, an exit when the guest can take interrupts. *)
Definition set_window (on : bool) (s : HvfVCpu) : HvfVCpu :=
  let proc := vmcs s VMCS_CTRL_CPU_BASED in
  set_irqs (pending_irqs_ s) on
    (set_vmcs VMCS_CTRL_CPU_BASED (if on then proc .| CPU_BASED_IRQ_WND else proc .& bnot 64 CPU_BASED_IRQ_WND) s).

Definition reinject (idt_info : Z) (s : HvfVCpu) : HvfVCpu :=
  let s := set_vmcs VMCS_CTRL_VMENTRY_IRQ_INFO (idt_info .& bnot 64 (1 .<< 12)) s in
  if has idt_info (1 .<< 11) then set_vmcs VMCS_CTRL_VMENTRY_EXC_ERROR (vmcs s VMCS_RO_IDT_VECTOR_ERROR) s else s.

Definition can_inject (s : HvfVCpu) : bool := has (regs s HV_X86_RFLAGS) 0x200 && negb (has (vmcs s VMCS_GUEST_INTERRUPTIBILITY) 0x3).

Definition TryInjectInterrupt (s : HvfVCpu) : HvfVCpu :=
  let idt_info := vmcs s VMCS_RO_IDT_VECTOR_INFO in
  if has idt_info IRQ_INFO_VALID then
    let s := reinject idt_info s in
    if negb (bool_decide (pending_irqs_ s = [])) && negb (irq_window_active_ s) then set_window true s else s
  else
    match pending_irqs_ s with
    | [] => if irq_window_active_ s then set_window false s else s
    | vector :: rest =>
        if negb (can_inject s) then if negb (irq_window_active_ s) then set_window true s else s
        else
          let s := set_irqs rest (irq_window_active_ s) s in
          let more_pending := negb (bool_decide (rest = [])) in
          let s := if more_pending && negb (irq_window_active_ s) then set_window true s
                   else if negb more_pending && irq_window_active_ s then set_window false s
                   else s in
          set_vmcs VMCS_CTRL_VMENTRY_IRQ_INFO (vector .| IRQ_INFO_EXT_IRQ .| IRQ_INFO_VALID) s
    end.

(** [HvfVm::RequestInterrupt]: the vCPUs that are there, by index. *)
Record InterruptRequest := mkIrqReq { ir_vector : Z; ir_destination : Z; ir_logical : bool }.

Definition queue_at (vector : Z) (i : nat) (vcpus : list (option HvfVCpu)) : list (option HvfVCpu) :=
  match vcpus !! i with Some (Some s) => <[i := Some (QueueInterrupt vector s)]> vcpus | _ => vcpus end.

(** [1u << i] needs [i < 32]. *)
Definition RequestInterrupt (req : InterruptRequest) (cpu_count : Z) (vcpus : list (option HvfVCpu)) : option (list (option HvfVCpu)) :=
  if ir_logical req then
    if 32 <? cpu_count then None
    else Some (fold_left (fun vcpus i => if has (ir_destination req) (1 .<< i) then queue_at (ir_vector req) (Z.to_nat i) vcpus else vcpus)
                 (seqZ 0 cpu_count) vcpus)
  else
    let dest := if cpu_count <=? ir_destination req then 0 else ir_destination req in
    Some (queue_at (ir_vector req) (Z.to_nat dest) vcpus).

(** ** The run loop's step *)

Definition VMX_REASON_IRQ : Z := 1.
Definition VMX_REASON_TRIPLE_FAULT : Z := 2.
Definition VMX_REASON_IRQ_WND : Z := 7.
Definition VMX_REASON_CPUID : Z := 10.
Definition VMX_REASON_HLT : Z := 12.
Definition VMX_REASON_VMCALL : Z := 18.
Definition VMX_REASON_MOV_CR : Z := 28.
Definition VMX_REASON_IO : Z := 30.
Definition VMX_REASON_RDMSR : Z := 31.
Definition VMX_REASON_WRMSR : Z := 32.
Definition VMX_REASON_VMENTRY_GUEST : Z := 33.
Definition VMX_REASON_EPT_VIOLATION : Z := 48.
Definition VMX_REASON_EPT_MISCONFIG : Z := 49.
Definition VMX_REASON_XSETBV : Z := 55.

Section Run.
Context {M D : Type} `{Device D} (a : AddressSpace).
Context (hv_read_msr : Z -> M -> option Z) (hv_write_msr : Z -> Z -> M -> M) (host_cpuid : Z -> Z -> CpuId).
(** [hv_vcpu_run_until]: [None] is an error of the call. *)
Context (hv_run : HvfVCpu -> M -> HostMem -> option (HvfVCpu * M * HostMem)).

Definition Outcome : Type := VCpuExitAction * HvfVCpu * M * list D * HostMem.

(** The [switch] on the exit reason. *)
Definition handle_exit (t : HostTime) (s : HvfVCpu) (m : M) (ds : list D) (h : HostMem) : option Outcome :=
  let exit_reason := vmcs s VMCS_RO_EXIT_REASON .& 0xFFFF in
  let exit_qual := vmcs s VMCS_RO_EXIT_QUALIFIC in
  let pure (r : VCpuExitAction * HvfVCpu) : option Outcome := Some (r.1, r.2, m, ds, h) in
  if exit_reason =? VMX_REASON_IRQ then pure (kContinue, s)
  else if exit_reason =? VMX_REASON_HLT then pure (HandleHlt s)
  else if exit_reason =? VMX_REASON_IO then '(x, s, ds) ← HandleIo a exit_qual s ds; Some (x, s, m, ds, h)
  else if exit_reason =? VMX_REASON_EPT_VIOLATION then '(x, s, ds) ← HandleEptViolation a exit_qual s ds h; Some (x, s, m, ds, h)
  else if exit_reason =? VMX_REASON_CPUID then pure (HandleCpuid host_cpuid s)
  else if exit_reason =? VMX_REASON_RDMSR then '(x, s, m, h) ← HandleMsr hv_read_msr hv_write_msr false t s m h; Some (x, s, m, ds, h)
  else if exit_reason =? VMX_REASON_WRMSR then '(x, s, m, h) ← HandleMsr hv_read_msr hv_write_msr true t s m h; Some (x, s, m, ds, h)
  else if exit_reason =? VMX_REASON_MOV_CR then pure (HandleCrAccess exit_qual s)
  else if exit_reason =? VMX_REASON_TRIPLE_FAULT then pure (kError, s)
  else if exit_reason =? VMX_REASON_XSETBV then pure (HandleXsetbv s)
  else if exit_reason =? VMX_REASON_EPT_MISCONFIG then pure (kError, s)
  else if exit_reason =? VMX_REASON_VMCALL then pure (kContinue, AdvanceRip (set_reg HV_X86_RAX (2 ^ 64 - 1) s))
  else if exit_reason =? VMX_REASON_IRQ_WND then pure (kContinue, s)
  else if exit_reason =? VMX_REASON_VMENTRY_GUEST then pure (kError, s)
  else pure (kError, s).

Definition RunOnce (t : HostTime) (s : HvfVCpu) (m : M) (ds : list D) (h : HostMem) : option Outcome :=
  let s := TryInjectInterrupt s in
  match hv_run s m h with
  | None => Some (kError, s, m, ds, h)
  | Some (s, m, h) => handle_exit t s m ds h
  end.
End Run.

(** ** The guest's clock *)

(** What a guest makes of [delta] ticks since [tsc_timestamp], by the pvclock
    interface. *)
Definition pvclock_ns (shift mul delta : Z) : Z := ((if shift <? 0 then delta .>> - shift else delta .<< shift) * mul) .>> 32.

Lemma scale_down_run fuel hz k :
  0 <= k <= 31 -> 31 - k <= Z.of_nat fuel -> 10 ^ 9 <= hz ->
  exists j, scale_down fuel hz (- k) = (hz / 2 ^ j, - (k + j)) /\ 0 <= j /\ k + j <= 31 /\ 10 ^ 9 <= hz / 2 ^ j
    /\ (hz / 2 ^ j <= 2 * 10 ^ 9 \/ k + j = 31).
Proof.
  revert hz k. induction fuel as [|fuel IH]; intros hz k Hk Hf Hz; cbn [scale_down].
  - exists 0. rewrite Z.div_1_r, Z.add_0_r. split_and!; try done; lia.
  - destruct (Z.ltb_spec (1000000000 * 2) hz) as [H1|H1]; cbn [andb].
    + destruct (Z.ltb_spec (-31) (- k)) as [H2|H2].
      * rewrite Z.shiftr_div_pow2 by lia. replace (- k - 1) with (- (k + 1)) by lia.
        destruct (IH (hz / 2 ^ 1) (k + 1)) as (j & Hj & H3 & H4 & H5 & H6); [lia|lia|change (2 ^ 1) with 2; dlia|].
        exists (1 + j). rewrite Hj, Z.pow_add_r, Z.div_div in * by lia. rewrite <- Z.div_div by lia. 
        rewrite Z.div_div in * by lia. split_and!; try done; try lia; f_equal; lia.
      * exists 0. rewrite Z.div_1_r, Z.add_0_r. split_and!; try done; lia.
    + exists 0. rewrite Z.div_1_r, Z.add_0_r. split_and!; try done; lia.
Qed.

(** The scale of a clock of 1 GHz or more: the shift leaves between 1 and
    2 GHz, and [mul] is their quotient, rounded down. *)
Lemma scale_ghz freq :
  10 ^ 9 <= freq < 2 ^ 61 ->
  exists k mul, ComputeKvmclockScale freq = (- k, mul) /\ 0 <= k <= 31 /\ 10 ^ 9 <= freq / 2 ^ k <= 2 * 10 ^ 9 /\ 0 < mul < 2 ^ 32
    /\ 10 ^ 9 * 2 ^ 32 - freq / 2 ^ k <= mul * (freq / 2 ^ k) <= 10 ^ 9 * 2 ^ 32.
Proof.
  intros Hf. unfold ComputeKvmclockScale. destruct (Z.eqb_spec freq 0); [lia|].
  destruct (scale_down_run 63 freq 0 ltac:(lia) ltac:(lia) ltac:(lia)) as (k & Hd & H1 & H2 & H3 & H4).
  change (- 0) with 0 in Hd. rewrite Hd, Z.add_0_l.
  assert (H5 : freq / 2 ^ k <= 2 * 10 ^ 9) by (destruct H4 as [?|H4]; [done|rewrite Z.add_0_l in H4; subst k; change (2 ^ 31) with 2147483648; dlia]).
  set (z := freq / 2 ^ k) in *. cbn [scale_up]. change (1000000000 / 2) with 500000000.
  rewrite (proj2 (Z.ltb_ge z 500000000)) by lia. cbn [andb].
  change (1000000000 .<< 32) with (10 ^ 9 * 2 ^ 32). set (q := 10 ^ 9 * 2 ^ 32 / z).
  assert (Hq : z * q <= 10 ^ 9 * 2 ^ 32 < z * q + z) by (subst q; pose proof (Z.div_mod (10 ^ 9 * 2 ^ 32) z); pose proof (Z.mod_pos_bound (10 ^ 9 * 2 ^ 32) z); lia).
  assert (Hq2 : 0 < q <= 2 ^ 32) by nia. rewrite (wrap_small 64) by (unfold in_width; lia).
  exists k. destruct (Z.ltb_spec 0xFFFFFFFF q) as [H6|H6].
  - exists 0xFFFFFFFF. replace q with (2 ^ 32) in * by lia. split_and!; (done || nia).
  - exists q. split_and!; (done || nia).
Qed.

(** C39. The clock a guest computes from the scale is right: for a TSC of 1 GHz up
    to 2^61 Hz, after [delta] ticks it is ahead of the true [delta / freq]
    seconds by at most one part in 10^9, and behind by less than two
    nanoseconds and three parts in 2^32; shift and multiplier fit their
    fields. *)
Theorem kvmclock_accuracy freq delta shift mul :
  10 ^ 9 <= freq < 2 ^ 61 -> 0 <= delta -> ComputeKvmclockScale freq = (shift, mul) ->
  let ns := pvclock_ns shift mul delta in
  ns * freq <= (10 ^ 9 + 1) * delta /\ (2 ^ 32 - 3) * 10 ^ 9 * delta < 2 ^ 32 * freq * (ns + 2)
  /\ -31 <= shift <= 0 /\ 0 < mul < 2 ^ 32.
Proof.
  intros Hf Hd He ns. destruct (scale_ghz freq Hf) as (k & mul' & He' & Hk & Hz & Hm & Hm2). rewrite He in He'. injection He' as -> ->.
  assert (Hp : 0 < 2 ^ k) by (apply Z.pow_pos_nonneg; lia).
  assert (Hq : exists q, ns = q * mul' / 2 ^ 32 /\ 2 ^ k * q <= delta < 2 ^ k * q + 2 ^ k /\ 0 <= q).
  { exists (delta / 2 ^ k). split; [|pose proof (Z.div_mod delta (2 ^ k)); pose proof (Z.mod_pos_bound delta (2 ^ k)); split; [lia|by apply Z.div_pos]].
    subst ns. unfold pvclock_ns. rewrite Z.shiftr_div_pow2 by lia. f_equal. f_equal. destruct (Z.ltb_spec (- k) 0).
    - rewrite Z.shiftr_div_pow2 by lia. by rewrite Z.opp_involutive.
    - replace k with 0 by lia. by rewrite Z.shiftl_0_r, Z.div_1_r. }
  destruct Hq as (q & Hns & Hq & Hq0). clearbody ns.
  pose proof (Z.div_mod (q * mul') (2 ^ 32)) as Hdm. pose proof (Z.mod_pos_bound (q * mul') (2 ^ 32)) as Hmb. rewrite <- Hns in Hdm.
  set (z := freq / 2 ^ k) in *. assert (Hfz : 2 ^ k * z <= freq < 2 ^ k * z + 2 ^ k).
  { subst z. pose proof (Z.div_mod freq (2 ^ k)). pose proof (Z.mod_pos_bound freq (2 ^ k)). lia. }
  clearbody z. set (p := 2 ^ k) in *. clearbody p.
  assert (H1 : 2 ^ 32 * ns <= q * mul' < 2 ^ 32 * ns + 2 ^ 32) by lia. clear Hdm Hmb Hns.
  split; [|split; [|split; lia]].
  - assert (A1 : ns * z <= q * 10 ^ 9) by nia. assert (A2 : ns * (p * z) <= delta * 10 ^ 9) by nia.
    assert (Hns0 : 0 <= ns) by nia. assert (A3 : ns * freq <= ns * (p * z) + ns * p) by nia.
    assert (A4 : 10 ^ 9 * (ns * p) <= ns * (p * z)) by nia. nia.
  - assert (B1 : q * (10 ^ 9 * 2 ^ 32) - q * z <= (2 ^ 32 * ns + 2 ^ 32) * z) by nia.
    assert (B2 : q * p * (10 ^ 9 * 2 ^ 32) - q * p * z <= 2 ^ 32 * (ns + 1) * (p * z)) by nia.
    assert (B3 : q * p * z <= 2 * 10 ^ 9 * delta) by nia. assert (Hns0 : 0 <= ns) by nia.
    assert (B4 : 2 ^ 32 * (ns + 1) * (p * z) <= 2 ^ 32 * (ns + 1) * freq) by nia.
    assert (B5 : p * 10 ^ 9 <= freq) by nia. nia.
Qed.

(** 2.4 GHz: a second is 2.4e9 ticks. *)
Lemma kvmclock_accuracy_witness :
  let '(shift, mul) := ComputeKvmclockScale 2400000000 in
  let ns := pvclock_ns shift mul 2400000000 in
  ns * 2400000000 <= (10 ^ 9 + 1) * 2400000000 /\ (2 ^ 32 - 3) * 10 ^ 9 * 2400000000 < 2 ^ 32 * 2400000000 * (ns + 2)
  /\ -31 <= shift <= 0 /\ 0 < mul < 2 ^ 32.
Proof. apply (kvmclock_accuracy 2400000000 2400000000); [lia|lia|reflexivity]. Defined.

Lemma scale_up_run fuel hz k :
  0 <= k <= 31 -> 31 - k <= Z.of_nat fuel -> 1 <= hz < 10 ^ 9 -> 500000000 <= hz * 2 ^ (31 - k) ->
  exists j, scale_up fuel hz k = (hz * 2 ^ j, k + j) /\ 0 <= j /\ 500000000 <= hz * 2 ^ j < 10 ^ 9.
Proof.
  revert hz k. induction fuel as [|fuel IH]; intros hz k Hk Hf Hz Hb; cbn [scale_up].
  - replace (31 - k) with 0 in Hb by lia. exists 0. rewrite Z.add_0_r, Z.mul_1_r in *. split_and!; done || lia.
  - change (1000000000 / 2) with 500000000. destruct (Z.ltb_spec hz 500000000) as [H1|H1]; cbn [andb].
    + assert (H2 : k < 31) by (destruct (Z.eq_dec k 31) as [->|]; [change (2 ^ (31 - 31)) with 1 in Hb; lia|lia]).
      rewrite (proj2 (Z.ltb_lt k 31)) by lia. rewrite Z.shiftl_mul_pow2 by lia. change (2 ^ 1) with 2.
      rewrite wrap_small by (unfold in_width; lia).
      destruct (IH (hz * 2) (k + 1)) as (j & -> & H3 & H4); [lia|lia|lia| |].
      * replace (31 - k) with (1 + (31 - (k + 1))) in Hb by lia. rewrite Z.pow_add_r in Hb by lia. lia.
      * exists (1 + j). rewrite Z.pow_add_r by lia. change (2 ^ 1) with 2. rewrite Z.mul_assoc. split_and!; try lia. f_equal. lia.
    + exists 0. rewrite Z.add_0_r, Z.mul_1_r. split_and!; done || lia.
Qed.

(** Below 1 GHz the multiplier does not fit and is cut: the loop stops at
    500 MHz where it should at 1 GHz. *)
Lemma slow_tsc_cut freq : 0 <= freq < 10 ^ 9 -> (ComputeKvmclockScale freq).2 = 0xFFFFFFFF.
Proof.
  intros Hf. unfold ComputeKvmclockScale. set (f := if freq =? 0 then 1 else freq).
  assert (Hf' : 1 <= f < 10 ^ 9) by (subst f; destruct (Z.eqb_spec freq 0); lia). clearbody f.
  replace (scale_down 63 f 0) with (f, 0) by (cbn [scale_down]; rewrite (proj2 (Z.ltb_ge (1000000000 * 2) f)) by lia; done).
  destruct (scale_up_run 63 f 0) as (j & -> & Hj & Hz); [lia|lia|lia|change (2 ^ (31 - 0)) with 2147483648; lia|].
  change (1000000000 .<< 32) with (10 ^ 9 * 2 ^ 32). set (z := f * 2 ^ j) in *. clearbody z.
  assert (Hq : 2 ^ 32 <= 10 ^ 9 * 2 ^ 32 / z < 2 ^ 64).
  { split; [apply Z.div_le_lower_bound; lia|apply Z.div_lt_upper_bound; lia]. }
  rewrite wrap_small by (unfold in_width; lia). by rewrite (proj2 (Z.ltb_lt _ _)) by lia.
Qed.

(** At 500 MHz the guest counts half a second in a second. *)
Lemma slow_tsc_half : let '(shift, mul) := ComputeKvmclockScale 500000000 in pvclock_ns shift mul 500000000 = 499999999.
Proof. reflexivity. Qed.

(** The guest's struct may reach behind RAM: only the address of its first
    byte is looked at. *)
Definition small_ram : HostMem := MkHostMem (MkGuestMemMap 0x4000 0 0x4000 0 0) ∅.
Lemma kvmclock_overrun t s : UpdateKvmclock t 0x3FFC s small_ram = None.
Proof. unfold UpdateKvmclock. cbn -[kvmclock_stores]. unfold kvmclock_stores. by destruct (ComputeKvmclockScale (tsc_freq_ s)). Qed.
Lemma wall_clock_overrun {M} (w : Z -> Z -> M -> M) t s m : wrmsr w MSR_KVM_WALL_CLOCK_NEW 0x3FFE t s m small_ram = None.
Proof. reflexivity. Qed.

(** ** The seqlock *)

Lemma run_stores_app l1 l2 hva h : run_stores (l1 ++ l2) hva h = (h ← run_stores l1 hva h; run_stores l2 hva h).
Proof.
  revert h. induction l1 as [|[[off n] v] l1 IH]; intros h; [done|]. cbn [app run_stores].
  destruct (hm_store n h (hva + off) v) as [h1|]; cbn [mbind option_bind]; [apply IH|done].
Qed.

(** Stores behind the version leave it alone. *)
Lemma run_stores_version l hva h h' :
  Forall (fun x => 4 <= x.1.1) l -> run_stores l hva h = Some h' -> hm_load 4 h' hva = hm_load 4 h hva.
Proof.
  intros Hl. revert h. induction Hl as [|[[off n] v] l Ho Hl IH]; intros h Hr; cbn [run_stores] in Hr; [by injection Hr as ->|].
  apply bind_Some in Hr as (h1 & Hs & Hr). rewrite (IH _ Hr). apply (hm_load_store_disjoint n 4 h (hva + off) hva v h1); [done|]. cbn in Ho |- *. lia.
Qed.

Lemma odd_lor1 x : Z.odd (x .| 1) = true.
Proof. rewrite <- Z.bit0_odd, Z.lor_spec. by rewrite orb_true_r. Qed.

Lemma odd_u32_succ x : in_width 32 x -> Z.odd x = true -> Z.odd (u32 (x + 1)) = false.
Proof.
  intros Hx Ho. rewrite <- Z.bit0_odd, testbit_wrap, Z.bit0_odd, Z.odd_add, Ho by lia. done.
Qed.

(** A reader of the struct sees an odd version at every point between the
    first store and the last, and an even one behind it. *)
Lemma kvmclock_seqlock t freq version hva h n h' :
  in_width 32 version -> run_stores (take n (kvmclock_stores t freq version)) hva h = Some h' -> (0 < n)%nat ->
  exists v, hm_load 4 h' hva = Some v /\ Z.odd v = (n <? 7)%nat.
Proof.
  intros Hv Hr Hn. unfold kvmclock_stores in Hr. destruct (ComputeKvmclockScale freq) as [shift mul]. set (ver := u32 (version + 1) .| 1) in *.
  assert (Hver : in_width 32 ver) by (apply in_width_lor; [lia|apply wrap_in_width; lia|done]). pose proof (odd_lor1 (u32 (version + 1))) as Hodd. fold ver in Hodd.
  destruct n as [|n]; [lia|]. cbn [take run_stores] in Hr. rewrite Z.add_0_r in Hr. apply bind_Some in Hr as (h1 & H1 & Hr).
  assert (E1 : hm_load 4 h1 hva = Some ver) by (eapply hm_load_store_same, H1; done).
  set (mid := [(8, 8%nat, tsc_now t); (16, 8%nat, steady_ns t); (24, 4%nat, mul); (28, 1%nat, u8 shift); (29, 1%nat, 1 .<< 0)]) in *.
  assert (Hmid : Forall (fun x : Z * nat * Z => 4 <= x.1.1) mid) by (repeat constructor; cbn; lia).
  change (run_stores (take n (mid ++ [(0, 4%nat, u32 (ver + 1))])) hva h1 = Some h') in Hr.
  destruct (Nat.ltb_spec (S n) 7) as [Hlt|Hge].
  - exists ver. rewrite take_app_le in Hr by (cbn; lia). rewrite (run_stores_version (take n mid) hva h1 h'); [done|by apply Forall_take|done].
  - rewrite take_ge, run_stores_app in Hr by (cbn; lia). apply bind_Some in Hr as (h2 & _ & Hr). cbn [run_stores] in Hr.
    rewrite Z.add_0_r in Hr. apply bind_Some in Hr as (h3 & H3 & [= ->]).
    exists (u32 (ver + 1)). split; [eapply hm_load_store_same, H3; apply wrap_in_width; lia|by apply odd_u32_succ].
Qed.

(** The memory-type register reads 0: its case is behind the one of the range
    it is in. *)
Lemma pat_reads_zero {M} (rd : Z -> M -> option Z) s m : rdmsr rd MSR_PAT s m = 0.
Proof. reflexivity. Qed.

(** CR8 is lost, though its exits are asked for. *)
Lemma cr8_ignored v s : mov_to_cr 8 v s = s /\ mov_from_cr 8 s = 0.
Proof. done. Qed.

(** A broadcast goes to the first processor only. *)
Lemma broadcast_to_first v n vcpus :
  n <= 255 -> RequestInterrupt (mkIrqReq v 0xFF false) n vcpus = Some (queue_at v 0 vcpus).
Proof. intros Hn. unfold RequestInterrupt. cbn [ir_logical ir_destination ir_vector]. by rewrite (proj2 (Z.leb_le n 255)). Qed.

(** What CPUID says: the signature of KVM. *)
Lemma cpuid_signature f i j :
  let r := guest_cpuid f i 0x40000000 j in
  le_bytes 4 (ebx r) ++ le_bytes 4 (ecx r) ++ le_bytes 4 (edx r) = [75; 86; 77; 75; 86; 77; 75; 86; 77; 0; 0; 0].
Proof. reflexivity. Qed.

(** ** Interrupts, in order and once *)

(** The window is asked for in the controls exactly when the flag says so,
    and only while an interrupt waits. *)
Definition window_ok (s : HvfVCpu) : Prop :=
  has (vmcs s VMCS_CTRL_CPU_BASED) CPU_BASED_IRQ_WND = irq_window_active_ s /\ (irq_window_active_ s = true -> pending_irqs_ s <> []).

(** An entry to the guest: the state its run and the exit left, in the fields
    injection looks at; the processor has consumed the last injection. *)
Record GuestState := mkGuest { g_rflags : Z; g_interruptibility : Z; g_idt_info : Z; g_idt_error : Z }.

Definition set_guest (g : GuestState) (s : HvfVCpu) : HvfVCpu :=
  set_reg HV_X86_RFLAGS (g_rflags g)
    (write_vmcs [(VMCS_GUEST_INTERRUPTIBILITY, g_interruptibility g); (VMCS_RO_IDT_VECTOR_INFO, g_idt_info g);
       (VMCS_RO_IDT_VECTOR_ERROR, g_idt_error g); (VMCS_CTRL_VMENTRY_IRQ_INFO, 0)] s).

Inductive IrqEvent := Queue (vector : Z) | Enter (g : GuestState).

(** What an entry delivers. *)
Inductive Delivery := Nothing | Again (info : Z) | External (vector : Z).

(** The injection field, by the architecture: valid in bit 31, type in bits 8
    to 10, 0 for an external interrupt. *)
Definition delivery (g : GuestState) (s : HvfVCpu) : Delivery :=
  let info := vmcs s VMCS_CTRL_VMENTRY_IRQ_INFO in
  if negb (has info IRQ_INFO_VALID) then Nothing
  else if has (g_idt_info g) IRQ_INFO_VALID then Again info
  else External (info .& 0x7FF).

Definition irq_step (e : IrqEvent) (s : HvfVCpu) : HvfVCpu * list Delivery :=
  match e with
  | Queue v => (QueueInterrupt v s, [])
  | Enter g => let s := TryInjectInterrupt (set_guest g s) in (s, [delivery g s])
  end.
Fixpoint irq_run (es : list IrqEvent) (s : HvfVCpu) : HvfVCpu * list Delivery :=
  match es with
  | [] => (s, [])
  | e :: es => let '(s, d) := irq_step e s in let '(s, ds) := irq_run es s in (s, d ++ ds)
  end.

Definition queued (es : list IrqEvent) : list Z := omap (fun e => match e with Queue v => Some v | _ => None end) es.
Definition externals (ds : list Delivery) : list Z := omap (fun d => match d with External v => Some v | _ => None end) ds.

(** The guest takes interrupts: the flag is set, nothing shadows them. *)
Definition takes_interrupts (g : GuestState) : bool := has (g_rflags g) 0x200 && negb (has (g_interruptibility g) 0x3).

Lemma has_or v n : 0 <= n -> has (v .| (1 .<< n)) (1 .<< n) = true.
Proof. intros Hn. rewrite has_bit, Z.lor_spec, Z.shiftl_spec, Z.sub_diag by lia. apply orb_true_r. Qed.

Lemma has_andn v n : 0 <= n < 64 -> has (v .& bnot 64 (1 .<< n)) (1 .<< n) = false.
Proof. intros Hn. rewrite has_bit, Z.land_spec, testbit_bnot, Z.shiftl_spec, Z.sub_diag by lia. by rewrite !andb_false_r. Qed.

Lemma set_window_ok on s : (on = true -> pending_irqs_ s <> []) -> window_ok (set_window on s).
Proof.
  intros Hp. split; [|done]. unfold set_window. cbn [vmcs set_irqs set_vmcs irq_window_active_]. rewrite upd_same.
  destruct on; [by apply (has_or _ 2)|by apply (has_andn _ 2)].
Qed.

Lemma window_ok_vmcs f v s : f <> VMCS_CTRL_CPU_BASED -> window_ok s -> window_ok (set_vmcs f v s).
Proof. intros Hf [H1 H2]. split; [|done]. cbn [set_vmcs vmcs irq_window_active_]. by rewrite upd_other by done. Qed.

Lemma external_info v : in_width 8 v ->
  has (v .| IRQ_INFO_EXT_IRQ .| IRQ_INFO_VALID) IRQ_INFO_VALID = true /\ (v .| IRQ_INFO_EXT_IRQ .| IRQ_INFO_VALID) .& 0x7FF = v.
Proof.
  intros Hv. split; [by apply (has_or _ 31)|]. unfold IRQ_INFO_EXT_IRQ, IRQ_INFO_VALID. change (0 .<< 8) with 0. rewrite Z.lor_0_r.
  rewrite Z.land_lor_distr_l. change ((1 .<< 31) .& 0x7FF) with 0. rewrite Z.lor_0_r. change 0x7FF with (Z.ones 11).
  rewrite Z.land_ones by lia. apply Z.mod_small. unfold in_width in Hv. lia.
Qed.

(** Behind an entry. *)
Record entered (g : GuestState) (s s' : HvfVCpu) : Prop := {
  en_window : window_ok s';
  en_open : irq_window_active_ s' = negb (bool_decide (pending_irqs_ s' = []));
  en_order : pending_irqs_ s = externals [delivery g s'] ++ pending_irqs_ s';
  en_when : has (g_idt_info g) IRQ_INFO_VALID = false -> takes_interrupts g = true -> pending_irqs_ s <> [] -> delivery g s' <> Nothing;
  en_not : takes_interrupts g = false -> externals [delivery g s'] = [];
  en_again : has (g_idt_info g) IRQ_INFO_VALID = true -> delivery g s' = Again (g_idt_info g .& bnot 64 (1 .<< 12))
}.

Lemma set_guest_fields g s :
  pending_irqs_ (set_guest g s) = pending_irqs_ s /\ irq_window_active_ (set_guest g s) = irq_window_active_ s
  /\ vmcs (set_guest g s) VMCS_RO_IDT_VECTOR_INFO = g_idt_info g /\ vmcs (set_guest g s) VMCS_CTRL_VMENTRY_IRQ_INFO = 0
  /\ can_inject (set_guest g s) = takes_interrupts g.
Proof. done. Qed.

Lemma set_guest_window g s : window_ok s -> window_ok (set_guest g s).
Proof. intros [H1 H2]. split; [|done]. unfold set_guest. cbn [set_reg write_vmcs fold_left set_vmcs vmcs irq_window_active_]. by rewrite !upd_other by done. Qed.

Lemma window_open_iff s : window_ok s -> (pending_irqs_ s <> [] -> irq_window_active_ s = true) ->
  irq_window_active_ s = negb (bool_decide (pending_irqs_ s = [])).
Proof.
  intros [_ H1] H2. destruct (irq_window_active_ s) eqn:E.
  - rewrite bool_decide_false; [done|by apply H1].
  - destruct (decide (pending_irqs_ s = [])) as [->|Hp]; [done|]. by specialize (H2 Hp).
Qed.

Lemma delivery_nothing g s : vmcs s VMCS_CTRL_VMENTRY_IRQ_INFO = 0 -> delivery g s = Nothing.
Proof. intros H. unfold delivery. by rewrite H. Qed.

Lemma set_window_fields on s :
  pending_irqs_ (set_window on s) = pending_irqs_ s /\ irq_window_active_ (set_window on s) = on
  /\ vmcs (set_window on s) VMCS_CTRL_VMENTRY_IRQ_INFO = vmcs s VMCS_CTRL_VMENTRY_IRQ_INFO.
Proof. done. Qed.

(** Asking for a window while some wait, or taking it back. *)
Lemma window_step (b : bool) on s :
  window_ok s -> (b = true -> on = true -> pending_irqs_ s <> []) ->
  let s' := if b then set_window on s else s in
  window_ok s' /\ pending_irqs_ s' = pending_irqs_ s /\ irq_window_active_ s' = (if b then on else irq_window_active_ s)
  /\ vmcs s' VMCS_CTRL_VMENTRY_IRQ_INFO = vmcs s VMCS_CTRL_VMENTRY_IRQ_INFO.
Proof. intros Hw Hp. destruct b; [|done]. split; [apply set_window_ok; by apply Hp|apply set_window_fields]. Qed.

Lemma has_clear12 v : has v IRQ_INFO_VALID = true -> has (v .& bnot 64 (1 .<< 12)) IRQ_INFO_VALID = true.
Proof.
  unfold IRQ_INFO_VALID. rewrite !has_bit by lia. intros H. rewrite Z.land_spec, H, testbit_bnot by lia. done.
Qed.

Lemma enter_again g s :
  window_ok s -> has (g_idt_info g) IRQ_INFO_VALID = true -> entered g s (TryInjectInterrupt (set_guest g s)).
Proof.
  intros Hw Hv. unfold TryInjectInterrupt. destruct (set_guest_fields g s) as (Hp & Hi & -> & _). rewrite Hv.
  set (s1 := reinject (g_idt_info g) (set_guest g s)).
  assert (H1 : window_ok s1 /\ pending_irqs_ s1 = pending_irqs_ s /\ vmcs s1 VMCS_CTRL_VMENTRY_IRQ_INFO = g_idt_info g .& bnot 64 (1 .<< 12)).
  { subst s1. unfold reinject. destruct (has (g_idt_info g) (1 .<< 11)).
    - split; [do 2 (apply window_ok_vmcs; [done|]); by apply set_guest_window|]. split; [done|]. cbn [set_vmcs vmcs]. by rewrite upd_other, upd_same by done.
    - split; [apply window_ok_vmcs; [done|]; by apply set_guest_window|]. split; [done|]. cbn [set_vmcs vmcs]. by rewrite upd_same. }
  destruct H1 as (Hw1 & Hp1 & Hinfo). clearbody s1.
  destruct (window_step (negb (bool_decide (pending_irqs_ s1 = [])) && negb (irq_window_active_ s1)) true s1 Hw1) as (Hw2 & Hp2 & Hi2 & Hv2).
  { intros [Hb _]%andb_true_iff _. by apply negb_true_iff, bool_decide_eq_false in Hb. }
  match type of Hw2 with window_ok ?x => set (s2 := x) in *; clearbody s2 end.
  assert (Hd : delivery g s2 = Again (g_idt_info g .& bnot 64 (1 .<< 12))).
  { unfold delivery. by rewrite Hv2, Hinfo, has_clear12, Hv. }
  constructor; rewrite ?Hd; try done; [|by rewrite Hp2, Hp1].
  apply window_open_iff; [done|]. rewrite Hp2, Hi2. intros Hne. rewrite bool_decide_false by done. by destruct (irq_window_active_ s1).
Qed.

Lemma enter_none g s :
  window_ok s -> has (g_idt_info g) IRQ_INFO_VALID = false -> pending_irqs_ s = [] -> entered g s (TryInjectInterrupt (set_guest g s)).
Proof.
  intros Hw Hv Hp. unfold TryInjectInterrupt. destruct (set_guest_fields g s) as (Hp1 & Hi & -> & H0 & _). rewrite Hv, Hp1, Hp.
  destruct (window_step (irq_window_active_ (set_guest g s)) false (set_guest g s)) as (Hw2 & Hp2 & Hi2 & Hv2); [by apply set_guest_window|done|].
  match type of Hw2 with window_ok ?x => set (s2 := x) in *; clearbody s2 end. rewrite Hp1, Hp in Hp2.
  assert (Hd : delivery g s2 = Nothing) by (apply delivery_nothing; by rewrite Hv2).
  constructor; rewrite ?Hd, ?Hp2, ?Hp; try done; [|congruence].
  rewrite Hi2. by destruct (irq_window_active_ (set_guest g s)).
Qed.

Lemma enter_blocked g s v rest :
  window_ok s -> has (g_idt_info g) IRQ_INFO_VALID = false -> pending_irqs_ s = v :: rest -> takes_interrupts g = false ->
  entered g s (TryInjectInterrupt (set_guest g s)).
Proof.
  intros Hw Hv Hp Ht. unfold TryInjectInterrupt. destruct (set_guest_fields g s) as (Hp1 & Hi & -> & H0 & ->). rewrite Hv, Hp1, Hp, Ht. cbn [negb].
  destruct (window_step (negb (irq_window_active_ (set_guest g s))) true (set_guest g s)) as (Hw2 & Hp2 & Hi2 & Hv2);
    [by apply set_guest_window|by rewrite Hp1, Hp|].
  match type of Hw2 with window_ok ?x => set (s2 := x) in *; clearbody s2 end. rewrite Hp1, Hp in Hp2.
  assert (Hd : delivery g s2 = Nothing) by (apply delivery_nothing; by rewrite Hv2).
  constructor; rewrite ?Hd, ?Hp2, ?Hp; try done; try congruence.
  rewrite Hi2. by destruct (irq_window_active_ (set_guest g s)).
Qed.

Lemma enter_takes g s v rest :
  window_ok s -> has (g_idt_info g) IRQ_INFO_VALID = false -> pending_irqs_ s = v :: rest -> takes_interrupts g = true -> in_width 8 v ->
  entered g s (TryInjectInterrupt (set_guest g s)).
Proof.
  intros Hw Hv Hp Ht Hv8. unfold TryInjectInterrupt. destruct (set_guest_fields g s) as (Hp1 & Hi & -> & H0 & ->). rewrite Hv, Hp1, Hp, Ht. cbn [negb].
  set (s1 := set_irqs rest (irq_window_active_ (set_guest g s)) (set_guest g s)).
  destruct (set_guest_window g s Hw) as [Hc _].
  set (more := negb (bool_decide (rest = []))).
  set (s2 := if more && negb (irq_window_active_ s1) then set_window true s1 else if negb more && irq_window_active_ s1 then set_window false s1 else s1).
  assert (H2 : window_ok s2 /\ pending_irqs_ s2 = rest /\ irq_window_active_ s2 = more).
  { subst s2. assert (Hm : more = true -> rest <> []) by (subst more; intros Hb; by apply negb_true_iff, bool_decide_eq_false in Hb).
    assert (Hc1 : has (vmcs s1 VMCS_CTRL_CPU_BASED) CPU_BASED_IRQ_WND = irq_window_active_ s1) by done. destruct more.
    - destruct (irq_window_active_ s1) eqn:E; cbn [andb negb]; [split; [split; [congruence|intros _; by apply Hm]|by split]|].
      split; [apply set_window_ok; intros _; by apply Hm|done].
    - destruct (irq_window_active_ s1) eqn:E; cbn [andb negb]; [split; [by apply set_window_ok|done]|].
      split; [split; [congruence|intros Hb; congruence]|by split]. }
  clearbody s2. destruct H2 as (Hw2 & Hp2 & Hi2). destruct (external_info v Hv8) as [Hx1 Hx2].
  set (s3 := set_vmcs VMCS_CTRL_VMENTRY_IRQ_INFO (v .| IRQ_INFO_EXT_IRQ .| IRQ_INFO_VALID) s2).
  assert (Hd : delivery g s3 = External v).
  { unfold delivery. subst s3. cbn [set_vmcs vmcs]. rewrite upd_same, Hx1, Hv, Hx2. done. }
  assert (Hp3 : pending_irqs_ s3 = rest) by done. assert (Hi3 : irq_window_active_ s3 = more) by done.
  constructor; rewrite ?Hd, ?Hp3, ?Hp; try done; try congruence.
Qed.

Lemma enter_ok g s : window_ok s -> Forall (in_width 8) (pending_irqs_ s) -> entered g s (TryInjectInterrupt (set_guest g s)).
Proof.
  intros Hw Hf. destruct (has (g_idt_info g) IRQ_INFO_VALID) eqn:Hv; [by apply enter_again|].
  destruct (pending_irqs_ s) as [|v rest] eqn:Hp; [by apply enter_none|]. apply Forall_cons in Hf as [Hv8 _].
  destruct (takes_interrupts g) eqn:Ht; [by apply (enter_takes g s v rest)|by apply (enter_blocked g s v rest)].
Qed.

(** Deliveries go with their entries. *)
Definition entries (es : list IrqEvent) : list GuestState := omap (fun e => match e with Enter g => Some g | _ => None end) es.
Definition delivery_ok (g : GuestState) (d : Delivery) : Prop :=
  match d with
  | Nothing => has (g_idt_info g) IRQ_INFO_VALID = false
  | Again info => has (g_idt_info g) IRQ_INFO_VALID = true /\ info = g_idt_info g .& bnot 64 (1 .<< 12)
  | External _ => has (g_idt_info g) IRQ_INFO_VALID = false /\ takes_interrupts g = true
  end.

Lemma entered_delivery_ok g s s' : entered g s s' -> delivery_ok g (delivery g s').
Proof.
  intros [_ _ _ _ Hn Ha]. unfold delivery_ok. destruct (delivery g s') eqn:E.
  - destruct (has (g_idt_info g) IRQ_INFO_VALID); [by specialize (Ha eq_refl)|done].
  - destruct (has (g_idt_info g) IRQ_INFO_VALID) eqn:Hv; [by specialize (Ha eq_refl) as [= ->]|].
    unfold delivery in E. rewrite Hv in E. by destruct (negb _).
  - destruct (has (g_idt_info g) IRQ_INFO_VALID) eqn:Hv; [by specialize (Ha eq_refl)|]. split; [done|].
    destruct (takes_interrupts g); [done|]. by specialize (Hn eq_refl).
Qed.

(** What an entry owes the guest: the event an earlier entry did not get
    through, else the first interrupt that waits, if the guest takes it. *)
Definition due (g : GuestState) (irqs : list Z) : Delivery :=
  if has (g_idt_info g) IRQ_INFO_VALID then Again (g_idt_info g .& bnot 64 (1 .<< 12))
  else match irqs with v :: _ => if takes_interrupts g then External v else Nothing | [] => Nothing end.

Lemma entered_due g s s' : entered g s s' -> delivery g s' = due g (pending_irqs_ s).
Proof.
  intros H. pose proof (entered_delivery_ok g s s' H) as Hok. destruct H as [_ _ Ho Hw Hn Ha]. unfold due.
  destruct (has (g_idt_info g) IRQ_INFO_VALID) eqn:Hv; [by apply Ha|]. unfold delivery_ok in Hok. rewrite Hv in Hok.
  destruct (delivery g s') as [|info|w].
  - destruct (pending_irqs_ s) as [|v l]; [done|]. destruct (takes_interrupts g); [|done]. by destruct (Hw eq_refl eq_refl ltac:(done)).
  - by destruct Hok.
  - destruct Hok as [_ Ht]. rewrite Ht, Ho. done.
Qed.



(** ** What the VM entry needs *)

(** The state the processor insists on at every entry: LMA and [IA-32e mode
    guest] agree, CR0 and CR4 have the bits VMX fixes, and the bits of CR0 the
    guest's writes are intercepted for are those it wrote. *)
Record entry_ok (s : HvfVCpu) : Prop := {
  eo_lma : Z.testbit (vmcs s VMCS_GUEST_IA32_EFER) 10 = Z.testbit (vmcs s VMCS_CTRL_VMENTRY_CONTROLS) 9;
  eo_ne : Z.testbit (vmcs s VMCS_GUEST_CR0) 5 = true;
  eo_cache : Z.testbit (vmcs s VMCS_GUEST_CR0) 29 = false /\ Z.testbit (vmcs s VMCS_GUEST_CR0) 30 = false;
  eo_pe : Z.testbit (vmcs s VMCS_GUEST_CR0) 0 = Z.testbit (vmcs s VMCS_CTRL_CR0_SHADOW) 0;
  eo_pg : Z.testbit (vmcs s VMCS_GUEST_CR0) 31 = Z.testbit (vmcs s VMCS_CTRL_CR0_SHADOW) 31;
  eo_vmxe : Z.testbit (vmcs s VMCS_GUEST_CR4) 13 = true
}.

(** The fields it speaks of. *)
Definition entry_field (f : VmcsField) : bool :=
  match f with
  | VMCS_GUEST_IA32_EFER | VMCS_CTRL_VMENTRY_CONTROLS | VMCS_GUEST_CR0 | VMCS_CTRL_CR0_SHADOW | VMCS_GUEST_CR4 => true
  | _ => false
  end.

Lemma entry_ok_same s s' : (forall f, entry_field f = true -> vmcs s' f = vmcs s f) -> entry_ok s -> entry_ok s'.
Proof. intros H [A B C E F G]. constructor; rewrite !H by done; done. Qed.

Lemma set_vmcs_other f v s g : g <> f -> vmcs (set_vmcs f v s) g = vmcs s g.
Proof. apply upd_other. Qed.
Lemma set_vmcs_same f v s : vmcs (set_vmcs f v s) f = v.
Proof. apply upd_same. Qed.

(** The fields of a list of writes: the last one counts. *)
Lemma write_vmcs_notin l s f : Forall (fun x => x.1 <> f) l -> vmcs (write_vmcs l s) f = vmcs s f.
Proof.
  intros Hl. unfold write_vmcs. revert s. induction Hl as [|[g v] l Hg Hl IH]; intros s; [done|]. cbn [fold_left]. rewrite IH.
  apply set_vmcs_other. cbn in Hg. congruence.
Qed.

Lemma write_regs_vmcs l s : vmcs (write_regs l s) = vmcs s.
Proof. unfold write_regs. revert s. induction l as [|[r v] l IH]; intros s; [done|]. cbn [fold_left]. by rewrite IH. Qed.

Lemma FixCr0_bit v i : 0 <= i < 64 ->
  Z.testbit (FixCr0 v) i = if i =? 5 then true else if (i =? 29) || (i =? 30) then false else Z.testbit v i.
Proof.
  intros Hi. unfold FixCr0. rewrite Z.land_spec, Z.lor_spec, testbit_bnot by lia. rewrite (proj2 (Z.ltb_lt i 64)) by lia.
  unfold cr0_zeros_mask, cr0_ones_mask, CR0_NE, CR0_NW, CR0_CD. rewrite Z.lor_spec, !Z.shiftl_1_l, !Z.pow2_bits_eqb by lia.
  rewrite (Z.eqb_sym 5), (Z.eqb_sym 29), (Z.eqb_sym 30).
  destruct (Z.eqb_spec i 5) as [->|]; [by rewrite orb_true_r|]. rewrite orb_false_r.
  destruct ((i =? 29) || (i =? 30)); [apply andb_false_r|apply andb_true_r].
Qed.

Lemma set_ia32e_bit on s : Z.testbit (vmcs (set_ia32e on s) VMCS_CTRL_VMENTRY_CONTROLS) 9 = on.
Proof.
  unfold set_ia32e. rewrite set_vmcs_same. pose proof (has_or (vmcs s VMCS_CTRL_VMENTRY_CONTROLS) 9 ltac:(lia)) as H1.
  pose proof (has_andn (vmcs s VMCS_CTRL_VMENTRY_CONTROLS) 9 ltac:(lia)) as H2. rewrite !has_bit in H1, H2 by lia. by destruct on.
Qed.

(** EFER written together with the control. *)
Lemma entry_ok_efer efer s :
  entry_ok s -> entry_ok (set_ia32e (Z.testbit efer 10) (set_vmcs VMCS_GUEST_IA32_EFER efer s)).
Proof.
  intros [A B C E F G]. constructor; by rewrite ?set_ia32e_bit.
Qed.

(** CR0 written together with its shadow. *)
Lemma entry_ok_cr0 cr0 shadow s :
  entry_ok s -> (forall i, i = 0 \/ i = 31 -> Z.testbit cr0 i = Z.testbit shadow i) ->
  entry_ok (write_vmcs [(VMCS_CTRL_CR0_SHADOW, shadow); (VMCS_GUEST_CR0, FixCr0 cr0)] s).
Proof.
  intros [A B C E F G] H. unfold write_vmcs. cbn [fold_left].
  constructor; rewrite ?set_vmcs_same, ?(set_vmcs_other VMCS_GUEST_CR0), ?set_vmcs_same, ?FixCr0_bit by done || lia; try done; cbn [Z.eqb Pos.eqb orb];
    rewrite H by tauto; done.
Qed.

Lemma entry_ok_vmcs s s' : vmcs s' = vmcs s -> entry_ok s -> entry_ok s'.
Proof. intros H. apply entry_ok_same. intros f _. by rewrite H. Qed.

Lemma entry_ok_mov_cr0 v s : entry_ok s -> entry_ok (mov_to_cr0 v s).
Proof.
  intros H. unfold mov_to_cr0. set (s1 := write_vmcs [(VMCS_CTRL_CR0_SHADOW, v); (VMCS_GUEST_CR0, FixCr0 v)] s).
  assert (H1 : entry_ok s1) by (by apply entry_ok_cr0). set (efer := vmcs s1 VMCS_GUEST_IA32_EFER).
  destruct (has v CR0_PG).
  - destruct (has efer EFER_LME); [|done]. replace true with (Z.testbit (efer .| EFER_LMA) 10); [by apply entry_ok_efer|].
    rewrite <- has_bit by lia. by apply (has_or efer 10).
  - destruct (has efer EFER_LMA); [|done]. replace false with (Z.testbit (efer .& bnot 64 EFER_LMA) 10); [by apply entry_ok_efer|].
    rewrite <- has_bit by lia. by apply (has_andn efer 10).
Qed.

Lemma entry_ok_mov_cr n v s : entry_ok s -> entry_ok (mov_to_cr n v s).
Proof.
  intros H. unfold mov_to_cr. destruct (n =? 0); [by apply entry_ok_mov_cr0|]. destruct (n =? 3); [apply (entry_ok_same s); [by intros []|done]|].
  destruct (n =? 4); [|done]. destruct H as [A B C E F G]. constructor; try done.
  unfold write_vmcs. cbn [fold_left]. rewrite set_vmcs_same, Z.lor_spec. apply orb_true_r.
Qed.

Lemma clear_ts_bit v i : 0 <= i < 64 -> i <> 3 -> Z.testbit (v .& bnot 64 (1 .<< 3)) i = Z.testbit v i.
Proof.
  intros Hi H3. rewrite Z.land_spec, testbit_bnot, Z.shiftl_1_l, Z.pow2_bits_eqb by lia.
  rewrite (proj2 (Z.ltb_lt i 64)), (proj2 (Z.eqb_neq 3 i)) by lia. apply andb_true_r.
Qed.

Lemma entry_ok_clts s : entry_ok s -> entry_ok (clts s).
Proof.
  intros [A B C E F G]. unfold clts, write_vmcs. cbn [fold_left].
  constructor; rewrite ?set_vmcs_same, ?(set_vmcs_other VMCS_CTRL_CR0_SHADOW), ?set_vmcs_same, ?clear_ts_bit by done || lia; done.
Qed.

Lemma entry_ok_lmsw v s : entry_ok s -> entry_ok (lmsw v s).
Proof.
  intros [A B C E F G]. unfold lmsw, write_vmcs. cbn [fold_left].
  assert (H31 : forall x, Z.testbit ((x .& bnot 64 0xE) .| (v .& 0xE) .| CR0_PE) 31 = Z.testbit x 31).
  { intros x. rewrite !Z.lor_spec, !Z.land_spec. change (Z.testbit (bnot 64 0xE) 31) with true. change (Z.testbit 0xE 31) with false.
    change (Z.testbit CR0_PE 31) with false. by rewrite andb_true_r, andb_false_r, !orb_false_r. }
  assert (H0 : forall x, Z.testbit ((x .& bnot 64 0xE) .| (v .& 0xE) .| CR0_PE) 0 = true).
  { intros x. rewrite Z.lor_spec. apply orb_true_r. }
  constructor; rewrite ?set_vmcs_same, ?(set_vmcs_other VMCS_CTRL_CR0_SHADOW), ?set_vmcs_same, ?FixCr0_bit by done || lia; try done;
    cbn [Z.eqb Pos.eqb orb]; rewrite ?H0, ?H31; done.
Qed.

Lemma AdvanceRip_vmcs s : vmcs (AdvanceRip s) = vmcs s.
Proof. done. Qed.

Lemma entry_ok_cr_access q s : entry_ok s -> entry_ok (HandleCrAccess q s).2.
Proof.
  intros H. unfold HandleCrAccess. cbn [snd]. apply (entry_ok_vmcs _ _ (AdvanceRip_vmcs _)).
  destruct (_ =? 0); [by apply entry_ok_mov_cr|]. destruct (_ =? 1); [by apply (entry_ok_vmcs s)|].
  destruct (_ =? 2); [by apply entry_ok_clts|by apply entry_ok_lmsw].
Qed.

Section Entry.
Context {M D : Type} `{Device D} (a : AddressSpace).
Context (hv_read_msr : Z -> M -> option Z) (hv_write_msr : Z -> Z -> M -> M) (host_cpuid : Z -> Z -> CpuId).

Lemma entry_ok_wrmsr msr val t s m h s' m' h' :
  entry_ok s -> wrmsr hv_write_msr msr val t s m h = Some (s', m', h') -> entry_ok s'.
Proof.
  intros Hok. unfold wrmsr. destruct (msr =? MSR_IA32_APIC_BASE); [intros [= <- _ _]; by apply (entry_ok_vmcs s)|].
  destruct (msr =? MSR_IA32_EFER).
  { intros [= <- _ _]. unfold EFER_LMA. rewrite has_bit by lia. by apply entry_ok_efer. }
  destruct (msr =? MSR_KVM_WALL_CLOCK_NEW).
  { destruct (GpaToHva (hm_map h) val); [|by intros [= <- _ _]]. intros Hr. by apply bind_Some in Hr as (? & _ & [= <- _ _]). }
  destruct (msr =? MSR_KVM_SYSTEM_TIME_NEW).
  { destruct (has val 1); [|intros [= <- _ _]; by apply (entry_ok_vmcs s)]. intros Hr. apply bind_Some in Hr as (? & _ & [= <- _ _]).
    by apply (entry_ok_vmcs s). }
  repeat match goal with |- context [if ?b then _ else _] => destruct b end; by intros [= <- _ _].
Qed.

Lemma emulate_vmcs is_mmio gpa d s ds s' ds' : emulate a is_mmio gpa d s ds = Some (s', ds') -> vmcs s' = vmcs s.
Proof.
  unfold emulate, rmw. intros He. destruct (d_op d);
    repeat match goal with
    | H : (_ ≫= _) = Some _ |- _ => apply bind_Some in H as (? & ? & H)
    | H : (match ?x with pair _ _ => _ end) = Some _ |- _ => destruct x
    | H : (if ?b then _ else _) = Some _ |- _ => destruct b
    end; by simplify_eq.
Qed.

Lemma ept_vmcs q s ds h x s' ds' : HandleEptViolation a q s ds h = Some (x, s', ds') -> vmcs s' = vmcs s /\ x = kContinue.
Proof.
  unfold HandleEptViolation. destruct (has _ 1); [by intros [= <- <- _]|]. destruct (negb _ && negb _); [by intros [= <- <- _]|].
  intros Hr. apply bind_Some in Hr as (g & _ & Hr). apply bind_Some in Hr as (d & _ & Hr). destruct d as [d|].
  - apply bind_Some in Hr as ([s1 ds1] & He & [= <- <- _]). split; [|done]. apply emulate_vmcs in He. exact He.
  - injection Hr as <- <- _. split; [|done]. by destruct (0 <? _).
Qed.

Lemma io_vmcs q s ds x s' ds' : HandleIo a q s ds = Some (x, s', ds') -> vmcs s' = vmcs s /\ x = kContinue.
Proof.
  unfold HandleIo. destruct (has (q .>> 4) 1); [by intros [= <- <- _]|]. destruct (has (q .>> 3) 1); intros Hr;
    apply bind_Some in Hr as (y & _ & Hr); [destruct y as [[ds1 v] b]|destruct y as [ds1 b]]; by injection Hr as <- <- _.
Qed.

Lemma msr_continue w t s m h x s' m' h' :
  HandleMsr hv_read_msr hv_write_msr w t s m h = Some (x, s', m', h') -> (entry_ok s -> entry_ok s') /\ x = kContinue.
Proof.
  unfold HandleMsr. destruct w.
  - intros Hr. apply bind_Some in Hr as ([[s1 m1] h1] & Hw & [= <- <- _ _]). split; [|done]. intros H1.
    apply (entry_ok_vmcs s1 _ (AdvanceRip_vmcs _)). by eapply entry_ok_wrmsr.
  - intros [= <- <- _ _]. split; [|done]. by apply entry_ok_vmcs.
Qed.

Lemma entry_ok_handle_exit t s m ds h x s' m' ds' h' :
  handle_exit a hv_read_msr hv_write_msr host_cpuid t s m ds h = Some (x, s', m', ds', h') -> entry_ok s -> entry_ok s'.
Proof.
  unfold handle_exit. intros Hx H1. set (r := vmcs s VMCS_RO_EXIT_REASON .& 0xFFFF) in *. clearbody r.
  repeat match goal with
  | H : (if ?b then _ else _) = Some _ |- _ => destruct b
  end;
  first [ injection Hx as _ <- _ _ _; first [exact H1|by apply entry_ok_cr_access|apply (entry_ok_vmcs s); [|exact H1]]
        | apply bind_Some in Hx as (y & Hy & Hx)].
  all: try done.
  1-2: destruct y as [[y s1] ds1]; injection Hx as _ <- _ _ _; first [apply io_vmcs in Hy as [Hy _]|apply ept_vmcs in Hy as [Hy _]]; by apply (entry_ok_vmcs s).
  1: destruct y as [[[y s1] m1] h1]; injection Hx as _ <- _ _ _; apply msr_continue in Hy as [Hy _]; by apply Hy.
  unfold HandleXsetbv. cbn [snd]. by destruct (_ =? 0).
Qed.
End Entry.

Lemma inject_keeps s f : entry_field f = true -> vmcs (TryInjectInterrupt s) f = vmcs s f.
Proof.
  intros Hf. unfold TryInjectInterrupt, reinject.
  destruct (has (vmcs s VMCS_RO_IDT_VECTOR_INFO) IRQ_INFO_VALID).
  - destruct (has (vmcs s VMCS_RO_IDT_VECTOR_INFO) (1 .<< 11)), (negb _ && negb _); by destruct f.
  - destruct (pending_irqs_ s); [by destruct (irq_window_active_ s); destruct f|].
    destruct (negb (can_inject s)); [by destruct (negb (irq_window_active_ s)); destruct f|].
    destruct (negb _ && negb _); [by destruct f|]. destruct (negb _ && _); by destruct f.
Qed.

Lemma cleared_bit v n : 0 <= n < 64 -> Z.testbit (v .& bnot 64 (1 .<< n)) n = false.
Proof. intros Hn. rewrite <- has_bit by lia. by apply has_andn. Qed.

Lemma entry_ok_create created i rs f r0 v0 c s : Create created i rs f r0 v0 c = Some s -> entry_ok s.
Proof.
  unfold Create. destruct created; [|done]. intros [= <-]. constructor; try (cbn; done). symmetry.
  apply (cleared_bit (Cap2Ctrl (cap_entry c) VMENTRY_LOAD_EFER) 9). lia.
Qed.

Lemma entry_ok_boot s : entry_ok s -> entry_ok (SetupBootRegisters s).
Proof. intros [A B C E F G]. by constructor. Qed.

Lemma entry_ok_sipi v s : entry_ok (SetupSipiRegisters v s).
Proof. constructor; try (cbn; done). symmetry. apply (cleared_bit (vmcs s VMCS_CTRL_VMENTRY_CONTROLS) 9). lia. Qed.

(** ** Reachable vCPUs *)

Section Reachable.
Context {M D : Type} `{Device D} (a : AddressSpace).
Context (hv_read_msr : Z -> M -> option Z) (hv_write_msr : Z -> Z -> M -> M) (host_cpuid : Z -> Z -> CpuId).
Context (hv_run : HvfVCpu -> M -> HostMem -> option (HvfVCpu * M * HostMem)).

(** The processor, which saves EFER and the control together and does not let
    the guest change the bits that are intercepted. *)
Definition run_keeps : Prop :=
  forall s m h s' m' h', hv_run s m h = Some (s', m', h') -> entry_ok s -> entry_ok s'.

(** Any sequence of calls, between them any change of devices, memory, MSRs
    and time. *)
Inductive reachable : HvfVCpu -> Prop :=
| reach_create created i rs f r0 v0 c s : Create created i rs f r0 v0 c = Some s -> reachable s
| reach_boot s : reachable s -> reachable (SetupBootRegisters s)
| reach_sipi v s : reachable s -> reachable (SetupSipiRegisters v s)
| reach_queue v s : reachable s -> reachable (QueueInterrupt v s)
| reach_run t s m ds h x s' m' ds' h' :
    reachable s -> RunOnce (D := D) a hv_read_msr hv_write_msr host_cpuid hv_run t s m ds h = Some (x, s', m', ds', h') -> reachable s'.

(** Whatever a guest writes to its control registers and to EFER, and
    however creation, boot, start-up, injection and exits interleave, at each
    entry LMA and [IA-32e mode guest] agree, CR0 and CR4 have the bits VMX
    fixes, and CR0's PE and PG are what the guest wrote. *)
Theorem entry_state_kept s : run_keeps -> reachable s -> entry_ok (TryInjectInterrupt s).
Proof.
  intros Hk Hr. apply (entry_ok_same s); [apply inject_keeps|]. induction Hr as [| | | |t s m ds h x s' m' ds' h' Hr IH Hx].
  - by eapply entry_ok_create.
  - by apply entry_ok_boot.
  - apply entry_ok_sipi.
  - by apply (entry_ok_vmcs s).
  - unfold RunOnce in Hx. assert (Hi : entry_ok (TryInjectInterrupt s)) by (apply (entry_ok_same s); [apply inject_keeps|done]).
    destruct (hv_run (TryInjectInterrupt s) m h) as [[[s1 m1] h1]|] eqn:Er.
    + eapply entry_ok_handle_exit; [exact Hx|]. by eapply Hk.
    + by injection Hx as _ <- _ _ _.
Qed.

(** ** Errors *)

(** The exits that are handled; the others end the machine. *)
Definition handled (reason : Z) : bool :=
  bool_decide (reason ∈ [VMX_REASON_IRQ; VMX_REASON_HLT; VMX_REASON_IO; VMX_REASON_EPT_VIOLATION; VMX_REASON_CPUID; VMX_REASON_RDMSR;
    VMX_REASON_WRMSR; VMX_REASON_MOV_CR; VMX_REASON_XSETBV; VMX_REASON_VMCALL; VMX_REASON_IRQ_WND]).

Definition exit_action (reason : Z) : VCpuExitAction :=
  if negb (handled reason) then kError else if reason =? VMX_REASON_HLT then kHalt else kContinue.

Lemma handle_exit_action t s m ds h x s' m' ds' h' :
  handle_exit (D := D) a hv_read_msr hv_write_msr host_cpuid t s m ds h = Some (x, s', m', ds', h') ->
  x = exit_action (vmcs s VMCS_RO_EXIT_REASON .& 0xFFFF) /\ (x = kError -> (s', m', ds', h') = (s, m, ds, h)).
Proof.
  unfold handle_exit. intros Hx. set (r := vmcs s VMCS_RO_EXIT_REASON .& 0xFFFF) in *. clearbody r. unfold exit_action.
  repeat match goal with
  | H : (if ?b then _ else _) = Some _ |- _ =>
      let E := fresh "E" in destruct b eqn:E; [apply Z.eqb_eq in E; subst r|apply Z.eqb_neq in E]
  end;
  try (injection Hx as <- <- <- <- <-; by split).
  - apply bind_Some in Hx as ([[y s1] ds1] & Hy & Hx). injection Hx as <- _ _ _ _. by apply io_vmcs in Hy as [_ ->].
  - apply bind_Some in Hx as ([[y s1] ds1] & Hy & Hx). injection Hx as <- _ _ _ _. by apply ept_vmcs in Hy as [_ ->].
  - apply bind_Some in Hx as ([[[y s1] m1] h1] & Hy & Hx). injection Hx as <- _ _ _ _. by apply msr_continue in Hy as [_ ->].
  - injection Hx as <- <- <- <- <-. split; [|done]. unfold handled. rewrite bool_decide_false; [done|].
    intros He. rewrite !elem_of_cons in He. destruct_or! He; try congruence. by apply elem_of_nil in He.
Qed.

(** The step's result says what happened: an error exactly when the
    hypervisor's call fails or the guest exits for a reason that is not
    handled, and then nothing has changed besides the injection and what the
    run itself did; a halt exactly for HLT; and otherwise the loop goes on. *)
Theorem run_once_errors t s m ds h x s' m' ds' h' :
  RunOnce (D := D) a hv_read_msr hv_write_msr host_cpuid hv_run t s m ds h = Some (x, s', m', ds', h') ->
  match hv_run (TryInjectInterrupt s) m h with
  | None => x = kError /\ (s', m', ds', h') = (TryInjectInterrupt s, m, ds, h)
  | Some (s1, m1, h1) =>
      x = exit_action (vmcs s1 VMCS_RO_EXIT_REASON .& 0xFFFF) /\ (x = kError -> (s', m', ds', h') = (s1, m1, ds, h1))
  end.
Proof.
  unfold RunOnce. destruct (hv_run (TryInjectInterrupt s) m h) as [[[s1 m1] h1]|].
  - apply handle_exit_action.
  - by intros [= <- <- <- <- <-].
Qed.
End Reachable.

(** ** Types *)

(** Every register, field and member is in its width. *)
Record vcpu_typed (s : HvfVCpu) : Prop := {
  ty_regs : forall r, in_width 64 (regs s r);
  ty_vmcs : forall f, in_width 64 (vmcs s f);
  ty_index : in_width 32 (index_ s);
  ty_clock : in_width 64 (kvmclock_system_time_gpa_ s);
  ty_apic : in_width 64 (apic_base_msr_ s);
  ty_ept : in_width 64 (last_ept_gpa_ s) /\ in_width 32 (last_decode_fail_count_ s);
  ty_irqs : Forall (in_width 32) (pending_irqs_ s)
}.

Lemma typed_reg r v s : in_width 64 v -> vcpu_typed s -> vcpu_typed (set_reg r v s).
Proof. intros Hv [A B C E F G I]. constructor; try done. intros x. cbn [set_reg regs]. unfold upd. by case_decide. Qed.

Lemma typed_vmcs f v s : in_width 64 v -> vcpu_typed s -> vcpu_typed (set_vmcs f v s).
Proof. intros Hv [A B C E F G I]. constructor; try done. intros x. cbn [set_vmcs vmcs]. unfold upd. by case_decide. Qed.

Lemma typed_write_regs l s : Forall (fun x => in_width 64 x.2) l -> vcpu_typed s -> vcpu_typed (write_regs l s).
Proof.
  intros Hl. unfold write_regs. revert s. induction Hl as [|[r v] l Hv Hl IH]; intros s Hs; [done|]. cbn [fold_left].
  apply IH. by apply typed_reg.
Qed.

Lemma typed_write_vmcs l s : Forall (fun x => in_width 64 x.2) l -> vcpu_typed s -> vcpu_typed (write_vmcs l s).
Proof.
  intros Hl. unfold write_vmcs. revert s. induction Hl as [|[r v] l Hv Hl IH]; intros s Hs; [done|]. cbn [fold_left].
  apply IH. by apply typed_vmcs.
Qed.

Lemma typed_irqs q w s : Forall (in_width 32) q -> vcpu_typed s -> vcpu_typed (set_irqs q w s).
Proof. intros Hq [A B C E F G I]. by constructor. Qed.

Lemma typed_ept gpa n s : in_width 64 gpa -> in_width 32 n -> vcpu_typed s -> vcpu_typed (set_ept gpa n s).
Proof. intros Hg Hn [A B C E F G I]. by constructor. Qed.

Lemma width_bnot w v : 0 <= w -> in_width w (bnot w v).
Proof. intros. by apply wrap_in_width. Qed.

Lemma width_32_64 v : in_width 32 v -> in_width 64 v.
Proof. by apply in_width_le. Qed.

(** The writes of a list, one by one. *)
Ltac writes := repeat (apply Forall_cons; split); [..|apply Forall_nil_2]; cbn [snd].

(** A width: masks before what is masked. *)
Ltac wd :=
  repeat first
  [ done | eassumption | apply width_bnot; lia | apply wrap_in_width; lia
  | apply in_width_lor; [lia| |] | apply in_width_land_r; [lia|solve [wd]] | apply in_width_land_l; [lia|]
  | apply in_width_shiftr; [lia|lia|] | apply ty_regs | apply ty_vmcs | apply width_32_64 ].

Lemma typed_rip s : vcpu_typed s -> vcpu_typed (AdvanceRip s).
Proof. intros Hs. apply typed_reg; [wd|done]. Qed.

Lemma width_edx_eax s : vcpu_typed s -> in_width 64 (edx_eax s).
Proof. intros Hs. unfold edx_eax. wd. Qed.

Lemma width_Mask sz : in_width 64 (Mask sz).
Proof. unfold Mask. destruct (8 <=? sz); wd. Qed.

Lemma typed_window on s : vcpu_typed s -> vcpu_typed (set_window on s).
Proof.
  intros Hs. apply typed_irqs; [apply (ty_irqs _ Hs)|]. apply typed_vmcs; [|done]. destruct on; wd.
Qed.

Lemma typed_inject s : vcpu_typed s -> vcpu_typed (TryInjectInterrupt s).
Proof.
  intros Hs. unfold TryInjectInterrupt, reinject. destruct (has _ IRQ_INFO_VALID).
  - match goal with |- vcpu_typed (if _ then set_window true ?x else ?x) => assert (Hx : vcpu_typed x) end.
    { destruct (has _ (1 .<< 11)); repeat (apply typed_vmcs; [|]); try done; cbn [set_vmcs vmcs]; wd. }
    destruct (_ && _); [by apply typed_window|done].
  - destruct (pending_irqs_ s) as [|v rest] eqn:Ep; [destruct (irq_window_active_ s); [by apply typed_window|done]|].
    destruct (negb (can_inject s)); [destruct (negb (irq_window_active_ s)); [by apply typed_window|done]|].
    pose proof (ty_irqs _ Hs) as Hq. rewrite Ep in Hq. apply Forall_cons in Hq as [Hv Hq].
    apply typed_vmcs; [wd|]. assert (H1 : vcpu_typed (set_irqs rest (irq_window_active_ s) s)) by (by apply typed_irqs).
    destruct (_ && _); [by apply typed_window|]. destruct (_ && _); [by apply typed_window|done].
Qed.

Lemma typed_cr q s : vcpu_typed s -> vcpu_typed (HandleCrAccess q s).2.
Proof.
  intros Hs. apply typed_rip. destruct (_ =? 0).
  - pose proof (ty_regs _ Hs (reg_map ((q .>> 8) .& 0xF))) as Hv. set (v := regs s _) in *. clearbody v. unfold mov_to_cr.
    destruct (_ =? 0); [|destruct (_ =? 3); [by apply typed_vmcs|]; destruct (_ =? 4); [|done]; apply typed_write_vmcs; [|done]; writes; wd].
    unfold mov_to_cr0. assert (H1 : vcpu_typed (write_vmcs [(VMCS_CTRL_CR0_SHADOW, v); (VMCS_GUEST_CR0, FixCr0 v)] s)).
    { apply typed_write_vmcs; [|done]. writes; [done|unfold FixCr0; wd]. }
    set (s1 := write_vmcs _ s) in *. clearbody s1. unfold set_ia32e.
    repeat match goal with |- context [if ?b then _ else _] => destruct b end; try done; repeat (apply typed_vmcs; [cbn [set_vmcs vmcs]; wd|]); done.
  - destruct (_ =? 1).
    + apply typed_reg; [|done]. unfold mov_from_cr. repeat match goal with |- context [if ?b then _ else _] => destruct b end; wd.
    + destruct (_ =? 2); apply typed_write_vmcs; try done; writes; unfold FixCr0; wd.
Qed.

Section Typed.
Context {M D : Type} `{Device D} (a : AddressSpace).
Context (hv_read_msr : Z -> M -> option Z) (hv_write_msr : Z -> Z -> M -> M) (host_cpuid : Z -> Z -> CpuId).
Context (hv_run : HvfVCpu -> M -> HostMem -> option (HvfVCpu * M * HostMem)).

(** The host's side keeps to the widths of its interface. *)
Record host_typed : Prop := {
  ht_msr : forall msr m v, hv_read_msr msr m = Some v -> in_width 64 v;
  ht_cpuid : forall l n, in_width 32 (eax (host_cpuid l n)) /\ in_width 32 (ebx (host_cpuid l n)) /\ in_width 32 (ecx (host_cpuid l n))
    /\ in_width 32 (edx (host_cpuid l n));
  ht_run : forall s m h s' m' h', hv_run s m h = Some (s', m', h') -> vcpu_typed s -> vcpu_typed s'
}.

Lemma typed_emulate is_mmio gpa d s ds s' ds' :
  vcpu_typed s -> emulate a is_mmio gpa d s ds = Some (s', ds') -> vcpu_typed s'.
Proof.
  intros Hs. pose proof (width_Mask (d_size d)) as Hm. unfold emulate, rmw. intros He. destruct (d_op d);
    repeat match goal with
    | H : (_ ≫= _) = Some _ |- _ => apply bind_Some in H as (? & ? & H)
    | H : (match ?x with pair _ _ => _ end) = Some _ |- _ => destruct x
    | H : (if ?b then Some _ else _ ≫= _) = Some _ |- _ => destruct b
    | H : (if ?b then _ ≫= _ else Some _) = Some _ |- _ => destruct b
    end; injection He as <- <-; try done; (apply typed_reg; [|done]); try (destruct (has _ _)); wd.
Qed.

Lemma typed_ept_exit q s ds h x s' ds' :
  vcpu_typed s -> HandleEptViolation a q s ds h = Some (x, s', ds') -> vcpu_typed s'.
Proof.
  intros Hs. unfold HandleEptViolation. destruct (ty_ept _ Hs) as [Hg Hn].
  assert (H1 : vcpu_typed (set_ept (vmcs s VMCS_GUEST_PHYSICAL_ADDRESS) (last_decode_fail_count_ s) s)) by (apply typed_ept; [wd|done|done]).
  set (s1 := set_ept _ _ s) in *. clearbody s1. destruct (has _ 1); [by intros [= _ <- _]|]. destruct (negb _ && negb _); [by intros [= _ <- _]|].
  intros Hr. apply bind_Some in Hr as (g & _ & Hr). apply bind_Some in Hr as (d & _ & Hr). destruct d as [d|].
  - apply bind_Some in Hr as ([s2 ds2] & He & [= _ <- _]). apply typed_reg; [wd|]. by eapply typed_emulate.
  - injection Hr as _ <- _. destruct (ty_ept _ H1) as [Hg1 Hn1].
    assert (H2 : vcpu_typed (set_ept (last_ept_gpa_ s1) (u32 (last_decode_fail_count_ s1 + 1)) s1)) by (apply typed_ept; [done|wd|done]).
    destruct (0 <? _); [|done]. apply typed_reg; [wd|done].
Qed.

Lemma typed_io q s ds x s' ds' : vcpu_typed s -> HandleIo a q s ds = Some (x, s', ds') -> vcpu_typed s'.
Proof.
  intros Hs. unfold HandleIo. destruct (has (q .>> 4) 1); [intros [= _ <- _]; by apply typed_rip|].
  destruct (has (q .>> 3) 1); intros Hr; apply bind_Some in Hr as (y & _ & Hr); [destruct y as [[ds1 v] b]|destruct y as [ds1 b]];
    injection Hr as _ <- _; apply typed_rip; [|done]. apply typed_reg; [wd|done].
Qed.

Lemma width_clear_bits l v : in_width 32 v -> in_width 32 (clear_bits l v).
Proof. unfold clear_bits. revert v. induction l as [|n l IH]; intros v Hv; [done|]. cbn [fold_left]. apply IH. wd. Qed.

Lemma typed_cpuid s : host_typed -> vcpu_typed s -> vcpu_typed (HandleCpuid host_cpuid s).2.
Proof.
  intros Hh Hs. apply typed_rip. pose proof (ty_index _ Hs) as Hi.
  assert (Hr : forall l n, let r := guest_cpuid host_cpuid (index_ s) l n in
    in_width 32 (eax r) /\ in_width 32 (ebx r) /\ in_width 32 (ecx r) /\ in_width 32 (edx r)).
  { intros l n. destruct (ht_cpuid Hh l n) as (A & B & C & E). unfold guest_cpuid.
    repeat match goal with |- context [if ?b then _ else _] => destruct b end; cbn [eax ebx ecx edx]; split_and!;
      repeat first [apply width_clear_bits | done | apply in_width_lor; [lia| |] | apply wrap_in_width; lia | apply in_width_land_l; [lia|]]. }
  match goal with |- vcpu_typed (write_regs [(_, eax ?r); _; _; _] s) => assert (Hr' := Hr (u32 (regs s HV_X86_RAX)) (u32 (regs s HV_X86_RCX))); set (r0 := r) in * end.
  cbn zeta in Hr'. fold r0 in Hr'. destruct Hr' as (A & B & C & E). apply typed_write_regs; [|done]. writes; wd.
Qed.

Lemma typed_wrmsr msr val t s m h s' m' h' :
  in_width 64 val -> vcpu_typed s -> wrmsr hv_write_msr msr val t s m h = Some (s', m', h') -> vcpu_typed s'.
Proof.
  intros Hv Hs. assert (Hk : forall g e, in_width 64 g -> vcpu_typed (set_kvmclock g e s)) by (intros g e Hg; destruct Hs; by constructor).
  unfold wrmsr. destruct (msr =? MSR_IA32_APIC_BASE).
  { intros [= <- _ _]. assert (Ha : in_width 64 ((val .& bnot 64 (1 .<< 10)) .| (1 .<< 11))) by wd. destruct Hs. by constructor. }
  destruct (msr =? MSR_IA32_EFER).
  { intros [= <- _ _]. unfold set_ia32e. assert (H1 : vcpu_typed (set_vmcs VMCS_GUEST_IA32_EFER val s)) by (by apply typed_vmcs).
    apply typed_vmcs; [|done]. destruct (has val EFER_LMA); wd. }
  destruct (msr =? MSR_KVM_WALL_CLOCK_NEW).
  { destruct (GpaToHva (hm_map h) val); [|by intros [= <- _ _]]. intros Hr. by apply bind_Some in Hr as (? & _ & [= <- _ _]). }
  destruct (msr =? MSR_KVM_SYSTEM_TIME_NEW).
  { destruct (has val 1); [intros Hr; apply bind_Some in Hr as (? & _ & [= <- _ _])|intros [= <- _ _]]; apply Hk; [wd|by apply ty_clock]. }
  repeat match goal with |- context [if ?b then _ else _] => destruct b end; by intros [= <- _ _].
Qed.

Lemma width_rdmsr msr s m : host_typed -> vcpu_typed s -> in_width 64 (rdmsr hv_read_msr msr s m).
Proof.
  intros Hh Hs. pose proof (ty_apic _ Hs). unfold rdmsr. repeat match goal with |- context [if ?b then _ else _] => destruct b end; try (wd; fail).
  destruct (hv_read_msr msr m) eqn:E; [by eapply ht_msr|done].
Qed.

Lemma typed_msr w t s m h x s' m' h' :
  host_typed -> vcpu_typed s -> HandleMsr hv_read_msr hv_write_msr w t s m h = Some (x, s', m', h') -> vcpu_typed s'.
Proof.
  intros Hh Hs. unfold HandleMsr. destruct w.
  - intros Hr. apply bind_Some in Hr as ([[s1 m1] h1] & Hw & [= _ <- _ _]). apply typed_rip. eapply typed_wrmsr; [|exact Hs|exact Hw]. by apply width_edx_eax.
  - intros [= _ <- _ _]. apply typed_rip. pose proof (width_rdmsr (u32 (regs s HV_X86_RCX)) s m Hh Hs) as Hv.
    do 2 (apply typed_reg; [wd|]). done.
Qed.

Lemma typed_handle_exit t s m ds h x s' m' ds' h' :
  host_typed -> vcpu_typed s -> handle_exit a hv_read_msr hv_write_msr host_cpuid t s m ds h = Some (x, s', m', ds', h') -> vcpu_typed s'.
Proof.
  intros Hh Hs. unfold handle_exit. intros Hx. set (r := vmcs s VMCS_RO_EXIT_REASON .& 0xFFFF) in *. clearbody r.
  destruct (r =? VMX_REASON_IRQ); [by injection Hx as _ <- _ _ _|].
  destruct (r =? VMX_REASON_HLT); [injection Hx as _ <- _ _ _; by apply typed_rip|].
  destruct (r =? VMX_REASON_IO); [apply bind_Some in Hx as ([[y s1] ds1] & Hy & [= _ <- _ _ _]); by eapply typed_io|].
  destruct (r =? VMX_REASON_EPT_VIOLATION); [apply bind_Some in Hx as ([[y s1] ds1] & Hy & [= _ <- _ _ _]); by eapply typed_ept_exit|].
  destruct (r =? VMX_REASON_CPUID); [injection Hx as _ <- _ _ _; by apply typed_cpuid|].
  destruct (r =? VMX_REASON_RDMSR); [apply bind_Some in Hx as ([[[y s1] m1] h1] & Hy & [= _ <- _ _ _]); by eapply typed_msr|].
  destruct (r =? VMX_REASON_WRMSR); [apply bind_Some in Hx as ([[[y s1] m1] h1] & Hy & [= _ <- _ _ _]); by eapply typed_msr|].
  destruct (r =? VMX_REASON_MOV_CR); [injection Hx as _ <- _ _ _; by apply typed_cr|].
  destruct (r =? VMX_REASON_TRIPLE_FAULT); [by injection Hx as _ <- _ _ _|].
  destruct (r =? VMX_REASON_XSETBV).
  { injection Hx as _ <- _ _ _. apply typed_rip. destruct (_ =? 0); [|done]. apply typed_reg; [by apply width_edx_eax|done]. }
  destruct (r =? VMX_REASON_EPT_MISCONFIG); [by injection Hx as _ <- _ _ _|].
  destruct (r =? VMX_REASON_VMCALL); [injection Hx as _ <- _ _ _; apply typed_rip, typed_reg; done|].
  destruct (r =? VMX_REASON_IRQ_WND), (r =? VMX_REASON_VMENTRY_GUEST); by injection Hx as _ <- _ _ _.
Qed.

End Typed.

(** ** Examples *)

#[local] Existing Instance constant_device.

Definition ex_caps : HvCaps := mkCaps (2 ^ 64 - 1) (2 ^ 64 - 1) (2 ^ 64 - 1) (2 ^ 64 - 1) (2 ^ 64 - 1).
Definition ex_rdmsr (msr : Z) (m : unit) : option Z := None.
Definition ex_wrmsr (msr v : Z) (m : unit) : unit := m.
Definition ex_cpuid (l n : Z) : CpuId := mkCpuId 0 0 0 0.
(** The guest does nothing, or exits for a reason. *)
Definition ex_run (reason : Z) (s : HvfVCpu) (m : unit) (h : HostMem) : option (HvfVCpu * unit * HostMem) :=
  Some (set_vmcs VMCS_RO_EXIT_REASON reason s, m, h).
Definition ex_time : HostTime := mkTime 0 0 0 0.

(** A processor that was created and started. *)
Lemma entry_state_kept_witness :
  entry_ok (TryInjectInterrupt (SetupSipiRegisters 0x9A (SetupVmcs ex_caps (mkVCpu (fun _ => 0) (fun _ => 0) 1 0x4000 0 0 false 0xFEE00800 0 0 [] false)))).
Proof.
  apply (entry_state_kept (D := Z) ex_space ex_rdmsr ex_wrmsr ex_cpuid (ex_run 12)).
  - intros s m h s' m' h' [= <- _ _]. apply entry_ok_same. intros []; done.
  - apply reach_sipi. eapply (reach_create _ _ _ _ _ true 1 0x4000 0 (fun _ => 0) (fun _ => 0) ex_caps). reflexivity.
Defined.

(** A triple fault. *)
Lemma run_once_errors_witness :
  RunOnce (D := Z) ex_space ex_rdmsr ex_wrmsr ex_cpuid (ex_run 2) ex_time ex_vcpu tt [] ex_mem
  = Some (kError, set_vmcs VMCS_RO_EXIT_REASON 2 (TryInjectInterrupt ex_vcpu), tt, [], ex_mem)
  /\ kError = exit_action 2.
Proof.
  assert (E : RunOnce (D := Z) ex_space ex_rdmsr ex_wrmsr ex_cpuid (ex_run 2) ex_time ex_vcpu tt [] ex_mem
    = Some (kError, set_vmcs VMCS_RO_EXIT_REASON 2 (TryInjectInterrupt ex_vcpu), tt, [], ex_mem)) by reflexivity.
  split; [exact E|]. exact (proj1 (run_once_errors (D := Z) ex_space ex_rdmsr ex_wrmsr ex_cpuid (ex_run 2) ex_time ex_vcpu tt [] ex_mem _ _ _ _ _ E)).
Defined.

Lemma ex_vcpu_typed : vcpu_typed ex_vcpu.
Proof.
  constructor.
  - intros r. destruct r as [n| | |]; [|by vm_compute..]. destruct n as [|[p|p|]|p]; by vm_compute.
  - intros f. by destruct f; vm_compute.
  - by vm_compute.
  - by vm_compute.
  - by vm_compute.
  - by split; vm_compute.
  - constructor.
Qed.

Lemma ex_host_typed : host_typed ex_rdmsr ex_cpuid (ex_run 12).
Proof.
  split.
  - done.
  - intros l n. by vm_compute.
  - intros s m h s' m' h' [= <- _ _] Hs. by apply typed_vmcs.
Qed.


(** What the guest reads as CR0, the shadow's bits where its mask is set and
    the register's elsewhere, is what it wrote. *)
Lemma cr0_view v s i :
  0 <= i < 64 -> vmcs s VMCS_CTRL_CR0_MASK = (cr0_ones_mask .| cr0_zeros_mask) .| CR0_PG .| CR0_PE ->
  let s' := mov_to_cr 0 v s in
  Z.testbit (if Z.testbit (vmcs s' VMCS_CTRL_CR0_MASK) i then vmcs s' VMCS_CTRL_CR0_SHADOW else vmcs s' VMCS_GUEST_CR0) i = Z.testbit v i.
Proof.
  intros Hi Hm s'. assert (H1 : vmcs s' VMCS_CTRL_CR0_MASK = vmcs s VMCS_CTRL_CR0_MASK /\ vmcs s' VMCS_CTRL_CR0_SHADOW = v /\ vmcs s' VMCS_GUEST_CR0 = FixCr0 v).
  { subst s'. change (mov_to_cr 0 v s) with (mov_to_cr0 v s). unfold mov_to_cr0. destruct (has v CR0_PG), (has _ _); by split_and!. }
  destruct H1 as (-> & -> & ->). rewrite Hm. destruct (Z.testbit (cr0_ones_mask .| cr0_zeros_mask .| CR0_PG .| CR0_PE) i) eqn:E; [done|]. rewrite FixCr0_bit by done.
  destruct (Z.eqb_spec i 5) as [->|]; [done|]. destruct (Z.eqb_spec i 29) as [->|]; [done|]. by destruct (Z.eqb_spec i 30) as [->|].
Qed.
